(* ===== verification/_CoqProject ===== *)
-Q . S2P
Prelude.v
JsString.v
Json.v
Estree.v
JsNumber.v
Reports.v
Lva.v
Ast.v
ReachingDefs.v
DeadStores.v
RedundantAssign.v
Protobuf.v
Metrics.v
Highlighting.v
Issues.v
LinterConfig.v
Cognitive.v
Programs.v
Analyzer.v
Projects.v
Bridge.v
Results.v
Embedded.v
RegexClasses.v
RegexLocations.v
Duplicates.v
Modules.v
Pragmas.v
Tables.v
Manifests.v
CommentedCode.v
Regexpp.v
RegexRules.v
RegexComplexity.v
Decorators.v
Accessors.v
Css.v
Traversal.v
Loops.v
Returns.v
Conditions.v
Rewrites.v
NamedGroups.v
Aws.v
AwsRules.v
AwsPolicies.v
AwsNetwork.v
AwsProtocols.v
Complexities.v
Calls.v
Express.v
Statements.v
Variables.v
Globals.v
Names.v
Tests.v
Functions.v
Texts.v
