(* ===== verification/Prelude.v ===== *)
(** * The analysis core of SonarJS, modelled and verified

    SonarJS analyses JavaScript and TypeScript for SonarQube. A Java plugin sends
    requests to a Node process (the bridge); the process parses files into ESTree
    trees, with TypeScript programs when there are any, runs ESLint on them with the
    rules of a quality profile, turns the messages of ESLint into issues, computes
    metrics and highlighting from the same tree, and serializes the tree for the
    plugin. This development models the TypeScript code that does this work, under
    [src/packages], as executable functions, and proves what the code guarantees
    and, where it does not hold, what it does instead.

    ** The parts of the program and the files of the development

    Generic support.
    - [Prelude]: fallible code ([result], [let!]), JavaScript's [Set] and [Map] as
      insertion-ordered lists, stable sorting, arrays used as stacks, automation.
    - [JsString]: the string methods the components use, on UTF-8 encodings.
    - [Json]: [JSON.stringify] and [JSON.parse], proved inverse to each other, and
      the interface of the values exchanged through them, the class [JsonCodec].
    - [Estree]: ESTree nodes (a type, a location, named properties; identity is a
      number), ESLint's [SourceCode], [helpers/ancestor.ts],
      [linter/visitors/visitor.ts].
    - [Ast]: [rules/helpers/ast.ts]: predicates on nodes; scopes, variables and
      references as tables indexed by identity.

    From a request to the analysis of files.
    - [Bridge]: [packages/bridge/src]: the HTTP server, the worker thread, the
      timeout and the dispatch of requests as a transition system; the handlers are
      those of the other files, behind parameters.
    - [Projects]: [analysis/projectAnalysis]: the files of a project, program by
      program. It uses [Programs] and, through the interface [FileAnalysis], which
      [Analyzer] implements, the analysis of a file.
    - [Programs]: [program/program.ts], [program/tsconfigs]: the programs in memory
      and their identifiers, the configuration files.
    - [Analyzer]: [analysis/analyzer.ts], [builders/build.ts], [parsers]: the choice
      of the parser and the results by kind of file.
    - [Embedded]: the snippets of HTML and YAML files ([packages/html],
      [packages/yaml], [jsts/src/embedded]) and the patch of their trees, which
      goes through [visit]'s nodes; the issues of [Issues] are filtered by it.

    Data flow and the rules built on it. ESLint cuts a function in code path
    segments; a segment here has an id, the ids of its neighbours and the
    references met on it.
    - [Lva]: [rules/helpers/lva.ts], used by
    - [DeadStores]: the rule S1854. [state] has the variables of [create], [handle]
      has a branch per ESLint event, [programExit] makes the checks.
    - [ReachingDefs]: [rules/helpers/reaching-definitions.ts], used by
    - [RedundantAssign]: the rule S4165, with the same organisation.

    Rules with a state, over the walk of ESLint or over the code paths it finds.
    - [Reports]: what rules give to ESLint, with secondary locations as places.
    - [Traversal]: the walk of a tree as a list of events, the runs of a rule over
      it, and functions defined by recursion on the children, to specify them.
    - [Cognitive]: the rule S3776, a stack machine driven by the traversal;
      [enter] and [leave] run the selectors in ESLint's order.
    - [Complexities]: the rules S1067 and S1541, on the number of branches.
    - [Loops]: the rules S2251, S888 and S1994, on the counters of [for] loops, and
      the executions of counting loops, on rationals with a rounding.
    - [Returns]: the rules S3801 and S3516, two instances of a machine on code paths.
    - [Conditions]: the rule S2589, conditions whose value is known in a branch.
    - [Accessors]: the rule S4275, a stack of the fields of classes and objects.
    - [Rewrites]: the rules S4143 (elements set twice in a row) and S1226 (parameters
      reassigned before they are read), a stack of contexts.
    - [Statements]: the rules on statements and their layout: S135, S128 and S1751 as
      steps, S2681 S3972 S3973 S131 S1126 S1121 S2310 S138 S107 S1110 S2757 S1472.
    - [Variables]: the rules on the uses of variables: S2189 S1515 S4158 S4030 S1172
      S1488 S1128, with [helpers/vue.ts], [quickfix.ts] and [collection.ts].
    - [Functions]: rules on functions, their calls and nesting: S930 S3699 S4322 S3686
      S2004 S1219 S134 S3626 S3616 S1479 S1066 S1125 S881 S2428 S3499 S1848 S4634 S5958.
    - [Decorators]: [helpers/decorators], which merge rules and replace reports.

    Rules on names and values.
    - [Duplicates]: [helpers/equivalence.ts] and [helpers/conditions.ts], with the
      rules S1862, S3923, S1871, S1764 and S4144.
    - [Modules]: [helpers/module.ts]: the fully qualified names of imported values,
      which most rules on libraries match, on the scopes of [Ast].
    - [Aws]: [helpers/result.ts] and [helpers/aws]: the navigation through the
      arguments of constructs, on [Modules] and [Ast]; [AwsRules] has the nineteen
      rules built on it, [AwsPolicies] and [AwsNetwork] their specifications, [AwsProtocols]
      the parts of S5332 and S4423 on these constructs.
    - [Calls]: twenty-eight rules on calls of the functions of Node and of packages, with
      the helpers of [helpers/ast.ts] on arguments; [Express]: [helpers/express.ts] and the
      rules on its applications; [Tests]: the helpers for test libraries and nine rules.
    - [Globals]: [helpers/globals.ts], the names that environments define, and [Names]: the
      rules on names: S2137 S2424 S2703 S3798 S100 S101 S117 S1527 S1526 S2392 S3827 S3513
      S3514 S3524 S1528 S1533 S1529.
    - [Tables]: [helpers/table.ts]: the grid of JSX tables; the rules S5256, S5257
      and S5260.
    - [JsNumber]: texts and values as numbers ([Number], [parseInt]).

    Regular expressions and texts.
    - [RegexClasses]: the code points of character classes and the rule S5869.
    - [RegexLocations]: [helpers/regex]: regular expressions in string literals and
      the locations of their nodes; the rule S6326.
    - [Regexpp]: the trees of regular expressions, the visitor, and matching as a
      relation, to specify the rules of [RegexRules] (S2639, S5842, S5850, S6019, S6035,
      S6323, S6324, S6331, S6353, S6397, S5868) and [RegexComplexity] (S5843).
    - [NamedGroups]: the rule S5860, the groups of expressions and their uses.
    - [Texts]: rules on literals, comments and files: S1451 S1192 S1313 S2068 S6418 S5443
      S5332 S1135 S3317 S104, and S1481 S6443 S5264 S1940 S2737 S3358 S1439 S1264 S126.
    - [CommentedCode]: the rule S125 and [helpers/recognizers].
    - [Css]: [packages/css]: the configuration, the text linted, the rules S5362
      and S125 for style sheets.
    - [Manifests]: [helpers/package-json.ts], [helpers/find-up.ts] and
      [helpers/find-files.ts]: the dependencies of a project, with their caches.

    From rules to results.
    - [Issues]: [linter/issues], [linter/quickfixes], [linter/parameters],
      [rules/helpers/location.ts] and [generate-meta.ts]. [report] packs secondary
      locations in a text with [Json], [transformMessages] unpacks them.
    - [LinterConfig]: [linter/config], [linter/wrapper.ts], [linter/linters.ts]. The
      markers [extendRuleConfig] gives a rule are the ones [Issues.report] reads.
    - [Pragmas]: [linter/pragmas.ts]: the names of rules in [eslint-disable] comments.
    - [Metrics]: [linter/visitors/metrics]. [Highlighting]: syntax highlighting,
      symbol highlighting and copy-paste tokens, in [linter/visitors].
    - [Results]: what the internal rules send as texts and the wrapper reads back:
      the instances of [JsonCodec] of [Highlighting] meet [Issues].
    - [Protobuf]: [parsers/ast.ts] and the schema [parsers/estree.proto].

    ** What the theorems show

    - Data flow. [lva] ends and computes exactly liveness along paths, on every
      well-formed map of segments not yet propagated (C1). When
      [reachingDefinitions] returns, its result solves the data flow equations and
      covers every execution of plain writes (C2, C3); it does not always return
      (C4).
    - Rules on data flow. Each report of S1854 is a write of a local variable that no
      execution reads after it, on a segment that holds it, and [checkSegment] reports
      exactly those it should (C5, C6). Each report of S4165 assigns the literal the
      variable already holds, in the executions in which it was assigned, when all the
      writes are plain and none is skipped (C7).
    - Rules with a state. S3776 computes a compositional complexity, defined by
      recursion on the tree, on trees where no branch of a conditional expression is
      a function (C8); S1067 reports what a recursion on the tree counts
      ([Complexities.expressions_reported]). S4275 gives each accessor the fields
      around it ([accessors_meet_their_fields]). The loops that S2251 reports never stop
      (C28), and those that S888 leaves alone as trivial iterators end
      ([trivial_iterators_end]). S3801 reports exactly the inconsistent functions, each looked
      at alone (C29). The conditions that S2589 reports are known, and nothing writes
      their variables in the branch or in another function (C30). S4143 reports
      exactly the elements written twice in a row (C33); what S1226 reports was not read
      before (C34). S135 charges each loop with the jumps out of its parts, but for a
      [continue] that gets out of a [switch] (C37), the search
      of S128 for an exit of the process ends and is exact (C38), and no jump leaves a loop
      that S2189 reports (C40). S2004 and S1219, stacks over the walk, report exactly
      the deep functions and the labels in cases ([deep_functions_reported],
      [labels_in_cases_reported]).
    - Names and values. A condition S1862 reports is never true (C9). The search of a
      qualified name finds what an expression denotes by a relation on the syntax tree,
      and nothing else but in the ways of writing the relation has no rule for (C10); it
      always ends (C11). The silent form of the check of AWS options is its reporting
      form cut at the first report ([silent_check_returns_first_report]), and the properties
      it finds are those on a path of names (C31). The rules on policies and on ingress rules
      report exactly the sensitive ones, on literals (C32, [open_ingress_rules_reported]).
      S2612 reads permissions and reports them by the rights of others, and the
      numbers it misreads by their leading octal digits (C35). A rule made by
      the factory for Express reports the first sensitive middleware of each call (C36).
      S2699 finds the assertions that the code of a test leads to (C39); S3415 checks the
      calls inside tests ([inverted_in_tests]). S2424 finds the identifiers that
      override built-ins, each once ([overridden_once]); S3827 groups those before an
      exclusion by name ([undeclared_identifiers]); S3499 accepts the objects whose shorthand properties are
      grouped ([grouped_shorthands_accepted]). The grid of a table is bounded
      ([grid_is_bounded]).
    - Regular expressions. S5869 reports exactly the
      classes with elements that a character can match both, where its tables are right
      ([supported]), with what ECMAScript says that classes match (C21). The tokens of a
      string literal are those of the grammar of JavaScript exactly when it has none of the
      two constructs that the tokenizer misreads (C22). What S6019 says to write instead of a
      quantifier finds the same match (C25); without backreferences, a repetition that S5842
      does not report consumes characters (C26); the named groups of S5860 have their numbers
      ([groups_have_their_numbers]).
    - Texts. The headers of files are checked as if each came first, whatever is cached
      ([headers_checked_as_first]); S1192 reports exactly the texts repeated enough
      ([repeated_strings_reported]); the operators of S1940 are negations on numbers
      ([inverted_operator_negates]).
    - Embedded code. Patching a tree, a store of objects that the traversal mutates, moves
      each range as many times as its object is reached, and points into the file (C12), the snippets of an
      HTML file are where they say ([html_snippets_positions]).
    - The wrapper. After a successful initialisation a file is linted with exactly
      the rules for its type and language, through at most four configurations
      (C13); directives and comments agree on the mapped names (C14); the message,
      secondary locations and cost a rule reports are the ones of the decoded issue
      (C23); the result of linting is characterised ([transformMessages_spec]).
    - The bridge. A client that waits for each answer gets the result of its own
      request, once (C15), and an idle server shuts down in time (C16); overlapping
      requests get the results of one another ([Bridge.overlapping_requests_mix_results]),
      and a lost connection keeps the server alive ([lost_connection_orphans_bridge]).
    - Projects. Each file of a project has one output, made with the first program
      that has it (C17); identifiers of programs are never reused (C18); the analysis
      ends when references between configurations are not circular (C19) and not
      otherwise (C20). A search of files with a shared cache is the search without
      one (C27).
    - Serialization. The message built conforms to the schema, with its types, for the
      nodes of TSESTree, and the objects that lose something are described (C24); wrappers
      are skipped ([visitNode_skips_wrappers]).
    Theorems without a number state further behaviours: those of highlighting, metrics,
    commented code, style sheets and merged rules, and the defects that the findings cite.

    ** Bounds, fuel and widths

    Loops that are not structural take fuel, and running out of it is an error
    value of its own ([OutOfFuel], [None] and the like). The recursions on a node are
    run with its number of nodes, which every call decreases, so that the value they
    have without fuel is never used. [Lva.lva_fuel] is the number of
    segments plus the number of variables that can still enter an [in] set times
    the neighbours to revisit, and C1 shows it is enough; [Modules.fqn_fuel] is the
    number of variables (C11); [Statements.exit_fuel] counts the edges between segments (C38);
    the grid of a table takes as many turns as the row spans add up to ([grid_is_bounded]). The fuel of [visit_loop], of [traverse], of [events] and of the
    recursions on nodes is the number of nodes, proved enough ([visit_loop_stack],
    [own_complexity_fuel], [visitNode_skips_wrappers], [events_eq], [below_eq]). The searches of
    [Manifests] take the segments of a path ([find_fuel]) or the size of a tree of files; the
    search of the expression of a reference in [NamedGroups] takes a turn per reference
    ([find_regex_ends]). [reachingDefinitions], the
    programs of a project and the resolution of unique writes have no bound (C4,
    C20, [unique_writes_can_cycle]): theorems about them quantify over the fuel, and in [Aws],
    [Calls], [Express] and [Tests] the fuel is the room on the stack, whose end is the
    [RangeError] that the code throws (C35 and C39 say how much is enough).
    Lines, columns and complexities are exact integers: the code's numbers are
    doubles, exact far beyond the sizes of files. The numbers of literals are exact
    rationals; [Loops] has the rounding of additions as a function that preserves the order, or
    the integers. Characters of regular expressions
    and of string literals are UTF-16 code units.

    In [Bridge], the callbacks of the two event loops are atomic, a request is
    handled at the moment its handler settles, and messages between the threads take
    no time; the limit on the size of a request and unknown routes are left out.

    ** What is not modelled

    ESLint (its walk is [Traversal], its order of selectors is in [Cognitive]; its scope and
    code path analyses are data), the parsers (also of HTML, YAML, style sheets and regular
    expressions), the TypeScript compiler, stylelint, protobufjs, jsx-ast-utils,
    functional-red-black-tree, [import()] of rule bundles and the package [globals] are
    parameters or data. Matching leaves out the flag i and back references. Left
    out: the type-dependent helpers, logging and I/O, the generated metadata of rules, the Java
    plugin, and the rules that are not named above. *)

From Stdlib Require Import ZArith Lia.
From stdpp Require Import base list gmap strings sorting.

(** ** Scope and notations *)

Declare Scope js_scope.
Delimit Scope js_scope with js.

(** [a === b] on strings. *)
Infix "=s" := String.eqb (at level 70, no associativity) : js_scope.

Open Scope js_scope.

(** ** Fallible code: a result carries a value or the thrown error *)

Inductive result (E A : Type) : Type :=
| Ok (a : A)
| Throw (e : E).
Arguments Ok {E A} a.
Arguments Throw {E A} e.

Lemma Ok_inj {E A} (a b : A) : @Ok E A a = Ok b -> a = b.
Proof. congruence. Qed.

Definition rbind {E A B : Type} (m : result E A) (f : A -> result E B) : result E B :=
  match m with
  | Ok a => f a
  | Throw e => Throw e
  end.

Notation "'let!' x ':=' m 'in' k" := (rbind m (fun x => k))
  (at level 10, x pattern, m at level 100, k at level 200) : js_scope.

Lemma rbind_ok {E A B} (m : result E A) (f : A -> result E B) b :
  rbind m f = Ok b <-> exists a, m = Ok a /\ f a = Ok b.
Proof. destruct m as [a|e]; cbn; naive_solver. Qed.

Fixpoint rmap_list {E A B : Type} (f : A -> result E B) (l : list A) : result E (list B) :=
  match l with
  | [] => Ok []
  | x :: r => let! y := f x in let! ys := rmap_list f r in Ok (y :: ys)
  end.

Fixpoint rfold {E A S : Type} (f : S -> A -> result E S) (l : list A) (s : S) : result E S :=
  match l with
  | [] => Ok s
  | x :: r => let! s' := f s x in rfold f r s'
  end.

(** ** Generic automation *)

(** Splits the conjunctions and boolean connectives of the hypotheses. *)
Ltac split_bools :=
  repeat match goal with
  | H : andb _ _ = true |- _ => apply andb_true_iff in H; destruct H
  | H : orb _ _ = false |- _ => apply orb_false_iff in H; destruct H
  | H : negb _ = true |- _ => apply negb_true_iff in H
  | H : negb _ = false |- _ => apply negb_false_iff in H
  | H : String.eqb _ _ = true |- _ => apply String.eqb_eq in H
  | H : String.eqb _ _ = false |- _ => apply String.eqb_neq in H
  | H : bool_decide _ = true |- _ => apply bool_decide_eq_true in H
  | H : bool_decide _ = false |- _ => apply bool_decide_eq_false in H
  | H : Z.eqb _ _ = true |- _ => apply Z.eqb_eq in H
  | H : Z.leb _ _ = true |- _ => apply Z.leb_le in H
  | H : Z.ltb _ _ = true |- _ => apply Z.ltb_lt in H
  | H : Z.leb _ _ = false |- _ => apply Z.leb_gt in H
  | H : Z.ltb _ _ = false |- _ => apply Z.ltb_ge in H
  end.

(** Case analysis on the scrutinee of a match or a conditional of the goal. *)
Ltac case_goal :=
  match goal with
  | |- context [match ?x with _ => _ end] => destruct x eqn:?
  end.

(** [rewrite] with the list equations that computations leave behind. *)
Create HintDb js_lists.

(** ** JavaScript truthiness of options and membership tests *)

(** [arr.includes(s)] on an array of strings. *)
Definition includes (s : string) (l : list string) : bool := existsb (String.eqb s) l.

Lemma includes_spec s l : includes s l = true <-> s ∈ l.
Proof.
  unfold includes. rewrite existsb_exists. setoid_rewrite <- list_elem_of_In.
  split.
  - intros (x & Hx & E). apply String.eqb_eq in E. by subst.
  - intros H. exists s. split; [done | apply String.eqb_refl].
Qed.

Lemma includes_false s l : includes s l = false <-> s ∉ l.
Proof. rewrite <- includes_spec. destruct (includes s l); naive_solver. Qed.

(** ** JavaScript [Set]: insertion-ordered, duplicate free *)

Section OrderedSet.
Context {A : Type} `{EqDecision A}.

(** [set.has(x)] *)
Definition set_has (x : A) (s : list A) : bool := bool_decide (x ∈ s).

(** [set.add(x)] *)
Definition set_add (x : A) (s : list A) : list A :=
  if set_has x s then s else s ++ [x].

(** [new Set(xs)] extends the empty set; [set_add_all s xs] extends [s]. *)
Definition set_add_all (s xs : list A) : list A := fold_left (fun s x => set_add x s) xs s.

(** [set.delete(x)] *)
Definition set_delete (x : A) (s : list A) : list A := filter (fun y => y <> x) s.

Lemma set_has_spec x s : set_has x s = true <-> x ∈ s.
Proof. unfold set_has. by rewrite bool_decide_eq_true. Qed.

Lemma set_has_false x s : set_has x s = false <-> x ∉ s.
Proof. unfold set_has. by rewrite bool_decide_eq_false. Qed.

Lemma elem_of_set_add x y s : y ∈ set_add x s <-> y = x \/ y ∈ s.
Proof.
  unfold set_add. destruct (set_has x s) eqn:E.
  - apply set_has_spec in E. naive_solver.
  - set_solver.
Qed.

Lemma NoDup_set_add x s : NoDup s -> NoDup (set_add x s).
Proof.
  intros H. unfold set_add. destruct (set_has x s) eqn:E; [done |].
  apply set_has_false in E. apply NoDup_app. split; [done |].
  split; [set_solver | apply NoDup_singleton].
Qed.

Lemma elem_of_set_add_all xs : forall s y, y ∈ set_add_all s xs <-> y ∈ s \/ y ∈ xs.
Proof.
  induction xs as [|x xs IH]; intros s y; simpl; [set_solver |].
  unfold set_add_all in *. rewrite IH, elem_of_set_add. set_solver.
Qed.

Lemma NoDup_set_add_all xs : forall s, NoDup s -> NoDup (set_add_all s xs).
Proof.
  induction xs as [|x xs IH]; intros s H; simpl; [done |].
  apply IH, NoDup_set_add, H.
Qed.

Lemma elem_of_set_delete x y s : y ∈ set_delete x s <-> y ∈ s /\ y <> x.
Proof. unfold set_delete. rewrite list_elem_of_filter. naive_solver. Qed.

Lemma NoDup_set_delete x s : NoDup s -> NoDup (set_delete x s).
Proof. apply NoDup_filter. Qed.

End OrderedSet.

(** ** JavaScript [Map]: insertion-ordered association list *)

Section OrderedMap.
Context {K V : Type} `{EqDecision K}.

(** [map.get(k)]: [None] is JavaScript's [undefined]. *)
Fixpoint map_get (k : K) (m : list (K * V)) : option V :=
  match m with
  | [] => None
  | (k', v) :: r => if decide (k = k') then Some v else map_get k r
  end.

(** [map.set(k, v)]: an existing key keeps its position. *)
Fixpoint map_set (k : K) (v : V) (m : list (K * V)) : list (K * V) :=
  match m with
  | [] => [(k, v)]
  | (k', v') :: r => if decide (k = k') then (k', v) :: r else (k', v') :: map_set k v r
  end.

(** [map.delete(k)] *)
Definition map_delete (k : K) (m : list (K * V)) : list (K * V) :=
  filter (fun kv => kv.1 <> k) m.

Lemma map_get_set_eq k v m : map_get k (map_set k v m) = Some v.
Proof.
  induction m as [|[k' v'] m IH]; simpl; [by rewrite decide_True |].
  destruct (decide (k = k')); simpl; [by rewrite decide_True | by rewrite decide_False].
Qed.

Lemma map_get_set_ne k k' v m : k <> k' -> map_get k (map_set k' v m) = map_get k m.
Proof.
  intros Hne. induction m as [|[j w] m IH]; simpl; [by rewrite decide_False |].
  destruct (decide (k' = j)) as [->|]; simpl; [by rewrite !decide_False |].
  destruct (decide (k = j)); [done | exact IH].
Qed.

Lemma map_get_set_cases k k' v w m :
  map_get k (map_set k' w m) = Some v -> (k = k' /\ v = w) \/ (k <> k' /\ map_get k m = Some v).
Proof.
  destruct (decide (k = k')) as [->|Hne].
  - rewrite map_get_set_eq. naive_solver.
  - rewrite map_get_set_ne by done. naive_solver.
Qed.

Lemma is_Some_map_set k j v m :
  is_Some (map_get k m) -> is_Some (map_get k (map_set j v m)).
Proof.
  intros H. destruct (decide (k = j)) as [->|]; [rewrite map_get_set_eq; by eexists |].
  by rewrite map_get_set_ne.
Qed.

Lemma map_get_Some_elem k v m : map_get k m = Some v -> (k, v) ∈ m.
Proof.
  induction m as [|[k' v'] m IH]; simpl; [done |].
  destruct (decide (k = k')) as [->|]; intros H; simplify_eq; set_solver.
Qed.

Lemma map_get_None k m : map_get k m = None <-> k ∉ m.*1.
Proof.
  induction m as [|[k' v'] m IH]; simpl; [set_solver |].
  destruct (decide (k = k')) as [->|]; [| rewrite IH]; set_solver.
Qed.

Lemma elem_map_get k v m : NoDup m.*1 -> (k, v) ∈ m -> map_get k m = Some v.
Proof.
  induction m as [|[k' v'] m IH]; simpl; [set_solver |].
  intros [Hk Hm]%NoDup_cons. rewrite elem_of_cons. intros [E|Hin].
  - simplify_eq. by rewrite decide_True.
  - destruct (decide (k = k')) as [->|]; [| by apply IH].
    exfalso. apply Hk. apply list_elem_of_fmap. by exists (k', v).
Qed.

Lemma map_get_delete_eq k m : map_get k (map_delete k m) = None.
Proof.
  apply map_get_None. intros ([k' v] & E & Hin)%list_elem_of_fmap.
  apply list_elem_of_filter in Hin as [Hne _]. naive_solver.
Qed.

Lemma map_get_delete_ne k k' m : k <> k' -> map_get k (map_delete k' m) = map_get k m.
Proof.
  intros Hne. unfold map_delete. induction m as [|[j w] m IH]; [done |].
  rewrite filter_cons. simpl. destruct (decide (k = j)) as [->|Hkj].
  - rewrite decide_True by done. simpl. by rewrite decide_True.
  - destruct (decide (j <> k')); simpl; [by rewrite decide_False | exact IH].
Qed.

Lemma map_set_keys_in k v m : k ∈ m.*1 -> (map_set k v m).*1 = m.*1.
Proof.
  induction m as [|[j w] m IH]; simpl; [set_solver |].
  destruct (decide (k = j)); [done |]. intros H. simpl. f_equal. apply IH. set_solver.
Qed.

Lemma map_set_keys_notin k v m : k ∉ m.*1 -> (map_set k v m).*1 = m.*1 ++ [k].
Proof.
  induction m as [|[j w] m IH]; simpl; [done |].
  destruct (decide (k = j)) as [->|]; [set_solver |].
  intros H. simpl. f_equal. apply IH. set_solver.
Qed.

Lemma NoDup_map_set k v m : NoDup m.*1 -> NoDup (map_set k v m).*1.
Proof.
  intros H. destruct (decide (k ∈ m.*1)) as [Hin|Hin].
  - by rewrite map_set_keys_in.
  - rewrite map_set_keys_notin by done. apply NoDup_app.
    split; [done |]. split; [set_solver | apply NoDup_singleton].
Qed.

End OrderedMap.

(** Facts about the entries of a concrete map with distinct keys, one entry at a
    time. *)
Ltac solve_concrete_map :=
  try (apply (bool_decide_unpack _); by vm_compute);
  intros;
  match goal with G : map_get _ _ = Some _ |- _ => apply map_get_Some_elem in G end;
  set_unfold; destruct_or!; simplify_eq/=; try constructor; try done; set_unfold;
  destruct_or!; subst; try done;
  first [by eexists | eexists; (split; [reflexivity |]); simpl; set_solver].

(** ** [Array.prototype.sort] with a numeric comparison: a stable sort *)

Section SortOn.
Context {A : Type} (key : A -> Z).

(** Inserts before the first element with a strictly greater key, so that
    elements with equal keys keep the order of the input. *)
Fixpoint insert_on (x : A) (l : list A) : list A :=
  match l with
  | [] => [x]
  | y :: r => if (key x <=? key y)%Z then x :: y :: r else y :: insert_on x r
  end.

Definition sort_on (l : list A) : list A := foldr insert_on [] l.

Definition ascending : list A -> Prop := StronglySorted (fun x y => (key x <= key y)%Z).

Lemma insert_on_perm x l : insert_on x l ≡ₚ x :: l.
Proof.
  induction l as [|y l IH]; simpl; [done |].
  destruct (key x <=? key y)%Z; [done |]. rewrite IH. apply Permutation_swap.
Qed.

Lemma sort_on_perm l : sort_on l ≡ₚ l.
Proof. induction l as [|x l IH]; simpl; [done |]. by rewrite insert_on_perm, IH. Qed.

Lemma insert_on_ascending x l : ascending l -> ascending (insert_on x l).
Proof.
  induction 1 as [|y l Hl IH Hall]; simpl.
  - repeat constructor.
  - destruct (Z.leb_spec (key x) (key y)).
    + constructor; [by constructor |]. constructor; [done |].
      eapply Forall_impl; [exact Hall |]. simpl. lia.
    + constructor; [done |]. rewrite insert_on_perm. constructor; [lia | done].
Qed.

Lemma sort_on_ascending l : ascending (sort_on l).
Proof. induction l; simpl; [constructor | by apply insert_on_ascending]. Qed.

Lemma elem_of_sort_on x l : x ∈ sort_on l <-> x ∈ l.
Proof. by rewrite sort_on_perm. Qed.

Lemma NoDup_sort_on l : NoDup l -> NoDup (sort_on l).
Proof. by rewrite sort_on_perm. Qed.

Lemma length_sort_on l : length (sort_on l) = length l.
Proof. by rewrite sort_on_perm. Qed.

(** Stability: the elements of any key keep their relative order. *)
Lemma insert_on_stable x l k :
  filter (fun y => key y = k) (insert_on x l) = filter (fun y => key y = k) (x :: l).
Proof.
  induction l as [|y l IH]; [done |]. simpl insert_on.
  destruct (Z.leb_spec (key x) (key y)); [done |].
  rewrite !filter_cons in *. rewrite IH. repeat case_decide; try done; lia.
Qed.

Lemma sort_on_stable l k :
  filter (fun y => key y = k) (sort_on l) = filter (fun y => key y = k) l.
Proof.
  induction l as [|x l IH]; simpl; [done |].
  rewrite insert_on_stable, !filter_cons, IH. done.
Qed.

End SortOn.

#[export] Hint Resolve sort_on_ascending NoDup_sort_on NoDup_set_add NoDup_set_add_all
  NoDup_nil_2 : js_lists.

(** [Array.from(set).sort((a, b) => a - b)] *)
Definition sort_numbers (l : list Z) : list Z := sort_on (fun z => z) l.

(** ** Small list lemmas shared by the components *)

Lemma elem_of_rev {A} (x : A) l : x ∈ rev l <-> x ∈ l.
Proof. by rewrite !list_elem_of_In, <- in_rev. Qed.

Lemma flat_map_ext_in {A B} (f g : A -> list B) l :
  (forall x, x ∈ l -> f x = g x) -> flat_map f l = flat_map g l.
Proof.
  induction l as [|x l IH]; intros H; simpl; [done |].
  rewrite H by set_solver. f_equal. apply IH. intros y Hy. apply H. set_solver.
Qed.

Lemma fold_left_count {A} (p : A -> bool) l : forall z,
  fold_left (fun n x => if p x then (n + 1)%Z else n) l z
  = (z + Z.of_nat (length (List.filter p l)))%Z.
Proof.
  induction l as [|x l IH]; intros z; simpl; [lia |].
  rewrite IH. destruct (p x); simpl; lia.
Qed.

(** The last element, JavaScript's [arr[arr.length - 1]]. *)
Definition peek {A} (l : list A) : option A := last l.

(** [arr.pop()]: the popped element and the shortened array. *)
Definition pop {A} (l : list A) : option A * list A := (last l, take (length l - 1) l).

Lemma pop_snoc {A} (l : list A) x : pop (l ++ [x]) = (Some x, l).
Proof.
  unfold pop. rewrite last_snoc, length_app. simpl.
  replace (length l + 1 - 1)%nat with (length l) by lia.
  by rewrite take_app_length.
Qed.

Lemma pop_nil {A} : pop (@nil A) = (None, []).
Proof. done. Qed.

Lemma sum_list_with_elem {A} (f : A -> nat) l x : x ∈ l -> (f x <= sum_list_with f l)%nat.
Proof.
  induction l as [|y l IH]; [set_solver |]. simpl.
  intros [->|H]%elem_of_cons; [lia |]. specialize (IH H). lia.
Qed.

(** Membership in what the Standard Library's functions on lists give. *)
Lemma elem_of_flat_map {A B} (f : A -> list B) l y : y ∈ flat_map f l <-> exists x, x ∈ l /\ y ∈ f x.
Proof.
  rewrite list_elem_of_In, List.in_flat_map. setoid_rewrite <- list_elem_of_In. done.
Qed.

Lemma elem_of_filter_In {A} (f : A -> bool) l x : x ∈ List.filter f l <-> x ∈ l /\ f x = true.
Proof. by rewrite !list_elem_of_In, List.filter_In. Qed.
