(* ===== verification/JsString.v ===== *)
(** * JsString: the methods of JavaScript strings the components use

    A string is its UTF-8 encoding. [length] and indices, which count UTF-16
    code units in JavaScript, are only used here on the prefixes and separators
    that are ASCII; [code_units] gives the units themselves. *)

From Stdlib Require Import ZArith Lia Ascii.
From stdpp Require Import base list sets strings.
From S2P Require Import Prelude.


(** [s.startsWith(p)] *)
Definition startsWith (p s : string) : bool := String.prefix p s.

(** [s.endsWith(p)] *)
Definition endsWith (p s : string) : bool :=
  Nat.leb (String.length p) (String.length s)
  && (String.substring (String.length s - String.length p) (String.length p) s =s p).

(** The string without its first [n] bytes. *)
Fixpoint drop_string (n : nat) (s : string) : string :=
  match n, s with
  | S n', String _ r => drop_string n' r
  | _, _ => s
  end.

(** The rest of the string after [p], when it starts with [p]. *)
Definition strip_prefix (p s : string) : option string :=
  if String.prefix p s then Some (drop_string (String.length p) s) else None.

(** A string of bytes given by their codes. *)
Definition bytes (l : list nat) : string :=
  foldr (fun n s => String (ascii_of_nat n) s) EmptyString l.

(** The white space and line terminators [trim] removes: the ASCII ones, U+00A0,
    U+1680, U+2000 to U+200A, U+2028, U+2029, U+202F, U+205F, U+3000, U+FEFF. *)
Definition whitespace : list string :=
  Eval vm_compute in
  (map (fun n => bytes [n]) [9; 10; 11; 12; 13; 32]
   ++ [bytes [194; 160]; bytes [225; 154; 128]]
   ++ map (fun n => bytes [226; 128; n]) (seq 128 11 ++ [168; 169; 175])
   ++ [bytes [226; 129; 159]; bytes [227; 128; 128]; bytes [239; 187; 191]])%nat.

(** The string without one leading white space, when it has one. *)
Definition strip_space (ws : list string) (s : string) : option string :=
  foldr (fun w r => match strip_prefix w s with Some s' => Some s' | None => r end) None ws.

Fixpoint trim_with (ws : list string) (fuel : nat) (s : string) : string :=
  match fuel with
  | O => s
  | S fuel' => match strip_space ws s with Some s' => trim_with ws fuel' s' | None => s end
  end.

Fixpoint rev_string_acc (s acc : string) : string :=
  match s with
  | EmptyString => acc
  | String c r => rev_string_acc r (String c acc)
  end.

Definition rev_string (s : string) : string := rev_string_acc s EmptyString.

Definition trimStart (s : string) : string := trim_with whitespace (String.length s) s.

Definition trimEnd (s : string) : string :=
  rev_string (trim_with (map rev_string whitespace) (String.length s) (rev_string s)).

(** [s.trim()] *)
Definition trim (s : string) : string := trimEnd (trimStart s).

(** Upper and lower case of the ASCII letters. *)
Definition upper_ascii (c : ascii) : ascii :=
  let n := nat_of_ascii c in
  if (Nat.leb 97 n && Nat.leb n 122)%bool then ascii_of_nat (n - 32) else c.

Definition lower_ascii (c : ascii) : ascii :=
  let n := nat_of_ascii c in
  if (Nat.leb 65 n && Nat.leb n 90)%bool then ascii_of_nat (n + 32) else c.

Fixpoint map_string (f : ascii -> ascii) (s : string) : string :=
  match s with
  | EmptyString => EmptyString
  | String c r => String (f c) (map_string f r)
  end.

Definition toLowerCase_ascii (s : string) : string := map_string lower_ascii s.

(** [s.toUpperCase().startsWith(p)] for a [p] of upper case ASCII letters. Besides
    the ASCII letters, the long s (U+017F) has an ASCII upper case, S. *)
Fixpoint upper_startsWith (p s : string) : bool :=
  match p with
  | EmptyString => true
  | String c p' =>
      match s with
      | EmptyString => false
      | String d s' =>
          if Ascii.eqb (upper_ascii d) c then upper_startsWith p' s'
          else match strip_prefix (bytes [197; 191]%nat) s with
               | Some r => Ascii.eqb c "S" && upper_startsWith p' r
               | None => false
               end
      end
  end.

(** [s.includes(p)] *)
Fixpoint string_includes (p s : string) : bool :=
  String.prefix p s
  || match s with
     | EmptyString => false
     | String _ r => string_includes p r
     end.

(** [parts.join(sep)] *)
Fixpoint join_with (sep : string) (parts : list string) : string :=
  match parts with
  | [] => ""
  | [p] => p
  | p :: rest => p +:+ sep +:+ join_with sep rest
  end.
(** [s.split(sep)] for a separator of one character. *)
Fixpoint split_char (c : ascii) (s : string) : list string :=
  match s with
  | EmptyString => [EmptyString]
  | String d r =>
      if Ascii.eqb d c then EmptyString :: split_char c r
      else match split_char c r with
           | p :: ps => String d p :: ps
           | [] => [String d EmptyString]
           end
  end.

(** [s.replaceAll(pattern, replacement)] for a pattern that is not empty and a
    replacement without [$]; [skip] is what is left of an occurrence. *)
Fixpoint replace_all_from (skip : nat) (pattern replacement s : string) : string :=
  match s with
  | EmptyString => ""
  | String c r =>
      match skip with
      | S k => replace_all_from k pattern replacement r
      | O =>
          if String.prefix pattern s
          then replacement +:+ replace_all_from (String.length pattern - 1) pattern replacement r
          else String c (replace_all_from 0 pattern replacement r)
      end
  end.

Definition replace_all (pattern replacement s : string) : string :=
  replace_all_from 0 pattern replacement s.

(** The UTF-16 code units of a text in UTF-8. *)
Fixpoint code_units (s : string) : list Z :=
  let cont c := (Z.of_nat (nat_of_ascii c) - 128)%Z in
  match s with
  | EmptyString => []
  | String a r =>
      let n := Z.of_nat (nat_of_ascii a) in
      if Z.ltb n 128 then n :: code_units r
      else match r with
           | String b r2 =>
               if Z.ltb n 224 then ((n - 192) * 64 + cont b)%Z :: code_units r2
               else match r2 with
                    | String c r3 =>
                        if Z.ltb n 240
                        then ((n - 224) * 4096 + cont b * 64 + cont c)%Z :: code_units r3
                        else match r3 with
                             | String d r4 =>
                                 let v := ((n - 240) * 262144 + cont b * 4096 + cont c * 64 + cont d
                                           - 65536)%Z in
                                 (55296 + v / 1024)%Z :: (56320 + v mod 1024)%Z :: code_units r4
                             | EmptyString => []
                             end
                    | EmptyString => []
                    end
           | EmptyString => []
           end
  end.

(** ** Lemmas: texts cut at a character *)

Lemma split_char_not_nil c s : split_char c s <> [].
Proof. destruct s as [|d r]; cbn; [done|]. repeat case_match; done. Qed.

Lemma split_char_parts sep s p : p ∈ split_char sep s -> sep ∉ String.list_ascii_of_string p.
Proof.
  revert p. induction s as [|c s IH]; intros p; cbn [split_char].
  { intros ->%list_elem_of_singleton. set_solver. }
  destruct (Ascii.eqb_spec c sep) as [->|Hne].
  - intros [->|H]%elem_of_cons; [set_solver | by apply IH].
  - destruct (split_char sep s) as [|q qs] eqn:E.
    + intros ->%list_elem_of_singleton. cbn. set_solver.
    + intros [->|H]%elem_of_cons; [cbn | apply IH; by right].
      assert (sep ∉ String.list_ascii_of_string q) by (apply IH; by left). set_solver.
Qed.

Lemma split_char_app sep p s : sep ∉ String.list_ascii_of_string p ->
  split_char sep (p +:+ String sep s) = p :: split_char sep s.
Proof.
  induction p as [|c p IH]; cbn [String.append split_char String.list_ascii_of_string]; intros H.
  - change ("" +:+ String sep s)%string with (String sep s). cbn [split_char]. by rewrite Ascii.eqb_refl.
  - change (String c p +:+ String sep s)%string with (String c (p +:+ String sep s)%string). cbn [split_char].
    destruct (Ascii.eqb_spec c sep) as [->|_]; [set_solver |]. by rewrite IH by set_solver.
Qed.

Lemma split_char_one sep p : sep ∉ String.list_ascii_of_string p -> split_char sep p = [p].
Proof.
  induction p as [|c p IH]; cbn [split_char String.list_ascii_of_string]; intros H; [done |].
  destruct (Ascii.eqb_spec c sep) as [->|_]; [set_solver |]. by rewrite IH by set_solver.
Qed.

Lemma join_split_char sep s : join_with (String sep EmptyString) (split_char sep s) = s.
Proof.
  induction s as [|c s IH]; [done |]. cbn [split_char].
  destruct (Ascii.eqb_spec c sep) as [->|_]; destruct (split_char sep s) as [|p ps] eqn:E;
    try (by apply split_char_not_nil in E).
  - change (String sep (join_with (String sep EmptyString) (p :: ps)) = String sep s). by rewrite IH.
  - rewrite <- IH. by destruct ps.
Qed.
