(* ===== verification/Json.v ===== *)
(** * Json: JSON.stringify and JSON.parse

    The two functions of the language through which a rule hands its secondary
    locations and the internal rules their results to the linter wrapper: an
    issue has only a text. Numbers are integers (locations, costs); a string is
    its UTF-8 encoding and the [\u] escapes read are the ones of one code unit. *)

From Stdlib Require Import ZArith Lia Ascii DecimalString DecimalN DecimalZ.
From stdpp Require Import base list sets strings.
From S2P Require Import Prelude JsString.

Inductive json :=
| JNull
| JBool (b : bool)
| JNum (z : Z)
| JStr (s : string)
| JArr (l : list json)
| JObj (l : list (string * json)).

(** ** JSON.stringify *)

Definition quote : ascii := ascii_of_nat 34.
Definition backslash : ascii := ascii_of_nat 92.

Definition hex_digit (n : nat) : ascii :=
  ascii_of_nat (if Nat.ltb n 10 then 48 + n else 87 + n).

(** The text of a character inside a string. *)
Definition escape (c : ascii) : string :=
  if Ascii.eqb c quote then String backslash (String quote "")
  else if Ascii.eqb c backslash then String backslash (String backslash "")
  else match nat_of_ascii c with
       | 8 => String backslash "b"
       | 9 => String backslash "t"
       | 10 => String backslash "n"
       | 12 => String backslash "f"
       | 13 => String backslash "r"
       | n =>
           if Nat.ltb n 32
           then String backslash ("u00" +:+ String (hex_digit (n / 16)) (String (hex_digit (n mod 16)) ""))
           else String c ""
       end.

Fixpoint escape_string (s : string) : string :=
  match s with
  | EmptyString => EmptyString
  | String c r => escape c +:+ escape_string r
  end.

Definition print_string (s : string) : string :=
  String quote (escape_string s +:+ String quote "").

Definition print_int (z : Z) : string :=
  match z with
  | Z0 => "0"
  | Zpos p => NilZero.string_of_uint (N.to_uint (Npos p))
  | Zneg p => "-" +:+ NilZero.string_of_uint (N.to_uint (Npos p))
  end.

(** [JSON.stringify(v)] *)
Fixpoint stringify (v : json) : string :=
  match v with
  | JNull => "null"
  | JBool true => "true"
  | JBool false => "false"
  | JNum z => print_int z
  | JStr s => print_string s
  | JArr l => "[" +:+ join_with "," (map stringify l) +:+ "]"
  | JObj l =>
      "{" +:+ join_with "," (map (fun kv => print_string kv.1 +:+ ":" +:+ stringify kv.2) l)
      +:+ "}"
  end.

(** ** JSON.parse *)

Definition is_json_space (c : ascii) : bool :=
  match nat_of_ascii c with 9 | 10 | 13 | 32 => true | _ => false end.

Fixpoint skip_spaces (s : string) : string :=
  match s with
  | String c r => if is_json_space c then skip_spaces r else s
  | EmptyString => s
  end.

Definition hex_value (c : ascii) : option nat :=
  let n := nat_of_ascii c in
  if (Nat.leb 48 n && Nat.leb n 57)%bool then Some (n - 48)
  else if (Nat.leb 97 n && Nat.leb n 102)%bool then Some (n - 87)
  else if (Nat.leb 65 n && Nat.leb n 70)%bool then Some (n - 55)
  else None.

(** The UTF-8 encoding of a code unit. *)
Definition utf8 (n : nat) : string :=
  if Nat.ltb n 128 then String (ascii_of_nat n) ""
  else if Nat.ltb n 2048 then bytes [192 + n / 64; 128 + n mod 64]
  else bytes [224 + n / 4096; 128 + (n / 64) mod 64; 128 + n mod 64].

Definition unescape (c : ascii) : option string :=
  match nat_of_ascii c with
  | 34 | 92 | 47 => Some (String c "")
  | 98 => Some (bytes [8])
  | 116 => Some (bytes [9])
  | 110 => Some (bytes [10])
  | 102 => Some (bytes [12])
  | 114 => Some (bytes [13])
  | _ => None
  end.

(** The characters of a string up to the closing quote, and what follows it. *)
Fixpoint parse_chars (s : string) : option (string * string) :=
  match s with
  | EmptyString => None
  | String c r =>
      if Ascii.eqb c quote then Some ("", r)
      else if Ascii.eqb c backslash then
        match r with
        | String "u" (String a (String b (String d (String e r')))) =>
            match hex_value a, hex_value b, hex_value d, hex_value e, parse_chars r' with
            | Some a, Some b, Some d, Some e, Some (t, rest) =>
                Some (utf8 (4096 * a + 256 * b + 16 * d + e) +:+ t, rest)
            | _, _, _, _, _ => None
            end
        | String e r' =>
            match unescape e, parse_chars r' with
            | Some u, Some (t, rest) => Some (u +:+ t, rest)
            | _, _ => None
            end
        | EmptyString => None
        end
      else if Nat.ltb (nat_of_ascii c) 32 then None
      else match parse_chars r with
           | Some (t, rest) => Some (String c t, rest)
           | None => None
           end
  end.

(** The digits at the start of the string. *)
Fixpoint take_digits (s : string) : Decimal.uint * string :=
  match s with
  | EmptyString => (Decimal.Nil, s)
  | String c r =>
      let (d, rest) := take_digits r in
      match nat_of_ascii c with
      | 48 => (Decimal.D0 d, rest)
      | 49 => (Decimal.D1 d, rest)
      | 50 => (Decimal.D2 d, rest)
      | 51 => (Decimal.D3 d, rest)
      | 52 => (Decimal.D4 d, rest)
      | 53 => (Decimal.D5 d, rest)
      | 54 => (Decimal.D6 d, rest)
      | 55 => (Decimal.D7 d, rest)
      | 56 => (Decimal.D8 d, rest)
      | 57 => (Decimal.D9 d, rest)
      | _ => (Decimal.Nil, s)
      end
  end.

(** An integer without leading zero; a fraction or an exponent is refused. *)
Definition parse_natural (s : string) : option (N * string) :=
  match take_digits s with
  | (Decimal.Nil, _) => None
  | (Decimal.D0 Decimal.Nil, rest) => Some (0%N, rest)
  | (Decimal.D0 _, _) => None
  | (d, rest) => Some (N.of_uint d, rest)
  end.

Definition ends_number (s : string) : bool :=
  match s with
  | String c _ => negb (Ascii.eqb c "." || Ascii.eqb c "e" || Ascii.eqb c "E")
  | EmptyString => true
  end.

Definition parse_number (s : string) : option (Z * string) :=
  let '(sign, digits) := match s with
                         | String "-" r => (Z.opp, r)
                         | _ => (fun z => z, s)
                         end in
  match parse_natural digits with
  | Some (n, rest) => if ends_number rest then Some (sign (Z.of_N n), rest) else None
  | None => None
  end.

Section Parse.
Context (parse_value : string -> option (json * string)).

(** The elements after the first one, up to the bracket. *)
Fixpoint parse_elements (fuel : nat) (s : string) : option (list json * string) :=
  match fuel, skip_spaces s with
  | S fuel', String "," r =>
      match parse_value r with
      | Some (v, r1) => match parse_elements fuel' r1 with
                        | Some (l, rest) => Some (v :: l, rest)
                        | None => None
                        end
      | None => None
      end
  | _, String "]" r => Some ([], r)
  | _, _ => None
  end.

Definition parse_member (s : string) : option (string * json * string) :=
  match skip_spaces s with
  | String c r =>
      if Ascii.eqb c quote then
        match parse_chars r with
        | Some (k, r1) =>
            match skip_spaces r1 with
            | String ":" r2 => match parse_value r2 with
                               | Some (v, rest) => Some (k, v, rest)
                               | None => None
                               end
            | _ => None
            end
        | None => None
        end
      else None
  | EmptyString => None
  end.

Fixpoint parse_members (fuel : nat) (s : string) : option (list (string * json) * string) :=
  match fuel, skip_spaces s with
  | S fuel', String "," r =>
      match parse_member r with
      | Some (kv, r1) => match parse_members fuel' r1 with
                         | Some (l, rest) => Some (kv :: l, rest)
                         | None => None
                         end
      | None => None
      end
  | _, String "}" r => Some ([], r)
  | _, _ => None
  end.
End Parse.

Fixpoint parse_value (fuel : nat) (s : string) : option (json * string) :=
  match fuel with
  | O => None
  | S fuel' =>
      match skip_spaces s with
      | EmptyString => None
      | String c r as t =>
          if Ascii.eqb c quote then
            match parse_chars r with Some (x, rest) => Some (JStr x, rest) | None => None end
          else if Ascii.eqb c "[" then
            match skip_spaces r with
            | String "]" rest => Some (JArr [], rest)
            | _ => match parse_value fuel' r with
                   | Some (v, r1) =>
                       match parse_elements (parse_value fuel') fuel' r1 with
                       | Some (l, rest) => Some (JArr (v :: l), rest)
                       | None => None
                       end
                   | None => None
                   end
            end
          else if Ascii.eqb c "{" then
            match skip_spaces r with
            | String "}" rest => Some (JObj [], rest)
            | _ => match parse_member (parse_value fuel') r with
                   | Some (kv, r1) =>
                       match parse_members (parse_value fuel') fuel' r1 with
                       | Some (l, rest) => Some (JObj (kv :: l), rest)
                       | None => None
                       end
                   | None => None
                   end
            end
          else match strip_prefix "null" t with
               | Some rest => Some (JNull, rest)
               | None =>
                   match strip_prefix "true" t with
                   | Some rest => Some (JBool true, rest)
                   | None =>
                       match strip_prefix "false" t with
                       | Some rest => Some (JBool false, rest)
                       | None => match parse_number t with
                                 | Some (z, rest) => Some (JNum z, rest)
                                 | None => None
                                 end
                       end
                   end
               end
      end
  end.

(** [JSON.parse(text)]; [None] is the exception. Every value takes at least a
    character, so that the length of the text is fuel enough. *)
Definition JSON_parse (text : string) : option json :=
  match parse_value (S (String.length text)) text with
  | Some (v, rest) => match skip_spaces rest with EmptyString => Some v | _ => None end
  | None => None
  end.

(** ** The parser inverts the printer *)

Local Arguments String.append : simpl nomatch.

(** What may follow a printed value: nothing a number could go on with. *)
Definition follow (s : string) : bool :=
  match s with
  | String c _ =>
      negb (Nat.leb 48 (nat_of_ascii c) && Nat.leb (nat_of_ascii c) 57) && ends_number s
  | EmptyString => true
  end.

Lemma append_assoc (a b c : string) : (a +:+ b) +:+ c = a +:+ b +:+ c.
Proof. induction a as [|x a IH]; [done |]. cbn [String.append]. by f_equal. Qed.

Lemma append_nil (a : string) : a +:+ "" = a.
Proof. induction a as [|x a IH]; [done |]. cbn [String.append]. by f_equal. Qed.

Lemma drop_string_app a b : drop_string (String.length a) (a +:+ b) = b.
Proof. induction a; simpl; [by destruct b | done]. Qed.

Lemma prefix_app a b : String.prefix a (a +:+ b) = true.
Proof.
  induction a as [|x a IH]; simpl; [by destruct b |].
  destruct (ascii_dec x x) as [_|]; [exact IH | congruence].
Qed.

Lemma strip_prefix_app a b : strip_prefix a (a +:+ b) = Some b.
Proof. unfold strip_prefix. by rewrite prefix_app, drop_string_app. Qed.

Lemma strip_prefix_ne c d p s : c <> d -> strip_prefix (String c p) (String d s) = None.
Proof. intros H. unfold strip_prefix. simpl. by destruct (ascii_dec c d). Qed.

(** *** Strings *)

(** The three forms of an escaped character. *)
Definition escaped_as (c : ascii) : Prop :=
  (escape c = String c "" /\ Ascii.eqb c quote = false /\ Ascii.eqb c backslash = false /\
     Nat.ltb (nat_of_ascii c) 32 = false) \/
  (exists e, escape c = String backslash (String e "") /\ Ascii.eqb e "u" = false /\
     unescape e = Some (String c "")) \/
  (exists a b x y, escape c = String backslash (String "u" (String "0" (String "0"
       (String a (String b ""))))) /\
     hex_value a = Some x /\ hex_value b = Some y /\ utf8 (16 * x + y) = String c "").

Lemma escape_forms c : escaped_as c.
Proof.
  unfold escaped_as. destruct c as [[] [] [] [] [] [] [] []];
    first [left; repeat split; reflexivity
          | right; left; eexists; repeat split; reflexivity
          | right; right; eexists _, _, _, _; repeat split; reflexivity].
Qed.

Lemma parse_chars_escape c s t rest :
  parse_chars s = Some (t, rest) -> parse_chars (escape c +:+ s) = Some (String c t, rest).
Proof.
  intros H. destruct (escape_forms c) as
    [(-> & E1 & E2 & E3)|[(e & -> & E1 & E2)|(a & b & x & y & -> & E1 & E2 & E3)]].
  - cbn [String.append parse_chars]. by rewrite E1, E2, E3, H.
  - cbn [String.append parse_chars]. change (Ascii.eqb backslash quote) with false.
    change (Ascii.eqb backslash backslash) with true. cbv iota.
    assert (M : forall A (u v : A), match e with "u"%char => u | _ => v end = v).
    { intros A u v. clear - E1. destruct e as [[] [] [] [] [] [] [] []]; try reflexivity; discriminate E1. }
    rewrite M, E2, H. reflexivity.
  - cbn [String.append parse_chars]. change (Ascii.eqb backslash quote) with false.
    change (Ascii.eqb backslash backslash) with true. cbv iota.
    change (hex_value "0") with (Some 0). cbv iota. rewrite E1, E2, H.
    replace (4096 * 0 + 256 * 0 + 16 * x + y) with (16 * x + y) by lia. by rewrite E3.
Qed.

Lemma parse_chars_print s rest :
  parse_chars (escape_string s +:+ String quote rest) = Some (s, rest).
Proof.
  induction s as [|c s IH]; [reflexivity |]. simpl escape_string.
  rewrite append_assoc. by apply parse_chars_escape.
Qed.

(** *** Integers *)

Lemma take_digits_stop s : follow s = true -> take_digits s = (Decimal.Nil, s).
Proof.
  destruct s as [|c s]; [done |]. unfold follow. intros [H _]%andb_true_iff. simpl.
  destruct (take_digits s) as [d r].
  destruct c as [[] [] [] [] [] [] [] []]; try reflexivity; discriminate H.
Qed.

Lemma take_digits_print d rest :
  follow rest = true -> take_digits (NilEmpty.string_of_uint d +:+ rest) = (d, rest).
Proof.
  intros F. induction d; cbn [NilEmpty.string_of_uint String.append];
    [by apply take_digits_stop | cbn [take_digits]; rewrite IHd; reflexivity ..].
Qed.

Lemma to_uint_unorm n : Decimal.unorm (N.to_uint n) = N.to_uint n.
Proof. rewrite <- DecimalN.Unsigned.to_of. by rewrite DecimalN.Unsigned.of_to. Qed.

Lemma nzhead_no_zero d d' : Decimal.nzhead d <> Decimal.D0 d'.
Proof. induction d; simpl; try discriminate. exact IHd. Qed.

Lemma to_uint_head n d' : N.to_uint n = Decimal.D0 d' -> d' = Decimal.Nil.
Proof.
  intros E. pose proof (to_uint_unorm n) as U. rewrite E in U.
  unfold Decimal.unorm in U. cbn [Decimal.nzhead] in U.
  destruct (Decimal.nzhead d') as [|x|x|x|x|x|x|x|x|x|x] eqn:N; try discriminate U.
  - by inversion U.
  - by apply nzhead_no_zero in N.
Qed.

Lemma parse_natural_print p rest :
  follow rest = true ->
  parse_natural (NilZero.string_of_uint (N.to_uint (Npos p)) +:+ rest) = Some (Npos p, rest).
Proof.
  intros F. pose proof (to_uint_head (Npos p)) as Hh.
  pose proof (DecimalN.Unsigned.of_to (Npos p)) as Ho.
  assert (Hn : N.to_uint (Npos p) <> Decimal.Nil).
  { intros E. rewrite E in Ho. discriminate Ho. }
  unfold parse_natural, NilZero.string_of_uint.
  destruct (N.to_uint (Npos p)) as [|d|d|d|d|d|d|d|d|d|d] eqn:E; [done | | ..];
    rewrite take_digits_print by done; rewrite ?Ho; try reflexivity.
  rewrite (Hh d eq_refl) in Ho. discriminate Ho.
Qed.

Lemma follow_ends s : follow s = true -> ends_number s = true.
Proof. destruct s; [done |]. unfold follow. by intros [_ H]%andb_true_iff. Qed.

(** The first character of a printed natural is a digit. *)
Lemma print_nat_head p :
  exists c t, NilZero.string_of_uint (N.to_uint (Npos p)) = String c t /\
    (48 <= nat_of_ascii c <= 57)%nat.
Proof.
  unfold NilZero.string_of_uint. destruct (N.to_uint (Npos p)); cbn [NilEmpty.string_of_uint];
    eexists _, _; (split; [reflexivity |]); vm_compute; lia.
Qed.

Lemma parse_number_print z rest :
  follow rest = true -> parse_number (print_int z +:+ rest) = Some (z, rest).
Proof.
  intros F. pose proof (follow_ends _ F) as En. unfold parse_number, print_int. destruct z as [|p|p].
  - assert (P : parse_natural (String "0" rest) = Some (0%N, rest)).
    { unfold parse_natural. cbn [take_digits]. by rewrite take_digits_stop. }
    change (match parse_natural (String "0" rest) with
            | Some (n, r) => if ends_number r then Some (Z.of_N n, r) else None
            | None => None
            end = Some (0%Z, rest)). by rewrite P, En.
  - destruct (print_nat_head p) as (c & t & E & Hc).
    pose proof (parse_natural_print p rest F) as P. rewrite E in P |- *.
    cbn [String.append] in *. destruct (Ascii.ascii_dec c "-") as [->|Hne]; [vm_compute in Hc; lia |].
    assert (M : (match String c (t +:+ rest) with
                 | String "-" r => (Z.opp, r)
                 | _ => (fun z => z, String c (t +:+ rest))
                 end) = (fun z : Z => z, String c (t +:+ rest))).
    { clear - Hne. destruct c as [[] [] [] [] [] [] [] []]; try reflexivity. by destruct Hne. }
    rewrite M, P, En. reflexivity.
  - cbn [String.append]. rewrite parse_natural_print by done. by rewrite En.
Qed.

(** *** Values *)

Fixpoint json_size (v : json) : nat :=
  match v with
  | JArr l => S (sum_list (map json_size l) + length l)
  | JObj l => S (sum_list (map (fun kv => json_size kv.2) l) + length l)
  | _ => 1
  end.

(** The first character of a printed value. *)
Definition value_start (c : ascii) : Prop :=
  is_json_space c = false /\ c <> "]"%char /\ c <> "}"%char.

Lemma stringify_start v : exists c t, stringify v = String c t /\ value_start c.
Proof.
  destruct v as [|[]|z|s|l|l]; cbn [stringify]; try (eexists _, _; by split).
  destruct z as [|p|p]; cbn [print_int]; try (eexists _, _; by split).
  destruct (print_nat_head p) as (c & t & -> & Hc). exists c, t. split; [done |].
  unfold value_start, is_json_space.
  destruct c as [[] [] [] [] [] [] [] []]; vm_compute in Hc; try lia; done.
Qed.

Lemma skip_value v rest : skip_spaces (stringify v +:+ rest) = stringify v +:+ rest.
Proof.
  destruct (stringify_start v) as (c & t & -> & Hc & _). cbn [String.append skip_spaces].
  by rewrite Hc.
Qed.

(** What follows the first element. *)
Definition tail_join (l : list string) : string := foldr (fun x r => "," +:+ x +:+ r) "" l.

Lemma join_with_cons p l : join_with "," (p :: l) = p +:+ tail_join l.
Proof.
  revert p. induction l as [|q l IH]; intros p; [cbn; by rewrite append_nil |].
  change (join_with "," (p :: q :: l)) with (p +:+ "," +:+ join_with "," (q :: l)).
  by rewrite IH.
Qed.

Definition parses (fuel : nat) (v : json) : Prop :=
  forall rest, follow rest = true -> parse_value fuel (stringify v +:+ rest) = Some (v, rest).

Lemma follow_tail l c rest :
  follow (String c rest) = true -> follow (tail_join l +:+ String c rest) = true.
Proof. by destruct l. Qed.

Lemma parse_elements_print fuel : forall l n rest,
  Forall (parses fuel) l -> (length l <= n)%nat ->
  parse_elements (parse_value fuel) n (tail_join (map stringify l) +:+ String "]" rest)
  = Some (l, rest).
Proof.
  induction l as [|v l IH]; intros n rest F Hn; [by destruct n |].
  apply Forall_cons in F as [Fv F]. simpl in Hn. destruct n as [|n]; [lia |].
  cbn [map tail_join foldr]. fold (tail_join (map stringify l)).
  rewrite !append_assoc. cbn [String.append parse_elements skip_spaces].
  change (is_json_space ",") with false. cbv iota.
  rewrite Fv by (by apply follow_tail). rewrite IH; [done | done | lia].
Qed.

Lemma parse_member_print fuel k v rest :
  parses fuel v -> follow rest = true ->
  parse_member (parse_value fuel) ((print_string k +:+ ":" +:+ stringify v) +:+ rest)
  = Some (k, v, rest).
Proof.
  intros P F. unfold parse_member, print_string. rewrite !append_assoc.
  cbn [String.append skip_spaces]. change (is_json_space quote) with false. cbv iota.
  rewrite Ascii.eqb_refl, append_assoc. cbn [String.append].
  rewrite parse_chars_print. cbn [skip_spaces]. change (is_json_space ":") with false. cbv iota.
  by rewrite P.
Qed.

Definition print_member (kv : string * json) : string :=
  print_string kv.1 +:+ ":" +:+ stringify kv.2.

Lemma parse_members_print fuel : forall l n rest,
  Forall (fun kv => parses fuel kv.2) l -> (length l <= n)%nat ->
  parse_members (parse_value fuel) n (tail_join (map print_member l) +:+ String "}" rest)
  = Some (l, rest).
Proof.
  induction l as [|[k v] l IH]; intros n rest F Hn; [by destruct n |].
  apply Forall_cons in F as [Fv F]. simpl in Hn. destruct n as [|n]; [lia |].
  cbn [map tail_join foldr]. fold (tail_join (map print_member l)).
  rewrite !append_assoc. cbn [String.append parse_members skip_spaces].
  change (is_json_space ",") with false. cbv iota. unfold print_member at 1. cbn [fst snd].
  rewrite parse_member_print; [| done | by apply follow_tail]. rewrite IH; [done | done | lia].
Qed.

(** The dispatch of [parse_value] on a number. *)
Lemma parse_value_number fuel z rest :
  follow rest = true -> parse_value (S fuel) (print_int z +:+ rest) = Some (JNum z, rest).
Proof.
  intros F. pose proof (parse_number_print z rest F) as P.
  pose proof (skip_value (JNum z) rest) as S. cbn [stringify] in S.
  cbn [parse_value]. rewrite S.
  assert (H : exists c t, print_int z = String c t /\ (c = "-"%char \/ 48 <= nat_of_ascii c <= 57)%nat).
  { destruct z as [|p|p]; cbn [print_int].
    - eexists _, _. split; [done |]. right. vm_compute. lia.
    - destruct (print_nat_head p) as (c & t & -> & Hc). eauto.
    - eexists _, _. split; [done |]. by left. }
  destruct H as (c & t & E & Hc). rewrite E in P |- *. cbn [String.append] in *.
  assert (Hq : Ascii.eqb c quote = false /\ Ascii.eqb c "[" = false /\ Ascii.eqb c "{" = false /\
    "n"%char <> c /\ "t"%char <> c /\ "f"%char <> c).
  { clear - Hc. destruct c as [[] [] [] [] [] [] [] []];
      (destruct Hc as [Hc|Hc]; [try discriminate Hc | vm_compute in Hc; try lia]); done. }
  destruct Hq as (-> & -> & -> & H1 & H2 & H3).
  rewrite !strip_prefix_ne by done. by rewrite P.
Qed.

Lemma sum_list_elem (l : list nat) x : x ∈ l -> (x <= sum_list l)%nat.
Proof. induction l as [|y l IH]; [set_solver |]. intros [->|H]%elem_of_cons; simpl; [lia |]. specialize (IH H). lia. Qed.

Lemma elem_size {A} (f : A -> nat) l x : x ∈ l -> (f x <= sum_list (map f l))%nat.
Proof.
  intros H. apply sum_list_elem, list_elem_of_In, in_map. by apply list_elem_of_In.
Qed.

(** Induction on values through lists. *)
Lemma json_size_ind (P : json -> Prop) :
  (forall v, (forall w, (json_size w < json_size v)%nat -> P w) -> P v) -> forall v, P v.
Proof.
  intros H v. remember (json_size v) as n eqn:E. revert v E.
  induction n as [n IH] using lt_wf_ind. intros v ->. apply H. intros w Hw. by eapply IH.
Qed.

Lemma not_closing c t rest x :
  c <> "]"%char -> skip_spaces (String c t +:+ rest) = String c t +:+ rest ->
  match skip_spaces (String c t +:+ rest) with
  | String "]" r => Some (JArr [], r)
  | _ => x
  end = x.
Proof.
  intros H ->. cbn [String.append].
  destruct c as [[] [] [] [] [] [] [] []]; try reflexivity. by destruct H.
Qed.

Lemma parse_array_print fuel v l :
  Forall (parses fuel) (v :: l) -> (length l <= fuel)%nat -> parses (S fuel) (JArr (v :: l)).
Proof.
  intros A Hl rest F.
  apply Forall_cons in A as [Av Al]. cbn [stringify map]. rewrite join_with_cons, !append_assoc.
  cbn [parse_value String.append skip_spaces]. change (is_json_space "[") with false. cbv iota.
  change (Ascii.eqb "[" quote) with false. change (Ascii.eqb "[" "[") with true. cbv iota.
  destruct (stringify_start v) as (c & t & Es & _ & Hb & _).
  pose proof (skip_value v (tail_join (map stringify l) +:+ String "]" rest)) as Sk.
  pose proof (Av (tail_join (map stringify l) +:+ String "]" rest)
                ltac:(by apply follow_tail)) as Pv.
  rewrite Es in Sk, Pv |- *. cbn [String.append] in *.
  pose proof (not_closing c t (tail_join (map stringify l) +:+ String "]" rest)) as NC.
  cbn [String.append] in NC. rewrite NC by done. rewrite Pv.
  rewrite parse_elements_print; [done | done |]. lia.
Qed.

Lemma parse_object_print fuel k v l :
  Forall (fun kv : string * json => parses fuel kv.2) ((k, v) :: l) -> (length l <= fuel)%nat ->
  parses (S fuel) (JObj ((k, v) :: l)).
Proof.
  intros A Hl rest F.
  apply Forall_cons in A as [Av Al]. cbn [stringify map].
  change (map (fun kv : string * json => print_string kv.1 +:+ ":" +:+ stringify kv.2) l)
    with (map print_member l).
  rewrite join_with_cons, !append_assoc.
  cbn [parse_value String.append skip_spaces]. change (is_json_space "{") with false. cbv iota.
  change (Ascii.eqb "{" quote) with false. change (Ascii.eqb "{" "[") with false.
  change (Ascii.eqb "{" "{") with true. cbv iota. cbn [fst snd] in *.
  pose proof (parse_member_print fuel k v (tail_join (map print_member l) +:+ String "}" rest) Av
                ltac:(by apply follow_tail)) as Pv.
  rewrite !append_assoc in Pv. cbn [String.append] in Pv.
  unfold print_string at 1. cbn [String.append skip_spaces].
  change (is_json_space quote) with false. cbv iota.
  change (match quote with "}"%char => _ | _ => _ end)
    with (match parse_member (parse_value fuel) (print_string k +:+ String ":" (stringify v +:+ tail_join (map print_member l) +:+ String "}" rest)) with
          | Some (kv, r1) =>
              match parse_members (parse_value fuel) fuel r1 with
              | Some (l0, rest0) => Some (JObj (kv :: l0), rest0)
              | None => None
              end
          | None => None
          end).
  rewrite Pv. rewrite parse_members_print; [done | done |]. lia.
Qed.

Lemma parse_value_print v : forall fuel, (json_size v <= fuel)%nat -> parses fuel v.
Proof.
  induction v as [v IH] using json_size_ind. intros fuel Hf rest F.
  destruct fuel as [|fuel]; [destruct v; simpl in Hf; lia |].
  destruct v as [|[]|z|s|l|l].
  - by destruct rest.
  - by destruct rest.
  - by destruct rest.
  - by apply parse_value_number.
  - cbn [stringify]. unfold print_string. cbn [parse_value String.append skip_spaces].
    change (is_json_space quote) with false. cbv iota. rewrite Ascii.eqb_refl.
    rewrite append_assoc. cbn [String.append]. by rewrite parse_chars_print.
  - destruct l as [|v l]; [reflexivity |].
    assert (A : Forall (parses fuel) (v :: l)).
    { apply Forall_forall. intros w Hw. pose proof (elem_size json_size _ _ Hw) as S.
      cbn [json_size] in *. apply IH; lia. }
    apply parse_array_print; [done|simpl in Hf; lia|done].
  - destruct l as [|[k v] l]; [reflexivity |].
    assert (A : Forall (fun kv : string * json => parses fuel kv.2) ((k, v) :: l)).
    { apply Forall_forall. intros w Hw.
      pose proof (elem_size (fun kv : string * json => json_size kv.2) _ _ Hw) as S.
      cbn [json_size] in *. apply IH; lia. }
    apply parse_object_print; [done|simpl in Hf; lia|done].
Qed.

(** *** The whole text *)

Lemma length_append a b : String.length (a +:+ b) = (String.length a + String.length b)%nat.
Proof. induction a as [|x a IH]; [done |]. cbn [String.append String.length]. by rewrite IH. Qed.

Lemma length_tail_join l :
  String.length (tail_join l) = (sum_list (map String.length l) + length l)%nat.
Proof.
  induction l as [|x l IH]; [done |]. unfold tail_join in *. cbn [foldr].
  rewrite !length_append, IH. cbn. lia.
Qed.

Lemma sum_list_le {A} (f g : A -> nat) l :
  (forall x, x ∈ l -> (f x <= g x)%nat) -> (sum_list (map f l) <= sum_list (map g l))%nat.
Proof.
  induction l as [|x l IH]; intros H; simpl; [done |].
  pose proof (H x ltac:(set_solver)). specialize (IH ltac:(intros; apply H; set_solver)). lia.
Qed.

Lemma json_size_length v : (json_size v <= String.length (stringify v))%nat.
Proof.
  induction v as [v IH] using json_size_ind. destruct v as [|[]|z|s|l|l]; cbn [json_size];
    try (destruct (stringify_start (JNum z)) as (c & t & -> & _); cbn; lia); try (cbn; lia).
  - destruct l as [|v l]; [cbn; lia |]. cbn [stringify map]. rewrite join_with_cons, !length_append,
      length_tail_join. pose proof (IH v) as Hv. cbn [json_size map sum_list] in *.
    assert (S : (sum_list (map json_size l) <= sum_list (map (fun x => String.length (stringify x)) l))%nat).
    { apply sum_list_le. intros w Hw. pose proof (elem_size json_size _ _ Hw). apply IH.
      cbn [json_size map sum_list]. lia. }
    unfold id in *. rewrite length_map, map_map. cbn [String.length length] in *. lia.
  - destruct l as [|[k v] l]; [cbn; lia |]. cbn [stringify map]. rewrite join_with_cons, !length_append,
      length_tail_join. pose proof (IH v) as Hv. cbn [json_size map sum_list fst snd] in *.
    assert (S : (sum_list (map (fun kv : string * json => json_size kv.2) l) <=
      sum_list (map (fun kv : string * json =>
        String.length (print_string kv.1 +:+ ":" +:+ stringify kv.2)) l))%nat).
    { apply sum_list_le. intros w Hw.
      pose proof (elem_size (fun kv : string * json => json_size kv.2) _ _ Hw).
      rewrite !length_append. enough (json_size w.2 <= String.length (stringify w.2))%nat by lia.
      apply IH. cbn [json_size map sum_list snd]. lia. }
    unfold id in *. rewrite length_map, map_map. cbn [String.length length] in *. lia.
Qed.

(** The round trip: what the properties of the clients use. *)
Lemma JSON_parse_stringify v : JSON_parse (stringify v) = Some v.
Proof.
  unfold JSON_parse. pose proof (json_size_length v) as L.
  pose proof (parse_value_print v (S (String.length (stringify v))) ltac:(lia) "" eq_refl) as P.
  rewrite append_nil in P. by rewrite P.
Qed.

(** ** Values of a type as JSON

    What one side writes with [JSON.stringify] and the other reads with
    [JSON.parse]: the interface through which a rule and the wrapper share
    values. [of_json] fails on a value that is not of the type. *)
Class JsonCodec (A : Type) := {
  to_json : A -> json;
  of_json : json -> option A;
  of_to_json : forall a, of_json (to_json a) = Some a }.

(** The text a client gets is enough to have the value back. *)
Lemma codec_round_trip {A} `{JsonCodec A} (a : A) :
  (v ← JSON_parse (stringify (to_json a)); of_json v) = Some a.
Proof. rewrite JSON_parse_stringify. apply of_to_json. Qed.

Definition as_list {A} (f : json -> option A) (v : json) : option (list A) :=
  match v with JArr l => mapM f l | _ => None end.

Lemma as_list_map {A} (f : json -> option A) (g : A -> json) l :
  (forall a, f (g a) = Some a) -> as_list f (JArr (map g l)) = Some l.
Proof.
  intros H. cbn. induction l as [|a l IH]; [done|].
  cbn [map mapM]. rewrite H. cbn. by rewrite IH.
Qed.

#[export] Program Instance list_codec {A} `{JsonCodec A} : JsonCodec (list A) := {|
  to_json l := JArr (map to_json l);
  of_json := as_list of_json |}.
Next Obligation. intros A C l. apply as_list_map, of_to_json. Qed.

(** *** Numerals *)

(** A property of all the characters of a text. *)
Fixpoint all_chars (P : ascii -> bool) (s : string) : bool :=
  match s with
  | EmptyString => true
  | String c r => P c && all_chars P r
  end.

Definition numeral_char (c : ascii) : bool :=
  let n := nat_of_ascii c in (Nat.leb 48 n && Nat.leb n 57) || Ascii.eqb c "-".

Lemma print_uint_chars d : all_chars numeral_char (NilEmpty.string_of_uint d) = true.
Proof. induction d; cbn [NilEmpty.string_of_uint all_chars]; [done|rewrite IHd; done..]. Qed.

Lemma print_int_chars z : all_chars numeral_char (print_int z) = true.
Proof.
  assert (forall d, all_chars numeral_char (NilZero.string_of_uint d) = true) as H.
  { intros d. unfold NilZero.string_of_uint. destruct d; try done; apply print_uint_chars. }
  destruct z; [done|apply H|]. cbn [print_int String.append all_chars]. by rewrite H.
Qed.

Lemma rev_string_acc_twice s : forall a b,
  rev_string_acc (rev_string_acc s a) b = rev_string_acc a (s +:+ b).
Proof. induction s as [|c s IH]; intros a b; cbn; [done|]. by rewrite IH. Qed.

Lemma rev_string_twice s : rev_string (rev_string s) = s.
Proof. unfold rev_string. rewrite rev_string_acc_twice. cbn. apply append_nil. Qed.

Lemma rev_string_chars P s : all_chars P s = true -> all_chars P (rev_string s) = true.
Proof.
  unfold rev_string. assert (forall a, all_chars P s = true -> all_chars P a = true ->
    all_chars P (rev_string_acc s a) = true) as H.
  { induction s as [|c s IH]; intros a Hs Ha; cbn in *; [done|]. split_bools. apply IH; [done|].
    cbn. by rewrite H, Ha. }
  intros Hs. by apply H.
Qed.

(** A numeral has no white space at its ends. *)
Lemma strip_space_numeral (ws : list string) s fuel :
  ws = whitespace \/ ws = map rev_string whitespace ->
  all_chars numeral_char s = true -> trim_with ws fuel s = s.
Proof.
  intros Hw Hs. destruct fuel as [|fuel]; [done|]. cbn [trim_with].
  assert (strip_space ws s = None) as ->; [|done].
  destruct s as [|c r]; [by destruct Hw as [->| ->]|]. cbn in Hs. split_bools.
  destruct c as [[] [] [] [] [] [] [] []]; try discriminate; destruct Hw as [->| ->]; reflexivity.
Qed.

Lemma trim_numeral s : all_chars numeral_char s = true -> trim s = s.
Proof.
  intros H. unfold trim, trimStart, trimEnd. rewrite (strip_space_numeral whitespace) by auto.
  rewrite (strip_space_numeral (map rev_string whitespace)) by auto using rev_string_chars.
  apply rev_string_twice.
Qed.
