(* ===== verification/Estree.v ===== *)
(** * Estree: the syntax tree, its traversal and its ancestors

    The ESTree node as the JavaScript object it is (a type, a location, a
    range and named properties), the part of ESLint's [SourceCode] the visitors
    read, and the code of
    [packages/jsts/src/rules/helpers/ancestor.ts] and
    [packages/jsts/src/linter/visitors/visitor.ts]. *)

From Stdlib Require Import ZArith Lia QArith.
From stdpp Require Import base list gmap strings.
From S2P Require Import Prelude.

(** ** Data *)

(** [estree.Position] *)
Record Position := mkPos { line : Z; column : Z }.

(** [estree.SourceLocation]; its [end] property is [endp] here. *)
Record SourceLocation := mkLoc { start : Position; endp : Position }.

(** A token of [sourceCode.ast.tokens] (or of a Vue template). *)
Record Token := mkToken {
  t_type : string;
  t_value : string;
  t_loc : SourceLocation;
  t_range : Z * Z
}.

(** A comment; ESTree makes its location optional. *)
Record Comment := mkComment {
  c_type : string;
  c_value : string;
  c_loc : option SourceLocation;
  c_range : Z * Z
}.

(** JavaScript numbers as literals carry them. *)
Inductive jsnum :=
| NumQ (q : Q)
| NumInfinity (negative : bool)
| NumNaN.

(** What every node has besides its own properties. [h_id] is the identity of
    the object: [===] on nodes compares it. *)
Record header := mkHeader {
  h_id : nat;
  h_type : string;
  h_loc : option SourceLocation;
  h_range : option (Z * Z)
}.

(** Nodes, and the values a property of a node can have. *)
Inductive node : Type :=
| Node (h : header) (props : list (string * value))
with value : Type :=
| VUndefined
| VNull
| VBool (b : bool)
| VNum (n : jsnum)
| VBigInt (z : Z)
| VStr (s : string)
| VRegExp (pattern flags : string)
| VNode (n : node)
| VArr (vs : list value)
| VObj (props : list (string * value)).

Instance Position_eq_dec : EqDecision Position.
Proof. solve_decision. Defined.
Instance SourceLocation_eq_dec : EqDecision SourceLocation.
Proof. solve_decision. Defined.
Instance Token_eq_dec : EqDecision Token.
Proof. solve_decision. Defined.
Instance Comment_eq_dec : EqDecision Comment.
Proof. solve_decision. Defined.

Definition hdr (n : node) : header := let 'Node h _ := n in h.
Definition props_of (n : node) : list (string * value) := let 'Node _ ps := n in ps.

(** [node.type] *)
Definition type_of (n : node) : string := h_type (hdr n).

(** [node === node'] *)
Definition same_node (a b : node) : bool := Nat.eqb (h_id (hdr a)) (h_id (hdr b)).

Fixpoint lookup_prop (k : string) (ps : list (string * value)) : value :=
  match ps with
  | [] => VUndefined
  | (k', v) :: r => if k =s k' then v else lookup_prop k r
  end.

(** [node\[key\]] *)
Definition get (n : node) (k : string) : value := lookup_prop k (props_of n).

(** The property as a node, when it is one (neither absent nor [null]). *)
Definition get_node (n : node) (k : string) : option node :=
  match get n k with VNode c => Some c | _ => None end.

Definition as_node (v : value) : option node :=
  match v with VNode c => Some c | _ => None end.

(** The property as an array ([\[\]] when it is not one). *)
Definition get_array (n : node) (k : string) : list value :=
  match get n k with VArr vs => vs | _ => [] end.

(** The nodes of an array property, holes and [null]s dropped. *)
Definition get_nodes (n : node) (k : string) : list node := omap as_node (get_array n k).

Definition get_str (n : node) (k : string) : option string :=
  match get n k with VStr s => Some s | _ => None end.

(** [node.key === true], for the boolean flags of ESTree. *)
Definition get_flag (n : node) (k : string) : bool :=
  match get n k with VBool b => b | _ => false end.

(** [node?.type === t] *)
Definition opt_type_is (o : option node) (t : string) : bool :=
  match o with Some n => type_of n =s t | None => false end.

(** [Boolean(v)] *)
Definition truthy (v : value) : bool :=
  match v with
  | VUndefined | VNull => false
  | VBool b => b
  | VNum (NumQ q) => negb (Qeq_bool q 0)
  | VNum (NumInfinity _) => true
  | VNum NumNaN => false
  | VBigInt z => negb (Z.eqb z 0)
  | VStr s => negb (s =s "")
  | VRegExp _ _ | VNode _ | VArr _ | VObj _ => true
  end.

(** [visitorKeys\[type\]] of the parser: a third-party table. *)
Definition VisitorKeys := string -> option (list string).

(** The [SourceCode] of ESLint. The fields after [sc_visitorKeys] are methods of
    ESLint's class: they are arguments of every definition that calls them. *)
Record SourceCode := mkSourceCode {
  sc_ast : node;
  sc_tokens : list Token;
  sc_comments : list Comment;
  (** [ast.templateBody] of [vue-eslint-parser]: its tokens and comments. *)
  sc_templateBody : option (list Token * list Comment);
  sc_visitorKeys : VisitorKeys;
  sc_getTokens : node -> list Token;
  sc_getFirstToken : node -> option Token;
  sc_getTokenAfter : node -> option Token;
  sc_getCommentsBefore : Token -> list Comment;
  sc_getLocFromIndex : Z -> Position;
  sc_getNodeByRangeIndex : Z -> option node
}.

(** ** [helpers/ancestor.ts] *)

(** The values pushed by the loop over the visitor keys. *)
Definition childValue (n : node) (key : string) : list value :=
  match get n key with
  | VArr vs => vs
  | v => [v]
  end.

(** [childrenOf(node, visitorKeys)]: the truthy children. The tables of visitor
    keys only name properties that hold nodes, so the truthy values are nodes. *)
Definition childrenOf (n : node) (visitorKeys : VisitorKeys) : list node :=
  let children :=
    match visitorKeys (type_of n) with
    | Some keys => flat_map (childValue n) keys
    | None => []
    end in
  omap as_node (List.filter truthy children).

(** [node.parent] is the first of [parents], the nodes above [node] from the
    nearest one to the root. *)
Fixpoint ancestorsChain (parents : list node) (boundaryTypes : list string) : list node :=
  match parents with
  | [] => []
  | currentNode :: rest =>
      currentNode ::
        (if includes (type_of currentNode) boundaryTypes then []
         else ancestorsChain rest boundaryTypes)
  end.

(** [functionLike] of [helpers/ast.ts] *)
Definition functionLike : list string :=
  ["FunctionDeclaration"; "FunctionExpression"; "ArrowFunctionExpression";
   "MethodDefinition"].

Definition localAncestorsChain (parents : list node) : list node :=
  ancestorsChain parents functionLike.

Definition findFirstMatchingLocalAncestor (parents : list node) (predicate : node -> bool)
  : option node :=
  List.find predicate (localAncestorsChain parents).

Definition findFirstMatchingAncestor (parents : list node) (predicate : node -> bool)
  : option node :=
  List.find predicate (ancestorsChain parents []).

(** [getParent(context, node)]: ESLint's [getAncestors] lists the ancestors from
    the root down, so the last one is the parent. *)
Definition getParent (ancestors : list node) : option node :=
  if Nat.ltb 0 (length ancestors) then last ancestors else None.

(** ** [linter/visitors/visitor.ts] *)

(** A stack is a list whose head is the top; [push_all] is
    [stack.push(...xs)]: the last element ends on top. *)
Definition push_all {A} (xs st : list A) : list A := fold_left (fun st x => x :: st) xs st.

Section Visit.
Context (visitorKeys : VisitorKeys).
Context {St : Type} (callback : St -> node -> St).

(** The [while (stack.length)] loop, the callback's effect on the state made
    explicit; [None] is running out of [fuel]. *)
Fixpoint visit_loop (fuel : nat) (stack : list node) (s : St) : option St :=
  match stack with
  | [] => Some s
  | n :: stack' =>
      match fuel with
      | O => None
      | S fuel' =>
          visit_loop fuel' (push_all (rev (childrenOf n visitorKeys)) stack') (callback s n)
      end
  end.

End Visit.

(** ** Size, and the recursive pre-order traversal [visit] is compared with *)

Fixpoint node_size (n : node) : nat :=
  match n with
  | Node _ ps =>
      S ((fix go (ps : list (string * value)) : nat :=
            match ps with
            | [] => 0
            | (_, v) :: r => value_size v + go r
            end) ps)
  end
with value_size (v : value) : nat :=
  match v with
  | VNode n => node_size n
  | VArr vs =>
      (fix go (vs : list value) : nat :=
         match vs with
         | [] => 0
         | v :: r => value_size v + go r
         end) vs
  | VObj ps =>
      (fix go (ps : list (string * value)) : nat :=
         match ps with
         | [] => 0
         | (_, v) :: r => value_size v + go r
         end) ps
  | _ => 0
  end.

Fixpoint preorder_fuel (visitorKeys : VisitorKeys) (fuel : nat) (n : node) : list node :=
  match fuel with
  | O => []
  | S fuel' => n :: flat_map (preorder_fuel visitorKeys fuel') (childrenOf n visitorKeys)
  end.

(** Nodes in document order: a node, then its children from left to right. *)
Definition preorder (visitorKeys : VisitorKeys) (n : node) : list node :=
  preorder_fuel visitorKeys (node_size n) n.

(** [visit(sourceCode, callback)], run with as much fuel as there are nodes to
    visit ([visit_loop_preorder] shows it is enough). *)
Definition visit {St} (sc : SourceCode) (callback : St -> node -> St) (s : St) : St :=
  match visit_loop (sc_visitorKeys sc) callback
          (length (preorder (sc_visitorKeys sc) (sc_ast sc))) [sc_ast sc] s with
  | Some s' => s'
  | None => s
  end.

(** ** Lemmas *)

Lemma push_all_app {A} (xs st : list A) : push_all xs st = rev xs ++ st.
Proof.
  revert st. induction xs as [|x xs IH]; intros st; simpl; [done |].
  unfold push_all in *. simpl. rewrite IH, <- app_assoc. done.
Qed.

Lemma push_all_rev {A} (xs st : list A) : push_all (rev xs) st = xs ++ st.
Proof. by rewrite push_all_app, rev_involutive. Qed.

Lemma lookup_prop_size k ps h :
  (value_size (lookup_prop k ps) < node_size (Node h ps))%nat.
Proof.
  induction ps as [|[k' v] ps IH]; simpl in *; [lia |].
  destruct (k =s k'); lia.
Qed.

Lemma value_size_arr v vs : v ∈ vs -> (value_size v <= value_size (VArr vs))%nat.
Proof.
  induction vs as [|w vs IH]; [set_solver |].
  intros [->|H]%elem_of_cons; simpl in *; [lia |]. specialize (IH H). lia.
Qed.

Lemma childValue_size n k v :
  v ∈ childValue n k -> (value_size v <= value_size (get n k))%nat.
Proof.
  unfold childValue. destruct (get n k);
    try (rewrite list_elem_of_singleton; by intros ->).
  apply value_size_arr.
Qed.

Lemma get_size n k : (value_size (get n k) < node_size n)%nat.
Proof. destruct n as [h ps]. apply lookup_prop_size. Qed.

Lemma get_node_size n k c : get_node n k = Some c -> (node_size c < node_size n)%nat.
Proof.
  unfold get_node. pose proof (get_size n k) as S. destruct (get n k); try done. by intros [= ->].
Qed.

Lemma elem_of_childrenOf n keys c :
  c ∈ childrenOf n keys ->
  exists ks k, keys (type_of n) = Some ks /\ k ∈ ks /\ VNode c ∈ childValue n k.
Proof.
  unfold childrenOf. rewrite list_elem_of_omap. intros (v & Hv & Hc).
  destruct v; simplify_eq/=.
  apply list_elem_of_In, filter_In in Hv as [Hv _].
  destruct (keys (type_of n)) as [ks|]; [| done].
  apply in_flat_map in Hv as (k & Hk & Hv).
  exists ks, k. by rewrite !list_elem_of_In.
Qed.

(** A child is strictly smaller than its parent. *)
Lemma childrenOf_size n keys c : c ∈ childrenOf n keys -> (node_size c < node_size n)%nat.
Proof.
  intros (ks & k & _ & _ & Hv)%elem_of_childrenOf.
  apply childValue_size in Hv. simpl in Hv. pose proof (get_size n k). lia.
Qed.

Lemma node_size_pos n : (0 < node_size n)%nat.
Proof. destruct n. simpl. lia. Qed.

Lemma preorder_fuel_enough keys : forall fuel fuel' n,
  (node_size n <= fuel)%nat -> (node_size n <= fuel')%nat ->
  preorder_fuel keys fuel n = preorder_fuel keys fuel' n.
Proof.
  induction fuel as [|fuel IH]; intros fuel' n H H';
    pose proof (node_size_pos n); [lia |].
  destruct fuel' as [|fuel']; [lia |]. simpl. f_equal.
  apply flat_map_ext_in. intros c Hc. apply childrenOf_size in Hc. apply IH; lia.
Qed.

(** The equation of the recursive traversal. *)
Lemma preorder_eq keys n :
  preorder keys n = n :: flat_map (preorder keys) (childrenOf n keys).
Proof.
  unfold preorder at 1. pose proof (node_size_pos n).
  destruct (node_size n) as [|k] eqn:E; [lia |]. simpl. f_equal.
  apply flat_map_ext_in. intros c Hc. apply childrenOf_size in Hc.
  apply preorder_fuel_enough; lia.
Qed.

(** Induction along [childrenOf]. *)
Lemma node_children_ind keys (P : node -> Prop) :
  (forall n, (forall c, c ∈ childrenOf n keys -> P c) -> P n) -> forall n, P n.
Proof.
  intros H n. remember (node_size n) as k eqn:E. revert n E.
  induction k as [k IH] using lt_wf_ind. intros n ->.
  apply H. intros c Hc. apply (IH (node_size c)); [by eapply childrenOf_size | done].
Qed.

(** The loop, started on a stack, treats the trees of the stack one after the
    other, each in pre-order. *)
Lemma visit_loop_stack {St} keys (callback : St -> node -> St) : forall fuel stack s,
  (length (flat_map (preorder keys) stack) <= fuel)%nat ->
  visit_loop keys callback fuel stack s
  = Some (fold_left callback (flat_map (preorder keys) stack) s).
Proof.
  induction fuel as [|fuel IH]; intros [|n stack] s H; try done.
  - cbn [flat_map] in H. rewrite preorder_eq in H. simpl in H. lia.
  - cbn [flat_map visit_loop]. rewrite push_all_rev, preorder_eq.
    cbn [flat_map] in H. rewrite preorder_eq in H.
    rewrite IH.
    + rewrite flat_map_app. done.
    + simpl in H. rewrite flat_map_app. lia.
Qed.

(** [visit] is a fold over the pre-order: what the metrics' proofs use. *)
Lemma visit_fold {St} (sc : SourceCode) (callback : St -> node -> St) s :
  visit sc callback s
  = fold_left callback (preorder (sc_visitorKeys sc) (sc_ast sc)) s.
Proof.
  unfold visit. rewrite visit_loop_stack; simpl; by rewrite app_nil_r.
Qed.

Lemma ancestorsChain_prefix parents boundary :
  exists rest, parents = ancestorsChain parents boundary ++ rest.
Proof.
  induction parents as [|p ps [rest IH]]; simpl; [by exists [] |].
  destruct (includes (type_of p) boundary); [by exists ps |].
  exists rest. by rewrite <- IH.
Qed.

Lemma ancestorsChain_nil parents : ancestorsChain parents [] = parents.
Proof. induction parents as [|p ps IH]; simpl; [done | by rewrite IH]. Qed.

(** ** Properties *)

(** [visit] calls its callback on every node reachable through the visitor
    keys, once, in document order (a node before its children, the children
    from left to right), whatever the callback does to its state; the loop ends
    within the number of nodes. *)
Theorem visit_is_preorder {St} (sc : SourceCode) (callback : St -> node -> St) (s : St) :
  visit_loop (sc_visitorKeys sc) callback
    (length (preorder (sc_visitorKeys sc) (sc_ast sc))) [sc_ast sc] s = Some (visit sc callback s) /\
  visit sc callback s = fold_left callback (preorder (sc_visitorKeys sc) (sc_ast sc)) s.
Proof.
  assert (L : visit_loop (sc_visitorKeys sc) callback
    (length (preorder (sc_visitorKeys sc) (sc_ast sc))) [sc_ast sc] s
    = Some (fold_left callback (preorder (sc_visitorKeys sc) (sc_ast sc)) s)).
  { rewrite visit_loop_stack; simpl; by rewrite app_nil_r. }
  unfold visit. by rewrite L.
Qed.
