(* ===== verification/JsNumber.v ===== *)
(** * JsNumber: texts and values as numbers

    What [Number], [String], [Number.parseInt] and the bitwise operators of the language
    make of the values of literals. Numbers are exact rationals: their rounding to doubles is
    left out. *)

From Stdlib Require Import ZArith QArith Qround Lia Ascii DecimalString DecimalN.
From Stdlib Require Qcanon.
From stdpp Require Import base list strings.
From S2P Require Import Prelude JsString Json Estree.

Open Scope js_scope.
Open Scope Z_scope.

(** ** Numerals *)

(** The value of a digit in a base, when it is one. *)
Definition digit_value (base : Z) (c : ascii) : option Z :=
  let n := Z.of_nat (nat_of_ascii (lower_ascii c)) in
  let v := if (48 <=? n) && (n <=? 57) then n - 48 else if (97 <=? n) && (n <=? 122) then n - 87 else base in
  if v <? base then Some v else None.

(** The digits at the start of a text: their value after [acc], their number, the rest. *)
Fixpoint read_digits (base acc : Z) (count : nat) (s : string) : Z * nat * string :=
  match s with
  | String c r =>
      match digit_value base c with
      | Some v => read_digits base (acc * base + v) (S count) r
      | None => (acc, count, s)
      end
  | EmptyString => (acc, count, s)
  end.

Definition read_exponent (s : string) : option Z :=
  match s with
  | EmptyString => Some 0
  | String c r =>
      if Ascii.eqb c "e" || Ascii.eqb c "E" then
        let '(sign, r) :=
          match r with
          | String "+" r' => (1, r')
          | String "-" r' => (-1, r')
          | _ => (1, r)
          end in
        match read_digits 10 0 0 r with
        | (v, S _, EmptyString) => Some (sign * v)
        | _ => None
        end
      else None
  end.

Definition pow10 (e : Z) : Q := Qpower 10 e.

(** The number that decimal digits denote, with a point and an exponent. *)
Definition decimal_number (raw : string) : option Q :=
  let '(whole, n, rest) := read_digits 10 0 0 raw in
  let '(mantissa, m, rest) :=
    match rest with String "." r => read_digits 10 whole 0 r | _ => (whole, O, rest) end in
  match (n + m)%nat, read_exponent rest with
  | S _, Some e => Some (inject_Z mantissa * pow10 (e - Z.of_nat m))%Q
  | _, _ => None
  end.

Definition in_base (base : Z) (r : string) : option Q :=
  match read_digits base 0 0 r with
  | (v, S _, EmptyString) => Some (inject_Z v)
  | _ => None
  end.

(** [Number(raw)], on the text of a literal: [None] is [NaN]; numbers are exact. *)
Definition Number (raw : string) : option Q :=
  match raw with
  | String "0" (String c r) =>
      if Ascii.eqb (lower_ascii c) "x" then in_base 16 r
      else if Ascii.eqb (lower_ascii c) "o" then in_base 8 r
      else if Ascii.eqb (lower_ascii c) "b" then in_base 2 r
      else decimal_number raw
  | _ => decimal_number raw
  end.

Definition sgn (q : Q) : Z := Z.sgn (Qnum q).

(** ** Values *)

Definition negated (n : jsnum) : jsnum :=
  match n with
  | NumQ q => NumQ (- q)
  | NumInfinity b => NumInfinity (negb b)
  | NumNaN => NumNaN
  end.

Definition of_option (q : option Q) : jsnum := match q with Some q => NumQ q | None => NumNaN end.

(** [Number(s)] on a text. *)
Definition string_to_number (s : string) : jsnum :=
  let unsigned s := if s =s "Infinity" then NumInfinity false else of_option (decimal_number s) in
  match trim s with
  | EmptyString => NumQ 0
  | String "+" r => unsigned r
  | String "-" r => negated (unsigned r)
  | s => if s =s "Infinity" then NumInfinity false else of_option (Number s)
  end.

(** [Number(v)] on the value of a literal. *)
Definition to_number (v : value) : jsnum :=
  match v with
  | VNum n => n
  | VStr s => string_to_number s
  | VNull => NumQ 0
  | VBool b => NumQ (if b then 1 else 0)
  | VBigInt z => NumQ (inject_Z z)
  | _ => NumNaN
  end.

(** The integer of 32 bits that the bitwise operators take for a number. *)
Definition to_int32 (n : jsnum) : Z :=
  match n with
  | NumQ q =>
      let truncated := if Qle_bool 0 q then Qfloor q else Qceiling q in
      let m := (truncated mod 2 ^ 32)%Z in
      if m <? 2 ^ 31 then m else (m - 2 ^ 32)%Z
  | _ => 0%Z
  end.

(** [String(v)] on the value of a literal, or on [undefined]; the text of a number that is
    not an integer below 10^21 is given. *)
Definition text_of_value (number_text : Q -> string) (v : value) : string :=
  match v with
  | VStr s => s
  | VNum (NumQ q) =>
      let r := Qred q in
      if Pos.eqb (Qden r) 1 && (Z.abs (Qnum r) <? 10 ^ 21) then print_int (Qnum r) else number_text q
  | VNum (NumInfinity negative) => if negative then "-Infinity" else "Infinity"
  | VNum NumNaN => "NaN"
  | VBigInt z => print_int z
  | VBool b => if b then "true" else "false"
  | VNull => "null"
  | VRegExp pattern flags => ("/" +:+ pattern +:+ "/" +:+ flags)%string
  | _ => "undefined"
  end.

(** The digits at the start of a text, after the prefix of the base 16. *)
Definition parse_digits (text : string) : option Z :=
  let '(base, digits) :=
    match text with
    | String a (String c r) => if Ascii.eqb a "0" && Ascii.eqb (lower_ascii c) "x" then (16, r) else (10, text)
    | _ => (10, text)
    end in
  match read_digits base 0 0 digits with
  | (v, S _, _) => Some v
  | _ => None
  end.

(** The integer that [Number.parseInt] reads, after white space and a sign. *)
Definition parse_integer (text : string) : option Z :=
  match trimStart text with
  | String c r =>
      if Ascii.eqb c "-" then Z.opp <$> parse_digits r
      else if Ascii.eqb c "+" then parse_digits r else parse_digits (String c r)
  | EmptyString => None
  end.

(** [Number.parseInt(v)] *)
Definition parseInt (number_text : Q -> string) (v : value) : value :=
  VNum (of_option (inject_Z <$> parse_integer (text_of_value number_text v))).

(** *** Integers are read back *)

Lemma read_digits_acc d : forall acc count, exists count',
  read_digits 10 (Zpos acc) count (NilEmpty.string_of_uint d) = (Zpos (Pos.of_uint_acc d acc), count', "") /\
  (count <= count')%nat.
Proof.
  induction d; intros acc count; cbn [NilEmpty.string_of_uint read_digits Pos.of_uint_acc]; [by exists count | ..].
  all: match goal with |- context [digit_value 10 ?c] => let v := eval vm_compute in (digit_value 10 c) in
         change (digit_value 10 c) with v end; cbv iota beta.
  all: match goal with |- context [Pos.of_uint_acc _ ?p] =>
         destruct (IHd p (S count)) as (count' & R & L); exists count';
         match goal with |- context [read_digits 10 ?a _ _] => replace a with (Zpos p) by lia end end.
  all: rewrite R; split; [done | lia].
Qed.

Lemma read_digits_of_uint d : forall count, exists count',
  read_digits 10 0 count (NilEmpty.string_of_uint d) = (Z.of_N (Pos.of_uint d), count', "") /\
  (count <= count')%nat /\ (d <> Decimal.Nil -> (count < count')%nat).
Proof.
  induction d; intros count; cbn [NilEmpty.string_of_uint read_digits Pos.of_uint]; [by exists count | ..].
  all: match goal with |- context [digit_value 10 ?c] => let v := eval vm_compute in (digit_value 10 c) in
         change (digit_value 10 c) with v end; cbv iota beta.
  1: change (0 * 10 + 0) with 0; destruct (IHd (S count)) as (count' & -> & L & _).
  2-10: match goal with |- context [Pos.of_uint_acc ?d ?p] =>
          change (0 * 10 + Zpos p) with (Zpos p); destruct (read_digits_acc d p (S count)) as (count' & -> & L) end.
  all: exists count'; split; [done | lia].
Qed.

Lemma parse_digits_uint d : d <> Decimal.Nil -> parse_digits (NilEmpty.string_of_uint d) = Some (Z.of_N (Pos.of_uint d)).
Proof.
  intros D. destruct (read_digits_of_uint d 0) as (count & R & _ & L). specialize (L D).
  assert (parse_digits (NilEmpty.string_of_uint d) =
          match read_digits 10 0 0 (NilEmpty.string_of_uint d) with (v, S _, _) => Some v | _ => None end) as ->
    by (destruct d as [|[]|[]|[]|[]|[]|[]|[]|[]|[]|[]]; reflexivity).
  rewrite R. destruct count; [lia | done].
Qed.

Lemma parse_digits_positive p : parse_digits (NilZero.string_of_uint (N.to_uint (Npos p))) = Some (Zpos p).
Proof.
  pose proof (DecimalN.Unsigned.of_to (Npos p)) as O. unfold N.of_uint in O.
  assert (N.to_uint (Npos p) <> Decimal.Nil) as D by (intros E; by rewrite E in O).
  assert (NilZero.string_of_uint (N.to_uint (Npos p)) = NilEmpty.string_of_uint (N.to_uint (Npos p))) as ->
    by (unfold NilZero.string_of_uint; by destruct (N.to_uint (Npos p))).
  rewrite parse_digits_uint by done. by rewrite O.
Qed.

(** [parseInt] reads back the text of an integer. *)
Lemma parse_integer_print z : parse_integer (print_int z) = Some z.
Proof.
  unfold parse_integer, trimStart. rewrite strip_space_numeral by (auto using print_int_chars).
  destruct z as [|p|p]; [reflexivity | |].
  - destruct (print_nat_head p) as (c & t & E & Hc). pose proof (parse_digits_positive p) as P.
    cbn [print_int]. rewrite E in P |- *.
    assert (Ascii.eqb c "-" = false /\ Ascii.eqb c "+" = false) as [-> ->]; [| done].
    split; apply Ascii.eqb_neq; intros ->; vm_compute in Hc; lia.
  - change (Z.opp <$> parse_digits (NilZero.string_of_uint (N.to_uint (Npos p))) = Some (Zneg p)).
    by rewrite parse_digits_positive.
Qed.

Lemma parseInt_integer number_text z : Z.abs z < 10 ^ 21 ->
  parseInt number_text (VNum (NumQ (inject_Z z))) = VNum (NumQ (inject_Z z)).
Proof.
  intros B. unfold parseInt, text_of_value.
  rewrite Qcanon.Qred_identity by apply Z.gcd_1_r.
  cbn [Qden Qnum inject_Z]. rewrite (proj2 (Z.ltb_lt _ _) B). cbn [Pos.eqb andb]. by rewrite parse_integer_print.
Qed.

(** ** Examples *)

Example texts_of_numbers :
  map Number ["12"; "0x1F"; "1.50"; ".5e1"; "1_000"; "10n"; "'1'"] =
  [Some (inject_Z 12 * pow10 0); Some (inject_Z 31); Some (inject_Z 150 * pow10 (-2)); Some (inject_Z 5 * pow10 0); None; None; None]%Q.
Proof. reflexivity. Qed.

Example bitwise : to_int32 (NumQ (inject_Z (2 ^ 32 + 5))) = 5%Z /\ to_int32 (NumQ (- 3 # 2)) = (-1)%Z /\
  to_int32 (NumQ (inject_Z (2 ^ 31))) = (- 2 ^ 31)%Z.
Proof. repeat split; vm_compute; reflexivity. Qed.

