(* ===== verification/Reports.v ===== *)
(** * Reports: what rules give to ESLint

    The descriptors that rules give to [context.report], with the locations of
    [helpers/location.ts] for the secondary locations. *)

From stdpp Require Import base list strings.
From S2P Require Import Prelude Estree.

Open Scope js_scope.

(** A node, a token, or a location of its own. *)
Inductive place :=
| AtNode (n : node)
| AtToken (t : Token)
| AtLocation (loc : SourceLocation).

(** [ReportDescriptor]: its message or the key of it, the data of the message, where it
    is, and the secondary locations with their messages. *)
Record ReportDescriptor := mkDescriptor {
  de_message : string;
  de_data : list (string * string);
  de_place : place;
  de_secondary : list (place * option string)
}.

Definition report (message : string) (n : node) : ReportDescriptor := mkDescriptor message [] (AtNode n) [].

Definition report_with (message : string) (n : node) (secondary : list (place * option string)) : ReportDescriptor :=
  mkDescriptor message [] (AtNode n) secondary.

Definition report_data (message : string) (n : node) (data : list (string * string)) : ReportDescriptor :=
  mkDescriptor message data (AtNode n) [].

(** [toSecondaryLocation(node)] and [toSecondaryLocation(node, message)]. *)
Definition secondary (n : node) : place * option string := (AtNode n, None).
Definition secondary_with (n : node) (message : string) : place * option string := (AtNode n, Some message).

(** The node of a report. *)
Definition reported_node (d : ReportDescriptor) : option node :=
  match de_place d with AtNode n => Some n | _ => None end.
