(* ===== verification/Lva.v ===== *)
(** * Lva: live variable analysis

    The code of [packages/jsts/src/rules/helpers/lva.ts]: the live variables
    of one code path segment ([LiveVariables] with [add] and [propagate]) and
    the worklist loop [lva]. A code path segment is an object of ESLint's code
    path analysis, of which the code reads an id and the neighbours; here a
    segment names its neighbours by their ids, which is how the code finds their
    [LiveVariables] in the map. *)

From Stdlib Require Import ZArith Lia.
From stdpp Require Import base list gmap strings.
From S2P Require Import Prelude Estree.

(** [Rule.CodePathSegment] *)
Record CodePathSegment := mkSegment {
  seg_id : string;
  nextSegments : list string;
  prevSegments : list string
}.

(** What can stop the loop: [liveVariablesMap.get(id)!] on an id without entry,
    or (in the model only) no fuel left. *)
Inductive flow_error :=
| MissingSegment (id : string)
| OutOfFuel.

Section Lva.
(** Variables and references are objects compared by identity. *)
Context {Var Ref : Type} `{EqDecision Var} `{EqDecision Ref}.
(** The parts of [ReferenceLike] the analysis reads. *)
Context (resolved : Ref -> option Var) (isRead isWrite : Ref -> bool).

Record LiveVariables := mkLiveVariables {
  segment : CodePathSegment;
  gen : list Var;
  kill : list Var;
  in_ : list Var;
  out : list Var;
  references : list Ref
}.

(** [new LiveVariables(segment)] *)
Definition newLiveVariables (s : CodePathSegment) : LiveVariables :=
  mkLiveVariables s [] [] [] [] [].

(** [liveVariables.add(ref)] *)
Definition add (lv : LiveVariables) (ref : Ref) : LiveVariables :=
  match resolved ref with
  | Some variable =>
      mkLiveVariables (segment lv)
        (if isRead ref then set_add variable (gen lv) else gen lv)
        (if isWrite ref then set_add variable (kill lv) else kill lv)
        (in_ lv) (out lv) (set_add ref (references lv))
  | None => lv
  end.

(** [Map<string, LiveVariables>] *)
Definition LvMap := list (string * LiveVariables).

(** [difference(a, b)]; the test on [b.size] only avoids a copy. *)
Definition difference (a b : list Var) : list Var :=
  match b with
  | [] => a
  | _ => List.filter (fun e => negb (set_has e b)) a
  end.

Definition shouldUpdate (inSet gen diff : list Var) : bool :=
  existsb (fun e => negb (set_has e inSet)) gen
  || existsb (fun e => negb (set_has e inSet)) diff.

(** [next.in] of every following segment, in order. *)
Fixpoint collectOut (m : LvMap) (next : list string) : result flow_error (list Var) :=
  match next with
  | [] => Ok []
  | id :: rest =>
      match map_get id m with
      | None => Throw (MissingSegment id)
      | Some lv => let! out := collectOut m rest in Ok (in_ lv ++ out)
      end
  end.

(** [liveVariables.propagate(liveVariablesMap)]: the new object and whether its
    [in] changed. *)
Definition propagate (m : LvMap) (lv : LiveVariables) : result flow_error (LiveVariables * bool) :=
  let! out := collectOut m (nextSegments (segment lv)) in
  let diff := difference out (kill lv) in
  let lv' := mkLiveVariables (segment lv) (gen lv) (kill lv) (in_ lv) out (references lv) in
  if shouldUpdate (in_ lv) (gen lv) diff
  then Ok (mkLiveVariables (segment lv) (gen lv) (kill lv)
             (set_add_all [] (gen lv ++ diff)) out (references lv), true)
  else Ok (lv', false).

(** One turn of the loop. The worklist holds the ids of the segments, its head
    is the end of the array ([pop]). *)
Definition lva_step (worklist : list string) (m : LvMap)
  : result flow_error (list string * LvMap) :=
  match worklist with
  | [] => Ok ([], m)
  | current :: worklist' =>
      match map_get current m with
      | None => Throw (MissingSegment current)
      | Some lv =>
          let! (lv', changed) := propagate m lv in
          Ok (if changed then push_all (prevSegments (segment lv)) worklist' else worklist',
              map_set current lv' m)
      end
  end.

Fixpoint lva_loop (fuel : nat) (worklist : list string) (m : LvMap) : result flow_error LvMap :=
  match worklist with
  | [] => Ok m
  | _ =>
      match fuel with
      | O => Throw OutOfFuel
      | S fuel' =>
          let! (worklist', m') := lva_step worklist m in
          lva_loop fuel' worklist' m'
      end
  end.

(** [Array.from(liveVariablesMap.values(), lva => lva.segment)], top first. *)
Definition initial_worklist (m : LvMap) : list string :=
  rev (map (fun kv => seg_id (segment kv.2)) m).

(** [lva(liveVariablesMap)] *)
Definition lva (fuel : nat) (m : LvMap) : result flow_error LvMap :=
  lva_loop fuel (initial_worklist m) m.

(** ** Specification: liveness along paths of segments *)

(** A variable is live at the entry of a segment when some path reaches a
    segment that reads it and no segment before on the path writes it. *)
Inductive live_at (m : LvMap) : string -> Var -> Prop :=
| live_here id lv v :
    map_get id m = Some lv -> v ∈ gen lv -> live_at m id v
| live_later id lv next v :
    map_get id m = Some lv -> next ∈ nextSegments (segment lv) ->
    v ∉ kill lv -> live_at m next v -> live_at m id v.

(** The map ESLint's events build: the entry of an id holds the segment of that
    id, the neighbours are entries, and the two neighbour lists agree. *)
Record wf_map (m : LvMap) : Prop := mkWf {
  wf_nodup : NoDup m.*1;
  wf_id : forall id lv, map_get id m = Some lv -> seg_id (segment lv) = id;
  wf_next : forall id lv n, map_get id m = Some lv -> n ∈ nextSegments (segment lv) ->
    exists lv', map_get n m = Some lv' /\ id ∈ prevSegments (segment lv');
  wf_prev : forall id lv p, map_get id m = Some lv -> p ∈ prevSegments (segment lv) ->
    is_Some (map_get p m)
}.

(** No analysis has run yet. *)
Definition fresh_map (m : LvMap) : Prop :=
  forall id lv, map_get id m = Some lv -> in_ lv = [].

(** ** What a propagation changes *)

(** Same segment, gen, kill and references. *)
Definition same_block (a b : LiveVariables) : Prop :=
  segment a = segment b /\ gen a = gen b /\ kill a = kill b /\ references a = references b.

Definition same_graph (m m' : LvMap) : Prop :=
  m.*1 = m'.*1 /\
  forall id lv, map_get id m = Some lv ->
    exists lv', map_get id m' = Some lv' /\ same_block lv lv'.

(** Live at the entry of a following segment. *)
Definition succ_in (m : LvMap) (lv : LiveVariables) (v : Var) : Prop :=
  exists n lvn, n ∈ nextSegments (segment lv) /\ map_get n m = Some lvn /\ v ∈ in_ lvn.

(** The right-hand side of the data flow equation of a segment. *)
Definition flow (m : LvMap) (lv : LiveVariables) (v : Var) : Prop :=
  v ∈ gen lv \/ (v ∉ kill lv /\ succ_in m lv v).

Lemma elem_of_difference_list a b v : v ∈ difference a b <-> v ∈ a /\ v ∉ b.
Proof.
  unfold difference. destruct b as [|x b]; [set_solver |].
  rewrite list_elem_of_In, filter_In, <- list_elem_of_In, negb_true_iff, set_has_false.
  done.
Qed.

Lemma shouldUpdate_true inSet g d :
  shouldUpdate inSet g d = true <-> exists v, v ∈ g ++ d /\ v ∉ inSet.
Proof.
  unfold shouldUpdate. rewrite orb_true_iff, !existsb_exists.
  setoid_rewrite <- list_elem_of_In. setoid_rewrite negb_true_iff.
  setoid_rewrite set_has_false. setoid_rewrite elem_of_app. naive_solver.
Qed.

Lemma collectOut_spec m next :
  (forall n, n ∈ next -> is_Some (map_get n m)) ->
  exists out, collectOut m next = Ok out /\
    forall v, v ∈ out <-> exists n lvn, n ∈ next /\ map_get n m = Some lvn /\ v ∈ in_ lvn.
Proof.
  induction next as [|id next IH]; intros H; simpl; [exists []; set_solver |].
  destruct (H id) as [lv Hlv]; [set_solver |]. rewrite Hlv.
  destruct IH as (o & -> & Ho); [set_solver |].
  exists (in_ lv ++ o). split; [done |]. intros v. rewrite elem_of_app, Ho. split.
  - intros [Hv|(n & lvn & Hn & ? & ?)]; [exists id, lv | exists n, lvn]; set_solver.
  - intros (n & lvn & Hn & Hg & Hv). apply elem_of_cons in Hn as [->|Hn]; [| naive_solver].
    left. congruence.
Qed.

(** A propagation recomputes [out], and [in] when the equation is violated. *)
Lemma propagate_spec m id lv :
  wf_map m -> map_get id m = Some lv ->
  exists lv' changed, propagate m lv = Ok (lv', changed) /\ same_block lv lv' /\
    (forall v, v ∈ out lv' <-> succ_in m lv v) /\
    (if changed
     then (forall v, v ∈ in_ lv' <-> flow m lv v) /\ NoDup (in_ lv') /\
          exists v, flow m lv v /\ v ∉ in_ lv
     else in_ lv' = in_ lv /\ forall v, flow m lv v -> v ∈ in_ lv).
Proof.
  intros Hwf Hlv. unfold propagate.
  destruct (collectOut_spec m (nextSegments (segment lv))) as (o & -> & Ho).
  { intros n Hn. destruct (wf_next m Hwf _ _ _ Hlv Hn) as (? & ? & _). by eexists. }
  simpl.
  assert (Hflow : forall v, v ∈ gen lv ++ difference o (kill lv) <-> flow m lv v).
  { intros v. unfold flow, succ_in. rewrite elem_of_app, elem_of_difference_list, Ho. naive_solver. }
  destruct (shouldUpdate _ _ _) eqn:E; eexists _, _; (split; [reflexivity |]); simpl.
  - split; [done |]. split; [exact Ho |].
    split; [intros v; rewrite elem_of_set_add_all, <- Hflow, elem_of_nil; tauto |].
    split; [apply NoDup_set_add_all; constructor |].
    apply shouldUpdate_true in E as (v & Hv & Hn). exists v. by rewrite <- Hflow.
  - split; [done |]. split; [exact Ho |]. split; [done |].
    intros v Hv. destruct (decide (v ∈ in_ lv)) as [|Hn]; [done |].
    exfalso. apply Hflow in Hv.
    assert (shouldUpdate (in_ lv) (gen lv) (difference o (kill lv)) = true)
      by (apply shouldUpdate_true; eauto).
    congruence.
Qed.

(** ** Maps with the same graph *)

Lemma same_block_refl lv : same_block lv lv.
Proof. done. Qed.

Lemma same_graph_refl m : same_graph m m.
Proof. split; [done |]. intros id lv H. by exists lv. Qed.

Lemma same_graph_trans m1 m2 m3 : same_graph m1 m2 -> same_graph m2 m3 -> same_graph m1 m3.
Proof.
  intros [K1 H1] [K2 H2]. split; [congruence |]. intros id lv H.
  destruct (H1 _ _ H) as (lv2 & G2 & B2), (H2 _ _ G2) as (lv3 & G3 & B3).
  exists lv3. unfold same_block in *. naive_solver congruence.
Qed.

Lemma map_get_dom {V} (m m' : list (string * V)) id :
  m.*1 = m'.*1 -> is_Some (map_get id m) -> is_Some (map_get id m').
Proof.
  intros K [v H]. destruct (map_get id m') eqn:E; [by eexists |].
  apply map_get_None in E. rewrite <- K in E. apply map_get_None in E. congruence.
Qed.

Lemma same_graph_sym m m' : same_graph m m' -> same_graph m' m.
Proof.
  intros [K H]. split; [done |]. intros id lv' G'.
  destruct (map_get_dom m' m id) as [lv G]; [done | by eexists |].
  destruct (H _ _ G) as (lv'' & G'' & B). exists lv. split; [done |].
  unfold same_block in *. naive_solver congruence.
Qed.

Lemma same_graph_set m id lv lv' :
  map_get id m = Some lv -> same_block lv lv' -> same_graph m (map_set id lv' m).
Proof.
  intros G B. split.
  - symmetry. apply map_set_keys_in. apply map_get_Some_elem in G.
    apply list_elem_of_fmap. by exists (id, lv).
  - intros i l H. destruct (decide (i = id)) as [->|Hne].
    + exists lv'. rewrite map_get_set_eq. split; [done |]. congruence.
    + exists l. by rewrite map_get_set_ne.
Qed.

Lemma same_graph_live m m' id v : same_graph m m' -> live_at m id v -> live_at m' id v.
Proof.
  intros [K H]. induction 1 as [id lv v G Hv | id lv n v G Hn Hk _ IH];
    destruct (H _ _ G) as (lv' & G' & (Es & Eg & Ek & _)).
  - eapply live_here; [exact G' | congruence].
  - eapply live_later; [exact G' | | | exact IH]; congruence.
Qed.

Lemma same_graph_wf m m' : same_graph m m' -> wf_map m -> wf_map m'.
Proof.
  intros SG [N I Nx P]. pose proof (same_graph_sym _ _ SG) as [K' H'].
  destruct SG as [K H]. split.
  - by rewrite <- K.
  - intros id lv G. destruct (H' _ _ G) as (lv0 & G0 & (E & _)). rewrite E. by apply I.
  - intros id lv n G Hn. destruct (H' _ _ G) as (lv0 & G0 & (E & _)).
    rewrite E in Hn. destruct (Nx _ _ _ G0 Hn) as (lv1 & G1 & Hp).
    destruct (H _ _ G1) as (lv2 & G2 & (E2 & _)). exists lv2. split; [done |]. congruence.
  - intros id lv p G Hp. destruct (H' _ _ G) as (lv0 & G0 & (E & _)).
    rewrite E in Hp. eapply map_get_dom, P; eauto.
Qed.

(** ** The invariant of the loop *)

Record lva_inv (U : list Var) (worklist : list string) (m : LvMap) : Prop := mkInv {
  inv_wf : wf_map m;
  inv_worklist : forall id, id ∈ worklist -> is_Some (map_get id m);
  inv_universe : forall id lv, map_get id m = Some lv -> gen lv ⊆ U;
  inv_nodup : forall id lv, map_get id m = Some lv -> NoDup (in_ lv);
  inv_post : forall id lv v, map_get id m = Some lv -> v ∈ in_ lv -> flow m lv v;
  inv_sound : forall id lv v, map_get id m = Some lv -> v ∈ in_ lv -> live_at m id v;
  inv_done : forall id lv, map_get id m = Some lv -> id ∉ worklist ->
    (forall v, flow m lv v -> v ∈ in_ lv) /\
    (forall v, v ∈ out lv <-> succ_in m lv v)
}.

(** Room left in the [in] sets, weighted by what a change costs. *)
Definition weight (U : list Var) (lv : LiveVariables) : nat :=
  (length U - length (in_ lv)) * length (prevSegments (segment lv)).

Definition slack (U : list Var) (m : LvMap) : nat := sum_list_with (fun kv => weight U kv.2) m.

Lemma slack_set U m id lv lv' :
  map_get id m = Some lv -> (slack U (map_set id lv' m) + weight U lv = slack U m + weight U lv')%nat.
Proof.
  induction m as [|[i l] m IH]; simpl; [done |].
  destruct (decide (id = i)); intros G; simpl.
  - simplify_eq. unfold slack. simpl. lia.
  - specialize (IH G). unfold slack in *. simpl. lia.
Qed.

Lemma NoDup_subset_length (l U : list Var) : NoDup l -> l ⊆ U -> (length l <= length U)%nat.
Proof. intros H S. by apply submseteq_length, NoDup_submseteq. Qed.

Lemma live_at_universe U m id v :
  (forall id lv, map_get id m = Some lv -> gen lv ⊆ U) -> live_at m id v -> v ∈ U.
Proof. intros H. induction 1; [by eapply H | done]. Qed.

Lemma flow_live U wl m id lv v :
  lva_inv U wl m -> map_get id m = Some lv -> flow m lv v -> live_at m id v.
Proof.
  intros I G [Hg|(Hk & n & lvn & Hn & Gn & Hv)].
  - by eapply live_here.
  - eapply live_later; [exact G | exact Hn | exact Hk |]. by eapply (inv_sound _ _ _ I).
Qed.

(** What the following segments need only grows when one [in] grows. *)
Lemma succ_in_mono m id lv lv' lv1 v :
  map_get id m = Some lv -> in_ lv ⊆ in_ lv' ->
  succ_in m lv1 v -> succ_in (map_set id lv' m) lv1 v.
Proof.
  intros G Hin (n & lvn & Hn & Gn & Hv). destruct (decide (n = id)) as [->|Hne].
  - exists id, lv'. rewrite map_get_set_eq. simplify_eq. set_solver.
  - exists n, lvn. by rewrite map_get_set_ne.
Qed.

(** ... and does not change when that segment does not follow, or its [in] is
    the same. *)
Lemma succ_in_same m id lv lv' lv1 v :
  map_get id m = Some lv -> (id ∉ nextSegments (segment lv1) \/ in_ lv = in_ lv') ->
  succ_in (map_set id lv' m) lv1 v <-> succ_in m lv1 v.
Proof.
  intros G E. split.
  - intros (n & lvn & Hn & Gn & Hv). apply map_get_set_cases in Gn as [[-> ->]|[Hne Gn]].
    + exists id, lv. destruct E as [E|E]; [done |]. by rewrite E.
    + by exists n, lvn.
  - intros (n & lvn & Hn & Gn & Hv). destruct (decide (n = id)) as [->|Hne].
    + exists id, lv'. rewrite map_get_set_eq. simplify_eq. destruct E as [E|E]; [done |].
      by rewrite <- E.
    + exists n, lvn. by rewrite map_get_set_ne.
Qed.

Lemma flow_mono m m' lv v :
  (succ_in m lv v -> succ_in m' lv v) -> flow m lv v -> flow m' lv v.
Proof. unfold flow. tauto. Qed.

Lemma same_block_succ m lv lv' v : same_block lv lv' -> succ_in m lv v <-> succ_in m lv' v.
Proof. intros (Es & _). unfold succ_in. by rewrite Es. Qed.

Lemma same_block_flow m lv lv' v : same_block lv lv' -> flow m lv v <-> flow m lv' v.
Proof. intros B. pose proof B as (_ & Eg & Ek & _). unfold flow.
  by rewrite Eg, Ek, same_block_succ. Qed.

(** ** One turn preserves the invariant and consumes the measure *)

(** The facts about the updated object that the invariant needs. *)
Record update_ok (U : list Var) (m : LvMap) (current : string) (lv lv' : LiveVariables)
  : Prop := mkUpdate {
  upd_get : map_get current m = Some lv;
  upd_block : same_block lv lv';
  upd_mono : in_ lv ⊆ in_ lv';
  upd_flow : forall v, v ∈ in_ lv' <-> flow m lv v;
  upd_out : forall v, v ∈ out lv' <-> succ_in m lv v;
  upd_nodup : NoDup (in_ lv')
}.

Lemma update_inv U m current lv lv' wl wl' :
  lva_inv U (current :: wl) m -> update_ok U m current lv lv' ->
  (forall id, id ∈ wl' <-> id ∈ wl \/ (in_ lv <> in_ lv' /\ id ∈ prevSegments (segment lv))) ->
  lva_inv U wl' (map_set current lv' m).
Proof.
  intros I [G B Hmono Hflow Hout ND] Hwl. pose proof (inv_wf _ _ _ I) as Hwf.
  assert (SG : same_graph m (map_set current lv' m)) by (by eapply same_graph_set).
  assert (Hsame : forall id l, map_get id m = Some l -> id ∉ wl' ->
    current ∉ nextSegments (segment l) \/ in_ lv = in_ lv').
  { intros id l Gl Hid. destruct (decide (in_ lv = in_ lv')) as [|Hne]; [by right |].
    left. intros Hn. apply Hid, Hwl. right. split; [done |].
    destruct (wf_next m Hwf _ _ _ Gl Hn) as (lv0 & G0 & Hp). by simplify_eq. }
  split.
  - by eapply same_graph_wf.
  - intros id Hid. eapply map_get_dom; [apply SG |]. apply Hwl in Hid as [Hw|[_ Hp]].
    + apply (inv_worklist _ _ _ I). set_solver.
    + by eapply wf_prev.
  - intros id l [[-> ->]|[_ Gl]]%map_get_set_cases; [| by eapply (inv_universe _ _ _ I)].
    destruct B as (_ & <- & _). by eapply (inv_universe _ _ _ I).
  - intros id l [[-> ->]|[_ Gl]]%map_get_set_cases; [done | by eapply (inv_nodup _ _ _ I)].
  - intros id l v Gl Hv. eapply flow_mono; [by eapply succ_in_mono |].
    apply map_get_set_cases in Gl as [[-> ->]|[_ Gl]]; [| by eapply (inv_post _ _ _ I)].
    apply (same_block_flow m _ _ v B). by apply Hflow.
  - intros id l v Gl Hv. eapply same_graph_live; [exact SG |].
    apply map_get_set_cases in Gl as [[-> ->]|[_ Gl]]; [| by eapply (inv_sound _ _ _ I)].
    eapply flow_live; [exact I | exact G |]. by apply Hflow.
  - intros id l Gl Hid. apply map_get_set_cases in Gl as [[-> ->]|[Hne Gl]].
    + pose proof (Hsame _ _ G Hid) as Hs. split; intros v.
      * intros Hf. apply Hflow, (same_block_flow m _ _ v B). revert Hf. apply flow_mono.
        intros Hsu. apply (same_block_succ _ _ _ _ B). apply (same_block_succ _ _ _ _ B) in Hsu.
        by apply (succ_in_same m current lv lv' lv v G Hs).
      * rewrite Hout, <- (same_block_succ _ _ _ _ B). symmetry. by apply succ_in_same with lv.
    + destruct (inv_done _ _ _ I id l Gl) as [Hd Ho]; [set_solver |].
      pose proof (Hsame _ _ Gl Hid) as Hs. split; intros v.
      * intros Hf. apply Hd. revert Hf. apply flow_mono. by apply succ_in_same with lv.
      * rewrite Ho. symmetry. by apply succ_in_same with lv.
Qed.

Lemma lva_step_inv U current wl m :
  lva_inv U (current :: wl) m ->
  exists wl' m', lva_step (current :: wl) m = Ok (wl', m') /\ lva_inv U wl' m' /\
    same_graph m m' /\ (length wl' + slack U m' < length (current :: wl) + slack U m)%nat.
Proof.
  intros I. pose proof (inv_wf _ _ _ I) as Hwf.
  destruct (inv_worklist _ _ _ I current) as [lv G]; [set_solver |].
  destruct (propagate_spec m current lv Hwf G) as (lv' & changed & E & B & Hout & Hch).
  simpl. rewrite G, E. simpl. eexists _, _. split; [done |].
  assert (Up : update_ok U m current lv lv').
  { split; [done | done | | | done |]; destruct changed.
    - intros v Hv. apply Hch. by eapply (inv_post _ _ _ I).
    - destruct Hch as [-> _]. done.
    - apply Hch.
    - destruct Hch as [Ei Hf]. intros v. rewrite Ei. split; [by eapply (inv_post _ _ _ I) | apply Hf].
    - apply Hch.
    - destruct Hch as [-> _]. by eapply (inv_nodup _ _ _ I). }
  assert (Inv' : lva_inv U (if changed then push_all (prevSegments (segment lv)) wl else wl)
                   (map_set current lv' m)).
  { eapply update_inv; [exact I | exact Up |]. intros id. destruct changed.
    - destruct Hch as (Hf & _ & v & Hv & Hn).
      rewrite push_all_app, elem_of_app, elem_of_rev.
      assert (in_ lv <> in_ lv') by (intros Ei; apply Hn; rewrite Ei; by apply Hf). tauto.
    - destruct Hch as [-> _]. tauto. }
  split; [exact Inv' |]. split; [by eapply same_graph_set, B |].
  pose proof (slack_set U m current lv lv' G) as Hs. unfold weight in Hs.
  destruct B as [Bs _]. rewrite <- Bs in Hs. destruct changed.
  - rewrite push_all_app, length_app, length_rev. simpl.
    assert (Hlt : (length (in_ lv) < length (in_ lv'))%nat).
    { destruct Hch as (Hf & _ & v & Hv & Hn).
      assert (Hsub : v :: in_ lv ⊆+ in_ lv').
      { apply NoDup_submseteq; [constructor; [done | by eapply (inv_nodup _ _ _ I)] |].
        intros x [->|Hx]%elem_of_cons; [by apply Hf | by apply (upd_mono _ _ _ _ _ Up)]. }
      apply submseteq_length in Hsub. simpl in Hsub. lia. }
    assert (Hle : (length (in_ lv') <= length U)%nat).
    { apply NoDup_subset_length; [apply Up |]. intros v Hv.
      eapply live_at_universe; [apply (inv_universe _ _ _ I) |].
      eapply flow_live; [exact I | exact G |]. by apply (upd_flow _ _ _ _ _ Up). }
    nia.
  - destruct Hch as [Ei _]. rewrite Ei in Hs. simpl. lia.
Qed.

(** ** The loop terminates on the liveness of every segment *)

Lemma lva_loop_inv U : forall fuel wl m,
  lva_inv U wl m -> (length wl + slack U m <= fuel)%nat ->
  exists m', lva_loop fuel wl m = Ok m' /\ lva_inv U [] m' /\ same_graph m m'.
Proof.
  induction fuel as [|fuel IH]; intros [|cur wl] m I Hf.
  - exists m. split; [done |]. split; [done | apply same_graph_refl].
  - simpl in Hf. lia.
  - exists m. split; [done |]. split; [done | apply same_graph_refl].
  - destruct (lva_step_inv _ _ _ _ I) as (wl' & m1 & E & I1 & S1 & Hlt).
    destruct (IH wl' m1 I1) as (m' & E' & I' & S'); [lia |].
    exists m'. cbn [lva_loop]. rewrite E. simpl. split; [done |]. split; [done |].
    by eapply same_graph_trans.
Qed.

(** All the variables read somewhere. *)
Definition read_variables (m : LvMap) : list Var := flat_map (fun kv => gen kv.2) m.

(** Enough turns: one per segment, and the predecessors of a segment again
    for every variable its [in] can gain. *)
Definition lva_fuel (m : LvMap) : nat := length m + slack (read_variables m) m.

Lemma initial_inv m :
  wf_map m -> fresh_map m -> lva_inv (read_variables m) (initial_worklist m) m.
Proof.
  intros Hwf Hfr. unfold initial_worklist.
  assert (Hall : forall id lv, map_get id m = Some lv ->
    id ∈ map (fun kv : string * LiveVariables => seg_id (segment kv.2)) m).
  { intros id lv G. rewrite <- (wf_id m Hwf _ _ G). apply map_get_Some_elem in G.
    apply list_elem_of_In, (in_map (fun kv => seg_id (segment kv.2)) m (id, lv)).
    by apply list_elem_of_In. }
  split; [done | | | | | |].
  - intros id Hid. apply elem_of_rev, list_elem_of_In, in_map_iff in Hid as ([i lv] & <- & Hin).
    apply list_elem_of_In in Hin. pose proof (elem_map_get _ _ _ (wf_nodup m Hwf) Hin) as G.
    simpl. rewrite (wf_id m Hwf _ _ G). by eexists.
  - intros id lv G v Hv. apply list_elem_of_In, in_flat_map.
    exists (id, lv). split; [apply list_elem_of_In; by apply map_get_Some_elem |].
    by apply list_elem_of_In.
  - intros id lv G. rewrite (Hfr _ _ G). constructor.
  - intros id lv v G Hv. rewrite (Hfr _ _ G) in Hv. set_solver.
  - intros id lv v G Hv. rewrite (Hfr _ _ G) in Hv. set_solver.
  - intros id lv G Hid. exfalso. apply Hid, elem_of_rev. by eapply Hall.
Qed.

Lemma final_live U m id v :
  lva_inv U [] m -> live_at m id v -> exists lv, map_get id m = Some lv /\ v ∈ in_ lv.
Proof.
  intros I. induction 1 as [id lv v G Hv | id lv n v G Hn Hk _ (lvn & Gn & Hv)].
  - exists lv. split; [done |]. apply (inv_done _ _ _ I id lv G); [set_solver |]. by left.
  - exists lv. split; [done |]. apply (inv_done _ _ _ I id lv G); [set_solver |].
    right. split; [done |]. by exists n, lvn.
Qed.

(** What [lva] establishes: the workhorse of the properties. *)
Lemma lva_result m fuel :
  wf_map m -> fresh_map m -> (lva_fuel m <= fuel)%nat ->
  exists m', lva fuel m = Ok m' /\ same_graph m m' /\
    forall id lv', map_get id m' = Some lv' ->
      (forall v, v ∈ in_ lv' <-> live_at m id v) /\
      (forall v, v ∈ out lv' <-> exists n, n ∈ nextSegments (segment lv') /\ live_at m n v).
Proof.
  intros Hwf Hfr Hf. unfold lva.
  destruct (lva_loop_inv (read_variables m) fuel (initial_worklist m) m) as (m' & E & I & S).
  - by apply initial_inv.
  - unfold lva_fuel, initial_worklist in *. rewrite length_rev, length_map. lia.
  - exists m'. split; [done |]. split; [done |]. intros id lv' G.
    assert (Hin : forall i l v, map_get i m' = Some l -> v ∈ in_ l <-> live_at m i v).
    { intros i l v Gi. split.
      - intros Hv. eapply same_graph_live; [apply same_graph_sym, S |].
        by eapply (inv_sound _ _ _ I).
      - intros Hl. destruct (final_live _ m' i v I) as (l' & Gl & Hv); [| congruence].
        by eapply same_graph_live. }
    split; [intros v; by apply Hin |]. intros v.
    destruct (inv_done _ _ _ I id lv' G) as [_ Ho]; [set_solver |]. rewrite Ho. split.
    + intros (n & ln & Hn & Gn & Hv). exists n. split; [done |]. by eapply Hin.
    + intros (n & Hn & Hl). destruct (wf_next m' (inv_wf _ _ _ I) _ _ _ G Hn) as (ln & Gn & _).
      exists n, ln. split; [done |]. split; [done |]. by apply (Hin n ln).
Qed.

End Lva.

(** ** Properties *)

(** C1: live variable analysis terminates, fails on no segment, changes nothing
    but [in] and [out], and computes liveness: a variable is in [in] of a segment
    exactly when some path from the segment reads it before any segment on the
    path writes it, and in [out] exactly when it is live at the entry of a
    following segment. *)
Theorem lva_computes_liveness {Var Ref : Type} `{EqDecision Var} `{EqDecision Ref}
    (m : @LvMap Var Ref) fuel :
  wf_map m -> fresh_map m -> (lva_fuel m <= fuel)%nat ->
  exists m', lva fuel m = Ok m' /\ same_graph m m' /\
    forall id lv', map_get id m' = Some lv' ->
      (forall v, v ∈ in_ lv' <-> live_at m id v) /\
      (forall v, v ∈ out lv' <-> exists n, n ∈ nextSegments (segment lv') /\ live_at m n v).
Proof. apply lva_result. Qed.

(** ** Witness *)

(** [a = f(); while (b) { read a; }], the variables [a] and [b] being 0 and 1. *)
Definition loopMap : @LvMap nat nat :=
  [("s1_1", mkLiveVariables (mkSegment "s1_1" ["s1_2"] []) [] [0%nat] [] [] []);
   ("s1_2", mkLiveVariables (mkSegment "s1_2" ["s1_3"; "s1_4"] ["s1_1"; "s1_3"]) [1%nat] [] [] [] []);
   ("s1_3", mkLiveVariables (mkSegment "s1_3" ["s1_2"] ["s1_2"]) [0%nat] [] [] [] []);
   ("s1_4", mkLiveVariables (mkSegment "s1_4" [] ["s1_2"]) [] [] [] [] [])].

Lemma loopMap_ok : wf_map loopMap /\ fresh_map loopMap.
Proof.
  unfold loopMap. split; [split | intros ???]; solve_concrete_map.
Qed.

Lemma lva_computes_liveness_witness :
  wf_map loopMap /\
  exists m', lva 100 loopMap = Ok m' /\ same_graph loopMap m' /\
    forall id lv', map_get id m' = Some lv' ->
      (forall v, v ∈ in_ lv' <-> live_at loopMap id v) /\
      (forall v, v ∈ out lv' <-> exists n, n ∈ nextSegments (segment lv') /\ live_at loopMap n v).
Proof.
  split; [apply loopMap_ok |].
  apply (lva_computes_liveness loopMap 100).
  - apply loopMap_ok.
  - apply loopMap_ok.
  - vm_compute. lia.
Defined.
