(* ===== verification/Ast.v ===== *)
(** * Ast: the helpers on nodes and scopes

    The code of [packages/jsts/src/rules/helpers/ast.ts] and
    [helpers/reaching-definitions.ts]'s [getVariableFromIdentifier]: predicates
    on nodes, the resolution of variables through ESLint's scopes, the
    extraction of values and of object properties.

    Scopes, variables and references are objects that point at each other; a
    [ScopeManager] holds them in tables and they name each other by index, which
    is their identity. *)

From Stdlib Require Import ZArith Lia QArith.
From stdpp Require Import base list gmap strings.
From S2P Require Import Prelude Estree.

(** ** ESLint's scopes *)

Definition ScopeId := nat.
Definition VarId := nat.
Definition RefId := nat.

(** [Scope.Definition]; the parent of an import is its declaration. *)
Record Def := mkDef {
  def_type : string;
  def_parent : option node;
  def_name : node;
  def_node : node
}.

(** [Scope.Variable]; ESLint sets [writeable] on the globals it knows. *)
Record Variable_ := mkVariable {
  var_name : string;
  var_scope : ScopeId;
  var_writeable : option bool;
  var_defs : list Def;
  var_references : list RefId
}.

(** [Scope.Reference]; [ref_parents] are the ancestors of the identifier, from
    the nearest one. *)
Record Reference := mkReference {
  ref_identifier : node;
  ref_parents : list node;
  ref_from : ScopeId;
  ref_resolved : option VarId;
  ref_writeExpr : option node;
  ref_init : bool;
  ref_isRead : bool;
  ref_isWrite : bool
}.

(** [Scope.Scope] *)
Record Scope_ := mkScope {
  sco_block : node;
  sco_upper : option ScopeId;
  sco_variables : list VarId;
  sco_references : list RefId
}.

Record ScopeManager := mkScopeManager {
  sm_scopes : list Scope_;
  sm_variables : list Variable_;
  sm_references : list Reference;
  (** [sourceCode.getScope(node)] *)
  sm_getScope : node -> option ScopeId
}.

(** ** Node predicates *)

Definition MODULE_DECLARATION_NODES : list string :=
  ["ImportDeclaration"; "ExportNamedDeclaration"; "ExportDefaultDeclaration";
   "ExportAllDeclaration"].

Definition isModuleDeclaration (n : option node) : bool :=
  match n with
  | Some n => includes (type_of n) MODULE_DECLARATION_NODES
  | None => false
  end.

Definition FUNCTION_NODES : list string :=
  ["FunctionDeclaration"; "FunctionExpression"; "ArrowFunctionExpression"].

Definition isFunctionExpression (n : option node) : bool := opt_type_is n "FunctionExpression".
Definition isFunctionDeclaration (n : option node) : bool := opt_type_is n "FunctionDeclaration".
Definition isArrowFunctionExpression (n : option node) : bool :=
  opt_type_is n "ArrowFunctionExpression".

(** [values.some(value => value === node.name)] *)
Definition name_among (n : node) (values : list string) : bool :=
  match get_str n "name" with
  | Some name => existsb (fun value => value =s name) values
  | None => false
  end.

Definition isIdentifier (n : option node) (values : list string) : bool :=
  match n with
  | Some n =>
      (type_of n =s "Identifier")
      && (Nat.eqb (length values) 0 || name_among n values)
  | None => false
  end.

Definition getProgramStatements (program : node) : list node :=
  List.filter (fun n => negb (isModuleDeclaration (Some n))) (get_nodes program "body").

Definition isIfStatement (n : option node) : bool := opt_type_is n "IfStatement".

Definition isMemberWithProperty (n : node) (values : list string) : bool :=
  (type_of n =s "MemberExpression") && isIdentifier (get_node n "property") values.

Definition isThrowStatement (n : option node) : bool := opt_type_is n "ThrowStatement".

Definition isMemberExpression (n : node) (objectValue : string) (propertyValue : list string)
  : bool :=
  if type_of n =s "MemberExpression" then
    isIdentifier (get_node n "object") [objectValue]
    && isIdentifier (get_node n "property") propertyValue
  else false.

Definition isLogicalExpression (n : option node) : bool := opt_type_is n "LogicalExpression".

Definition str_prop_is (n : node) (k v : string) : bool :=
  match get_str n k with Some s => s =s v | None => false end.

Definition isBinaryPlus (n : node) : bool :=
  (type_of n =s "BinaryExpression") && str_prop_is n "operator" "+".

Definition isUnaryExpression (n : option node) : bool := opt_type_is n "UnaryExpression".
Definition isArrayExpression (n : option node) : bool := opt_type_is n "ArrayExpression".

(** [callExpression.callee.property], of a member call *)
Definition callee_prop (call : node) (k : string) : option node :=
  match get_node call "callee" with Some c => get_node c k | None => None end.

Definition isMethodInvocation (call : node) (objectIdentifierName methodName : string)
    (minArgs : nat) : bool :=
  opt_type_is (get_node call "callee") "MemberExpression"
  && isIdentifier (callee_prop call "object") [objectIdentifierName]
  && isIdentifier (callee_prop call "property") [methodName]
  && opt_type_is (callee_prop call "property") "Identifier"
  && Nat.leb minArgs (length (get_array call "arguments")).

Definition isFunctionInvocation (call : node) (functionName : string) (minArgs : nat) : bool :=
  opt_type_is (get_node call "callee") "Identifier"
  && isIdentifier (get_node call "callee") [functionName]
  && Nat.leb minArgs (length (get_array call "arguments")).

Definition isFunctionCall (n : node) : bool :=
  (type_of n =s "CallExpression") && opt_type_is (get_node n "callee") "Identifier".

Definition isMethodCall (call : node) : bool :=
  match get_node call "callee" with
  | Some callee =>
      (type_of callee =s "MemberExpression")
      && negb (truthy (get callee "computed"))
      && opt_type_is (get_node callee "property") "Identifier"
  | None => false
  end.

Definition isVariableDeclaration (n : option node) : bool := opt_type_is n "VariableDeclaration".

Definition isCallingMethod (call : node) (arity : nat) (methodNames : list string) : bool :=
  isMethodCall call
  && Nat.eqb (length (get_array call "arguments")) arity
  && match callee_prop call "property" with
     | Some p => match get_str p "name" with Some s => includes s methodNames | None => false end
     | None => false
     end.

(** [specifiers.some(({type, local}) => type === t && local.name === name)] *)
Definition some_specifier (importDeclaration : node) (t name : string) : bool :=
  existsb (fun s => (type_of s =s t)
      && match get_node s "local" with Some l => str_prop_is l "name" name | None => false end)
    (get_nodes importDeclaration "specifiers").

Definition isNamespaceSpecifier (importDeclaration : node) (name : string) : bool :=
  some_specifier importDeclaration "ImportNamespaceSpecifier" name.

Definition isDefaultSpecifier (importDeclaration : node) (name : string) : bool :=
  some_specifier importDeclaration "ImportDefaultSpecifier" name.

(** [n?.type === 'Identifier' && n.name === name] *)
Definition identifier_named (n : option node) (name : string) : bool :=
  match n with
  | Some n => (type_of n =s "Identifier") && str_prop_is n "name" name
  | None => false
  end.

Definition isModuleExports (n : node) : bool :=
  (type_of n =s "MemberExpression")
  && identifier_named (get_node n "object") "module"
  && identifier_named (get_node n "property") "exports".

Definition isFunctionNode (n : node) : bool := includes (type_of n) FUNCTION_NODES.

Definition isLiteral (n : option node) : bool := opt_type_is n "Literal".

Definition isNullLiteral (n : node) : bool :=
  isLiteral (Some n) && match get n "value" with VNull => true | _ => false end.

Definition isFalseLiteral (n : node) : bool :=
  isLiteral (Some n) && match get n "value" with VBool false => true | _ => false end.

Definition isUndefined (n : node) : bool := identifier_named (Some n) "undefined".

Definition isStringLiteral (n : node) : bool :=
  isLiteral (Some n) && match get n "value" with VStr _ => true | _ => false end.

Definition isBooleanLiteral (n : node) : bool :=
  isLiteral (Some n) && match get n "value" with VBool _ => true | _ => false end.

Definition isNumberLiteral (n : node) : bool :=
  isLiteral (Some n) && match get n "value" with VNum _ => true | _ => false end.

Definition isRegexLiteral (n : node) : bool :=
  (type_of n =s "Literal") && match get n "value" with VRegExp _ _ => true | _ => false end.

Definition isDotNotation (n : node) : bool :=
  (type_of n =s "MemberExpression")
  && negb (truthy (get n "computed"))
  && opt_type_is (get_node n "property") "Identifier".

Definition isIndexNotation (n : node) : bool :=
  (type_of n =s "MemberExpression")
  && truthy (get n "computed")
  && match get_node n "property" with Some p => isStringLiteral p | None => false end.

Definition isObjectDestructuring (n : node) : bool :=
  ((type_of n =s "VariableDeclarator") && opt_type_is (get_node n "id") "ObjectPattern")
  || ((type_of n =s "AssignmentExpression") && opt_type_is (get_node n "left") "ObjectPattern").

Definition isStaticTemplateLiteral (n : node) : bool :=
  (type_of n =s "TemplateLiteral")
  && Nat.eqb (length (get_array n "expressions")) 0
  && Nat.eqb (length (get_array n "quasis")) 1.

Definition isSimpleRawString (n : node) : bool :=
  (type_of n =s "TaggedTemplateExpression")
  && match get_node n "tag", get_node n "quasi" with
     | Some tag, Some quasi =>
         isDotNotation tag
         && isIdentifier (get_node tag "object") ["String"]
         && isIdentifier (get_node tag "property") ["raw"]
         && isStaticTemplateLiteral quasi
     | _, _ => false
     end.

(** A property of the [value] object of a template element. *)
Definition quasi_value (quasi : node) (k : string) : value :=
  match get quasi "value" with VObj ps => lookup_prop k ps | _ => VUndefined end.

(** [None] where the code reads a property of [undefined] and throws. *)
Definition getSimpleRawStringValue (n : node) : option value :=
  match get_node n "quasi" with
  | Some quasi => match get_nodes quasi "quasis" with
                  | q :: _ => Some (quasi_value q "raw")
                  | [] => None
                  end
  | None => None
  end.

Definition isThisExpression (n : node) : bool := type_of n =s "ThisExpression".
Definition isProperty (n : node) : bool := type_of n =s "Property".

(** ** Element writes *)

Section References.
Context (sm : ScopeManager).

Definition reference_at (r : RefId) : option Reference := sm_references sm !! r.
Definition variable_at (v : VarId) : option Variable_ := sm_variables sm !! v.
Definition scope_at (s : ScopeId) : option Scope_ := sm_scopes sm !! s.

Definition isReferenceTo (ref : Reference) (n : node) : bool :=
  (type_of n =s "Identifier") && same_node n (ref_identifier ref).

(** The recursion goes down the [object]s: [node_size] turns are enough. *)
Fixpoint isMemberExpressionReference_fuel (fuel : nat) (lhs : node) (ref : Reference)
    (recursive : bool) : bool :=
  match fuel with
  | O => false
  | S fuel' =>
      (type_of lhs =s "MemberExpression")
      && match get_node lhs "object" with
         | Some object =>
             isReferenceTo ref object
             || (recursive && isMemberExpressionReference_fuel fuel' object ref recursive)
         | None => false
         end
  end.

Definition isMemberExpressionReference (lhs : node) (ref : Reference) (recursive : bool) : bool :=
  isMemberExpressionReference_fuel (node_size lhs) lhs ref recursive.

Definition isElementWrite (statement : node) (ref : Reference) (recursive : bool) : bool :=
  match get_node statement "expression" with
  | Some e =>
      if type_of e =s "AssignmentExpression" then
        match get_node e "left" with
        | Some lhs => isMemberExpressionReference lhs ref recursive
        | None => false
        end
      else false
  | None => false
  end.

(** ** Variables and the values written to them *)

Definition named (name : string) (v : VarId) : bool :=
  match variable_at v with Some x => var_name x =s name | None => false end.

(** [scope.variables.find(value => value.name === name)] *)
Definition find_variable (s : Scope_) (name : string) : option VarId :=
  List.find (named name) (sco_variables s).

(** The loop [while (variable == null && scope != null)]; the chain of upper
    scopes is not longer than the table of scopes. *)
Fixpoint getVariableFromScope_fuel (fuel : nat) (scope : option ScopeId) (name : string)
  : option VarId :=
  match fuel, scope with
  | S fuel', Some s =>
      match scope_at s with
      | Some sc =>
          match find_variable sc name with
          | Some v => Some v
          | None => getVariableFromScope_fuel fuel' (sco_upper sc) name
          end
      | None => None
      end
  | _, _ => None
  end.

Definition getVariableFromScope (scope : option ScopeId) (name : string) : option VarId :=
  getVariableFromScope_fuel (length (sm_scopes sm)) scope name.

Definition getVariableFromName (name : string) (n : node) : option VarId :=
  getVariableFromScope (sm_getScope sm n) name.

(** [getVariableFromIdentifier(identifier, scope)] of
    [reaching-definitions.ts]: the scope and the one above only. *)
Definition getVariableFromIdentifier (identifier : node) (scope : ScopeId) : option VarId :=
  match scope_at scope, get_str identifier "name" with
  | Some sc, Some name =>
      match find_variable sc name with
      | Some v => Some v
      | None =>
          match sco_upper sc with
          | Some u => match scope_at u with
                      | Some up => find_variable up name
                      | None => None
                      end
          | None => None
          end
      end
  | _, _ => None
  end.

(** [variable.references.filter(reference => reference.isWrite())] *)
Definition write_references (v : Variable_) : list Reference :=
  List.filter ref_isWrite (omap reference_at (var_references v)).

Definition getUniqueWriteReference (variable : option VarId) : option node :=
  match variable with
  | Some v =>
      match variable_at v with
      | Some x => match write_references x with
                  | [r] => ref_writeExpr r
                  | _ => None
                  end
      | None => None
      end
  | None => None
  end.

Definition getUniqueWriteUsage (name : string) (n : node) : option node :=
  getUniqueWriteReference (getVariableFromName name n).

Definition node_name (n : node) : string :=
  match get_str n "name" with Some s => s | None => "" end.

(** [getUniqueWriteUsageOrNode]; [None] is running out of [fuel]. *)
Fixpoint getUniqueWriteUsageOrNode (fuel : nat) (n : node) (recursive : bool) : option node :=
  match fuel with
  | O => None
  | S fuel' =>
      if type_of n =s "Identifier" then
        match getUniqueWriteUsage (node_name n) n with
        | Some usage =>
            if recursive then getUniqueWriteUsageOrNode fuel' usage recursive else Some usage
        | None => Some n
        end
      else Some n
  end.

(** [getValueOfExpression]: [None] is running out of fuel, [Some None] is
    [undefined]. *)
Fixpoint getValueOfExpression (fuel : nat) (expr : option node) (type : string)
    (recursive : bool) : option (option node) :=
  match fuel with
  | O => None
  | S fuel' =>
      match expr with
      | None => Some None
      | Some e =>
          if type_of e =s type then Some (Some e)
          else if type_of e =s "Identifier" then
            match getUniqueWriteUsage (node_name e) e with
            | Some usage =>
                if type_of usage =s type then Some (Some usage)
                else if recursive then getValueOfExpression fuel' (Some usage) type true
                else Some None
            | None => Some None
            end
          else Some None
      end
  end.

(** [getLhsVariable], given the ancestors of the node from the root down. *)
Definition getLhsVariable (ancestors : list node) (n : node) : option VarId :=
  match last ancestors with
  | Some parent =>
      let formIdentifier :=
        if (type_of parent =s "VariableDeclarator")
           && opt_type_is (get_node parent "id") "Identifier"
        then get_node parent "id"
        else if (type_of parent =s "AssignmentExpression")
                && opt_type_is (get_node parent "left") "Identifier"
        then get_node parent "left"
        else None in
      match formIdentifier with
      | Some id => getVariableFromName (node_name id) n
      | None => None
      end
  | None => None
  end.

(** ** Flattening arguments *)

Inductive flatten_error :=
| NullElement        (* [n.type] on a hole of an array *)
| FlattenOutOfFuel.

Fixpoint flattenArg (fuel : nat) (v : value) : result flatten_error (list node) :=
  match fuel with
  | O => Throw FlattenOutOfFuel
  | S fuel' =>
      match v with
      | VNode arg =>
          match getUniqueWriteUsageOrNode 1 arg false with
          | Some n =>
              if type_of n =s "ArrayExpression" then
                let! parts := rmap_list (flattenArg fuel') (get_array n "elements") in
                Ok (concat parts)
              else Ok [n]
          | None => Throw FlattenOutOfFuel
          end
      | _ => Throw NullElement
      end
  end.

(** [flattenArgs(context, args)] *)
Definition flattenArgs (fuel : nat) (args : list value) : result flatten_error (list node) :=
  let! parts := rmap_list (flattenArg fuel) args in Ok (concat parts).

(** ** Properties of object expressions *)

(** The three answers of [getProperty], and running out of fuel. *)
Inductive prop_result :=
| PFound (property : node)
| PNull            (* not found *)
| PUndefined       (* not found, and a spread is unresolved *)
| POutOfFuel.

(** [isProperty(node, key)], local to [getProperty] *)
Definition isPropertyWithKey (n : node) (key : string) : bool :=
  (type_of n =s "Property")
  && match get_node n "key" with
     | Some k => isIdentifier (Some k) [key]
                 || (isStringLiteral k && str_prop_is k "value" key)
     | None => false
     end.

(** The ancestors of a node: a third-party [parent] chain. *)
Context (parents : node -> list node).

Section GetProperty.
Context (getProperty : node -> string -> prop_result).

Definition getPropertyFromSpreadElement (spreadElement : node) (key : string) : prop_result :=
  match get_node spreadElement "argument" with
  | Some argument =>
      match getValueOfExpression 1 (Some argument) "ObjectExpression" false with
      | Some (Some props) =>
          match findFirstMatchingAncestor (parents argument) (fun n => same_node n props) with
          | Some _ => PUndefined
          | None => getProperty props key
          end
      | Some None => PUndefined
      | None => POutOfFuel
      end
  | None => PUndefined
  end.

(** The loop over [expr.properties], from the last one. *)
Fixpoint getProperty_loop (properties : list node) (key : string) (unresolved : bool)
  : prop_result :=
  match properties with
  | [] => if unresolved then PUndefined else PNull
  | property :: rest =>
      if isPropertyWithKey property key then PFound property
      else if type_of property =s "SpreadElement" then
        match getPropertyFromSpreadElement property key with
        | PUndefined => getProperty_loop rest key true
        | PNull => getProperty_loop rest key unresolved
        | r => r
        end
      else getProperty_loop rest key unresolved
  end.
End GetProperty.

Fixpoint getProperty (fuel : nat) (expr : option node) (key : string) : prop_result :=
  match fuel with
  | O => POutOfFuel
  | S fuel' =>
      match expr with
      | Some e =>
          if type_of e =s "ObjectExpression" then
            getProperty_loop (fun props k => getProperty fuel' (Some props) k)
              (rev (get_nodes e "properties")) key false
          else PNull
      | None => PNull
      end
  end.

End References.

(** ** Binding patterns *)

(** [resolveIdentifiersAcc], returning what it pushes; the recursion goes down
    the pattern, so [node_size] turns are enough. *)
Fixpoint resolveIdentifiers_fuel (fuel : nat) (acceptShorthand : bool) (n : node) : list node :=
  match fuel with
  | O => []
  | S fuel' =>
      let rec := resolveIdentifiers_fuel fuel' acceptShorthand in
      let rec_opt o := match o with Some c => rec c | None => [] end in
      if type_of n =s "Identifier" then [n]
      else if type_of n =s "ObjectPattern" then flat_map rec (get_nodes n "properties")
      else if type_of n =s "ArrayPattern" then flat_map rec (get_nodes n "elements")
      else if type_of n =s "Property" then
        if acceptShorthand || negb (truthy (get n "shorthand"))
        then rec_opt (get_node n "value") else []
      else if type_of n =s "RestElement" then rec_opt (get_node n "argument")
      else if type_of n =s "AssignmentPattern" then rec_opt (get_node n "left")
      else if type_of n =s "TSParameterProperty" then rec_opt (get_node n "parameter")
      else []
  end.

Definition resolveIdentifiers (n : node) (acceptShorthand : bool) : list node :=
  resolveIdentifiers_fuel (node_size n) acceptShorthand n.

(** ** Lemmas *)

(** The properties of an object expression, without spread elements. *)
Definition no_spread (properties : list node) : bool :=
  forallb (fun p => negb (type_of p =s "SpreadElement")) properties.

Lemma getProperty_loop_find rec sm parents key properties unresolved :
  no_spread properties = true ->
  getProperty_loop sm parents rec properties key unresolved
  = match List.find (fun p => isPropertyWithKey p key) properties with
    | Some p => PFound p
    | None => if unresolved then PUndefined else PNull
    end.
Proof.
  unfold no_spread. induction properties as [|p ps IH]; simpl; [done |].
  intros [Hp Hps]%andb_true_iff. destruct (isPropertyWithKey p key); [done |].
  apply negb_true_iff in Hp. rewrite Hp. by apply IH.
Qed.

(** Objects that spread each other, and variables that are copies of each other. *)
Module AstExample.

Definition mk (i : nat) (t : string) (ps : list (string * value)) : node :=
  Node (mkHeader i t None None) ps.
Definition ident (i : nat) (name : string) : node := mk i "Identifier" [("name", VStr name)].

Definition program : node := mk 0 "Program" [].

(** A scope with the variables [a] and [b], each written once. *)
Definition scopes_writing (wa wb : node) : ScopeManager :=
  mkScopeManager
    [mkScope program None [0; 1]%nat [0; 1]%nat]
    [mkVariable "a" 0 None [] [0]%nat; mkVariable "b" 0 None [] [1]%nat]
    [mkReference (ident 10 "a") [] 0 (Some 0%nat) (Some wa) true false true;
     mkReference (ident 11 "b") [] 0 (Some 1%nat) (Some wb) true false true]
    (fun _ => Some 0%nat).

(** [var a = b, b = a;] *)
Definition copies : ScopeManager := scopes_writing (ident 1 "b") (ident 2 "a").

(** [var a = \[b\], b = \[a\];] *)
Definition arrays : ScopeManager :=
  scopes_writing (mk 1 "ArrayExpression" [("elements", VArr [VNode (ident 3 "b")])])
                 (mk 2 "ArrayExpression" [("elements", VArr [VNode (ident 4 "a")])]).

(** [{ k: 1, j: 2, k: 3 }] *)
Definition prop (i : nat) (key : string) : node :=
  mk i "Property" [("key", VNode (ident (i + 100) key))].
Definition object : node :=
  mk 20 "ObjectExpression" [("properties",
    VArr [VNode (prop 21 "k"); VNode (prop 22 "j"); VNode (prop 23 "k")])].

Lemma copies_loop : forall fuel i name,
  name = "a" \/ name = "b" ->
  getUniqueWriteUsageOrNode copies fuel (ident i name) true = None.
Proof.
  induction fuel as [|fuel IH]; intros i name H; [done |].
  destruct H as [-> | ->]; simpl; apply IH; auto.
Qed.

Lemma arrays_loop : forall fuel i name,
  name = "a" \/ name = "b" ->
  flattenArg arrays fuel (VNode (ident i name)) = Throw FlattenOutOfFuel.
Proof.
  induction fuel as [|fuel IH]; intros i name H; [done |].
  destruct H as [-> | ->]; simpl; rewrite IH; auto.
Qed.

End AstExample.

(** ** Properties *)

(** On an object expression without spread elements, [getProperty] finds
    the last property with the key, and answers [null] when there is none: the
    answer [undefined] is kept for unresolved spreads. *)
Theorem getProperty_finds_last sm parents fuel e key :
  type_of e = "ObjectExpression" -> no_spread (get_nodes e "properties") = true ->
  getProperty sm parents (S fuel) (Some e) key
  = match List.find (fun p => isPropertyWithKey p key) (rev (get_nodes e "properties")) with
    | Some p => PFound p
    | None => PNull
    end.
Proof.
  intros T N. simpl. rewrite T. simpl. apply getProperty_loop_find.
  unfold no_spread in *. rewrite forallb_forall in *. intros p Hp. apply N. by apply in_rev.
Qed.

(** On [var a = b, b = a;] the recursive [getUniqueWriteUsageOrNode] follows
    the unique writes for ever, and on [var a = \[b\], b = \[a\];] so does
    [flattenArgs]: no fuel is enough. *)
Theorem unique_writes_can_cycle :
  (forall fuel, getUniqueWriteUsageOrNode AstExample.copies fuel (AstExample.ident 5 "a") true = None) /\
  (forall fuel, flattenArgs AstExample.arrays fuel [VNode (AstExample.ident 5 "a")]
     = Throw FlattenOutOfFuel).
Proof.
  split; intros fuel.
  - apply AstExample.copies_loop. by left.
  - unfold flattenArgs. simpl. rewrite AstExample.arrays_loop; [done | by left].
Qed.

(** ** Witness *)

Lemma getProperty_finds_last_witness :
  getProperty AstExample.copies (fun _ => []) 1 (Some AstExample.object) "k"
  = PFound (AstExample.prop 23 "k").
Proof.
  rewrite (getProperty_finds_last AstExample.copies (fun _ => []) 0 AstExample.object "k").
  - reflexivity.
  - reflexivity.
  - reflexivity.
Defined.
