(* ===== verification/ReachingDefs.v ===== *)
(** * ReachingDefs: reaching definitions of a code path

    The code of [packages/jsts/src/rules/helpers/reaching-definitions.ts]: the
    values a variable may hold at the entry and at the end of a code path
    segment, the [propagate] of one segment and the worklist loop
    [reachingDefinitions]. References and variables are the ones of a
    [ScopeManager] ([Ast]); [join] fills sets it has created itself and no set
    is changed once it is in an [out] map, so the sets are values here. *)

From Stdlib Require Import ZArith Lia.
From stdpp Require Import base list gmap strings.
From S2P Require Import Prelude Estree Ast Lva.

(** [Values]: [AssignedValues | UnknownValue] *)
Inductive Values :=
| AssignedValues (literals : list string)
| UnknownValue.

Instance Values_eq_dec : EqDecision Values.
Proof. solve_decision. Defined.

(** [Map<Scope.Variable, Values>] *)
Definition ProgramState := list (VarId * Values).

Record ReachingDefinitions := mkRD {
  rd_segment : CodePathSegment;
  rd_in : ProgramState;
  rd_out : ProgramState;
  rd_references : list RefId
}.

Definition RdMap := list (string * ReachingDefinitions).

(** [new ReachingDefinitions(segment)] *)
Definition newReachingDefinitions (s : CodePathSegment) : ReachingDefinitions :=
  mkRD s [] [] [].

(** [assignedValues(val)] *)
Definition assignedValues (val : string) : Values := AssignedValues [val].

Definition setEquals (a b : list string) : bool :=
  Nat.eqb (length a) (length b) && forallb (fun e => set_has e b) a.

Definition valuesEquals (a b : Values) : bool :=
  match a, b with
  | AssignedValues x, AssignedValues y => setEquals x y
  | UnknownValue, UnknownValue => true
  | _, _ => false
  end.

Definition equals (ps1 ps2 : ProgramState) : bool :=
  Nat.eqb (length ps1) (length ps2)
  && forallb (fun kv => match map_get kv.1 ps2 with
                        | Some values2 => valuesEquals values2 kv.2
                        | None => false
                        end) ps1.

(** One turn of the loop of [join]. *)
Definition join_entry (in_ : ProgramState) (kv : VarId * Values) : ProgramState :=
  let inValues := default (AssignedValues []) (map_get kv.1 in_) in
  match inValues, kv.2 with
  | AssignedValues a, AssignedValues b => map_set kv.1 (AssignedValues (set_add_all a b)) in_
  | _, _ => map_set kv.1 UnknownValue in_
  end.

(** [this.join(previousOut)], on the current [this.in] *)
Definition join (in_ previousOut : ProgramState) : ProgramState :=
  fold_left join_entry previousOut in_.

Section Analysis.
Context (sm : ScopeManager).

(** [reachingDefs.add(ref)] *)
Definition rd_add (rd : ReachingDefinitions) (ref : RefId) : ReachingDefinitions :=
  match reference_at sm ref with
  | Some r =>
      match ref_resolved r with
      | Some _ => mkRD (rd_segment rd) (rd_in rd) (rd_out rd) (set_add ref (rd_references rd))
      | None => rd
      end
  | None => rd
  end.

Definition resolveAssignedValues (lhsVariable : VarId) (writeExpr : option node)
    (assignedValuesMap : ProgramState) (scope : ScopeId) : Values :=
  match writeExpr with
  | None => UnknownValue
  | Some e =>
      if type_of e =s "Literal" then
        match get_str e "raw" with
        | Some raw => if raw =s "" then UnknownValue else assignedValues raw
        | None => UnknownValue
        end
      else if type_of e =s "Identifier" then
        match getVariableFromIdentifier sm e scope with
        | Some resolvedVar =>
            if Nat.eqb resolvedVar lhsVariable then UnknownValue
            else default UnknownValue (map_get resolvedVar assignedValuesMap)
        | None => UnknownValue
        end
      else UnknownValue
  end.

Definition updateProgramState (programState : ProgramState) (ref : RefId) : ProgramState :=
  match reference_at sm ref with
  | Some r =>
      match ref_resolved r with
      | Some variable =>
          if negb (ref_isWrite r) then programState
          else match ref_writeExpr r with
               | None => map_set variable UnknownValue programState
               | Some e =>
                   map_set variable
                     (resolveAssignedValues variable (Some e) programState (ref_from r))
                     programState
               end
      | None => programState
      end
  | None => programState
  end.

(** [this.in] after the joins of the previous segments. *)
Fixpoint join_prevs (m : RdMap) (in_ : ProgramState) (prevs : list string)
  : result flow_error ProgramState :=
  match prevs with
  | [] => Ok in_
  | prev :: rest =>
      match map_get prev m with
      | None => Throw (MissingSegment prev)
      | Some p => join_prevs m (join in_ (rd_out p)) rest
      end
  end.

(** The effect of the references of a segment on the state at its entry. *)
Definition transfer (references : list RefId) (in_ : ProgramState) : ProgramState :=
  fold_left updateProgramState references in_.

(** [propagate(reachingDefinitionsMap)]: the new object and whether [out]
    changed. *)
Definition rd_propagate (m : RdMap) (rd : ReachingDefinitions)
  : result flow_error (ReachingDefinitions * bool) :=
  let! in_ := join_prevs m [] (prevSegments (rd_segment rd)) in
  let newOut := transfer (rd_references rd) in_ in
  if equals (rd_out rd) newOut
  then Ok (mkRD (rd_segment rd) in_ (rd_out rd) (rd_references rd), false)
  else Ok (mkRD (rd_segment rd) in_ newOut (rd_references rd), true).

(** One turn of the loop; the head of the worklist is the end of the array. *)
Definition rd_step (worklist : list string) (m : RdMap)
  : result flow_error (list string * RdMap) :=
  match worklist with
  | [] => Ok ([], m)
  | current :: worklist' =>
      match map_get current m with
      | None => Throw (MissingSegment current)
      | Some rd =>
          let! (rd', outHasChanged) := rd_propagate m rd in
          Ok (if outHasChanged then push_all (nextSegments (rd_segment rd)) worklist'
              else worklist',
              map_set current rd' m)
      end
  end.

Fixpoint rd_loop (fuel : nat) (worklist : list string) (m : RdMap) : result flow_error RdMap :=
  match worklist with
  | [] => Ok m
  | _ =>
      match fuel with
      | O => Throw OutOfFuel
      | S fuel' =>
          let! (worklist', m') := rd_step worklist m in
          rd_loop fuel' worklist' m'
      end
  end.

(** [Array.from(reachingDefinitionsMap.values(), defs => defs.segment)], the
    end of the array first. *)
Definition rd_initial_worklist (m : RdMap) : list string :=
  rev (map (fun kv => seg_id (rd_segment kv.2)) m).

(** [reachingDefinitions(reachingDefinitionsMap)] *)
Definition reachingDefinitions (fuel : nat) (m : RdMap) : result flow_error RdMap :=
  rd_loop fuel (rd_initial_worklist m) m.

(** ** The equations a finished analysis satisfies *)

(** [in] is the join of the previous segments and [out] is the effect of the
    references on it. *)
Definition settled (m : RdMap) (rd : ReachingDefinitions) : Prop :=
  join_prevs m [] (prevSegments (rd_segment rd)) = Ok (rd_in rd) /\
  equals (rd_out rd) (transfer (rd_references rd) (rd_in rd)) = true.

(** What ESLint's events guarantee of the map. *)
Record rd_wf (m : RdMap) : Prop := mkRdWf {
  rdw_nodup : NoDup m.*1;
  rdw_id : forall id rd, map_get id m = Some rd -> seg_id (rd_segment rd) = id;
  rdw_next : forall id rd n, map_get id m = Some rd -> n ∈ nextSegments (rd_segment rd) ->
    is_Some (map_get n m);
  rdw_prev : forall id rd p, map_get id m = Some rd -> p ∈ prevSegments (rd_segment rd) ->
    exists rdp, map_get p m = Some rdp /\ id ∈ nextSegments (rd_segment rdp);
  rdw_out : forall id rd, map_get id m = Some rd -> NoDup (rd_out rd).*1
}.

(** ** Lemmas on program states *)

Lemma setEquals_refl a : setEquals a a = true.
Proof.
  unfold setEquals. rewrite Nat.eqb_refl. simpl. apply forallb_forall.
  intros x Hx. apply set_has_spec. by apply list_elem_of_In.
Qed.

Lemma valuesEquals_refl a : valuesEquals a a = true.
Proof. destruct a; [apply setEquals_refl | done]. Qed.

Lemma equals_refl ps : NoDup ps.*1 -> equals ps ps = true.
Proof.
  intros ND. unfold equals. rewrite Nat.eqb_refl. simpl. apply forallb_forall.
  intros [k v] Hx. apply list_elem_of_In in Hx. rewrite (elem_map_get k v) by done.
  apply valuesEquals_refl.
Qed.

Lemma join_NoDup prev : forall ps, NoDup ps.*1 -> NoDup (join ps prev).*1.
Proof.
  unfold join. induction prev as [|[k v] prev IH]; intros ps ND; simpl; [done |].
  apply IH. unfold join_entry. repeat case_match; by apply NoDup_map_set.
Qed.

Lemma join_prevs_NoDup m prevs : forall ps ps',
  NoDup ps.*1 -> join_prevs m ps prevs = Ok ps' -> NoDup ps'.*1.
Proof.
  induction prevs as [|p prevs IH]; intros ps ps' ND; simpl; [naive_solver |].
  case_match; [| done]. by apply IH, join_NoDup.
Qed.

Lemma updateProgramState_NoDup ps r : NoDup ps.*1 -> NoDup (updateProgramState ps r).*1.
Proof. intros ND. unfold updateProgramState. repeat case_match; try done; by apply NoDup_map_set. Qed.

Lemma transfer_NoDup refs : forall ps, NoDup ps.*1 -> NoDup (transfer refs ps).*1.
Proof.
  unfold transfer. induction refs as [|r refs IH]; intros ps ND; simpl; [done |].
  by apply IH, updateProgramState_NoDup.
Qed.

(** [join_prevs] only reads the [out]s of the previous segments. *)
Lemma join_prevs_ext m m' prevs :
  (forall p, p ∈ prevs -> rd_out <$> map_get p m = rd_out <$> map_get p m') ->
  forall ps r,
    join_prevs m ps prevs = Ok r -> join_prevs m' ps prevs = Ok r.
Proof.
  intros H. induction prevs as [|p prevs IH]; intros ps r; simpl; [done |].
  pose proof (H p ltac:(set_solver)) as Hp.
  destruct (map_get p m) as [a|], (map_get p m') as [b|]; simplify_eq/=; [| done].
  rewrite Hp. apply IH. intros q Hq. apply H. set_solver.
Qed.

Lemma join_prevs_total m prevs : forall ps,
  (forall p, p ∈ prevs -> is_Some (map_get p m)) -> exists r, join_prevs m ps prevs = Ok r.
Proof.
  induction prevs as [|p prevs IH]; intros ps H; simpl; [by eexists |].
  destruct (H p) as [a ->]; [set_solver |]. apply IH. set_solver.
Qed.

(** ** The invariant of the loop *)

Record rd_inv (worklist : list string) (m : RdMap) : Prop := mkRdInv {
  rdi_wf : rd_wf m;
  rdi_worklist : forall id, id ∈ worklist -> is_Some (map_get id m);
  rdi_settled : forall id rd, map_get id m = Some rd -> id ∉ worklist -> settled m rd
}.

Lemma rd_wf_set m c rd rd' :
  rd_wf m -> map_get c m = Some rd -> rd_segment rd' = rd_segment rd ->
  NoDup (rd_out rd').*1 -> rd_wf (map_set c rd' m).
Proof.
  intros [ND I N P O] G E ND'.
  assert (Hdom : forall id, is_Some (map_get id m) -> is_Some (map_get id (map_set c rd' m))).
  { intros id H. destruct (decide (id = c)) as [->|]; [rewrite map_get_set_eq; by eexists |].
    by rewrite map_get_set_ne. }
  assert (Hold : forall id r, map_get id (map_set c rd' m) = Some r ->
    exists r0, map_get id m = Some r0 /\ rd_segment r0 = rd_segment r).
  { intros id r [[-> ->]|[_ Gr]]%map_get_set_cases; [by exists rd | by exists r]. }
  split.
  - by apply NoDup_map_set.
  - intros id r (r0 & G0 & <-)%Hold. by apply I.
  - intros id r n (r0 & G0 & E0)%Hold Hn. rewrite <- E0 in Hn. eapply Hdom, N; eauto.
  - intros id r p (r0 & G0 & E0)%Hold Hp. rewrite <- E0 in Hp.
    destruct (P _ _ _ G0 Hp) as (rp & Gp & Hid). destruct (decide (p = c)) as [->|Hne].
    + exists rd'. rewrite map_get_set_eq. split; [done |]. rewrite E. congruence.
    + exists rp. by rewrite map_get_set_ne.
  - intros id r [[-> ->]|[_ Gr]]%map_get_set_cases; [done | by eapply O].
Qed.

(** A settled segment stays settled when no previous segment's [out] changes. *)
Lemma settled_set m c rd0 rd' r :
  map_get c m = Some rd0 ->
  (rd_out rd' = rd_out rd0 \/ c ∉ prevSegments (rd_segment r)) ->
  settled m r -> settled (map_set c rd' m) r.
Proof.
  intros G H [J E]. split; [| done]. revert J. apply join_prevs_ext.
  intros p Hp. destruct (decide (p = c)) as [->|Hne].
  - rewrite map_get_set_eq, G. destruct H as [H|H]; [| done]. simpl. by rewrite H.
  - by rewrite map_get_set_ne.
Qed.

Lemma rd_propagate_spec m c rd :
  rd_wf m -> map_get c m = Some rd ->
  exists rd' changed, rd_propagate m rd = Ok (rd', changed) /\
    rd_segment rd' = rd_segment rd /\ settled m rd' /\
    (changed = false -> rd_out rd' = rd_out rd) /\ NoDup (rd_out rd').*1.
Proof.
  intros W G. unfold rd_propagate.
  destruct (join_prevs_total m (prevSegments (rd_segment rd)) []) as [i Hi].
  { intros p Hp. destruct (rdw_prev m W _ _ _ G Hp) as (rp & Gp & _). by eexists. }
  rewrite Hi. simpl. case_match eqn:E; eexists _, _; (split; [reflexivity |]); simpl.
  - split; [done |]. split; [by split |]. split; [done |]. by apply (rdw_out m W c).
  - assert (ND : NoDup (transfer (rd_references rd) i).*1).
    { apply transfer_NoDup. eapply join_prevs_NoDup; [| exact Hi]. constructor. }
    split; [done |]. split; [| done]. split; [done |]. by apply equals_refl.
Qed.

Lemma rd_step_inv c wl m :
  rd_inv (c :: wl) m -> exists wl' m', rd_step (c :: wl) m = Ok (wl', m') /\ rd_inv wl' m'.
Proof.
  intros [W Hwl Hs]. destruct (Hwl c) as [rd G]; [set_solver |].
  destruct (rd_propagate_spec m c rd W G) as (rd' & ch & E & Eseg & St & Hout & ND).
  simpl. rewrite G, E. simpl. eexists _, _. split; [reflexivity |].
  assert (Hq : forall id, id ∉ (if ch then push_all (nextSegments (rd_segment rd)) wl else wl) ->
    id ∉ wl /\ (ch = true -> id ∉ nextSegments (rd_segment rd))).
  { intros id. destruct ch; [rewrite push_all_app, elem_of_app, elem_of_rev; tauto | done]. }
  assert (Hkey : forall id r,
    (forall p, p ∈ prevSegments (rd_segment r) ->
       exists rp, map_get p m = Some rp /\ id ∈ nextSegments (rd_segment rp)) ->
    id ∉ (if ch then push_all (nextSegments (rd_segment rd)) wl else wl) ->
    rd_out rd' = rd_out rd \/ c ∉ prevSegments (rd_segment r)).
  { intros id r Hp [_ Hn]%Hq. destruct ch; [right | left; by apply Hout].
    intros Hc. destruct (Hp _ Hc) as (rp & Gp & Hid). simplify_eq. by apply Hn. }
  split.
  - by eapply rd_wf_set.
  - intros id Hid. destruct (decide (id = c)) as [->|Hne]; [rewrite map_get_set_eq; by eexists |].
    rewrite map_get_set_ne by done. destruct ch; [| apply Hwl; set_solver].
    rewrite push_all_app, elem_of_app, elem_of_rev in Hid. destruct Hid as [Hid|Hid].
    + by eapply (rdw_next m W).
    + apply Hwl. set_solver.
  - intros id r [[-> ->]|[Hne Gr]]%map_get_set_cases Hid.
    + eapply settled_set; [exact G | | exact St]. eapply (Hkey c); [| exact Hid].
      rewrite Eseg. intros p Hp. by eapply (rdw_prev m W).
    + pose proof (Hq _ Hid) as [Hw _]. eapply settled_set; [exact G | | apply (Hs id); set_solver].
      eapply (Hkey id); [| exact Hid].
      intros p Hp. by eapply (rdw_prev m W).
Qed.

Lemma rd_loop_inv : forall fuel wl m m',
  rd_inv wl m -> rd_loop fuel wl m = Ok m' -> rd_inv [] m'.
Proof.
  induction fuel as [|fuel IH]; intros [|c wl] m m' I; cbn [rd_loop]; try (intros; by simplify_eq).
  destruct (rd_step_inv _ _ _ I) as (wl' & m1 & -> & I1). simpl. by apply IH.
Qed.

(** No segment fails: the loop either ends or goes on. *)
Lemma rd_loop_no_missing : forall fuel wl m e,
  rd_inv wl m -> rd_loop fuel wl m = Throw e -> e = OutOfFuel.
Proof.
  induction fuel as [|fuel IH]; intros [|c wl] m e I; cbn [rd_loop]; try (intros; by simplify_eq).
  destruct (rd_step_inv _ _ _ I) as (wl' & m1 & -> & I1). simpl. by apply IH.
Qed.

Lemma rd_initial_inv m : rd_wf m -> rd_inv (rd_initial_worklist m) m.
Proof.
  intros W. unfold rd_initial_worklist.
  assert (Hin : forall id, id ∈ map (fun kv : string * ReachingDefinitions =>
    seg_id (rd_segment kv.2)) m <-> is_Some (map_get id m)).
  { intros id. rewrite list_elem_of_In, in_map_iff. split.
    - intros ([i rd] & <- & Hin). apply list_elem_of_In, (elem_map_get _ _ _ (rdw_nodup m W)) in Hin.
      simpl. rewrite (rdw_id m W _ _ Hin). by eexists.
    - intros [rd G]. exists (id, rd). split; [by apply (rdw_id m W) |].
      by apply list_elem_of_In, map_get_Some_elem. }
  split; [done | |].
  - intros id. by rewrite elem_of_rev, Hin.
  - intros id rd G Hn. exfalso. apply Hn. rewrite elem_of_rev, Hin. by eexists.
Qed.

(** ** Executions of a code path *)

(** What a variable holds: nothing assigned yet, the value of a literal (by its
    raw text), or some other value. *)
Inductive held :=
| Unassigned
| HoldsLiteral (raw : string)
| HoldsOther (v : nat).

Definition store := VarId -> held.

Definition assign (s : store) (v : VarId) (h : held) : store :=
  fun w => if Nat.eqb w v then h else s w.

(** The expression written is the whole right-hand side of a [=] or of a
    declarator: the write gives the variable the value of the expression. *)
Definition plain_write (r : Reference) : bool :=
  match ref_parents r, ref_writeExpr r with
  | p :: _, Some e =>
      let whole target rhs :=
        match get_node p target, get_node p rhs with
        | Some t, Some x => same_node t (ref_identifier r) && same_node x e
        | _, _ => false
        end in
      ((type_of p =s "AssignmentExpression") && str_prop_is p "operator" "=" && whole "left" "right")
      || ((type_of p =s "VariableDeclarator") && whole "id" "init")
  | _, _ => false
  end.

(** The value the expression of a plain write may have. *)
Definition may_be (s : store) (r : Reference) (e : node) (h : held) : Prop :=
  if type_of e =s "Literal" then
    match get_str e "raw" with Some raw => raw <> "" -> h = HoldsLiteral raw | None => True end
  else if type_of e =s "Identifier" then
    match getVariableFromIdentifier sm e (ref_from r) with
    | Some w => h = s w
    | None => True
    end
  else True.

(** A reference executed: a write that is not plain may assign anything. *)
Inductive exec_ref (s : store) (ref : RefId) : store -> Prop :=
| exec_none :
    (forall r v, reference_at sm ref = Some r -> ref_resolved r = Some v ->
       ref_isWrite r = false) -> exec_ref s ref s
| exec_write r v h :
    reference_at sm ref = Some r -> ref_resolved r = Some v -> ref_isWrite r = true ->
    (forall e, plain_write r = true -> ref_writeExpr r = Some e -> may_be s r e h) ->
    exec_ref s ref (assign s v h).

Inductive exec_refs : store -> list RefId -> store -> Prop :=
| exec_nil s : exec_refs s [] s
| exec_cons s ref s1 refs s2 :
    exec_ref s ref s1 -> exec_refs s1 refs s2 -> exec_refs s (ref :: refs) s2.

(** A store at the entry of a segment: the start of the execution, or the end
    of a previous segment. *)
Inductive reaches (m : RdMap) : string -> store -> Prop :=
| reaches_start id : reaches m id (fun _ => Unassigned)
| reaches_next p rdp id rd s s' :
    reaches m p s -> map_get p m = Some rdp -> exec_refs s (rd_references rdp) s' ->
    map_get id m = Some rd -> p ∈ prevSegments (rd_segment rd) ->
    reaches m id s'.

(** The variable is unassigned or holds one of the values. *)
Definition admits (o : option Values) (h : held) : Prop :=
  match h with
  | Unassigned => True
  | HoldsLiteral raw =>
      match o with
      | Some (AssignedValues l) => raw ∈ l
      | Some UnknownValue => True
      | None => False
      end
  | HoldsOther _ => o = Some UnknownValue
  end.

Definition covers (ps : ProgramState) (s : store) : Prop :=
  forall v, admits (map_get v ps) (s v).

(** ** The abstraction is sound *)

(** The order of precision. *)
Definition values_le (a b : option Values) : Prop := forall h, admits a h -> admits b h.

Lemma admits_None h : admits None h -> h = Unassigned.
Proof. by destruct h. Qed.

Lemma values_le_refl a : values_le a a.
Proof. by intros h. Qed.

Lemma values_le_trans a b c : values_le a b -> values_le b c -> values_le a c.
Proof. unfold values_le. naive_solver. Qed.

Lemma values_le_assigned a b : a ⊆ b -> values_le (Some (AssignedValues a)) (Some (AssignedValues b)).
Proof. intros H [|raw|v]; simpl; [done | set_solver | done]. Qed.

Lemma values_le_unknown a : values_le a (Some UnknownValue).
Proof. by intros [|raw|v]. Qed.

Lemma values_le_None a : values_le None a.
Proof. by intros [|raw|v]. Qed.

Lemma join_entry_le ps kv k :
  values_le (map_get k ps) (map_get k (join_entry ps kv)) /\
  values_le (Some kv.2) (map_get kv.1 (join_entry ps kv)).
Proof.
  destruct kv as [j v]. unfold join_entry. simpl.
  destruct (map_get j ps) as [[a|]|] eqn:E, v as [b|]; simpl; rewrite map_get_set_eq;
    (split; [destruct (decide (k = j)) as [->|]; [rewrite map_get_set_eq, E |
               rewrite map_get_set_ne by done; apply values_le_refl] |]);
    try apply values_le_unknown; try apply values_le_None;
    apply values_le_assigned; intros x Hx; apply elem_of_set_add_all; by auto.
Qed.

Lemma join_le prev : forall ps k,
  values_le (map_get k ps) (map_get k (join ps prev)) /\
  (forall v, (k, v) ∈ prev -> values_le (Some v) (map_get k (join ps prev))).
Proof.
  unfold join. induction prev as [|kv prev IH]; intros ps k; simpl.
  - split; [apply values_le_refl | set_solver].
  - destruct (join_entry_le ps kv k) as [H1 H2], (IH (join_entry ps kv) k) as [H3 H4]. split.
    + by eapply values_le_trans.
    + intros v [E|Hv]%elem_of_cons; [| by apply H4]. subst kv. by eapply values_le_trans.
Qed.

Lemma join_covers ps prev s :
  (covers ps s -> covers (join ps prev) s) /\ (covers prev s -> covers (join ps prev) s).
Proof.
  split; intros H v; destruct (join_le prev ps v) as [H1 H2]; [by apply H1 |].
  specialize (H v). destruct (map_get v prev) as [x|] eqn:E.
  - apply (H2 x); [by apply map_get_Some_elem | done].
  - apply admits_None in H. by rewrite H.
Qed.

Lemma join_prevs_covers m s : forall prevs ps ps',
  join_prevs m ps prevs = Ok ps' ->
  (covers ps s \/ exists p rdp, p ∈ prevs /\ map_get p m = Some rdp /\ covers (rd_out rdp) s) ->
  covers ps' s.
Proof.
  induction prevs as [|q prevs IH]; intros ps ps' E H; simpl in E.
  - simplify_eq. destruct H as [H|(p & ? & Hp & _)]; [done | set_solver].
  - destruct (map_get q m) as [rq|] eqn:G; [| done]. eapply IH; [exact E |].
    destruct H as [H|(p & rdp & [->|Hp]%elem_of_cons & Gp & Hc)].
    + left. destruct (join_covers ps (rd_out rq) s) as [J _]. by apply J.
    + left. simplify_eq. destruct (join_covers ps (rd_out rq) s) as [_ J]. by apply J.
    + right. by exists p, rdp.
Qed.

Lemma covers_assign ps s v x h :
  covers ps s -> admits (Some x) h -> covers (map_set v x ps) (assign s v h).
Proof.
  intros H A w. unfold assign. destruct (Nat.eqb_spec w v) as [->|Hne].
  - by rewrite map_get_set_eq.
  - by rewrite map_get_set_ne.
Qed.

(** Every write of the code path is plain. *)
Definition plain_writes (refs : list RefId) : Prop :=
  forall ref r v, ref ∈ refs -> reference_at sm ref = Some r -> ref_resolved r = Some v ->
    ref_isWrite r = true -> plain_write r = true.

Lemma resolveAssignedValues_admits ps s r v e h :
  covers ps s -> may_be s r e h ->
  admits (Some (resolveAssignedValues v (Some e) ps (ref_from r))) h.
Proof.
  intros C M. unfold may_be in M. unfold resolveAssignedValues.
  destruct (type_of e =s "Literal").
  - destruct (get_str e "raw") as [raw|]; [| by destruct h].
    destruct (raw =s "") eqn:E; split_bools.
    + by destruct h.
    + rewrite M by done. simpl. set_solver.
  - destruct (type_of e =s "Identifier"); [| by destruct h].
    destruct (getVariableFromIdentifier sm e (ref_from r)) as [w|]; [| by destruct h].
    destruct (w =? v)%nat; [by destruct h |]. subst h. specialize (C w).
    destruct (map_get w ps); simpl; [done |]. apply admits_None in C. by rewrite C.
Qed.

Lemma exec_ref_covers ps s ref s' :
  plain_writes [ref] -> covers ps s -> exec_ref s ref s' ->
  covers (updateProgramState ps ref) s'.
Proof.
  intros P C X. unfold updateProgramState. destruct X as [Hn | r v h Er Ev Ew M].
  - destruct (reference_at sm ref) as [r|] eqn:Er; [| done].
    destruct (ref_resolved r) as [v|] eqn:Ev; [| done]. by rewrite (Hn r v).
  - rewrite Er, Ev, Ew. simpl. destruct (ref_writeExpr r) as [e|].
    + apply covers_assign; [done |]. apply resolveAssignedValues_admits with s; [done |].
      apply M; [| done]. apply (P ref r v); [set_solver | done..].
    + apply covers_assign; [done | by destruct h].
Qed.

Lemma exec_refs_covers refs s s' :
  exec_refs s refs s' -> forall ps, plain_writes refs -> covers ps s -> covers (transfer refs ps) s'.
Proof.
  induction 1 as [|s ref s1 refs s2 X _ IH]; intros ps P C; [done |].
  unfold transfer. simpl. apply IH.
  - intros r' r v Hr. apply P. set_solver.
  - apply exec_ref_covers with s; [| done..]. intros r' r v Hr. apply P. set_solver.
Qed.

(** Equal sizes and every key of the first map in the second: the same keys. *)
Lemma equals_keys a b :
  equals a b = true -> NoDup a.*1 ->
  (forall k v, (k, v) ∈ a -> exists v', map_get k b = Some v' /\ valuesEquals v' v = true) /\
  (forall k, k ∈ b.*1 -> k ∈ a.*1).
Proof.
  unfold equals. rewrite andb_true_iff, Nat.eqb_eq, forallb_forall. intros [L F] ND.
  assert (Fa : forall k v, (k, v) ∈ a ->
    exists v', map_get k b = Some v' /\ valuesEquals v' v = true).
  { intros k v H. apply list_elem_of_In in H. specialize (F _ H). simpl in F.
    destruct (map_get k b) as [v'|]; [by exists v' | done]. }
  split; [exact Fa |].
  assert (Hab : a.*1 ⊆+ b.*1).
  { apply NoDup_submseteq; [done |].
    intros j ([j' v'] & -> & Hj)%list_elem_of_fmap.
    destruct (Fa _ _ Hj) as (w & Gw & _). apply map_get_Some_elem in Gw.
    apply list_elem_of_fmap. by exists (j', w). }
  apply submseteq_length_Permutation in Hab; [| rewrite !length_fmap; lia].
  intros k. by rewrite Hab.
Qed.

Lemma equals_covers a b s : equals a b = true -> NoDup a.*1 -> covers b s -> covers a s.
Proof.
  intros E ND C. destruct (equals_keys a b E ND) as [Fa Fb].
  intros k. specialize (C k). destruct (map_get k a) as [v|] eqn:G.
  - apply map_get_Some_elem in G. destruct (Fa _ _ G) as (v' & G' & Ev). rewrite G' in C.
    destruct v' as [x|], v as [y|]; simpl in Ev; try done.
    revert C. apply values_le_assigned. unfold setEquals in Ev.
    apply andb_true_iff in Ev as [_ S]. rewrite forallb_forall in S.
    intros z Hz. apply set_has_spec, S. by apply list_elem_of_In.
  - destruct (map_get k b) as [v|] eqn:G'; [| done]. exfalso.
    apply map_get_None in G. apply G, Fb. apply map_get_Some_elem in G'.
    apply list_elem_of_fmap. by exists (k, v).
Qed.

(** At the end of the analysis the maps cover every store an execution can
    reach. *)
Lemma settled_reaches m id s :
  rd_wf m -> (forall i r, map_get i m = Some r -> settled m r) ->
  (forall i r, map_get i m = Some r -> plain_writes (rd_references r)) ->
  reaches m id s -> forall rd, map_get id m = Some rd -> covers (rd_in rd) s.
Proof.
  intros W St P R. induction R as [id | p rdp id rd s s' R IH Gp X G Hp]; intros rd0 G0.
  - by intros v.
  - simplify_eq. destruct (St _ _ Gp) as [_ Eo], (St _ _ G) as [J _].
    eapply join_prevs_covers; [exact J |]. right. exists p, rdp.
    split; [done |]. split; [done |].
    eapply equals_covers; [exact Eo | by eapply rdw_out |].
    apply exec_refs_covers with s; [done | by eapply P | by apply IH].
Qed.

(** Only [in] and [out] change. *)
Lemma rd_loop_references : forall fuel wl m m' id rd',
  rd_loop fuel wl m = Ok m' -> map_get id m' = Some rd' ->
  exists rd, map_get id m = Some rd /\ rd_references rd = rd_references rd'
    /\ rd_segment rd = rd_segment rd'.
Proof.
  induction fuel as [|fuel IH]; intros [|c wl] m m' id rd'; cbn [rd_loop];
    try (intros; simplify_eq; by exists rd').
  destruct (rd_step (c :: wl) m) as [[wl' m1]|] eqn:E; [| done]. simpl.
  intros L G. destruct (IH _ _ _ _ _ L G) as (r & G1 & E1 & E2). simpl in E.
  destruct (map_get c m) as [rd|] eqn:Gc; [| done]. unfold rd_propagate in E.
  destruct (join_prevs m [] _) as [i|]; [| done]. simpl in E.
  destruct (equals _ _); simplify_eq/=;
    apply map_get_set_cases in G1 as [[-> ->]|[_ G1]]; try (by exists r);
    exists rd; by rewrite <- E1, <- E2.
Qed.

Lemma rd_loop_present : forall fuel wl m m' id,
  rd_loop fuel wl m = Ok m' -> is_Some (map_get id m) -> is_Some (map_get id m').
Proof.
  induction fuel as [|fuel IH]; intros [|c wl] m m' id; cbn [rd_loop]; try (intros; by simplify_eq).
  destruct (rd_step (c :: wl) m) as [[wl' m1]|] eqn:E; [| done]. cbn [rbind]. intros L H. apply (IH _ _ _ _ L).
  cbn [rd_step] in E. destruct (map_get c m) as [rd|]; [| done]. unfold rd_propagate in E.
  destruct (join_prevs m [] _) as [i|]; [| done]. cbn in E.
  destruct (equals _ _); simplify_eq/=; by apply is_Some_map_set.
Qed.

(** The executions are those of the segments, which the loop leaves as they are. *)
Lemma reaches_loop fuel wl m m' id s : rd_loop fuel wl m = Ok m' -> reaches m id s -> reaches m' id s.
Proof.
  intros L. assert (forall i rd, map_get i m = Some rd -> exists rd', map_get i m' = Some rd' /\
    rd_references rd = rd_references rd' /\ rd_segment rd = rd_segment rd') as S.
  { intros i rd G. destruct (rd_loop_present _ _ _ _ i L) as [rd' G']; [by eexists |]. exists rd'. split; [done |].
    destruct (rd_loop_references _ _ _ _ _ _ L G') as (rd0 & G0 & E). by simplify_eq. }
  induction 1 as [id|p rdp id rd s s' _ IH Gp X G P]; [apply reaches_start |].
  destruct (S _ _ Gp) as (rdp' & Gp' & Er & _), (S _ _ G) as (rd' & G' & _ & Es).
  eapply reaches_next; [exact IH | exact Gp' | by rewrite <- Er | exact G' | by rewrite <- Es].
Qed.

(** What holds at the entry of a segment when the loop returns. *)
Lemma entry_covered m fuel m' id rd s : rd_wf m ->
  (forall i r, map_get i m = Some r -> plain_writes (rd_references r)) ->
  reachingDefinitions fuel m = Ok m' -> reaches m' id s -> map_get id m' = Some rd -> covers (rd_in rd) s.
Proof.
  intros W P E R G. pose proof (rd_initial_inv m W) as I.
  pose proof (rd_loop_inv _ _ _ _ I E) as [W' _ S].
  apply (settled_reaches m' id s); [done | | | done | done].
  - intros i r Gi. apply (S i); [done | set_solver].
  - intros i r Gi. destruct (rd_loop_references _ _ _ _ _ _ E Gi) as (r0 & G0 & <- & _). by eapply P.
Qed.

End Analysis.

(** ** Example code paths *)

Module RdExample.

(** An identifier, a literal, and an assignment [left = right]. *)
Definition ident (i : nat) (name : string) : node :=
  Node (mkHeader i "Identifier" None None) [("name", VStr name)].
Definition literal (i : nat) (raw : string) : node :=
  Node (mkHeader i "Literal" None None) [("raw", VStr raw)].
Definition assignment (i : nat) (operator : string) (left right : node) : node :=
  Node (mkHeader i "AssignmentExpression" None None)
    [("operator", VStr operator); ("left", VNode left); ("right", VNode right)].

Definition write_ref (v : VarId) (i : nat) (operator : string) (left right : node) : Reference :=
  mkReference left [assignment i operator left right] 0 (Some v) (Some right) false false true.
Definition read_ref (v : VarId) (id : node) : Reference :=
  mkReference id [] 0 (Some v) None false true false.

(** [function f(c, d) { let x, y, z;
      for (; c(); y = x, x = z, z = y) { if (d()) x = 2; } }] *)
Definition swapScopes : ScopeManager :=
  mkScopeManager
    [mkScope (Node (mkHeader 90 "FunctionDeclaration" None None) []) None [0; 1; 2]%nat
       [0; 1; 2; 3; 4; 5; 6]%nat]
    [mkVariable "x" 0 None [] [0; 3; 6]%nat; mkVariable "y" 0 None [] [1; 4]%nat;
     mkVariable "z" 0 None [] [2; 5]%nat]
    [read_ref 0 (ident 2 "x"); write_ref 1 20 "=" (ident 1 "y") (ident 2 "x");
     read_ref 2 (ident 4 "z"); write_ref 0 21 "=" (ident 3 "x") (ident 4 "z");
     read_ref 1 (ident 6 "y"); write_ref 2 22 "=" (ident 5 "z") (ident 6 "y");
     write_ref 0 23 "=" (ident 7 "x") (literal 8 "2")]
    (fun _ => None).

Definition entry (id : string) (next prev : list string) (refs : list RefId)
  : string * ReachingDefinitions :=
  (id, mkRD (mkSegment id next prev) [] [] refs).

(** Initialisation, test, update, body up to the test of the [if], its
    consequent, the end of the body, the code after the loop: in the order in
    which the segments start. *)
Definition swapMap : RdMap :=
  [entry "s2_1" ["s2_2"] [] [];
   entry "s2_2" ["s2_4"; "s2_7"] ["s2_1"; "s2_3"] [];
   entry "s2_3" ["s2_2"] ["s2_6"] [0; 1; 2; 3; 4; 5]%nat;
   entry "s2_4" ["s2_5"; "s2_6"] ["s2_2"] [];
   entry "s2_5" ["s2_6"] ["s2_4"] [6]%nat;
   entry "s2_6" ["s2_3"] ["s2_5"; "s2_4"] [];
   entry "s2_7" [] ["s2_2"] []].

(** The map and the worklist after some turns. *)
Fixpoint rd_turns (n : nat) (wl : list string) (m : RdMap) : list string * RdMap :=
  match n with
  | O => (wl, m)
  | S n' => match rd_step swapScopes wl m with
            | Ok (wl', m') => rd_turns n' wl' m'
            | Throw _ => (wl, m)
            end
  end.

Definition cycleMap : RdMap :=
  Eval vm_compute in (rd_turns 19 (rd_initial_worklist swapMap) swapMap).2.

(** What the nineteen first turns leave below the update segment. *)
Definition cycleRest : list string :=
  Eval vm_compute in List.tl (rd_turns 19 (rd_initial_worklist swapMap) swapMap).1.

Lemma swap_enters fuel :
  rd_loop swapScopes (19 + fuel) (rd_initial_worklist swapMap) swapMap
  = rd_loop swapScopes fuel ("s2_3" :: cycleRest) cycleMap.
Proof. reflexivity. Qed.

(** Ten turns later the map is the same, and the worklist two entries longer. *)
Lemma swap_cycles fuel rest :
  rd_loop swapScopes (10 + fuel) ("s2_3" :: rest) cycleMap
  = rd_loop swapScopes fuel ("s2_3" :: "s2_5" :: "s2_5" :: rest) cycleMap.
Proof. reflexivity. Qed.

Lemma cycle_never_ends : forall fuel rest,
  rd_loop swapScopes fuel ("s2_3" :: rest) cycleMap = Throw OutOfFuel.
Proof.
  intros fuel. induction fuel as [fuel IH] using lt_wf_ind. intros rest.
  destruct (Nat.lt_ge_cases fuel 10) as [Hlt|Hge].
  - do 10 (destruct fuel as [|fuel]; [reflexivity |]). lia.
  - replace fuel with (10 + (fuel - 10))%nat by lia. rewrite swap_cycles. apply IH. lia.
Qed.

(** The two branches of [if (c) x = 1; y = x;]. *)
Definition joinScopes : ScopeManager :=
  mkScopeManager
    [mkScope (Node (mkHeader 90 "FunctionDeclaration" None None) []) None [0; 1]%nat
       [0; 1; 2]%nat]
    [mkVariable "x" 0 None [] [0; 1]%nat; mkVariable "y" 0 None [] [2]%nat]
    [write_ref 0 20 "=" (ident 1 "x") (literal 2 "1");
     read_ref 0 (ident 4 "x");
     write_ref 1 21 "=" (ident 3 "y") (ident 4 "x")]
    (fun _ => None).

Definition joinMap : RdMap :=
  [entry "s2_1" ["s2_2"; "s2_3"] [] [];
   entry "s2_2" ["s2_3"] ["s2_1"] [0]%nat;
   entry "s2_3" ["s2_4"] ["s2_2"; "s2_1"] [1; 2]%nat;
   entry "s2_4" [] ["s2_3"] []].

Lemma joinMap_wf : rd_wf joinMap.
Proof. unfold joinMap, entry. split; solve_concrete_map. Qed.

Lemma swapMap_wf : rd_wf swapMap.
Proof. unfold swapMap, entry. split; solve_concrete_map. Qed.

Lemma joinMap_plain i r :
  map_get i joinMap = Some r -> plain_writes joinScopes (rd_references r).
Proof.
  intros H ref x v Hr G _ W. apply map_get_Some_elem in H. unfold joinMap, entry in H.
  set_unfold. destruct_or!; simplify_eq/=; set_unfold; destruct_or!; subst; try done;
    unfold reference_at in G; simpl in G; simplify_eq; try discriminate W; reflexivity.
Qed.

Definition joinResult : RdMap :=
  match reachingDefinitions joinScopes 20 joinMap with Ok m => m | Throw _ => [] end.

(** The execution that takes the branch. *)
Lemma join_reaches :
  reaches joinScopes joinResult "s2_3" (assign (fun _ => Unassigned) 0 (HoldsLiteral "1")).
Proof.
  eapply reaches_next with (p := "s2_2"); [apply reaches_start | reflexivity | | reflexivity |].
  - eapply exec_cons; [| apply exec_nil].
    eapply exec_write; [reflexivity.. |]. intros e _ [= <-]. by intros _.
  - simpl. set_solver.
Qed.

End RdExample.

(** ** Properties *)

(** C2: when [reachingDefinitions] returns, every segment satisfies its data
    flow equations: [in] is the join of the [out]s of the previous segments and
    [out] equals the effect of the segment's references on [in]. The only way
    not to return is to go on for ever: no segment is missing. *)
Theorem reachingDefinitions_settles sm m fuel :
  rd_wf m ->
  match reachingDefinitions sm fuel m with
  | Ok m' => rd_wf m' /\ forall id rd, map_get id m' = Some rd -> settled sm m' rd
  | Throw e => e = OutOfFuel
  end.
Proof.
  intros W. pose proof (rd_initial_inv sm m W) as I. unfold reachingDefinitions.
  destruct (rd_loop sm fuel _ m) as [m'|e] eqn:E.
  - pose proof (rd_loop_inv _ _ _ _ _ I E) as [W' _ S]. split; [done |].
    intros id rd G. apply (S id); [done | set_solver].
  - by eapply rd_loop_no_missing.
Qed.

(** C3: when [reachingDefinitions] returns and every write is a plain
    assignment, the values it gives a variable at the entry of a segment cover
    what any execution reaching the segment may have assigned to it: the
    variable is unassigned, or holds one of the literals. *)
Theorem reachingDefinitions_sound sm m fuel m' id rd s :
  rd_wf m ->
  (forall i r, map_get i m = Some r -> plain_writes sm (rd_references r)) ->
  reachingDefinitions sm fuel m = Ok m' ->
  reaches sm m' id s -> map_get id m' = Some rd -> covers (rd_in rd) s.
Proof.
  apply entry_covered.
Qed.

(** C4: [reachingDefinitions] does not end on the (well-formed) code path of
    [for (; c(); y = x, x = z, z = y) { if (d()) x = 2; }]: no amount of fuel is
    enough. An identifier without entry in the map resolves to the unknown
    value, which is above the values it resolves to later, so that an [out] may
    go down again, and here [x] and [y] exchange the unknown value for ever. *)
Theorem reachingDefinitions_diverges :
  rd_wf RdExample.swapMap /\
  forall fuel, reachingDefinitions RdExample.swapScopes fuel RdExample.swapMap = Throw OutOfFuel.
Proof.
  split; [exact RdExample.swapMap_wf |]. intros fuel. unfold reachingDefinitions. destruct (Nat.lt_ge_cases fuel 19) as [Hlt|Hge].
  - do 19 (destruct fuel as [|fuel]; [reflexivity |]). lia.
  - replace fuel with (19 + (fuel - 19))%nat by lia.
    rewrite RdExample.swap_enters. apply RdExample.cycle_never_ends.
Qed.

(** ** Witnesses *)

Lemma reachingDefinitions_settles_witness :
  rd_wf RdExample.joinMap /\
  match reachingDefinitions RdExample.joinScopes 20 RdExample.joinMap with
  | Ok m' => rd_wf m' /\
      forall id rd, map_get id m' = Some rd -> settled RdExample.joinScopes m' rd
  | Throw e => e = OutOfFuel
  end.
Proof.
  split; [exact RdExample.joinMap_wf |].
  exact (reachingDefinitions_settles RdExample.joinScopes RdExample.joinMap 20
           RdExample.joinMap_wf).
Defined.

Lemma reachingDefinitions_sound_witness :
  exists rd, map_get "s2_3" RdExample.joinResult = Some rd /\
    covers (rd_in rd) (assign (fun _ => Unassigned) 0 (HoldsLiteral "1")).
Proof.
  eexists. split; [reflexivity |].
  apply (reachingDefinitions_sound RdExample.joinScopes RdExample.joinMap 20
           RdExample.joinResult "s2_3").
  - exact RdExample.joinMap_wf.
  - exact RdExample.joinMap_plain.
  - reflexivity.
  - exact RdExample.join_reaches.
  - reflexivity.
Defined.
