(* ===== verification/DeadStores.v ===== *)
(** * DeadStores: the rule S1854 (dead stores)

    The code of [packages/jsts/src/rules/S1854/rule.ts]: the state the rule
    keeps between ESLint's events, one operation per event handler, and the
    checks made when the program ends. ESLint walks the tree and its code paths
    and emits the events; the handlers are composed in the order the rule
    registers them. References are the ones of a [ScopeManager] and the
    references the rule creates for JSX identifiers. *)

From Stdlib Require Import ZArith Lia QArith.
From stdpp Require Import base list gmap strings.
From S2P Require Import Prelude Estree Ast Lva.

(** [ReferenceLike]: a reference of ESLint's scopes, or a [JSXReference], which
    is created from the JSX identifier of that identity. *)
Inductive ReferenceLike :=
| ScopeReference (r : RefId)
| JSXReference (identifier : nat) (resolved : option VarId).

Instance ReferenceLike_eq_dec : EqDecision ReferenceLike.
Proof. solve_decision. Defined.

(** What the handlers can throw. *)
Inductive rule_error :=
| PeekUndefined             (* a property of [undefined] after [peek] or [pop] *)
| NoAssignmentSide          (* 'failed to find assignment lhs/rhs' *)
| NoUsages                  (* [variableUsages.get(variable)!.size] *)
| FlowError (e : flow_error).

(** [AssignmentContext] *)
Record AssignmentContext := mkAssignmentContext {
  ac_node : node;
  ac_lhs : list ReferenceLike;
  ac_rhs : list ReferenceLike
}.

(** [CodePathContext]; the head of a stack is its top. *)
Record CodePathContext := mkCodePathContext {
  codePath_id : string;
  assignmentStack : list AssignmentContext
}.

(** [DestructuringContext] *)
Record DestructuringContext := mkDestructuringContext {
  hasRest : bool;
  d_references : list ReferenceLike
}.

(** The variables [create] closes over. *)
Record state := mkState {
  codePathStack : list CodePathContext;
  liveVariablesMap : @LvMap VarId ReferenceLike;
  readVariables : list VarId;
  variableUsages : list (VarId * list string);
  referencesUsedInDestructuring : list ReferenceLike;
  destructuringStack : list DestructuringContext;
  codePathSegments : list (list CodePathSegment);
  currentCodePathSegments : list CodePathSegment;
  reports : list ReferenceLike
}.

Definition initial_state : state := mkState [] [] [] [] [] [] [] [] [].

(** What ESLint emits. *)
Inductive event :=
| AssignmentEnter (n : node)      (* an assignment, or a declarator with [init] *)
| AssignmentExit
| IdentifierEnter (n : node)
| JSXIdentifierEnter (n : node)
| ObjectPatternEnter
| PatternPropertyIdentifier (n : node)
| PatternRest
| ObjectPatternExit
| onCodePathSegmentStart (s : CodePathSegment)
| onCodePathSegmentEnd
| onCodePathStart (id : string)
| onCodePathEnd.

Section Rule.
Context (sm : ScopeManager).
(** A node of that identity, followed by its ancestors up to the program: the
    [parent] links. *)
Context (chain : nat -> list node).

(** ** The fields of a reference *)

Definition scope_reference (r : ReferenceLike) : option Reference :=
  match r with ScopeReference i => reference_at sm i | JSXReference _ _ => None end.

Definition resolved (r : ReferenceLike) : option VarId :=
  match r with
  | ScopeReference i => match reference_at sm i with Some x => ref_resolved x | None => None end
  | JSXReference _ v => v
  end.

Definition isRead (r : ReferenceLike) : bool :=
  match r with
  | ScopeReference i => match reference_at sm i with Some x => ref_isRead x | None => false end
  | JSXReference _ _ => true
  end.

Definition isWrite (r : ReferenceLike) : bool :=
  match r with
  | ScopeReference i => match reference_at sm i with Some x => ref_isWrite x | None => false end
  | JSXReference _ _ => false
  end.

(** The identifier and the nodes above it. *)
Definition identifier_chain (r : ReferenceLike) : list node :=
  match r with
  | ScopeReference i =>
      match reference_at sm i with
      | Some x => ref_identifier x :: ref_parents x
      | None => []
      end
  | JSXReference i _ => chain i
  end.

(** [ref.identifier.parent] *)
Definition identifier_parent (r : ReferenceLike) : option node :=
  match identifier_chain r with _ :: p :: _ => Some p | _ => None end.

Definition lv_add := add (Var := VarId) (Ref := ReferenceLike) resolved isRead isWrite.

(** ** Assignments *)

Definition isRhs (ac : AssignmentContext) (n : node) : bool :=
  let k := if type_of (ac_node ac) =s "AssignmentExpression" then "right" else "init" in
  match get_node (ac_node ac) k with Some x => same_node x n | None => false end.

Definition isLhs (ac : AssignmentContext) (n : node) : bool :=
  let k := if type_of (ac_node ac) =s "AssignmentExpression" then "left" else "id" in
  match get_node (ac_node ac) k with Some x => same_node x n | None => false end.

(** The loop of [AssignmentContext.add] over the parents. *)
Fixpoint ac_add_loop (ac : AssignmentContext) (ref : ReferenceLike) (parents : list node)
  : result rule_error AssignmentContext :=
  match parents with
  | [] => Throw NoAssignmentSide
  | parent :: rest =>
      if isLhs ac parent
      then Ok (mkAssignmentContext (ac_node ac) (set_add ref (ac_lhs ac)) (ac_rhs ac))
      else if isRhs ac parent
      then Ok (mkAssignmentContext (ac_node ac) (ac_lhs ac) (set_add ref (ac_rhs ac)))
      else ac_add_loop ac ref rest
  end.

Definition ac_add (ac : AssignmentContext) (ref : ReferenceLike)
  : result rule_error AssignmentContext :=
  ac_add_loop ac ref (identifier_chain ref).

Definition set_codePathStack (st : state) (s : list CodePathContext) : state :=
  mkState s (liveVariablesMap st) (readVariables st) (variableUsages st)
    (referencesUsedInDestructuring st) (destructuringStack st) (codePathSegments st)
    (currentCodePathSegments st) (reports st).

Definition set_liveVariablesMap (st : state) (m : LvMap) : state :=
  mkState (codePathStack st) m (readVariables st) (variableUsages st)
    (referencesUsedInDestructuring st) (destructuringStack st) (codePathSegments st)
    (currentCodePathSegments st) (reports st).

(** [peek(codePathStack).assignmentStack.push(new AssignmentContext(node))] *)
Definition pushAssignmentContext (st : state) (n : node) : result rule_error state :=
  match codePathStack st with
  | [] => Throw PeekUndefined
  | c :: rest =>
      Ok (set_codePathStack st
            (mkCodePathContext (codePath_id c)
               (mkAssignmentContext n [] [] :: assignmentStack c) :: rest))
  end.

(** [lvaForSegment(segment).add(ref)] *)
Definition add_to_segment (ref : ReferenceLike) (m : LvMap) (segment : CodePathSegment) : LvMap :=
  let lva := default (newLiveVariables segment) (map_get (seg_id segment) m) in
  map_set (seg_id segment) (lv_add lva ref) m.

Definition processReference (st : state) (ref : ReferenceLike) : result rule_error state :=
  match codePathStack st with
  | [] => Throw PeekUndefined
  | c :: rest =>
      match assignmentStack c with
      | assignment :: others =>
          let! assignment' := ac_add assignment ref in
          Ok (set_codePathStack st
                (mkCodePathContext (codePath_id c) (assignment' :: others) :: rest))
      | [] =>
          Ok (set_liveVariablesMap st
                (fold_left (add_to_segment ref) (currentCodePathSegments st)
                   (liveVariablesMap st)))
      end
  end.

Fixpoint processReferences (st : state) (refs : list ReferenceLike) : result rule_error state :=
  match refs with
  | [] => Ok st
  | r :: rest => let! st' := processReference st r in processReferences st' rest
  end.

Definition popAssignmentContext (st : state) : result rule_error state :=
  match codePathStack st with
  | [] => Throw PeekUndefined
  | c :: rest =>
      match assignmentStack c with
      | [] => Throw PeekUndefined
      | assignment :: others =>
          let st1 := set_codePathStack st (mkCodePathContext (codePath_id c) others :: rest) in
          let! st2 := processReferences st1 (ac_rhs assignment) in
          processReferences st2 (ac_lhs assignment)
      end
  end.

(** ** Identifiers *)

(** [scope.references.find(r => r.identifier === node)] *)
Definition find_reference (s : Scope_) (n : node) : option RefId :=
  List.find (fun i => match reference_at sm i with
                      | Some r => same_node (ref_identifier r) n
                      | None => false
                      end) (sco_references s).

(** [scope.variables.find(v => v.defs.find(def => def.name === node))] *)
Definition find_declared (s : Scope_) (n : node) : option VarId :=
  List.find (fun v => match variable_at sm v with
                      | Some x => existsb (fun d => same_node (def_name d) n) (var_defs x)
                      | None => false
                      end) (sco_variables s).

(** [resolveReferenceRecursively(node, scope, depth)]; [more] is how many scopes
    may still be visited, [3 - depth]. *)
Fixpoint resolveReferenceRecursively (more : nat) (n : node) (scope : option ScopeId)
  : option RefId * option VarId :=
  match more, scope with
  | S more', Some i =>
      match scope_at sm i with
      | Some s =>
          match find_reference s n with
          | Some r => (Some r, match reference_at sm r with
                               | Some x => ref_resolved x
                               | None => None
                               end)
          | None =>
              match find_declared s n with
              | Some v => (None, Some v)
              | None => resolveReferenceRecursively more' n (sco_upper s)
              end
          end
      | None => (None, None)
      end
  | _, _ => (None, None)
  end.

Definition resolveReference (n : node) : option RefId * option VarId :=
  resolveReferenceRecursively 3 n (sm_getScope sm n).

(** [findJSXVariableInScope(node, scope)] *)
Definition findJSXVariableInScope (n : node) (scope : option ScopeId) : option VarId :=
  getVariableFromScope sm scope (node_name n).

(** The parent of a node that is visited. *)
Definition node_parent (n : node) : option node :=
  match chain (h_id (hdr n)) with _ :: p :: _ => Some p | _ => None end.

Definition isJSXAttributeName (n : node) : bool :=
  match node_parent n with
  | Some parent =>
      (type_of parent =s "JSXAttribute")
      && match get_node parent "name" with Some x => same_node x n | None => false end
  | None => false
  end.

(** [resolveJSXReference(node)]: [{}] is the pair of [None]s. *)
Definition resolveJSXReference (n : node) : option ReferenceLike * option VarId :=
  if isJSXAttributeName n then (None, None)
  else
    let v := findJSXVariableInScope n (sm_getScope sm n) in
    (Some (JSXReference (h_id (hdr n)) v), v).

Definition isEnumConstant (n : node) : bool :=
  existsb (fun a => type_of a =s "TSEnumDeclaration") (List.tl (chain (h_id (hdr n)))).

Definition updateReadVariables (st : state) (reference : ReferenceLike) (v : VarId) : state :=
  if isRead reference
  then mkState (codePathStack st) (liveVariablesMap st) (set_add v (readVariables st))
         (variableUsages st) (referencesUsedInDestructuring st) (destructuringStack st)
         (codePathSegments st) (currentCodePathSegments st) (reports st)
  else st.

Definition updateVariableUsages (st : state) (variable : VarId) : result rule_error state :=
  match codePathStack st with
  | [] => Throw PeekUndefined
  | c :: _ =>
      let usages := default [] (map_get variable (variableUsages st)) in
      Ok (mkState (codePathStack st) (liveVariablesMap st) (readVariables st)
            (map_set variable (set_add (codePath_id c) usages) (variableUsages st))
            (referencesUsedInDestructuring st) (destructuringStack st)
            (codePathSegments st) (currentCodePathSegments st) (reports st))
  end.

(** [checkIdentifierUsage(node)], given the answer of the resolution. *)
Definition checkIdentifierUsage (st : state) (ref : option ReferenceLike)
    (variable : option VarId) : result rule_error state :=
  let! st1 :=
    match ref with
    | Some r =>
        let! st' := processReference st r in
        Ok (match variable with Some v => updateReadVariables st' r v | None => st' end)
    | None => Ok st
    end in
  match variable with
  | Some v => updateVariableUsages st1 v
  | None => Ok st1
  end.

(** ** Destructuring *)

Definition set_destructuring (st : state) (used : list ReferenceLike)
    (stack : list DestructuringContext) : state :=
  mkState (codePathStack st) (liveVariablesMap st) (readVariables st) (variableUsages st)
    used stack (codePathSegments st) (currentCodePathSegments st) (reports st).

Definition patternProperty (st : state) (n : node) : result rule_error state :=
  match destructuringStack st, (resolveReference n).1 with
  | d :: rest, Some r =>
      Ok (set_destructuring st (referencesUsedInDestructuring st)
            (mkDestructuringContext (hasRest d) (d_references d ++ [ScopeReference r]) :: rest))
  | [], Some _ => Throw PeekUndefined
  | _, None => Ok st
  end.

Definition patternRest (st : state) : result rule_error state :=
  match destructuringStack st with
  | d :: rest =>
      Ok (set_destructuring st (referencesUsedInDestructuring st)
            (mkDestructuringContext true (d_references d) :: rest))
  | [] => Throw PeekUndefined
  end.

Definition objectPatternExit (st : state) : state :=
  match destructuringStack st with
  | d :: rest =>
      set_destructuring st
        (if hasRest d
         then set_add_all (referencesUsedInDestructuring st) (d_references d)
         else referencesUsedInDestructuring st) rest
  | [] => st
  end.

(** ** Code path events *)

Definition set_segments (st : state) (m : LvMap) (stack : list CodePathContext)
    (saved : list (list CodePathSegment)) (current : list CodePathSegment) : state :=
  mkState stack m (readVariables st) (variableUsages st) (referencesUsedInDestructuring st)
    (destructuringStack st) saved current (reports st).

Definition segmentStart (st : state) (s : CodePathSegment) : state :=
  set_segments st (map_set (seg_id s) (newLiveVariables s) (liveVariablesMap st))
    (codePathStack st) (codePathSegments st) (currentCodePathSegments st ++ [s]).

Definition segmentEnd (st : state) : state :=
  set_segments st (liveVariablesMap st) (codePathStack st) (codePathSegments st)
    (pop (currentCodePathSegments st)).2.

Definition codePathStart (st : state) (id : string) : state :=
  set_segments st (liveVariablesMap st) (mkCodePathContext id [] :: codePathStack st)
    (currentCodePathSegments st :: codePathSegments st) [].

Definition codePathEnd (st : state) : state :=
  set_segments st (liveVariablesMap st) (List.tl (codePathStack st))
    (List.tl (codePathSegments st)) (default [] (head (codePathSegments st))).

Definition handle (st : state) (e : event) : result rule_error state :=
  match e with
  | AssignmentEnter n => pushAssignmentContext st n
  | AssignmentExit => popAssignmentContext st
  | IdentifierEnter n =>
      if isEnumConstant n then Ok st
      else let '(r, v) := resolveReference n in
           checkIdentifierUsage st (ScopeReference <$> r) v
  | JSXIdentifierEnter n =>
      let '(r, v) := resolveJSXReference n in checkIdentifierUsage st r v
  | ObjectPatternEnter =>
      Ok (set_destructuring st (referencesUsedInDestructuring st)
            (mkDestructuringContext false [] :: destructuringStack st))
  | PatternPropertyIdentifier n => patternProperty st n
  | PatternRest => patternRest st
  | ObjectPatternExit => Ok (objectPatternExit st)
  | onCodePathSegmentStart s => Ok (segmentStart st s)
  | onCodePathSegmentEnd => Ok (segmentEnd st)
  | onCodePathStart id => Ok (codePathStart st id)
  | onCodePathEnd => Ok (codePathEnd st)
  end.

(** The events of a file, up to the end of the program. *)
Fixpoint handle_all (st : state) (es : list event) : result rule_error state :=
  match es with
  | [] => Ok st
  | e :: rest => let! st' := handle st e in handle_all st' rest
  end.

(** ** What is reported *)

(** [isBasicValue(node)]; the recursion goes down the operands. *)
Fixpoint isBasicValue_fuel (fuel : nat) (n : node) : bool :=
  match fuel with
  | O => false
  | S fuel' =>
      if type_of n =s "Literal" then
        match get n "value" with
        | VStr s => s =s ""
        | VNum (NumQ q) => Qeq_bool q 0 || Qeq_bool q 1
        | VNull | VBool _ => true
        | _ => false
        end
      else if type_of n =s "Identifier" then str_prop_is n "name" "undefined"
      else if type_of n =s "UnaryExpression" then
        match get_node n "argument" with
        | Some a => isBasicValue_fuel fuel' a
        | None => false
        end
      else if type_of n =s "ObjectExpression" then
        Nat.eqb (length (get_array n "properties")) 0
      else if type_of n =s "ArrayExpression" then
        Nat.eqb (length (get_array n "elements")) 0
      else false
  end.

Definition isBasicValue (n : node) : bool := isBasicValue_fuel (node_size n) n.

Definition isReferenceWithBasicValue (r : ReferenceLike) : bool :=
  match scope_reference r with
  | Some x => ref_init x && match ref_writeExpr x with Some e => isBasicValue e | None => false end
  | None => false
  end.

Definition isIncrementOrDecrement (r : ReferenceLike) : bool :=
  opt_type_is (identifier_parent r) "UpdateExpression".

Definition isNullAssignment (r : ReferenceLike) : bool :=
  match identifier_parent r with
  | Some parent =>
      (type_of parent =s "AssignmentExpression")
      && match get_node parent "right" with Some x => isNullLiteral x | None => false end
  | None => false
  end.

Definition isDefaultParameter (r : ReferenceLike) : bool :=
  match identifier_chain r with
  | i :: _ => (type_of i =s "Identifier") && opt_type_is (identifier_parent r) "AssignmentPattern"
  | [] => false
  end.

Definition isLocalVar (v : VarId) : bool :=
  match variable_at sm v with
  | Some x =>
      match scope_at sm (var_scope x) with
      | Some s => negb (type_of (sco_block s) =s "Program")
                  && negb (type_of (sco_block s) =s "TSModuleDeclaration")
      | None => false
      end
  | None => false
  end.

Definition variable_name (v : VarId) : string :=
  match variable_at sm v with Some x => var_name x | None => "" end.

Definition shouldReportReference (st : state) (r : ReferenceLike) : bool :=
  match resolved r with
  | Some v =>
      isLocalVar v
      && negb (isReferenceWithBasicValue r)
      && negb (isDefaultParameter r)
      && negb (set_has r (referencesUsedInDestructuring st))
      && negb (String.prefix "_" (variable_name v))
      && negb (isIncrementOrDecrement r)
      && negb (isNullAssignment r)
  | None => false
  end.

Definition variableUsedOutsideOfCodePath (st : state) (v : VarId) : result rule_error bool :=
  match map_get v (variableUsages st) with
  | Some usages => Ok (Nat.ltb 1 (length usages))
  | None => Throw NoUsages
  end.

Definition shouldReport (st : state) (r : ReferenceLike) (v : VarId) : result rule_error bool :=
  if shouldReportReference st r then
    let! outside := variableUsedOutsideOfCodePath st v in
    Ok (negb outside && set_has v (readVariables st))
  else Ok false.

(** The loop of [checkSegment] over the references, the last one first. *)
Fixpoint checkSegment_loop (st : state) (refs : list ReferenceLike) (willBeRead : list VarId)
  : result rule_error (list ReferenceLike) :=
  match refs with
  | [] => Ok []
  | ref :: rest =>
      match resolved ref with
      | None => checkSegment_loop st rest willBeRead
      | Some v =>
          let! reported :=
            (if isWrite ref && negb (set_has v willBeRead)
             then let! b := shouldReport st ref v in Ok (if b then [ref] else [])
             else Ok []) in
          let w1 := if isWrite ref then set_delete v willBeRead else willBeRead in
          let w2 := if isRead ref then set_add v w1 else w1 in
          let! more := checkSegment_loop st rest w2 in
          Ok (reported ++ more)
      end
  end.

Definition checkSegment (st : state) (lv : @LiveVariables VarId ReferenceLike) : result rule_error (list ReferenceLike) :=
  checkSegment_loop st (rev (references lv)) (set_add_all [] (out lv)).

Definition reportNeverReadVariables (st : state) (lv : @LiveVariables VarId ReferenceLike) : list ReferenceLike :=
  List.filter (fun r => shouldReportReference st r
                        && match resolved r with
                           | Some v => negb (set_has v (readVariables st))
                           | None => true
                           end) (references lv).

Fixpoint check_all (st : state) (m : @LvMap VarId ReferenceLike)
  : result rule_error (list ReferenceLike) :=
  match m with
  | [] => Ok []
  | (_, lv) :: rest =>
      let! dead := checkSegment st lv in
      let! more := check_all st rest in
      Ok (dead ++ reportNeverReadVariables st lv ++ more)
  end.

(** ['Program:exit'] *)
Definition programExit (fuel : nat) (st : state) : result rule_error state :=
  match lva fuel (liveVariablesMap st) with
  | Throw e => Throw (FlowError e)
  | Ok m =>
      let st' := set_liveVariablesMap st m in
      let! found := check_all st' m in
      Ok (mkState (codePathStack st') m (readVariables st') (variableUsages st')
            (referencesUsedInDestructuring st') (destructuringStack st')
            (codePathSegments st') (currentCodePathSegments st') (reports st' ++ found))
  end.

(** ** Reading before writing, along the code path *)

Definition Lvs := @LvMap VarId ReferenceLike.

(** Some execution of the references [refs], the last ones of segment [id], and
    then of following segments, reads the variable before it writes it. *)
Inductive read_next (m : Lvs) : list ReferenceLike -> string -> VarId -> Prop :=
| rn_read r rest id v :
    resolved r = Some v -> isRead r = true -> read_next m (r :: rest) id v
| rn_skip r rest id v :
    (resolved r = Some v -> isRead r = false /\ isWrite r = false) ->
    read_next m rest id v -> read_next m (r :: rest) id v
| rn_next id lv n lvn v :
    map_get id m = Some lv -> n ∈ nextSegments (segment lv) -> map_get n m = Some lvn ->
    read_next m (references lvn) n v -> read_next m [] id v.

(** The first reference to the variable after a write, or [out]. *)
Fixpoint needed (after : list ReferenceLike) (out : list VarId) (v : VarId) : bool :=
  match after with
  | [] => set_has v out
  | r :: rest =>
      match resolved r with
      | Some w =>
          if Nat.eqb w v
          then if isRead r then true else if isWrite r then false else needed rest out v
          else needed rest out v
      | None => needed rest out v
      end
  end.

(** [gen] and [kill] are what the references read and write. *)
Definition built (lv : @LiveVariables VarId ReferenceLike) : Prop :=
  (forall v, v ∈ gen lv <-> exists r, r ∈ references lv /\ resolved r = Some v /\ isRead r = true) /\
  (forall v, v ∈ kill lv <-> exists r, r ∈ references lv /\ resolved r = Some v /\ isWrite r = true).

Definition map_ok (m : Lvs) : Prop :=
  forall id lv, map_get id m = Some lv -> built lv /\ in_ lv = [].

(** The references the state holds, in a segment or in an assignment. *)
Definition tracked (st : state) (r : ReferenceLike) : Prop :=
  (exists id lv, map_get id (liveVariablesMap st) = Some lv /\ r ∈ references lv) \/
  (exists c a, c ∈ codePathStack st /\ a ∈ assignmentStack c /\ (r ∈ ac_lhs a \/ r ∈ ac_rhs a)).

Definition known (st : state) (r : ReferenceLike) : Prop :=
  forall v, resolved r = Some v ->
    (isRead r = true -> v ∈ readVariables st) /\ is_Some (map_get v (variableUsages st)).

(** The invariant of the rule's state between two events. *)
Record rule_inv (st : state) : Prop := mkRuleInv {
  ri_map : map_ok (liveVariablesMap st);
  ri_known : forall r, tracked st r -> known st r
}.

(** ** The state's invariant is preserved *)

Lemma built_new s : built (newLiveVariables s).
Proof. split; intros v; simpl; set_solver. Qed.

Lemma built_add lv r : built lv -> built (lv_add lv r).
Proof.
  intros [G K]. unfold lv_add, add. destruct (resolved r) as [w|] eqn:E; [| by split].
  split; intros v; simpl; setoid_rewrite elem_of_set_add.
  - destruct (isRead r) eqn:R; [rewrite elem_of_set_add |]; rewrite G; naive_solver congruence.
  - destruct (isWrite r) eqn:R; [rewrite elem_of_set_add |]; rewrite K; naive_solver congruence.
Qed.

Lemma references_add lv r x : x ∈ references (lv_add lv r) -> x = r \/ x ∈ references lv.
Proof.
  unfold lv_add, add. destruct (resolved r); simpl; [| tauto]. by rewrite elem_of_set_add.
Qed.

Lemma map_ok_set m id lv : map_ok m -> built lv -> in_ lv = [] -> map_ok (map_set id lv m).
Proof. intros M B I j l [[-> ->]|[_ G]]%map_get_set_cases; [done | by eapply M]. Qed.

Lemma in_lv_add lv r : in_ (lv_add lv r) = in_ lv.
Proof. unfold lv_add, add. by destruct (resolved r). Qed.

(** What adding a reference to segments leaves. *)
Lemma add_to_segments ref segs : forall m, map_ok m ->
  map_ok (fold_left (add_to_segment ref) segs m) /\
  forall id lv x, map_get id (fold_left (add_to_segment ref) segs m) = Some lv ->
    x ∈ references lv ->
    x = ref \/ exists id' lv', map_get id' m = Some lv' /\ x ∈ references lv'.
Proof.
  induction segs as [|s segs IH]; intros m M; simpl; [split; [done | eauto] |].
  assert (M1 : map_ok (add_to_segment ref m s)).
  { unfold add_to_segment. apply map_ok_set; [done | |].
    - apply built_add. destruct (map_get (seg_id s) m) eqn:E; simpl; [by eapply M | apply built_new].
    - rewrite in_lv_add. destruct (map_get (seg_id s) m) eqn:E; simpl; [by eapply M | done]. }
  destruct (IH _ M1) as [Hok Hin]. split; [done |]. intros id lv x G Hx.
  destruct (Hin _ _ _ G Hx) as [|(id' & lv' & G' & Hx')]; [by left |].
  apply map_get_set_cases in G' as [[-> ->]|[_ G']]; [| by right; eauto].
  apply references_add in Hx' as [|Hx']; [by left |].
  destruct (map_get (seg_id s) m) eqn:E; simpl in Hx'; [right; eauto | set_solver].
Qed.

Lemma ac_add_spec ac r parents ac' :
  ac_add_loop ac r parents = Ok ac' ->
  forall x, x ∈ ac_lhs ac' \/ x ∈ ac_rhs ac' -> x = r \/ x ∈ ac_lhs ac \/ x ∈ ac_rhs ac.
Proof.
  induction parents as [|p parents IH]; simpl; [done |].
  destruct (isLhs ac p), (isRhs ac p); try exact IH; intros [= <-] x; simpl;
    rewrite elem_of_set_add; tauto.
Qed.

(** [st'] differs from [st] by references that [P] allows. *)
Definition adds (P : ReferenceLike -> Prop) (st st' : state) : Prop :=
  readVariables st' = readVariables st /\ variableUsages st' = variableUsages st /\
  map_ok (liveVariablesMap st') /\
  forall x, tracked st' x -> tracked st x \/ P x.

Lemma adds_trans P st1 st2 st3 : adds P st1 st2 -> adds P st2 st3 -> adds P st1 st3.
Proof. unfold adds. intros (A1 & A2 & A3 & A4) (B1 & B2 & B3 & B4). naive_solver congruence. Qed.

Lemma processReference_adds st r st' :
  map_ok (liveVariablesMap st) -> processReference st r = Ok st' -> adds (eq r) st st'.
Proof.
  intros M. unfold processReference. destruct (codePathStack st) as [|c rest] eqn:Ec; [done |].
  destruct (assignmentStack c) as [|a others] eqn:Ea.
  - intros [= <-]. destruct (add_to_segments r (currentCodePathSegments st) _ M) as [M' H].
    split; [done |]. split; [done |]. split; [exact M' |]. intros x [(id & lv & G & Hx)|Hx].
    + destruct (H _ _ _ G Hx) as [->|Hx']; [by right | by left; left].
    + left. right. exact Hx.
  - unfold ac_add. destruct (ac_add_loop a r _) as [a'|] eqn:Ea'; [| done]. intros [= <-].
    split; [done |]. split; [done |]. split; [exact M |]. intros x [Hx|(c' & b & Hc & Hb & Hx)].
    + left. by left.
    + simpl in Hc. apply elem_of_cons in Hc as [->|Hc].
      * simpl in Hb. apply elem_of_cons in Hb as [->|Hb].
        -- destruct (ac_add_spec _ _ _ _ Ea' _ Hx) as [->|Hx']; [by right |].
           left. right. exists c, a. rewrite Ec, Ea. set_solver.
        -- left. right. exists c, b. rewrite Ec, Ea. set_solver.
      * left. right. exists c', b. rewrite Ec. set_solver.
Qed.

Lemma processReferences_adds refs : forall st st',
  map_ok (liveVariablesMap st) -> processReferences st refs = Ok st' ->
  adds (fun x => x ∈ refs) st st'.
Proof.
  induction refs as [|r refs IH]; intros st st' M; simpl.
  - intros [= <-]. split; [done |]. split; [done |]. split; [done | tauto].
  - destruct (processReference st r) as [st1|] eqn:E; [| done]. simpl. intros E'.
    pose proof (processReference_adds _ _ _ M E) as (A1 & A2 & A3 & A4).
    destruct (IH _ _ A3 E') as (B1 & B2 & B3 & B4).
    split; [congruence |]. split; [congruence |]. split; [done |].
    intros x [[|<-]%A4|Hx]%B4; [by left | right; set_solver | right; set_solver].
Qed.

Lemma adds_inv P st st' :
  rule_inv st -> adds P st st' -> (forall x, P x -> known st x) -> rule_inv st'.
Proof.
  intros [M K] (A1 & A2 & A3 & A4) H. split; [done |]. intros x Hx v Hv.
  rewrite A1, A2. destruct (A4 x Hx) as [Ht|Hp]; [by apply (K x) | by apply (H x)].
Qed.

Lemma popAssignmentContext_inv st st' :
  rule_inv st -> popAssignmentContext st = Ok st' -> rule_inv st'.
Proof.
  intros I. unfold popAssignmentContext.
  destruct (codePathStack st) as [|c rest] eqn:Ec; [done |].
  destruct (assignmentStack c) as [|a others] eqn:Ea; [done |]. cbv zeta.
  set (st1 := set_codePathStack st _).
  assert (T1 : forall x, tracked st1 x -> tracked st x).
  { intros x [Hx|(c' & b & Hc & Hb & Hx)]; [by left |]. right. simpl in Hc.
    apply elem_of_cons in Hc as [->|Hc]; [exists c, b | exists c', b]; rewrite Ec;
      [rewrite Ea |]; set_solver. }
  assert (K1 : forall x, x ∈ ac_lhs a \/ x ∈ ac_rhs a -> tracked st x).
  { intros x Hx. right. exists c, a. rewrite Ec, Ea. set_solver. }
  destruct (processReferences st1 (ac_rhs a)) as [st2|] eqn:E2; [| done]. simpl. intros E3.
  assert (I1 : rule_inv st1).
  { split; [apply I |]. intros x Hx. by apply (ri_known _ I x), T1. }
  assert (I2 : rule_inv st2).
  { eapply adds_inv; [exact I1 | eapply processReferences_adds; [apply I1 | exact E2] |].
    intros x Hx. apply (ri_known _ I x), K1. by right. }
  pose proof (processReferences_adds _ _ _ (ri_map _ I1) E2) as (A1 & A2 & _).
  eapply adds_inv; [exact I2 | eapply processReferences_adds; [apply I2 | exact E3] |].
  intros x Hx v Hv. rewrite A1, A2. apply (ri_known _ I x); [apply K1; by left | done].
Qed.

(** The reads and the usages of a variable are recorded after the reference. *)
Lemma record_usage_inv st st1 r v st' :
  rule_inv st -> adds (fun x => r = Some x) st st1 ->
  (forall x, r = Some x -> resolved x = v) ->
  match v with
  | Some w => updateVariableUsages
                (match r with Some x => updateReadVariables st1 x w | None => st1 end) w
  | None => Ok st1
  end = Ok st' -> rule_inv st'.
Proof.
  intros [M K] (A1 & A2 & A3 & A4) Hr E. destruct v as [w|].
  - unfold updateVariableUsages in E.
    set (st2 := match r with Some x => updateReadVariables st1 x w | None => st1 end) in E.
    assert (S2 : codePathStack st2 = codePathStack st1 /\ liveVariablesMap st2 = liveVariablesMap st1
      /\ variableUsages st2 = variableUsages st1 /\ readVariables st1 ⊆ readVariables st2 /\
      forall x, r = Some x -> isRead x = true -> w ∈ readVariables st2).
    { subst st2. destruct r as [x|]; [unfold updateReadVariables; destruct (isRead x) eqn:R |];
        repeat split; simpl; try done; try (intros y; rewrite ?elem_of_set_add; naive_solver).
      intros y [= <-]. congruence. }
    destruct S2 as (S1 & S2 & S3 & S4 & S5).
    destruct (codePathStack st2) as [|c rest] eqn:Ec; [done |]. injection E as <-.
    split; [simpl; by rewrite S2 |]. intros x Hx. simpl in Hx.
    assert (Hx1 : tracked st1 x).
    { destruct Hx as [Hx|Hx]; [left | right]; simpl in Hx; [by rewrite <- S2 | by rewrite <- S1]. }
    intros u Hu. simpl. destruct (A4 _ Hx1) as [Ht|Hp].
    + destruct (K _ Ht u Hu) as [K1 K2]. rewrite S3, A2. split; [| by apply is_Some_map_set].
      intros R. apply S4. rewrite A1. by apply K1.
    + pose proof (Hr _ Hp) as Hv. rewrite Hv in Hu. simplify_eq. split; [by apply (S5 x) |].
      rewrite map_get_set_eq. by eexists.
  - injection E as <-. split; [done |]. intros x Hx u Hu.
    destruct (A4 _ Hx) as [Ht|Hp]; [rewrite A1, A2; by apply (K x) |].
    rewrite (Hr _ Hp) in Hu. done.
Qed.

Lemma checkIdentifierUsage_inv st r v st' :
  rule_inv st -> (forall x, r = Some x -> resolved x = v) ->
  checkIdentifierUsage st r v = Ok st' -> rule_inv st'.
Proof.
  intros I Hr. unfold checkIdentifierUsage. destruct r as [x|].
  - destruct (processReference st x) as [st1|] eqn:E; [| done]. simpl.
    pose proof (processReference_adds _ _ _ (ri_map _ I) E) as (A1 & A2 & A3 & A4).
    assert (A : adds (fun y => Some x = Some y) st st1).
    { split; [done |]. split; [done |]. split; [done |]. naive_solver. }
    intros E'. apply (record_usage_inv st st1 (Some x) v st' I A Hr). by destruct v.
  - simpl. intros E'. apply (record_usage_inv st st None v st' I); [| done | done].
    split; [done |]. split; [done |]. split; [apply I | tauto].
Qed.

Lemma resolveReferenceRecursively_resolved more n : forall scope r v,
  resolveReferenceRecursively more n scope = (Some r, v) -> resolved (ScopeReference r) = v.
Proof.
  induction more as [|more IH]; intros scope r v; simpl; [done |].
  destruct scope as [i|]; [| done]. destruct (scope_at sm i) as [s|]; [| done].
  destruct (find_reference s n) as [j|]; [by intros [= <- <-] |].
  destruct (find_declared s n); [done | apply IH].
Qed.

(** A change that keeps the maps and the references. *)
Lemma rule_inv_same st st' :
  rule_inv st -> map_ok (liveVariablesMap st') ->
  readVariables st' = readVariables st -> variableUsages st' = variableUsages st ->
  (forall x, tracked st' x -> tracked st x) -> rule_inv st'.
Proof.
  intros [M K] M' A1 A2 T. split; [done |]. intros x Hx v Hv. rewrite A1, A2.
  by apply (K x), Hv; apply T.
Qed.

Lemma segmentStart_inv st s : rule_inv st -> rule_inv (segmentStart st s).
Proof.
  intros I. apply (rule_inv_same st); [done | | done | done |].
  - apply map_ok_set; [apply I | apply built_new | done].
  - intros x [(id & lv & G & Hx)|Hx]; [left | by right].
    apply map_get_set_cases in G as [[-> ->]|[_ G]]; [set_solver | eauto].
Qed.

Lemma handle_inv st e st' : rule_inv st -> handle st e = Ok st' -> rule_inv st'.
Proof.
  intros I. destruct e; simpl.
  - unfold pushAssignmentContext. destruct (codePathStack st) as [|c rest] eqn:Ec; [done |].
    intros [= <-]. apply (rule_inv_same st); try done; [apply I |].
    intros x [Hx|(c' & b & Hc & Hb & Hx)]; [by left |]. right. simpl in Hc.
    apply elem_of_cons in Hc as [->|Hc]; [exists c, b | exists c', b]; rewrite Ec; [| set_solver].
    simpl in Hb. apply elem_of_cons in Hb as [->|Hb]; simpl in Hx; set_solver.
  - by apply popAssignmentContext_inv.
  - destruct (isEnumConstant n); [by intros [= <-] |].
    destruct (resolveReference n) as [r v] eqn:E. apply checkIdentifierUsage_inv; [done |].
    intros x Hx. destruct r as [r|]; simplify_eq/=.
    by eapply resolveReferenceRecursively_resolved.
  - destruct (resolveJSXReference n) as [r v] eqn:E. apply checkIdentifierUsage_inv; [done |].
    intros x ->. unfold resolveJSXReference in E. destruct (isJSXAttributeName n); by simplify_eq/=.
  - intros [= <-]. by apply (rule_inv_same st); try apply I.
  - unfold patternProperty. destruct (destructuringStack st), (resolveReference n).1; try done;
      intros [= <-]; by apply (rule_inv_same st); try apply I.
  - unfold patternRest. destruct (destructuringStack st); try done.
    intros [= <-]; by apply (rule_inv_same st); try apply I.
  - intros [= <-]. unfold objectPatternExit. destruct (destructuringStack st); [done |].
    by apply (rule_inv_same st); try apply I.
  - intros [= <-]. by apply segmentStart_inv.
  - intros [= <-]. by apply (rule_inv_same st); try apply I.
  - intros [= <-]. apply (rule_inv_same st); try done; [apply I |].
    intros x [Hx|(c' & b & Hc & Hb & Hx)]; [by left |]. right. simpl in Hc.
    apply elem_of_cons in Hc as [->|Hc]; simpl in Hb; [set_solver |]. eauto.
  - intros [= <-]. apply (rule_inv_same st); try done; [apply I |].
    intros x [Hx|(c' & b & Hc & Hb & Hx)]; [by left |]. right. exists c', b. simpl in Hc.
    destruct (codePathStack st); set_solver.
Qed.

Lemma handle_all_inv es : forall st st', rule_inv st -> handle_all st es = Ok st' -> rule_inv st'.
Proof.
  induction es as [|e es IH]; intros st st' I; simpl; [by intros [= <-] |].
  destruct (handle st e) as [st1|] eqn:E; [| done]. simpl. by eapply IH, handle_inv.
Qed.

Lemma initial_inv_rule : rule_inv initial_state.
Proof.
  split; [by intros id lv |]. intros x [(id & lv & G & _)|(c & a & Hc & _)]; [done | set_solver].
Qed.

(** ** [checkSegment] against its specification *)

Definition dead_in (refs : list ReferenceLike) (out : list VarId) (pre : list ReferenceLike)
    (r : ReferenceLike) (post : list ReferenceLike) (v : VarId) : Prop :=
  refs = pre ++ r :: post /\ resolved r = Some v /\ isWrite r = true /\
  needed post out v = false.

Lemma needed_snoc_set (w : list VarId) post out :
  (forall v, set_has v w = needed post out v) -> forall r u, resolved r = Some u ->
  forall v, set_has v (let w1 := if isWrite r then set_delete u w else w in
                       if isRead r then set_add u w1 else w1)
            = needed (r :: post) out v.
Proof.
  intros H r u Hu v. simpl. rewrite Hu. cbv zeta.
  destruct (Nat.eqb_spec u v) as [->|Hne].
  - destruct (isRead r); [by apply set_has_spec, elem_of_set_add; left |].
    destruct (isWrite r); [apply set_has_false; rewrite elem_of_set_delete; naive_solver | apply H].
  - rewrite <- H. apply eq_true_iff_eq. rewrite !set_has_spec.
    destruct (isRead r), (isWrite r); rewrite ?elem_of_set_add, ?elem_of_set_delete; naive_solver.
Qed.

Lemma checkSegment_loop_spec st out : forall pre post w l,
  (forall v, set_has v w = needed post out v) ->
  checkSegment_loop st (rev pre) w = Ok l ->
  forall r, r ∈ l <->
    exists p q v, dead_in (pre ++ post) out p r q v /\ (length p < length pre)%nat /\
      shouldReport st r v = Ok true.
Proof.
  induction pre as [|x pre IH] using rev_ind; intros post w l Hw E r.
  - simplify_eq/=. split; [set_solver |]. intros (p & q & v & _ & Hp & _). lia.
  - rewrite rev_app_distr in E. simpl in E.
    rewrite <- app_assoc. simpl. rewrite length_app. simpl.
    assert (Hlast : forall p q v, dead_in (pre ++ x :: post) out p r q v -> length p = length pre ->
      p = pre /\ r = x /\ q = post).
    { intros p q v (Eq & _) Hl. apply app_inj_1 in Eq as [-> Eq]; [| done]. by simplify_eq. }
    destruct (resolved x) as [u|] eqn:Hu.
    + pose proof (needed_snoc_set w post out Hw x u Hu) as Hw'. cbv zeta in E, Hw'.
      destruct (checkSegment_loop _ (rev pre) _) as [more|] eqn:Em.
      2:{ destruct (isWrite x && _); simpl in E; [| done].
          by destruct (shouldReport st x u). }
      specialize (IH _ _ _ Hw' Em r).
      assert (Hx : exists b, l = (if b : bool then [x] else []) ++ more /\
        (b = true <-> isWrite x = true /\ needed post out u = false /\
           shouldReport st x u = Ok true)).
      { destruct (isWrite x) eqn:Wx; simpl in E; [| exists false; simplify_eq; naive_solver].
        rewrite Hw in E. destruct (needed post out u) eqn:Nu; simpl in E;
          [exists false; simplify_eq; naive_solver |].
        destruct (shouldReport st x u) as [b|]; simpl in E; [| done].
        exists b. simplify_eq. destruct b; naive_solver. }
      destruct Hx as (b & -> & Hb). rewrite elem_of_app, IH. split.
      * intros [Hr|(p & q & v & D & Hl & S)]; [| exists p, q, v; split; [done | split; [lia | done]]].
        destruct b; [| set_solver]. apply list_elem_of_singleton in Hr as ->.
        destruct Hb as [Hb _]. destruct (Hb eq_refl) as (? & ? & ?).
        exists pre, post, u. split; [done |]. split; [lia | done].
      * intros (p & q & v & D & Hl & S). destruct (Nat.eq_dec (length p) (length pre)) as [Ep|Ep].
        -- left. destruct (Hlast _ _ _ D Ep) as (-> & -> & ->). destruct D as (_ & Hv & Wx & Nx).
           simplify_eq. assert (b = true) as -> by (by apply Hb). set_solver.
        -- right. exists p, q, v. split; [done |]. split; [lia | done].
    + rewrite (IH (x :: post) w l); [| simpl; by rewrite Hu | done]. split.
      * intros (p & q & v & D & Hl & S). exists p, q, v. split; [done |]. split; [lia | done].
      * intros (p & q & v & D & Hl & S). exists p, q, v. split; [done |]. split; [| done].
        destruct (Nat.eq_dec (length p) (length pre)) as [Ep|Ep]; [| lia].
        destruct (Hlast _ _ _ D Ep) as (-> & -> & ->). destruct D as (_ & Hv & _). congruence.
Qed.

Lemma checkSegment_loop_total st refs : forall w,
  (forall r, r ∈ refs -> known st r) -> exists l, checkSegment_loop st refs w = Ok l.
Proof.
  induction refs as [|r refs IH]; intros w K; simpl; [by eexists |].
  assert (K' : forall x, x ∈ refs -> known st x) by (intros; apply K; set_solver).
  destruct (resolved r) as [v|] eqn:Hv; [| by apply IH].
  assert (S : exists b, shouldReport st r v = Ok b).
  { unfold shouldReport, variableUsedOutsideOfCodePath.
    destruct (shouldReportReference st r); [| by eexists].
    destruct (K r ltac:(set_solver) v Hv) as [_ [u ->]]. simpl. by eexists. }
  destruct S as [b S].
  destruct (IH (if isRead r then set_add v (if isWrite r then set_delete v w else w)
                else if isWrite r then set_delete v w else w) K') as [more ->].
  destruct (isWrite r && negb (set_has v w)); [rewrite S |]; simpl; by eexists.
Qed.

Lemma check_all_total st m :
  (forall id lv r, (id, lv) ∈ m -> r ∈ references lv -> known st r) ->
  exists l, check_all st m = Ok l.
Proof.
  induction m as [|[id lv] m IH]; intros K; simpl; [by eexists |].
  unfold checkSegment.
  destruct (checkSegment_loop_total st (rev (references lv)) (set_add_all [] (out lv))) as [d ->].
  { intros r Hr. rewrite elem_of_rev in Hr. apply (K id lv); [set_solver | done]. }
  destruct IH as [l ->]; [intros; eapply K; [apply elem_of_cons; by right | done] |].
  simpl. by eexists.
Qed.

(** What the checks of all segments report. *)
Lemma check_all_elem st m : forall l r,
  check_all st m = Ok l -> r ∈ l ->
  exists id lv, (id, lv) ∈ m /\
    ((exists d, checkSegment st lv = Ok d /\ r ∈ d) \/ r ∈ reportNeverReadVariables st lv).
Proof.
  induction m as [|[id lv] m IH]; intros l r; simpl; [intros [= <-]; set_solver |].
  destruct (checkSegment st lv) as [d|] eqn:Ed; [| done]. simpl.
  destruct (check_all st m) as [more|]; [| done]. intros [= <-].
  rewrite !elem_of_app. intros [Hr|[Hr|Hr]].
  - exists id, lv. split; [set_solver |]. left. by exists d.
  - exists id, lv. split; [set_solver |]. by right.
  - destruct (IH _ _ eq_refl Hr) as (i & x & Hi & H). exists i, x. split; [set_solver | done].
Qed.

Lemma checkSegment_spec st lv l r :
  checkSegment st lv = Ok l ->
  r ∈ l <-> exists pre post v, dead_in (references lv) (out lv) pre r post v /\
              shouldReport st r v = Ok true.
Proof.
  intros E. rewrite (checkSegment_loop_spec st (out lv) (references lv) []
    (set_add_all [] (out lv)) l); [| | exact E].
  - rewrite app_nil_r. split; [naive_solver |]. intros (p & q & v & D & S).
    exists p, q, v. split; [done |]. split; [| done]. destruct D as [-> _].
    rewrite length_app. simpl. lia.
  - intros v. simpl. apply eq_true_iff_eq. rewrite !set_has_spec, elem_of_set_add_all. set_solver.
Qed.

(** ** What is read next is needed *)

Definition stays (m : Lvs) (refs : list ReferenceLike) (id : string) (v : VarId) : Prop :=
  (exists r, r ∈ refs /\ resolved r = Some v /\ isRead r = true) \/
  ((forall r, r ∈ refs -> resolved r = Some v -> isWrite r = false) /\
   exists lv n, map_get id m = Some lv /\ n ∈ nextSegments (segment lv) /\ live_at m n v).

Lemma read_next_stays m refs id v : map_ok m -> read_next m refs id v -> stays m refs id v.
Proof.
  clear chain. intros M.
  induction 1 as [r rest id v Hv R | r rest id v H _ IH | id lv n lvn v G Hn Gn _ IH].
  - left. exists r. set_solver.
  - destruct IH as [(x & Hx & Hv & R)|[Hw IH]]; [left; exists x; set_solver | right].
    split; [| done]. intros x [->|Hx]%elem_of_cons Hv; [by apply H | by apply (Hw x)].
  - right. split; [set_solver |]. exists lv, n. split; [done |]. split; [done |].
    destruct (M _ _ Gn) as [[Hg Hk] _].
    destruct IH as [Hr|[Hw (l & k & Gl & Hk' & L)]]; [eapply live_here, Hg; done |].
    simplify_eq. eapply live_later; [exact Gn | exact Hk' | | exact L].
    rewrite Hk. intros (r & Hr & Hv & W). by rewrite (Hw r Hr Hv) in W.
Qed.

(** A path that reads the variable holds a read of it. *)
Lemma read_next_reads m refs id v :
  read_next m refs id v ->
  exists r, resolved r = Some v /\ isRead r = true /\
    (r ∈ refs \/ exists i l, map_get i m = Some l /\ r ∈ references l).
Proof.
  clear chain.
  induction 1 as [r rest id v Hv R | r rest id v H _ IH | id lv n lvn v G Hn Gn _ IH].
  - exists r. set_solver.
  - destruct IH as (x & Hv & R & Hx). exists x. set_solver.
  - destruct IH as (x & Hv & R & [Hx|Hx]); exists x; eauto 10.
Qed.

Lemma read_next_needed m refs id v lv out' :
  map_ok m -> map_get id m = Some lv ->
  (forall n x, n ∈ nextSegments (segment lv) -> live_at m n x -> x ∈ out') ->
  read_next m refs id v -> needed refs out' v = true.
Proof.
  clear chain. intros M G Hout. induction refs as [|r refs IH]; intros R.
  - apply read_next_stays in R as [(r & Hr & _)|[_ (l & n & Gl & Hn & L)]]; [set_solver | | done].
    simplify_eq. simpl. apply set_has_spec. by eapply Hout.
  - simpl. inversion R as [? ? ? ? Hv Hr | ? ? ? ? H R' |]; subst.
    + by rewrite Hv, Nat.eqb_refl, Hr.
    + destruct (resolved r) as [w|]; [| by apply IH].
      destruct (Nat.eqb_spec w v) as [->|]; [| by apply IH].
      destruct (H eq_refl) as [-> ->]. by apply IH.
Qed.

End Rule.

(** ** Example: a write in a [finally] block *)

Module FinallyExample.

Definition mk (i : nat) (t : string) (ps : list (string * value)) : node :=
  Node (mkHeader i t None None) ps.
Definition ident (i : nat) (name : string) : node := mk i "Identifier" [("name", VStr name)].

(** [function f() { let x; try { g(); } finally { x = h(); } return x; }]: the
    three occurrences of [x] are the nodes 1, 2 and 3. *)
Definition call : node := mk 11 "CallExpression" [("callee", VNode (ident 4 "h"))].
Definition assignX : node :=
  mk 10 "AssignmentExpression"
    [("operator", VStr "="); ("left", VNode (ident 2 "x")); ("right", VNode call)].
Definition statement : node := mk 12 "ExpressionStatement" [].
Definition function : node := mk 20 "FunctionDeclaration" [].
Definition program : node := mk 30 "Program" [].

Definition scopes : ScopeManager :=
  mkScopeManager
    [mkScope function None [0]%nat [1]%nat;
     mkScope (mk 13 "BlockStatement" []) (Some 0%nat) [] [0]%nat]
    [mkVariable "x" 0 None [mkDef "Variable" None (ident 1 "x") (mk 14 "VariableDeclarator" [])] [0; 1]%nat]
    [mkReference (ident 2 "x") [assignX; statement; function; program] 1 (Some 0%nat)
       (Some call) false false true;
     mkReference (ident 3 "x") [mk 15 "ReturnStatement" []; function; program] 0 (Some 0%nat)
       None false true false]
    (fun n => if Nat.eqb (h_id (hdr n)) 2 then Some 1%nat else Some 0%nat).

Definition chain (i : nat) : list node := [ident i "x"; function; program].

(** ESLint's segments: the [finally] block has one for the normal path and one,
    which leaves the function, for the exceptions of [g()]. *)
Definition s1 : CodePathSegment := mkSegment "s2_1" ["s2_2"; "s2_4"] [].
Definition s2 : CodePathSegment := mkSegment "s2_2" ["s2_3"] ["s2_1"].
Definition s3 : CodePathSegment := mkSegment "s2_3" [] ["s2_2"].
Definition s4 : CodePathSegment := mkSegment "s2_4" [] ["s2_1"].

Definition events : list event :=
  [onCodePathStart "s2"; onCodePathSegmentStart s1;
   IdentifierEnter (ident 1 "x");
   onCodePathSegmentEnd; onCodePathSegmentStart s2;
   onCodePathSegmentEnd; onCodePathSegmentStart s3; onCodePathSegmentStart s4;
   AssignmentEnter assignX; IdentifierEnter (ident 2 "x"); AssignmentExit;
   onCodePathSegmentEnd;
   IdentifierEnter (ident 3 "x");
   onCodePathSegmentEnd; onCodePathEnd].

Definition final : state :=
  match handle_all scopes chain initial_state events with Ok st => st | Throw _ => initial_state end.

Definition exited : state :=
  match programExit scopes chain (lva_fuel (liveVariablesMap final)) final with
  | Ok st => st
  | Throw _ => initial_state
  end.

Lemma final_wf : wf_map (liveVariablesMap final).
Proof.
  let m := eval vm_compute in (liveVariablesMap final) in change (wf_map m).
  split; solve_concrete_map.
Qed.

End FinallyExample.

(** ** Properties *)

(** A reference of ESLint's scopes reads or writes its variable, or both. *)
Definition reads_or_writes (sm : ScopeManager) : Prop :=
  forall i x, reference_at sm i = Some x -> ref_isRead x = true \/ ref_isWrite x = true.

(** No reference of a segment reads the variable. *)
Definition never_read (sm : ScopeManager) (m : Lvs) (v : VarId) : Prop :=
  forall id lv x, map_get id m = Some lv -> x ∈ references lv -> resolved sm x = Some v -> isRead sm x = false.

(** The variable is used in one code path at most. *)
Definition used_in_one_path (st : state) (v : VarId) : Prop :=
  exists usages, map_get v (variableUsages st) = Some usages /\ (length usages <= 1)%nat.

(** A write of a local variable, at some place of a segment, after which no execution reads
    the variable; and either all the uses of the variable are in one code path, or nothing
    reads it at all. *)
Definition dead_store (sm : ScopeManager) (st : state) (r : ReferenceLike) : Prop :=
  exists id lv pre post v,
    map_get id (liveVariablesMap st) = Some lv /\ references lv = pre ++ r :: post /\
    resolved sm r = Some v /\ isWrite sm r = true /\ isLocalVar sm v = true /\
    ~ read_next sm (liveVariablesMap st) post id v /\
    (used_in_one_path st v \/ never_read sm (liveVariablesMap st) v).

Lemma unread_is_write sm r v : reads_or_writes sm -> resolved sm r = Some v -> isRead sm r = false -> isWrite sm r = true.
Proof.
  intros RW. destruct r as [i|i w]; cbn [resolved isRead isWrite]; [| done].
  destruct (reference_at sm i) as [x|] eqn:E; [| done]. intros _ R. destruct (RW i x E); congruence.
Qed.

Lemma reported_is_local sm chain st r v : shouldReportReference sm chain st r = true ->
  resolved sm r = Some v -> isLocalVar sm v = true.
Proof. unfold shouldReportReference. intros H E. rewrite E in H. by repeat apply andb_true_iff in H as [H _]. Qed.

Lemma shouldReport_one_path sm chain st r v : shouldReport sm chain st r v = Ok true ->
  shouldReportReference sm chain st r = true /\ used_in_one_path st v.
Proof.
  unfold shouldReport, variableUsedOutsideOfCodePath, used_in_one_path. destruct (shouldReportReference sm chain st r); [| done].
  destruct (map_get v (variableUsages st)) as [usages|]; [| done]. cbn [rbind]. intros [= [H _]%andb_true_iff]. split; [done |].
  exists usages. split; [done |]. by apply negb_true_iff, Nat.ltb_ge in H.
Qed.

(** C5: once the events of a file are handled, the end of the program does not fail, and
    all that it reports is dead stores: writes of local variables that are in a segment from
    which, after them, no path of segments reaches a read of the variable before a write of
    it; and a variable that is read somewhere has all its uses in one code path. *)
Theorem dead_stores_are_dead sm chain es st :
  reads_or_writes sm ->
  handle_all sm chain initial_state es = Ok st ->
  wf_map (liveVariablesMap st) ->
  exists st', programExit sm chain (lva_fuel (liveVariablesMap st)) st = Ok st' /\
    forall r, r ∈ reports st' -> r ∈ reports st \/ dead_store sm st r.
Proof.
  intros RW E W. pose proof (handle_all_inv sm chain es _ _ (initial_inv_rule sm) E) as [M K].
  destruct (lva_result (liveVariablesMap st) (lva_fuel (liveVariablesMap st)))
    as (m & Em & [Hkeys SG] & Hlive); [done | by intros id lv G; eapply M | done |].
  assert (Back : forall id lv', map_get id m = Some lv' ->
    exists lv, map_get id (liveVariablesMap st) = Some lv /\ same_block lv lv').
  { intros id lv' G. destruct (map_get_dom m (liveVariablesMap st) id) as [lv Gl]; [done | by eexists |].
    destruct (SG _ _ Gl) as (l & G' & B). simplify_eq. by exists lv. }
  assert (ND : NoDup m.*1) by (rewrite <- Hkeys; apply W).
  unfold programExit. rewrite Em. set (st1 := set_liveVariablesMap st m).
  assert (K1 : forall id lv r, (id, lv) ∈ m -> r ∈ references lv -> known sm st1 r).
  { intros id lv' r Hin Hr. apply (elem_map_get _ _ _ ND) in Hin.
    destruct (Back _ _ Hin) as (lv & G & (_ & _ & _ & Er)). rewrite <- Er in Hr.
    intros v Hv. apply (K r); [left; eauto | done]. }
  destruct (check_all_total sm chain st1 m K1) as [l El]. rewrite El. simpl.
  eexists. split; [reflexivity |]. simpl. intros r [Hr|Hr]%elem_of_app; [by left | right].
  destruct (check_all_elem sm chain st1 m l r El Hr) as (id & lv' & Hin & H).
  pose proof (elem_map_get _ _ _ ND Hin) as Hg.
  destruct (Back _ _ Hg) as (lv & G & (Es & _ & _ & Er)). destruct (Hlive _ _ Hg) as [_ Hout].
  destruct H as [(d & Ed & Hd)|Hnever].
  - apply (checkSegment_spec sm chain st1 lv' d r Ed) in Hd as (pre & post & v & (Eq & Hv & Wr & Nn) & Sh).
    destruct (shouldReport_one_path _ _ _ _ _ Sh) as [Sr One].
    exists id, lv, pre, post, v. rewrite Er. do 4 (split; [done |]). split; [by eapply reported_is_local |].
    split; [| by left]. intros R. enough (needed sm post (out lv') v = true) by congruence.
    eapply read_next_needed; [exact M | exact G | | exact R].
    intros n x Hn L. apply Hout. exists n. by rewrite <- Es.
  - unfold reportNeverReadVariables in Hnever.
    apply list_elem_of_In, filter_In in Hnever as [Hr' Hb]. apply andb_true_iff in Hb as [Hs Hb].
    assert (exists v, resolved sm r = Some v) as [v Hv]
      by (unfold shouldReportReference in Hs; destruct (resolved sm r) as [v|]; [by exists v | done]).
    rewrite Hv in Hb. apply negb_true_iff, set_has_false in Hb.
    assert (never_read sm (liveVariablesMap st) v) as Never.
    { intros i l0 x Gi Hx Hvx. destruct (isRead sm x) eqn:Rx; [| done]. destruct Hb. apply (K x); [left; eauto | done | done]. }
    apply list_elem_of_In in Hr'. rewrite <- Er in Hr'. pose proof (Never id lv r G Hr' Hv) as Ur.
    apply list_elem_of_split in Hr' as (pre & post & Eq).
    exists id, lv, pre, post, v. do 3 (split; [done |]). split; [by eapply unread_is_write |].
    split; [by eapply reported_is_local |]. split; [| by right]. intros R.
    destruct (read_next_reads sm _ _ _ _ R) as (x & Hvx & Rx & [Hx|(i & l0 & Gi & Hx)]).
    + rewrite (Never id lv x G) in Rx; [done | | done]. rewrite Eq. set_solver.
    + by rewrite (Never i l0 x Gi Hx Hvx) in Rx.
Qed.

(** C6: [checkSegment] reports exactly the writes of its segment whose variable
    is not needed after them (the first later reference of the segment to it is
    not a read, and it is not in [out] when there is none) and that
    [shouldReport] lets through. *)
Theorem checkSegment_reports_exactly sm chain st lv l r :
  checkSegment sm chain st lv = Ok l ->
  r ∈ l <-> exists pre post v,
    references lv = pre ++ r :: post /\ resolved sm r = Some v /\ isWrite sm r = true /\
    needed sm post (out lv) v = false /\ shouldReport sm chain st r v = Ok true.
Proof.
  intros E. rewrite (checkSegment_spec sm chain st lv l r E). unfold dead_in. naive_solver.
Qed.

(** The rule reports a write of a [finally] block whose value is read: the
    write is a reference of both segments ESLint makes of the block, it is dead
    on the one that leaves the function, and one is enough for a report. *)
Theorem finally_write_reported :
  reports FinallyExample.exited = [ScopeReference 0] /\
  exists lv post,
    map_get "s2_3" (liveVariablesMap FinallyExample.exited) = Some lv /\
    references lv = ScopeReference 0 :: post /\
    resolved FinallyExample.scopes (ScopeReference 0) = Some 0%nat /\
    read_next FinallyExample.scopes (liveVariablesMap FinallyExample.exited) post "s2_3" 0%nat.
Proof.
  split; [reflexivity |]. exists (default (newLiveVariables FinallyExample.s3)
    (map_get "s2_3" (liveVariablesMap FinallyExample.exited))).
  eexists. split; [reflexivity |]. split; [reflexivity |]. split; [reflexivity |].
  by apply rn_read.
Qed.

(** ** Witnesses *)

Lemma dead_stores_are_dead_witness :
  exists st', programExit FinallyExample.scopes FinallyExample.chain
      (lva_fuel (liveVariablesMap FinallyExample.final)) FinallyExample.final = Ok st' /\
    forall r, r ∈ reports st' -> r ∈ reports FinallyExample.final \/ dead_store FinallyExample.scopes FinallyExample.final r.
Proof.
  apply (dead_stores_are_dead FinallyExample.scopes FinallyExample.chain FinallyExample.events
           FinallyExample.final).
  - intros [|[|i]] x; cbn; intros [= <-]; cbn; auto.
  - by vm_compute.
  - exact FinallyExample.final_wf.
Defined.

(** The segment that leaves the function. *)
Lemma checkSegment_reports_exactly_witness :
  exists lv, checkSegment FinallyExample.scopes FinallyExample.chain FinallyExample.exited lv
               = Ok [ScopeReference 0] /\
    exists pre post v,
      references lv = pre ++ ScopeReference 0 :: post /\
      resolved FinallyExample.scopes (ScopeReference 0) = Some v /\
      isWrite FinallyExample.scopes (ScopeReference 0) = true /\
      needed FinallyExample.scopes post (out lv) v = false /\
      shouldReport FinallyExample.scopes FinallyExample.chain FinallyExample.exited
        (ScopeReference 0) v = Ok true.
Proof.
  exists (default (newLiveVariables FinallyExample.s4)
    (map_get "s2_4" (liveVariablesMap FinallyExample.exited))).
  split; [reflexivity |].
  apply (checkSegment_reports_exactly FinallyExample.scopes FinallyExample.chain
    FinallyExample.exited (default (newLiveVariables FinallyExample.s4)
      (map_get "s2_4" (liveVariablesMap FinallyExample.exited))) [ScopeReference 0]).
  - reflexivity.
  - set_solver.
Defined.
