(* ===== verification/RedundantAssign.v ===== *)
(** * RedundantAssign: the rule S4165 (redundant assignments)

    The code of [packages/jsts/src/rules/S4165/rule.ts]: the state the rule
    keeps between ESLint's events, one operation per handler, and the check of
    each segment against the reaching definitions when the program ends. *)

From Stdlib Require Import ZArith Lia QArith.
From stdpp Require Import base list gmap strings.
From S2P Require Import Prelude Estree Ast Lva ReachingDefs.

(** What the handlers can throw. *)
Inductive s4165_error :=
| PeekUndefined             (* a property of [undefined] after [peek] or [pop] *)
| NoAssignmentSide          (* 'failed to find assignment lhs/rhs' *)
| NoUsages                  (* [variableUsages.get(variable)!.size] *)
| FlowError (e : flow_error).

(** [AssignmentContext] *)
Record AssignmentContext := mkAssignmentContext {
  ac_node : node;
  ac_lhs : list RefId;
  ac_rhs : list RefId
}.

(** [CodePathContext]; the head of a stack is its top. *)
Record CodePathContext := mkCodePathContext {
  codePath_id : string;
  assignmentStack : list AssignmentContext
}.

(** The variables [create] closes over; a report is the reference, the value
    and the name it shows. *)
Record state := mkState {
  codePathStack : list CodePathContext;
  reachingDefsMap : RdMap;
  variableUsages : list (VarId * list string);
  codePathSegments : list (list CodePathSegment);
  currentCodePathSegments : list CodePathSegment
}.

Definition initial_state : state := mkState [] [] [] [] [].

Inductive event :=
| AssignmentEnter (n : node)
| AssignmentExit
| IdentifierEnter (n : node)
| onCodePathSegmentStart (s : CodePathSegment)
| onCodePathSegmentEnd
| onCodePathStart (id : string)
| onCodePathEnd.

Section Rule.
Context (sm : ScopeManager).
(** A node of that identity, followed by its ancestors. *)
Context (chain : nat -> list node).

(** ** Assignments and references *)

Definition isRhs (ac : AssignmentContext) (n : node) : bool :=
  let k := if type_of (ac_node ac) =s "AssignmentExpression" then "right" else "init" in
  match get_node (ac_node ac) k with Some x => same_node x n | None => false end.

Definition isLhs (ac : AssignmentContext) (n : node) : bool :=
  let k := if type_of (ac_node ac) =s "AssignmentExpression" then "left" else "id" in
  match get_node (ac_node ac) k with Some x => same_node x n | None => false end.

Fixpoint ac_add_loop (ac : AssignmentContext) (ref : RefId) (parents : list node)
  : result s4165_error AssignmentContext :=
  match parents with
  | [] => Throw NoAssignmentSide
  | parent :: rest =>
      if isLhs ac parent
      then Ok (mkAssignmentContext (ac_node ac) (set_add ref (ac_lhs ac)) (ac_rhs ac))
      else if isRhs ac parent
      then Ok (mkAssignmentContext (ac_node ac) (ac_lhs ac) (set_add ref (ac_rhs ac)))
      else ac_add_loop ac ref rest
  end.

(** [assignment.add(ref)] *)
Definition ac_add (ac : AssignmentContext) (ref : RefId) : result s4165_error AssignmentContext :=
  ac_add_loop ac ref (match reference_at sm ref with
                      | Some r => ref_identifier r :: ref_parents r
                      | None => []
                      end).

Definition set_codePathStack (st : state) (s : list CodePathContext) : state :=
  mkState s (reachingDefsMap st) (variableUsages st) (codePathSegments st)
    (currentCodePathSegments st).

Definition pushAssignmentContext (st : state) (n : node) : result s4165_error state :=
  match codePathStack st with
  | [] => Throw PeekUndefined
  | c :: rest =>
      Ok (set_codePathStack st
            (mkCodePathContext (codePath_id c)
               (mkAssignmentContext n [] [] :: assignmentStack c) :: rest))
  end.

(** [reachingDefsForSegment(segment).add(ref)] *)
Definition add_to_segment (ref : RefId) (m : RdMap) (segment : CodePathSegment) : RdMap :=
  let defs := default (newReachingDefinitions segment) (map_get (seg_id segment) m) in
  map_set (seg_id segment) (rd_add sm defs ref) m.

Definition processReference (st : state) (ref : RefId) : result s4165_error state :=
  match codePathStack st with
  | [] => Throw PeekUndefined
  | c :: rest =>
      match assignmentStack c with
      | assignment :: others =>
          let! assignment' := ac_add assignment ref in
          Ok (set_codePathStack st
                (mkCodePathContext (codePath_id c) (assignment' :: others) :: rest))
      | [] =>
          Ok (mkState (codePathStack st)
                (fold_left (add_to_segment ref) (currentCodePathSegments st) (reachingDefsMap st))
                (variableUsages st) (codePathSegments st) (currentCodePathSegments st))
      end
  end.

Fixpoint processReferences (st : state) (refs : list RefId) : result s4165_error state :=
  match refs with
  | [] => Ok st
  | r :: rest => let! st' := processReference st r in processReferences st' rest
  end.

Definition popAssignmentContext (st : state) : result s4165_error state :=
  match codePathStack st with
  | [] => Throw PeekUndefined
  | c :: rest =>
      match assignmentStack c with
      | [] => Throw PeekUndefined
      | assignment :: others =>
          let st1 := set_codePathStack st (mkCodePathContext (codePath_id c) others :: rest) in
          let! st2 := processReferences st1 (ac_rhs assignment) in
          processReferences st2 (ac_lhs assignment)
      end
  end.

(** [resolveReferenceRecursively(node, scope)]; the chain of upper scopes is not
    longer than the table of scopes. *)
Fixpoint resolveReferenceRecursively (fuel : nat) (n : node) (scope : option ScopeId)
  : option RefId * option VarId :=
  match fuel, scope with
  | S fuel', Some i =>
      match scope_at sm i with
      | Some s =>
          match List.find (fun r => match reference_at sm r with
                                    | Some x => same_node (ref_identifier x) n
                                    | None => false
                                    end) (sco_references s) with
          | Some r => (Some r, match reference_at sm r with
                               | Some x => ref_resolved x
                               | None => None
                               end)
          | None =>
              match List.find (fun v => match variable_at sm v with
                                | Some x => existsb (fun d => same_node (def_name d) n) (var_defs x)
                                | None => false
                                end) (sco_variables s) with
              | Some v => (None, Some v)
              | None => resolveReferenceRecursively fuel' n (sco_upper s)
              end
          end
      | None => (None, None)
      end
  | _, _ => (None, None)
  end.

Definition resolveReference (n : node) : option RefId * option VarId :=
  resolveReferenceRecursively (length (sm_scopes sm)) n (sm_getScope sm n).

Definition updateVariableUsages (st : state) (variable : VarId) : result s4165_error state :=
  match codePathStack st with
  | [] => Throw PeekUndefined
  | c :: _ =>
      let usages := default [] (map_get variable (variableUsages st)) in
      Ok (mkState (codePathStack st) (reachingDefsMap st)
            (map_set variable (set_add (codePath_id c) usages) (variableUsages st))
            (codePathSegments st) (currentCodePathSegments st))
  end.

Definition checkIdentifierUsage (st : state) (n : node) : result s4165_error state :=
  let '(ref, variable) := resolveReference n in
  let! st1 := match ref with Some r => processReference st r | None => Ok st end in
  match variable with Some v => updateVariableUsages st1 v | None => Ok st1 end.

Definition isEnumConstant (n : node) : bool :=
  existsb (fun a => type_of a =s "TSEnumDeclaration") (List.tl (chain (h_id (hdr n)))).

(** ** Code path events *)

Definition segmentStart (st : state) (s : CodePathSegment) : state :=
  mkState (codePathStack st) (map_set (seg_id s) (newReachingDefinitions s) (reachingDefsMap st))
    (variableUsages st) (codePathSegments st) (currentCodePathSegments st ++ [s]).

Definition segmentEnd (st : state) : state :=
  mkState (codePathStack st) (reachingDefsMap st) (variableUsages st) (codePathSegments st)
    (pop (currentCodePathSegments st)).2.

Definition codePathStart (st : state) (id : string) : state :=
  mkState (mkCodePathContext id [] :: codePathStack st) (reachingDefsMap st) (variableUsages st)
    (currentCodePathSegments st :: codePathSegments st) [].

Definition codePathEnd (st : state) : state :=
  mkState (List.tl (codePathStack st)) (reachingDefsMap st) (variableUsages st)
    (List.tl (codePathSegments st)) (default [] (head (codePathSegments st))).

Definition handle (st : state) (e : event) : result s4165_error state :=
  match e with
  | AssignmentEnter n => pushAssignmentContext st n
  | AssignmentExit => popAssignmentContext st
  | IdentifierEnter n => if isEnumConstant n then Ok st else checkIdentifierUsage st n
  | onCodePathSegmentStart s => Ok (segmentStart st s)
  | onCodePathSegmentEnd => Ok (segmentEnd st)
  | onCodePathStart id => Ok (codePathStart st id)
  | onCodePathEnd => Ok (codePathEnd st)
  end.

Fixpoint handle_all (st : state) (es : list event) : result s4165_error state :=
  match es with
  | [] => Ok st
  | e :: rest => let! st' := handle st e in handle_all st' rest
  end.

(** ** What is reported *)

(** [node.parent] of an expression. *)
Definition parent_of (n : node) : option node :=
  match chain (h_id (hdr n)) with _ :: p :: _ => Some p | _ => None end.

Definition isCompoundAssignment (writeExpr : option node) : bool :=
  match writeExpr with
  | Some e =>
      match parent_of e with
      | Some p => (type_of p =s "AssignmentExpression") && negb (str_prop_is p "operator" "=")
      | None => false
      end
  | None => false
  end.

Definition isSelfAssignement (r : Reference) : bool :=
  match ref_writeExpr r with
  | Some e =>
      if type_of e =s "Identifier" then
        match ref_resolved r, getVariableFromIdentifier sm e (ref_from r) with
        | Some lhs, Some rhs => Nat.eqb lhs rhs
        | _, _ => false
        end
      else false
  | None => false
  end.

Definition isDefaultParameter (r : Reference) : bool :=
  (type_of (ref_identifier r) =s "Identifier")
  && opt_type_is (head (ref_parents r)) "AssignmentPattern".

Definition isWrittenOnlyOnce (v : VarId) : bool :=
  match variable_at sm v with
  | Some x => Nat.eqb (length (write_references sm x)) 1
  | None => false
  end.

Definition shouldReportReference (r : Reference) : bool :=
  match ref_resolved r with
  | Some v =>
      match variable_at sm v with
      | Some x =>
          negb (isDefaultParameter r)
          && negb (String.prefix "_" (var_name x))
          && negb (isCompoundAssignment (ref_writeExpr r))
          && negb (isSelfAssignement r)
          && negb (existsb (fun d => (def_type d =s "Parameter")
                     || ((def_type d =s "Variable") && negb (truthy (get (def_node d) "init"))))
                     (var_defs x))
      | None => false
      end
  | None => false
  end.

Definition shouldReport (st : state) (r : Reference) (v : VarId) : result s4165_error bool :=
  if shouldReportReference r then
    match map_get v (variableUsages st) with
    | Some usages => Ok (negb (Nat.ltb 1 (length usages)))
    | None => Throw NoUsages
    end
  else Ok false.

(** [checkRedundantAssignement]: whether the assignment is reported. *)
Definition checkRedundantAssignement (v : VarId) (lhsVal : string) (rhsValues : Values) : bool :=
  match rhsValues with
  | AssignedValues [rhsVal] => negb (isWrittenOnlyOnce v) && (lhsVal =s rhsVal)
  | _ => false
  end.

(** The loop of [checkSegment]; [map] is [assignedValuesMap]. *)
Fixpoint checkSegment_loop (st : state) (refs : list RefId) (map : ProgramState)
  : result s4165_error (list RefId) :=
  match refs with
  | [] => Ok []
  | ref :: rest =>
      match reference_at sm ref with
      | None => checkSegment_loop st rest map
      | Some r =>
          match ref_resolved r with
          | None => checkSegment_loop st rest map
          | Some v =>
              if negb (ref_isWrite r) then checkSegment_loop st rest map
              else
                let! b := shouldReport st r v in
                if negb b then checkSegment_loop st rest map
                else
                  let rhsValues := resolveAssignedValues sm v (ref_writeExpr r) map (ref_from r) in
                  let reported :=
                    match map_get v map with
                    | Some (AssignedValues [lhsVal]) => checkRedundantAssignement v lhsVal rhsValues
                    | _ => false
                    end in
                  let! more := checkSegment_loop st rest (map_set v rhsValues map) in
                  Ok ((if reported then [ref] else []) ++ more)
          end
      end
  end.

Definition checkSegment (st : state) (rd : ReachingDefinitions) : result s4165_error (list RefId) :=
  checkSegment_loop st (rd_references rd) (rd_in rd).

Fixpoint check_all (st : state) (m : RdMap) : result s4165_error (list RefId) :=
  match m with
  | [] => Ok []
  | (_, rd) :: rest =>
      let! found := checkSegment st rd in
      let! more := check_all st rest in
      Ok (found ++ more)
  end.

(** ['Program:exit']: the reports, and the state the rule leaves. *)
Definition programExit (fuel : nat) (st : state) : result s4165_error (list RefId * state) :=
  match reachingDefinitions sm fuel (reachingDefsMap st) with
  | Throw e => Throw (FlowError e)
  | Ok m =>
      let! found := check_all st m in
      Ok (found, mkState [] [] [] (codePathSegments st) (currentCodePathSegments st))
  end.

(** ** What a report means *)

(** Every write among the references is checked: none is skipped by
    [shouldReport]. *)
Definition all_checked (st : state) (refs : list RefId) : Prop :=
  forall ref r v, ref ∈ refs -> reference_at sm ref = Some r -> ref_resolved r = Some v ->
    ref_isWrite r = true -> shouldReport st r v = Ok true.

(** The reference is a write of a variable that is written several times, with a literal
    [raw]: in every execution of the references [pre] from a store that [entry] admits, the variable
    holds this literal once something is assigned to it, and the literal is also what the
    expression that is written gives, unless it is a variable to which nothing is assigned. *)
Definition redundant_after (entry : store -> Prop) (pre : list RefId) (ref : RefId) : Prop :=
  exists r v raw, reference_at sm ref = Some r /\ ref_resolved r = Some v /\ ref_isWrite r = true /\
    isWrittenOnlyOnce v = false /\
    forall s s', entry s -> exec_refs sm s pre s' ->
      (s' v <> Unassigned -> s' v = HoldsLiteral raw) /\
      (forall e h, ref_writeExpr r = Some e -> may_be sm s' r e h -> h <> Unassigned -> h = HoldsLiteral raw).

Lemma admits_singleton raw h :
  admits (Some (AssignedValues [raw])) h -> h <> Unassigned -> h = HoldsLiteral raw.
Proof. destruct h as [|x|n]; simpl; [done | | done]. by intros ->%list_elem_of_singleton. Qed.

Lemma updateProgramState_write map ref r v :
  reference_at sm ref = Some r -> ref_resolved r = Some v -> ref_isWrite r = true ->
  updateProgramState sm map ref
  = map_set v (resolveAssignedValues sm v (ref_writeExpr r) map (ref_from r)) map.
Proof.
  intros Er Ev Ew. unfold updateProgramState. rewrite Er, Ev, Ew. simpl.
  by destruct (ref_writeExpr r).
Qed.

Lemma updateProgramState_skip map ref :
  (forall r v, reference_at sm ref = Some r -> ref_resolved r = Some v -> ref_isWrite r = false) ->
  updateProgramState sm map ref = map.
Proof.
  intros H. unfold updateProgramState. destruct (reference_at sm ref) as [r|]; [| done].
  destruct (ref_resolved r) as [v|] eqn:Ev; [| done]. by rewrite (H r v).
Qed.

(** When no write is skipped the loop follows the transfer of the analysis. *)
Lemma checkSegment_loop_redundant st : forall refs map found done_ s0,
  all_checked st refs -> plain_writes sm (done_ ++ refs) -> map = transfer sm done_ s0 ->
  checkSegment_loop st refs map = Ok found ->
  forall ref, ref ∈ found ->
    exists pre post, refs = pre ++ ref :: post /\ redundant_after (covers s0) (done_ ++ pre) ref.
Proof.
  induction refs as [|x refs IH]; intros map found dn s0 C P -> E ref Hin; simpl in E.
  { simplify_eq. set_solver. }
  assert (Step : forall found', checkSegment_loop st refs (updateProgramState sm (transfer sm dn s0) x)
      = Ok found' -> ref ∈ found' ->
    exists pre post, x :: refs = pre ++ ref :: post /\ redundant_after (covers s0) (dn ++ pre) ref).
  { intros found' E' Hin'. destruct (IH (updateProgramState sm (transfer sm dn s0) x) found'
      (dn ++ [x]) s0) with (ref := ref) as (pre & post & -> & R); try done.
    - intros y r v Hy. apply C. set_solver.
    - by rewrite <- app_assoc.
    - unfold transfer. by rewrite fold_left_app.
    - exists (x :: pre), post. split; [done |]. by rewrite <- app_assoc in R. }
  destruct (reference_at sm x) as [r|] eqn:Er.
  2:{ apply (Step found); [| done]. rewrite updateProgramState_skip; [done |]. naive_solver congruence. }
  destruct (ref_resolved r) as [v|] eqn:Ev.
  2:{ apply (Step found); [| done]. rewrite updateProgramState_skip; [done |]. naive_solver congruence. }
  destruct (ref_isWrite r) eqn:Ew; simpl in E.
  2:{ apply (Step found); [| done]. rewrite updateProgramState_skip; [done |]. naive_solver congruence. }
  rewrite (C x r v ltac:(set_solver) Er Ev Ew) in E. simpl in E.
  destruct (checkSegment_loop st refs _) as [more|] eqn:Em; [| done]. simpl in E. simplify_eq.
  apply elem_of_app in Hin as [Hin|Hin];
    [| by apply (Step more); [rewrite (updateProgramState_write _ x r v) |]].
  destruct (map_get v (transfer sm dn s0)) as [[[|lhsVal [|]]|]|] eqn:G; try set_solver.
  destruct (checkRedundantAssignement v lhsVal _) eqn:Ck; [| set_solver].
  apply list_elem_of_singleton in Hin as ->. exists [], refs. split; [done |].
  rewrite app_nil_r. unfold checkRedundantAssignement in Ck.
  destruct (resolveAssignedValues sm v (ref_writeExpr r) _ _) as [[|rhsVal [|]]|] eqn:Rv; try done.
  split_bools. subst rhsVal. exists r, v, lhsVal. do 4 (split; [done |]). intros s s' Cov X.
  assert (Cs : covers (transfer sm dn s0) s').
  { eapply exec_refs_covers; [exact X | | exact Cov]. intros y r' v' Hy. apply P. set_solver. }
  split.
  - apply admits_singleton. specialize (Cs v). by rewrite G in Cs.
  - intros e h Ee M. apply admits_singleton. rewrite <- Rv, Ee. by eapply resolveAssignedValues_admits.
Qed.

Lemma checked_segments_elem st m : forall found ref, check_all st m = Ok found -> ref ∈ found ->
  exists id rd l, (id, rd) ∈ m /\ checkSegment st rd = Ok l /\ ref ∈ l.
Proof.
  induction m as [|[i rd] m IH]; intros found ref; cbn [check_all]; [intros [= <-]; set_solver |].
  intros (l & E & (more & Em & [= <-])%rbind_ok)%rbind_ok [H|H]%elem_of_app.
  - exists i, rd, l. set_solver.
  - destruct (IH more ref Em H) as (i' & rd' & l' & H1 & H2). exists i', rd', l'. set_solver.
Qed.

End Rule.

(** ** Example: a compound assignment *)

Module CompoundExample.
Import RdExample.

Definition mk (i : nat) (t : string) (ps : list (string * value)) : node :=
  Node (mkHeader i t None None) ps.
Definition function : node := mk 50 "FunctionDeclaration" [].
Definition program : node := mk 51 "Program" [].

(** [function f() { let x = 1; use(x); x += 1; use(x); x = 1; return x; }] *)
Definition declaratorX : node :=
  mk 20 "VariableDeclarator" [("id", VNode (ident 1 "x")); ("init", VNode (literal 2 "1"))].
Definition plusX : node := assignment 21 "+=" (ident 4 "x") (literal 5 "1").
Definition assignX : node := assignment 22 "=" (ident 7 "x") (literal 8 "1").

Definition scopes : ScopeManager :=
  mkScopeManager
    [mkScope function None [0]%nat [0; 1; 2; 3; 4; 5]%nat]
    [mkVariable "x" 0 None [mkDef "Variable" None (ident 1 "x") declaratorX] [0; 1; 2; 3; 4; 5]%nat]
    [mkReference (ident 1 "x") [declaratorX; function; program] 0 (Some 0%nat)
       (Some (literal 2 "1")) true false true;
     read_ref 0 (ident 3 "x");
     mkReference (ident 4 "x") [plusX; function; program] 0 (Some 0%nat)
       (Some (literal 5 "1")) false true true;
     read_ref 0 (ident 6 "x");
     mkReference (ident 7 "x") [assignX; function; program] 0 (Some 0%nat)
       (Some (literal 8 "1")) false false true;
     read_ref 0 (ident 9 "x")]
    (fun _ => Some 0%nat).

Definition chain (i : nat) : list node :=
  match i with
  | 2%nat => [literal 2 "1"; declaratorX; function; program]
  | 5%nat => [literal 5 "1"; plusX; function; program]
  | 8%nat => [literal 8 "1"; assignX; function; program]
  | _ => [ident i "x"; function; program]
  end.

Definition s1 : CodePathSegment := mkSegment "s2_1" [] [].

Definition events : list event :=
  [onCodePathStart "s2"; onCodePathSegmentStart s1;
   AssignmentEnter declaratorX; IdentifierEnter (ident 1 "x"); AssignmentExit;
   IdentifierEnter (ident 3 "x");
   AssignmentEnter plusX; IdentifierEnter (ident 4 "x"); AssignmentExit;
   IdentifierEnter (ident 6 "x");
   AssignmentEnter assignX; IdentifierEnter (ident 7 "x"); AssignmentExit;
   IdentifierEnter (ident 9 "x");
   onCodePathSegmentEnd; onCodePathEnd].

(** The same function without the compound assignment. *)
Definition plainEvents : list event :=
  [onCodePathStart "s2"; onCodePathSegmentStart s1;
   AssignmentEnter declaratorX; IdentifierEnter (ident 1 "x"); AssignmentExit;
   IdentifierEnter (ident 3 "x");
   AssignmentEnter assignX; IdentifierEnter (ident 7 "x"); AssignmentExit;
   IdentifierEnter (ident 9 "x");
   onCodePathSegmentEnd; onCodePathEnd].

Definition run (es : list event) : state :=
  match handle_all scopes chain initial_state es with Ok st => st | Throw _ => initial_state end.

Definition segment1 (es : list event) : ReachingDefinitions :=
  default (newReachingDefinitions s1) (map_get "s2_1" (reachingDefsMap (run es))).

Lemma plain_wf : rd_wf (reachingDefsMap (run plainEvents)).
Proof.
  let m := eval vm_compute in (reachingDefsMap (run plainEvents)) in change (rd_wf m).
  split; solve_concrete_map.
Qed.

Lemma plain_checked id rd : map_get id (reachingDefsMap (run plainEvents)) = Some rd ->
  plain_writes scopes (rd_references rd) /\ all_checked scopes chain (run plainEvents) (rd_references rd).
Proof.
  intros G. assert (rd = segment1 plainEvents) as ->.
  { apply map_get_Some_elem in G. let m := eval vm_compute in (reachingDefsMap (run plainEvents)) in change ((id, rd) ∈ m) in G.
    apply list_elem_of_singleton in G. by injection G as _ ->. }
  split; intros ref r v Hr Ge Hv W; vm_compute in Hr; set_unfold; destruct_or!; subst; vm_compute in Ge; simplify_eq;
    try discriminate W; try (injection Hv as <-); reflexivity.
Qed.

End CompoundExample.

(** ** Properties *)


(** On [let x = 1; use(x); x += 1; use(x); x = 1;] the rule reports the last
    assignment, although the compound assignment gave [x] another value: a write
    that [shouldReport] skips leaves the value known before it. *)
Theorem compound_assignment_false_report :
  (exists st, programExit CompoundExample.scopes CompoundExample.chain 10
     (CompoundExample.run CompoundExample.events) = Ok ([4%nat], st)) /\
  exists s, exec_refs CompoundExample.scopes (fun _ => Unassigned) [0; 1; 2; 3]%nat s /\
    s 0%nat = HoldsOther 2.
Proof.
  split; [eexists; by vm_compute |].
  exists (assign (assign (fun _ => Unassigned) 0%nat (HoldsLiteral "1")) 0%nat (HoldsOther 2)).
  split; [| done].
  eapply exec_cons; [eapply exec_write; [reflexivity.. |] |].
  { intros e _ [= <-]. by intros _. }
  eapply exec_cons; [apply exec_none; intros r v [= <-]; done |].
  eapply exec_cons; [eapply exec_write; [reflexivity.. |]; done |].
  eapply exec_cons; [apply exec_none; intros r v [= <-]; done |]. apply exec_nil.
Qed.

(** ** Witness *)

