(* ===== verification/Protobuf.v ===== *)
(** * Protobuf: the shape of a tree sent to the plugin

    The code of [packages/jsts/src/parsers/ast.ts]: the object built for each
    kind of node ([visitProgram] and the others), the dispatch on the type of
    the node ([getProtobufShapeForNode]) and the recursion [visitNode], with the
    schema of [packages/jsts/src/parsers/estree.proto], which says what a
    protobuf message can carry. The encoder of protobufjs, which drops the keys
    the schema does not have, is not modelled; logging neither. *)

From Stdlib Require Import QArith ZArith Lia Ascii String.
From stdpp Require Import base list gmap strings.
From S2P Require Import Prelude Estree.

Local Open Scope Z_scope.
Local Open Scope string_scope.

(** ** The schema *)

(** [enum NodeType] *)
Definition NODE_TYPE_ENUM : list (string * Z) :=
  [("ProgramType", 0); ("ExportAllDeclarationType", 1); ("IdentifierType", 2);
   ("ExportDefaultDeclarationType", 3); ("YieldExpressionType", 4);
   ("UpdateExpressionType", 5); ("UnaryExpressionType", 6); ("ThisExpressionType", 7);
   ("TemplateLiteralType", 8); ("TaggedTemplateExpressionType", 9);
   ("SequenceExpressionType", 10); ("ObjectExpressionType", 11); ("SpreadElementType", 12);
   ("PropertyType", 13); ("AssignmentPatternType", 14); ("RestElementType", 15);
   ("ArrayPatternType", 16); ("ObjectPatternType", 17); ("PrivateIdentifierType", 18);
   ("NewExpressionType", 19); ("SuperType", 20); ("MetaPropertyType", 21);
   ("MemberExpressionType", 22); ("LogicalExpressionType", 23);
   ("ImportExpressionType", 24); ("BlockStatementType", 25);
   ("ConditionalExpressionType", 26); ("ClassExpressionType", 27); ("ClassBodyType", 28);
   ("StaticBlockType", 29); ("PropertyDefinitionType", 30); ("MethodDefinitionType", 31);
   ("ChainExpressionType", 32); ("CallExpressionType", 33); ("BinaryExpressionType", 34);
   ("AwaitExpressionType", 35); ("AssignmentExpressionType", 36);
   ("ArrowFunctionExpressionType", 37); ("ArrayExpressionType", 38);
   ("ClassDeclarationType", 39); ("FunctionDeclarationType", 40);
   ("ExportNamedDeclarationType", 41); ("ExportSpecifierType", 42);
   ("VariableDeclarationType", 43); ("VariableDeclaratorType", 44);
   ("ImportDeclarationType", 45); ("ImportNamespaceSpecifierType", 46);
   ("ImportDefaultSpecifierType", 47); ("ImportSpecifierType", 48);
   ("ForOfStatementType", 49); ("ForInStatementType", 50); ("ForStatementType", 51);
   ("DoWhileStatementType", 52); ("WhileStatementType", 53); ("TryStatementType", 54);
   ("CatchClauseType", 55); ("ThrowStatementType", 56); ("SwitchStatementType", 57);
   ("SwitchCaseType", 58); ("IfStatementType", 59); ("ContinueStatementType", 60);
   ("BreakStatementType", 61); ("LabeledStatementType", 62); ("ReturnStatementType", 63);
   ("WithStatementType", 64); ("DebuggerStatementType", 65); ("EmptyStatementType", 66);
   ("ExpressionStatementType", 67); ("LiteralType", 68); ("TemplateElementType", 69);
   ("FunctionExpressionType", 70); ("ExportAssignmentType", 71); ("UnknownNodeType", 1000)].

Definition UnknownNodeType : Z := 1000.

(** What a field of a message holds. *)
Inductive fkind :=
| FString        (* [string] *)
| FBool          (* [bool] *)
| FInt32         (* [int32] *)
| FNode          (* a node, possibly not set *)
| FNodes         (* [repeated Node] *)
| FElements      (* [repeated ArrayElement] *)
| FElement.      (* [ArrayElement] *)

(** [oneof node]: the field of [message Node] and its message. *)
Definition node_oneof : list (string * string) :=
  [("program", "Program"); ("exportAllDeclaration", "ExportAllDeclaration");
   ("identifier", "Identifier"); ("exportDefaultDeclaration", "ExportDefaultDeclaration");
   ("yieldExpression", "YieldExpression"); ("updateExpression", "UpdateExpression");
   ("unaryExpression", "UnaryExpression"); ("thisExpression", "ThisExpression");
   ("templateLiteral", "TemplateLiteral");
   ("taggedTemplateExpression", "TaggedTemplateExpression");
   ("sequenceExpression", "SequenceExpression"); ("objectExpression", "ObjectExpression");
   ("spreadElement", "SpreadElement"); ("property", "Property");
   ("assignmentPattern", "AssignmentPattern"); ("restElement", "RestElement");
   ("arrayPattern", "ArrayPattern"); ("objectPattern", "ObjectPattern");
   ("privateIdentifier", "PrivateIdentifier"); ("newExpression", "NewExpression");
   ("super", "Super"); ("metaProperty", "MetaProperty");
   ("memberExpression", "MemberExpression"); ("logicalExpression", "LogicalExpression");
   ("importExpression", "ImportExpression"); ("blockStatement", "BlockStatement");
   ("conditionalExpression", "ConditionalExpression");
   ("classExpression", "ClassExpression"); ("classBody", "ClassBody");
   ("staticBlock", "StaticBlock"); ("propertyDefinition", "PropertyDefinition");
   ("methodDefinition", "MethodDefinition"); ("chainExpression", "ChainExpression");
   ("callExpression", "CallExpression"); ("binaryExpression", "BinaryExpression");
   ("awaitExpression", "AwaitExpression"); ("assignmentExpression", "AssignmentExpression");
   ("arrowFunctionExpression", "ArrowFunctionExpression");
   ("arrayExpression", "ArrayExpression"); ("classDeclaration", "ClassDeclaration");
   ("functionDeclaration", "FunctionDeclaration");
   ("exportNamedDeclaration", "ExportNamedDeclaration");
   ("exportSpecifier", "ExportSpecifier"); ("variableDeclaration", "VariableDeclaration");
   ("variableDeclarator", "VariableDeclarator"); ("importDeclaration", "ImportDeclaration");
   ("importNamespaceSpecifier", "ImportNamespaceSpecifier");
   ("importDefaultSpecifier", "ImportDefaultSpecifier");
   ("importSpecifier", "ImportSpecifier"); ("forOfStatement", "ForOfStatement");
   ("forInStatement", "ForInStatement"); ("forStatement", "ForStatement");
   ("doWhileStatement", "DoWhileStatement"); ("whileStatement", "WhileStatement");
   ("tryStatement", "TryStatement"); ("catchClause", "CatchClause");
   ("throwStatement", "ThrowStatement"); ("switchStatement", "SwitchStatement");
   ("switchCase", "SwitchCase"); ("ifStatement", "IfStatement");
   ("continueStatement", "ContinueStatement"); ("breakStatement", "BreakStatement");
   ("labeledStatement", "LabeledStatement"); ("returnStatement", "ReturnStatement");
   ("withStatement", "WithStatement"); ("debuggerStatement", "DebuggerStatement");
   ("emptyStatement", "EmptyStatement"); ("expressionStatement", "ExpressionStatement");
   ("literal", "Literal"); ("templateElement", "TemplateElement");
   ("functionExpression", "FunctionExpression"); ("exportAssignment", "ExportAssignment");
   ("unknownNode", "UnknownNode")].

(** The fields of the messages. *)
Definition messages : list (string * list (string * fkind)) :=
  [("Program", [("sourceType", FString); ("body", FNodes)]);
   ("ExportAllDeclaration", [("exported", FNode); ("source", FNode)]);
   ("Identifier", [("name", FString)]);
   ("ExportDefaultDeclaration", [("declaration", FNode)]);
   ("YieldExpression", [("argument", FNode); ("delegate", FBool)]);
   ("UpdateExpression", [("operator", FString); ("argument", FNode); ("prefix", FBool)]);
   ("UnaryExpression", [("operator", FString); ("prefix", FBool); ("argument", FNode)]);
   ("ThisExpression", []);
   ("TemplateLiteral", [("quasis", FNodes); ("expressions", FNodes)]);
   ("TaggedTemplateExpression", [("tag", FNode); ("quasi", FNode)]);
   ("SequenceExpression", [("expressions", FNodes)]);
   ("ObjectExpression", [("properties", FNodes)]);
   ("SpreadElement", [("argument", FNode)]);
   ("Property", [("key", FNode); ("value", FNode); ("kind", FString); ("method", FBool);
      ("shorthand", FBool); ("computed", FBool)]);
   ("AssignmentPattern", [("left", FNode); ("right", FNode)]);
   ("RestElement", [("argument", FNode)]);
   ("ArrayPattern", [("elements", FElements)]);
   ("ObjectPattern", [("properties", FNodes)]);
   ("PrivateIdentifier", [("name", FString)]);
   ("NewExpression", [("callee", FNode); ("arguments", FNodes)]);
   ("Super", []);
   ("MetaProperty", [("meta", FNode); ("property", FNode)]);
   ("MemberExpression", [("object", FNode); ("property", FNode); ("computed", FBool);
      ("optional", FBool)]);
   ("LogicalExpression", [("operator", FString); ("left", FNode); ("right", FNode)]);
   ("ImportExpression", [("source", FNode)]);
   ("BlockStatement", [("body", FNodes)]);
   ("ConditionalExpression", [("test", FNode); ("alternate", FNode); ("consequent", FNode)]);
   ("ClassExpression", [("id", FNode); ("superClass", FNode); ("body", FNode)]);
   ("ClassBody", [("body", FNodes)]);
   ("StaticBlock", [("body", FNodes)]);
   ("PropertyDefinition", [("key", FNode); ("value", FNode); ("computed", FBool);
      ("static", FBool)]);
   ("MethodDefinition", [("key", FNode); ("value", FNode); ("kind", FString);
      ("computed", FBool); ("static", FBool)]);
   ("ChainExpression", [("expression", FNode)]);
   ("CallExpression", [("optional", FBool); ("callee", FNode); ("arguments", FNodes)]);
   ("BinaryExpression", [("operator", FString); ("left", FNode); ("right", FNode)]);
   ("AwaitExpression", [("argument", FNode)]);
   ("AssignmentExpression", [("operator", FString); ("left", FNode); ("right", FNode)]);
   ("ArrowFunctionExpression", [("expression", FBool); ("body", FNode); ("params", FNodes);
      ("generator", FBool); ("async", FBool)]);
   ("ArrayExpression", [("elements", FElements)]);
   ("ClassDeclaration", [("id", FNode); ("superClass", FNode); ("body", FNode)]);
   ("FunctionDeclaration", [("id", FNode); ("body", FNode); ("params", FNodes);
      ("generator", FBool); ("async", FBool)]);
   ("ExportNamedDeclaration", [("declaration", FNode); ("specifiers", FNodes);
      ("source", FNode)]);
   ("ExportSpecifier", [("exported", FNode); ("local", FNode)]);
   ("VariableDeclaration", [("declarations", FNodes); ("kind", FString)]);
   ("VariableDeclarator", [("id", FNode); ("init", FNode)]);
   ("ImportDeclaration", [("specifiers", FNodes); ("source", FNode)]);
   ("ImportNamespaceSpecifier", [("local", FNode)]);
   ("ImportDefaultSpecifier", [("local", FNode)]);
   ("ImportSpecifier", [("imported", FNode); ("local", FNode)]);
   ("ForOfStatement", [("await", FBool); ("left", FNode); ("right", FNode); ("body", FNode)]);
   ("ForInStatement", [("left", FNode); ("right", FNode); ("body", FNode)]);
   ("ForStatement", [("init", FNode); ("test", FNode); ("update", FNode); ("body", FNode)]);
   ("DoWhileStatement", [("body", FNode); ("test", FNode)]);
   ("WhileStatement", [("test", FNode); ("body", FNode)]);
   ("TryStatement", [("block", FNode); ("handler", FNode); ("finalizer", FNode)]);
   ("CatchClause", [("param", FNode); ("body", FNode)]);
   ("ThrowStatement", [("argument", FNode)]);
   ("SwitchStatement", [("discriminant", FNode); ("cases", FNodes)]);
   ("SwitchCase", [("test", FNode); ("consequent", FNodes)]);
   ("IfStatement", [("test", FNode); ("consequent", FNode); ("alternate", FNode)]);
   ("ContinueStatement", [("label", FNode)]);
   ("BreakStatement", [("label", FNode)]);
   ("LabeledStatement", [("label", FNode); ("body", FNode)]);
   ("ReturnStatement", [("argument", FNode)]);
   ("WithStatement", [("object", FNode); ("body", FNode)]);
   ("DebuggerStatement", []);
   ("EmptyStatement", []);
   ("ExpressionStatement", [("expression", FNode); ("directive", FString)]);
   ("Literal", [("raw", FString); ("bigint", FString); ("pattern", FString);
      ("flags", FString); ("valueString", FString); ("valueBoolean", FBool); ("valueNumber", FInt32)]);
   ("TemplateElement", [("tail", FBool); ("cooked", FString); ("raw", FString)]);
   ("FunctionExpression", [("id", FNode); ("body", FNode); ("params", FNodes);
      ("generator", FBool); ("async", FBool)]);
   ("ExportAssignment", [("expression", FNode)]);
   ("UnknownNode", [("rawType", FString)])].

(** ** The objects built *)

Inductive proto_error :=
| NotAnArray       (* [undefined.map] *)
| NotANode         (* a truthy value that is no node *)
| NoProperty       (* a property of [undefined] *)
| ProtoOutOfFuel.

(** The values of the objects: a node's shape has a type, a location and one
    more property, named after the type. *)
Inductive pvalue :=
| PUndefined
| PVal (v : value)
| PNode (type : Z) (loc : option SourceLocation) (field : string) (shape : list (string * pvalue))
| PArr (elements : list pvalue)
| PObj (props : list (string * pvalue)).

(** One property of an object literal of the code: [key: node.key],
    [key: visitNode(node.key)], [key: node.key.map(visitNode)],
    [key: node.key.map(visitArrayElement)] or [key: v]. *)
Inductive entry :=
| Copy (key : string)
| Visit (key : string)
| VisitAll (key : string)
| VisitElements (key : string)
| Const (key : string) (v : value).

Definition shape : Type := result proto_error (list entry).

(** ** One definition per kind of node *)

Definition visitProgram (_ : node) : shape := Ok [Copy "sourceType"; VisitAll "body"].
Definition visitExportAllDeclaration (_ : node) : shape := Ok [Visit "exported"; Visit "source"].
Definition visitIdentifier (_ : node) : shape := Ok [Copy "name"].
Definition visitExportDefaultDeclaration (_ : node) : shape := Ok [Visit "declaration"].
Definition visitYieldExpression (_ : node) : shape := Ok [Visit "argument"; Copy "delegate"].
Definition visitUpdateExpression (_ : node) : shape :=
  Ok [Copy "operator"; Visit "argument"; Copy "prefix"].
Definition visitUnaryExpression (_ : node) : shape :=
  Ok [Copy "operator"; Visit "argument"; Copy "prefix"].
Definition visitThisExpression (_ : node) : shape := Ok [].
Definition visitTemplateLiteral (_ : node) : shape :=
  Ok [VisitAll "quasis"; VisitAll "expressions"].
Definition visitTaggedTemplateExpression (_ : node) : shape := Ok [Visit "tag"; Visit "quasi"].
Definition visitSequenceExpression (_ : node) : shape := Ok [VisitAll "expressions"].
Definition visitObjectExpression (_ : node) : shape := Ok [VisitAll "properties"].
Definition visitSpreadElement (_ : node) : shape := Ok [Visit "argument"].
Definition visitProperty (_ : node) : shape :=
  Ok [Visit "key"; Visit "value"; Copy "kind"; Copy "method"; Copy "shorthand"; Copy "computed"].
Definition visitAssignmentPattern (_ : node) : shape := Ok [Visit "left"; Visit "right"].
Definition visitRestElement (_ : node) : shape := Ok [Visit "argument"].
Definition visitArrayPattern (_ : node) : shape := Ok [VisitElements "elements"].
Definition visitObjectPattern (_ : node) : shape := Ok [VisitAll "properties"].
Definition visitPrivateIdentifier (_ : node) : shape := Ok [Copy "name"].
Definition visitNewExpression (_ : node) : shape := Ok [Visit "callee"; VisitAll "arguments"].
Definition visitSuper (_ : node) : shape := Ok [].
Definition visitMetaProperty (_ : node) : shape := Ok [Visit "meta"; Visit "property"].
Definition visitMemberExpression (_ : node) : shape :=
  Ok [Visit "object"; Visit "property"; Copy "computed"; Copy "optional"].
Definition visitLogicalExpression (_ : node) : shape :=
  Ok [Copy "operator"; Visit "left"; Visit "right"].
Definition visitImportExpression (_ : node) : shape := Ok [Visit "source"].
Definition visitBlockStatement (_ : node) : shape := Ok [VisitAll "body"].
Definition visitConditionalExpression (_ : node) : shape :=
  Ok [Visit "test"; Visit "consequent"; Visit "alternate"].
Definition visitClassExpression (_ : node) : shape :=
  Ok [Visit "id"; Visit "superClass"; Visit "body"].
Definition visitClassBody (_ : node) : shape := Ok [VisitAll "body"].
Definition visitStaticBlock (_ : node) : shape := Ok [VisitAll "body"].
Definition visitPropertyDefinition (_ : node) : shape :=
  Ok [Visit "key"; Visit "value"; Copy "computed"; Copy "static"].
Definition visitMethodDefinition (_ : node) : shape :=
  Ok [Visit "key"; Visit "value"; Copy "kind"; Copy "computed"; Copy "static"].
Definition visitChainExpression (_ : node) : shape := Ok [Visit "expression"].
Definition visitCallExpression (_ : node) : shape :=
  Ok [Copy "optional"; Visit "callee"; VisitAll "arguments"].
Definition visitBinaryExpression (_ : node) : shape :=
  Ok [Copy "operator"; Visit "left"; Visit "right"].
Definition visitAwaitExpression (_ : node) : shape := Ok [Visit "argument"].
Definition visitAssignmentExpression (_ : node) : shape :=
  Ok [Copy "operator"; Visit "left"; Visit "right"].
Definition visitArrowFunctionExpression (_ : node) : shape :=
  Ok [Copy "expression"; Visit "body"; VisitAll "params"; Copy "generator"; Copy "async"].
Definition visitArrayExpression (_ : node) : shape := Ok [VisitElements "elements"].
Definition visitClassDeclaration (_ : node) : shape :=
  Ok [Visit "id"; Visit "superClass"; Visit "body"].
Definition visitFunctionDeclaration (_ : node) : shape :=
  Ok [Visit "id"; Visit "body"; VisitAll "params"; Copy "generator"; Copy "async"].
Definition visitExportNamedDeclaration (_ : node) : shape :=
  Ok [Visit "declaration"; VisitAll "specifiers"; Visit "source"].
Definition visitExportSpecifier (_ : node) : shape := Ok [Visit "exported"; Visit "local"].
Definition visitVariableDeclaration (_ : node) : shape :=
  Ok [VisitAll "declarations"; Copy "kind"].
Definition visitVariableDeclarator (_ : node) : shape := Ok [Visit "id"; Visit "init"].
Definition visitImportDeclaration (_ : node) : shape :=
  Ok [VisitAll "specifiers"; Visit "source"].
Definition visitImportNamespaceSpecifier (_ : node) : shape := Ok [Visit "local"].
Definition visitImportDefaultSpecifier (_ : node) : shape := Ok [Visit "local"].
Definition visitImportSpecifier (_ : node) : shape := Ok [Visit "imported"; Visit "local"].
Definition visitForOfStatement (_ : node) : shape :=
  Ok [Copy "await"; Visit "left"; Visit "right"; Visit "body"].
Definition visitForInStatement (_ : node) : shape :=
  Ok [Visit "left"; Visit "right"; Visit "body"].
Definition visitForStatement (_ : node) : shape :=
  Ok [Visit "init"; Visit "test"; Visit "update"; Visit "body"].
Definition visitDoWhileStatement (_ : node) : shape := Ok [Visit "body"; Visit "test"].
Definition visitWhileStatement (_ : node) : shape := Ok [Visit "test"; Visit "body"].
Definition visitTryStatement (_ : node) : shape :=
  Ok [Visit "block"; Visit "handler"; Visit "finalizer"].
Definition visitCatchClause (_ : node) : shape := Ok [Visit "param"; Visit "body"].
Definition visitThrowStatement (_ : node) : shape := Ok [Visit "argument"].
Definition visitSwitchStatement (_ : node) : shape := Ok [Visit "discriminant"; VisitAll "cases"].
Definition visitSwitchCase (_ : node) : shape := Ok [Visit "test"; VisitAll "consequent"].
Definition visitIfStatement (_ : node) : shape :=
  Ok [Visit "test"; Visit "consequent"; Visit "alternate"].
Definition visitContinueStatement (_ : node) : shape := Ok [Visit "label"].
Definition visitBreakStatement (_ : node) : shape := Ok [Visit "label"].
Definition visitLabeledStatement (_ : node) : shape := Ok [Visit "label"; Visit "body"].
Definition visitReturnStatement (_ : node) : shape := Ok [Visit "argument"].
Definition visitWithStatement (_ : node) : shape := Ok [Visit "object"; Visit "body"].
Definition visitDebuggerStatement (_ : node) : shape := Ok [].
Definition visitEmptyStatement (_ : node) : shape := Ok [].
Definition visitExportAssignment (_ : node) : shape := Ok [Visit "expression"].
Definition visitFunctionExpression (_ : node) : shape :=
  Ok [Visit "id"; Visit "body"; VisitAll "params"; Copy "generator"; Copy "async"].

(** ['k' in node] *)
Definition in_node (k : string) (n : node) : bool :=
  existsb (fun kv => fst kv =s k) (props_of n).

(** [node.k.sub] *)
Definition get_sub (n : node) (k sub : string) : result proto_error value :=
  match get n k with
  | VObj ps => Ok (lookup_prop sub ps)
  | VUndefined | VNull => Throw NoProperty
  | _ => Ok VUndefined
  end.

Definition translateValue (v : value) : list entry :=
  match v with
  | VStr _ => [Const "valueString" v]
  | VNum _ => [Const "valueNumber" v]
  | VBool _ => [Const "valueBoolean" v]
  | _ => []
  end.

Definition visitLiteral (n : node) : shape :=
  if in_node "bigint" n then Ok [Copy "value"; Const "bigInt" (get n "bigint"); Copy "raw"]
  else if in_node "regex" n then
    let! flags := get_sub n "regex" "flags" in
    let! pattern := get_sub n "regex" "pattern" in
    Ok [Const "flags" flags; Const "pattern" pattern; Copy "raw"]
  else Ok (Copy "raw" :: translateValue (get n "value")).

Definition visitExpressionStatement (n : node) : shape :=
  match get n "directive" with
  | VUndefined => Ok [Visit "expression"]
  | _ => Ok [Visit "expression"; Copy "directive"]
  end.

Definition visitTemplateElement (n : node) : shape :=
  let! cooked := get_sub n "value" "cooked" in
  let! raw := get_sub n "value" "raw" in
  Ok [Copy "tail"; Const "cooked" cooked; Const "raw" raw].

Definition visitUnknownNode (n : node) : list (string * pvalue) :=
  [("rawType", PVal (VStr (type_of n)))].

(** ** The dispatch *)

Definition visitors : list (string * (node -> shape)) :=
  [("Program", visitProgram); ("ExportAllDeclaration", visitExportAllDeclaration);
   ("Literal", visitLiteral); ("Identifier", visitIdentifier);
   ("ExportDefaultDeclaration", visitExportDefaultDeclaration);
   ("YieldExpression", visitYieldExpression); ("UpdateExpression", visitUpdateExpression);
   ("UnaryExpression", visitUnaryExpression); ("ThisExpression", visitThisExpression);
   ("TemplateLiteral", visitTemplateLiteral);
   ("TaggedTemplateExpression", visitTaggedTemplateExpression);
   ("SequenceExpression", visitSequenceExpression);
   ("ObjectExpression", visitObjectExpression); ("SpreadElement", visitSpreadElement);
   ("Property", visitProperty); ("AssignmentPattern", visitAssignmentPattern);
   ("RestElement", visitRestElement); ("ArrayPattern", visitArrayPattern);
   ("ObjectPattern", visitObjectPattern); ("PrivateIdentifier", visitPrivateIdentifier);
   ("NewExpression", visitNewExpression); ("Super", visitSuper);
   ("MetaProperty", visitMetaProperty); ("MemberExpression", visitMemberExpression);
   ("LogicalExpression", visitLogicalExpression);
   ("ImportExpression", visitImportExpression); ("BlockStatement", visitBlockStatement);
   ("ConditionalExpression", visitConditionalExpression);
   ("ClassExpression", visitClassExpression); ("ClassBody", visitClassBody);
   ("StaticBlock", visitStaticBlock); ("PropertyDefinition", visitPropertyDefinition);
   ("MethodDefinition", visitMethodDefinition); ("ChainExpression", visitChainExpression);
   ("CallExpression", visitCallExpression); ("BinaryExpression", visitBinaryExpression);
   ("AwaitExpression", visitAwaitExpression);
   ("AssignmentExpression", visitAssignmentExpression);
   ("ArrowFunctionExpression", visitArrowFunctionExpression);
   ("ArrayExpression", visitArrayExpression); ("ClassDeclaration", visitClassDeclaration);
   ("FunctionDeclaration", visitFunctionDeclaration);
   ("ExportNamedDeclaration", visitExportNamedDeclaration);
   ("ExportSpecifier", visitExportSpecifier);
   ("VariableDeclaration", visitVariableDeclaration);
   ("VariableDeclarator", visitVariableDeclarator);
   ("ImportDeclaration", visitImportDeclaration);
   ("ImportNamespaceSpecifier", visitImportNamespaceSpecifier);
   ("ImportDefaultSpecifier", visitImportDefaultSpecifier);
   ("ImportSpecifier", visitImportSpecifier); ("ForOfStatement", visitForOfStatement);
   ("ForInStatement", visitForInStatement); ("ForStatement", visitForStatement);
   ("DoWhileStatement", visitDoWhileStatement); ("WhileStatement", visitWhileStatement);
   ("TryStatement", visitTryStatement); ("CatchClause", visitCatchClause);
   ("ThrowStatement", visitThrowStatement); ("SwitchStatement", visitSwitchStatement);
   ("SwitchCase", visitSwitchCase); ("IfStatement", visitIfStatement);
   ("ContinueStatement", visitContinueStatement); ("BreakStatement", visitBreakStatement);
   ("LabeledStatement", visitLabeledStatement); ("ReturnStatement", visitReturnStatement);
   ("WithStatement", visitWithStatement); ("DebuggerStatement", visitDebuggerStatement);
   ("EmptyStatement", visitEmptyStatement); ("TSExportAssignment", visitExportAssignment);
   ("ExpressionStatement", visitExpressionStatement);
   ("TemplateElement", visitTemplateElement);
   ("FunctionExpression", visitFunctionExpression)].

(** The nodes replaced by one of their children, and that child. *)
Definition skipped : list (string * string) :=
  [("TSAsExpression", "expression"); ("TSSatisfiesExpression", "expression");
   ("TSNonNullExpression", "expression"); ("TSTypeAssertion", "expression");
   ("TSParameterProperty", "parameter")].

(** The known types without shape; any other type is logged. *)
Definition unsupported : list string :=
  ["AccessorProperty"; "Decorator"; "ImportAttribute"; "JSXAttribute"; "JSXClosingElement";
   "JSXClosingFragment"; "JSXElement"; "JSXEmptyExpression"; "JSXExpressionContainer";
   "JSXFragment"; "JSXIdentifier"; "JSXMemberExpression"; "JSXNamespacedName";
   "JSXOpeningElement"; "JSXOpeningFragment"; "JSXSpreadAttribute"; "JSXSpreadChild";
   "JSXText"; "TSAbstractAccessorProperty"; "TSAbstractKeyword";
   "TSAbstractMethodDefinition"; "TSAbstractPropertyDefinition"; "TSAnyKeyword";
   "TSArrayType"; "TSAsyncKeyword"; "TSBigIntKeyword"; "TSBooleanKeyword";
   "TSCallSignatureDeclaration"; "TSClassImplements"; "TSConditionalType";
   "TSConstructorType"; "TSConstructSignatureDeclaration"; "TSDeclareFunction";
   "TSDeclareKeyword"; "TSEmptyBodyFunctionExpression"; "TSEnumDeclaration"; "TSEnumMember";
   "TSExportKeyword"; "TSExternalModuleReference"; "TSFunctionType";
   "TSInstantiationExpression"; "TSImportEqualsDeclaration"; "TSImportType";
   "TSIndexedAccessType"; "TSIndexSignature"; "TSInferType"; "TSInterfaceBody";
   "TSInterfaceDeclaration"; "TSInterfaceHeritage"; "TSIntersectionType";
   "TSIntrinsicKeyword"; "TSLiteralType"; "TSMappedType"; "TSMethodSignature";
   "TSModuleBlock"; "TSModuleDeclaration"; "TSNamedTupleMember";
   "TSNamespaceExportDeclaration"; "TSNeverKeyword"; "TSNullKeyword"; "TSNumberKeyword";
   "TSObjectKeyword"; "TSOptionalType"; "TSPrivateKeyword"; "TSPropertySignature";
   "TSProtectedKeyword"; "TSPublicKeyword"; "TSQualifiedName"; "TSReadonlyKeyword";
   "TSRestType"; "TSStaticKeyword"; "TSStringKeyword"; "TSSymbolKeyword";
   "TSTemplateLiteralType"; "TSThisType"; "TSTupleType"; "TSTypeAliasDeclaration";
   "TSTypeAnnotation"; "TSTypeLiteral"; "TSTypeOperator"; "TSTypeParameter";
   "TSTypeParameterDeclaration"; "TSTypeParameterInstantiation"; "TSTypePredicate";
   "TSTypeQuery"; "TSTypeReference"; "TSUndefinedKeyword"; "TSUnionType";
   "TSUnknownKeyword"; "TSVoidKeyword"].

(** [str.charAt(0).toLowerCase() + str.slice(1)], on the ASCII names of types. *)
Definition lowerCaseFirstLetter (str : string) : string :=
  match str with
  | EmptyString => EmptyString
  | String c r =>
      let n := nat_of_ascii c in
      String (if (Nat.leb 65 n && Nat.leb n 90)%bool then ascii_of_nat (n + 32) else c) r
  end.

Section VisitNode.
Context (visitNode : value -> result proto_error pvalue).

Definition visitArrayElement (element : value) : result proto_error pvalue :=
  let! v := visitNode element in Ok (PObj [("element", v)]).

(** [node.key.map(f)] *)
Definition map_prop (n : node) (key : string) (f : value -> result proto_error pvalue)
  : result proto_error pvalue :=
  match get n key with
  | VArr vs => let! l := rmap_list f vs in Ok (PArr l)
  | _ => Throw NotAnArray
  end.

Definition entry_key (e : entry) : string :=
  match e with Copy k | Visit k | VisitAll k | VisitElements k | Const k _ => k end.

Definition eval_entry (n : node) (e : entry) : result proto_error (string * pvalue) :=
  let! v := match e with
            | Copy key => Ok (PVal (get n key))
            | Visit key => visitNode (get n key)
            | VisitAll key => map_prop n key visitNode
            | VisitElements key => map_prop n key visitArrayElement
            | Const _ v => Ok (PVal v)
            end in
  Ok (entry_key e, v).

Definition getProtobufShapeForNode (n : node) : result proto_error pvalue :=
  match map_get (type_of n) skipped with
  | Some child => visitNode (get n child)
  | None =>
      let! props :=
        match map_get (type_of n) visitors with
        | Some visit => let! entries := visit n in rmap_list (eval_entry n) entries
        | None => Ok (visitUnknownNode n)
        end in
      Ok (PNode (default UnknownNodeType (map_get (type_of n ++ "Type") NODE_TYPE_ENUM))
            (h_loc (hdr n)) (lowerCaseFirstLetter (type_of n)) props)
  end.

End VisitNode.

(** [visitNode(node)]; every call is on a smaller value ([visitNode_total]). *)
Fixpoint visitNode_fuel (fuel : nat) (v : value) : result proto_error pvalue :=
  match fuel with
  | O => Throw ProtoOutOfFuel
  | S fuel' =>
      if negb (truthy v) then Ok PUndefined
      else match v with
           | VNode n => getProtobufShapeForNode (visitNode_fuel fuel') n
           | _ => Throw NotANode
           end
  end.

Definition visitNode (v : value) : result proto_error pvalue :=
  visitNode_fuel (S (value_size v)) v.

(** [parseInProtobuf(ast)], before protobufjs takes the object. *)
Definition parseInProtobuf (ast : node) : result proto_error pvalue := visitNode (VNode ast).

(** ** Conformance to the schema *)

Definition fields_of (message : string) : list (string * fkind) :=
  default [] (map_get message messages).

Definition enum_of (message : string) : Z :=
  default UnknownNodeType (map_get (message ++ "Type") NODE_TYPE_ENUM).

Definition int32 (x : jsnum) : bool :=
  match x with
  | NumQ q => Z.eqb (Qnum q mod Zpos (Qden q)) 0
              && Z.leb (- 2 ^ 31) (Qnum q / Zpos (Qden q)) && Z.ltb (Qnum q / Zpos (Qden q)) (2 ^ 31)
  | _ => false
  end.

(** A value that a scalar field can have; an absent one is not set. *)
Definition scalar (k : fkind) (v : value) : bool :=
  match v with
  | VUndefined | VNull => match k with FString | FBool | FInt32 => true | _ => false end
  | VStr _ => match k with FString => true | _ => false end
  | VBool _ => match k with FBool => true | _ => false end
  | VNum x => match k with FInt32 => int32 x | _ => false end
  | _ => false
  end.

(** The object of a bigint, or of a number that is no 32-bit integer. *)
Definition lost_literal (props : list (string * pvalue)) : bool :=
  match props with
  | [(k, PVal _); (k', PVal digits); (k'', PVal raw)] =>
      (k =s "value") && (k' =s "bigInt") && (k'' =s "raw") && scalar FString digits && scalar FString raw
  | [(k, PVal raw); (k', PVal (VNum x))] =>
      (k =s "raw") && (k' =s "valueNumber") && scalar FString raw && negb (int32 x)
  | _ => false
  end.

(** The object of a node of a type without visitor. *)
Definition lost_node (field : string) (props : list (string * pvalue)) : bool :=
  match props with
  | [(k, PVal (VStr t))] => (k =s "rawType") && (field =s lowerCaseFirstLetter t) && includes t unsupported
  | _ => false
  end.

(** The object is what the schema says of a field of that kind: a scalar of its
    type; a node whose own field is one of [oneof node], with the type of the message
    of this field, and whose keys are fields of this message with values of the right
    kind; nodes; elements of arrays. With [lost], a node may also be what the code
    makes of the nodes that the schema cannot tell: bigints and numbers that are no
    32-bit integers, nodes of types without visitor, and [export =]. *)
Fixpoint conforms (lost : bool) (k : fkind) (v : pvalue) : bool :=
  match k, v with
  | (FString | FBool | FInt32), PVal v => scalar k v
  | FNode, PUndefined => true
  | FNode, PNode type _ field props =>
      match map_get field node_oneof with
      | Some message =>
          Z.eqb type (enum_of message)
          && (forallb (fun kv => match map_get (fst kv) (fields_of message) with
                                 | Some k' => conforms lost k' (snd kv)
                                 | None => false
                                 end) props
              || lost && (message =s "Literal") && lost_literal props)
      | None =>
          lost && Z.eqb type UnknownNodeType
          && (lost_node field props
              || (field =s "tSExportAssignment")
                 && match props with
                    | [(k, p)] => (k =s "expression") && conforms lost FNode p
                    | _ => false
                    end)
      end
  | FNodes, PArr l => forallb (conforms lost FNode) l
  | FElements, PArr l => forallb (conforms lost FElement) l
  | FElement, PObj [(k, p)] => (k =s "element") && conforms lost FNode p
  | _, _ => false
  end.

(** ** Trees of TSESTree nodes *)

(** The types of [TSESTree.Node], which the switch enumerates. *)
Definition known_type (t : string) : bool :=
  includes t (map fst visitors) || includes t (map fst skipped) || includes t unsupported.

(** The properties of the types with a visitor that are strings and booleans. *)
Definition ast_kind (type key : string) : option fkind :=
  if negb (includes type (map fst visitors)) then None
  else if includes key ["name"; "operator"; "kind"; "sourceType"; "raw"; "directive"; "bigint"] then Some FString
  else if includes key ["delegate"; "prefix"; "method"; "shorthand"; "computed"; "optional"; "static";
                        "generator"; "async"; "await"; "tail"] then Some FBool
  else if (type =s "ArrowFunctionExpression") && (key =s "expression") then Some FBool
  else None.

(** [node.key.sub], when [node.key] is an object, is a string. *)
Definition string_in (n : node) (key sub : string) : bool :=
  match get n key with VObj ps => scalar FString (lookup_prop sub ps) | _ => true end.

(** The properties have the types of [TSESTree]. *)
Definition well_typed (n : node) : bool :=
  forallb (fun kv => match ast_kind (type_of n) (fst kv) with
                     | Some k => scalar k (snd kv)
                     | None => true
                     end) (props_of n)
  && (if type_of n =s "Literal" then string_in n "regex" "flags" && string_in n "regex" "pattern"
      else if type_of n =s "TemplateElement" then string_in n "value" "cooked" && string_in n "value" "raw"
      else true).

(** The schema can tell the node. *)
Definition representable (n : node) : bool :=
  negb (includes (type_of n) unsupported) && negb (type_of n =s "TSExportAssignment")
  && (negb (type_of n =s "Literal")
      || negb (in_node "bigint" n) && match get n "value" with VNum x => int32 x | _ => true end).

Definition node_ok (lost : bool) (n : node) : bool :=
  known_type (type_of n) && well_typed n && (lost || representable n).

(** Every node of the tree is so. *)
Fixpoint tree_ok (lost : bool) (n : node) : bool :=
  node_ok lost n &&
  match n with
  | Node h ps =>
      (fix go (ps : list (string * value)) : bool :=
         match ps with
         | [] => true
         | (_, v) :: r => value_ok lost v && go r
         end) ps
  end
with value_ok (lost : bool) (v : value) : bool :=
  match v with
  | VNode n => tree_ok lost n
  | VArr vs =>
      (fix go (vs : list value) : bool :=
         match vs with
         | [] => true
         | v :: r => value_ok lost v && go r
         end) vs
  | _ => true
  end.

(** ** Lemmas *)

Lemma rmap_list_Forall {E A B} (f : A -> result E B) (P : B -> Prop) l l' :
  (forall x y, x ∈ l -> f x = Ok y -> P y) -> rmap_list f l = Ok l' -> Forall P l'.
Proof.
  revert l'. induction l as [|x l IH]; intros l' H; simpl; [intros [= <-]; constructor |].
  destruct (f x) as [y|] eqn:Ey; [| done]. simpl.
  destruct (rmap_list f l) as [ys|]; [| done]. simpl. intros [= <-]. constructor.
  - apply (H x); [set_solver | done].
  - apply IH; [| done]. intros z w Hz. apply H. set_solver.
Qed.

Lemma Forall_forallb_true {A} (p : A -> bool) l : Forall (fun x => p x = true) l -> forallb p l = true.
Proof. rewrite forallb_forall, Forall_forall. intros H x Hx. apply H. by apply list_elem_of_In. Qed.

(** A property of the node, or an element of an array property. *)
Definition within (n : node) (v : value) : Prop :=
  (exists k, get n k = v) \/ (exists k vs, get n k = VArr vs /\ v ∈ vs).

Lemma map_prop_Forall n key f p (P : pvalue -> Prop) :
  (forall v q, within n v -> f v = Ok q -> P q) ->
  map_prop n key f = Ok p -> exists l, p = PArr l /\ Forall P l.
Proof.
  intros H. unfold map_prop. destruct (get n key) as [| | | | | | | |vs|] eqn:G; try done.
  destruct (rmap_list f vs) as [l|] eqn:E; [| done]. intros [= <-]. exists l. split; [done |].
  eapply rmap_list_Forall; [| exact E]. intros x y Hx. apply H. right. by exists key, vs.
Qed.

Lemma typed_get n key k : well_typed n = true -> ast_kind (type_of n) key = Some k -> scalar k (get n key) = true.
Proof.
  unfold well_typed. intros [H _]%andb_true_iff K.
  assert (scalar k VUndefined = true) as U.
  { unfold ast_kind in K. by repeat (case_match; simplify_eq). }
  destruct n as [h ps]. unfold get. cbn [props_of] in *. induction ps as [|[j v] ps IH]; cbn in *; [done |].
  apply andb_true_iff in H as [Hv Hps]. destruct (String.eqb_spec key j) as [<-|]; [| by apply IH].
  by rewrite K in Hv.
Qed.

Definition fkind_eqb (a b : fkind) : bool :=
  match a, b with
  | FString, FString | FBool, FBool | FInt32, FInt32 | FNode, FNode | FNodes, FNodes
  | FElements, FElements | FElement, FElement => true
  | _, _ => false
  end.

Section Conforms.
Context (lost : bool) (rec : value -> result proto_error pvalue) (n : node).
Context (rec_ok : forall v p, within n v -> rec v = Ok p -> conforms lost FNode p = true).
Hypothesis typed : well_typed n = true.

(** An entry fits a field. *)
Definition entry_fits (type : string) (k : fkind) (e : entry) : bool :=
  match e with
  | Copy key => match ast_kind type key with Some k' => fkind_eqb k' k | None => false end
  | Visit _ => fkind_eqb k FNode
  | VisitAll _ => fkind_eqb k FNodes
  | VisitElements _ => fkind_eqb k FElements
  | Const _ v => scalar k v
  end.

Lemma visitArrayElement_ok v q :
  within n v -> visitArrayElement rec v = Ok q -> conforms lost FElement q = true.
Proof.
  intros W. unfold visitArrayElement. destruct (rec v) as [p|] eqn:E; [| done]. intros [= <-].
  simpl. by rewrite (rec_ok _ _ W E).
Qed.

Lemma fkind_eqb_eq a b : fkind_eqb a b = true -> a = b.
Proof. by destruct a, b. Qed.

Lemma rmap_list_elem {E A B} (f : A -> result E B) l l' y :
  rmap_list f l = Ok l' -> y ∈ l' -> exists x, x ∈ l /\ f x = Ok y.
Proof.
  revert l'. induction l as [|x l IH]; intros l'; simpl; [intros [= <-]; set_solver |].
  destruct (f x) as [z|] eqn:Ez; [| done]. simpl.
  destruct (rmap_list f l) as [ys|]; [| done]. simpl. intros [= <-] [->|H]%elem_of_cons.
  - exists x. split; [set_solver | done].
  - destruct (IH ys eq_refl H) as (w & Hw & Ew). exists w. split; [set_solver | done].
Qed.

Lemma eval_entry_ok e k kv :
  entry_fits (type_of n) k e = true -> eval_entry rec n e = Ok kv ->
  fst kv = entry_key e /\ conforms lost k (snd kv) = true.
Proof.
  unfold eval_entry. destruct e; cbn [entry_fits rbind].
  - destruct (ast_kind (type_of n) key) as [k'|] eqn:K; [| done]. intros <-%fkind_eqb_eq [= <-]. split; [done |].
    cbn. pose proof (typed_get n key k' typed K) as S. unfold ast_kind in K.
    by repeat (case_match; simplify_eq).
  - intros ->%fkind_eqb_eq. destruct (rec (get n key)) as [p|] eqn:E; [| done]. intros [= <-]. simpl. split; [done |].
    eapply rec_ok; [left; by eexists | done].
  - intros ->%fkind_eqb_eq. destruct (map_prop n key rec) as [p|] eqn:E; [| done]. intros [= <-].
    destruct (map_prop_Forall n key rec p _ rec_ok E) as (l & -> & H).
    split; [done | by apply Forall_forallb_true].
  - intros ->%fkind_eqb_eq. destruct (map_prop n key _) as [p|] eqn:E; [| done]. intros [= <-].
    destruct (map_prop_Forall n key _ p _ visitArrayElement_ok E) as (l & -> & H).
    split; [done | by apply Forall_forallb_true].
  - intros S [= <-]. split; [done |]. cbn. by destruct k, v.
Qed.

(** The entries of the object of a node fit its message. *)
Definition entries_fit (message : string) (es : list entry) : bool :=
  forallb (fun e => match map_get (entry_key e) (fields_of message) with
                    | Some k => entry_fits (type_of n) k e
                    | None => false
                    end) es.

Lemma entries_conform message es props loc :
  map_get (lowerCaseFirstLetter (type_of n)) node_oneof = Some message ->
  map_get (type_of n ++ "Type") NODE_TYPE_ENUM = Some (enum_of message) ->
  entries_fit message es = true -> rmap_list (eval_entry rec n) es = Ok props ->
  conforms lost FNode (PNode (default UnknownNodeType (map_get (type_of n ++ "Type") NODE_TYPE_ENUM)) loc
                    (lowerCaseFirstLetter (type_of n)) props) = true.
Proof.
  intros O T F E. cbn [conforms]. rewrite O, T. cbn [default]. rewrite Z.eqb_refl. cbn [andb].
  apply orb_true_iff. left. unfold entries_fit in F. rewrite forallb_forall in F.
  apply Forall_forallb_true, Forall_forall. intros [k v] Hkv.
  destruct (rmap_list_elem _ _ _ _ E Hkv) as (e & He & Ee).
  apply list_elem_of_In in He. specialize (F e He).
  destruct (map_get (entry_key e) (fields_of message)) as [k'|] eqn:K; [| done].
  destruct (eval_entry_ok e k' _ F Ee) as [Hk Hc]. cbn in *. subst k. by rewrite K.
Qed.

End Conforms.

Lemma tree_ok_node lost n : tree_ok lost n = true -> node_ok lost n = true.
Proof. destruct n. cbn [tree_ok]. by intros [H _]%andb_true_iff. Qed.

Lemma tree_ok_get lost n k : tree_ok lost n = true -> value_ok lost (get n k) = true.
Proof.
  destruct n as [h ps]. cbn [tree_ok]. intros [_ H]%andb_true_iff. unfold get. cbn [props_of].
  induction ps as [|[j v] ps IH]; cbn in *; [done |].
  apply andb_true_iff in H as [Hv Hps]. destruct (k =s j); [done | by apply IH].
Qed.

Lemma value_ok_arr lost vs v : value_ok lost (VArr vs) = true -> v ∈ vs -> value_ok lost v = true.
Proof.
  induction vs as [|w vs IH]; [set_solver |]. cbn. intros [Hw Hvs]%andb_true_iff.
  intros [->|Hv]%elem_of_cons; [done | by apply IH].
Qed.

(** What is in the object that a visitor builds. *)
Definition fits (n : node) (es : list entry) : Prop :=
  (exists message, map_get (lowerCaseFirstLetter (type_of n)) node_oneof = Some message
     /\ map_get (type_of n ++ "Type") NODE_TYPE_ENUM = Some (enum_of message)
     /\ entries_fit n message es = true)
  \/ type_of n = "TSExportAssignment" /\ es = [Visit "expression"]
  \/ type_of n = "Literal"
     /\ (in_node "bigint" n = true /\ es = [Copy "value"; Const "bigInt" (get n "bigint"); Copy "raw"]
         \/ exists x, get n "value" = VNum x /\ int32 x = false /\ es = [Copy "raw"; Const "valueNumber" (VNum x)]).

Ltac fits_message := left; eexists; split; [reflexivity | split; [reflexivity |]].

Lemma literal_fits n es : type_of n = "Literal" -> well_typed n = true -> visitLiteral n = Ok es -> fits n es.
Proof.
  intros T W E. unfold fits. rewrite T. unfold visitLiteral in E.
  destruct (in_node "bigint" n) eqn:B; [injection E as <-; right; right; split; [done | by left] |].
  destruct (in_node "regex" n).
  - fits_message. unfold well_typed in W. rewrite T in W. cbn [String.eqb] in W.
    apply andb_true_iff in W as [_ [F P]%andb_true_iff]. unfold string_in, get_sub in *.
    unfold entries_fit. rewrite T.
    destruct (get n "regex") as [| | | | | | | | |ps]; try done; cbn [rbind] in E; injection E as <-; try reflexivity.
    cbn [forallb entry_key].
    change (map_get "flags" (fields_of "Literal")) with (Some FString).
    change (map_get "pattern" (fields_of "Literal")) with (Some FString). cbn [entry_fits].
    by rewrite F, P.
  - injection E as <-. destruct (get n "value") as [| | |x| | | | | |] eqn:V; cbn [translateValue];
      try (fits_message; unfold entries_fit; rewrite T; reflexivity).
    destruct (int32 x) eqn:I.
    + fits_message. unfold entries_fit. rewrite T. cbn [forallb entry_key].
      change (map_get "valueNumber" (fields_of "Literal")) with (Some FInt32). cbn [entry_fits scalar]. by rewrite I.
    + right. right. split; [done |]. right. by exists x.
Qed.

Lemma template_fits n es :
  type_of n = "TemplateElement" -> well_typed n = true -> visitTemplateElement n = Ok es -> fits n es.
Proof.
  intros T W E. unfold fits. rewrite T. fits_message. unfold well_typed in W. rewrite T in W. cbn [String.eqb] in W.
  apply andb_true_iff in W as [_ [C R]%andb_true_iff]. unfold visitTemplateElement, string_in, get_sub in *.
  destruct (get n "value") as [| | | | | | | | |ps]; try done; cbn [rbind] in E; injection E as <-;
    unfold entries_fit; rewrite T; try reflexivity.
  cbn [forallb entry_key].
  change (map_get "cooked" (fields_of "TemplateElement")) with (Some FString).
  change (map_get "raw" (fields_of "TemplateElement")) with (Some FString). cbn [entry_fits].
  by rewrite C, R.
Qed.

(** Every visitor builds an object for the message of its type. *)
Lemma visitors_fit :
  Forall (fun tf => forall n es, type_of n = fst tf -> well_typed n = true -> snd tf n = Ok es -> fits n es) visitors.
Proof.
  unfold visitors. repeat apply Forall_cons_2; try apply Forall_nil_2;
    intros n es T W E; cbn [fst snd] in *;
    try (injection E as <-; unfold fits, entries_fit; rewrite T; fits_message; vm_compute; reflexivity).
  - by apply literal_fits.
  - right. left. by injection E as <-.
  - unfold visitExpressionStatement in E. unfold fits, entries_fit. rewrite T.
    destruct (get n "directive"); injection E as <-; fits_message; vm_compute; reflexivity.
  - by apply template_fits.
Qed.

(** The unsupported types have neither visitor, nor message, nor enum value. *)
Lemma unsupported_ok t :
  t ∈ unsupported ->
  map_get (lowerCaseFirstLetter t) node_oneof = None /\
  map_get (t ++ "Type") NODE_TYPE_ENUM = None.
Proof.
  assert (H : forallb (fun t => bool_decide (map_get (lowerCaseFirstLetter t) node_oneof = None)
                && bool_decide (map_get (t ++ "Type") NODE_TYPE_ENUM = None)) unsupported = true)
    by (vm_compute; reflexivity).
  rewrite forallb_forall in H. intros Ht%list_elem_of_In. specialize (H t Ht).
  apply andb_true_iff in H as [H1 H2]. by rewrite !bool_decide_eq_true in H1, H2.
Qed.

Lemma map_get_None_includes {V} t (l : list (string * V)) :
  map_get t l = None -> includes t (map fst l) = false.
Proof.
  intros H. apply includes_false. rewrite list_elem_of_In, in_map_iff.
  intros ([k v] & E & Hin). simpl in E. subst k. apply map_get_None in H. apply H.
  apply list_elem_of_fmap. exists (t, v). split; [done | by apply list_elem_of_In].
Qed.

Lemma fitting_conforms lost rec n es props loc :
  (forall v q, within n v -> rec v = Ok q -> conforms lost FNode q = true) ->
  node_ok lost n = true -> fits n es -> rmap_list (eval_entry rec n) es = Ok props ->
  conforms lost FNode (PNode (default UnknownNodeType (map_get (type_of n ++ "Type") NODE_TYPE_ENUM)) loc
                    (lowerCaseFirstLetter (type_of n)) props) = true.
Proof.
  intros R K F E. unfold node_ok in K. apply andb_true_iff in K as [[_ W]%andb_true_iff K].
  destruct F as [(m & O & T & F)|[[T ->]|[T F]]]; [by eapply entries_conform | |].
  - unfold representable in K. rewrite T in *. destruct lost; [| by vm_compute in K].
    cbn in E. unfold eval_entry in E. destruct (rec (get n "expression")) as [q|] eqn:Q; cbn in E; [| done]. apply Ok_inj in E as <-.
    pose proof (R _ _ (or_introl (ex_intro _ "expression" eq_refl)) Q) as C.
    cbn [conforms entry_key fst snd].
    change (map_get (lowerCaseFirstLetter "TSExportAssignment") node_oneof) with (@None string).
    change (lost_node _ [("expression", q)]) with (lost_node "" [("expression", q)]).
    change (("expression" =s "expression")) with true. cbn [andb]. rewrite C. by destruct q as [|[]| | |].
  - assert (lost = true) as ->.
    { unfold representable in K. rewrite T in K. destruct lost; [done |].
      destruct F as [[B _]|(x & V & I & _)]; cbn in K; [rewrite B in K | rewrite V, I in K];
        by rewrite ?andb_false_r in K. }
    assert (forall key, ast_kind "Literal" key = Some FString -> scalar FString (get n key) = true) as S.
    { intros key A. apply typed_get; [done |]. by rewrite T. }
    rewrite T. cbn [conforms].
    change (map_get (lowerCaseFirstLetter "Literal") node_oneof) with (Some "Literal").
    change (default UnknownNodeType (map_get ("Literal" ++ "Type") NODE_TYPE_ENUM)) with (enum_of "Literal").
    cbv iota beta. rewrite Z.eqb_refl. cbn [andb]. apply orb_true_iff. right.
    change ("Literal" =s "Literal") with true. cbn [andb].
    destruct F as [[B ->]|(x & V & I & ->)]; apply Ok_inj in E as <-; unfold lost_literal; cbn [entry_key].
    + change ("value" =s "value") with true. change ("bigInt" =s "bigInt") with true.
      change ("raw" =s "raw") with true. cbn [andb]. rewrite (S "bigint" eq_refl), (S "raw" eq_refl). by destruct (get n "bigint").
    + change ("raw" =s "raw") with true. change ("valueNumber" =s "valueNumber") with true. cbn [andb].
      by rewrite (S "raw" eq_refl), I.
Qed.

Lemma shape_conforms lost rec n p :
  (forall v q, within n v -> rec v = Ok q -> conforms lost FNode q = true) ->
  node_ok lost n = true ->
  getProtobufShapeForNode rec n = Ok p -> conforms lost FNode p = true.
Proof.
  intros R K. unfold getProtobufShapeForNode. pose proof K as K'. unfold node_ok in K'.
  apply andb_true_iff in K' as [[Kt W]%andb_true_iff Kr].
  destruct (map_get (type_of n) skipped) as [child|] eqn:Es; [apply R; left; by eexists |].
  destruct (map_get (type_of n) visitors) as [f|] eqn:Ev.
  - destruct (f n) as [es|] eqn:Ef; [| done]. cbn [rbind].
    destruct (rmap_list (eval_entry rec n) es) as [props|] eqn:Er; [| done]. intros [= <-].
    pose proof visitors_fit as V. rewrite Forall_forall in V.
    apply map_get_Some_elem in Ev. by eapply fitting_conforms; [.. | eapply (V _ Ev n es eq_refl W Ef) |].
  - cbn [rbind]. intros <-%Ok_inj. cbn [conforms].
    unfold known_type in Kt. rewrite (map_get_None_includes _ _ Es), (map_get_None_includes _ _ Ev) in Kt.
    rewrite !orb_false_l in Kt. destruct lost.
    2: { unfold representable in Kr. by rewrite Kt in Kr. }
    pose proof Kt as [-> ->]%includes_spec%unsupported_ok. cbn [default lost_node visitUnknownNode]. rewrite !String.eqb_refl, Kt. done.
Qed.

Lemma visitNode_fuel_conforms lost : forall fuel v p,
  value_ok lost v = true -> visitNode_fuel fuel v = Ok p -> conforms lost FNode p = true.
Proof.
  induction fuel as [|fuel IH]; intros v p K; [done |]. cbn [visitNode_fuel].
  destruct (negb (truthy v)); [by intros [= <-] |].
  destruct v as [| | | | | | |n| |]; try done. apply shape_conforms.
  - intros w q [[k <-]|(k & vs & G & Hw)]; apply IH; [by apply tree_ok_get |].
    apply (value_ok_arr lost vs); [| done]. rewrite <- G. by apply tree_ok_get.
  - by apply tree_ok_node.
Qed.

(** ** The recursion ends *)

Definition no_fuel {A} (r : result proto_error A) : Prop := r = Throw ProtoOutOfFuel.

Lemma rmap_list_fuel {A B} (f : A -> result proto_error B) l :
  (forall x, x ∈ l -> ~ no_fuel (f x)) -> ~ no_fuel (rmap_list f l).
Proof.
  unfold no_fuel. induction l as [|x l IH]; intros H; simpl; [done |].
  assert (Hx : f x <> Throw ProtoOutOfFuel) by (apply H; set_solver).
  destruct (f x); simpl; [| congruence].
  assert (Hl : rmap_list f l <> Throw ProtoOutOfFuel) by (apply IH; intros; apply H; set_solver).
  destruct (rmap_list f l); simpl; congruence.
Qed.

Lemma within_size n v : within n v -> (value_size v < node_size n)%nat.
Proof.
  intros [[k <-]|(k & vs & G & Hv)]; pose proof (get_size n k) as S; [done |].
  rewrite G in S. pose proof (value_size_arr v vs Hv). lia.
Qed.

Lemma map_prop_fuel n key f :
  (forall v, within n v -> ~ no_fuel (f v)) -> ~ no_fuel (map_prop n key f).
Proof.
  intros H. unfold map_prop. destruct (get n key) as [| | | | | | | |vs|] eqn:G; try done.
  assert (R : ~ no_fuel (rmap_list f vs)).
  { apply rmap_list_fuel. intros x Hx. apply H. right. by exists key, vs. }
  unfold no_fuel in *. destruct (rmap_list f vs); simpl; congruence.
Qed.

Lemma eval_entry_fuel rec n e :
  (forall v, within n v -> ~ no_fuel (rec v)) -> ~ no_fuel (eval_entry rec n e).
Proof.
  intros H. unfold eval_entry. destruct e; try done; unfold no_fuel in *.
  - specialize (H (get n key) ltac:(left; by eexists)). destruct (rec _); simpl; congruence.
  - pose proof (map_prop_fuel n key rec H) as M. unfold no_fuel in M.
    destruct (map_prop n key rec); simpl; congruence.
  - assert (M : ~ no_fuel (map_prop n key (visitArrayElement rec))).
    { apply map_prop_fuel. intros v W. specialize (H v W). unfold visitArrayElement, no_fuel in *.
      destruct (rec v); simpl; congruence. }
    unfold no_fuel in M. destruct (map_prop n key _); simpl; congruence.
Qed.

Lemma visitors_fuel n f : map_get (type_of n) visitors = Some f -> ~ no_fuel (f n).
Proof.
  intros H%map_get_Some_elem.
  assert (A : Forall (fun tf => forall n, ~ no_fuel (snd tf n)) visitors).
  { unfold visitors, no_fuel. repeat apply Forall_cons_2; try apply Forall_nil_2; intros m;
      cbn [snd]; try discriminate.
    - unfold visitLiteral. destruct (in_node "bigint" m), (in_node "regex" m); try done.
      unfold get_sub. destruct (get m "regex"); done.
    - unfold visitExpressionStatement. by destruct (get m "directive").
    - unfold visitTemplateElement, get_sub. by destruct (get m "value"). }
  rewrite Forall_forall in A. apply (A _ H).
Qed.

Lemma visitNode_fuel_enough : forall fuel v,
  (value_size v < fuel)%nat -> ~ no_fuel (visitNode_fuel fuel v).
Proof.
  induction fuel as [|fuel IH]; intros v Hv; [lia |]. cbn [visitNode_fuel].
  destruct (negb (truthy v)); [done |]. destruct v as [| | | | | | |n| |]; try done.
  assert (R : forall w, within n w -> ~ no_fuel (visitNode_fuel fuel w)).
  { intros w W%within_size. apply IH. simpl in Hv. lia. }
  unfold getProtobufShapeForNode.
  destruct (map_get (type_of n) skipped) as [child|]; [apply R; left; by eexists |].
  destruct (map_get (type_of n) visitors) as [f|] eqn:Ev; [| done].
  pose proof (visitors_fuel n f Ev) as F. unfold no_fuel in *.
  destruct (f n) as [es|]; simpl; [| congruence].
  assert (L : ~ no_fuel (rmap_list (eval_entry (visitNode_fuel fuel) n) es)).
  { apply rmap_list_fuel. intros x _. by apply eval_entry_fuel. }
  unfold no_fuel in L. destruct (rmap_list _ es); simpl; congruence.
Qed.

(** The recursive calls of a node are on what is [within] it. *)
Lemma rmap_list_ext {E A B} (f g : A -> result E B) l :
  (forall x, x ∈ l -> f x = g x) -> rmap_list f l = rmap_list g l.
Proof.
  induction l as [|x l IH]; intros H; simpl; [done |].
  rewrite (H x) by set_solver. destruct (g x); simpl; [| done].
  rewrite IH; [done |]. intros y Hy. apply H. set_solver.
Qed.

Lemma map_prop_ext n key f g :
  (forall v, within n v -> f v = g v) -> map_prop n key f = map_prop n key g.
Proof.
  intros H. unfold map_prop. destruct (get n key) as [| | | | | | | |vs|] eqn:G; try done.
  rewrite (rmap_list_ext f g); [done |]. intros x Hx. apply H. right. by exists key, vs.
Qed.

Lemma shape_ext rec rec' n :
  (forall v, within n v -> rec v = rec' v) ->
  getProtobufShapeForNode rec n = getProtobufShapeForNode rec' n.
Proof.
  intros H. unfold getProtobufShapeForNode.
  destruct (map_get (type_of n) skipped) as [child|]; [apply H; left; by eexists |].
  destruct (map_get (type_of n) visitors) as [f|]; [| done].
  destruct (f n) as [es|]; [| done]. cbn [rbind].
  rewrite (rmap_list_ext (eval_entry rec n) (eval_entry rec' n)); [done |].
  intros e _. unfold eval_entry. destruct e; try done.
  - rewrite H; [done | left; by eexists].
  - by rewrite (map_prop_ext n key rec rec' H).
  - rewrite (map_prop_ext n key _ (visitArrayElement rec')); [done |].
    intros v W. unfold visitArrayElement. by rewrite H.
Qed.

Lemma visitNode_fuel_irrelevant : forall f f' v,
  (value_size v < f)%nat -> (value_size v < f')%nat -> visitNode_fuel f v = visitNode_fuel f' v.
Proof.
  induction f as [|f IH]; intros [|f'] v H H'; try lia. cbn [visitNode_fuel].
  destruct (negb (truthy v)); [done |]. destruct v as [| | | | | | |n| |]; try done.
  apply shape_ext. intros w W%within_size. simpl in *. apply IH; lia.
Qed.

(** The equation of the recursion, without fuel. *)
Lemma visitNode_eq n : visitNode (VNode n) = getProtobufShapeForNode visitNode n.
Proof.
  unfold visitNode at 1. cbn [visitNode_fuel]. simpl truthy. simpl negb. cbv iota.
  apply shape_ext. intros w W%within_size. apply visitNode_fuel_irrelevant; simpl; lia.
Qed.

(** ** Example nodes *)

Module ProtobufExample.

Definition mk (i : nat) (t : string) (ps : list (string * value)) : node :=
  Node (mkHeader i t None None) ps.
Definition ident (i : nat) (name : string) : node := mk i "Identifier" [("name", VStr name)].

(** [f(x as T, [, 1n]);] *)
Definition bigint : node :=
  mk 1 "Literal" [("value", VBigInt 1); ("bigint", VStr "1"); ("raw", VStr "1n")].
Definition cast : node :=
  mk 2 "TSAsExpression"
    [("expression", VNode (ident 3 "x")); ("typeAnnotation", VNode (mk 4 "TSTypeReference" []))].
Definition call : node :=
  mk 5 "CallExpression"
    [("callee", VNode (ident 6 "f")); ("optional", VBool false);
     ("arguments", VArr [VNode cast;
        VNode (mk 7 "ArrayExpression" [("elements", VArr [VNull; VNode bigint])])])].
Definition program : node :=
  mk 8 "Program"
    [("sourceType", VStr "module");
     ("body", VArr [VNode (mk 9 "ExpressionStatement" [("expression", VNode call)])])].

(** [f(1);] *)
Definition statement : node :=
  mk 20 "ExpressionStatement"
    [("expression", VNode (mk 21 "CallExpression"
        [("callee", VNode (ident 22 "f")); ("optional", VBool false);
         ("arguments", VArr [VNode (mk 23 "Literal" [("value", VNum (NumQ 1)); ("raw", VStr "1")])])]))].

(** [export = x;] *)
Definition exportAssignment : node := mk 10 "TSExportAssignment" [("expression", VNode (ident 3 "x"))].

Definition jsx : node := mk 11 "JSXElement" [("children", VArr [])].

End ProtobufExample.

(** ** Properties *)


(** [visitNode] ends on every value, gives [undefined] for the absent ones,
    and on the type-level wrappers of TypeScript gives what it gives on the
    wrapped node: they leave no trace in the message. *)
Theorem visitNode_skips_wrappers v n child :
  visitNode v <> Throw ProtoOutOfFuel /\
  (truthy v = false -> visitNode v = Ok PUndefined) /\
  (map_get (type_of n) skipped = Some child -> visitNode (VNode n) = visitNode (get n child)).
Proof.
  split; [apply visitNode_fuel_enough; lia |]. split.
  - intros T. unfold visitNode. cbn [visitNode_fuel]. by rewrite T.
  - intros S. rewrite visitNode_eq. unfold getProtobufShapeForNode. by rewrite S.
Qed.

(** Two kinds of nodes have a place in the schema that the code does not
    use. An [export = e] gets the unknown type and a field the message has not,
    although the schema has a type and a field for it; the digits of a bigint go
    to a key [bigInt] while the field of the schema is [bigint]. *)
Theorem export_assignment_and_bigint_lost n p :
  visitNode (VNode n) = Ok p ->
  (type_of n = "TSExportAssignment" ->
     (exists loc props, p = PNode UnknownNodeType loc "tSExportAssignment" props) /\
     map_get "tSExportAssignment" node_oneof = None /\
     map_get "exportAssignment" node_oneof = Some "ExportAssignment" /\
     enum_of "ExportAssignment" = 71) /\
  (type_of n = "Literal" -> in_node "bigint" n = true ->
     (exists type loc props, p = PNode type loc "literal" props /\
        map_get "bigInt" props = Some (PVal (get n "bigint")) /\ map_get "bigint" props = None) /\
     map_get "bigInt" (fields_of "Literal") = None /\
     map_get "bigint" (fields_of "Literal") = Some FString).
Proof.
  intros E. rewrite visitNode_eq in E. unfold getProtobufShapeForNode in E. split.
  - intros T. rewrite T in E. change (map_get "TSExportAssignment" skipped) with (@None string) in E.
    change (map_get "TSExportAssignment" visitors) with (Some visitExportAssignment) in E.
    cbn [rbind visitExportAssignment] in E.
    destruct (rmap_list _ _) as [props|]; [| done]. apply Ok_inj in E as <-.
    split; [| done]. by eexists _, _.
  - intros T B. rewrite T in E. change (map_get "Literal" skipped) with (@None string) in E.
    change (map_get "Literal" visitors) with (Some visitLiteral) in E.
    unfold visitLiteral in E. rewrite B in E. apply Ok_inj in E as <-.
    split; [| done]. eexists _, _, _. done.
Qed.

(** The field of number literals is an [int32]: the object of [1.5] has a number
    that the field cannot hold. *)
Lemma fractions_do_not_fit :
  let half := NumQ (Qmake 3 2) in
  let n := ProtobufExample.mk 30 "Literal" [("value", VNum half); ("raw", VStr "1.5")] in
  visitNode (VNode n)
  = Ok (PNode 68 None "literal" [("raw", PVal (VStr "1.5")); ("valueNumber", PVal (VNum half))])
  /\ map_get "valueNumber" (fields_of "Literal") = Some FInt32 /\ int32 half = false.
Proof. by repeat split; vm_compute. Qed.

(** A node of a type without visitor (JSX, the types and declarations of
    TypeScript) becomes a node of the unknown type whose [rawType] stands under
    a field named after its type, which the message has not: the field
    [unknownNode] of the schema, made for the raw type, is not set. *)
Theorem unknown_nodes_lose_their_type n :
  type_of n ∈ unsupported ->
  visitNode (VNode n)
  = Ok (PNode UnknownNodeType (h_loc (hdr n)) (lowerCaseFirstLetter (type_of n))
          [("rawType", PVal (VStr (type_of n)))]) /\
  map_get (lowerCaseFirstLetter (type_of n)) node_oneof = None /\
  map_get "unknownNode" node_oneof = Some "UnknownNode" /\
  map_get "rawType" (fields_of "UnknownNode") = Some FString.
Proof.
  intros H. destruct (unsupported_ok _ H) as [H1 H2]. split; [| done].
  rewrite visitNode_eq. unfold getProtobufShapeForNode.
  assert (D : forallb (fun t => bool_decide (map_get t skipped = None)
                && match map_get t visitors with None => true | Some _ => false end) unsupported = true)
    by (vm_compute; reflexivity).
  rewrite forallb_forall in D. apply list_elem_of_In in H. specialize (D _ H).
  apply andb_true_iff in D as [D1 D2]. apply bool_decide_eq_true in D1. rewrite D1.
  destruct (map_get (type_of n) visitors); [done |]. cbn [rbind]. by rewrite H2.
Qed.

(** ** Witnesses *)


Lemma visitNode_skips_wrappers_witness :
  visitNode (VNode ProtobufExample.cast) = visitNode (VNode (ProtobufExample.ident 3 "x")).
Proof.
  destruct (visitNode_skips_wrappers VNull ProtobufExample.cast "expression") as (_ & _ & H).
  rewrite H by reflexivity. reflexivity.
Defined.

Lemma export_assignment_and_bigint_lost_witness :
  exists p loc props, visitNode (VNode ProtobufExample.exportAssignment) = Ok p /\
    p = PNode UnknownNodeType loc "tSExportAssignment" props.
Proof.
  destruct (visitNode (VNode ProtobufExample.exportAssignment)) as [p|] eqn:E;
    [| vm_compute in E; discriminate E].
  destruct (export_assignment_and_bigint_lost _ _ E) as [H _].
  destruct (H eq_refl) as [(loc & props & ->) _]. by exists (PNode UnknownNodeType loc "tSExportAssignment" props), loc, props.
Defined.

Lemma unknown_nodes_lose_their_type_witness :
  visitNode (VNode ProtobufExample.jsx)
  = Ok (PNode UnknownNodeType None "jSXElement" [("rawType", PVal (VStr "JSXElement"))]).
Proof.
  apply (unknown_nodes_lose_their_type ProtobufExample.jsx). vm_compute. set_solver.
Defined.
