(* ===== verification/Metrics.v ===== *)
(** * Metrics: the metrics of a source file

    The code of [packages/jsts/src/linter/visitors/metrics]: line sets, counts
    of nodes, comment and NOSONAR lines, lines of code with the tokens of a Vue
    file, and [computeMetrics]. *)

From Stdlib Require Import ZArith Lia.
From stdpp Require Import base list gmap strings sorting.
From S2P Require Import Prelude JsString Estree.

Local Open Scope Z_scope.

(** ** [helpers]: lines, locations, tokens, counter *)

(** The loop of [addLines] for [count] lines. *)
Fixpoint addLines_loop (count : nat) (line : Z) (lines : list Z) : list Z :=
  match count with
  | O => lines
  | S count' => addLines_loop count' (line + 1) (set_add line lines)
  end.

(** [addLines(startLine, endLine, lines)] *)
Definition addLines (startLine endLine : Z) (lines : list Z) : list Z :=
  addLines_loop (Z.to_nat (endLine - startLine + 1)) startLine lines.

Record Location := mkLocation { startLine : Z; startCol : Z; endLine : Z; endCol : Z }.

Instance Location_eq_dec : EqDecision Location.
Proof. solve_decision. Defined.

Definition convertLocation (loc : SourceLocation) : Location :=
  mkLocation (line (start loc)) (column (start loc)) (line (endp loc)) (column (endp loc)).

(** The tokens and the comments, the ones of a Vue template last. *)
Definition extractTokensAndComments (sc : SourceCode) : list Token * list Comment :=
  match sc_templateBody sc with
  | Some (tokens, comments) => (sc_tokens sc ++ tokens, sc_comments sc ++ comments)
  | None => (sc_tokens sc, sc_comments sc)
  end.

Definition visitAndCountIf (sc : SourceCode) (predicate : node -> bool) : Z :=
  visit sc (fun results n => if predicate n then results + 1 else results) 0.

(** ** Counts of nodes *)

Definition CLASS_NODES : list string := ["ClassDeclaration"; "ClassExpression"].

Definition countClasses (sc : SourceCode) : Z :=
  visitAndCountIf sc (fun n => includes (type_of n) CLASS_NODES).

Definition FUNCTION_NODES : list string :=
  ["FunctionDeclaration"; "FunctionExpression"; "ArrowFunctionExpression"].

Definition countFunctions (sc : SourceCode) : Z :=
  visitAndCountIf sc (fun n => includes (type_of n) FUNCTION_NODES).

Definition STATEMENT_NODES : list string :=
  ["VariableDeclaration"; "EmptyStatement"; "ExpressionStatement"; "IfStatement";
   "DoWhileStatement"; "WhileStatement"; "ForInStatement"; "ForOfStatement"; "ForStatement";
   "ContinueStatement"; "BreakStatement"; "ReturnStatement"; "WithStatement";
   "SwitchStatement"; "ThrowStatement"; "TryStatement"; "DebuggerStatement"].

Definition countStatements (sc : SourceCode) : Z :=
  visitAndCountIf sc (fun n => includes (type_of n) STATEMENT_NODES).

Definition LOOP_NODES : list string :=
  ["ForStatement"; "ForInStatement"; "ForOfStatement"; "WhileStatement"; "DoWhileStatement"].

Definition CONDITIONAL_NODES : list string :=
  ["IfStatement"; "ConditionalExpression"; "SwitchCase"].

Definition COMPLEXITY_NODES : list string :=
  CONDITIONAL_NODES ++ FUNCTION_NODES ++ LOOP_NODES ++ ["LogicalExpression"].

Definition computeCyclomaticComplexity (sc : SourceCode) : Z :=
  visit sc (fun complexity n =>
    if includes (type_of n) COMPLEXITY_NODES then complexity + 1 else complexity) 0.

(** ** Executable lines *)

Definition EXECUTABLE_NODES : list string :=
  ["ExpressionStatement"; "IfStatement"; "LabeledStatement"; "BreakStatement";
   "ContinueStatement"; "WithStatement"; "SwitchStatement"; "ReturnStatement";
   "ThrowStatement"; "TryStatement"; "WhileStatement"; "DoWhileStatement"; "ForStatement";
   "ForInStatement"; "DebuggerStatement"; "VariableDeclaration"; "ForOfStatement"].

Definition findExecutableLines (sc : SourceCode) : list Z :=
  sort_numbers (visit sc (fun lines n =>
    match h_loc (hdr n) with
    | Some loc =>
        if includes (type_of n) EXECUTABLE_NODES then set_add (line (start loc)) lines else lines
    | None => lines
    end) []).

(** ** Comments *)

(** [comment.value.startsWith('*') ? comment.value.substring(1).trim() : ...] *)
Definition comment_text (c : Comment) : string :=
  if startsWith "*" (c_value c) then trim (drop_string 1 (c_value c)) else trim (c_value c).

Definition is_nosonar (c : Comment) : bool := upper_startsWith "NOSONAR" (comment_text c).

(** The body of the loop over the comments: the two sets of lines. *)
Definition addComment (sets : list Z * list Z) (c : Comment) : list Z * list Z :=
  let (commentLines, nosonarLines) := sets in
  match c_loc c with
  | Some loc =>
      if is_nosonar c
      then (commentLines, addLines (line (start loc)) (line (endp loc)) nosonarLines)
      else if Nat.ltb 0 (String.length (comment_text c))
      then (addLines (line (start loc)) (line (endp loc)) commentLines, nosonarLines)
      else sets
  | None => sets
  end.

(** The comments considered: without the ones before the first token, when they
    are to be ignored. *)
Definition considered_comments (sc : SourceCode) (ignoreHeaderComments : bool) : list Comment :=
  match sc_getFirstToken sc (sc_ast sc) with
  | Some firstToken =>
      if ignoreHeaderComments
      then drop (length (sc_getCommentsBefore sc firstToken)) (sc_comments sc)
      else sc_comments sc
  | None => sc_comments sc
  end.

(** [findCommentLines]: the comment lines and the NOSONAR lines. *)
Definition findCommentLines (sc : SourceCode) (ignoreHeaderComments : bool) : list Z * list Z :=
  let '(commentLines, nosonarLines) :=
    fold_left addComment (considered_comments sc ignoreHeaderComments) ([], []) in
  (sort_numbers commentLines, sort_numbers nosonarLines).

Definition findNoSonarLines (sc : SourceCode) : list Z := (findCommentLines sc false).2.

(** ** Lines of code *)

(** The state of the loop of [extractVuejsTokens]. *)
Record vue_state := mkVue { withinStyle : bool; withinComment : bool; kept : list Token }.

Definition vue_step (st : vue_state) (token : Token) : vue_state :=
  let withinStyle :=
    if (t_type token =s "HTMLTagOpen") && (t_value token =s "style") then true
    else if (t_type token =s "HTMLEndTagOpen") && (t_value token =s "style") then false
    else withinStyle st in
  let continue (withinComment : bool) := mkVue withinStyle withinComment (kept st) in
  if t_type token =s "HTMLWhitespace" then continue (withinComment st)
  else if (t_type token =s "HTMLRawText") && negb withinStyle then continue (withinComment st)
  else if withinStyle && negb (withinComment st) && (t_value token =s "/*") then continue true
  else if withinStyle && withinComment st then continue (negb (t_value token =s "*/"))
  else mkVue withinStyle (withinComment st) (kept st ++ [token]).

(** [extractVuejsTokens(templateBody)] *)
Definition extractVuejsTokens (tokens : list Token) : list Token :=
  kept (fold_left vue_step tokens (mkVue false false [])).

Definition addToken (lines : list Z) (t : Token) : list Z :=
  addLines (line (start (t_loc t))) (line (endp (t_loc t))) lines.

Definition ncloc_tokens (sc : SourceCode) : list Token :=
  match sc_templateBody sc with
  | Some (tokens, _) => sc_tokens sc ++ extractVuejsTokens tokens
  | None => sc_tokens sc
  end.

Definition findNcloc (sc : SourceCode) : list Z :=
  sort_numbers (fold_left addToken (ncloc_tokens sc) []).

(** ** All the metrics *)

Record Metrics := mkMetrics {
  ncloc : list Z;
  commentLines : list Z;
  nosonarLines : list Z;
  executableLines : list Z;
  functions : Z;
  statements : Z;
  classes : Z;
  complexity : Z;
  cognitiveComplexity : Z
}.

Definition computeMetrics (sc : SourceCode) (ignoreHeaderComments : bool)
    (cognitiveComplexity : Z) : Metrics :=
  let '(commentLines, nosonarLines) := findCommentLines sc ignoreHeaderComments in
  mkMetrics (findNcloc sc) commentLines nosonarLines (findExecutableLines sc)
    (countFunctions sc) (countStatements sc) (countClasses sc)
    (computeCyclomaticComplexity sc) cognitiveComplexity.

(** ** Lemmas on line sets *)

(** Strictly ascending, hence without duplicates. *)
Definition line_list (l : list Z) : Prop := StronglySorted Z.lt l.

(** The lines a location spans. *)
Definition spans (loc : SourceLocation) (l : Z) : Prop :=
  line (start loc) <= l <= line (endp loc).

Lemma elem_of_addLines_loop : forall count l lines x,
  x ∈ addLines_loop count l lines <-> x ∈ lines \/ l <= x < l + Z.of_nat count.
Proof.
  induction count as [|count IH]; intros l lines x; cbn [addLines_loop].
  - split; [by left | intros [H|H]; [done | lia]].
  - rewrite IH, elem_of_set_add. split; [intros [[->|H]|H] | intros [H|H]]; try tauto;
      try (right; lia).
    destruct (decide (x = l)); [left; by left | right; lia].
Qed.

Lemma elem_of_addLines s e lines x : x ∈ addLines s e lines <-> x ∈ lines \/ s <= x <= e.
Proof. unfold addLines. rewrite elem_of_addLines_loop. intuition lia. Qed.

Lemma NoDup_addLines s e lines : NoDup lines -> NoDup (addLines s e lines).
Proof.
  unfold addLines. generalize (Z.to_nat (e - s + 1)). intros count. clear e.
  revert s lines. induction count as [|count IH]; intros l lines H; [done |].
  apply IH. by apply NoDup_set_add.
Qed.

Lemma sort_numbers_lines l : NoDup l -> line_list (sort_numbers l).
Proof.
  intros ND. pose proof (sort_on_ascending (fun z => z) l) as A.
  assert (N : NoDup (sort_numbers l)) by (by apply NoDup_sort_on).
  unfold sort_numbers in *. revert A N. generalize (sort_on (fun z => z) l).
  clear. intros l A. induction A as [|x l A IH F]; intros N; [constructor |].
  apply NoDup_cons in N as [Hx N]. constructor; [by apply IH |].
  apply Forall_forall. intros y Hy. rewrite Forall_forall in F. specialize (F y Hy).
  assert (x <> y) by (intros ->; done). lia.
Qed.

Lemma elem_of_sort_numbers x l : x ∈ sort_numbers l <-> x ∈ l.
Proof. apply elem_of_sort_on. Qed.

#[export] Hint Resolve sort_numbers_lines NoDup_addLines : js_lists.

(** A fold that adds the lines of some locations. *)
Lemma fold_addLines {A} (loc : A -> option SourceLocation) (step : list Z -> A -> list Z) l :
  (forall s a, step s a = match loc a with
                          | Some o => addLines (line (start o)) (line (endp o)) s
                          | None => s
                          end) ->
  forall s, NoDup s ->
    NoDup (fold_left step l s) /\
    forall x, x ∈ fold_left step l s <->
      x ∈ s \/ exists a o, a ∈ l /\ loc a = Some o /\ spans o x.
Proof.
  intros Hstep. induction l as [|a l IH]; intros s ND; simpl.
  { split; [done |]. intros x. split; [by left | intros [H|(? & ? & H & _)]; [done | set_solver]]. }
  rewrite Hstep. destruct (loc a) as [o|] eqn:E.
  - destruct (IH (addLines (line (start o)) (line (endp o)) s)) as [N H]; [by apply NoDup_addLines |].
    split; [done |]. intros x. rewrite H, elem_of_addLines. setoid_rewrite elem_of_cons. split.
    + intros [[Hx|Hx]|(b & p & Hb & Hp & Hx)]; [by left | right; exists a, o; by auto |].
      right. exists b, p. by auto.
    + intros [Hx|(b & p & [->|Hb] & Hp & Hx)]; [by left; left | |].
      * simplify_eq. by left; right.
      * right. by exists b, p.
  - destruct (IH s ND) as [N H]. split; [done |]. intros x. rewrite H.
    setoid_rewrite elem_of_cons. split.
    + intros [Hx|(b & p & Hb & Hp & Hx)]; [by left | right; exists b, p; by auto].
    + intros [Hx|(b & p & [->|Hb] & Hp & Hx)]; [by left | congruence |].
      right. by exists b, p.
Qed.

(** The two folds of [findCommentLines]. *)
Definition comment_span (nosonar : bool) (c : Comment) : option SourceLocation :=
  if nosonar then if is_nosonar c then c_loc c else None
  else if negb (is_nosonar c) && Nat.ltb 0 (String.length (comment_text c)) then c_loc c else None.

Definition add_span (nosonar : bool) (s : list Z) (c : Comment) : list Z :=
  match comment_span nosonar c with
  | Some o => addLines (line (start o)) (line (endp o)) s
  | None => s
  end.

Lemma fold_addComment l : forall a b,
  fold_left addComment l (a, b) = (fold_left (add_span false) l a, fold_left (add_span true) l b).
Proof.
  induction l as [|c l IH]; intros a b; [done |]. cbn [fold_left].
  rewrite <- IH. f_equal. unfold addComment, add_span, comment_span.
  destruct (c_loc c), (is_nosonar c), (Nat.ltb 0 (String.length (comment_text c))); done.
Qed.

Lemma visitAndCountIf_length sc p :
  visitAndCountIf sc p
  = Z.of_nat (length (List.filter p (preorder (sc_visitorKeys sc) (sc_ast sc)))).
Proof. unfold visitAndCountIf. rewrite visit_fold, fold_left_count. lia. Qed.

(** ** Properties *)

(** The lines of code are in strictly ascending order, and are exactly the
    lines a considered token spans. *)
Theorem findNcloc_lines sc :
  line_list (findNcloc sc) /\
  forall l, l ∈ findNcloc sc <-> exists t, t ∈ ncloc_tokens sc /\ spans (t_loc t) l.
Proof.
  destruct (fold_addLines (fun t => Some (t_loc t)) addToken (ncloc_tokens sc)
    ltac:(done) []) as [N H]; [constructor |].
  split; [by apply sort_numbers_lines |]. intros l. unfold findNcloc.
  rewrite elem_of_sort_numbers, H. split; [| naive_solver].
  intros [Hl|(t & o & Ht & [= <-] & S)]; [set_solver | by exists t].
Qed.

(** The comment lines and the NOSONAR lines are in strictly ascending
    order; a line is a NOSONAR line exactly when a considered comment on it
    starts with NOSONAR in whatever case (after a leading star and spaces), and
    a comment line exactly when a considered comment on it has a text that is
    not empty and does not. *)
Theorem findCommentLines_lines sc ignoreHeaderComments :
  let result := findCommentLines sc ignoreHeaderComments in
  let comments := considered_comments sc ignoreHeaderComments in
  line_list result.1 /\ line_list result.2 /\
  (forall l, l ∈ result.2 <-> exists c o,
     c ∈ comments /\ c_loc c = Some o /\ is_nosonar c = true /\ spans o l) /\
  (forall l, l ∈ result.1 <-> exists c o,
     c ∈ comments /\ c_loc c = Some o /\ is_nosonar c = false /\ comment_text c <> "" /\ spans o l).
Proof.
  cbv zeta. unfold findCommentLines. rewrite fold_addComment. simpl.
  destruct (fold_addLines (comment_span false) (add_span false)
    (considered_comments sc ignoreHeaderComments) ltac:(done) []) as [N1 H1]; [constructor |].
  destruct (fold_addLines (comment_span true) (add_span true)
    (considered_comments sc ignoreHeaderComments) ltac:(done) []) as [N2 H2]; [constructor |].
  split; [by apply sort_numbers_lines |]. split; [by apply sort_numbers_lines |].
  split; intros l; rewrite elem_of_sort_numbers, ?H1, ?H2; unfold comment_span; split.
  - intros [Hl|(c & o & Hc & E & S)]; [set_solver |]. exists c, o.
    destruct (is_nosonar c); [done | done].
  - intros (c & o & Hc & E & Hn & S). right. exists c, o. by rewrite Hn.
  - intros [Hl|(c & o & Hc & E & S)]; [set_solver |]. exists c, o.
    destruct (is_nosonar c), (comment_text c) eqn:T; try done.
  - intros (c & o & Hc & E & Hn & T & S). right. exists c, o. rewrite Hn.
    by destruct (comment_text c).
Qed.

(** In the template tokens of a Vue file, a CSS comment that does not end
    with a token of its own ([/* x*/] has the tokens [/*] and [x*/]) hides the
    code that follows it, up to the next such token or for ever, also in the
    next style sections: the line of [a{}] is not a line of code. *)
Theorem css_comment_hides_code :
  let token (type value : string) (l : Z) :=
    mkToken type value (mkLoc (mkPos l 0) (mkPos l 5)) (l * 10, l * 10 + 5) in
  let style := [token "HTMLTagOpen" "style" 1; token "HTMLRawText" "/*" 2;
                token "HTMLRawText" "x*/" 2; token "HTMLRawText" "a{}" 3;
                token "HTMLEndTagOpen" "style" 4] in
  let next := [token "HTMLTagOpen" "style" 5; token "HTMLRawText" "b{}" 6] in
  map t_value (extractVuejsTokens (style ++ next)) = ["style"; "style"].
Proof. vm_compute. reflexivity. Qed.

(** The counts are the numbers of nodes of the tree whose type is in the
    table, each node counted once; the complexity is at least the number of
    functions. *)
Theorem counts_are_numbers_of_nodes sc ignoreHeaderComments cognitive :
  let m := computeMetrics sc ignoreHeaderComments cognitive in
  let count types := Z.of_nat (length (List.filter (fun n => includes (type_of n) types)
                                 (preorder (sc_visitorKeys sc) (sc_ast sc)))) in
  functions m = count FUNCTION_NODES /\ statements m = count STATEMENT_NODES /\
  classes m = count CLASS_NODES /\ complexity m = count COMPLEXITY_NODES /\
  functions m <= complexity m.
Proof.
  cbv zeta. unfold computeMetrics. destruct (findCommentLines sc ignoreHeaderComments). simpl.
  unfold countFunctions, countStatements, countClasses.
  change (computeCyclomaticComplexity sc)
    with (visitAndCountIf sc (fun n => includes (type_of n) COMPLEXITY_NODES)).
  rewrite !visitAndCountIf_length. do 4 (split; [done |]).
  apply Nat2Z.inj_le. generalize (preorder (sc_visitorKeys sc) (sc_ast sc)). intros nodes.
  induction nodes as [|n nodes IH]; cbn [List.filter length]; [done |].
  assert (Himp : includes (type_of n) FUNCTION_NODES = true ->
                 includes (type_of n) COMPLEXITY_NODES = true).
  { rewrite !includes_spec. unfold COMPLEXITY_NODES. set_solver. }
  destruct (includes (type_of n) FUNCTION_NODES).
  - rewrite Himp by done. cbn [length]. lia.
  - destruct (includes (type_of n) COMPLEXITY_NODES); cbn [length]; lia.
Qed.
