(* ===== verification/Highlighting.v ===== *)
(** * Highlighting: syntax highlighting, symbol highlighting, duplication tokens

    The code of [packages/jsts/src/linter/visitors]: [syntax-highlighting.ts],
    [symbol-highlighting.ts] and [cpd.ts]. Tokens are compared by identity in
    the code; two tokens of a file have different ranges, so equality of their
    contents is the same. *)

From Stdlib Require Import ZArith Lia.
From stdpp Require Import base list gmap strings sorting.
From S2P Require Import Prelude JsString Estree Ast Metrics.

(** ** Syntax highlighting *)

Inductive TextType := CONSTANT | COMMENT | STRUCTURED_COMMENT | KEYWORD | STRING.

Record SyntaxHighlight := mkHighlight { h_location : Location; textType : TextType }.

(** [highlight(node, highlightKind, highlights)] *)
Definition highlight (loc : option SourceLocation) (highlightKind : TextType)
    (highlights : list SyntaxHighlight) : list SyntaxHighlight :=
  match loc with
  | None => highlights
  | Some loc => highlights ++ [mkHighlight (convertLocation loc) highlightKind]
  end.

(** One turn of the loop over the tokens. *)
Definition highlightToken (sc : SourceCode) (highlights : list SyntaxHighlight) (token : Token)
  : list SyntaxHighlight :=
  let loc := Some (t_loc token) in
  if includes (t_type token)
       ["HTMLTagOpen"; "HTMLTagClose"; "HTMLEndTagOpen"; "HTMLSelfClosingTagClose"; "Keyword"]
  then highlight loc KEYWORD highlights
  else if includes (t_type token) ["HTMLLiteral"; "String"; "Template"; "RegularExpression"]
  then highlight loc STRING highlights
  else if t_type token =s "Numeric" then highlight loc CONSTANT highlights
  else if t_type token =s "Identifier" then
    let n := sc_getNodeByRangeIndex sc (t_range token).1 in
    let h1 := if (t_value token =s "type") && opt_type_is n "TSTypeAliasDeclaration"
              then highlight loc KEYWORD highlights else highlights in
    if (t_value token =s "as") && opt_type_is n "TSAsExpression" then highlight loc KEYWORD h1 else h1
  else highlights.

Definition highlightComment (highlights : list SyntaxHighlight) (comment : Comment)
  : list SyntaxHighlight :=
  if ((c_type comment =s "Block") && startsWith "*" (c_value comment))
     || (c_type comment =s "HTMLBogusComment")
  then highlight (c_loc comment) STRUCTURED_COMMENT highlights
  else highlight (c_loc comment) COMMENT highlights.

Definition getSyntaxHighlighting (sc : SourceCode) : list SyntaxHighlight :=
  let (tokens, comments) := extractTokensAndComments sc in
  fold_left highlightComment comments (fold_left (highlightToken sc) tokens []).

(** ** Symbol highlighting *)

Record SymbolHighlight := mkSymbol { declaration : Location; symbol_references : list Location }.

(** [openCurlyBracesStack.pop()!.loc] on an empty stack *)
Inductive symbol_error := NoOpenBrace.

Section Symbols.
Context (sm : ScopeManager).
(** [sourceCode.getDeclaredVariables(node)] *)
Context (getDeclaredVariables : node -> list VarId).
Context (sc : SourceCode).

(** What ['*'] has collected once the nodes have been entered. *)
Definition collectVariables (nodes : list node) : list VarId :=
  fold_left (fun variables n => set_add_all variables (getDeclaredVariables n)) nodes [].

Definition identifierLocation (n : node) (loc : SourceLocation) : Location :=
  let annotation := if type_of n =s "Identifier" then get_node n "typeAnnotation" else None in
  let endp' := match annotation with
               | Some a => match h_range (hdr a) with
                           | Some r => sc_getLocFromIndex sc r.1
                           | None => endp loc
                           end
               | None => endp loc
               end in
  convertLocation (mkLoc (start loc) endp').

(** [new Set([...defs, ...references])], by identity. *)
Definition distinct_nodes (l : list node) : list node :=
  fold_left (fun s n => if existsb (same_node n) s then s else s ++ [n]) l [].

(** The identifiers with a location, and that location. *)
Definition located (n : node) : option (node * SourceLocation) :=
  match h_loc (hdr n) with Some l => Some (n, l) | None => None end.

Definition start_line (x : node * SourceLocation) : Z := line (start x.2).

(** [allRef] *)
Definition all_references (v : Variable_) : list (node * SourceLocation) :=
  sort_on start_line (omap located (distinct_nodes
    (map def_name (var_defs v) ++ map ref_identifier (omap (reference_at sm) (var_references v))))).

Definition highlightVariable (v : Variable_) : option SymbolHighlight :=
  match all_references v with
  | [] => None
  | (n, l) :: rest =>
      Some (mkSymbol (identifierLocation n l) (map (fun x => identifierLocation x.1 x.2) rest))
  end.

(** The two stacks (their tops first) and the highlights of the loop over the
    tokens. *)
Record brackets := mkBrackets {
  openCurlyBracesStack : list Token;
  openHtmlTagsStack : list Token;
  bracket_result : list SymbolHighlight
}.

Definition pair_highlight (open close : Token) : SymbolHighlight :=
  mkSymbol (convertLocation (t_loc open)) [convertLocation (t_loc close)].

Definition bracketToken (st : brackets) (token : Token) : result symbol_error brackets :=
  if t_type token =s "Punctuator" then
    if t_value token =s "{" then
      Ok (mkBrackets (token :: openCurlyBracesStack st) (openHtmlTagsStack st) (bracket_result st))
    else if t_value token =s "}" then
      match openCurlyBracesStack st with
      | [] => Throw NoOpenBrace
      | open :: rest =>
          Ok (mkBrackets rest (openHtmlTagsStack st)
                (bracket_result st ++ [pair_highlight open token]))
      end
    else Ok st
  else if t_type token =s "HTMLTagOpen" then
    Ok (mkBrackets (openCurlyBracesStack st) (token :: openHtmlTagsStack st) (bracket_result st))
  else if t_type token =s "HTMLSelfClosingTagClose" then
    Ok (mkBrackets (openCurlyBracesStack st) (List.tl (openHtmlTagsStack st)) (bracket_result st))
  else if t_type token =s "HTMLEndTagOpen" then
    match openHtmlTagsStack st with
    | [] => Ok st
    | open :: rest =>
        Ok (mkBrackets (openCurlyBracesStack st) rest
              (bracket_result st ++ [pair_highlight open token]))
    end
  else Ok st.

Fixpoint bracketTokens (st : brackets) (tokens : list Token) : result symbol_error brackets :=
  match tokens with
  | [] => Ok st
  | t :: rest => let! st' := bracketToken st t in bracketTokens st' rest
  end.

(** ['Program:exit'], on the variables collected: the list the rule reports as
    the text of its only issue. *)
Definition symbolHighlighting (variables : list VarId) : result symbol_error (list SymbolHighlight) :=
  let symbols := omap (fun v => match variable_at sm v with
                                | Some x => highlightVariable x
                                | None => None
                                end) variables in
  let! st := bracketTokens (mkBrackets [] [] symbols) (extractTokensAndComments sc).1 in
  Ok (bracket_result st).

End Symbols.

(** ** Duplication tokens *)

Record CpdToken := mkCpd { location : Location; image : string }.

(** [jsxTokens], [importTokens], [requireTokens] *)
Record extracted := mkExtracted {
  jsxTokens : list Token;
  importTokens : list Token;
  requireTokens : list Token
}.

Definition isStringLiteralToken (token : Token) : bool :=
  startsWith (String (Ascii.ascii_of_nat 34) "") (t_value token)
  || startsWith "'" (t_value token) || startsWith "`" (t_value token).

Definition isRequireCall (n : option node) : bool :=
  match n with
  | Some n =>
      (type_of n =s "CallExpression")
      && match get_node n "callee" with
         | Some callee => (type_of callee =s "Identifier") && str_prop_is callee "name" "require"
         | None => false
         end
  | None => false
  end.

(** One of the four forms of [const x = require('y')]. *)
Definition isRequireDeclaration (n : node) : bool :=
  match get_nodes n "declarations" with
  | [declaration] =>
      let init := get_node declaration "init" in
      let sub (o : option node) (k : string) : option node :=
        match o with Some x => get_node x k | None => None end in
      isRequireCall init
      || (opt_type_is init "CallExpression" && isRequireCall (sub init "callee"))
      || (opt_type_is init "MemberExpression" && isRequireCall (sub init "object"))
      || (opt_type_is init "CallExpression"
          && opt_type_is (sub init "callee") "MemberExpression"
          && isRequireCall (sub (sub init "callee") "object"))
  | _ => false
  end.

Definition extractNode (sc : SourceCode) (e : extracted) (n : node) : extracted :=
  if type_of n =s "JSXAttribute" then
    match get_node n "value" with
    | Some v =>
        if type_of v =s "Literal"
        then mkExtracted (jsxTokens e ++ sc_getTokens sc v) (importTokens e) (requireTokens e)
        else e
    | None => e
    end
  else if type_of n =s "ImportDeclaration" then
    mkExtracted (jsxTokens e) (importTokens e ++ sc_getTokens sc n) (requireTokens e)
  else if type_of n =s "VariableDeclaration" then
    if isRequireDeclaration n
    then mkExtracted (jsxTokens e) (importTokens e) (requireTokens e ++ sc_getTokens sc n)
    else e
  else e.

Definition extractTokens (sc : SourceCode) : extracted :=
  visit sc (extractNode sc) (mkExtracted [] [] []).

(** The body of [tokens.forEach]. *)
Definition cpdToken (e : extracted) (cpdTokens : list CpdToken) (token : Token) : list CpdToken :=
  if Nat.eqb (String.length (trim (t_value token))) 0 then cpdTokens
  else if bool_decide (token ∈ importTokens e) then cpdTokens
  else if bool_decide (token ∈ requireTokens e) then cpdTokens
  else
    let text := if isStringLiteralToken token && negb (bool_decide (token ∈ jsxTokens e))
                then "LITERAL" else t_value token in
    cpdTokens ++ [mkCpd (convertLocation (t_loc token)) text].

Definition getCpdTokens (sc : SourceCode) : list CpdToken :=
  fold_left (cpdToken (extractTokens sc)) (sc_tokens sc) [].

(** ** Matching braces *)

Definition is_open (t : Token) : bool := (t_type t =s "Punctuator") && (t_value t =s "{").
Definition is_close (t : Token) : bool := (t_type t =s "Punctuator") && (t_value t =s "}").
Definition is_html (t : Token) : bool :=
  includes (t_type t) ["HTMLTagOpen"; "HTMLSelfClosingTagClose"; "HTMLEndTagOpen"].

(** Token sequences where every closing brace has its opening brace, with the
    pairs in the order of the closing braces. *)
Inductive balanced : list Token -> list (Token * Token) -> Prop :=
| bal_nil : balanced [] []
| bal_other t rest ps :
    is_open t = false -> is_close t = false -> is_html t = false ->
    balanced rest ps -> balanced (t :: rest) ps
| bal_pair o inner ps c rest qs :
    is_open o = true -> is_close c = true -> balanced inner ps -> balanced rest qs ->
    balanced (o :: inner ++ c :: rest) (ps ++ (o, c) :: qs).

(** How many braces the tokens leave open, when no closing brace is alone. *)
Fixpoint depth_after (d : nat) (tokens : list Token) : option nat :=
  match tokens with
  | [] => Some d
  | t :: rest =>
      if is_open t then depth_after (S d) rest
      else if is_close t then match d with O => None | S d' => depth_after d' rest end
      else depth_after d rest
  end.

Lemma bracketToken_open st t :
  is_open t = true ->
  bracketToken st t
  = Ok (mkBrackets (t :: openCurlyBracesStack st) (openHtmlTagsStack st) (bracket_result st)).
Proof. unfold is_open, bracketToken. intros [-> ->]%andb_true_iff. done. Qed.

Lemma bracketToken_close st t :
  is_close t = true ->
  bracketToken st t
  = match openCurlyBracesStack st with
    | [] => Throw NoOpenBrace
    | o :: rest => Ok (mkBrackets rest (openHtmlTagsStack st)
                         (bracket_result st ++ [pair_highlight o t]))
    end.
Proof.
  unfold is_close, bracketToken. intros [-> H]%andb_true_iff.
  apply String.eqb_eq in H. by rewrite H.
Qed.

(** The other tokens leave the stack of braces. *)
Lemma bracketToken_other st t :
  is_open t = false -> is_close t = false ->
  exists st', bracketToken st t = Ok st' /\ openCurlyBracesStack st' = openCurlyBracesStack st /\
    (is_html t = false -> st' = st).
Proof.
  unfold is_open, is_close, is_html, bracketToken. intros H1 H2.
  destruct (t_type t =s "Punctuator"); simpl in H1, H2; [rewrite H1, H2; by exists st |].
  unfold includes. simpl.
  destruct (t_type t =s "HTMLTagOpen"); [by eexists |].
  destruct (t_type t =s "HTMLSelfClosingTagClose"); [by eexists |].
  destruct (t_type t =s "HTMLEndTagOpen"); [| by exists st].
  destruct (openHtmlTagsStack st); by eexists.
Qed.

Lemma bracketTokens_app st l1 l2 :
  bracketTokens st (l1 ++ l2) = rbind (bracketTokens st l1) (fun st' => bracketTokens st' l2).
Proof.
  revert st. induction l1 as [|t l1 IH]; intros st; simpl; [done |].
  destruct (bracketToken st t); simpl; [apply IH | done].
Qed.

Lemma bracketTokens_balanced tokens pairs :
  balanced tokens pairs -> forall st,
  bracketTokens st tokens
  = Ok (mkBrackets (openCurlyBracesStack st) (openHtmlTagsStack st)
          (bracket_result st ++ map (fun p => pair_highlight p.1 p.2) pairs)).
Proof.
  induction 1 as [| t rest ps Ho Hc Hh _ IH | o inner ps c rest qs Ho Hc _ IHi _ IHr]; intros st.
  - simpl. rewrite app_nil_r. by destruct st.
  - destruct (bracketToken_other st t Ho Hc) as (st' & E & _ & Hst). simpl. rewrite E. simpl.
    rewrite Hst by done. apply IH.
  - cbn [bracketTokens]. rewrite (bracketToken_open _ _ Ho). cbn [rbind].
    rewrite bracketTokens_app, IHi. cbn [rbind bracketTokens].
    rewrite (bracketToken_close _ _ Hc). cbn [openCurlyBracesStack rbind].
    rewrite IHr. simpl. rewrite map_app, <- !app_assoc. done.
Qed.

Lemma bracketTokens_depth tokens : forall st,
  match depth_after (length (openCurlyBracesStack st)) tokens with
  | Some d => exists st', bracketTokens st tokens = Ok st' /\
                length (openCurlyBracesStack st') = d
  | None => bracketTokens st tokens = Throw NoOpenBrace
  end.
Proof.
  induction tokens as [|t tokens IH]; intros st; cbn [depth_after bracketTokens]; [by eexists |].
  destruct (is_open t) eqn:Ho; [rewrite (bracketToken_open _ _ Ho); apply (IH (mkBrackets (t :: _) _ _)) |].
  destruct (is_close t) eqn:Hc.
  - rewrite (bracketToken_close _ _ Hc). destruct (openCurlyBracesStack st) as [|o rest]; [done |].
    apply (IH (mkBrackets rest _ _)).
  - destruct (bracketToken_other st t Ho Hc) as (st' & -> & E & _). cbn [rbind]. rewrite <- E. apply IH.
Qed.

(** ** Lemmas on the other components *)

(** What one token adds to the duplication tokens. *)
Definition cpd_of (e : extracted) (token : Token) : option CpdToken :=
  if Nat.eqb (String.length (trim (t_value token))) 0
     || bool_decide (token ∈ importTokens e) || bool_decide (token ∈ requireTokens e)
  then None
  else Some (mkCpd (convertLocation (t_loc token))
               (if isStringLiteralToken token && negb (bool_decide (token ∈ jsxTokens e))
                then "LITERAL" else t_value token)).

Lemma fold_cpdToken e tokens : forall acc,
  fold_left (cpdToken e) tokens acc = acc ++ omap (cpd_of e) tokens.
Proof.
  induction tokens as [|t tokens IH]; intros acc; simpl; [by rewrite app_nil_r |].
  rewrite IH. unfold cpdToken, cpd_of.
  destruct (Nat.eqb _ 0), (bool_decide (t ∈ importTokens e)), (bool_decide (t ∈ requireTokens e));
    simpl; try done. by rewrite <- app_assoc.
Qed.

Lemma fold_extractNode sc nodes : forall e,
  let e' := fold_left (extractNode sc) nodes e in
  forall t, t ∈ importTokens e' <-> t ∈ importTokens e \/
    exists n, n ∈ nodes /\ type_of n = "ImportDeclaration" /\ t ∈ sc_getTokens sc n.
Proof.
  induction nodes as [|n nodes IH]; intros e; cbv zeta in *; cbn [fold_left]; intros t.
  { split; [by left | intros [H|(? & H & _)]; [done | set_solver]]. }
  rewrite IH. setoid_rewrite elem_of_cons.
  assert (E : t ∈ importTokens (extractNode sc e n) <->
    t ∈ importTokens e \/ (type_of n = "ImportDeclaration" /\ t ∈ sc_getTokens sc n)).
  { unfold extractNode. destruct (type_of n =s "JSXAttribute") eqn:E1.
    - apply String.eqb_eq in E1. rewrite E1.
      destruct (get_node n "value") as [v|]; [destruct (type_of v =s "Literal") |]; simpl;
        (split; [by left | intros [H|[H _]]; [done | discriminate H]]).
    - destruct (type_of n =s "ImportDeclaration") eqn:E2.
      + apply String.eqb_eq in E2. simpl. rewrite elem_of_app. tauto.
      + apply String.eqb_neq in E2.
        destruct (type_of n =s "VariableDeclaration"), (isRequireDeclaration n); simpl; tauto. }
  rewrite E. split.
  - intros [[H|[H1 H2]]|(m & Hm & H)]; [by left | right; exists n; by auto | right; exists m; by auto].
  - intros [H|(m & [->|Hm] & H1 & H2)]; [by left; left | by left; right | right; exists m; by auto].
Qed.

(** The declaration comes first: no reference is on an earlier line. *)
Lemma all_references_sorted sm v n l rest :
  all_references sm v = (n, l) :: rest ->
  forall x, x ∈ rest -> (line (start l) <= start_line x)%Z.
Proof.
  intros E x Hx. pose proof (sort_on_ascending start_line (omap located (distinct_nodes
    (map def_name (var_defs v) ++ map ref_identifier (omap (reference_at sm) (var_references v)))))) as A.
  unfold all_references in E. rewrite E in A. inversion A as [|? ? _ F]; subst.
  rewrite Forall_forall in F. apply (F x Hx).
Qed.

Lemma distinct_nodes_elem l : forall s n,
  n ∈ fold_left (fun s n => if existsb (same_node n) s then s else s ++ [n]) l s ->
  n ∈ s \/ n ∈ l.
Proof.
  induction l as [|m l IH]; intros s n; cbn [fold_left]; [by left |]. intros H.
  apply IH in H as [H|H]; [| right; set_solver].
  destruct (existsb (same_node m) s); [by left |]. set_solver.
Qed.

(** Distinct identities. *)
Lemma distinct_nodes_ids_from l : forall s,
  NoDup (map (fun n => h_id (hdr n)) s) ->
  NoDup (map (fun n => h_id (hdr n))
    (fold_left (fun s n => if existsb (same_node n) s then s else s ++ [n]) l s)).
Proof.
  induction l as [|m l IH]; intros s H; cbn [fold_left]; [done |]. apply IH.
  destruct (existsb (same_node m) s) eqn:E; [done |]. rewrite map_app.
  apply NoDup_app. split; [done |]. split; [| simpl; apply NoDup_singleton].
  intros i Hi Hm. simpl in Hm. apply list_elem_of_singleton in Hm. subst i.
  apply list_elem_of_In, in_map_iff in Hi as (n & En & Hn).
  rewrite <- not_true_iff_false in E. apply E, existsb_exists. exists n. split; [done |].
  unfold same_node. rewrite En. apply Nat.eqb_refl.
Qed.

Lemma distinct_nodes_ids l : NoDup (map (fun n => h_id (hdr n)) (distinct_nodes l)).
Proof. apply distinct_nodes_ids_from. constructor. Qed.

(** ** Properties *)

(** On tokens whose braces match, the highlighting pairs each closing brace
    with its opening brace, in the order of the closing braces, and leaves the
    stacks as they were. *)
Theorem matching_braces_highlighted tokens pairs st :
  balanced tokens pairs ->
  bracketTokens st tokens
  = Ok (mkBrackets (openCurlyBracesStack st) (openHtmlTagsStack st)
          (bracket_result st ++ map (fun p => pair_highlight p.1 p.2) pairs)).
Proof. intros B. by apply bracketTokens_balanced. Qed.

(** The highlighting of symbols throws exactly when some prefix of the
    tokens has more closing than opening braces. *)
Theorem symbolHighlighting_throws_iff sm sc variables :
  symbolHighlighting sm sc variables = Throw NoOpenBrace <->
  depth_after 0 (extractTokensAndComments sc).1 = None.
Proof.
  unfold symbolHighlighting. set (tokens := (extractTokensAndComments sc).1).
  set (symbols := omap _ variables).
  pose proof (bracketTokens_depth tokens (mkBrackets [] [] symbols)) as H. simpl in H.
  destruct (depth_after 0 tokens) as [d|].
  - destruct H as (st' & -> & _). simpl. done.
  - rewrite H. done.
Qed.

(** A highlighted symbol stands for a variable with a located occurrence:
    its declaration is one of the variable's definitions or references, none of
    the other occurrences is on an earlier line, and no occurrence is listed
    twice. *)
Theorem highlightVariable_declares_first sm sc v s :
  highlightVariable sm sc v = Some s ->
  exists n l rest,
    all_references sm v = (n, l) :: rest /\ declaration s = identifierLocation sc n l /\
    symbol_references s = map (fun x => identifierLocation sc x.1 x.2) rest /\
    h_loc (hdr n) = Some l /\
    (n ∈ map def_name (var_defs v) \/
     n ∈ map ref_identifier (omap (reference_at sm) (var_references v))) /\
    (forall x, x ∈ rest -> (line (start l) <= start_line x)%Z) /\
    NoDup (map (fun x => h_id (hdr x.1)) (all_references sm v)).
Proof.
  unfold highlightVariable. destruct (all_references sm v) as [|[n l] rest] eqn:E; [done |].
  intros [= <-]. exists n, l, rest. do 3 (split; [done |]).
  assert (Hin : (n, l) ∈ all_references sm v) by (rewrite E; by left).
  unfold all_references in Hin. rewrite elem_of_sort_on, list_elem_of_omap in Hin.
  destruct Hin as (m & Hm & Hl). unfold located in Hl.
  destruct (h_loc (hdr m)) eqn:El; [| done]. simplify_eq.
  split; [done |]. split.
  { apply distinct_nodes_elem in Hm as [Hm|Hm]; [set_solver | by apply elem_of_app in Hm]. }
  split; [by apply (all_references_sorted sm v n l) |].
  rewrite <- E. unfold all_references.
  set (ids := distinct_nodes _). pose proof (distinct_nodes_ids (map def_name (var_defs v) ++
    map ref_identifier (omap (reference_at sm) (var_references v)))) as ND. fold ids in ND.
  rewrite (Permutation_map _ (sort_on_perm start_line (omap located ids))).
  revert ND. clear. induction ids as [|x ids IH]; simpl; [done |].
  intros [Hx ND]%NoDup_cons. unfold located at 1. specialize (IH ND).
  destruct (h_loc (hdr x)); simpl; [| done]. apply NoDup_cons. split; [| done].
  intros Hi. apply Hx. clear - Hi. induction ids as [|y ids IH]; simpl in *; [set_solver |].
  unfold located in Hi. destruct (h_loc (hdr y)); simpl in Hi; [| right; by apply IH].
  apply elem_of_cons in Hi as [->|Hi]; [by left | right; by apply IH].
Qed.

(** An HTML tag that is never closed ([<br>]) is taken for the opening of
    the next closing tag: in [<p><br></p>] the end of [p] is paired with
    [br]. *)
Theorem void_element_paired_with_outer_close :
  let token (type value : string) (c : Z) :=
    mkToken type value (mkLoc (mkPos 1 c) (mkPos 1 (c + 1))) (c, c + 1)%Z in
  let p := token "HTMLTagOpen" "p" 0%Z in
  let br := token "HTMLTagOpen" "br" 3%Z in
  let close := token "HTMLEndTagOpen" "p" 7%Z in
  exists stack,
    bracketTokens (mkBrackets [] [] [])
      [p; token "HTMLTagClose" "" 2%Z; br; token "HTMLTagClose" "" 6%Z; close]
    = Ok (mkBrackets [] stack [pair_highlight br close]) /\ stack = [p].
Proof. eexists. split; vm_compute; reflexivity. Qed.

(** Every token gives at most one duplication token, in order: none for a
    blank token or a token of an import declaration or of a [require]
    declaration, the image [LITERAL] for a string outside JSX attributes, and
    its own value for the others; the tokens of imports are the ones ESLint
    gives for the import declarations of the tree. *)
Theorem getCpdTokens_spec sc :
  getCpdTokens sc = omap (cpd_of (extractTokens sc)) (sc_tokens sc) /\
  (forall t, t ∈ importTokens (extractTokens sc) <->
     exists n, n ∈ preorder (sc_visitorKeys sc) (sc_ast sc) /\
       type_of n = "ImportDeclaration" /\ t ∈ sc_getTokens sc n).
Proof.
  split; [apply fold_cpdToken |]. intros t. unfold extractTokens. rewrite visit_fold.
  rewrite (fold_extractNode sc _ (mkExtracted [] [] [])). simpl.
  split; [intros [H|H]; [set_solver | done] | by right].
Qed.

(** ** Witnesses *)

Definition brace (value : string) (c : Z) : Token :=
  mkToken "Punctuator" value (mkLoc (mkPos 1 c) (mkPos 1 (c + 1))) (c, c + 1)%Z.

(** [{ ( { } ) }] *)
Lemma matching_braces_highlighted_witness :
  bracketTokens (mkBrackets [] [] [])
    [brace "{" 0%Z; brace "(" 1%Z; brace "{" 2%Z; brace "}" 3%Z; brace ")" 4%Z; brace "}" 5%Z]
  = Ok (mkBrackets [] []
          [pair_highlight (brace "{" 2%Z) (brace "}" 3%Z); pair_highlight (brace "{" 0%Z) (brace "}" 5%Z)]).
Proof.
  apply (matching_braces_highlighted _ [(brace "{" 2%Z, brace "}" 3%Z); (brace "{" 0%Z, brace "}" 5%Z)]).
  apply (bal_pair (brace "{" 0%Z) [brace "(" 1%Z; brace "{" 2%Z; brace "}" 3%Z; brace ")" 4%Z]
           [(brace "{" 2%Z, brace "}" 3%Z)] (brace "}" 5%Z) [] []); try reflexivity.
  - apply bal_other; try reflexivity.
    apply (bal_pair (brace "{" 2%Z) [] [] (brace "}" 3%Z) [brace ")" 4%Z] []); try reflexivity.
    + apply bal_nil.
    + apply bal_other; try reflexivity. apply bal_nil.
  - apply bal_nil.
Defined.

(** [x = 1; ... var x;]: two occurrences, the reference on the first line. *)
Definition occurrence (i : nat) (l : Z) : node :=
  Node (mkHeader i "Identifier" (Some (mkLoc (mkPos l 0) (mkPos l 1))) None) [("name", VStr "x")].

Definition occurrence_scopes : ScopeManager :=
  mkScopeManager [] []
    [mkReference (occurrence 1 1%Z) [] 0 (Some 0%nat) None false false true] (fun _ => None).

Definition occurrence_variable : Variable_ :=
  mkVariable "x" 0 None [mkDef "Variable" None (occurrence 2 5%Z) (occurrence 3 5%Z)] [0]%nat.

Definition empty_source : SourceCode :=
  mkSourceCode (Node (mkHeader 0 "Program" None None) []) [] [] None (fun _ => None)
    (fun _ => []) (fun _ => None) (fun _ => None) (fun _ => []) (fun _ => mkPos 0 0)
    (fun _ => None).

Lemma highlightVariable_declares_first_witness :
  exists s n l rest, highlightVariable occurrence_scopes empty_source occurrence_variable = Some s /\
    all_references occurrence_scopes occurrence_variable = (n, l) :: rest /\
    (forall x, x ∈ rest -> (line (start l) <= start_line x)%Z) /\ n = occurrence 1 1%Z.
Proof.
  eexists. destruct (highlightVariable_declares_first occurrence_scopes empty_source
    occurrence_variable _ eq_refl) as (n & l & rest & E & _ & _ & _ & _ & H & _).
  exists n, l, rest. split; [reflexivity |]. split; [exact E |]. split; [exact H |].
  vm_compute in E. by inversion E.
Defined.
