(* ===== verification/Issues.v ===== *)
(** * Issues: from ESLint messages to SonarQube issues

    The code of [packages/jsts/src/linter/issues], [linter/quickfixes],
    [linter/parameters] and of [rules/helpers/location.ts] and
    [rules/helpers/generate-meta.ts]: a rule packs its secondary locations in the
    text of its message, the linter wrapper unpacks them, extracts the results of
    the internal rules and the paths of the UCFG files, and turns fixes into quick
    fixes. [JSON.parse] may give a value that is not of the type the code
    annotates; for a known field of the wrong type the model stops with [IllTyped]. *)

From Stdlib Require Import ZArith Lia Ascii.
From stdpp Require Import base list strings.
From S2P Require Import Prelude JsString Json.

Open Scope js_scope.

(** ** Data *)

(** [Location] of [issues/location.ts] and [IssueLocation] of [helpers/location.ts] *)
Record IssueLocation := mkIssueLocation {
  il_message : option string;
  il_column : Z;
  il_line : Z;
  il_endColumn : Z;
  il_endLine : Z }.

Record QuickFixEdit := mkEdit { qe_loc : IssueLocation; qe_text : string }.

Record QuickFix := mkQuickFix { qf_message : string; qf_edits : list QuickFixEdit }.

Record Issue := mkIssue {
  i_ruleId : string;
  i_line : Z;
  i_column : Z;
  i_endLine : option Z;
  i_endColumn : option Z;
  i_message : string;
  i_cost : option Z;
  i_secondaryLocations : list IssueLocation;
  i_quickFixes : list QuickFix }.

(** What ESLint gives: a fix replaces a range of the text, a suggestion is a fix
    with a description, a message has a rule (none on a parsing error). *)
Record Fix := mkFix { f_range : Z * Z; f_text : string }.

Record Suggestion := mkSuggestion { s_desc : string; s_fix : Fix }.

Record LintMessage := mkMessage {
  m_ruleId : option string;
  m_line : Z;
  m_column : Z;
  m_endLine : option Z;
  m_endColumn : option Z;
  m_message : string;
  m_fix : option Fix;
  m_suggestions : option (list Suggestion) }.

Inductive lint_error :=
| FailedToParse (ruleId message : string)
| SyntaxError (text : string)
| MissingQuickFixMessage (ruleKey : string)
| IllTyped (field : string)
| MessageMandatory
| FixableMismatch
| InvalidSecondaryLocation.

Notation outcome := (result lint_error).

(** ** Rule schemas and the internal parameters *)

(** The part of a JSON schema the code reads: [enum] and [title]. *)
Record SchemaOption := mkOption { so_enum : option (list json); so_title : option string }.

Inductive SchemaItems :=
| ItemsArray (l : list SchemaOption)
| ItemsOne (o : SchemaOption)
| NoItems.

Inductive Schema :=
| SchemaArray (l : list SchemaOption)
| SchemaObject (type : option string) (items : SchemaItems).

Definition SONAR_RUNTIME : string := "sonar-runtime".
Definition SONAR_CONTEXT : string := "sonar-context".

(** [option.enum?.includes(s)] *)
Definition enum_includes (s : string) (o : SchemaOption) : bool :=
  match so_enum o with
  | Some l => existsb (fun v => match v with JStr t => t =s s | _ => false end) l
  | None => false
  end.

Definition has_title (s : string) (o : SchemaOption) : bool :=
  match so_title o with Some t => t =s s | None => false end.

Definition schema_some (p : SchemaOption -> bool) (schema : option Schema) : bool :=
  match schema with
  | Some (SchemaArray l) => existsb p l
  | Some (SchemaObject (Some type) (ItemsArray l)) => if type =s "array" then existsb p l else false
  | _ => false
  end.

Definition hasSonarRuntimeOption (schema : option Schema) : bool :=
  schema_some (enum_includes SONAR_RUNTIME) schema.

Definition hasSonarContextOption (schema : option Schema) : bool :=
  schema_some (has_title SONAR_CONTEXT) schema.

(** The metadata of a rule. A key that is absent and a key that is [undefined]
    are not told apart. *)
Record RuleMetaData := mkMeta {
  fixable : option string;
  hasSuggestions : bool;
  messages : option (list (string * string));
  schema : option Schema }.

(** [{ type: 'string', enum: [SONAR_RUNTIME, 'metric'] }] *)
Definition sonarOptions : SchemaOption :=
  mkOption (Some [JStr SONAR_RUNTIME; JStr "metric"]) None.

(** [x ?? y] on the values of a spread *)
Definition orElse {A} (x y : option A) : option A := match x with Some _ => x | None => y end.

(** An array schema without [items] gets an undefined item: the model stops. *)
Definition addSonarOptions (s : option Schema) : outcome (option Schema) :=
  match s with
  | Some (SchemaArray l) => Ok (Some (SchemaArray (l ++ [sonarOptions])))
  | Some (SchemaObject (Some type) items) =>
      if type =s "array"
      then match items with
           | ItemsArray l => Ok (Some (SchemaObject (Some type) (ItemsArray (l ++ [sonarOptions]))))
           | ItemsOne o => Ok (Some (SchemaObject (Some type) (ItemsArray [o; sonarOptions])))
           | NoItems => Throw (IllTyped "items")
           end
      else Ok s
  | Some (SchemaObject None _) => Ok s
  | None => Ok (Some (SchemaArray [sonarOptions]))
  end.

(** [!!text] *)
Definition truthy (s : option string) : bool :=
  match s with Some t => negb (t =s "") | None => false end.

Definition generateMeta (rspecMeta : RuleMetaData) (ruleMeta : option RuleMetaData)
    (hasSecondaries : bool) : outcome RuleMetaData :=
  let rule_fixable := m ← ruleMeta; fixable m in
  let rule_suggests := match ruleMeta with Some m => hasSuggestions m | None => false end in
  if truthy (fixable rspecMeta) && negb (truthy rule_fixable) && negb rule_suggests
  then Throw FixableMismatch
  else
    let msgs := default [] (orElse (messages rspecMeta) (m ← ruleMeta; messages m)) in
    let sch := orElse (schema rspecMeta) (m ← ruleMeta; schema m) in
    let! sch := if hasSecondaries then addSonarOptions sch else Ok sch in
    Ok (mkMeta rule_fixable (hasSuggestions rspecMeta || rule_suggests)
          (Some (map_set "sonarRuntime" "{{sonarRuntimeData}}" msgs)) sch).

(** ** Quick fixes *)

Definition quickFixMessages : list (string * string) :=
  [("S1537", "Remove this trailing comma");
   ("S113", "Add a new line at the end of file");
   ("S6749", "Remove redundant fragment");
   ("S6859", "Replace with a relative path");
   ("S4023", "Replace with type alias");
   ("S6637", "Remove .bind() call");
   ("S6509", "Remove extra cast");
   ("S1116", "Remove extra semicolon");
   ("S3257", "Remove type declaration");
   ("S6660", "Replace with 'else if'");
   ("S2966", "Replace with optional chaining '.?'");
   ("S1131", "Remove trailing space");
   ("S6645", "Remove initialization");
   ("S4157", "Remove type argument");
   ("S4325", "Remove type assertion");
   ("S6644", "Replace with a simpler expression");
   ("S6650", "Remove alias");
   ("S3504", "Replace 'var' with 'let'");
   ("S3498", "Use shorthand property");
   ("S6590", "Replace with 'as const'");
   ("S3353", "Replace with 'const'");
   ("S6598", "Replace with a function type");
   ("S1488", "Return value immediately");
   ("S4156", "Replace with 'namespace' keyword");
   ("S6653", "Replace with Object.hasOwn()");
   ("S6661", "Replace with object spread syntax");
   ("S2933", "Add 'readonly'");
   ("S6565", "Replace return type with 'this'");
   ("S3512", "Replace with template string literal");
   ("S1264", "Replace with 'while' loop");
   ("S1441", "Fix quotes");
   ("S2427", "Add 10 as radix");
   ("S1438", "Add semicolon")].

Definition quickFixRules : list string :=
  ["S1537"; "S113"; "S6637"; "S6509"; "S1116"; "S4326"; "S1131"; "S6645"; "S6644"; "S3812";
   "S6650"; "S3504"; "S3498"; "S3353"; "S6653"; "S6325"; "S3512"; "S1441"; "S2427"; "S1438";
   "S1186"; "S108"; "S6660"; "S6679"; "S3696"; "S1763"; "S1068"; "S6676"; "S6647"; "S6661";
   "S6666"; "S2688"; "S3981"; "S1940"; "S3626"; "S2757"; "S1488"; "S1126"; "S1264"; "S6754";
   "S6479"; "S6747"; "S6568"; "S4023"; "S4204"; "S3257"; "S2966"; "S4157"; "S4325"; "S6569";
   "S6590"; "S6598"; "S4156"; "S6606"; "S2933"; "S6565"; "S6557"; "S6572"; "S4138"; "S1528";
   "S3403"; "S3415"; "S2871"; "S125"; "S4621"; "S6426"; "S2990"; "S4619"; "S4043"; "S1533";
   "S4781"; "S1110"; "S4623"; "S3984"; "S1172"; "S1444"; "S4634"; "S4322"; "S1534"; "S5868";
   "S6759"; "S6594"; "S131"; "S6535"; "S1128"; "S3863"; "S6859"; "S7060"].

Definition getQuickFixMessage (ruleKey : string) : outcome string :=
  match map_get ruleKey quickFixMessages with
  | Some message => Ok message
  | None =>
      if ruleKey =s "S3863" then Ok "Remove this duplicate import"
      else Throw (MissingQuickFixMessage ruleKey)
  end.

(** [ruleId.slice(8)] *)
Definition withoutPrefix (ruleId : string) : string := drop_string 8 ruleId.

Definition hasQuickFix (message : LintMessage) : bool :=
  match m_fix message, m_suggestions message with
  | None, (None | Some []) => false
  | _, _ =>
      match m_ruleId message with
      | Some ruleId => truthy (Some ruleId) && includes (withoutPrefix ruleId) quickFixRules
      | None => false
      end
  end.

Section Lint.

(** ESLint: the line and column of an index of the text. *)
Variable getLocFromIndex : Z -> Z * Z.

Definition fixToEdit (fix_ : Fix) : QuickFixEdit :=
  let startPos := getLocFromIndex (f_range fix_).1 in
  let endPos := getLocFromIndex (f_range fix_).2 in
  mkEdit (mkIssueLocation None startPos.2 startPos.1 endPos.2 endPos.1) (f_text fix_).

Definition transformFixes (message : LintMessage) : outcome (list QuickFix) :=
  if negb (hasQuickFix message) then Ok []
  else
    let! fixes :=
      match m_fix message with
      | Some f =>
          let! text := getQuickFixMessage (withoutPrefix (default "" (m_ruleId message))) in
          Ok [mkQuickFix text [fixToEdit f]]
      | None => Ok []
      end in
    Ok (fixes ++ map (fun s => mkQuickFix (s_desc s) [fixToEdit (s_fix s)])
                     (default [] (m_suggestions message))).

(** ** Messages and issues *)

Definition convertMessage (message : LintMessage) : outcome (option Issue) :=
  match m_ruleId message with
  | Some ruleId =>
      if startsWith "sonarjs/" ruleId then
        let! quickFixes := transformFixes message in
        Ok (Some (mkIssue (withoutPrefix ruleId) (m_line message) (m_column message)
                          (m_endLine message) (m_endColumn message) (m_message message)
                          None [] quickFixes))
      else Ok None
  | None => Ok None
  end.

End Lint.

(** The value of a key of an object: the last of its occurrences. *)
Definition json_get (k : string) (kvs : list (string * json)) : option json :=
  option_map snd (List.find (fun kv => kv.1 =s k) (rev kvs)).

(** A field of the type [of_json] reads, [def] when it is absent. *)
Definition field {A} (k : string) (kvs : list (string * json)) (of_json : json -> option A) (def : A)
  : outcome A :=
  match json_get k kvs with
  | None => Ok def
  | Some v => match of_json v with Some a => Ok a | None => Throw (IllTyped k) end
  end.

Definition as_string (v : json) : option string := match v with JStr s => Some s | _ => None end.
Definition as_number (v : json) : option Z := match v with JNum z => Some z | _ => None end.

Definition required {A} (k : string) (kvs : list (string * json)) (of_json : json -> option A)
  : option A := v ← json_get k kvs; of_json v.

Definition as_location (v : json) : option IssueLocation :=
  match v with
  | JObj kvs =>
      column ← required "column" kvs as_number;
      line ← required "line" kvs as_number;
      endColumn ← required "endColumn" kvs as_number;
      endLine ← required "endLine" kvs as_number;
      match json_get "message" kvs with
      | None => Some (mkIssueLocation None column line endColumn endLine)
      | Some (JStr s) => Some (mkIssueLocation (Some s) column line endColumn endLine)
      | Some _ => None
      end
  | _ => None
  end.

Definition as_edit (v : json) : option QuickFixEdit :=
  match v with
  | JObj kvs =>
      loc ← required "loc" kvs as_location; text ← required "text" kvs as_string;
      Some (mkEdit loc text)
  | _ => None
  end.

Definition as_quickfix (v : json) : option QuickFix :=
  match v with
  | JObj kvs =>
      message ← required "message" kvs as_string; edits ← required "edits" kvs (as_list as_edit);
      Some (mkQuickFix message edits)
  | _ => None
  end.

(** [{ ...issue, ...encodedMessage }]: the fields of an object override the ones
    of the issue; the elements of an array and the characters of a text have
    numeric keys, which no issue has, and the other values have no keys. *)
Definition spreadIssue (issue : Issue) (encodedMessage : json) : outcome Issue :=
  match encodedMessage with
  | JObj kvs =>
      let! ruleId := field "ruleId" kvs as_string (i_ruleId issue) in
      let! line := field "line" kvs as_number (i_line issue) in
      let! column := field "column" kvs as_number (i_column issue) in
      let! endLine := field "endLine" kvs (fun v => Some <$> as_number v) (i_endLine issue) in
      let! endColumn := field "endColumn" kvs (fun v => Some <$> as_number v) (i_endColumn issue) in
      let! message := field "message" kvs as_string (i_message issue) in
      let! cost := field "cost" kvs (fun v => Some <$> as_number v) (i_cost issue) in
      let! secondaryLocations :=
        field "secondaryLocations" kvs (as_list as_location) (i_secondaryLocations issue) in
      let! quickFixes := field "quickFixes" kvs (as_list as_quickfix) (i_quickFixes issue) in
      Ok (mkIssue ruleId line column endLine endColumn message cost secondaryLocations quickFixes)
  | _ => Ok issue
  end.

Definition decodeSonarRuntime (ruleModule : option RuleMetaData) (issue : Issue) : outcome Issue :=
  if hasSonarRuntimeOption (m ← ruleModule; schema m) then
    match JSON_parse (i_message issue) with
    | Some encodedMessage => spreadIssue issue encodedMessage
    | None => Throw (FailedToParse (i_ruleId issue) (i_message issue))
    end
  else Ok issue.

Definition normalizeLocation (issue : Issue) : Issue :=
  mkIssue (i_ruleId issue) (i_line issue) (i_column issue - 1) (i_endLine issue)
    (match i_endColumn issue with
     | Some c => if Z.eqb c 0 then Some c else Some (c - 1)%Z
     | None => None
     end)
    (i_message issue) (i_cost issue) (i_secondaryLocations issue) (i_quickFixes issue).

(** ** Extraction of the results of the internal rules *)

Definition symbolHighlightingRuleId : string := "internal-symbol-highlighting".
Definition cognitiveComplexityRuleId : string := "internal-cognitive-complexity".

(** The array without the issue found, and the issue. *)
Fixpoint findAndRemoveFirstIssue (issues : list Issue) (ruleId : string)
  : list Issue * option Issue :=
  match issues with
  | [] => ([], None)
  | issue :: rest =>
      if i_ruleId issue =s ruleId then (rest, Some issue)
      else let (rest', found) := findAndRemoveFirstIssue rest ruleId in (issue :: rest', found)
  end.

(** The issues left and the symbols, as the value [JSON.parse] gives. *)
Definition extractHighlightedSymbols (issues : list Issue) : outcome (list Issue * json) :=
  let (rest, issue) := findAndRemoveFirstIssue issues symbolHighlightingRuleId in
  match issue with
  | Some issue =>
      match JSON_parse (i_message issue) with
      | Some symbols => Ok (rest, symbols)
      | None => Throw (SyntaxError (i_message issue))
      end
  | None => Ok (rest, JArr [])
  end.

(** [Number(text)] on the numerals an internal rule writes, decimal integers;
    [None] is NaN. *)
Definition Number (text : string) : option Z :=
  match trim text with
  | EmptyString => Some 0%Z
  | String c r as s =>
      let '(negative, body) :=
        if Ascii.eqb c "-"%char then (true, r) else if Ascii.eqb c "+"%char then (false, r) else (false, s) in
      match take_digits body with
      | (Decimal.Nil, _) => None
      | (d, EmptyString) =>
          let n := Z.of_N (N.of_uint d) in Some (if (negative : bool) then (- n)%Z else n)
      | _ => None
      end
  end.

Definition extractCognitiveComplexity (issues : list Issue) : list Issue * option Z :=
  let (rest, issue) := findAndRemoveFirstIssue issues cognitiveComplexityRuleId in
  (rest, issue ← issue; Number (i_message issue)).

(** ** The transformation of the messages of a file *)

Record LintingResult := mkResult {
  issues : list Issue;
  ucfgPaths : list string;
  highlightedSymbols : json;
  cognitiveComplexity : option Z }.

Section Transform.

Variable getLocFromIndex : Z -> Z * Z.
(** [ctx.rules], by rule key *)
Variable rules : string -> option RuleMetaData.

(** The issue of one message that is not a path of a UCFG file, if any. *)
Definition transformMessage (message : LintMessage) : outcome (option Issue) :=
  let! converted := convertMessage getLocFromIndex message in
  match converted with
  | Some issue =>
      let! decoded := decodeSonarRuntime (rules (i_ruleId issue)) issue in
      Ok (Some (normalizeLocation decoded))
  | None => Ok None
  end.

Definition is_ucfg (message : LintMessage) : bool :=
  match m_ruleId message with Some r => r =s "sonarjs/ucfg" | None => false end.

(** The loop over the messages. *)
Fixpoint transformMessages_loop (msgs : list LintMessage) (acc : list Issue) (paths : list string)
  : outcome (list Issue * list string) :=
  match msgs with
  | [] => Ok (acc, paths)
  | message :: rest =>
      if is_ucfg message then transformMessages_loop rest acc (paths ++ [m_message message])
      else
        let! issue := transformMessage message in
        transformMessages_loop rest (acc ++ option_list issue) paths
  end.

Definition transformMessages (msgs : list LintMessage) : outcome LintingResult :=
  let! (found, paths) := transformMessages_loop msgs [] [] in
  let! (found, symbols) := extractHighlightedSymbols found in
  let (found, complexity) := extractCognitiveComplexity found in
  Ok (mkResult found paths symbols complexity).

End Transform.

(** ** The encoding of secondary locations by the rules *)

(** A member of an object literal whose value may be undefined. *)
Definition member (k : string) (v : option json) : list (string * json) :=
  match v with Some v => [(k, v)] | None => [] end.

Definition location_json (l : IssueLocation) : json :=
  JObj (member "message" (JStr <$> il_message l)
        ++ [("column", JNum (il_column l)); ("line", JNum (il_line l));
            ("endColumn", JNum (il_endColumn l)); ("endLine", JNum (il_endLine l))]).

Definition contents_json (message : string) (secondaryLocations : option (list IssueLocation))
    (cost : option Z) : json :=
  JObj ([("message", JStr message)]
        ++ member "secondaryLocations" (JArr ∘ map location_json <$> secondaryLocations)
        ++ member "cost" (JNum <$> cost)).

Definition encodeContents (message : string) (secondaryLocations : option (list IssueLocation))
    (cost : option Z) : string :=
  stringify (contents_json message secondaryLocations cost).

(** [target.split(search)] for a [search] that is not empty; [skip] characters of
    an occurrence are left to pass. *)
Fixpoint split_at (search : string) (skip : nat) (target : string) : list string :=
  match target with
  | EmptyString => [EmptyString]
  | String c r =>
      match skip with
      | S skip' => split_at search skip' r
      | O =>
          if String.prefix search target
          then EmptyString :: split_at search (String.length search - 1) r
          else match split_at search 0 r with
               | p :: ps => String c p :: ps
               | [] => []
               end
      end
  end.

Definition replaceAll (target search replacement : string) : string :=
  join_with replacement (split_at search 0 target).

(** The data of a descriptor: the entries of the object, in the order of its own
    keys, each value as the text [toString] gives. *)
Definition expandMessage (message : string) (data : option (list (string * string))) : string :=
  fold_left (fun expanded kv => replaceAll expanded ("{{" +:+ kv.1 +:+ "}}") kv.2)
            (default [] data) message.

Record SourceRange := mkRange { r_start : Z * Z; r_end : Z * Z }.

(** [endLoc] is a location holder or the message; a holder may have no location. *)
Inductive EndArgument :=
| EndMessage (message : string)
| EndHolder (loc : option SourceRange).

(** Positions are (line, column) pairs. *)
Definition toSecondaryLocation (startLoc : option SourceRange) (endLoc : option EndArgument)
    (message : option string) : outcome IssueLocation :=
  match startLoc with
  | None => Throw InvalidSecondaryLocation
  | Some s =>
      let e := match endLoc with Some (EndHolder (Some e)) => e | _ => s end in
      let text := match endLoc with Some (EndMessage t) => Some t | _ => message end in
      Ok (mkIssueLocation text (r_start s).2 (r_start s).1 (r_end e).2 (r_end e).1)
  end.

Section Report.

(** The node or location, the fix and the suggestions of a descriptor. *)
Context {R : Type}.

Record ReportDescriptor := mkDescriptor {
  rd_message : option string;
  rd_messageId : option string;
  rd_data : option (list (string * string));
  rd_rest : R }.

Definition toEncodedMessage (d : ReportDescriptor) (secondaryLocations : option (list IssueLocation))
    (cost : option Z) : outcome ReportDescriptor :=
  match rd_message d with
  | None => Throw MessageMandatory
  | Some message =>
      let data := default [] (rd_data d) in
      let encoded := encodeContents (expandMessage message (Some data)) secondaryLocations cost in
      Ok (mkDescriptor None (Some "sonarRuntime")
            (Some (fold_left (fun m kv => map_set kv.1 kv.2 m) data [("sonarRuntimeData", encoded)]))
            (rd_rest d))
  end.

(** [context.options[context.options.length - 1] === 'sonar-runtime'] *)
Definition runs_in_sonar (options : list json) : bool :=
  match last options with Some (JStr s) => s =s SONAR_RUNTIME | _ => false end.

(** The descriptor given to [context.report]. *)
Definition report (options : list json) (d : ReportDescriptor) (secondaryLocations : list IssueLocation)
    (cost : option Z) : outcome ReportDescriptor :=
  if negb (runs_in_sonar options) then
    match rd_message d, rd_messageId d, rd_data d with
    | Some _, Some _, data => Ok (mkDescriptor None (rd_messageId d) data (rd_rest d))
    | Some message, None, Some data =>
        Ok (mkDescriptor (Some (expandMessage message (Some data))) None None (rd_rest d))
    | _, _, _ => Ok d
    end
  else toEncodedMessage d (Some secondaryLocations) cost.

End Report.
Arguments ReportDescriptor R : clear implicits.

(** ** Lemmas *)

(** The issue with the fields that an encoded message carries. *)
Definition with_contents (issue : Issue) (message : string) (secs : option (list IssueLocation))
    (cost : option Z) : Issue :=
  mkIssue (i_ruleId issue) (i_line issue) (i_column issue) (i_endLine issue) (i_endColumn issue)
    message (orElse cost (i_cost issue)) (default (i_secondaryLocations issue) secs)
    (i_quickFixes issue).

Lemma as_location_json l : as_location (location_json l) = Some l.
Proof. by destruct l as [[m|] c li ec el]. Qed.

(** Secondary locations are exchanged through JSON. *)
#[export] Instance location_codec : JsonCodec IssueLocation :=
  {| to_json := location_json; of_json := as_location; of_to_json := as_location_json |}.

Lemma spread_contents issue m secs cost :
  spreadIssue issue (contents_json m secs cost) = Ok (with_contents issue m secs cost).
Proof.
  pose proof (fun l => as_list_map as_location location_json l as_location_json) as L.
  destruct secs as [secs|], cost as [c|]; unfold spreadIssue, contents_json, field, json_get;
    cbn -[as_list]; rewrite ?L; done.
Qed.

Lemma decode_contents meta issue m secs cost :
  hasSonarRuntimeOption (schema meta) = true ->
  i_message issue = encodeContents m secs cost ->
  decodeSonarRuntime (Some meta) issue = Ok (with_contents issue m secs cost).
Proof.
  intros H E. unfold decodeSonarRuntime. cbn. rewrite H, E.
  unfold encodeContents. rewrite JSON_parse_stringify. apply spread_contents.
Qed.

(** The schema of a rule is absent, a list of options or an array with items. *)
Definition list_schema (s : option Schema) : Prop :=
  match s with
  | Some (SchemaObject type _) => type = Some "array"
  | _ => True
  end.

Lemma addSonarOptions_runtime s s' :
  list_schema s -> addSonarOptions s = Ok s' -> hasSonarRuntimeOption s' = true.
Proof.
  destruct s as [[l|type items]|]; cbn.
  - intros _ H. apply Ok_inj in H as <-. cbn. rewrite existsb_app. cbn. by rewrite orb_true_r.
  - intros ->. rewrite String.eqb_refl. destruct items as [l|o|]; [| |done]; intros H;
      apply Ok_inj in H as <-; cbn.
    + rewrite existsb_app. cbn. by rewrite orb_true_r.
    + by rewrite orb_true_r.
  - intros _ H. by apply Ok_inj in H as <-.
Qed.

Lemma generateMeta_runtime rspec ruleMeta meta :
  generateMeta rspec ruleMeta true = Ok meta ->
  list_schema (orElse (schema rspec) (m ← ruleMeta; schema m)) ->
  hasSonarRuntimeOption (schema meta) = true
  /\ map_get "sonarRuntime" (default [] (messages meta)) = Some "{{sonarRuntimeData}}".
Proof.
  unfold generateMeta. case_match; [done|]. intros Hm L.
  destruct (addSonarOptions _) as [s'|] eqn:E; [|done]. apply Ok_inj in Hm as <-. cbn. split.
  - by eapply addSonarOptions_runtime.
  - apply map_get_set_eq.
Qed.

Lemma map_get_fold_set {V} k (data : list (string * V)) : forall m,
  k ∉ data.*1 -> map_get k (fold_left (fun m kv => map_set kv.1 kv.2 m) data m) = map_get k m.
Proof.
  induction data as [|[k' v] data IH]; intros m H; [done|]. cbn in *.
  apply not_elem_of_cons in H as [Hk H]. rewrite IH by done. by apply map_get_set_ne.
Qed.

(** [rest] is [issues] without its first issue of the rule [ruleId], [found]. *)
Definition removed (ruleId : string) (issues rest : list Issue) (found : option Issue) : Prop :=
  match found with
  | Some i =>
      exists pre post, issues = pre ++ i :: post /\ rest = pre ++ post /\ i_ruleId i = ruleId
        /\ Forall (fun j => i_ruleId j <> ruleId) pre
  | None => rest = issues /\ Forall (fun j => i_ruleId j <> ruleId) issues
  end.

Lemma findAndRemove_removed ruleId l :
  removed ruleId l (findAndRemoveFirstIssue l ruleId).1 (findAndRemoveFirstIssue l ruleId).2.
Proof.
  induction l as [|i l IH]; [done|]. cbn. destruct (i_ruleId i =s ruleId) eqn:E.
  - split_bools. by exists [], l.
  - split_bools. destruct (findAndRemoveFirstIssue l ruleId) as [rest [j|]]; cbn in *.
    + destruct IH as (pre & post & -> & -> & Hj & Hpre). exists (i :: pre), post.
      repeat split; [done|]. by constructor.
    + destruct IH as [-> H]. split; [done|]. by constructor.
Qed.

Lemma removed_unique ruleId l r1 r2 f1 f2 :
  removed ruleId l r1 f1 -> removed ruleId l r2 f2 -> r1 = r2 /\ f1 = f2.
Proof.
  revert r1 r2. induction l as [|i l IH]; intros r1 r2 H1 H2.
  - assert (forall r f, removed ruleId [] r f -> r = [] /\ f = None) as S.
    { intros r [j|]; [|by intros [-> _]]. intros (pre & post & E & _). by destruct pre. }
    by destruct (S _ _ H1) as [-> ->], (S _ _ H2) as [-> ->].
  - assert (forall r f, removed ruleId (i :: l) r f ->
      i_ruleId i = ruleId /\ r = l /\ f = Some i
      \/ i_ruleId i <> ruleId /\ exists r', r = i :: r' /\ removed ruleId l r' f) as S.
    { intros r [j|].
      - intros (pre & post & E & -> & Hj & Hp). destruct pre as [|k pre]; simplify_eq/=.
        + by left.
        + right. inversion Hp; subst. split; [done|]. eexists. split; [done|].
          by exists pre, post.
      - intros [-> H]. right. inversion H; subst. split; [done|]. eexists. done. }
    apply S in H1, H2.
    destruct H1 as [(E1 & -> & ->)|(N1 & r1' & -> & R1)],
      H2 as [(E2 & -> & ->)|(N2 & r2' & -> & R2)]; try done.
    by destruct (IH _ _ R1 R2) as [-> ->].
Qed.

Lemma findAndRemove_iff ruleId l rest found :
  findAndRemoveFirstIssue l ruleId = (rest, found) <-> removed ruleId l rest found.
Proof.
  pose proof (findAndRemove_removed ruleId l) as R.
  destruct (findAndRemoveFirstIssue l ruleId) as [r f]; cbn in R. split.
  - by intros [= <- <-].
  - intros H. destruct (removed_unique _ _ _ _ _ _ R H) as [-> ->]. done.
Qed.

Section Spec.

Variable getLocFromIndex : Z -> Z * Z.
Variable rules : string -> option RuleMetaData.

(** The messages that are not paths of UCFG files. *)
Definition linted (msgs : list LintMessage) : list LintMessage :=
  filter (fun m => is_ucfg m = false) msgs.

Lemma transformMessages_loop_spec msgs : forall acc paths found paths',
  transformMessages_loop getLocFromIndex rules msgs acc paths = Ok (found, paths')
  <-> exists all, Forall2 (fun m o => transformMessage getLocFromIndex rules m = Ok o) (linted msgs) all
        /\ found = acc ++ omap id all
        /\ paths' = paths ++ map m_message (filter (fun m => is_ucfg m = true) msgs).
Proof.
  induction msgs as [|m msgs IH]; intros acc paths found paths'; cbn [transformMessages_loop].
  - split.
    + intros [= <- <-]. exists []. by rewrite !app_nil_r.
    + intros (all & H & -> & ->). apply Forall2_nil_inv_l in H as ->. cbn. by rewrite !app_nil_r.
  - unfold linted. rewrite !filter_cons. fold (linted msgs). destruct (is_ucfg m) eqn:U.
    + rewrite decide_False, decide_True by done. rewrite IH. cbn [map].
      setoid_rewrite <- (assoc_L (++) paths). done.
    + rewrite decide_True, decide_False by done. rewrite rbind_ok. setoid_rewrite IH. split.
      * intros (o & Ho & all & H & -> & ->). exists (o :: all). split; [by constructor|].
        split; [|done]. rewrite <- (assoc_L (++)). by destruct o.
      * intros (all & H & -> & ->). inversion H as [|? o ? all' Ho H']; subst.
        exists o. split; [done|]. exists all'. split; [done|]. split; [|done].
        rewrite <- (assoc_L (++)). by destruct o.
Qed.

End Spec.

Lemma quickFix_enabled message :
  hasQuickFix message = true ->
  exists ruleId, m_ruleId message = Some ruleId /\ withoutPrefix ruleId ∈ quickFixRules.
Proof.
  unfold hasQuickFix. intros H.
  destruct (m_ruleId message) as [r|]; [|by repeat case_match].
  exists r. split; [done|]. apply includes_spec. repeat case_match; split_bools; done.
Qed.

(** The enabled rules without a message for a fix. *)
Definition rules_without_message : list string :=
  filter (fun k => map_get k quickFixMessages = None /\ k <> "S3863") quickFixRules.

Lemma getQuickFixMessage_throws k e :
  k ∈ quickFixRules ->
  getQuickFixMessage k = Throw e <-> k ∈ rules_without_message /\ e = MissingQuickFixMessage k.
Proof.
  intros Hk. unfold rules_without_message. rewrite list_elem_of_filter. unfold getQuickFixMessage.
  destruct (map_get k quickFixMessages) as [t|] eqn:E.
  - split; [done|]. intros [[[? _] _] _]. congruence.
  - destruct (k =s "S3863") eqn:S; split_bools; [naive_solver|]. naive_solver congruence.
Qed.

(** ** Properties *)

(** C23: a rule generated with secondary locations whose schema is a list of
    options (or absent), run with the internal parameter: its report is encoded
    in the data of the message [sonarRuntime] and, once ESLint has interpolated
    that data, the wrapper gives back the issue with the expanded message, the
    secondary locations and the cost the rule reported, and nothing else changed. *)
Theorem secondary_locations_arrive {R} interpolate rspec ruleMeta meta options
    (d : ReportDescriptor R) message secs cost :
  (forall template data v, template = "{{sonarRuntimeData}}" ->
     map_get "sonarRuntimeData" data = Some v -> interpolate template data = v) ->
  generateMeta rspec ruleMeta true = Ok meta ->
  list_schema (orElse (schema rspec) (m ← ruleMeta; schema m)) ->
  runs_in_sonar options = true ->
  rd_message d = Some message -> "sonarRuntimeData" ∉ (default [] (rd_data d)).*1 ->
  exists d' template,
    report options d secs cost = Ok d' /\ rd_message d' = None /\ rd_rest d' = rd_rest d
    /\ (id ← rd_messageId d'; map_get id (default [] (messages meta))) = Some template
    /\ forall issue, i_message issue = interpolate template (default [] (rd_data d')) ->
         decodeSonarRuntime (Some meta) issue
         = Ok (with_contents issue (expandMessage message (Some (default [] (rd_data d)))) (Some secs) cost).
Proof.
  intros HI HG HL HR HM HD. destruct (generateMeta_runtime _ _ _ HG HL) as [Hrt Htpl].
  unfold report. rewrite HR. cbn [negb]. unfold toEncodedMessage. rewrite HM.
  do 2 eexists. split; [done|]. cbn. do 2 (split; [done|]). split; [exact Htpl|].
  intros issue Hi. apply decode_contents; [done|]. rewrite Hi. apply HI; [done|].
  by rewrite map_get_fold_set.
Qed.

(** The result of linting, whatever the messages. The paths are the texts of
    the messages of the rule [sonarjs/ucfg]; the issues are those of the other
    messages, in order, without the first issue of each internal rule, whose texts
    give the symbols and the complexity; and there is no result as soon as one
    message cannot be transformed or the symbols are not JSON. *)
Theorem transformMessages_spec getLocFromIndex rules msgs r :
  transformMessages getLocFromIndex rules msgs = Ok r
  <-> exists all rest symbols complexity,
        Forall2 (fun m o => transformMessage getLocFromIndex rules m = Ok o) (linted msgs) all
        /\ removed symbolHighlightingRuleId (omap id all) rest symbols
        /\ removed cognitiveComplexityRuleId rest (issues r) complexity
        /\ ucfgPaths r = map m_message (filter (fun m => is_ucfg m = true) msgs)
        /\ match symbols with
           | Some i => JSON_parse (i_message i) = Some (highlightedSymbols r)
           | None => highlightedSymbols r = JArr []
           end
        /\ cognitiveComplexity r = (i ← complexity; Number (i_message i)).
Proof.
  unfold transformMessages. rewrite rbind_ok. split.
  - intros ([found paths] & Hl & H).
    apply transformMessages_loop_spec in Hl as (all & HF & -> & ->).
    apply rbind_ok in H as ([rest symbols] & Hs & H). unfold extractHighlightedSymbols in Hs.
    destruct (findAndRemoveFirstIssue _ symbolHighlightingRuleId) as [rest' f] eqn:F1.
    unfold extractCognitiveComplexity in H.
    destruct (findAndRemoveFirstIssue rest _) as [rest2 c] eqn:F2. apply Ok_inj in H as <-.
    exists all, rest', f, c. apply findAndRemove_iff in F1, F2.
    destruct f as [i|]; [destruct (JSON_parse _) as [v|] eqn:J; [|done]|];
      apply Ok_inj in Hs; simplify_eq; done.
  - intros (all & rest & symbols & complexity & HF & H1 & H2 & HP & HS & HC).
    exists (omap id all, ucfgPaths r). split.
    { apply transformMessages_loop_spec. by exists all. }
    apply findAndRemove_iff in H1, H2. unfold extractHighlightedSymbols. cbn in H1 |- *. rewrite H1.
    unfold extractCognitiveComplexity. destruct r as [li ps hs cc]; cbn in *. subst cc.
    destruct symbols as [i|]; [rewrite HS|rewrite HS]; cbn; by rewrite H2.
Qed.

(** A message throws while its quick fixes are built exactly when it holds a
    fix (not only suggestions) of one of the enabled rules that have no message. *)
Theorem transformFixes_throws_iff getLocFromIndex message e :
  transformFixes getLocFromIndex message = Throw e
  <-> exists ruleId fix_, m_ruleId message = Some ruleId /\ m_fix message = Some fix_
        /\ withoutPrefix ruleId ∈ rules_without_message
        /\ e = MissingQuickFixMessage (withoutPrefix ruleId).
Proof.
  unfold transformFixes. destruct (hasQuickFix message) eqn:Q; cbn [negb].
  - destruct (quickFix_enabled _ Q) as (ruleId & Hr & Hin). rewrite Hr.
    destruct (m_fix message) as [f|] eqn:F.
    + pose proof (fun e => getQuickFixMessage_throws _ e Hin) as G. clear Q Hin Hr F. revert G.
      generalize rules_without_message as W. intros W G.
      change (default "" (Some ruleId)) with ruleId. split.
      * intros H. exists ruleId, f. do 2 (split; [done|]). apply G.
        destruct (getQuickFixMessage _) as [t|e']; [done|]. cbn in H. congruence.
      * intros (? & ? & [= <-] & _ & H). apply G in H as ->. done.
    + split; [discriminate|]. intros (? & ? & _ & [=] & _).
  - split; [discriminate|]. intros (ruleId & f & Hr & Hf & Hw & _).
    apply list_elem_of_filter in Hw as [_ Hw]. unfold hasQuickFix in Q.
    rewrite Hr, Hf in Q. apply andb_false_iff in Q as [Q|Q].
    + apply negb_false_iff, String.eqb_eq in Q. subst. apply includes_spec in Hw.
      by vm_compute in Hw.
    + by apply includes_false in Q.
Qed.

(** ** Witness *)

(** Interpolation of the one placeholder the wrapper uses. *)
Definition interpolate_one (template : string) (data : list (string * string)) : string :=
  if template =s "{{sonarRuntimeData}}" then default "" (map_get "sonarRuntimeData" data) else template.

Definition plain_meta : RuleMetaData := mkMeta None false None None.

Definition counted : ReportDescriptor unit :=
  mkDescriptor (Some "Remove {{n}} items") None (Some [("n", "2")]) tt.

Lemma secondary_locations_arrive_witness :
  exists meta d' template,
    generateMeta plain_meta None true = Ok meta
    /\ report [JStr "sonar-runtime"] counted [mkIssueLocation (Some "here") 2 1 5 1] (Some 3%Z) = Ok d'
    /\ rd_message d' = None /\ rd_rest d' = tt
    /\ (id ← rd_messageId d'; map_get id (default [] (messages meta))) = Some template
    /\ forall issue, i_message issue = interpolate_one template (default [] (rd_data d')) ->
         decodeSonarRuntime (Some meta) issue
         = Ok (with_contents issue "Remove 2 items" (Some [mkIssueLocation (Some "here") 2 1 5 1])
                 (Some 3%Z)).
Proof.
  eexists.
  destruct (secondary_locations_arrive interpolate_one plain_meta None
              (mkMeta None false (Some [("sonarRuntime", "{{sonarRuntimeData}}")])
                 (Some (SchemaArray [sonarOptions])))
              [JStr "sonar-runtime"] counted "Remove {{n}} items"
              [mkIssueLocation (Some "here") 2 1 5 1] (Some 3%Z)) as (d' & template & H).
  - intros template data v -> H. unfold interpolate_one. cbn. by rewrite H.
  - by vm_compute.
  - exact I.
  - reflexivity.
  - reflexivity.
  - by apply (bool_decide_unpack _).
  - exists d', template. split; [by vm_compute|]. exact H.
Defined.
