(* ===== verification/LinterConfig.v ===== *)
(** * LinterConfig: the configurations of the linter and its wrapper

    The code of [packages/jsts/src/linter]: [config/linter-config.ts],
    [config/rule-config.ts], [wrapper.ts] and [linters.ts]. A [Map] of the
    wrapper is keyed by objects compared by identity: a key object has an address,
    and the wrapper counts the addresses it gave. ESLint, the bundles of rules and
    the environments of the package [globals] are parameters. *)

From Stdlib Require Import ZArith Lia.
From stdpp Require Import base list sets strings.
From S2P Require Import Prelude JsString Json Issues.

Open Scope js_scope.

Inductive FileType := MAIN | TEST.
Inductive JsTsLanguage := JS | TS.

#[export] Instance FileType_eq_dec : EqDecision FileType.
Proof. solve_decision. Defined.

#[export] Instance JsTsLanguage_eq_dec : EqDecision JsTsLanguage.
Proof. solve_decision. Defined.

(** [FileType[] | FileType] *)
Inductive Target :=
| TargetList (l : list FileType)
| TargetOne (t : FileType).

Record RuleConfig := mkRuleConfig {
  key : string;
  configurations : list json;
  fileTypeTarget : Target;
  language : option JsTsLanguage }.

(** The global context, and the object the rules are given. *)
Record Context_ := mkContext {
  workDir : string;
  shouldUseTypeScriptParserForJS : bool;
  sonarlint : bool;
  debugMemory : option bool;
  bundles : list string }.

Definition context_json (c : Context_) : json :=
  JObj ([("workDir", JStr (workDir c));
         ("shouldUseTypeScriptParserForJS", JBool (shouldUseTypeScriptParserForJS c));
         ("sonarlint", JBool (sonarlint c))]
        ++ member "debugMemory" (JBool <$> debugMemory c)
        ++ [("bundles", JArr (map JStr (bundles c)))]).

Inductive config_error :=
| NoSuchRule (key : string)
| LinterError (linterId : string)
| LintFailed (e : lint_error).

(** Rule modules by key; of a module the code reads the metadata, if any. *)
Definition RuleModules := list (string * option RuleMetaData).

Record LinterConfig := mkConfig {
  config_globals : list (string * bool);
  config_rules : list (string * list json) }.

Definition extendRuleConfig (ctx : Context_) (sch : option Schema) (inputRule : RuleConfig)
  : list json :=
  let options := configurations inputRule in
  let options := if hasSonarRuntimeOption sch then options ++ [JStr SONAR_RUNTIME] else options in
  if hasSonarContextOption sch then options ++ [context_json ctx] else options.

Record CustomRule := mkCustomRule { ruleId : string; ruleConfig : list json }.

(** [customRules] of [custom-rules/rules.ts] *)
Definition internalCustomRules : list CustomRule :=
  [mkCustomRule cognitiveComplexityRuleId [JStr "metric"];
   mkCustomRule symbolHighlightingRuleId []].

Definition Rules := list (string * list json).

(** The key of a rule in a configuration of ESLint. *)
Definition sonarjs (k : string) : string := "sonarjs/" +:+ k.

Fixpoint enableRules (ctx : Context_) (allRules : RuleModules) (inputRules : list RuleConfig)
    (rules : Rules) : result config_error Rules :=
  match inputRules with
  | [] => Ok rules
  | inputRule :: rest =>
      match map_get (key inputRule) allRules with
      | None => Throw (NoSuchRule (key inputRule))
      | Some meta =>
          enableRules ctx allRules rest
            (map_set (sonarjs (key inputRule))
               (JStr "error" :: extendRuleConfig ctx (m ← meta; schema m) inputRule) rules)
      end
  end.

Definition enableInternalCustomRules (ctx : Context_) (rules : Rules) : Rules :=
  if sonarlint ctx then rules
  else fold_left (fun rules r => map_set (sonarjs (ruleId r)) (JStr "error" :: ruleConfig r) rules)
         internalCustomRules rules.

Record LinterConfigurationKey := mkKey { k_language : JsTsLanguage; k_fileType : FileType }.

#[export] Instance LinterConfigurationKey_eq_dec : EqDecision LinterConfigurationKey.
Proof. solve_decision. Defined.

Section Config.

(** The globals of an environment, in the package [globals]. *)
Variable environment_globals : string -> option (list (string * bool)).

(** [{ ...a, ...b }] *)
Definition spread {V} (a b : list (string * V)) : list (string * V) :=
  fold_left (fun m kv => map_set kv.1 kv.2 m) b a.

Definition createEnv (environments : list string) : list (string * bool) :=
  fold_left (fun acc env => spread acc (default [] (environment_globals env))) environments [].

Definition createGlobals (globs : list string) : list (string * bool) :=
  fold_left (fun m k => map_set k true m) globs [].

Definition createLinterConfig (ctx : Context_) (inputRules : list RuleConfig) (allRules : RuleModules)
    (environments globs : list string) : result config_error LinterConfig :=
  let! rules := enableRules ctx allRules inputRules [] in
  Ok (mkConfig (spread (createGlobals globs) (createEnv environments))
        (enableInternalCustomRules ctx rules)).

(** ** The wrapper *)

Record WrapperOptions := mkOptions {
  inputRules : list RuleConfig;
  environments : list string;
  globals : list string }.

(** The address of a key object. *)
Definition address := nat.

Record LinterWrapper := mkWrapper {
  options : WrapperOptions;
  config : list (address * LinterConfig);
  configurationKeys : list (address * LinterConfigurationKey);
  allocated : address }.

Definition newLinterWrapper (o : WrapperOptions) : LinterWrapper := mkWrapper o [] [] 0.

(** The key objects of a wrapper and the number of addresses given. *)
Definition Keys : Type := list (address * LinterConfigurationKey) * address.

(** [linterConfigurationKey(key)] on an object just created: the address of the
    key found, or the one of the new object, which is recorded. *)
Definition linterConfigurationKey (ks : Keys) (k : LinterConfigurationKey) : Keys * address :=
  let (keys, next) := ks in
  match List.find (fun v => bool_decide (v.2 = k)) keys with
  | Some r => ((keys, S next), r.1)
  | None => ((keys ++ [(next, k)], S next), next)
  end.

Definition RulesByKey := list (address * list RuleConfig).

(** The body of the two loops of [createConfig] that sort the rules. *)
Definition addRule (r : RuleConfig) (st : Keys * RulesByKey) (fileType : FileType)
  : Keys * RulesByKey :=
  let (ks, rulesByKey) := st in
  let (ks, a) := linterConfigurationKey ks (mkKey (default JS (language r)) fileType) in
  (ks, map_set a (default [] (map_get a rulesByKey) ++ [r]) rulesByKey).

Definition target (r : RuleConfig) : list FileType :=
  match fileTypeTarget r with TargetList l => l | TargetOne t => [t] end.

Definition sortRules (rules : list RuleConfig) (st : Keys * RulesByKey) : Keys * RulesByKey :=
  fold_left (fun st r => fold_left (addRule r) (target r) st) rules st.

(** The second loop: a configuration for every key. *)
Fixpoint createConfigs (ctx : Context_) (rules : RuleModules) (o : WrapperOptions)
    (rulesByKey : RulesByKey) : result config_error (list (address * LinterConfig)) :=
  match rulesByKey with
  | [] => Ok []
  | (a, ruleConfigs) :: rest =>
      let! c := createLinterConfig ctx ruleConfigs rules (environments o) (globals o) in
      let! cs := createConfigs ctx rules o rest in
      Ok ((a, c) :: cs)
  end.

(** The wrapper afterwards, and what [createConfig] returns or throws. *)
Definition createConfig (ctx : Context_) (rules : RuleModules) (w : LinterWrapper)
  : LinterWrapper * result config_error (list (address * LinterConfig)) :=
  let '((keys, next), rulesByKey) :=
    sortRules (inputRules (options w)) ((configurationKeys w, allocated w), []) in
  (mkWrapper (options w) (config w) keys next, createConfigs ctx rules (options w) rulesByKey).

(** The rules of a bundle, as the module it is loaded from exports them. *)
Variable import_bundle : string -> RuleModules.

Definition loadRulesFromBundle (rules : RuleModules) (ruleBundle : string) : RuleModules :=
  spread rules (import_bundle ruleBundle).

(** The rules and the wrapper afterwards; on an exception the wrapper keeps its
    configurations. *)
Definition init (ctx : Context_) (rules : RuleModules) (w : LinterWrapper)
  : RuleModules * LinterWrapper * result config_error unit :=
  let rules := fold_left loadRulesFromBundle (bundles ctx) rules in
  let (w, created) := createConfig ctx rules w in
  match created with
  | Ok c => (rules, mkWrapper (options w) c (configurationKeys w) (allocated w), Ok tt)
  | Throw e => (rules, w, Throw e)
  end.

Definition getConfig (w : LinterWrapper) (k : LinterConfigurationKey)
  : LinterWrapper * address * option LinterConfig :=
  let '((keys, next), a) := linterConfigurationKey (configurationKeys w, allocated w) k in
  (mkWrapper (options w) (config w) keys next, a, map_get a (config w)).

(** The wrapper after [lint] chose the configuration of a file, and this
    configuration. The object [key] is the one [getConfig] is given, at the
    address [allocated w]: it is also the key of the default configuration. *)
Definition chooseConfig (ctx : Context_) (rules : RuleModules) (w : LinterWrapper)
    (fileType : FileType) (lang : JsTsLanguage) : result config_error (LinterWrapper * LinterConfig) :=
  let key := mkKey lang fileType in
  let '(w', _, linterConfig) := getConfig w key in
  match linterConfig with
  | Some c => Ok (w', c)
  | None =>
      let! c := createLinterConfig ctx [] rules (environments (options w)) (globals (options w)) in
      Ok (mkWrapper (options w') (map_set (allocated w) c (config w')) (configurationKeys w')
            (allocated w'), c)
  end.

(** ESLint on the parsed file, with the file type in its settings. *)
Variable verify : LinterConfig -> FileType -> list LintMessage.
Variable getLocFromIndex : Z -> Z * Z.

Definition lint (ctx : Context_) (rules : RuleModules) (w : LinterWrapper) (fileType : FileType)
    (lang : JsTsLanguage) : result config_error (LinterWrapper * result config_error LintingResult) :=
  let! (w', c) := chooseConfig ctx rules w fileType lang in
  Ok (w', match transformMessages getLocFromIndex
                  (fun k => m ← map_get k rules; m) (verify c fileType) with
          | Ok r => Ok r
          | Throw e => Throw (LintFailed e)
          end).

(** ** The global linters *)

Definition Linters := list (string * LinterWrapper).

Definition initializeLinter (ctx : Context_) (rules : RuleModules) (linters : Linters)
    (o : WrapperOptions) (linterId : string)
  : RuleModules * Linters * result config_error unit :=
  let '(rules', w, r) := init ctx rules (newLinterWrapper o) in
  (rules', map_set linterId w linters, r).

Definition getLinter (linters : Linters) (linterId : string) : result config_error LinterWrapper :=
  match map_get linterId linters with
  | Some w => Ok w
  | None => Throw (LinterError linterId)
  end.

End Config.

(** ** Lemmas: the rules of a configuration *)

Lemma sonarjs_inj a b : sonarjs a = sonarjs b -> a = b.
Proof. apply (inj (String.append "sonarjs/")). Qed.

(** The entry of the last input rule of a key. *)
Definition input_entry (ctx : Context_) (allRules : RuleModules) (rules : list RuleConfig) (k : string)
  : option (list json) :=
  r ← last (filter (fun r => key r = k) rules);
  m ← map_get k allRules;
  Some (JStr "error" :: extendRuleConfig ctx (meta ← m; schema meta) r).

Definition loaded (allRules : RuleModules) (r : RuleConfig) : Prop :=
  is_Some (map_get (key r) allRules).

Lemma input_entry_cons ctx allRules r rest k :
  input_entry ctx allRules (r :: rest) k
  = if decide (key r = k)
    then match last (filter (fun r => key r = k) rest) with
         | Some _ => input_entry ctx allRules rest k
         | None => m ← map_get k allRules;
                   Some (JStr "error" :: extendRuleConfig ctx (meta ← m; schema meta) r)
         end
    else input_entry ctx allRules rest k.
Proof.
  unfold input_entry. rewrite filter_cons. case_decide; [|done].
  rewrite last_cons. by destruct (last _).
Qed.

Lemma enableRules_lookup ctx allRules inputs : forall rules rules' k,
  enableRules ctx allRules inputs rules = Ok rules' ->
  map_get (sonarjs k) rules'
  = match input_entry ctx allRules inputs k with
    | Some e => Some e
    | None => map_get (sonarjs k) rules
    end.
Proof.
  induction inputs as [|r rest IH]; intros rules rules' k H; cbn [enableRules] in H.
  - by apply Ok_inj in H as <-.
  - destruct (map_get (key r) allRules) as [m|] eqn:M; [|done].
    rewrite (IH _ _ k H), input_entry_cons. case_decide as D.
    + subst k. rewrite map_get_set_eq. unfold input_entry.
      destruct (last _); rewrite M; done.
    + rewrite map_get_set_ne by (intros E; by apply sonarjs_inj in E). done.
Qed.

Lemma enableRules_throws ctx allRules inputs : forall rules,
  (exists rules', enableRules ctx allRules inputs rules = Ok rules')
  <-> Forall (loaded allRules) inputs.
Proof.
  induction inputs as [|r rest IH]; intros rules; cbn [enableRules].
  - split; [done|]. by exists rules.
  - rewrite Forall_cons. unfold loaded at 1. destruct (map_get (key r) allRules) as [m|].
    + rewrite IH. naive_solver.
    + split; [by intros [??]|]. intros [[??] _]. done.
Qed.

(** The entries of the internal rules. *)
Definition internal_entry (ctx : Context_) (k : string) : option (list json) :=
  if sonarlint ctx then None
  else if k =s cognitiveComplexityRuleId then Some [JStr "error"; JStr "metric"]
  else if k =s symbolHighlightingRuleId then Some [JStr "error"]
  else None.

Lemma internal_lookup ctx rules k :
  map_get (sonarjs k) (enableInternalCustomRules ctx rules)
  = match internal_entry ctx k with
    | Some e => Some e
    | None => map_get (sonarjs k) rules
    end.
Proof.
  unfold enableInternalCustomRules, internal_entry. destruct (sonarlint ctx); [done|].
  cbn [fold_left internalCustomRules ruleId ruleConfig].
  destruct (k =s cognitiveComplexityRuleId) eqn:C; split_bools.
  - subst. rewrite map_get_set_ne, map_get_set_eq; done.
  - destruct (k =s symbolHighlightingRuleId) eqn:S; split_bools.
    + subst. by rewrite map_get_set_eq.
    + rewrite !map_get_set_ne; [done| |]; intros E; by apply sonarjs_inj in E.
Qed.

(** ** Lemmas: the keys of a wrapper *)

Record keys_ok (ks : Keys) : Prop := mkKeysOk {
  keys_distinct : NoDup ks.1.*2;
  addresses_distinct : NoDup ks.1.*1;
  addresses_given : forall a, a ∈ ks.1.*1 -> (a < ks.2)%nat }.

Lemma find_key (keys : list (address * LinterConfigurationKey)) k :
  match List.find (fun v => bool_decide (v.2 = k)) keys with
  | Some r => r.2 = k /\ r ∈ keys
  | None => k ∉ keys.*2
  end.
Proof.
  destruct (List.find _ keys) as [r|] eqn:F.
  - apply find_some in F as [H E]. split_bools. split; [done|]. by apply list_elem_of_In.
  - intros H. apply list_elem_of_fmap in H as (r & -> & Hr).
    apply list_elem_of_In in Hr. apply (find_none _ _ F) in Hr. cbn in Hr. split_bools. done.
Qed.

(** What [linterConfigurationKey] does: it finds the key or adds it. *)
Lemma linterConfigurationKey_spec ks k ks' a :
  keys_ok ks -> linterConfigurationKey ks k = (ks', a) ->
  keys_ok ks' /\ ks'.2 = S ks.2
  /\ (ks'.1 = ks.1 /\ (a, k) ∈ ks.1
      \/ k ∉ ks.1.*2 /\ ks'.1 = ks.1 ++ [(a, k)] /\ a = ks.2).
Proof.
  destruct ks as [keys next]. intros [D A G] H. unfold linterConfigurationKey in H. cbn in *.
  pose proof (find_key keys k) as F. destruct (List.find _ keys) as [[a0 k0]|]; simplify_eq/=.
  - destruct F as [-> F]. repeat split; try done; [|by left].
    intros b Hb. specialize (G _ Hb). cbn. lia.
  - repeat split; cbn.
    + rewrite fmap_app. apply NoDup_app. split_and!; [done| |apply NoDup_singleton].
      intros x Hx E. apply list_elem_of_singleton in E as ->. done.
    + rewrite fmap_app. apply NoDup_app. split_and!; [done| |apply NoDup_singleton].
      intros x Hx E. apply list_elem_of_singleton in E as ->. apply G in Hx. cbn in Hx. lia.
    + intros b Hb. rewrite fmap_app in Hb. apply elem_of_app in Hb as [Hb|Hb].
      * apply G in Hb. lia.
      * apply list_elem_of_singleton in Hb as ->. cbn. lia.
    + right. done.
Qed.

Lemma keys_ok_functional ks a b k : keys_ok ks -> (a, k) ∈ ks.1 -> (b, k) ∈ ks.1 -> a = b.
Proof.
  intros [D _ _]. induction ks.1 as [|[c k'] l IH]; [by intros ?%not_elem_of_nil|].
  cbn in D. apply NoDup_cons in D as [N D].
  intros H1 H2. apply elem_of_cons in H1 as [H1|H1]; apply elem_of_cons in H2 as [H2|H2];
    simplify_eq; try done.
  - exfalso. apply N. apply list_elem_of_fmap. by exists (b, k').
  - exfalso. apply N. apply list_elem_of_fmap. by exists (a, k').
  - by apply IH.
Qed.

Lemma keys_ok_key ks a k k' : keys_ok ks -> (a, k) ∈ ks.1 -> (a, k') ∈ ks.1 -> k = k'.
Proof.
  intros [_ A _] H1 H2. apply (elem_map_get _ _ _ A) in H1, H2. congruence.
Qed.

(** There are four keys: two languages, two types of file. *)
Lemma keys_ok_length ks : keys_ok ks -> (length ks.1 <= 4)%nat.
Proof.
  intros [D _ _]. rewrite <- (length_fmap snd).
  apply (submseteq_length _ [mkKey JS MAIN; mkKey JS TEST; mkKey TS MAIN; mkKey TS TEST]).
  apply NoDup_submseteq; [done|]. intros [l t] _. destruct l, t; set_solver.
Qed.

(** ** Lemmas: sorting the rules by key *)

(** The pairs of a rule and a file type, in the order of the two loops. *)
Definition targets (rules : list RuleConfig) : list (RuleConfig * FileType) :=
  flat_map (fun r => map (fun t => (r, t)) (target r)) rules.

Definition key_of (e : RuleConfig * FileType) : LinterConfigurationKey :=
  mkKey (default JS (language e.1)) e.2.

(** The rules of a key among these pairs. *)
Definition selected (k : LinterConfigurationKey) (l : list (RuleConfig * FileType)) : list RuleConfig :=
  (filter (fun e => key_of e = k) l).*1.

(** The input rules for files of a type and a language. *)
Definition rules_for (k : LinterConfigurationKey) (rules : list RuleConfig) : list RuleConfig :=
  selected k (targets rules).

Lemma fold_left_map {A B C} (f : C -> A -> C) (g : B -> A) l : forall c,
  fold_left f (map g l) c = fold_left (fun c b => f c (g b)) l c.
Proof. induction l; intros; cbn; auto. Qed.

Lemma sortRules_flat rules : forall st,
  sortRules rules st = fold_left (fun st e => addRule e.1 st e.2) (targets rules) st.
Proof.
  induction rules as [|r rest IH]; intros st; [done|].
  unfold sortRules, targets. cbn [fold_left flat_map]. rewrite fold_left_app, fold_left_map. apply IH.
Qed.

(** After the pairs [l], the rules of every key are the ones selected. *)
Record sorted (l : list (RuleConfig * FileType)) (st : Keys * RulesByKey) : Prop := mkSorted {
  s_keys : keys_ok st.1;
  s_dom : st.2.*1 = st.1.1.*1;
  s_rules : forall a k, (a, k) ∈ st.1.1 -> map_get a st.2 = Some (selected k l);
  s_known : forall k, k ∈ st.1.1.*2 <-> selected k l <> [] }.

Lemma selected_snoc k l e :
  selected k (l ++ [e]) = selected k l ++ (if decide (key_of e = k) then [e.1] else []).
Proof.
  unfold selected. rewrite filter_app, fmap_app, filter_cons, filter_nil. by case_decide.
Qed.

Lemma sorted_step l st e : sorted l st -> sorted (l ++ [e]) (addRule e.1 st e.2).
Proof.
  destruct st as [ks rbk]. intros [K D R N]. cbn in K, D, R, N. unfold addRule.
  fold (key_of e). destruct (linterConfigurationKey ks (key_of e)) as [ks' a] eqn:L.
  destruct (linterConfigurationKey_spec _ _ _ _ K L) as (K' & _ & C).
  constructor; cbn [fst snd]; [done| | |].
  - destruct C as [[E H]|(H & E & ->)].
    + rewrite E, map_set_keys_in; [done|]. rewrite D. apply list_elem_of_fmap. by exists (a, key_of e).
    + rewrite E, map_set_keys_notin, fmap_app, D; [done|]. rewrite D. intros G.
      apply (addresses_given _ K) in G. lia.
  - intros b k H. rewrite selected_snoc. destruct C as [[E Ha]|(Hn & E & ->)].
    + rewrite E in H. case_decide as Q.
      * subst k. rewrite (keys_ok_functional _ _ _ _ K H Ha), map_get_set_eq, (R _ _ Ha). done.
      * rewrite map_get_set_ne; [by rewrite (R _ _ H), app_nil_r|].
        intros ->. by rewrite (keys_ok_key _ _ _ _ K H Ha) in Q.
    + rewrite E in H. apply elem_of_app in H as [H|H].
      * rewrite decide_False, app_nil_r.
        2: { intros Q. subst k. apply Hn. apply list_elem_of_fmap. by exists (b, key_of e). }
        rewrite map_get_set_ne; [by apply R|]. intros ->.
        assert (ks.2 < ks.2)%nat; [|lia]. apply (addresses_given _ K).
        apply list_elem_of_fmap. by exists (ks.2, k).
      * apply list_elem_of_singleton in H. simplify_eq. rewrite decide_True by done.
        rewrite map_get_set_eq. assert (map_get ks.2 rbk = None) as ->.
        { apply map_get_None. rewrite D. intros G. apply (addresses_given _ K) in G. lia. }
        destruct (selected (key_of e) l) eqn:S; [done|]. exfalso. apply Hn, N. by rewrite S.
  - intros k. rewrite selected_snoc. destruct C as [[E Ha]|(Hn & E & ->)]; rewrite E.
    + rewrite N. case_decide as Q; [|by rewrite app_nil_r]. subst k. split.
      * intros _ G. by apply app_eq_nil in G as [_ ?].
      * intros _. apply N. apply list_elem_of_fmap. by exists (a, key_of e).
    + rewrite fmap_app, elem_of_app, N. cbn. case_decide as Q.
      * subst k. split; [intros _ G; by apply app_eq_nil in G as [_ ?]|]. intros _. right. set_solver.
      * rewrite app_nil_r. set_solver.
Qed.

Lemma sorted_fold l : forall done_ st,
  sorted done_ st -> sorted (done_ ++ l) (fold_left (fun st e => addRule e.1 st e.2) l st).
Proof.
  induction l as [|e l IH]; intros done_ st H; cbn; [by rewrite app_nil_r|].
  rewrite (cons_middle e), (assoc_L (++)). apply IH. by apply sorted_step.
Qed.

Lemma sortRules_sorted rules : sorted (targets rules) (sortRules rules (([], 0%nat), [])).
Proof.
  rewrite sortRules_flat. apply (sorted_fold _ []). constructor; cbn.
  - constructor; cbn; [constructor|constructor|]. by intros a ?%not_elem_of_nil.
  - done.
  - by intros a k ?%not_elem_of_nil.
  - intros k. split; [by intros ?%not_elem_of_nil|done].
Qed.

(** ** Lemmas: a wrapper after its initialisation *)

Section Wrapper.

Variable environment_globals : string -> option (list (string * bool)).
Variable ctx : Context_.
Variable rules : RuleModules.
Variable o : WrapperOptions.

Notation create l := (createLinterConfig environment_globals ctx l rules (environments o) (globals o)).
Notation choose := (chooseConfig environment_globals ctx rules).

Record wrapper_ok (w : LinterWrapper) : Prop := mkWrapperOk {
  ok_options : options w = o;
  ok_keys : keys_ok (configurationKeys w, allocated w);
  ok_dom : (config w).*1 = (configurationKeys w).*1;
  ok_config : forall a k, (a, k) ∈ configurationKeys w -> exists c, map_get a (config w) = Some c
                /\ create (rules_for k (inputRules o)) = Ok c;
  ok_others : forall k, k ∉ (configurationKeys w).*2 -> rules_for k (inputRules o) = [] }.

Lemma createConfigs_lookup rbk : forall cs,
  createConfigs environment_globals ctx rules o rbk = Ok cs ->
  cs.*1 = rbk.*1
  /\ forall a l, map_get a rbk = Some l -> exists c, map_get a cs = Some c /\ create l = Ok c.
Proof.
  induction rbk as [|[a l] rest IH]; intros cs H; cbn [createConfigs] in H.
  - apply Ok_inj in H as <-. done.
  - apply rbind_ok in H as (c & Hc & H). apply rbind_ok in H as (cs' & H' & H).
    apply Ok_inj in H as <-. destruct (IH _ H') as [D G]. split; [cbn; by rewrite D|].
    intros b l' E. cbn [map_get] in *. case_decide.
    + simplify_eq. by exists c.
    + by apply G.
Qed.

Lemma create_default : exists c, create [] = Ok c.
Proof. by eexists. Qed.

Lemma choose_found w w' a c ft lang :
  getConfig w (mkKey lang ft) = (w', a, Some c) -> choose w ft lang = Ok (w', c).
Proof. intros H. unfold chooseConfig. by rewrite H. Qed.

Lemma choose_ok w ft lang :
  wrapper_ok w ->
  exists w' c, choose w ft lang = Ok (w', c) /\ wrapper_ok w'
    /\ create (rules_for (mkKey lang ft) (inputRules o)) = Ok c.
Proof.
  intros [O K D C X]. unfold chooseConfig, getConfig.
  destruct (linterConfigurationKey _ _) as [[keys next] a] eqn:L.
  destruct (linterConfigurationKey_spec _ _ _ _ K L) as (K' & N' & S). cbn in N', S.
  destruct S as [[-> H]|(H & -> & ->)].
  - destruct (C _ _ H) as (c & Hc & Hcr). rewrite Hc. do 2 eexists. split; [done|]. split; [|done].
    by constructor.
  - assert (Hn : allocated w ∉ (config w).*1).
    { rewrite D. intros G. apply (addresses_given _ K) in G. cbn in G. lia. }
    rewrite (proj2 (map_get_None _ _) Hn), O. destruct create_default as [c Hc]. rewrite Hc.
    cbn [rbind]. do 2 eexists. split; [done|]. rewrite (X _ H). split; [|done].
    constructor; cbn [options configurationKeys allocated config]; [done|done| | |].
    + by rewrite map_set_keys_notin, fmap_app, D.
    + intros b k G. apply elem_of_app in G as [G|G].
      * rewrite map_get_set_ne; [by apply C|]. intros ->. apply Hn. rewrite D.
        apply list_elem_of_fmap. by exists (allocated w, k).
      * apply list_elem_of_singleton in G. simplify_eq. rewrite map_get_set_eq.
        exists c. split; [done|]. by rewrite (X _ H).
    + intros k G. apply X. intros G'. apply G. rewrite fmap_app, elem_of_app. by left.
Qed.

(** The wrappers reached by linting files. *)
Inductive linting (w : LinterWrapper) : LinterWrapper -> Prop :=
| linting_none : linting w w
| linting_file w1 w2 ft lang c :
    linting w w1 -> choose w1 ft lang = Ok (w2, c) -> linting w w2.

Lemma linting_ok w w' : wrapper_ok w -> linting w w' -> wrapper_ok w'.
Proof.
  intros H. induction 1 as [|w1 w2 ft lang c _ IH E]; [done|].
  destruct (choose_ok w1 ft lang IH) as (w2' & c' & E' & Hok & _). rewrite E in E'. by simplify_eq.
Qed.

End Wrapper.

Lemma createConfig_ok environment_globals ctx rules o w created :
  createConfig environment_globals ctx rules (newLinterWrapper o) = (w, Ok created) ->
  wrapper_ok environment_globals ctx rules o (mkWrapper o created (configurationKeys w) (allocated w)).
Proof.
  unfold createConfig. cbn [options newLinterWrapper configurationKeys allocated config].
  pose proof (sortRules_sorted (inputRules o)) as S.
  destruct (sortRules _ _) as [[keys next] rbk]. intros [= <- Hc]. cbn.
  destruct S as [K D R N]. cbn in *. destruct (createConfigs_lookup _ _ _ _ _ _ Hc) as [Dc G].
  constructor; cbn; [done|done|congruence| |].
  - intros a k H. apply G. by apply R.
  - intros k H. unfold rules_for. destruct (selected k _) eqn:E; [done|].
    exfalso. apply H, N. by rewrite E.
Qed.

Lemma init_ok environment_globals import_bundle ctx rules o rules' w :
  init environment_globals import_bundle ctx rules (newLinterWrapper o) = (rules', w, Ok tt) ->
  wrapper_ok environment_globals ctx rules' o w.
Proof.
  unfold init. destruct (createConfig _ _ _ _) as [w' [created|e]] eqn:E; [|done].
  assert (options w' = o) as O.
  { unfold createConfig in E. destruct (sortRules _ _) as [[??]?]. by simplify_eq/=. }
  intros [= <- <-]. rewrite O. by apply createConfig_ok.
Qed.

(** The linter [n] files of a type and a language later. *)
Fixpoint lints environment_globals (ctx : Context_) (rules : RuleModules) (ft : FileType)
    (lang : JsTsLanguage) (n : nat) (w : LinterWrapper) : result config_error LinterWrapper :=
  match n with
  | O => Ok w
  | S n' =>
      let! (w', _) := chooseConfig environment_globals ctx rules w ft lang in
      lints environment_globals ctx rules ft lang n' w'
  end.

(** A key that has no configuration although it is recorded gets a new one, under
    a new address, for every file. *)
Lemma lints_leak environment_globals ctx rules ft lang : forall n w a c,
  keys_ok (configurationKeys w, allocated w) ->
  (a, mkKey lang ft) ∈ configurationKeys w -> a ∉ (config w).*1 ->
  (forall b, b ∈ (config w).*1 -> (b < allocated w)%nat) ->
  createLinterConfig environment_globals ctx [] rules (environments (options w)) (globals (options w)) = Ok c ->
  exists w', lints environment_globals ctx rules ft lang n w = Ok w'
    /\ length (config w') = (length (config w) + n)%nat
    /\ exists w'', chooseConfig environment_globals ctx rules w' ft lang = Ok (w'', c).
Proof.
  assert (step : forall w a c,
    keys_ok (configurationKeys w, allocated w) ->
    (a, mkKey lang ft) ∈ configurationKeys w -> a ∉ (config w).*1 ->
    createLinterConfig environment_globals ctx [] rules (environments (options w)) (globals (options w)) = Ok c ->
    chooseConfig environment_globals ctx rules w ft lang
    = Ok (mkWrapper (options w) (map_set (allocated w) c (config w)) (configurationKeys w)
            (S (allocated w)), c)).
  { intros w a c K H N Hc. unfold chooseConfig, getConfig.
    destruct (linterConfigurationKey _ _) as [[keys next] b] eqn:L.
    destruct (linterConfigurationKey_spec _ _ _ _ K L) as (_ & N' & [[E G]|(G & _)]);
      cbn [fst snd] in *.
    - subst. rewrite (keys_ok_functional _ _ _ _ K G H).
      rewrite (proj2 (map_get_None _ _) N). by rewrite Hc.
    - exfalso. apply G. apply list_elem_of_fmap. by exists (a, mkKey lang ft). }
  induction n as [|n IH]; intros w a c K H N B Hc; cbn [lints].
  - exists w. split; [done|]. split; [lia|]. eexists. by eapply step.
  - rewrite (step _ _ _ K H N Hc). cbn [rbind].
    assert (F : allocated w ∉ (config w).*1) by (intros G; apply B in G; lia).
    destruct (IH (mkWrapper (options w) (map_set (allocated w) c (config w)) (configurationKeys w)
                    (S (allocated w))) a c) as (w' & E & Len & R);
      cbn [options config configurationKeys allocated] in *.
    + destruct K as [D A G]. constructor; cbn [fst snd] in *; [done|done|]. intros b Hb. apply G in Hb. lia.
    + done.
    + rewrite map_set_keys_notin by done. rewrite elem_of_app. intros [?|G]; [done|].
      apply list_elem_of_singleton in G as ->.
      assert (allocated w < allocated w)%nat; [|lia]. apply (addresses_given _ K).
      apply list_elem_of_fmap. by exists (allocated w, mkKey lang ft).
    + rewrite map_set_keys_notin by done. intros b. rewrite elem_of_app. intros [G|G].
      * apply B in G. lia.
      * apply list_elem_of_singleton in G as ->. lia.
    + done.
    + exists w'. split; [done|]. split; [|done]. rewrite Len, <- (length_fmap fst).
      rewrite map_set_keys_notin by done. rewrite length_app, length_fmap. cbn. lia.
Qed.

(** ** Properties *)

(** A configuration is created exactly when all its input rules are loaded,
    and then a rule is enabled with the entry of an internal rule (outside
    SonarLint), or else with the options of the last input rule of its key
    extended with the internal parameters its schema asks for; no other rule is. *)
Theorem createLinterConfig_rules environment_globals ctx inputs allRules envs globs :
  (Forall (loaded allRules) inputs
   <-> exists c, createLinterConfig environment_globals ctx inputs allRules envs globs = Ok c)
  /\ forall c k, createLinterConfig environment_globals ctx inputs allRules envs globs = Ok c ->
       map_get (sonarjs k) (config_rules c)
       = match internal_entry ctx k with
         | Some e => Some e
         | None => input_entry ctx allRules inputs k
         end.
Proof.
  unfold createLinterConfig. split.
  - rewrite <- (enableRules_throws ctx allRules inputs []). split.
    + intros [r ->]. by eexists.
    + intros [c H]. apply rbind_ok in H as (r & H & _). by exists r.
  - intros c k H. apply rbind_ok in H as (r & Hr & H). apply Ok_inj in H as <-. cbn.
    rewrite internal_lookup, (enableRules_lookup _ _ _ _ _ k Hr).
    by destruct (internal_entry ctx k), (input_entry ctx allRules inputs k).
Qed.

(** C13: after a successful initialisation, whatever files were linted before, a
    file is linted with the configuration of the input rules that target its type
    and its language, and the wrapper never holds more than four configurations. *)
Theorem initialized_linter_selects environment_globals import_bundle ctx rules linters o id rules' linters' :
  initializeLinter environment_globals import_bundle ctx rules linters o id = (rules', linters', Ok tt) ->
  exists w, getLinter linters' id = Ok w
    /\ forall w', linting environment_globals ctx rules' w w' ->
         (length (config w') <= 4)%nat
         /\ forall ft lang, exists w'' c,
              chooseConfig environment_globals ctx rules' w' ft lang = Ok (w'', c)
              /\ createLinterConfig environment_globals ctx (rules_for (mkKey lang ft) (inputRules o))
                   rules' (environments o) (globals o) = Ok c.
Proof.
  unfold initializeLinter. destruct (init _ _ _ _ _) as [[r w] res] eqn:I. intros [= <- <- ->].
  apply init_ok in I. exists w. split; [unfold getLinter; by rewrite map_get_set_eq|].
  intros w' L. apply (linting_ok _ _ _ _ _ _ I) in L. split.
  - rewrite <- (length_fmap fst), (ok_dom _ _ _ _ _ L), length_fmap.
    apply (keys_ok_length (_, allocated w')). apply (ok_keys _ _ _ _ _ L).
  - intros ft lang. destruct (choose_ok _ _ _ _ w' ft lang L) as (w'' & c & E & _ & Hc). by exists w'', c.
Qed.

(** When the initialisation of a linter fails on an input rule that is not
    loaded, the linter is registered all the same, and files of a targeted type
    and language are linted without any input rule, each of them leaving one more
    configuration in the wrapper. *)
Theorem failed_initialization_leaks environment_globals import_bundle ctx rules linters o id rules' linters'
    ft lang n :
  initializeLinter environment_globals import_bundle ctx rules linters o id
  = (rules', linters', Throw (NoSuchRule n)) ->
  rules_for (mkKey lang ft) (inputRules o) <> [] ->
  exists w c, getLinter linters' id = Ok w
    /\ createLinterConfig environment_globals ctx [] rules' (environments o) (globals o) = Ok c
    /\ forall count, exists w', lints environment_globals ctx rules' ft lang count w = Ok w'
         /\ length (config w') = count
         /\ exists w'', chooseConfig environment_globals ctx rules' w' ft lang = Ok (w'', c).
Proof.
  unfold initializeLinter, init, createConfig. cbn [options newLinterWrapper configurationKeys allocated config].
  pose proof (sortRules_sorted (inputRules o)) as S.
  destruct (sortRules _ _) as [[keys next] rbk]. destruct S as [K D R N]. cbn in K, D, R, N.
  intros H T. destruct (createConfigs _ _ _ _ _) as [cs|e]; [done|]. injection H as <- <- _.
  apply N, list_elem_of_fmap in T as ([a k] & E & T). cbn in E. subst k.
  destruct (create_default environment_globals ctx (fold_left (loadRulesFromBundle import_bundle) (bundles ctx) rules) o)
    as [c Hc].
  do 2 eexists. split; [unfold getLinter; by rewrite map_get_set_eq|]. split; [exact Hc|].
  intros count.
  apply (lints_leak environment_globals ctx _ ft lang count (mkWrapper o [] keys next) a c); try done.
  - by apply not_elem_of_nil.
  - by intros b ?%not_elem_of_nil.
Qed.

(** A rule with both internal parameters: the context comes after the marker
    of secondary locations, so the helper reports as outside of the analyzer, and
    decoding an issue whose text is not JSON throws. *)
Theorem sonar_context_hides_runtime {R} ctx meta r (d : ReportDescriptor R) secs cost issue :
  hasSonarRuntimeOption (schema meta) = true -> hasSonarContextOption (schema meta) = true ->
  JSON_parse (i_message issue) = None ->
  report (extendRuleConfig ctx (schema meta) r) d secs cost = report [] d secs cost
  /\ decodeSonarRuntime (Some meta) issue = Throw (FailedToParse (i_ruleId issue) (i_message issue)).
Proof.
  intros HR HC J. split.
  - unfold extendRuleConfig, report, runs_in_sonar. rewrite HR, HC, last_snoc. done.
  - unfold decodeSonarRuntime. cbn. by rewrite HR, J.
Qed.

(** ** Witnesses *)

Definition some_context : Context_ := mkContext "/project" false false None [].

Definition some_rule (k : string) (target : Target) : RuleConfig := mkRuleConfig k [] target None.

Definition some_modules : RuleModules :=
  [("S1", Some (mkMeta None false None (Some (SchemaArray [sonarOptions]))));
   ("S2", None)].

Definition some_options (inputs : list RuleConfig) : WrapperOptions := mkOptions inputs ["browser"] [].

Definition no_environment (env : string) : option (list (string * bool)) := None.
Definition no_bundle (b : string) : RuleModules := [].

Definition some_inputs : list RuleConfig :=
  [some_rule "S1" (TargetOne MAIN); some_rule "S2" (TargetList [MAIN; TEST])].

Lemma createLinterConfig_rules_witness :
  exists c, createLinterConfig no_environment some_context some_inputs some_modules [] [] = Ok c
    /\ map_get (sonarjs "S1") (config_rules c) = Some [JStr "error"; JStr "sonar-runtime"]
    /\ map_get (sonarjs "internal-cognitive-complexity") (config_rules c)
       = Some [JStr "error"; JStr "metric"].
Proof.
  destruct (createLinterConfig_rules no_environment some_context some_inputs some_modules [] [])
    as [[E _] L].
  destruct E as [c Hc].
  { repeat constructor; by eexists. }
  exists c. split; [exact Hc|]. split; [rewrite (L c "S1" Hc)|rewrite (L c "internal-cognitive-complexity" Hc)];
    by vm_compute.
Defined.

Lemma initialized_linter_selects_witness :
  exists w, getLinter (initializeLinter no_environment no_bundle some_context some_modules []
                         (some_options some_inputs) "default").1.2 "default" = Ok w
    /\ exists w' c, chooseConfig no_environment some_context some_modules w TEST JS = Ok (w', c)
         /\ createLinterConfig no_environment some_context [some_rule "S2" (TargetList [MAIN; TEST])]
              some_modules ["browser"] [] = Ok c.
Proof.
  edestruct (initialized_linter_selects no_environment no_bundle some_context some_modules []
               (some_options some_inputs) "default" some_modules) as (w & G & H).
  - vm_compute. reflexivity.
  - exists w. split; [vm_compute in G |- *; exact G|].
    destruct (H w (linting_none _ _ _ _)) as [_ H']. destruct (H' TEST JS) as (w' & c & E & Hc).
    exists w', c. split; [exact E|exact Hc].
Defined.

Lemma failed_initialization_leaks_witness :
  exists w c, getLinter (initializeLinter no_environment no_bundle some_context some_modules []
                           (some_options [some_rule "S3" (TargetOne MAIN)]) "default").1.2 "default" = Ok w
    /\ createLinterConfig no_environment some_context [] some_modules ["browser"] [] = Ok c
    /\ exists w', lints no_environment some_context some_modules MAIN JS 100 w = Ok w'
         /\ length (config w') = 100%nat.
Proof.
  set (o := some_options [some_rule "S3" (TargetOne MAIN)]).
  destruct (failed_initialization_leaks no_environment no_bundle some_context some_modules []
              o "default" some_modules
              (initializeLinter no_environment no_bundle some_context some_modules [] o "default").1.2
              MAIN JS "S3") as (w & c & G & Hc & H).
  - by vm_compute.
  - by vm_compute.
  - exists w, c. split; [vm_compute in G |- *; exact G|]. split; [exact Hc|].
    destruct (H 100%nat) as (w' & E & L & _). by exists w'.
Defined.

(** The schema of a rule that asks for both parameters. *)
Definition both_parameters : RuleMetaData :=
  mkMeta None false None (Some (SchemaArray [sonarOptions; mkOption None (Some SONAR_CONTEXT)])).

Lemma sonar_context_hides_runtime_witness :
  report (extendRuleConfig some_context (schema both_parameters) (some_rule "S1" (TargetOne MAIN)))
    counted [] None = report [] counted [] None
  /\ decodeSonarRuntime (Some both_parameters) (mkIssue "S1" 1 1 None None "Fix this." None [] [])
     = Throw (FailedToParse "S1" "Fix this.").
Proof.
  apply (sonar_context_hides_runtime some_context both_parameters (some_rule "S1" (TargetOne MAIN)) counted
           [] None (mkIssue "S1" 1 1 None None "Fix this." None [] [])); by vm_compute.
Defined.
