(* ===== verification/Cognitive.v ===== *)
(** * Cognitive: the cognitive complexity of functions and files (rule S3776)

    The code of [packages/jsts/src/rules/S3776/rule.ts] with
    [helpers/jsx.ts] and the location of a function of [helpers/location.ts]: the
    state of the rule, an operation per ESLint selector, and the traversal of
    ESLint, which on a node runs the selectors in the order of their specificity
    ([*], then [:function], then the type). The arrays the rule keeps are never
    changed after they are stored elsewhere, so they are values here. *)

From Stdlib Require Import ZArith Lia Ascii.
From stdpp Require Import base list sets strings.
From S2P Require Import Prelude JsString Json Estree Ast Issues.

Open Scope js_scope.
Open Scope Z_scope.

Record ComplexityPoint := mkPoint { complexity : Z; location : SourceLocation }.

Inductive cc_error :=
| NoToken
| ReportFailed (e : lint_error)
| OutOfFuel.

(** Where an issue is: a location (of a function, possibly undefined) or a node. *)
Inductive place :=
| AtLocation (l : option SourceLocation)
| AtNode (n : node).

Notation Descriptor := (ReportDescriptor place).

(** The node, the parent and the location of an entry are never read. *)
Record SecondLevelFunction := mkSecondLevel {
  complexityIfThisSecondaryIsTopLevel : list ComplexityPoint;
  slf_complexityIfNested : list ComplexityPoint }.

(** The variables of [create]. A stack is a list whose head is the top; nodes are
    in sets by their identity. *)
Record state := mkState {
  fileComplexity : Z;
  complexityIfNotNested : list ComplexityPoint;
  complexityIfNested : list ComplexityPoint;
  nesting : Z;
  topLevelHasStructuralComplexity : bool;
  component_nameStartsWithCapital : bool;
  component_returnsJsx : bool;
  topLevelOwnComplexity : list ComplexityPoint;
  nestingNodes : list nat;
  consideredLogicalExpressions : list nat;
  enclosingFunctions : list node;
  functionOwnComplexity : list (list ComplexityPoint);
  functionOwnControlFlowNesting : list Z;
  secondLevelFunctions : list SecondLevelFunction;
  reports : list Descriptor }.

Definition initial_state : state :=
  mkState 0 [] [] 0 false false false [] [] [] [] [] [] [] [].

Definition DEFAULT_THRESHOLD : Z := 15.

Definition message : string :=
  "Refactor this function to reduce its Cognitive Complexity from {{complexityAmount}} to the {{threshold}} allowed.".

Definition id_of (n : node) : nat := h_id (hdr n).

Definition is_function (n : node) : bool := includes (type_of n) FUNCTION_NODES.

(** The loop of a [reduce] over the points. *)
Definition total (l : list ComplexityPoint) : Z :=
  fold_left (fun acc cur => acc + complexity cur) l 0.

(** [helpers/jsx.ts] *)

Fixpoint flattenJsxShortCircuitNodes (fuel : nat) (root : node) (n : node) : option (list node) :=
  match fuel with
  | O => None
  | S fuel' =>
      if (type_of n =s "ConditionalExpression")
         || ((type_of n =s "LogicalExpression")
             && negb (default "" (get_str n "operator") =s default "" (get_str root "operator")))
      then None
      else if negb (type_of n =s "LogicalExpression") then Some []
      else
        match get_node n "left", get_node n "right" with
        | Some l, Some r =>
            match flattenJsxShortCircuitNodes fuel' root l, flattenJsxShortCircuitNodes fuel' root r with
            | Some leftNodes, Some rightNodes => Some (leftNodes ++ [n] ++ rightNodes)
            | _, _ => None
            end
        | _, _ => None
        end
  end.

Definition getJsxShortCircuitNodes (parent : option node) (logicalExpression : node) : option (list node) :=
  if opt_type_is parent "JSXExpressionContainer"
  then flattenJsxShortCircuitNodes (node_size logicalExpression) logicalExpression logicalExpression
  else None.

(** [flattenLogicalExpression]: the logical expressions, in the order of their
    operators; the caller marks them as considered. *)
Fixpoint flattenLogicalExpression (fuel : nat) (n : option node) : list node :=
  match fuel, n with
  | S fuel', Some n =>
      if isLogicalExpression (Some n)
      then flattenLogicalExpression fuel' (get_node n "left") ++ [n]
           ++ flattenLogicalExpression fuel' (get_node n "right")
      else []
  | _, _ => []
  end.

(** Fields of the state that operations change. *)

Definition set_nesting (st : state) (nodes : list nat) (n : Z) (flow : list Z) : state :=
  mkState (fileComplexity st) (complexityIfNotNested st) (complexityIfNested st) n
    (topLevelHasStructuralComplexity st) (component_nameStartsWithCapital st) (component_returnsJsx st)
    (topLevelOwnComplexity st) nodes (consideredLogicalExpressions st) (enclosingFunctions st)
    (functionOwnComplexity st) flow (secondLevelFunctions st) (reports st).

Definition addNestingNode (n : option node) (st : state) : state :=
  match n with
  | Some n =>
      set_nesting st (set_add (id_of n) (nestingNodes st)) (nesting st) (functionOwnControlFlowNesting st)
  | None => st
  end.

Definition set_considered (st : state) (ids : list nat) : state :=
  mkState (fileComplexity st) (complexityIfNotNested st) (complexityIfNested st) (nesting st)
    (topLevelHasStructuralComplexity st) (component_nameStartsWithCapital st) (component_returnsJsx st)
    (topLevelOwnComplexity st) (nestingNodes st) ids (enclosingFunctions st)
    (functionOwnComplexity st) (functionOwnControlFlowNesting st) (secondLevelFunctions st) (reports st).

Definition consider (nodes : list node) (st : state) : state :=
  set_considered st (set_add_all (consideredLogicalExpressions st) (map id_of nodes)).

(** [stack\[stack.length - 1\]] changed, when the stack is not empty. *)
Definition on_top {A} (f : A -> A) (stack : list A) : list A :=
  match stack with
  | [] => []
  | x :: rest => f x :: rest
  end.

(** The fields [addStructuralComplexity] and [addComplexity] change. *)
Definition set_points (st : state) (file : Z) (structural : bool)
    (top ifNotNested ifNested : list ComplexityPoint) (own : list (list ComplexityPoint)) : state :=
  mkState file ifNotNested ifNested (nesting st) structural (component_nameStartsWithCapital st)
    (component_returnsJsx st) top (nestingNodes st) (consideredLogicalExpressions st)
    (enclosingFunctions st) own (functionOwnControlFlowNesting st) (secondLevelFunctions st) (reports st).

Definition addStructuralComplexity (loc : SourceLocation) (st : state) : state :=
  let added := nesting st + 1 in
  let point := mkPoint added loc in
  let own :=
    match functionOwnControlFlowNesting st with
    | k :: _ => on_top (fun points => points ++ [mkPoint (k + 1) loc]) (functionOwnComplexity st)
    | [] => functionOwnComplexity st
    end in
  match enclosingFunctions st with
  | [] =>
      set_points st (fileComplexity st + added) (topLevelHasStructuralComplexity st)
        (topLevelOwnComplexity st) (complexityIfNotNested st) (complexityIfNested st) own
  | [_] =>
      set_points st (fileComplexity st) true (topLevelOwnComplexity st ++ [point])
        (complexityIfNotNested st) (complexityIfNested st) own
  | _ =>
      set_points st (fileComplexity st) (topLevelHasStructuralComplexity st) (topLevelOwnComplexity st)
        (complexityIfNotNested st ++ [point]) (complexityIfNested st ++ [mkPoint (added + 1) loc]) own
  end.

Definition addComplexity (loc : SourceLocation) (st : state) : state :=
  let point := mkPoint 1 loc in
  let own := on_top (fun points => points ++ [point]) (functionOwnComplexity st) in
  match enclosingFunctions st with
  | [] =>
      set_points st (fileComplexity st + 1) (topLevelHasStructuralComplexity st)
        (topLevelOwnComplexity st) (complexityIfNotNested st) (complexityIfNested st) own
  | [_] =>
      set_points st (fileComplexity st) (topLevelHasStructuralComplexity st)
        (topLevelOwnComplexity st ++ [point]) (complexityIfNotNested st) (complexityIfNested st) own
  | _ =>
      set_points st (fileComplexity st) (topLevelHasStructuralComplexity st) (topLevelOwnComplexity st)
        (complexityIfNotNested st ++ [point]) (complexityIfNested st ++ [point]) own
  end.

Section Rule.

Variable sc : SourceCode.
(** ESLint: the tokens before a node, in order. *)
Variable getTokensBefore : node -> list Token.
(** [toUpperCase] on the first letter of a name, when it is not ASCII. *)
Variable toUpperCase : string -> string.
(** [context.options] *)
Variable options : list json.

Definition threshold : Z :=
  match options with JNum z :: _ => z | _ => DEFAULT_THRESHOLD end.

Definition isFileComplexity : bool :=
  existsb (fun o => match o with JStr s => s =s "metric" | _ => false end) options.

(** [getFirstToken(node, context).loc] and [getFirstTokenAfter(node, context)!.loc] *)
Definition token_loc (t : option Token) : result cc_error SourceLocation :=
  match t with Some t => Ok (t_loc t) | None => Throw NoToken end.

Definition getFirstToken (n : node) : option Token := head (sc_getTokens sc n).

Definition getFirstTokenAfter (n : option node) : option Token := n ← n; sc_getTokenAfter sc n.

Definition getTokenByValue (n : node) (value : string) : option Token :=
  List.find (fun t => t_value t =s value) (sc_getTokens sc n).

Definition getMainFunctionTokenLocation (fn : node) (parent : option node) : option SourceLocation :=
  if type_of fn =s "FunctionDeclaration" then
    match get_node fn "id" with
    | Some id => h_loc (hdr id)
    | None => t_loc <$> getTokenByValue fn "function"
    end
  else if type_of fn =s "FunctionExpression" then
    if opt_type_is parent "MethodDefinition" || opt_type_is parent "Property"
    then key ← (p ← parent; get_node p "key"); h_loc (hdr key)
    else t_loc <$> getTokenByValue fn "function"
  else if type_of fn =s "ArrowFunctionExpression" then
    t_loc <$> List.find (fun t => t_value t =s "=>")
                (rev (match get_node fn "body" with Some b => getTokensBefore b | None => [] end))
  else None.

(** [name\[0\] === name\[0\].toUpperCase()]: a letter outside of the basic plane
    gives half a surrogate pair, which is its own upper case. A name is not
    empty. *)
Definition checkFirstLetter (name : string) : bool :=
  match name with
  | EmptyString => false
  | String c r =>
      let n := nat_of_ascii c in
      if Nat.ltb n 128 then Ascii.eqb c (upper_ascii c)
      else if Nat.leb 240 n then true
      else let letter := String.substring 0 (if Nat.ltb n 224 then 2 else 3) name in
           letter =s toUpperCase letter
  end.

Definition nameStartsWithCapital (n : node) (parent : option node) : bool :=
  let id := if isArrowFunctionExpression (Some n) then None else get_node n "id" in
  match id with
  | Some id => checkFirstLetter (default "" (get_str id "name"))
  | None =>
      match parent with
      | Some p =>
          if (type_of p =s "VariableDeclarator") && opt_type_is (get_node p "id") "Identifier"
          then checkFirstLetter (default "" (id ← get_node p "id"; get_str id "name"))
          else false
      | None => false
      end
  end.

(** ** The selectors *)

(** ['*'] *)
Definition onEnterNode (n : node) (st : state) : state :=
  if set_has (id_of n) (nestingNodes st)
  then set_nesting st (nestingNodes st) (nesting st + 1)
         (on_top (fun k => k + 1) (functionOwnControlFlowNesting st))
  else st.

(** ['*:exit'] *)
Definition onLeaveNode (n : node) (st : state) : state :=
  if set_has (id_of n) (nestingNodes st)
  then set_nesting st (set_delete (id_of n) (nestingNodes st)) (nesting st - 1)
         (on_top (fun k => k - 1) (functionOwnControlFlowNesting st))
  else st.

Definition onEnterFunction (n : node) (parent : option node) (st : state) : state :=
  let st :=
    match enclosingFunctions st with
    | [] =>
        mkState (fileComplexity st) (complexityIfNotNested st) (complexityIfNested st) (nesting st)
          false (nameStartsWithCapital n parent) false [] (nestingNodes st)
          (consideredLogicalExpressions st) (enclosingFunctions st) (functionOwnComplexity st)
          (functionOwnControlFlowNesting st) [] (reports st)
    | [_] =>
        mkState (fileComplexity st) [] [] (nesting st)
          (topLevelHasStructuralComplexity st) (component_nameStartsWithCapital st)
          (component_returnsJsx st) (topLevelOwnComplexity st) (nestingNodes st)
          (consideredLogicalExpressions st) (enclosingFunctions st) (functionOwnComplexity st)
          (functionOwnControlFlowNesting st) (secondLevelFunctions st) (reports st)
    | _ =>
        set_nesting st (set_add (id_of n) (nestingNodes st)) (nesting st + 1)
          (functionOwnControlFlowNesting st)
    end in
  mkState (fileComplexity st) (complexityIfNotNested st) (complexityIfNested st) (nesting st)
    (topLevelHasStructuralComplexity st) (component_nameStartsWithCapital st) (component_returnsJsx st)
    (topLevelOwnComplexity st) (nestingNodes st) (consideredLogicalExpressions st)
    (n :: enclosingFunctions st) ([] :: functionOwnComplexity st)
    (0 :: functionOwnControlFlowNesting st) (secondLevelFunctions st) (reports st).

Definition point_message (p : ComplexityPoint) : string :=
  if complexity p =? 1 then "+1"
  else "+" +:+ print_int (complexity p) +:+ " (incl. " +:+ print_int (complexity p - 1)
       +:+ " for nesting)".

Definition point_location (p : ComplexityPoint) : result lint_error IssueLocation :=
  let range l := mkRange (line (start l), column (start l)) (line (endp l), column (endp l)) in
  toSecondaryLocation (Some (range (location p))) (Some (EndMessage (point_message p))) None.

(** What [checkFunction] reports, if anything. *)
Definition checkFunction (points : list ComplexityPoint) (loc : option SourceLocation)
  : result lint_error (list Descriptor) :=
  let complexityAmount := total points in
  if complexityAmount >? threshold then
    let! secondaryLocations := rmap_list point_location points in
    let! d := report options
                (mkDescriptor (Some message) (Some "refactorFunction")
                   (Some [("complexityAmount", print_int complexityAmount);
                          ("threshold", print_int threshold)]) (AtLocation loc))
                secondaryLocations (Some (complexityAmount - threshold)) in
    Ok [d]
  else Ok [].

(** The complexity a top-level function and its second-level ones add to the file. *)
Definition topLevelTotal (st : state) : Z :=
  if topLevelHasStructuralComplexity st
     && negb (component_nameStartsWithCapital st && component_returnsJsx st)
  then total (fold_left (fun l f => l ++ slf_complexityIfNested f) (secondLevelFunctions st)
                (topLevelOwnComplexity st))
  else fold_left (fun acc f => acc + total (complexityIfThisSecondaryIsTopLevel f))
         (secondLevelFunctions st) (total (topLevelOwnComplexity st)).

Definition onLeaveFunction (n : node) (parent : option node) (st : state)
  : result cc_error state :=
  let functionComplexity := default [] (head (functionOwnComplexity st)) in
  let enclosing := List.tl (enclosingFunctions st) in
  let file :=
    match enclosing with [] => fileComplexity st + topLevelTotal st | _ => fileComplexity st end in
  let second :=
    match enclosing with
    | [_] => secondLevelFunctions st ++ [mkSecondLevel (complexityIfNotNested st) (complexityIfNested st)]
    | _ => secondLevelFunctions st
    end in
  let! found :=
    if isFileComplexity then Ok []
    else match checkFunction functionComplexity (getMainFunctionTokenLocation n parent) with
         | Ok l => Ok l
         | Throw e => Throw (ReportFailed e)
         end in
  Ok (mkState file (complexityIfNotNested st) (complexityIfNested st) (nesting st)
        (topLevelHasStructuralComplexity st) (component_nameStartsWithCapital st)
        (component_returnsJsx st) (topLevelOwnComplexity st) (nestingNodes st)
        (consideredLogicalExpressions st) enclosing (List.tl (functionOwnComplexity st))
        (List.tl (functionOwnControlFlowNesting st)) second (reports st ++ found)).

Definition visitIfStatement (n : node) (parent : option node) (st : state) : result cc_error state :=
  let! ifLoc := token_loc (getFirstToken n) in
  let st :=
    if isIfStatement parent
       && match p ← parent; get_node p "alternate" with Some a => same_node a n | None => false end
    then addComplexity ifLoc st else addStructuralComplexity ifLoc st in
  let st := addNestingNode (get_node n "consequent") st in
  match get_node n "alternate" with
  | Some alternate =>
      if isIfStatement (Some alternate) then Ok st
      else
        let st := addNestingNode (Some alternate) st in
        let! elseTokenLoc := token_loc (getFirstTokenAfter (get_node n "consequent")) in
        Ok (addComplexity elseTokenLoc st)
  | None => Ok st
  end.

Definition visitLoop (n : node) (st : state) : result cc_error state :=
  let! loc := token_loc (getFirstToken n) in
  Ok (addNestingNode (get_node n "body") (addStructuralComplexity loc st)).

Definition visitSwitchStatement (n : node) (st : state) : result cc_error state :=
  let! loc := token_loc (getFirstToken n) in
  Ok (fold_left (fun st switchCase => addNestingNode (Some switchCase) st) (get_nodes n "cases")
        (addStructuralComplexity loc st)).

Definition visitContinueOrBreakStatement (n : node) (st : state) : result cc_error state :=
  match get_node n "label" with
  | Some _ => let! loc := token_loc (getFirstToken n) in Ok (addComplexity loc st)
  | None => Ok st
  end.

Definition visitCatchClause (n : node) (st : state) : result cc_error state :=
  let! loc := token_loc (getFirstToken n) in
  Ok (addNestingNode (get_node n "body") (addStructuralComplexity loc st)).

Definition visitConditionalExpression (n : node) (st : state) : result cc_error state :=
  let! questionTokenLoc := token_loc (getFirstTokenAfter (get_node n "test")) in
  Ok (addNestingNode (get_node n "alternate")
        (addNestingNode (get_node n "consequent") (addStructuralComplexity questionTokenLoc st))).

Definition visitReturnStatement (n : node) (st : state) : state :=
  if Nat.eqb (length (enclosingFunctions st)) 1
     && match get_node n "argument" with
        | Some a => includes (type_of a) ["JSXElement"; "JSXFragment"]
        | None => false
        end
  then mkState (fileComplexity st) (complexityIfNotNested st) (complexityIfNested st) (nesting st)
         (topLevelHasStructuralComplexity st) (component_nameStartsWithCapital st) true
         (topLevelOwnComplexity st) (nestingNodes st) (consideredLogicalExpressions st)
         (enclosingFunctions st) (functionOwnComplexity st) (functionOwnControlFlowNesting st)
         (secondLevelFunctions st) (reports st)
  else st.

(** The loop over the flattened logical expressions. *)
Fixpoint addOperators (previous : option node) (l : list node) (st : state) : result cc_error state :=
  match l with
  | [] => Ok st
  | current :: rest =>
      let operator := default "" (get_str current "operator") in
      let! st :=
        if negb (operator =s "||") && negb (operator =s "??")
           && match previous with
              | Some p => negb (default "" (get_str p "operator") =s operator)
              | None => true
              end
        then let! loc := token_loc (getFirstTokenAfter (get_node current "left")) in
             Ok (addComplexity loc st)
        else Ok st in
      addOperators (Some current) rest st
  end.

Definition visitLogicalExpression (n : node) (parent : option node) (st : state)
  : result cc_error state :=
  match getJsxShortCircuitNodes parent n with
  | Some nodes => Ok (consider nodes st)
  | None =>
      if set_has (id_of n) (consideredLogicalExpressions st) then Ok st
      else
        let flattened := flattenLogicalExpression (node_size n) (Some n) in
        addOperators None flattened (consider flattened st)
  end.

Definition LOOPS : list string :=
  ["ForStatement"; "ForInStatement"; "ForOfStatement"; "DoWhileStatement"; "WhileStatement"].

(** The selector of the type of the node. *)
Definition onType (n : node) (parent : option node) (st : state) : result cc_error state :=
  let t := type_of n in
  if t =s "Program" then
    Ok (set_points st 0 (topLevelHasStructuralComplexity st) (topLevelOwnComplexity st)
          (complexityIfNotNested st) (complexityIfNested st) (functionOwnComplexity st))
  else if t =s "IfStatement" then visitIfStatement n parent st
  else if includes t LOOPS then visitLoop n st
  else if t =s "SwitchStatement" then visitSwitchStatement n st
  else if includes t ["ContinueStatement"; "BreakStatement"] then visitContinueOrBreakStatement n st
  else if t =s "CatchClause" then visitCatchClause n st
  else if t =s "LogicalExpression" then visitLogicalExpression n parent st
  else if t =s "ConditionalExpression" then visitConditionalExpression n st
  else if t =s "ReturnStatement" then Ok (visitReturnStatement n st)
  else Ok st.

Definition add_report (d : Descriptor) (st : state) : state :=
  mkState (fileComplexity st) (complexityIfNotNested st) (complexityIfNested st) (nesting st)
    (topLevelHasStructuralComplexity st) (component_nameStartsWithCapital st) (component_returnsJsx st)
    (topLevelOwnComplexity st) (nestingNodes st) (consideredLogicalExpressions st)
    (enclosingFunctions st) (functionOwnComplexity st) (functionOwnControlFlowNesting st)
    (secondLevelFunctions st) (reports st ++ [d]).

(** ['Program:exit'] *)
Definition onProgramExit (n : node) (st : state) : state :=
  if isFileComplexity
  then add_report (mkDescriptor None (Some "fileComplexity")
                     (Some [("complexityAmount", print_int (fileComplexity st))]) (AtNode n)) st
  else st.

Definition enter (n : node) (parents : list node) (st : state) : result cc_error state :=
  let st := onEnterNode n st in
  let st := if is_function n then onEnterFunction n (head parents) st else st in
  onType n (head parents) st.

Definition leave (n : node) (parents : list node) (st : state) : result cc_error state :=
  let st := onLeaveNode n st in
  let! st := if is_function n then onLeaveFunction n (head parents) st else Ok st in
  Ok (if type_of n =s "Program" then onProgramExit n st else st).

(** The traversal of ESLint. *)
Fixpoint traverse (fuel : nat) (parents : list node) (n : node) (st : state) : result cc_error state :=
  match fuel with
  | O => Throw OutOfFuel
  | S fuel' =>
      let! st := enter n parents st in
      let! st := rfold (fun st c => traverse fuel' (n :: parents) c st)
                   (childrenOf n (sc_visitorKeys sc)) st in
      leave n parents st
  end.

Definition run : result cc_error state :=
  traverse (node_size (sc_ast sc)) [] (sc_ast sc) initial_state.

End Rule.

(** ** The specification: own complexity by recursion on the tree *)

(** What a node adds: an increment that counts the nesting, or a plain one. *)
Inductive increment :=
| Structural (l : SourceLocation)
| Plain (l : SourceLocation).

Definition point_at (k : Z) (i : increment) : ComplexityPoint :=
  match i with
  | Structural l => mkPoint (k + 1) l
  | Plain l => mkPoint 1 l
  end.

(** The children of a node that are one level deeper. *)
Definition nested_by (n : node) : list node :=
  let t := type_of n in
  if t =s "IfStatement" then
    option_list (get_node n "consequent")
    ++ match get_node n "alternate" with
       | Some a => if isIfStatement (Some a) then [] else [a]
       | None => []
       end
  else if includes t LOOPS || (t =s "CatchClause") then option_list (get_node n "body")
  else if t =s "SwitchStatement" then get_nodes n "cases"
  else if t =s "ConditionalExpression" then
    option_list (get_node n "consequent") ++ option_list (get_node n "alternate")
  else [].

Definition nested_ids (n : node) : list nat := map id_of (nested_by n).

Section Spec.

Variable sc : SourceCode.
Variable getTokensBefore : node -> list Token.
Variable options : list json.

(** The operators that add one: a change of operator in a sequence, except for
    [||] and [??]. *)
Fixpoint operator_increments (previous : option node) (l : list node)
  : result cc_error (list increment) :=
  match l with
  | [] => Ok []
  | current :: rest =>
      let operator := default "" (get_str current "operator") in
      let! i :=
        if negb (operator =s "||") && negb (operator =s "??")
           && match previous with
              | Some p => negb (default "" (get_str p "operator") =s operator)
              | None => true
              end
        then let! loc := token_loc (getFirstTokenAfter sc (get_node current "left")) in Ok [Plain loc]
        else Ok [] in
      let! more := operator_increments (Some current) rest in
      Ok (i ++ more)
  end.

(** The increments of a node itself, and the logical expressions considered after it. *)
Definition increments (n : node) (parent : option node) (considered : list nat)
  : result cc_error (list increment * list nat) :=
  let t := type_of n in
  let structural (token : option Token) :=
    let! loc := token_loc token in Ok ([Structural loc], considered) in
  if t =s "IfStatement" then
    let! ifLoc := token_loc (getFirstToken sc n) in
    let first :=
      if isIfStatement parent
         && match p ← parent; get_node p "alternate" with Some a => same_node a n | None => false end
      then Plain ifLoc else Structural ifLoc in
    match get_node n "alternate" with
    | Some alternate =>
        if isIfStatement (Some alternate) then Ok ([first], considered)
        else let! loc := token_loc (getFirstTokenAfter sc (get_node n "consequent")) in
             Ok ([first; Plain loc], considered)
    | None => Ok ([first], considered)
    end
  else if includes t LOOPS then structural (getFirstToken sc n)
  else if t =s "SwitchStatement" then structural (getFirstToken sc n)
  else if includes t ["ContinueStatement"; "BreakStatement"] then
    match get_node n "label" with
    | Some _ => let! loc := token_loc (getFirstToken sc n) in Ok ([Plain loc], considered)
    | None => Ok ([], considered)
    end
  else if t =s "CatchClause" then structural (getFirstToken sc n)
  else if t =s "LogicalExpression" then
    match getJsxShortCircuitNodes parent n with
    | Some nodes => Ok ([], set_add_all considered (map id_of nodes))
    | None =>
        if set_has (id_of n) considered then Ok ([], considered)
        else
          let flattened := flattenLogicalExpression (node_size n) (Some n) in
          let! l := operator_increments None flattened in
          Ok (l, set_add_all considered (map id_of flattened))
    end
  else if t =s "ConditionalExpression" then structural (getFirstTokenAfter sc (get_node n "test"))
  else Ok ([], considered).

(** The points of [n] that count for the function around it, at the nesting [k]
    inside this function, the reports on the functions in [n], and the logical
    expressions considered after it. *)
Fixpoint own_complexity (fuel : nat) (parents : list node) (n : node) (k : Z) (considered : list nat)
  : result cc_error (list ComplexityPoint * list Descriptor * list nat) :=
  match fuel with
  | O => Throw OutOfFuel
  | S fuel' =>
      let! (own, considered) := increments n (head parents) considered in
      let k' := if is_function n then 0 else k in
      let! (points, found, considered) :=
        rfold (fun '(points, found, considered) c =>
                 let k'' := if set_has (id_of c) (nested_ids n) then k' + 1 else k' in
                 let! (points', found', considered') := own_complexity fuel' (n :: parents) c k'' considered in
                 Ok (points ++ points', found ++ found', considered'))
          (childrenOf n (sc_visitorKeys sc)) (map (point_at k') own, [], considered) in
      if is_function n then
        match checkFunction options points (getMainFunctionTokenLocation sc getTokensBefore n (head parents)) with
        | Ok d => Ok ([], found ++ d, considered)
        | Throw e => Throw (ReportFailed e)
        end
      else Ok (points, found, considered)
  end.

End Spec.

(** ** Lemmas: the effect of the operations on the stacks *)

(** Inside and outside of functions the two stacks have the same height. *)
Definition same_height (st : state) : Prop :=
  length (functionOwnComplexity st) = length (functionOwnControlFlowNesting st).

Definition flow_nesting (st : state) : Z := default 0 (head (functionOwnControlFlowNesting st)).

(** From [st] to [st'] the increments went to the innermost function, the nodes
    [nested] to the nesting nodes, and the rest is as it was. *)
Record moved (st st' : state) (incs : list increment) (nested : list nat) : Prop := mkMoved {
  m_own : functionOwnComplexity st'
          = on_top (fun l => l ++ map (point_at (flow_nesting st)) incs) (functionOwnComplexity st);
  m_flow : functionOwnControlFlowNesting st' = functionOwnControlFlowNesting st;
  m_considered : consideredLogicalExpressions st' = consideredLogicalExpressions st;
  m_reports : reports st' = reports st;
  m_nesting : nesting st' = nesting st;
  m_enclosing : enclosingFunctions st' = enclosingFunctions st;
  m_nodes : forall x, x ∈ nestingNodes st' <-> x ∈ nestingNodes st \/ x ∈ nested }.

Lemma on_top_id {A} (f : A -> A) l : (forall x, f x = x) -> on_top f l = l.
Proof. intros H. destruct l; cbn; [done|]. by rewrite H. Qed.

Lemma on_top_app {A} (a b : list A) s :
  on_top (fun l => l ++ b) (on_top (fun l => l ++ a) s) = on_top (fun l => l ++ a ++ b) s.
Proof. destruct s; cbn; [done|]. by rewrite (assoc_L (++)). Qed.

Lemma moved_refl st : moved st st [] [].
Proof.
  constructor; try done.
  - rewrite on_top_id; [done|]. intros l. apply app_nil_r.
  - intros x. rewrite elem_of_nil. tauto.
Qed.

Lemma moved_trans st1 st2 st3 i1 i2 n1 n2 :
  moved st1 st2 i1 n1 -> moved st2 st3 i2 n2 -> moved st1 st3 (i1 ++ i2) (n1 ++ n2).
Proof.
  intros [O1 F1 C1 R1 N1 E1 X1] [O2 F2 C2 R2 N2 E2 X2]. constructor; try congruence.
  - rewrite O2, O1. unfold flow_nesting. rewrite F1, on_top_app, map_app. done.
  - intros x. rewrite X2, X1, elem_of_app. tauto.
Qed.

Lemma moved_height st st' i n : moved st st' i n -> same_height st -> same_height st'.
Proof.
  intros [O F _ _ _ _ _] H. unfold same_height in *. rewrite O, F, <- H.
  by destruct (functionOwnComplexity st).
Qed.

Lemma moved_structural st l :
  same_height st -> moved st (addStructuralComplexity l st) [Structural l] [].
Proof.
  intros H. unfold addStructuralComplexity.
  destruct (enclosingFunctions st) as [|f [|g r]] eqn:E; constructor; cbn; try done;
    try (intros x; rewrite elem_of_nil; tauto);
    unfold flow_nesting, same_height in *;
    destruct (functionOwnControlFlowNesting st), (functionOwnComplexity st); done.
Qed.

Lemma moved_plain st l : moved st (addComplexity l st) [Plain l] [].
Proof.
  unfold addComplexity.
  destruct (enclosingFunctions st) as [|f [|g r]] eqn:E; constructor; cbn; try done;
    intros x; rewrite elem_of_nil; tauto.
Qed.

Lemma moved_nested st o :
  moved st (addNestingNode o st) [] (map id_of (option_list o)).
Proof.
  destruct o as [n|]; [|apply moved_refl].
  constructor; cbn; try done.
  - rewrite on_top_id; [done|]. intros l. apply app_nil_r.
  - intros x. rewrite elem_of_set_add, list_elem_of_singleton. tauto.
Qed.

Lemma moved_nested_list l : forall st,
  moved st (fold_left (fun st c => addNestingNode (Some c) st) l st) [] (map id_of l).
Proof.
  induction l as [|c l IH]; intros st; cbn; [apply moved_refl|].
  eapply (moved_trans _ _ _ [] [] [id_of c]); [apply (moved_nested st (Some c))|apply IH].
Qed.

Lemma set_considered_id st : set_considered st (consideredLogicalExpressions st) = st.
Proof. by destruct st. Qed.

(** The two computations throw the same error or the state moved accordingly. *)
Definition simulates (st : state) (nested : list nat) (spec : result cc_error (list increment))
    (code : result cc_error state) : Prop :=
  match spec with
  | Throw e => code = Throw e
  | Ok incs => exists st', code = Ok st' /\ moved st st' incs nested
  end.

Lemma addOperators_moved sc l : forall previous st,
  simulates st [] (operator_increments sc previous l) (addOperators sc previous l st).
Proof.
  induction l as [|n l IH]; intros previous st; cbn [operator_increments addOperators].
  - exists st. split; [done|apply moved_refl].
  - destruct (_ && _).
    + destruct (token_loc _) as [loc|e]; cbn [rbind]; [|done].
      specialize (IH (Some n) (addComplexity loc st)).
      destruct (operator_increments _ _ _) as [incs|e]; cbn [rbind]; [|done].
      destruct IH as (st' & -> & M). exists st'. split; [done|].
      eapply (moved_trans _ _ _ [Plain loc] _ [] []); [apply moved_plain|done].
    + cbn [rbind]. specialize (IH (Some n) st).
      destruct (operator_increments _ _ _) as [incs|e]; cbn [rbind]; done.
Qed.

(** The effect of the selector of a type. *)
Definition type_simulates (st : state) (n : node)
    (spec : result cc_error (list increment * list nat)) (code : result cc_error state) : Prop :=
  match spec with
  | Throw e => code = Throw e
  | Ok (incs, considered) =>
      exists st', code = Ok st' /\ moved (set_considered st considered) st' incs (nested_ids n)
  end.

Lemma type_simulates_intro st n spec code nested :
  simulates st nested spec code -> (forall x, x ∈ nested <-> x ∈ nested_ids n) ->
  type_simulates st n (let! l := spec in Ok (l, consideredLogicalExpressions st)) code.
Proof.
  intros H E. destruct spec as [incs|e]; cbn in *; [|done].
  destruct H as (st' & -> & [O F C R N X Y]). exists st'. split; [done|].
  rewrite set_considered_id. constructor; try done. intros x. by rewrite Y, E.
Qed.

Ltac by_token :=
  match goal with
  | |- context [token_loc ?t] => destruct (token_loc t) as [?loc|?e]; cbn [rbind]; [|done]
  end.

Section Effects.

Variable sc : SourceCode.

Lemma visitIfStatement_simulates n parent st :
  type_of n = "IfStatement" -> same_height st ->
  type_simulates st n (increments sc n parent (consideredLogicalExpressions st))
    (visitIfStatement sc n parent st).
Proof.
  intros T H. unfold increments, visitIfStatement, type_simulates, nested_ids, nested_by. rewrite T. cbn [String.eqb Ascii.eqb Bool.eqb].
  by_token.
  set (elseif := isIfStatement parent && _).
  set (first := if elseif then Plain loc else Structural loc).
  assert (M : moved st (if elseif then addComplexity loc st else addStructuralComplexity loc st) [first] []).
  { subst first. destruct elseif; [apply moved_plain|by apply moved_structural]. }
  set (st1 := if elseif then addComplexity loc st else addStructuralComplexity loc st) in *.
  pose proof (moved_trans _ _ _ _ _ _ _ M (moved_nested st1 (get_node n "consequent"))) as M2.
  cbn [app] in M2.
  destruct (get_node n "alternate") as [a|].
  - destruct (isIfStatement (Some a)).
    + eexists. split; [done|]. rewrite set_considered_id, app_nil_r. done.
    + pose proof (moved_trans _ _ _ _ _ _ _ M2 (moved_nested _ (Some a))) as M3.
      destruct (token_loc (getFirstTokenAfter _ _)) as [loc'|e]; cbn [rbind]; [|done].
      eexists. split; [done|]. rewrite set_considered_id, map_app.
      pose proof (moved_trans _ _ _ _ _ _ _ M3 (moved_plain _ loc')) as M4.
      rewrite !app_nil_r in M4. exact M4.
  - eexists. split; [done|]. rewrite set_considered_id, app_nil_r. done.
Qed.

(** A structural increment, then nodes that nest. *)
Lemma structural_simulates st n token nested (f : state -> state) :
  same_height st -> nested_ids n = nested ->
  (forall st, moved st (f st) [] nested) ->
  type_simulates st n (let! loc := token_loc token in Ok ([Structural loc], consideredLogicalExpressions st))
    (let! loc := token_loc token in Ok (f (addStructuralComplexity loc st))).
Proof.
  intros H E M. by_token. eexists. split; [done|]. rewrite set_considered_id, E.
  eapply (moved_trans _ _ _ [_] [] []); [by apply moved_structural|apply M].
Qed.

Lemma visitLogicalExpression_simulates n parent st :
  type_of n = "LogicalExpression" ->
  type_simulates st n (increments sc n parent (consideredLogicalExpressions st))
    (visitLogicalExpression sc n parent st).
Proof.
  intros T. unfold increments, visitLogicalExpression, type_simulates, nested_ids, nested_by. rewrite T.
  cbn [String.eqb Ascii.eqb Bool.eqb includes existsb orb LOOPS map].
  destruct (getJsxShortCircuitNodes parent n) as [nodes|].
  - eexists. split; [done|apply moved_refl].
  - destruct (set_has _ _).
    + eexists. split; [done|]. rewrite set_considered_id. apply moved_refl.
    + set (flattened := flattenLogicalExpression _ _).
      pose proof (addOperators_moved sc flattened None (consider flattened st)) as M.
      destruct (operator_increments _ _ _) as [incs|e]; cbn in M |- *; [|done]. exact M.
Qed.

Lemma nothing_simulates n st st' :
  nested_ids n = [] -> moved st st' [] [] ->
  type_simulates st n (Ok ([], consideredLogicalExpressions st)) (Ok st').
Proof. intros E M. exists st'. split; [done|]. by rewrite set_considered_id, E. Qed.

Ltac with_type T :=
  apply String.eqb_eq in T; unfold increments, nested_ids, nested_by; rewrite T;
  cbn [String.eqb Ascii.eqb Bool.eqb includes existsb orb LOOPS map].

Lemma visitContinueOrBreakStatement_simulates n parent st :
  includes (type_of n) ["ContinueStatement"; "BreakStatement"] = true ->
  type_simulates st n (increments sc n parent (consideredLogicalExpressions st))
    (visitContinueOrBreakStatement sc n st).
Proof.
  intros T. apply includes_spec in T. rewrite !elem_of_cons, elem_of_nil in T.
  assert (nested_ids n = [] /\ increments sc n parent (consideredLogicalExpressions st)
    = match get_node n "label" with
      | Some _ => let! loc := token_loc (getFirstToken sc n) in Ok ([Plain loc], consideredLogicalExpressions st)
      | None => Ok ([], consideredLogicalExpressions st)
      end) as [E ->].
  { unfold nested_ids, nested_by, increments. destruct T as [-> |[-> |[]]]; done. }
  unfold visitContinueOrBreakStatement.
  destruct (get_node n "label"); [|by apply nothing_simulates; [|apply moved_refl]].
  by_token. eexists. split; [done|]. rewrite set_considered_id, E. apply moved_plain.
Qed.

Lemma visitConditionalExpression_simulates n parent st :
  type_of n = "ConditionalExpression" -> same_height st ->
  type_simulates st n (increments sc n parent (consideredLogicalExpressions st))
    (visitConditionalExpression sc n st).
Proof.
  intros T H. unfold increments, visitConditionalExpression. rewrite T.
  apply (structural_simulates st n _
           (map id_of (option_list (get_node n "consequent") ++ option_list (get_node n "alternate")))
           (fun st => addNestingNode (get_node n "alternate") (addNestingNode (get_node n "consequent") st)));
    [done| |].
  - unfold nested_ids, nested_by. by rewrite T.
  - intros st1. rewrite map_app.
    apply (moved_trans _ _ _ [] [] _ _ (moved_nested st1 _) (moved_nested _ _)).
Qed.

Lemma onType_simulates n parent st :
  same_height st ->
  type_simulates st n (increments sc n parent (consideredLogicalExpressions st)) (onType sc n parent st).
Proof.
  intros H. unfold onType.
  destruct (type_of n =s "Program") eqn:T1.
  { assert (nested_ids n = []) by (with_type T1; done). unfold increments.
    apply String.eqb_eq in T1. rewrite T1. apply nothing_simulates; [done|].
    constructor; cbn; try done; [by rewrite on_top_id; [|intros; apply app_nil_r]|].
    intros x. rewrite elem_of_nil. tauto. }
  destruct (type_of n =s "IfStatement") eqn:T2.
  { apply visitIfStatement_simulates; [by apply String.eqb_eq|done]. }
  destruct (includes (type_of n) LOOPS) eqn:T3.
  { unfold increments. rewrite T2, T3. eapply structural_simulates; [done| |].
    - unfold nested_ids, nested_by. rewrite T2, T3. done.
    - intros st1. apply moved_nested. }
  destruct (type_of n =s "SwitchStatement") eqn:T4.
  { unfold increments. rewrite T2, T3, T4. eapply structural_simulates; [done| |].
    - unfold nested_ids, nested_by. rewrite T2, T3, T4. apply String.eqb_eq in T4. by rewrite T4.
    - intros st1. apply moved_nested_list. }
  destruct (includes (type_of n) ["ContinueStatement"; "BreakStatement"]) eqn:T5.
  { by apply visitContinueOrBreakStatement_simulates. }
  destruct (type_of n =s "CatchClause") eqn:T6.
  { unfold increments. rewrite T2, T3, T4, T5, T6. eapply structural_simulates; [done| |].
    - unfold nested_ids, nested_by. rewrite T2, T3, T6. done.
    - intros st1. apply moved_nested. }
  destruct (type_of n =s "LogicalExpression") eqn:T7.
  { apply visitLogicalExpression_simulates. by apply String.eqb_eq. }
  destruct (type_of n =s "ConditionalExpression") eqn:T8.
  { apply visitConditionalExpression_simulates; [by apply String.eqb_eq|done]. }
  assert (E : nested_ids n = []).
  { unfold nested_ids, nested_by. by rewrite T2, T3, T4, T6, T8. }
  unfold increments. rewrite T2, T3, T4, T5, T6, T7, T8.
  destruct (type_of n =s "ReturnStatement"); apply nothing_simulates; try done; [|apply moved_refl].
  unfold visitReturnStatement. destruct (_ && _); [|apply moved_refl].
  constructor; cbn; try done; [by rewrite on_top_id; [|intros; apply app_nil_r]|].
  intros x. rewrite elem_of_nil. tauto.
Qed.

End Effects.

(** ** Lemmas: the traversal computes the specification *)

Section Simulation.

Variable sc : SourceCode.
Variable getTokensBefore : node -> list Token.
Variable toUpperCase : string -> string.
Variable options : list json.

Notation keys := (sc_visitorKeys sc).
Notation ids l := (map id_of l).

(** The nodes a node nests are visited as its children, and none is a function. *)
Definition well_nested (n : node) : bool :=
  forallb (fun i => set_has i (ids (childrenOf n keys))) (nested_ids n)
  && forallb (fun c => negb (is_function c && set_has (id_of c) (nested_ids n))) (childrenOf n keys).

Definition well_formed (l : list node) : Prop :=
  NoDup (ids (flat_map (preorder keys) l)) /\ Forall (fun n => well_nested n = true) (flat_map (preorder keys) l).

Lemma well_nested_children n i :
  well_nested n = true -> i ∈ nested_ids n -> i ∈ ids (childrenOf n keys).
Proof.
  unfold well_nested. intros H Hi. split_bools. rewrite forallb_forall in H.
  apply set_has_spec, H. by apply list_elem_of_In.
Qed.

Lemma well_nested_function n c :
  well_nested n = true -> c ∈ childrenOf n keys -> is_function c = true -> id_of c ∉ nested_ids n.
Proof.
  unfold well_nested. intros H Hc F G. split_bools. rewrite forallb_forall in H0.
  apply list_elem_of_In, H0 in Hc. rewrite F in Hc. apply set_has_spec in G. by rewrite G in Hc.
Qed.

Lemma elem_of_ids n (l : list node) : n ∈ l -> id_of n ∈ ids l.
Proof. intros H. apply list_elem_of_fmap. by exists n. Qed.

Lemma in_preorder n : n ∈ preorder keys n.
Proof. rewrite preorder_eq. left. Qed.

Lemma elem_of_flat_map_2 {A B} (f : A -> list B) l x y : y ∈ l -> x ∈ f y -> x ∈ flat_map f l.
Proof. rewrite !list_elem_of_In. intros Hy Hx. apply in_flat_map. by exists y. Qed.

Lemma ids_children (l : list node) i : i ∈ ids l -> i ∈ ids (flat_map (preorder keys) l).
Proof.
  intros (c & -> & Hc)%list_elem_of_fmap. apply elem_of_ids. eapply elem_of_flat_map_2; [done|].
  apply in_preorder.
Qed.

(** What is known of a well-formed node: its own facts, and its children. *)
Lemma well_formed_node n :
  well_formed [n] ->
  well_nested n = true /\ well_formed (childrenOf n keys)
  /\ id_of n ∉ ids (flat_map (preorder keys) (childrenOf n keys)).
Proof.
  unfold well_formed. cbn [flat_map]. rewrite !app_nil_r, preorder_eq. cbn [map].
  rewrite NoDup_cons, Forall_cons. intros [[N D] [W F]]. done.
Qed.

Lemma well_formed_cons c l :
  well_formed (c :: l) ->
  well_formed [c] /\ well_formed l
  /\ (forall i, i ∈ ids (preorder keys c) -> i ∉ ids (flat_map (preorder keys) l)).
Proof.
  unfold well_formed. cbn [flat_map]. rewrite !app_nil_r, map_app, NoDup_app, Forall_app.
  intros [(D1 & X & D2) [F1 F2]]. done.
Qed.

(** From [st] to [st'] the trees [l] were traversed. *)
Record traversed (st st' : state) (l : list node) (points : list ComplexityPoint)
    (found : list Descriptor) (considered : list nat) : Prop := mkTraversed {
  r_own : functionOwnComplexity st' = on_top (fun p => p ++ points) (functionOwnComplexity st);
  r_flow : functionOwnControlFlowNesting st' = functionOwnControlFlowNesting st;
  r_considered : consideredLogicalExpressions st' = considered;
  r_reports : reports st' = reports st ++ found;
  r_nesting : nesting st' = nesting st;
  r_enclosing : enclosingFunctions st' = enclosingFunctions st;
  r_nodes : forall x, x ∈ nestingNodes st' <-> x ∈ nestingNodes st /\ x ∉ ids l }.

(** The state is ready for the trees [l]: only their roots may nest, and no root
    that is a function does. *)
Record ready (st : state) (l : list node) : Prop := mkReady {
  d_height : same_height st;
  d_roots : forall i, i ∈ ids (flat_map (preorder keys) l) -> i ∈ nestingNodes st -> i ∈ ids l;
  d_functions : forall c, c ∈ l -> is_function c = true -> id_of c ∉ nestingNodes st }.

Definition same_flow (st : state) (k : Z) : Prop :=
  functionOwnControlFlowNesting st <> [] -> k = flow_nesting st.

Definition tree_simulates (fuel : nat) (parents : list node) (n : node) : Prop := forall k st,
  well_formed [n] -> ready st [n] ->
  same_flow st (if set_has (id_of n) (nestingNodes st) then k - 1 else k) ->
  match own_complexity sc getTokensBefore options fuel parents n k (consideredLogicalExpressions st) with
  | Throw e => traverse sc getTokensBefore toUpperCase options fuel parents n st = Throw e
  | Ok (points, found, considered) => exists st',
      traverse sc getTokensBefore toUpperCase options fuel parents n st = Ok st'
      /\ traversed st st' [n] points found considered
  end.

Lemma traversed_nil st : traversed st st [] [] [] (consideredLogicalExpressions st).
Proof.
  constructor; try done.
  - rewrite on_top_id; [done|]. intros; apply app_nil_r.
  - by rewrite app_nil_r.
  - intros x. cbn. rewrite elem_of_nil. tauto.
Qed.

Lemma traversed_app st1 st2 st3 l1 l2 p1 p2 f1 f2 c1 c2 :
  traversed st1 st2 l1 p1 f1 c1 -> traversed st2 st3 l2 p2 f2 c2 ->
  traversed st1 st3 (l1 ++ l2) (p1 ++ p2) (f1 ++ f2) c2.
Proof.
  intros [O1 F1 C1 R1 N1 E1 X1] [O2 F2 C2 R2 N2 E2 X2]. constructor; try congruence.
  - by rewrite O2, O1, on_top_app.
  - by rewrite R2, R1, (assoc_L (++)).
  - intros x. rewrite X2, X1, map_app, elem_of_app. tauto.
Qed.

(** After the first tree the state is ready for the others. *)
Lemma ready_next st st' c l p f cons_ :
  well_formed (c :: l) -> ready st (c :: l) -> traversed st st' [c] p f cons_ -> ready st' l.
Proof.
  intros W [H R F] [O Fl _ _ _ _ X]. constructor.
  - unfold same_height in *. rewrite O, Fl, <- H. by destruct (functionOwnComplexity st).
  - intros i Hi Hn. apply X in Hn as [Hn Hc]. cbn [map] in *.
    assert (i ∈ id_of c :: ids l) as G.
    { apply R; [|done]. cbn [flat_map]. rewrite map_app, elem_of_app. by right. }
    apply elem_of_cons in G as [->|G]; [|done]. exfalso. apply Hc. left.
  - intros d Hd Hf Hn. apply X in Hn as [Hn _]. revert Hn. apply F; [by right|done].
Qed.

Lemma ready_first st c l : well_formed (c :: l) -> ready st (c :: l) -> ready st [c].
Proof.
  intros W [H R F]. constructor; [done| |].
  - intros i Hi Hn. cbn [flat_map] in Hi. rewrite app_nil_r in Hi.
    assert (i ∈ ids (c :: l)) as G.
    { apply R; [|done]. cbn [flat_map]. rewrite map_app, elem_of_app. by left. }
    cbn [map] in *. apply elem_of_cons in G as [->|G]; [left|].
    exfalso. apply well_formed_cons in W as (_ & _ & X). apply (X i Hi). by apply ids_children.
  - intros d Hd. apply list_elem_of_singleton in Hd as ->. apply F. left.
Qed.

(** The loop over the children. *)
Lemma children_simulate fuel parents nested k l : forall st points found,
  (forall c, c ∈ l -> tree_simulates fuel parents c) ->
  well_formed l -> ready st l -> same_flow st k ->
  (forall c, c ∈ l -> id_of c ∈ nested <-> id_of c ∈ nestingNodes st) ->
  match rfold (fun '(points, found, considered) c =>
                 let k'' := if set_has (id_of c) nested then k + 1 else k in
                 let! (points', found', considered') :=
                   own_complexity sc getTokensBefore options fuel parents c k'' considered in
                 Ok (points ++ points', found ++ found', considered'))
          l (points, found, consideredLogicalExpressions st) with
  | Throw e =>
      rfold (fun st c => traverse sc getTokensBefore toUpperCase options fuel parents c st) l st = Throw e
  | Ok (points', found', considered) => exists st' p f,
      rfold (fun st c => traverse sc getTokensBefore toUpperCase options fuel parents c st) l st = Ok st'
      /\ points' = points ++ p /\ found' = found ++ f /\ traversed st st' l p f considered
  end.
Proof.
  induction l as [|c l IH]; intros st points found HT W R S N; cbn [rfold].
  - exists st, [], []. rewrite !app_nil_r. do 3 (split; [done|]). apply traversed_nil.
  - assert (HC := HT c (list_elem_of_here _ _)).
    specialize (HC (if set_has (id_of c) nested then k + 1 else k) st).
    assert (E : set_has (id_of c) nested = set_has (id_of c) (nestingNodes st)).
    { apply eq_true_iff_eq. rewrite !set_has_spec. apply N. left. }
    assert (S' : same_flow st (if set_has (id_of c) (nestingNodes st)
              then (if set_has (id_of c) nested then k + 1 else k) - 1
              else if set_has (id_of c) nested then k + 1 else k)).
    { rewrite E. intros Hf. rewrite <- (S Hf). destruct (set_has _ _); lia. }
    destruct (well_formed_cons _ _ W) as (Wc & Wl & _).
    specialize (HC Wc (ready_first _ _ _ W R) S').
    destruct (own_complexity _ _ _ _ _ _ _ _) as [[[p1 f1] c1]|e]; cbn [rbind]; [|by rewrite HC].
    destruct HC as (st1 & -> & T). cbn [rbind]. rewrite <- (r_considered _ _ _ _ _ _ T).
    specialize (IH st1 (points ++ p1) (found ++ f1)).
    assert (F1 : same_flow st1 k).
    { unfold same_flow, flow_nesting. by rewrite (r_flow _ _ _ _ _ _ T). }
    assert (N1 : forall d, d ∈ l -> id_of d ∈ nested <-> id_of d ∈ nestingNodes st1).
    { intros d Hd. rewrite (r_nodes _ _ _ _ _ _ T), N by by right. cbn. split; [|tauto].
      intros G. split; [done|]. intros Q%list_elem_of_singleton.
      apply well_formed_cons in W as (_ & _ & X). apply (X (id_of c)).
      - apply elem_of_ids, in_preorder.
      - rewrite <- Q. by apply ids_children, elem_of_ids. }
    specialize (IH (fun d Hd => HT d (list_elem_of_further _ _ _ Hd)) Wl (ready_next _ _ _ _ _ _ _ W R T) F1 N1).
    destruct (rfold _ l _) as [[[p2 f2] c2]|e]; [|done].
    destruct IH as (st2 & p & f & -> & -> & -> & T2).
    exists st2, (p1 ++ p), (f1 ++ f). rewrite !(assoc_L (++)). do 3 (split; [done|]).
    exact (traversed_app _ _ _ _ _ _ _ _ _ _ _ T T2).
Qed.

(** When a node was entered: its nested children were added, and perhaps itself. *)
Definition entered (st st2 : state) (n : node) (itself : bool) : Prop :=
  forall x, x ∈ nestingNodes st2
    <-> (x ∈ nestingNodes st \/ x = id_of n /\ itself = true) \/ x ∈ nested_ids n.

Lemma not_a_root st n i :
  well_formed [n] -> ready st [n] -> i ∈ ids (flat_map (preorder keys) (childrenOf n keys)) ->
  i ∉ nestingNodes st /\ i <> id_of n.
Proof.
  intros W [_ R _] Hi. destruct (well_formed_node _ W) as (_ & _ & X). split.
  - intros Hn. apply X. assert (i ∈ ids [n]) as G.
    { apply R; [|done]. cbn [flat_map]. rewrite app_nil_r, preorder_eq. by right. }
    apply list_elem_of_singleton in G. by subst.
  - intros ->. done.
Qed.

Lemma ready_children st st2 n itself :
  well_formed [n] -> ready st [n] -> same_height st2 -> entered st st2 n itself ->
  ready st2 (childrenOf n keys)
  /\ forall c, c ∈ childrenOf n keys -> id_of c ∈ nested_ids n <-> id_of c ∈ nestingNodes st2.
Proof.
  intros W R H E. destruct (well_formed_node _ W) as (Wn & _ & _).
  assert (N : forall i, i ∈ ids (flat_map (preorder keys) (childrenOf n keys)) ->
            i ∈ nestingNodes st2 <-> i ∈ nested_ids n).
  { intros i Hi. destruct (not_a_root _ _ _ W R Hi). rewrite (E i). tauto. }
  split; [constructor|].
  - done.
  - intros i Hi Hn. apply (well_nested_children n); [done|]. by apply N.
  - intros c Hc Hf Hn. apply N in Hn; [|by apply ids_children, elem_of_ids].
    by apply (well_nested_function n c Wn Hc Hf).
  - intros c Hc. symmetry. apply N. by apply ids_children, elem_of_ids.
Qed.

Lemma left_nodes st st2 st3 n itself x :
  well_formed [n] -> ready st [n] -> entered st st2 n itself ->
  (forall x, x ∈ nestingNodes st3 <-> x ∈ nestingNodes st2 /\ x ∉ ids (childrenOf n keys)) ->
  (x ∈ nestingNodes st3 /\ x <> id_of n <-> x ∈ nestingNodes st /\ x <> id_of n)
  /\ (id_of n ∈ nestingNodes st3 <-> id_of n ∈ nestingNodes st \/ itself = true).
Proof.
  intros W R E X. destruct (well_formed_node _ W) as (Wn & _ & D).
  pose proof (fun i Hi => well_nested_children n i Wn Hi) as NC.
  split.
  - rewrite X, (E x). split.
    + intros [[[[?|[? _]]|Hn] Hc] ?]; [done|done|]. by apply NC in Hn.
    + intros [Hx Hne]. split; [|done]. split; [tauto|]. intros Hc.
      by destruct (not_a_root st n x W R (ids_children _ _ Hc)).
  - rewrite X, (E (id_of n)).
    assert (id_of n ∉ ids (childrenOf n keys)) by (intros G; by apply D, ids_children).
    assert (id_of n ∉ nested_ids n) by (intros G; by apply NC in G). tauto.
Qed.

Lemma onLeaveNode_nodes n st x :
  x ∈ nestingNodes (onLeaveNode n st) <-> x ∈ nestingNodes st /\ x <> id_of n.
Proof.
  unfold onLeaveNode. destruct (set_has _ _) eqn:H; cbn.
  - apply elem_of_set_delete.
  - apply set_has_false in H. split; [|tauto]. intros Hx. split; [done|]. by intros ->.
Qed.

Lemma onEnterNode_fields n st :
  functionOwnComplexity (onEnterNode n st) = functionOwnComplexity st
  /\ consideredLogicalExpressions (onEnterNode n st) = consideredLogicalExpressions st
  /\ reports (onEnterNode n st) = reports st
  /\ enclosingFunctions (onEnterNode n st) = enclosingFunctions st
  /\ nestingNodes (onEnterNode n st) = nestingNodes st
  /\ length (functionOwnControlFlowNesting (onEnterNode n st)) = length (functionOwnControlFlowNesting st).
Proof.
  unfold onEnterNode. destruct (set_has _ _); [|done]. cbn. repeat split.
  by destruct (functionOwnControlFlowNesting st).
Qed.

Lemma onLeaveNode_fields n st :
  functionOwnComplexity (onLeaveNode n st) = functionOwnComplexity st
  /\ consideredLogicalExpressions (onLeaveNode n st) = consideredLogicalExpressions st
  /\ reports (onLeaveNode n st) = reports st
  /\ enclosingFunctions (onLeaveNode n st) = enclosingFunctions st.
Proof. unfold onLeaveNode. by destruct (set_has _ _). Qed.

(** Leaving undoes entering. *)
Lemma leave_enter n st st3 :
  set_has (id_of n) (nestingNodes st3) = set_has (id_of n) (nestingNodes st) ->
  functionOwnControlFlowNesting st3 = functionOwnControlFlowNesting (onEnterNode n st) ->
  nesting st3 = nesting (onEnterNode n st) ->
  functionOwnControlFlowNesting (onLeaveNode n st3) = functionOwnControlFlowNesting st
  /\ nesting (onLeaveNode n st3) = nesting st.
Proof.
  intros H F N. unfold onLeaveNode, onEnterNode in *. rewrite H.
  destruct (set_has (id_of n) (nestingNodes st)); cbn in *; rewrite F, N; [|done]. split; [|lia].
  destruct (functionOwnControlFlowNesting st) as [|k l]; cbn; [done|]. f_equal. lia.
Qed.

Lemma onEnterNode_flow n st k :
  same_flow st (if set_has (id_of n) (nestingNodes st) then k - 1 else k) ->
  same_flow (onEnterNode n st) k.
Proof.
  unfold same_flow, onEnterNode, flow_nesting. destruct (set_has _ _); cbn; [|done].
  destruct (functionOwnControlFlowNesting st); cbn; [done|]. intros H _.
  specialize (H ltac:(done)). lia.
Qed.

Lemma sc_has_iff i (l1 l2 : list nat) : (i ∈ l1 <-> i ∈ l2) -> set_has i l1 = set_has i l2.
Proof. intros H. apply eq_true_iff_eq. by rewrite !set_has_spec. Qed.

Lemma plain_node_simulates fuel parents n :
  isFileComplexity options = false -> is_function n = false ->
  (forall c, c ∈ childrenOf n keys -> tree_simulates fuel (n :: parents) c) ->
  tree_simulates (S fuel) parents n.
Proof.
  intros HF Hf HT k st W R S. cbn [own_complexity traverse]. unfold enter, leave. rewrite Hf.
  destruct (well_formed_node _ W) as (Wn & Wc & _).
  destruct (onEnterNode_fields n st) as (O0 & C0 & R0 & E0 & X0 & L0).
  assert (H0 : same_height (onEnterNode n st)).
  { unfold same_height. rewrite O0, L0. apply (d_height _ _ R). }
  pose proof (onType_simulates sc n (head parents) _ H0) as M. rewrite C0 in M.
  destruct (increments _ _ _ _) as [[incs c1]|e]; cbn [type_simulates rbind] in *; [|by rewrite M].
  destruct M as (st2 & -> & M). cbn [rbind].
  assert (E : entered st st2 n false).
  { intros x. rewrite (m_nodes _ _ _ _ M). cbn. rewrite X0. naive_solver. }
  destruct (ready_children st st2 n false W R (moved_height _ _ _ _ M H0) E) as [R2 N2].
  assert (S2 : same_flow st2 k).
  { apply onEnterNode_flow in S. unfold same_flow, flow_nesting in *. by rewrite (m_flow _ _ _ _ M). }
  pose proof (children_simulate fuel (n :: parents) (nested_ids n) k _ st2 (map (point_at k) incs) []
                HT Wc R2 S2 N2) as L.
  rewrite (m_considered _ _ _ _ M) in L. cbn [consideredLogicalExpressions set_considered] in L.
  destruct (rfold _ (childrenOf n keys) (_, _, _)) as [[[pts fnd] c2]|e]; cbn [rbind] in *; [|by rewrite L].
  destruct L as (st3 & p & f & -> & -> & -> & T). cbn [rbind].
  assert (HN : set_has (id_of n) (nestingNodes st3) = set_has (id_of n) (nestingNodes st)).
  { apply sc_has_iff. destruct (left_nodes st st2 st3 n false (id_of n) W R E (r_nodes _ _ _ _ _ _ T)) as [_ G].
    rewrite G. naive_solver. }
  exists (onLeaveNode n st3). split.
  { unfold onProgramExit. rewrite HF. by destruct (type_of n =s "Program"). }
  destruct T as [TO TF TC TR TN TE TX], M as [MO MF MC MR MN ME MX]. cbn in MO, MF, MC, MR, MN, ME, MX.
  destruct (onLeaveNode_fields n st3) as (O3 & C3 & R3 & E3).
  destruct (leave_enter n st st3 HN) as [F3 N3]; [congruence|congruence|].
  constructor; try congruence.
  - rewrite O3, TO, MO, O0, on_top_app. apply onEnterNode_flow in S.
    unfold flow_nesting, same_flow in *. cbn.
    destruct (functionOwnComplexity st) as [|t r] eqn:Q; [done|]. cbn. do 3 f_equal.
    rewrite S; [done|]. intros G. unfold same_height in H0. by rewrite G, O0 in H0.
  - by rewrite R3, TR, MR, R0.
  - intros x. rewrite onLeaveNode_nodes. cbn [map]. rewrite list_elem_of_singleton.
    apply (left_nodes st st2 st3 n false x W R E TX).
Qed.

(** A function inside a second-level one is itself a nesting node. *)
Definition deep (st : state) : bool :=
  match enclosingFunctions st with _ :: _ :: _ => true | _ => false end.

Lemma onEnterFunction_fields n parent st :
  let st1 := onEnterFunction toUpperCase n parent st in
  functionOwnComplexity st1 = [] :: functionOwnComplexity st
  /\ functionOwnControlFlowNesting st1 = 0 :: functionOwnControlFlowNesting st
  /\ consideredLogicalExpressions st1 = consideredLogicalExpressions st
  /\ reports st1 = reports st /\ enclosingFunctions st1 = n :: enclosingFunctions st
  /\ nesting st1 = (if deep st then nesting st + 1 else nesting st)
  /\ forall x, x ∈ nestingNodes st1 <-> x ∈ nestingNodes st \/ x = id_of n /\ deep st = true.
Proof.
  unfold onEnterFunction, deep. destruct (enclosingFunctions st) as [|a [|b r]] eqn:E; cbn; rewrite ?E;
    do 6 (split; [done|]); intros x; rewrite ?elem_of_set_add; naive_solver.
Qed.

Lemma increments_function n parent considered :
  is_function n = true -> increments sc n parent considered = Ok ([], considered).
Proof.
  unfold is_function. intros H. apply includes_spec in H. unfold FUNCTION_NODES in H.
  rewrite !elem_of_cons, elem_of_nil in H. unfold increments.
  destruct H as [-> |[-> |[-> |[]]]]; done.
Qed.

(** What leaving a function does to the fields of the simulation. *)
Lemma onLeaveFunction_fields n parent st d :
  isFileComplexity options = false ->
  checkFunction options (default [] (head (functionOwnComplexity st)))
    (getMainFunctionTokenLocation sc getTokensBefore n parent) = Ok d ->
  exists st', onLeaveFunction sc getTokensBefore options n parent st = Ok st'
    /\ functionOwnComplexity st' = List.tl (functionOwnComplexity st)
    /\ functionOwnControlFlowNesting st' = List.tl (functionOwnControlFlowNesting st)
    /\ consideredLogicalExpressions st' = consideredLogicalExpressions st
    /\ reports st' = reports st ++ d /\ enclosingFunctions st' = List.tl (enclosingFunctions st)
    /\ nesting st' = nesting st /\ nestingNodes st' = nestingNodes st.
Proof.
  intros HF HC. unfold onLeaveFunction. rewrite HF, HC. cbn [rbind]. eexists. split; [done|]. done.
Qed.

Lemma function_node_simulates fuel parents n :
  isFileComplexity options = false -> is_function n = true ->
  (forall c, c ∈ childrenOf n keys -> tree_simulates fuel (n :: parents) c) ->
  tree_simulates (S fuel) parents n.
Proof.
  intros HF Hf HT k st W R S. cbn [own_complexity traverse]. unfold enter, leave. rewrite Hf.
  destruct (well_formed_node _ W) as (Wn & Wc & _).
  assert (Hn : set_has (id_of n) (nestingNodes st) = false).
  { apply set_has_false. apply (d_functions _ _ R); [left|done]. }
  assert (onEnterNode n st = st) as -> by (unfold onEnterNode; by rewrite Hn).
  set (st1 := onEnterFunction toUpperCase n (head parents) st).
  destruct (onEnterFunction_fields n (head parents) st) as (O1 & F1 & C1 & R1 & E1 & N1 & X1). fold st1 in O1, F1, C1, R1, E1, N1, X1.
  assert (H1 : same_height st1).
  { unfold same_height. rewrite O1, F1. cbn. f_equal. apply (d_height _ _ R). }
  pose proof (onType_simulates sc n (head parents) st1 H1) as M.
  rewrite C1, (increments_function n _ _ Hf) in M. rewrite (increments_function n _ _ Hf).
  cbn [type_simulates rbind map] in *. rewrite <- C1, set_considered_id in M. destruct M as (st2 & -> & M). cbn [rbind].
  assert (E : entered st st2 n (deep st)).
  { intros x. by rewrite (m_nodes _ _ _ _ M), X1. }
  destruct (ready_children st st2 n (deep st) W R (moved_height _ _ _ _ M H1) E) as [R2 N2].
  assert (S2 : same_flow st2 0).
  { intros _. unfold flow_nesting. by rewrite (m_flow _ _ _ _ M), F1. }
  pose proof (children_simulate fuel (n :: parents) (nested_ids n) 0 _ st2 [] [] HT Wc R2 S2 N2) as L.
  rewrite (m_considered _ _ _ _ M), C1 in L.
  destruct (rfold _ (childrenOf n keys) (_, _, _)) as [[[pts fnd] c2]|e]; cbn [rbind] in *; [|by rewrite L].
  destruct L as (st3 & p & f & -> & -> & -> & T). cbn [rbind app].
  assert (HN : set_has (id_of n) (nestingNodes st3) = deep st).
  { apply eq_true_iff_eq. rewrite set_has_spec.
    destruct (left_nodes st st2 st3 n (deep st) (id_of n) W R E (r_nodes _ _ _ _ _ _ T)) as [_ G].
    rewrite G. apply set_has_false in Hn. tauto. }
  destruct T as [TO TF TC TR TN TE TX], M as [MO MF MC MR MN ME MX].
  destruct (onLeaveNode_fields n st3) as (O3 & C3 & R3 & E3).
  assert (O : functionOwnComplexity (onLeaveNode n st3) = p :: functionOwnComplexity st).
  { rewrite O3, TO, MO, O1. done. }
  destruct (checkFunction options p _) as [d|e] eqn:HC.
  - destruct (onLeaveFunction_fields n (head parents) (onLeaveNode n st3) d HF) as
      (st4 & L4 & O4 & F4 & C4 & R4 & E4 & N4 & X4); [by rewrite O|].
    rewrite L4. cbn [rbind]. exists st4. split.
    { unfold onProgramExit. rewrite HF. by destruct (type_of n =s "Program"). }
    assert (G : functionOwnControlFlowNesting st4 = functionOwnControlFlowNesting st /\ nesting st4 = nesting st).
    { rewrite F4, N4. unfold onLeaveNode. rewrite HN. destruct (deep st); cbn; rewrite TF, MF, F1, TN, MN, N1; cbn;
        [split; [done|lia]|done]. }
    destruct G as [GF GN]. constructor; try congruence.
    + rewrite O4, O. cbn. rewrite on_top_id; [done|]. intros; apply app_nil_r.
    + by rewrite R4, R3, TR, MR, R1, (assoc_L (++)).
    + by rewrite E4, E3, TE, ME, E1.
    + intros x. rewrite X4, onLeaveNode_nodes. cbn [map]. rewrite list_elem_of_singleton.
      apply (left_nodes st st2 st3 n (deep st) x W R E TX).
  - unfold onLeaveFunction. rewrite HF, O. cbn [head from_option id]. by rewrite HC.
Qed.

Lemma tree_simulation fuel : forall parents n,
  isFileComplexity options = false -> tree_simulates fuel parents n.
Proof.
  induction fuel as [|fuel IH]; intros parents n HF; [by intros k st|].
  destruct (is_function n) eqn:Hf; [apply function_node_simulates|apply plain_node_simulates]; auto.
Qed.

(** The fuel is enough: it never runs out. *)
Lemma checkFunction_total points loc : exists d, checkFunction options points loc = Ok d.
Proof.
  unfold checkFunction. destruct (_ >? _); [|by eexists].
  assert (exists l, rmap_list point_location points = Ok l) as [l ->].
  { induction points as [|p r [l IH]]; cbn; [by eexists|]. rewrite IH. by eexists. }
  cbn [rbind]. unfold report, toEncodedMessage.
  destruct (runs_in_sonar options); cbn [negb rd_message rd_messageId rd_data rbind];
    eexists; reflexivity.
Qed.

Lemma rfold_throw {E A S} (f : S -> A -> result E S) (bad : E) l : forall s,
  (forall x s, x ∈ l -> f s x <> Throw bad) -> rfold f l s <> Throw bad.
Proof.
  induction l as [|x l IH]; intros s H; cbn; [done|].
  pose proof (H x s (list_elem_of_here _ _)) as Hx.
  destruct (f s x) as [s'|e]; cbn; [|congruence]. apply IH. intros y s'' Hy. apply H. by right.
Qed.

Lemma token_loc_fuel t : token_loc t <> Throw OutOfFuel.
Proof. by destruct t. Qed.

Lemma rbind_fuel {A B} (m : result cc_error A) (f : A -> result cc_error B) :
  m <> Throw OutOfFuel -> (forall a, f a <> Throw OutOfFuel) -> rbind m f <> Throw OutOfFuel.
Proof. intros Hm Hf. destruct m; cbn; [apply Hf|congruence]. Qed.

Lemma operator_increments_fuel l : forall previous, operator_increments sc previous l <> Throw OutOfFuel.
Proof.
  induction l as [|n l IH]; intros previous; cbn [operator_increments]; [done|]. apply rbind_fuel.
  - destruct (_ && _); [|done]. apply rbind_fuel; [apply token_loc_fuel|done].
  - intros i. apply rbind_fuel; [apply IH|done].
Qed.

Lemma increments_fuel n parent considered : increments sc n parent considered <> Throw OutOfFuel.
Proof.
  unfold increments.
  repeat match goal with
  | |- rbind _ _ <> _ => apply rbind_fuel; [|intros]
  | |- token_loc _ <> _ => apply token_loc_fuel
  | |- operator_increments _ _ _ <> _ => apply operator_increments_fuel
  | |- (if ?b then _ else _) <> _ => destruct b
  | |- match ?o with _ => _ end <> _ => destruct o
  | |- Ok _ <> _ => done
  end.
Qed.

Lemma own_complexity_fuel fuel : forall parents n k considered,
  (node_size n <= fuel)%nat ->
  own_complexity sc getTokensBefore options fuel parents n k considered <> Throw OutOfFuel.
Proof.
  induction fuel as [|fuel IH]; intros parents n k considered H; [pose proof (node_size_pos n); lia|].
  cbn [own_complexity].
  assert (HI : increments sc n (head parents) considered <> Throw OutOfFuel) by apply increments_fuel.
  destruct (increments _ _ _ _) as [[incs c1]|e]; cbn [rbind]; [|congruence].
  match goal with |- context [rfold ?f ?l ?s] => assert (HR : rfold f l s <> Throw OutOfFuel) end.
  { apply rfold_throw. intros c [[pts fnd] c2] Hc. apply childrenOf_size in Hc.
    specialize (IH (n :: parents) c (if set_has (id_of c) (nested_ids n)
                      then (if is_function n then 0 else k) + 1 else if is_function n then 0 else k) c2).
    destruct (own_complexity _ _ _ _ _ _ _ _) as [[[??]?]|e]; cbn [rbind]; [done|].
    intros Q. apply IH; [lia|congruence]. }
  destruct (rfold _ _ _) as [[[pts fnd] c2]|e]; cbn [rbind]; [|congruence].
  destruct (is_function n); [|done].
  by destruct (checkFunction_total pts (getMainFunctionTokenLocation sc getTokensBefore n (head parents))) as [d ->].
Qed.

End Simulation.

(** ** Properties *)

(** C8: the rule, on a tree whose nodes are distinct, visited as children, and
    where no function is one of the nodes that nest, reports what the recursion
    on the tree says: the complexity of a function is the sum over its own
    increments, with the nesting inside the function, whatever is around it; the
    traversal always ends. *)
Theorem cognitive_complexity_is_compositional sc getTokensBefore toUpperCase options :
  isFileComplexity options = false ->
  NoDup (map id_of (preorder (sc_visitorKeys sc) (sc_ast sc))) ->
  Forall (fun n => well_nested sc n = true) (preorder (sc_visitorKeys sc) (sc_ast sc)) ->
  let spec := own_complexity sc getTokensBefore options (node_size (sc_ast sc)) [] (sc_ast sc) 0 [] in
  spec <> Throw OutOfFuel
  /\ match run sc getTokensBefore toUpperCase options with
     | Ok st => exists points considered, spec = Ok (points, reports st, considered)
                  /\ nesting st = 0 /\ enclosingFunctions st = [] /\ nestingNodes st = []
     | Throw e => spec = Throw e
     end.
Proof.
  intros HF D F spec. split; [by apply own_complexity_fuel|].
  assert (W : well_formed sc [sc_ast sc]).
  { unfold well_formed. cbn [flat_map]. by rewrite app_nil_r. }
  assert (R : ready sc initial_state [sc_ast sc]).
  { constructor; [done| |]; cbn [nestingNodes initial_state].
    - by intros i _ ?%not_elem_of_nil.
    - by intros c _ _ ?%not_elem_of_nil. }
  pose proof (tree_simulation sc getTokensBefore toUpperCase options (node_size (sc_ast sc)) [] (sc_ast sc) HF
                0 initial_state W R) as S.
  assert (S0 : same_flow initial_state 0) by (by intros H).
  specialize (S S0). cbn [consideredLogicalExpressions initial_state] in S. fold spec in S. unfold run.
  destruct spec as [[[points found] considered]|e]; [|by rewrite S].
  destruct S as (st & -> & T). exists points, considered.
  destruct T as [_ _ TC TR TN TE TX]. cbn in TR. rewrite TR. split; [done|]. split; [done|]. split; [done|].
  destruct (nestingNodes st) as [|x l] eqn:E; [done|].
  exfalso. assert (x ∈ x :: l) as G by left. apply TX in G as [G _]. by apply not_elem_of_nil in G.
Qed.

(** ** Examples *)

Module Example.

Definition keys (type : string) : option (list string) :=
  map_get type
    [("Program", ["body"]); ("BlockStatement", ["body"]); ("ExpressionStatement", ["expression"]);
     ("FunctionDeclaration", ["id"; "params"; "body"]); ("ArrowFunctionExpression", ["params"; "body"]);
     ("ConditionalExpression", ["test"; "consequent"; "alternate"]);
     ("IfStatement", ["test"; "consequent"; "alternate"])].

Definition place_ (l : Z) : SourceLocation := mkLoc (mkPos l 0) (mkPos l 1).

Definition mk (i : nat) (type : string) (props : list (string * value)) : node :=
  Node (mkHeader i type (Some (place_ (Z.of_nat i))) None) props.

Definition ident (i : nat) (name : string) : node := mk i "Identifier" [("name", VStr name)].

Definition arrow (i : nat) : node :=
  mk i "ArrowFunctionExpression" [("params", VArr []); ("body", VNode (ident (i + 1) "v"))].

Definition block (i : nat) (body : list node) : node := mk i "BlockStatement" [("body", VArr (map VNode body))].

Definition func (i : nat) (body : list node) : node :=
  mk i "FunctionDeclaration"
    [("id", VNode (ident (i + 1) "f")); ("params", VArr []); ("body", VNode (block (i + 2) body))].

(** [c ? consequent : alternate;] *)
Definition choice (i : nat) (consequent alternate : node) : node :=
  mk i "ExpressionStatement"
    [("expression", VNode (mk (i + 1) "ConditionalExpression"
        [("test", VNode (ident (i + 2) "c")); ("consequent", VNode consequent);
         ("alternate", VNode alternate)]))].

(** [if (x) {}] *)
Definition condition (i : nat) : node :=
  mk i "IfStatement"
    [("test", VNode (ident (i + 1) "x")); ("consequent", VNode (block (i + 2) [])); ("alternate", VNull)].

Definition token (n : node) : Token :=
  mkToken "Punctuator" "" (default (place_ 0) (h_loc (hdr n))) (0, 0).

Definition source (body : list node) : SourceCode :=
  mkSourceCode (mk 0 "Program" [("body", VArr (map VNode body))]) [] [] None keys
    (fun n => [token n]) (fun n => Some (token n)) (fun n => Some (token n)) (fun _ => [])
    (fun _ => mkPos 0 0) (fun _ => None).

Definition no_tokens (n : node) : list Token := [].
Definition same_case (s : string) : string := s.

(** [function f() { if (x) { if (x) {} } c ? a : b; }] *)
Definition plain : SourceCode :=
  source [func 1 [mk 10 "IfStatement"
                    [("test", VNode (ident 11 "x")); ("consequent", VNode (block 12 [condition 13]));
                     ("alternate", VNull)];
                  choice 20 (ident 30 "a") (ident 31 "b")]].

(** [function f() { c ? () => v : () => v; if (x) {} }] *)
Definition branches : SourceCode := source [func 1 [choice 10 (arrow 20) (arrow 22); condition 30]].

(** [function f() { function f() { c ? () => v : b; } } if (x) {}] *)
Definition inner : SourceCode :=
  source [func 1 [func 10 [choice 20 (arrow 30) (ident 40 "b")]]; condition 50].

(** The complexities reported. *)
Definition amounts (ds : list Descriptor) : list (option string) :=
  map (fun d => data ← rd_data d; map_get "complexityAmount" data) ds.

End Example.

(** Functions as branches of a conditional expression. In
    [function f() { c ? () => v : () => v; if (x) {} }] the function adds 1 and 1,
    but each arrow function left is taken off its own nesting and not of [f]'s,
    and the rule counts 4; in a second-level function such a branch is counted
    twice as a nesting node, and the file complexity of what follows grows: 3
    instead of 2. *)
Theorem conditional_functions_leak_nesting :
  let run := run in
  (exists st points considered,
     run Example.branches Example.no_tokens Example.same_case [JNum 1] = Ok st
     /\ Example.amounts (reports st) = [Some "4"]
     /\ exists found, own_complexity Example.branches Example.no_tokens [JNum 1] 100 [] (sc_ast Example.branches) 0 []
          = Ok (points, found, considered)
          /\ Example.amounts found = [Some "2"])
  /\ exists st, run Example.inner Example.no_tokens Example.same_case [JStr "metric"] = Ok st
       /\ fileComplexity st = 3 /\ nesting st = 1.
Proof.
  split.
  - do 3 eexists. split; [by vm_compute|]. split; [by vm_compute|]. eexists. split; by vm_compute.
  - eexists. split; [by vm_compute|]. split; by vm_compute.
Qed.

(** ** Witness *)

Lemma cognitive_complexity_is_compositional_witness :
  exists st points considered,
    run Example.plain Example.no_tokens Example.same_case [JNum 3] = Ok st
    /\ own_complexity Example.plain Example.no_tokens [JNum 3] 100 [] (sc_ast Example.plain) 0 []
       = Ok (points, reports st, considered)
    /\ Example.amounts (reports st) = [Some "4"].
Proof.
  destruct (cognitive_complexity_is_compositional Example.plain Example.no_tokens Example.same_case [JNum 3])
    as [_ H].
  - done.
  - apply (bool_decide_unpack _). by vm_compute.
  - apply (bool_decide_unpack _). by vm_compute.
  - destruct (run _ _ _ _) as [st|e] eqn:E; [|vm_compute in E; discriminate].
    destruct H as (points & considered & H & _). exists st, points, considered. split; [done|].
    assert (st = match run Example.plain Example.no_tokens Example.same_case [JNum 3] with
                 | Ok st => st | Throw _ => initial_state end) as -> by (by rewrite E).
    split; [|by vm_compute].
    rewrite <- H. by vm_compute.
Defined.
