(* ===== verification/Programs.v ===== *)
(** * Programs: TypeScript programs and their configuration files

    The code of [packages/jsts/src/program/program.ts],
    [program/tsconfigs/index.ts] and of the path helpers of
    [packages/shared/src/helpers/files.ts]. The TypeScript compiler is a
    parameter; it calls back the host that [createProgramOptions] gives it, so
    what it does with a configuration is a tree of its queries ([ts_run]). Paths
    are POSIX paths. *)

From Stdlib Require Import ZArith Lia Ascii.
From stdpp Require Import base list strings relations.
From S2P Require Import Prelude JsString Json.

Open Scope js_scope.

(** ** Paths *)

Definition slash : ascii := ascii_of_nat 47.

Definition is_separator (c : ascii) : bool := Ascii.eqb c slash || Ascii.eqb c backslash.

(** [path.replace(/[\\/]+/g, '/')]; [inside] a run of separators. *)
Fixpoint replace_separators (inside : bool) (path : string) : string :=
  match path with
  | EmptyString => EmptyString
  | String c r =>
      if is_separator c
      then if inside then replace_separators true r else String slash (replace_separators true r)
      else String c (replace_separators false r)
  end.

Definition toUnixPath (path : string) : string := replace_separators false path.

(** Node's [path.parse] on a file name (no slash at its end): the directory, the
    base name and the extension, from the last dot of the base name unless it is
    its first character. *)
Definition path_segments (path : string) : list string := split_char slash path.

Definition basename (path : string) : string := default "" (last (path_segments path)).

Definition dirname (path : string) : string :=
  match removelast (path_segments path) with
  | [] => ""
  | [EmptyString] => "/"
  | l => join_with "/" l
  end.

Definition extname (path : string) : string :=
  match split_char "." (basename path) with
  | [] | [_] => ""
  | [EmptyString; _] => ""
  | parts => if basename path =s ".." then "" else "." +:+ default "" (last parts)
  end.

(** Node's [path.join(dir, name)] on a name of one segment: the segments of the
    directory without the empty ones and the dots, [..] taking one back. *)
Definition normalize_step (absolute : bool) (acc : list string) (segment : string) : list string :=
  if (segment =s "") || (segment =s ".") then acc
  else if segment =s ".." then
    match acc with
    | [] => if absolute then [] else [".."]
    | s :: rest => if s =s ".." then ".." :: acc else rest
    end
  else segment :: acc.

Definition path_join (dir name : string) : string :=
  let absolute := startsWith "/" dir in
  let segments := fold_left (normalize_step absolute) (path_segments dir) [] in
  (if absolute then "/" else "") +:+ join_with "/" (rev (name :: segments)).

(** The first three bytes of a file that starts with a byte order mark. *)
Definition stripBOM (str : string) : string := default str (strip_prefix (bytes [239; 187; 191]%nat) str).

(** The two POSIX values of [isRootNodeModules] and its caller. *)
Definition isRootNodeModules (file : string) : bool := startsWith "/node_modules" (toUnixPath file).

Definition isLastTsConfigCheck (file : string) : bool :=
  (basename file =s "tsconfig.json") && isRootNodeModules file.

(** The files of a program that are not analysed: JSON files and node modules. *)
Definition exceptions (filename : string) : bool :=
  if extname filename =s ".json" then false
  else negb (includes "node_modules" (split_char slash (toUnixPath (dirname filename)))).

(** ** The TypeScript compiler *)

(** A diagnostic: its text (the outer text of a chain) and its place in a file. *)
Record Diagnostic := mkDiagnostic { messageText : string; d_file : option (string * Z) }.

Definition diagnosticToString (diagnostic : Diagnostic) : string :=
  match d_file diagnostic with
  | Some (fileName, start) =>
      messageText diagnostic +:+ "  " +:+ fileName +:+ ":" +:+ print_int start
  | None => messageText diagnostic
  end.

(** A computation of the compiler with the host's [fileExists] and [readFile]. *)
Inductive ts_run (A : Type) : Type :=
| Done (a : A)
| FileExists (file : string) (k : bool -> ts_run A)
| ReadFile (file : string) (k : option string -> ts_run A).
Arguments Done {A} a.
Arguments FileExists {A} file k.
Arguments ReadFile {A} file k.

Record ParsedConfig (O : Type) := mkParsed {
  fileNames : list string;
  parsed_options : O;
  parsed_references : option (list string);
  parsed_errors : list Diagnostic }.
Arguments mkParsed {O}.
Arguments fileNames {O}.
Arguments parsed_options {O}.
Arguments parsed_references {O}.
Arguments parsed_errors {O}.

Record ProgramOptions (O : Type) := mkProgramOptions {
  rootNames : list string;
  compilerOptions : O;
  optionReferences : option (list string);
  options_missing : bool }.
Arguments mkProgramOptions {O}.
Arguments rootNames {O}.
Arguments compilerOptions {O}.
Arguments optionReferences {O}.
Arguments options_missing {O}.

Record ProgramResult (P : Type) := mkProgramResult {
  files : list string;
  projectReferences : list string;
  missingTsConfig : bool;
  program : P }.
Arguments mkProgramResult {P}.
Arguments files {P}.
Arguments projectReferences {P}.
Arguments missingTsConfig {P}.
Arguments program {P}.

(** The functions of TypeScript and of the file system the code calls. *)
Record TypeScript (C O P : Type) := mkTypeScript {
  readConfigFile : string -> ts_run (C + Diagnostic);
  (** the contents, the directory and the name of the configuration *)
  parseJsonConfigFileContent : C -> string -> string -> ts_run (ParsedConfig O);
  (** [{ ...options, allowNonTsExtensions: true }] *)
  withNonTsExtensions : O -> O;
  ts_createProgram : ProgramOptions O -> P;
  getProjectReferences : P -> option (list string);
  getSourceFiles : P -> list string;
  sys_fileExists : string -> bool;
  sys_readFile : string -> option string;
  (** [fs.readFileSync], or the message of what it throws *)
  fs_readFile : string -> result string string;
  (** [fs.lstatSync(file).isDirectory()] *)
  fs_isDirectory : string -> option bool }.
Arguments mkTypeScript {C O P}.
Arguments readConfigFile {C O P}.
Arguments parseJsonConfigFileContent {C O P}.
Arguments withNonTsExtensions {C O P}.
Arguments ts_createProgram {C O P}.
Arguments getProjectReferences {C O P}.
Arguments getSourceFiles {C O P}.
Arguments sys_fileExists {C O P}.
Arguments sys_readFile {C O P}.
Arguments fs_readFile {C O P}.
Arguments fs_isDirectory {C O P}.

Section Creation.

Context {C O P : Type} (ts : TypeScript C O P).

(** A text that is [undefined] or empty. *)
Definition falsy (text : option string) : bool :=
  match text with Some t => t =s "" | None => true end.

(** [parseConfigHost.fileExists] *)
Definition host_fileExists (file : string) : bool :=
  if isLastTsConfigCheck file then true else sys_fileExists ts file.

(** [parseConfigHost.readFile], with the value [missingTsConfig] gets. *)
Definition host_readFile (tsConfig : string) (tsconfigContents : option string)
    (file : string) (missing : bool) : option string * bool :=
  if (file =s tsConfig) && negb (falsy tsconfigContents) then (tsconfigContents, missing)
  else
    let fileContents := sys_readFile ts file in
    if falsy fileContents && isLastTsConfigCheck file then (Some "{}", true)
    else (fileContents, missing).

(** The run of the compiler against the host. *)
Fixpoint run_host {A} (tsConfig : string) (tsconfigContents : option string)
    (m : ts_run A) (missing : bool) : A * bool :=
  match m with
  | Done a => (a, missing)
  | FileExists file k => run_host tsConfig tsconfigContents (k (host_fileExists file)) missing
  | ReadFile file k =>
      let (text, missing) := host_readFile tsConfig tsconfigContents file missing in
      run_host tsConfig tsconfigContents (k text) missing
  end.

Definition createProgramOptions (tsConfig : string) (tsconfigContents : option string)
  : result string (ProgramOptions O) :=
  let (config, missing) := run_host tsConfig tsconfigContents (readConfigFile ts tsConfig) false in
  match config with
  | inr error => Throw (diagnosticToString error)
  | inl config =>
      let (parsed, missing) :=
        run_host tsConfig tsconfigContents
          (parseJsonConfigFileContent ts config (dirname tsConfig) tsConfig) missing in
      match parsed_errors parsed with
      | [] =>
          Ok (mkProgramOptions (fileNames parsed) (withNonTsExtensions ts (parsed_options parsed))
                (parsed_references parsed) missing)
      | errors => Throw (join_with "; " (map diagnosticToString errors))
      end
  end.

Definition addTsConfigIfDirectory (tsConfig : string) : option string :=
  match fs_isDirectory ts tsConfig with
  | Some true => Some (path_join tsConfig "tsconfig.json")
  | Some false => Some tsConfig
  | None => None
  end.

(** [readFileSync] *)
Definition readFileSync (filePath : string) : result string string :=
  let! fileContent := fs_readFile ts filePath in Ok (stripBOM fileContent).

Definition createProgram (tsConfig : string) (tsconfigContents : option string)
  : result string (ProgramResult P) :=
  let! contents :=
    if falsy tsconfigContents then let! text := readFileSync tsConfig in Ok (Some text)
    else Ok tsconfigContents in
  let! programOptions := createProgramOptions tsConfig contents in
  let program := ts_createProgram ts programOptions in
  let inputProjectReferences := default [] (getProjectReferences ts program) in
  Ok (mkProgramResult
        (List.filter exceptions (getSourceFiles ts program))
        (List.filter (fun r => negb (r =s ""))
           (omap addTsConfigIfDirectory inputProjectReferences))
        (options_missing programOptions)
        program).

(** ** The programs in memory *)

(** [programs] and [programCount] *)
Record Programs := mkPrograms { programs : list (string * P); programCount : Z }.

Definition no_programs : Programs := mkPrograms [] 0.

Definition nextId (st : Programs) : Programs * string :=
  let count := (programCount st + 1)%Z in
  (mkPrograms (programs st) count, print_int count).

(** The new state, and the program with its identifier. *)
Definition createAndSaveProgram (st : Programs) (tsConfig : string)
  : result string (Programs * (ProgramResult P * string)) :=
  let! r := createProgram tsConfig None in
  let (st, programId) := nextId st in
  Ok (mkPrograms (map_set programId (program r) (programs st)) (programCount st), (r, programId)).

Definition getProgramById (st : Programs) (programId : string) : result string P :=
  match map_get programId (programs st) with
  | Some p => Ok p
  | None => Throw ("Failed to find program " +:+ programId)
  end.

Definition deleteProgram (st : Programs) (programId : string) : Programs :=
  mkPrograms (map_delete programId (programs st)) (programCount st).

End Creation.

Arguments Programs P : clear implicits.

(** ** The configuration files of a project *)

(** [createTSConfigFile] *)
Record TsConfigJson := mkTsConfig {
  tc_compilerOptions : list (string * bool);
  tc_include : option (list string);
  tc_files : option (list string) }.

Definition createTSConfigFile (files include_ : option (list string)) : TsConfigJson :=
  mkTsConfig [("allowJs", true); ("noImplicitAny", true)] include_ files.

Definition DEFAULT_MAX_FILES_FOR_TYPE_CHECKING : Z := 20000.

(** The configurations found, by directory; [None] until they are set. *)
Definition TSConfigsByBaseDir : Type := option (list (string * list string)).

Definition getTSConfigsCount (db : list (string * list string)) : Z :=
  fold_left (fun count tsConfigs => (count + Z.of_nat (length tsConfigs.2))%Z) db 0%Z.

(** The values the generator [getTSConfigsIterator] yields, when its consumer takes
    them all; [writeTSConfigFile] gives the path of the file it writes. *)
Definition getTSConfigsIterator (writeTSConfigFile : TsConfigJson -> string)
    (db : TSConfigsByBaseDir) (files : list string) (baseDir : string) (sonarLint : bool)
    (maxFilesForTypeChecking : option Z) : list string :=
  let found := flat_map snd (default [] db) in
  let emptyTsConfigs := match found with [] => true | _ => false end in
  let maxFiles := default DEFAULT_MAX_FILES_FOR_TYPE_CHECKING maxFilesForTypeChecking in
  found ++
  if emptyTsConfigs && Z.ltb (Z.of_nat (length files)) maxFiles
  then [writeTSConfigFile
          (if sonarLint then createTSConfigFile None (Some [baseDir +:+ "/**/*"])
           else createTSConfigFile (Some files) None)]
  else [].

(** ** Lemmas: paths *)

Lemma toUnixPath_idem inside s :
  replace_separators inside (replace_separators inside s) = replace_separators inside s
  /\ replace_separators true (replace_separators true s) = replace_separators true s.
Proof.
  revert inside. induction s as [|c s IH]; intros inside; [done|]. cbn [replace_separators].
  destruct (is_separator c) eqn:E; cbn [replace_separators].
  - destruct inside; cbn [replace_separators];
      [|change (is_separator slash) with true; cbn]; by rewrite !(proj2 (IH true)).
  - rewrite E. destruct inside; cbn [replace_separators]; rewrite ?E; split; f_equal;
      apply (IH false).
Qed.

(** ** Lemmas: identifiers *)

Lemma print_int_inj a b : print_int a = print_int b -> a = b.
Proof.
  intros E. pose proof (parse_number_print a "" eq_refl) as A.
  rewrite E, (parse_number_print b "" eq_refl) in A. by injection A as ->.
Qed.

Section Identifiers.

Context {C O P : Type} (ts : TypeScript C O P).

(** An identifier that was given: a number up to the counter. *)
Definition given (st : Programs P) (id : string) : Prop :=
  exists n, id = print_int n /\ (0 < n <= programCount st)%Z.

(** The invariant of the programs in memory. *)
Record programs_ok (st : Programs P) : Prop := mkProgramsOk {
  ids_given : forall id, id ∈ (programs st).*1 -> given st id;
  ids_distinct : NoDup (programs st).*1;
  count_nonneg : (0 <= programCount st)%Z }.

(** A step of the cache; [spared id] excludes the deletion of [id]. *)
Inductive program_step (spared : string -> Prop) : relation (Programs P) :=
| Created st st' tsConfig r :
    createAndSaveProgram ts st tsConfig = Ok (st', r) -> program_step spared st st'
| Deleted st id : ~ spared id -> program_step spared st (deleteProgram st id).

Lemma createAndSaveProgram_ok st tsConfig st' r id :
  createAndSaveProgram ts st tsConfig = Ok (st', (r, id)) ->
  programCount st' = (programCount st + 1)%Z /\ id = print_int (programCount st')
  /\ programs st' = map_set id (program r) (programs st).
Proof.
  unfold createAndSaveProgram. rewrite rbind_ok. intros (r' & _ & H). cbn in H. by simplify_eq.
Qed.

Lemma given_mono (st st' : Programs P) id :
  (programCount st <= programCount st')%Z -> given st id -> given st' id.
Proof. intros H (n & -> & Hn). exists n. split; [done|lia]. Qed.

Lemma next_not_given (st st' : Programs P) :
  programCount st' = (programCount st + 1)%Z -> ~ given st (print_int (programCount st')).
Proof. intros E (n & H & Hn). apply print_int_inj in H. lia. Qed.

Lemma programs_ok_step spared st st' :
  programs_ok st -> program_step spared st st' ->
  programs_ok st' /\ (programCount st <= programCount st')%Z.
Proof.
  intros I S. destruct S as [st1 st2 tsConfig [r id] H|st1 id Hid]; destruct I as [G D N].
  - apply createAndSaveProgram_ok in H as (Hc & -> & Hp). split; [|lia].
    assert (print_int (programCount st2) ∉ (programs st1).*1) as F.
    { intros H. by apply (next_not_given st1 st2), G. }
    constructor; [| |lia]; rewrite Hp; [|by apply NoDup_map_set].
    rewrite map_set_keys_notin by done. intros id [H|H]%elem_of_app.
    + eapply given_mono; [|by apply G]. lia.
    + apply list_elem_of_singleton in H as ->. exists (programCount st2). split; [done|lia].
  - split; [|done]. unfold deleteProgram, map_delete. constructor; cbn; [| |done].
    + intros id' H. apply G. revert H. rewrite !list_elem_of_fmap.
      intros (x & -> & Hx). apply list_elem_of_filter in Hx as [_ Hx]. by exists x.
    + eapply sublist_NoDup; [exact D|]. apply fmap_sublist, sublist_filter.
Qed.

Lemma programs_ok_rtc spared st st' :
  programs_ok st -> rtc (program_step spared) st st' ->
  programs_ok st' /\ (programCount st <= programCount st')%Z.
Proof.
  intros H R. induction R as [st|st1 st2 st3 S _ IH]; [done|].
  destruct (programs_ok_step _ _ _ H S) as [H2 L]. destruct (IH H2) as [H3 L3]. split; [done|lia].
Qed.

Lemma no_programs_ok : programs_ok no_programs.
Proof. constructor; cbn; [by intros id ?%not_elem_of_nil|constructor|done]. Qed.

(** The steps that spare [id] leave its program, and no step brings one back. *)
Lemma program_kept id st st' :
  programs_ok st -> given st id -> rtc (program_step (eq id)) st st' ->
  map_get id (programs st') = map_get id (programs st).
Proof.
  intros H G R. induction R as [st|st1 st2 st3 S _ IH]; [done|].
  pose proof (programs_ok_step _ _ _ H S) as [H2 L].
  rewrite IH by (done || by eapply given_mono). destruct S as [st1 st2 tsConfig [r i] S|st1 i Hi].
  - apply createAndSaveProgram_ok in S as (Hc & -> & ->). apply map_get_set_ne. intros ->.
    by eapply next_not_given.
  - cbn. apply map_get_delete_ne. congruence.
Qed.

Lemma program_gone id st st' :
  programs_ok st -> given st id -> map_get id (programs st) = None ->
  rtc (program_step (fun _ => False)) st st' -> map_get id (programs st') = None.
Proof.
  intros H G E R. induction R as [st|st1 st2 st3 S _ IH]; [done|].
  pose proof (programs_ok_step _ _ _ H S) as [H2 L].
  apply IH; [done|by eapply given_mono|]. destruct S as [st1 st2 tsConfig [r i] S|st1 i Hi].
  - apply createAndSaveProgram_ok in S as (Hc & -> & ->). rewrite map_get_set_ne; [done|].
    intros ->. by eapply next_not_given.
  - cbn. destruct (decide (id = i)) as [->|]; [apply map_get_delete_eq|].
    by rewrite map_get_delete_ne.
Qed.

End Identifiers.

(** ** Properties *)

(** C18: the identifier of a program is fresh and stays its own. In every state
    the cache reaches, a program that is created gets an identifier under which
    there is none; until that identifier is deleted, whatever programs are created
    and deleted, it gives that program back; once deleted, it gives none ever
    again: identifiers are not reused. *)
Theorem program_ids_are_stable {C O P} (ts : TypeScript C O P) st tsConfig st1 r id st2 st3 :
  rtc (program_step ts (fun _ => False)) no_programs st ->
  createAndSaveProgram ts st tsConfig = Ok (st1, (r, id)) ->
  rtc (program_step ts (eq id)) st1 st2 ->
  rtc (program_step ts (fun _ => False)) (deleteProgram st2 id) st3 ->
  id ∉ (programs st).*1 /\ getProgramById st2 id = Ok (program r)
  /\ getProgramById st3 id = Throw ("Failed to find program " +:+ id).
Proof.
  intros R1 H R2 R3. destruct (programs_ok_rtc _ _ _ _ no_programs_ok R1) as [I _].
  pose proof (Created ts (fun _ => False) _ _ _ _ H) as S1.
  destruct (programs_ok_step _ _ _ _ I S1) as [I1 _].
  apply createAndSaveProgram_ok in H as (Hc & -> & Hp).
  assert (given st1 (print_int (programCount st1))) as G.
  { eexists. split; [done|]. pose proof (count_nonneg _ I). lia. }
  destruct (programs_ok_rtc _ _ _ _ I1 R2) as [I2 L2].
  split; [|split].
  - intros E. by apply (next_not_given st st1), (ids_given _ I).
  - unfold getProgramById. by rewrite (program_kept _ _ _ _ I1 G R2), Hp, map_get_set_eq.
  - unfold getProgramById. set (id := print_int _) in *.
    assert (program_step ts (fun _ => False) st2 (deleteProgram st2 id)) as S by (constructor; tauto).
    destruct (programs_ok_step _ _ _ _ I2 S) as [I3 _].
    rewrite (program_gone ts id _ st3 I3); [done| | |done].
    + by eapply given_mono.
    + apply map_get_delete_eq.
Qed.

(** ** Witness *)

(** A compiler that finds one file in each configuration. *)
Definition some_typescript : TypeScript string unit (list string) :=
  mkTypeScript
    (fun tsConfig => ReadFile tsConfig (fun text =>
       Done (match text with Some t => inl t | None => inr (mkDiagnostic "Cannot read" None) end)))
    (fun config dir tsConfig => Done (mkParsed [dir +:+ "/a.ts"] tt None []))
    (fun o => o)
    (fun o => "/node_modules/b.ts" :: rootNames o)
    (fun _ => None)
    (fun p => p)
    (fun _ => true)
    (fun _ => Some "{}")
    (fun _ => Ok "{}")
    (fun _ => Some false).

Definition program_in (dir : string) : list string := ["/node_modules/b.ts"; dir +:+ "/a.ts"].
Definition one_program : Programs (list string) := mkPrograms [("1", program_in "/p")] 1.
Definition two_programs : Programs (list string) :=
  mkPrograms [("1", program_in "/p"); ("2", program_in "/q")] 2.

Lemma program_ids_are_stable_witness :
  createAndSaveProgram some_typescript no_programs "/p/tsconfig.json"
    = Ok (one_program, (mkProgramResult ["/p/a.ts"] [] false (program_in "/p"), "1"))
  /\ getProgramById two_programs "1" = Ok (program_in "/p")
  /\ getProgramById (deleteProgram two_programs "1") "1" = Throw "Failed to find program 1".
Proof.
  split; [by vm_compute|].
  destruct (program_ids_are_stable some_typescript no_programs "/p/tsconfig.json" one_program
    (mkProgramResult ["/p/a.ts"] [] false (program_in "/p")) "1" two_programs
    (deleteProgram two_programs "1")) as (_ & H1 & H2); [..|split; [exact H1|exact H2]].
  - apply rtc_refl.
  - by vm_compute.
  - apply rtc_once.
    apply (Created _ _ _ _ "/q/tsconfig.json" (mkProgramResult ["/q/a.ts"] [] false (program_in "/q"), "2")).
    by vm_compute.
  - apply rtc_refl.
Defined.
