(* ===== verification/Analyzer.v ===== *)
(** * Analyzer: the analysis of one JavaScript or TypeScript file

    The code of [packages/jsts/src/analysis/analyzer.ts], [builders/build.ts],
    [parsers/parse.ts], [parsers/options.ts] and of the errors of
    [packages/shared/src]: the choice of the parser, the linting of the parsed file
    and the metrics its context asks for. The parsers are parameters. *)

From Stdlib Require Import ZArith Lia Ascii.
From stdpp Require Import base list strings.
From S2P Require Import Prelude JsString Json Estree Ast.
From S2P Require Import Protobuf Metrics Highlighting Issues LinterConfig Programs.

Open Scope js_scope.

(** ** Errors *)

(** [charCode.toString(16)] padded with zeros to four digits. *)
Definition unicodeCharEscape (charCode : Z) : string :=
  let digit n := String (hex_digit (Z.to_nat n)) "" in
  String backslash "u" +:+ digit (charCode / 4096 mod 16)%Z +:+ digit (charCode / 256 mod 16)%Z
    +:+ digit (charCode / 16 mod 16)%Z +:+ digit (charCode mod 16)%Z.

Definition unicodeEscape (s : string) : string :=
  join_with "" (map (fun charCode => if Z.ltb charCode 32 || Z.ltb 127 charCode
                                     then unicodeCharEscape charCode
                                     else String (ascii_of_nat (Z.to_nat charCode)) "")
                    (code_units s)).

Inductive ErrorCode := Parsing | FailingTypeScript | Unexpected | LinterInitialization.

(** The errors of the analysis: an [APIError], or another one, with its stack. *)
Inductive exn :=
| APIError (code : ErrorCode) (message : string) (line : option Z)
| Error (message stack : string).

Definition newAPIError (code : ErrorCode) (message : string) (line : option Z) : exn :=
  APIError code (unicodeEscape message) line.

Definition failingTypeScriptError (message : string) : exn :=
  newAPIError FailingTypeScript message None.

Definition parsingError (message : string) (line : option Z) : exn :=
  newAPIError Parsing message line.

(** ** Parsers *)

Inductive Parser := javascript | typescript | vuejs.

#[export] Instance Parser_eq_dec : EqDecision Parser.
Proof. solve_decision. Defined.

(** What the callers of [buildParserOptions] set. *)
Record InitialOptions (P : Type) := mkInitial {
  i_filePath : option string;
  i_parser : option Parser;
  (** a list of programs, or the falsy [programId] *)
  i_programs : option (list P);
  i_project : option (list string);
  i_sourceType : option string }.
Arguments mkInitial {P}.
Arguments i_filePath {P}.
Arguments i_parser {P}.
Arguments i_programs {P}.
Arguments i_project {P}.
Arguments i_sourceType {P}.

(** The options of a parser: the ones above over the defaults, and the ones of Babel. *)
Record ParserOptions (P : Type) := mkParserOptions {
  o_initial : InitialOptions P;
  o_sourceType : string;
  o_defaults : list (string * json);
  o_babel : list (string * json) }.
Arguments mkParserOptions {P}.

Definition default_options : list (string * json) :=
  [("tokens", JBool true); ("comment", JBool true); ("loc", JBool true); ("range", JBool true);
   ("ecmaVersion", JNum 2018); ("disallowAutomaticSingleRunInference", JBool true);
   ("codeFrame", JBool false);
   ("ecmaFeatures", JObj [("jsx", JBool true); ("globalReturn", JBool false);
                          ("legacyDecorators", JBool true)]);
   ("extraFileExtensions", JArr [JStr ".vue"])].

(** The presets and the plugin are packages, here by their names. *)
Definition babel_options : list (string * json) :=
  [("requireConfigFile", JBool false);
   ("babelOptions",
    JObj [("targets", JStr "defaults");
          ("presets", JArr [JStr "@babel/preset-react"; JStr "@babel/preset-flow"; JStr "@babel/preset-env"]);
          ("plugins", JArr [JArr [JStr "@babel/plugin-proposal-decorators";
                                  JObj [("version", JStr "2022-03")]]]);
          ("babelrc", JBool false); ("configFile", JBool false);
          ("parserOpts", JObj [("allowReturnOutsideFunction", JBool true)])])].

Definition babelParserOptions {P} (options : ParserOptions P) : ParserOptions P :=
  mkParserOptions (o_initial _ options) (o_sourceType _ options) (o_defaults _ options) babel_options.

Definition buildParserOptions {P} (initial : InitialOptions P) (usingBabel : bool) : ParserOptions P :=
  let options :=
    mkParserOptions initial (default "module" (i_sourceType initial)) default_options [] in
  if usingBabel then babelParserOptions options else options.

Definition isVueFile (file : string) : bool := endsWith ".vue" (toLowerCase_ascii file).

(** A context that is not set counts as one that asks for the parser. *)
Definition shouldUseTypescriptParser (ctx : option Context_) (language : JsTsLanguage) : bool :=
  match ctx with
  | Some c => shouldUseTypeScriptParserForJS c || bool_decide (language = TS)
  | None => true
  end.

(** ** Inputs and outputs *)

Record JsTsAnalysisInput := mkInput {
  filePath : string;
  fileContent : string;
  linterId : option string;
  i_fileType : FileType;
  i_language : option JsTsLanguage;
  ignoreHeaderComments : bool;
  tsConfigs : option (list string);
  programId : option string;
  skipAst : bool }.

(** [{ nosonarLines }] or all the metrics *)
Inductive OutputMetrics := NoSonar (nosonarLines : list Z) | AllMetrics (m : Metrics).

Record ExtendedMetrics := mkExtended {
  e_highlightedSymbols : option json;
  e_highlights : option (list SyntaxHighlight);
  e_metrics : OutputMetrics;
  e_cpdTokens : option (list CpdToken) }.

Record ParsingError := mkParsingError {
  pe_message : string; pe_line : option Z; pe_code : option ErrorCode }.

Record JsTsAnalysisOutput := mkOutput {
  parsing_error : option ParsingError;
  out_issues : list Issue;
  out_ucfgPaths : option (list string);
  extended : ExtendedMetrics;
  ast : option (list Byte.byte) }.

Section Analyzer.

Context {P : Type}.

(** [parser.parseForESLint] and the construction of the source code: what they
    throw has a line and a message. *)
Variable parseForESLint : string -> Parser -> ParserOptions P -> result (option Z * string) SourceCode.

(** [NODE_TYPE.encode], or the message of what it throws *)
Variable encode : pvalue -> result string (list Byte.byte).

(** ESLint on a parsed file, and the index of the globals of an environment. *)
Variable verify : SourceCode -> string -> LinterConfig -> FileType -> list LintMessage.
Variable environment_globals : string -> option (list (string * bool)).

(** What [lint] throws, with its stack. *)
Variable error_of : config_error -> string * string.

Variable ctx : option Context_.
Variable rules : RuleModules.

Definition parse (code : string) (parser : Parser) (parserOptions : ParserOptions P)
  : result exn SourceCode :=
  match parseForESLint code parser parserOptions with
  | Ok sc => Ok sc
  | Throw (lineNumber, message) =>
      if startsWith "Debug Failure" message then Throw (failingTypeScriptError message)
      else Throw (parsingError message lineNumber)
  end.

(** [input.programId && [getProgramById(input.programId)]]; the error of a program
    that is not found is not caught. *)
Definition inputPrograms (programs : Programs P) (input : JsTsAnalysisInput)
  : result exn (option (list P)) :=
  match programId input with
  | Some id =>
      if id =s "" then Ok None
      else match getProgramById programs id with
           | Ok p => Ok (Some [p])
           | Throw message => Throw (Error message "")
           end
  | None => Ok None
  end.

Definition build (programs : Programs P) (input : JsTsAnalysisInput) (language : JsTsLanguage)
  : result exn SourceCode :=
  let vueFile := isVueFile (filePath input) in
  let withBabel :=
    let parser := if vueFile then vuejs else javascript in
    match parse (fileContent input) parser
            (buildParserOptions
               (mkInitial None (if vueFile then Some javascript else None) None None None) true) with
    | Ok sc => Ok sc
    | Throw error =>
        if vueFile then Throw error
        else match parse (fileContent input) javascript
                     (buildParserOptions (mkInitial None None None None (Some "script")) true) with
             | Ok sc => Ok sc
             | Throw _ => Throw error
             end
    end in
  if shouldUseTypescriptParser ctx language then
    let! parserPrograms := if vueFile then Ok None else inputPrograms programs input in
    let options :=
      mkInitial (Some (filePath input)) (if vueFile then Some typescript else None)
        parserPrograms (if vueFile then None else tsConfigs input) None in
    match parse (fileContent input) (if vueFile then vuejs else typescript)
            (buildParserOptions options false) with
    | Ok sc => Ok sc
    | Throw error => if bool_decide (language = TS) then Throw error else withBabel
    end
  else withBabel.

(** The metrics the context and the type of the file ask for. *)
Definition computeExtendedMetrics (input : JsTsAnalysisInput) (sc : SourceCode)
    (highlightedSymbols : json) (cognitiveComplexity : option Z) : ExtendedMetrics :=
  if match ctx with Some c => sonarlint c | None => false end
  then mkExtended None None (NoSonar (findNoSonarLines sc)) None
  else
    match i_fileType input with
    | MAIN =>
        mkExtended (Some highlightedSymbols) (Some (getSyntaxHighlighting sc))
          (AllMetrics (computeMetrics sc (ignoreHeaderComments input) (default 0%Z cognitiveComplexity)))
          (Some (getCpdTokens sc))
    | TEST =>
        mkExtended (Some highlightedSymbols) (Some (getSyntaxHighlighting sc))
          (NoSonar (findNoSonarLines sc)) None
    end.

(** [serializeInProtobuf], or [null] when it throws *)
Definition serializeAst (sc : SourceCode) : option (list Byte.byte) :=
  match parseInProtobuf (sc_ast sc) with
  | Ok shape => match encode shape with Ok bytes => Some bytes | Throw _ => None end
  | Throw _ => None
  end.

(** The [catch] of [analyzeFile] *)
Definition rethrow (e : string * string) : exn :=
  if string_includes "typescript.js:" e.2 then failingTypeScriptError e.1 else Error e.1 e.2.

(** The wrapper after the analysis, and the output. *)
Definition analyzeFile (linter : LinterWrapper) (input : JsTsAnalysisInput) (sc : SourceCode)
  : LinterWrapper * result exn JsTsAnalysisOutput :=
  let getLocFromIndex := fun i => let p := sc_getLocFromIndex sc i in (line p, column p) in
  match lint environment_globals (verify sc (filePath input)) getLocFromIndex
          (default (mkContext "" false false None []) ctx) rules linter (i_fileType input)
          (default JS (i_language input)) with
  | Throw e => (linter, Throw (rethrow (error_of e)))
  | Ok (linter', Throw e) => (linter', Throw (rethrow (error_of e)))
  | Ok (linter', Ok r) =>
      (linter',
       Ok (mkOutput None (issues r) (Some (ucfgPaths r))
             (computeExtendedMetrics input sc (Issues.highlightedSymbols r) (Issues.cognitiveComplexity r))
             (if skipAst input then None else serializeAst sc)))
  end.

(** The linters after the analysis, and the output. *)
Definition analyzeJSTS (linters : Linters) (programs : Programs P) (input : JsTsAnalysisInput)
    (language : JsTsLanguage) : Linters * result exn JsTsAnalysisOutput :=
  let id := default "default" (linterId input) in
  match getLinter linters id with
  | Throw _ =>
      (linters, Throw (newAPIError LinterInitialization
                         ("Linter " +:+ id +:+ " does not exist. Did you call /init-linter?") None))
  | Ok linter =>
      match build programs input language with
      | Throw e => (linters, Throw e)
      | Ok sc =>
          let (linter', r) := analyzeFile linter input sc in
          (map_set id linter' linters, r)
      end
  end.

End Analyzer.

(** ** Specification of the choice of the parser *)

Section Attempts.

Context {P : Type}.
Variable parseForESLint : string -> Parser -> ParserOptions P -> result (option Z * string) SourceCode.
Variable ctx : option Context_.

Definition attempt : Type := Parser * ParserOptions P.

(** With TypeScript's parser: for TypeScript, and for JavaScript unless the context
    says not to. The parser of Vue files delegates their scripts. *)
Definition typescript_attempts (input : JsTsAnalysisInput) (language : JsTsLanguage)
    (parserPrograms : option (list P)) : list attempt :=
  let vue := isVueFile (filePath input) in
  if shouldUseTypescriptParser ctx language
  then [(if vue then vuejs else typescript,
         mkParserOptions
           (mkInitial (Some (filePath input)) (if vue then Some typescript else None)
              parserPrograms (if vue then None else tsConfigs input) None)
           "module" default_options [])]
  else [].

Definition with_babel (initial : InitialOptions P) (sourceType : string) : ParserOptions P :=
  mkParserOptions initial sourceType default_options babel_options.

(** With Babel, as a module and, outside of Vue files, as a script: never for
    TypeScript. *)
Definition babel_attempts (input : JsTsAnalysisInput) (language : JsTsLanguage) : list attempt :=
  match language, isVueFile (filePath input) with
  | TS, _ => []
  | JS, true => [(vuejs, with_babel (mkInitial None (Some javascript) None None None) "module")]
  | JS, false => [(javascript, with_babel (mkInitial None None None None None) "module");
                  (javascript, with_babel (mkInitial None None None None (Some "script")) "script")]
  end.

Fixpoint first_ok {E A} (l : list (result E A)) : option A :=
  match l with
  | [] => None
  | Ok a :: _ => Some a
  | Throw _ :: rest => first_ok rest
  end.

Definition outcomes (code : string) (l : list attempt) : list (result exn SourceCode) :=
  map (fun a => parse parseForESLint code a.1 a.2) l.

(** The first source code of the attempts in order; when they all fail, the error
    of TypeScript's parser for TypeScript and the one of Babel on a module for
    JavaScript. *)
Definition build_spec (input : JsTsAnalysisInput) (language : JsTsLanguage)
    (parserPrograms : option (list P)) (r : result exn SourceCode) : Prop :=
  let ts := outcomes (fileContent input) (typescript_attempts input language parserPrograms) in
  let babel := outcomes (fileContent input) (babel_attempts input language) in
  match first_ok (ts ++ babel) with
  | Some sc => r = Ok sc
  | None => exists e, r = Throw e /\ head (match language with TS => ts | JS => babel end) = Some (Throw e)
  end.

End Attempts.

Lemma typescript_parser_for_typescript ctx : shouldUseTypescriptParser ctx TS = true.
Proof. destruct ctx as [c|]; cbn; [|done]. apply orb_true_r. Qed.

(** ** Properties *)

(** The choice of the parser is the one of the specification, whatever the
    parsers answer. The programs of the input are looked for only when TypeScript's
    parser is used on a file that is not a Vue file, and the error of a program
    that does not exist is the one of [build]. *)
Theorem build_tries_parsers_in_order {P} parseForESLint ctx (programs : Programs P) input language :
  let parserPrograms :=
    if shouldUseTypescriptParser ctx language && negb (isVueFile (filePath input))
    then inputPrograms programs input else Ok None in
  match parserPrograms with
  | Ok ps => build_spec parseForESLint ctx input language ps
               (build parseForESLint ctx programs input language)
  | Throw e => build parseForESLint ctx programs input language = Throw e
  end.
Proof.
  unfold build, build_spec, outcomes, typescript_attempts, babel_attempts.
  destruct language.
  - destruct (shouldUseTypescriptParser ctx JS) eqn:U, (isVueFile (filePath input)) eqn:V;
      cbn [andb negb rbind].
    all: try (destruct (inputPrograms programs input) as [ps|e]; cbn [rbind]; [|done]).
    all: cbn; rewrite ?bool_decide_false by done; cbn; unfold buildParserOptions, babelParserOptions, with_babel; cbn.
    all: repeat case_match; simplify_eq/=; eauto.
  - rewrite typescript_parser_for_typescript. destruct (isVueFile (filePath input)) eqn:V;
      cbn [andb negb rbind].
    2: destruct (inputPrograms programs input) as [ps|e]; cbn [rbind]; [|done].
    all: cbn; rewrite ?bool_decide_true by done; cbn; unfold buildParserOptions, babelParserOptions, with_babel; cbn.
    all: repeat case_match; simplify_eq/=; eauto.
Qed.
