(* ===== verification/Projects.v ===== *)
(** * Projects: the analysis of a whole project

    The code of [packages/jsts/src/analysis/projectAnalysis]: the files of a
    project are analysed with the TypeScript programs of its configuration files,
    then the others without. The analysis of one file is behind the interface
    [FileAnalysis], which [Analyzer] implements. *)

From Stdlib Require Import ZArith Lia Ascii.
From stdpp Require Import base list sets strings relations.
From S2P Require Import Prelude JsString Json Estree Ast Protobuf.
From S2P Require Import Metrics Highlighting Issues LinterConfig Programs Analyzer.

Open Scope js_scope.

(** ** The interface *)

Definition with_program (id : string) (input : JsTsAnalysisInput) : JsTsAnalysisInput :=
  mkInput (filePath input) (fileContent input) (linterId input) (i_fileType input) (i_language input)
    (ignoreHeaderComments input) (tsConfigs input) (Some id) (skipAst input).

(** The analysis of a file, in a state [L] of the linters: once they are [ready] it
    depends on the file, on the language and on the program the identifier of the
    input stands for, and not on what was analysed before. The files of a project
    use the default linter. *)
Class FileAnalysis (P L : Type) := {
  analyze : L -> Programs P -> JsTsAnalysisInput -> JsTsLanguage -> L * result exn JsTsAnalysisOutput;
  ready : L -> Prop;
  analysis_of : option P -> JsTsAnalysisInput -> JsTsLanguage -> result exn JsTsAnalysisOutput;
  analyze_ready : forall l ps input lang,
    ready l -> linterId input = None -> ready (analyze l ps input lang).1;
  analyze_with_program : forall l ps input lang id p,
    ready l -> linterId input = None -> id <> "" -> getProgramById ps id = Ok p ->
    (analyze l ps (with_program id input) lang).2 = analysis_of (Some p) input lang;
  analyze_without_program : forall l ps input lang,
    ready l -> linterId input = None -> programId input = None -> (analyze l ps input lang).2 = analysis_of None input lang }.

(** ** Data *)

Record JsTsFile := mkFile {
  f_fileContent : option string;
  f_fileType : FileType;
  f_language : option JsTsLanguage }.

Definition JsTsFiles : Type := list (string * JsTsFile).

Record ProjectAnalysisInput := mkProjectInput {
  p_files : JsTsFiles;
  p_rules : list RuleConfig;
  p_environments : option (list string);
  p_globals : option (list string);
  p_baseDir : string;
  p_exclusions : list string;
  p_isSonarlint : bool;
  p_maxFilesForTypeChecking : option Z }.

Record ProjectAnalysisOutput := mkProjectOutput {
  r_files : list (string * JsTsAnalysisOutput);
  r_withProgram : bool;
  r_withWatchProgram : bool;
  r_filesWithoutTypeChecking : list string;
  r_programsCreated : list string }.

Definition DEFAULT_LANGUAGE : JsTsLanguage := TS.

Definition DEFAULT_ENVIRONMENTS : list string :=
  ["amd"; "applescript"; "atomtest"; "browser"; "commonjs"; "embertest"; "greasemonkey"; "jasmine";
   "jest"; "jquery"; "meteor"; "mocha"; "mongo"; "nashorn"; "node"; "phantomjs"; "prototypejs";
   "protractor"; "qunit"; "serviceworker"; "shared-node-browser"; "shelljs"; "webextensions";
   "worker"].

Definition DEFAULT_GLOBALS : list string :=
  ["angular"; "goog"; "google"; "OpenLayers"; "d3"; "dojo"; "dojox"; "dijit"; "Backbone"; "moment";
   "casper"; "_"; "sap"].

(** The empty output of a file that could not be analysed. *)
Definition parseParsingError (e : exn) : JsTsAnalysisOutput :=
  let error :=
    match e with
    | APIError code message line => mkParsingError message line (Some code)
    | Error message _ => mkParsingError message None None
    end in
  mkOutput (Some error) [] None
    (mkExtended (Some (JArr [])) (Some []) (AllMetrics (mkMetrics [] [] [] [] 0 0 0 0 0)) (Some []))
    (Some []).

(** What the promise of the analysis of a project is rejected with. *)
Inductive project_error :=
| Rejected (message : string)
| ProjectOutOfFuel.

Section Project.

Context {C Q P L : Type} `{FileAnalysis P L}.
Variable ts : TypeScript C Q P.

(** [readFile], or the message of what its promise is rejected with *)
Variable readFile : string -> result string string.

(** The state an analysis goes through. *)
Record state := mkState {
  linters : L;
  programs_of : Programs P;
  results : ProjectAnalysisOutput;
  pendingFiles : list string }.

Definition setResult (filename : string) (output : JsTsAnalysisOutput) (r : ProjectAnalysisOutput)
  : ProjectAnalysisOutput :=
  mkProjectOutput (map_set filename output (r_files r)) (r_withProgram r) (r_withWatchProgram r)
    (r_filesWithoutTypeChecking r) (r_programsCreated r).

Definition pushProgram (tsConfig : string) (r : ProjectAnalysisOutput) : ProjectAnalysisOutput :=
  mkProjectOutput (r_files r) (r_withProgram r) (r_withWatchProgram r)
    (r_filesWithoutTypeChecking r) (r_programsCreated r ++ [tsConfig]).

Definition pushFile (filename : string) (r : ProjectAnalysisOutput) : ProjectAnalysisOutput :=
  mkProjectOutput (r_files r) (r_withProgram r) (r_withWatchProgram r)
    (r_filesWithoutTypeChecking r ++ [filename]) (r_programsCreated r).

(** [analyzeFile], with the language of the input *)
Definition analyzeFile (st : state) (input : JsTsAnalysisInput) (lang : JsTsLanguage)
  : L * JsTsAnalysisOutput :=
  let (l, r) := analyze (linters st) (programs_of st) input lang in
  (l, match r with Ok output => output | Throw e => parseParsingError e end).

(** The input of a file, and the analysis that stores its output. *)
Definition file_input (filename content : string) (file : JsTsFile) (tsConfigs : option (list string))
    (programId : option string) : JsTsAnalysisInput :=
  mkInput filename content None (f_fileType file) (Some (default DEFAULT_LANGUAGE (f_language file)))
    false tsConfigs programId false.

Definition file_content (filename : string) (file : JsTsFile) : result project_error string :=
  match f_fileContent file with
  | Some content => Ok content
  | None => match readFile filename with Ok content => Ok content | Throw e => Throw (Rejected e) end
  end.

Definition analyzeAndStore (st : state) (filename : string) (file : JsTsFile)
    (tsConfigs : option (list string)) (programId : option string) : result project_error state :=
  let! content := file_content filename file in
  let (l, output) :=
    analyzeFile st (file_input filename content file tsConfigs programId)
      (default DEFAULT_LANGUAGE (f_language file)) in
  Ok (mkState l (programs_of st) (setResult filename output (results st)) (pendingFiles st)).

(** A file of a program or of a configuration, if it is requested and pending. *)
Definition analyzePending (files : JsTsFiles) (tsConfigs : option (list string))
    (programId : option string) (st : state) (filename : string) : result project_error state :=
  match map_get filename files with
  | Some file =>
      if set_has filename (pendingFiles st) then
        let! st := analyzeAndStore st filename file tsConfigs programId in
        Ok (mkState (linters st) (programs_of st) (results st) (set_delete filename (pendingFiles st)))
      else Ok st
  | None => Ok st
  end.

Definition set_programs (ps : Programs P) (st : state) : state :=
  mkState (linters st) ps (results st) (pendingFiles st).

Definition set_results (r : ProjectAnalysisOutput) (st : state) : state :=
  mkState (linters st) (programs_of st) r (pendingFiles st).

Fixpoint analyzeProgram (fuel : nat) (files : JsTsFiles) (st : state) (tsConfig : string)
  : result project_error state :=
  match fuel with
  | O => Throw ProjectOutOfFuel
  | S fuel' =>
      match createAndSaveProgram ts (programs_of st) tsConfig with
      | Throw _ => Ok st
      | Ok (ps, (r, programId)) =>
          let st := set_results (pushProgram tsConfig (results st)) (set_programs ps st) in
          let! st := rfold (analyzePending files None (Some programId)) (Programs.files r) st in
          let st := set_programs (deleteProgram (programs_of st) programId) st in
          rfold (analyzeProgram fuel' files) (projectReferences r) st
      end
  end.

Fixpoint analyzeWithProgram (fuel : nat) (files : JsTsFiles) (tsConfigs : list string) (st : state)
  : result project_error state :=
  match tsConfigs with
  | [] => Ok st
  | tsConfig :: rest =>
      let! st := analyzeProgram fuel files st tsConfig in
      match pendingFiles st with
      | [] => Ok st
      | _ => analyzeWithProgram fuel files rest st
      end
  end.

Fixpoint analyzeWithWatchProgram (files : JsTsFiles) (tsConfigs : list string) (st : state)
  : result project_error state :=
  match tsConfigs with
  | [] => Ok st
  | tsConfig :: rest =>
      match createProgramOptions ts tsConfig None with
      | Throw e => Throw (Rejected e)
      | Ok options =>
          let! st := rfold (analyzePending files (Some [tsConfig]) None) (rootNames options) st in
          match pendingFiles st with
          | [] => Ok st
          | _ => analyzeWithWatchProgram files rest st
          end
      end
  end.

(** [files[filename].fileContent] throws on a file that is not in the input. *)
Definition analyzeAlone (files : JsTsFiles) (st : state) (filename : string)
  : result project_error state :=
  match map_get filename files with
  | Some file =>
      analyzeAndStore (set_results (pushFile filename (results st)) st) filename file None None
  | None => Throw (Rejected filename)
  end.

Definition analyzeWithoutProgram (filenames : list string) (files : JsTsFiles) (st : state)
  : result project_error state := rfold (analyzeAlone files) filenames st.

(** [initializeLinter]: the linters, or the message of what it throws. *)
Variable initializeLinter :
  list RuleConfig -> list string -> list string -> string -> L -> result string L.
(** [searchFiles] for configuration files: by directory, their names. *)
Variable searchTsConfigs : string -> list string -> list (string * list string).
Variable writeTSConfigFile : TsConfigJson -> string.

Definition no_results : ProjectAnalysisOutput := mkProjectOutput [] false false [] [].

Definition analyzeProject (fuel : nat) (l : L) (ps : Programs P) (input : ProjectAnalysisInput)
  : result project_error (L * Programs P * ProjectAnalysisOutput) :=
  let inputFilenames := (p_files input).*1 in
  match inputFilenames with
  | [] => Ok (l, ps, no_results)
  | _ =>
      match initializeLinter (p_rules input) (default DEFAULT_ENVIRONMENTS (p_environments input))
              (default DEFAULT_GLOBALS (p_globals input)) (p_baseDir input) l with
      | Throw e => Throw (Rejected e)
      | Ok l =>
          let db := searchTsConfigs (p_baseDir input) (p_exclusions input) in
          let tsConfigs :=
            getTSConfigsIterator writeTSConfigFile (Some db) inputFilenames
              (toUnixPath (p_baseDir input)) (p_isSonarlint input) (p_maxFilesForTypeChecking input) in
          let meta :=
            mkProjectOutput [] (negb (p_isSonarlint input)) (p_isSonarlint input) [] [] in
          let st := mkState l ps meta inputFilenames in
          let! st :=
            if p_isSonarlint input then analyzeWithWatchProgram (p_files input) tsConfigs st
            else analyzeWithProgram fuel (p_files input) tsConfigs st in
          let! st := analyzeWithoutProgram (pendingFiles st) (p_files input) st in
          Ok (linters st, programs_of st, results st)
      end
  end.

End Project.

Arguments state P L : clear implicits.

(** ** Specification: how each file is analysed *)

Section Spec.

Context {C Q P L : Type} `{FileAnalysis P L}.
Variable ts : TypeScript C Q P.
Variable readFile : string -> result string string.

(** How a file is analysed: with a program, with configurations, or neither. *)
Definition how : Type := option P * option (list string).

(** The files of the programs created from configurations, in order. *)
Definition created_files (tsConfigs : list string) : list (string * how) :=
  flat_map (fun c => match createProgram ts c None with
                     | Ok r => map (fun f => (f, (Some (program r), None))) (Programs.files r)
                     | Throw _ => []
                     end) tsConfigs.

(** The files of configurations, for programs that are watched. *)
Definition watched_files (tsConfigs : list string) : list (string * how) :=
  flat_map (fun c => match createProgramOptions ts c None with
                     | Ok o => map (fun f => (f, (None, Some [c]))) (rootNames o)
                     | Throw _ => []
                     end) tsConfigs.

(** The output of a file, analysed in one way. *)
Definition output_with (filename : string) (file : JsTsFile) (h : how) (output : JsTsAnalysisOutput)
  : Prop :=
  exists content, file_content readFile filename file = Ok content
    /\ output = match analysis_of h.1 (file_input filename content file h.2 None)
                        (default DEFAULT_LANGUAGE (f_language file)) with
                | Ok output => output
                | Throw e => parseParsingError e
                end.

(** The invariant of an analysis in progress, [seen] being the files of the
    programs so far: the files that are pending have not been seen, and the others
    have the output of the first program that has them. *)
Record in_progress (files : JsTsFiles) (seen : list (string * how)) (st : state P L) : Prop := mkInProgress {
  ip_ready : ready (linters st);
  ip_programs : programs_ok (programs_of st);
  ip_pending : NoDup (pendingFiles st);
  ip_requested : forall f, f ∈ pendingFiles st -> f ∈ files.*1;
  ip_unseen : forall f, f ∈ pendingFiles st -> map_get f seen = None;
  ip_keys : NoDup (r_files (results st)).*1;
  ip_done : forall f, f ∈ (r_files (results st)).*1 <-> f ∈ files.*1 /\ f ∉ pendingFiles st;
  ip_alone : r_filesWithoutTypeChecking (results st) = [];
  ip_output : forall f output, map_get f (r_files (results st)) = Some output ->
    exists file h, map_get f files = Some file /\ map_get f seen = Some h
      /\ output_with f file h output }.

Lemma map_get_app {V} k (a b : list (string * V)) :
  map_get k (a ++ b) = match map_get k a with Some v => Some v | None => map_get k b end.
Proof. induction a as [|[j v] a IH]; [done|]. cbn. by case_decide. Qed.

(** More files may be seen, as long as they are not pending. *)
Lemma in_progress_seen files seen more st :
  in_progress files seen st -> (forall f, f ∈ pendingFiles st -> map_get f more = None) ->
  in_progress files (seen ++ more) st.
Proof.
  intros [] F. constructor; try done.
  - intros f Hf. rewrite map_get_app, ip_unseen0 by done. by apply F.
  - intros f output E. destruct (ip_output0 _ _ E) as (file & h & Hfile & Hh & O).
    exists file, h. by rewrite map_get_app, Hh.
Qed.

Lemma analyzeAndStore_ok (st : state P L) filename file tsConfigs id (st' : state P L) :
  analyzeAndStore readFile st filename file tsConfigs id = Ok st' ->
  ready (linters st) ->
  (forall i, id = Some i -> i <> "" /\ exists p, getProgramById (programs_of st) i = Ok p) ->
  exists output,
    results st' = setResult filename output (results st)
    /\ ready (linters st') /\ programs_of st' = programs_of st /\ pendingFiles st' = pendingFiles st
    /\ output_with filename file
         (match id with
          | Some i => match getProgramById (programs_of st) i with Ok p => Some p | Throw _ => None end
          | None => None
          end, tsConfigs) output.
Proof.
  unfold analyzeAndStore. rewrite rbind_ok. intros (content & Hc & E) R I.
  unfold analyzeFile in E.
  pose proof (analyze_ready (linters st) (programs_of st)
    (file_input filename content file tsConfigs id) (default DEFAULT_LANGUAGE (f_language file)) R eq_refl) as R'.
  assert ((analyze (linters st) (programs_of st) (file_input filename content file tsConfigs id)
             (default DEFAULT_LANGUAGE (f_language file))).2
          = analysis_of match id with
              | Some i => match getProgramById (programs_of st) i with Ok p => Some p | Throw _ => None end
              | None => None
              end (file_input filename content file tsConfigs None)
              (default DEFAULT_LANGUAGE (f_language file))) as A.
  { destruct id as [i|].
    - destruct (I i eq_refl) as (Hne & p & Hp). rewrite Hp.
      change (file_input filename content file tsConfigs (Some i))
        with (with_program i (file_input filename content file tsConfigs None)).
      by apply analyze_with_program.
    - by apply analyze_without_program. }
  destruct (analyze _ _ _ _) as [l r]. cbn in E, R', A. apply Ok_inj in E as <-.
  eexists. split; [done|]. do 3 (split; [done|]). exists content. split; [done|]. cbn. by rewrite <- A.
Qed.

Lemma map_set_keys {V} (k : string) (v : V) m x : x ∈ (map_set k v m).*1 <-> x = k \/ x ∈ m.*1.
Proof.
  destruct (decide (k ∈ m.*1)).
  - rewrite map_set_keys_in by done. naive_solver.
  - rewrite map_set_keys_notin by done. set_solver.
Qed.

(** One file of a program or of a configuration. *)
Lemma analyzePending_ok files seen st tsConfigs id filename st' h :
  in_progress files seen st ->
  analyzePending readFile files tsConfigs id st filename = Ok st' ->
  (forall i, id = Some i -> i <> "" /\ exists p, getProgramById (programs_of st) i = Ok p) ->
  h = (match id with
       | Some i => match getProgramById (programs_of st) i with Ok p => Some p | Throw _ => None end
       | None => None
       end, tsConfigs) ->
  in_progress files (seen ++ [(filename, h)]) st'
  /\ programs_of st' = programs_of st /\ r_programsCreated (results st') = r_programsCreated (results st)
  /\ (forall f, f ∈ pendingFiles st' -> f ∈ pendingFiles st).
Proof.
  intros I E Hid ->. unfold analyzePending in E.
  assert (forall f, f <> filename -> forall h : how, map_get f [(filename, h)] = None) as N.
  { intros f Hf h. cbn. by rewrite decide_False. }
  destruct (map_get filename files) as [file|] eqn:F.
  2: { apply Ok_inj in E as <-. split; [|done]. apply in_progress_seen; [done|].
       intros f Hf. apply N. intros ->. apply map_get_None in F. by apply F, (ip_requested _ _ _ I). }
  destruct (set_has filename (pendingFiles st)) eqn:S.
  2: { apply Ok_inj in E as <-. split; [|done]. apply in_progress_seen; [done|].
       intros f Hf. apply N. intros ->. by apply set_has_false in S. }
  apply set_has_spec in S. apply rbind_ok in E as (st1 & E1 & E). apply Ok_inj in E as <-.
  destruct (analyzeAndStore_ok _ _ _ _ _ _ E1 (ip_ready _ _ _ I) Hid)
    as (output & Hr & R & Hp & Hpend & O). cbn.
  split; [|by rewrite Hr; repeat split; [..|rewrite Hpend; intros f ?%elem_of_set_delete; tauto]].
  destruct I as [_ IP IN IR IU IK ID IA IO].
  constructor; cbn; rewrite ?Hp, ?Hpend, ?Hr; cbn.
  - done.
  - done.
  - by apply NoDup_set_delete.
  - intros f Hf. apply elem_of_set_delete in Hf as [Hf _]. by apply IR.
  - intros f Hf. apply elem_of_set_delete in Hf as [Hf Hne]. rewrite map_get_app, IU by done. by apply N.
  - by apply NoDup_map_set.
  - intros f. rewrite map_set_keys, elem_of_set_delete, ID.
    destruct (decide (f = filename)) as [->|]; [|naive_solver]. split; [|by left].
    intros _. split; [by apply IR|]. tauto.
  - done.
  - intros f out G. apply map_get_set_cases in G as [[-> ->]|[Hne G]].
    + exists file, (match id with
       | Some i => match getProgramById (programs_of st) i with Ok p => Some p | Throw _ => None end
       | None => None
       end, tsConfigs). split; [done|]. split; [|done].
      rewrite map_get_app, IU by done. cbn. by rewrite decide_True.
    + destruct (IO _ _ G) as (fl & h & Hfl & Hh & O'). exists fl, h. by rewrite map_get_app, Hh.
Qed.

Lemma rfold_analyzePending files tsConfigs id h filenames : forall seen st st',
  in_progress files seen st ->
  rfold (analyzePending readFile files tsConfigs id) filenames st = Ok st' ->
  (forall i, id = Some i -> i <> "" /\ exists p, getProgramById (programs_of st) i = Ok p) ->
  h = (match id with
       | Some i => match getProgramById (programs_of st) i with Ok p => Some p | Throw _ => None end
       | None => None
       end, tsConfigs) ->
  in_progress files (seen ++ map (fun f => (f, h)) filenames) st'
  /\ programs_of st' = programs_of st /\ r_programsCreated (results st') = r_programsCreated (results st).
Proof.
  induction filenames as [|f rest IH]; intros seen st st' I E Hid Hh; cbn in *.
  - apply Ok_inj in E as <-. by rewrite app_nil_r.
  - apply rbind_ok in E as (st1 & E1 & E).
    destruct (analyzePending_ok _ _ _ _ _ _ _ _ I E1 Hid Hh) as (I1 & P1 & C1 & _).
    rewrite cons_middle, (assoc_L (++)). rewrite <- P1 in Hid, Hh.
    destruct (IH _ _ _ I1 E Hid Hh) as (I2 & P2 & C2). split; [done|]. split; congruence.
Qed.

Lemma map_delete_set {V} (k : string) (v : V) m : k ∉ m.*1 -> map_delete k (map_set k v m) = m.
Proof.
  unfold map_delete. induction m as [|[j w] m IH]; cbn [map_set]; intros N.
  - by rewrite filter_cons_False by (cbn; tauto).
  - apply not_elem_of_cons in N as [Hne N]. rewrite decide_False by done.
    rewrite filter_cons_True by done. by rewrite IH.
Qed.

Lemma in_progress_programs files seen st ps :
  in_progress files seen st -> programs_ok ps -> in_progress files seen (set_programs ps st).
Proof. intros []. by constructor. Qed.

Lemma in_progress_created files seen st c :
  in_progress files seen st -> in_progress files seen (set_results (pushProgram c (results st)) st).
Proof. intros []. by constructor. Qed.

Lemma created_files_snoc cs c r :
  createProgram ts c None = Ok r ->
  created_files (cs ++ [c])
  = created_files cs ++ map (fun f => (f, (Some (program r), None))) (Programs.files r).
Proof. intros E. unfold created_files. rewrite flat_map_app. cbn. by rewrite E, app_nil_r. Qed.

Notation in_order files st :=
  (in_progress files (created_files (r_programsCreated (results st))) st).

(** A program with the programs it refers to: the files seen are the ones of the
    programs created, and the programs in memory are the ones there were. *)
Lemma analyzeProgram_ok files : forall fuel st c st',
  in_order files st -> analyzeProgram ts readFile fuel files st c = Ok st' ->
  in_order files st' /\ programs (programs_of st') = programs (programs_of st).
Proof.
  induction fuel as [|fuel IH]; intros st c st' I E; [done|]. cbn [analyzeProgram] in E.
  destruct (createAndSaveProgram ts (programs_of st) c) as [[ps [r id]]|e] eqn:S;
    [|by apply Ok_inj in E as <-].
  apply rbind_ok in E as (st1 & E1 & E).
  pose proof (createAndSaveProgram_ok _ _ _ _ _ _ S) as (Hc & Hid & Hps).
  assert (createProgram ts c None = Ok r) as Hr.
  { unfold createAndSaveProgram in S. apply rbind_ok in S as (r' & Hr & S). cbn in S. by simplify_eq. }
  pose proof (Created ts (fun _ => False) _ _ _ _ S) as S1.
  destruct (programs_ok_step _ _ _ _ (ip_programs _ _ _ I) S1) as [PO _].
  assert (id ∉ (programs (programs_of st)).*1) as F.
  { intros G. apply (ids_given _ (ip_programs _ _ _ I)) in G. subst id.
    by apply (next_not_given (programs_of st) ps) in G. }
  assert (getProgramById ps id = Ok (program r)) as G.
  { unfold getProgramById. by rewrite Hps, map_get_set_eq. }
  destruct (rfold_analyzePending files None (Some id) (Some (program r), None) (Programs.files r)
    (created_files (r_programsCreated (results st)))
    (set_results (pushProgram c (results st)) (set_programs ps st)) st1) as (I1 & P1 & C1).
  - apply (in_progress_created _ _ (set_programs ps st)). by apply in_progress_programs.
  - done.
  - intros i [= <-]. split; [|by eexists]. subst id. intros E0.
    destruct (stringify_start (JNum (programCount ps))) as (a & t & Ea & _). cbn in Ea.
    by rewrite E0 in Ea.
  - cbn. by rewrite G.
  - cbn in P1, C1. rewrite <- (created_files_snoc _ c r Hr), <- C1 in I1.
    set (st2 := set_programs _ _) in E.
    assert (in_order files st2 /\ programs (programs_of st2) = programs (programs_of st)) as [I2 P2].
    { split.
      - apply in_progress_programs; [done|]. rewrite P1.
        apply (programs_ok_step ts (fun _ => False) ps); [done|]. constructor. tauto.
      - cbn. rewrite P1, Hps. by apply map_delete_set. }
    clearbody st2. rewrite <- P2. clear - IH I2 E. revert st2 I2 E.
    induction (projectReferences r) as [|c rest IHr]; intros st2 I2 E; cbn in E.
    + by apply Ok_inj in E as <-.
    + apply rbind_ok in E as (st3 & E3 & E). destruct (IH _ _ _ I2 E3) as [I3 P3].
      destruct (IHr _ I3 E) as [I4 P4]. split; [done|congruence].
Qed.

Lemma analyzeWithProgram_ok fuel files : forall cs st st',
  in_order files st -> analyzeWithProgram ts readFile fuel files cs st = Ok st' ->
  in_order files st' /\ programs (programs_of st') = programs (programs_of st).
Proof.
  induction cs as [|c cs IH]; intros st st' I E; cbn in E.
  - by apply Ok_inj in E as <-.
  - apply rbind_ok in E as (st1 & E1 & E). destruct (analyzeProgram_ok _ _ _ _ _ I E1) as [I1 P1].
    destruct (pendingFiles st1).
    + by apply Ok_inj in E as <-.
    + destruct (IH _ _ I1 E) as [I2 P2]. split; [done|congruence].
Qed.

Lemma analyzeWithWatchProgram_ok files : forall cs seen st st',
  in_progress files seen st -> analyzeWithWatchProgram ts readFile files cs st = Ok st' ->
  in_progress files (seen ++ watched_files cs) st' /\ programs_of st' = programs_of st.
Proof.
  induction cs as [|c cs IH]; intros seen st st' I E; cbn in E |- *.
  - apply Ok_inj in E as <-. by rewrite app_nil_r.
  - destruct (createProgramOptions ts c None) as [o|e] eqn:Ho; [|done].
    apply rbind_ok in E as (st1 & E1 & E). rewrite (assoc_L (++)).
    destruct (rfold_analyzePending _ _ _ (None, Some [c]) _ _ _ _ I E1) as (I1 & P1 & _); [done|done|].
    destruct (pendingFiles st1) as [|f fs] eqn:F.
    + apply Ok_inj in E as <-. split; [|done]. apply in_progress_seen; [done|].
      rewrite F. by intros f ?%not_elem_of_nil.
    + destruct (IH _ _ _ I1 E) as [I2 P2]. split; [done|congruence].
Qed.

(** The files left are analysed without a program. *)
Lemma analyzeWithoutProgram_ok files : forall fs st st',
  analyzeWithoutProgram readFile fs files st = Ok st' ->
  ready (linters st) -> NoDup fs -> (forall f, f ∈ fs -> f ∉ (r_files (results st)).*1) ->
  programs_of st' = programs_of st
  /\ r_filesWithoutTypeChecking (results st') = r_filesWithoutTypeChecking (results st) ++ fs
  /\ r_programsCreated (results st') = r_programsCreated (results st)
  /\ (r_files (results st')).*1 = (r_files (results st)).*1 ++ fs
  /\ (forall f, f ∉ fs -> map_get f (r_files (results st')) = map_get f (r_files (results st)))
  /\ (forall f, f ∈ fs -> exists file output, map_get f files = Some file
        /\ map_get f (r_files (results st')) = Some output
        /\ output_with f file (None, None) output).
Proof.
  unfold analyzeWithoutProgram. induction fs as [|f fs IH]; intros st st' E R N F; cbn in E.
  - apply Ok_inj in E as <-. rewrite !app_nil_r. repeat split. by intros f ?%not_elem_of_nil.
  - apply rbind_ok in E as (st1 & E1 & E). unfold analyzeAlone in E1.
    destruct (map_get f files) as [file|] eqn:Hfile; [|done].
    apply analyzeAndStore_ok in E1 as (output & Hr & R1 & P1 & _ & O); [|done|done].
    apply NoDup_cons in N as [Nf N]. cbn in Hr, P1, O.
    assert ((r_files (results st1)).*1 = (r_files (results st)).*1 ++ [f]) as K1.
    { rewrite Hr. cbn. apply map_set_keys_notin, F. set_solver. }
    destruct (IH st1 st' E R1 N) as (P2 & W2 & C2 & K2 & G2 & A2).
    { intros g Hg. rewrite K1. intros [G|G]%elem_of_app; [by eapply F; [right|]|]. set_solver. }
    rewrite P2, W2, C2, K2, K1, Hr, P1. cbn. rewrite <- !(assoc_L (++)). repeat split.
    + intros g Hg. apply not_elem_of_cons in Hg as [Hne Hg]. rewrite G2, Hr by done. cbn.
      by apply map_get_set_ne.
    + intros g Hg. apply elem_of_cons in Hg as [->|Hg]; [|by apply A2].
      exists file, output. split; [done|]. split; [|done]. rewrite G2, Hr by done. apply map_get_set_eq.
Qed.

(** The state the analysis of a project starts from. *)
Lemma in_progress_start (l : L) ps meta files :
  ready l -> programs_ok ps -> NoDup files.*1 -> r_files meta = [] ->
  r_filesWithoutTypeChecking meta = [] -> in_progress files [] (mkState l ps meta files.*1).
Proof.
  intros R I N E A. constructor; cbn; rewrite ?E; try done.
  - constructor.
  - intros f. split; [by intros ?%not_elem_of_nil|tauto].
Qed.

End Spec.

(** ** Lemmas: the references between configurations *)

Section References.

Context {C Q P L : Type} `{FileAnalysis P L}.
Variable ts : TypeScript C Q P.
Variable readFile : string -> result string string.

(** [c] is the configuration of a program that refers to [d]. *)
Definition refers (c d : string) : Prop :=
  exists r, createProgram ts c None = Ok r /\ d ∈ projectReferences r.

Definition out_of_fuel {A} (r : result project_error A) : Prop := r = Throw ProjectOutOfFuel.

Lemma analyzePending_fuel files tsConfigs id (st : state P L) f :
  ~ out_of_fuel (analyzePending readFile files tsConfigs id st f).
Proof.
  unfold out_of_fuel, analyzePending, analyzeAndStore, file_content.
  repeat (case_match; simplify_eq/=; try done).
Qed.

Lemma rfold_fuel {A S} (f : S -> A -> result project_error S) l :
  (forall s x, x ∈ l -> ~ out_of_fuel (f s x)) -> forall s, ~ out_of_fuel (rfold f l s).
Proof.
  unfold out_of_fuel. induction l as [|x l IH]; intros F s; [done|]. cbn.
  destruct (f s x) as [s'|e] eqn:E; cbn.
  - apply IH. intros s1 y Hy. apply F. by right.
  - intros [= ->]. apply (F s x); [by left|done].
Qed.

Lemma createAndSaveProgram_created ps c ps' r id :
  createAndSaveProgram ts ps c = Ok (ps', (r, id)) -> createProgram ts c None = Ok r.
Proof.
  unfold createAndSaveProgram. rewrite rbind_ok. intros (r' & Hr & S). cbn in S. by simplify_eq.
Qed.

(** Fuel above the rank of a configuration is enough. *)
Lemma analyzeProgram_fuel (rank : string -> nat) files :
  (forall c d, refers c d -> (rank d < rank c)%nat) ->
  forall fuel c (st : state P L), (rank c < fuel)%nat ->
    ~ out_of_fuel (analyzeProgram ts readFile fuel files st c).
Proof.
  intros R. induction fuel as [|fuel IH]; intros c st Hf; [lia|]. cbn [analyzeProgram].
  destruct (createAndSaveProgram _ _ _) as [[ps [r id]]|e] eqn:S; [|done].
  apply createAndSaveProgram_created in S. set (st1 := set_results _ _).
  pose proof (rfold_fuel (analyzePending readFile files None (Some id)) (Programs.files r)
    (fun s x _ => analyzePending_fuel _ _ _ _ _) st1) as F.
  destruct (rfold _ _ st1) as [st2|e]; cbn; [|by intros [= ->]; apply F].
  apply rfold_fuel. intros s d Hd. apply IH. assert (rank d < rank c)%nat; [|lia].
  apply R. by exists r.
Qed.

Lemma analyzeWithProgram_fuel (rank : string -> nat) fuel files cs :
  (forall c d, refers c d -> (rank d < rank c)%nat) -> (forall c, c ∈ cs -> (rank c < fuel)%nat) ->
  forall st : state P L, ~ out_of_fuel (analyzeWithProgram ts readFile fuel files cs st).
Proof.
  intros R. induction cs as [|c cs IH]; intros Hf st; [done|]. cbn.
  pose proof (analyzeProgram_fuel rank files R fuel c st (Hf c ltac:(by left))) as F.
  destruct (analyzeProgram _ _ _ _ st c) as [st1|e]; cbn; [|by intros [= ->]; apply F].
  case_match; [done|]. apply IH. intros d Hd. apply Hf. by right.
Qed.

Lemma analyzeWithWatchProgram_fuel files cs : forall st : state P L,
  ~ out_of_fuel (analyzeWithWatchProgram ts readFile files cs st).
Proof.
  induction cs as [|c cs IH]; intros st; [done|]. cbn. case_match; [|done].
  pose proof (rfold_fuel (analyzePending readFile files (Some [c]) None) (rootNames a)
    (fun s x _ => analyzePending_fuel _ _ _ _ _) st) as F.
  destruct (rfold _ _ st) as [st1|e]; cbn; [|by intros [= ->]; apply F].
  case_match; [done|]. apply IH.
Qed.

Lemma analyzeWithoutProgram_fuel files fs (st : state P L) :
  ~ out_of_fuel (analyzeWithoutProgram readFile fs files st).
Proof.
  apply rfold_fuel. intros s f _. unfold out_of_fuel, analyzeAlone, analyzeAndStore, file_content.
  repeat (case_match; simplify_eq/=; try done).
Qed.

(** Files whose contents are in the input are read without failing. *)
Definition all_contents (files : JsTsFiles) : Prop :=
  forall f file, map_get f files = Some file -> f_fileContent file <> None.

Lemma rfold_pending_runs files tsConfigs id fs :
  all_contents files -> forall st : state P L,
  exists st', rfold (analyzePending readFile files tsConfigs id) fs st = Ok st'.
Proof.
  intros A. induction fs as [|f fs IH]; intros st; [by eexists|]. cbn.
  assert (exists st1, analyzePending readFile files tsConfigs id st f = Ok st1) as [st1 ->].
  { unfold analyzePending, analyzeAndStore, file_content.
    destruct (map_get f files) as [file|] eqn:F; [|by eexists]. pose proof (A _ _ F).
    case_match; [|by eexists]. destruct (f_fileContent file); [|done]. cbn.
    destruct (analyzeFile st _ _). by eexists. }
  apply IH.
Qed.

(** What the analysis of a program can give when nothing is read from disk. *)
Lemma analyzeProgram_runs files fuel :
  all_contents files -> forall c (st : state P L),
  out_of_fuel (analyzeProgram ts readFile fuel files st c)
  \/ exists st', analyzeProgram ts readFile fuel files st c = Ok st'.
Proof.
  intros A. induction fuel as [|fuel IH]; intros c st; [by left|]. cbn [analyzeProgram].
  destruct (createAndSaveProgram _ _ _) as [[ps [r id]]|e]; [|right; by eexists].
  set (st1 := set_results _ _).
  destruct (rfold_pending_runs files None (Some id) (Programs.files r) A st1) as [st2 ->]. cbn.
  generalize (set_programs (deleteProgram (programs_of st2) id) st2).
  induction (projectReferences r) as [|d ds IHd]; intros st3; [right; by eexists|]. cbn.
  destruct (IH d st3) as [->|[st4 ->]]; [by left|]. apply IHd.
Qed.

(** Configurations that refer to each other in a circle exhaust any fuel. *)
Lemma analyzeProgram_circular (circle : string -> Prop) files :
  all_contents files -> (forall c, circle c -> exists d, circle d /\ refers c d) ->
  forall fuel c (st : state P L), circle c ->
    out_of_fuel (analyzeProgram ts readFile fuel files st c).
Proof.
  intros A R. induction fuel as [|fuel IH]; intros c st Hc; [done|]. cbn [analyzeProgram].
  destruct (R c Hc) as (d & Hd & r & Hr & Hin).
  unfold createAndSaveProgram. rewrite Hr. cbn [rbind nextId].
  set (id := print_int _). set (st1 := set_results _ _).
  destruct (rfold_pending_runs files None (Some id) (Programs.files r) A st1) as [st2 ->]. cbn [rbind].
  generalize (set_programs (deleteProgram (programs_of st2) id) st2).
  induction (projectReferences r) as [|e es IHe]; [by apply not_elem_of_nil in Hin|]. intros st3. cbn.
  apply elem_of_cons in Hin as [<-|Hin]; [by rewrite IH|].
  destruct (analyzeProgram_runs files fuel A e st3) as [->|[st4 ->]]; [done|]. by apply IHe.
Qed.

End References.

(** ** The implementation of the interface by [Analyzer] *)

Section Implementation.

Context {P : Type}.
Variable parseForESLint : string -> Parser -> ParserOptions P -> result (option Z * string) SourceCode.
Variable encode : pvalue -> result string (list Byte.byte).
Variable verify : SourceCode -> string -> LinterConfig -> FileType -> list LintMessage.
Variable environment_globals : string -> option (list (string * bool)).
Variable error_of : config_error -> string * string.
Variable ctx : Context_.
Variable rules : RuleModules.
Variable o : WrapperOptions.

Notation analyzeJSTS := (Analyzer.analyzeJSTS parseForESLint encode verify environment_globals error_of
                           (Some ctx) rules).
Notation build := (Analyzer.build parseForESLint (Some ctx)).

(** The default linter is initialised. *)
Definition default_linter_ready (linters : Linters) : Prop :=
  exists w, map_get "default" linters = Some w /\ wrapper_ok environment_globals ctx rules o w.

(** The analysis of a file by a linter with the rules selected for the file. *)
Definition lint_output (input : JsTsAnalysisInput) (sc : SourceCode)
  : result exn JsTsAnalysisOutput :=
  let key := mkKey (default JS (i_language input)) (i_fileType input) in
  match createLinterConfig environment_globals ctx (rules_for key (inputRules o)) rules
          (environments o) (globals o) with
  | Throw e => Throw (rethrow (error_of e))
  | Ok c =>
      match transformMessages
              (fun i => let p := sc_getLocFromIndex sc i in (line p, column p))
              (fun k => m ← map_get k rules; m)
              (verify sc (filePath input) c (i_fileType input)) with
      | Throw e => Throw (rethrow (error_of (LintFailed e)))
      | Ok r =>
          Ok (mkOutput None (issues r) (Some (ucfgPaths r))
                (computeExtendedMetrics (Some ctx) input sc (Issues.highlightedSymbols r)
                   (Issues.cognitiveComplexity r))
                (if skipAst input then None else serializeAst encode sc))
      end
  end.

Definition reference_analysis (program : option P) (input : JsTsAnalysisInput) (language : JsTsLanguage)
  : result exn JsTsAnalysisOutput :=
  let! sc :=
    match program with
    | Some p => build (mkPrograms [("1", p)] 1) (with_program "1" input) language
    | None => build no_programs input language
    end in
  lint_output input sc.

Lemma build_program ps input language id p :
  id <> "" -> getProgramById ps id = Ok p ->
  build ps (with_program id input) language
  = build (mkPrograms [("1", p)] 1) (with_program "1" input) language.
Proof.
  intros Hid Hp.
  assert (inputPrograms ps (with_program id input)
          = inputPrograms (mkPrograms [("1", p)] 1) (with_program "1" input)) as E.
  { unfold inputPrograms. cbn. destruct (id =s "") eqn:S; split_bools; [done|]. by rewrite Hp. }
  unfold Analyzer.build. rewrite E. done.
Qed.

Lemma build_no_program ps input language :
  programId input = None -> build ps input language = build no_programs input language.
Proof.
  intros E. assert (inputPrograms ps input = inputPrograms no_programs input) as E'.
  { unfold inputPrograms. by rewrite E. }
  unfold Analyzer.build. by rewrite E'.
Qed.

Lemma analyzeFile_reference w input sc :
  wrapper_ok environment_globals ctx rules o w ->
  exists w', Analyzer.analyzeFile encode verify environment_globals error_of (Some ctx) rules w input sc
             = (w', lint_output input sc)
    /\ wrapper_ok environment_globals ctx rules o w'.
Proof.
  intros W. unfold Analyzer.analyzeFile, lint, lint_output.
  change (default _ (Some ctx)) with ctx.
  destruct (choose_ok _ _ _ _ w (i_fileType input) (default JS (i_language input)) W)
    as (w' & c & -> & W' & ->). cbn [rbind]. exists w'. split; [|done].
  by destruct (transformMessages _ _ _).
Qed.

Lemma analyzeJSTS_reference linters ps input language :
  default_linter_ready linters -> linterId input = None ->
  (analyzeJSTS linters ps input language).2
  = (let! sc := build ps input language in lint_output input sc)
  /\ default_linter_ready (analyzeJSTS linters ps input language).1.
Proof.
  intros (w & Hw & W) Hid. unfold Analyzer.analyzeJSTS, getLinter. rewrite Hid.
  change (default "default" None) with "default".
  rewrite Hw. destruct (build ps input language) as [sc|e]; cbn [rbind]; [|by split; [|exists w]].
  destruct (analyzeFile_reference w input sc W) as (w' & -> & W'). split; [done|].
  exists w'. split; [apply map_get_set_eq|done].
Qed.

#[export] Program Instance analyzer : FileAnalysis P Linters := {|
  analyze := analyzeJSTS;
  ready := default_linter_ready;
  analysis_of := reference_analysis |}.
Next Obligation. intros l ps input lang R E. by apply analyzeJSTS_reference. Qed.
Next Obligation.
  intros l ps input lang id p R E Hid Hp. rewrite (proj1 (analyzeJSTS_reference _ _ (with_program id input) _ R E)).
  rewrite (build_program _ _ _ _ p) by done. done.
Qed.
Next Obligation.
  intros l ps input lang R E Hid. rewrite (proj1 (analyzeJSTS_reference _ _ _ _ R E)).
  by rewrite build_no_program.
Qed.

(** A linter initialised with success is ready. *)
Lemma initializeLinter_ready import_bundle linters rules0 linters' :
  initializeLinter environment_globals import_bundle ctx rules0 linters o "default"
    = (rules, linters', Ok tt) ->
  default_linter_ready linters'.
Proof.
  unfold initializeLinter. destruct (init _ _ _ _ _) as [[rules' w] r] eqn:E. intros G.
  simplify_eq. exists w. split; [apply map_get_set_eq|]. by eapply init_ok.
Qed.

End Implementation.

(** ** Properties *)

(** C17: the analysis of a project. When it ends, each requested file has exactly
    one output, in SonarLint or not: the one of the first program created that has
    it (or, in SonarLint, of the first configuration), and the files that are in no
    program, and only they, are listed and analysed alone. The programs in memory
    are the ones there were before. *)
Theorem project_files_analyzed_once {C Q P L} `{FileAnalysis P L} (ts : TypeScript C Q P) readFile
    initializeLinter searchTsConfigs writeTSConfigFile fuel l ps input l' ps' r :
  (forall rules environments globals baseDir l l1,
     initializeLinter rules environments globals baseDir l = Ok l1 -> ready l1) ->
  NoDup (p_files input).*1 -> programs_ok ps ->
  analyzeProject ts readFile initializeLinter searchTsConfigs writeTSConfigFile fuel l ps input
    = Ok (l', ps', r) ->
  let seen :=
    if p_isSonarlint input
    then watched_files ts (getTSConfigsIterator writeTSConfigFile
           (Some (searchTsConfigs (p_baseDir input) (p_exclusions input))) (p_files input).*1
           (toUnixPath (p_baseDir input)) true (p_maxFilesForTypeChecking input))
    else created_files ts (r_programsCreated r) in
  (r_files r).*1 ≡ₚ (p_files input).*1
  /\ programs ps' = programs ps
  /\ forall f file, (f, file) ∈ p_files input -> exists output,
       map_get f (r_files r) = Some output
       /\ output_with readFile f file (default (None, None) (map_get f seen)) output
       /\ (f ∈ r_filesWithoutTypeChecking r <-> map_get f seen = None).
Proof.
  intros HI N PO E. unfold analyzeProject in E.
  destruct (p_files input).*1 as [|f0 fs0] eqn:Ef.
  { intros seen. apply Ok_inj in E. simplify_eq/=. split; [done|]. split; [done|].
    intros f file Hf. exfalso. apply (not_elem_of_nil f). rewrite <- Ef.
    apply list_elem_of_fmap. by exists (f, file). }
  rewrite <- Ef in *. clear Ef. intros seen.
  destruct (initializeLinter _ _ _ _ l) as [l1|e] eqn:El; [|done]. apply HI in El.
  apply rbind_ok in E as (st & Est & E). apply rbind_ok in E as (st2 & E2 & E). apply Ok_inj in E.
  set (cs := getTSConfigsIterator _ _ _ _ _ _) in Est.
  set (meta := mkProjectOutput _ _ _ _ _) in Est.
  pose proof (in_progress_start readFile l1 ps meta (p_files input) El PO N eq_refl eq_refl) as I0.
  assert (in_progress readFile (p_files input) (if p_isSonarlint input then watched_files ts cs
            else created_files ts (r_programsCreated (results st))) st
          /\ programs (programs_of st) = programs ps) as [I Hps].
  { destruct (p_isSonarlint input).
    - destruct (analyzeWithWatchProgram_ok _ _ _ _ _ _ _ I0 Est) as [I Hp]. split; [exact I|by rewrite Hp].
    - destruct (analyzeWithProgram_ok ts readFile _ _ _ (mkState l1 ps meta _) _ I0 Est) as [I Hp].
      split; [exact I|by rewrite Hp]. }
  destruct (analyzeWithoutProgram_ok _ _ _ _ _ E2 (ip_ready _ _ _ _ I) (ip_pending _ _ _ _ I))
    as (P2 & W2 & C2 & K2 & G2 & A2).
  { intros f Hf G. apply (ip_done _ _ _ _ I) in G. tauto. }
  rewrite (ip_alone _ _ _ _ I) in W2. cbn in W2. injection E as <- <- <-.
  assert (seen = if p_isSonarlint input then watched_files ts cs
            else created_files ts (r_programsCreated (results st))) as ->.
  { unfold seen, cs. rewrite C2. by destruct (p_isSonarlint input). }
  rewrite P2, W2, K2. destruct I as [_ _ IN IR IU IK ID _ IO]. split; [|split; [done|]].
  - apply NoDup_Permutation; [|done|].
    + apply NoDup_app. split; [done|]. split; [|done]. intros f G. apply ID in G. tauto.
    + intros f. rewrite elem_of_app, ID. destruct (decide (f ∈ pendingFiles st)); naive_solver.
  - intros f file Hf. apply (elem_map_get f file _ N) in Hf as Gf.
    destruct (decide (f ∈ pendingFiles st)) as [Hp|Hp].
    + destruct (A2 f Hp) as (file' & output & Hfile & G & O). exists output. split; [done|].
      rewrite (IU f Hp). simplify_eq. split; [exact O|tauto].
    + assert (f ∈ (r_files (results st)).*1) as K.
      { apply ID. split; [|done]. apply list_elem_of_fmap. by exists (f, file). }
      apply list_elem_of_fmap in K as ([f' output] & -> & K). cbn in *.
      apply (elem_map_get _ _ _ IK) in K. destruct (IO _ _ K) as (file' & h & Hfile & Hh & O).
      exists output. rewrite G2 by done. split; [done|]. rewrite Hh. simplify_eq.
      split; [exact O|]. split; [tauto|done].
Qed.

(** C19: the analysis of a project ends. When no configuration refers to itself,
    through others or not (the references decrease a rank), some fuel is enough for
    the programs of all the configurations, and so is any larger one. *)
Theorem project_analysis_ends {C Q P L} `{FileAnalysis P L} (ts : TypeScript C Q P) readFile
    initializeLinter searchTsConfigs writeTSConfigFile l ps input (rank : string -> nat) :
  (forall c d, refers ts c d -> (rank d < rank c)%nat) ->
  exists fuel0, forall fuel, (fuel0 <= fuel)%nat ->
    analyzeProject ts readFile initializeLinter searchTsConfigs writeTSConfigFile fuel l ps input
    <> Throw ProjectOutOfFuel.
Proof.
  intros R. unfold analyzeProject. set (cs := getTSConfigsIterator _ _ _ _ _ _).
  exists (S (sum_list_with rank cs)). intros fuel Hf. destruct (p_files input).*1; [done|].
  destruct (initializeLinter _ _ _ _ l) as [l1|e]; [|done].
  set (st := mkState _ _ _ _).
  assert (forall r, ~ out_of_fuel r ->
    (let! st := r in let! st := analyzeWithoutProgram readFile (pendingFiles st) (p_files input) st in
     Ok (linters st, programs_of st, results st)) <> Throw ProjectOutOfFuel) as K.
  { intros [st1|e] N; cbn; [|by intros [= ->]].
    pose proof (analyzeWithoutProgram_fuel readFile (p_files input) (pendingFiles st1) st1) as F.
    destruct (analyzeWithoutProgram _ _ _ _) as [st2|e]; cbn; [done|]. intros [= ->]. by apply F. }
  apply K. destruct (p_isSonarlint input); [apply analyzeWithWatchProgram_fuel|].
  apply (analyzeWithProgram_fuel _ _ rank); [done|]. intros c Hc.
  pose proof (sum_list_with_elem rank cs c Hc). lia.
Qed.

(** C20: configurations that refer to each other in a circle. The programs of a
    project are created for the references of each program again, also when no
    file is pending: outside of SonarLint, a project whose first configuration is
    on a circle of references is never analysed, whatever its files. *)
Theorem circular_references_never_end {C Q P L} `{FileAnalysis P L} (ts : TypeScript C Q P) readFile
    initializeLinter searchTsConfigs writeTSConfigFile l ps input (circle : string -> Prop) c cs l1 :
  p_isSonarlint input = false -> p_files input <> [] -> all_contents (p_files input) ->
  initializeLinter (p_rules input) (default DEFAULT_ENVIRONMENTS (p_environments input))
    (default DEFAULT_GLOBALS (p_globals input)) (p_baseDir input) l = Ok l1 ->
  flat_map snd (searchTsConfigs (p_baseDir input) (p_exclusions input)) = c :: cs ->
  circle c -> (forall c, circle c -> exists d, circle d /\ refers ts c d) ->
  forall fuel,
    analyzeProject ts readFile initializeLinter searchTsConfigs writeTSConfigFile fuel l ps input
    = Throw ProjectOutOfFuel.
Proof.
  intros Hs Hf A Hl Hcs Hc R fuel. unfold analyzeProject. rewrite Hs, Hl.
  destruct (p_files input).*1 eqn:E; [by apply fmap_nil_inv in E|].
  unfold getTSConfigsIterator. change (default [] (Some ?x)) with x. rewrite Hcs. cbn.
  by rewrite (analyzeProgram_circular ts readFile circle).
Qed.

(** ** Witnesses *)

(** An analysis whose output lists the file and the program. *)
Definition echo (program : option (list string)) (input : JsTsAnalysisInput) (_ : JsTsLanguage)
  : result exn JsTsAnalysisOutput :=
  Ok (mkOutput None [] (Some (filePath input :: default [] program))
        (mkExtended None None (NoSonar []) None) None).

#[local] Program Instance echo_analysis : FileAnalysis (list string) unit := {|
  analyze l ps input lang :=
    (tt, echo (id ← programId input;
               if id =s "" then None
               else match getProgramById ps id with Ok p => Some p | Throw _ => None end) input lang);
  ready l := True;
  analysis_of := echo |}.
Next Obligation. done. Qed.
Next Obligation.
  intros l ps input lang id p _ _ Hid Hp. cbn. destruct (id =s "") eqn:E; split_bools; [done|].
  by rewrite Hp.
Qed.
Next Obligation. intros l ps input lang _ _ E. cbn. by rewrite E. Qed.

Definition some_file : JsTsFile := mkFile (Some "x") MAIN None.

Definition some_project : ProjectAnalysisInput :=
  mkProjectInput [("/p/a.ts", some_file); ("/p/b.js", some_file)] [] None None "/p" [] false None.

(** A directory with one configuration. *)
Definition search (baseDir : string) (_ : list string) : list (string * list string) :=
  [(baseDir, [baseDir +:+ "/tsconfig.json"])].

Definition no_linter (_ : list RuleConfig) (_ _ : list string) (_ : string) (l : unit)
  : result string unit := Ok l.

Lemma project_files_analyzed_once_witness :
  exists l' ps' r,
    analyzeProject some_typescript (fun _ => Throw "") no_linter search (fun _ => "") 5 tt no_programs
      some_project = Ok (l', ps', r)
    /\ (r_files r).*1 ≡ₚ ["/p/a.ts"; "/p/b.js"]
    /\ programs ps' = []
    /\ r_filesWithoutTypeChecking r = ["/p/b.js"].
Proof.
  destruct (analyzeProject some_typescript (fun _ => Throw "") no_linter search (fun _ => "") 5 tt
    no_programs some_project) as [[[l' ps'] r]|e] eqn:E; [|by vm_compute in E].
  destruct (project_files_analyzed_once some_typescript (fun _ => Throw "") no_linter search
    (fun _ => "") 5 tt no_programs some_project l' ps' r) as (K & Hps & _).
  - done.
  - apply (bool_decide_unpack _). by vm_compute.
  - apply no_programs_ok.
  - exact E.
  - exists l', ps', r. split; [done|]. split; [exact K|]. split; [exact Hps|].
    vm_compute in E. by simplify_eq.
Defined.

Lemma project_analysis_ends_witness :
  exists fuel0, forall fuel, (fuel0 <= fuel)%nat ->
    analyzeProject some_typescript (fun _ => Throw "") no_linter search (fun _ => "") fuel tt no_programs
      some_project <> Throw ProjectOutOfFuel.
Proof.
  apply (project_analysis_ends _ _ _ _ _ _ _ _ (fun _ => 0%nat)).
  intros c d (r & Hr & Hd). exfalso. unfold createProgram in Hr. cbn in Hr.
  destruct (createProgramOptions _ _ _); [|done]. apply Ok_inj in Hr as <-. by apply not_elem_of_nil in Hd.
Defined.

(** A compiler for which each program refers to the other of two configurations. *)
Definition circular_typescript : TypeScript string unit (list string) :=
  mkTypeScript (readConfigFile some_typescript)
    (fun config dir tsConfig =>
       Done (mkParsed [if tsConfig =s "/p/tsconfig.json" then "/q" else "/p"] tt None []))
    (fun o => o) rootNames
    (fun p => Some (map (fun dir => dir +:+ "/tsconfig.json") p))
    (fun p => p) (fun _ => true) (fun _ => Some "{}") (fun _ => Ok "{}") (fun _ => Some false).

Lemma circular_references_never_end_witness :
  analyzeProject circular_typescript (fun _ => Throw "") no_linter search (fun _ => "") 1000 tt
    no_programs some_project = Throw ProjectOutOfFuel.
Proof.
  apply (circular_references_never_end _ _ _ _ _ _ _ _
    (fun c => c = "/p/tsconfig.json" \/ c = "/q/tsconfig.json") "/p/tsconfig.json" [] tt); [..|intros c [-> | ->]].
  - reflexivity.
  - discriminate.
  - intros f file E. apply map_get_Some_elem in E. apply elem_of_cons in E as [E|E];
      [by simplify_eq|]. apply list_elem_of_singleton in E. by simplify_eq.
  - reflexivity.
  - reflexivity.
  - by left.
  - exists "/q/tsconfig.json". split; [by right|]. eexists. split; [by vm_compute|].
    apply list_elem_of_singleton. reflexivity.
  - exists "/p/tsconfig.json". split; [by left|]. eexists. split; [by vm_compute|].
    apply list_elem_of_singleton. reflexivity.
Defined.
