(* ===== verification/Bridge.v ===== *)
(** * Bridge: the server between the plugin and the analyzers

    The code of [packages/bridge/src]: the requests and their dispatch
    ([router.ts], [handle-request.ts], [request.ts], [errors]), and the server with
    its worker thread and its timeout ([server.ts], [delegate.ts], [worker.ts],
    [timeout]) as a transition system: a step is one callback of an event loop or
    an event of the environment. Messages between the threads and the turns of the
    event loops take no time; handlers, the network and the client do. *)

From Stdlib Require Import ZArith Lia Ascii.
From stdpp Require Import base list sets strings relations.
From S2P Require Import Prelude JsString Json Metrics LinterConfig Programs Analyzer Projects.

Open Scope js_scope.

(** ** Requests *)

Inductive RequestType :=
| on_init_linter | on_analyze_js | on_analyze_ts | on_analyze_with_program | on_create_program
| on_delete_program | on_create_tsconfig_file | on_new_tsconfig | on_tsconfig_files
| on_analyze_css | on_analyze_yaml | on_analyze_html | on_analyze_project | on_get_telemetry.

#[export] Instance RequestType_eq_dec : EqDecision RequestType.
Proof. solve_decision. Defined.

(** The endpoints of [router.ts] that run on the worker. *)
Definition router : list (string * RequestType) :=
  [("/analyze-project", on_analyze_project); ("/analyze-css", on_analyze_css);
   ("/analyze-js", on_analyze_js); ("/analyze-html", on_analyze_html);
   ("/analyze-ts", on_analyze_ts); ("/analyze-with-program", on_analyze_with_program);
   ("/analyze-yaml", on_analyze_yaml); ("/create-program", on_create_program);
   ("/create-tsconfig-file", on_create_tsconfig_file); ("/delete-program", on_delete_program);
   ("/init-linter", on_init_linter); ("/new-tsconfig", on_new_tsconfig);
   ("/tsconfig-files", on_tsconfig_files); ("/get-telemetry", on_get_telemetry)].

(** What [serializeError] keeps of an error. *)
Record SerializedError := mkSerialized {
  s_code : ErrorCode; s_message : string; s_stack : option string; s_line : option Z }.

Definition serializeError (err : exn) : SerializedError :=
  match err with
  | APIError code message line => mkSerialized code message None line
  | Error message stack => mkSerialized Unexpected message (Some stack) None
  end.

Inductive RequestResult (R : Type) :=
| success (result : R)
| failure (error : SerializedError).
Arguments success {R} result.
Arguments failure {R} error.

(** The body of a response: a result, a form with a tree and the rest of a result,
    one of the objects for an error, or none. *)
Inductive Response (R : Type) :=
| SendResult (result : R)
| SendForm (ast : list Byte.byte) (rest : R)
| SendParsingError (output : JsTsAnalysisOutput)
| SendErrorObject (message : string) (code : ErrorCode)
| SendError (message : string)
| SendOK
| End_.
Arguments SendResult {R} result.
Arguments SendForm {R} ast rest.
Arguments SendParsingError {R} output.
Arguments SendErrorObject {R} message code.
Arguments SendError {R} message.
Arguments SendOK {R}.
Arguments End_ {R}.

Definition errorMiddleware {R} (err : SerializedError) : Response R :=
  match s_code err with
  | Parsing => SendParsingError (parseParsingError (APIError Parsing (s_message err) (s_line err)))
  | FailingTypeScript | LinterInitialization => SendErrorObject (s_message err) (s_code err)
  | Unexpected => SendError (s_message err)
  end.

(** [splitAst] is a tree and the rest of a result, for a result that has a tree. *)
Definition handleResult {R} (splitAst : R -> option (list Byte.byte * R)) (message : RequestResult R)
  : Response R :=
  match message with
  | success result =>
      match splitAst result with
      | Some (ast, rest) => SendForm ast rest
      | None => SendResult result
      end
  | failure error => errorMiddleware error
  end.

(** ** The dispatch of a request *)

Section HandleRequest.

(** The state of the analyzers, the data and the results of requests. *)
Context {W Data R : Type}.

(** The operations of the analyzers: the state after, and a result or what is thrown. *)
Record Handlers := mkHandlers {
  h_initializeLinter : W -> Data -> W * result exn R;
  h_readFileLazily : Data -> result exn Data;
  h_analyzeJSTS : W -> Data -> JsTsLanguage -> W * result exn R;
  h_createAndSaveProgram : W -> Data -> W * result exn R;
  h_deleteProgram : W -> Data -> W * result exn R;
  h_writeTSConfigFile : W -> Data -> W * result exn R;
  h_clearTypeScriptESLintParserCaches : W -> W * result exn R;
  h_createProgramOptions : W -> Data -> W * result exn R;
  h_analyzeCSS : W -> Data -> W * result exn R;
  h_analyzeYAML : W -> Data -> W * result exn R;
  h_analyzeHTML : W -> Data -> W * result exn R;
  h_analyzeProject : W -> Data -> W * result exn R;
  h_getTelemetry : W -> W * result exn R }.

Variable h : Handlers.

(** An analysis of the file read, when it can be. *)
Definition after_reading (w : W) (data : Data) (analysis : W -> Data -> W * result exn R)
  : W * result exn R :=
  match h_readFileLazily h data with
  | Ok data => analysis w data
  | Throw e => (w, Throw e)
  end.

Definition dispatch (w : W) (type : RequestType) (data : Data) : W * result exn R :=
  match type with
  | on_init_linter => h_initializeLinter h w data
  | on_analyze_js => after_reading w data (fun w data => h_analyzeJSTS h w data JS)
  | on_analyze_ts | on_analyze_with_program =>
      after_reading w data (fun w data => h_analyzeJSTS h w data TS)
  | on_create_program => h_createAndSaveProgram h w data
  | on_delete_program => h_deleteProgram h w data
  | on_create_tsconfig_file => h_writeTSConfigFile h w data
  | on_new_tsconfig => h_clearTypeScriptESLintParserCaches h w
  | on_tsconfig_files => h_createProgramOptions h w data
  | on_analyze_css => after_reading w data (h_analyzeCSS h)
  | on_analyze_yaml => after_reading w data (h_analyzeYAML h)
  | on_analyze_html => after_reading w data (h_analyzeHTML h)
  | on_analyze_project => h_analyzeProject h w data
  | on_get_telemetry => h_getTelemetry h w
  end.

Definition handleRequest (w : W) (type : RequestType) (data : Data) : W * RequestResult R :=
  let (w, r) := dispatch w type data in
  (w, match r with Ok result => success result | Throw err => failure (serializeError err) end).

End HandleRequest.

Arguments Handlers W Data R : clear implicits.

(** ** The server *)

Section Server.

Context {W Data R : Type}.
Variable handle : W -> RequestType -> Data -> W * RequestResult R.
Variable splitAst : R -> option (list Byte.byte * R).
(** Whether [start] is given a worker, and the delay of the timeout in ms. *)
Variable has_worker : bool.
Variable delay : nat.

Definition request_id := nat.

(** A request posted to the worker. Messages have no identifier in the code: this
    one only serves to state properties, no operation reads it. *)
Inductive worker_message :=
| Request (id : request_id) (type : RequestType) (data : Data)
| Close.

Inductive worker_status := Alive | Closed | Exited.

#[export] Instance worker_status_eq_dec : EqDecision worker_status.
Proof. solve_decision. Defined.

Record server := mkServer {
  now : nat;
  (** Node's timers that are pending, with their times, and the number of timers set *)
  timers : list (nat * nat);
  handles : nat;
  (** [Timeout.timeout], [cancelled] and the responses with a handler of [finish] *)
  timeout : option nat;
  cancelled : bool;
  onFinish : list request_id;
  (** the handlers of the next message of the worker *)
  listeners : list request_id;
  (** the worker: its messages, the requests it handles, its answers *)
  inbox : list worker_message;
  running : list (request_id * RequestType * Data);
  outbox : list (request_id * RequestResult R);
  analyzers : W;
  worker : worker_status;
  (** the results of the requests handled so far *)
  settled : list (request_id * RequestResult R);
  (** the HTTP requests, with the ones for the worker, the responses, the ones sent,
      and the connections lost *)
  known : list (request_id * option (RequestType * Data));
  responses : list (request_id * Response R);
  finished : list request_id;
  lost : list request_id;
  pendingCloseRequests : list request_id;
  listening : bool;
  serverClosed : bool }.

(** *** [Timeout] *)

Definition set_timer (handles : nat) (timers : list (nat * nat)) (timeout : option nat) (st : server)
  : server :=
  mkServer (now st) timers handles timeout (cancelled st) (onFinish st) (listeners st) (inbox st)
    (running st) (outbox st) (analyzers st) (worker st) (settled st) (known st) (responses st)
    (finished st) (lost st) (pendingCloseRequests st) (listening st) (serverClosed st).

(** [clearTimeout] *)
Definition clear_timer (h : nat) (timers : list (nat * nat)) : list (nat * nat) :=
  filter (fun t => t.1 <> h) timers.

Definition stop (st : server) : server :=
  match timeout st with
  | Some h => set_timer (handles st) (clear_timer h (timers st)) None st
  | None => st
  end.

Definition start (st : server) : server :=
  let st := stop st in
  set_timer (S (handles st)) (timers st ++ [(handles st, (now st + delay)%nat)]) (Some (handles st)) st.

(** *** Middlewares and handlers *)

Definition set_http (onFinish listeners : list request_id)
    (known : list (request_id * option (RequestType * Data)))
    (responses : list (request_id * Response R)) (pending : list request_id) (st : server) : server :=
  mkServer (now st) (timers st) (handles st) (timeout st) (cancelled st) onFinish listeners (inbox st)
    (running st) (outbox st) (analyzers st) (worker st) (settled st) known responses
    (finished st) (lost st) pending (listening st) (serverClosed st).

(** The middleware of the timeout, on a request just received. *)
Definition middleware (id : request_id) (request : option (RequestType * Data)) (st : server)
  : server :=
  let st := set_http (onFinish st) (listeners st) (known st ++ [(id, request)]) (responses st)
              (pendingCloseRequests st) st in
  if cancelled st then st
  else
    let st := stop st in
    set_http (onFinish st ++ [id]) (listeners st) (known st) (responses st) (pendingCloseRequests st) st.

(** [response.send], [response.json] and the like *)
Definition respond (id : request_id) (r : Response R) (st : server) : server :=
  set_http (onFinish st) (listeners st) (known st) (responses st ++ [(id, r)])
    (pendingCloseRequests st) st.

Definition set_worker (inbox : list worker_message) (running : list (request_id * RequestType * Data))
    (outbox : list (request_id * RequestResult R)) (w : W) (status : worker_status)
    (settled : list (request_id * RequestResult R)) (st : server) : server :=
  mkServer (now st) (timers st) (handles st) (timeout st) (cancelled st) (onFinish st) (listeners st)
    inbox running outbox w status settled (known st) (responses st)
    (finished st) (lost st) (pendingCloseRequests st) (listening st) (serverClosed st).

(** [worker.postMessage] *)
Definition postMessage (m : worker_message) (st : server) : server :=
  set_worker (inbox st ++ [m]) (running st) (outbox st) (analyzers st) (worker st) (settled st) st.

(** [createWorkerHandler] and [createHandler] *)
Definition delegate (id : request_id) (type : RequestType) (data : Data) (st : server) : server :=
  if has_worker then
    let st := set_http (onFinish st) (listeners st ++ [id]) (known st) (responses st)
                (pendingCloseRequests st) st in
    postMessage (Request id type data) st
  else
    set_worker (inbox st) (running st ++ [(id, type, data)]) (outbox st) (analyzers st) (worker st)
      (settled st) st.

Definition set_listening (b : bool) (st : server) : server :=
  mkServer (now st) (timers st) (handles st) (timeout st) (cancelled st) (onFinish st) (listeners st)
    (inbox st) (running st) (outbox st) (analyzers st) (worker st) (settled st) (known st) (responses st)
    (finished st) (lost st) (pendingCloseRequests st) b (serverClosed st).

(** The pending requests to close are popped, then the server stops listening. *)
Definition closeServer (st : server) : server :=
  if listening st then
    let st := fold_left (fun st id => respond id End_ st) (rev (pendingCloseRequests st)) st in
    set_listening false
      (set_http (onFinish st) (listeners st) (known st) (responses st) [] st)
  else st.

Definition close (st : server) : server :=
  if has_worker then postMessage Close st else closeServer st.

(** The handlers of the next message all get it, and are gone. *)
Definition on_message (message : RequestResult R) (st : server) : server :=
  let handlers := listeners st in
  let st := set_http (onFinish st) [] (known st) (responses st) (pendingCloseRequests st) st in
  fold_left (fun st id => respond id (handleResult splitAst message) st) handlers st.

Definition set_cancelled (b : bool) (st : server) : server :=
  mkServer (now st) (timers st) (handles st) (timeout st) b (onFinish st)
    (listeners st) (inbox st) (running st) (outbox st) (analyzers st) (worker st) (settled st)
    (known st) (responses st) (finished st) (lost st) (pendingCloseRequests st) (listening st)
    (serverClosed st).

(** [cancel] *)
Definition cancel (st : server) : server := stop (set_cancelled true st).

(** [server.on('close')]: the promise [serverClosed] is resolved. *)
Definition on_close (st : server) : server :=
  let st := cancel st in
  mkServer (now st) (timers st) (handles st) (timeout st) (cancelled st) (onFinish st)
    (listeners st) (inbox st) (running st) (outbox st) (analyzers st) (worker st) (settled st)
    (known st) (responses st) (finished st) (lost st) (pendingCloseRequests st) (listening st) true.

(** The event [finish] of a response, and its handler. *)
Definition on_finish (id : request_id) (st : server) : server :=
  let st := mkServer (now st) (timers st) (handles st) (timeout st) (cancelled st) (onFinish st)
    (listeners st) (inbox st) (running st) (outbox st) (analyzers st) (worker st) (settled st)
    (known st) (responses st) (finished st ++ [id]) (lost st) (pendingCloseRequests st) (listening st)
    (serverClosed st) in
  if bool_decide (id ∈ onFinish st) then start st else st.

(** [start] *)
Definition initial (w : W) : server :=
  start (mkServer 0 [] 0 None false [] [] [] [] [] w Alive [] [] [] [] [] [] true false).

(** *** Steps *)

Inductive label :=
| Receive (id : request_id) (type : RequestType) (data : Data)
| ReceiveStatus (id : request_id)
| ReceiveClose (id : request_id)
| WorkerTakes
| WorkerCloses
| WorkerExits
| WorkerCrashes
| HandlerSettles (id : request_id)
| MainReceives
| Finish (id : request_id)
| ConnectionLost (id : request_id)
| Elapse (d : nat)
| Fires (h : nat)
| ServerCloses.

(** Nothing is left to do for the event loops but to wait. *)
Definition waiting (st : server) : bool :=
  (match inbox st with [] => true | _ => negb (bool_decide (worker st = Alive)) end)
  && (match outbox st with [] => true | _ => false end)
  && negb (bool_decide (worker st = Closed)
           && match running st with [] => true | _ => false end)
  && (listening st || serverClosed st).

Definition set_time (time : nat) (st : server) : server :=
  mkServer time (timers st) (handles st) (timeout st) (cancelled st) (onFinish st)
    (listeners st) (inbox st) (running st) (outbox st) (analyzers st) (worker st) (settled st)
    (known st) (responses st) (finished st) (lost st) (pendingCloseRequests st)
    (listening st) (serverClosed st).

Definition set_lost (lost : list request_id) (st : server) : server :=
  mkServer (now st) (timers st) (handles st) (timeout st) (cancelled st) (onFinish st)
    (listeners st) (inbox st) (running st) (outbox st) (analyzers st) (worker st) (settled st)
    (known st) (responses st) (finished st) lost (pendingCloseRequests st)
    (listening st) (serverClosed st).

(** The request a handler of the worker (or of the server) is at, and the others. *)
Fixpoint take_running (id : request_id) (l : list (request_id * RequestType * Data))
  : option (RequestType * Data * list (request_id * RequestType * Data)) :=
  match l with
  | [] => None
  | (i, type, data) :: rest =>
      if decide (i = id) then Some (type, data, rest)
      else match take_running id rest with
           | Some (t, d, rest') => Some (t, d, (i, type, data) :: rest')
           | None => None
           end
  end.

(** The handler of a request ends: its result is posted, and lost when the port of
    the worker is closed, or sent. *)
Definition settle (id : request_id) (st : server) : option server :=
  match take_running id (running st) with
  | Some (type, data, rest) =>
      let (w, r) := handle (analyzers st) type data in
      Some (if has_worker then
              set_worker (inbox st) rest
                (if decide (worker st = Alive) then outbox st ++ [(id, r)] else outbox st) w (worker st)
                (settled st ++ [(id, r)]) st
            else
              respond id (handleResult splitAst r)
                (set_worker (inbox st) rest (outbox st) w (worker st) (settled st ++ [(id, r)]) st))
  | None => None
  end.

(** The worker exits, and the handler of the event closes the server. *)
Definition exit_ (st : server) : server :=
  closeServer (set_worker (inbox st) [] (outbox st) (analyzers st) Exited (settled st) st).

Definition guard_ (b : bool) (st : server) : option server := if b then Some st else None.

(** What an event does, when it can happen. *)
Definition step (st : server) (l : label) : option server :=
  match l with
  | Receive id type data =>
      guard_ (listening st && bool_decide (id ∉ (known st).*1))
        (delegate id type data (middleware id (Some (type, data)) st))
  | ReceiveStatus id =>
      guard_ (listening st && bool_decide (id ∉ (known st).*1))
        (respond id SendOK (middleware id None st))
  | ReceiveClose id =>
      guard_ (listening st && bool_decide (id ∉ (known st).*1))
        (let st := middleware id None st in
         close (set_http (onFinish st) (listeners st) (known st) (responses st)
                  (pendingCloseRequests st ++ [id]) st))
  | WorkerTakes =>
      match inbox st with
      | Request id type data :: rest =>
          guard_ (bool_decide (worker st = Alive))
            (set_worker rest (running st ++ [(id, type, data)]) (outbox st) (analyzers st) (worker st)
               (settled st) st)
      | _ => None
      end
  | WorkerCloses =>
      match inbox st with
      | Close :: rest =>
          guard_ (has_worker && bool_decide (worker st = Alive))
            (set_worker rest (running st) (outbox st) (analyzers st) Closed (settled st) st)
      | _ => None
      end
  | WorkerExits =>
      guard_ (has_worker && bool_decide (worker st = Closed)
              && match running st with [] => true | _ => false end) (exit_ st)
  | WorkerCrashes => guard_ (has_worker && bool_decide (worker st = Alive)) (exit_ st)
  | HandlerSettles id => settle id st
  | MainReceives =>
      match outbox st with
      | (_, message) :: rest =>
          Some (on_message message
                  (set_worker (inbox st) (running st) rest (analyzers st) (worker st) (settled st) st))
      | [] => None
      end
  | Finish id =>
      guard_ (bool_decide (id ∈ (responses st).*1) && bool_decide (id ∉ finished st)
              && bool_decide (id ∉ lost st)) (on_finish id st)
  | ConnectionLost id =>
      guard_ (bool_decide (id ∈ (known st).*1) && bool_decide (id ∉ finished st)
              && bool_decide (id ∉ lost st)) (set_lost (lost st ++ [id]) st)
  | Elapse d =>
      guard_ (Nat.ltb 0 d && waiting st && forallb (fun t => Nat.leb (now st + d) t.2) (timers st))
        (set_time (now st + d) st)
  | Fires h =>
      match map_get h (timers st) with
      | Some t =>
          guard_ (Nat.leb t (now st))
            (close (set_timer (handles st) (clear_timer h (timers st)) (timeout st) st))
      | None => None
      end
  | ServerCloses => guard_ (negb (listening st) && negb (serverClosed st)) (on_close st)
  end.

(** The state after a sequence of events. *)
Fixpoint run (st : server) (ls : list label) : option server :=
  match ls with
  | [] => Some st
  | l :: rest => match step st l with Some st' => run st' rest | None => None end
  end.

End Server.

Arguments server W Data R : clear implicits.
Arguments label Data : clear implicits.
Arguments worker_message Data : clear implicits.

(** ** Lemmas: operations *)

Section Operations.

Context {W Data R : Type}.
Variable handle : W -> RequestType -> Data -> W * RequestResult R.
Variable splitAst : R -> option (list Byte.byte * R).
Variable has_worker : bool.
Variable delay : nat.

Implicit Types st : server W Data R.

Notation step := (step handle splitAst has_worker delay).

Lemma guard_Some b st st' : guard_ b st = Some st' <-> b = true /\ st = st'.
Proof. destruct b; cbn; naive_solver. Qed.

Lemma fold_respond (r : Response R) ids : forall st,
  fold_left (fun st id => respond id r st) ids st
  = set_http (onFinish st) (listeners st) (known st) (responses st ++ map (fun id => (id, r)) ids)
      (pendingCloseRequests st) st.
Proof.
  induction ids as [|id ids IH]; intros st; cbn [fold_left map].
  - rewrite app_nil_r. by destruct st.
  - rewrite IH. unfold respond, set_http. cbn. by rewrite <- (assoc_L (++)).
Qed.

Lemma closeServer_listening st :
  listening st = true ->
  closeServer st
  = set_listening false (set_http (onFinish st) (listeners st) (known st)
      (responses st ++ map (fun id => (id, End_)) (rev (pendingCloseRequests st))) [] st).
Proof. intros E. unfold closeServer. by rewrite E, fold_respond. Qed.

Lemma closeServer_closed st : listening st = false -> closeServer st = st.
Proof. intros E. unfold closeServer. by rewrite E. Qed.

Lemma on_message_eq message st :
  on_message splitAst message st
  = set_http (onFinish st) [] (known st)
      (responses st ++ map (fun id => (id, handleResult splitAst message)) (listeners st))
      (pendingCloseRequests st) st.
Proof. unfold on_message. by rewrite fold_respond. Qed.

Lemma take_running_spec id l type (data : Data) rest :
  take_running id l = Some (type, data, rest) ->
  exists before after, l = before ++ (id, type, data) :: after /\ rest = before ++ after.
Proof.
  revert rest. induction l as [|[[i t] d] l IH]; intros rest; cbn; [done|].
  case_decide as E.
  - intros [= -> -> ->]. subst. by exists [], rest.
  - destruct (take_running id l) as [[[t' d'] rest']|]; [|done]. intros [= -> -> <-].
    destruct (IH rest' eq_refl) as (before & after & -> & ->). by exists ((i, t, d) :: before), after.
Qed.

(** The states reached from the start with the events a client may cause. *)
Inductive reachable (allowed : server W Data R -> label Data -> Prop) : server W Data R -> Prop :=
| reachable_initial w : reachable allowed (initial delay w)
| reachable_step st l st' :
    reachable allowed st -> allowed st l -> step st l = Some st' -> reachable allowed st'.

(** The events of a run are allowed ones. *)
Fixpoint along (allowed : server W Data R -> label Data -> Prop) st (ls : list (label Data)) : Prop :=
  match ls with
  | [] => True
  | l :: rest =>
      allowed st l /\ match step st l with Some st' => along allowed st' rest | None => True end
  end.

Lemma run_reachable allowed ls : forall st st',
  reachable allowed st -> along allowed st ls -> run handle splitAst has_worker delay st ls = Some st' ->
  reachable allowed st'.
Proof.
  induction ls as [|l ls IH]; intros st st' H A E; cbn in A, E; [by simplify_eq|].
  destruct A as [A1 A2]. destruct (step st l) as [st1|] eqn:S; [|done].
  eapply IH; [|done|done]. by eapply reachable_step.
Qed.

(** *** The timer *)

(** At most one timer is pending, and it is the one the timeout refers to. *)
Definition one_timer st : Prop :=
  timers st = []
  \/ exists h t, timers st = [(h, t)] /\ timeout st = Some h /\ (now st <= t <= now st + delay)%nat.

Lemma clear_timer_same h t : clear_timer h [(h, t)] = [].
Proof. unfold clear_timer. by rewrite filter_cons_False by (cbn; tauto). Qed.

Lemma stop_timers st : one_timer st -> timers (stop st) = [].
Proof.
  unfold stop. intros [E|(h & t & E & T & _)].
  - destruct (timeout st); cbn; rewrite ?E; done.
  - rewrite T. cbn. rewrite E. apply clear_timer_same.
Qed.

(** What [stop] leaves alone. *)
Lemma stop_frame st :
  exists ts tm, stop st = set_timer (handles st) ts tm st.
Proof. unfold stop. destruct (timeout st); [by do 2 eexists|]. exists (timers st), (timeout st). by destruct st. Qed.

Lemma start_frame st : one_timer st ->
  start delay st
  = set_timer (S (handles st)) [(handles st, (now st + delay)%nat)] (Some (handles st)) st.
Proof.
  intros O. unfold start. pose proof (stop_timers st O) as E.
  destruct (stop_frame st) as (ts & tm & F). rewrite F in *. cbn in E |- *. subst ts. by destruct st.
Qed.

End Operations.

(** ** The invariant of the timeout *)

Section Invariant.

Context {W Data R : Type}.
Variable handle : W -> RequestType -> Data -> W * RequestResult R.
Variable splitAst : R -> option (list Byte.byte * R).
Variable has_worker : bool.
Variable delay : nat.

Implicit Types st : server W Data R.

Notation step := (step handle splitAst has_worker delay).
Notation one_timer := (one_timer delay).

Definition request_in (id : request_id) (m : worker_message Data) : Prop :=
  match m with Request i _ _ => i = id | Close => False end.

(** The identifiers in use are the ones of requests that were received. *)
Record ids_ok st : Prop := mkIdsOk {
  i_responses : forall id, id ∈ (responses st).*1 -> id ∈ (known st).*1;
  i_listeners : forall id, id ∈ listeners st -> id ∈ (known st).*1;
  i_pending : forall id, id ∈ pendingCloseRequests st -> id ∈ (known st).*1;
  i_finished : forall id, id ∈ finished st -> id ∈ (known st).*1;
  i_onFinish : forall id, id ∈ onFinish st -> id ∈ (known st).*1;
  i_running : forall id, id ∈ (running st).*1.*1 -> id ∈ (known st).*1;
  i_inbox : forall id m, m ∈ inbox st -> request_in id m -> id ∈ (known st).*1 }.

(** The server is about to close: its worker was asked to, or is gone, or the
    server does not listen any more. *)
Definition closing st : Prop :=
  has_worker = true /\ (worker st <> Alive \/ Close ∈ inbox st) \/ listening st = false.

(** A request whose response will start the timeout when it is sent. *)
Definition busy st : Prop := exists id, id ∈ onFinish st /\ id ∉ finished st.

Record server_ok st : Prop := mkServerOk {
  k_ids : ids_ok st;
  k_timer : one_timer st;
  k_cancelled : cancelled st = serverClosed st;
  k_closed : serverClosed st = true -> listening st = false;
  k_exited : worker st = Exited -> listening st = false;
  k_alone : has_worker = false -> worker st = Alive /\ inbox st = [];
  k_guarded : timers st <> [] \/ busy st \/ closing st }.

Lemma initial_ok w : server_ok (initial delay w).
Proof.
  constructor; cbn; try done.
  - constructor; cbn; by intros id ?%not_elem_of_nil || intros id m ?%not_elem_of_nil.
  - right. do 2 eexists. split; [done|]. split; [done|]. cbn. lia.
  - by left.
Qed.

Lemma fmap_snoc {A B} (f : A -> B) l x : f <$> (l ++ [x]) = (f <$> l) ++ [f x].
Proof. by rewrite fmap_app. Qed.

Lemma middleware_ok id request st :
  server_ok st -> listening st = true -> id ∉ (known st).*1 ->
  let st' := middleware id request st in
  exists tm,
    st' = set_timer (handles st) [] tm
            (set_http (onFinish st ++ [id]) (listeners st) (known st ++ [(id, request)]) (responses st)
               (pendingCloseRequests st) st)
    /\ ids_ok st' /\ busy st'.
Proof.
  intros [I T C CL EX AL G] L N st'. subst st'. unfold middleware. cbn.
  assert (serverClosed st = false) as SC.
  { destruct (serverClosed st) eqn:E; [|done]. rewrite CL in L; done. }
  rewrite C, SC.
  set (st1 := set_http _ _ _ _ _ st).
  assert (one_timer st1) as T1 by exact T.
  pose proof (stop_timers delay st1 T1) as E. destruct (stop_frame st1) as (ts & tm & F).
  rewrite F in *. cbn in E. subst ts. exists tm. split; [done|]. destruct I. split.
  - constructor; cbn; rewrite ?fmap_snoc; try (intros i ?; apply elem_of_app; by eauto).
    + intros i [Hi|Hi]%elem_of_app; apply elem_of_app; [by eauto|by right].
    + intros i m Hm Hr. apply elem_of_app. by eauto.
  - exists id. cbn. split; [apply elem_of_app; right; by left|]. eauto.
Qed.

Lemma busy_respond id r st : busy st -> busy (respond id r st).
Proof. done. Qed.

Lemma ids_ok_respond id (r : Response R) st : ids_ok st -> id ∈ (known st).*1 -> ids_ok (respond id r st).
Proof.
  intros [] K. constructor; cbn; try done. intros i. rewrite fmap_snoc, elem_of_app.
  intros [Hi|Hi]; [by eauto|]. apply list_elem_of_singleton in Hi as ->. done.
Qed.

Lemma ids_ok_closeServer st : ids_ok st -> ids_ok (closeServer st).
Proof.
  intros I. destruct (listening st) eqn:L; [|by rewrite closeServer_closed].
  rewrite closeServer_listening by done. destruct I. constructor; cbn; try done.
  - intros id. rewrite fmap_app, elem_of_app. intros [Hi|Hi]; [by eauto|].
    apply i_pending0.
    apply list_elem_of_fmap in Hi as ([i r] & -> & Hi). apply list_elem_of_fmap in Hi as (j & E & Hj).
    cbn. injection E as -> _. by apply elem_of_rev.
  - by intros id ?%not_elem_of_nil.
Qed.

Lemma closeServer_frame st :
  exists resp pend l, closeServer st
    = set_listening l (set_http (onFinish st) (listeners st) (known st) resp pend st) /\ l = false.
Proof.
  destruct (listening st) eqn:L.
  - rewrite closeServer_listening by done. by do 3 eexists.
  - rewrite closeServer_closed by done. exists (responses st), (pendingCloseRequests st), false.
    split; [|done]. unfold set_listening, set_http. destruct st; cbn in *. by subst.
Qed.

Lemma closing_listening st : listening st = false -> closing st.
Proof. by right. Qed.

(** The server after [closeServer], from a state that is like an invariant one. *)
Lemma server_ok_closeServer st :
  ids_ok st -> one_timer st -> cancelled st = serverClosed st ->
  (has_worker = false -> worker st = Alive /\ inbox st = []) -> server_ok (closeServer st).
Proof.
  intros I T C AL. pose proof (ids_ok_closeServer st I) as I'.
  destruct (closeServer_frame st) as (resp & pend & l & E & ->). rewrite E in *.
  constructor; cbn; try done. right. right. by right.
Qed.

Lemma server_ok_postClose st :
  has_worker = true ->
  ids_ok st -> one_timer st -> cancelled st = serverClosed st ->
  (serverClosed st = true -> listening st = false) -> (worker st = Exited -> listening st = false) ->
  server_ok (postMessage Close st).
Proof.
  intros Hw I T C CL EX. destruct I. constructor; cbn; try done.
  - constructor; cbn; try done. intros id m. rewrite elem_of_app. intros [Hm|Hm]; [by eauto|].
    apply list_elem_of_singleton in Hm as ->. done.
  - congruence.
  - right. right. left. split; [done|]. right. apply elem_of_app. right. by left.
Qed.

(** [close], with or without a worker. *)
Lemma server_ok_close st :
  ids_ok st -> one_timer st -> cancelled st = serverClosed st ->
  (serverClosed st = true -> listening st = false) -> (worker st = Exited -> listening st = false) ->
  (has_worker = false -> worker st = Alive /\ inbox st = []) -> server_ok (close has_worker st).
Proof.
  intros I T C CL EX AL. unfold close. destruct has_worker eqn:Hw.
  - by apply server_ok_postClose.
  - by apply server_ok_closeServer; auto.
Qed.

Lemma ids_ok_worker inbox_ running_ outbox_ w status settled_ st :
  ids_ok st ->
  (forall id, id ∈ running_.*1.*1 -> id ∈ (known st).*1) ->
  (forall id m, m ∈ inbox_ -> request_in id m -> id ∈ (known st).*1) ->
  ids_ok (set_worker inbox_ running_ outbox_ w status settled_ st).
Proof. intros []. by constructor. Qed.

Lemma server_ok_receive id type data st :
  server_ok st -> listening st = true -> id ∉ (known st).*1 ->
  server_ok (delegate has_worker id type data (middleware id (Some (type, data)) st)).
Proof.
  intros K L N. destruct (middleware_ok id (Some (type, data)) st K L N) as (tm & E & I & B).
  rewrite E in *. destruct K as [_ T C CL EX AL G]. destruct I.
  assert (forall i, i ∈ (known st ++ [(id, Some (type, data))]).*1 <-> i ∈ (known st).*1 \/ i = id) as KN.
  { intros i. rewrite fmap_snoc, elem_of_app, list_elem_of_singleton. done. }
  unfold delegate. destruct has_worker eqn:Hw; constructor; cbn in *;
    try (done || by left || by congruence); try (by right; left); try (by intros _; rewrite L in *; auto).
  - constructor; cbn; try done.
    + intros i. rewrite elem_of_app, list_elem_of_singleton, KN. intros [Hi| ->]; [|by right].
      apply KN. by apply i_listeners0.
    + intros i m. rewrite elem_of_app, list_elem_of_singleton. intros [Hm| ->]; [by eauto|].
      cbn. intros ->. apply KN. by right.
  - constructor; cbn; try done.
    intros i Hi. apply KN. revert Hi. rewrite !fmap_snoc, elem_of_app, list_elem_of_singleton.
    intros [Hi| ->]; [|by right]. apply KN. by apply i_running0.
Qed.

Lemma server_ok_step st l st' : server_ok st -> step st l = Some st' -> server_ok st'.
Proof.
  intros K E. pose proof K as [I T C CL EX AL G]. destruct l; cbn [Bridge.step] in E.
  - (* Receive *) apply guard_Some in E as [E <-]. split_bools. by apply server_ok_receive.
  - (* ReceiveStatus *) apply guard_Some in E as [E <-]. split_bools.
    destruct (middleware_ok id None st K) as (tm & Em & I' & B); [done..|]. rewrite Em in *.
    constructor; try done; [|by left|by right; left].
    apply ids_ok_respond; [done|]. cbn. rewrite fmap_snoc, elem_of_app. right. by left.
  - (* ReceiveClose *) apply guard_Some in E as [E <-]. split_bools.
    destruct (middleware_ok id None st K) as (tm & Em & I' & B); [done..|]. rewrite Em in *.
    apply server_ok_close; try done; [|by left]. destruct I'. constructor; cbn in *; try done.
    intros i. rewrite elem_of_app, list_elem_of_singleton. intros [Hi| ->]; [by eauto|].
    rewrite fmap_snoc, elem_of_app. right. by left.
  - (* WorkerTakes *) destruct (inbox st) as [|[id type data|] rest] eqn:Ei; try done.
    apply guard_Some in E as [E <-]. split_bools. destruct I.
    assert (id ∈ (known st).*1) as Hid by (apply (i_inbox0 id (Request id type data)); [rewrite Ei; by left|done]).
    constructor; cbn; try done.
    + apply ids_ok_worker; [by constructor| |].
      * intros i. rewrite !fmap_snoc, elem_of_app, list_elem_of_singleton. intros [Hi| ->]; [by eauto|done].
      * intros i m Hm. apply i_inbox0. rewrite Ei. by right.
    + intros Hw. destruct (AL Hw) as [_ ?]. congruence.
    + destruct G as [?|[?|[[? [?|G]]|?]]]; [by left|by right; left|right; right; left; auto| |by right; right; right].
      right. right. left. split; [done|]. right. rewrite Ei in G. by apply elem_of_cons in G as [?|?].
  - (* WorkerCloses *) destruct (inbox st) as [|[id type data|] rest] eqn:Ei; try done.
    apply guard_Some in E as [E <-]. split_bools. destruct I. constructor; cbn; try done.
    + apply ids_ok_worker; [by constructor|done|]. intros i m Hm. apply i_inbox0. rewrite Ei. by right.
    + congruence.
    + right. right. left. split; [done|]. by left.
  - (* WorkerExits *) apply guard_Some in E as [E <-]. split_bools.
    apply server_ok_closeServer; try done; [|congruence].
    destruct I. apply ids_ok_worker; [by constructor| |done]. by intros i ?%not_elem_of_nil.
  - (* WorkerCrashes *) apply guard_Some in E as [E <-]. split_bools.
    apply server_ok_closeServer; try done; [|congruence].
    destruct I. apply ids_ok_worker; [by constructor| |done]. by intros i ?%not_elem_of_nil.
  - (* HandlerSettles *) unfold settle in E. destruct (take_running id (running st)) as [[[type data] rest]|] eqn:Er; [|done].
    destruct (handle (analyzers st) type data) as [w r]. injection E as <-.
    apply take_running_spec in Er as (before & after & Er & ->).
    assert (forall i, i ∈ (before ++ after).*1.*1 -> i ∈ (known st).*1) as Hbefore.
    { intros i Hi. apply (i_running _ I). rewrite Er. rewrite !fmap_app, elem_of_app in *. cbn.
      rewrite elem_of_cons. tauto. }
    assert (id ∈ (known st).*1) as Hid.
    { apply (i_running _ I). rewrite Er, !fmap_app, elem_of_app. right. by left. }
    assert (ids_ok (set_worker (inbox st) (before ++ after)
      (if decide (worker st = Alive) then outbox st ++ [(id, r)] else outbox st) w (worker st)
      (settled st ++ [(id, r)]) st)) as I1 by (apply ids_ok_worker; [done|done|apply I]).
    destruct has_worker eqn:Hw.
    + constructor; (done || congruence).
    + constructor; try (done || by intros _; apply AL). apply ids_ok_respond; [|done]. apply ids_ok_worker; [done|done|apply I].
  - (* MainReceives *) destruct (outbox st) as [|[id m] rest] eqn:Eo; [done|]. injection E as <-.
    rewrite on_message_eq. destruct I. constructor; cbn; try done. constructor; cbn; try done.
    + intros i. rewrite fmap_app, elem_of_app. intros [Hi|Hi]; [by eauto|].
      apply list_elem_of_fmap in Hi as ([j r'] & -> & Hi). apply list_elem_of_fmap in Hi as (j' & Ej & Hj).
      cbn. injection Ej as -> _. by eauto.
    + by intros i ?%not_elem_of_nil.
  - (* Finish *) apply guard_Some in E as [E <-]. split_bools. unfold on_finish.
    set (st1 := mkServer _ _ _ _ _ _ _ _ _ _ _ _ _ _ _ _ _ _ _ _).
    assert (ids_ok st1) as I1.
    { destruct I. constructor; cbn; try done. intros i. rewrite elem_of_app, list_elem_of_singleton.
      intros [Hi| ->]; by eauto. }
    change (onFinish st1) with (onFinish st).
    destruct (bool_decide (id ∈ onFinish st)) eqn:Eb; split_bools.
    + rewrite (start_frame delay st1) by exact T. destruct I1. constructor; cbn in *; try done; [|by left].
      right. do 2 eexists. split; [done|]. split; [done|]. cbn. lia.
    + constructor; try done. destruct G as [?|[(i & Hi & Hf)|?]]; [by left| |by right; right].
      right. left. exists i. split; [done|]. cbn. rewrite elem_of_app, list_elem_of_singleton.
      intros [?| ->]; done.
  - (* ConnectionLost *) apply guard_Some in E as [E <-]. by destruct I.
  - (* Elapse *) apply guard_Some in E as [E <-]. split_bools. destruct I. constructor; try done.
    destruct T as [T|(h & t & T & Ht & B)]; [by left|]. right. exists h, t. cbn. split; [done|].
    split; [done|]. rewrite T in *. cbn in *. split_bools.
    match goal with H : Nat.leb _ _ = true |- _ => apply Nat.leb_le in H end. lia.
  - (* Fires *) destruct (map_get h (timers st)) as [t|] eqn:Et; [|done].
    apply guard_Some in E as [E <-].
    assert (clear_timer h (timers st) = []) as ->.
    { destruct T as [T|(h' & t' & T & _)]; rewrite T in *; [done|]. cbn in Et. case_decide; [|done].
      subst. apply clear_timer_same. }
    apply server_ok_close; try done; [by destruct I|by left].
  - (* ServerCloses *) apply guard_Some in E as [E <-]. split_bools. unfold on_close, cancel.
    set (st1 := set_cancelled true st).
    pose proof (stop_timers delay st1 T) as Et. destruct (stop_frame st1) as (ts & tm & F).
    rewrite F in *. cbn in Et. subst ts. destruct I. constructor; cbn; try done; [by left|].
    right. right. by right.
Qed.

Lemma reachable_ok allowed st :
  reachable handle splitAst has_worker delay allowed st -> server_ok st.
Proof. induction 1; [apply initial_ok|by eapply server_ok_step]. Qed.

End Invariant.

(** ** The timeout shuts an idle bridge down *)

Section Liveness.

Context {W Data R : Type}.
Variable handle : W -> RequestType -> Data -> W * RequestResult R.
Variable splitAst : R -> option (list Byte.byte * R).
Variable has_worker : bool.
Variable delay : nat.

Implicit Types st : server W Data R.

Notation step := (step handle splitAst has_worker delay).
Notation server_ok := (server_ok has_worker delay).

(** The events that are not requests of the client. *)
Definition quiet (l : label Data) : Prop :=
  match l with Receive _ _ _ | ReceiveStatus _ | ReceiveClose _ => False | _ => True end.

(** On every run of quiet events, [Q] holds at some point. *)
Inductive eventually (Q : server W Data R -> Prop) : server W Data R -> Prop :=
| eventually_now st : Q st -> eventually Q st
| eventually_later st :
    (exists l st', quiet l /\ step st l = Some st') ->
    (forall l st', quiet l -> step st l = Some st' -> eventually Q st') ->
    eventually Q st.

(** All the requests have been served, and their responses sent. *)
Record idle st : Prop := mkIdle {
  idle_known : forall id, id ∈ (known st).*1 -> id ∈ finished st;
  idle_listeners : listeners st = [];
  idle_pending : pendingCloseRequests st = [];
  idle_running : running st = [];
  idle_outbox : outbox st = [];
  idle_inbox : forall m, m ∈ inbox st -> m = Close }.

(** An idle server whose timer is not later than [T]. *)
Definition calm (T : nat) st : Prop :=
  server_ok st /\ idle st /\ (now st <= T)%nat /\ (forall t, t ∈ timers st -> (t.2 <= T)%nat).

Definition worker_rank (s : worker_status) : nat :=
  match s with Alive => 2 | Closed => 1 | Exited => 0 end.

Definition timer_rank (time : nat) (t : nat * nat) : nat := (2 * (t.2 - time) + 3)%nat.

Definition measure st : nat :=
  ((if serverClosed st then 0 else 1) + worker_rank (worker st) + length (inbox st)
   + sum_list_with (timer_rank (now st)) (timers st))%nat.

Lemma idle_not_busy st : server_ok st -> idle st -> ~ busy st.
Proof.
  intros K I (id & Hi & Hf). apply Hf, (idle_known _ I), (i_onFinish _ (k_ids _ _ _ K)). done.
Qed.

Lemma idle_closeServer st : idle st -> exists l, closeServer st = set_listening l st /\ l = false.
Proof.
  intros I. exists false. split; [|done]. destruct (listening st) eqn:L.
  - rewrite closeServer_listening by done. rewrite (idle_pending _ I). cbn. rewrite app_nil_r.
    unfold set_http. pose proof (idle_pending _ I). destruct st; cbn in *. by subst.
  - rewrite closeServer_closed by done. destruct st; cbn in *. by subst.
Qed.

(** The frame of the operations of an idle server. *)
Lemma idle_same st st' :
  idle st -> known st' = known st -> finished st' = finished st -> listeners st' = listeners st ->
  pendingCloseRequests st' = pendingCloseRequests st -> running st' = [] -> outbox st' = outbox st ->
  (forall m, m ∈ inbox st' -> m ∈ inbox st \/ m = Close) -> idle st'.
Proof.
  intros [] E1 E2 E3 E4 E5 E6 E7. constructor; rewrite ?E1, ?E2, ?E3, ?E4, ?E6; auto.
  intros m Hm. destruct (E7 m Hm); auto.
Qed.

Lemma idle_close st : idle st ->
  idle (close has_worker st) /\ timers (close has_worker st) = timers st
  /\ now (close has_worker st) = now st
  /\ (measure (close has_worker st) <= measure st + 1)%nat.
Proof.
  intros I. unfold close. destruct has_worker.
  - split; [|split; [done|split; [done|]]].
    + eapply idle_same; try done; [apply I|]. intros m. cbn. rewrite elem_of_app.
      intros [?|E]; [by left|right]. by apply list_elem_of_singleton in E.
    + unfold measure. cbn. rewrite length_app. cbn. lia.
  - destruct (idle_closeServer st I) as (l & -> & ->). split; [|split; [done|split; [done|]]].
    + eapply idle_same; try done; [apply I|]. intros m. by left.
    + unfold measure. cbn. lia.
Qed.

(** A quiet step of an idle server that is not closed: it stays calm and comes
    nearer to the end. *)
Lemma calm_step T st l st' :
  calm T st -> serverClosed st = false -> quiet l -> step st l = Some st' ->
  calm T st' /\ (measure st' < measure st)%nat.
Proof.
  intros (K & I & N & TT) SC Q E.
  pose proof (server_ok_step _ _ _ _ _ _ _ K E) as K'.
  assert ((idle st' /\ (now st' <= T)%nat /\ (forall t, t ∈ timers st' -> (t.2 <= T)%nat)
          /\ (measure st' < measure st)%nat) -> calm T st' /\ (measure st' < measure st)%nat) as done_.
  { intros (A & B & C & D). split; [|done]. by split. }
  apply done_; clear done_. destruct I as [IK IL IP IR IO II].
  assert (idle st) as I by done. destruct l; cbn [Bridge.step] in E; try done.
  - (* WorkerTakes *) destruct (inbox st) as [|[id type data|] rest] eqn:Ei; try done.
    discriminate (II (Request id type data) ltac:(by left)).
  - (* WorkerCloses *) destruct (inbox st) as [|[id type data|] rest] eqn:Ei; try done.
    apply guard_Some in E as [E <-]. split_bools. split; [|split; [done|split; [done|]]].
    + eapply idle_same; try done. intros m Hm. left. rewrite Ei. by right.
    + unfold measure. cbn. rewrite Ei. match goal with H : worker st = Alive |- _ => rewrite H end. cbn. lia.
  - (* WorkerExits *) apply guard_Some in E as [E <-]. split_bools. unfold exit_.
    set (st1 := set_worker _ _ _ _ _ _ st).
    assert (idle st1) as I1 by (eapply idle_same; try done; by left).
    destruct (idle_closeServer st1 I1) as (l & -> & ->). split; [|split; [done|split; [done|]]].
    + eapply idle_same; try done. by left.
    + unfold measure. cbn. match goal with H : worker st = Closed |- _ => rewrite H end. cbn. lia.
  - (* WorkerCrashes *) apply guard_Some in E as [E <-]. split_bools. unfold exit_.
    set (st1 := set_worker _ _ _ _ _ _ st).
    assert (idle st1) as I1 by (eapply idle_same; try done; by left).
    destruct (idle_closeServer st1 I1) as (l & -> & ->). split; [|split; [done|split; [done|]]].
    + eapply idle_same; try done. by left.
    + unfold measure. cbn. match goal with H : worker st = Alive |- _ => rewrite H end. cbn. lia.
  - (* HandlerSettles *) unfold settle in E. by rewrite IR in E.
  - (* MainReceives *) by rewrite IO in E.
  - (* Finish *) apply guard_Some in E as [E _]. split_bools. exfalso.
    match goal with H : id ∉ finished st |- _ => apply H end.
    apply IK, (i_responses _ (k_ids _ _ _ K)). done.
  - (* ConnectionLost *) apply guard_Some in E as [E _]. split_bools. exfalso.
    match goal with H : id ∉ finished st |- _ => apply H end. by apply IK.
  - (* Elapse *) apply guard_Some in E as [E <-]. split_bools.
    match goal with H : Nat.ltb _ _ = true |- _ => apply Nat.ltb_lt in H end.
    match goal with H : waiting st = true |- _ => rename H into Hw end.
    assert (exists h t, timers st = [(h, t)]) as (h & t & Et).
    { destruct (k_timer _ _ _ K) as [Et|(h & t & Et & _)]; [|by exists h, t]. exfalso.
      unfold waiting in Hw. split_bools. rewrite IR in *.
      destruct (k_guarded _ _ _ K) as [?|[?|[[Hk [?|?]]|?]]]; [done|by eapply idle_not_busy| | |].
      - destruct (worker st) eqn:Ew; [done|done|].
        match goal with H : _ || _ = true |- _ => rewrite SC, (k_exited _ _ _ K Ew) in H end. done.
      - destruct (inbox st) eqn:Ei; [by eapply not_elem_of_nil|]. split_bools.
        destruct (worker st) eqn:Ew; [done|done|].
        match goal with H : listening st || _ = true |- _ => rewrite SC, (k_exited _ _ _ K Ew) in H end. done.
      - match goal with H : listening st || _ = true |- _ => rewrite SC in H end.
        destruct (listening st); done. }
    rewrite Et in *. cbn in *. split_bools.
    match goal with H : Nat.leb _ _ = true |- _ => apply Nat.leb_le in H end.
    pose proof (TT (h, t) ltac:(by left)) as Ht. cbn in Ht. split; [done|]. split; [lia|].
    rewrite Et. split; [done|]. unfold measure. cbn. rewrite Et. cbn. unfold timer_rank. cbn. lia.
  - (* Fires *) destruct (map_get h (timers st)) as [t|] eqn:Et; [|done].
    apply guard_Some in E as [E <-].
    assert (timers st = [(h, t)]) as Eh.
    { destruct (k_timer _ _ _ K) as [Ek|(h' & t' & Ek & _)]; rewrite Ek in *; [done|].
      cbn in Et. case_decide; [|done]. by simplify_eq. }
    rewrite Eh, clear_timer_same. set (st1 := set_timer _ [] _ st).
    assert (idle st1) as I1 by (eapply idle_same; try done; by left).
    destruct (idle_close st1 I1) as (I2 & -> & -> & M). split; [done|]. split; [done|].
    split; [by intros ? ?%not_elem_of_nil|].
    assert (measure st1 + 3 <= measure st)%nat; [|lia].
    unfold measure. cbn. rewrite Eh. cbn. unfold timer_rank. lia.
  - (* ServerCloses *) apply guard_Some in E as [E <-]. split_bools. unfold on_close, cancel.
    set (st1 := set_cancelled true st).
    pose proof (stop_timers delay st1 (k_timer _ _ _ K)) as Et. destruct (stop_frame st1) as (ts & tm & F).
    rewrite F in *. cbn in Et. subst ts. split; [|split; [done|split]].
    + eapply idle_same; try done. by left.
    + by intros ? ?%not_elem_of_nil.
    + unfold measure. cbn. rewrite SC. lia.
Qed.

Lemma calm_progress T st :
  calm T st -> serverClosed st = false -> exists l st', quiet l /\ step st l = Some st'.
Proof.
  intros (K & I & N & TT) SC. destruct (listening st) eqn:L.
  2: { exists ServerCloses. eexists. split; [done|]. cbn. by rewrite L, SC. }
  destruct (worker st) eqn:Ew.
  2: { exists WorkerExits. eexists. split; [done|]. cbn. rewrite Ew, (idle_running _ I).
       destruct has_worker eqn:Hw; [done|]. destruct (k_alone _ _ _ K eq_refl). congruence. }
  2: { rewrite (k_exited _ _ _ K Ew) in L. done. }
  destruct (inbox st) as [|m rest] eqn:Ei.
  - assert (exists h t, timers st = [(h, t)] /\ (now st <= t)%nat) as (h & t & Et & Hn).
    { destruct (k_timer _ _ _ K) as [Et|(h & t & Et & _ & B & _)]; [|by exists h, t]. exfalso.
      destruct (k_guarded _ _ _ K) as [?|[?|[[Hk [?|G]]|?]]];
        [done|by eapply idle_not_busy|done| |congruence].
      rewrite Ei in G. by apply not_elem_of_nil in G. }
    destruct (decide (t <= now st)%nat) as [Hle|Hlt].
    + exists (Fires h). eexists. split; [done|]. cbn. rewrite Et. cbn. rewrite decide_True by done.
      by rewrite (proj2 (Nat.leb_le _ _) Hle).
    + exists (Elapse (t - now st)). eexists. split; [done|]. cbn [Bridge.step].
      assert (Nat.ltb 0 (t - now st) = true) as -> by (apply Nat.ltb_lt; lia).
      assert (waiting st = true) as ->.
      { unfold waiting. by rewrite Ei, (idle_outbox _ I), Ew, L. }
      assert (forallb (fun u => Nat.leb (now st + (t - now st)) u.2) (timers st) = true) as ->; [|done].
      rewrite Et. cbn [forallb snd]. apply andb_true_iff. split; [apply Nat.leb_le; lia|done].
  - rewrite (idle_inbox _ I m) in Ei by (rewrite Ei; by left).
    exists WorkerCloses. eexists. split; [done|]. cbn. rewrite Ei, Ew.
    destruct has_worker eqn:Hw; [done|]. destruct (k_alone _ _ _ K eq_refl). congruence.
Qed.

Lemma calm_eventually T : forall n st,
  (measure st < n)%nat -> calm T st ->
  eventually (fun s => serverClosed s = true /\ (now s <= T)%nat) st.
Proof.
  induction n as [|n IH]; intros st M C; [lia|]. destruct (serverClosed st) eqn:SC.
  - apply eventually_now. split; [done|]. apply C.
  - apply eventually_later; [by eapply calm_progress|]. intros l st' Q E.
    destruct (calm_step T st l st' C SC Q E) as [C' M']. apply IH; [lia|done].
Qed.

Lemma idle_calm st : server_ok st -> idle st -> calm (now st + delay) st.
Proof.
  intros K I. split; [done|]. split; [done|]. split; [lia|]. intros t Ht.
  destruct (k_timer _ _ _ K) as [E|(h & u & E & _ & B)]; rewrite E in Ht.
  - by apply not_elem_of_nil in Ht.
  - apply list_elem_of_singleton in Ht as ->. cbn. lia.
Qed.

End Liveness.

(** ** A client that waits for its answers *)

Section Polite.

Context {W Data R : Type}.
Variable handle : W -> RequestType -> Data -> W * RequestResult R.
Variable splitAst : R -> option (list Byte.byte * R).
Variable delay : nat.

Implicit Types st : server W Data R.

Notation step := (step handle splitAst true delay).

(** A request for the worker is sent once the previous one is answered. *)
Definition polite st (l : label Data) : Prop :=
  match l with Receive _ _ _ => listeners st = [] | _ => True end.

Definition message_id (m : worker_message Data) : option request_id :=
  match m with Request id _ _ => Some id | Close => None end.

(** The requests between the server and the worker. *)
Definition pipeline st : list request_id :=
  omap message_id (inbox st) ++ (running st).*1.*1 ++ (outbox st).*1.

Definition asked st (id : request_id) (type : RequestType) (data : Data) : Prop :=
  (id, Some (type, data)) ∈ known st.

Record polite_ok st : Prop := mkPoliteOk {
  p_line : pipeline st = [] \/ exists id, pipeline st = [id] /\ listeners st = [id];
  p_inbox : forall id type data, Request id type data ∈ inbox st -> asked st id type data;
  p_running : forall id type data, (id, type, data) ∈ running st -> asked st id type data;
  p_outbox : forall x, x ∈ outbox st -> x ∈ settled st;
  p_settled : forall id r, (id, r) ∈ settled st ->
    exists type data w, asked st id type data /\ r = (handle w type data).2;
  p_responses : forall id resp type data, (id, resp) ∈ responses st -> asked st id type data ->
    exists r, (id, r) ∈ settled st /\ resp = handleResult splitAst r;
  p_known : NoDup (known st).*1;
  p_pending : forall id, id ∈ pendingCloseRequests st -> (id, None) ∈ known st;
  p_once : NoDup ((responses st).*1 ++ listeners st ++ pendingCloseRequests st) }.

Lemma known_functional st id a b :
  NoDup (known st).*1 -> (id, a) ∈ known st -> (id, b) ∈ known st -> a = b.
Proof.
  intros N Ha Hb. apply (elem_map_get _ _ _ N) in Ha. apply (elem_map_get _ _ _ N) in Hb. congruence.
Qed.

Lemma initial_polite w : polite_ok (initial delay w).
Proof.
  constructor; cbn; try (intros; by match goal with H : _ ∈ [] |- _ => apply not_elem_of_nil in H end).
  - by left.
  - constructor.
  - constructor.
Qed.

(** The middleware records a request that is new. *)
Lemma polite_middleware id request st :
  server_ok true delay st -> listening st = true -> id ∉ (known st).*1 -> polite_ok st ->
  polite_ok (middleware id request st)
  /\ known (middleware id request st) = known st ++ [(id, request)]
  /\ responses (middleware id request st) = responses st
  /\ listeners (middleware id request st) = listeners st
  /\ pendingCloseRequests (middleware id request st) = pendingCloseRequests st
  /\ pipeline (middleware id request st) = pipeline st
  /\ id ∉ (responses st).*1 ++ listeners st ++ pendingCloseRequests st.
Proof.
  intros K L N [PL PI PR PO PS PE PK PP P1].
  destruct (middleware_ok true delay id request st K L N) as (tm & E & _). rewrite E. cbn.
  assert (id ∉ (responses st).*1 ++ listeners st ++ pendingCloseRequests st) as F.
  { rewrite !elem_of_app. pose proof (k_ids _ _ _ K) as []. intros [?|[?|?]]; apply N; eauto. }
  assert (forall i t d, (i, Some (t, d)) ∈ known st ++ [(id, request)] ->
            asked st i t d \/ i = id) as A.
  { intros i t d. rewrite elem_of_app, list_elem_of_singleton. intros [?|?]; [by left|right]. congruence. }
  split; [|done]. constructor; cbn; unfold asked; cbn; try done.
  - intros i t d Hi. apply elem_of_app. left. by apply PI.
  - intros i t d Hi. apply elem_of_app. left. by apply PR.
  - intros i r Hr. destruct (PS i r Hr) as (t & d & w & Ha & Hw). exists t, d, w. split; [|done].
    apply elem_of_app. by left.
  - intros i resp t d Hr [Ha|Hi]%A; [by eapply PE|]. subst i. exfalso. apply F, elem_of_app. left.
    apply list_elem_of_fmap. by exists (id, resp).
  - rewrite fmap_snoc. apply NoDup_app. split; [done|]. split; [|apply NoDup_singleton].
    intros x Hx Hy. apply list_elem_of_singleton in Hy as ->. done.
  - intros i Hi. apply elem_of_app. left. by apply PP.
Qed.

Lemma fst_tagged {A B} (b : B) (l : list A) : (map (fun a => (a, b)) l).*1 = l.
Proof. induction l as [|a l IH]; cbn; [done|]. by rewrite IH. Qed.

(** [closeServer] answers the requests to close. *)
Lemma polite_closeServer st : polite_ok st -> polite_ok (closeServer st).
Proof.
  intros P. destruct (listening st) eqn:L; [|by rewrite closeServer_closed].
  rewrite closeServer_listening by done. destruct P as [PL PI PR PO PS PE PK PP P1].
  constructor; cbn; try done.
  - intros id resp type data. rewrite elem_of_app. intros [H|H]; [by eapply PE|].
    apply list_elem_of_fmap in H as (i & [= <- _] & Hi). intros A. exfalso.
    rewrite elem_of_rev in Hi. apply PP in Hi. unfold asked in A. cbn in A.
    by pose proof (known_functional st _ _ _ PK Hi A).
  - by intros id ?%not_elem_of_nil.
  - rewrite fmap_app, fst_tagged, app_nil_r.
    assert (((responses st).*1 ++ rev (pendingCloseRequests st)) ++ listeners st
            ≡ₚ (responses st).*1 ++ listeners st ++ pendingCloseRequests st) as ->; [|done].
    rewrite <- (assoc_L (++)). f_equiv. rewrite (comm (++)). f_equiv. symmetry. apply Permutation_rev.
Qed.

Lemma polite_line_shrinks st inbox_ (running_ : list (request_id * RequestType * Data))
    (outbox_ : list (request_id * RequestResult R)) :
  polite_ok st ->
  omap message_id inbox_ ++ running_.*1.*1 ++ outbox_.*1 `sublist_of` pipeline st ->
  omap message_id inbox_ ++ running_.*1.*1 ++ outbox_.*1 = []
  \/ exists id, omap message_id inbox_ ++ running_.*1.*1 ++ outbox_.*1 = [id] /\ listeners st = [id].
Proof.
  intros [PL _ _ _ _ _ _ _ _] S. destruct PL as [E|(id & E & L)]; rewrite E in S.
  - left. by apply sublist_nil_r in S.
  - apply sublist_cons_r in S as [S|(k & Ek & S)].
    + left. by apply sublist_nil_r in S.
    + apply sublist_nil_r in S as ->. right. by exists id.
Qed.

Lemma polite_step st l st' :
  server_ok true delay st -> polite_ok st -> polite st l -> step st l = Some st' -> polite_ok st'.
Proof.
  intros K P Q E. pose proof P as [PL PI PR PO PS PE PK PP P1]. destruct l; cbn [Bridge.step] in E.
  - (* Receive *) apply guard_Some in E as [E <-]. split_bools. cbn in Q.
    destruct (polite_middleware id (Some (type, data)) st K) as ([] & Ek & Er & El & Ep & Eline & F);
      [done..|]. unfold delegate. rewrite Q in *.
    assert (pipeline st = []) as L0 by (destruct PL as [?|(i & _ & [=])]; done).
    set (st1 := middleware _ _ _) in *.
    assert (asked st1 id type data) as A.
    { unfold asked. rewrite Ek. apply elem_of_app. right. by left. }
    constructor; cbn; try done.
    + right. exists id. rewrite L0 in Eline. unfold pipeline in *. cbn. rewrite El, omap_app. cbn.
      apply app_eq_nil in Eline as [E1 E2]. rewrite E1. cbn. by rewrite E2.
    + intros i t d. rewrite elem_of_app, list_elem_of_singleton. intros [?|[= -> -> ->]]; [by apply p_inbox0|exact A].
    + rewrite Er, El, Ep. cbn in *.
      assert ((responses st).*1 ++ id :: pendingCloseRequests st
              ≡ₚ id :: (responses st).*1 ++ pendingCloseRequests st) as -> by by rewrite Permutation_middle.
      by constructor.
  - (* ReceiveStatus *) apply guard_Some in E as [E <-]. split_bools.
    destruct (polite_middleware id None st K) as ([] & Ek & Er & El & Ep & Eline & F); [done..|].
    set (st1 := middleware _ _ _) in *. constructor; cbn; try done.
    + intros i resp t d. rewrite elem_of_app, list_elem_of_singleton. intros [Hr|[= -> ->]]; [by eapply p_responses0|].
      intros A. exfalso. assert ((id, None) ∈ known st1) as A'.
      { rewrite Ek. apply elem_of_app. right. by left. }
      by pose proof (known_functional st1 _ _ _ p_known0 A A').
    + rewrite fmap_snoc, Er, El, Ep in *. cbn.
      assert (((responses st).*1 ++ [id]) ++ listeners st ++ pendingCloseRequests st
              ≡ₚ id :: (responses st).*1 ++ listeners st ++ pendingCloseRequests st) as ->.
      { rewrite <- (assoc_L (++)). symmetry. apply Permutation_middle. }
      by constructor.
  - (* ReceiveClose *) apply guard_Some in E as [E <-]. split_bools.
    destruct (polite_middleware id None st K) as ([] & Ek & Er & El & Ep & Eline & F); [done..|].
    set (st1 := middleware _ _ _) in *. unfold close, postMessage. constructor; cbn; try done.
    + unfold pipeline in *. cbn. rewrite omap_app. cbn. by rewrite app_nil_r.
    + intros i t d. rewrite elem_of_app, list_elem_of_singleton. intros [?|?]; [by apply p_inbox0|done].
    + intros i. rewrite elem_of_app, list_elem_of_singleton. intros [?| ->]; [by apply p_pending0|].
      rewrite Ek. apply elem_of_app. right. by left.
    + rewrite Er, El, Ep.
      assert ((responses st).*1 ++ listeners st ++ pendingCloseRequests st ++ [id]
              ≡ₚ id :: (responses st).*1 ++ listeners st ++ pendingCloseRequests st) as ->.
      { rewrite (comm (++) (pendingCloseRequests st)), !(assoc_L (++)). cbn.
        rewrite <- (assoc_L (++) _ [id]). symmetry. apply Permutation_middle. }
      by constructor.
  - (* WorkerTakes *) destruct (inbox st) as [|[id type data|] rest] eqn:Ei; try done.
    apply guard_Some in E as [E <-]. split_bools. constructor; cbn; try done.
    + apply (polite_line_shrinks st rest (running st ++ [(id, type, data)]) (outbox st)); [done|].
      assert (omap message_id rest = [] /\ (running st).*1.*1 = [] /\ (outbox st).*1 = []) as (-> & E2 & ->).
      { unfold pipeline in PL. rewrite Ei in PL. cbn in PL.
        destruct PL as [[=]|(i & [= -> EL] & _)]. apply app_eq_nil in EL as [? EL].
        apply app_eq_nil in EL as [? ?]. done. }
      rewrite !fmap_snoc, E2. unfold pipeline. rewrite Ei. cbn. apply sublist_skip, sublist_nil_l.
    + intros i t d Hi. apply PI. by right.
    + intros i t d. rewrite elem_of_app, list_elem_of_singleton. intros [?|[= -> -> ->]]; [by apply PR|].
      apply PI. by left.
  - (* WorkerCloses *) destruct (inbox st) as [|[id type data|] rest] eqn:Ei; try done.
    apply guard_Some in E as [E <-]. split_bools. constructor; cbn; try done.
    + apply (polite_line_shrinks st rest (running st) (outbox st)); [done|]. unfold pipeline. by rewrite Ei.
    + intros i t d Hi. apply PI. by right.
  - (* WorkerExits *) apply guard_Some in E as [E <-]. apply polite_closeServer.
    constructor; cbn; try done; [|by intros ? ? ? ?%not_elem_of_nil].
    apply (polite_line_shrinks st (inbox st) [] (outbox st)); [done|]. unfold pipeline.
    apply sublist_app; [done|]. cbn. apply sublist_inserts_l. done.
  - (* WorkerCrashes *) apply guard_Some in E as [E <-]. apply polite_closeServer.
    constructor; cbn; try done; [|by intros ? ? ? ?%not_elem_of_nil].
    apply (polite_line_shrinks st (inbox st) [] (outbox st)); [done|]. unfold pipeline.
    apply sublist_app; [done|]. cbn. apply sublist_inserts_l. done.
  - (* HandlerSettles *) unfold settle in E.
    destruct (take_running id (running st)) as [[[type data] rest]|] eqn:Er; [|done].
    destruct (handle (analyzers st) type data) as [w r] eqn:Eh. injection E as <-.
    apply take_running_spec in Er as (before & after & Er & ->).
    assert (omap message_id (inbox st) = [] /\ before = [] /\ after = [] /\ (outbox st).*1 = []
            /\ listeners st = [id]) as (E1 & -> & -> & E4 & E5).
    { unfold pipeline in PL. rewrite Er, !fmap_app in PL. cbn in PL.
      destruct (omap message_id (inbox st)) as [|i is_]; cbn in PL.
      2: { destruct PL as [[=]|(j & [= _ EL] & _)]. by destruct is_, before. }
      destruct before as [|[[i t] d] before]; cbn in PL.
      2: { destruct PL as [[=]|(j & [= _ EL] & _)]. by destruct before. }
      destruct PL as [[=]|(j & [= <- EL] & ->)]. apply app_eq_nil in EL as [E3 E4].
      destruct after; done. }
    apply fmap_nil_inv in E4. constructor; cbn; try done.
    + unfold pipeline. cbn. rewrite E1, E4, E5. case_decide; cbn; [right; by exists id|by left].
    + by intros ? ? ? ?%not_elem_of_nil.
    + rewrite E4. intros x. case_decide; [|by intros ?%not_elem_of_nil]. intros Hx.
      apply elem_of_app. by right.
    + intros i q. rewrite elem_of_app, list_elem_of_singleton. intros [Hq|[= -> ->]]; [by apply PS|].
      exists type, data, (analyzers st). rewrite Eh. split; [|done]. apply PR. rewrite Er. by left.
    + intros i resp t d Hr Ha. destruct (PE i resp t d Hr Ha) as (q & Hq & ->). exists q.
      split; [|done]. apply elem_of_app. by left.
  - (* MainReceives *) destruct (outbox st) as [|[id m] rest] eqn:Eo; [done|]. injection E as <-.
    rewrite on_message_eq. cbn.
    assert (omap message_id (inbox st) = [] /\ (running st).*1.*1 = [] /\ rest = []
            /\ listeners st = [id]) as (E1 & E2 & -> & E4).
    { unfold pipeline in PL. rewrite Eo in PL. cbn in PL.
      destruct (omap message_id (inbox st)) as [|i is_]; cbn in PL.
      2: { destruct PL as [[=]|(j & [= _ EL] & _)]. by destruct is_, ((running st).*1.*1). }
      destruct ((running st).*1.*1) as [|i is_]; cbn in PL.
      2: { destruct PL as [[=]|(j & [= _ EL] & _)]. by destruct is_. }
      destruct PL as [[=]|(j & [= <- EL] & ->)]. by apply fmap_nil_inv in EL. }
    rewrite E4 in *. constructor; cbn; try done.
    + left. unfold pipeline. cbn. by rewrite E1, E2.
    + by intros ? ?%not_elem_of_nil.
    + intros i resp t d. rewrite elem_of_app, list_elem_of_singleton. intros [Hr|[= -> ->]] Ha; [by eapply PE|].
      exists m. split; [|done]. apply PO. by left.
    + rewrite fmap_app. cbn. by rewrite <- (assoc_L (++)).
  - (* Finish *) apply guard_Some in E as [_ <-]. unfold on_finish. case_match; [|done].
    unfold start. set (st1 := mkServer _ _ _ _ _ _ _ _ _ _ _ _ _ _ _ _ _ _ _ _).
    by destruct (stop_frame st1) as (ts & tm & ->).
  - (* ConnectionLost *) by apply guard_Some in E as [_ <-].
  - (* Elapse *) by apply guard_Some in E as [_ <-].
  - (* Fires *) destruct (map_get h (timers st)) as [t|] eqn:Et; [|done].
    apply guard_Some in E as [E <-]. unfold close, postMessage. constructor; cbn; try done.
    + unfold pipeline in *. cbn. rewrite omap_app. cbn. by rewrite app_nil_r.
    + intros i t' d. rewrite elem_of_app, list_elem_of_singleton. intros [?|?]; [by apply PI|done].
  - (* ServerCloses *) apply guard_Some in E as [_ <-]. unfold on_close, cancel.
    destruct (stop_frame (set_cancelled true st)) as (ts & tm & ->). done.
Qed.

Lemma reachable_polite st :
  reachable handle splitAst true delay polite st -> server_ok true delay st /\ polite_ok st.
Proof.
  induction 1 as [w|st l st' _ [K P] Q E].
  - split; [apply initial_ok|apply initial_polite].
  - split; [by eapply server_ok_step|by eapply polite_step].
Qed.

End Polite.

(** ** A client that is gone *)

Section Orphan.

Context {W Data R : Type}.
Variable handle : W -> RequestType -> Data -> W * RequestResult R.
Variable splitAst : R -> option (list Byte.byte * R).
Variable delay : nat.

Implicit Types st : server W Data R.

Notation step := (step handle splitAst true delay).
Notation run := (run handle splitAst true delay).

(** Nothing is left to happen, and no timer is pending. *)
Record orphaned st : Prop := mkOrphaned {
  o_timers : timers st = [];
  o_inbox : inbox st = [];
  o_running : running st = [];
  o_outbox : outbox st = [];
  o_worker : worker st = Alive;
  o_listening : listening st = true;
  o_finished : forall id, id ∈ (responses st).*1 -> id ∈ finished st \/ id ∈ lost st }.

(** What happens without a client and without a failure of the worker. *)
Definition unattended (l : label Data) : Prop := quiet l /\ l <> WorkerCrashes.

Lemma orphaned_step st l st' :
  orphaned st -> unattended l -> step st l = Some st' -> orphaned st'.
Proof.
  intros [T I Ru O Al L F] [Q N] E. destruct l; cbn [Bridge.step] in E; try done.
  - by rewrite I in E.
  - by rewrite I in E.
  - apply guard_Some in E as [E _]. split_bools. congruence.
  - unfold settle in E. by rewrite Ru in E.
  - by rewrite O in E.
  - apply guard_Some in E as [E _]. split_bools. exfalso. by destruct (F id).
  - apply guard_Some in E as [_ <-]. constructor; cbn; try done.
    intros i Hi. rewrite elem_of_app. destruct (F i Hi); auto.
  - apply guard_Some in E as [_ <-]. by constructor.
  - by rewrite T in E.
  - apply guard_Some in E as [E _]. rewrite L in E. done.
Qed.

Lemma orphaned_run ls : forall st st',
  orphaned st -> Forall unattended ls -> run st ls = Some st' -> orphaned st'.
Proof.
  induction ls as [|l ls IH]; intros st st' O U E; cbn in E; [by simplify_eq|].
  apply Forall_cons in U as [U1 U2]. destruct (step st l) as [st1|] eqn:S; [|done].
  eapply IH; [|done|done]. by eapply orphaned_step.
Qed.

End Orphan.

(** ** Properties *)

(** C15: with a client that waits for each answer before its next request, and
    whatever the timing of the worker, of the network and of the timer, no request
    is answered twice, and the answer to a request is the result (or the error) of
    the handler for its own type and data. *)
Theorem sequential_requests_get_their_result {W Data R}
    (handle : W -> RequestType -> Data -> W * RequestResult R) splitAst delay (st : server W Data R) :
  reachable handle splitAst true delay polite st ->
  NoDup (responses st).*1
  /\ forall id resp type data,
       (id, resp) ∈ responses st -> (id, Some (type, data)) ∈ known st ->
       exists w, resp = handleResult splitAst (handle w type data).2.
Proof.
  intros H. destruct (reachable_polite _ _ _ _ H) as [_ P]. split.
  - pose proof (p_once _ _ _ P) as N. by apply NoDup_app in N as [? _].
  - intros id resp type data Hr Ha.
    destruct (p_responses _ _ _ P id resp type data Hr Ha) as (r & Hs & ->).
    destruct (p_settled _ _ _ P id r Hs) as (t & d & w & Ha' & ->).
    pose proof (known_functional _ _ _ _ (p_known _ _ _ P) Ha Ha') as [= -> ->]. by exists w.
Qed.

(** When two requests overlap, the first result of the worker answers both: each
    request listens to the next message of the worker, whichever request it is for.
    The second result reaches nobody. *)
Theorem overlapping_requests_mix_results {W Data R}
    (handle : W -> RequestType -> Data -> W * RequestResult R) splitAst delay w t1 d1 t2 d2 :
  let first := handleResult splitAst (handle w t1 d1).2 in
  exists st,
    run handle splitAst true delay (initial delay w)
      [Receive 1 t1 d1; Receive 2 t2 d2; WorkerTakes; HandlerSettles 1; MainReceives;
       WorkerTakes; HandlerSettles 2; MainReceives] = Some st
    /\ responses st = [(1, first); (2, first)]
    /\ settled st = [(1, (handle w t1 d1).2); (2, (handle (handle w t1 d1).1 t2 d2).2)].
Proof.
  cbn zeta. destruct (handle w t1 d1) as [w1 r1] eqn:E1. cbn [fst snd].
  destruct (handle w1 t2 d2) as [w2 r2] eqn:E2.
  eexists. split; [|split]; [vm_compute; rewrite E1; vm_compute; rewrite E2; reflexivity|reflexivity..].
Qed.

(** C16: from any reachable state in which all requests are served, without further
    requests, the server closes, on every run, no later than the delay of the
    timeout: the timer is never lost, whatever happened before. *)
Theorem idle_bridge_shuts_down {W Data R}
    (handle : W -> RequestType -> Data -> W * RequestResult R) splitAst has_worker delay
    (st : server W Data R) :
  reachable handle splitAst has_worker delay (fun _ _ => True) st -> idle st ->
  eventually handle splitAst has_worker delay
    (fun st' => serverClosed st' = true /\ (now st' <= now st + delay)%nat) st.
Proof.
  intros H I. eapply calm_eventually; [apply Nat.lt_succ_diag_r|].
  apply idle_calm; [by eapply reachable_ok|done].
Qed.

(** When the connection is lost while its request is served (the plugin
    crashed), the event [finish] that restarts the timer never comes: nothing ever
    closes the server or its worker, however long it runs. *)
Theorem lost_connection_orphans_bridge {W Data R}
    (handle : W -> RequestType -> Data -> W * RequestResult R) splitAst delay w type data :
  exists st,
    run handle splitAst true delay (initial delay w)
      [Receive 1 type data; WorkerTakes; ConnectionLost 1; HandlerSettles 1; MainReceives] = Some st
    /\ forall ls st',
         Forall unattended ls -> run handle splitAst true delay st ls = Some st' ->
         listening st' = true /\ worker st' = Alive /\ timers st' = [].
Proof.
  destruct (handle w type data) as [w1 r1] eqn:E1. eexists. split.
  - vm_compute. rewrite E1. reflexivity.
  - intros ls st' U E. eapply orphaned_run in E; [by destruct E| |done].
    constructor; try done. cbn. intros id ->%list_elem_of_singleton. right. by left.
Qed.

(** ** Witnesses *)

Section Witnesses.

(** Analyzers that count the requests, and add the count to the data. *)
Definition counting (w : nat) (type : RequestType) (data : nat) : nat * RequestResult nat :=
  (S w, success (w + data)).

Definition no_ast (r : nat) : option (list Byte.byte * nat) := None.

Definition two_requests : list (label nat) :=
  [Receive 1 on_analyze_js 10; WorkerTakes; HandlerSettles 1; MainReceives; Finish 1;
   Receive 2 on_analyze_ts 20; WorkerTakes; HandlerSettles 2; MainReceives; Finish 2].

(** The state once both requests are served. *)
Definition served : server nat nat nat :=
  Eval vm_compute in
    match run counting no_ast true 15 (initial 15 0) two_requests with
    | Some st => st
    | None => initial 15 0
    end.

Lemma served_reachable allowed :
  along counting no_ast true 15 allowed (initial 15 0) two_requests ->
  reachable counting no_ast true 15 allowed served.
Proof.
  intros A. apply (run_reachable counting no_ast true 15 allowed two_requests (initial 15 0) served).
  - constructor.
  - exact A.
  - vm_compute. reflexivity.
Qed.

Lemma sequential_requests_get_their_result_witness :
  responses served = [(1, SendResult 10); (2, SendResult 21)]
  /\ NoDup (responses served).*1
  /\ exists w, SendResult 21 = handleResult no_ast (counting w on_analyze_ts 20).2.
Proof.
  split; [reflexivity|].
  destruct (sequential_requests_get_their_result counting no_ast 15 served) as [N A].
  - apply served_reachable. vm_compute. tauto.
  - split; [exact N|]. apply (A 2 (SendResult 21) on_analyze_ts 20).
    + right. left.
    + right. left.
Defined.

Lemma idle_bridge_shuts_down_witness :
  now served = 0
  /\ eventually counting no_ast true 15
       (fun st' => serverClosed st' = true /\ (now st' <= now served + 15)%nat) served.
Proof.
  split; [reflexivity|]. apply idle_bridge_shuts_down.
  - apply served_reachable. vm_compute. tauto.
  - constructor; try reflexivity.
    + intros id H. exact H.
    + intros m H. apply not_elem_of_nil in H. destruct H.
Defined.

End Witnesses.
