(* ===== verification/Results.v ===== *)
(** * Results: what the internal rules send through their messages

    A message is the only channel of a rule: symbol highlighting reports its list
    of symbols as a JSON text and the metric of cognitive complexity a numeral.
    This file ties [symbol-highlighting.ts] and [S3776/rule.ts] (the texts) to
    [issues/extract.ts] and [issues/transform.ts] (what is read from them),
    through the interface [JsonCodec]. *)

From Stdlib Require Import ZArith Lia Ascii DecimalN.
From Stdlib Require Import DecimalString.
From stdpp Require Import base list strings.
From S2P Require Import Prelude JsString Json Estree Metrics Highlighting Issues.

Open Scope js_scope.

(** ** Values in JSON *)

Definition metrics_location_json (l : Location) : json :=
  JObj [("startLine", JNum (startLine l)); ("startCol", JNum (startCol l));
        ("endLine", JNum (endLine l)); ("endCol", JNum (endCol l))].

Definition as_metrics_location (v : json) : option Location :=
  match v with
  | JObj kvs =>
      startLine ← required "startLine" kvs as_number;
      startCol ← required "startCol" kvs as_number;
      endLine ← required "endLine" kvs as_number;
      endCol ← required "endCol" kvs as_number;
      Some (mkLocation startLine startCol endLine endCol)
  | _ => None
  end.

#[export] Program Instance metrics_location_codec : JsonCodec Location := {|
  to_json := metrics_location_json;
  of_json := as_metrics_location |}.
Next Obligation. by intros []. Qed.

Definition symbol_json (s : SymbolHighlight) : json :=
  JObj [("declaration", to_json (declaration s)); ("references", to_json (symbol_references s))].

Definition as_symbol (v : json) : option SymbolHighlight :=
  match v with
  | JObj kvs =>
      declaration ← required "declaration" kvs of_json;
      references ← required "references" kvs of_json;
      Some (mkSymbol declaration references)
  | _ => None
  end.

#[export] Program Instance symbol_codec : JsonCodec SymbolHighlight := {|
  to_json := symbol_json;
  of_json := as_symbol |}.
Next Obligation.
  intros [d r]. unfold symbol_json, as_symbol, required, json_get.
  cbn -[to_json of_json]. rewrite of_to_json. cbn -[to_json of_json]. by rewrite of_to_json.
Qed.

(** ** The texts *)

(** [JSON.stringify(result)], the message of the rule of symbol highlighting. *)
Definition symbols_message (symbols : list SymbolHighlight) : string := stringify (to_json symbols).

(** The template [{{complexityAmount}}] with the complexity of the file. *)
Definition complexity_message (fileComplexity : Z) : string := print_int fileComplexity.

(** [message] is what the wrapper gets for a report of the internal rule [ruleId]
    with the text [text]: these rules have no fixes. *)
Definition reports (ruleId text : string) (message : LintMessage) : Prop :=
  m_ruleId message = Some ("sonarjs/" +:+ ruleId) /\ m_message message = text
  /\ m_fix message = None /\ m_suggestions message = None.

Definition is_internal (ruleId : string) : Prop :=
  ruleId = symbolHighlightingRuleId \/ ruleId = cognitiveComplexityRuleId.

#[export] Instance is_internal_dec ruleId : Decision (is_internal ruleId).
Proof. unfold is_internal. apply _. Defined.

(** A message of the other rules: the path of a UCFG file, or a message that
    transforms and is not one of an internal rule once decoded. *)
Definition external getLocFromIndex rules (message : LintMessage) : Prop :=
  is_ucfg message = true
  \/ exists issue, transformMessage getLocFromIndex rules message = Ok issue
       /\ forall i, issue = Some i -> ~ is_internal (i_ruleId i).

(** The issue of a message, when it transforms. *)
Definition issue_of getLocFromIndex rules (message : LintMessage) : option Issue :=
  match transformMessage getLocFromIndex rules message with Ok issue => issue | Throw _ => None end.

(** ** Lemmas *)

Lemma Number_print_nat p :
  exists c t d, NilZero.string_of_uint (N.to_uint (Npos p)) = String c t
    /\ Ascii.eqb c "-" = false /\ Ascii.eqb c "+" = false
    /\ take_digits (String c t) = (d, "") /\ d <> Decimal.Nil /\ N.of_uint d = Npos p.
Proof.
  destruct (print_nat_head p) as (c & t & E & Hc). exists c, t, (N.to_uint (Npos p)).
  assert (N.to_uint (Npos p) <> Decimal.Nil) as Hn.
  { intros H. pose proof (DecimalN.Unsigned.of_to (Npos p)) as Ho. by rewrite H in Ho. }
  split; [done|]. assert (forall a, (nat_of_ascii a < 48)%nat -> Ascii.eqb c a = false) as Ha.
  { intros a H. apply Ascii.eqb_neq. intros ->. lia. }
  split; [apply Ha; vm_compute; lia|]. split; [apply Ha; vm_compute; lia|].
  rewrite <- E. split; [|split; [done|apply DecimalN.Unsigned.of_to]].
  pose proof (take_digits_print (N.to_uint (Npos p)) "" eq_refl) as T.
  rewrite append_nil in T. unfold NilZero.string_of_uint. by destruct (N.to_uint (Npos p)).
Qed.

(** [Number] reads the numerals that [toString] writes. *)
Lemma Number_print z : Number (print_int z) = Some z.
Proof.
  unfold Number. rewrite trim_numeral by apply print_int_chars.
  destruct z as [|p|p]; [done|..]; destruct (Number_print_nat p) as (c & t & d & E & Hm & Hp & T & Hn & Ho).
  - cbn [print_int]. rewrite E, Hm, Hp, T. cbv iota beta. destruct d; try done; by rewrite Ho.
  - cbn [print_int String.append]. rewrite E.
    change ("-" +:+ String c t) with (String "-" (String c t)). cbv iota beta.
    change (Ascii.eqb "-" "-") with true. cbv iota beta. rewrite T. destruct d; try done; by rewrite Ho.
Qed.

(** The messages of the internal rules become issues with their texts, whether or
    not the rule encodes secondary locations: a list and a number add nothing to
    an issue. *)
Lemma internal_message_transforms getLocFromIndex rules ruleId v message :
  match v with JObj _ => False | _ => True end ->
  reports ruleId (stringify v) message ->
  exists issue, transformMessage getLocFromIndex rules message = Ok (Some issue)
    /\ i_ruleId issue = ruleId /\ i_message issue = stringify v.
Proof.
  intros Hv (Hr & Hm & Hf & Hs). unfold transformMessage, convertMessage. rewrite Hr, Hm.
  assert (startsWith "sonarjs/" ("sonarjs/" +:+ ruleId) = true) as -> by (by destruct ruleId).
  assert (withoutPrefix ("sonarjs/" +:+ ruleId) = ruleId) as -> by done.
  unfold transformFixes, hasQuickFix. rewrite Hf, Hs. cbn [negb rbind].
  unfold decodeSonarRuntime. cbn [i_message i_ruleId]. rewrite JSON_parse_stringify.
  destruct (hasSonarRuntimeOption _); [destruct v|]; try done; cbn; by eexists.
Qed.

Lemma internal_not_ucfg ruleId text message :
  is_internal ruleId -> reports ruleId text message -> is_ucfg message = false.
Proof. intros [-> | ->] (Hr & _); unfold is_ucfg; by rewrite Hr. Qed.

Lemma filter_all {A} (P : A -> Prop) `{!forall x, Decision (P x)} l : Forall P l -> filter P l = l.
Proof. induction 1; [done|]. rewrite filter_cons, decide_True by done. by f_equal. Qed.

Lemma filter_none {A} (P : A -> Prop) `{!forall x, Decision (P x)} l :
  Forall (fun x => ~ P x) l -> filter P l = [].
Proof. induction 1; [done|]. by rewrite filter_cons, decide_False. Qed.

(** When one issue has the rule, it is the one found. *)
Lemma removed_only ruleId l rest found i :
  removed ruleId l rest found -> filter (fun j => i_ruleId j = ruleId) l ≡ₚ [i] ->
  found = Some i /\ rest = filter (fun j => i_ruleId j <> ruleId) l.
Proof.
  intros H E. apply Permutation_singleton_r in E. unfold removed in H. destruct found as [j|].
  - destruct H as (pre & post & -> & -> & Hj & Hpre).
    assert (filter (fun j => i_ruleId j = ruleId) pre = []) as Np by by apply filter_none.
    assert (filter (fun j => i_ruleId j <> ruleId) pre = pre) as Ap by by apply filter_all.
    rewrite filter_app, Np, filter_cons, decide_True in E by done. cbn in E. injection E as -> E.
    split; [done|]. rewrite filter_app, Ap, filter_cons, decide_False by naive_solver.
    f_equal. symmetry. apply filter_all, Forall_forall. intros k Hk Hr.
    assert (k ∈ filter (fun j => i_ruleId j = ruleId) post) as X by by apply list_elem_of_filter.
    rewrite E in X. by apply not_elem_of_nil in X.
  - destruct H as [-> H]. assert (filter (fun j => i_ruleId j = ruleId) l = []) as Nl
      by by apply filter_none. by rewrite Nl in E.
Qed.

Section Arrival.

Variable getLocFromIndex : Z -> Z * Z.
Variable rules : string -> option RuleMetaData.

Notation transform := (transformMessage getLocFromIndex rules).
Notation the_issue := (issue_of getLocFromIndex rules).

Lemma external_linted others :
  Forall (external getLocFromIndex rules) others ->
  Forall (fun m => exists o, transform m = Ok o) (linted others)
  /\ Forall (fun i => ~ is_internal (i_ruleId i)) (omap the_issue (linted others)).
Proof.
  unfold linted, issue_of. induction 1 as [|m others Hm _ [IH1 IH2]]; [done|].
  rewrite filter_cons. case_decide as U; [|done]. destruct Hm as [?|(o & Ho & Hi)]; [congruence|].
  split; [constructor; [by eexists|done]|]. cbn. rewrite Ho. destruct o as [i|]; [|done].
  constructor; [by apply Hi|done].
Qed.

Lemma transformed_all l :
  Forall (fun m => exists o, transform m = Ok o) l ->
  Forall2 (fun m o => transform m = Ok o) l (map the_issue l).
Proof.
  unfold issue_of. induction 1 as [|m l [o Ho] _ IH]; [done|]. constructor; [|done]. by rewrite Ho.
Qed.

Lemma omap_issues l : omap id (map the_issue l) = omap the_issue l.
Proof. induction l as [|m l IH]; [done|]. cbn. by rewrite IH. Qed.

(** One issue of each internal rule among others that are of neither. *)
Lemma one_of_each (l others : list Issue) s c :
  i_ruleId s = symbolHighlightingRuleId -> i_ruleId c = cognitiveComplexityRuleId ->
  l ≡ₚ s :: c :: others -> Forall (fun i => ~ is_internal (i_ruleId i)) others ->
  filter (fun j => i_ruleId j = symbolHighlightingRuleId) l ≡ₚ [s]
  /\ filter (fun j => i_ruleId j = cognitiveComplexityRuleId)
       (filter (fun j => i_ruleId j <> symbolHighlightingRuleId) l) ≡ₚ [c].
Proof.
  intros Es Ec -> H. rewrite list_filter_filter, !filter_cons, Es, Ec.
  rewrite !(filter_none _ others).
  - repeat case_decide; by naive_solver.
  - eapply Forall_impl; [exact H|]. intros i N [E _]. apply N. by right.
  - eapply Forall_impl; [exact H|]. intros i N E. apply N. by left.
Qed.

End Arrival.

(** ** Property *)

(** The results of the internal rules arrive. When the messages of a file
    are, in any order, one report of the symbols, one report of the complexity
    and messages of other rules that transform, linting returns exactly the list
    of symbols and the complexity that were reported, and the issues, in the
    order of the messages, of all the other messages; this does not depend on
    whether the internal rules encode secondary locations. *)
Theorem internal_results_arrive getLocFromIndex rules symbols complexity
    symbolMessage complexityMessage others msgs :
  reports symbolHighlightingRuleId (symbols_message symbols) symbolMessage ->
  reports cognitiveComplexityRuleId (complexity_message complexity) complexityMessage ->
  Forall (external getLocFromIndex rules) others ->
  msgs ≡ₚ symbolMessage :: complexityMessage :: others ->
  exists r, transformMessages getLocFromIndex rules msgs = Ok r
    /\ of_json (highlightedSymbols r) = Some symbols
    /\ cognitiveComplexity r = Some complexity
    /\ issues r = filter (fun i => ~ is_internal (i_ruleId i))
                     (omap (issue_of getLocFromIndex rules) (linted msgs)).
Proof.
  intros Hs Hc Ho Hm.
  destruct (internal_message_transforms getLocFromIndex rules _ (JArr (map to_json symbols)) _ I Hs)
    as (si & Ts & Rs & Ms).
  destruct (internal_message_transforms getLocFromIndex rules _ (JNum complexity) _ I Hc)
    as (ci & Tc & Rc & Mc).
  apply external_linted in Ho as [Ao Io].
  assert (linted msgs ≡ₚ symbolMessage :: complexityMessage :: linted others) as Hl.
  { unfold linted. rewrite Hm, !filter_cons, !decide_True; [done|..];
      (eapply internal_not_ucfg; [|done]); [by right|by left]. }
  assert (omap (issue_of getLocFromIndex rules) (linted msgs)
          ≡ₚ si :: ci :: omap (issue_of getLocFromIndex rules) (linted others)) as Hi.
  { rewrite Hl. cbn. unfold issue_of at 1 2. by rewrite Ts, Tc. }
  destruct (one_of_each _ _ si ci Rs Rc Hi Io) as [Fs Fc].
  destruct (removed_only _ _ _ _ _ (findAndRemove_removed _ _) Fs) as [E1 L1].
  rewrite <- L1 in Fc.
  destruct (removed_only _ _ _ _ _ (findAndRemove_removed _ _) Fc) as [E2 L2].
  exists (mkResult (filter (fun i => ~ is_internal (i_ruleId i))
              (omap (issue_of getLocFromIndex rules) (linted msgs)))
            (map m_message (filter (fun m => is_ucfg m = true) msgs)) (to_json symbols) (Some complexity)).
  split; [|split; [apply of_to_json|done]].
  apply transformMessages_spec.
  eexists (map (issue_of getLocFromIndex rules) (linted msgs)), _, (Some si), (Some ci).
  split; [|split; [|split; [|split; [done|split]]]].
  - apply transformed_all. rewrite Hl. constructor; [by eexists|]. constructor; [by eexists|done].
  - rewrite omap_issues, <- E1. apply findAndRemove_removed.
  - cbn [issues].
    replace (filter (fun i => ~ is_internal (i_ruleId i)) _)
      with (filter (fun i => i_ruleId i <> cognitiveComplexityRuleId)
              (findAndRemoveFirstIssue (omap (issue_of getLocFromIndex rules) (linted msgs))
                 symbolHighlightingRuleId).1).
    + rewrite <- L2, <- E2. apply findAndRemove_removed.
    + rewrite L1, list_filter_filter. apply list_filter_iff. unfold is_internal. naive_solver.
  - cbn [highlightedSymbols]. rewrite Ms. apply JSON_parse_stringify.
  - cbn. rewrite Mc. symmetry. apply Number_print.
Qed.

(** ** Witness *)

Definition internal_message (ruleId text : string) : LintMessage :=
  mkMessage (Some ("sonarjs/" +:+ ruleId)) 1 1 None None text None None.

Definition some_symbols : list SymbolHighlight :=
  [mkSymbol (mkLocation 1 4 1 5) [mkLocation 2 0 2 1]; mkSymbol (mkLocation 1 8 1 9) []].

Lemma internal_results_arrive_witness :
  exists r,
    transformMessages (fun i => (1%Z, i)) (fun _ => None)
      [internal_message cognitiveComplexityRuleId "12";
       internal_message "S1116" "Unnecessary semicolon.";
       internal_message symbolHighlightingRuleId (symbols_message some_symbols)] = Ok r
    /\ of_json (highlightedSymbols r) = Some some_symbols
    /\ cognitiveComplexity r = Some 12%Z
    /\ map i_ruleId (issues r) = ["S1116"].
Proof.
  destruct (internal_results_arrive (fun i => (1%Z, i)) (fun _ => None) some_symbols 12
    (internal_message symbolHighlightingRuleId (symbols_message some_symbols))
    (internal_message cognitiveComplexityRuleId "12")
    [internal_message "S1116" "Unnecessary semicolon."]
    [internal_message cognitiveComplexityRuleId "12";
     internal_message "S1116" "Unnecessary semicolon.";
     internal_message symbolHighlightingRuleId (symbols_message some_symbols)])
    as (r & Hr & Hs & Hc & Hi).
  - done.
  - done.
  - constructor; [|constructor]. right. eexists. split; [by vm_compute|].
    intros i [= <-]. by intros [H|H].
  - apply Permutation_sym. rewrite (Permutation_swap _ _ _). constructor.
    apply (Permutation_swap _ _ []).
  - exists r. split; [exact Hr|]. split; [exact Hs|]. split; [exact Hc|].
    rewrite Hi. by vm_compute.
Defined.
