(* ===== verification/Embedded.v ===== *)
(** * Embedded: JavaScript embedded in HTML and YAML files

    The code of [packages/html/src/parser/parse.ts],
    [packages/yaml/src/parser/parse-yaml.ts], [packages/yaml/src/aws] and
    [packages/jsts/src/embedded]: the extraction of the snippets, the patch of
    the locations of a snippet's tree, tokens and comments, the patch of parsing
    errors, the issues kept. The contents of a file is a list of UTF-16 code units,
    which is what offsets count. htmlparser2 gives the events of the tags, yaml the
    documents and the pairs it visits with their ancestors; ESLint gives
    locations for offsets. The objects
    of a tree are shared: their locations are in a store, by their identities, and
    an object that the traversal reaches twice is patched twice. *)

From Stdlib Require Import ZArith Lia Ascii Sorting.Sorted.
From stdpp Require Import base list gmap sets strings sorting.
From S2P Require Import Prelude JsString Json Estree Issues Metrics.

Open Scope js_scope.
Open Scope Z_scope.

Definition text_ := list Z.

Inductive Format := PLAIN | BLOCK_FOLDED | BLOCK_LITERAL.

Record EmbeddedJS := mkEmbedded {
  code : text_;
  e_line : Z;
  e_column : Z;
  offset : Z;
  lineStarts : list Z;
  text : text_;
  format : Format;
  resourceName : option string }.

(** [str.slice(a, b)] for offsets that are not negative *)
Definition slice (t : text_) (a b : Z) : text_ :=
  take (Z.to_nat b - Z.to_nat a) (drop (Z.to_nat a) t).

Definition CR : Z := 13.
Definition LF : Z := 10.

(** ** HTML *)

Definition validMimeTypes : list string :=
  ["module"; "text/javascript"; "application/javascript"; "application/ecmascript";
   "application/x-ecmascript"; "application/x-javascript"; "text/ecmascript"; "text/javascript1.0";
   "text/javascript1.1"; "text/javascript1.2"; "text/javascript1.3"; "text/javascript1.4";
   "text/javascript1.5"; "text/jscript"; "text/livescript"; "text/x-ecmascript"; "text/x-javascript"].

(** The loop of [computeLineStarts]: the index after each match of
    [/\r\n|\r|\n/]. *)
Fixpoint line_ends (i : Z) (t : text_) : list Z :=
  match t with
  | [] => []
  | c :: r =>
      if c =? LF then (i + 1) :: line_ends (i + 1) r
      else if c =? CR then
        match r with
        | d :: r' => if d =? LF then (i + 2) :: line_ends (i + 2) r' else (i + 1) :: line_ends (i + 1) r
        | [] => [i + 1]
        end
      else line_ends (i + 1) r
  end.

Definition computeLineStarts (str : text_) : list Z := 0 :: line_ends 0 str.

(** The index where the loops of [computeLine] and [computeCol] stop. *)
Fixpoint first_after (i : nat) (offset : Z) (fileLineStarts : list Z) : nat :=
  match fileLineStarts with
  | [] => i
  | s :: rest => if s >? offset then i else first_after (S i) offset rest
  end.

Definition computeLine (offset : Z) (fileLineStarts : list Z) : Z :=
  Z.of_nat (first_after 0 offset fileLineStarts).

Definition computeCol (offset : Z) (fileLineStarts : list Z) : Z :=
  offset - nth (first_after 0 offset fileLineStarts - 1) fileLineStarts 0 + 1.

(** What the parser calls back with: a tag opened, with two of its attributes and
    the index of its last character; a tag closed, with the index of its first. *)
Inductive html_event :=
| OpenTag (name : string) (src type : option string) (endIndex : Z)
| CloseTag (name : string) (startIndex : Z).

Record html_state := mkHtml {
  jsSnippetStartIndex : Z;
  jsSnippetEndIndex : Z;
  inScript : bool;
  embeddedJSs : list EmbeddedJS }.

Definition ignored_script (src type : option string) : bool :=
  truthy src || (truthy type && negb (includes (default "" type) validMimeTypes)).

Definition html_step (contents : text_) (starts : list Z) (st : html_state) (e : html_event) : html_state :=
  match e with
  | OpenTag name src type endIndex =>
      if negb (name =s "script") || ignored_script src type then st
      else mkHtml (endIndex + 1) (jsSnippetEndIndex st) true (embeddedJSs st)
  | CloseTag name startIndex =>
      if negb (name =s "script") || negb (inScript st) then st
      else
        let a := jsSnippetStartIndex st in
        mkHtml startIndex startIndex false
          (embeddedJSs st
           ++ [mkEmbedded (slice contents a startIndex) (computeLine a starts) (computeCol a starts) a
                 starts contents PLAIN None])
  end.

(** htmlparser2 on the contents of the file. *)
Definition parseHTML (parseComplete : text_ -> list html_event) (contents : text_) : list EmbeddedJS :=
  match contents with
  | [] => []
  | _ =>
      embeddedJSs (fold_left (html_step contents (computeLineStarts contents)) (parseComplete contents)
                     (mkHtml 0 0 false []))
  end.

(** ** YAML *)

(** The value of a scalar: a text, or a number, a boolean or null. *)
Inductive scalar := ScalarText (s : string) | ScalarOther.

(** The nodes of the library yaml, as far as the code reads them. A scalar has the
    type of its format, the offset of its start and the source of its token. *)
Inductive ynode :=
| YScalar (v : scalar) (type : string) (start : Z) (source : option text_)
| YMap (items : list ynode)
| YSeq (items : list ynode)
| YPair (key value : ynode)
| YNull.

Inductive yaml_error :=
| TypeError
| MissingSource
| ParsingError (message : string) (line : Z).

(** [x.value] when it is a text; a property of [null] is a [TypeError]. *)
Definition text_value (x : option ynode) : result yaml_error (option string) :=
  match x with
  | None | Some YNull => Throw TypeError
  | Some (YScalar (ScalarText s) _ _ _) => Ok (Some s)
  | Some _ => Ok None
  end.

Definition pair_key (n : ynode) : option ynode := match n with YPair k _ => Some k | _ => None end.
Definition pair_value (n : ynode) : option ynode := match n with YPair _ v => Some v | _ => None end.

Definition is_text (t : option string) (s : string) : bool :=
  match t with Some t => t =s s | None => false end.

(** [ancestors\[ancestors.length - level\]] *)
Definition ancestor (ancestors : list ynode) (level : nat) : option ynode :=
  if Nat.ltb (length ancestors) level then None else ancestors !! (length ancestors - level)%nat.

(** [x?.items?.some(p)]; undefined is false. *)
Fixpoint some_item (p : ynode -> result yaml_error bool) (items : list ynode) : result yaml_error bool :=
  match items with
  | [] => Ok false
  | i :: rest => let! b := p i in if (b : bool) then Ok true else some_item p rest
  end.

Definition some_of (p : ynode -> result yaml_error bool) (x : option ynode) : result yaml_error bool :=
  match x with
  | Some (YMap items) | Some (YSeq items) => some_item p items
  | _ => Ok false
  end.

(** [item?.key.value === key] *)
Definition item_key_is (key : string) (item : ynode) : result yaml_error bool :=
  match item with
  | YNull => Ok false
  | _ => let! k := text_value (pair_key item) in Ok (is_text k key)
  end.

(** [item?.value?.value.startsWith('nodejs')] *)
Definition starts_with_nodejs (item : ynode) : result yaml_error bool :=
  match pair_value item with
  | None | Some YNull => Ok false
  | Some v =>
      let! t := text_value (Some v) in
      match t with
      | Some t => Ok (startsWith "nodejs" t)
      | None => Throw TypeError
      end
  end.

Definition hasNodeJsRuntime (ancestors : list ynode) (level : nat) : result yaml_error bool :=
  some_of (fun item =>
    let! k := item_key_is "Runtime" item in
    if (k : bool) then starts_with_nodejs item else Ok false) (ancestor ancestors level).

(** [item?.value.value === value] *)
Definition hasType (ancestors : list ynode) (value : string) (level : nat) : result yaml_error bool :=
  some_of (fun item =>
    let! k := item_key_is "Type" item in
    if (k : bool) then let! t := text_value (pair_value item) in Ok (is_text t value) else Ok false)
    (ancestor ancestors level).

(** [ancestors\[ancestors.length - level\]?.key?.value === 'Code'] *)
Definition hasCode (ancestors : list ynode) (level : nat) : result yaml_error bool :=
  match a ← ancestor ancestors level; pair_key a with
  | None | Some YNull => Ok false
  | Some k => let! t := text_value (Some k) in Ok (is_text t "Code")
  end.

(** [a && b] on computations *)
Definition rand (a b : result yaml_error bool) : result yaml_error bool :=
  let! x := a in if (x : bool) then b else Ok false.

Definition pair_key_is (pair : ynode) (key : string) : result yaml_error bool :=
  let! t := text_value (pair_key pair) in Ok (is_text t key).

Definition isInlineAwsLambda (pair : ynode) (ancestors : list ynode) : result yaml_error bool :=
  rand (pair_key_is pair "ZipFile")
    (rand (hasCode ancestors 2)
       (rand (hasNodeJsRuntime ancestors 3) (hasType ancestors "AWS::Lambda::Function" 5))).

Definition isInlineAwsServerless (pair : ynode) (ancestors : list ynode) : result yaml_error bool :=
  rand (pair_key_is pair "InlineCode")
    (rand (hasNodeJsRuntime ancestors 1) (hasType ancestors "AWS::Serverless::Function" 3)).

(** [ancestors\[ancestors.length - level\].key.value], as the name of the resource. *)
Definition pickResourceName (level : nat) (ancestors : list ynode) : result yaml_error (option string) :=
  match ancestor ancestors level with
  | Some a => text_value (pair_key a)
  | None => Throw TypeError
  end.

Record ParsingContext := mkParsingContext {
  predicate : ynode -> list ynode -> result yaml_error bool;
  picker : list ynode -> result yaml_error (option string) }.

Definition lambdaParsingContext : ParsingContext :=
  mkParsingContext isInlineAwsLambda (pickResourceName 6).

Definition serverlessParsingContext : ParsingContext :=
  mkParsingContext isInlineAwsServerless (pickResourceName 4).

(** [SUPPORTED_STRING_FORMATS] *)
Definition format_of (type : string) : option Format :=
  map_get type [("PLAIN", PLAIN); ("BLOCK_FOLDED", BLOCK_FOLDED); ("BLOCK_LITERAL", BLOCK_LITERAL)].

Definition isSupportedFormat (pair : ynode) : option Format :=
  match pair_value pair with Some (YScalar _ type _ _) => format_of type | _ => None end.

Definition fixOffset (offset : Z) (f : Format) : Z :=
  match f with
  | BLOCK_FOLDED | BLOCK_LITERAL => offset + 2
  | PLAIN => offset
  end.

Section Yaml.

(** [lineCounter.linePos] and [lineCounter.lineStarts] *)
Variable linePos : Z -> Z * Z.
Variable starts : list Z.

(** The snippet of a pair for one context, if any. *)
Definition embedded_of (contents : text_) (pair : ynode) (ancestors : list ynode) (c : ParsingContext)
  : result yaml_error (list EmbeddedJS) :=
  let! matches := predicate c pair ancestors in
  match (if (matches : bool) then isSupportedFormat pair else None), pair_value pair with
  | Some f, Some (YScalar _ _ offsetStart source) =>
      match source with
      | Some src =>
          let (line, column) := linePos offsetStart in
          let! name := picker c ancestors in
          Ok [mkEmbedded src line column (fixOffset offsetStart f) starts contents f name]
      | None => Throw MissingSource
      end
  | _, _ => Ok []
  end.

(** A document: its errors with their offsets, the pairs visited with their
    ancestors. *)
Record document := mkDocument {
  d_errors : list (string * Z);
  d_pairs : list (ynode * list ynode) }.

Definition concat_results {A} (f : A -> result yaml_error (list EmbeddedJS)) (l : list A)
  : result yaml_error (list EmbeddedJS) :=
  let! ls := rmap_list f l in Ok (concat ls).

Definition parseYaml (contexts : list ParsingContext) (contents : text_) (docs : list document)
  : result yaml_error (list EmbeddedJS) :=
  concat_results (fun doc =>
    match d_errors doc with
    | (message, position) :: _ => Throw (ParsingError message (linePos position).1)
    | [] =>
        concat_results (fun pa => concat_results (embedded_of contents pa.1 pa.2) contexts) (d_pairs doc)
    end) docs.

Definition parseAwsFromYaml : text_ -> list document -> result yaml_error (list EmbeddedJS) :=
  parseYaml [lambdaParsingContext; serverlessParsingContext].

End Yaml.

(** ** The patch of a snippet *)

(** The loop of [computeLines]: the start and the end of each match of
    [/\r\n|[\r\n\u2028\u2029]/]. *)
Fixpoint line_breaks (i : Z) (t : text_) : list Z :=
  match t with
  | [] => []
  | c :: r =>
      if (c =? LF) || (c =? 8232) || (c =? 8233) then i :: line_breaks (i + 1) r
      else if c =? CR then
        match r with
        | d :: r' => if d =? LF then i :: line_breaks (i + 2) r' else i :: line_breaks (i + 1) r
        | [] => [i]
        end
      else line_breaks (i + 1) r
  end.

(** [text.slice(undefined, end)] starts at 0. *)
Definition computeLines (e : EmbeddedJS) : list text_ :=
  imap (fun i index => slice (text e) (default 0 (lineStarts e !! i)) index) (line_breaks 0 (text e))
  ++ [let s := default 0 (last (lineStarts e)) in slice (text e) s (Z.of_nat (length (text e)))].

Section Patch.

(** [getLocFromIndex] of the patched source code *)
Variable getLocFromIndex : Z -> Position.
Variable shift : Z.

(** [fixNodeLocation] on the location and the range of a node, comment or token *)
Definition fixNodeLocation (loc : option SourceLocation) (range : option (Z * Z))
  : option SourceLocation * option (Z * Z) :=
  let loc' :=
    match loc, range with
    | Some _, Some (s, e) => Some (mkLoc (getLocFromIndex (s + shift)) (getLocFromIndex (e + shift)))
    | _, _ => loc
    end in
  (loc', match range with Some (s, e) => Some (s + shift, e + shift) | None => None end).

(** The fields [loc] and [range] of the objects that were assigned, by the
    identities of the objects. *)
Definition Locations := gmap nat (option SourceLocation * option (Z * Z)).

Definition located (store : Locations) (h : header) : option SourceLocation * option (Z * Z) :=
  default (h_loc h, h_range h) (store !! h_id h).

(** The callback of the visit: [node => fixNodeLocation(node)] *)
Definition fix_node (store : Locations) (n : node) : Locations :=
  <[h_id (hdr n) := uncurry fixNodeLocation (located store (hdr n))]> store.

Definition fix_token (t : Token) : Token :=
  let (loc, range) := fixNodeLocation (Some (t_loc t)) (Some (t_range t)) in
  mkToken (t_type t) (t_value t) (default (t_loc t) loc) (default (t_range t) range).

Definition fix_comment (c : Comment) : Comment :=
  let (loc, range) := fixNodeLocation (c_loc c) (Some (c_range c)) in
  mkComment (c_type c) (c_value c) loc (default (c_range c) range).

End Patch.

(** The tree, as its objects are after the assignments. *)
Definition relocated_header (store : Locations) (h : header) : header :=
  let (loc, range) := located store h in mkHeader (h_id h) (h_type h) loc range.

Section Relocate.

Variable store : Locations.

Fixpoint relocated (n : node) : node :=
  match n with
  | Node h props => Node (relocated_header store h) (map (fun '(k, v) => (k, relocated_value v)) props)
  end
with relocated_value (v : value) : value :=
  match v with
  | VNode n => VNode (relocated n)
  | VArr vs => VArr (map relocated_value vs)
  | VObj props => VObj (map (fun '(k, v) => (k, relocated_value v)) props)
  | v => v
  end.

End Relocate.

(** The tree, the comments and the tokens after [patchASTLocations]. *)
Definition patchASTLocations (getLocFromIndex : Z -> Position) (sc : SourceCode) (shift : Z)
  : node * list Comment * list Token :=
  (relocated (visit sc (fix_node getLocFromIndex shift) ∅) (sc_ast sc),
   map (fix_comment getLocFromIndex shift) (sc_comments sc),
   map (fix_token getLocFromIndex shift) (sc_tokens sc)).

Section Build.

(** ESLint: [getLocFromIndex] with the line starts, the text and the lines given,
    and a new [SourceCode]. *)
Variable locFromIndex : list Z -> text_ -> list text_ -> Z -> Position.
Variable newSourceCode : text_ -> SourceCode -> node * list Comment * list Token -> SourceCode.

Definition patchSourceCode (original : SourceCode) (e : EmbeddedJS) : SourceCode :=
  newSourceCode (text e) original
    (patchASTLocations (locFromIndex (lineStarts e) (text e) (computeLines e)) original (offset e)).

Record APIError := mkError { err_message : string; err_line : option Z }.

(** The digits at the start of a text. *)
Fixpoint span_digits (s : string) : string * string :=
  match s with
  | String c r =>
      let n := nat_of_ascii c in
      if (Nat.leb 48 n && Nat.leb n 57)%bool then let (d, rest) := span_digits r in (String c d, rest)
      else (EmptyString, s)
  | EmptyString => (EmptyString, s)
  end.

(** The groups of the first match of [/((?<line>\d+):(?<column>\d+))/]: a match
    starts at the first digit of a number. *)
Fixpoint match_location (skip : nat) (s : string) : option (string * string) :=
  match s with
  | EmptyString => None
  | String _ r =>
      match skip with
      | S skip' => match_location skip' r
      | O =>
          let (l, rest) := span_digits s in
          match l, rest with
          | EmptyString, _ => match_location 0 r
          | _, String ":" rest' =>
              match span_digits rest' with
              | (EmptyString, _) => match_location (String.length l - 1) r
              | (c, _) => Some (l, c)
              end
          | _, _ => match_location (String.length l - 1) r
          end
      end
  end.

(** [message.replace(search, replacement)]: the first occurrence. *)
Fixpoint replace_first (search replacement s : string) : string :=
  if String.prefix search s then replacement +:+ drop_string (String.length search) s
  else match s with
       | EmptyString => EmptyString
       | String c r => String c (replace_first search replacement r)
       end.

Definition patchParsingErrorMessage (message : string) (patchedLine : Z) (e : EmbeddedJS) : string :=
  match match_location 0 message with
  | Some (line, column) =>
      let col := default 0 (Number column) in
      let patchedColumn := match format e with PLAIN => col + e_column e - 1 | _ => col end in
      replace_first ("(" +:+ line +:+ ":" +:+ column +:+ ")")
        ("(" +:+ print_int patchedLine +:+ ":" +:+ print_int patchedColumn +:+ ")") message
  | None => message
  end.

Definition patchParsingError (parsingError : APIError) (e : EmbeddedJS) : APIError :=
  match err_line parsingError with
  | Some line =>
      let patchedLine := match format e with PLAIN => e_line e | _ => e_line e + line end in
      mkError (patchParsingErrorMessage (err_message parsingError) patchedLine e) (Some patchedLine)
  | None => parsingError
  end.

(** [build] of [builders/build.ts] on the code of a snippet, as JavaScript. *)
Variable buildJsTs : text_ -> result APIError SourceCode.
Variable composeSyntheticFilePath : string -> string -> string.

Definition build (filePath : string) (snippets : list EmbeddedJS)
  : result APIError (list (SourceCode * string)) :=
  rmap_list (fun e =>
    let path := match resourceName e with Some r => composeSyntheticFilePath filePath r | None => filePath end in
    match buildJsTs (code e) with
    | Ok sc => Ok (patchSourceCode sc e, path)
    | Throw err => Throw (patchParsingError err e)
    end) snippets.

End Build.

(** ** The analysis of a file *)

Definition isBeforeOrEqual (a b : Position) : bool :=
  if line a <? line b then true
  else if line a >? line b then false
  else column a <=? column b.

(** Issues outside of the code of the snippet are dropped. *)
Definition removeNonJsIssues (sc : SourceCode) (l : list Issue) : list Issue :=
  let (s, e) := default (0, 0) (h_range (hdr (sc_ast sc))) in
  let jsStart := sc_getLocFromIndex sc s in
  let jsEnd := sc_getLocFromIndex sc e in
  List.filter (fun i =>
    let issueStart := mkPos (i_line i) (i_column i) in
    isBeforeOrEqual jsStart issueStart && isBeforeOrEqual issueStart jsEnd) l.

Record EmbeddedOutput := mkOutput {
  o_issues : list Issue;
  o_ucfgPaths : list string;
  o_ncloc : list Z }.

(** The snippets of a file with the results of linting each of them. *)
Definition analyzeFile (snippets : list (SourceCode * LintingResult)) : EmbeddedOutput :=
  fold_left (fun out '(sc, r) =>
    mkOutput (o_issues out ++ removeNonJsIssues sc (issues r)) (o_ucfgPaths out ++ ucfgPaths r)
      (o_ncloc out ++ findNcloc sc))
    snippets (mkOutput [] [] []).

(** ** Lemmas: offsets, lines and slices *)

(** A slice of a slice is a slice of the whole. *)
Lemma slice_slice t o e a b :
  0 <= o -> 0 <= a <= b -> b <= Z.of_nat (length (slice t o e)) ->
  slice (slice t o e) a b = slice t (a + o) (b + o).
Proof.
  intros Ho Hab Hb. unfold slice in *. rewrite length_take, length_drop in Hb.
  rewrite take_drop_commute, take_take.
  rewrite Nat.min_l by lia. rewrite <- take_drop_commute, drop_drop. f_equal; [lia|]. f_equal. lia.
Qed.

(** [p] starts a line of [t]: it is 0, or follows a line break. *)
Definition line_start (t : text_) (p : Z) : Prop :=
  p = 0 \/ 0 < p /\ (t !! Z.to_nat (p - 1) = Some LF
                     \/ t !! Z.to_nat (p - 1) = Some CR /\ t !! Z.to_nat p <> Some LF).

Definition breaks_before (t : text_) (p : Z) : Prop := 0 < p /\ line_start t p.

Lemma breaks_before_cons c r p :
  c <> LF -> (c = CR -> r !! 0%nat = Some LF) -> breaks_before (c :: r) p <-> breaks_before r (p - 1).
Proof.
  intros H1 H2. unfold breaks_before, line_start. split.
  - intros [Hp [->|[_ H]]]; [lia|]. destruct (decide (p = 1)) as [->|N].
    + exfalso. replace (Z.to_nat (1 - 1)) with 0%nat in H by lia. cbn in H.
      replace (Z.to_nat 1) with 1%nat in H by lia. cbn in H.
      destruct H as [H|[H H']]; simplify_eq. by apply H', H2.
    + split; [lia|]. right. split; [lia|].
      replace (Z.to_nat (p - 1)) with (S (Z.to_nat (p - 1 - 1))) in H by lia.
      replace (Z.to_nat p) with (S (Z.to_nat (p - 1))) in H by lia. exact H.
  - intros [Hp [E|[_ H]]]; [lia|]. split; [lia|]. right. split; [lia|].
    replace (Z.to_nat (p - 1)) with (S (Z.to_nat (p - 1 - 1))) by lia.
    replace (Z.to_nat p) with (S (Z.to_nat (p - 1))) by lia. exact H.
Qed.

(** The first character ends a line. *)
Lemma breaks_before_first c r p :
  c = LF \/ c = CR /\ r !! 0%nat <> Some LF ->
  breaks_before (c :: r) p <-> p = 1 \/ breaks_before r (p - 1).
Proof.
  intros H. unfold breaks_before, line_start. split.
  - intros [Hp [->|[_ G]]]; [lia|]. destruct (decide (p = 1)) as [->|N]; [by left|]. right.
    split; [lia|]. right. split; [lia|].
    replace (Z.to_nat (p - 1)) with (S (Z.to_nat (p - 1 - 1))) in G by lia.
    replace (Z.to_nat p) with (S (Z.to_nat (p - 1))) in G by lia. exact G.
  - intros [->|[Hp [E|[_ G]]]]; [|lia|].
    + split; [lia|]. right. split; [lia|]. cbn.
      destruct H as [->|[-> H]]; [by left|]. right. done.
    + split; [lia|]. right. split; [lia|].
      replace (Z.to_nat (p - 1)) with (S (Z.to_nat (p - 1 - 1))) by lia.
      replace (Z.to_nat p) with (S (Z.to_nat (p - 1))) by lia. exact G.
Qed.

Lemma breaks_before_nil p : ~ breaks_before [] p.
Proof. intros [Hp [->|[_ [H|[H _]]]]]; [lia|done|done]. Qed.

Lemma line_ends_spec t : forall i p, p ∈ line_ends i t <-> breaks_before t (p - i).
Proof.
  remember (length t) as n eqn:E. revert t E. induction n as [n IH] using lt_wf_ind.
  intros [|c r] -> i p; cbn [line_ends].
  { rewrite elem_of_nil. split; [done|]. apply breaks_before_nil. }
  assert (Hr : forall j q, q ∈ line_ends j r <-> breaks_before r (q - j)).
  { intros j q. by apply (IH (length r)); [cbn; lia|]. }
  replace (breaks_before r (p - (i + 1))) with (breaks_before r (p - i - 1)) in * by (f_equal; lia).
  destruct (Z.eqb_spec c LF) as [->|N1].
  { rewrite elem_of_cons, Hr, breaks_before_first by by left.
    replace (p - (i + 1)) with (p - i - 1) by lia. split; (intros [?|?]; [left; lia|by right]). }
  destruct (Z.eqb_spec c CR) as [->|N2].
  - destruct r as [|d r'].
    + rewrite list_elem_of_singleton, breaks_before_first by by right.
      split; [left; lia|]. intros [?|G]; [lia|by apply breaks_before_nil in G].
    + destruct (Z.eqb_spec d LF) as [->|N3].
      * rewrite elem_of_cons, breaks_before_cons by done. rewrite breaks_before_first by by left.
        rewrite (IH (length r')); [|cbn; lia|done].
        replace (p - (i + 2)) with (p - i - 1 - 1) by lia. split; (intros [?|?]; [left; lia|by right]).
      * rewrite elem_of_cons, Hr, (breaks_before_first CR (d :: r')).
        2: { right. split; [done|]. cbn. congruence. }
        replace (p - (i + 1)) with (p - i - 1) by lia. split; (intros [?|?]; [left; lia|by right]).
  - rewrite Hr, breaks_before_cons by done. by replace (p - (i + 1)) with (p - i - 1) by lia.
Qed.

Lemma line_ends_ascending t : forall i, StronglySorted Z.lt (line_ends i t) /\ Forall (Z.lt i) (line_ends i t).
Proof.
  remember (length t) as n eqn:E. revert t E. induction n as [n IH] using lt_wf_ind.
  assert (step : forall i j l, i < j -> StronglySorted Z.lt l -> Forall (Z.lt j) l ->
            StronglySorted Z.lt (j :: l) /\ Forall (Z.lt i) (j :: l)).
  { intros i j l Hij S F. split; [by constructor|]. constructor; [done|].
    eapply Forall_impl; [exact F|]. intros; lia. }
  intros [|c r] -> i; cbn [line_ends]; [by repeat constructor|].
  assert (Hr : forall j, StronglySorted Z.lt (line_ends j r) /\ Forall (Z.lt j) (line_ends j r)).
  { intros j. by apply (IH (length r)); [cbn; lia|]. }
  destruct (Z.eqb_spec c LF) as [->|N1]; [destruct (Hr (i + 1)); apply step; (lia || done)|].
  destruct (Z.eqb_spec c CR) as [->|N2].
  - destruct r as [|d r']; [by repeat constructor; lia|]. destruct (Z.eqb_spec d LF) as [->|N3].
    + destruct (IH (length r') ltac:(cbn; lia) r' eq_refl (i + 2)). apply step; (lia || done).
    + destruct (Hr (i + 1)). apply step; (lia || done).
  - destruct (Hr (i + 1)) as [S F]. split; [done|]. eapply Forall_impl; [exact F|]. intros; lia.
Qed.

Lemma computeLineStarts_spec t :
  StronglySorted Z.lt (computeLineStarts t) /\ forall p, p ∈ computeLineStarts t <-> line_start t p.
Proof.
  destruct (line_ends_ascending t 0) as [S F]. split; [by constructor|].
  intros p. unfold computeLineStarts. rewrite elem_of_cons, line_ends_spec. unfold breaks_before.
  rewrite Z.sub_0_r. split.
  - intros [->|[_ H]]; [by left|done].
  - intros [->|H]; [by left|]. right. split; [tauto|]. by right.
Qed.

(** The loops stop after the line starts that are not after the offset. *)
Lemma first_after_ascending o l : forall i,
  StronglySorted Z.lt l -> first_after i o l = (i + length (List.filter (fun s => (s <=? o)%Z) l))%nat.
Proof.
  induction l as [|s l IH]; intros i S; cbn; [lia|]. inversion S as [|? ? S' F]; subst.
  destruct (Z.gtb_spec s o) as [G|G].
  - rewrite (proj2 (Z.leb_gt s o)) by lia.
    assert (List.filter (fun s => s <=? o) l = []) as ->; [|cbn; lia].
    clear IH S S'. induction F as [|x l Hx F IHF]; cbn; [done|].
    rewrite (proj2 (Z.leb_gt x o)) by lia. done.
  - rewrite (proj2 (Z.leb_le s o)) by lia. cbn. rewrite IH by done. lia.
Qed.

(** The last of the starts that are not after the offset. *)
Lemma last_start o l d :
  StronglySorted Z.lt l -> (exists s, s ∈ l /\ s <= o) ->
  let start := nth (length (List.filter (fun s => s <=? o) l) - 1) l d in
  start ∈ l /\ start <= o /\ forall s, s ∈ l -> s <= o -> s <= start.
Proof.
  induction l as [|x l IH]; intros HS (s & Hs & Hso); [by apply not_elem_of_nil in Hs|].
  inversion HS as [|? ? S' F]; subst. rewrite Forall_forall in F.
  cbn [List.filter]. destruct (Z.leb_spec x o) as [G|G].
  - cbn [length]. destruct (List.filter (fun s => s <=? o) l) as [|y f] eqn:E.
    + cbn. split; [left|]. split; [done|]. intros z Hz Hzo. apply elem_of_cons in Hz as [->|Hz]; [done|].
      assert (z ∈ List.filter (fun s => s <=? o) l) as Q.
      { apply list_elem_of_In, filter_In. split; [by apply list_elem_of_In|]. by apply Z.leb_le. }
      rewrite E in Q. by apply not_elem_of_nil in Q.
    + assert (exists s, s ∈ l /\ s <= o) as X.
      { exists y. assert (y ∈ List.filter (fun s => s <=? o) l) as Q by (rewrite E; left).
        apply list_elem_of_In, filter_In in Q as [Q1 Q2]. split; [by apply list_elem_of_In|by apply Z.leb_le]. }
      destruct (IH S' X) as (I1 & I2 & I3). cbn [length] in *.
      replace (S (S (length f)) - 1)%nat with (S (S (length f) - 1)) by lia. cbn [nth].
      split; [by right|]. split; [done|]. intros z Hz Hzo. apply elem_of_cons in Hz as [->|Hz]; [|by apply I3].
      apply F in I1. lia.
  - exfalso. apply elem_of_cons in Hs as [->|Hs]; [lia|]. apply F in Hs. lia.
Qed.

(** ** Lemmas: the snippets of an HTML file *)

(** What a snippet is, for the events of the parser. *)
Definition html_snippet (contents : text_) (events : list html_event) (e : EmbeddedJS) : Prop :=
  text e = contents /\ lineStarts e = computeLineStarts contents /\ format e = PLAIN
  /\ (exists src type i, OpenTag "script" src type i ∈ events /\ ignored_script src type = false
        /\ offset e = i + 1)
  /\ (exists i, CloseTag "script" i ∈ events /\ code e = slice contents (offset e) i)
  /\ e_line e = computeLine (offset e) (lineStarts e) /\ e_column e = computeCol (offset e) (lineStarts e).

Lemma html_snippets contents events : forall seen st,
  Forall (html_snippet contents seen) (embeddedJSs st) ->
  (inScript st = true -> exists src type i, OpenTag "script" src type i ∈ seen
     /\ ignored_script src type = false /\ jsSnippetStartIndex st = i + 1) ->
  Forall (html_snippet contents (seen ++ events))
    (embeddedJSs (fold_left (html_step contents (computeLineStarts contents)) events st)).
Proof.
  assert (more : forall seen events e, html_snippet contents seen e -> html_snippet contents (seen ++ events) e).
  { intros seen ev e (T & L & F & (src & ty & i & H1 & H2 & H3) & (j & H4 & H5) & H6 & H7).
    repeat (split; [done|]). split; [|split; [|done]].
    - exists src, ty, i. rewrite elem_of_app. auto.
    - exists j. rewrite elem_of_app. auto. }
  induction events as [|ev events IH]; intros seen st HF HS; [by rewrite app_nil_r|].
  cbn [fold_left]. rewrite (cons_middle ev), (assoc_L (++)). apply IH.
  - destruct ev as [name src ty i|name i]; cbn.
    + destruct (_ || _); cbn; (eapply Forall_impl; [exact HF|intros; by apply more]).
    + destruct (_ || _) eqn:E; cbn; [eapply Forall_impl; [exact HF|intros; by apply more]|].
      split_bools. subst name. apply Forall_app. split; [eapply Forall_impl; [exact HF|intros; by apply more]|].
      constructor; [|done]. destruct (HS H0) as (src & ty & j & H1 & H2 & H3).
      repeat (split; [done|]). split; [|split; [|done]]; cbn.
      * exists src, ty, j. rewrite elem_of_app. auto.
      * exists i. rewrite elem_of_app. split; [|done]. right. left.
  - destruct ev as [name src ty i|name i]; cbn.
    + destruct (_ || _) eqn:E; cbn.
      * intros Q. destruct (HS Q) as (s & t & j & ? & ? & ?). exists s, t, j. rewrite elem_of_app. auto.
      * intros _. split_bools. subst name. exists src, ty, i. rewrite elem_of_app.
        split; [right; left|done].
    + destruct (_ || _) eqn:E; cbn; [|done].
      intros Q. destruct (HS Q) as (s & t & j & ? & ? & ?). exists s, t, j. rewrite elem_of_app. auto.
Qed.

Lemma html_snippet_of parseComplete contents e :
  e ∈ parseHTML parseComplete contents -> html_snippet contents (parseComplete contents) e.
Proof.
  unfold parseHTML. destruct contents as [|c r]; [by intros ?%not_elem_of_nil|].
  revert e. apply Forall_forall.
  apply (html_snippets (c :: r) (parseComplete (c :: r)) [] (mkHtml 0 0 false [])); [by constructor|done].
Qed.

(** ** Lemmas: the patched tree *)

Section PatchLemmas.

Variable getLocFromIndex : Z -> Position.
Variable shift : Z.

Notation fix_node := (fix_node getLocFromIndex shift).
Notation fixed := (fixNodeLocation getLocFromIndex shift).

Lemma lookup_relocated store k ps :
  lookup_prop k (map (fun '(k, v) => (k, relocated_value store v)) ps) = relocated_value store (lookup_prop k ps).
Proof. induction ps as [|[k' v] ps IH]; cbn; [done|]. by destruct (k =s k'). Qed.

Lemma relocated_type store n : type_of (relocated store n) = type_of n.
Proof. destruct n as [h ps]. unfold type_of. cbn. unfold relocated_header. by destruct (located store h). Qed.

Lemma childValue_relocated store n k :
  childValue (relocated store n) k = map (relocated_value store) (childValue n k).
Proof.
  destruct n as [h ps]. unfold childValue, get. cbn [relocated props_of]. rewrite lookup_relocated.
  by destruct (lookup_prop k ps).
Qed.

Lemma truthy_relocated store v : Estree.truthy (relocated_value store v) = Estree.truthy v.
Proof. by destruct v. Qed.

Lemma children_relocated store vs :
  omap as_node (List.filter Estree.truthy (map (relocated_value store) vs))
  = map (relocated store) (omap as_node (List.filter Estree.truthy vs)).
Proof.
  induction vs as [|v vs IH]; [done|]. cbn [map List.filter]. rewrite truthy_relocated.
  destruct (Estree.truthy v); [| exact IH]. destruct v; cbn in *; by rewrite ?IH.
Qed.

Lemma childrenOf_relocated store keys n :
  childrenOf (relocated store n) keys = map (relocated store) (childrenOf n keys).
Proof.
  unfold childrenOf. rewrite relocated_type. destruct (keys (type_of n)) as [ks|]; [|done].
  rewrite <- children_relocated. f_equal. f_equal.
  induction ks as [|k ks IH]; [done|]. cbn [flat_map]. by rewrite IH, childValue_relocated, map_app.
Qed.

(** The traversal reaches the same objects of the tree, patched. *)
Lemma preorder_relocated store keys n :
  preorder keys (relocated store n) = map (relocated store) (preorder keys n).
Proof.
  remember (node_size n) as size eqn:E. revert n E.
  induction size as [size IH] using lt_wf_ind. intros n ->. rewrite !preorder_eq, childrenOf_relocated.
  cbn [map]. f_equal. assert (forall c, c ∈ childrenOf n keys -> (node_size c < node_size n)%nat) as Hc
    by (intros c; apply childrenOf_size).
  induction (childrenOf n keys) as [|c l IHl]; [done|]. cbn [map flat_map]. rewrite map_app. f_equal.
  - eapply IH; [| done]. apply Hc. left.
  - apply IHl. intros d Hd. apply Hc. by right.
Qed.

(** The callback on an object changes that object only. *)
Lemma located_fix_node store m h :
  (h_id (hdr m) = h_id h -> hdr m = h) ->
  located (fix_node store m) h
  = if Nat.eqb (h_id (hdr m)) (h_id h) then uncurry fixed (located store h) else located store h.
Proof.
  intros H. unfold Embedded.fix_node. destruct (Nat.eqb_spec (h_id (hdr m)) (h_id h)) as [E|E].
  - rewrite (H E). unfold located, Locations in *. by rewrite lookup_insert_eq.
  - unfold located, Locations in *. by rewrite lookup_insert_ne.
Qed.

(** How many times a list of nodes has an object. *)
Definition times (l : list node) (h : header) : nat :=
  length (List.filter (fun m => Nat.eqb (h_id (hdr m)) (h_id h)) l).

Lemma iter_S {A} (f : A -> A) k x : Nat.iter (S k) f x = f (Nat.iter k f x).
Proof. done. Qed.

Lemma iter_comm {A} (f : A -> A) k x : Nat.iter k f (f x) = f (Nat.iter k f x).
Proof. induction k as [|k IH]; cbn; [done | by f_equal]. Qed.

Lemma located_visited l h : Forall (fun m => h_id (hdr m) = h_id h -> hdr m = h) l -> forall store,
  located (fold_left fix_node l store) h = Nat.iter (times l h) (uncurry fixed) (located store h).
Proof.
  unfold times. induction 1 as [|m l H _ IH]; intros store; [done|]. cbn [fold_left List.filter]. rewrite IH.
  rewrite (located_fix_node store m h H). destruct (Nat.eqb (h_id (hdr m)) (h_id h)); [| done].
  cbn [length]. by rewrite iter_comm.
Qed.

(** A header after its object was patched [k] times. *)
Definition moved (k : nat) (h h' : header) : Prop :=
  h_id h' = h_id h /\ h_type h' = h_type h /\
  match h_range h with
  | None => h_range h' = None /\ h_loc h' = h_loc h
  | Some (s, t) =>
      let s' := s + Z.of_nat k * shift in let t' := t + Z.of_nat k * shift in
      h_range h' = Some (s', t')
      /\ h_loc h' = match k, h_loc h with
                    | S _, Some _ => Some (mkLoc (getLocFromIndex s') (getLocFromIndex t'))
                    | _, loc => loc
                    end
  end.

Lemma fixed_iter k loc s t :
  Nat.iter k (uncurry fixed) (loc, Some (s, t)) =
    let s' := s + Z.of_nat k * shift in let t' := t + Z.of_nat k * shift in
    (match k, loc with
     | S _, Some _ => Some (mkLoc (getLocFromIndex s') (getLocFromIndex t'))
     | _, loc => loc
     end, Some (s', t')).
Proof.
  induction k as [|k IH]; cbn zeta; [cbn; repeat f_equal; lia |].
  rewrite iter_S, IH.
  cbn zeta. cbn [uncurry]. unfold fixNodeLocation.
  replace (s + Z.of_nat (S k) * shift) with (s + Z.of_nat k * shift + shift) by lia.
  replace (t + Z.of_nat (S k) * shift) with (t + Z.of_nat k * shift + shift) by lia.
  by destruct loc, k.
Qed.

Lemma fixed_iter_none k loc : Nat.iter k (uncurry fixed) (loc, None) = (loc, None).
Proof. induction k as [|k IH]; [done|]. rewrite iter_S, IH. by destruct loc. Qed.

Lemma relocated_moved l n : Forall (fun m => h_id (hdr m) = h_id (hdr n) -> hdr m = hdr n) l ->
  moved (times l (hdr n)) (hdr n) (hdr (relocated (fold_left fix_node l ∅) n)).
Proof.
  intros H. pose proof (located_visited l (hdr n) H ∅) as L.
  destruct n as [h ps]. cbn [relocated hdr] in *. unfold relocated_header. rewrite L.
  unfold located. unfold Locations. rewrite lookup_empty. cbn [default]. unfold moved.
  destruct (h_range h) as [[s t]|] eqn:R; [rewrite fixed_iter | rewrite fixed_iter_none]; cbn; by destruct (times l h), (h_loc h).
Qed.

End PatchLemmas.

(** An object has one header, wherever the traversal reaches it. *)
Definition one_object_one_header (sc : SourceCode) : Prop :=
  forall m n, m ∈ preorder (sc_visitorKeys sc) (sc_ast sc) -> n ∈ preorder (sc_visitorKeys sc) (sc_ast sc) ->
    h_id (hdr m) = h_id (hdr n) -> hdr m = hdr n.

(** How many times the traversal of the tree reaches an object. *)
Definition reached (sc : SourceCode) (h : header) : nat := times (preorder (sc_visitorKeys sc) (sc_ast sc)) h.

(** ** Properties *)

(** Each snippet of an HTML file is the text between an opening script tag
    that holds JavaScript and a closing one; its offset is where it starts, its
    line the number of lines that start up to there and its column is counted
    from the last of these starts, as the line breaks of the file define them. *)
Theorem html_snippets_positions parseComplete contents e :
  (forall name src type i, OpenTag name src type i ∈ parseComplete contents -> -1 <= i) ->
  e ∈ parseHTML parseComplete contents ->
  html_snippet contents (parseComplete contents) e
  /\ e_line e = Z.of_nat (length (List.filter (fun s => s <=? offset e) (computeLineStarts contents)))
  /\ exists start, line_start contents start /\ start <= offset e
       /\ (forall s, line_start contents s -> s <= offset e -> s <= start)
       /\ e_column e = offset e - start + 1.
Proof.
  intros HI He.
  pose proof (html_snippet_of parseComplete contents e He) as HS.
  split; [done|]. destruct HS as (T & L & _ & (src & ty & i & H1 & _ & H3) & _ & H6 & H7).
  destruct (computeLineStarts_spec contents) as [S M]. rewrite L in H6, H7.
  assert (0 <= offset e) as Ho by (apply HI in H1; lia).
  unfold computeLine, computeCol in *. rewrite (first_after_ascending _ _ _ S) in H6, H7.
  split; [done|].
  destruct (last_start (offset e) (computeLineStarts contents) 0 S) as (I1 & I2 & I3).
  { exists 0. split; [|done]. apply M. by left. }
  eexists. split; [by apply M|]. split; [exact I2|]. split; [|exact H7].
  intros s Hs. apply I3. by apply M.
Qed.

(** The text of a range of a snippet is, in the file, the text of the range moved. *)
Definition in_place (e : EmbeddedJS) (range range' : Z * Z) : Prop :=
  0 <= range.1 <= range.2 -> range.2 <= Z.of_nat (length (code e)) ->
  slice (text e) range'.1 range'.2 = slice (code e) range.1 range.2.

Lemma snippet_in_place parseComplete contents e :
  (forall name src type i, OpenTag name src type i ∈ parseComplete contents -> -1 <= i) ->
  e ∈ parseHTML parseComplete contents ->
  0 <= offset e /\ forall s t, in_place e (s, t) (s + offset e, t + offset e).
Proof.
  intros HI He. destruct (html_snippet_of parseComplete contents e He) as (T & _ & _ & (src & ty & i & H1 & _ & H3) & (j & _ & C) & _).
  assert (0 <= offset e) as Ho by (apply HI in H1; lia). split; [done |].
  intros s t Hs Ht. cbn in *. rewrite T. rewrite C in *. symmetry. by apply slice_slice.
Qed.

(** C12: In a snippet of an HTML file, the patch moves the range of every node by
    the offset of the snippet, as many times as the traversal reaches the object,
    and recomputes its location, if it has one, from the new range. Hence the new
    range of a node that is reached once, as those of the comments and the tokens,
    is where the file has the text that the old range has in the snippet. *)
Theorem patched_ranges_point_into_the_file getLocFromIndex parseComplete contents e sc :
  (forall name src type i, OpenTag name src type i ∈ parseComplete contents -> -1 <= i) ->
  e ∈ parseHTML parseComplete contents ->
  one_object_one_header sc ->
  let '(ast, comments, tokens) := patchASTLocations getLocFromIndex sc (offset e) in
  Forall2 (fun n n' =>
      moved getLocFromIndex (offset e) (reached sc (hdr n)) (hdr n) (hdr n')
      /\ (reached sc (hdr n) = 1%nat -> forall range, h_range (hdr n) = Some range ->
            exists range', h_range (hdr n') = Some range' /\ in_place e range range'))
    (preorder (sc_visitorKeys sc) (sc_ast sc)) (preorder (sc_visitorKeys sc) ast)
  /\ Forall2 (fun c c' => c_value c' = c_value c /\ in_place e (c_range c) (c_range c')) (sc_comments sc) comments
  /\ Forall2 (fun t t' => t_value t' = t_value t /\ in_place e (t_range t) (t_range t')) (sc_tokens sc) tokens.
Proof.
  intros HI He Hone. destruct (snippet_in_place parseComplete contents e HI He) as [Ho Hp].
  unfold patchASTLocations. split_and!.
  - rewrite preorder_relocated, visit_fold. apply Forall2_fmap_r, Forall_Forall2_diag, Forall_forall.
    intros n Hn. pose proof (relocated_moved getLocFromIndex (offset e) (preorder (sc_visitorKeys sc) (sc_ast sc)) n) as M.
    assert (moved getLocFromIndex (offset e) (reached sc (hdr n)) (hdr n)
      (hdr (relocated (fold_left (fix_node getLocFromIndex (offset e)) (preorder (sc_visitorKeys sc) (sc_ast sc)) ∅) n))) as M'
      by (apply M, Forall_forall; intros m Hm; by apply Hone).
    split; [done |]. intros R [s t] Er. destruct M' as (_ & _ & M'). rewrite Er, R in M'.
    destruct M' as [-> _]. eexists. split; [done |]. rewrite Z.mul_1_l. apply Hp.
  - apply Forall2_fmap_r, Forall_Forall2_diag, Forall_forall. intros c _. destruct c as [ty v l [s t]].
    unfold fix_comment, fixNodeLocation. cbn. by destruct l; split.
  - apply Forall2_fmap_r, Forall_Forall2_diag, Forall_forall. intros c _. destruct c as [ty v l [s t]]. split; [done | apply Hp].
Qed.

(** A YAML block scalar whose header has an indicator after its marker
    ([|-], [|+], [|2]): the offset given to the snippet is one too small, so a
    range of the code points in the file one character before its text. *)
Theorem block_indicator_shifts_positions prefix marker indicator contents rest f :
  f <> PLAIN -> contents <> [] ->
  let file := prefix ++ [marker; indicator; LF] ++ contents ++ rest in
  let start := fixOffset (Z.of_nat (length prefix)) f in
  slice file start (start + Z.of_nat (length contents)) = LF :: removelast contents.
Proof.
  intros Hf Hc file start. subst file start. unfold slice, fixOffset.
  destruct contents as [|c l]; [done|]. clear Hc.
  assert (forall k, (k = Z.of_nat (length prefix) + 2) ->
    take (Z.to_nat (k + Z.of_nat (length (c :: l))) - Z.to_nat k)
      (drop (Z.to_nat k) (prefix ++ [marker; indicator; LF] ++ (c :: l) ++ rest)) = LF :: removelast (c :: l)) as G.
  { intros k ->. replace (Z.to_nat (_ + 2)) with (length prefix + 2)%nat by lia.
    rewrite <- drop_drop, drop_app_length. cbn [app drop].
    replace (_ - _)%nat with (S (length l)) by (cbn [length]; lia). cbn [take]. f_equal.
    rewrite app_comm_cons, take_app_le by (cbn; lia). change (length l) with (pred (length (c :: l))).
    by rewrite removelast_firstn_len. }
  destruct f; [done|by apply G|by apply G].
Qed.

(** A plain scalar. *)
Definition plain_scalar (s : string) : ynode := YScalar (ScalarText s) "PLAIN" 0 None.

Lemma ancestor_end above l level :
  (level <= length l)%nat -> (0 < level)%nat -> ancestor (above ++ l) level = l !! (length l - level)%nat.
Proof.
  intros H1 H2. unfold ancestor. rewrite length_app.
  assert (Nat.ltb (length above + length l) level = false) as -> by (apply Nat.ltb_ge; lia).
  rewrite lookup_app_r by lia. f_equal. lia.
Qed.

(** A function whose [Runtime] is a mapping ([Runtime: { Ref: Param }], a
    reference of CloudFormation) and whose code is inline makes the extraction
    throw, and the file is not analysed at all: [startsWith] is called on the
    missing value of the mapping. *)
Theorem runtime_reference_throws linePos starts contents above fields properties items value :
  parseAwsFromYaml linePos starts contents
    [mkDocument []
       [(YPair (plain_scalar "ZipFile") value,
         above ++ [YMap (YPair (plain_scalar "Runtime") (YMap fields) :: properties);
                   YPair (plain_scalar "Code") (YMap items); YMap items])]]
  = Throw TypeError.
Proof.
  unfold parseAwsFromYaml, parseYaml, concat_results. cbn [rmap_list d_errors d_pairs fst snd].
  unfold embedded_of at 1. cbn [predicate lambdaParsingContext]. unfold isInlineAwsLambda, hasCode, hasNodeJsRuntime.
  rewrite !ancestor_end by (cbn; lia). done.
Qed.

(** ** Witnesses *)

(** [a\n<script>f()</script>] *)
Definition page : text_ :=
  map (fun c => Z.of_nat (nat_of_ascii c)) (String.list_ascii_of_string "a") ++ [LF]
  ++ map (fun c => Z.of_nat (nat_of_ascii c)) (String.list_ascii_of_string "<script>f()</script>").

Definition page_events (_ : text_) : list html_event :=
  [OpenTag "script" None None 9; CloseTag "script" 13].

Definition page_snippet : EmbeddedJS :=
  mkEmbedded [102; 40; 41] 2 9 10 [0; 2] page PLAIN None.

Lemma html_snippets_positions_witness :
  parseHTML page_events page = [page_snippet]
  /\ e_line page_snippet = 2 /\ e_column page_snippet = 9
  /\ html_snippet page (page_events page) page_snippet.
Proof.
  split; [by vm_compute|]. do 2 (split; [done|]).
  apply (html_snippets_positions page_events page page_snippet).
  - intros name src type i H. unfold page_events in H.
    apply elem_of_cons in H as [H|H]; [injection H; lia|].
    apply elem_of_cons in H as [H|H]; [discriminate|by apply not_elem_of_nil in H].
  - assert (parseHTML page_events page = [page_snippet]) as -> by (by vm_compute). left.
Defined.

(** [f()], whose callee is reached once, and a node that is reached twice. *)
Definition page_source : SourceCode :=
  let mk i type s t props := Node (mkHeader i type (Some (mkLoc (mkPos 1 s) (mkPos 1 t))) (Some (s, t))) props in
  let shared := mk 3%nat "Shared" 1 2 [] in
  mkSourceCode
    (mk 0%nat "Program" 0 3
       [("body", VArr [VNode (mk 1%nat "CallExpression" 0 3
                         [("callee", VNode (mk 2%nat "Identifier" 0 1 []));
                          ("arguments", VArr [VNode shared; VNode shared])])])])
    [mkToken "Identifier" "f" (mkLoc (mkPos 1 0) (mkPos 1 1)) (0, 1)] [] None
    (fun type => Some (if type =s "Program" then ["body"]
                       else if type =s "CallExpression" then ["callee"; "arguments"] else []))
    (fun _ => []) (fun _ => None) (fun _ => None) (fun _ => []) (fun _ => mkPos 0 0) (fun _ => None).

Lemma patched_ranges_point_into_the_file_witness :
  let '(ast, _, tokens) := patchASTLocations (fun i => mkPos 2 i) page_source 10 in
  map (fun n => h_range (hdr n)) (preorder (sc_visitorKeys page_source) ast)
    = [Some (10, 13); Some (10, 13); Some (10, 11); Some (21, 22); Some (21, 22)]
  /\ Forall2 (fun t t' => t_value t' = t_value t /\ in_place page_snippet (t_range t) (t_range t'))
       (sc_tokens page_source) tokens.
Proof.
  pose proof (patched_ranges_point_into_the_file (fun i => mkPos 2 i) page_events page page_snippet page_source) as H.
  cbv zeta in H. destruct H as (_ & _ & H).
  - intros name src type i H. unfold page_events in H.
    apply elem_of_cons in H as [H|H]; [injection H; lia|].
    apply elem_of_cons in H as [H|H]; [discriminate|by apply not_elem_of_nil in H].
  - assert (parseHTML page_events page = [page_snippet]) as -> by (by vm_compute). left.
  - intros m n Hm Hn. vm_compute in Hm, Hn.
    repeat (apply elem_of_cons in Hm as [->|Hm]); [.. | by apply not_elem_of_nil in Hm];
    repeat (apply elem_of_cons in Hn as [->|Hn]); first [by apply not_elem_of_nil in Hn | done].
  - split; [by vm_compute | exact H].
Defined.

Lemma block_indicator_shifts_positions_witness :
  slice [65; 58; 32; 124; 45; LF; 102; 40; 41; LF] (fixOffset 3 BLOCK_LITERAL) (fixOffset 3 BLOCK_LITERAL + 3)
  = [LF; 102; 40].
Proof.
  exact (block_indicator_shifts_positions [65; 58; 32] 124 45 [102; 40; 41] [LF] BLOCK_LITERAL
           ltac:(discriminate) ltac:(discriminate)).
Defined.
