(* ===== verification/RegexClasses.v ===== *)
(** * RegexClasses: duplicates in the character classes of regular expressions

    The code of [rules/helpers/regex/simplified-regex-character-class.ts] and of the
    rule S5869. A class is a tree of the package functional-red-black-tree, which is
    behind the interface [PersistentTree] with the behaviour its documentation
    gives; sorted lists implement it. *)

From Stdlib Require Import ZArith Lia ZifyBool Sorting.Sorted.
From stdpp Require Import base list sets.
From S2P Require Import Prelude.

Open Scope Z_scope.

(** ** Elements of a character class *)

Inductive set_kind := digit | space | word | property.

Inductive element_shape :=
| Character (value : Z)
| CharacterClassRange (min max : Z)
| CharacterSet (kind : set_kind) (negate : bool)
| OtherElement.

(** A node of the regular expression: an identity and its type. *)
Record element := mkElement { el_id : nat; el_shape : element_shape }.

#[export] Instance set_kind_eq_dec : EqDecision set_kind.
Proof. solve_decision. Defined.
#[export] Instance element_shape_eq_dec : EqDecision element_shape.
Proof. solve_decision. Defined.
#[export] Instance element_eq_dec : EqDecision element.
Proof. solve_decision. Defined.

Record Flags := mkFlags { ignoreCase : bool; unicode : bool }.

Definition MAX_CODE_POINT : Z := 0x10ffff.

(** ** Persistent trees *)

(** The entries of a tree: from a code point up to the next entry, the element of the
    class, or [undefined]. *)
Notation entries_of := (list (Z * option element)).

Definition ascending (l : entries_of) : Prop := StronglySorted Z.lt l.*1.

Fixpoint insert_entry (k : Z) (v : option element) (l : entries_of) : entries_of :=
  match l with
  | [] => [(k, v)]
  | (k', v') :: rest =>
      if Z.ltb k k' then (k, v) :: l else (k', v') :: insert_entry k v rest
  end.

(** The entries whose key has a property. *)
Definition entries_where (P : Z -> bool) (l : entries_of) : entries_of :=
  List.filter (fun e => P e.1) l.

(** The operations the code uses, on trees [T] and iterators [I]. An iterator is a
    place in a tree, outside of its entries when it is not valid; [update] makes a
    tree from the one of its iterator. *)
Class PersistentTree (T I : Type) := {
  createTree : T;
  insert : T -> Z -> option element -> T;
  begin : T -> I;
  le : T -> Z -> I;
  gt : T -> Z -> I;
  find : T -> Z -> I;
  (** the keys [forEach] visits, from a key up to another one *)
  forEach : T -> Z -> Z -> list Z;
  size : T -> nat;
  key : I -> option Z;
  value : I -> option element;
  hasNext : I -> bool;
  next : I -> I;
  update : I -> option element -> T;

  entries : T -> entries_of;
  tree_of : I -> T;
  index : I -> nat;

  entries_createTree : entries createTree = [];
  entries_insert : forall t k v,
    k ∉ (entries t).*1 -> entries (insert t k v) = insert_entry k v (entries t);
  begin_tree : forall t, tree_of (begin t) = t;
  begin_index : forall t, index (begin t) = 0%nat;
  le_entry : forall t k, entries t !! index (le t k) = last (entries_where (fun k' => Z.leb k' k) (entries t));
  le_tree : forall t k, tree_of (le t k) = t;
  gt_entry : forall t k, entries t !! index (gt t k) = head (entries_where (fun k' => Z.ltb k k') (entries t));
  gt_tree : forall t k, tree_of (gt t k) = t;
  find_entry : forall t k, entries t !! index (find t k) = head (entries_where (fun k' => Z.eqb k' k) (entries t));
  find_tree : forall t k, tree_of (find t k) = t;
  forEach_keys : forall t lo hi,
    forEach t lo hi = List.filter (fun k => Z.leb lo k && Z.ltb k hi) (entries t).*1;
  size_entries : forall t, size t = length (entries t);
  key_entry : forall i, key i = fst <$> entries (tree_of i) !! index i;
  value_entry : forall i, value i = entries (tree_of i) !! index i ≫= snd;
  hasNext_entry : forall i, hasNext i = Nat.ltb (S (index i)) (length (entries (tree_of i)));
  next_tree : forall i, tree_of (next i) = tree_of i;
  next_index : forall i, index (next i) = S (index i);
  entries_update : forall i v k v',
    entries (tree_of i) !! index i = Some (k, v') ->
    entries (update i v) = <[index i := (k, v)]> (entries (tree_of i)) }.

(** ** The class and its operations *)

Section Classes.

Context {T I : Type} `{PersistentTree T I}.

(** The code point of [String.fromCodePoint(c).toUpperCase()] at 0, and of the lower
    case. *)
Variable toUpperCase toLowerCase : Z -> Z.

Definition put (key : Z) (value : option element) (tree : T) : T :=
  let entry := find tree key in
  match RegexClasses.key entry with
  | Some _ => update entry value
  | None => insert tree key value
  end.

(** The loop of [addRange]: its iterator goes through the tree there was at its
    start, and each update makes a tree from that one. *)
Fixpoint addRange_loop (fuel : nat) (from to : Z) (el : element) (iterator : I) (contents : T) : T :=
  match fuel with
  | O => contents
  | S fuel' =>
      match key iterator with
      | None => contents
      | Some k =>
          let contents :=
            if Z.ltb from k && Z.leb k to && match value iterator with None => true | _ => false end
            then update iterator (Some el) else contents in
          addRange_loop fuel' from to el (next iterator) contents
      end
  end.

Definition addRange (from to : Z) (el : element) (contents : T) : T :=
  let oldEntry := le contents to in
  let oldEnd := match key oldEntry with Some k => key (gt contents k) | None => None end in
  let contents := put from (Some el) contents in
  let contents := addRange_loop (size contents) from to el (begin contents) contents in
  let next := to + 1 in
  if Z.leb next MAX_CODE_POINT then
    match value oldEntry, (match oldEnd with None => true | Some e => Z.ltb next e end) with
    | Some v, true => put next (Some v) contents
    | _, _ =>
        match key (find contents next) with
        | None => put next None contents
        | Some _ => contents
        end
    end
  else contents.

Definition isRangeEmpty (contents : T) (from to : Z) : bool :=
  match forEach contents from to with [] => true | _ => false end.

Definition hasEntryBetween (contents : T) (from to : Z) : bool :=
  let before := le contents from in
  match value before with
  | Some _ => true
  | None => negb (isRangeEmpty contents (from + 1) (to + 1))
  end.

(** The loop of [findIntersections] on the other class, and what is left after it. *)
Fixpoint findIntersections_loop (fuel : nat) (contents : T) (iter : I) (intersections : list element)
  : list element :=
  match fuel with
  | O => intersections
  | S fuel' =>
      if hasNext iter then
        let k := key iter in
        let v := value iter in
        let iter := next iter in
        let to := match value iter with
                  | Some _ => default 0 (key iter)
                  | None => default 0 (key iter) - 1
                  end in
        findIntersections_loop fuel' contents iter
          (match v with
           | Some el =>
               if hasEntryBetween contents (default 0 k) to then intersections ++ [el] else intersections
           | None => intersections
           end)
      else
        match value iter with
        | Some el =>
            if hasEntryBetween contents (default 0 (key iter)) MAX_CODE_POINT
            then intersections ++ [el] else intersections
        | None => intersections
        end
  end.

Definition findIntersections (contents that : T) : list element :=
  let iter := begin that in
  match key iter with
  | None => []
  | Some _ => findIntersections_loop (size that) contents iter []
  end.

(** *** [Builder] *)

Definition isAscii (c : Z) : bool := Z.ltb c 128.

Definition builder_addRange (flags : Flags) (from to : Z) (el : element) (contents : T) : T :=
  let upperCaseFrom := toUpperCase from in
  let upperCaseTo := toUpperCase to in
  let lowerCaseFrom := toLowerCase upperCaseFrom in
  let lowerCaseTo := toLowerCase upperCaseTo in
  if ignoreCase flags && negb (Z.eqb lowerCaseFrom upperCaseFrom)
     && negb (Z.eqb lowerCaseTo upperCaseTo)
     && (isAscii from && isAscii to || unicode flags)
  then addRange lowerCaseFrom lowerCaseTo el (addRange upperCaseFrom upperCaseTo el contents)
  else addRange from to el contents.

(** A sequence of [addRange] on the builder or on the class. *)
Definition add_ranges (el : element) (ranges : list (Z * Z)) (contents : T) : T :=
  fold_left (fun contents r => addRange r.1 r.2 el contents) ranges contents.

Definition visitCharacterSet (flags : Flags) (kind : set_kind) (negate : bool) (el : element)
    (contents : T) : T :=
  let add := add_ranges el in
  match kind, negate with
  | digit, true =>
      let contents := add [(0x00, 48 - 1)] contents in
      if unicode flags then add [(57 + 1, 0xff)] contents
      else add [(57 + 1, MAX_CODE_POINT)] contents
  | digit, false => add [(48, 57)] contents
  | space, true =>
      let contents := add [(0x00, 9 - 1); (13 + 1, 32 - 1)] contents in
      if unicode flags then
        add [(32 + 1, 0x84); (0x86, 0x9f); (0xa1, 0x167f); (0x1681, 0x1fff); (0x200b, 0x2027);
             (0x202a, 0x202e); (0x2030, 0x205e); (0x2060, 0x2fff); (0x3001, MAX_CODE_POINT)] contents
      else add [(32 + 1, MAX_CODE_POINT)] contents
  | space, false =>
      let contents := add [(9, 13); (32, 32)] contents in
      if unicode flags then
        add [(0x85, 0x85); (0xa0, 0xa0); (0x1680, 0x1680); (0x2000, 0x200a); (0x2028, 0x2029);
             (0x202f, 0x202f); (0x205f, 0x205f); (0x3000, 0x3000)] contents
      else contents
  | word, true =>
      let contents := add [(0x00, 48 - 1); (57 + 1, 65 - 1); (90 + 1, 95 - 1); (96, 96)] contents in
      if unicode flags then add [(122 + 1, 181 - 1)] contents
      else add [(122 + 1, MAX_CODE_POINT)] contents
  | word, false => add [(48, 57); (65, 90); (95, 95); (97, 122)] contents
  | property, _ => contents
  end.

Definition add (flags : Flags) (el : element) (contents : T) : T :=
  match el_shape el with
  | Character value => builder_addRange flags value value el contents
  | CharacterClassRange min max => builder_addRange flags min max el contents
  | CharacterSet kind negate => visitCharacterSet flags kind negate el contents
  | OtherElement => contents
  end.

(** ** The rule *)

(** The duplicates and the class so far. *)
Definition check_element (flags : Flags) (st : list element * T) (el : element) : list element * T :=
  let (duplicates, characterClass) := st in
  let intersections := findIntersections (add flags el createTree) characterClass in
  let duplicates :=
    match intersections with
    | [] => duplicates
    | _ => set_add el (set_add_all duplicates intersections)
    end in
  (duplicates, add flags el characterClass).

(** The node reported with the secondary ones, if any. *)
Definition onCharacterClassEnter (flags : Flags) (elements : list element)
  : option (element * list element) :=
  match (fold_left (check_element flags) elements ([], createTree)).1 with
  | [] => None
  | primary :: secondaries => Some (primary, secondaries)
  end.

End Classes.

(** ** Lemmas: entries *)

Section Entries.

Implicit Types l : entries_of.

Lemma ascending_cons k v l :
  ascending ((k, v) :: l) <-> ascending l /\ (forall k' v', (k', v') ∈ l -> k < k').
Proof.
  unfold ascending. cbn. split.
  - intros A. apply StronglySorted_inv in A as [A F]. split; [done|]. intros k' v' Hl.
    rewrite List.Forall_forall in F. apply F, list_elem_of_In, list_elem_of_fmap. by exists (k', v').
  - intros [A F]. constructor; [done|]. rewrite List.Forall_forall. intros k' Hk'.
    apply list_elem_of_In, list_elem_of_fmap in Hk' as ([k1 v1] & -> & Hl). by eapply F.
Qed.

Lemma ascending_functional l k v v' : ascending l -> (k, v) ∈ l -> (k, v') ∈ l -> v = v'.
Proof.
  induction l as [|[k0 v0] l IH]; [by intros _ ?%not_elem_of_nil|].
  rewrite ascending_cons, !elem_of_cons. intros [A F] [[= -> ->]|H] [[= ->]|H'].
  - done.
  - apply F in H'. lia.
  - subst. apply F in H. lia.
  - by apply IH.
Qed.

Lemma elem_of_filter_key (P : Z -> bool) l k v :
  (k, v) ∈ entries_where P l <-> (k, v) ∈ l /\ P k = true.
Proof. unfold entries_where. by rewrite !list_elem_of_In, filter_In. Qed.

Lemma ascending_filter (P : Z -> bool) l :
  ascending l -> ascending (entries_where P l).
Proof.
  induction l as [|[k v] l IH]; [done|]. unfold entries_where. cbn [List.filter fst]. rewrite ascending_cons.
  intros [A F]. destruct (P k); [|by apply IH]. apply ascending_cons. split; [by apply IH|].
  intros k' v' [Hk' _]%(elem_of_filter_key P). by eapply F.
Qed.

Lemma last_max l k v :
  ascending l -> last l = Some (k, v) -> (k, v) ∈ l /\ forall k' v', (k', v') ∈ l -> k' <= k.
Proof.
  induction l as [|[k0 v0] l IH]; [done|]. rewrite ascending_cons, last_cons. intros [A F].
  destruct (last l) as [[k1 v1]|] eqn:E.
  - intros [= -> ->]. destruct (IH A eq_refl) as [Hl M]. split; [by right|].
    intros k' v' [[= -> ->]|Hk']%elem_of_cons; [|by eapply M]. apply F in Hl. lia.
  - intros [= -> ->]. apply last_None in E as ->. split; [by left|].
    intros k' v' [= -> ->]%list_elem_of_singleton. lia.
Qed.

Lemma head_min l k v :
  ascending l -> head l = Some (k, v) -> (k, v) ∈ l /\ forall k' v', (k', v') ∈ l -> k <= k'.
Proof.
  destruct l as [|[k0 v0] l]; [done|]. rewrite ascending_cons. intros [A F] [= -> ->].
  split; [by left|]. intros k' v' [[= -> ->]|Hk']%elem_of_cons; [lia|]. apply F in Hk'. lia.
Qed.

(** The entry in which a code point is. *)
Definition entry_at l (c k : Z) (v : option element) : Prop :=
  (k, v) ∈ l /\ k <= c /\ forall k' v', (k', v') ∈ l -> k' <= c -> k' <= k.

Definition covers l (c : Z) : Prop := exists k el, entry_at l c k (Some el).

(** The code points before an entry that is a gap are covered. *)
Definition gaps_ok l : Prop := forall k, (k, None) ∈ l -> covers l (k - 1).

Lemma entry_at_functional l c k v k' v' :
  ascending l -> entry_at l c k v -> entry_at l c k' v' -> k = k' /\ v = v'.
Proof.
  intros A (H1 & H2 & H3) (G1 & G2 & G3).
  assert (k = k') as -> by (apply Z.le_antisymm; eauto). split; [done|]. by eapply ascending_functional.
Qed.

(** [le] finds the entry of a code point. *)
Lemma last_le l c k v :
  ascending l -> last (entries_where (fun k => Z.leb k c) l) = Some (k, v) <-> entry_at l c k v.
Proof.
  intros A. pose proof (ascending_filter (fun k => Z.leb k c) l A) as A'. split.
  - intros E. apply last_max in E as [E M]; [|done]. apply elem_of_filter_key in E as [E L].
    split; [done|]. split; [by apply Z.leb_le|]. intros k' v' H' L'. eapply M, elem_of_filter_key.
    split; [done|]. by apply Z.leb_le.
  - intros E. destruct (last _) as [[k' v']|] eqn:L.
    + apply last_max in L as [L M]; [|done]. apply elem_of_filter_key in L as [L1 L2].
      assert (entry_at l c k' v') as E'.
      { split; [done|]. split; [by apply Z.leb_le|]. intros k1 v1 H1 G1. eapply M, elem_of_filter_key.
        split; [done|]. by apply Z.leb_le. }
      by destruct (entry_at_functional _ _ _ _ _ _ A E E') as [-> ->].
    + apply last_None in L. exfalso. destruct E as (E1 & E2 & _).
      apply (not_elem_of_nil (k, v)). rewrite <- L. apply elem_of_filter_key.
      split; [done|]. by apply Z.leb_le.
Qed.

Lemma last_le_None l c :
  last (entries_where (fun k => Z.leb k c) l) = None <-> forall k v, (k, v) ∈ l -> c < k.
Proof.
  rewrite last_None. split.
  - intros E k v Hk. destruct (Z.leb k c) eqn:L; [|by apply Z.leb_gt in L]. exfalso.
    apply (not_elem_of_nil (k, v)). rewrite <- E. by apply elem_of_filter_key.
  - intros F. destruct (entries_where _ l) as [|[k v] r] eqn:E; [done|]. exfalso.
    assert ((k, v) ∈ (k, v) :: r) as Hin by by left. rewrite <- E in Hin.
    apply elem_of_filter_key in Hin as [H1 H2%Z.leb_le]. apply F in H1. lia.
Qed.

Lemma entry_at_exists l c k v : (k, v) ∈ l -> k <= c -> ascending l -> exists k' v', entry_at l c k' v'.
Proof.
  intros H L A. destruct (last (entries_where (fun k => Z.leb k c) l)) as [[k' v']|] eqn:E.
  - exists k', v'. by apply last_le.
  - pose proof (proj1 (last_le_None l c) E k v H). lia.
Qed.

(** *** Changes of entries *)

Lemma elem_of_insert_entry k v l k' v' :
  (k', v') ∈ insert_entry k v l <-> (k' = k /\ v' = v) \/ (k', v') ∈ l.
Proof.
  induction l as [|[k0 v0] l IH]; cbn.
  - rewrite list_elem_of_singleton, elem_of_nil. naive_solver.
  - destruct (Z.ltb k k0); rewrite !elem_of_cons, ?IH; naive_solver.
Qed.

Lemma ascending_insert k v l : k ∉ l.*1 -> ascending l -> ascending (insert_entry k v l).
Proof.
  induction l as [|[k0 v0] l IH]; cbn [insert_entry fmap list_fmap fst].
  - intros _ _. apply ascending_cons. split; [constructor|]. by intros k' v' ?%not_elem_of_nil.
  - rewrite elem_of_cons. intros N A. pose proof A as [A' F]%ascending_cons.
    destruct (Z.ltb k k0) eqn:L.
    + apply Z.ltb_lt in L. apply ascending_cons. split; [done|].
      intros k' v' [[= -> ->]|Hk']%elem_of_cons; [done|]. apply F in Hk'. lia.
    + apply Z.ltb_ge in L. apply ascending_cons. split; [apply IH; tauto|].
      intros k' v' [[-> ->]|Hk']%elem_of_insert_entry; [lia|by eapply F].
Qed.

(** The value of an entry is replaced. *)
Lemma replace_keys l n k v v' : l !! n = Some (k, v') -> (<[n := (k, v)]> l).*1 = l.*1.
Proof.
  intros E. apply list_eq. intros i. rewrite !list_lookup_fmap. destruct (decide (i = n)) as [->|N].
  - rewrite list_lookup_insert_eq by (by eapply lookup_lt_Some). by rewrite E.
  - by rewrite list_lookup_insert_ne.
Qed.

Lemma ascending_replace l n k v v' :
  l !! n = Some (k, v') -> ascending l -> ascending (<[n := (k, v)]> l).
Proof. intros E A. unfold ascending. by rewrite (replace_keys l n k v v' E). Qed.

Lemma elem_of_replace l n k v v' k1 v1 :
  ascending l -> l !! n = Some (k, v') ->
  (k1, v1) ∈ <[n := (k, v)]> l <-> (k1 = k /\ v1 = v) \/ (k1 <> k /\ (k1, v1) ∈ l).
Proof.
  intros A E. split.
  - intros (i & Hi)%list_elem_of_lookup. destruct (decide (i = n)) as [->|N].
    + rewrite list_lookup_insert_eq in Hi by (by eapply lookup_lt_Some). left. by simplify_eq.
    + rewrite list_lookup_insert_ne in Hi by done. right. split.
      * intros ->. apply (f_equal (fmap fst)) in E. apply (f_equal (fmap fst)) in Hi.
        rewrite <- list_lookup_fmap in E, Hi. cbn in E, Hi. apply N.
        pose proof (NoDup_lookup l.*1 i n k) as U. apply U; try done.
        clear -A. unfold ascending in A. induction A as [|a r A IH F]; constructor; [|done].
        intros Hin. rewrite List.Forall_forall in F. apply list_elem_of_In, F in Hin. lia.
      * eapply list_elem_of_lookup_2. exact Hi.
  - intros [[-> ->]|[N Hin]].
    + eapply list_elem_of_lookup_2. apply list_lookup_insert_eq. by eapply lookup_lt_Some.
    + apply list_elem_of_lookup in Hin as [i Hi]. eapply list_elem_of_lookup_2.
      rewrite list_lookup_insert_ne; [exact Hi|]. intros ->. congruence.
Qed.


(** *** The changes of [addRange] *)

(** An entry is added or replaced. *)
Definition puts l l' (k : Z) (v : option element) : Prop :=
  ascending l' /\ forall k' v', (k', v') ∈ l' <-> (k' = k /\ v' = v) \/ (k' <> k /\ (k', v') ∈ l).

Lemma entry_dec l c :
  ascending l -> (exists k v, entry_at l c k v) \/ (forall k v, (k, v) ∈ l -> c < k).
Proof.
  intros A. destruct (last (entries_where (fun k => Z.leb k c) l)) as [[k v]|] eqn:E.
  - left. exists k, v. by apply last_le.
  - right. by apply last_le_None.
Qed.

(** The entries of the code points before the change are the same. *)
Lemma puts_before l l' k v c k1 v1 :
  puts l l' k v -> c < k -> entry_at l' c k1 v1 <-> entry_at l c k1 v1.
Proof.
  intros [_ P] L. unfold entry_at. setoid_rewrite P. split.
  - intros ([[-> ->]|[N H]] & Hc & M); [lia|]. split; [done|]. split; [done|].
    intros k' v' Hk' Lk'. apply (M k' v'); [|done]. right. split; [lia|done].
  - intros (H & Hc & M). split; [right; split; [lia|done]|]. split; [done|].
    intros k' v' [[-> ->]|[N Hk']] Lk'; [lia|by eapply M].
Qed.

(** So are the ones whose entry is after the change. *)
Lemma puts_after l l' k v c k1 v1 :
  puts l l' k v -> k < k1 -> entry_at l' c k1 v1 <-> entry_at l c k1 v1.
Proof.
  intros [_ P] L. unfold entry_at. setoid_rewrite P. split.
  - intros ([[-> ->]|[N H]] & Hc & M); [lia|]. split; [done|]. split; [done|].
    intros k' v' Hk' Lk'. destruct (decide (k' = k)) as [->|]; [lia|]. apply (M k' v'); [|done]. by right.
  - intros (H & Hc & M). split; [right; split; [lia|done]|]. split; [done|].
    intros k' v' [[-> ->]|[N Hk']] Lk'; [lia|by eapply M].
Qed.

(** The changed entry holds up to the next one. *)
Lemma puts_at l l' k v c :
  puts l l' k v -> k <= c -> (forall k' v', (k', v') ∈ l -> k' <= c -> k' <= k) -> entry_at l' c k v.
Proof.
  intros [_ P] L M. unfold entry_at. setoid_rewrite P. split; [by left|]. split; [done|].
  intros k' v' [[-> ->]|[N Hk']] Lk'; [lia|by eapply M].
Qed.

Lemma puts_keys l l' k v k' : puts l l' k v -> k' ∈ l'.*1 <-> k' = k \/ k' ∈ l.*1.
Proof.
  intros [_ P]. rewrite !list_elem_of_fmap. split.
  - intros ([k1 v1] & -> & [[-> ->]|[N H]]%P); [by left|right]. by exists (k1, v1).
  - destruct (decide (k' = k)) as [->|N].
    + intros _. exists (k, v). split; [done|]. apply P. by left.
    + intros [?|([k1 v1] & -> & H)]; [done|]. exists (k1, v1). split; [done|]. apply P. by right.
Qed.

Definition in_range (from to k : Z) : Prop := from < k <= to.

(** The last gap of a range is filled, if there is one. *)
Definition fills l l' (from to : Z) (el : element) : Prop :=
  (l' = l /\ forall k, (k, None) ∈ l -> ~ in_range from to k)
  \/ exists g, (g, None) ∈ l /\ in_range from to g
     /\ (forall k, (k, None) ∈ l -> in_range from to k -> k <= g) /\ puts l l' g (Some el).

(** The end of the range is given back to what was there. *)
Definition restores l0 l l' (to : Z) : Prop :=
  MAX_CODE_POINT < to + 1 /\ l' = l
  \/ (to + 1 <= MAX_CODE_POINT /\ exists k v, entry_at l0 to k (Some v) /\ to + 1 ∉ l0.*1 /\ puts l l' (to + 1) (Some v))
  \/ (to + 1 <= MAX_CODE_POINT /\ ~ covers l0 to /\ to + 1 ∉ l0.*1 /\ puts l l' (to + 1) None)
  \/ (to + 1 ∈ l0.*1 /\ l' = l).

Definition added l0 l3 (from to : Z) (el : element) : Prop :=
  exists l1 l2, puts l0 l1 from (Some el) /\ fills l1 l2 from to el /\ restores l0 l2 l3 to.

(** At most one gap of the class is in the range. *)
Definition single_gap l (from to : Z) : Prop :=
  forall g g', (g, None) ∈ l -> (g', None) ∈ l -> in_range from to g -> in_range from to g' -> g = g'.

Lemma fills_keys l0 l1 l2 from to el k :
  puts l0 l1 from (Some el) -> fills l1 l2 from to el -> k ∈ l2.*1 <-> k = from \/ k ∈ l0.*1.
Proof.
  intros P1 F2. rewrite <- (puts_keys _ _ _ _ k P1).
  destruct F2 as [[-> _]|(g & Hg & _ & _ & P2)]; [done|]. rewrite (puts_keys _ _ _ _ k P2).
  split; [|by right]. intros [->|]; [|done]. apply list_elem_of_fmap. by exists (g, None).
Qed.

Lemma fills_ascending l1 l2 from to el : ascending l1 -> fills l1 l2 from to el -> ascending l2.
Proof. intros A [[-> _]|(g & _ & _ & _ & A2 & _)]; done. Qed.

Section Added.

Context (l0 l1 l2 l3 : entries_of) (from to : Z) (el : element).
Hypothesis A0 : ascending l0.
Hypothesis P1 : puts l0 l1 from (Some el).
Hypothesis F2 : fills l1 l2 from to el.
Hypothesis R3 : restores l0 l2 l3 to.
Hypothesis L : from <= to.

Lemma added_ascending : ascending l2 /\ ascending l3.
Proof.
  destruct P1 as [A1 _]. assert (ascending l2) as A2 by (by eapply fills_ascending).
  split; [done|]. by destruct R3 as [[_ ->]|[(_ & k & v & _ & _ & A3 & _)|[(_ & _ & _ & A3 & _)|[_ ->]]]].
Qed.

(** The code points before the range. *)
Lemma added_before c k v : c < from -> entry_at l3 c k v <-> entry_at l0 c k v.
Proof.
  intros Lc. assert (entry_at l2 c k v <-> entry_at l0 c k v) as <-.
  { rewrite <- (puts_before _ _ _ _ _ k v P1 Lc).
    destruct F2 as [[-> _]|(g & _ & [Lg _] & _ & P2)]; [done|]. apply (puts_before _ _ _ _ _ _ _ P2). lia. }
  destruct R3 as [[_ ->]|[(_ & k' & v' & _ & _ & P3)|[(_ & _ & _ & P3)|[_ ->]]]]; try done;
    apply (puts_before _ _ _ _ _ _ _ P3); lia.
Qed.

(** The entries after the range. *)
Lemma added_after c k v : to + 1 < k -> entry_at l3 c k v <-> entry_at l0 c k v.
Proof.
  intros Lk. assert (entry_at l2 c k v <-> entry_at l0 c k v) as <-.
  { rewrite <- (puts_after _ _ _ _ c k v P1) by lia.
    destruct F2 as [[-> _]|(g & _ & [_ Lg] & _ & P2)]; [done|]. apply (puts_after _ _ _ _ _ _ _ P2). lia. }
  destruct R3 as [[_ ->]|[(_ & k' & v' & _ & _ & P3)|[(_ & _ & _ & P3)|[_ ->]]]]; try done;
    apply (puts_after _ _ _ _ _ _ _ P3); lia.
Qed.

(** A code point of the range is covered, unless it is in a gap that is not the last. *)
Lemma added_inside c :
  from <= c <= to ->
  covers l3 c \/ exists g g', entry_at l0 c g None /\ in_range from to g /\ (g', None) ∈ l0 /\ g < g' <= to.
Proof.
  intros Lc. pose proof P1 as [A1 M1].
  assert (covers l3 c <-> covers l2 c) as ->.
  { unfold covers, entry_at. destruct R3 as [[_ ->]|[(_ & k' & v' & _ & _ & P3)|[(_ & _ & _ & P3)|[_ ->]]]]; try done.
    all: split; intros (k & e & Hk); exists k, e; apply (puts_before _ _ _ _ c k (Some e) P3); (lia || done). }
  destruct (entry_at_exists l1 c from (Some el)) as (k & v & E); [apply M1; by left|lia|done|].
  assert (from <= k) as Lk by (apply (proj2 (proj2 E) from (Some el)); [apply M1; by left|lia]).
  destruct F2 as [[-> N]|(g & Hg & [Lg Gt] & Mg & P2)].
  - left. destruct v as [e|]; [by exists k, e|]. exfalso. apply (N k); [apply E|].
    destruct E as (E & Ek & _). apply M1 in E as [[-> [=]]|[Nk _]]. unfold in_range. lia.
  - destruct (decide (k = g)) as [->|Nk].
    + left. exists g, el. destruct E as (E1 & E2 & E3). by apply (puts_at _ _ _ _ _ P2).
    + destruct v as [e|].
      * left. exists k, e. destruct (decide (c < g)) as [Lcg|Lcg].
        -- by apply (puts_before _ _ _ _ _ _ _ P2).
        -- apply (puts_after _ _ _ _ _ _ _ P2); [|done].
           assert (g <= k) by (apply (proj2 (proj2 E) g None); [done|lia]). lia.
      * right. exists k, g. pose proof E as (E1 & E2 & E3).
        assert (k <> from) as Nf by (apply M1 in E1 as [[-> [=]]|[Nf _]]; done).
        assert (k <= g) by (apply Mg; [done|unfold in_range; lia]).
        apply (puts_after _ _ _ _ _ _ _ P1) in E; [|lia].
        apply M1 in Hg as [[-> [=]]|[_ Hg]]. unfold in_range. split; [done|]. split; [lia|]. split; [done|lia].
Qed.

Lemma covers_entry l c k v : ascending l -> entry_at l c k v -> covers l c <-> is_Some v.
Proof.
  intros A E. split.
  - intros (k' & el' & E'). destruct (entry_at_functional _ _ _ _ _ _ A E E') as [_ ->]. by eexists.
  - intros [el' ->]. by exists k, el'.
Qed.

(** The code points after the range are covered as before. *)
Lemma added_beyond c : to < c <= MAX_CODE_POINT -> covers l3 c <-> covers l0 c.
Proof.
  intros Lc. destruct added_ascending as [A2 A3].
  assert ((exists k v, entry_at l0 c k v /\ to < k) \/ forall k v, (k, v) ∈ l0 -> k <= c -> k <= to) as [D|D].
  { destruct (entry_dec l0 c A0) as [(k & v & E)|N]; [|right; intros k v Hk ?; apply N in Hk; lia].
    destruct (decide (to < k)); [left; by exists k, v|]. right. intros k' v' Hk' Lk'.
    pose proof (proj2 (proj2 E) k' v' Hk' Lk'). lia. }
  - destruct D as (k & v & E & Lk). assert (entry_at l3 c k v) as E3.
    { destruct (decide (to + 1 < k)); [by apply added_after|]. assert (k = to + 1) as -> by lia.
      assert (to + 1 ∈ l0.*1) as K by (apply list_elem_of_fmap; exists (to + 1, v); split; [done|apply E]).
      destruct R3 as [[? _]|[(_ & k' & v' & _ & ? & _)|[(_ & _ & ? & _)|[_ ->]]]]; [lia|done|done|].
      apply (puts_after _ _ _ _ c (to + 1) v P1) in E; [|lia].
      destruct F2 as [[-> _]|(g & _ & [_ Lg] & _ & P2)]; [done|].
      apply (puts_after _ _ _ _ _ _ _ P2); [lia|done]. }
    by rewrite (covers_entry _ _ _ _ A3 E3), (covers_entry _ _ _ _ A0 E).
  - assert (forall k v, (k, v) ∈ l2 -> k <= c -> k <= to + 1) as D2.
    { intros k v Hk Lk. assert (k ∈ l2.*1) as K by (apply list_elem_of_fmap; by exists (k, v)).
      apply (fills_keys _ _ _ _ _ _ k P1 F2) in K as [->|K]; [lia|]. apply list_elem_of_fmap in K as ([k1 v1] & -> & K).
      specialize (D k1 v1 K Lk). cbn. lia. }
    assert (forall k v, entry_at l0 to k v <-> entry_at l0 c k v) as E0.
    { intros k v. split; intros (H1 & H2 & H3); (split; [done|]; split).
      - lia.
      - intros k' v' Hk' Lk'. eapply H3; [done|]. by eapply D.
      - by eapply D.
      - intros k' v' Hk' Lk'. eapply H3; [done|]. lia. }
    destruct R3 as [[? _]|[(_ & k & v & E & _ & P3)|[(_ & N & _ & P3)|[K _]]]]; [lia| | |].
    + pose proof (puts_at _ _ _ _ c P3 ltac:(lia) D2) as E3. rewrite (covers_entry _ _ _ _ A3 E3).
      apply E0 in E. by rewrite (covers_entry _ _ _ _ A0 E).
    + pose proof (puts_at _ _ _ _ c P3 ltac:(lia) D2) as E3. rewrite (covers_entry _ _ _ _ A3 E3).
      split; [by intros []|]. intros (k & e & E%E0). destruct N. by exists k, e.
    + apply list_elem_of_fmap in K as ([k v] & Ek & K). cbn in Ek. subst k.
      specialize (D _ _ K ltac:(lia)). lia.
Qed.

(** What was covered still is. *)
Lemma added_monotone c : c <= MAX_CODE_POINT -> covers l0 c -> covers l3 c.
Proof.
  intros Lc C. destruct (decide (c < from)) as [Lf|Lf].
  - destruct C as (k & e & E). exists k, e. by apply added_before.
  - destruct (decide (to < c)) as [Lt|Lt]; [apply added_beyond; [lia|done]|].
    destruct (added_inside c ltac:(lia)) as [?|(g & g' & E & _)]; [done|]. exfalso.
    rewrite (covers_entry _ _ _ _ A0 E) in C. by destruct C.
Qed.

Lemma added_end : covers l3 to.
Proof.
  destruct (added_inside to ltac:(lia)) as [?|(g & g' & E & R & H' & Lg)]; [done|].
  pose proof (proj2 (proj2 E) g' None H'). lia.
Qed.

Lemma added_gaps_ok : (forall k v, (k, v) ∈ l0 -> k <= MAX_CODE_POINT) -> gaps_ok l0 -> gaps_ok l3.
Proof.
  intros B G k Hk. destruct (decide (k = to + 1)) as [->|Nk].
  { replace (to + 1 - 1) with to by lia. apply added_end. }
  assert ((k, None) ∈ l0) as H0.
  { assert ((k, None) ∈ l2) as H2.
    { destruct R3 as [[_ ->]|[(_ & k' & v' & _ & _ & _ & P3)|[(_ & _ & _ & _ & P3)|[_ ->]]]]; try done;
        apply P3 in Hk as [[-> _]|[_ Hk]]; done. }
    assert ((k, None) ∈ l1) as H1.
    { destruct F2 as [[-> _]|(g & _ & _ & _ & _ & P2)]; [done|].
      by destruct (proj1 (P2 _ _) H2) as [[_ ?]|[_ ?]]. }
    by apply P1 in H1 as [[_ ?]|[_ ?]]. }
  apply added_monotone; [|by apply G]. apply B in H0. lia.
Qed.

(** The class with the range, when at most one gap was in it. *)
Lemma added_covers c :
  single_gap l0 from to -> c <= MAX_CODE_POINT -> covers l3 c <-> covers l0 c \/ from <= c <= to.
Proof.
  intros S Lc. split.
  - intros C. destruct (decide (from <= c <= to)) as [|N]; [by right|left].
    destruct (decide (c < from)) as [Lf|Lf]; [|by apply added_beyond; [lia|]].
    destruct C as (k & e & E). exists k, e. by apply added_before.
  - intros [C|R]; [by apply added_monotone|].
    destruct (added_inside c R) as [?|(g & g' & E & Rg & H' & Lg)]; [done|]. exfalso.
    assert (g = g') by (apply (S g g' (proj1 E) H' Rg); unfold in_range in *; lia). lia.
Qed.

Lemma added_keys_bound :
  to <= MAX_CODE_POINT ->
  (forall k v, (k, v) ∈ l0 -> k <= MAX_CODE_POINT) -> forall k v, (k, v) ∈ l3 -> k <= MAX_CODE_POINT.
Proof.
  intros Lt B k v Hk. assert (k ∈ l3.*1) as K by (apply list_elem_of_fmap; by exists (k, v)).
  assert (k ∈ l2.*1 -> k <= MAX_CODE_POINT) as D.
  { intros [->|K2]%(fills_keys _ _ _ _ _ _ k P1 F2); [lia|]. apply list_elem_of_fmap in K2 as ([k1 v1] & -> & K2). by eapply B. }
  destruct R3 as [[_ ->]|[(? & k' & v' & _ & _ & P3)|[(? & _ & _ & P3)|[_ ->]]]]; try by apply D.
  all: apply (puts_keys _ _ _ _ k P3) in K as [->|?]; [done|by apply D].
Qed.

End Added.

End Entries.

(** ** Lemmas: trees *)

Section Trees.

Context {T I : Type} `{PersistentTree T I}.

Implicit Types t : T.

Lemma filter_head_key (k : Z) (l : entries_of) :
  (fst <$> head (entries_where (fun k' => Z.eqb k' k) l) = None <-> k ∉ l.*1)
  /\ (forall k' v, head (entries_where (fun k' => Z.eqb k' k) l) = Some (k', v) -> k' = k).
Proof.
  split.
  - destruct (entries_where _ l) as [|[k0 v] r] eqn:E.
    + split; [|done]. intros _ ([k1 v1] & -> & Hk)%list_elem_of_fmap.
      apply (not_elem_of_nil (k1, v1)). rewrite <- E. apply elem_of_filter_key. by rewrite Z.eqb_refl.
    + split; [done|]. intros N. exfalso. assert ((k0, v) ∈ entries_where (fun k' => Z.eqb k' k) l) as Hk.
      { rewrite E. by left. }
      apply elem_of_filter_key in Hk as [Hk Ek%Z.eqb_eq]. subst. apply N, list_elem_of_fmap. by exists (k, v).
  - intros k' v E. assert ((k', v) ∈ entries_where (fun k' => Z.eqb k' k) l) as Hk.
    { destruct (entries_where _ l); [done|]. cbn in E. simplify_eq. by left. }
    by apply elem_of_filter_key in Hk as [_ ?%Z.eqb_eq].
Qed.

Lemma key_find t k : key (find t k) = None <-> k ∉ (entries t).*1.
Proof. rewrite key_entry, find_tree, find_entry. apply filter_head_key. Qed.

Lemma put_puts k v t : ascending (entries t) -> puts (entries t) (entries (put k v t)) k v.
Proof.
  intros A. unfold put. destruct (key (find t k)) as [kf|] eqn:E.
  - rewrite key_entry, find_tree in E.
    destruct (entries t !! index (find t k)) as [[k1 v1]|] eqn:E1; [|done].
    assert (k1 = k) as -> by (rewrite find_entry in E1; by eapply filter_head_key).
    assert (entries (update (find t k) v) = <[index (find t k) := (k, v)]> (entries t)) as ->.
    { rewrite (entries_update _ v k v1); by rewrite find_tree. }
    split; [by eapply ascending_replace|]. intros k' v'. by eapply elem_of_replace.
  - apply key_find in E. rewrite entries_insert by done. split; [by apply ascending_insert|].
    intros k' v'. rewrite elem_of_insert_entry. split; [|tauto]. intros [?|Hk]; [by left|right].
    split; [|done]. intros ->. apply E, list_elem_of_fmap. by exists (k, v').
Qed.

Lemma ascending_lookup (l : entries_of) : forall i j k v k' v',
  ascending l -> l !! i = Some (k, v) -> l !! j = Some (k', v') -> (i < j)%nat -> k < k'.
Proof.
  induction l as [|[k0 v0] l IH]; intros i j k v k' v'; [done|]. rewrite ascending_cons. intros [A F].
  destruct i as [|i], j as [|j]; cbn; intros Ei Ej Lt; [lia| |lia|].
  - injection Ei as -> ->. eapply F, list_elem_of_lookup_2, Ej.
  - eapply (IH i j); [done..|lia].
Qed.

(** The contents once the iterator has gone through the first entries. *)
Definition filled (l : entries_of) (from to : Z) (el : element) (n : nat) t : Prop :=
  (entries t = l /\ forall j k, (j < n)%nat -> l !! j = Some (k, None) -> ~ in_range from to k)
  \/ exists j g, (j < n)%nat /\ l !! j = Some (g, None) /\ in_range from to g
     /\ (forall j' k, (j' < n)%nat -> l !! j' = Some (k, None) -> in_range from to k -> (j' <= j)%nat)
     /\ entries t = <[j := (g, Some el)]> l.

Lemma filled_step l from to el n t k v :
  filled l from to el n t -> l !! n = Some (k, v) -> (v = None -> ~ in_range from to k) ->
  filled l from to el (S n) t.
Proof.
  intros [[E N]|(j & g & Lj & Ej & R & M & E)] En Nv.
  - left. split; [done|]. intros j k' Lj Ej. destruct (decide (j = n)) as [->|].
    + rewrite En in Ej. injection Ej as -> ->. by apply Nv.
    + apply (N j); [lia|done].
  - right. exists j, g. split; [lia|]. split; [done|]. split; [done|]. split; [|done].
    intros j' k' Lj' Ej' R'. destruct (decide (j' = n)) as [->|].
    + rewrite En in Ej'. injection Ej' as -> ->. by destruct (Nv eq_refl).
    + apply (M j' k'); [lia|done..].
Qed.

Lemma addRange_loop_filled from to el t0 : forall fuel it t,
  tree_of it = t0 -> (length (entries t0) <= index it + fuel)%nat ->
  filled (entries t0) from to el (index it) t ->
  filled (entries t0) from to el (length (entries t0)) (addRange_loop fuel from to el it t).
Proof.
  assert (forall n t, (length (entries t0) <= n)%nat -> filled (entries t0) from to el n t ->
            filled (entries t0) from to el (length (entries t0)) t) as Done.
  { intros n t Ln [[E N]|(j & g & Lj & Ej & R & M & E)].
    - left. split; [done|]. intros j k Lj. apply N. lia.
    - right. exists j, g. split; [by eapply lookup_lt_Some|]. split; [done|]. split; [done|].
      split; [|done]. intros j' k Lj'. apply M. lia. }
  induction fuel as [|fuel IH]; intros it t Et Lf F; cbn [addRange_loop].
  { apply (Done (index it)); [lia|done]. }
  rewrite key_entry, value_entry, Et. destruct (entries t0 !! index it) as [[k v]|] eqn:En; cbn.
  2: { apply (Done (index it)); [by apply lookup_ge_None|done]. }
  apply IH; [by rewrite next_tree|rewrite next_index; lia|]. rewrite next_index.
  destruct (Z.ltb from k && Z.leb k to && match v with None => true | _ => false end) eqn:C.
  - split_bools. destruct v; [done|]. right. exists (index it), k. split; [lia|]. split; [done|].
    split; [split; lia|]. split; [intros; lia|]. rewrite <- Et in En |- *. by eapply entries_update.
  - eapply filled_step; [done..|]. intros ->. unfold in_range. intros [H1 H2].
    rewrite (proj2 (Z.ltb_lt _ _) H1), (proj2 (Z.leb_le _ _) H2) in C. done.
Qed.

Lemma filled_fills from to el t0 t :
  ascending (entries t0) -> filled (entries t0) from to el (length (entries t0)) t ->
  fills (entries t0) (entries t) from to el.
Proof.
  intros A [[E N]|(j & g & _ & Ej & R & M & E)].
  - left. split; [done|]. intros k [j Hj]%list_elem_of_lookup. apply (N j); [by eapply lookup_lt_Some|done].
  - right. exists g. split; [by eapply list_elem_of_lookup_2|]. split; [done|]. split.
    + intros k [j' Hj']%list_elem_of_lookup Rk. pose proof (lookup_lt_Some _ _ _ Hj') as Lj'.
      specialize (M j' k Lj' Hj' Rk). destruct (decide (j' = j)) as [->|].
      * rewrite Ej in Hj'. injection Hj' as ->. lia.
      * apply Z.lt_le_incl. eapply ascending_lookup; [done..|lia].
    + rewrite E. split; [by eapply ascending_replace|]. intros k' v'. by eapply elem_of_replace.
Qed.

(** The next entry of the one at the end of a range is after the next code point. *)
Lemma gt_beyond to t k v :
  ascending (entries t) -> entry_at (entries t) to k v ->
  match key (gt t k) with None => true | Some e => Z.ltb (to + 1) e end = true
  <-> to + 1 ∉ (entries t).*1.
Proof.
  intros A (E1 & E2 & E3). rewrite key_entry, gt_tree, gt_entry.
  pose proof (ascending_filter (fun k' => Z.ltb k k') _ A) as A'.
  destruct (head (entries_where (fun k' => Z.ltb k k') (entries t))) as [[e v']|] eqn:E; cbn.
  - apply head_min in E as [E M]; [|done]. apply elem_of_filter_key in E as [E Lk%Z.ltb_lt].
    rewrite Z.ltb_lt. split.
    + intros Le ([k1 v1] & Ek & H1)%list_elem_of_fmap. cbn in Ek. subst k1.
      assert (e <= to + 1); [|lia]. eapply M, elem_of_filter_key. split; [exact H1|]. apply Z.ltb_lt. lia.
    + intros N. destruct (decide (e <= to)) as [Le|Le].
      { specialize (E3 _ _ E Le). lia. }
      destruct (decide (e = to + 1)) as [->|]; [|lia]. destruct N. apply list_elem_of_fmap. by exists (to + 1, v').
  - split; [|done]. intros _ ([k1 v1] & Ek & H1)%list_elem_of_fmap. cbn in Ek. subst k1.
    assert ((to + 1, v1) ∈ entries_where (fun k' => Z.ltb k k') (entries t)) as F.
    { apply elem_of_filter_key. split; [done|]. apply Z.ltb_lt. lia. }
    destruct (entries_where _ _); [by apply not_elem_of_nil in F|done].
Qed.

(** [addRange] does the changes of its specification. *)
Lemma addRange_added from to el t :
  ascending (entries t) -> from <= to -> added (entries t) (entries (addRange from to el t)) from to el.
Proof.
  intros A L. unfold addRange. set (t1 := put from (Some el) t).
  pose proof (put_puts from (Some el) t A) as P1. fold t1 in P1.
  set (t2 := addRange_loop (size t1) from to el (begin t1) t1).
  assert (fills (entries t1) (entries t2) from to el) as F2.
  { apply filled_fills; [apply P1|]. apply addRange_loop_filled.
    - apply begin_tree.
    - rewrite size_entries. lia.
    - left. split; [done|]. rewrite begin_index. intros. lia. }
  pose proof (fills_ascending _ _ _ _ _ (proj1 P1) F2) as A2.
  exists (entries t1), (entries t2). split; [done|]. split; [done|].
  assert (forall k, k ∈ (entries t2).*1 <-> k = from \/ k ∈ (entries t).*1) as K2.
  { intros k. by eapply fills_keys. }
  clearbody t2.
  destruct (Z.leb (to + 1) MAX_CODE_POINT) eqn:Lm; [|left; split; [by apply Z.leb_gt|done]].
  apply Z.leb_le in Lm.
  assert (forall k v, entries t !! index (le t to) = Some (k, v) <-> entry_at (entries t) to k v) as E0.
  { intros k v. rewrite le_entry. by apply last_le. }
  assert (forall k v, entry_at (entries t) to k v ->
    match key (gt t k) with None => true | Some e => Z.ltb (to + 1) e end = true
    <-> to + 1 ∉ (entries t).*1) as G0.
  { intros k v E. by eapply gt_beyond. }
  assert (to + 1 ∈ (entries t2).*1 <-> to + 1 ∈ (entries t).*1) as K3.
  { rewrite K2. split; [|tauto]. intros [?|?]; [lia|done]. }
  assert (~ covers (entries t) to ->
    restores (entries t) (entries t2)
      (entries match key (find t2 (to + 1)) with None => put (to + 1) None t2 | Some _ => t2 end) to) as B.
  { intros N. right. right. destruct (key (find t2 (to + 1))) eqn:Ek.
    - right. split; [|done]. apply K3. destruct (decide (to + 1 ∈ (entries t2).*1)) as [?|Nk]; [done|].
      apply key_find in Nk. congruence.
    - left. apply key_find in Ek. rewrite K3 in Ek. split; [done|]. split; [done|]. split; [done|].
      by apply put_puts. }
  rewrite key_entry, value_entry, le_tree.
  destruct (entries t !! index (le t to)) as [[k v]|] eqn:E; cbn.
  2: { apply B. intros (k & e & C). by apply E0 in C. }
  assert (entry_at (entries t) to k v) as E' by (by apply E0). clear E0 E. rename E' into E. specialize (G0 k v E). destruct v as [e|].
  2: { apply B. rewrite (covers_entry _ _ _ _ A E). by intros []. }
  destruct (match key (gt t k) with None => true | Some e => Z.ltb (to + 1) e end) eqn:Eg.
  - right. left. split; [done|]. exists k, e. split; [done|]. split; [by apply G0|by apply put_puts].
  - assert (to + 1 ∈ (entries t).*1) as K4.
    { destruct (decide (to + 1 ∈ (entries t).*1)) as [?|Nk]; [done|]. apply G0 in Nk. congruence. }
    destruct (key (find t2 (to + 1))) eqn:Ek; [by do 3 right|].
    apply key_find in Ek. by destruct Ek; apply K3.
Qed.

(** *** Classes *)

(** The class covers a code point. *)
Definition class_covers t (c : Z) : Prop := c <= MAX_CODE_POINT /\ covers (entries t) c.

Record class_ok t : Prop := mkClassOk {
  c_ascending : ascending (entries t);
  c_gaps : gaps_ok (entries t);
  c_bound : forall k v, (k, v) ∈ entries t -> k <= MAX_CODE_POINT }.

Lemma empty_ok : class_ok createTree.
Proof.
  constructor; rewrite entries_createTree; [constructor| |]; intros k; [|intros v];
    by intros ?%not_elem_of_nil.
Qed.

Lemma empty_covers c : ~ class_covers createTree c.
Proof. intros (_ & k & e & E & _). rewrite entries_createTree in E. by apply not_elem_of_nil in E. Qed.

Lemma addRange_ok from to el t :
  class_ok t -> from <= to <= MAX_CODE_POINT -> class_ok (addRange from to el t).
Proof.
  intros [A G B] L. destruct (addRange_added from to el t A ltac:(lia)) as (l1 & l2 & P1 & F2 & R3).
  constructor.
  - by destruct (added_ascending _ _ _ _ _ _ _ P1 F2 R3).
  - apply (added_gaps_ok _ _ _ _ _ _ _ A P1 F2 R3); [lia|done|done].
  - exact (added_keys_bound _ _ _ _ _ _ _ P1 F2 R3 (proj1 L) (proj2 L) B).
Qed.

Lemma addRange_covers from to el t c :
  class_ok t -> from <= to <= MAX_CODE_POINT -> single_gap (entries t) from to ->
  class_covers (addRange from to el t) c <-> class_covers t c \/ from <= c <= to.
Proof.
  intros [A G B] L S. destruct (addRange_added from to el t A ltac:(lia)) as (l1 & l2 & P1 & F2 & R3).
  pose proof (added_covers _ _ _ _ _ _ _ A P1 F2 R3 (proj1 L) c S) as AC. unfold class_covers.
  split; [intros [Lc C]; apply AC in C; tauto|].
  intros [[Lc C]|C]; (split; [lia|apply AC; [lia|tauto]]).
Qed.

Lemma isRangeEmpty_spec t from to :
  isRangeEmpty t from to = false <-> exists k, k ∈ (entries t).*1 /\ from <= k < to.
Proof.
  unfold isRangeEmpty. rewrite forEach_keys.
  destruct (List.filter _ _) as [|k r] eqn:E; split; try done.
  - intros (k & Hk & L1 & L2). exfalso. apply (not_elem_of_nil k). rewrite <- E.
    rewrite list_elem_of_In, filter_In, <- list_elem_of_In. split; [done|].
    by rewrite (proj2 (Z.leb_le _ _) L1), (proj2 (Z.ltb_lt _ _) L2).
  - intros _. exists k. assert (k ∈ k :: r) as Hk by by left. rewrite <- E in Hk.
    rewrite list_elem_of_In, filter_In, <- list_elem_of_In in Hk. destruct Hk as [Hk C]. split_bools. split; [done|lia].
Qed.

Lemma value_le t c el : ascending (entries t) ->
  value (le t c) = Some el <-> exists k, entry_at (entries t) c k (Some el).
Proof.
  intros A. rewrite value_entry, le_tree, le_entry. split.
  - destruct (last _) as [[k v]|] eqn:E; cbn; [|done]. intros ->. exists k. by apply last_le.
  - intros (k & E). apply (last_le _ _ _ _ A) in E. by rewrite E.
Qed.

(** [hasEntryBetween] is exact, thanks to the gaps. *)
Lemma hasEntryBetween_spec t from to :
  class_ok t -> from <= to ->
  hasEntryBetween t from to = true <-> exists c, from <= c <= to /\ covers (entries t) c.
Proof.
  intros [A G B] L. unfold hasEntryBetween. destruct (value (le t from)) as [el|] eqn:E.
  - split; [|done]. intros _. apply (value_le _ _ _ A) in E as [k E]. exists from. split; [lia|].
    by exists k, el.
  - rewrite negb_true_iff, isRangeEmpty_spec. split.
    + intros (k & ([k1 v] & -> & Hk)%list_elem_of_fmap & Lk). cbn in *. destruct v as [el|].
      * exists k1. split; [lia|]. exists k1, el. split; [done|]. split; [lia|done].
      * exists (k1 - 1). split; [lia|]. by apply G.
    + intros (c & Lc & k & el & Hk & Lk & M). exists k. split; [apply list_elem_of_fmap; by exists (k, Some el)|].
      destruct (decide (k <= from)) as [Le|]; [exfalso|lia].
      assert (value (le t from) = Some el) as V; [|congruence].
      apply (value_le _ _ _ A). exists k. split; [done|]. split; [done|]. intros k' v' Hk' Lk'. apply (M k' v' Hk'). lia.
Qed.

(** *** Intersections *)

(** The code points from an entry up to the next one, from the place [n] on. *)
Definition covers_from (l : entries_of) (n : nat) (c : Z) : Prop :=
  exists j k el, (n <= j)%nat /\ l !! j = Some (k, Some el) /\ k <= c
    /\ forall k' v', l !! S j = Some (k', v') -> c < k'.

Lemma covers_from_0 (l : entries_of) c : ascending l -> covers l c <-> covers_from l 0 c.
Proof.
  intros A. split.
  - intros (k & el & [j Hj]%list_elem_of_lookup & L & M). exists j, k, el.
    split; [lia|]. split; [done|]. split; [done|]. intros k' v' Hk'.
    destruct (decide (k' <= c)) as [Lc|]; [|lia].
    pose proof (M k' v' (list_elem_of_lookup_2 _ _ _ Hk') Lc) as Lk.
    pose proof (ascending_lookup l j (S j) _ _ _ _ A Hj Hk' ltac:(lia)). lia.
  - intros (j & k & el & _ & Hj & L & M). exists k, el. split; [by eapply list_elem_of_lookup_2|].
    split; [done|]. intros k' v' [i Hi]%list_elem_of_lookup Lc.
    destruct (decide (i = j)) as [->|N]; [rewrite Hj in Hi; injection Hi as ? ?; lia|].
    destruct (decide (i < j)%nat); [apply Z.lt_le_incl; by eapply (ascending_lookup l i j)|]. exfalso.
    destruct (l !! S j) as [[k1 v1]|] eqn:E1.
    2: { apply lookup_ge_None in E1. apply lookup_lt_Some in Hi. lia. }
    specialize (M k1 v1 eq_refl). destruct (decide (i = S j)) as [->|]; [rewrite E1 in Hi; injection Hi as ? ?; lia|].
    pose proof (ascending_lookup l (S j) i _ _ _ _ A E1 Hi ltac:(lia)). lia.
Qed.

Lemma covers_from_step (l : entries_of) n c :
  covers_from l n c
  <-> (exists k el, l !! n = Some (k, Some el) /\ k <= c
       /\ forall k' v', l !! S n = Some (k', v') -> c < k') \/ covers_from l (S n) c.
Proof.
  split.
  - intros (j & k & el & Lj & Hj & L & M). destruct (decide (j = n)) as [->|].
    + left. by exists k, el.
    + right. exists j, k, el. split; [lia|done].
  - intros [(k & el & Hj & L & M)|(j & k & el & Lj & Hj & L & M)].
    + exists n, k, el. split; [lia|done].
    + exists j, k, el. split; [lia|done].
Qed.

Lemma covers_from_end (l : entries_of) n c : (length l <= n)%nat -> ~ covers_from l n c.
Proof. intros L (j & k & el & Lj & Hj & _). apply lookup_lt_Some in Hj. lia. Qed.

Lemma app_not_nil {A} (l : list A) x : l ++ [x] <> [].
Proof. by destruct l. Qed.

(** The loop finds an intersection exactly when there is one in the entries to come,
    although the range of an entry goes one too far when the next one is covered. *)
Lemma findIntersections_loop_spec this that : forall fuel it acc,
  class_ok this -> class_ok that -> tree_of it = that -> (index it < length (entries that))%nat ->
  (length (entries that) <= index it + fuel)%nat ->
  findIntersections_loop fuel this it acc <> []
  <-> acc <> [] \/ exists c, c <= MAX_CODE_POINT /\ covers_from (entries that) (index it) c
                    /\ covers (entries this) c.
Proof.
  induction fuel as [|fuel IH]; intros it acc K1 K2 Et Li Lf; [lia|]. cbn [findIntersections_loop].
  set (l := entries that) in *. destruct (lookup_lt_is_Some_2 l (index it) Li) as [[k v] En].
  assert (forall c, covers_from l (index it) c <-> (exists el, v = Some el /\ k <= c
            /\ forall k' v', l !! S (index it) = Some (k', v') -> c < k') \/ covers_from l (S (index it)) c) as CF.
  { intros c. rewrite covers_from_step, En. naive_solver. }
  rewrite hasNext_entry, Et. fold l. destruct (Nat.ltb_spec (S (index it)) (length l)) as [Ln|Ln].
  - destruct (lookup_lt_is_Some_2 l _ Ln) as [[k' v'] En'].
    pose proof (ascending_lookup l _ _ _ _ _ _ (c_ascending _ K2) En En' ltac:(lia)) as Lk.
    rewrite IH; [|done|done|by rewrite next_tree|by rewrite next_index|rewrite next_index; lia].
    rewrite !key_entry, !value_entry, next_tree, next_index, Et. fold l. rewrite En, En'. cbn.
    destruct v as [el|].
    2: { split; (intros [?|(c & Lc & C & C')]; [by left|right; exists c; split; [done|]; split; [|done]]);
           [apply CF; by right|apply CF in C as [(e & [=] & _)|?]; done]. }
    set (to := match v' with Some _ => k' | None => k' - 1 end).
    assert (k <= to /\ k' - 1 <= to /\ to <= k') as (T1 & T2 & T3) by (unfold to; destruct v'; lia).
    pose proof (hasEntryBetween_spec this k to K1 T1) as HB.
    pose proof (c_bound _ K2 k' v' (list_elem_of_lookup_2 _ _ _ En')) as Lm.
    destruct (hasEntryBetween this k to).
    + assert (exists c, c <= MAX_CODE_POINT /\ covers_from l (index it) c /\ covers (entries this) c) as X.
      { destruct (proj1 HB eq_refl) as (c & Lc & C). exists c. split; [lia|]. split; [|done].
        apply CF. destruct (decide (c < k')) as [Lt|Lt].
        - left. exists el. split; [done|]. split; [lia|]. rewrite En'. by intros ? ? [= -> ->].
        - right. assert (c = k') as -> by lia. destruct v' as [el'|]; [|unfold to in *; lia].
          exists (S (index it)), k', el'. split; [lia|]. split; [done|]. split; [lia|].
          intros k2 v2 E2. by eapply (ascending_lookup l _ _ _ _ _ _ (c_ascending _ K2) En' E2); lia. }
      split; intros _; [by right|left; apply app_not_nil].
    + split; (intros [?|(c & Lc & C & C')]; [by left|right; exists c; split; [done|]; split; [|done]]).
      * apply CF. by right.
      * apply CF in C as [(e & _ & Lk1 & M)|C]; [|done]. specialize (M k' v' En').
        assert (false = true); [|done]. apply HB. exists c. split; [lia|done].
  - rewrite key_entry, value_entry, Et. fold l. rewrite En. cbn.
    assert (forall c, covers_from l (index it) c <-> exists el, v = Some el /\ k <= c) as CL.
    { intros c. rewrite CF. split.
      - intros [(el & Ev & Lk & _)|C]; [by exists el|]. exfalso. eapply covers_from_end; [|exact C]. lia.
      - intros (el & Ev & Lk). left. exists el. split; [done|]. split; [done|]. intros k' v' E'.
        apply lookup_lt_Some in E'. lia. }
    destruct v as [el|].
    2: { split; [by left|]. intros [?|(c & _ & (el & [=] & _)%CL & _)]. done. }
    pose proof (c_bound _ K2 k (Some el) (list_elem_of_lookup_2 _ _ _ En)) as Lm.
    pose proof (hasEntryBetween_spec this k MAX_CODE_POINT K1 Lm) as HB.
    destruct (hasEntryBetween this k MAX_CODE_POINT).
    + split; [intros _; right|intros _; apply app_not_nil].
      destruct (proj1 HB eq_refl) as (c & Lc & C). exists c. split; [lia|]. split; [|done].
      apply CL. exists el. split; [done|lia].
    + split; [by left|]. intros [?|(c & Lc & (e & _ & Lk)%CL & C)]; [done|].
      assert (false = true); [|done]. apply HB. exists c. split; [lia|done].
Qed.

(** [findIntersections] finds something exactly when the two classes share a code point. *)
Lemma findIntersections_spec this that :
  class_ok this -> class_ok that ->
  findIntersections this that <> [] <-> exists c, class_covers this c /\ class_covers that c.
Proof.
  intros K1 K2. unfold findIntersections. rewrite key_entry, begin_tree, begin_index.
  destruct (entries that !! 0%nat) as [[k v]|] eqn:E; cbn.
  - rewrite findIntersections_loop_spec; try done.
    + rewrite begin_index. unfold class_covers. setoid_rewrite <- covers_from_0; [|apply K2]. naive_solver.
    + apply begin_tree.
    + rewrite begin_index. by eapply lookup_lt_Some.
    + rewrite begin_index, size_entries. lia.
  - split; [done|]. intros (c & _ & _ & k & el & Hk & _). exfalso.
    apply lookup_ge_None in E. destruct (entries that); [by apply not_elem_of_nil in Hk|]. cbn in E. lia.
Qed.

End Trees.

(** ** Specification: the ranges of an element *)

Section Ranges.

Variable toUpperCase toLowerCase : Z -> Z.

(** The ranges that are added for a range, with its upper and lower case. *)
Definition case_ranges (flags : Flags) (from to : Z) : list (Z * Z) :=
  let upperCaseFrom := toUpperCase from in
  let upperCaseTo := toUpperCase to in
  let lowerCaseFrom := toLowerCase upperCaseFrom in
  let lowerCaseTo := toLowerCase upperCaseTo in
  if ignoreCase flags && negb (Z.eqb lowerCaseFrom upperCaseFrom)
     && negb (Z.eqb lowerCaseTo upperCaseTo)
     && (isAscii from && isAscii to || unicode flags)
  then [(upperCaseFrom, upperCaseTo); (lowerCaseFrom, lowerCaseTo)]
  else [(from, to)].

Definition set_ranges (flags : Flags) (kind : set_kind) (negate : bool) : list (Z * Z) :=
  match kind, negate with
  | digit, true => [(0, 47); (58, if unicode flags then 0xff else MAX_CODE_POINT)]
  | digit, false => [(48, 57)]
  | space, true =>
      [(0, 8); (14, 31)] ++
      if unicode flags then
        [(33, 0x84); (0x86, 0x9f); (0xa1, 0x167f); (0x1681, 0x1fff); (0x200b, 0x2027);
         (0x202a, 0x202e); (0x2030, 0x205e); (0x2060, 0x2fff); (0x3001, MAX_CODE_POINT)]
      else [(33, MAX_CODE_POINT)]
  | space, false =>
      [(9, 13); (32, 32)] ++
      if unicode flags then
        [(0x85, 0x85); (0xa0, 0xa0); (0x1680, 0x1680); (0x2000, 0x200a); (0x2028, 0x2029);
         (0x202f, 0x202f); (0x205f, 0x205f); (0x3000, 0x3000)]
      else []
  | word, true =>
      [(0, 47); (58, 64); (91, 94); (96, 96); (123, if unicode flags then 180 else MAX_CODE_POINT)]
  | word, false => [(48, 57); (65, 90); (95, 95); (97, 122)]
  | property, _ => []
  end.

Definition element_ranges (flags : Flags) (el : element) : list (Z * Z) :=
  match el_shape el with
  | Character value => case_ranges flags value value
  | CharacterClassRange min max => case_ranges flags min max
  | CharacterSet kind negate => set_ranges flags kind negate
  | OtherElement => []
  end.

End Ranges.

(** The code points of ranges. *)
Definition denotes (ranges : list (Z * Z)) (c : Z) : Prop :=
  exists r, r ∈ ranges /\ r.1 <= c <= r.2.

Definition ordered (r : Z * Z) : Prop := r.1 <= r.2 <= MAX_CODE_POINT.

(** At most one end of the ranges before is in the next one. *)
Definition one_end (before : list (Z * Z)) (r : Z * Z) : bool :=
  match List.filter (fun b => Z.leb r.1 b.2 && Z.ltb b.2 r.2) before with
  | [] | [_] => true
  | _ => false
  end.

Fixpoint one_ends (before ranges : list (Z * Z)) : bool :=
  match ranges with
  | [] => true
  | r :: rest => one_end before r && one_ends (before ++ [r]) rest
  end.

Lemma element_one_ends up low flags el : one_ends [] (element_ranges up low flags el) = true.
Proof.
  unfold element_ranges. destruct (el_shape el) as [c|min max|kind negate|]; try done.
  - unfold case_ranges. case_match; cbn; unfold one_end; cbn; repeat case_match; done.
  - unfold case_ranges. case_match; cbn; unfold one_end; cbn; repeat case_match; done.
  - destruct flags as [? []], kind, negate; reflexivity.
Qed.

Lemma one_end_unique before r b b' :
  one_end before r = true -> b ∈ before -> b' ∈ before ->
  r.1 <= b.2 < r.2 -> r.1 <= b'.2 < r.2 -> b = b'.
Proof.
  unfold one_end. intros E Hb Hb' L L'.
  assert (forall x, x ∈ before -> r.1 <= x.2 < r.2 ->
    x ∈ List.filter (fun b => Z.leb r.1 b.2 && Z.ltb b.2 r.2) before) as F.
  { intros x Hx [L1 L2]. rewrite list_elem_of_In, filter_In, <- list_elem_of_In. split; [done|].
    by rewrite (proj2 (Z.leb_le _ _) L1), (proj2 (Z.ltb_lt _ _) L2). }
  pose proof (F b Hb L) as G. pose proof (F b' Hb' L') as G'.
  destruct (List.filter _ before) as [|x [|y r']]; [by apply not_elem_of_nil in G| |done].
  apply list_elem_of_singleton in G as ->. by apply list_elem_of_singleton in G' as ->.
Qed.

Section Adding.

Context {T I : Type} `{PersistentTree T I}.
Variable toUpperCase toLowerCase : Z -> Z.

Implicit Types t : T.

Notation add := (add toUpperCase toLowerCase).
Notation element_ranges := (element_ranges toUpperCase toLowerCase).

Lemma add_ranges_app el r1 r2 t : add_ranges el (r1 ++ r2) t = add_ranges el r2 (add_ranges el r1 t).
Proof. apply fold_left_app. Qed.

Lemma add_element flags el t : add flags el t = add_ranges el (element_ranges flags el) t.
Proof.
  unfold RegexClasses.add, RegexClasses.element_ranges, builder_addRange, case_ranges.
  destruct (el_shape el) as [c|min max|kind negate|]; [by case_match|by case_match| |done].
  destruct flags as [? []], kind, negate; reflexivity.
Qed.

Lemma gap_not_covered t k : class_ok t -> (k, None) ∈ entries t -> ~ covers (entries t) k.
Proof.
  intros K Hk. assert (entry_at (entries t) k k None) as E by (split; [done|]; split; [lia|done]).
  rewrite (covers_entry _ _ _ _ (c_ascending _ K) E). by intros [].
Qed.

(** Ranges that the class does not meet are all added. *)
Lemma add_ranges_covers el t0 : forall rest before t,
  class_ok t -> Forall ordered rest -> one_ends before rest = true ->
  (forall c, class_covers t0 c -> ~ denotes rest c) ->
  (forall c, class_covers t c <-> class_covers t0 c \/ denotes before c) ->
  class_ok (add_ranges el rest t)
  /\ forall c, class_covers (add_ranges el rest t) c <-> class_covers t0 c \/ denotes (before ++ rest) c.
Proof.
  induction rest as [|r rest IH]; intros before t K O E D C; cbn.
  { by rewrite app_nil_r. }
  apply Forall_cons in O as [Or O]. cbn in E. split_bools.
  assert (forall c, denotes (r :: rest) c <-> r.1 <= c <= r.2 \/ denotes rest c) as DC.
  { intros c. unfold denotes. setoid_rewrite elem_of_cons. naive_solver. }
  assert (forall c, denotes (before ++ [r]) c <-> denotes before c \/ r.1 <= c <= r.2) as DS.
  { intros c. unfold denotes. setoid_rewrite elem_of_app. setoid_rewrite list_elem_of_singleton. naive_solver. }
  assert (single_gap (entries t) r.1 r.2) as S.
  { assert (forall g, (g, None) ∈ entries t -> in_range r.1 r.2 g ->
              exists b, b ∈ before /\ b.2 = g - 1) as G.
    { intros g Hg [L1 L2]. pose proof (c_gaps _ K g Hg) as Cg.
      assert (class_covers t (g - 1)) as Ct by (split; [unfold ordered in Or; lia|done]).
      apply C in Ct as [Ct|(b & Hb & Lb)].
      - exfalso. apply (D _ Ct), DC. left. lia.
      - exists b. split; [done|]. destruct (decide (g <= b.2)); [exfalso|lia].
        apply (gap_not_covered t g K Hg). apply (proj2 (C g)). right. exists b. split; [done|lia]. }
    intros g g' Hg Hg' R R'. destruct (G g Hg R) as (b & Hb & Eb), (G g' Hg' R') as (b' & Hb' & Eb').
    unfold in_range in *. assert (b = b') as <- by (eapply one_end_unique; [done..|lia|lia]). lia. }
  rewrite (assoc_L (++) before [r] rest : before ++ r :: rest = _).
  apply IH; [by apply addRange_ok|done|done| |].
  - intros c Hc Hd. apply (D c Hc), DC. by right.
  - intros c. rewrite addRange_covers by done. rewrite C, DS. tauto.
Qed.

(** The class of one element. *)
Lemma element_class flags el :
  Forall ordered (element_ranges flags el) ->
  class_ok (add flags el createTree)
  /\ forall c, class_covers (add flags el createTree) c <-> denotes (element_ranges flags el) c.
Proof.
  intros O. rewrite add_element.
  destruct (add_ranges_covers el createTree (element_ranges flags el) [] createTree) as [K C];
    [apply empty_ok|done|apply element_one_ends|intros c Hc; by apply empty_covers in Hc| |].
  - intros c. split; [by left|]. intros [?|(r & Hr & _)]; [done|]. by apply not_elem_of_nil in Hr.
  - split; [done|]. intros c. rewrite C. split; [|by right]. intros [Hc|?]; [|done].
    by apply empty_covers in Hc.
Qed.

End Adding.

(** ** The rule *)

Section Rule.

Context {T I : Type} `{PersistentTree T I}.
Variable toUpperCase toLowerCase : Z -> Z.
Variable flags : Flags.

Notation add := (add toUpperCase toLowerCase).
Notation ranges := (element_ranges toUpperCase toLowerCase flags).
Notation check_element := (check_element toUpperCase toLowerCase flags).

(** No range of the element is inverted. *)
Definition regular (el : element) : Prop := Forall ordered (ranges el).

(** Two elements share a code point. *)
Definition meet (e e' : element) : Prop := exists c, denotes (ranges e) c /\ denotes (ranges e') c.

Definition overlapping (elements : list element) : Prop :=
  exists i j ei ej, (i < j)%nat /\ elements !! i = Some ei /\ elements !! j = Some ej /\ meet ei ej.

Lemma overlapping_snoc elements el :
  overlapping (elements ++ [el]) <-> overlapping elements \/ exists e, e ∈ elements /\ meet e el.
Proof.
  split.
  - intros (i & j & ei & ej & L & Ei & Ej & M).
    pose proof (lookup_lt_Some _ _ _ Ej) as Lj. rewrite length_app in Lj. cbn in Lj.
    rewrite lookup_app_l in Ei by lia. destruct (decide (j < length elements)%nat).
    + left. rewrite lookup_app_l in Ej by done. by exists i, j, ei, ej.
    + right. assert (j = length elements) as -> by lia. rewrite list_lookup_middle in Ej by done.
      injection Ej as ->. exists ei. split; [by eapply list_elem_of_lookup_2|done].
  - intros [(i & j & ei & ej & L & Ei & Ej & M)|(e & [i Hi]%list_elem_of_lookup & M)].
    + exists i, j, ei, ej. split; [done|]. split; [by apply lookup_app_l_Some|].
      split; [by apply lookup_app_l_Some|done].
    + exists i, (length elements), e, el. split; [by eapply lookup_lt_Some|].
      split; [by apply lookup_app_l_Some|]. split; [by apply list_lookup_middle|done].
Qed.

(** The state after some elements: a duplicate, or the class of the elements, which
    do not overlap. *)
Definition checked (elements : list element) (st : list element * T) : Prop :=
  (st.1 <> [] /\ overlapping elements)
  \/ (st.1 = [] /\ ~ overlapping elements /\ class_ok st.2
      /\ forall c, class_covers st.2 c <-> exists e, e ∈ elements /\ denotes (ranges e) c).

Lemma set_add_not_nil {A} `{EqDecision A} (x : A) s : set_add x s <> [].
Proof. intros E. apply (not_elem_of_nil x). rewrite <- E. apply elem_of_set_add. by left. Qed.

Lemma set_add_all_not_nil {A} `{EqDecision A} (s xs : list A) : s <> [] -> set_add_all s xs <> [].
Proof.
  destruct s as [|x s]; [done|]. intros _ E. apply (not_elem_of_nil x). rewrite <- E.
  apply elem_of_set_add_all. left. by left.
Qed.

Lemma check_element_checked elements st el :
  checked elements st -> regular el -> checked (elements ++ [el]) (check_element st el).
Proof.
  destruct st as [duplicates cls]. intros [[N O]|(E & O & K & C)] R; unfold checked; cbn -[set_add] in *.
  - left. split; [|apply overlapping_snoc; by left]. case_match; [done|]. apply set_add_not_nil.
  - subst duplicates. destruct (element_class toUpperCase toLowerCase flags el R) as [Ke Ce].
    pose proof (findIntersections_spec _ _ Ke K) as F.
    assert ((exists c, class_covers (add flags el createTree) c /\ class_covers cls c)
            <-> exists e, e ∈ elements /\ meet e el) as M.
    { unfold meet. setoid_rewrite Ce. setoid_rewrite C. naive_solver. }
    rewrite M in F. destruct (findIntersections (add flags el createTree) cls) as [|x xs].
    + right. assert (~ exists e, e ∈ elements /\ meet e el) as NM by (intros G; by apply F).
      split; [done|]. split; [rewrite overlapping_snoc; tauto|]. rewrite add_element.
      destruct (add_ranges_covers toUpperCase toLowerCase el cls (ranges el) [] cls) as [K' C']; try done.
      * apply element_one_ends.
      * intros c Hc Hd. apply NM. apply C in Hc as (e & He & Hc). exists e. split; [done|]. by exists c.
      * intros c. split; [by left|]. intros [?|(r & Hr & _)]; [done|]. by apply not_elem_of_nil in Hr.
      * split; [done|]. intros c. rewrite C', C. cbn. setoid_rewrite elem_of_app.
        setoid_rewrite list_elem_of_singleton. naive_solver.
    + left. split; [apply set_add_not_nil|]. apply overlapping_snoc. right. by apply F.
Qed.

Lemma check_elements_checked rest : forall elements st,
  checked elements st -> Forall regular rest -> checked (elements ++ rest) (fold_left check_element rest st).
Proof.
  induction rest as [|el rest IH]; intros elements st Ck R; cbn [fold_left]; [by rewrite app_nil_r|].
  apply Forall_cons in R as [R1 R]. rewrite (assoc_L (++) elements [el] rest : elements ++ el :: rest = _).
  apply IH; [by apply check_element_checked|done].
Qed.

Lemma checked_nil : checked [] ([], createTree).
Proof.
  right. split; [done|]. split; [by intros (i & j & ei & ej & _ & ? & _)|]. split; [apply empty_ok|].
  intros c. split; [intros Hc; by apply empty_covers in Hc|]. by intros (e & He%not_elem_of_nil & _).
Qed.

End Rule.

(** ** Sorted lists as trees *)

Definition iterator : Type := entries_of * nat.

Definition current (i : iterator) : option (Z * option element) := i.1 !! i.2.

(** The place of the first entry with a property, and of the last one. *)
Fixpoint first_place (P : Z -> bool) (l : entries_of) : nat :=
  match l with
  | [] => 0
  | (k, _) :: rest => if P k then 0 else S (first_place P rest)
  end.

Fixpoint last_place (P : Z -> bool) (l : entries_of) : option nat :=
  match l with
  | [] => None
  | (k, _) :: rest =>
      match last_place P rest with
      | Some n => Some (S n)
      | None => if P k then Some 0%nat else None
      end
  end.

Lemma first_place_head P l : l !! first_place P l = head (entries_where P l).
Proof.
  induction l as [|[k v] l IH]; [done|]. cbn. unfold entries_where in *. cbn. by destruct (P k).
Qed.

Lemma last_place_last P l : l !! default (length l) (last_place P l) = last (entries_where P l).
Proof.
  assert (forall l, match last_place P l with
          | Some n => l !! n = last (entries_where P l) /\ is_Some (l !! n)
          | None => entries_where P l = [] end) as S.
  { clear l. induction l as [|[k v] l IH]; [done|]. unfold entries_where in *. cbn.
    destruct (last_place P l) as [n|].
    - destruct IH as [E [x Hx]]. rewrite Hx in E.
      assert (((k, v) :: l) !! S n = Some x) as -> by done. split; [|by exists x].
      destruct (P k); [|done]. by rewrite last_cons, <- E.
    - rewrite IH. by destruct (P k). }
  specialize (S l). destruct (last_place P l) as [n|]; cbn; [apply S|].
  rewrite S. cbn. by apply lookup_ge_None.
Qed.

#[export] Instance sorted_lists : PersistentTree entries_of iterator.
Proof.
  refine {| createTree := [];
    insert := fun t k v => insert_entry k v t;
    begin := fun t => (t, 0%nat);
    le := fun t k => (t, default (length t) (last_place (fun k' => Z.leb k' k) t));
    gt := fun t k => (t, first_place (fun k' => Z.ltb k k') t);
    find := fun t k => (t, first_place (fun k' => Z.eqb k' k) t);
    forEach := fun t lo hi => List.filter (fun k => Z.leb lo k && Z.ltb k hi) t.*1;
    size := length;
    key := fun i => fst <$> current i;
    value := fun i => current i ≫= snd;
    hasNext := fun i => Nat.ltb (S i.2) (length i.1);
    next := fun i => (i.1, S i.2);
    update := fun i v => match current i with Some (k, _) => <[i.2 := (k, v)]> i.1 | None => i.1 end;
    entries := fun t => t; tree_of := fst; index := snd |}; try done.
  - intros t k. apply last_place_last.
  - intros t k. apply first_place_head.
  - intros t k. apply first_place_head.
  - intros [l n] v k v' E. cbn in *. unfold current. cbn. by rewrite E.
Defined.

(** ** Specification: the characters of an element in JavaScript *)

Section Membership.

(** What the escapes stand for in ECMAScript: [CharacterClassEscape], with
    [WhiteSpace] and [LineTerminator]. *)
Definition js_digit (c : Z) : bool := (48 <=? c) && (c <=? 57).

Definition js_word (c : Z) : bool :=
  js_digit c || ((65 <=? c) && (c <=? 90)) || ((97 <=? c) && (c <=? 122)) || (c =? 95).

Definition js_space (c : Z) : bool :=
  ((9 <=? c) && (c <=? 13)) || (c =? 0x20) || (c =? 0xa0) || (c =? 0x1680)
  || ((0x2000 <=? c) && (c <=? 0x200a)) || (c =? 0x2028) || (c =? 0x2029) || (c =? 0x202f)
  || (c =? 0x205f) || (c =? 0x3000) || (c =? 0xfeff).

Definition escape_has (kind : set_kind) (c : Z) : bool :=
  match kind with digit => js_digit c | space => js_space c | word => js_word c | property => false end.

Definition matches (e : element) (c : Z) : Prop :=
  0 <= c <= MAX_CODE_POINT /\
  match el_shape e with
  | Character v => c = v
  | CharacterClassRange min max => min <= c <= max
  | CharacterSet kind negate => escape_has kind c = negb negate
  | OtherElement => False
  end.

(** The mapping of JavaScript on ASCII. *)
Definition ascii_upper (c : Z) : Z := if Z.leb 97 c && Z.leb c 122 then c - 32 else c.
Definition ascii_lower (c : Z) : Z := if Z.leb 65 c && Z.leb c 90 then c + 32 else c.

(** [Canonicalize]: with the flag [i], letters are compared in upper case. *)
Definition canonical (flags : Flags) (c : Z) : Z := if ignoreCase flags then ascii_upper c else c.

(** A character of a text can match both elements. *)
Definition share (flags : Flags) (e e' : element) : Prop :=
  exists c c', matches e c /\ matches e' c' /\ canonical flags c = canonical flags c'.

Definition duplicated (flags : Flags) (elements : list element) : Prop :=
  exists i j ei ej, (i < j)%nat /\ elements !! i = Some ei /\ elements !! j = Some ej /\ share flags ei ej.

(** Characters and ranges, [\d] and [\w], and their negations without the flag [u]. *)
Definition exact (flags : Flags) (e : element) : Prop :=
  match el_shape e with
  | Character v => 0 <= v <= MAX_CODE_POINT
  | CharacterClassRange min max => 0 <= min <= max /\ max <= MAX_CODE_POINT
  | CharacterSet (digit | word) negate => negate = true -> unicode flags = false
  | _ => False
  end.

(** The ends of a range are letters of the same case, or it has no letter. *)
Definition one_case (min max : Z) : Prop :=
  65 <= min /\ max <= 90 \/ 97 <= min /\ max <= 122 \/ max < 65 \/ 90 < min /\ max < 97 \/ 122 < min.

(** ASCII characters and ranges, [\d], [\w], [\s] and their negations. *)
Definition ascii (flags : Flags) (e : element) : Prop :=
  match el_shape e with
  | Character v => 0 <= v < 128
  | CharacterClassRange min max =>
      0 <= min <= max /\ max < 128 /\ (ignoreCase flags = true -> one_case min max)
  | CharacterSet (digit | space | word) _ => True
  | _ => False
  end.

(** The classes that the tables of the rule are right for. *)
Definition supported (flags : Flags) (elements : list element) : Prop :=
  ignoreCase flags = false /\ Forall (exact flags) elements \/ Forall (ascii flags) elements.

End Membership.

Section Tables.

Variable toUpperCase toLowerCase : Z -> Z.
Hypothesis upper : forall c, 0 <= c < 128 -> toUpperCase c = ascii_upper c.
Hypothesis lower : forall c, 0 <= c < 128 -> toLowerCase c = ascii_lower c.
Variable flags : Flags.

Notation ranges := (element_ranges toUpperCase toLowerCase flags).
Notation regular := (regular toUpperCase toLowerCase flags).
Notation meet := (meet toUpperCase toLowerCase flags).

Definition within (c : Z) (r : Z * Z) : bool := (r.1 <=? c) && (c <=? r.2).

Lemma denotes_within l c : denotes l c <-> existsb (within c) l = true.
Proof.
  unfold denotes. rewrite existsb_exists. setoid_rewrite list_elem_of_In. unfold within.
  setoid_rewrite andb_true_iff. by setoid_rewrite Z.leb_le.
Qed.

Ltac ordered_ranges :=
  repeat first [apply Forall_nil_2 | apply Forall_cons_2; [unfold ordered, MAX_CODE_POINT in *; cbn; lia |]].

Lemma exact_ranges e : ignoreCase flags = false -> exact flags e ->
  regular e /\ forall c, denotes (ranges e) c <-> matches e c.
Proof.
  intros I. unfold exact, RegexClasses.regular, element_ranges, matches, case_ranges. rewrite I. cbn [andb].
  destruct (el_shape e) as [v|min max|kind negate|]; intros X; [.. | done].
  - split; [ordered_ranges |]. intros c. rewrite denotes_within. cbn. unfold within. cbn. lia.
  - split; [ordered_ranges |]. intros c. rewrite denotes_within. cbn. unfold within. cbn. lia.
  - destruct kind, negate; try done; cbn [set_ranges]; rewrite ?X by done;
      (split; [ordered_ranges |]);
      intros c; rewrite denotes_within; cbn; unfold within, js_word, js_digit, MAX_CODE_POINT; cbn; lia.
Qed.

(** The ranges of an escape on ASCII. *)
Lemma escape_ascii kind negate c : kind <> property -> 0 <= c < 128 ->
  Forall ordered (set_ranges flags kind negate)
  /\ (denotes (set_ranges flags kind negate) c <-> escape_has kind c = negb negate).
Proof.
  intros K B. rewrite denotes_within. unfold set_ranges.
  destruct kind, negate, (unicode flags); try done;
    (split; [cbn [app]; ordered_ranges |]); unfold MAX_CODE_POINT;
    cbn; unfold within, js_word, js_digit, js_space; cbn; lia.
Qed.

(** Escapes do not distinguish cases. *)
Lemma escape_upper kind c : escape_has kind (ascii_upper c) = escape_has kind c.
Proof.
  destruct kind; [| | | done]; cbn; unfold js_word, js_digit, js_space, ascii_upper;
    destruct ((97 <=? c) && (c <=? 122)) eqn:E; lia.
Qed.

(** Mapped to upper case, and back to lower case, a range of letters of one case
    is a range. *)
Lemma cased_ranges min max : 0 <= min <= max -> max < 128 -> one_case min max ->
  let l := if negb (ascii_lower (ascii_upper min) =? ascii_upper min)
              && negb (ascii_lower (ascii_upper max) =? ascii_upper max)
           then [(ascii_upper min, ascii_upper max);
                 (ascii_lower (ascii_upper min), ascii_lower (ascii_upper max))]
           else [(min, max)] in
  Forall ordered l
  /\ forall c, denotes l c <-> exists c', min <= c' <= max /\ ascii_upper c' = ascii_upper c.
Proof.
  intros B B' O. cbn zeta.
  assert (exists a b, 0 <= a <= b /\ b < 128 /\
    (ascii_upper min, ascii_upper max) = (a, b) /\
    (65 <= a /\ b <= 90 /\ (min = a /\ max = b \/ min = a + 32 /\ max = b + 32)
     \/ min = a /\ max = b /\ (b < 65 \/ 90 < a /\ b < 97 \/ 122 < a))) as (a & b & Ba & Bb & E & C).
  { unfold one_case, ascii_upper in *. do 2 eexists. split; [| split; [| split; [reflexivity |]]];
      destruct ((97 <=? min) && (min <=? 122)) eqn:?, ((97 <=? max) && (max <=? 122)) eqn:?; lia. }
  injection E as -> ->. destruct C as [(La & Lb & C)|(-> & -> & C)].
  - assert (ascii_lower a = a + 32 /\ ascii_lower b = b + 32) as [-> ->].
    { unfold ascii_lower. destruct ((65 <=? a) && _) eqn:?, ((65 <=? b) && _) eqn:?; lia. }
    assert (negb (a + 32 =? a) && negb (b + 32 =? b) = true) as -> by lia. split; [ordered_ranges |].
    intros c. rewrite denotes_within. cbn. unfold within, ascii_upper. cbn. split.
    + intros H. destruct C as [[-> ->]|[-> ->]];
        [exists (if c <=? 90 then c else c - 32) | exists (if c <=? 90 then c + 32 else c)];
        destruct (c <=? 90) eqn:?; repeat case_match; lia.
    + intros (c' & H & U). repeat case_match; lia.
  - assert (ascii_lower a = a /\ ascii_lower b = b) as [-> ->].
    { unfold ascii_lower. destruct ((65 <=? a) && _) eqn:?, ((65 <=? b) && _) eqn:?; lia. }
    rewrite Z.eqb_refl. cbn [negb andb]. split; [ordered_ranges |].
    intros c. rewrite denotes_within. cbn. unfold within, ascii_upper. cbn. split.
    + intros H. exists c. split; [lia | done].
    + intros (c' & H & U). repeat case_match; lia.
Qed.

(** The ranges of a character or a range of characters on ASCII. *)
Lemma case_ascii min max : 0 <= min <= max -> max < 128 -> (ignoreCase flags = true -> one_case min max) ->
  Forall ordered (case_ranges toUpperCase toLowerCase flags min max)
  /\ forall c, denotes (case_ranges toUpperCase toLowerCase flags min max) c
       <-> exists c', min <= c' <= max /\ canonical flags c' = canonical flags c.
Proof.
  intros B M O. unfold case_ranges, canonical.
  assert (0 <= ascii_upper min < 128) as Um by (unfold ascii_upper; destruct (_ && _) eqn:?; lia).
  assert (0 <= ascii_upper max < 128) as UM by (unfold ascii_upper; destruct (_ && _) eqn:?; lia).
  rewrite !upper, !lower by first [lia | done].
  assert (isAscii min && isAscii max = true) as -> by (unfold isAscii; lia).
  destruct (ignoreCase flags); cbn [andb orb]; rewrite ?andb_true_r.
  - by apply cased_ranges; [lia | lia | apply O].
  - split; [ordered_ranges |]. intros c. rewrite denotes_within. cbn. unfold within. cbn.
    split; [intros H; exists c; lia | intros (c' & H & ->); lia].
Qed.

Lemma canonical_ascii c c' : canonical flags c = canonical flags c' -> 0 <= c < 128 -> 0 <= c' < 128.
Proof.
  unfold canonical, ascii_upper. destruct (ignoreCase flags); [| lia]. repeat case_match; lia.
Qed.

Lemma ascii_ranges e : ascii flags e ->
  regular e /\ forall c, 0 <= c < 128 ->
    denotes (ranges e) c <-> exists c', matches e c' /\ canonical flags c' = canonical flags c.
Proof.
  unfold ascii, RegexClasses.regular, element_ranges, matches.
  destruct (el_shape e) as [v|min max|kind negate|]; intros X; [.. | done].
  - destruct (case_ascii v v) as [R D]; [lia | lia | unfold one_case; lia |]. split; [done |].
    intros c B. rewrite D. unfold MAX_CODE_POINT. split; intros (c' & H & E); exists c'; (split; [lia | done]).
  - destruct (case_ascii min max) as [R D]; [lia | lia | apply X |]. split; [done |].
    intros c B. rewrite D. unfold MAX_CODE_POINT. split; intros (c' & H & E); exists c'; (split; [lia | done]).
  - assert (kind <> property) as K by (by intros ->). split; [by apply (escape_ascii kind negate 0) |].
    intros c B. destruct (escape_ascii kind negate c K B) as [_ ->]. unfold MAX_CODE_POINT. split.
    + intros H. exists c. repeat split; [lia | lia | done].
    + intros (c' & [_ H] & E). rewrite <- H. unfold canonical in E.
      destruct (ignoreCase flags); [by rewrite <- (escape_upper kind c), <- E, escape_upper | by rewrite E].
Qed.

Definition is_set (e : element) : bool := match el_shape e with CharacterSet _ _ => true | _ => false end.

Lemma ascii_bounded e c : ascii flags e -> is_set e = false -> denotes (ranges e) c -> 0 <= c < 128.
Proof.
  unfold ascii, is_set, element_ranges. destruct (el_shape e) as [v|min max| |]; intros X; [| | done | done]; intros _ D.
  - destruct (case_ascii v v) as [_ R]; [lia | lia | unfold one_case; lia |].
    apply R in D as (c' & H & E). eapply canonical_ascii; [exact E | lia].
  - destruct (case_ascii min max) as [_ R]; [lia | lia | apply X |].
    apply R in D as (c' & H & E). eapply canonical_ascii; [exact E | lia].
Qed.

Lemma ascii_matches e c : ascii flags e -> is_set e = false -> matches e c -> 0 <= c < 128.
Proof. unfold ascii, is_set, matches. destruct (el_shape e); try done; lia. Qed.

(** The digit 0, the letter a, the space and the exclamation mark tell the escapes
    apart. *)
Definition samples : list Z := [48; 97; 32; 33].

Lemma sets_meet kind negate kind' negate' c : kind <> property -> kind' <> property ->
  denotes (set_ranges flags kind negate) c -> denotes (set_ranges flags kind' negate') c ->
  exists t, t ∈ samples /\ denotes (set_ranges flags kind negate) t /\ denotes (set_ranges flags kind' negate') t.
Proof.
  intros K K'. setoid_rewrite denotes_within. unfold set_ranges.
  destruct kind, negate, kind', negate', (unicode flags); try done; cbn [app existsb]; unfold within; cbn [fst snd].
  all: intros H H'; first
    [ exfalso; unfold MAX_CODE_POINT in *; lia
    | exists 48; split; [by left | by split] | exists 97; split; [by right; left | by split]
    | exists 32; split; [by do 2 right; left | by split] | exists 33; split; [by do 3 right; left | by split] ].
Qed.

Lemma sets_share kind negate kind' negate' c : kind <> property -> kind' <> property ->
  escape_has kind c = negb negate -> escape_has kind' c = negb negate' ->
  exists t, t ∈ samples /\ escape_has kind t = negb negate /\ escape_has kind' t = negb negate'.
Proof.
  intros K K'. destruct kind, negate, kind', negate'; try done; cbn [escape_has negb].
  all: intros H H'; first
    [ exfalso; unfold js_word, js_digit, js_space in *; lia
    | exists 48; split; [by left | by split] | exists 97; split; [by right; left | by split]
    | exists 32; split; [by do 2 right; left | by split] | exists 33; split; [by do 3 right; left | by split] ].
Qed.

Lemma samples_ascii t : t ∈ samples -> 0 <= t < 128.
Proof. unfold samples. rewrite !elem_of_cons, elem_of_nil. lia. Qed.

(** ASCII elements that have a code point in common have one in ASCII. *)
Lemma ascii_meet e e' : ascii flags e -> ascii flags e' -> meet e e' ->
  exists c, 0 <= c < 128 /\ denotes (ranges e) c /\ denotes (ranges e') c.
Proof.
  intros A A' (c & D & D'). destruct (is_set e) eqn:S; [destruct (is_set e') eqn:S' |].
  - revert A A' S S' D D'. unfold ascii, is_set, element_ranges.
    destruct (el_shape e) as [| |k n|]; try done. destruct (el_shape e') as [| |k' n'|]; try done.
    intros K K' _ _ D D'. destruct (sets_meet k n k' n' c) as (t & T & H); [by intros -> .. | done | done |].
    exists t. split; [by apply samples_ascii | done].
  - exists c. split; [by apply (ascii_bounded e') | done].
  - exists c. split; [by apply (ascii_bounded e) | done].
Qed.

Lemma ascii_share e e' : ascii flags e -> ascii flags e' -> share flags e e' ->
  exists c c', 0 <= c < 128 /\ 0 <= c' < 128 /\ matches e c /\ matches e' c' /\ canonical flags c = canonical flags c'.
Proof.
  intros A A' (c & c' & M & M' & E). destruct (is_set e) eqn:S; [destruct (is_set e') eqn:S' |].
  - destruct M as [_ M], M' as [_ M']. revert A A' S S' M M'. unfold ascii, is_set, matches.
    destruct (el_shape e) as [| |k n|]; try done. destruct (el_shape e') as [| |k' n'|]; try done.
    intros K K' _ _ M M'.
    assert (escape_has k' c = negb n') as M2.
    { rewrite <- M'. unfold canonical in E. destruct (ignoreCase flags); [| by rewrite E].
      by rewrite <- (escape_upper k' c), E, escape_upper. }
    destruct (sets_share k n k' n' c) as (t & T & H & H'); [by intros -> .. | done | done |].
    apply samples_ascii in T. exists t, t. unfold MAX_CODE_POINT. repeat split; done || lia.
  - pose proof (ascii_matches e' c' A' S' M'). exists c, c'.
    split; [by eapply canonical_ascii; [symmetry |] | done].
  - pose proof (ascii_matches e c A S M). exists c, c'. split; [done |].
    split; [by eapply canonical_ascii | done].
Qed.

Lemma meet_share e e' :
  ignoreCase flags = false /\ exact flags e /\ exact flags e' \/ ascii flags e /\ ascii flags e' ->
  meet e e' <-> share flags e e'.
Proof.
  intros [(I & X & X')|[A A']].
  - destruct (exact_ranges e I X) as [_ D], (exact_ranges e' I X') as [_ D'].
    unfold RegexClasses.meet, share, canonical. rewrite I. setoid_rewrite D. setoid_rewrite D'. naive_solver.
  - destruct (ascii_ranges e A) as [_ D], (ascii_ranges e' A') as [_ D']. split.
    + intros (c & B & (c1 & M1 & E1)%D & (c2 & M2 & E2)%D')%ascii_meet; [| done..].
      exists c1, c2. repeat split; [apply M1.. | apply M2 | apply M2 | apply M2 | congruence].
    + intros (c & c' & B & B' & M & M' & E)%ascii_share; [| done..].
      exists c. split; [apply D | apply D']; [done | eauto | done | eauto].
Qed.

Lemma supported_regular elements : supported flags elements -> Forall regular elements.
Proof.
  intros [[I F]|F]; (eapply Forall_impl; [exact F |]); intros e X.
  - by apply exact_ranges.
  - by apply ascii_ranges.
Qed.

Lemma overlapping_duplicated elements : supported flags elements ->
  overlapping toUpperCase toLowerCase flags elements <-> duplicated flags elements.
Proof.
  intros S. unfold overlapping, duplicated.
  assert (forall (i j : nat) ei ej, elements !! i = Some ei -> elements !! j = Some ej -> meet ei ej <-> share flags ei ej) as M.
  { intros i j ei ej Hi%list_elem_of_lookup_2 Hj%list_elem_of_lookup_2. apply meet_share.
    destruct S as [[I F]|F]; rewrite Forall_forall in F; naive_solver. }
  split; intros (i & j & ei & ej & L & Ei & Ej & X); exists i, j, ei, ej; (repeat split; [done..|]);
    by eapply M.
Qed.

End Tables.

(** ** Properties *)


(** The element reported, and the secondary ones, may be no duplicate: in
    [[abb]] the issue is on [a]. The range of an entry goes one code point too far
    when the next entry is in the class. *)
Theorem adjacent_element_reported up low flags :
  ignoreCase flags = false ->
  let a := mkElement 0 (Character 97) in
  let b := mkElement 1 (Character 98) in
  let b' := mkElement 2 (Character 98) in
  onCharacterClassEnter (T := entries_of) up low flags [a; b; b'] = Some (a, [b; b'])
  /\ ~ meet up low flags a b /\ ~ meet up low flags a b'.
Proof.
  destruct flags as [? u]. cbn. intros ->.
  assert (forall e, element_ranges up low (mkFlags false u) (mkElement e (Character 98)) = [(98, 98)]) as E by done.
  assert (~ exists c, denotes [(97, 97)] c /\ denotes [(98, 98)] c) as N.
  { intros (c & (r & ->%list_elem_of_singleton & L) & (r' & ->%list_elem_of_singleton & L')). cbn in *. lia. }
  split; [vm_compute; reflexivity|]. by split.
Qed.

(** The tables of [\s] and [\S] stop at ASCII without the flag [u]: the no-break
    space is taken for a character that is not a space, so that [[\S\u00a0]] is
    reported, and [[\s\u00a0]] is not. *)
Theorem no_break_space_is_no_space up low :
  let flags := mkFlags false false in
  let space := mkElement 0 (CharacterSet space false) in
  let other := mkElement 0 (CharacterSet RegexClasses.space true) in
  let nbsp := mkElement 1 (Character 0xa0) in
  onCharacterClassEnter (T := entries_of) up low flags [other; nbsp] = Some (other, [nbsp])
  /\ ~ share flags other nbsp
  /\ onCharacterClassEnter (T := entries_of) up low flags [space; nbsp] = None
  /\ share flags space nbsp.
Proof.
  cbn zeta. split; [by vm_compute |]. split.
  { intros (c & c' & [_ M] & [_ M'] & E). cbn in *. subst c c'. done. }
  split; [by vm_compute |]. exists 0xa0, 0xa0. repeat split; by vm_compute.
Qed.

(** With the flag [i], a range of letters from upper to lower case is added
    inverted, and then the class has everything from its first bound on: in
    [/[Z-a|]/i] the vertical bar is reported, which no other element matches. *)
Theorem inverted_range_covers_everything :
  let range := mkElement 0 (CharacterClassRange 90 97) in
  let bar := mkElement 1 (Character 124) in
  let flags := mkFlags true false in
  onCharacterClassEnter (T := entries_of) ascii_upper ascii_lower flags [range; bar] = Some (range, [bar])
  /\ element_ranges ascii_upper ascii_lower flags range = [(90, 65); (122, 97)]
  /\ ~ meet ascii_upper ascii_lower flags range bar.
Proof.
  split; [vm_compute; reflexivity|]. split; [reflexivity|].
  intros (c & (r & Hr & L) & _). change (r ∈ [(90, 65); (122, 97)]) in Hr.
  repeat (apply elem_of_cons in Hr as [->|Hr]; [cbn in L; lia|]). by apply not_elem_of_nil in Hr.
Qed.

(** ** Witnesses *)


Lemma adjacent_element_reported_witness :
  let flags := mkFlags false true in
  let a := mkElement 0 (Character 97) in
  onCharacterClassEnter (T := entries_of) ascii_upper ascii_lower flags
    [a; mkElement 1 (Character 98); mkElement 2 (Character 98)]
  = Some (a, [mkElement 1 (Character 98); mkElement 2 (Character 98)]).
Proof. apply (adjacent_element_reported ascii_upper ascii_lower (mkFlags false true)). reflexivity. Defined.
