(* ===== verification/RegexLocations.v ===== *)
(** * RegexLocations: regular expressions in string literals and their locations

    The code of [rules/helpers/regex]: the tokenizer of string literals
    ([tokenizer.ts]), the locations of the nodes of a regular expression in the
    literal ([range.ts], [location.ts]), the patterns and flags of expressions
    ([extract.ts], [flags.ts], [ast.ts], [group.ts]), and the rule S6326. Texts are
    lists of UTF-16 code units, as in JavaScript. The parser of regular expressions
    (regexpp) is not modelled: its nodes are their positions and raw texts. *)

From Stdlib Require Import ZArith Lia Ascii.
From stdpp Require Import base list strings.
From S2P Require Import Prelude JsString Estree Ast.

Open Scope js_scope.
Open Scope Z_scope.

(** ** Code units *)

Definition is_high (c : Z) : bool := Z.leb 0xd800 c && Z.leb c 0xdbff.
Definition is_low (c : Z) : bool := Z.leb 0xdc00 c && Z.leb c 0xdfff.

(** [s.codePointAt(i)] *)
Definition cp (s : list Z) (i : nat) : option Z :=
  match s !! i with
  | Some h =>
      match s !! S i with
      | Some l => if is_high h && is_low l then Some ((h - 0xd800) * 0x400 + (l - 0xdc00) + 0x10000)
                  else Some h
      | None => Some h
      end
  | None => None
  end.

Inductive token_error := RangeError | TokenOutOfFuel.

(** [String.fromCodePoint(c)], [c] being a number, or [undefined] or [NaN]. *)
Definition fromCodePoint (c : option Z) : result token_error (list Z) :=
  match c with
  | Some c =>
      if Z.leb 0 c && Z.leb c 0x10ffff
      then if Z.leb c 0xffff then Ok [c]
           else Ok [0xd800 + (c - 0x10000) / 0x400; 0xdc00 + (c - 0x10000) mod 0x400]
      else Throw RangeError
  | None => Throw RangeError
  end.

(** [s.substring(a, b)] *)
Definition substring (s : list Z) (a b : nat) : list Z :=
  take (Nat.max a b - Nat.min a b) (drop (Nat.min a b) s).

(** [s.indexOf(c, from)] *)
Fixpoint indexOf_from (n : nat) (c : Z) (s : list Z) : option nat :=
  match s with
  | [] => None
  | x :: r => if Z.eqb x c then Some n else indexOf_from (S n) c r
  end.

Definition indexOf (s : list Z) (c : Z) (from : nat) : option nat := indexOf_from from c (drop from s).

(** The value of a digit in a base up to 16. *)
Definition digit_value (c : Z) : option Z :=
  if Z.leb 48 c && Z.leb c 57 then Some (c - 48)
  else if Z.leb 97 c && Z.leb c 102 then Some (c - 87)
  else if Z.leb 65 c && Z.leb c 70 then Some (c - 55)
  else None.

(** [Number.parseInt(s, radix)] on a text without spaces, sign and prefix: the number
    of its first digits, and [NaN] when there is none. *)
Fixpoint parse_digits (radix : Z) (acc : option Z) (s : list Z) : option Z :=
  match s with
  | [] => acc
  | c :: r =>
      match digit_value c with
      | Some d =>
          if Z.ltb d radix then parse_digits radix (Some (default 0 acc * radix + d)) r else acc
      | None => acc
      end
  end.

Definition parseInt (s : list Z) (radix : Z) : option Z := parse_digits radix None s.

(** ** The tokenizer of string literals *)

Record StringLiteralToken := mkStringToken { tok_value : list Z; tok_range : nat * nat }.

Definition UNICODE_ESCAPE_LENGTH : nat := 4.
Definition HEX_ESCAPE_LENGTH : nat := 2.

Definition inc (pos : nat) (c : option Z) : nat :=
  match c with
  | Some c => if Z.leb 0x10000 c then pos + 2 else pos + 1
  | None => pos + 1
  end%nat.

Definition isOctalDigit (c : option Z) : bool :=
  match c with Some c => Z.leb 48 c && Z.leb c 55 | None => false end.

(** The code point after the braces or of four digits, and the position after it. *)
Definition readUnicode (s : list Z) (pos : nat) : option Z * nat :=
  match s !! pos with
  | Some 123 =>
      let pos := S pos in
      match indexOf s 125 pos with
      | Some close => (parseInt (substring s pos close) 16, S close)
      | None => (parseInt (substring s pos 0) 16, 0%nat)
      end
  | _ =>
      (parseInt (substring s pos (pos + UNICODE_ESCAPE_LENGTH)) 16, (pos + UNICODE_ESCAPE_LENGTH)%nat)
  end.

Definition readHex (s : list Z) (pos : nat) : option Z * nat :=
  (parseInt (substring s pos (pos + HEX_ESCAPE_LENGTH)) 16, (pos + HEX_ESCAPE_LENGTH)%nat).

(** The octal digits from [i] on, at most [n]. *)
Fixpoint octal_digits (n : nat) (s : list Z) (i : nat) : list Z :=
  match n with
  | O => []
  | S n' =>
      match s !! i with
      | Some c => if isOctalDigit (cp s i) then c :: octal_digits n' s (S i) else []
      | None => []
      end
  end.

Definition readOctal (s : list Z) (pos : nat) (firstDigit : Z) : result token_error (list Z * nat) :=
  let digits := octal_digits 2 s pos in
  let! value := fromCodePoint (parseInt (firstDigit :: digits) 8) in
  Ok (value, (pos + length digits)%nat).

(** The value of an escape whose backslash is before [pos], and the position after. *)
Definition readEscape (s : list Z) (pos : nat) : result token_error (list Z * nat) :=
  let c := cp s pos in
  let pos := inc pos c in
  match c with
  | Some 110 => Ok ([10], pos)
  | Some 114 => Ok ([13], pos)
  | Some 116 => Ok ([9], pos)
  | Some 98 => Ok ([8], pos)
  | Some 118 => Ok ([11], pos)
  | Some 102 => Ok ([12], pos)
  | Some 92 => Ok ([92], pos)
  | Some 13 => Ok ([], if bool_decide (cp s pos = Some 10) then S pos else pos)
  | Some 10 => Ok ([], pos)
  | Some 117 =>
      let (u, pos) := readUnicode s pos in
      let! value := fromCodePoint u in Ok (value, pos)
  | Some 120 =>
      let (x, pos) := readHex s pos in
      let! value := fromCodePoint x in Ok (value, pos)
  | _ =>
      if isOctalDigit c then readOctal s pos (default 0 c)
      else let! value := fromCodePoint c in Ok (value, pos)
  end.

Fixpoint tokenize_loop (fuel : nat) (s : list Z) (pos : nat) (tokens : list StringLiteralToken)
  : result token_error (list StringLiteralToken) :=
  if Nat.ltb pos (length s) then
    match fuel with
    | O => Throw TokenOutOfFuel
    | S fuel' =>
        let start := pos in
        let c := cp s pos in
        let pos := inc pos c in
        match c with
        | Some 92 =>
            let! (value, pos) := readEscape s pos in
            tokenize_loop fuel' s pos
              (match value with [] => tokens | _ => tokens ++ [mkStringToken value (start, pos)] end)
        | Some 47 =>
            let forwardSlash := mkStringToken [47] (start, pos) in
            tokenize_loop fuel' s pos (tokens ++ [forwardSlash; forwardSlash])
        | _ =>
            let! value := fromCodePoint c in
            tokenize_loop fuel' s pos (tokens ++ [mkStringToken value (start, pos)])
        end
    end
  else Ok tokens.

Definition tokenizeString (s : list Z) : result token_error (list StringLiteralToken) :=
  tokenize_loop (length s) s 0 [].

(** ** Ranges and locations *)

(** A node of a regular expression: its positions in the literal that regexpp makes
    of the expression, which start after its slash. *)
Record RegexNode := mkRegexNode { re_start : nat; re_end : nat; re_raw : string }.

Inductive range_error :=
| TokenError (e : token_error)
| InvalidUnquote
| UnexpectedNode
(** a property of [undefined] *)
| TypeError.

Definition tokens_of_literal (s : list Z) : result range_error (list StringLiteralToken) :=
  match tokenizeString s with Ok t => Ok t | Throw e => Throw (TokenError e) end.

(** [unquote] *)
Definition unquote (s : list Z) : result range_error (list Z) :=
  match s with
  | c :: _ => if Z.eqb c 39 || Z.eqb c 34 then Ok (substring s 1 (length s - 1)) else Throw InvalidUnquote
  | [] => Throw InvalidUnquote
  end.

Definition nodeRange (n : node) : result range_error (Z * Z) :=
  match h_range (hdr n) with
  | Some (a, b) => Ok (0, b - a)
  | None => Throw TypeError
  end.

Definition getRegexpRange (n : node) (regexpNode : RegexNode) : result range_error (Z * Z) :=
  if isRegexLiteral n then Ok (Z.of_nat (re_start regexpNode), Z.of_nat (re_end regexpNode))
  else if isStringLiteral n then
    if match get n "value" with VStr v => v =s "" | _ => false end then Ok (0, 2)
    else
      let! s := match get n "raw" with VStr raw => unquote (code_units raw) | _ => Throw TypeError end in
      let! tokens := tokens_of_literal s in
      let startToken := re_start regexpNode in
      if Nat.eqb (re_start regexpNode) (re_end regexpNode) then
        (* [tokens\[start - 1\]] or [last(tokens)] *)
        if Z.ltb (Z.of_nat startToken - 1) (Z.of_nat (length tokens)) then
          match startToken with
          | O => Throw TypeError
          | S k =>
              match tokens !! k with
              | Some t => Ok (Z.of_nat (tok_range t).1 + 1, Z.of_nat (tok_range t).1 + 1)
              | None => Throw TypeError
              end
          end
        else
          match last tokens with
          | Some t => Ok (Z.of_nat (tok_range t).2 + 1, Z.of_nat (tok_range t).2 + 1)
          | None => Throw TypeError
          end
      else
        match startToken with
        | O => nodeRange n
        | S k =>
            match tokens !! k with
            | None => nodeRange n
            | Some first =>
                let endToken := Z.min (Z.of_nat (re_end regexpNode) - 2) (Z.of_nat (length tokens) - 1) in
                match (if Z.leb 0 endToken then tokens !! Z.to_nat endToken else None) with
                | None => nodeRange n
                | Some final => Ok (Z.of_nat (tok_range first).1 + 1, Z.of_nat (tok_range final).2 + 1)
                end
            end
        end
  else if type_of n =s "TemplateLiteral" then nodeRange n
  else Throw UnexpectedNode.

(** The location, [null] when it is empty; [offset] moves its ends. *)
Definition getRegexpLocation (getLocFromIndex : Z -> Position) (n : node) (regexpNode : RegexNode)
    (offset : Z * Z) : result range_error (option SourceLocation) :=
  if isRegexLiteral n || isStringLiteral n then
    match h_range (hdr n) with
    | Some (start, _) =>
        let! (reStart, reEnd) := getRegexpRange n regexpNode in
        let locationStart := start + reStart + offset.1 in
        let locationEnd := start + reEnd + offset.2 in
        if Z.eqb locationStart locationEnd then Ok None
        else Ok (Some (mkLoc (getLocFromIndex locationStart) (getLocFromIndex locationEnd)))
    | None => Throw TypeError
    end
  else Ok (h_loc (hdr n)).

(** ** Patterns and flags of expressions *)

(** [globalThis.RegExp] with arguments *)
Definition isRegExpWithGlobalThis (n : node) : bool :=
  (type_of n =s "NewExpression")
  && match get_node n "callee" with
     | Some callee =>
         (type_of callee =s "MemberExpression")
         && isIdentifier (get_node callee "object") ["globalThis"]
         && isIdentifier (get_node callee "property") ["RegExp"]
     | None => false
     end
  && Nat.ltb 0 (length (get_array n "arguments")).

Definition isRegExpConstructor (n : node) : bool :=
  ((type_of n =s "CallExpression") || (type_of n =s "NewExpression"))
  && match get_node n "callee" with
     | Some callee => (type_of callee =s "Identifier")
                      && match get callee "name" with VStr name => name =s "RegExp" | _ => false end
     | None => false
     end
  && Nat.ltb 0 (length (get_array n "arguments"))
  || isRegExpWithGlobalThis n.

(** A call of one of the methods on an object that is a string, for a checker
    [isString] of types. *)
Definition string_method_call (isString : node -> bool) (methods : list string) (arity : nat) (call : node)
  : bool :=
  match get_node call "callee" with
  | Some callee =>
      (type_of callee =s "MemberExpression")
      && match get_node callee "property" with
         | Some p => (type_of p =s "Identifier") && negb (truthy (get callee "computed"))
                     && match get p "name" with VStr name => includes name methods | _ => false end
         | None => false
         end
      && Nat.ltb arity (length (get_array call "arguments"))
      && match get_node callee "object" with Some o => isString o | None => false end
  | None => false
  end.

Definition isStringReplaceCall (isString : node -> bool) (call : node) : bool :=
  string_method_call isString ["replace"; "replaceAll"] 1 call.

Definition isStringRegexMethodCall (isString : node -> bool) (call : node) : bool :=
  string_method_call isString ["match"; "matchAll"; "search"] 0 call
  && match get_nodes call "arguments" with a :: _ => isString a | [] => false end.

Section Patterns.

Context (sm : ScopeManager).
(** [node.parent] *)
Variable parent : node -> option node.

Definition first_quasi_value (n : node) (k : string) : option string :=
  match get_nodes n "quasis" with
  | q :: _ => match quasi_value q k with VStr s => Some s | _ => None end
  | [] => None
  end.

(** The flags of a call, [null] when they are not known. *)
Definition getFlags (callExpr : node) : option string :=
  match get_array callExpr "arguments" with
  | [] | [_] => Some ""
  | _ :: flags :: _ =>
      match as_node flags with
      | Some flags =>
          if isStringLiteral flags then get_str flags "value"
          else
            let written :=
              if type_of flags =s "Identifier" then
                match sm_getScope sm callExpr with
                | Some scope => getUniqueWriteReference sm (getVariableFromIdentifier sm flags scope)
                | None => None
                end
              else None in
            match written with
            | Some ref =>
                if isStringLiteral ref then get_str ref "value" else None
            | None =>
                if isStaticTemplateLiteral flags && bool_decide (is_Some (first_quasi_value flags "cooked"))
                then first_quasi_value flags "cooked"
                else if isSimpleRawString flags
                     then match getSimpleRawStringValue flags with Some (VStr s) => Some s | _ => None end
                     else None
            end
      | None => None
      end
  end.

(** The pattern and flags of an expression, [null] when they are not known; the
    outer [None] is running out of fuel: the recursion follows variables. *)
Fixpoint getPatternFromNode (fuel : nat) (n : node) : option (option (string * string)) :=
  match fuel with
  | O => None
  | S fuel' =>
      if isRegExpConstructor n then
        match get_nodes n "arguments" with
        | a :: _ =>
            match getPatternFromNode fuel' a with
            | Some patternOnly =>
                Some (match patternOnly, getFlags n with
                      | Some (pattern, _), Some flags => Some (pattern, flags)
                      | _, _ => None
                      end)
            | None => None
            end
        | [] => Some None
        end
      else if isRegexLiteral n then
        Some (match get n "value" with VRegExp pattern flags => Some (pattern, flags) | _ => None end)
      else if isStringLiteral n then
        Some (match get n "value" with VStr pattern => Some (pattern, "") | _ => None end)
      else if isStaticTemplateLiteral n then
        Some (match first_quasi_value n "raw" with Some pattern => Some (pattern, "") | None => None end)
      else if isSimpleRawString n then
        Some (match getSimpleRawStringValue n with Some (VStr pattern) => Some (pattern, "") | _ => None end)
      else if type_of n =s "Identifier" then
        match getUniqueWriteUsage sm (node_name n) n with
        | Some assignedExpression =>
            if opt_type_is (parent assignedExpression) "VariableDeclarator"
            then getPatternFromNode fuel' assignedExpression else Some None
        | None => Some None
        end
      else if isBinaryPlus n then
        match get_node n "left", get_node n "right" with
        | Some l, Some r =>
            match getPatternFromNode fuel' l, getPatternFromNode fuel' r with
            | Some (Some (lp, _)), Some (Some (rp, _)) => Some (Some (lp +:+ rp, ""))
            | Some _, Some _ => Some None
            | _, _ => None
            end
        | _, _ => Some None
        end
      else Some None
  end.

End Patterns.

(** ** References to groups *)

Record GroupReference := mkGroupReference { g_raw : string; g_value : string }.

Definition is_digit (c : ascii) : bool := Nat.leb 48 (nat_of_ascii c) && Nat.leb (nat_of_ascii c) 57.
Definition is_letter (c : ascii) : bool :=
  Nat.leb 65 (nat_of_ascii c) && Nat.leb (nat_of_ascii c) 90
  || Nat.leb 97 (nat_of_ascii c) && Nat.leb (nat_of_ascii c) 122.
Definition is_word (c : ascii) : bool := is_digit c || is_letter c || Ascii.eqb c "_".

(** The longest prefix of some characters, and the rest. *)
Fixpoint span_chars (P : ascii -> bool) (s : string) : string * string :=
  match s with
  | String c r => if P c then let (a, b) := span_chars P r in (String c a, b) else ("", s)
  | EmptyString => ("", "")
  end.

(** A match of the expression of [extractReferences] after a dollar, and the rest. *)
Definition match_reference (s : string) : option (GroupReference * string) :=
  match span_chars is_digit s with
  | (String _ _ as index, rest) => Some (mkGroupReference ("$" +:+ index) index, rest)
  | (EmptyString, _) =>
      match s with
      | String "<" (String c r) =>
          if is_letter c then
            match span_chars is_word r with
            | (name, String ">" rest) =>
                Some (mkGroupReference ("$<" +:+ String c name +:+ ">") (String c name), rest)
            | _ => None
            end
          else None
      | _ => None
      end
  end.

Fixpoint references_in (fuel : nat) (s : string) : list GroupReference :=
  match fuel, s with
  | S fuel', String "$" r =>
      match match_reference r with
      | Some (ref, rest) => ref :: references_in fuel' rest
      | None => references_in fuel' r
      end
  | S fuel', String _ r => references_in fuel' r
  | _, _ => []
  end.

Definition extractReferences (n : node) : list GroupReference :=
  if isStringLiteral n then
    match get n "value" with VStr str => references_in (String.length str) str | _ => [] end
  else [].

(** ** Rule S6326: multiple spaces *)

Fixpoint countSpacesBefore (pattern : list Z) (index : nat) : nat :=
  match index with
  | O => 0
  | S i =>
      match i with
      | O => 0
      | S _ =>
          match pattern !! i with
          | Some 32%Z => S (countSpacesBefore pattern i)
          | _ => 0
          end
      end
  end%nat.

Record SpacesReport := mkSpacesReport {
  sp_spaces : nat;
  sp_location : SourceLocation;
  (** the range in the file the suggestion replaces by a space and a quantifier *)
  sp_range : Z * Z }.

(** A character of the expression: what is reported, if anything. *)
Definition onCharacterEnter (getLocFromIndex : Z -> Position) (context_node : node) (rawPattern : list Z)
    (n : RegexNode) (inCharacterClass : bool) : result range_error (option SpacesReport) :=
  if negb (re_raw n =s " ") || inCharacterClass then Ok None
  else if bool_decide (rawPattern !! S (re_start n) = Some 32) then Ok None
  else
    let spacesBefore := countSpacesBefore rawPattern (re_start n) in
    if Nat.eqb spacesBefore 0 then Ok None
    else
      let spacesNumber := S spacesBefore in
      let! (start, end_) := getRegexpRange context_node n in
      let range := (start - Z.of_nat spacesNumber + 1, end_) in
      let! loc := getRegexpLocation getLocFromIndex context_node n (1 - Z.of_nat spacesNumber, 0) in
      Ok (match loc with Some loc => Some (mkSpacesReport spacesNumber loc range) | None => None end).

(** ** Specification: the items of a string literal *)

(** A text starts with a unit of some kind. *)
Definition starts_with (P : Z -> bool) (s : list Z) : bool :=
  match s with c :: _ => P c | [] => false end.

Definition octal (c : Z) : bool := Z.leb 48 c && Z.leb c 55.

(** The characters that start an escape of their own, or that are not escaped to
    themselves: n r t b v f u x, octal digits, backslash and line terminators. *)
Definition special (c : Z) : bool :=
  octal c || bool_decide (c ∈ [110; 114; 116; 98; 118; 102; 117; 120; 92; 10; 13; 0x2028; 0x2029]).

Definition simple_escapes : list (Z * Z) :=
  [(110, 10); (114, 13); (116, 9); (98, 8); (118, 11); (102, 12); (92, 92)].

(** A pair of surrogates that makes a code point, or a unit that is not in a pair
    with what follows it. *)
Definition is_character (raw after : list Z) : Prop :=
  match raw with
  | [c] => 0 <= c <= 0xffff /\ ~ (is_high c = true /\ starts_with is_low after = true)
  | [h; l] => is_high h = true /\ is_low l = true
  | _ => False
  end.

(** The value of hexadecimal or octal digits. *)
Definition digits_value (radix : Z) (l : list Z) : option Z :=
  fold_left (fun acc c => match acc, digit_value c with
                          | Some a, Some d => if Z.ltb d radix then Some (a * radix + d) else None
                          | _, _ => None
                          end) l (Some 0).

(** The code units of a code point. *)
Definition units (c : Z) : list Z :=
  if Z.leb c 0xffff then [c]
  else [0xd800 + (c - 0x10000) / 0x400; 0xdc00 + (c - 0x10000) mod 0x400].

(** The characters of a string literal: a raw text, the text that follows it, and its
    value (sections 12.9.4 and B.1.2 of ECMAScript), but for the ones of [js_item]. *)
Inductive item : list Z -> list Z -> list Z -> Prop :=
| Plain raw after : is_character raw after -> head raw <> Some 92 -> item raw after raw
| SimpleEscape c v after : (c, v) ∈ simple_escapes -> item [92; c] after [v]
| LineFeed after : item [92; 10] after []
| CarriageReturn after : starts_with (Z.eqb 10) after = false -> item [92; 13] after []
| CarriageReturnLineFeed after : item [92; 13; 10] after []
| SelfEscape raw after : is_character raw after -> special (default 0 (head raw)) = false -> item (92 :: raw) after raw
| HexEscape a b v after : digits_value 16 [a; b] = Some v -> item [92; 120; a; b] after [v]
| UnicodeEscape a b c d v after : digits_value 16 [a; b; c; d] = Some v -> item [92; 117; a; b; c; d] after [v]
| CodePointEscape ds v after :
    ds <> [] -> digits_value 16 ds = Some v -> v <= 0x10ffff -> item ([92; 117; 123] ++ ds ++ [125]) after (units v)
| OctalEscape1 a v after :
    digits_value 8 [a] = Some v -> starts_with octal after = false -> item [92; a] after [v]
| OctalEscape2 a b v after :
    digits_value 8 [a; b] = Some v -> starts_with octal after = false -> item [92; a; b] after [v]
| OctalEscape3 a b c v after :
    digits_value 8 [a; b; c] = Some v -> a <= 51 -> item [92; a; b; c] after [v].

(** The body of a literal, as its items with their raw texts and values. *)
Inductive literal : list (list Z * list Z) -> Prop :=
| literal_nil : literal []
| literal_cons raw value items :
    item raw (concat items.*1) value -> literal items -> literal ((raw, value) :: items).

(** All the characters of a string literal: also octal escapes of two digits, the
    first one being 4 to 7, before a digit that is not of the escape, and line
    continuations with the separators U+2028 and U+2029. *)
Inductive js_item : list Z -> list Z -> list Z -> Prop :=
| CommonItem raw after value : item raw after value -> js_item raw after value
| FourToSeven a b d v after :
    52 <= a -> digits_value 8 [a; b] = Some v -> octal d = true -> js_item [92; a; b] (d :: after) [v]
| LineSeparator after : js_item [92; 0x2028] after []
| ParagraphSeparator after : js_item [92; 0x2029] after [].

Definition raw_of (items : list (list Z * list Z)) : list Z := concat items.*1.
Inductive js_literal : list (list Z * list Z) -> Prop :=
| js_literal_nil : js_literal []
| js_literal_cons raw value items :
    js_item raw (raw_of items) value -> js_literal items -> js_literal ((raw, value) :: items).

(** An octal escape above [\377] before one more octal digit, or a continuation with
    a separator. *)
Definition misread (raw after : list Z) : Prop :=
  (exists a b, raw = [92; a; b] /\ 52 <= a <= 55 /\ starts_with octal after = true)
  \/ raw = [92; 0x2028] \/ raw = [92; 0x2029].

Fixpoint misread_in (items : list (list Z * list Z)) : Prop :=
  match items with
  | [] => False
  | (raw, _) :: rest => misread raw (raw_of rest) \/ misread_in rest
  end.

Definition value_of (items : list (list Z * list Z)) : list Z := concat items.*2.

(** The tokens of items from an offset on: none for a continuation, two for a slash,
    which regular expressions escape. *)
Fixpoint tokens_of (offset : nat) (items : list (list Z * list Z)) : list StringLiteralToken :=
  match items with
  | [] => []
  | (raw, value) :: rest =>
      let token := mkStringToken value (offset, (offset + length raw)%nat) in
      (if decide (raw = [47]) then [token; token]
       else match value with [] => [] | _ => [token] end)
      ++ tokens_of (offset + length raw) rest
  end.

(** ** Lemmas: the tokenizer *)

Section Tokenizer.

(** A position after a text that was read. *)
Lemma lookup_at (before rest : list Z) k : (before ++ rest) !! (length before + k)%nat = rest !! k.
Proof. by rewrite lookup_app_r, Nat.add_comm, Nat.add_sub by lia. Qed.

Lemma cp_at (before rest : list Z) : cp (before ++ rest) (length before) = cp rest 0.
Proof.
  unfold cp. rewrite <- (Nat.add_0_r (length before)) at 1. rewrite lookup_at.
  rewrite <- Nat.add_1_r, lookup_at. done.
Qed.

Lemma high_low h l :
  is_high h = true -> is_low l = true ->
  let c := (h - 0xd800) * 0x400 + (l - 0xdc00) + 0x10000 in
  0x10000 <= c <= 0x10ffff /\ 0xd800 + (c - 0x10000) / 0x400 = h /\ 0xdc00 + (c - 0x10000) mod 0x400 = l.
Proof.
  cbn zeta. unfold is_high, is_low. intros H L. split_bools.
  replace ((h - 55296) * 1024 + (l - 56320) + 65536 - 65536) with ((l - 56320) + (h - 55296) * 1024) by lia.
  rewrite Z_div_plus, Z_mod_plus by lia. rewrite Z.div_small, Z.mod_small by lia. lia.
Qed.

(** A character is read as one code point, which is written back the same. *)
Lemma cp_character raw after :
  is_character raw after ->
  exists c, cp (raw ++ after) 0 = Some c /\ fromCodePoint (Some c) = Ok raw /\ inc 0 (Some c) = length raw
    /\ (forall x, raw = [x] -> c = x) /\ (0xffff < c -> exists h l, raw = [h; l]) /\ 0 <= c.
Proof.
  destruct raw as [|c [|l [|]]]; cbn [is_character]; try done.
  - intros [[L1 L2] N]. exists c. assert (cp ([c] ++ after) 0 = Some c) as ->.
    { unfold cp. cbn. destruct after as [|l after]; cbn; [done|]. cbn in N.
      destruct (is_high c), (is_low l); cbn; tauto. }
    unfold fromCodePoint, inc. rewrite (proj2 (Z.leb_le 0 c)), (proj2 (Z.leb_le c 0x10ffff)) by lia.
    rewrite (proj2 (Z.leb_le c 0xffff)), (proj2 (Z.leb_gt 0x10000 c)) by lia. cbn.
    split; [done|]. split; [done|]. split; [done|]. split; [intros x E; by injection E|]. split; [lia|done].
  - intros [H L]. pose proof (high_low c l H L) as (B & E1 & E2). cbn zeta in *.
    eexists. unfold cp. cbn [app lookup list_lookup]. rewrite H, L. cbn [andb]. split; [done|].
    set (v := (c - 0xd800) * 0x400 + (l - 0xdc00) + 0x10000) in *. unfold fromCodePoint, inc.
    rewrite (proj2 (Z.leb_le 0 v)), (proj2 (Z.leb_le v 0x10ffff)) by lia.
    rewrite (proj2 (Z.leb_gt v 0xffff)), (proj2 (Z.leb_le 0x10000 v)) by lia. cbn [andb].
    rewrite E1, E2. split; [done|]. split; [done|]. split; [done|]. split; [eauto|lia].
Qed.

Lemma digits_parse radix l : forall acc v,
  fold_left (fun acc c => match acc, digit_value c with
                          | Some a, Some d => if Z.ltb d radix then Some (a * radix + d) else None
                          | _, _ => None
                          end) l (Some acc) = Some v ->
  parse_digits radix (Some acc) l = Some v.
Proof.
  assert (forall l, fold_left (fun acc c => match acc, digit_value c with
                          | Some a, Some d => if Z.ltb d radix then Some (a * radix + d) else None
                          | _, _ => None
                          end) l None = None) as N by (intros l'; induction l'; done).
  induction l as [|c l IH]; intros acc v; cbn; [done|].
  destruct (digit_value c) as [d|]; [|by rewrite N]. destruct (Z.ltb d radix); [apply IH|by rewrite N].
Qed.

Lemma parseInt_digits radix l v : l <> [] -> digits_value radix l = Some v -> parseInt l radix = Some v.
Proof.
  destruct l as [|c l]; [done|]. intros _. unfold digits_value, parseInt. cbn.
  destruct (digit_value c) as [d|]; [|intros E; exfalso].
  - destruct (Z.ltb d radix); [apply digits_parse|]. intros E. exfalso.
    clear -E. induction l; [done|]. by apply IHl.
  - clear -E. induction l; [done|]. by apply IHl.
Qed.

Lemma digit_value_bounds c d : digit_value c = Some d -> 0 <= d < 16.
Proof. unfold digit_value. repeat case_match; intros [= <-]; split_bools; lia. Qed.

Lemma digits_value_bounds radix l : forall v,
  0 < radix <= 16 -> digits_value radix l = Some v -> 0 <= v < radix ^ Z.of_nat (length l).
Proof.
  unfold digits_value. induction l as [|c l IH] using rev_ind; intros v R.
  - intros [= <-]. cbn. lia.
  - rewrite fold_left_app. cbn. destruct (fold_left _ l (Some 0)) as [a|]; [|done].
    destruct (digit_value c) as [d|] eqn:Ed; [|done]. apply digit_value_bounds in Ed.
    destruct (Z.ltb_spec d radix); [|done]. intros [= <-]. specialize (IH a R eq_refl).
    rewrite length_app. cbn [length]. rewrite Nat2Z.inj_add, Z.pow_add_r by lia. change (Z.of_nat 1) with 1.
    rewrite Z.pow_1_r. nia.
Qed.

Lemma fromCodePoint_units v : 0 <= v <= 0x10ffff -> fromCodePoint (Some v) = Ok (units v).
Proof.
  intros L. unfold fromCodePoint, units.
  rewrite (proj2 (Z.leb_le 0 v)), (proj2 (Z.leb_le v 0x10ffff)) by lia. cbn. by destruct (Z.leb v 0xffff).
Qed.

Lemma units_small v : v <= 0xffff -> units v = [v].
Proof. intros L. unfold units. by rewrite (proj2 (Z.leb_le v 0xffff)). Qed.

Lemma substring_at before middle (after : list Z) :
  substring (before ++ middle ++ after) (length before) (length before + length middle) = middle.
Proof.
  unfold substring. rewrite Nat.max_r, Nat.min_l by lia. rewrite drop_app_length.
  replace (length before + length middle - length before)%nat with (length middle) by lia.
  apply take_app_length.
Qed.


Lemma cp_plain c (rest : list Z) : is_high c = false -> cp (c :: rest) 0 = Some c.
Proof. intros H. unfold cp. cbn. rewrite H. by destruct rest. Qed.

Lemma cp_none : cp [] 0 = None.
Proof. done. Qed.

(** A first unit that is no octal digit makes no octal digit. *)
Lemma cp_not_octal (rest : list Z) : starts_with octal rest = false -> isOctalDigit (cp rest 0) = false.
Proof.
  destruct rest as [|c rest]; [done|]. cbn [starts_with]. intros N. unfold cp. cbn.
  destruct rest as [|l rest]; cbn; [done|].
  destruct (is_high c && is_low l) eqn:E; [|done]. split_bools.
  pose proof (high_low c l) as B. cbn zeta in B. destruct B as ([B1 B2] & _); [done..|].
  unfold isOctalDigit. apply andb_false_iff. right. apply Z.leb_gt. lia.
Qed.

Lemma octal_not_high c : octal c = true -> is_high c = false.
Proof.
  unfold octal, is_high. intros E. split_bools. apply andb_false_iff. left. apply Z.leb_gt. lia.
Qed.

Lemma octal_digits_at n (ds : list Z) : forall (b after : list Z),
  Forall (fun c => octal c = true) ds -> (length ds <= n)%nat ->
  (length ds = n \/ starts_with octal after = false) ->
  octal_digits n (b ++ ds ++ after) (length b) = ds.
Proof.
  revert ds. induction n as [|n IH]; intros ds b after F L S.
  { destruct ds; [done|]. cbn in L. lia. }
  cbn [octal_digits]. destruct ds as [|d ds].
  - cbn [app]. rewrite <- (Nat.add_0_r (length b)), lookup_at, Nat.add_0_r, cp_at.
    destruct S as [S|S]; [done|]. rewrite (cp_not_octal _ S). by destruct after.
  - apply Forall_cons in F as [F1 F]. cbn [app]. rewrite <- (Nat.add_0_r (length b)), lookup_at, Nat.add_0_r, cp_at.
    rewrite cp_plain by (by apply octal_not_high). cbn [lookup list_lookup isOctalDigit]. fold (octal d).
    rewrite F1. f_equal. specialize (IH ds (b ++ [d]) after F).
    rewrite length_app, Nat.add_1_r, <- (assoc_L (++)) in IH. apply IH; cbn in *; lia || (destruct S; [left; lia|by right]).
Qed.

Lemma digits_octal l v : digits_value 8 l = Some v -> Forall (fun c => octal c = true) l.
Proof.
  unfold digits_value. revert v. induction l as [|c l IH] using rev_ind; intros v E; [done|].
  rewrite fold_left_app in E. cbn in E. destruct (fold_left _ l (Some 0)) as [a|] eqn:Ea; [|done].
  apply Forall_app. split; [by eapply IH|]. constructor; [|done].
  destruct (digit_value c) as [d|] eqn:Ed; [|done]. destruct (Z.ltb_spec d 8); [|done].
  unfold digit_value in Ed. unfold octal. repeat case_match; simplify_eq; split_bools;
    apply andb_true_iff; split; apply Z.leb_le; lia.
Qed.

Lemma readOctal_at (b ds after : list Z) c v :
  digits_value 8 (c :: ds) = Some v -> (length ds <= 2)%nat ->
  (length ds = 2%nat \/ starts_with octal after = false) ->
  readOctal (b ++ ds ++ after) (length b) c = Ok ([v], (length b + length ds)%nat).
Proof.
  intros E L O. unfold readOctal. pose proof (digits_octal _ _ E) as F. apply Forall_cons in F as [_ F].
  rewrite octal_digits_at by done. rewrite (parseInt_digits 8 (c :: ds) v) by done.
  apply digits_value_bounds in E; [|lia]. cbn [length] in E.
  assert (8 ^ Z.of_nat (S (length ds)) <= 8 ^ 3) as B by (apply Z.pow_le_mono_r; lia).
  change (8 ^ 3) with 512 in B. rewrite fromCodePoint_units by lia. cbn. by rewrite units_small by lia.
Qed.

Lemma readHex_at (b ds after : list Z) v :
  length ds = 2%nat -> digits_value 16 ds = Some v ->
  readHex (b ++ ds ++ after) (length b) = (Some v, (length b + 2)%nat).
Proof.
  intros L E. unfold readHex, HEX_ESCAPE_LENGTH. rewrite <- L, substring_at.
  rewrite (parseInt_digits 16 ds v) by (done || by destruct ds). done.
Qed.

Lemma digits_value_cons radix c ds v : digits_value radix (c :: ds) = Some v -> is_Some (digit_value c).
Proof.
  unfold digits_value. cbn. destruct (digit_value c); [by eexists|]. intros E. exfalso.
  induction ds as [|d ds IH]; [done|]. by apply IH.
Qed.

Lemma readUnicode_at (b ds after : list Z) v :
  length ds = 4%nat -> digits_value 16 ds = Some v ->
  readUnicode (b ++ ds ++ after) (length b) = (Some v, (length b + 4)%nat).
Proof.
  intros L E. unfold readUnicode, UNICODE_ESCAPE_LENGTH. rewrite <- L, substring_at.
  rewrite (parseInt_digits 16 ds v) by (done || by destruct ds).
  rewrite <- (Nat.add_0_r (length b)) at 1. rewrite lookup_at.
  destruct ds as [|d ds]; [done|]. cbn. destruct (digits_value_cons _ _ _ _ E) as [x Ed].
  destruct (Z.eq_dec d 123) as [->|N]; [done|]. repeat case_match; congruence.
Qed.

Lemma indexOf_at (c : Z) (ds after : list Z) : forall n,
  c ∉ ds -> indexOf_from n c (ds ++ c :: after) = Some (n + length ds)%nat.
Proof.
  induction ds as [|d ds IH]; intros n N; cbn.
  - by rewrite Z.eqb_refl, Nat.add_0_r.
  - apply not_elem_of_cons in N as [N1 N]. rewrite (proj2 (Z.eqb_neq d c)) by done. rewrite IH by done.
    f_equal. lia.
Qed.

Lemma digits_no_brace ds v : digits_value 16 ds = Some v -> 125 ∉ ds.
Proof.
  unfold digits_value. revert v. induction ds as [|c l IH] using rev_ind; intros v E; [by apply not_elem_of_nil|].
  rewrite fold_left_app in E. cbn in E. destruct (fold_left _ l (Some 0)) as [a|] eqn:Ea; [|done].
  rewrite elem_of_app, list_elem_of_singleton. intros [H| <-]; [by apply (IH a)|]. done.
Qed.

Lemma readUnicode_brace (b ds after : list Z) v :
  ds <> [] -> digits_value 16 ds = Some v ->
  readUnicode (b ++ [123] ++ ds ++ [125] ++ after) (length b) = (Some v, (length b + 2 + length ds)%nat).
Proof.
  intros N E. unfold readUnicode. rewrite <- (Nat.add_0_r (length b)) at 1. rewrite lookup_at. cbn [lookup list_lookup app].
  unfold indexOf. replace (b ++ 123 :: ds ++ 125 :: after) with ((b ++ [123]) ++ ds ++ 125 :: after)
    by (by rewrite <- (assoc_L (++))).
  replace (S (length b)) with (length (b ++ [123])) by (rewrite length_app; cbn; lia).
  rewrite drop_app_length, indexOf_at by (by eapply digits_no_brace). rewrite substring_at.
  rewrite (parseInt_digits 16 ds v) by done. rewrite length_app. cbn. f_equal. lia.
Qed.


(** An escape that has no case of its own. *)
Lemma readEscape_default s pos c :
  cp s pos = Some c -> c ∉ [110; 114; 116; 98; 118; 102; 117; 120; 92; 10; 13] ->
  readEscape s pos
  = (if isOctalDigit (Some c) then readOctal s (inc pos (Some c)) c
     else let! value := fromCodePoint (Some c) in Ok (value, inc pos (Some c))).
Proof.
  intros E N. unfold readEscape. rewrite E. rewrite !not_elem_of_cons in N.
  destruct N as (N1 & N2 & N3 & N4 & N5 & N6 & N7 & N8 & N9 & N10 & N11 & _).
  repeat case_match; try congruence; reflexivity.
Qed.

Lemma inc_small pos c : c < 0x10000 -> inc pos (Some c) = S pos.
Proof. intros L. unfold inc. rewrite (proj2 (Z.leb_gt 0x10000 c)) by lia. lia. Qed.

Lemma inc_shift pos c : inc pos c = (pos + inc 0 c)%nat.
Proof. unfold inc. destruct c as [c|]; [destruct (Z.leb 65536 c)|]; lia. Qed.

(** Reading goes on after a unit. *)
Lemma after_unit (b : list Z) c r : b ++ c :: r = (b ++ [c]) ++ r.
Proof. by rewrite <- (assoc_L (++)). Qed.

Lemma length_snoc {A} (b : list A) c : length (b ++ [c]) = S (length b).
Proof. rewrite length_app. cbn. lia. Qed.

Lemma readEscape_unit (b r : list Z) c k :
  is_high c = false -> k = cp (b ++ c :: r) (length b) -> k = Some c.
Proof. intros H ->. by rewrite cp_at, cp_plain. Qed.

Lemma special_false c : special c = false ->
  octal c = false /\ c ∉ [110; 114; 116; 98; 118; 102; 117; 120; 92; 10; 13].
Proof.
  unfold special. intros E. split_bools. split; [done|]. rewrite !not_elem_of_cons in *. tauto.
Qed.

Lemma readEscape_self (b raw after : list Z) :
  is_character raw after -> special (default 0 (head raw)) = false ->
  readEscape (b ++ raw ++ after) (length b) = Ok (raw, (length b + length raw)%nat).
Proof.
  intros C S. destruct (cp_character raw after C) as (c & Ec & Ef & Ei & E1 & E2 & E3).
  assert (c ∉ [110; 114; 116; 98; 118; 102; 117; 120; 92; 10; 13] /\ isOctalDigit (Some c) = false) as [N O].
  { destruct (Z.leb_spec c 0xffff) as [L|L].
    - destruct raw as [|x [|y [|]]]; try done.
      + specialize (E1 x eq_refl). subst x. cbn in S. apply special_false in S as [O N]. done.
      + cbn in C. destruct C as [H1 H2]. pose proof (high_low x y H1 H2) as (B & _). cbn zeta in B.
        unfold cp in Ec. cbn in Ec. rewrite H1, H2 in Ec. cbn in Ec. injection Ec as <-. lia.
    - rewrite !not_elem_of_cons. split; [repeat split; lia || apply not_elem_of_nil|].
      unfold isOctalDigit. apply andb_false_iff. right. apply Z.leb_gt. lia. }
  rewrite (readEscape_default _ _ c); [|by rewrite cp_at|done]. by rewrite O, Ef, inc_shift, Ei.
Qed.

Lemma octal_default c : octal c = true ->
  is_high c = false /\ c < 0x10000 /\ c ∉ [110; 114; 116; 98; 118; 102; 117; 120; 92; 10; 13].
Proof.
  intros O. pose proof (octal_not_high c O). unfold octal in O. split_bools. split; [done|].
  split; [lia|]. rewrite !not_elem_of_cons. repeat split; try lia. apply not_elem_of_nil.
Qed.

Lemma readEscape_octal (b ds after : list Z) c v :
  digits_value 8 (c :: ds) = Some v -> (length ds <= 2)%nat ->
  (length ds = 2%nat \/ starts_with octal after = false) ->
  readEscape (b ++ (c :: ds) ++ after) (length b) = Ok ([v], (length b + S (length ds))%nat).
Proof.
  intros E L O. pose proof (digits_octal _ _ E) as F. apply Forall_cons in F as [F _].
  destruct (octal_default c F) as (H & B & N). cbn [app].
  rewrite (readEscape_default _ _ c); [|by rewrite cp_at, cp_plain|done].
  unfold isOctalDigit. fold (octal c). rewrite F, inc_small by done. rewrite after_unit, <- (length_snoc b c).
  rewrite (readOctal_at _ ds after c v) by done. rewrite length_snoc. f_equal. f_equal. lia.
Qed.

(** An escape is read as its item. *)
Lemma readEscape_item (b raw after value : list Z) :
  item raw after value -> forall r, raw = 92 :: r ->
  readEscape (b ++ r ++ after) (length b) = Ok (value, (length b + length r)%nat).
Proof.
  intros It r E.
  assert (forall c rest, is_high c = false -> cp (b ++ c :: rest) (length b) = Some c) as C1.
  { intros c rest H. by rewrite cp_at, cp_plain. }
  destruct It as [raw after C N|c v after H|after|after N|after|raw after C S|x y v after D|x y z w v after D
    |ds v after N D L|x v after D N|x y v after D N|x y z v after D L];
    try (injection E as <-); cbn [app] in *.
  - destruct raw; [done|]. injection E as -> ->. done.
  - unfold readEscape. unfold simple_escapes in H.
    repeat (apply elem_of_cons in H as [[= -> ->]|H]; [rewrite C1 by reflexivity; by rewrite inc_small, Nat.add_1_r by lia|]).
    by apply not_elem_of_nil in H.
  - unfold readEscape. rewrite C1 by reflexivity; by rewrite inc_small, Nat.add_1_r by lia.
  - unfold readEscape. rewrite C1 by reflexivity; rewrite inc_small by lia. rewrite after_unit.
    pose proof (cp_at (b ++ [13]) after) as A. rewrite length_snoc in A. rewrite A. cbn [length].
    rewrite bool_decide_false; [by rewrite Nat.add_1_r|].
    destruct after as [|c after]; [done|]. cbn in N. unfold cp. cbn.
    destruct after as [|l after]; cbn; [intros [= ->]; done|].
    destruct (is_high c && is_low l) eqn:Hl; [|intros [= ->]; done]. split_bools.
    pose proof (high_low c l) as B. cbn zeta in B. destruct B as ([B _] & _); [done..|]. intros [= B']. lia.
  - unfold readEscape. rewrite C1 by reflexivity; rewrite inc_small by lia. rewrite after_unit.
    pose proof (cp_at (b ++ [13]) (10 :: after)) as A. rewrite length_snoc in A. rewrite A. cbn [length].
    rewrite bool_decide_true by (by apply cp_plain). f_equal. f_equal. lia.
  - by apply readEscape_self.
  - unfold readEscape. rewrite C1 by reflexivity; rewrite inc_small by lia. rewrite after_unit.
    pose proof (readHex_at (b ++ [120]) [x; y] after v eq_refl D) as A. rewrite length_snoc in A.
    cbn [app] in A. rewrite A. apply digits_value_bounds in D; [|lia]. cbn in D.
    rewrite fromCodePoint_units by lia. cbn. rewrite units_small by lia. f_equal. f_equal. lia.
  - unfold readEscape. rewrite C1 by reflexivity; rewrite inc_small by lia. rewrite after_unit.
    pose proof (readUnicode_at (b ++ [117]) [x; y; z; w] after v eq_refl D) as A. rewrite length_snoc in A.
    cbn [app] in A. rewrite A. apply digits_value_bounds in D; [|lia]. cbn in D.
    rewrite fromCodePoint_units by lia. cbn. rewrite units_small by lia. f_equal. f_equal. lia.
  - unfold readEscape. rewrite <- (assoc_L (++)). rewrite C1 by reflexivity; rewrite inc_small by lia.
    rewrite after_unit.
    pose proof (readUnicode_brace (b ++ [117]) ds after v N D) as A. rewrite length_snoc in A.
    cbn [app] in A |- *. rewrite A.
    apply digits_value_bounds in D; [|lia]. rewrite fromCodePoint_units by lia. cbn.
    rewrite length_app. cbn. f_equal. f_equal. lia.
  - apply (readEscape_octal b [] after x v); [done|cbn; lia|by right].
  - apply (readEscape_octal b [y] after x v); [done|cbn; lia|by right].
  - apply (readEscape_octal b [y; z] after x v); [done|cbn; lia|by left].
Qed.


Lemma item_not_empty raw after value : item raw after value -> raw <> [].
Proof. intros It ->. inversion It; subst; try done. Qed.

(** One turn of the loop reads an item. *)
Lemma tokenize_item fuel b raw after value tokens :
  item raw after value ->
  tokenize_loop (S fuel) (b ++ raw ++ after) (length b) tokens
  = tokenize_loop fuel (b ++ raw ++ after) (length b + length raw)
      (tokens ++ tokens_of (length b) [(raw, value)]).
Proof.
  intros It. pose proof (item_not_empty _ _ _ It) as N. cbn [tokenize_loop].
  assert (Nat.ltb (length b) (length (b ++ raw ++ after)) = true) as ->.
  { apply Nat.ltb_lt. rewrite !length_app. destruct raw; [done|]. cbn. lia. }
  cbn [tokens_of]. rewrite app_nil_r. destruct (decide (head raw = Some 92)) as [H|H].
  - destruct raw as [|c r]; [done|]. injection H as ->. rewrite cp_at. cbn [app].
    rewrite cp_plain by done. rewrite inc_small by lia.
    pose proof (readEscape_item (b ++ [92]) _ _ _ It r eq_refl) as R.
    rewrite length_snoc, <- (assoc_L (++)) in R. cbn [app] in R. rewrite R. cbn [rbind].
    rewrite decide_False by (intros [= [=]]). cbn [length].
    replace (S (length b) + length r)%nat with (length b + S (length r))%nat by lia.
    destruct value; [by rewrite app_nil_r|done].
  - assert (is_character raw after /\ value = raw) as [C ->] by (destruct It; done || by destruct H).
    destruct (cp_character raw after C) as (c & Ec & Ef & Ei & E1 & E2 & E3).
    rewrite cp_at, Ec. rewrite inc_shift, Ei.
    assert (c <> 92) as N92.
    { intros ->. destruct raw as [|x [|y [|]]]; try done. specialize (E1 x eq_refl). by subst x. }
    assert (c = 47 <-> raw = [47]) as E47.
    { split; [|intros ->; by apply E1]. intros ->. destruct raw as [|x [|y [|]]]; try done.
      by rewrite (E1 x eq_refl). }
    destruct (decide (c = 47)) as [->|N47].
    + assert (raw = [47]) as -> by (by apply E47). by rewrite decide_True.
    + rewrite decide_False by (by rewrite <- E47). rewrite Ef. cbn [rbind].
      destruct raw as [|x r]; [done|]. repeat case_match; congruence || done.
Qed.

Lemma tokenize_items items : forall fuel b tokens,
  literal items -> (length (raw_of items) <= fuel)%nat ->
  tokenize_loop fuel (b ++ raw_of items) (length b) tokens = Ok (tokens ++ tokens_of (length b) items).
Proof.
  induction items as [|[raw value] items IH]; intros fuel b tokens Li L.
  - unfold raw_of. cbn. rewrite !app_nil_r. destruct fuel; cbn [tokenize_loop]; by rewrite Nat.ltb_irrefl.
  - inversion Li as [|raw' value' items' It Li' E]; subst. change (raw_of ((raw, value) :: items)) with (raw ++ raw_of items) in *.
    rewrite length_app in L. pose proof (item_not_empty _ _ _ It) as N.
    destruct fuel as [|fuel]; [destruct raw; cbn in L; [done|lia]|].
    change (concat items.*1) with (raw_of items) in It. rewrite (tokenize_item fuel b raw _ value tokens It).
    rewrite (assoc_L (++)), <- length_app. rewrite IH; [|done|destruct raw; cbn in *; [done|lia]].
    rewrite <- (assoc_L (++)). cbn [tokens_of]. by rewrite app_nil_r, length_app.
Qed.

(** ** Lemmas: the characters that are misread *)

Lemma item_not_misread raw after value : item raw after value -> ~ misread raw after.
Proof.
  intros It [(a & b & -> & B & O)|[ -> | -> ]];
    inversion It as [? ? C N|? ? ? H|?|? N|?|? ? C S|? ? ? ? D|? ? ? ? ? ? D|? ? ? N D L|? ? ? D N|? ? ? ? D N|? ? ? ? ? D L];
    subst; try lia; try done.
  3, 4: unfold simple_escapes in H; repeat (apply elem_of_cons in H as [[=]|H]);
      by apply not_elem_of_nil in H.
  - cbn in C. unfold is_high in C. destruct C as [C _]. split_bools. lia.
  - by rewrite O in N.
Qed.

Lemma tokens_of_from t items : forall offset, t ∈ tokens_of offset items -> (offset <= (tok_range t).1)%nat.
Proof.
  induction items as [|[raw value] items IH]; intros offset; cbn; [by intros ?%not_elem_of_nil|].
  rewrite elem_of_app. intros [H|H]; [| apply IH in H; lia].
  destruct (decide (raw = [47])); [| destruct value];
    rewrite ?elem_of_cons, elem_of_nil in H; destruct_or?; subst; done || (cbn; lia).
Qed.

Lemma match_units {R} (c : option Z) (escape slash other : R) (P : R -> Prop) :
  P escape -> P slash -> P other -> P (match c with Some 92 => escape | Some 47 => slash | _ => other end).
Proof. intros. repeat case_match; done. Qed.

Lemma tokenize_prefix fuel s : forall pos tokens l,
  tokenize_loop fuel s pos tokens = Ok l -> exists l', l = tokens ++ l'.
Proof.
  induction fuel as [|fuel IH]; intros pos tokens l; cbn [tokenize_loop].
  { destruct (Nat.ltb _ _); [done |]. intros [= ->]. exists []. by rewrite app_nil_r. }
  destruct (Nat.ltb _ _); [| intros [= ->]; exists []; by rewrite app_nil_r].
  assert (forall pos t, tokenize_loop fuel s pos (tokens ++ t) = Ok l -> exists l', l = tokens ++ l') as A.
  { intros pos' t (l' & ->)%IH. exists (t ++ l'). by rewrite (assoc_L (++)). }
  apply (match_units _ _ _ _ (fun r => r = Ok l -> _)); [| apply A |].
  - destruct (readEscape _ _) as [[value pos']|e]; [| done]. cbn [rbind].
    destruct value; [apply IH | apply A].
  - destruct (fromCodePoint _) as [value|e]; [apply A | done].
Qed.

(** An escape of one token. *)
Lemma tokenize_escape fuel (b rest : list Z) value pos tokens :
  readEscape (b ++ 92 :: rest) (S (length b)) = Ok (value, pos) -> value <> [] ->
  tokenize_loop (S fuel) (b ++ 92 :: rest) (length b) tokens
  = tokenize_loop fuel (b ++ 92 :: rest) pos (tokens ++ [mkStringToken value (length b, pos)]).
Proof.
  intros R N. cbn [tokenize_loop].
  assert (Nat.ltb (length b) (length (b ++ 92 :: rest)) = true) as ->
    by (apply Nat.ltb_lt; rewrite length_app; cbn; lia).
  rewrite cp_at, cp_plain by done. rewrite inc_small by lia. rewrite R. cbn [rbind]. by destruct value.
Qed.

Lemma octal_value c : octal c = true -> digit_value c = Some (c - 48) /\ c - 48 < 8.
Proof.
  unfold octal, digit_value. intros E. split_bools.
  rewrite (proj2 (Z.leb_le 48 c)), (proj2 (Z.leb_le c 57)) by lia. split; [done | lia].
Qed.

(** A separator after a backslash is taken for an escape of itself. *)
Lemma readEscape_separator (b after : list Z) c : c = 0x2028 \/ c = 0x2029 ->
  readEscape (b ++ 92 :: c :: after) (S (length b)) = Ok ([c], S (S (length b))).
Proof.
  intros C. rewrite after_unit, <- (length_snoc b 92).
  rewrite (readEscape_default _ _ c).
  - destruct C as [-> | ->]; cbn [isOctalDigit Z.leb Z.compare andb]; by rewrite inc_small.
  - rewrite cp_at. apply cp_plain. by destruct C as [-> | ->].
  - destruct C as [-> | ->]; rewrite !not_elem_of_cons; (repeat split; [done..|]); apply not_elem_of_nil.
Qed.

(** One turn of the loop on a character that is misread: its token is not the one
    of the character. *)
Lemma tokenize_misread fuel b raw after value tokens :
  js_item raw after value -> misread raw after ->
  exists token pos, tokenize_loop (S fuel) (b ++ raw ++ after) (length b) tokens
    = tokenize_loop fuel (b ++ raw ++ after) pos (tokens ++ [token])
    /\ (tok_range token).1 = length b
    /\ (value = [] \/ (tok_range token).2 <> (length b + length raw)%nat).
Proof.
  intros It M. destruct It as [raw after value It|x y d v after B D O|after|after];
    [by apply item_not_misread in It | | |].
  - pose proof (digits_octal _ _ D) as F. apply Forall_cons in F as [Fx F]. apply Forall_cons in F as [Fy _].
    destruct (octal_value x Fx) as [Dx Lx], (octal_value y Fy) as [Dy Ly], (octal_value d O) as [Dd Ld].
    assert (exists w, digits_value 8 [x; y; d] = Some w) as [w W].
    { unfold digits_value. cbn. rewrite Dx, Dy, Dd.
      do 3 (rewrite (proj2 (Z.ltb_lt _ 8)) by done; cbn). by eexists. }
    pose proof (readEscape_octal (b ++ [92]) [y; d] after x w W ltac:(cbn; lia) ltac:(by left)) as R.
    rewrite length_snoc, <- (assoc_L (++)) in R. cbn [app] in *.
    eexists _, _. split; [by apply (tokenize_escape fuel b (x :: y :: d :: after) _ _ tokens R) |].
    cbn. split; [done | right; lia].
  - eexists _, _. split; [apply (tokenize_escape fuel b (0x2028 :: after)); [apply readEscape_separator; by left | done] |].
    cbn. split; [done | by left].
  - eexists _, _. split; [apply (tokenize_escape fuel b (0x2029 :: after)); [apply readEscape_separator; by right | done] |].
    cbn. split; [done | by left].
Qed.

Lemma misread_dec raw after value : js_item raw after value -> item raw after value \/ misread raw after.
Proof.
  destruct 1 as [raw after value It|x y d v after B D O|after|after]; [by left | right..].
  - pose proof (digits_octal _ _ D) as F. apply Forall_cons in F as [Fx _]. unfold octal in Fx. split_bools.
    left. exists x, y. split; [done |]. split; [lia | done].
  - right. by left.
  - right. by right.
Qed.

Lemma js_item_not_empty raw after value : js_item raw after value -> raw <> [].
Proof. destruct 1 as [raw after value It| | |]; [by eapply item_not_empty | done..]. Qed.

Lemma tokenize_characters items : forall fuel b tokens,
  js_literal items -> (length (raw_of items) <= fuel)%nat ->
  tokenize_loop fuel (b ++ raw_of items) (length b) tokens = Ok (tokens ++ tokens_of (length b) items)
  <-> ~ misread_in items.
Proof.
  induction items as [|[raw value] items IH]; intros fuel b tokens Li L.
  - split; [intros _ [] |]. intros _. unfold raw_of. cbn. rewrite !app_nil_r.
    destruct fuel; cbn [tokenize_loop]; by rewrite Nat.ltb_irrefl.
  - inversion Li as [|raw' value' items' It Li']; subst.
    change (raw_of ((raw, value) :: items)) with (raw ++ raw_of items) in *.
    rewrite length_app in L. pose proof (js_item_not_empty _ _ _ It) as N. cbn [misread_in].
    destruct fuel as [|fuel]; [destruct raw; cbn in L; [done|lia]|].
    destruct (misread_dec _ _ _ It) as [It'|M].
    + pose proof (item_not_misread _ _ _ It') as NM. rewrite (tokenize_item fuel b raw _ value tokens It').
      rewrite (assoc_L (++) b).
      specialize (IH fuel (b ++ raw) (tokens ++ tokens_of (length b) [(raw, value)]) Li').
      rewrite <- (assoc_L (++) tokens), length_app in IH. cbn [tokens_of] in *. rewrite app_nil_r in *.
      rewrite IH; [tauto | destruct raw; cbn in *; [done|lia]].
    + split; [| tauto]. intros E. exfalso.
      destruct (tokenize_misread fuel b raw _ value tokens It M) as (token & pos & Et & Es & Ee).
      rewrite Et in E. apply tokenize_prefix in E as (l' & E). rewrite <- (assoc_L (++)) in E.
      apply app_inv_head in E. cbn [app] in E.
      assert (forall t, t ∈ tokens_of (length b + length raw) items -> t <> token) as F.
      { intros t Ht ->. apply tokens_of_from in Ht. rewrite Es in Ht. destruct raw; cbn in Ht; [done | lia]. }
      cbn [tokens_of] in E. destruct (decide (raw = [47])) as [->|_].
      * by destruct M as [(? & ? & ? & _)|[?|?]].
      * destruct value as [|u value]; cbn [app] in E.
        { apply (F token); [rewrite E; left | done]. }
        injection E as <- _. destruct Ee as [?|Ee]; [done |]. by apply Ee.
Qed.

(** The k-th token of items with at most one unit each and without slashes. *)
Definition small (item : list Z * list Z) : Prop := (length item.2 <= 1)%nat /\ item.1 <> [47].

Lemma tokens_lookup items : forall offset k token,
  Forall small items -> tokens_of offset items !! k = Some token ->
  exists before raw after, items = before ++ (raw, tok_value token) :: after
    /\ length (value_of before) = k /\ length (tok_value token) = 1%nat
    /\ tok_range token = ((offset + length (raw_of before))%nat,
                          (offset + length (raw_of before) + length raw)%nat).
Proof.
  induction items as [|[raw value] items IH]; intros offset k token F E; [done|].
  apply Forall_cons in F as [[F1 F2] F]. cbn [fst snd] in *. cbn [tokens_of] in E.
  rewrite decide_False in E by done. destruct value as [|v [|]]; cbn [app length] in *; [| |lia].
  - destruct (IH _ _ _ F E) as (before & r & after & -> & Lk & L1 & R).
    exists ((raw, []) :: before), r, after. split; [done|]. split; [done|]. split; [done|].
    rewrite R. change (raw_of ((raw, []) :: before)) with (raw ++ raw_of before).
    rewrite length_app. f_equal; lia.
  - destruct k as [|k]; cbn [lookup list_lookup] in E.
    + injection E as <-. exists [], raw, items. cbn. split; [done|]. split; [done|]. split; [done|].
      f_equal; lia.
    + destruct (IH _ _ _ F E) as (before & r & after & -> & Lk & L1 & R).
      exists ((raw, [v]) :: before), r, after. split; [done|].
      split; [change (value_of ((raw, [v]) :: before)) with ([v] ++ value_of before); cbn; by rewrite Lk|].
      split; [done|]. rewrite R. change (raw_of ((raw, [v]) :: before)) with (raw ++ raw_of before).
      rewrite length_app. f_equal; lia.
Qed.

Lemma tokens_length items : forall offset,
  Forall small items -> length (tokens_of offset items) = length (value_of items).
Proof.
  induction items as [|[raw value] items IH]; intros offset F; [done|].
  apply Forall_cons in F as [[F1 F2] F]. cbn [fst snd tokens_of] in *. rewrite decide_False by done.
  change (value_of ((raw, value) :: items)) with (value ++ value_of items).
  rewrite !length_app, IH by done. destruct value as [|v [|]]; cbn in *; lia.
Qed.

End Tokenizer.

(** ** Lemmas: ranges *)

Lemma value_of_app i1 i2 : value_of (i1 ++ i2) = value_of i1 ++ value_of i2.
Proof. unfold value_of. by rewrite fmap_app, concat_app. Qed.

Lemma raw_of_app i1 i2 : raw_of (i1 ++ i2) = raw_of i1 ++ raw_of i2.
Proof. unfold raw_of. by rewrite fmap_app, concat_app. Qed.

Lemma unquote_quoted q body :
  q = 39 \/ q = 34 -> unquote (q :: body ++ [q]) = Ok body.
Proof.
  intros Q. unfold unquote. assert (Z.eqb q 39 || Z.eqb q 34 = true) as ->.
  { destruct Q as [-> | ->]; done. }
  f_equal. cbn [length]. replace (S (length (body ++ [q])) - 1)%nat with (1 + length body)%nat
    by (rewrite length_app; cbn; lia).
  apply (substring_at [q] body [q]).
Qed.

Lemma raw_of_cons raw value items : raw_of ((raw, value) :: items) = raw ++ raw_of items.
Proof. done. Qed.

Lemma value_of_cons raw value items : value_of ((raw, value) :: items) = value ++ value_of items.
Proof. done. Qed.

(** The items from one token to another one. *)
Lemma tokens_between items : forall offset k m t1 t2,
  Forall small items -> (k <= m)%nat ->
  tokens_of offset items !! k = Some t1 -> tokens_of offset items !! m = Some t2 ->
  exists before middle after, items = before ++ middle ++ after
    /\ length (value_of before) = k /\ length (value_of middle) = S (m - k)
    /\ (tok_range t1).1 = (offset + length (raw_of before))%nat
    /\ (tok_range t2).2 = (offset + length (raw_of (before ++ middle)))%nat.
Proof.
  induction items as [|[raw value] items IH]; intros offset k m t1 t2 F L E1 E2; [done|].
  apply Forall_cons in F as [[F1 F2] F]. cbn [fst snd tokens_of] in *. rewrite decide_False in E1, E2 by done.
  destruct value as [|v [|]]; cbn [app length] in *; [| |lia].
  - destruct (IH _ _ _ _ _ F L E1 E2) as (before & middle & after & -> & K1 & K2 & R1 & R2).
    exists ((raw, []) :: before), middle, after. split; [done|]. split; [done|]. split; [done|].
    cbn [app]. rewrite R1, R2, !raw_of_cons, !length_app. lia.
  - destruct k as [|k]; cbn [lookup list_lookup] in E1.
    + injection E1 as <-. destruct m as [|m]; cbn [lookup list_lookup] in E2.
      * injection E2 as <-. exists [], [(raw, [v])], items. cbn. rewrite app_nil_r. repeat split; lia.
      * destruct (tokens_lookup items _ _ _ F E2) as (before & r & after & -> & K & K1 & R).
        exists [], ((raw, [v]) :: before ++ [(r, tok_value t2)]), after. split.
        { cbn. by rewrite <- (assoc_L (++)). }
        split; [done|]. rewrite value_of_cons, value_of_app, !length_app. cbn [app].
        rewrite raw_of_cons, raw_of_app, !length_app, R. cbn. rewrite !app_nil_r. lia.
    + destruct m as [|m]; [lia|]. cbn [lookup list_lookup] in E2.
      destruct (IH _ k m _ _ F ltac:(lia) E1 E2) as (before & middle & after & -> & K1 & K2 & R1 & R2).
      exists ((raw, [v]) :: before), middle, after. split; [done|].
      rewrite value_of_cons, length_app. cbn [app]. rewrite R1, R2, !raw_of_cons, !length_app. cbn. lia.
Qed.

Section Ranges.

Context (n : node) (q : Z) (text raw : string) (items : list (list Z * list Z)).
Hypothesis string_literal : isStringLiteral n = true.
Hypothesis not_regex : isRegexLiteral n = false.
Hypothesis value_text : get n "value" = VStr text.
Hypothesis text_not_empty : text <> "".
Hypothesis raw_text : get n "raw" = VStr raw.
Hypothesis quoted : q = 39 \/ q = 34.
Hypothesis raw_units : code_units raw = q :: raw_of items ++ [q].
Hypothesis body : literal items.

Lemma literal_tokens : tokens_of_literal (raw_of items) = Ok (tokens_of 0 items).
Proof.
  unfold tokens_of_literal, tokenizeString.
  pose proof (tokenize_items items (length (raw_of items)) [] [] body (le_n _)) as T.
  cbn [app length] in T. by rewrite T.
Qed.

Hypothesis all_small : Forall small items.

Lemma string_range (r : RegexNode) :
  (1 <= re_start r < re_end r)%nat -> (re_end r <= S (length (value_of items)))%nat ->
  exists before middle after,
    items = before ++ middle ++ after
    /\ value_of before = take (re_start r - 1) (value_of items)
    /\ value_of middle = take (re_end r - re_start r) (drop (re_start r - 1) (value_of items))
    /\ getRegexpRange n r
       = Ok (1 + Z.of_nat (length (raw_of before)), 1 + Z.of_nat (length (raw_of (before ++ middle)))).
Proof.
  intros L1 L2. destruct r as [s e w]. cbn in *. destruct s as [|k]; [lia|]. destruct e as [|[|m]]; [lia..|].
  set (tokens := tokens_of 0 items).
  assert (length tokens = length (value_of items)) as Lt by (by apply tokens_length).
  destruct (lookup_lt_is_Some_2 tokens k ltac:(lia)) as [t1 E1].
  destruct (lookup_lt_is_Some_2 tokens m ltac:(lia)) as [t2 E2].
  destruct (tokens_between items 0 k m t1 t2 all_small ltac:(lia) E1 E2)
    as (before & middle & after & I & K1 & K2 & R1 & R2).
  exists before, middle, after. split; [done|].
  assert (value_of items = value_of before ++ value_of middle ++ value_of after) as V.
  { by rewrite I, !value_of_app. }
  replace (S k - 1)%nat with k by lia. replace (S (S m) - S k)%nat with (S (m - k))%nat by lia.
  rewrite V. split; [by rewrite <- K1, take_app_length|].
  split; [by rewrite <- K1, drop_app_length, K1, <- K2, take_app_length|].
  unfold getRegexpRange. rewrite not_regex, string_literal, value_text, raw_text, raw_units.
  rewrite (proj2 (String.eqb_neq text "") text_not_empty). rewrite unquote_quoted by done.
  cbn [rbind]. rewrite literal_tokens. cbn [rbind re_start re_end]. fold tokens.
  assert (Nat.eqb (S k) (S (S m)) = false) as -> by (apply Nat.eqb_neq; lia). rewrite E1.
  replace (Z.min (Z.of_nat (S (S m)) - 2) (Z.of_nat (length tokens) - 1)) with (Z.of_nat m) by lia.
  rewrite (proj2 (Z.leb_le 0 (Z.of_nat m))), Nat2Z.id, E2 by lia. rewrite R1, R2. f_equal. f_equal; lia.
Qed.

End Ranges.

(** Following variables that are written from each other never ends. *)
Lemma cyclic_pattern fuel i name :
  name = "a" \/ name = "b" ->
  getPatternFromNode AstExample.copies (fun _ => Some (AstExample.mk 50 "VariableDeclarator" [])) fuel
    (AstExample.ident i name) = None.
Proof.
  revert i name. induction fuel as [|fuel IH]; intros i name H; [done|].
  destruct H as [-> | ->]; cbn; apply IH; auto.
Qed.

(** Octal escapes above \377 have two digits in JavaScript; three are read here. *)
Lemma octal_escape_too_long : tokenizeString [92; 52; 55; 55] = Ok [mkStringToken [319] (0, 4)%nat].
Proof. done. Qed.

(** An astral character is one token, and two units of the expression: the ranges
    of the nodes after it are shifted. *)
Lemma astral_character_shifts_tokens :
  tokenizeString [0xd83d; 0xde00; 97]
  = Ok [mkStringToken [0xd83d; 0xde00] (0, 2)%nat; mkStringToken [97] (2, 3)%nat].
Proof. done. Qed.

(** ** Properties *)

(** C22: the tokens of the body of a string literal are its characters as the
    grammar of JavaScript reads them, with their values and ranges (continuations
    have none, and a slash, which is escaped in a regular expression, has two),
    exactly when the literal has no octal escape of two digits that starts with 4 to
    7 before one more octal digit, and no continuation with U+2028 or U+2029. *)
Theorem tokens_are_the_items items :
  js_literal items ->
  tokenizeString (raw_of items) = Ok (tokens_of 0 items) <-> ~ misread_in items.
Proof. intros L. by apply (tokenize_characters items (length (raw_of items)) [] []). Qed.

(** The range of a node of a regular expression written as a string literal is
    the text that denotes it: the items between its ends, whatever escapes and
    continuations they use, for a literal without slashes and with items of at most
    one code unit. *)
Theorem string_range_points_to_text n q text raw items r :
  type_of n = "Literal" -> get n "value" = VStr text -> text <> "" -> get n "raw" = VStr raw ->
  q = 39 \/ q = 34 -> code_units raw = q :: raw_of items ++ [q] ->
  literal items -> Forall small items ->
  (1 <= re_start r < re_end r)%nat -> (re_end r <= S (length (value_of items)))%nat ->
  exists before middle after,
    items = before ++ middle ++ after
    /\ value_of before = take (re_start r - 1) (value_of items)
    /\ value_of middle = take (re_end r - re_start r) (drop (re_start r - 1) (value_of items))
    /\ getRegexpRange n r
       = Ok (1 + Z.of_nat (length (raw_of before)), 1 + Z.of_nat (length (raw_of (before ++ middle)))).
Proof.
  intros T V NE R Q U L S L1 L2. apply (string_range n q text raw items); try done.
  - unfold isStringLiteral, isLiteral. cbn. by rewrite T, V.
  - unfold isRegexLiteral. by rewrite T, V.
Qed.

(** The suggestion of S6326 replaces a range counted from the start of the
    literal, in a file: the reported location is the same range moved by the
    position of the literal. *)
Theorem spaces_fix_ignores_position getLocFromIndex n pattern r a b report :
  isRegexLiteral n = true -> h_range (hdr n) = Some (a, b) ->
  onCharacterEnter getLocFromIndex n pattern r false = Ok (Some report) ->
  sp_location report
  = mkLoc (getLocFromIndex (a + (sp_range report).1)) (getLocFromIndex (a + (sp_range report).2)).
Proof.
  intros Rx Ra. unfold onCharacterEnter, getRegexpLocation, getRegexpRange. rewrite Rx, Ra.
  cbn [orb rbind]. destruct (negb (re_raw r =s " ") || false); [done|]. case_bool_decide; [done|].
  destruct (Nat.eqb _ 0); [done|]. cbn [rbind fst snd]. set (k := Z.of_nat (S _)).
  destruct (Z.eqb _ _); [done|]. cbn [rbind]. intros [= <-]. cbn [sp_location sp_range fst snd].
  f_equal; f_equal; lia.
Qed.

(** ** Witnesses *)

Definition abc_items : list (list Z * list Z) := [([97], [97]); ([92; 120; 54; 50], [98]); ([99], [99])].

Definition abc_literal : node :=
  Node (mkHeader 0 "Literal" None (Some (10, 18)))
    [("value", VStr "abc"); ("raw", VStr (String (ascii_of_nat 34) ("a\x62c" +:+ String (ascii_of_nat 34) "")))].

Lemma abc_literal_ok : literal abc_items.
Proof.
  apply literal_cons; [apply Plain; [cbn; split; [lia|intros [? ?]; discriminate]|discriminate]|].
  apply literal_cons; [by apply HexEscape|].
  apply literal_cons; [apply Plain; [cbn; split; [lia|intros [? ?]; discriminate]|discriminate]|].
  apply literal_nil.
Qed.

(** [\477] *)
Definition octal_items : list (list Z * list Z) := [([92; 52; 55], [39]); ([55], [55])].

Lemma tokens_are_the_items_witness :
  tokenizeString [97; 92; 120; 54; 50; 99]
  = Ok [mkStringToken [97] (0, 1)%nat; mkStringToken [98] (1, 5)%nat; mkStringToken [99] (5, 6)%nat]
  /\ tokenizeString (raw_of octal_items) <> Ok (tokens_of 0 octal_items).
Proof.
  split.
  - apply (tokens_are_the_items abc_items); [| by intros [[(? & ? & ? & _)|[?|?]]|[[(? & ? & [=] & ? & _)|[?|?]]|[[(? & ? & ? & _)|[?|?]]|[]]]]].
    repeat (apply js_literal_cons; [apply CommonItem |]); [| | | apply js_literal_nil].
    + apply Plain; [cbn; split; [lia|intros [? ?]; discriminate]|discriminate].
    + by apply HexEscape.
    + apply Plain; [cbn; split; [lia|intros [? ?]; discriminate]|discriminate].
  - intros E. apply (tokens_are_the_items octal_items) in E.
    + apply E. left. left. exists 52, 55. repeat split; lia.
    + apply js_literal_cons; [by apply (FourToSeven 52 55 55) |].
      apply js_literal_cons; [apply CommonItem, Plain; [cbn; split; [lia|intros [? ?]; discriminate]|discriminate] |].
      apply js_literal_nil.
Defined.

Lemma string_range_points_to_text_witness :
  getRegexpRange abc_literal (mkRegexNode 2 3 "b") = Ok (2, 6)
  /\ exists before middle after,
       abc_items = before ++ middle ++ after
       /\ value_of before = [97%Z] /\ value_of middle = [98%Z]
       /\ getRegexpRange abc_literal (mkRegexNode 2 3 "b")
          = Ok (1 + Z.of_nat (length (raw_of before)), 1 + Z.of_nat (length (raw_of (before ++ middle)))).
Proof.
  split; [vm_compute; reflexivity|].
  apply (string_range_points_to_text abc_literal 34 "abc"
           (String (ascii_of_nat 34) ("a\x62c" +:+ String (ascii_of_nat 34) "")) abc_items (mkRegexNode 2 3 "b")).
  - reflexivity.
  - reflexivity.
  - discriminate.
  - reflexivity.
  - by right.
  - vm_compute. reflexivity.
  - apply abc_literal_ok.
  - repeat apply Forall_cons_2; try apply Forall_nil_2; (split; [cbn; lia|discriminate]).
  - cbn. lia.
  - cbn. lia.
Defined.

(** [/a  b/] at position 10 of the file. *)
Definition spaces_literal : node :=
  Node (mkHeader 0 "Literal" None (Some (10, 16))) [("value", VRegExp "a  b" "")].

Lemma spaces_fix_ignores_position_witness :
  let report := mkSpacesReport 2 (mkLoc (mkPos 1 12) (mkPos 1 14)) (2, 4) in
  onCharacterEnter (mkPos 1) spaces_literal [47; 97; 32; 32; 98; 47] (mkRegexNode 3 4 " ") false = Ok (Some report)
  /\ sp_location report = mkLoc (mkPos 1 (10 + (sp_range report).1)) (mkPos 1 (10 + (sp_range report).2)).
Proof.
  split; [vm_compute; reflexivity|].
  apply (spaces_fix_ignores_position (mkPos 1) spaces_literal [47; 97; 32; 32; 98; 47] (mkRegexNode 3 4 " ") 10 16).
  - reflexivity.
  - reflexivity.
  - vm_compute. reflexivity.
Defined.
