(* ===== verification/Duplicates.v ===== *)
(** * Duplicates: equivalent code

    The code of [rules/helpers/equivalence.ts] and [helpers/conditions.ts], and the
    rules built on them: S1862 (conditions covered by a previous one), S1871 and
    S3923 (branches with the same code), S1764 (identical operands) and S4144
    (functions with the same body). *)

From Stdlib Require Import ZArith QArith Lia.
From stdpp Require Import base list sets strings.
From S2P Require Import Prelude JsString Json Estree Ast.

Open Scope js_scope.

(** ** [helpers/equivalence.ts] *)

Section Equivalence.

Variable sc : SourceCode.

Definition getTokens (n : node) : list Token := sc_getTokens sc n.

Fixpoint every2 {A} (f : A -> A -> bool) (l l' : list A) : bool :=
  match l, l' with
  | [], [] => true
  | x :: r, y :: r' => f x y && every2 f r r'
  | _, _ => false
  end.

Definition compareTokens (firstTokens secondTokens : list Token) : bool :=
  every2 (fun t t' => t_value t =s t_value t') firstTokens secondTokens.

Definition equivalent (first second : node) : bool :=
  (type_of first =s type_of second) && compareTokens (getTokens first) (getTokens second).

(** A node or an array of nodes. *)
Inductive nodes := One (n : node) | Many (l : list node).

Definition areEquivalent (first second : nodes) : bool :=
  match first, second with
  | One a, One b => equivalent a b
  | Many l, Many l' => every2 equivalent l l'
  | _, _ => false
  end.

(** ** [helpers/conditions.ts] *)

(** The loop on the alternates of a statement; an alternate is smaller than its
    statement, so that the size of a node is enough fuel. *)
Fixpoint if_branches (fuel : nat) (statement : option node) : list node * bool :=
  match fuel, statement with
  | S fuel', Some s =>
      if type_of s =s "IfStatement" then
        let (branches, endsWithElse) := if_branches fuel' (get_node s "alternate") in
        (option_list (get_node s "consequent") ++ branches, endsWithElse)
      else ([s], true)
  | _, _ => ([], false)
  end.

Definition collectIfBranches (n : node) : list node * bool :=
  let (branches, endsWithElse) := if_branches (node_size n) (get_node n "alternate") in
  (option_list (get_node n "consequent") ++ branches, endsWithElse).

Definition is_break (n : node) : bool := type_of n =s "BreakStatement".

Definition takeWithoutBreak (l : list node) : list node :=
  match last l with
  | Some n => if is_break n then removelast l else l
  | None => l
  end.

(** The clauses that are kept: the ones with an implementation, and the last. *)
Fixpoint implemented (cases : list node) : list node :=
  match cases with
  | [] => []
  | [c] => [c]
  | c :: rest => if Nat.ltb 0 (length (get_nodes c "consequent")) then c :: implemented rest else implemented rest
  end.

Definition collectSwitchBranches (n : node) : list (list node) * bool :=
  let cases := get_nodes n "cases" in
  (map (fun clause => takeWithoutBreak (get_nodes clause "consequent")) (implemented cases),
   existsb (fun clause => negb (truthy (get clause "test"))) cases).

Definition start_line (n : node) : option Z := line ∘ Estree.start <$> h_loc (hdr n).

(** A report: the node, the node it repeats, and the line of the latter. *)
Record Duplicate := mkDuplicate { d_node : node; d_original : node; d_line : option Z }.

Definition duplicate (n original : node) : Duplicate := mkDuplicate n original (start_line original).

(** ** Rule S1862: covered conditions *)

Definition is_logical (operator : string) (n : node) : bool :=
  (type_of n =s "LogicalExpression")
  && match get n "operator" with VStr o => o =s operator | _ => false end.

(** The fuel of the functions on a condition is its size. *)
Fixpoint splitByLogicalOperator_fuel (fuel : nat) (operator : string) (n : node) : list node :=
  match fuel with
  | O => [n]
  | S fuel' =>
      if is_logical operator n then
        match get_node n "left", get_node n "right" with
        | Some l, Some r =>
            splitByLogicalOperator_fuel fuel' operator l ++ splitByLogicalOperator_fuel fuel' operator r
        | _, _ => [n]
        end
      else [n]
  end.

Definition splitByLogicalOperator (operator : string) (n : node) : list node :=
  splitByLogicalOperator_fuel (node_size n) operator n.

Definition splitByOr : node -> list node := splitByLogicalOperator "||".
Definition splitByAnd : node -> list node := splitByLogicalOperator "&&".

Fixpoint isSubsetOf_fuel (fuel : nat) (first second : node) : bool :=
  if negb (type_of first =s type_of second) then false
  else
    match fuel with
    | O => equivalent first second
    | S fuel' =>
        if (is_logical "||" first && is_logical "||" second)
           || (is_logical "&&" first && is_logical "&&" second)
        then
          match get_node first "left", get_node first "right", get_node second "left", get_node second "right" with
          | Some l, Some r, Some l', Some r' =>
              (isSubsetOf_fuel fuel' l l' && isSubsetOf_fuel fuel' r r')
              || (isSubsetOf_fuel fuel' l r' && isSubsetOf_fuel fuel' r l')
          | _, _, _, _ => false
          end
        else equivalent first second
    end.

Definition isSubsetOf (first second : node) : bool := isSubsetOf_fuel (node_size first) first second.

Definition isSubset (first second : list node) : bool :=
  forallb (fun fst => existsb (fun snd => isSubsetOf fst snd) second) first.

(** The operands of a condition: a disjunction of conjunctions. *)
Definition operands (condition : node) : list (list node) := map splitByAnd (splitByOr condition).

Definition test_operands (n : node) : list (list node) :=
  match get_node n "test" with Some t => operands t | None => [] end.

(** The loop on the statements whose alternate the current one is, with the operands
    of each condition to check that are not covered yet: the statement that covers
    the condition, if any. *)
Fixpoint covering_statement (parents : list node) (current : node) (operandsToCheck : list (list (list node)))
  : option node :=
  match parents with
  | parent :: rest =>
      if (type_of parent =s "IfStatement")
         && match get_node parent "alternate" with Some a => same_node a current | None => false end
      then
        let currentOrOperands := test_operands parent in
        let operandsToCheck :=
          map (List.filter (fun orOperand =>
                 negb (existsb (fun currentOrOperand => isSubset currentOrOperand orOperand) currentOrOperands)))
            operandsToCheck in
        if existsb (fun orOperands => match orOperands with [] => true | _ => false end) operandsToCheck
        then Some parent
        else covering_statement rest parent operandsToCheck
      else None
  | [] => None
  end.

Definition conditions_to_check (test : node) : list node :=
  if is_logical "&&" test then test :: splitByAnd test else [test].

(** The handler of [if] statements, with the parents of the statement: the condition
    and the one that covers it. *)
Definition S1862_IfStatement (parents : list node) (n : node) : option Duplicate :=
  match get_node n "test" with
  | Some test =>
      match covering_statement parents n (map operands (conditions_to_check test)) with
      | Some statement => duplicate test <$> get_node statement "test"
      | None => None
      end
  | None => None
  end.

(** The handler of [switch] statements: its loop on the cases, with the tests that
    are not duplicates so far. *)
Fixpoint duplicated_tests (previousTests : list node) (tests : list node) : list Duplicate :=
  match tests with
  | [] => []
  | test :: rest =>
      match List.find (fun previousTest => equivalent test previousTest) previousTests with
      | Some duplicateTest => duplicate test duplicateTest :: duplicated_tests previousTests rest
      | None => duplicated_tests (previousTests ++ [test]) rest
      end
  end.

Definition S1862_SwitchStatement (n : node) : list Duplicate :=
  duplicated_tests [] (omap (fun c => get_node c "test") (get_nodes n "cases")).

(** ** Rule S3923: conditional structures whose branches are the same *)

(** Each branch after the first is equivalent to the one before it. *)
Fixpoint same_as_previous (previous : nodes) (branches : list nodes) : bool :=
  match branches with
  | [] => true
  | b :: rest => areEquivalent b previous && same_as_previous b rest
  end.

Definition allDuplicated (branches : list nodes) : bool :=
  match branches with
  | first :: (_ :: _) as rest => same_as_previous first rest
  | _ => false
  end.

Definition S3923_IfStatement (parent : option node) (n : node) : bool :=
  if isIfStatement parent then false
  else let (branches, endsWithElse) := collectIfBranches n in
       endsWithElse && allDuplicated (map One branches).

Definition S3923_SwitchStatement (n : node) : bool :=
  let (branches, endsWithDefault) := collectSwitchBranches n in
  endsWithDefault && allDuplicated (map Many branches).

Definition S3923_ConditionalExpression (n : node) : bool :=
  match get_node n "consequent", get_node n "alternate" with
  | Some c, Some a => allDuplicated [One c; One a]
  | _, _ => false
  end.

(** ** Rule S1871: branches with the same code *)

Definition allEquivalentWithoutDefault (branches : list nodes) (endsWithDefault : bool) : bool :=
  negb endsWithDefault && allDuplicated branches.

Definition is_brace (t : Token) : bool := (t_value t =s "{") || (t_value t =s "}").

Definition hasRequiredSize (l : list node) : bool :=
  match head l, last l with
  | Some first, Some final =>
      let tokens := List.filter (fun t => negb (is_brace t)) (getTokens first ++ getTokens final) in
      match head tokens, last tokens with
      | Some t, Some t' => Z.ltb (line (Estree.start (t_loc t))) (line (endp (t_loc t')))
      | _, _ => false
      end
  | _, _ => false
  end.

(** The consecutive nodes of a list, each after the first with the one before. *)
Fixpoint with_previous (l : list node) : list Duplicate :=
  match l with
  | a :: (b :: _) as rest => duplicate b a :: with_previous rest
  | _ => []
  end.

(** The loops on the branches (or cases) after the first, and on the ones before;
    the branches of an [if] are reported when the one before has a location. *)
Fixpoint repeated (before : list (node * nodes)) (branches : list (node * nodes)) (big : node * nodes -> bool)
  (reportable : node -> bool) : list Duplicate :=
  match branches with
  | [] => []
  | b :: rest =>
      (if big b then
         match List.find (fun a => areEquivalent b.2 a.2) before with
         | Some a => if reportable a.1 then [duplicate b.1 a.1] else []
         | None => []
         end
       else [])
      ++ repeated (before ++ [b]) rest big reportable
  end.

Definition S1871_IfStatement (parent : option node) (n : node) : list Duplicate :=
  if isIfStatement parent then []
  else
    let (branches, endsWithElse) := collectIfBranches n in
    if allEquivalentWithoutDefault (map One branches) endsWithElse then with_previous branches
    else repeated [] (map (fun b => (b, One b)) branches) (fun b => hasRequiredSize [b.1])
           (fun b => bool_decide (is_Some (h_loc (hdr b)))).

Definition expandSingleBlockStatement (l : list node) : list node :=
  match l with
  | [n] => if type_of n =s "BlockStatement" then get_nodes n "body" else l
  | _ => l
  end.

Definition clause_statements (c : node) : list node :=
  takeWithoutBreak (expandSingleBlockStatement (get_nodes c "consequent")).

Definition S1871_SwitchStatement (n : node) : list Duplicate :=
  let cases := get_nodes n "cases" in
  let endsWithDefault := (collectSwitchBranches n).2 in
  let nonEmptyCases := List.filter (fun c => Nat.ltb 0 (length (clause_statements c))) cases in
  if allEquivalentWithoutDefault (map (fun c => Many (clause_statements c)) nonEmptyCases) endsWithDefault
  then with_previous nonEmptyCases
  else repeated [] (map (fun c => (c, Many (clause_statements c))) cases)
         (fun c => hasRequiredSize (clause_statements c.1)) (fun _ => true).

(** ** Rule S1764: identical operands *)

Definition EQUALITY_OPERATOR_TOKEN_KINDS : list string := ["=="; "==="; "!="; "!=="].
Definition RELEVANT_OPERATOR_TOKEN_KINDS : list string :=
  ["&&"; "||"; "/"; "-"; "<<"; ">>"; "<"; "<="; ">"; ">="].

Definition operator_of (n : node) : string := default "" (get_str n "operator").

Definition hasIdentifierOperands (n : node) : bool :=
  isIdentifier (get_node n "left") [] && isIdentifier (get_node n "right") [].

Definition hasRelevantOperator (n : node) : bool :=
  includes (operator_of n) RELEVANT_OPERATOR_TOKEN_KINDS
  || (includes (operator_of n) EQUALITY_OPERATOR_TOKEN_KINDS && negb (hasIdentifierOperands n)).

Definition isOneOntoOneShifting (n : node) : bool :=
  (operator_of n =s "<<")
  && isLiteral (get_node n "left")
  && match get_node n "left" with
     | Some l =>
         match get l "value" with
         | VNum (NumQ q) => Qeq_bool q 1
         | VBigInt z => Z.eqb z 1
         | _ => false
         end
     | None => false
     end.

Definition isSonarRuntime (options : list json) : bool :=
  match last options with Some (JStr s) => s =s "sonar-runtime" | _ => false end.

(** The node that is reported, with the secondary locations. *)
Definition S1764_check (options : list json) (expr : node) : option (node * list node) :=
  match get_node expr "left", get_node expr "right" with
  | Some l, Some r =>
      if hasRelevantOperator expr && negb (isOneOntoOneShifting expr) && equivalent l r
      then Some (if isSonarRuntime options then r else expr,
                 if bool_decide (is_Some (h_loc (hdr l))) then [l] else [])
      else None
  | _, _ => None
  end.

(** ** Rule S4144: identical functions *)

Definition DEFAULT_MIN_LINES : Z := 3.

Definition isBigEnough (minLines : Z) (n : node) : bool :=
  let tokens := getTokens n in
  let tokens := match tokens with t :: rest => if t_value t =s "{" then rest else tokens | [] => [] end in
  let tokens := match last tokens with
                | Some t => if t_value t =s "}" then removelast tokens else tokens
                | None => tokens
                end in
  match head tokens, last tokens with
  | Some t, Some t' =>
      Z.leb minLines (line (endp (t_loc t')) - line (Estree.start (t_loc t)) + 1)
  | _, _ => false
  end.

(** The selectors: declarations, and functions of a declarator or of a method. *)
Definition S4144_selected (parent : option node) (n : node) : bool :=
  (type_of n =s "FunctionDeclaration")
  || ((type_of n =s "FunctionExpression") || (type_of n =s "ArrowFunctionExpression"))
     && (opt_type_is parent "VariableDeclarator" || opt_type_is parent "MethodDefinition").

(** The functions collected, with their parents. *)
Definition visitFunction (minLines : Z) (functions : list (node * option node)) (n : node) (parent : option node)
  : list (node * option node) :=
  if S4144_selected parent n
  then match get_node n "body" with
       | Some body => if isBigEnough minLines body then functions ++ [(n, parent)] else functions
       | None => functions
       end
  else functions.

Definition same_body (f f' : node * option node) : bool :=
  match get_node f.1 "body", get_node f'.1 "body" with
  | Some b, Some b' => equivalent b b' && bool_decide (is_Some (h_loc (hdr f'.1)))
  | _, _ => false
  end.

(** [Program:exit]: the functions reported with the ones they repeat. *)
Fixpoint processFunctions (before functions : list (node * option node))
  : list ((node * option node) * (node * option node)) :=
  match functions with
  | [] => []
  | f :: rest =>
      match List.find (same_body f) before with
      | Some original => [(f, original)]
      | None => []
      end
      ++ processFunctions (before ++ [f]) rest
  end.

End Equivalence.

(** ** A covered condition is never true *)

Section Covered.

Variable sc : SourceCode.
(** The conditions of a chain of statements, with their operands, and the values
    they evaluate to, as booleans. *)
Variable conditions : list node.
Variable ev : node -> bool.

(** The operators mean what they mean in JavaScript, and equivalent code has the
    same value (conditions have no side effects). *)
Record Valuation : Prop := {
  and_value : forall n l r, n ∈ conditions -> is_logical "&&" n = true ->
    get_node n "left" = Some l -> get_node n "right" = Some r ->
    l ∈ conditions /\ r ∈ conditions /\ ev n = ev l && ev r;
  or_value : forall n l r, n ∈ conditions -> is_logical "||" n = true ->
    get_node n "left" = Some l -> get_node n "right" = Some r ->
    l ∈ conditions /\ r ∈ conditions /\ ev n = ev l || ev r;
  equivalent_value : forall n n', n ∈ conditions -> n' ∈ conditions ->
    equivalent sc n n' = true -> ev n = ev n' }.

Hypothesis V : Valuation.

Lemma split_and_value fuel : forall n, n ∈ conditions ->
  let l := splitByLogicalOperator_fuel fuel "&&" n in
  forallb ev l = ev n /\ (forall x, x ∈ l -> x ∈ conditions).
Proof.
  induction fuel as [|fuel IH]; intros n Hn; cbn.
  - rewrite andb_true_r. split; [done | set_solver].
  - assert (forallb ev [n] = ev n /\ (forall x, x ∈ [n] -> x ∈ conditions)) as Hone.
    { cbn. rewrite andb_true_r. split; [done | by intros x ->%list_elem_of_singleton]. }
    destruct (is_logical "&&" n) eqn:Hl; [| exact Hone].
    destruct (get_node n "left") as [l|] eqn:El; [| exact Hone].
    destruct (get_node n "right") as [r|] eqn:Er; [| exact Hone].
    destruct (and_value V n l r Hn Hl El Er) as (Hnl & Hnr & ->).
    destruct (IH l Hnl) as [E1 S1], (IH r Hnr) as [E2 S2].
    rewrite forallb_app, E1, E2. split; [done |]. intros x [H|H]%elem_of_app; auto.
Qed.

Lemma split_or_value fuel : forall n, n ∈ conditions ->
  let l := splitByLogicalOperator_fuel fuel "||" n in
  existsb ev l = ev n /\ (forall x, x ∈ l -> x ∈ conditions).
Proof.
  induction fuel as [|fuel IH]; intros n Hn; cbn.
  - rewrite orb_false_r. split; [done | set_solver].
  - assert (existsb ev [n] = ev n /\ (forall x, x ∈ [n] -> x ∈ conditions)) as Hone.
    { cbn. rewrite orb_false_r. split; [done | by intros x ->%list_elem_of_singleton]. }
    destruct (is_logical "||" n) eqn:Hl; [| exact Hone].
    destruct (get_node n "left") as [l|] eqn:El; [| exact Hone].
    destruct (get_node n "right") as [r|] eqn:Er; [| exact Hone].
    destruct (or_value V n l r Hn Hl El Er) as (Hnl & Hnr & ->).
    destruct (IH l Hnl) as [E1 S1], (IH r Hnr) as [E2 S2].
    rewrite existsb_app, E1, E2. split; [done |]. intros x [H|H]%elem_of_app; auto.
Qed.

(** The value of a disjunction of conjunctions. *)
Definition dnf_value (ops : list (list node)) : bool := existsb (forallb ev) ops.

Definition dnf_scope (ops : list (list node)) : Prop :=
  forall l x, l ∈ ops -> x ∈ l -> x ∈ conditions.

Lemma operands_value n : n ∈ conditions ->
  dnf_value (operands n) = ev n /\ dnf_scope (operands n).
Proof.
  intros Hn. unfold operands, splitByOr, splitByLogicalOperator.
  destruct (split_or_value (node_size n) n Hn) as [<- Hs].
  revert Hs. generalize (splitByLogicalOperator_fuel (node_size n) "||" n). intros l Hs. split.
  - unfold dnf_value. induction l as [|x l IH]; [done |]. cbn.
    rewrite IH by (intros; apply Hs; by right). f_equal.
    apply split_and_value, Hs. by left.
  - intros l' x Hl Hx. apply list_elem_of_fmap in Hl as (y & -> & Hy).
    by apply (split_and_value (node_size y) y (Hs y Hy)).
Qed.

Lemma isSubsetOf_value fuel : forall a b, a ∈ conditions -> b ∈ conditions ->
  isSubsetOf_fuel sc fuel a b = true -> ev a = ev b.
Proof.
  induction fuel as [|fuel IH]; intros a b Ha Hb; cbn.
  - case (negb _); [done |]. by apply (equivalent_value V).
  - case (negb _); [done |].
    destruct (is_logical "||" a && is_logical "||" b) eqn:Eo; cbn;
      [| destruct (is_logical "&&" a && is_logical "&&" b) eqn:Ea; [| by apply (equivalent_value V)]];
      split_bools;
      destruct (get_node a "left") as [l|] eqn:E1; try done;
      destruct (get_node a "right") as [r|] eqn:E2; try done;
      destruct (get_node b "left") as [l'|] eqn:E3; try done;
      destruct (get_node b "right") as [r'|] eqn:E4; try done.
    + destruct (or_value V a l r) as (? & ? & ->); try done.
      destruct (or_value V b l' r') as (? & ? & ->); try done.
      intros [[G1 G2]%andb_true_iff|[G1 G2]%andb_true_iff]%orb_true_iff;
        apply IH in G1, G2; try done; rewrite G1, G2; [done | apply orb_comm].
    + destruct (and_value V a l r) as (? & ? & ->); try done.
      destruct (and_value V b l' r') as (? & ? & ->); try done.
      intros [[G1 G2]%andb_true_iff|[G1 G2]%andb_true_iff]%orb_true_iff;
        apply IH in G1, G2; try done; rewrite G1, G2; [done | apply andb_comm].
Qed.

(** A conjunction whose operands are all among those of another is implied by it. *)
Lemma isSubset_value first second :
  (forall x, x ∈ first -> x ∈ conditions) -> (forall x, x ∈ second -> x ∈ conditions) ->
  isSubset sc first second = true -> forallb ev second = true -> forallb ev first = true.
Proof.
  unfold isSubset. rewrite !forallb_forall. intros H1 H2 Hsub Hev x Hx.
  specialize (Hsub x Hx). apply existsb_exists in Hsub as (y & Hy & Hxy).
  rewrite (isSubsetOf_value (node_size x) x y); [by apply Hev | | | exact Hxy].
  - by apply H1, list_elem_of_In.
  - by apply H2, list_elem_of_In.
Qed.

(** The operands that a false condition covers are false. *)
Lemma uncovered_value covering ops :
  dnf_scope covering -> dnf_scope ops -> dnf_value covering = false ->
  let ops' := List.filter (fun o => negb (existsb (fun c => isSubset sc c o) covering)) ops in
  dnf_value ops' = dnf_value ops /\ dnf_scope ops'.
Proof.
  intros Hc Hs Hf. cbn zeta. split.
  - unfold dnf_value in *. induction ops as [|o ops IH]; [done |]. cbn.
    destruct (existsb (fun c => isSubset sc c o) covering) eqn:E; cbn.
    + rewrite IH by (intros l x H; apply Hs; by right).
      destruct (forallb ev o) eqn:Eo; [| done]. exfalso.
      apply existsb_exists in E as (c & Hin & Hsub).
      apply not_true_iff_false in Hf. apply Hf, existsb_exists. exists c. split; [done |].
      apply list_elem_of_In in Hin.
      apply (isSubset_value c o); [intros x; by apply Hc | intros x; by apply Hs; left | done..].
    + f_equal. apply IH. intros l x H. apply Hs. by right.
  - intros l x Hl. apply Hs. apply list_elem_of_In, filter_In in Hl as [Hl _].
    by apply list_elem_of_In.
Qed.

(** The statements of an [else if] chain above a statement, the nearest first. *)
Fixpoint else_if_chain (parents : list node) (current : node) : list node :=
  match parents with
  | parent :: rest =>
      if (type_of parent =s "IfStatement")
         && match get_node parent "alternate" with Some a => same_node a current | None => false end
      then parent :: else_if_chain rest parent
      else []
  | [] => []
  end.

(** The tests of statements are conditions; they are all false. *)
Definition tests_known (l : list node) : Prop :=
  forall s, s ∈ l -> exists t, get_node s "test" = Some t /\ t ∈ conditions.

Definition tests_false (l : list node) : Prop :=
  forall s t, s ∈ l -> get_node s "test" = Some t -> ev t = false.

Lemma covering_statement_value parents : forall current todo s,
  tests_known (else_if_chain parents current) ->
  (forall ops, ops ∈ todo -> dnf_scope ops) ->
  covering_statement sc parents current todo = Some s ->
  exists above below, else_if_chain parents current = above ++ s :: below /\
    (tests_false (above ++ [s]) -> exists ops, ops ∈ todo /\ dnf_value ops = false).
Proof.
  induction parents as [|p rest IH]; intros current todo s; [done |]. cbn.
  case (_ && _); [| done]. intros Hk Hs.
  destruct (Hk p) as (t & Et & Ht); [by left |].
  set (todo' := map _ todo).
  assert (forall ops', ops' ∈ todo' -> exists ops, ops ∈ todo /\
    dnf_scope ops' /\ (ev t = false -> dnf_value ops' = dnf_value ops)) as Htodo.
  { intros ops' (ops & -> & Hops)%list_elem_of_fmap. exists ops. split; [done |].
    unfold test_operands. rewrite Et. destruct (operands_value t Ht) as [Ev Sv].
    split; [| intros Hf; apply uncovered_value; [done | by apply Hs | by rewrite Ev]].
    intros l x Hl. apply (Hs _ Hops). apply list_elem_of_In, filter_In in Hl as [Hl _].
    by apply list_elem_of_In. }
  case_goal; intros Hc.
  - simplify_eq. exists [], (else_if_chain rest s). split; [done |]. intros Hf.
    apply existsb_exists in Heqb as (ops' & Hin & Hnil). destruct ops'; [| done].
    apply list_elem_of_In, Htodo in Hin as (ops & Hops & _ & Hv). exists ops. split; [done |].
    rewrite <- Hv; [done |]. apply (Hf s t); [by left | done].
  - destruct (IH p todo' s) as (above & below & E & Hv); [| | done |].
    + intros x Hx. apply Hk. by right.
    + intros ops' Hin. by destruct (Htodo ops' Hin) as (? & ? & ? & ?).
    + exists (p :: above), below. rewrite E. split; [done |]. intros Hf.
      destruct Hv as (ops' & Hin & Hfalse).
      { intros s' t' Hs'. apply Hf. by right. }
      destruct (Htodo ops' Hin) as (ops & Hops & _ & Hv). exists ops. split; [done |].
      rewrite <- Hv; [done |]. apply (Hf p t); [by left | done].
Qed.

(** Every condition to check is a consequence of the test. *)
Lemma conditions_to_check_value test c : test ∈ conditions ->
  c ∈ conditions_to_check test -> c ∈ conditions /\ (ev c = false -> ev test = false).
Proof.
  intros Ht. unfold conditions_to_check. destruct (is_logical "&&" test) eqn:E.
  - destruct (split_and_value (node_size test) test Ht) as [<- Hs].
    intros [->|Hc]%elem_of_cons; [| split; [by apply Hs |]].
    + split; [done |]. by destruct (split_and_value (node_size test) test Ht) as [-> _].
    + intros Hf. apply not_true_iff_false. rewrite forallb_forall. intros Hall.
      rewrite (Hall c) in Hf; [done |]. by apply list_elem_of_In.
  - intros ->%list_elem_of_singleton. done.
Qed.

(** C9: A condition that S1862 reports is never true when it is evaluated: it is the
    test of an [if] statement that is reached when the tests above it in the chain
    are false, and whatever the values of the operands (with [&&] and [||] as usual,
    and the same value for equivalent code), if the tests up to the one named in the
    report are false, so is the test reported. *)
Theorem covered_condition_never_true parents n d :
  tests_known (n :: else_if_chain parents n) ->
  S1862_IfStatement sc parents n = Some d ->
  get_node n "test" = Some (d_node d) /\
  exists above s below, else_if_chain parents n = above ++ s :: below /\
    get_node s "test" = Some (d_original d) /\
    (tests_false (above ++ [s]) -> ev (d_node d) = false).
Proof.
  intros Hk. unfold S1862_IfStatement.
  destruct (Hk n) as (t & Et & Ht); [by left |]. rewrite Et.
  destruct (covering_statement _ _ _ _) as [s|] eqn:E; [| done]. intros Hd.
  apply covering_statement_value in E as (above & below & Ec & Hv).
  - destruct (get_node s "test") as [o|] eqn:Eo; [| done]. simplify_eq/=. split; [done |].
    exists above, s, below. split; [done |]. split; [done |]. intros Hf.
    destruct (Hv Hf) as (ops & (c & -> & Hc)%list_elem_of_fmap & Hfalse).
    destruct (conditions_to_check_value t c Ht Hc) as [Hin Himp].
    apply Himp. by destruct (operands_value c Hin) as [<- _].
  - intros s' Hs'. apply Hk. by right.
  - intros ops (c & -> & Hc)%list_elem_of_fmap.
    apply operands_value. by apply (conditions_to_check_value t c Ht Hc).
Qed.

End Covered.

(** ** Equivalence of code *)

Section Relation.

Variable sc : SourceCode.

Lemma every2_Forall2 {A} (f : A -> A -> bool) l : forall l',
  every2 f l l' = true <-> Forall2 (fun x y => f x y = true) l l'.
Proof.
  induction l as [|x l IH]; intros [|y l']; cbn.
  - by split.
  - split; [done | by intros ?%Forall2_nil_cons_inv].
  - split; [done | by intros ?%Forall2_cons_nil_inv].
  - rewrite andb_true_iff, IH, Forall2_cons. done.
Qed.

Lemma compareTokens_values l l' : compareTokens l l' = true <-> t_value <$> l = t_value <$> l'.
Proof.
  unfold compareTokens. rewrite every2_Forall2. revert l'.
  induction l as [|x l IH]; intros [|y l']; cbn.
  - by split.
  - split; [by intros ?%Forall2_nil_cons_inv | done].
  - split; [by intros ?%Forall2_cons_nil_inv | done].
  - rewrite Forall2_cons, IH, String.eqb_eq. split; [by intros [-> ->] | by intros [= -> ->]].
Qed.

(** What two nodes have in common when they are equivalent. *)
Definition code_of (n : node) : string * list string := (type_of n, t_value <$> getTokens sc n).

Lemma equivalent_code a b : equivalent sc a b = true <-> code_of a = code_of b.
Proof.
  unfold equivalent, code_of. rewrite andb_true_iff, String.eqb_eq, compareTokens_values.
  split; [by intros [-> ->] | intros H; by injection H].
Qed.

Definition codes_of (n : nodes) : (string * list string) + list (string * list string) :=
  match n with One a => inl (code_of a) | Many l => inr (code_of <$> l) end.

Lemma areEquivalent_codes a b : areEquivalent sc a b = true <-> codes_of a = codes_of b.
Proof.
  destruct a as [a|l], b as [b|l']; cbn; [| done | done |].
  - rewrite equivalent_code. split; [by intros -> | by intros ?%(inj inl)].
  - rewrite every2_Forall2. split.
    + intros H. f_equal. induction H as [|x y ? ? E _ IH]; [done |]. cbn.
      apply equivalent_code in E. by rewrite E, IH.
    + intros H%(inj inr). revert l' H. induction l as [|x l IH]; intros [|y l']; [constructor | done | done |].
      intros [= E1 E2 E3]. constructor; [| by apply IH]. apply equivalent_code. unfold code_of. by f_equal.
Qed.

#[export] Instance equivalent_Equivalence : Equivalence (fun a b => equivalent sc a b = true).
Proof.
  split; intros ?; intros; rewrite ?equivalent_code in *; congruence.
Qed.

(** The branches are all the same when each is equivalent to the one before. *)
Lemma allDuplicated_iff branches :
  allDuplicated sc branches = true <->
  (2 <= length branches)%nat /\
  forall a b, a ∈ branches -> b ∈ branches -> areEquivalent sc a b = true.
Proof.
  destruct branches as [|a [|b rest]]; cbn; [split; [done | lia] | split; [done | lia] |].
  assert (forall l prev, same_as_previous sc prev l = true <->
    forall c, c ∈ l -> codes_of c = codes_of prev) as Hl.
  { induction l as [|c l IH]; intros prev; cbn; [split; [set_solver | done] |].
    rewrite andb_true_iff, areEquivalent_codes, IH. split.
    - intros [H1 H2] x [->|Hx]%elem_of_cons; [done |]. by rewrite (H2 x Hx).
    - intros H. split; [apply H; by left |]. intros x Hx.
      rewrite (H x), (H c); [done | by left | by right]. }
  rewrite andb_true_iff, areEquivalent_codes, Hl. split.
  - intros [E H]. split; [lia |].
    assert (forall x, x ∈ a :: b :: rest -> codes_of x = codes_of a) as Ha.
    { intros x [->|[->|Hx]%elem_of_cons]%elem_of_cons; [done | done | by rewrite H]. }
    intros x y Hx Hy. apply areEquivalent_codes. by rewrite (Ha x Hx), (Ha y Hy).
  - intros [_ H]. split.
    + apply areEquivalent_codes, H; [right; by left | by left].
    + intros x Hx. apply areEquivalent_codes, H; [by do 2 right | right; by left].
Qed.

(** *** The duplicated cases of a switch *)

Lemma find_snoc {A} (f : A -> bool) l x :
  List.find f (l ++ [x]) = match List.find f l with Some y => Some y | None => if f x then Some x else None end.
Proof. induction l as [|y l IH]; cbn; [done |]. by destruct (f y). Qed.

(** A duplicate adds nothing to what the tests so far are compared with. *)
Lemma duplicated_tests_at tests : forall previous before d,
  (forall x, List.find (equivalent sc x) previous = List.find (equivalent sc x) before) ->
  (d ∈ duplicated_tests sc previous tests <->
   exists l t r o, tests = l ++ t :: r /\ List.find (equivalent sc t) (before ++ l) = Some o /\ d = duplicate t o).
Proof.
  induction tests as [|t tests IH]; intros previous before d Hp; cbn.
  { split; [set_solver |]. intros ([|? ?] & ? & ? & ? & ? & _); done. }
  assert (forall p', (forall x, List.find (equivalent sc x) p' = List.find (equivalent sc x) (before ++ [t])) ->
    (d ∈ duplicated_tests sc p' tests <->
     exists l t' r o, t :: tests = (t :: l) ++ t' :: r /\
       List.find (equivalent sc t') (before ++ t :: l) = Some o /\ d = duplicate t' o)) as Hrest.
  { intros p' Hp'. rewrite (IH p' (before ++ [t]) d Hp'). split.
    - intros (l & t' & r & o & -> & Hf & ->). exists l, t', r, o. split; [done |]. split; [| done].
      by rewrite cons_middle, (assoc_L (++)).
    - intros (l & t' & r & o & [= ->] & Hf & ->). exists l, t', r, o.
      split; [done |]. split; [| done].
      by rewrite <- (assoc_L (++)), <- cons_middle. }
  assert (forall P : Prop, (exists l t' r o, t :: tests = l ++ t' :: r /\
      List.find (equivalent sc t') (before ++ l) = Some o /\ d = duplicate t' o) <->
    (exists o, List.find (equivalent sc t) before = Some o /\ d = duplicate t o) \/
    (exists l t' r o, t :: tests = (t :: l) ++ t' :: r /\
       List.find (equivalent sc t') (before ++ t :: l) = Some o /\ d = duplicate t' o)) as Hsplit.
  { intros _. split.
    - intros ([|x l] & t' & r & o & E & Hf & ->).
      + left. rewrite app_nil_r in Hf. simplify_eq/=. eauto.
      + right. simplify_eq/=. exists l, t', r, o. done.
    - intros [(o & Hf & ->)|(l & t' & r & o & E & Hf & ->)].
      + exists [], t, tests, o. by rewrite app_nil_r.
      + exists (t :: l), t', r, o. done. }
  rewrite (Hsplit True), Hp. destruct (List.find (equivalent sc t) before) as [o|] eqn:Ef.
  - rewrite elem_of_cons, (Hrest previous); [naive_solver |].
    intros x. rewrite Hp, find_snoc. destruct (List.find (equivalent sc x) before) eqn:Ex; [done |].
    destruct (equivalent sc x t) eqn:Ext; [| done]. exfalso.
    apply find_some in Ef as [Hin Hto]. pose proof (find_none _ _ Ex o Hin) as Hno. cbn in Hno.
    apply not_true_iff_false in Hno. apply Hno.
    apply equivalent_code in Ext, Hto. apply equivalent_code. congruence.
  - rewrite (Hrest (previous ++ [t])); [naive_solver |].
    intros x. by rewrite !find_snoc, Hp.
Qed.

Lemma find_first {A} (f : A -> bool) l x :
  List.find f l = Some x <->
  exists i, l !! i = Some x /\ f x = true /\ forall j y, (j < i)%nat -> l !! j = Some y -> f y = false.
Proof.
  induction l as [|a l IH]; cbn.
  { split; [done | intros (i & H & _); done]. }
  destruct (f a) eqn:E.
  - split.
    + intros [= ->]. exists 0%nat. split; [done |]. split; [done | lia].
    + intros ([|i] & H & Hf & Hbefore); [by simplify_eq/= |].
      specialize (Hbefore 0%nat a). rewrite E in Hbefore. by discriminate Hbefore; [lia |].
  - rewrite IH. split.
    + intros (i & H & Hf & Hb). exists (S i). split; [done |]. split; [done |].
      intros [|j] y Hj Hy; [by simplify_eq/= |]. apply (Hb j); [lia | done].
    + intros ([|i] & H & Hf & Hb); [simplify_eq/=; congruence |]. exists i. split; [done |]. split; [done |].
      intros j y Hj. apply (Hb (S j)). lia.
Qed.

Definition case_tests (n : node) : list node := omap (fun c => get_node c "test") (get_nodes n "cases").

(** S1862 reports exactly the cases of a [switch] whose test is equivalent to
    the test of an earlier case, each once, with the first such case as the
    original, although the rule compares a test only with those that are no
    duplicates themselves. *)
Theorem duplicated_cases_reported_iff n d :
  d ∈ S1862_SwitchStatement sc n <->
  exists i j t o, (i < j)%nat /\ case_tests n !! j = Some t /\ case_tests n !! i = Some o
    /\ equivalent sc t o = true
    /\ (forall k u, (k < i)%nat -> case_tests n !! k = Some u -> equivalent sc t u = false)
    /\ d = duplicate t o.
Proof.
  unfold S1862_SwitchStatement. fold (case_tests n). rewrite (duplicated_tests_at _ [] [] d) by done.
  split.
  - intros (l & t & r & o & E & Hf & ->). apply find_first in Hf as (i & Hi & Ht & Hfirst).
    assert (i < length l)%nat as Hlt by (by apply lookup_lt_Some in Hi).
    exists i, (length l), t, o. rewrite E. split; [done |].
    split; [by apply list_lookup_middle |]. split; [by rewrite lookup_app_l |].
    split; [done |]. split; [| done]. intros k u Hk. rewrite lookup_app_l by lia. by apply Hfirst.
  - intros (i & j & t & o & Hij & Hj & Hi & Ht & Hfirst & ->).
    exists (take j (case_tests n)), t, (drop (S j) (case_tests n)), o.
    split; [by rewrite take_drop_middle |]. split; [| done]. cbn. apply find_first. exists i.
    rewrite lookup_take_lt by done. split; [done |]. split; [done |].
    intros k u Hk. rewrite lookup_take_lt by lia. by apply Hfirst.
Qed.

End Relation.

(** ** Examples and witnesses *)

Module DuplicatesExample.

Definition mk (i : nat) (type : string) (props : list (string * value)) : node :=
  let at_line := mkPos (Z.of_nat i) 0 in
  Node (mkHeader i type (Some (mkLoc at_line at_line)) None) props.

Definition ident (i : nat) (name : string) : node := mk i "Identifier" [("name", VStr name)].

Definition logical (i : nat) (operator : string) (l r : node) : node :=
  mk i "LogicalExpression" [("operator", VStr operator); ("left", VNode l); ("right", VNode r)].

Definition token (text : string) : Token :=
  let nowhere := mkLoc (mkPos 0 0) (mkPos 0 0) in mkToken "" text nowhere (0, 0)%Z.

Fixpoint tokens (fuel : nat) (n : node) : list Token :=
  match fuel with
  | O => []
  | S fuel' =>
      let below k := match get_node n k with Some c => tokens fuel' c | None => [] end in
      below "left" ++ option_list (token <$> get_str n "operator")
      ++ option_list (token <$> get_str n "name") ++ below "right"
  end.

Definition source : SourceCode :=
  mkSourceCode (mk 0 "Program" []) [] [] None (fun _ => None) (tokens 10)
    (fun _ => None) (fun _ => None) (fun _ => []) (fun _ => mkPos 0 0) (fun _ => None).

Definition block (i : nat) : node := mk i "BlockStatement" [("body", VArr [])].

Definition if_ (i : nat) (test consequent : node) (alternate : value) : node :=
  mk i "IfStatement" [("test", VNode test); ("consequent", VNode consequent); ("alternate", alternate)].

(** [if (a || b) {} else if (c) {} else if (x && b) {}] *)
Definition a_or_b : node := logical 10 "||" (ident 11 "a") (ident 12 "b").
Definition c : node := ident 20 "c".
Definition x_and_b : node := logical 30 "&&" (ident 31 "x") (ident 32 "b").
Definition third : node := if_ 3 x_and_b (block 6) VNull.
Definition second : node := if_ 2 c (block 5) (VNode third).
Definition first : node := if_ 1 a_or_b (block 4) (VNode second).

Definition conditions : list node :=
  [a_or_b; ident 11 "a"; ident 12 "b"; c; x_and_b; ident 31 "x"; ident 32 "b"].

(** [x] is true and the other variables are false. *)
Definition ev (n : node) : bool := match get_str n "name" with Some v => v =s "x" | None => false end.

(** [switch (x) { case a: case b: case a: case a: }] *)
Definition case_ (i : nat) (name : string) : node :=
  mk i "SwitchCase" [("test", VNode (ident (i + 1) name)); ("consequent", VArr [])].

Definition switch : node :=
  mk 50 "SwitchStatement"
    [("cases", VArr (map VNode [case_ 51 "a"; case_ 53 "b"; case_ 55 "a"; case_ 57 "a"]))].

(** [if (a) if (b) {} else {}] *)
Definition inner : node := if_ 61 (ident 62 "b") (block 63) (VNode (block 64)).
Definition outer : node := if_ 60 (ident 65 "a") inner VNull.

Lemma valuation : Valuation source conditions ev.
Proof.
  split.
  - intros n l r Hn. revert n Hn l r. refine (proj1 (Forall_forall _ _) _).
    unfold conditions; repeat first [apply Forall_nil_2 | apply Forall_cons_2]; intros l r; cbn; try done.
    intros _ [= <-] [= <-]. split; [set_solver | split; [set_solver | done]].
  - intros n l r Hn. revert n Hn l r. refine (proj1 (Forall_forall _ _) _).
    unfold conditions; repeat first [apply Forall_nil_2 | apply Forall_cons_2]; intros l r; cbn; try done.
    intros _ [= <-] [= <-]. split; [set_solver | split; [set_solver | done]].
  - intros n n' Hn Hn'. revert n' Hn'. refine (proj1 (Forall_forall _ _) _).
    assert (Forall (fun n => Forall (fun n' => equivalent source n n' = true -> ev n = ev n') conditions) conditions) as H.
    { unfold conditions. repeat first [apply Forall_nil_2 | apply Forall_cons_2]; by vm_compute. }
    exact (proj1 (Forall_forall _ _) H n Hn).
Qed.

End DuplicatesExample.

(** An [if] that is the consequent of another, without braces, is taken for an
    [else if]: its two equal branches are not reported, although no chain covers
    them. *)
Lemma consequent_if_skipped :
  S3923_IfStatement DuplicatesExample.source None DuplicatesExample.inner = true /\
  S3923_IfStatement DuplicatesExample.source (Some DuplicatesExample.outer) DuplicatesExample.inner = false /\
  S3923_IfStatement DuplicatesExample.source None DuplicatesExample.outer = false.
Proof. by repeat split. Qed.

Lemma covered_condition_never_true_witness :
  let d := duplicate DuplicatesExample.x_and_b DuplicatesExample.a_or_b in
  let above := [DuplicatesExample.second; DuplicatesExample.first] in
  S1862_IfStatement DuplicatesExample.source above DuplicatesExample.third = Some d
  /\ d_line d = Some 10%Z
  /\ DuplicatesExample.ev (d_node d) = false.
Proof.
  cbn zeta. split; [by vm_compute |]. split; [done |].
  destruct (covered_condition_never_true DuplicatesExample.source DuplicatesExample.conditions
    DuplicatesExample.ev DuplicatesExample.valuation
    [DuplicatesExample.second; DuplicatesExample.first] DuplicatesExample.third
    (duplicate DuplicatesExample.x_and_b DuplicatesExample.a_or_b))
    as (_ & above & s & below & E & _ & Hf).
  - refine (proj1 (Forall_forall _ _) _). cbn.
    repeat first [apply Forall_nil_2 | apply Forall_cons_2]; eexists; (split; [reflexivity |]);
      repeat first [by apply list_elem_of_here | apply list_elem_of_further].
  - by vm_compute.
  - apply Hf. intros s' t Hs' Ht.
    assert (Forall (fun s => forall t, get_node s "test" = Some t -> DuplicatesExample.ev t = false)
      (above ++ [s])) as Hall.
    { assert (Forall (fun s => forall t, get_node s "test" = Some t -> DuplicatesExample.ev t = false)
        (above ++ s :: below)) as H.
      { rewrite <- E. repeat first [apply Forall_nil_2 | apply Forall_cons_2]; cbn; by intros ? [= <-]. }
      rewrite cons_middle, (assoc_L (++)) in H. by apply Forall_app in H as [H _]. }
    exact (proj1 (Forall_forall _ _) Hall s' Hs' t Ht).
Defined.

Lemma duplicated_cases_reported_iff_witness :
  let tests := case_tests DuplicatesExample.switch in
  exists j t i o, tests !! j = Some t /\ tests !! i = Some o /\ j = 3%nat /\ i = 0%nat
    /\ duplicate t o ∈ S1862_SwitchStatement DuplicatesExample.source DuplicatesExample.switch.
Proof.
  exists 3%nat, (DuplicatesExample.ident 58 "a"), 0%nat, (DuplicatesExample.ident 52 "a").
  split; [done |]. split; [done |]. split; [done |]. split; [done |].
  apply duplicated_cases_reported_iff. exists 0%nat, 3%nat. do 2 eexists.
  split; [lia |]. split; [reflexivity |]. split; [reflexivity |]. split; [by vm_compute |].
  split; [| done]. intros k u Hk. lia.
Defined.
