(* ===== verification/Modules.v ===== *)
(** * Modules: the fully qualified names of imported values

    The code of [rules/helpers/module.ts], which most rules on libraries use: from
    an expression to the name, in the module it comes from, of the value it denotes.
    The array of qualifiers that the code extends in place is a list that each
    function returns; the array of visited variables is only extended on the way
    down. *)

From Stdlib Require Import ZArith Lia Ascii.
From stdpp Require Import base list sets strings.
From S2P Require Import Prelude JsString Estree Ast.

Open Scope js_scope.

Section Modules.

Variable sm : ScopeManager.

(** ** Imports and calls of [require] *)

Definition getImportDeclarations (program : node) : list node :=
  if str_prop_is program "sourceType" "module"
  then List.filter (fun n => type_of n =s "ImportDeclaration") (get_nodes program "body")
  else [].

Definition isRequire (n : node) : bool :=
  (type_of n =s "CallExpression")
  && opt_type_is (get_node n "callee") "Identifier"
  && match get_node n "callee" with Some c => str_prop_is c "name" "require" | None => false end
  && Nat.eqb (length (get_array n "arguments")) 1.

Definition require_of (def : Def) : list node :=
  if def_type def =s "Variable" then
    match get_node (def_node def) "init" with
    | Some init =>
        if isRequire init then [init]
        else if type_of init =s "MemberExpression" then
          match get_node init "object" with
          | Some object => if isRequire object then [object] else []
          | None => []
          end
        else []
    | None => []
    end
  else [].

Definition getRequireCalls : list node :=
  flat_map (fun scope =>
    flat_map (fun variable => flat_map require_of (var_defs variable))
      (omap (variable_at sm) (sco_variables scope)))
    (sm_scopes sm).

Definition getModuleNameFromRequire (n : node) : option node :=
  if isRequire n then
    match get_array n "arguments" with
    | VNode moduleName :: _ => if type_of moduleName =s "Literal" then Some moduleName else None
    | _ => None
    end
  else None.

(** [getModuleNameFromRequire(node)?.value], when it is a string. *)
Definition required_module (n : node) : option string :=
  m ← getModuleNameFromRequire n; get_str m "value".

(** ** From an expression to its root *)

Definition property_names (property : node) : list string :=
  if (type_of property =s "Literal") && match get_str property "value" with Some _ => true | None => false end
  then option_list (get_str property "value")
  else if type_of property =s "Identifier" then [node_name property] else [].

(** The body of the loop of [reduceTo]: the names it adds in front of the
    qualifiers, and the next node. *)
Definition inner (n : node) : option (list string * node) :=
  let to names key := (fun n' => (names, n')) <$> get_node n key in
  if type_of n =s "MemberExpression" then
    to match get_node n "property" with Some p => property_names p | None => [] end "object"
  else if (type_of n =s "CallExpression")
          && match getModuleNameFromRequire n with Some _ => false | None => true end then to [] "callee"
  else if type_of n =s "NewExpression" then to [] "callee"
  else if type_of n =s "ChainExpression" then to [] "expression"
  else if type_of n =s "TSNonNullExpression" then to [] "expression"
  else if type_of n =s "TSQualifiedName" then
    to match get_node n "right" with Some r => [node_name r] | None => [] end "left"
  else None.

(** Each turn goes to a smaller node: [node_size] turns are enough. *)
Fixpoint reduceTo_fuel (fuel : nat) (type : string) (n : node) (fqn : list string) : node * list string :=
  match fuel with
  | O => (n, fqn)
  | S fuel' =>
      if type_of n =s type then (n, fqn)
      else match inner n with
           | Some (names, n') => reduceTo_fuel fuel' type n' (names ++ fqn)
           | None => (n, fqn)
           end
  end.

Definition reduceTo (type : string) (n : node) (fqn : list string) : node * list string :=
  reduceTo_fuel (node_size n) type n fqn.

Definition reduceToIdentifier (n : node) (fqn : list string) : node * list string :=
  reduceTo "Identifier" n fqn.

(** ** Fully qualified names *)

Definition join_names (fqn : list string) : string := join_with "." fqn.

(** Calls chained on a [require]: the name when there is one. *)
Definition require_chain (n : node) : option string :=
  if type_of n =s "CallExpression" then
    match get_node n "callee" with
    | Some callee =>
        let (maybeRequire, qualifiers) := reduceTo "CallExpression" callee [] in
        (fun m => join_names (m :: qualifiers)) <$> required_module maybeRequire
    | None => None
    end
  else None.

(** The name an import specifier adds. *)
Definition imported_names (specifier : node) : list string :=
  if type_of specifier =s "ImportSpecifier" then
    match get_node specifier "imported" with
    | Some imported =>
        if (type_of imported =s "Identifier") && negb (str_prop_is imported "name" "default")
        then [node_name imported] else []
    | None => []
    end
  else [].

(** The names a pattern adds: the keys whose value is the variable. *)
Definition destructured_names (definition : Def) : list string :=
  match get_node (def_node definition) "id" with
  | Some id =>
      if type_of id =s "ObjectPattern" then
        fold_left (fun fqn property =>
          match get_node property "value" with
          | Some v => if same_node v (def_name definition)
                      then match get_node property "key" with Some k => node_name k :: fqn | None => "" :: fqn end
                      else fqn
          | None => fqn
          end) (get_nodes id "properties") []
      else []
  | None => []
  end.

(** The module of [import s3 = require('...')]. *)
Definition external_module (importedModule : node) : option string :=
  if type_of importedModule =s "TSExternalModuleReference" then
    match get_node importedModule "expression" with
    | Some e => if type_of e =s "Literal" then get_str e "value" else None
    | None => None
    end
  else None.

(** [None] is running out of fuel, [Some None] is [null]. *)
Definition answer := option (option string).

(** The recursive calls, given the fuel left: the node, its qualifiers, the scope
    and the variables visited. *)
Definition recursive := node -> list string -> option ScopeId -> list VarId -> answer.

Definition checkFqnFromImport (raw : recursive) (variable : VarId) (scope : ScopeId) (definition : Def)
    (fqn : list string) (visitedVars : list VarId) : answer :=
  if def_type definition =s "ImportBinding" then
    let fqn := imported_names (def_node definition) ++ fqn in
    match def_parent definition with
    | Some importDeclaration =>
        match (source ← get_node importDeclaration "source"; get_str source "value") with
        | Some source => Some (Some (join_names (split_char "/"%char source ++ fqn)))
        | None =>
            if type_of importDeclaration =s "TSImportEqualsDeclaration" then
              match get_node importDeclaration "moduleReference" with
              | Some importedModule =>
                  match external_module importedModule with
                  | Some source => Some (Some (join_names (split_char "/"%char source ++ fqn)))
                  | None =>
                      if type_of importedModule =s "TSQualifiedName"
                      then raw importedModule fqn (Some scope) (visitedVars ++ [variable])
                      else Some None
                  end
              | None => Some None
              end
            else Some None
        end
    | None => Some None
    end
  else Some None.

Definition checkFqnFromRequire (raw : recursive) (variable : VarId) (scope : ScopeId) (definition : Def)
    (fqn : list string) (visitedVars : list VarId) : answer :=
  match getUniqueWriteReference sm (Some variable) with
  | Some value =>
      if def_type definition =s "Variable" then
        let (nodeToCheck, fqn) := reduceTo "CallExpression" value (destructured_names definition ++ fqn) in
        match required_module nodeToCheck with
        | Some m => Some (Some (join_names (split_char "/"%char m ++ fqn)))
        | None => raw nodeToCheck fqn (Some scope) (visitedVars ++ [variable])
        end
      else Some None
  | None => Some None
  end.

Fixpoint getFullyQualifiedNameRaw (fuel : nat) (n : node) (fqn : list string) (scope : option ScopeId)
    (visitedVars : list VarId) : answer :=
  match fuel with
  | O => None
  | S fuel' =>
      let (nodeToCheck, fqn) := reduceToIdentifier n fqn in
      if negb (isIdentifier (Some nodeToCheck) []) then Some (require_chain n)
      else
        let scope := match scope with Some s => Some s | None => sm_getScope sm n end in
        match getVariableFromScope sm scope (node_name nodeToCheck) with
        | None => Some None
        | Some variable =>
            match variable_at sm variable with
            | None => Some None
            | Some v =>
                if Nat.ltb 1 (length (var_defs v)) then Some None
                else if bool_decide (var_writeable v = Some false) || bool_decide (variable ∈ visitedVars)
                then Some (Some (join_names (node_name nodeToCheck :: fqn)))
                else
                  match List.find (fun d => includes (def_type d) ["ImportBinding"; "Variable"]) (var_defs v) with
                  | None => Some None
                  | Some definition =>
                      let raw := getFullyQualifiedNameRaw fuel' in
                      match checkFqnFromImport raw variable (var_scope v) definition fqn visitedVars with
                      | Some None => checkFqnFromRequire raw variable (var_scope v) definition fqn visitedVars
                      | r => r
                      end
                  end
            end
        end
  end.

Definition removeNodePrefixIfExists (fqn : string) : string := default fqn (strip_prefix "node:" fqn).

(** A turn per variable is enough, since none is visited twice, and one more. *)
Definition fqn_fuel : nat := S (length (sm_variables sm)).

Definition getFullyQualifiedName (n : node) (fqn : list string) (scope : option ScopeId) : answer :=
  option_map (option_map removeNodePrefixIfExists) (getFullyQualifiedNameRaw fqn_fuel n fqn scope []).

End Modules.

(** ** The reduction to a root *)

Section Reduction.

Lemma inner_size n names n' : inner n = Some (names, n') -> (node_size n' < node_size n)%nat.
Proof.
  unfold inner. intros H.
  assert (exists key, get_node n key = Some n') as (key & E).
  { repeat match goal with G : context [if ?b then _ else _] |- _ => destruct b end;
      try done; apply fmap_Some in H as (x & E & [= _ <-]); by eexists. }
  unfold get_node in E. pose proof (get_size n key) as Hs. destruct (get n key); try done.
  by simplify_eq.
Qed.

Lemma inner_identifier n : type_of n = "Identifier" -> inner n = None.
Proof. unfold inner. by intros ->. Qed.

Lemma reduceTo_fuel_enough type : forall fuel fuel' n fqn,
  (node_size n <= fuel)%nat -> (node_size n <= fuel')%nat ->
  reduceTo_fuel fuel type n fqn = reduceTo_fuel fuel' type n fqn.
Proof.
  induction fuel as [|fuel IH]; intros [|fuel'] n fqn H H'; cbn;
    try (pose proof (node_size_pos n); lia).
  destruct (type_of n =s type); [done |].
  destruct (inner n) as [[names n']|] eqn:E; [| done].
  apply inner_size in E. apply IH; lia.
Qed.

Lemma reduceTo_unfold type n fqn :
  reduceTo type n fqn =
    if type_of n =s type then (n, fqn)
    else match inner n with
         | Some (names, n') => reduceTo type n' (names ++ fqn)
         | None => (n, fqn)
         end.
Proof.
  unfold reduceTo. pose proof (node_size_pos n) as P. destruct (node_size n) as [|k] eqn:E; [lia |]. cbn.
  destruct (type_of n =s type); [done |]. destruct (inner n) as [[names n']|] eqn:Ei; [| done].
  apply inner_size in Ei. apply reduceTo_fuel_enough; lia.
Qed.

(** Induction along the reduction of a node. *)
Lemma inner_ind (P : node -> Prop) :
  (forall n, (forall names n', inner n = Some (names, n') -> P n') -> P n) -> forall n, P n.
Proof.
  intros H n. remember (node_size n) as k eqn:E. revert n E.
  induction k as [k IH] using lt_wf_ind. intros n ->. apply H. intros names n' E.
  apply inner_size in E. by apply (IH (node_size n')).
Qed.

(** The names found are put before the qualifiers given. *)
Lemma reduceTo_app type n : forall fqn fqn',
  reduceTo type n (fqn ++ fqn') = ((reduceTo type n fqn).1, (reduceTo type n fqn).2 ++ fqn').
Proof.
  induction n as [n IH] using inner_ind. intros fqn fqn'. rewrite !reduceTo_unfold.
  destruct (type_of n =s type); [done |]. destruct (inner n) as [[names n']|] eqn:E; [| done].
  rewrite (assoc_L (++)). by apply (IH names).
Qed.

Definition root (n : node) : node := (reduceToIdentifier n []).1.
Definition names (n : node) : list string := (reduceToIdentifier n []).2.

Lemma reduceToIdentifier_eq n fqn : reduceToIdentifier n fqn = (root n, names n ++ fqn).
Proof. exact (reduceTo_app "Identifier" n [] fqn). Qed.

Lemma root_inner n l n' : inner n = Some (l, n') -> root n = root n' /\ names n = names n' ++ l.
Proof.
  intros E. unfold root, names, reduceToIdentifier. rewrite (reduceTo_unfold _ n).
  destruct (String.eqb_spec (type_of n) "Identifier") as [T|_].
  - by rewrite inner_identifier in E.
  - rewrite E, app_nil_r. pose proof (reduceTo_app "Identifier" n' [] l) as A. cbn in A. by rewrite A.
Qed.

Lemma root_none n : inner n = None -> root n = n /\ names n = [].
Proof.
  intros E. unfold root, names, reduceToIdentifier. rewrite (reduceTo_unfold _ n), E.
  by destruct (type_of n =s "Identifier").
Qed.

(** Reducing to a call first does not change where an expression leads. *)
Lemma root_call n : forall fqn,
  let '(c, q) := reduceTo "CallExpression" n fqn in root c = root n /\ names c ++ q = names n ++ fqn.
Proof.
  induction n as [n IH] using inner_ind. intros fqn. rewrite reduceTo_unfold.
  destruct (type_of n =s "CallExpression"); [done |].
  destruct (inner n) as [[l n']|] eqn:E; [| done].
  specialize (IH l n' eq_refl (l ++ fqn)). destruct (reduceTo _ n' _) as [c q].
  destruct (root_inner n l n' E) as [-> ->]. by rewrite <- (assoc_L (++)).
Qed.

Lemma required_module_type n m :
  required_module n = Some m -> type_of n = "CallExpression" /\ inner n = None.
Proof.
  unfold required_module. intros (x & E & _)%bind_Some.
  assert (type_of n = "CallExpression") as T.
  { revert E. unfold getModuleNameFromRequire, isRequire.
    destruct (String.eqb_spec (type_of n) "CallExpression"); [done | cbn; done]. }
  split; [done |]. unfold inner. by rewrite T, E.
Qed.

(** A chain of calls on a [require] has it for root. *)
Lemma require_chain_root n s : require_chain n = Some s -> exists m, required_module (root n) = Some m.
Proof.
  unfold require_chain. destruct (String.eqb_spec (type_of n) "CallExpression") as [T|]; [| done].
  destruct (get_node n "callee") as [c|] eqn:Ec; [| done].
  pose proof (root_call c []) as Hr. destruct (reduceTo "CallExpression" c []) as [r q] eqn:Er.
  destruct (required_module r) as [m|] eqn:Em; [| done]. intros _. exists m.
  destruct (required_module_type r m Em) as [_ Hi]. destruct (root_none r Hi) as [Hroot _].
  destruct (getModuleNameFromRequire n) as [x|] eqn:Ex.
  - exfalso. revert Ex. unfold getModuleNameFromRequire, isRequire. rewrite T, Ec. cbn.
    destruct (String.eqb_spec (type_of c) "Identifier") as [Tc|]; [| done].
    rewrite reduceTo_unfold, inner_identifier in Er by done.
    destruct (type_of c =s _); injection Er as <- <-;
      apply required_module_type in Em as [Tr _]; congruence.
  - assert (inner n = Some ([], c)) as Hn by (unfold inner; rewrite T, Ex; cbn; by rewrite Ec).
    destruct (root_inner n [] c Hn) as [-> _]. destruct Hr as [<- _]. by rewrite Hroot.
Qed.

End Reduction.

(** ** The search ends *)

Section Ends.

Variable sm : ScopeManager.

Notation raw := (getFullyQualifiedNameRaw sm).

(** What the recursive calls are made on: a variable more is visited. *)
Lemma checks_extend (P : answer -> Prop) (call : recursive) variable scope definition fqn visitedVars :
  (forall a, P (Some a)) ->
  (forall n fqn s, P (call n fqn s (visitedVars ++ [variable]))) ->
  P (checkFqnFromImport call variable scope definition fqn visitedVars) /\
  P (checkFqnFromRequire sm call variable scope definition fqn visitedVars).
Proof.
  intros H0 H1. unfold checkFqnFromImport, checkFqnFromRequire.
  split; repeat case_goal; auto.
Qed.

Lemma variable_at_lt v x : variable_at sm v = Some x -> (v < length (sm_variables sm))%nat.
Proof. apply lookup_lt_Some. Qed.

Lemma visited_bound visitedVars :
  NoDup visitedVars -> Forall (fun v => v < length (sm_variables sm))%nat visitedVars ->
  (length visitedVars <= length (sm_variables sm))%nat.
Proof.
  intros D F. transitivity (length (seq 0 (length (sm_variables sm)))); [| by rewrite length_seq].
  apply submseteq_length, NoDup_submseteq; [done |]. intros v Hv. apply elem_of_seq.
  rewrite Forall_forall in F. specialize (F v Hv). lia.
Qed.

Lemma raw_ends fuel : forall n fqn scope visitedVars,
  NoDup visitedVars -> Forall (fun v => v < length (sm_variables sm))%nat visitedVars ->
  (length (sm_variables sm) < fuel + length visitedVars)%nat ->
  raw fuel n fqn scope visitedVars <> None.
Proof.
  induction fuel as [|fuel IH]; intros n fqn scope visitedVars D F L.
  { pose proof (visited_bound visitedVars D F). lia. }
  cbn [getFullyQualifiedNameRaw]. destruct (reduceToIdentifier n fqn) as [id q].
  destruct (negb _); [done |]. destruct (getVariableFromScope _ _ _) as [v|]; [| done].
  destruct (variable_at sm v) as [x|] eqn:Ex; [| done].
  destruct (Nat.ltb 1 (length (var_defs x))); [done |].
  match goal with |- context [if ?b then _ else _] => destruct b eqn:Ev end; [done |].
  apply orb_false_iff in Ev as [_ Ev%bool_decide_eq_false].
  destruct (List.find _ _) as [d|]; [| done].
  destruct (checks_extend (fun a => a <> None) (raw fuel) v (var_scope x) d q visitedVars) as [Hi Hr];
    [done | | by repeat case_goal].
  intros n' q' s. apply IH.
  - apply NoDup_app. split; [done |]. split; [set_solver | apply NoDup_singleton].
  - apply Forall_app_2; [done |]. apply Forall_singleton. by eapply variable_at_lt.
  - rewrite length_app. cbn. unfold VarId in *. lia.
Qed.

(** More fuel does not change an answer. *)
Definition below (a a' : answer) : Prop := a = None \/ a = a'.

Lemma checks_below call call' variable scope definition fqn visitedVars :
  (forall n fqn s vs, below (call n fqn s vs) (call' n fqn s vs)) ->
  below (checkFqnFromImport call variable scope definition fqn visitedVars)
        (checkFqnFromImport call' variable scope definition fqn visitedVars) /\
  below (checkFqnFromRequire sm call variable scope definition fqn visitedVars)
        (checkFqnFromRequire sm call' variable scope definition fqn visitedVars).
Proof.
  intros H. unfold checkFqnFromImport, checkFqnFromRequire.
  split; repeat case_goal; try (by right); apply H.
Qed.

Lemma raw_below fuel : forall fuel' n fqn scope visitedVars, (fuel <= fuel')%nat ->
  below (raw fuel n fqn scope visitedVars) (raw fuel' n fqn scope visitedVars).
Proof.
  induction fuel as [|fuel IH]; intros [|fuel'] n fqn scope visitedVars L; try (by left); [lia |].
  cbn [getFullyQualifiedNameRaw].
  destruct (reduceToIdentifier n fqn) as [id q].
  destruct (negb _); [by right |]. destruct (getVariableFromScope _ _ _) as [v|]; [| by right].
  destruct (variable_at sm v) as [x|]; [| by right]. destruct (Nat.ltb 1 (length (var_defs x))); [by right |].
  destruct (bool_decide _ || _); [by right |]. destruct (List.find _ _) as [d|]; [| by right].
  destruct (checks_below (raw fuel) (raw fuel') v (var_scope x) d q visitedVars) as [Hi Hr].
  { intros. apply IH. lia. }
  destruct Hi as [-> | ->]; [by left |]. by case_goal; [case_goal; [right | exact Hr] | right].
Qed.

(** C11: The search of a fully qualified name ends, also when variables are defined
    by one another in a cycle, and the number of variables is enough fuel: with any
    more, the answer is the same. *)
Theorem qualified_names_end n fqn scope :
  exists name, forall fuel, (fqn_fuel sm <= fuel)%nat -> raw fuel n fqn scope [] = Some name.
Proof.
  pose proof (raw_ends (fqn_fuel sm) n fqn scope []) as H.
  destruct (raw (fqn_fuel sm) n fqn scope []) as [name|] eqn:E.
  - exists name. intros fuel L. destruct (raw_below _ _ n fqn scope [] L) as [G|G]; congruence.
  - exfalso. apply H; [apply NoDup_nil_2 | apply Forall_nil_2 | unfold fqn_fuel; cbn; lia | done].
Qed.

End Ends.

(** ** What a fully qualified name is *)

Section Denotes.

Variable sm : ScopeManager.

(** The call [require(path)]. *)
Definition calls_require (n path : node) : Prop :=
  type_of n = "CallExpression"
  /\ (exists callee, get_node n "callee" = Some callee /\ type_of callee = "Identifier"
                     /\ get_str callee "name" = Some "require")
  /\ get_array n "arguments" = [VNode path] /\ type_of path = "Literal".

(** [access e l o]: the expression [e] is built on [o], and adds the names [l]:
    [o.name], [o\['name'\]], a call, a [new], an optional chain, [o!], and [o.name]
    in a type. *)
Inductive access : node -> list string -> node -> Prop :=
| access_member e o p name :
    type_of e = "MemberExpression" -> get_node e "object" = Some o -> get_node e "property" = Some p ->
    get_flag e "computed" = false -> type_of p = "Identifier" -> get_str p "name" = Some name ->
    access e [name] o
| access_key e o p name :
    type_of e = "MemberExpression" -> get_node e "object" = Some o -> get_node e "property" = Some p ->
    type_of p = "Literal" -> get_str p "value" = Some name ->
    access e [name] o
| access_call e o :
    type_of e = "CallExpression" -> (forall path, ~ calls_require e path) -> get_node e "callee" = Some o ->
    access e [] o
| access_new e o : type_of e = "NewExpression" -> get_node e "callee" = Some o -> access e [] o
| access_chain e o : type_of e = "ChainExpression" -> get_node e "expression" = Some o -> access e [] o
| access_non_null e o :
    type_of e = "TSNonNullExpression" -> get_node e "expression" = Some o -> access e [] o
| access_qualified e o r name :
    type_of e = "TSQualifiedName" -> get_node e "left" = Some o -> get_node e "right" = Some r ->
    get_str r "name" = Some name ->
    access e [name] o.

(** An expression that is not built on another one in these ways. *)
Definition simple (n : node) : Prop :=
  ~ In (type_of n) ["MemberExpression"; "CallExpression"; "NewExpression"; "ChainExpression";
                    "TSNonNullExpression"; "TSQualifiedName"].

(** [requires e m l]: [e] is [require('m')] under the accesses to [l]. *)
Inductive requires : node -> string -> list string -> Prop :=
| requires_here e path m : calls_require e path -> get_str path "value" = Some m -> requires e m []
| requires_access e l o m l' :
    type_of e <> "CallExpression" -> access e l o -> requires o m l' -> requires e m (l' ++ l).

(** What the specifier of an import names in the module: [import { name as x }],
    or the whole of it, or its default. *)
Inductive imports : node -> list string -> Prop :=
| imports_name sp i name :
    type_of sp = "ImportSpecifier" -> get_node sp "imported" = Some i -> type_of i = "Identifier" ->
    get_str i "name" = Some name -> name <> "default" -> imports sp [name]
| imports_default_name sp i :
    type_of sp = "ImportSpecifier" -> get_node sp "imported" = Some i -> type_of i = "Identifier" ->
    get_str i "name" = Some "default" -> imports sp []
| imports_all sp :
    In (type_of sp) ["ImportDefaultSpecifier"; "ImportNamespaceSpecifier"; "TSImportEqualsDeclaration"] ->
    imports sp [].

(** What a declarator takes of its value: [const x = ...], or
    [const { name: x } = ...]. *)
Definition takes_other (d : Def) (p : node) : Prop :=
  forall v, get_node p "value" = Some v -> same_node v (def_name d) = false.

Inductive takes : Def -> list string -> Prop :=
| takes_all d id : get_node (def_node d) "id" = Some id -> type_of id = "Identifier" -> takes d []
| takes_name d id before p after v k name :
    get_node (def_node d) "id" = Some id -> type_of id = "ObjectPattern" ->
    get_nodes id "properties" = before ++ p :: after ->
    Forall (takes_other d) before -> Forall (takes_other d) after ->
    get_node p "value" = Some v -> same_node v (def_name d) = true ->
    get_node p "key" = Some k -> get_flag p "computed" = false -> type_of k = "Identifier" ->
    get_str k "name" = Some name -> takes d [name].

(** The module that an import comes from: [import ... from 'm'], or
    [import x = require('m')]. *)
Definition named_source (decl : node) (m : string) : Prop :=
  exists source, get_node decl "source" = Some source /\ get_str source "value" = Some m.

Inductive comes_from : Def -> string -> Prop :=
| from_source d decl m : def_parent d = Some decl -> named_source decl m -> comes_from d m
| from_external d decl reference e m :
    def_parent d = Some decl -> (forall m', ~ named_source decl m') ->
    type_of decl = "TSImportEqualsDeclaration" -> get_node decl "moduleReference" = Some reference ->
    type_of reference = "TSExternalModuleReference" -> get_node reference "expression" = Some e ->
    type_of e = "Literal" -> get_str e "value" = Some m -> comes_from d m.

(** [import x = a] *)
Definition alias_of (d : Def) (a : node) : Prop :=
  exists decl, def_parent d = Some decl /\ (forall m, ~ named_source decl m)
    /\ type_of decl = "TSImportEqualsDeclaration" /\ get_node decl "moduleReference" = Some a
    /\ type_of a = "TSQualifiedName".

(** The variable an identifier names, defined at most once. *)
Definition variable_of (s : option ScopeId) (n : node) (v : VarId) (x : Variable_) : Prop :=
  type_of n = "Identifier" /\ getVariableFromScope sm s (node_name n) = Some v /\
  variable_at sm v = Some x /\ (length (var_defs x) <= 1)%nat.

(** Its only write gives it the value of [e]. *)
Definition only_value (x : Variable_) (e : node) : Prop :=
  exists r, List.filter ref_isWrite (omap (reference_at sm) (var_references x)) = [r]
    /\ ref_writeExpr r = Some e.

(** A variable keeps its name when it is a global, or when its definition has been
    followed already. *)
Definition is_final (vs : list VarId) (v : VarId) (x : Variable_) : Prop :=
  var_writeable x = Some false \/ v ∈ vs.

Definition defined_by (vs : list VarId) (v : VarId) (x : Variable_) (d : Def) (type : string) : Prop :=
  ~ is_final vs v x /\ var_defs x = [d] /\ def_type d = type.

(** The names, outermost first, of the value an expression denotes, given the
    variables followed so far and a scope: the names of accesses follow those of
    the object; a variable stands for what it is imported from, or for its only
    value. *)
Inductive denotes : list VarId -> option ScopeId -> node -> list string -> Prop :=
| denotes_access vs s n l o q :
    access n l o -> denotes vs s o q -> denotes vs s n (q ++ l)
| denotes_final vs s n v x :
    variable_of s n v x -> is_final vs v x -> denotes vs s n [node_name n]
| denotes_import vs s n v x d m l :
    variable_of s n v x -> defined_by vs v x d "ImportBinding" -> comes_from d m -> imports (def_node d) l ->
    denotes vs s n (split_char "/" m ++ l)
| denotes_alias vs s n v x d a l q :
    variable_of s n v x -> defined_by vs v x d "ImportBinding" -> alias_of d a -> imports (def_node d) l ->
    denotes (vs ++ [v]) (Some (var_scope x)) a q -> denotes vs s n (q ++ l)
| denotes_require vs s n v x d e m q l :
    variable_of s n v x -> defined_by vs v x d "Variable" -> only_value x e ->
    requires e m q -> takes d l -> denotes vs s n (split_char "/" m ++ q ++ l)
| denotes_value vs s n v x d e q l :
    variable_of s n v x -> defined_by vs v x d "Variable" -> only_value x e ->
    denotes (vs ++ [v]) (Some (var_scope x)) e q -> takes d l -> denotes vs s n (q ++ l).

(** An expression, or the value of a variable it leads to, is written in a way
    that [denotes] has no rule for: an access whose name is computed, a call
    chained on a [require], a name imported as a string, a pattern other than
    [{ name: x }]. *)
Inductive obscure : list VarId -> option ScopeId -> node -> Prop :=
| obscure_here vs s n : ~ simple n -> (forall l o, ~ access n l o) -> obscure vs s n
| obscure_access vs s n l o : access n l o -> obscure vs s o -> obscure vs s n
| obscure_import vs s n v x d :
    variable_of s n v x -> defined_by vs v x d "ImportBinding" -> (forall l, ~ imports (def_node d) l) ->
    obscure vs s n
| obscure_pattern vs s n v x d :
    variable_of s n v x -> defined_by vs v x d "Variable" -> (forall l, ~ takes d l) -> obscure vs s n
| obscure_alias vs s n v x d a :
    variable_of s n v x -> defined_by vs v x d "ImportBinding" -> alias_of d a ->
    obscure (vs ++ [v]) (Some (var_scope x)) a -> obscure vs s n
| obscure_value vs s n v x d e :
    variable_of s n v x -> defined_by vs v x d "Variable" -> only_value x e ->
    (forall m q, ~ requires e m q) ->
    obscure (vs ++ [v]) (Some (var_scope x)) e -> obscure vs s n.

End Denotes.

(** ** The readings of the search agree with the syntax *)

Section Readings.

Lemma node_name_of n name : get_str n "name" = Some name -> node_name n = name.
Proof. unfold node_name. by intros ->. Qed.

Lemma calls_require_iff n path : getModuleNameFromRequire n = Some path <-> calls_require n path.
Proof.
  unfold getModuleNameFromRequire, isRequire, calls_require, opt_type_is, str_prop_is.
  destruct (String.eqb_spec (type_of n) "CallExpression") as [T|T]; [| by split; [| intros (? & _)]].
  destruct (get_node n "callee") as [c|]; cbn; [| by split; [| intros (_ & (c & ? & _) & _)]].
  destruct (String.eqb_spec (type_of c) "Identifier") as [Tc|Tc]; cbn;
    [| by split; [| intros (_ & (c' & [= <-] & ? & _) & _)]].
  destruct (get_str c "name") as [nm|] eqn:En; cbn;
    [| split; [done |]; intros (_ & (c' & [= <-] & _ & ?) & _); congruence].
  destruct (String.eqb_spec nm "require") as [->|Hn]; cbn;
    [| split; [done |]; intros (_ & (c' & [= <-] & _ & ?) & _); congruence].
  destruct (get_array n "arguments") as [|[] [|? ?]]; cbn; try (by split; [| intros (_ & _ & ? & _)]).
  match goal with |- context [type_of ?a =s _] => destruct (String.eqb_spec (type_of a) "Literal") as [Ta|Ta] end.
  - split; [intros [= <-]; repeat split; eauto | intros (_ & _ & [= <-] & _); done].
  - split; [done | intros (_ & _ & [= <-] & ?); done].
Qed.

Lemma no_require_iff n : getModuleNameFromRequire n = None <-> forall path, ~ calls_require n path.
Proof.
  setoid_rewrite <- calls_require_iff. destruct (getModuleNameFromRequire n) as [p|]; [| done].
  split; [done | intros H; by destruct (H p)].
Qed.

Lemma access_inner n l o : access n l o -> inner n = Some (l, o).
Proof.
  unfold inner. destruct 1 as [? ? ? ? T O P ? Tp N|? ? ? ? T O P Tp N|? ? T R C|? ? T C|? ? T C|? ? T C|? ? ? ? T O R N];
    rewrite T; cbn.
  - rewrite O, P. cbn. unfold property_names. rewrite Tp. cbn. by rewrite (node_name_of _ _ N).
  - rewrite O, P. cbn. unfold property_names. rewrite Tp, N. done.
  - apply no_require_iff in R as ->. by rewrite C.
  - by rewrite C.
  - by rewrite C.
  - by rewrite C.
  - rewrite O, R. cbn. by rewrite (node_name_of _ _ N).
Qed.

Lemma access_unique n l o l' o' : access n l o -> access n l' o' -> l' = l /\ o' = o.
Proof. intros A%access_inner B%access_inner. rewrite A in B. by injection B. Qed.

Lemma simple_inner n : simple n -> inner n = None.
Proof.
  unfold simple, inner. cbn. intros H. repeat case_goal; try done; exfalso; apply H;
    repeat match goal with E : _ && _ = true |- _ => apply andb_prop in E as [E _] end;
    match goal with E : (_ =s _) = true |- _ => apply String.eqb_eq in E; rewrite E end; tauto.
Qed.

Lemma access_not_simple n l o : access n l o -> ~ simple n.
Proof. intros A S. apply access_inner in A. by rewrite (simple_inner n S) in A. Qed.

(** An expression is an access, or is none. *)
Definition access_or_not (n : node) : Prop := (exists l o, access n l o) \/ forall l o, ~ access n l o.

Ltac no_access := right; inversion 1; congruence.

Lemma member_access n : type_of n = "MemberExpression" -> access_or_not n.
Proof.
  intros T. unfold access_or_not.
  destruct (get_node n "object") as [o|] eqn:O; [| no_access].
  destruct (get_node n "property") as [p|] eqn:P; [| no_access].
  destruct (decide (type_of p = "Literal")) as [Tp|Tp].
  - destruct (get_str p "value") as [name|] eqn:N; [| no_access].
    left. exists [name], o. by eapply access_key.
  - destruct (decide (type_of p = "Identifier")) as [Ti|Ti]; [| no_access].
    destruct (get_flag n "computed") eqn:F; [no_access |].
    destruct (get_str p "name") as [name|] eqn:N; [| no_access].
    left. exists [name], o. by eapply access_member.
Qed.

Lemma qualified_access n : type_of n = "TSQualifiedName" -> access_or_not n.
Proof.
  intros T. unfold access_or_not.
  destruct (get_node n "left") as [o|] eqn:O; [| no_access].
  destruct (get_node n "right") as [r|] eqn:R; [| no_access].
  destruct (get_str r "name") as [name|] eqn:N; [| no_access].
  left. exists [name], o. by eapply access_qualified.
Qed.

Lemma call_access n : type_of n = "CallExpression" -> access_or_not n.
Proof.
  intros T. unfold access_or_not. pose proof (no_require_iff n) as R.
  destruct (getModuleNameFromRequire n) as [path|] eqn:E.
  - apply calls_require_iff in E. right. inversion 1; try congruence. naive_solver.
  - destruct (get_node n "callee") as [c|] eqn:C; [| no_access].
    left. exists [], c. apply access_call; [done | by apply R | done].
Qed.

Lemma access_dec n : access_or_not n.
Proof.
  destruct (decide (simple n)) as [S|S].
  { right. intros l o A. by apply access_not_simple in A. }
  unfold simple in S. cbn in S.
  destruct (decide (type_of n = "MemberExpression")); [by apply member_access |].
  destruct (decide (type_of n = "TSQualifiedName")); [by apply qualified_access |].
  destruct (decide (type_of n = "CallExpression")); [by apply call_access |].
  unfold access_or_not.
  destruct (decide (type_of n = "NewExpression")).
  { destruct (get_node n "callee") as [c|] eqn:C; [| no_access]. left. exists [], c. by apply access_new. }
  destruct (get_node n "expression") as [c|] eqn:C; [left; exists [], c | no_access].
  destruct (decide (type_of n = "ChainExpression")); [by apply access_chain |].
  apply access_non_null; [| done]. destruct (decide (type_of n = "TSNonNullExpression")); [done |].
  exfalso. apply S. intuition congruence.
Qed.

(** Each step of the search is an access, or the expression has none. *)
Lemma inner_access n l o : inner n = Some (l, o) -> access n l o \/ forall l' o', ~ access n l' o'.
Proof.
  intros E. destruct (access_dec n) as [(l' & o' & A)|N]; [left | by right].
  pose proof (access_inner n l' o' A) as E'. rewrite E in E'. by injection E' as -> ->.
Qed.

Lemma imports_names sp l : imports sp l -> imported_names sp = l.
Proof.
  unfold imported_names, str_prop_is. destruct 1 as [? i name T I Ti N D|? i T I Ti N|? T].
  - rewrite T, I, Ti, N, (node_name_of _ _ N). cbn. by destruct (String.eqb_spec name "default").
  - by rewrite T, I, Ti, N.
  - destruct (String.eqb_spec (type_of sp) "ImportSpecifier") as [E|]; [| done].
    rewrite E in T. cbn in T. naive_solver.
Qed.

Lemma imports_dec sp : (exists l, imports sp l) \/ forall l, ~ imports sp l.
Proof.
  destruct (decide (type_of sp = "ImportSpecifier")) as [T|T].
  - assert (~ In (type_of sp) ["ImportDefaultSpecifier"; "ImportNamespaceSpecifier"; "TSImportEqualsDeclaration"])
      as Tn by (rewrite T; cbn; naive_solver).
    destruct (get_node sp "imported") as [i|] eqn:I; [| right; inversion 1; congruence].
    destruct (decide (type_of i = "Identifier")) as [Ti|Ti]; [| right; inversion 1; congruence].
    destruct (get_str i "name") as [name|] eqn:N; [| right; inversion 1; congruence].
    left. destruct (decide (name = "default")) as [->|D]; eexists.
    + by eapply imports_default_name.
    + by eapply imports_name.
  - destruct (decide (In (type_of sp) ["ImportDefaultSpecifier"; "ImportNamespaceSpecifier"; "TSImportEqualsDeclaration"]))
      as [A|A]; [left; exists []; by apply imports_all | right; inversion 1; congruence].
Qed.

(** The properties of a pattern that give the variable its value. *)
Definition takes_it (d : Def) (p : node) : bool :=
  match get_node p "value" with Some v => same_node v (def_name d) | None => false end.

Lemma takes_other_iff d p : takes_other d p <-> takes_it d p = false.
Proof.
  unfold takes_other, takes_it. destruct (get_node p "value") as [v|]; [| done].
  split; [by intros H; apply H | by intros H v' [= <-]].
Qed.

Lemma filter_others d l : Forall (takes_other d) l <-> List.filter (takes_it d) l = [].
Proof.
  induction l as [|p l IH]; cbn; [by split; [| constructor] |]. rewrite Forall_cons, IH, takes_other_iff.
  destruct (takes_it d p); naive_solver.
Qed.

Lemma filter_one d l p : List.filter (takes_it d) l = [p] <->
  exists before after, l = before ++ p :: after /\ Forall (takes_other d) before
    /\ Forall (takes_other d) after /\ takes_it d p = true.
Proof.
  split.
  - induction l as [|p' l IH]; cbn; [done |]. destruct (takes_it d p') eqn:E.
    + intros [= -> R]. exists [], l. rewrite !filter_others. done.
    + intros (before & after & -> & B & A & P)%IH. exists (p' :: before), after.
      rewrite Forall_cons, takes_other_iff. done.
  - intros (before & after & -> & B%filter_others & A%filter_others & P).
    rewrite List.filter_app, B. cbn. by rewrite P, A.
Qed.

Lemma destructured_names_eq d id :
  get_node (def_node d) "id" = Some id -> type_of id = "ObjectPattern" ->
  destructured_names d = rev (map (fun p => match get_node p "key" with Some k => node_name k | None => "" end)
    (List.filter (takes_it d) (get_nodes id "properties"))).
Proof.
  intros E T. unfold destructured_names. rewrite E, T. cbn.
  match goal with |- fold_left ?g _ _ = rev (map ?h _) => enough (forall l acc, fold_left g l acc =
    rev (map h (List.filter (takes_it d) l)) ++ acc) as H by (by rewrite H, app_nil_r) end.
  induction l as [|p l IH]; intros acc; cbn; [done |]. rewrite IH. unfold takes_it.
  destruct (get_node p "value") as [v|]; [| done]. destruct (same_node v (def_name d)); [| done]. cbn.
  rewrite <- (assoc_L (++)). by destruct (get_node p "key").
Qed.

Lemma takes_filter d id : get_node (def_node d) "id" = Some id -> type_of id = "ObjectPattern" ->
  forall l, takes d l -> exists p k name, List.filter (takes_it d) (get_nodes id "properties") = [p]
    /\ get_node p "key" = Some k /\ get_flag p "computed" = false /\ type_of k = "Identifier"
    /\ get_str k "name" = Some name /\ l = [name].
Proof.
  intros E T l. inversion 1 as [? id' E' T'|? id' before q after v k name E' T' L B A V S K C Tk N]; subst;
    assert (id' = id) as -> by congruence; [congruence |].
  exists q, k, name. split; [| done]. apply filter_one. exists before, after.
  unfold takes_it. by rewrite V.
Qed.

Lemma takes_names d l : takes d l -> destructured_names d = l.
Proof.
  intros H. assert (exists id, get_node (def_node d) "id" = Some id
    /\ (type_of id = "ObjectPattern" \/ type_of id = "Identifier" /\ l = [])) as (id & E & [T|[T ->]])
    by (destruct H; naive_solver).
  - rewrite (destructured_names_eq d id E T).
    destruct (takes_filter d id E T l H) as (p & k & name & -> & K & _ & _ & N & ->).
    cbn. by rewrite K, (node_name_of _ _ N).
  - unfold destructured_names. by rewrite E, T.
Qed.

Lemma takes_dec d : (exists l, takes d l) \/ forall l, ~ takes d l.
Proof.
  destruct (get_node (def_node d) "id") as [id|] eqn:E; [| right; inversion 1; congruence].
  destruct (decide (type_of id = "Identifier")) as [T|T]; [left; exists []; by eapply takes_all |].
  destruct (decide (type_of id = "ObjectPattern")) as [To|To]; [| right; inversion 1; congruence].
  destruct (List.filter (takes_it d) (get_nodes id "properties")) as [|p [|p' l]] eqn:F.
  1, 3: right; intros l' H; destruct (takes_filter d id E To l' H) as (q & k & name & F' & _); rewrite F in F'; congruence.
  pose proof F as (before & after & L & B & A & P)%filter_one. unfold takes_it in P.
  destruct (get_node p "value") as [v|] eqn:V; [| done].
  destruct (get_node p "key") as [k|] eqn:K; [destruct (get_flag p "computed") eqn:C;
    [| destruct (decide (type_of k = "Identifier")) as [Tk|Tk]; [destruct (get_str k "name") as [name|] eqn:N |]] |].
  2: { left. exists [name]. by eapply takes_name. }
  all: right; intros l' H; destruct (takes_filter d id E To l' H) as (q & k' & name' & F' & K' & C' & Tk' & N' & _);
    rewrite F in F'; injection F' as <-; congruence.
Qed.

(** The module an import comes from, and the name it is an alias of. *)
Definition import_path (d : Def) : option string :=
  decl ← def_parent d;
  match (source ← get_node decl "source"; get_str source "value") with
  | Some source => Some source
  | None =>
      if type_of decl =s "TSImportEqualsDeclaration"
      then m ← get_node decl "moduleReference"; external_module m else None
  end.

Definition import_alias (d : Def) : option node :=
  decl ← def_parent d;
  if type_of decl =s "TSImportEqualsDeclaration" then
    m ← get_node decl "moduleReference"; if type_of m =s "TSQualifiedName" then Some m else None
  else None.

Lemma named_source_iff decl m :
  (source ← get_node decl "source"; get_str source "value") = Some m <-> named_source decl m.
Proof. unfold named_source. rewrite bind_Some. naive_solver. Qed.

Lemma no_source_iff decl :
  (source ← get_node decl "source"; get_str source "value") = None <-> forall m, ~ named_source decl m.
Proof.
  setoid_rewrite <- named_source_iff. destruct (_ ≫= _) as [m|]; [| done].
  split; [done | intros H; by destruct (H m)].
Qed.

Lemma import_path_iff d m : import_path d = Some m <-> comes_from d m.
Proof.
  unfold import_path. split.
  - intros (decl & P & E)%bind_Some. destruct (get_node decl "source" ≫= _) as [m'|] eqn:S.
    + injection E as <-. apply named_source_iff in S. by eapply from_source.
    + pose proof (proj1 (no_source_iff _) S) as Sn. revert E. destruct (String.eqb_spec (type_of decl) "TSImportEqualsDeclaration") as [T|]; [| done].
      intros (r & R & E)%bind_Some. unfold external_module in E.
      destruct (String.eqb_spec (type_of r) "TSExternalModuleReference") as [Tr|]; [| done].
      destruct (get_node r "expression") as [e|] eqn:X; [| done].
      destruct (String.eqb_spec (type_of e) "Literal") as [Te|]; [| done]. by eapply from_external.
  - destruct 1 as [? decl ? P S%named_source_iff|? decl r e ? P S%(proj2 (no_source_iff _)) T R Tr X Te V]; rewrite P; cbn; rewrite S;
      [done |]. rewrite T. cbn. rewrite R. cbn. unfold external_module. by rewrite Tr, X, Te.
Qed.

Lemma alias_of_iff d a : import_path d = None /\ import_alias d = Some a <-> alias_of d a.
Proof.
  unfold import_path, import_alias, alias_of. split.
  - intros [P (decl & E & A)%bind_Some]. rewrite E in P. cbn in P. exists decl. split; [done |].
    destruct (get_node decl "source" ≫= _) as [m'|] eqn:S; [done |]. pose proof (proj1 (no_source_iff _) S) as Sn. split; [done |].
    revert A. destruct (String.eqb_spec (type_of decl) "TSImportEqualsDeclaration") as [T|]; [| done].
    intros (r & R & A)%bind_Some. revert A. destruct (String.eqb_spec (type_of r) "TSQualifiedName") as [Ta|]; [| done].
    by intros [= <-].
  - intros (decl & P & S%(proj2 (no_source_iff _)) & T & R & Ta). rewrite P. cbn. rewrite S, T. cbn. rewrite R. cbn.
    unfold external_module. by rewrite Ta.
Qed.

End Readings.

(** ** The search follows the relation *)

Section Denotation.

Variable sm : ScopeManager.

(** A [require] of a module under accesses to members, with their names. *)
Inductive required : node -> string -> list string -> Prop :=
| required_here e m : required_module e = Some m -> required e m []
| required_inner e l e' m q :
    type_of e <> "CallExpression" -> inner e = Some (l, e') -> required e' m q -> required e m (q ++ l).

Notation variable_of := (variable_of sm).
Notation denotes := (denotes sm).
Notation obscure := (obscure sm).

(** The same relation, in the terms of the search. *)
Inductive followed : list VarId -> option ScopeId -> node -> list string -> Prop :=
| followed_inner vs s n l n' q :
    inner n = Some (l, n') -> followed vs s n' q -> followed vs s n (q ++ l)
| followed_final vs s n v x :
    variable_of s n v x -> is_final vs v x -> followed vs s n [node_name n]
| followed_import vs s n v x d m :
    variable_of s n v x -> defined_by vs v x d "ImportBinding" -> import_path d = Some m ->
    followed vs s n (split_char "/" m ++ imported_names (def_node d))
| followed_alias vs s n v x d a q :
    variable_of s n v x -> defined_by vs v x d "ImportBinding" ->
    import_path d = None -> import_alias d = Some a ->
    followed (vs ++ [v]) (Some (var_scope x)) a q -> followed vs s n (q ++ imported_names (def_node d))
| followed_require vs s n v x d e m q :
    variable_of s n v x -> defined_by vs v x d "Variable" ->
    getUniqueWriteReference sm (Some v) = Some e -> required e m q ->
    followed vs s n (split_char "/" m ++ q ++ destructured_names d)
| followed_value vs s n v x d e q :
    variable_of s n v x -> defined_by vs v x d "Variable" ->
    getUniqueWriteReference sm (Some v) = Some e ->
    followed (vs ++ [v]) (Some (var_scope x)) e q -> followed vs s n (q ++ destructured_names d).

Lemma inner_root n : inner (root n) = None.
Proof.
  induction n as [n IH] using inner_ind. destruct (inner n) as [[l n']|] eqn:E.
  - destruct (root_inner n l n' E) as [-> _]. by apply (IH l).
  - by destruct (root_none n E) as [-> _].
Qed.

Lemma followed_root vs s n : forall q,
  followed vs s n q <-> exists q', followed vs s (root n) q' /\ q = q' ++ names n.
Proof.
  induction n as [n IH] using inner_ind. intros q. destruct (inner n) as [[l n']|] eqn:E.
  - destruct (root_inner n l n' E) as [-> ->]. split.
    + inversion 1; subst; try (match goal with V : variable_of _ n _ _ |- _ =>
        destruct V as (T & _); by rewrite inner_identifier in E end).
      simplify_eq. match goal with D : followed _ _ n' _ |- _ => apply (IH l n' eq_refl) in D as (q' & D & ->) end.
      exists q'. by rewrite (assoc_L (++)).
    + intros (q' & D & ->). rewrite (assoc_L (++)). apply (followed_inner vs s n l n'); [done |].
      apply (IH l n' eq_refl). by exists q'.
  - destruct (root_none n E) as [-> ->]. split.
    + intros D. exists q. by rewrite app_nil_r.
    + intros (q' & D & ->). by rewrite app_nil_r.
Qed.

(** The reduction to a call finds the [require] of a value. *)
Lemma required_reduceTo e m q :
  required e m q <-> required_module (reduceTo "CallExpression" e []).1 = Some m /\
    (reduceTo "CallExpression" e []).2 = q.
Proof.
  revert m q. induction e as [e IH] using inner_ind. intros m q. rewrite reduceTo_unfold.
  destruct (String.eqb_spec (type_of e) "CallExpression") as [T|T]; cbn.
  - split.
    + inversion 1; by subst.
    + intros [H <-]. by constructor.
  - destruct (inner e) as [[l e']|] eqn:E; cbn.
    + rewrite app_nil_r. pose proof (reduceTo_app "CallExpression" e' [] l) as A. cbn in A. rewrite A. cbn.
      split.
      * inversion 1 as [? ? R|? ? ? ? ? ? Ei R]; subst.
        { by apply required_module_type in R as [R _]. }
        simplify_eq. apply (IH l e' eq_refl) in R as [-> ->]. done.
      * intros [R <-]. apply (required_inner e l e'); [done | done |]. by apply (IH l e' eq_refl).
    + split.
      * inversion 1 as [? ? R|]; subst; [| simplify_eq]. by apply required_module_type in R as [R _].
      * intros [R _]. by apply required_module_type in R as [R _].
Qed.

Lemma checkFqnFromImport_eq call v s d fqn vs :
  def_type d = "ImportBinding" ->
  checkFqnFromImport call v s d fqn vs =
    let fqn := imported_names (def_node d) ++ fqn in
    match import_path d with
    | Some m => Some (Some (join_names (split_char "/" m ++ fqn)))
    | None => match import_alias d with
              | Some a => call a fqn (Some s) (vs ++ [v])
              | None => Some None
              end
    end.
Proof.
  intros T. unfold checkFqnFromImport, import_path, import_alias. rewrite T. cbn.
  destruct (def_parent d) as [decl|]; cbn; [| done].
  destruct (get_node decl "source" ≫= _); cbn; [done |].
  destruct (type_of decl =s _); cbn; [| done].
  destruct (get_node decl "moduleReference") as [m|]; cbn; [| done].
  destruct (external_module m); cbn; [done |]. by destruct (type_of m =s "TSQualifiedName").
Qed.

Lemma find_definition l (d : Def) : (length l <= 1)%nat ->
  List.find (fun d => includes (def_type d) ["ImportBinding"; "Variable"]) l = Some d <->
  l = [d] /\ (def_type d = "ImportBinding" \/ def_type d = "Variable").
Proof.
  intros L. destruct l as [|d' [|? ?]]; cbn in *; [by split; [|intros [? _]] | | lia].
  destruct (String.eqb_spec (def_type d') "ImportBinding"), (String.eqb_spec (def_type d') "Variable"); cbn;
    naive_solver.
Qed.

(** What an identifier denotes, by the state of its variable. *)
Lemma variable_of_unique s n v x v' x' :
  variable_of s n v x -> variable_of s n v' x' -> v' = v /\ x' = x.
Proof. intros (_ & E & F & _) (_ & E' & F' & _). rewrite E in E'. injection E' as <-. rewrite F in F'. by injection F' as <-. Qed.

Lemma followed_none vs s n q :
  (forall v x, ~ variable_of s n v x) -> inner n = None -> ~ followed vs s n q.
Proof. intros H E. inversion 1; subst; [congruence | naive_solver..]. Qed.

Section Identifier.

Context (vs : list VarId) (s : option ScopeId) (n : node) (v : VarId) (x : Variable_).
Hypothesis V : variable_of s n v x.

Lemma followed_final_iff q : is_final vs v x -> followed vs s n q <-> q = [node_name n].
Proof.
  intros F. split; [| by intros ->; eapply followed_final].
  destruct V as (T & _). inversion 1; subst; [by rewrite inner_identifier in * | done | ..];
    match goal with V' : variable_of _ _ _ _ |- _ => destruct (variable_of_unique _ _ _ _ _ _ V V') as [-> ->] end;
    match goal with D : defined_by _ _ _ _ _ |- _ => by destruct D as (? & _) end.
Qed.

Lemma followed_defined_iff q d : ~ is_final vs v x -> var_defs x = [d] ->
  followed vs s n q <->
  (def_type d = "ImportBinding" /\
     match import_path d with
     | Some m => q = split_char "/" m ++ imported_names (def_node d)
     | None => exists a q', import_alias d = Some a /\
                 followed (vs ++ [v]) (Some (var_scope x)) a q' /\ q = q' ++ imported_names (def_node d)
     end) \/
  (def_type d = "Variable" /\ exists e, getUniqueWriteReference sm (Some v) = Some e /\ exists q',
     (exists m l, required e m l /\ q' = split_char "/" m ++ l) /\ q = q' ++ destructured_names d \/
     followed (vs ++ [v]) (Some (var_scope x)) e q' /\ q = q' ++ destructured_names d).
Proof.
  intros F E. split.
  - destruct V as (T & _). inversion 1; subst; [by rewrite inner_identifier in * | ..];
    match goal with V' : variable_of _ _ _ _ |- _ => destruct (variable_of_unique _ _ _ _ _ _ V V') as [-> ->] end;
    [done | ..];
    match goal with D : defined_by _ _ _ _ _ |- _ => destruct D as (_ & D & ?); rewrite E in D; injection D as <- end.
    + left. split; [done |]. by match goal with M : import_path _ = _ |- _ => rewrite M end.
    + left. split; [done |]. match goal with M : import_path _ = _ |- _ => rewrite M end. eauto.
    + right. split; [done |]. eexists. split; [done |]. eexists. left.
      split; [by do 2 eexists |]. by rewrite (assoc_L (++)).
    + right. split; [done |]. eexists. split; [done |]. eexists. by right.
  - intros [[T M]|[T (e & We & q' & [[(m & l & R & ->) ->]|[D ->]])]].
    + destruct (import_path d) as [m|] eqn:Em.
      * subst. by eapply followed_import.
      * destruct M as (a & q' & Ea & D & ->). by eapply followed_alias.
    + rewrite <- (assoc_L (++)). by eapply followed_require.
    + by eapply followed_value.
Qed.

End Identifier.

Definition scope_at_node (s : option ScopeId) (n : node) : option ScopeId :=
  match s with Some s => Some s | None => sm_getScope sm n end.

(** The names of an answer are those that the node denotes, before the qualifiers;
    without them, the answer comes from an obscure expression. *)
Definition answers (vs : list VarId) (s : option ScopeId) (n : node) (fqn : list string)
    (r : option string) : Prop :=
  (forall q, followed vs s n q -> r = Some (join_names (q ++ fqn))) /\
  forall name, r = Some name ->
    (exists q, followed vs s n q /\ name = join_names (q ++ fqn)) \/ obscure vs s n.

Lemma answers_none vs s n fqn : (forall q, ~ followed vs s n q) -> answers vs s n fqn None.
Proof. intros H. split; [intros q D; by destruct (H q) | done]. Qed.

Lemma answers_some vs s n fqn q0 :
  (forall q, followed vs s n q <-> q = q0) -> answers vs s n fqn (Some (join_names (q0 ++ fqn))).
Proof. intros H. split; [by intros q ->%H | intros name [= <-]; left; exists q0; by rewrite H]. Qed.

(** Obscurity goes up the steps of the search. *)
Lemma obscure_inner vs s n l o : inner n = Some (l, o) -> obscure vs s o -> obscure vs s n.
Proof.
  intros E O. destruct (inner_access n l o E) as [A|N]; [by eapply obscure_access |].
  apply obscure_here; [| done]. intros S. by rewrite (simple_inner n S) in E.
Qed.

Lemma obscure_root vs s n : obscure vs s (root n) -> obscure vs s n.
Proof.
  induction n as [n IH] using inner_ind. destruct (inner n) as [[l o]|] eqn:E.
  - destruct (root_inner n l o E) as [-> _]. intros O. eapply obscure_inner; [done | by eapply IH].
  - by destruct (root_none n E) as [-> _].
Qed.

Lemma obscure_call vs s e : obscure vs s (reduceTo "CallExpression" e []).1 -> obscure vs s e.
Proof.
  induction e as [e IH] using inner_ind. rewrite reduceTo_unfold.
  destruct (type_of e =s "CallExpression"); [done |]. destruct (inner e) as [[l o]|] eqn:E; [| done].
  rewrite app_nil_r. pose proof (reduceTo_app "CallExpression" o [] l) as A. cbn [app] in A. rewrite A.
  intros O. eapply obscure_inner; [done | by eapply IH].
Qed.

Lemma chained_obscure vs s n m : required_module (root n) = Some m -> obscure vs s n.
Proof.
  intros R. apply obscure_root. pose proof (required_module_type _ _ R) as [T _].
  unfold required_module in R. apply bind_Some in R as (path & C%calls_require_iff & _).
  apply obscure_here; [intros S; apply S; rewrite T; cbn; tauto |].
  intros l o A. inversion A; try congruence. naive_solver.
Qed.

(** The [require] of a value, in the syntax. *)
Lemma requires_required e m q : requires e m q -> required e m q.
Proof.
  induction 1 as [e path m C V|e l o m q T A _ IH].
  - apply required_here. unfold required_module. apply calls_require_iff in C. by rewrite C.
  - eapply required_inner; [done | by apply access_inner | done].
Qed.

Lemma required_requires vs s e m q : required e m q ->
  requires e m q \/ (forall m' q', ~ requires e m' q') /\ obscure vs s e.
Proof.
  induction 1 as [e m R|e l o m q T E _ IH].
  - left. unfold required_module in R. apply bind_Some in R as (path & C%calls_require_iff & V).
    by eapply requires_here.
  - destruct (inner_access e l o E) as [A|N].
    + destruct IH as [R|[N O]]; [left; by eapply requires_access | right].
      split; [| by eapply obscure_access]. intros m' q' R. inversion R as [? ? ? [T' _]|? ? ? ? ? _ A' R']; subst; [done |].
      destruct (access_unique _ _ _ _ _ A A') as [-> ->]. by apply N in R'.
    + right. split.
      * intros m' q' R. inversion R as [? ? ? [T' _]|? ? ? ? ? _ A' _]; subst; [done | by apply N in A'].
      * apply obscure_here; [| done]. intros S. by rewrite (simple_inner e S) in E.
Qed.

Lemma only_value_iff v x e : variable_at sm v = Some x ->
  getUniqueWriteReference sm (Some v) = Some e <-> only_value sm x e.
Proof.
  intros V. unfold getUniqueWriteReference, only_value, write_references. rewrite V.
  destruct (List.filter _ _) as [|r [|? ?]]; naive_solver.
Qed.

(** Reducing to a call takes off names. *)
Lemma followed_call vs s e q :
  followed vs s e q <-> exists q', followed vs s (reduceTo "CallExpression" e []).1 q' /\
    q = q' ++ (reduceTo "CallExpression" e []).2.
Proof.
  pose proof (root_call e []) as H. destruct (reduceTo "CallExpression" e []) as [c l]. cbn in *.
  destruct H as [Hr Hn]. rewrite app_nil_r in Hn. rewrite (followed_root vs s e).
  setoid_rewrite (followed_root vs s c). rewrite Hr, <- Hn. split.
  - intros (q' & D & ->). exists (q' ++ names c). rewrite (assoc_L (++)). eauto.
  - intros (q' & (q0 & D & ->) & ->). exists q0. by rewrite (assoc_L (++)).
Qed.

Section Checks.

Context (call : recursive) (v : VarId) (x : Variable_) (d : Def) (vs : list VarId)
  (s : option ScopeId) (n : node).
Hypothesis V : variable_of s n v x.
Hypothesis F : ~ is_final vs v x.
Hypothesis E : var_defs x = [d].
Hypothesis Hcall : forall n' fqn r,
  call n' fqn (Some (var_scope x)) (vs ++ [v]) = Some r ->
  answers (vs ++ [v]) (Some (var_scope x)) n' fqn r.

Lemma import_answer fqn r : def_type d = "ImportBinding" ->
  checkFqnFromImport call v (var_scope x) d fqn vs = Some r -> answers vs s n fqn r.
Proof.
  intros T. rewrite checkFqnFromImport_eq by done. cbn zeta.
  pose proof (fun q => followed_defined_iff vs s n v x V q d F E) as D.
  destruct (import_path d) as [m|] eqn:Em.
  - intros [= <-]. rewrite (assoc_L (++)). apply answers_some. intros q. rewrite (D q), T. naive_solver.
  - destruct (import_alias d) as [a|] eqn:Ea.
    + intros [Hc Hs]%Hcall. split.
      * intros q. rewrite (D q), T. intros [(_ & a' & q' & [= <-] & Hq & ->)|[? _]]; [| done].
        rewrite <- (assoc_L (++)). by apply Hc.
      * intros name [(q & Hq & ->)|O]%Hs.
        { left. exists (q ++ imported_names (def_node d)). rewrite <- (assoc_L (++)). split; [| done].
          apply D. left. split; [done |]. by exists a, q. }
        right. eapply (obscure_alias sm vs s n v x d a); [done | by split | by apply alias_of_iff | done].
    + intros [= <-]. apply answers_none. intros q. rewrite (D q), T. naive_solver.
Qed.

(** What is denoted is not a [require]. *)
Lemma followed_not_required vs' s' e q m q' : followed vs' s' e q -> ~ required e m q'.
Proof.
  intros D [R _]%required_reduceTo. apply followed_call in D as (q0 & D & _).
  destruct (required_module_type _ _ R) as [T I]. revert D. apply followed_none; [| done].
  intros v' x' (T' & _). congruence.
Qed.

Lemma require_answer fqn r : def_type d = "Variable" ->
  checkFqnFromRequire sm call v (var_scope x) d fqn vs = Some r -> answers vs s n fqn r.
Proof.
  intros T. unfold checkFqnFromRequire. rewrite T.
  pose proof (fun q => followed_defined_iff vs s n v x V q d F E) as D.
  destruct (getUniqueWriteReference sm (Some v)) as [e|] eqn:We.
  2: { intros [= <-]. apply answers_none. intros q. intros [[? _]|(_ & e & ? & _)]%D; congruence. }
  pose proof (reduceTo_app "CallExpression" e [] (destructured_names d ++ fqn)) as A. cbn [app] in A.
  cbn [String.eqb]. cbn. rewrite A. clear A. pose proof (required_reduceTo e) as Hreq.
  pose proof (followed_call (vs ++ [v]) (Some (var_scope x)) e) as Hden.
  pose proof (obscure_call (vs ++ [v]) (Some (var_scope x)) e) as Hob.
  destruct (reduceTo "CallExpression" e []) as [c l]. cbn in *.
  destruct (required_module c) as [m|] eqn:Em.
  - intros [= <-]. assert (required e m l) as R by (by apply Hreq).
    rewrite !(assoc_L (++)). apply answers_some. intros q. rewrite (D q). split.
    + intros [[? _]|(_ & e' & [= <-] & q' & [[(m' & l' & R' & ->) ->]|[G _]])]; [congruence | |].
      * apply Hreq in R' as [[= ->] ->]. done.
      * by apply (followed_not_required _ _ _ _ m l) in G.
    + intros ->. right. split; [done |]. exists e. split; [done |]. eexists. left. split; [| done]. eauto.
  - intros [Hc Hs]%Hcall. split.
    + intros q. rewrite (D q).
      intros [[? _]|(_ & e' & [= <-] & q' & [[(m' & l' & R' & ->) ->]|[G ->]])]; [congruence | by apply Hreq in R' as [? _] |].
      apply Hden in G as (q0 & G & ->). rewrite <- !(assoc_L (++)). by apply Hc.
    + intros name [(q & G & ->)|O]%Hs.
      * left. exists ((q ++ l) ++ destructured_names d). rewrite <- !(assoc_L (++)). split; [| done].
        rewrite !(assoc_L (++)). apply D. right. split; [done |]. exists e. split; [done |]. exists (q ++ l). right.
        split; [apply Hden; eauto | done].
      * right. eapply (obscure_value sm vs s n v x d e); [done | by split | | | by apply Hob].
        { eapply only_value_iff; [| done]. by destruct V as (_ & _ & ? & _). }
        intros m q R%requires_required. by apply Hreq in R as [? _].
Qed.

Lemma checks_answer fqn r :
  def_type d = "ImportBinding" \/ def_type d = "Variable" ->
  match checkFqnFromImport call v (var_scope x) d fqn vs with
  | Some None => checkFqnFromRequire sm call v (var_scope x) d fqn vs
  | r => r
  end = Some r ->
  answers vs s n fqn r.
Proof.
  intros [T|T] Hr.
  - apply import_answer; [done |].
    assert (checkFqnFromRequire sm call v (var_scope x) d fqn vs = Some None) as Hn.
    { unfold checkFqnFromRequire. rewrite T. by case_goal. }
    rewrite Hn in Hr. by destruct (checkFqnFromImport _ _ _ _ _ _) as [[?|]|].
  - apply require_answer; [done |].
    assert (checkFqnFromImport call v (var_scope x) d fqn vs = Some None) as Hn.
    { unfold checkFqnFromImport. by rewrite T. }
    by rewrite Hn in Hr.
Qed.

End Checks.

(** An answer of the search, with any fuel. *)
Lemma raw_answers fuel : forall n fqn s vs r,
  getFullyQualifiedNameRaw sm fuel n fqn s vs = Some r ->
  answers vs (scope_at_node s n) n fqn r.
Proof.
  induction fuel as [|fuel IH]; intros n fqn s vs r; [done |].
  cbn [getFullyQualifiedNameRaw]. rewrite reduceToIdentifier_eq. fold (scope_at_node s n).
  assert (forall r, answers vs (scope_at_node s n) (root n) (names n ++ fqn) r ->
    answers vs (scope_at_node s n) n fqn r) as Hroot.
  { intros r' [A B]. split.
    - intros q (q' & D & ->)%followed_root. rewrite <- (assoc_L (++)). by apply A.
    - intros name [(q & D & ->)|O]%B; [left | right; by apply obscure_root].
      exists (q ++ names n). rewrite <- (assoc_L (++)). split; [| done]. apply followed_root. eauto. }
  assert ((forall v x, ~ variable_of (scope_at_node s n) (root n) v x) ->
    forall q, ~ followed vs (scope_at_node s n) n q) as Hnone.
  { intros Hv q (q' & D & _)%followed_root. revert D. apply followed_none; [done | apply inner_root]. }
  unfold isIdentifier. cbn [length Nat.eqb orb]. rewrite andb_true_r.
  destruct (String.eqb_spec (type_of (root n)) "Identifier") as [T|T]; cbn [negb].
  2: { intros [= <-]. split; [intros q D; exfalso; revert D; apply Hnone; by intros v x [? _] |].
       intros name (m & R)%require_chain_root. right. by eapply chained_obscure. }
  destruct (getVariableFromScope sm _ _) as [v|] eqn:Ev.
  2: { intros [= <-]. apply answers_none, Hnone. intros v x (_ & ? & _). congruence. }
  destruct (variable_at sm v) as [x|] eqn:Ex.
  2: { intros [= <-]. apply answers_none, Hnone. intros v' x (_ & ? & ? & _). congruence. }
  destruct (Nat.ltb_spec 1 (length (var_defs x))) as [L|L].
  { intros [= <-]. apply answers_none, Hnone. intros v' x' (_ & ? & ? & ?).
    assert (x' = x) as -> by congruence. lia. }
  assert (variable_of (scope_at_node s n) (root n) v x) as V by done.
  intros Hr. apply Hroot. revert Hr.
  destruct (bool_decide_reflect (var_writeable x = Some false)) as [Hw|Hw];
    [| match goal with |- context [bool_decide ?P] => destruct (bool_decide_reflect P) as [Hv|Hv] end]; cbn [orb].
  1, 2: intros [= <-]; change (node_name (root n) :: names n ++ fqn) with ([node_name (root n)] ++ names n ++ fqn);
    apply answers_some; intros q; apply (followed_final_iff vs _ _ v x V); first [by left | by right].
  assert (~ is_final vs v x) as Hf by (by intros [?|?]).
  destruct (List.find _ _) as [d|] eqn:Ed.
  - apply find_definition in Ed as [E T']; [| done]. intros Hr.
    apply (checks_answer (getFullyQualifiedNameRaw sm fuel) v x d vs); [done.. | | done | exact Hr].
    intros n' fqn' r' Hr'. exact (IH n' fqn' _ _ r' Hr').
  - intros [= <-]. apply answers_none. intros q D.
    assert (forall d', var_defs x = [d'] -> def_type d' <> "ImportBinding" /\ def_type d' <> "Variable") as Hd.
    { intros d' E'. assert (In d' (var_defs x)) as Hin by (rewrite E'; by left).
      pose proof (find_none _ _ Ed d' Hin) as Hd. cbn in Hd. split; intros T'; by rewrite T' in Hd. }
    inversion D; subst; [by rewrite inner_identifier in * | ..];
    match goal with V' : variable_of _ _ _ _ |- _ => destruct (variable_of_unique _ _ _ _ _ _ V V') as [-> ->] end;
    [done | ..];
    match goal with D : defined_by _ _ _ _ _ |- _ => destruct D as (_ & Hdef & ?) end;
    by destruct (Hd _ Hdef).
Qed.

(** ** The search and the relation on the syntax *)

Lemma variable_of_at s n v x : variable_of s n v x -> variable_at sm v = Some x.
Proof. by intros (_ & _ & ? & _). Qed.

Lemma denotes_followed vs s n q : denotes vs s n q -> followed vs s n q.
Proof.
  induction 1 as [vs s n l o q A _ IH|vs s n v x V F|vs s n v x d m l V D C I|vs s n v x d a l q V D A I _ IH
    |vs s n v x d e m q l V D O R T|vs s n v x d e q l V D O _ IH T].
  - eapply followed_inner; [by apply access_inner | done].
  - by eapply followed_final.
  - rewrite <- (imports_names _ _ I). eapply followed_import; [done.. | by apply import_path_iff].
  - rewrite <- (imports_names _ _ I). apply alias_of_iff in A as [P A]. by eapply followed_alias.
  - rewrite <- (takes_names _ _ T). eapply followed_require; [done.. | | by apply requires_required].
    eapply only_value_iff; [by eapply variable_of_at | done].
  - rewrite <- (takes_names _ _ T). eapply followed_value; [done.. | | done].
    eapply only_value_iff; [by eapply variable_of_at | done].
Qed.

Lemma followed_denotes vs s n q : followed vs s n q -> denotes vs s n q \/ obscure vs s n.
Proof.
  induction 1 as [vs s n l o q E _ IH|vs s n v x V F|vs s n v x d m V D C|vs s n v x d a q V D P A _ IH
    |vs s n v x d e m q V D O R|vs s n v x d e q V D O G IH].
  - destruct IH as [IH|IH]; [| right; by eapply obscure_inner].
    destruct (inner_access n l o E) as [A|N]; [left; by eapply denotes_access | right].
    apply obscure_here; [| done]. intros S. by rewrite (simple_inner n S) in E.
  - left. by eapply denotes_final.
  - destruct (imports_dec (def_node d)) as [(l & I)|N]; [left | right; by eapply obscure_import].
    rewrite (imports_names _ _ I). eapply denotes_import; [done.. | by apply import_path_iff | done].
  - assert (alias_of d a) as Al by (by apply alias_of_iff).
    destruct IH as [IH|IH]; [| right; by eapply obscure_alias].
    destruct (imports_dec (def_node d)) as [(l & I)|N]; [left | right; by eapply obscure_import].
    rewrite (imports_names _ _ I). by eapply denotes_alias.
  - apply (only_value_iff v x e (variable_of_at _ _ _ _ V)) in O.
    destruct (required_requires (vs ++ [v]) (Some (var_scope x)) e m q R) as [Q|[N Ob]];
      [| right; by eapply obscure_value].
    destruct (takes_dec d) as [(l & T)|N]; [left | right; by eapply obscure_pattern].
    rewrite (takes_names _ _ T). by eapply denotes_require.
  - apply (only_value_iff v x e (variable_of_at _ _ _ _ V)) in O. destruct IH as [IH|IH].
    + destruct (takes_dec d) as [(l & T)|N]; [left | right; by eapply obscure_pattern].
      rewrite (takes_names _ _ T). by eapply denotes_value.
    + right. eapply obscure_value; [done.. | | done].
      intros m q' R%requires_required. by eapply followed_not_required.
Qed.

(** C10: When an expression denotes names, by the relation [denotes] on the syntax,
    its fully qualified name is those names joined, the prefix [node:] apart: the
    names of the accesses, after the names of the value of the variable at the
    root, followed through its only value, in the scope of the variable, down to an
    import, a [require] or a global. And a qualified name that is found is one that
    the expression denotes, unless the expression, or a value it leads to, is
    [obscure]: an access in brackets other than by a literal string, a call chained
    on a [require], a name imported as a string, a pattern other than
    [{ name: x }]. The search always answers. *)
Theorem qualified_name_is_denoted n scope :
  exists r, getFullyQualifiedName sm n [] scope = Some r
    /\ (forall q, denotes [] (scope_at_node scope n) n q ->
          r = Some (removeNodePrefixIfExists (join_names q)))
    /\ forall name, r = Some name ->
         (exists q, denotes [] (scope_at_node scope n) n q
                    /\ name = removeNodePrefixIfExists (join_names q))
         \/ obscure [] (scope_at_node scope n) n.
Proof.
  unfold getFullyQualifiedName. pose proof (raw_ends sm (fqn_fuel sm) n [] scope []) as Hend.
  destruct (getFullyQualifiedNameRaw sm (fqn_fuel sm) n [] scope []) as [r|] eqn:E.
  - apply raw_answers in E as [Hc Hs]. eexists. split; [done |]. split.
    + intros q D%denotes_followed%Hc. rewrite D. cbn. by rewrite app_nil_r.
    + intros name H. apply fmap_Some in H as (name' & H & ->).
      destruct (Hs name' H) as [(q & D & ->)|O]; [| by right]. rewrite app_nil_r.
      destruct (followed_denotes _ _ _ _ D) as [D'|O]; [left; eauto | by right].
  - exfalso. by apply Hend; [apply NoDup_nil_2 | apply Forall_nil_2 | unfold fqn_fuel; cbn; lia |].
Qed.

End Denotation.

(** ** Examples *)

Module ModulesExample.

Definition mk (i : nat) (type : string) (props : list (string * value)) : node :=
  Node (mkHeader i type None None) props.

Definition ident (i : nat) (name : string) : node := mk i "Identifier" [("name", VStr name)].

Definition literal (i : nat) (text : string) : node := mk i "Literal" [("value", VStr text)].

Definition member (i : nat) (object : node) (property : string) : node :=
  mk i "MemberExpression"
    [("object", VNode object); ("property", VNode (ident (i + 1) property)); ("computed", VBool false)].

(** [object\[property\]] *)
Definition element (i : nat) (object : node) (property : string) : node :=
  mk i "MemberExpression"
    [("object", VNode object); ("property", VNode (ident (i + 1) property)); ("computed", VBool true)].

Definition call (i : nat) (callee : node) (arguments : list node) : node :=
  mk i "CallExpression" [("callee", VNode callee); ("arguments", VArr (map VNode arguments))].

Definition require_ (i : nat) (path : string) : node := call i (ident (i + 1) "require") [literal (i + 2) path].

Definition variable (i : nat) (name : string) (refs : list RefId) : Variable_ :=
  mkVariable name 0 None [mkDef "Variable" None (ident i name) (mk (i + 1) "VariableDeclarator" [("id", VNode (ident i name))])] refs.

Definition import_ (i : nat) (name path : string) : Variable_ :=
  mkVariable name 0 None
    [mkDef "ImportBinding"
       (Some (mk i "ImportDeclaration" [("source", VNode (literal (i + 1) path))]))
       (ident (i + 2) name) (mk (i + 3) "ImportDefaultSpecifier" [])] [].

Definition written (i : nat) (v : VarId) (name : string) (value : node) : Reference :=
  mkReference (ident i name) [] 0 (Some v) (Some value) true false true.

(** [import lib from 'node:fs/promises'; const handle = lib.open();]
    [const a = b.x, b = a.y;]
    [import i from 'a/b'; const j = i.c();]
    [const m = require('a/b'), r = require('a/b').c();] *)
Definition variables : list Variable_ :=
  [import_ 10 "lib" "node:fs/promises"; variable 20 "handle" [0]%nat;
   variable 30 "a" [1]%nat; variable 35 "b" [2]%nat;
   import_ 40 "i" "a/b"; variable 45 "j" [3]%nat;
   variable 50 "m" [4]%nat; variable 55 "r" [5]%nat].

Definition references : list Reference :=
  [written 60 1 "handle" (call 61 (member 62 (ident 64 "lib") "open") []);
   written 70 2 "a" (member 71 (ident 73 "b") "x");
   written 75 3 "b" (member 76 (ident 78 "a") "y");
   written 80 5 "j" (call 81 (member 82 (ident 84 "i") "c") []);
   written 90 6 "m" (require_ 91 "a/b");
   written 95 7 "r" (call 96 (member 97 (require_ 99 "a/b") "c") [])].

Definition global_scope : Scope_ := mkScope (mk 0 "Program" []) None (seq 0 8) [].

Definition scopes : ScopeManager := mkScopeManager [global_scope] variables references (fun _ => Some 0%nat).

Definition name_of (n : node) : option (option string) := getFullyQualifiedName scopes n [] None.

End ModulesExample.

(** A call on a [require] is not followed like other calls: the path of the
    module is not split and the names after the call are lost. With
    [const j = i.c()] and [import i from 'a/b'], [j.d] is [a.b.c.d]; with
    [const r = require('a/b').c()], [r.d] is [a/b.c], the name of the call itself.
    [require('a/b').c] has no name when it is not called, although [m.c] has one
    when [m] is the value of the [require]. *)
Theorem chained_require_loses_names :
  let name_of := ModulesExample.name_of in
  name_of (ModulesExample.member 1 (ModulesExample.ident 3 "j") "d") = Some (Some "a.b.c.d")
  /\ name_of (ModulesExample.member 1 (ModulesExample.ident 3 "r") "d") = Some (Some "a/b.c")
  /\ name_of (ModulesExample.call 4 (ModulesExample.member 5 (ModulesExample.require_ 7 "a/b") "c") [])
     = Some (Some "a/b.c")
  /\ name_of (ModulesExample.member 1 (ModulesExample.ident 3 "m") "c") = Some (Some "a.b.c")
  /\ name_of (ModulesExample.member 5 (ModulesExample.require_ 7 "a/b") "c") = Some None.
Proof. by repeat split; vm_compute. Qed.

(** The name of a computed property is taken for the name of the member: [i\[k\]]
    has the name of [i.k], whatever the value of [k]. *)
Lemma computed_member_named :
  ModulesExample.name_of (ModulesExample.element 1 (ModulesExample.ident 3 "i") "k")
  = ModulesExample.name_of (ModulesExample.member 1 (ModulesExample.ident 3 "i") "k")
  /\ ModulesExample.name_of (ModulesExample.element 1 (ModulesExample.ident 3 "i") "k") = Some (Some "a.b.k").
Proof. by split; vm_compute. Qed.

(** ** Witnesses *)

(** [a.z], where [a] and [b] are defined by one another. *)
Lemma qualified_names_end_witness :
  getFullyQualifiedNameRaw ModulesExample.scopes 100
    (ModulesExample.member 1 (ModulesExample.ident 3 "a") "z") [] None [] = Some (Some "a.y.x.z").
Proof.
  destruct (qualified_names_end ModulesExample.scopes
    (ModulesExample.member 1 (ModulesExample.ident 3 "a") "z") [] None) as (name & H).
  rewrite (H 100%nat) by (by apply Nat.leb_le).
  rewrite <- (H 9%nat) by (by apply Nat.leb_le). by vm_compute.
Defined.

(** [handle.read] denotes [open.read] in the module it comes from. *)
Lemma handle_read_denoted :
  denotes ModulesExample.scopes [] (Some 0%nat)
    (ModulesExample.member 1 (ModulesExample.ident 3 "handle") "read") ["node:fs"; "promises"; "open"; "read"].
Proof.
  change ["node:fs"; "promises"; "open"; "read"] with (["node:fs"; "promises"; "open"] ++ ["read"]).
  eapply denotes_access; [by eapply access_member |].
  rewrite <- (app_nil_r ["node:fs"; _; _]).
  eapply (denotes_value _ _ _ _ 1%nat); [split_and!; [done | done | done | cbn; lia] | split; [by intros [?|?%elem_of_nil] | by split] | eexists; split; done | | by eapply takes_all].
  change ["node:fs"; "promises"; "open"] with ((["node:fs"; "promises"] ++ ["open"]) ++ []).
  eapply denotes_access; [apply access_call; [done | | done] |].
  { intros path (_ & (c & [= <-] & ? & _) & _). done. }
  eapply denotes_access; [by eapply access_member |].
  rewrite <- (app_nil_r ["node:fs"; _]).
  change ["node:fs"; "promises"] with (split_char "/" "node:fs/promises").
  eapply (denotes_import _ _ _ _ 0%nat); [split_and!; [done | done | done | cbn; lia] | | |].
  - split; [| by split]. intros [?|?%list_elem_of_singleton]; done.
  - eapply from_source; [done | by eexists].
  - apply imports_all. cbn. tauto.
Qed.

Lemma qualified_name_is_denoted_witness :
  getFullyQualifiedName ModulesExample.scopes
    (ModulesExample.member 1 (ModulesExample.ident 3 "handle") "read") [] None = Some (Some "fs.promises.open.read").
Proof.
  destruct (qualified_name_is_denoted ModulesExample.scopes
    (ModulesExample.member 1 (ModulesExample.ident 3 "handle") "read") None) as (r & E & H & _).
  rewrite E. f_equal. exact (H _ handle_read_denoted).
Defined.
