(* ===== verification/Pragmas.v ===== *)
(** * Pragmas: the directives of ESLint in comments

    The code of [packages/jsts/src/linter/pragmas.ts], which gives the names that
    users write in [eslint-disable] comments and inline configurations the names of
    the rules of SonarJS. Directives name the comment they come from (a shared
    object, mutated once) by its index. The metadata of the rules is generated: it
    is a parameter. *)

From Stdlib Require Import ZArith Lia Ascii.
From stdpp Require Import base list sets strings.
From S2P Require Import Prelude JsString Json.

Open Scope js_scope.

(** ** The mapping of names *)

(** What the mapping reads of the metadata of a rule. *)
Record RuleMeta := mkRuleMeta {
  sonarKey : string;
  eslintId : string;
  isDecorated : bool;
  externalRules : list string
}.

Definition sonarjs (key : string) : string := "sonarjs/" +:+ key.

Definition add_meta (mapping : list (string * string)) (meta : RuleMeta) : list (string * string) :=
  let ruleId := sonarjs (sonarKey meta) in
  let mapping := map_set (eslintId meta) ruleId (map_set (sonarKey meta) ruleId mapping) in
  if isDecorated meta
  then fold_left (fun mapping externalRule => map_set externalRule ruleId mapping) (externalRules meta) mapping
  else mapping.

(** The own properties of [eslintMapping], with the [ruleId] of their values. *)
Definition eslintMapping (customRules : list string) (ruleMetas : list RuleMeta) : list (string * string) :=
  fold_left add_meta ruleMetas
    (fold_left (fun mapping ruleId => map_set ruleId (sonarjs ruleId) mapping) customRules []).

(** The object has the properties of [Object.prototype] too; they are truthy, and
    have no [ruleId]. *)
Definition object_prototype : list string :=
  ["constructor"; "__proto__"; "toString"; "toLocaleString"; "valueOf"; "hasOwnProperty";
   "isPrototypeOf"; "propertyIsEnumerable"; "__defineGetter__"; "__defineSetter__";
   "__lookupGetter__"; "__lookupSetter__"].

Inductive mapped := Own (ruleId : string) | Inherited | Absent.

(** The [ruleId] of a directive: a name, or [null] for all the rules; [undefined]
    only comes from the mapping. *)
Inductive RuleId := Id (s : string) | NullId | UndefinedId.

#[export] Instance RuleId_eq_dec : EqDecision RuleId.
Proof. solve_decision. Defined.

(** [getRuleId], as the key of a property: that of [undefined] is its name. *)
Definition getRuleId (ruleId : RuleId) : string :=
  match ruleId with
  | Id s => default "" (last (split_char "/"%char s))
  | NullId | UndefinedId => "undefined"
  end.

Record Parent := mkParent { value : string; ruleIds : list RuleId }.
Record Directive := mkDirective { parentDirective : nat; d_ruleId : RuleId }.

Section Options.

Variable mapping : list (string * string).

(** [eslintMapping\[getRuleId(ruleId)\]] *)
Definition lookup_rule (ruleId : RuleId) : mapped :=
  match map_get (getRuleId ruleId) mapping with
  | Some r => Own r
  | None => if includes (getRuleId ruleId) object_prototype then Inherited else Absent
  end.

Definition ruleId_of (m : mapped) : RuleId :=
  match m with Own r => Id r | _ => UndefinedId end.

(** [getRule] *)
Definition getRule (ruleId : string) : RuleId := ruleId_of (lookup_rule (Id ruleId)).

(** ** [patchDirectives] *)

Definition text_of (r : RuleId) : string :=
  match r with Id s => s | NullId => "null" | UndefinedId => "undefined" end.

(** The names of a comment: [ruleId && ...], so that an empty name is kept. *)
Fixpoint patch_names (text : string) (l : list RuleId) : string * list RuleId :=
  match l with
  | [] => (text, [])
  | ruleId :: rest =>
      let keep := let (text, names) := patch_names text rest in (text, ruleId :: names) in
      match ruleId with
      | Id s =>
          if s =s "" then keep
          else match lookup_rule ruleId with
               | Absent => keep
               | mappedRule =>
                   let mappedId := ruleId_of mappedRule in
                   let (text, names) := patch_names (replace_all s (text_of mappedId) text) rest in
                   (text, mappedId :: names)
               end
      | _ => keep
      end
  end.

Definition patchParent (p : Parent) : Parent :=
  let (text, names) := patch_names (value p) (ruleIds p) in mkParent text names.

(** The loop on the directives, with the comments and those already mapped. *)
Fixpoint patch_loop (directives : list Directive) (parents : list Parent) (mappedParentDirectives : list nat)
  : list Directive * list Parent :=
  match directives with
  | [] => ([], parents)
  | directive :: rest =>
      match lookup_rule (d_ruleId directive) with
      | Absent =>
          let (ds, ps) := patch_loop rest parents mappedParentDirectives in (directive :: ds, ps)
      | m =>
          let p := parentDirective directive in
          let '(parents, mappedParentDirectives) :=
            if set_has p mappedParentDirectives then (parents, mappedParentDirectives)
            else (alter patchParent p parents, set_add p mappedParentDirectives) in
          let (ds, ps) := patch_loop rest parents mappedParentDirectives in
          (mkDirective p (ruleId_of m) :: ds, ps)
      end
  end.

Definition patchDirectives (disableDirectives : list Directive) (parents : list Parent)
  : list Directive * list Parent := patch_loop disableDirectives parents [].

(** ** [patchInlineOptions] *)

Definition patchInlineOptions (rules : list (string * json)) : list (string * json) :=
  fold_left (fun patchedOptions '(ruleId, options) =>
    match lookup_rule (Id ruleId) with
    | Own r => if r =s "" then patchedOptions else map_set r options patchedOptions
    | _ => patchedOptions
    end) rules [].

End Options.

(** ** The names after the mapping *)

Section Patched.

Variable mapping : list (string * string).

(** The name that takes the place of another: the one of the rule, the same when
    there is no such rule. *)
Definition resolve (r : RuleId) : RuleId :=
  match lookup_rule mapping r with
  | Absent => r
  | m => ruleId_of m
  end.

Definition known (r : RuleId) : bool :=
  match lookup_rule mapping r with Absent => false | _ => true end.

(** The names of comments: not empty, and [null] and [undefined] are none. *)
Definition written (r : RuleId) : Prop := exists s, r = Id s /\ s <> "".

Lemma patch_names_ids l : forall text, Forall written l -> (patch_names mapping text l).2 = resolve <$> l.
Proof.
  induction l as [|r l IH]; intros text H; [done |].
  apply Forall_cons_1 in H as [(s & -> & Hs) H]. cbn [patch_names fmap list_fmap].
  destruct (String.eqb_spec s ""); [done |]. unfold resolve at 1.
  destruct (lookup_rule mapping (Id s)) as [r| |]; cbn [ruleId_of];
    match goal with |- context [patch_names mapping ?t l] =>
      specialize (IH t H); destruct (patch_names mapping t l) as [text' names] end;
    cbn in *; by rewrite IH.
Qed.

Lemma patchParent_ids p : Forall written (ruleIds p) ->
  ruleIds (patchParent mapping p) = resolve <$> ruleIds p.
Proof.
  intros H. unfold patchParent. pose proof (patch_names_ids (ruleIds p) (value p) H) as E.
  by destruct (patch_names _ _ _).
Qed.

(** The comments that the loop maps: those of a directive with a known name. *)
Definition touched (directives : list Directive) (p : nat) : Prop :=
  exists d, d ∈ directives /\ parentDirective d = p /\ known (d_ruleId d) = true.

Lemma patch_loop_spec directives : forall parents done_,
  let '(ds, ps) := patch_loop mapping directives parents done_ in
  ds = (fun d => mkDirective (parentDirective d) (resolve (d_ruleId d))) <$> directives /\
  length ps = length parents /\
  forall p, (p ∈ done_ \/ ~ touched directives p -> ps !! p = parents !! p) /\
            (p ∉ done_ -> touched directives p -> ps !! p = patchParent mapping <$> parents !! p).
Proof.
  induction directives as [|d directives IH]; intros parents done_; cbn [patch_loop].
  { split; [done |]. split; [done |]. intros p. split; [done |]. intros _ (d & []%not_elem_of_nil & _). }
  assert (forall p, touched (d :: directives) p <->
    (parentDirective d = p /\ known (d_ruleId d) = true) \/ touched directives p) as Ht.
  { intros p. unfold touched. setoid_rewrite elem_of_cons. naive_solver. }
  assert (forall m, lookup_rule mapping (d_ruleId d) = m -> m <> Absent ->
    known (d_ruleId d) = true /\ resolve (d_ruleId d) = ruleId_of m) as Hm.
  { intros m E Hne. unfold known, resolve. rewrite E. by destruct m. }
  destruct (lookup_rule mapping (d_ruleId d)) eqn:E.
  3: { assert (known (d_ruleId d) = false /\ resolve (d_ruleId d) = d_ruleId d) as [Hk Hr].
       { unfold known, resolve. by rewrite E. }
       specialize (IH parents done_). destruct (patch_loop _ _ _ _) as [ds ps].
       destruct IH as (-> & L & H). split; [cbn; rewrite Hr; by destruct d |].
       split; [done |]. intros p. specialize (H p). specialize (Ht p). rewrite Hk in Ht.
       destruct H as [H1 H2]. split; [intros G; apply H1; tauto | intros G1 G2; apply H2; [done |]].
       by destruct Ht as [[[_ ?]|?] _]. }
  all: destruct (Hm _ eq_refl) as [Hk Hr]; [done |]; clear Hm;
    destruct (set_has (parentDirective d) done_) eqn:Hd;
    [apply set_has_spec in Hd | apply set_has_false in Hd];
    match goal with |- context [patch_loop _ _ ?ps ?dn] =>
      specialize (IH ps dn); destruct (patch_loop _ _ ps dn) as [ds ps'] end;
    destruct IH as (-> & L & H); (split; [cbn; by rewrite Hr |]).
  1, 3: split; [done |]; intros p; specialize (H p) as [H1 H2]; specialize (Ht p);
    (split; [intros G; apply H1; tauto | intros G1 G2; apply H2; [done |];
             apply Ht in G2 as [[<- _]|G2]; done]).
  all: rewrite length_alter in L; (split; [done |]); intros p; specialize (H p) as [H1 H2];
    specialize (Ht p); rewrite elem_of_set_add in H1, H2;
    (destruct (decide (p = parentDirective d)) as [->|Hne];
     [rewrite list_lookup_alter, decide_True in H1 by done | rewrite list_lookup_alter_ne in * by done]).
  1, 3: split; [intros [G|G]; [done | exfalso; apply G, Ht; by left] | intros _ _; apply H1; by do 2 left].
  all: split; [intros G; apply H1; tauto | intros G1 G2; apply H2; [tauto |]];
    apply Ht in G2 as [[G2 _]|G2]; [by subst | done].
Qed.

End Patched.

(** What ESLint gives: a directive for each name of a comment. *)
Definition directives_of (directives : list Directive) (parents : list Parent) : Prop :=
  forall p P, parents !! p = Some P ->
    Forall written (ruleIds P) /\
    forall r, r ∈ ruleIds P <-> written r /\ mkDirective p r ∈ directives.

(** C14: Every directive gets the name of the rule its name stands for (the plugin
    apart, an unknown name is kept), and so does each name in the list of its
    comment, once, in order, although a comment is shared by the directives of all
    its names: comments and directives agree after the mapping as before. *)
Theorem patched_directives_agree mapping directives parents :
  directives_of directives parents ->
  let '(ds, ps) := patchDirectives mapping directives parents in
  ds = (fun d => mkDirective (parentDirective d) (resolve mapping (d_ruleId d))) <$> directives /\
  length ps = length parents /\
  forall p P, parents !! p = Some P ->
    exists P', ps !! p = Some P' /\ ruleIds P' = resolve mapping <$> ruleIds P.
Proof.
  intros H. unfold patchDirectives. pose proof (patch_loop_spec mapping directives parents []) as S.
  destruct (patch_loop _ _ _ _) as [ds ps]. destruct S as (-> & L & S). split; [done |]. split; [done |].
  intros p P HP. destruct (H p P HP) as [W R]. specialize (S p) as [S1 S2].
  destruct (existsb (fun d => Nat.eqb (parentDirective d) p && known mapping (d_ruleId d)) directives) eqn:E.
  - apply existsb_exists in E as (d & Hd & [Hp%Nat.eqb_eq K]%andb_true_iff). apply list_elem_of_In in Hd.
    exists (patchParent mapping P). rewrite S2, HP; [| set_solver | by exists d].
    split; [done |]. by apply patchParent_ids.
  - assert (forall d, d ∈ directives -> parentDirective d = p -> known mapping (d_ruleId d) = false) as K.
    { intros d Hd Hp. apply not_true_iff_false. intros K. apply not_true_iff_false in E. apply E.
      apply existsb_exists. exists d. apply list_elem_of_In in Hd. split; [done |].
      by rewrite (proj2 (Nat.eqb_eq _ _) Hp). }
    exists P. rewrite S1, HP.
    2: { right. intros (d & Hd & Hp & Kd). rewrite (K d Hd Hp) in Kd. done. }
    split; [done |]. apply list_eq_same_length with (n := length (ruleIds P)); rewrite ?length_fmap; [done.. |].
    intros i x y _ Hx Hy. rewrite list_lookup_fmap, Hx in Hy. injection Hy as <-.
    assert (x ∈ ruleIds P) as Hin by (by eapply list_elem_of_lookup_2). apply R in Hin as [_ Hin].
    specialize (K _ Hin eq_refl). cbn in K. unfold known, resolve in *. by destruct (lookup_rule mapping x).
Qed.

(** ** Examples *)

Module PragmasExample.

Definition metas : list RuleMeta :=
  [mkRuleMeta "S1481" "no-unused-vars" true ["@typescript-eslint/no-unused-vars"; "no-unused-vars"];
   mkRuleMeta "S6676" "no-useless-call" false []].

Definition mapping : list (string * string) := eslintMapping ["symbol-highlighting"] metas.

(** [/* eslint-disable no-useless-call, eqeqeq */] and
    [/* eslint-disable sonarjs/S1481 */] *)
Definition parents : list Parent :=
  [mkParent "no-useless-call, eqeqeq" [Id "no-useless-call"; Id "eqeqeq"];
   mkParent "sonarjs/S1481" [Id "sonarjs/S1481"]].

Definition directives : list Directive :=
  [mkDirective 0 (Id "no-useless-call"); mkDirective 0 (Id "eqeqeq"); mkDirective 1 (Id "sonarjs/S1481")].

(** [/* eslint-disable constructor */] *)
Definition odd : list Parent := [mkParent "constructor" [Id "constructor"]].

End PragmasExample.

(** A name of [Object.prototype] is a known rule, without a name: the directive
    loses its name, and its comment reads [undefined]. In inline options such a
    name is skipped. *)
Lemma prototype_name_lost :
  patchDirectives PragmasExample.mapping [mkDirective 0 (Id "constructor")] PragmasExample.odd
  = ([mkDirective 0 UndefinedId], [mkParent "undefined" [UndefinedId]])
  /\ patchInlineOptions PragmasExample.mapping [("constructor", JNum 0); ("no-useless-call", JNum 0)]
     = [("sonarjs/S6676", JNum 0)].
Proof. by split; vm_compute. Qed.

(** A name that is part of another one of the same comment is replaced in it too:
    the text of the comment no longer has the second name. *)
Lemma overlapping_names_garbled :
  let names := [Id "no-unused-vars"; Id "@typescript-eslint/no-unused-vars"] in
  patchParent PragmasExample.mapping (mkParent "no-unused-vars, @typescript-eslint/no-unused-vars" names)
  = mkParent "sonarjs/S1481, @typescript-eslint/sonarjs/S1481" [Id "sonarjs/S1481"; Id "sonarjs/S1481"].
Proof. by vm_compute. Qed.

Lemma patched_directives_agree_witness :
  let '(ds, ps) := patchDirectives PragmasExample.mapping PragmasExample.directives PragmasExample.parents in
  ds = [mkDirective 0 (Id "sonarjs/S6676"); mkDirective 0 (Id "eqeqeq"); mkDirective 1 (Id "sonarjs/S1481")]
  /\ exists P', ps !! 0%nat = Some P' /\ ruleIds P' = [Id "sonarjs/S6676"; Id "eqeqeq"].
Proof.
  assert (directives_of PragmasExample.directives PragmasExample.parents) as H.
  { intros [|[|p]] P; [intros [= <-] | intros [= <-] | done]; (split;
      [repeat first [apply Forall_nil_2 | apply Forall_cons_2]; by eexists |]);
      intros r; cbn [ruleIds]; rewrite !elem_of_cons, elem_of_nil; unfold written, PragmasExample.directives;
      rewrite !elem_of_cons, elem_of_nil; naive_solver. }
  pose proof (patched_directives_agree PragmasExample.mapping _ _ H) as A.
  destruct (patchDirectives _ _ _) as [ds ps]. destruct A as (-> & _ & A).
  split; [by vm_compute |]. destruct (A 0%nat _ eq_refl) as (P' & E & R).
  exists P'. split; [exact E |]. rewrite R. by vm_compute.
Defined.
