(* ===== verification/Tables.v ===== *)
(** * Tables: the grid of a JSX table and the rules on its headers

    The code of [rules/helpers/table.ts], [helpers/isHtmlElement.ts],
    [helpers/accessibility.ts] and of the rules S5256 (tables with a header), S5257
    (layout tables) and S5260 (references to headers). The functions of the package
    [jsx-ast-utils] are parameters, and so is the text [String] gives of fractions,
    of very large numbers and of objects. *)

From Stdlib Require Import ZArith QArith Qround Lia Ascii.
From stdpp Require Import base list sets strings pretty.
From S2P Require Import Prelude JsString Json Estree.

Open Scope js_scope.
Open Scope Z_scope.

(** ** [String(value)], [parseInt(text)] and [text.split(/\s+/)] *)

(** The value of a digit in a base, when it is one. *)
Definition digit (base : Z) (c : ascii) : option Z :=
  let n := Z.of_nat (nat_of_ascii (lower_ascii c)) in
  let d := if (48 <=? n) && (n <=? 57) then n - 48 else if (97 <=? n) && (n <=? 122) then n - 87 else base in
  if d <? base then Some d else None.

Fixpoint parse_digits (base : Z) (s : string) (value : Z) : Z :=
  match s with
  | String c r => match digit base c with Some d => parse_digits base r (value * base + d) | None => value end
  | EmptyString => value
  end.

(** [None] is [NaN]. *)
Definition parse_unsigned (base : Z) (s : string) : option Z :=
  match s with
  | String c _ => match digit base c with Some _ => Some (parse_digits base s 0) | None => None end
  | EmptyString => None
  end.

Definition parseInt (s : string) : option Z :=
  let s := trimStart s in
  let '(sign, s) :=
    match s with
    | String "-" r => (-1, r)
    | String "+" r => (1, r)
    | _ => (1, s)
    end in
  let magnitude :=
    match s with
    | String "0" (String x r) =>
        if Ascii.eqb (lower_ascii x) "x" then parse_unsigned 16 r else parse_unsigned 10 s
    | _ => parse_unsigned 10 s
    end in
  Z.mul sign <$> magnitude.

Fixpoint split_spaces (fuel : nat) (piece s : string) : list string :=
  match fuel with
  | O => [piece +:+ s]
  | S fuel' =>
      match strip_space whitespace s with
      | Some s' => piece :: split_spaces fuel' "" (trimStart s')
      | None =>
          match s with
          | EmptyString => [piece]
          | String c r => split_spaces fuel' (piece +:+ String c EmptyString) r
          end
      end
  end.

(** ** [helpers/isHtmlElement.ts] *)

Definition HTML_TAG_NAMES : list string :=
  ["a"; "abbr"; "acronym"; "address"; "applet"; "area"; "article"; "aside"; "audio"; "b"; "base";
   "basefont"; "bdi"; "bdo"; "bgsound"; "big"; "blink"; "blockquote"; "body"; "br"; "button";
   "canvas"; "caption"; "center"; "cite"; "code"; "col"; "colgroup"; "command"; "content"; "data";
   "datalist"; "dd"; "del"; "details"; "dfn"; "dialog"; "dir"; "div"; "dl"; "dt"; "element"; "em";
   "embed"; "fieldset"; "figcaption"; "figure"; "font"; "footer"; "form"; "frame"; "frameset";
   "h1"; "h2"; "h3"; "h4"; "h5"; "h6"; "head"; "header"; "hgroup"; "hr"; "html"; "i"; "iframe";
   "image"; "img"; "input"; "ins"; "isindex"; "kbd"; "keygen"; "label"; "legend"; "li"; "link";
   "listing"; "main"; "map"; "mark"; "marquee"; "math"; "menu"; "menuitem"; "meta"; "meter";
   "multicol"; "nav"; "nextid"; "nobr"; "noembed"; "noframes"; "noscript"; "object"; "ol";
   "optgroup"; "option"; "output"; "p"; "param"; "picture"; "plaintext"; "pre"; "progress"; "q";
   "rb"; "rbc"; "rp"; "rt"; "rtc"; "ruby"; "s"; "samp"; "script"; "search"; "section"; "select";
   "shadow"; "slot"; "small"; "source"; "spacer"; "span"; "strike"; "strong"; "style"; "sub";
   "summary"; "sup"; "svg"; "table"; "tbody"; "td"; "template"; "textarea"; "tfoot"; "th"; "thead";
   "time"; "title"; "tr"; "track"; "tt"; "u"; "ul"; "var"; "video"; "wbr"; "xmp"].

Definition element_name (n : node) : option node :=
  o ← get_node n "openingElement"; get_node o "name".

(** The name of an element that is an identifier. *)
Definition identifier_name (n : node) : option string :=
  match element_name n with
  | Some name => if type_of name =s "JSXIdentifier" then get_str name "name" else None
  | None => None
  end.

Definition isHtmlElement (n : node) : bool :=
  match identifier_name n with Some name => includes name HTML_TAG_NAMES | None => false end.

(** ** Cells *)

Record TableCell := mkCell {
  isHeader : bool;
  headers : option (list string);
  id : option string;
  cell_node : node;
  internalNodeId : nat
}.

(** [TableCellInternal]; a span of [None] is [NaN]. *)
Record TableCellInternal := mkInternal { cell : TableCell; rowSpan : option Z }.

Definition MAX_ROW_SPAN : Z := 65534.
Definition MAX_INVALID_COL_SPAN : Z := 10000.
Definition KNOWN_TABLE_STRUCTURE_ELEMENTS : list string := ["thead"; "tbody"; "tfoot"].

(** The settings of [jsx-a11y]. *)
Record A11ySettings := mkSettings {
  polymorphicPropName : option string;
  polymorphicAllowList : option (list string);
  components : option (list (string * string))
}.

Section Jsx.

(** [jsx-ast-utils]: the attribute with a name, its value when it is a literal, the
    name of an element. *)
Variable getProp : list value -> string -> option node.
Variable getLiteralPropValue : option node -> value.
Variable elementType : node -> string.
Variable other_text : value -> string.
Variable settings : option A11ySettings.

Definition String_ (v : value) : string :=
  match v with
  | VStr s => s
  | VUndefined => "undefined"
  | VNull => "null"
  | VBool b => if b then "true" else "false"
  | VBigInt z => pretty z
  | VNum NumNaN => "NaN"
  | VNum (NumInfinity negative) => if negative then "-Infinity" else "Infinity"
  | VNum (NumQ q) =>
      if Qeq_bool q (inject_Z (Qfloor q)) && (Z.abs (Qfloor q) <? 10 ^ 21)
      then pretty (Qfloor q) else other_text v
  | _ => other_text v
  end.

(** *** [helpers/accessibility.ts] *)

(** [rawType] is replaced when the component of the setting is polymorphic. *)
Definition getElementType (opening : node) : string :=
  let setting {A} (f : A11ySettings -> option A) : option A := s ← settings; f s in
  let polymorphicProp :=
    match setting polymorphicPropName with
    | Some name => if name =s "" then VUndefined
                   else getLiteralPropValue (getProp (get_array opening "attributes") name)
    | None => VUndefined
    end in
  let rawType := elementType opening in
  let rawType :=
    if truthy polymorphicProp
       && match setting polymorphicAllowList with Some l => includes rawType l | None => true end
    then String_ polymorphicProp else rawType in
  match setting components with
  | Some componentMap => default rawType (map_get rawType componentMap)
  | None => rawType
  end.

Definition attribute (opening : node) (name : string) : option value :=
  (fun attr => getLiteralPropValue (Some attr)) <$> getProp (get_array opening "attributes") name.

Definition isPresentationTable (opening : node) : bool :=
  (toLowerCase_ascii (getElementType opening) =s "table")
  && match attribute opening "role" with
     | Some role => includes (toLowerCase_ascii (String_ role)) ["presentation"; "none"]
     | None => false
     end.

(** *** Spans and attributes of a cell *)

Definition opening_of (n : node) : node :=
  match get_node n "openingElement" with Some o => o | None => n end.

Definition computeSpan (tree : node) (spanKey : string) : option Z :=
  match attribute (opening_of tree) spanKey with
  | Some v => parseInt (String_ v)
  | None => Some 1
  end.

Definition rowSpan_of (tree : node) : option Z :=
  match computeSpan tree "rowspan" with
  | Some value => Some (if MAX_ROW_SPAN <? value then MAX_ROW_SPAN else value)
  | None => None
  end.

Definition colSpan_of (tree : node) : option Z :=
  match computeSpan tree "colspan" with
  | Some value => Some (if MAX_INVALID_COL_SPAN <? value then 1 else value)
  | None => None
  end.

Definition getHeaders (tree : node) : option (list string) :=
  match attribute (opening_of tree) "headers" with
  | Some headerVal =>
      let s := String_ headerVal in
      if truthy headerVal && negb (trim s =s "") then Some (split_spaces (S (String.length s)) "" s) else None
  | None => None
  end.

Definition getID (tree : node) : option string := String_ <$> attribute (opening_of tree) "id".

(** *** Rows *)

Definition is_comment_or_text (child : node) : bool :=
  ((type_of child =s "JSXExpressionContainer")
   && opt_type_is (get_node child "expression") "JSXEmptyExpression")
  || (type_of child =s "JSXText").

Definition isTdOrTh (child : node) : bool :=
  (type_of child =s "JSXElement")
  && match identifier_name child with Some name => includes name ["td"; "th"] | None => false end.

(** The loop on the children of a row: the cells, the number of cells met so far
    and whether every child is a cell. *)
Fixpoint extract_cells (children : list node) (internalNodeCount : nat)
  : list TableCellInternal * nat * bool :=
  match children with
  | [] => ([], internalNodeCount, true)
  | child :: rest =>
      if is_comment_or_text child then extract_cells rest internalNodeCount
      else if negb (isTdOrTh child) then
        let '(row, count, _) := extract_cells rest internalNodeCount in (row, count, false)
      else
        let isTh := match identifier_name child with Some name => name =s "th" | None => false end in
        let c := mkCell isTh (getHeaders child) (getID child) child internalNodeCount in
        let copies := Z.to_nat (default 0 (colSpan_of child)) in
        let '(row, count, known) := extract_cells rest (S internalNodeCount) in
        (repeat (mkInternal c (rowSpan_of child)) copies ++ row, count, known)
  end.

(** [extractRow]: [None] is [null]. *)
Definition extractRow (tree : node) (internalNodeCount : nat) : option (list TableCellInternal) * nat :=
  let '(row, count, known) := extract_cells (get_nodes tree "children") internalNodeCount in
  (if known then Some row else None, count).

(** [extractRows]: the loop on the children, given the recursive call. *)
Fixpoint extract_children (extractRows : node -> option (list (list TableCellInternal)))
    (children : list node) (internalNodeCount : nat) : list (list TableCellInternal) * bool :=
  match children with
  | [] => ([], true)
  | child :: rest =>
      let isElement := type_of child =s "JSXElement" in
      let childType := if isElement then toLowerCase_ascii (getElementType (opening_of child)) else "" in
      let '(extractedRow, count) :=
        if childType =s "tr" then extractRow child internalNodeCount else (None, internalNodeCount) in
      let '(rows, known) := extract_children extractRows rest count in
      let handleInternalStructure (tree : node) :=
        match extractRows tree with
        | Some extractedRows => (extractedRows ++ rows, known)
        | None => (rows, false)
        end in
      if isElement then
        if childType =s "tr" then
          match extractedRow with
          | Some row => (row :: rows, known)
          | None => (rows, false)
          end
        else if childType =s "table" then (rows, known)
        else if includes childType KNOWN_TABLE_STRUCTURE_ELEMENTS then handleInternalStructure child
        else if negb (isHtmlElement child) then (rows, false)
        else (rows, known)
      else if (type_of child =s "JSXExpressionContainer")
              && negb (opt_type_is (get_node child "expression") "JSXEmptyExpression") then (rows, false)
      else if type_of child =s "JSXFragment" then handleInternalStructure child
      else (rows, known)
  end.

(** The nesting of a node is less than its size. *)
Fixpoint extractRows_fuel (fuel : nat) (tree : node) : option (list (list TableCellInternal)) :=
  match fuel with
  | O => None
  | S fuel' =>
      let (rows, known) := extract_children (extractRows_fuel fuel') (get_nodes tree "children") 0 in
      if known then Some rows else None
  end.

Definition extractRows (tree : node) : option (list (list TableCellInternal)) :=
  extractRows_fuel (node_size tree) tree.

(** *** The grid *)

(** What the loop on the columns gives: the columns, the cells of the row, and the
    variables [usedCurrentRow] and (negated) [onlyMaxRowSpan]. *)
Record RowStep := mkRowStep {
  columns : list (option TableCellInternal);
  resultRow : list TableCell;
  usedCurrentRow : bool;
  someFiniteSpan : bool
}.

(** The cell of a column after the row: [rowSpan--] when it is positive. *)
Definition after_row (currentCell : TableCellInternal) : option TableCellInternal * bool :=
  match rowSpan currentCell with
  | Some span =>
      if 0 <? span
      then (if span - 1 =? 0 then None else Some (mkInternal (cell currentCell) (Some (span - 1))), true)
      else (Some currentCell, false)
  | None => (Some currentCell, false)
  end.

(** [incoming] are the cells of the current row from [indexInRow] on. *)
Fixpoint grid_row (cols : list (option TableCellInternal)) (incoming : list TableCellInternal) : RowStep :=
  match cols with
  | [] => mkRowStep [] [] false false
  | col :: rest =>
      let '(currentCell, incoming, used) :=
        match col, incoming with
        | Some c, _ => (Some c, incoming, false)
        | None, c :: incoming' => (Some c, incoming', true)
        | None, [] => (None, [], false)
        end in
      let step := grid_row rest incoming in
      match currentCell with
      | None => mkRowStep (None :: columns step) (resultRow step) (usedCurrentRow step) (someFiniteSpan step)
      | Some c =>
          let (col', finite) := after_row c in
          mkRowStep (col' :: columns step) (cell c :: resultRow step) (used || usedCurrentRow step)
            (finite || someFiniteSpan step)
      end
  end.

(** The loop on the rows that are left; [None] is running out of fuel. *)
Fixpoint grid_loop (fuel : nat) (cols : list (option TableCellInternal)) (rows : list (list TableCellInternal))
  : option (list (list TableCell)) :=
  match rows with
  | [] => Some []
  | row :: rest =>
      match fuel with
      | O => None
      | S fuel' =>
          let step := grid_row cols row in
          if negb (someFiniteSpan step) then Some []
          else cons (resultRow step)
                 <$> grid_loop fuel' (columns step) (if usedCurrentRow step then rest else rows)
      end
  end.

(** The rows that a cell can take. *)
Definition span_of (c : TableCellInternal) : nat := Z.to_nat (default 0 (rowSpan c)).

Definition spans_of (row : list TableCellInternal) : nat := sum_list_with span_of row.

Definition grid_of (rows : list (list TableCellInternal)) : option (list (list TableCell)) :=
  match rows with
  | [] => Some []
  | first :: _ =>
      grid_loop (S (sum_list_with spans_of rows)) (repeat None (length first)) rows
  end.

(** [computeGrid]: the outer option is the fuel, the inner one [null]. *)
Definition computeGrid (tree : node) : option (option (list (list TableCell))) :=
  match extractRows tree with
  | Some rows => Some <$> grid_of rows
  | None => Some None
  end.

(** ** Rule S5256: tables with a header *)

Definition header_row (grid : list (list TableCell)) : bool := existsb (forallb isHeader) grid.

Definition header_column (grid : list (list TableCell)) : bool :=
  existsb (fun col => forallb (fun row => match row !! col with Some c => isHeader c | None => true end) grid)
    (seq 0 (length (default [] (head grid)))).

Definition checkValidTable (grid : option (list (list TableCell))) : bool :=
  match grid with
  | None => true
  | Some [] => false
  | Some g => header_row g || header_column g
  end.

(** Whether a table is reported; [None] is running out of fuel. *)
Definition S5256_JSXElement (tree : node) : option bool :=
  let opening := opening_of tree in
  if (getElementType opening =s "table")
     && negb (isPresentationTable opening)
     && negb match attribute opening "aria-hidden" with Some (VBool true) => true | _ => false end
  then negb ∘ checkValidTable <$> computeGrid tree
  else Some false.

(** ** Rule S5260: references to headers *)

Record BlockInfo := mkBlock { minRow : nat; maxRow : nat; minCol : nat; maxCol : nat; block_cell : TableCell }.

(** The body of the loops on rows and columns. *)
Definition add_position (blocks : list (nat * BlockInfo)) (row col : nat) (c : TableCell) : list (nat * BlockInfo) :=
  match headers c with
  | None => blocks
  | Some _ =>
      let info := match map_get (internalNodeId c) blocks with
                  | Some old => mkBlock (minRow old) row (minCol old) col (block_cell old)
                  | None => mkBlock row row col col c
                  end in
      map_set (internalNodeId c) info blocks
  end.

Definition positions (grid : list (list TableCell)) : list (nat * nat * TableCell) :=
  concat (imap (fun row cells => imap (fun col c => (row, col, c)) cells) grid).

Definition compileBlockInfo (grid : list (list TableCell)) : list (nat * BlockInfo) :=
  fold_left (fun blocks '(row, col, c) => add_position blocks row col c) (positions grid) [].

Definition header_ids (cells : list TableCell) : list string :=
  set_add_all [] (omap (fun c => if isHeader c then match id c with Some s => if s =s "" then None else Some s | None => None end else None) cells).

Definition rowHeaders (grid : list (list TableCell)) : list (list string) := map header_ids grid.

Definition colHeaders (grid : list (list TableCell)) : list (list string) :=
  map (fun col => header_ids (omap (fun row => row !! col) grid)) (seq 0 (length (default [] (head grid)))).

(** [slice(from, to + 1)] *)
Definition between {A} (from to : nat) (l : list A) : list A := take (S to - from) (drop from l).

(** The reports of a block: the header, and whether it is in another row or column. *)
Definition check_block (grid : list (list TableCell)) (b : BlockInfo) : list (node * string * bool) :=
  match headers (block_cell b) with
  | Some hs =>
      let actualHeaders := concat (between (minCol b) (maxCol b) (colHeaders grid)
                                   ++ between (minRow b) (maxRow b) (rowHeaders grid)) in
      let allHeaders := concat (rowHeaders grid ++ colHeaders grid) in
      omap (fun header => if includes header actualHeaders then None
                          else Some (cell_node (block_cell b), header, includes header allHeaders)) hs
  | None => []
  end.

Definition verifyHeaderReferences (grid : option (list (list TableCell))) : list (node * string * bool) :=
  match grid with
  | Some g => flat_map (fun kv => check_block g kv.2) (compileBlockInfo g)
  | None => []
  end.

Definition S5260_JSXElement (tree : node) : option (list (node * string * bool)) :=
  if getElementType (opening_of tree) =s "table"
  then verifyHeaderReferences <$> computeGrid tree
  else Some [].

(** ** Rule S5257: layout tables *)

Definition S5257_JSXOpeningElement (opening : node) : bool := isPresentationTable opening.

End Jsx.

(** ** The size of a grid *)

Section Bounds.

Local Open Scope nat_scope.

Definition budget (cols : list (option TableCellInternal)) : nat :=
  sum_list_with (fun col => match col with Some c => span_of c | None => 0 end) cols.

Lemma after_row_budget c col finite : after_row c = (col, finite) ->
  (match col with Some c' => span_of c' | None => 0 end) + Nat.b2n finite <= span_of c.
Proof.
  unfold after_row, span_of. destruct (rowSpan c) as [span|] eqn:E; cbn.
  - destruct (Z.ltb_spec 0 span); cbn.
    + destruct (Z.eqb_spec (span - 1) 0); intros [= <- <-]; cbn; lia.
    + intros [= <- <-]. cbn. rewrite E. cbn. lia.
  - intros [= <- <-]. cbn. rewrite E. cbn. lia.
Qed.

(** A row takes cells from the current row of the table when it uses it, and every
    cell with a span left spends a row of it. *)
Lemma grid_row_spends cols : forall incoming,
  let step := grid_row cols incoming in
  length (columns step) = length cols /\
  length (resultRow step) <= length cols /\
  exists k, (usedCurrentRow step = false -> k = 0) /\
    budget (columns step) + Nat.b2n (someFiniteSpan step) <= budget cols + spans_of (take k incoming).
Proof.
  induction cols as [|col cols IH]; intros incoming; cbn zeta.
  { cbn. split; [done |]. split; [done |]. exists 0. cbn. lia. }
  cbn [grid_row].
  destruct col as [c|]; [| destruct incoming as [|c incoming]].
  - destruct (IH incoming) as (L & R & k & U & B). destruct (after_row c) as [col' finite] eqn:E.
    apply after_row_budget in E. cbn [columns resultRow usedCurrentRow someFiniteSpan length orb].
    split; [lia |]. split; [lia |]. exists k. split; [done |]. unfold budget in *. cbn [sum_list_with].
    destruct finite, (someFiniteSpan _); cbn [orb Nat.b2n] in *; lia.
  - destruct (IH []) as (L & R & k & U & B). cbn [columns resultRow usedCurrentRow someFiniteSpan length orb].
    split; [lia |]. split; [lia |]. exists k. split; [done |]. unfold budget in *. cbn [sum_list_with]. lia.
  - destruct (IH incoming) as (L & R & k & U & B). destruct (after_row c) as [col' finite] eqn:E.
    apply after_row_budget in E. cbn [columns resultRow usedCurrentRow someFiniteSpan length orb].
    split; [lia |]. split; [lia |]. exists (S k). split; [done |]. cbn [take].
    unfold budget, spans_of in *. cbn [sum_list_with].
    destruct finite, (someFiniteSpan _); cbn [orb Nat.b2n] in *; lia.
Qed.

Lemma spans_take k row : spans_of (take k row) <= spans_of row.
Proof.
  unfold spans_of. revert k. induction row as [|c row IH]; intros [|k]; cbn; [lia.. |].
  specialize (IH k). lia.
Qed.

Lemma grid_loop_bounded fuel : forall cols rows,
  budget cols + sum_list_with spans_of rows < fuel ->
  exists grid, grid_loop fuel cols rows = Some grid
    /\ length grid <= budget cols + sum_list_with spans_of rows
    /\ Forall (fun row => length row <= length cols) grid.
Proof.
  induction fuel as [|fuel IH]; intros cols rows H; [lia |].
  destruct rows as [|row rest]; [exists []; split; [done |]; split; [cbn; lia | constructor] |].
  cbn [grid_loop]. destruct (grid_row_spends cols row) as (L & R & k & U & B).
  destruct (someFiniteSpan (grid_row cols row)) eqn:F; cbn [negb Nat.b2n] in *.
  2: { exists []. split; [done |]. split; [cbn; lia | constructor]. }
  assert (spans_of (take k row) <= if usedCurrentRow (grid_row cols row) then spans_of row else 0) as K.
  { destruct (usedCurrentRow _); [apply spans_take | by rewrite (U eq_refl)]. }
  destruct (IH (columns (grid_row cols row)) (if usedCurrentRow (grid_row cols row) then rest else row :: rest))
    as (grid & E & G & W).
  - destruct (usedCurrentRow _); cbn [sum_list_with] in *; lia.
  - exists (resultRow (grid_row cols row) :: grid). rewrite E. split; [done |]. split.
    + cbn [length]. destruct (usedCurrentRow _); cbn [sum_list_with] in *; lia.
    + constructor; [done |]. by rewrite L in W.
Qed.

Lemma budget_empty n : budget (repeat None n) = 0.
Proof. by induction n. Qed.

Lemma grid_of_bounded rows :
  exists grid, grid_of rows = Some grid
    /\ length grid <= sum_list_with spans_of rows
    /\ Forall (fun row => length row <= length (default [] (head rows))) grid.
Proof.
  destruct rows as [|row rows]; [by exists [] |]. unfold grid_of. cbn [head default].
  destruct (grid_loop_bounded (S (sum_list_with spans_of (row :: rows))) (repeat None (length row)) (row :: rows))
    as (grid & E & G & W); [rewrite budget_empty; lia |].
  exists grid. rewrite budget_empty in G. rewrite repeat_length in W. done.
Qed.

(** *** The cells of a table *)

Section Cells.

Variable getProp : list value -> string -> option node.
Variable getLiteralPropValue : option node -> value.
Variable elementType : node -> string.
Variable other_text : value -> string.
Variable settings : option A11ySettings.

Notation spans_bounded := (Forall (fun c => span_of c <= Z.to_nat MAX_ROW_SPAN)).

Lemma extract_cells_bounded children : forall n,
  spans_bounded (extract_cells getProp getLiteralPropValue other_text children n).1.1.
Proof.
  induction children as [|child rest IH]; intros n; cbn [extract_cells]; [constructor |].
  destruct (is_comment_or_text child); [apply IH |]. destruct (negb (isTdOrTh child)).
  - specialize (IH n). by destruct (extract_cells _ _ _ rest n) as [[? ?] ?].
  - specialize (IH (S n)). destruct (extract_cells _ _ _ rest (S n)) as [[row ?] ?]. cbn [fst] in *.
    apply Forall_app_2; [| done]. apply Forall_forall. intros c Hc.
    apply list_elem_of_In, repeat_spec in Hc as ->. unfold span_of, rowSpan_of. cbn [rowSpan].
    destruct (computeSpan _ _ _ _ _) as [v|]; cbn; [| lia]. destruct (Z.ltb_spec MAX_ROW_SPAN v); lia.
Qed.

Lemma extract_children_bounded call children : forall n,
  (forall tree rows, call tree = Some rows -> Forall spans_bounded rows) ->
  Forall spans_bounded
    (extract_children getProp getLiteralPropValue elementType other_text settings call children n).1.
Proof.
  induction children as [|child rest IH]; intros n H; cbn [extract_children]; [constructor |].
  assert (forall n row, (extractRow getProp getLiteralPropValue other_text child n).1 = Some row ->
    spans_bounded row) as Hrow.
  { intros m row. unfold extractRow. pose proof (extract_cells_bounded (get_nodes child "children") m) as B.
    destruct (extract_cells _ _ _ _ m) as [[cells ?] [|]]; [| done]. by intros [= <-]. }
  set (childType := if type_of child =s "JSXElement" then _ else _).
  specialize (Hrow n).
  destruct (if childType =s "tr" then _ else _) as [extractedRow count] eqn:Ex.
  specialize (IH count H). destruct (extract_children _ _ _ _ _ call rest count) as [rows known]. cbn in IH.
  assert (forall b, Forall spans_bounded (match call child with Some r => (r ++ rows, b) | None => (rows, false) end).1)
    as Hcall.
  { intros b. destruct (call child) as [r|] eqn:Ec; [| done]. apply Forall_app_2; [by eapply H | done]. }
  destruct (type_of child =s "JSXElement"); [| by repeat case_goal].
  destruct (childType =s "tr"); [| by repeat case_goal].
  rewrite Ex in Hrow. destruct extractedRow; [constructor; [by apply Hrow | done] | done].
Qed.

Lemma extractRows_bounded fuel : forall tree rows,
  extractRows_fuel getProp getLiteralPropValue elementType other_text settings fuel tree = Some rows ->
  Forall spans_bounded rows.
Proof.
  induction fuel as [|fuel IH]; intros tree rows; cbn [extractRows_fuel]; [done |].
  pose proof (extract_children_bounded _ (get_nodes tree "children") 0 IH) as B.
  destruct (extract_children _ _ _ _ _ _ _ 0) as [r [|]]; [| done]. by intros [= <-].
Qed.

(** The construction of the grid of a table ends, whatever the attributes of
    its cells (also spans that are no numbers, negative or huge): a grid has at most
    65534 rows for each cell of the table, and its rows are not longer than the
    first row of the table. *)
Theorem grid_is_bounded tree :
  exists grid, computeGrid getProp getLiteralPropValue elementType other_text settings tree = Some grid /\
    match extractRows getProp getLiteralPropValue elementType other_text settings tree, grid with
    | Some rows, Some g =>
        length g <= Z.to_nat MAX_ROW_SPAN * sum_list_with length rows /\
        Forall (fun row => length row <= length (default [] (head rows))) g
    | None, None => True
    | _, _ => False
    end.
Proof.
  unfold computeGrid. destruct (extractRows _ _ _ _ _ tree) as [rows|] eqn:E; [| by exists None].
  destruct (grid_of_bounded rows) as (g & -> & L & W). exists (Some g). split; [done |]. split; [| done].
  etransitivity; [exact L |]. apply extractRows_bounded in E. clear L W.
  induction E as [|row rows B E IH]; cbn [sum_list_with]; [lia |].
  rewrite Nat.mul_add_distr_l. apply Nat.add_le_mono; [| exact IH]. clear -B.
  induction B as [|c row Hc B IH]; cbn [spans_of sum_list_with length]; [lia |].
  unfold spans_of in *. rewrite Nat.mul_succ_r. cbn [sum_list_with]. lia.
Qed.

End Cells.

End Bounds.

(** ** Tables without row spans *)

Section Plain.

Local Open Scope nat_scope.

Fixpoint non_empty_rows {A} (rows : list (list A)) : list (list A) :=
  match rows with
  | [] => []
  | row :: rest => match row with [] => [] | _ => row :: non_empty_rows rest end
  end.

Lemma plain_row n : forall row, Forall (fun c => rowSpan c = Some 1%Z) row ->
  grid_row (repeat None n) row
  = mkRowStep (repeat None n) (cell <$> take n row)
      (match take n row with [] => false | _ => true end) (match take n row with [] => false | _ => true end).
Proof.
  induction n as [|n IH]; intros row H; [done |]. cbn [repeat grid_row].
  destruct row as [|c row].
  - rewrite IH by constructor. by rewrite !take_nil.
  - apply Forall_cons_1 in H as [Hc H]. rewrite IH by done. cbn [take]. unfold after_row. by rewrite Hc.
Qed.

Lemma plain_loop n fuel : forall rows g,
  Forall (Forall (fun c => rowSpan c = Some 1%Z)) rows ->
  grid_loop fuel (repeat None (S n)) rows = Some g ->
  g = (fun row => cell <$> take (S n) row) <$> non_empty_rows rows.
Proof.
  induction fuel as [|fuel IH]; intros [|row rows] g H E; try done; try by injection E as <-.
  apply Forall_cons_1 in H as [Hr H]. cbn [grid_loop] in E. rewrite plain_row in E by done.
  destruct row as [|c row]; cbn [take columns resultRow usedCurrentRow someFiniteSpan negb] in E.
  - by injection E as <-.
  - destruct (grid_loop fuel (repeat None (S n)) rows) as [g'|] eqn:Eg; [| done].
    apply IH in Eg as ->; [| done]. by injection E as <-.
Qed.

(** The grid of a table whose cells take one row is its rows, cut at the width of
    the first one, up to the first row without cells. *)
Lemma plain_grid rows :
  Forall (Forall (fun c => rowSpan c = Some 1%Z)) rows ->
  grid_of rows = Some ((fun row => cell <$> take (length (default [] (head rows))) row) <$> non_empty_rows rows).
Proof.
  intros H. destruct (grid_of_bounded rows) as (g & E & _). rewrite E.
  destruct rows as [|first rest]; [by injection E as <- |]. cbn [head default from_option id].
  unfold grid_of in E. destruct first as [|c first]; [by injection E as <- |].
  by apply plain_loop in E as ->.
Qed.

End Plain.

(** ** Examples *)

Module TablesExample.

Definition mk (i : nat) (type : string) (props : list (string * value)) : node :=
  Node (mkHeader i type None None) props.

Definition attribute_ (name text : string) : node :=
  mk 0 "JSXAttribute" [("name", VStr name); ("value", VStr text)].

Definition element (i : nat) (name : string) (attributes : list (string * string)) (children : list node) : node :=
  mk i "JSXElement"
    [("openingElement", VNode (mk (i + 1) "JSXOpeningElement"
        [("name", VNode (mk (i + 2) "JSXIdentifier" [("name", VStr name)]));
         ("attributes", VArr (map (fun '(name, text) => VNode (attribute_ name text)) attributes))]));
     ("children", VArr (map VNode children))].

Definition getProp (attributes : list value) (name : string) : option node :=
  List.find (fun a => match get_str a "name" with Some s => s =s name | None => false end) (omap as_node attributes).

Definition getLiteralPropValue (attr : option node) : value :=
  match attr with Some a => get a "value" | None => VUndefined end.

Definition elementType (opening : node) : string :=
  match get_node opening "name" with Some name => default "" (get_str name "name") | None => "" end.

Definition headers_of := S5260_JSXElement getProp getLiteralPropValue elementType (fun _ => "") None.
Definition missing_header := S5256_JSXElement getProp getLiteralPropValue elementType (fun _ => "") None.

Definition header_row_ : node := element 10 "tr" [] [element 20 "th" [("id", "a"); ("headers", "a")] []].
Definition data_cell : node := element 40 "td" [("headers", "nope")] [].
Definition data_row : node := element 30 "tr" [] [data_cell].

(** [<table><tr><th id="a" headers="a"/></tr><tr><td headers="nope"/></tr></table>],
    and the same with [<thead>] and [<tbody>]. *)
Definition flat : node := element 1 "table" [] [header_row_; data_row].
Definition sections : node :=
  element 1 "table" [] [element 50 "thead" [] [header_row_]; element 60 "tbody" [] [data_row]].

(** A table with an empty row before its header. *)
Definition empty_row_first : node := element 1 "table" [] [element 70 "tr" [] []; header_row_; data_row].

(** The rows [A B C] and [D], where [C] takes two rows. *)
Definition cell_ (i : nat) : TableCell := mkCell false None None data_cell i.
Definition one (i : nat) : TableCellInternal := mkInternal (cell_ i) (Some 1).

End TablesExample.

(** S5260 identifies the cells of a table by numbers that start again in each
    [thead], [tbody] and [tfoot]: the first cell of the body is taken for the first
    one of the head, and its reference to a header that does not exist is not
    reported, as it is without the sections. A row without cells ends the grid, so
    that S5256 reports a table for the lack of the header that comes after; and a
    cell that takes two rows moves to the left when the second row is short. *)
Theorem grid_defects :
  TablesExample.headers_of TablesExample.flat = Some [(TablesExample.data_cell, "nope", false)]
  /\ TablesExample.headers_of TablesExample.sections = Some []
  /\ TablesExample.missing_header TablesExample.flat = Some false
  /\ TablesExample.missing_header TablesExample.empty_row_first = Some true
  /\ let c := TablesExample.cell_ in let one := TablesExample.one in
     grid_of [[one 0%nat; one 1%nat; mkInternal (c 2%nat) (Some 2)]; [one 3%nat]]
     = Some [[c 0%nat; c 1%nat; c 2%nat]; [c 3%nat; c 2%nat]].
Proof. by repeat split; vm_compute. Qed.
