(* ===== verification/Manifests.v ===== *)
(** * Manifests: the package.json files around a file, and their caches

    The code of [rules/helpers/find-up.ts], [helpers/package-json.ts],
    [helpers/find-files.ts] and of the path helpers they use. A disk is an argument
    of every call, since files change between calls and the caches do not; the
    package minimatch is a parameter. Paths are POSIX paths. *)

From Stdlib Require Import ZArith Lia Ascii String.
From stdpp Require Import base list sets strings.
From S2P Require Import Prelude JsString Json Programs.

Open Scope js_scope.

(** ** Paths *)

(** Node's [path.dirname], on paths without doubled slashes. *)
Definition path_dirname (path : string) : string :=
  let segments := path_segments path in
  let segments := match last segments with Some "" => removelast segments | _ => segments end in
  match removelast segments with
  | [] => if startsWith "/" path then "/" else "."
  | [""] => "/"
  | l => join_with "/" l
  end.

(** [path.parse(file).root] is the slash of an absolute path. *)
Definition isRoot (file : string) : bool :=
  toUnixPath file =s (if startsWith "/" file then "/" else "").

(** Node's [path.posix.normalize]. *)
Definition path_normalize (path : string) : string :=
  let absolute := startsWith "/" path in
  let trailing := endsWith "/" path in
  let body := join_with "/" (rev (fold_left (normalize_step absolute) (path_segments path) [])) in
  if body =s "" then if absolute then "/" else if trailing then "./" else "."
  else (if absolute then "/" else "") +:+ body +:+ (if trailing then "/" else "").

(** ** The disk *)

Inductive io_error := NoEntry (path : string).

Record Filesystem := mkFilesystem {
  readdirSync : string -> result io_error (list string);
  (** [statSync(path).isFile()] *)
  isFile : string -> result io_error bool;
  readFileSync : string -> result io_error string
}.

Record File := mkFile { f_path : string; f_content : string }.

(** ** [find-up.ts] *)

Section FindUp.

(** [new Minimatch(pattern).match(name)] *)
Variable matches : string -> bool.

Definition Cache := list (string * list File).

(** The loop on the entries of a directory: the files found, and the error of the
    one that cannot be read. The array is in the cache while it grows. *)
Fixpoint read_entries (fs : Filesystem) (from : string) (entries : list string) (cacheContent : list File)
  : list File * option io_error :=
  match entries with
  | [] => (cacheContent, None)
  | entry :: rest =>
      let fullEntryPath := path_join from entry in
      if matches (basename fullEntryPath)
         && match isFile fs fullEntryPath with Ok b => b | Throw _ => false end
      then match readFileSync fs fullEntryPath with
           | Ok content => read_entries fs from rest (cacheContent ++ [mkFile fullEntryPath content])
           | Throw e => (cacheContent, Some e)
           end
      else read_entries fs from rest cacheContent
  end.

Definition entries_of (fs : Filesystem) (from : string) : list string :=
  match readdirSync fs from with Ok l => l | Throw _ => [] end.

(** The cached files of a directory, read when it has none. *)
Definition files_in (fs : Filesystem) (cache : Cache) (from : string) : Cache * result io_error (list File) :=
  match map_get from cache with
  | Some files => (cache, Ok files)
  | None =>
      let '(files, error) := read_entries fs from (entries_of fs from) [] in
      (map_set from files cache, match error with None => Ok files | Some e => Throw e end)
  end.

Inductive find_error := Unreadable (e : io_error) | FindOutOfFuel.

Fixpoint findUp_loop (fuel : nat) (fs : Filesystem) (cache : Cache) (from : string) (to : option string)
  : Cache * result find_error (list File) :=
  match fuel with
  | O => (cache, Throw FindOutOfFuel)
  | S fuel' =>
      if from =s "." then (cache, Ok [])
      else
        match files_in fs cache from with
        | (cache, Throw e) => (cache, Throw (Unreadable e))
        | (cache, Ok files) =>
            if negb (isRoot from) && negb (bool_decide (Some from = to)) then
              let '(cache, r) := findUp_loop fuel' fs cache (path_dirname from) to in
              (cache, let! rest := r in Ok (files ++ rest))
            else (cache, Ok files)
        end
  end.

(** A turn per segment of the path, and two for the root and the dot. *)
Definition find_fuel (from : string) : nat := 2 + length (path_segments from).

(** A call of the function that [createFindUp] returns; an empty [to] is none. *)
Definition findUp (fs : Filesystem) (cache : Cache) (from : string) (to : option string)
  : Cache * result find_error (list File) :=
  let to := match to with Some t => if t =s "" then None else Some (toUnixPath t) | None => None end in
  findUp_loop (find_fuel (toUnixPath from)) fs cache (toUnixPath from) to.

End FindUp.

(** ** [package-json.ts] *)

Definition PACKAGE_JSON : string := "package.json".
Definition DefinitelyTyped : string := "@types/".

(** The name of a dependency: a text or a pattern; patterns are objects, each of
    its own. *)
Inductive DependencyName := Named (name : string) | Glob (pattern : string).

Record Dependency := mkDependency { dep_name : DependencyName; version : option json }.

Inductive manifest_error :=
| TypeError
| FindFailed (e : find_error).

(** The value of a property; [None] is [undefined]. *)
Definition property (content : json) (key : string) : result manifest_error (option json) :=
  match content with
  | JNull => Throw TypeError
  | JObj l => Ok (map_get key l)
  | _ => Ok None
  end.

Definition json_truthy (v : option json) : bool :=
  match v with
  | None | Some JNull => false
  | Some (JBool b) => b
  | Some (JNum z) => negb (Z.eqb z 0)
  | Some (JStr s) => negb (s =s "")
  | Some _ => true
  end.

(** [String(value)], for a computed key. *)
Fixpoint json_text (v : json) : string :=
  match v with
  | JNull => "null"
  | JBool b => if b then "true" else "false"
  | JNum z => print_int z
  | JStr s => s
  | JObj _ => "[object Object]"
  | JArr l =>
      join_with "," ((fix texts (l : list json) : list string :=
        match l with
        | [] => []
        | JNull :: r => "" :: texts r
        | x :: r => json_text x :: texts r
        end) l)
  end.

(** [Object.entries(value)]. The integers among the keys, which JavaScript puts
    first, keep their place: only the set of names is used. A text has its characters
    for properties (ASCII ones here). *)
Definition own_entries (v : json) : result manifest_error (list (string * json)) :=
  match v with
  | JNull => Throw TypeError
  | JObj l => Ok l
  | JArr l => Ok (imap (fun i x => (print_int (Z.of_nat i), x)) l)
  | JStr s => Ok (imap (fun i c => (print_int (Z.of_nat i), JStr (String c EmptyString))) (String.list_ascii_of_string s))
  | _ => Ok []
  end.

Definition addDependency (result : list Dependency) (dependency : string) (isGlob : bool)
    (version : option json) : list Dependency :=
  result ++
  [if isGlob then mkDependency (Glob dependency) version
   else mkDependency (Named (default dependency (strip_prefix DefinitelyTyped dependency))) version].

Definition addDependencies (result : list Dependency) (dependencies : json)
  : Prelude.result manifest_error (list Dependency) :=
  let! entries := own_entries dependencies in
  Ok (fold_left (fun result '(name, version) => addDependency result name false (Some version)) entries result).

(** A pattern that is no text makes the constructor of minimatch throw. *)
Definition addDependenciesArray (result : list Dependency) (dependencies : json)
  : Prelude.result manifest_error (list Dependency) :=
  match dependencies with
  | JArr l =>
      rfold (fun result name =>
        match name with
        | JStr s => Ok (addDependency result s true None)
        | _ => Throw TypeError
        end) l result
  | _ => Throw TypeError
  end.

(** The properties that are added when they are not [undefined]. *)
Definition dependency_keys : list string :=
  ["dependencies"; "devDependencies"; "peerDependencies"; "optionalDependencies"; "_moduleAliases"].

Definition addWorkspaces (result : list Dependency) (content : json)
  : Prelude.result manifest_error (list Dependency) :=
  let! workspaces := property content "workspaces" in
  match workspaces with
  | None | Some JNull => Ok result
  | Some (JArr l) => addDependenciesArray result (JArr l)
  | Some w =>
      let! packages := property w "packages" in
      match packages with
      | Some p => if json_truthy packages then addDependenciesArray result p else Ok result
      | None => Ok result
      end
  end.

Definition getDependenciesFromPackageJson (content : json) : result manifest_error (list Dependency) :=
  let! name := property content "name" in
  let result :=
    match name with
    | Some n => if json_truthy name then addDependency [] (json_text n) false (Some (JStr "*")) else []
    | None => []
    end in
  let! result :=
    rfold (fun result key =>
      let! dependencies := property content key in
      match dependencies with
      | Some d => addDependencies result d
      | None => Ok result
      end) dependency_keys result in
  addWorkspaces result content.

(** [new Set(\[...dependencies\].map(item => item.name))]: texts are compared, patterns
    are all different. *)
Definition add_name (names : list DependencyName) (name : DependencyName) : list DependencyName :=
  match name with
  | Named s => if existsb (fun n => match n with Named s' => s =s s' | Glob _ => false end) names
               then names else names ++ [name]
  | Glob _ => names ++ [name]
  end.

Definition names_of (dependencies : list Dependency) : list DependencyName :=
  fold_left (fun names d => add_name names (dep_name d)) dependencies [].

Section PackageJson.

(** [new Minimatch('package.json').match(name)]; [JSON.parse]. *)
Variable matches : string -> bool.
Variable parse : string -> option json.

(** The cache of [findPackageJsons] and the one of the dependencies. *)
Record Caches := mkCaches {
  find_cache : Cache;
  cache : list (string * list Dependency)
}.

Definition empty_caches : Caches := mkCaches [] [].

Definition parse_manifest (file : File) : json :=
  default (JObj []) (parse (stripBOM (f_content file))).

(** [getManifests], with the disk. *)
Definition getManifests (fs : Filesystem) (st : Caches) (dir : string) (workingDirectory : option string)
  : Caches * result find_error (list json) :=
  let '(c, r) := findUp matches fs (find_cache st) dir workingDirectory in
  (mkCaches c (cache st), let! files := r in Ok (map parse_manifest files)).

(** The loop on the manifests: the dependencies added until one throws. *)
Fixpoint add_manifests (manifests : list json) (result : list Dependency)
  : list Dependency * option manifest_error :=
  match manifests with
  | [] => (result, None)
  | manifest :: rest =>
      match getDependenciesFromPackageJson manifest with
      | Ok dependencies => add_manifests rest (result ++ dependencies)
      | Throw e => (result, Some e)
      end
  end.

(** The set is in the cache before it is filled. *)
Definition getDependencies (fs : Filesystem) (st : Caches) (filename cwd : string)
  : Caches * result manifest_error (list DependencyName) :=
  let dirname := path_dirname (toUnixPath filename) in
  match map_get dirname (cache st) with
  | Some cached => (st, Ok (names_of cached))
  | None =>
      let st := mkCaches (find_cache st) (map_set dirname [] (cache st)) in
      match getManifests fs st dirname (Some cwd) with
      | (st, Throw e) => (st, Throw (FindFailed e))
      | (st, Ok manifests) =>
          let '(result, error) := add_manifests manifests [] in
          (mkCaches (find_cache st) (map_set dirname result (cache st)),
           match error with None => Ok (names_of result) | Some e => Throw e end)
      end
  end.

Definition clearDependenciesCache (st : Caches) : Caches := mkCaches (find_cache st) [].

(** The dependencies with a name, the last one for each name. *)
Definition getAllDependencies (st : Caches) : list (string * option json) :=
  fold_left (fun result d =>
    match dep_name d with
    | Named name => map_set name (version d) result
    | Glob _ => result
    end) (flat_map snd (cache st)) [].

End PackageJson.

(** ** [find-files.ts] *)

(** The entries of a directory, with whether they are directories. *)
Definition Directory := list (string * bool).

Definition IGNORED_PATTERNS : list string := [".scannerwork"].

Record RawFilter (A : Type) := mkFilter { pattern : string; parser : option (string -> string -> result string A) }.
Arguments mkFilter {A} pattern parser.
Arguments pattern {A} r.
Arguments parser {A} r.

Section SearchFiles.

Context {A : Type}.

(** [new Minimatch(pattern, { nocase: true, matchBase: true }).match(path)]; the
    entries of a directory, or its error; the texts of files. *)
Variable glob : string -> string -> bool.
Variable readdir : string -> result io_error Directory.
Variable readFile : string -> result string string.

Definition any_match (patterns : list string) (filename : string) : bool :=
  existsb (fun pattern => glob pattern filename) patterns.

(** The contents of a file that is found: [None] is [undefined]. *)
Definition filterAndParse (filename : string) (filter : RawFilter A) : list (string * option A) :=
  if any_match (split_char ","%char (pattern filter)) filename then
    match parser filter with
    | None => [(filename, None)]
    | Some p =>
        match (let! contents := readFile filename in p filename contents) with
        | Ok contents => [(filename, Some contents)]
        | Throw _ => []
        end
    end
  else [].

(** The entries of a directory that are not excluded, with their paths. *)
Definition included (exclusionPatterns : list string) (dir : string) (entries : Directory) : Directory :=
  List.filter (fun e => negb (any_match exclusionPatterns e.1))
    (map (fun '(name, isDirectory) => (path_join dir name, isDirectory)) entries).

Definition FilesByFilter := list (string * list (string * list (string * option A))).

(** What a directory adds to the result of each filter. *)
Definition add_directory (inclusionFilters : list (string * RawFilter A)) (dir : string) (files : list string)
    (result : FilesByFilter) : FilesByFilter :=
  fold_left (fun result '(filterId, filter) =>
    let by_dir := default [] (map_get filterId result) in
    map_set filterId (map_set dir (flat_map (fun f => filterAndParse f filter) files) by_dir) result)
    inclusionFilters result.

Inductive search_error := Unlisted (e : io_error) | SearchOutOfFuel.

Fixpoint search_loop (fuel : nat) (inclusionFilters : list (string * RawFilter A)) (exclusionPatterns : list string)
    (dirs : list string) (result : FilesByFilter) : Prelude.result search_error FilesByFilter :=
  match dirs with
  | [] => Ok result
  | dir :: dirs =>
      match fuel with
      | O => Throw SearchOutOfFuel
      | S fuel' =>
          match readdir dir with
          | Throw e => Throw (Unlisted e)
          | Ok entries =>
              let files := included exclusionPatterns dir entries in
              search_loop fuel' inclusionFilters exclusionPatterns
                (dirs ++ (List.filter snd files).*1)
                (add_directory inclusionFilters dir (List.filter (negb ∘ snd) files).*1 result)
          end
      end
  end.

Definition searchFiles (fuel : nat) (rawDir : string) (inclusionFilters : list (string * RawFilter A))
    (exclusions : list string) : Prelude.result search_error FilesByFilter :=
  search_loop fuel inclusionFilters (exclusions ++ IGNORED_PATTERNS)
    [path_normalize (toUnixPath rawDir)]
    (map (fun '(filterId, _) => (filterId, [])) inclusionFilters).

End SearchFiles.

(** ** Paths get shorter *)

Lemma split_join l : l <> [] -> Forall (fun p => slash ∉ String.list_ascii_of_string p) l ->
  path_segments (join_with "/" l) = l.
Proof.
  intros Hne H. induction H as [|p l Hp H IH]; [done |]. destruct l as [|q l].
  - by apply split_char_one.
  - unfold path_segments in *.
    change (split_char slash (p +:+ String slash (join_with "/" (q :: l))) = p :: q :: l).
    rewrite split_char_app by done. by rewrite IH.
Qed.

Lemma path_dirname_shorter p :
  path_dirname p = "." \/ path_dirname p = "/" \/
  (length (path_segments (path_dirname p)) < length (path_segments p))%nat.
Proof.
  unfold path_dirname. set (segments := match last (path_segments p) with Some "" => _ | _ => _ end).
  assert ((length segments <= length (path_segments p))%nat /\ (forall x, x ∈ segments -> x ∈ path_segments p))
    as [L E].
  { assert (forall l : list string, (length (removelast l) <= length l)%nat /\ (forall x, x ∈ removelast l -> x ∈ l))
      as Hl.
    { intros l. induction l as [|y [|z l] [IH1 IH2]]; cbn in *; [split; [lia | set_solver].. |].
      split; [lia |]. intros x [->|Hx]%elem_of_cons; [by left | right; by apply IH2]. }
    unfold segments. destruct (last (path_segments p)) as [[|]|]; try (by split; [lia |]). apply Hl. }
  destruct (removelast segments) as [|s l] eqn:R.
  - destruct (startsWith "/" p); auto.
  - assert (length (s :: l) < length segments)%nat as Ls.
    { rewrite <- R. clear -R. destruct segments as [|y ys] using rev_ind; [done |].
      rewrite removelast_last, length_app. cbn. lia. }
    assert (Forall (fun p => slash ∉ String.list_ascii_of_string p) (s :: l)) as F.
    { apply Forall_forall. intros x Hx. apply (split_char_parts slash p), E.
      rewrite <- R in Hx. clear -Hx. destruct segments as [|y ys] using rev_ind; [done |].
      rewrite removelast_last in Hx. set_solver. }
    assert (path_segments (join_with "/" (s :: l)) = s :: l) as S by (by apply split_join).
    destruct s as [|c s]; [destruct l as [|s' l]; [auto |] |]; right; right; rewrite S; cbn in *; lia.
Qed.

(** ** A cached search is a search *)

Section Search.

Variable matches : string -> bool.

(** The files of a directory, as they are read without a cache. *)
Definition dir_files (fs : Filesystem) (dir : string) : list File :=
  (read_entries matches fs dir (entries_of fs dir) []).1.

Definition readable (fs : Filesystem) (dir : string) : Prop :=
  (read_entries matches fs dir (entries_of fs dir) []).2 = None.

(** The directories from [from] up to [to] or to the root. *)
Fixpoint upward (fuel : nat) (from : string) (to : option string) : list string :=
  match fuel with
  | O => []
  | S fuel' =>
      if from =s "." then []
      else from :: if negb (isRoot from) && negb (bool_decide (Some from = to))
                   then upward fuel' (path_dirname from) to else []
  end.

(** What [findUp] would find without a cache. *)
Definition search (fs : Filesystem) (from : string) (to : option string) : list File :=
  let to := match to with Some t => if t =s "" then None else Some (toUnixPath t) | None => None end in
  flat_map (dir_files fs) (upward (find_fuel (toUnixPath from)) (toUnixPath from) to).

(** Calls one after the other, which share the cache. *)
Fixpoint find_all (fs : Filesystem) (cache : Cache) (calls : list (string * option string))
  : Cache * list (result find_error (list File)) :=
  match calls with
  | [] => (cache, [])
  | (from, to) :: rest =>
      let '(cache, r) := findUp matches fs cache from to in
      let '(cache, rs) := find_all fs cache rest in (cache, r :: rs)
  end.

Definition cache_ok (fs : Filesystem) (cache : Cache) : Prop :=
  forall dir files, map_get dir cache = Some files -> files = dir_files fs dir.

Lemma files_in_ok fs cache from : cache_ok fs cache -> readable fs from ->
  exists cache', files_in matches fs cache from = (cache', Ok (dir_files fs from)) /\ cache_ok fs cache'.
Proof.
  intros C R. unfold files_in, readable in *. destruct (map_get from cache) as [files|] eqn:E.
  - exists cache. by rewrite (C _ _ E).
  - pose proof (eq_refl (dir_files fs from)) as D. unfold dir_files in D at 1.
    destruct (read_entries _ _ _ _ _) as [files err]. cbn in *. subst. eexists. split; [done |].
    intros dir fl [[-> ->]|[_ G]]%map_get_set_cases; [done | by apply C].
Qed.

(** The fuel is for the segments that are left, but for a root and the dot. *)
Definition enough (fuel : nat) (from : string) : Prop :=
  (2 + length (path_segments from) <= fuel)%nat \/ ((1 <= fuel)%nat /\ (from = "." \/ isRoot from = true)).

Lemma enough_next fuel from : enough (S fuel) from -> isRoot from = false -> from <> "." ->
  enough fuel (path_dirname from).
Proof.
  intros [H|[_ [H|H]]] R N; [| done | congruence].
  destruct (path_dirname_shorter from) as [->|[->|L]]; [right | right | left; lia];
    (split; [| auto]); cbn in H; lia.
Qed.

Lemma findUp_loop_ok fs fuel : forall cache from to,
  enough fuel from -> cache_ok fs cache -> Forall (readable fs) (upward fuel from to) ->
  exists cache', findUp_loop matches fuel fs cache from to = (cache', Ok (flat_map (dir_files fs) (upward fuel from to)))
    /\ cache_ok fs cache'.
Proof.
  induction fuel as [|fuel IH]; intros cache from to En C R; [destruct En as [?|[? _]]; lia |].
  cbn [findUp_loop upward] in *. destruct (String.eqb_spec from ".") as [->|N]; [by exists cache |].
  apply Forall_cons_1 in R as [Rf R]. destruct (files_in_ok fs cache from C Rf) as (cache1 & -> & C1).
  destruct (isRoot from) eqn:Er; cbn [negb andb].
  { exists cache1. cbn. by rewrite app_nil_r. }
  destruct (bool_decide (Some from = to)); cbn [negb] in *.
  { exists cache1. cbn. by rewrite app_nil_r. }
  destruct (IH cache1 (path_dirname from) to) as (cache2 & -> & C2); [by apply enough_next | done | done |].
  exists cache2. split; [done | done].
Qed.

(** C27: A search of files in the directories above gives, whatever was searched
    before with the same cache, the files that a search without a cache gives: those
    of the directory and of the ones above, up to the given one or to the root, in
    this order; and it ends. The files on the disk are the same and can be read. *)
Theorem cached_search_is_search fs calls :
  (forall dir, readable fs dir) ->
  (find_all fs [] calls).2 = map (fun '(from, to) => Ok (search fs from to)) calls.
Proof.
  intros R. assert (cache_ok fs []) as C by done. revert C. generalize (@nil (string * list File)).
  induction calls as [|[from to] calls IH]; intros cache C; [done |]. cbn [find_all map].
  unfold findUp. set (to' := match to with Some t => _ | None => _ end).
  destruct (findUp_loop_ok fs (find_fuel (toUnixPath from)) cache (toUnixPath from) to')
    as (cache' & -> & C'); [by left | done | apply Forall_forall; auto |].
  specialize (IH cache' C'). destruct (find_all fs cache' calls) as [cache2 rs]. cbn in *. by rewrite IH.
Qed.

(** *** A search that succeeded is never made again *)

Lemma files_in_cached fs cache from cache' files :
  files_in matches fs cache from = (cache', Ok files) ->
  map_get from cache' = Some files /\ forall d fl, map_get d cache = Some fl -> map_get d cache' = Some fl.
Proof.
  unfold files_in. destruct (map_get from cache) as [fl|] eqn:E; [by intros [= <- <-] |].
  destruct (read_entries _ _ _ _ _) as [fl [err|]]; [done |]. intros [= <- <-].
  split; [apply map_get_set_eq |]. intros d fl' G. rewrite map_get_set_ne; [done | congruence].
Qed.

Lemma findUp_loop_cached fs fuel : forall cache from to cache' files,
  findUp_loop matches fuel fs cache from to = (cache', Ok files) ->
  (forall d fl, map_get d cache = Some fl -> map_get d cache' = Some fl) /\
  forall fs' cache2, (forall d fl, map_get d cache' = Some fl -> map_get d cache2 = Some fl) ->
    findUp_loop matches fuel fs' cache2 from to = (cache2, Ok files).
Proof.
  induction fuel as [|fuel IH]; intros cache from to cache' files; cbn [findUp_loop]; [done |].
  destruct (from =s "."); [by intros [= <- <-] |].
  destruct (files_in matches fs cache from) as [cache1 [fl|]] eqn:E; [| done].
  apply files_in_cached in E as [Ef Ek].
  assert (forall fs' cache2, (forall d fl, map_get d cache1 = Some fl -> map_get d cache2 = Some fl) ->
    files_in matches fs' cache2 from = (cache2, Ok fl)) as Hf.
  { intros fs' cache2 K. unfold files_in. by rewrite (K _ _ Ef). }
  destruct (negb _ && negb _).
  - destruct (findUp_loop _ _ _ cache1 _ _) as [cache3 [rest|]] eqn:E; [| done].
    intros [= <- <-]. apply IH in E as [K1 K2]. split; [auto |].
    intros fs' cache2 K. rewrite Hf by auto. by rewrite K2.
  - intros [= <- <-]. split; [done |]. intros fs' cache2 K. by rewrite Hf.
Qed.

End Search.

(** Clearing the cache of the dependencies, which the analysis does when a
    package.json file has changed, has no effect on the files already searched: the
    search keeps a cache of its own that nothing clears. After a success for a file,
    the dependencies are the same for ever, whatever is on the disk. *)
Theorem cleared_cache_is_stale matches parse fs fs' st filename cwd st1 names :
  map_get (path_dirname (toUnixPath filename)) (cache st) = None ->
  getDependencies matches parse fs st filename cwd = (st1, Ok names) ->
  exists st2, getDependencies matches parse fs' (clearDependenciesCache st1) filename cwd = (st2, Ok names).
Proof.
  unfold getDependencies, getManifests, findUp. intros ->. cbn [find_cache cache clearDependenciesCache map_get].
  generalize (find_fuel (toUnixPath (path_dirname (toUnixPath filename)))). intros fuel.
  set (to := if cwd =s "" then None else Some (toUnixPath cwd)).
  destruct (findUp_loop matches fuel fs _ _ _) as [c [files|e]] eqn:E; cbn [rbind]; [| done].
  destruct (add_manifests (map _ _) []) as [deps [err|]] eqn:Ea; [done |]. intros [= <- <-].
  cbn [find_cache cache]. apply findUp_loop_cached in E as [_ K].
  rewrite (K fs' c) by done. cbn [rbind find_cache cache]. rewrite Ea. by eexists.
Qed.

(** ** The files of a directory tree *)

Section Tree.

Context {A : Type}.
Variable glob : string -> string -> bool.
Variable readdir : string -> result io_error Directory.
Variable readFile : string -> result string string.
Variable inclusionFilters : list (string * RawFilter A).
Variable exclusionPatterns : list string.

Definition subdirectories (dir : string) (entries : Directory) : list string :=
  (List.filter snd (included glob exclusionPatterns dir entries)).*1.

Definition plain_files (dir : string) (entries : Directory) : list string :=
  (List.filter (negb ∘ snd) (included glob exclusionPatterns dir entries)).*1.

(** The directories below [root] that are not excluded. *)
Inductive reached (root : string) : string -> Prop :=
| reached_root : reached root root
| reached_below dir entries sub : reached root dir -> readdir dir = Ok entries ->
    sub ∈ subdirectories dir entries -> reached root sub.

(** What the result has for a filter: the directories of [visited], each with the
    files of it that the filter keeps. *)
Definition lists_dirs (filter : RawFilter A) (visited : string -> Prop)
    (by_dir : list (string * list (string * option A))) : Prop :=
  forall dir files, map_get dir by_dir = Some files <->
    visited dir /\ exists entries, readdir dir = Ok entries /\
      files = flat_map (fun f => filterAndParse glob readFile f filter) (plain_files dir entries).

Lemma map_get_add_directory (filters : list (string * RawFilter A)) dir files : NoDup filters.*1 ->
  forall (result : FilesByFilter (A:=A)) (id : string),
  map_get id (add_directory glob readFile filters dir files result) =
  match map_get id filters with
  | Some filter => Some (map_set dir (flat_map (fun f => filterAndParse glob readFile f filter) files)
                           (default [] (map_get id result)))
  | None => map_get id result
  end.
Proof.
  unfold add_directory. induction filters as [|[id' filter] filters IH]; intros N result id; [done |].
  apply NoDup_cons in N as [Hid N]. cbn [fold_left map_get]. rewrite IH by done.
  destruct (decide (id = id')) as [->|Hne].
  - destruct (map_get id' filters) eqn:E.
    { destruct Hid. apply map_get_Some_elem in E. by apply (list_elem_of_fmap_2 fst _ _ E). }
    by rewrite map_get_set_eq.
  - by rewrite map_get_set_ne by done.
Qed.

Variable size : string -> nat.

(** The part of the disk that is searched is a finite tree of directories. *)
Hypothesis finite_tree : forall dir entries, readdir dir = Ok entries ->
  (list_sum (map size (subdirectories dir entries)) < size dir)%nat.

Hypothesis filters_differ : NoDup inclusionFilters.*1.

Lemma search_loop_spec root fuel : forall dirs (visited : list string) (result : FilesByFilter (A:=A)),
  (forall dir, reached root dir -> exists entries, readdir dir = Ok entries) ->
  (list_sum (map size dirs) <= fuel)%nat ->
  Forall (reached root) (visited ++ dirs) -> root ∈ visited ++ dirs ->
  (forall dir entries, dir ∈ visited -> readdir dir = Ok entries ->
     forall sub, sub ∈ subdirectories dir entries -> sub ∈ visited ++ dirs) ->
  (forall id filter, map_get id inclusionFilters = Some filter ->
     exists by_dir, map_get id result = Some by_dir /\ lists_dirs filter (.∈ visited) by_dir) ->
  exists result', search_loop glob readdir readFile fuel inclusionFilters exclusionPatterns dirs result = Ok result'
    /\ forall id filter, map_get id inclusionFilters = Some filter ->
       exists by_dir, map_get id result' = Some by_dir /\ lists_dirs filter (reached root) by_dir.
Proof.
  induction fuel as [|fuel IH]; intros [|dir dirs] visited result Hl F R Hroot Hclosed Hres.
  2: { exfalso. change (size dir + list_sum (map size dirs) <= 0)%nat in F. assert (reached root dir) as [entries E]%Hl by (rewrite Forall_forall in R; apply R; set_solver).
       apply finite_tree in E. lia. }
  1, 2: (rewrite app_nil_r in *; exists result; split; [done |]; intros id filter Hf;
    destruct (Hres id filter Hf) as (by_dir & Hb & L); exists by_dir; split; [done |];
    intros d fl; rewrite (L d fl); split; intros [Hd He]; (split; [| done]);
    [rewrite Forall_forall in R; by apply R |];
    clear -Hd Hroot Hclosed; induction Hd as [|d entries sub Hd IH E Hs]; [done |];
    by apply (Hclosed d entries)).
  cbn [search_loop]. assert (reached root dir) as Hd by (rewrite Forall_forall in R; apply R; set_solver).
  destruct (Hl dir Hd) as [entries E]. rewrite E.
  apply (IH (dirs ++ subdirectories dir entries) (visited ++ [dir])); [done | ..].
  - pose proof (finite_tree dir entries E). rewrite map_app, list_sum_app.
    change (size dir + list_sum (map size dirs) <= S fuel)%nat in F. lia.
  - rewrite Forall_forall in *. intros x Hx. rewrite !elem_of_app in Hx.
    destruct Hx as [[Hx|Hx]|[Hx|Hx]]; [apply R; set_solver .. |]. by apply (reached_below _ dir entries).
  - set_solver.
  - intros d es Hv Es sub Hs. apply elem_of_app in Hv as [Hv|Hv].
    + specialize (Hclosed d es Hv Es sub Hs). set_solver.
    + apply list_elem_of_singleton in Hv as ->. rewrite E in Es. injection Es as <-. set_solver.
  - intros id filter Hf. destruct (Hres id filter Hf) as (by_dir & Hb & L).
    rewrite map_get_add_directory, Hf, Hb by done. eexists. split; [done |].
    intros d fl. cbn [default]. destruct (decide (d = dir)) as [->|Hne].
    + rewrite map_get_set_eq. split.
      * intros [= <-]. split; [set_solver |]. by exists entries.
      * intros (_ & es & Es & ->). rewrite E in Es. by injection Es as <-.
    + rewrite map_get_set_ne by done. rewrite (L d fl). set_solver.
Qed.

End Tree.

(** A search of the files of a directory ends, and it gives for each filter
    every directory of the tree that is not excluded, with the files of it that the
    filter keeps, and nothing else. [size] bounds the number of directories below one. *)
Theorem searchFiles_finds {A} glob readdir readFile (filters : list (string * RawFilter A)) exclusions rawDir size :
  let root := path_normalize (toUnixPath rawDir) in
  let patterns := exclusions ++ IGNORED_PATTERNS in
  (forall dir entries, readdir dir = Ok entries ->
     (list_sum (map size (subdirectories glob patterns dir entries)) < size dir)%nat) ->
  (forall dir, reached glob readdir patterns root dir -> exists entries, readdir dir = Ok entries) ->
  NoDup filters.*1 ->
  exists result, searchFiles glob readdir readFile (size root) rawDir filters exclusions = Ok result
    /\ forall id filter, map_get id filters = Some filter ->
       exists by_dir, map_get id result = Some by_dir /\
         lists_dirs glob readdir readFile patterns filter (reached glob readdir patterns root) by_dir.
Proof.
  intros root patterns Hsize Hl N. unfold searchFiles. apply (search_loop_spec _ _ _ _ _ _ Hsize) with (visited := []); try done.
  - unfold root. cbn [map list_sum foldr]. lia.
  - apply Forall_singleton. constructor.
  - set_solver.
  - set_solver.
  - intros id filter Hf. exists []. split.
    + clear -Hf. induction filters as [|[id' f'] filters IH]; [done |]. cbn in *.
      destruct (decide (id = id')); [done | by apply IH].
    + intros dir files. cbn. split; [done | by intros [?%not_elem_of_nil _]].
Qed.

(** ** On a disk *)

(** A disk with a manifest at the root of a project. *)
Definition disk (manifest : string) : Filesystem :=
  mkFilesystem
    (fun dir => if dir =s "/p" then Ok ["src"; "package.json"] else if dir =s "/p/src" then Ok ["a.js"] else Throw (NoEntry dir))
    (fun path => Ok ((path =s "/p/package.json") || (path =s "/p/src/a.js")))
    (fun path => if path =s "/p/package.json" then Ok manifest else Throw (NoEntry path)).

Definition named (name : string) : bool := name =s PACKAGE_JSON.

(** A parser of manifests that are written with the name of a dependency. *)
Definition parse_name (text : string) : option json :=
  if text =s "null" then Some JNull else Some (JObj [("dependencies", JObj [(text, JStr "1.0.0")])]).

Lemma disk_readable manifest dir : readable named (disk manifest) dir.
Proof.
  unfold readable, entries_of. cbn [readdirSync disk].
  destruct (String.eqb_spec dir "/p") as [->|_]; [done |].
  by destruct (String.eqb_spec dir "/p/src") as [->|_].
Qed.

Example cached_search_is_search_witness :
  (find_all named (disk "react") [] [("/p/src", None); ("/p/src", Some "/p"); ("/p", None)]).2 =
  map (fun '(from, to) => Ok (search named (disk "react") from to)) [("/p/src", None); ("/p/src", Some "/p"); ("/p", None)].
Proof. apply cached_search_is_search. apply disk_readable. Defined.

Example searches : map (fun '(from, to) => map f_path (search named (disk "react") from to))
  [("/p/src", None); ("/p/src", Some "/p/src"); ("/p", None); (".", None)] =
  [["/p/package.json"]; []; ["/p/package.json"]; []].
Proof. vm_compute. reflexivity. Qed.

(** The dependency on [react] stays when the manifest says [vue] and the cache is cleared. *)
Example cleared_cache_is_stale_witness :
  let st1 := (getDependencies named parse_name (disk "react") empty_caches "/p/src/a.js" "/p").1 in
  exists st2, getDependencies named parse_name (disk "vue") (clearDependenciesCache st1) "/p/src/a.js" "/p" =
    (st2, Ok [Named "react"]).
Proof.
  apply (cleared_cache_is_stale named parse_name (disk "react") (disk "vue") empty_caches);
    vm_compute; reflexivity.
Defined.

(** A manifest that is [null] makes the first call throw, and leaves an empty set
    for the next ones. *)
Example null_manifest :
  let '(st, r) := getDependencies named parse_name (disk "null") empty_caches "/p/src/a.js" "/p" in
  r = Throw TypeError /\ (getDependencies named parse_name (disk "null") st "/p/src/a.js" "/p").2 = Ok [].
Proof. vm_compute. auto. Qed.

(** The dependencies are cached by directory, whatever the working directory. *)
Example cwd_is_not_in_the_key :
  let '(st, r) := getDependencies named parse_name (disk "react") empty_caches "/p/src/a.js" "/p/src" in
  r = Ok [] /\ (getDependencies named parse_name (disk "react") st "/p/src/a.js" "/p").2 = Ok [].
Proof. vm_compute. auto. Qed.

(** A file that cannot be read makes the search throw, and the files before it are
    the ones that the next searches find. *)
Lemma unreadable_file_is_half_cached matches fs cache from files e :
  map_get from cache = None ->
  read_entries matches fs from (entries_of fs from) [] = (files, Some e) ->
  exists cache', files_in matches fs cache from = (cache', Throw e) /\
    forall fs', files_in matches fs' cache' from = (cache', Ok files).
Proof.
  intros N R. unfold files_in. rewrite N, R. eexists. split; [done |]. intros fs'. by rewrite map_get_set_eq.
Qed.

(** A tree of directories, of which [skip] is excluded. *)
Definition tree (dir : string) : result io_error Directory :=
  if dir =s "/r" then Ok [("a.js", false); ("src", true); ("skip", true)]
  else if dir =s "/r/src" then Ok [("b.js", false); ("package.json", false)]
  else Throw (NoEntry dir).

Definition ends_with_pattern (pattern path : string) : bool := endsWith pattern path.

Definition tree_size (dir : string) : nat := if dir =s "/r" then 2%nat else 1%nat.

Definition manifests_filter : list (string * RawFilter json) :=
  [("json", mkFilter ".json,.toml" (Some (fun name contents => Ok (JStr contents)))); ("js", mkFilter ".js" None)].

Definition tree_file (path : string) : result string string := Ok ("text of " +:+ path)%string.

Lemma tree_bounded dir entries : tree dir = Ok entries ->
  (list_sum (map tree_size (subdirectories ends_with_pattern ["skip"; ".scannerwork"] dir entries)) < tree_size dir)%nat.
Proof.
  unfold tree. destruct (String.eqb_spec dir "/r") as [->|_]; [intros [= <-]; vm_compute; lia |].
  destruct (String.eqb_spec dir "/r/src") as [->|_]; [intros [= <-]; vm_compute; lia | done].
Qed.

Lemma tree_reached dir : reached ends_with_pattern tree ["skip"; ".scannerwork"] "/r" dir -> dir = "/r" \/ dir = "/r/src".
Proof.
  induction 1 as [|dir entries sub H IH E S]; [auto |]. right.
  destruct IH as [->| ->]; injection E as <-; vm_compute in S.
  - by apply list_elem_of_singleton in S.
  - by apply not_elem_of_nil in S.
Qed.

Example searchFiles_finds_witness :
  exists result, searchFiles ends_with_pattern tree tree_file (tree_size "/r") "/r" manifests_filter ["skip"] = Ok result
    /\ forall id filter, map_get id manifests_filter = Some filter ->
       exists by_dir, map_get id result = Some by_dir /\
         lists_dirs ends_with_pattern tree tree_file ["skip"; ".scannerwork"] filter
           (reached ends_with_pattern tree ["skip"; ".scannerwork"] "/r") by_dir.
Proof.
  apply (searchFiles_finds ends_with_pattern tree tree_file manifests_filter ["skip"] "/r" tree_size).
  - apply tree_bounded.
  - intros dir [-> | ->]%tree_reached; by eexists.
  - apply (bool_decide_unpack _). vm_compute. exact I.
Defined.

Example searchFiles_result :
  (let! result := searchFiles ends_with_pattern tree tree_file 2 "/r" manifests_filter ["skip"] in
   Ok (map_get "json" result)) =
  Ok (Some [("/r", []); ("/r/src", [("/r/src/package.json", Some (JStr "text of /r/src/package.json"))])]).
Proof. vm_compute. reflexivity. Qed.
