(* ===== verification/CommentedCode.v ===== *)
(** * CommentedCode: code left in comments (rule S125)

    The code of [rules/S125/rule.ts] and of [rules/helpers/recognizers]: the groups
    of comments, the recognition of lines of code by detectors, the braces added to
    a text, and the reports with their suggestions. The parser is a parameter. The
    lines the detectors read are ASCII texts; probabilities are rationals. *)

From Stdlib Require Import ZArith Lia QArith Qpower Lqa Ascii String Permutation Sorted.
From stdpp Require Import base list sets strings.
From S2P Require Import Prelude JsString Estree Ast.

Open Scope js_scope.
Open Scope nat_scope.

(** ** Detectors *)

(** What a [ContainsDetector] looks for: a text, or the expression [/;\s+\/\//]. *)
Inductive Sought := Text (s : string) | SemicolonThenComment.

(** The subclasses of [Detector], with their fields. *)
Inductive Detector :=
| EndWithDetector (probability : Q) (endOfLines : list ascii)
| KeywordsDetector (probability : Q) (keywords : list string)
| ContainsDetector (probability : Q) (strings : list Sought)
| CamelCaseDetector (probability : Q).

Definition probability (d : Detector) : Q :=
  match d with
  | EndWithDetector p _ | KeywordsDetector p _ | ContainsDetector p _ | CamelCaseDetector p => p
  end.

(** [/\s/] *)
Definition isWhitespace (c : ascii) : bool :=
  let n := nat_of_ascii c in Nat.eqb n 32 || (Nat.leb 9 n && Nat.leb n 13).

(** The loop of [EndWithDetector.scan], on the characters from the last one on. *)
Fixpoint scan_end (endOfLines : list ascii) (chars : list ascii) : nat :=
  match chars with
  | [] => 0
  | char :: before =>
      if existsb (Ascii.eqb char) endOfLines then 1
      else if negb (isWhitespace char) && negb (Ascii.eqb char "*") && negb (Ascii.eqb char "/") then 0
      else scan_end endOfLines before
  end.

(** [line.split(/\[ \t(),\{\}\]/)] *)
Definition word_separators : list ascii := [" "; "009"; "("; ")"; ","; "{"; "}"]%char.

Fixpoint split_any (separators : list ascii) (s : string) : list string :=
  match s with
  | EmptyString => [EmptyString]
  | String c r =>
      if existsb (Ascii.eqb c) separators then EmptyString :: split_any separators r
      else match split_any separators r with
           | p :: ps => String c p :: ps
           | [] => [String c EmptyString]
           end
  end.

Definition scan_keywords (keywords : list string) (line : string) : nat :=
  length (List.filter (fun word => includes word keywords) (split_any word_separators line)).

Fixpoint drop_whitespace (s : string) : string :=
  match s with
  | String c r => if isWhitespace c then drop_whitespace r else s
  | EmptyString => EmptyString
  end.

(** [line.replace(/\s+/, '')] *)
Fixpoint remove_first_spaces (s : string) : string :=
  match s with
  | String c r => if isWhitespace c then drop_whitespace r else String c (remove_first_spaces r)
  | EmptyString => EmptyString
  end.

(** The number of matches of a text that is not empty, from the left, without overlap;
    [skip] is what is left of a match. *)
Fixpoint count_matches (skip : nat) (pattern s : string) : nat :=
  match s with
  | EmptyString => 0
  | String _ r =>
      match skip with
      | S k => count_matches k pattern r
      | O => if String.prefix pattern s then 1 + count_matches (String.length pattern - 1) pattern r
             else count_matches 0 pattern r
      end
  end.

(** [/;\s+\/\//.test(s)] *)
Fixpoint semicolon_then_comment (s : string) : bool :=
  match s with
  | EmptyString => false
  | String c r =>
      (Ascii.eqb c ";"
       && match r with String d _ => isWhitespace d | EmptyString => false end
       && String.prefix "//" (drop_whitespace r))
      || semicolon_then_comment r
  end.

Definition scan_contains (strings : list Sought) (line : string) : nat :=
  let lineWithoutSpaces := remove_first_spaces line in
  fold_left (fun matchers str =>
    matchers + match str with
               | Text s => count_matches 0 s lineWithoutSpaces
               | SemicolonThenComment => if semicolon_then_comment lineWithoutSpaces then 1 else 0
               end) strings 0.

Definition isLowercase (char : ascii) : bool := Ascii.eqb (lower_ascii char) char.
Definition isUpprcase (char : ascii) : bool := Ascii.eqb (upper_ascii char) char.

Definition isLowerCaseThenUpperCase (previousChar char : ascii) : bool :=
  isLowercase previousChar && isUpprcase char.

(** The loop of [CamelCaseDetector.scan]. *)
Fixpoint scan_camel (previousChar : ascii) (line : string) : nat :=
  match line with
  | EmptyString => 0
  | String currentChar rest =>
      if isLowerCaseThenUpperCase previousChar currentChar then 1 else scan_camel currentChar rest
  end.

Definition scan (d : Detector) (line : string) : nat :=
  match d with
  | EndWithDetector _ endOfLines => scan_end endOfLines (rev (String.list_ascii_of_string line))
  | KeywordsDetector _ keywords => scan_keywords keywords line
  | ContainsDetector _ strings => scan_contains strings line
  | CamelCaseDetector _ => scan_camel " " line
  end.

Open Scope Q_scope.

(** The constructor of [Detector]. *)
Definition checked (d : Detector) : result string Detector :=
  if negb (Qle_bool 0 (probability d)) || negb (Qle_bool (probability d) 1)
  then Throw "probability should be between [0 .. 1]" else Ok d.

Definition detector_recognition (d : Detector) (line : string) : Q :=
  let matchers := scan d line in
  if Nat.eqb matchers 0 then 0 else 1 - Qpower (1 - probability d) (Z.of_nat matchers).

(** ** The footprint of JavaScript *)

Definition quote : string := bytes [34%nat].

Definition code_keywords : list string :=
  ["public"; "abstract"; "class"; "implements"; "extends"; "return"; "throw"; "private"; "protected"; "enum";
   "continue"; "assert"; "boolean"; "this"; "instanceof"; "interface"; "static"; "void"; "super"; "true"; "case:";
   "let"; "const"; "var"; "async"; "await"; "break"; "yield"; "typeof"; "import"; "export"].

Definition code_parts : list Sought :=
  [Text "for("; Text "if("; Text "while("; Text "catch("; Text "switch("; Text "try{"; Text "else{"; Text "this.";
   Text "window."; SemicolonThenComment; Text "import '"; Text ("import " +:+ quote)%string; Text "require("].

Definition JavaScriptFootPrint : list Detector :=
  [EndWithDetector (95 # 100) ["}"; ";"; "{"]%char;
   KeywordsDetector (7 # 10) ["++"; "||"; "&&"; "==="; "?."; "??"];
   KeywordsDetector (3 # 10) code_keywords;
   ContainsDetector (95 # 100) code_parts;
   CamelCaseDetector (5 # 10)].

(** ** [CodeRecognizer] *)

Record CodeRecognizer := mkCodeRecognizer { threshold : Q; detectors : list Detector }.

Definition recognition (r : CodeRecognizer) (line : string) : Q :=
  fold_left (fun probability pattern => 1 - (1 - probability) * (1 - detector_recognition pattern line))
    (detectors r) 0.

Definition extractCodeLines (r : CodeRecognizer) (lines : list string) : list string :=
  List.filter (fun line => Qle_bool (threshold r) (recognition r line)) lines.

Definition isLineOfCode (r : CodeRecognizer) (line : string) : bool :=
  negb (Qle_bool (recognition r line - threshold r) 0).

Definition recognizer : CodeRecognizer := mkCodeRecognizer (9 # 10) JavaScriptFootPrint.

Open Scope nat_scope.

(** ** The rule *)

(** [TSESTree.Comment]: comments with a location. *)
Record TSComment := mkTSComment {
  tc_type : string;
  tc_value : string;
  tc_loc : SourceLocation;
  tc_range : Z * Z
}.

Record GroupComment := mkGroup { g_value : string; g_nodes : list TSComment }.

Definition newline : string := bytes [10].

Section Rule.

(** [context.sourceCode.getTokenAfter(comment)]: the next token of code. *)
Variable getTokenAfter : TSComment -> option Token.

Definition areAdjacentLineComments (previous next : TSComment) : bool :=
  let nextCommentLine := line (start (tc_loc next)) in
  (line (start (tc_loc previous)) + 1 =? nextCommentLine)%Z
  && match getTokenAfter previous with
     | None => true
     | Some nextCodeToken => (nextCommentLine <? line (start (t_loc nextCodeToken)))%Z
     end.

Definition line_group (currentGroup : list TSComment) : GroupComment :=
  mkGroup (join_with newline (map tc_value currentGroup)) currentGroup.

(** A turn of the loop, on the groups and the current one. *)
Definition group_step (st : list GroupComment * list TSComment) (comment : TSComment)
  : list GroupComment * list TSComment :=
  let '(groupedComments, currentGroup) := st in
  if tc_type comment =s "Block" then (groupedComments ++ [mkGroup (tc_value comment) [comment]], currentGroup)
  else match last currentGroup with
       | None => (groupedComments, currentGroup ++ [comment])
       | Some previous =>
           if areAdjacentLineComments previous comment then (groupedComments, currentGroup ++ [comment])
           else (groupedComments ++ [line_group currentGroup], [comment])
       end.

Definition getGroupedComments (comments : list TSComment) : list GroupComment :=
  let '(groupedComments, currentGroup) := fold_left group_step comments ([], []) in
  match currentGroup with
  | [] => groupedComments
  | _ => groupedComments ++ [line_group currentGroup]
  end.

(** *** Exclusions *)

Definition EXCLUDED_STATEMENTS : list string := ["BreakStatement"; "LabeledStatement"; "ContinueStatement"].

(** The source code of a parsed comment: the body of the program, and the method
    [getLastToken] of ESLint. *)
Record Parsed := mkParsed {
  ast_body : list node;
  getLastToken : node -> (Token -> bool) -> option Token
}.

Definition isReturnThrowExclusion (statement : node) : bool :=
  ((type_of statement =s "ReturnStatement") || (type_of statement =s "ThrowStatement"))
  && match get_node statement "argument" with
     | None => true
     | Some argument => type_of argument =s "Identifier"
     end.

Definition isUnaryPlusOrMinus (expression : node) : bool :=
  (type_of expression =s "UnaryExpression")
  && (str_prop_is expression "operator" "+" || str_prop_is expression "operator" "-").

Definition isExcludedLiteral (expression : node) : bool :=
  (type_of expression =s "Literal")
  && match get expression "value" with VStr _ | VNum _ => true | _ => false end.

Definition isExpressionExclusion (statement : node) (code : Parsed) : bool :=
  (type_of statement =s "ExpressionStatement")
  && match get_node statement "expression" with
     | None => false
     | Some expression =>
         (type_of expression =s "Identifier") || (type_of expression =s "SequenceExpression")
         || isUnaryPlusOrMinus expression || isExcludedLiteral expression
         || match getLastToken code statement (fun token => t_value token =s ";") with Some _ => false | None => true end
     end.

Definition isExclusion (parsedBody : list node) (code : Parsed) : bool :=
  match parsedBody with
  | [singleStatement] =>
      includes (type_of singleStatement) EXCLUDED_STATEMENTS
      || isReturnThrowExclusion singleStatement || isExpressionExclusion singleStatement code
  | _ => false
  end.

(** *** Braces *)

Definition count_char (c : ascii) (s : string) : nat :=
  length (List.filter (Ascii.eqb c) (String.list_ascii_of_string s)).

Definition repeat_char (c : ascii) (n : nat) : string :=
  String.string_of_list_ascii (repeat c n).

Definition injectMissingBraces (value : string) : string :=
  let missingBraces := (Z.of_nat (count_char "{" value) - Z.of_nat (count_char "}" value))%Z in
  if (0 <? missingBraces)%Z then (value +:+ repeat_char "}" (Z.to_nat missingBraces))%string
  else if (missingBraces <? 0)%Z then (repeat_char "{" (Z.to_nat (- missingBraces)) +:+ value)%string
  else value.

(** *** The parser *)

(** The parser of the linter with its options, if there is one; [None] is an
    exception. *)
Variable parser : option (string -> option Parsed).

Definition couldBeJsCode (input : string) : bool :=
  match extractCodeLines recognizer (split_char "010" input) with [] => false | _ => true end.

Definition containsCode (value : string) : bool :=
  match parser with
  | None => false
  | Some parse =>
      couldBeJsCode value
      && match parse value with
         | None => false
         | Some parseResult =>
             match ast_body parseResult with
             | [] => false
             | body => negb (isExclusion body parseResult)
             end
         end
  end.

(** *** Reports *)

Record Report := mkReport { r_loc : SourceLocation; r_removed : Z * Z }.

Definition getCommentLocation (first last : TSComment) : SourceLocation :=
  mkLoc (start (tc_loc first)) (endp (tc_loc last)).

(** The report of a group and the range its suggestion removes. *)
Definition report_group (groupComment : GroupComment) : list Report :=
  let rawTextTrimmed := trim (g_value groupComment) in
  if negb (rawTextTrimmed =s "}") && containsCode (injectMissingBraces rawTextTrimmed) then
    match head (g_nodes groupComment), last (g_nodes groupComment) with
    | Some first, Some last =>
        [mkReport (getCommentLocation first last) ((tc_range first).1, (tc_range last).2)]
    | _, _ => []
    end
  else [].

Definition Program_exit (comments : list TSComment) : list Report :=
  flat_map report_group (getGroupedComments comments).

End Rule.

(** ** Groups *)

Section Groups.

Variable getTokenAfter : TSComment -> option Token.

Definition is_block (c : TSComment) : bool := tc_type c =s "Block".

(** Each comment of a group is adjacent to the next one. *)
Fixpoint chained (l : list TSComment) : Prop :=
  match l with
  | a :: (b :: _) as r => areAdjacentLineComments getTokenAfter a b = true /\ chained r
  | _ => True
  end.

Lemma chained_app l c :
  chained l -> (forall p, last l = Some p -> areAdjacentLineComments getTokenAfter p c = true) -> chained (l ++ [c]).
Proof.
  induction l as [|a [|b l] IH]; cbn [chained app]; intros H Hc; [done | split; [by apply Hc | done] |].
  destruct H as [Hab H]. split; [done |]. by apply IH.
Qed.

(** What a group of comments is. *)
Definition group_ok (g : GroupComment) : Prop :=
  g_value g = join_with newline (map tc_value (g_nodes g)) /\
  ((exists c, g_nodes g = [c] /\ is_block c = true) \/
   (g_nodes g <> [] /\ Forall (fun c => is_block c = false) (g_nodes g) /\ chained (g_nodes g))).

Definition current_ok (current : list TSComment) : Prop :=
  Forall (fun c => is_block c = false) current /\ chained current.

Lemma line_group_ok current : current <> [] -> current_ok current -> group_ok (line_group current).
Proof. intros N [B C]. split; [done |]. right. done. Qed.

Lemma group_step_ok c groups current groups' current' :
  group_step getTokenAfter (groups, current) c = (groups', current') ->
  Forall group_ok groups -> current_ok current ->
  Forall group_ok groups' /\ current_ok current' /\
  flat_map g_nodes groups' ++ current' ≡ₚ (flat_map g_nodes groups ++ current) ++ [c].
Proof.
  unfold group_step. intros H G [B C]. destruct (tc_type c =s "Block") eqn:Eb.
  - injection H as <- <-. split; [apply Forall_app_2; [done |]; apply Forall_singleton; split; [done | left; eauto] |].
    split; [done |]. rewrite flat_map_app. cbn. rewrite <- !app_assoc. apply Permutation_app_head, Permutation_app_comm.
  - destruct (last current) as [p|] eqn:El.
    + destruct (areAdjacentLineComments _ p c) eqn:Ea; injection H as <- <-.
      * split; [done |]. split; [| by rewrite app_assoc]. split; [apply Forall_app_2; [done | by apply Forall_singleton] |].
        apply chained_app; [done |]. intros p' E. congruence.
      * assert (current <> []) as N by (by intros ->).
        split; [apply Forall_app_2; [done | by apply Forall_singleton, line_group_ok] |].
        split; [split; [by apply Forall_singleton | done] |]. rewrite flat_map_app. cbn. by rewrite app_nil_r.
    + injection H as <- <-. apply last_None in El as ->. split; [done |].
      split; [split; [by apply Forall_singleton | done] | by rewrite app_nil_r].
Qed.

Lemma group_steps_ok comments : forall groups current groups' current',
  fold_left (group_step getTokenAfter) comments (groups, current) = (groups', current') ->
  Forall group_ok groups -> current_ok current ->
  Forall group_ok groups' /\ current_ok current' /\
  flat_map g_nodes groups' ++ current' ≡ₚ (flat_map g_nodes groups ++ current) ++ comments.
Proof.
  induction comments as [|c comments IH]; intros groups current groups' current' H G C.
  { cbn in H. injection H as <- <-. by rewrite app_nil_r. }
  cbn [fold_left] in H. destruct (group_step getTokenAfter (groups, current) c) as [g1 c1] eqn:E.
  apply group_step_ok in E as (G1 & C1 & P1); [| done..]. destruct (IH _ _ _ _ H G1 C1) as (G2 & C2 & P2).
  split_and!; [done.. |]. rewrite P2, P1. by rewrite <- app_assoc.
Qed.

(** The groups of the comments of a file are a partition of the comments, and
    each is a block comment alone or line comments each adjacent to the next one;
    the value of a group is the lines of its comments. *)
Theorem groups_partition_comments comments :
  flat_map g_nodes (getGroupedComments getTokenAfter comments) ≡ₚ comments /\
  Forall group_ok (getGroupedComments getTokenAfter comments).
Proof.
  unfold getGroupedComments. destruct (fold_left _ comments ([], [])) as [groups current] eqn:E.
  apply group_steps_ok in E as (G & C & P); [| done | done]. cbn in P.
  destruct current as [|c current]; [by rewrite app_nil_r in P |].
  rewrite flat_map_app. cbn [flat_map]. rewrite app_nil_r. split; [done |].
  apply Forall_app_2; [done |]. by apply Forall_singleton, line_group_ok.
Qed.

(** ** The suggestion *)

(** What the tokens and the comments of a file are: they do not overlap, lines grow
    with offsets, and the token after a comment is the first one from its end on. *)
Record located (tokens : list Token) (comments : list TSComment) : Prop := {
  token_after c : c ∈ comments ->
    getTokenAfter c = List.find (fun t => (tc_range c).2 <=? (t_range t).1)%Z tokens;
  tokens_in_order : StronglySorted (fun t t' => (t_range t).1 <= (t_range t').1)%Z tokens;
  tokens_not_empty t : t ∈ tokens -> ((t_range t).1 < (t_range t).2)%Z;
  comments_not_empty c : c ∈ comments -> ((tc_range c).1 < (tc_range c).2)%Z;
  no_overlap t c : t ∈ tokens -> c ∈ comments ->
    ((t_range t).2 <= (tc_range c).1 \/ (tc_range c).2 <= (t_range t).1)%Z;
  lines_of_tokens t t' : t ∈ tokens -> t' ∈ tokens -> ((t_range t).1 <= (t_range t').1)%Z ->
    (line (start (t_loc t)) <= line (start (t_loc t')))%Z;
  lines_before_comments t c : t ∈ tokens -> c ∈ comments -> ((t_range t).1 <= (tc_range c).1)%Z ->
    (line (start (t_loc t)) <= line (start (tc_loc c)))%Z
}.

Lemma find_sorted (f : Token -> bool) tokens t :
  StronglySorted (fun t t' => (t_range t).1 <= (t_range t').1)%Z tokens -> t ∈ tokens -> f t = true ->
  exists t0, List.find f tokens = Some t0 /\ t0 ∈ tokens /\ ((t_range t0).1 <= (t_range t).1)%Z.
Proof.
  induction 1 as [|a tokens S IH F]; intros Ht Hf; [by apply not_elem_of_nil in Ht |]. cbn [List.find].
  destruct (f a) eqn:Ea.
  - exists a. split_and!; [done | by left |]. apply elem_of_cons in Ht as [->|Ht]; [lia |].
    rewrite Forall_forall in F. by apply F.
  - apply elem_of_cons in Ht as [->|Ht]; [congruence |].
    destruct (IH Ht Hf) as (t0 & E & H0 & L). exists t0. split_and!; [done | by right | done].
Qed.

(** No token is between two adjacent comments, nor between the ends of a chain. *)
Lemma no_token_between tokens comments a b t :
  located tokens comments -> a ∈ comments -> b ∈ comments -> t ∈ tokens ->
  areAdjacentLineComments getTokenAfter a b = true ->
  ((tc_range a).2 <= (t_range t).1)%Z -> ((tc_range b).2 <= (t_range t).1)%Z.
Proof.
  intros L Ha Hb Ht A Hat. unfold areAdjacentLineComments in A. rewrite (token_after _ _ L a Ha) in A.
  apply Z.leb_le in Hat.
  destruct (find_sorted (fun t => (tc_range a).2 <=? (t_range t).1)%Z tokens t (tokens_in_order _ _ L) Ht Hat)
    as (t0 & E & H0 & Lt).
  rewrite E in A. split_bools. pose proof (lines_of_tokens _ _ L t0 t H0 Ht Lt).
  pose proof (tokens_not_empty _ _ L t Ht). pose proof (lines_before_comments _ _ L t b Ht Hb).
  destruct (no_overlap _ _ L t b Ht Hb); lia.
Qed.

Lemma no_token_in_chain tokens comments t : located tokens comments -> t ∈ tokens ->
  forall l first end_, Forall (fun c => c ∈ comments) l -> chained l -> head l = Some first -> last l = Some end_ ->
  ((t_range t).2 <= (tc_range first).1 \/ (tc_range end_).2 <= (t_range t).1)%Z.
Proof.
  intros L Ht l. induction l as [|a [|b l] IH]; intros first end_ F C Hf Hl; [done | |].
  - cbn in Hf, Hl. injection Hf as <-. injection Hl as <-. apply (no_overlap _ _ L); [done | by rewrite Forall_singleton in F].
  - injection Hf as <-. destruct C as [Cab C]. apply Forall_cons_1 in F as [Fa F].
    destruct (no_overlap _ _ L t a Ht Fa) as [H|H]; [by left | right].
    assert (b ∈ comments) as Fb by (by rewrite Forall_cons in F; destruct F).
    pose proof (no_token_between _ _ a b t L Fa Fb Ht Cab H).
    destruct (IH b end_ F C eq_refl Hl); [| done].
    pose proof (tokens_not_empty _ _ L t Ht). pose proof (comments_not_empty _ _ L b Fb). lia.
Qed.

(** The suggestion of a report never removes code: every token is before or after
    the range it removes, which goes from the start of a comment to the end of
    a comment. *)
Theorem suggestion_keeps_code parser tokens comments report :
  located tokens comments -> report ∈ Program_exit getTokenAfter parser comments ->
  (exists first end_, first ∈ comments /\ end_ ∈ comments /\
     r_removed report = ((tc_range first).1, (tc_range end_).2) /\
     r_loc report = mkLoc (start (tc_loc first)) (endp (tc_loc end_))) /\
  forall t, t ∈ tokens -> ((t_range t).2 <= (r_removed report).1 \/ (r_removed report).2 <= (t_range t).1)%Z.
Proof.
  intros L H. unfold Program_exit in H. apply list_elem_of_In, in_flat_map in H as (g & Hg & Hr).
  apply list_elem_of_In in Hg. destruct (groups_partition_comments comments) as [P G].
  rewrite Forall_forall in G. pose proof (G g Hg) as [_ Gg].
  assert (Forall (fun c => c ∈ comments) (g_nodes g)) as F.
  { apply Forall_forall. intros c Hc. rewrite <- P. apply list_elem_of_In, in_flat_map. exists g.
    split; by apply list_elem_of_In. }
  unfold report_group in Hr. destruct (_ && _); [| done].
  destruct (head (g_nodes g)) as [first|] eqn:Eh; [| done]. destruct (last (g_nodes g)) as [end_|] eqn:El; [| done].
  destruct Hr as [<-|[]]. cbn [r_removed r_loc fst snd]. split.
  - exists first, end_. rewrite Forall_forall in F. split_and!; [| | done | done]; apply F;
      [by apply head_Some_elem_of | by apply last_Some_elem_of].
  - intros t Ht. apply (no_token_in_chain tokens comments t L Ht (g_nodes g)); [done | | done | done].
    destruct Gg as [(c & -> & _)|(_ & _ & C)]; done.
Qed.

End Groups.

(** ** Recognition *)

Open Scope Q_scope.

Definition qpow (x : Q) (n : nat) : Q := Qpower x (Z.of_nat n).

Lemma qpow_S x n : qpow x (S n) == x * qpow x n.
Proof.
  unfold qpow. rewrite Nat2Z.inj_succ. unfold Z.succ. destruct n as [|n].
  { change (x ^ 1 == x * 1). rewrite Qpower_1_r. ring. }
  rewrite Qpower_plus'; [| lia]. rewrite Qpower_1_r. ring.
Qed.

Lemma qpow_bounds x n : 0 <= x <= 1 -> 0 <= qpow x n <= 1.
Proof.
  intros H. induction n as [|n IH]; [change (0 <= 1 <= 1); lra |].
  rewrite qpow_S. split; [apply Qmult_le_0_compat; tauto |].
  apply Qle_trans with (1 * 1); [| lra]. apply Qmult_le_compat_nonneg; tauto. 
Qed.

Lemma qpow_antitone x m n : 0 <= x <= 1 -> (m <= n)%nat -> qpow x n <= qpow x m.
Proof.
  intros H. induction 1 as [|n L IH]; [apply Qle_refl |]. rewrite qpow_S.
  apply Qle_trans with (1 * qpow x n); [| by rewrite Qmult_1_l].
  apply Qmult_le_compat_r; [tauto | by apply qpow_bounds].
Qed.

(** The probability that no detector is right. *)
Definition doubt (ds : list Detector) (line : string) : Q :=
  foldr (fun d q => qpow (1 - probability d) (scan d line) * q) 1 ds.

Lemma detector_recognition_eq d line : detector_recognition d line == 1 - qpow (1 - probability d) (scan d line).
Proof.
  unfold detector_recognition. destruct (Nat.eqb_spec (scan d line) 0) as [->|_]; [change (0 == 1 - 1); ring | reflexivity].
Qed.

Lemma recognition_doubt_from ds line : forall q,
  fold_left (fun probability pattern => 1 - (1 - probability) * (1 - detector_recognition pattern line)) ds q
  == 1 - (1 - q) * doubt ds line.
Proof.
  induction ds as [|d ds IH]; intros q; cbn [fold_left doubt foldr]; [ring |].
  rewrite IH, detector_recognition_eq. unfold doubt. ring.
Qed.

(** The recognition of a line is a probability: that one of the detectors is right,
    each occurrence being an independent event. *)
Lemma recognition_is_probability r line :
  Forall (fun d => exists d', checked d = Ok d') (detectors r) ->
  recognition r line == 1 - doubt (detectors r) line /\ 0 <= recognition r line <= 1.
Proof.
  intros F. unfold recognition. rewrite recognition_doubt_from.
  assert (0 <= doubt (detectors r) line <= 1) as D; [| split; [ring | split; lra]].
  induction F as [|d ds [d' Hd] F IH]; [change (0 <= 1 <= 1); lra |]. cbn [doubt foldr].
  unfold checked in Hd. destruct (Qle_bool 0 (probability d)) eqn:E0; [| done].
  destruct (Qle_bool (probability d) 1) eqn:E1; [| done]. apply Qle_bool_iff in E0, E1.
  assert (0 <= qpow (1 - probability d) (scan d line) <= 1) as B by (apply qpow_bounds; lra).
  fold (doubt ds line). split; [apply Qmult_le_0_compat; tauto |].
  apply Qle_trans with (1 * 1); [| lra]. apply Qmult_le_compat_nonneg; tauto. 
Qed.

Open Scope nat_scope.

(** *** The detectors on a line *)

Definition lower_letter (c : ascii) : bool := let n := nat_of_ascii c in Nat.leb 97 n && Nat.leb n 122.

Definition chars (s : string) : list ascii := String.list_ascii_of_string s.

Lemma isUpprcase_eq c : isUpprcase c = negb (lower_letter c).
Proof. destruct c as [[] [] [] [] [] [] [] []]; vm_compute; reflexivity. Qed.

Lemma isLowercase_lower c : lower_letter c = true -> isLowercase c = true.
Proof. destruct c as [[] [] [] [] [] [] [] []]; vm_compute; intros; done. Qed.

(** The detector of camel case fires on every line but those of lower case letters. *)
Lemma scan_camel_spec s : forall previous, isLowercase previous = true ->
  scan_camel previous s = if forallb lower_letter (chars s) then 0 else 1.
Proof.
  induction s as [|c s IH]; intros previous H; [done |].
  cbn [scan_camel chars String.list_ascii_of_string forallb].
  unfold isLowerCaseThenUpperCase. rewrite H, isUpprcase_eq. destruct (lower_letter c) eqn:E; cbn [negb andb]; [| done].
  by apply IH, isLowercase_lower.
Qed.

Lemma scan_end_le ends l : scan_end ends l <= 1.
Proof. induction l as [|c l IH]; cbn [scan_end]; [lia |]. repeat case_match; lia. Qed.

Lemma scan_end_spec ends l : scan_end ends l = 1 <->
  exists skipped c rest, l = skipped ++ c :: rest /\ c ∈ ends /\
    Forall (fun d => isWhitespace d = true \/ d = "*"%char \/ d = "/"%char) skipped.
Proof.
  induction l as [|c l IH]; cbn [scan_end].
  { split; [done |]. intros ([|] & c & rest & E & _); done. }
  assert (existsb (Ascii.eqb c) ends = true <-> c ∈ ends) as Hin.
  { rewrite existsb_exists. setoid_rewrite <- list_elem_of_In. split; [| by exists c; rewrite Ascii.eqb_refl].
    intros (d & Hd & E). apply Ascii.eqb_eq in E. by subst. }
  destruct (existsb (Ascii.eqb c) ends).
  { split; [| done]. intros _. exists [], c, l. split_and!; [done | by apply Hin | done]. }
  destruct (negb (isWhitespace c) && negb (Ascii.eqb c "*") && negb (Ascii.eqb c "/")) eqn:E.
  - split; [done |]. intros ([|d skipped] & c' & rest & Eq & Hc & F); injection Eq as <- ->; [by apply Hin in Hc |].
    apply Forall_cons_1 in F as [[H|[->| ->]] _]; [by rewrite H in E | done | by rewrite andb_false_r in E].
  - rewrite IH. split.
    + intros (skipped & c' & rest & -> & Hc & F). exists (c :: skipped), c', rest. split_and!; [done.. |].
      constructor; [| done]. destruct (isWhitespace c); [by left |].
      destruct (Ascii.eqb_spec c "*"); [by right; left |]. destruct (Ascii.eqb_spec c "/"); [by right; right | done].
    + intros ([|d skipped] & c' & rest & Eq & Hc & F); injection Eq as <- ->; [by apply Hin in Hc |].
      exists skipped, c', rest. apply Forall_cons_1 in F as [_ F]. done.
Qed.

Lemma split_any_chars separators s w : w ∈ split_any separators s -> forall c, c ∈ chars w -> c ∈ chars s.
Proof.
  revert w. induction s as [|d s IH]; intros w; cbn [split_any].
  { by intros ->%list_elem_of_singleton. }
  unfold chars in *. cbn [String.list_ascii_of_string]. destruct (existsb (Ascii.eqb d) separators).
  - intros [->|H]%elem_of_cons c Hc; [by apply not_elem_of_nil in Hc |]. right. by apply (IH w).
  - destruct (split_any separators s) as [|p ps].
    + intros ->%list_elem_of_singleton c Hc. cbn in Hc. apply list_elem_of_singleton in Hc as ->. by left.
    + intros [->|H]%elem_of_cons c Hc.
      * cbn [String.list_ascii_of_string] in Hc. apply elem_of_cons in Hc as [->|Hc]; [by left |].
        right. by apply (IH p); [left |].
      * right. by apply (IH w); [right |].
Qed.

Lemma split_any_words separators s : 2 <= length (split_any separators s) ->
  exists c, c ∈ chars s /\ c ∈ separators.
Proof.
  induction s as [|d s IH]; cbn [split_any length]; [lia |]. unfold chars in *. cbn [String.list_ascii_of_string].
  destruct (existsb (Ascii.eqb d) separators) eqn:E.
  - intros _. exists d. split; [by left |]. apply existsb_exists in E as (c & Hc & Ec).
    apply Ascii.eqb_eq in Ec as ->. by apply list_elem_of_In.
  - destruct (split_any separators s) as [|p ps]; cbn [length]; [lia |]. intros H.
    destruct (IH H) as (c & Hc & Hs). exists c. split; [by right | done].
Qed.

(** *** Which lines are code *)

Definition operators : list string := ["++"; "||"; "&&"; "==="; "?."; "??"].

(** The lines that are taken for code: they end with a brace or a semicolon, have
    a part of a statement, two operators, an operator and two keywords, or five keywords. *)
Definition looks_like_code (line : string) : bool :=
  let operators := scan_keywords operators line in
  let keywords := scan_keywords code_keywords line in
  (1 <=? scan_end ["}"; ";"; "{"]%char (rev (chars line)))
  || (1 <=? scan_contains code_parts line)
  || (2 <=? operators) || ((1 <=? operators) && (2 <=? keywords)) || (5 <=? keywords).

Lemma other_char s c : c ∈ chars s -> lower_letter c = false -> forallb lower_letter (chars s) = false.
Proof.
  intros H L. apply not_true_iff_false. intros F. rewrite forallb_forall in F.
  rewrite F in L; [done | by apply list_elem_of_In].
Qed.

Lemma operators_not_lower line : 1 <= scan_keywords operators line -> forallb lower_letter (chars line) = false.
Proof.
  unfold scan_keywords. intros H. destruct (List.filter _ _) as [|w ws] eqn:E; cbn in H; [lia |].
  assert (In w (w :: ws)) as Hw by (by left). rewrite <- E in Hw. apply filter_In in Hw as [Hw Ho].
  apply list_elem_of_In in Hw. apply includes_spec in Ho.
  assert (exists c, c ∈ chars w /\ lower_letter c = false) as (c & Hc & L).
  { unfold operators in Ho. repeat (apply elem_of_cons in Ho as [->|Ho]; [eexists; split; [by left | reflexivity] |]).
    by apply not_elem_of_nil in Ho. }
  apply (other_char _ c); [| done]. by apply (split_any_chars word_separators line w).
Qed.

Lemma keywords_not_lower line : 2 <= scan_keywords code_keywords line -> forallb lower_letter (chars line) = false.
Proof.
  unfold scan_keywords. intros H.
  assert (2 <= length (split_any word_separators line)) as Hl.
  { eapply Nat.le_trans; [done |]. apply filter_length_le. }
  destruct (split_any_words _ _ Hl) as (c & Hc & Hs). apply (other_char _ c); [done |].
  unfold word_separators in Hs. repeat (apply elem_of_cons in Hs as [->|Hs]; [reflexivity |]).
  by apply not_elem_of_nil in Hs.
Qed.

Open Scope Q_scope.

(** The doubt left by [e] ends, [o] operators, [k] keywords, [n] parts and [c] camel cases. *)
Definition left_doubt (e o k n c : nat) : Q :=
  qpow (5 # 100) e * (qpow (3 # 10) o * (qpow (7 # 10) k * (qpow (5 # 100) n * qpow (5 # 10) c))).

Lemma between_mult a b c d : 0 <= a <= b -> 0 <= c <= d -> 0 <= a * c <= b * d.
Proof. intros H1 H2. split; [apply Qmult_le_0_compat; tauto | by apply Qmult_le_compat_nonneg]. Qed.

Lemma qpow_between x m n : 0 <= x <= 1 -> (m <= n)%nat -> 0 <= qpow x n <= qpow x m.
Proof. intros H L. split; [by apply qpow_bounds | by apply qpow_antitone]. Qed.

Lemma left_doubt_antitone e o k n c e' o' k' n' c' :
  (e' <= e)%nat -> (o' <= o)%nat -> (k' <= k)%nat -> (n' <= n)%nat -> (c' <= c)%nat ->
  left_doubt e o k n c <= left_doubt e' o' k' n' c'.
Proof.
  intros. unfold left_doubt. repeat apply between_mult; apply qpow_between; try done; lra.
Qed.

Lemma recognition_left_doubt line :
  recognition recognizer line ==
  1 - left_doubt (scan_end ["}"; ";"; "{"]%char (rev (chars line))) (scan_keywords operators line)
        (scan_keywords code_keywords line) (scan_contains code_parts line) (scan_camel " " line).
Proof.
  rewrite (proj1 (recognition_is_probability recognizer line
    ltac:(repeat first [apply Forall_nil_2 | apply Forall_cons_2]; by eexists))).
  unfold doubt, left_doubt. cbn [detectors recognizer JavaScriptFootPrint foldr scan probability].
  rewrite Qmult_1_r. reflexivity.
Qed.

Open Scope nat_scope.

Lemma enough_doubt e o k n c e' o' k' n' c' : Qle_bool (left_doubt e' o' k' n' c') (1 # 10) = true ->
  e' <= e -> o' <= o -> k' <= k -> n' <= n -> c' <= c -> Qle_bool (left_doubt e o k n c) (1 # 10) = true.
Proof. rewrite !Qle_bool_iff. intros H **. eapply Qle_trans; [by apply left_doubt_antitone | done]. Qed.

Lemma too_much_doubt e o k n c e' o' k' n' c' : Qle_bool (left_doubt e o k n c) (1 # 10) = false ->
  e' <= e -> o' <= o -> k' <= k -> n' <= n -> c' <= c -> Qle_bool (left_doubt e' o' k' n' c') (1 # 10) = false.
Proof.
  intros H **. apply not_true_iff_false. intros T. apply not_true_iff_false in H. apply H.
  by apply (enough_doubt _ _ _ _ _ e' o' k' n' c').
Qed.

(** The lines recognized as code, with probabilities combined and a threshold, are
    exactly those that end with a brace or a semicolon (before spaces, [*] and [/]),
    have one of the parts of statements, two operators between separators, an
    operator and two keywords, or five keywords. *)
Theorem code_lines_criterion lines :
  extractCodeLines recognizer lines = List.filter looks_like_code lines.
Proof.
  unfold extractCodeLines. apply filter_ext. intros line. cbn [threshold recognizer].
  assert (Qle_bool (9 # 10) (recognition recognizer line) =
    Qle_bool (left_doubt (scan_end ["}"; ";"; "{"]%char (rev (chars line))) (scan_keywords operators line)
        (scan_keywords code_keywords line) (scan_contains code_parts line) (scan_camel " " line)) (1 # 10)) as ->.
  { apply eq_true_iff_eq. rewrite !Qle_bool_iff, recognition_left_doubt. split; intros; lra. }
  unfold looks_like_code. rewrite scan_camel_spec by done.
  pose proof (scan_end_le ["}"; ";"; "{"]%char (rev (chars line))) as Le.
  pose proof (operators_not_lower line) as Ho. pose proof (keywords_not_lower line) as Hk.
  revert Le Ho Hk. generalize (scan_end ["}"; ";"; "{"]%char (rev (chars line))), (scan_keywords operators line),
    (scan_keywords code_keywords line), (scan_contains code_parts line), (forallb lower_letter (chars line)).
  intros e o k n letters Le Ho Hk.
  destruct (Nat.leb_spec 1 e); cbn [orb].
  { apply (enough_doubt _ _ _ _ _ 1 0 0 0 0); [reflexivity | lia..]. }
  destruct (Nat.leb_spec 1 n); cbn [orb].
  { apply (enough_doubt _ _ _ _ _ 0 0 0 1 0); [reflexivity | lia..]. }
  destruct (Nat.leb_spec 2 o); cbn [orb].
  { apply (enough_doubt _ _ _ _ _ 0 2 0 0 0); [reflexivity | lia..]. }
  destruct (Nat.leb_spec 1 o), (Nat.leb_spec 2 k); cbn [orb andb].
  - rewrite Ho by lia. apply (enough_doubt _ _ _ _ _ 0 1 2 0 1); [reflexivity | lia..].
  - destruct (Nat.leb_spec 5 k); [lia |]. apply (too_much_doubt 0 1 1 0 1); [reflexivity | lia.. |].
    destruct letters; lia.
  - destruct (Nat.leb_spec 5 k).
    + rewrite Hk by lia. apply (enough_doubt _ _ _ _ _ 0 0 5 0 1); [reflexivity | lia..].
    + apply (too_much_doubt 0 0 4 0 1); [reflexivity | lia.. |]. destruct letters; lia.
  - destruct (Nat.leb_spec 5 k); [lia |]. apply (too_much_doubt 0 0 4 0 1); [reflexivity | lia.. |].
    destruct letters; lia.
Qed.

(** ** Braces *)

Lemma count_char_app c s t : count_char c (s +:+ t)%string = count_char c s + count_char c t.
Proof.
  unfold count_char. induction s as [|d s IH]; [done |].
  change (String d s +:+ t)%string with (String d (s +:+ t)%string).
  cbn [String.list_ascii_of_string List.filter]. destruct (Ascii.eqb c d); cbn [length]; lia.
Qed.

Lemma count_char_repeat c d n : count_char c (repeat_char d n) = if Ascii.eqb c d then n else 0.
Proof.
  unfold count_char, repeat_char. rewrite String.list_ascii_of_string_of_list_ascii.
  induction n as [|n IH]; cbn [repeat List.filter]; [by destruct (Ascii.eqb c d) |].
  destruct (Ascii.eqb c d); cbn [length]; by rewrite IH.
Qed.

Lemma append_empty s : (s +:+ repeat_char "}" 0)%string = s.
Proof.
  induction s as [|c s IH]; [done |].
  change (String c (s +:+ repeat_char "}" 0)%string = String c s). by rewrite IH.
Qed.

(** The text given to the parser has as many opening as closing braces: the text of
    the comment, with closing braces after it or opening ones before it. *)
Lemma injected_braces_balance value :
  count_char "{" (injectMissingBraces value) = count_char "}" (injectMissingBraces value) /\
  injectMissingBraces (injectMissingBraces value) = injectMissingBraces value /\
  exists n, injectMissingBraces value = (value +:+ repeat_char "}" n)%string \/
            injectMissingBraces value = (repeat_char "{" n +:+ value)%string.
Proof.
  assert (count_char "{" (injectMissingBraces value) = count_char "}" (injectMissingBraces value)) as B.
  { unfold injectMissingBraces. destruct (Z.ltb_spec 0 (Z.of_nat (count_char "{" value) - Z.of_nat (count_char "}" value))).
    - rewrite !count_char_app, !count_char_repeat. cbn [Ascii.eqb Bool.eqb]. lia.
    - destruct (Z.ltb_spec (Z.of_nat (count_char "{" value) - Z.of_nat (count_char "}" value)) 0); [| lia].
      rewrite !count_char_app, !count_char_repeat. cbn [Ascii.eqb Bool.eqb]. lia. }
  split; [done |]. split.
  - revert B. generalize (injectMissingBraces value). intros s B. unfold injectMissingBraces.
    rewrite B, Z.sub_diag. done.
  - unfold injectMissingBraces. destruct (0 <? _)%Z; [by eexists; left |].
    destruct (_ <? 0)%Z; [by eexists; right | exists 0; left].
    symmetry. apply append_empty.
Qed.

(** ** Examples *)

(** The detector of parts of statements removes the first white space of a line only,
    whatever its name says: an indented statement is not recognized, nor is an import. *)
Example only_first_spaces_removed :
  map (scan_contains code_parts) ["if (a)"; " if (a)"; "import 'x'"; " import 'x'"] = [1; 0; 0; 1].
Proof. vm_compute. reflexivity. Qed.

(** Words in sentences are camel case for the detector, unless they are one word of
    lower case letters. *)
Example camel_case_of_words :
  map (scan_camel " ") ["word"; "some words"; "A"; "1"; "word."] = [0; 1; 1; 1; 1].
Proof. vm_compute. reflexivity. Qed.

Section Example_file.

Local Open Scope Z_scope.

Definition comment_at (kind value : string) (line : Z) (range : Z * Z) : TSComment :=
  mkTSComment kind value (mkLoc (mkPos line 0) (mkPos line 9)) range.

Definition token_at (line : Z) (range : Z * Z) : Token :=
  mkToken "Identifier" "x" (mkLoc (mkPos line 0) (mkPos line 1)) range.

(** Two adjacent line comments, then a token, a block comment and a line comment. *)
Definition file_comments : list TSComment :=
  [comment_at "Line" " foo();" 1 (0, 9); comment_at "Line" " bar();" 2 (10, 19);
   comment_at "Block" " some words " 4 (22, 38); comment_at "Line" " more words" 4 (39, 52)].

Definition file_tokens : list Token := [token_at 3 (20, 21)].

Definition file_token_after (c : TSComment) : option Token :=
  List.find (fun t => (tc_range c).2 <=? (t_range t).1) file_tokens.

Definition mk (i : nat) (t : string) (ps : list (string * value)) : node :=
  Node (mkHeader i t None None) ps.

(** A parser of one expression statement, a call with its semicolon. *)
Definition file_parser : option (string -> option Parsed) :=
  Some (fun _ => Some (mkParsed
    [mk 1 "ExpressionStatement" [("expression", VNode (mk 2 "CallExpression" []))]]
    (fun _ f => List.find f [mkToken "Punctuator" ";" (mkLoc (mkPos 1 0) (mkPos 1 1)) (0, 1)]))).

Definition file_report : Report := mkReport (mkLoc (mkPos 1 0) (mkPos 2 9)) (0, 19).

Example file_reports : Program_exit file_token_after file_parser file_comments = [file_report].
Proof. vm_compute. reflexivity. Qed.

Lemma file_located : located file_token_after file_tokens file_comments.
Proof.
  assert (forall P : TSComment -> Prop, Forall P file_comments -> forall c, c ∈ file_comments -> P c) as FC
    by (intros P F; by apply Forall_forall).
  split.
  - done.
  - repeat constructor.
  - by intros t ->%list_elem_of_singleton.
  - refine (FC _ _). repeat first [apply Forall_nil_2 | apply Forall_cons_2]; cbn; lia.
  - intros t c ->%list_elem_of_singleton. revert c. refine (FC _ _). repeat first [apply Forall_nil_2 | apply Forall_cons_2]; cbn; lia.
  - by intros t t' ->%list_elem_of_singleton ->%list_elem_of_singleton.
  - intros t c ->%list_elem_of_singleton. revert c. refine (FC _ _). repeat first [apply Forall_nil_2 | apply Forall_cons_2]; cbn; lia.
Qed.

Example suggestion_keeps_code_witness :
  file_report ∈ Program_exit file_token_after file_parser file_comments /\
  forall t, t ∈ file_tokens -> (t_range t).2 <= 0 \/ 19 <= (t_range t).1.
Proof.
  assert (file_report ∈ Program_exit file_token_after file_parser file_comments) as H by (rewrite file_reports; by left).
  split; [exact H |]. apply (suggestion_keeps_code _ _ _ _ _ file_located H).
Defined.

(** Line comments around a block comment are one group: the suggestion on them
    removes the block comment as well. *)
Definition around_block : list TSComment :=
  [comment_at "Line" " foo();" 1 (0, 9); comment_at "Block" " keep " 2 (10, 20); comment_at "Line" " bar();" 2 (21, 30)].

Example block_comment_removed :
  map r_removed (Program_exit (fun _ => None) file_parser around_block) = [(0, 30)].
Proof. vm_compute. reflexivity. Qed.

End Example_file.
