(* ===== verification/Regexpp.v ===== *)
(** * Regexpp: trees of regular expressions, their traversal and what they match

    The nodes of the package regexpp as the rules read them, its visitor as an
    interface, the template of the rules on regular expressions
    ([rules/helpers/regex/rule-template.ts]), and the matching of JavaScript as an
    ordered list of results, against which the rules are specified. *)

From Stdlib Require Import ZArith Lia.
From stdpp Require Import base list sets strings.
From S2P Require Import Prelude Estree Ast RegexLocations.

Open Scope js_scope.

(** ** Trees *)

Inductive assertion_kind := lookahead | lookbehind | start_kind | end_kind | word_kind.
Inductive set_kind := any_set | digit_set | space_set | word_set | property_set.

Record Flags := mkFlags { ignoreCase : bool; multiline : bool; dotAll : bool; unicode : bool }.

Unset Elimination Schemes.

(** [regexpp.AST.Node]; the positions and the text of a node come first. The nodes
    that no rule reads (classes of the flag v) are [OtherNode]s. *)
Inductive rnode :=
| RegExpLiteral (i : RegexNode) (flags : Flags) (pattern : rnode)
| Pattern (i : RegexNode) (alternatives : list rnode)
| Group (i : RegexNode) (alternatives : list rnode)
| CapturingGroup (i : RegexNode) (name : option string) (alternatives : list rnode)
| Assertion (i : RegexNode) (kind : assertion_kind) (negate : bool) (alternatives : list rnode)
| Alternative (i : RegexNode) (elements : list rnode)
| Quantifier (i : RegexNode) (min : nat) (max : option nat) (greedy : bool) (element : rnode)
| CharacterClass (i : RegexNode) (negate : bool) (elements : list rnode)
| CharacterClassRange (i : RegexNode) (min max : rnode)
| CharacterSet (i : RegexNode) (kind : set_kind) (negate : bool)
| Character (i : RegexNode) (value : Z)
| Backreference (i : RegexNode)
| OtherNode (i : RegexNode) (type : string) (content : list rnode).

Set Elimination Schemes.

Definition info (n : rnode) : RegexNode :=
  match n with
  | RegExpLiteral i _ _ | Pattern i _ | Group i _ | CapturingGroup i _ _ | Assertion i _ _ _ | Alternative i _
  | Quantifier i _ _ _ _ | CharacterClass i _ _ | CharacterClassRange i _ _ | CharacterSet i _ _ | Character i _
  | Backreference i | OtherNode i _ _ => i
  end.

(** [node.raw] *)
Definition raw (n : rnode) : string := re_raw (info n).

Definition children (n : rnode) : list rnode :=
  match n with
  | RegExpLiteral _ _ pattern => [pattern]
  | Pattern _ l | Group _ l | CapturingGroup _ _ l | Assertion _ _ _ l | Alternative _ l
  | CharacterClass _ _ l | OtherNode _ _ l => l
  | Quantifier _ _ _ _ e => [e]
  | CharacterClassRange _ min max => [min; max]
  | CharacterSet _ _ _ | Character _ _ | Backreference _ => []
  end.

(** [node.alternatives] *)
Definition alternatives (n : rnode) : list rnode :=
  match n with
  | Pattern _ l | Group _ l | CapturingGroup _ _ l | Assertion _ _ _ l => l
  | _ => []
  end.

(** [node.elements] *)
Definition elements (n : rnode) : list rnode :=
  match n with Alternative _ l | CharacterClass _ _ l => l | _ => [] end.

Section Induction.

Variable P : rnode -> Prop.
Hypothesis by_children : forall n, Forall P (children n) -> P n.

Fixpoint rnode_ind (n : rnode) : P n :=
  let all := fix all (l : list rnode) : Forall P l :=
    match l with
    | [] => Forall_nil_2 P
    | x :: r => Forall_cons_2 P x r (rnode_ind x) (all r)
    end in
  by_children n
    match n return Forall P (children n) with
    | RegExpLiteral _ _ p => all [p]
    | Pattern _ l | Group _ l | CapturingGroup _ _ l | Assertion _ _ _ l | Alternative _ l
    | CharacterClass _ _ l | OtherNode _ _ l => all l
    | Quantifier _ _ _ _ e => all [e]
    | CharacterClassRange _ a b => all [a; b]
    | CharacterSet _ _ _ | Character _ _ | Backreference _ => all []
    end.

End Induction.

(** The nodes of a tree. *)
Inductive node_of (n : rnode) : rnode -> Prop :=
| node_self : node_of n n
| node_below c d : c ∈ children n -> node_of c d -> node_of n d.

(** ** Traversal *)

Inductive event := Enter (n : rnode) | Leave (n : rnode).

(** What regexpp promises of [visitRegExpAST]: the handlers are called in depth. *)
Class Visitor := {
  visitRegExpAST : rnode -> list event;
  visit_in_depth n : visitRegExpAST n = Enter n :: flat_map visitRegExpAST (children n) ++ [Leave n]
}.

Fixpoint depth_first (n : rnode) : list event :=
  let below :=
    match n with
    | RegExpLiteral _ _ p => depth_first p ++ []
    | Pattern _ l | Group _ l | CapturingGroup _ _ l | Assertion _ _ _ l | Alternative _ l
    | CharacterClass _ _ l | OtherNode _ _ l => flat_map depth_first l
    | Quantifier _ _ _ _ e => depth_first e ++ []
    | CharacterClassRange _ a b => depth_first a ++ depth_first b ++ []
    | CharacterSet _ _ _ | Character _ _ | Backreference _ => []
    end in
  Enter n :: below ++ [Leave n].

#[export] Instance depth_first_visitor : Visitor.
Proof. exists depth_first. by intros []. Defined.

Lemma entered `{Visitor} n d : Enter d ∈ visitRegExpAST n <-> node_of n d.
Proof.
  revert d. induction n as [n IH] using rnode_ind. intros d. rewrite visit_in_depth, Forall_forall in *.
  rewrite elem_of_cons, elem_of_app, list_elem_of_In, in_flat_map. split.
  - intros [[= ->]|[(c & Hc & Hd)|Hd]]; [constructor | |].
    + apply list_elem_of_In in Hc, Hd. by apply (node_below _ c), IH.
    + by apply list_elem_of_singleton in Hd.
  - intros Hd. destruct Hd as [|c d Hc Hd]; [by left |]. right. left. exists c.
    split; apply list_elem_of_In; [done | by apply IH].
Qed.

(** ** The template of rules *)

(** What a handler reports: a message, a node of the expression and an offset. *)
Record Descriptor := mkDescriptor { d_message : string; d_node : rnode; d_offset : Z * Z }.

Definition at_node (message : string) (n : rnode) : Descriptor := mkDescriptor message n (0, 0)%Z.

(** The handlers of a rule: a state, and what each event does to it. *)
Record Handlers := mkHandlers {
  h_state : Type;
  h_init : h_state;
  h_on : event -> h_state -> h_state * list Descriptor
}.

(** Handlers without state, for the nodes that are entered. *)
Definition on_enter (f : rnode -> list Descriptor) : Handlers :=
  mkHandlers unit tt (fun e st => (st, match e with Enter n => f n | Leave _ => [] end)).

Fixpoint run_events (h : Handlers) (events : list event) (st : h_state h) : list Descriptor :=
  match events with
  | [] => []
  | e :: rest => let '(st, reports) := h_on h e st in reports ++ run_events h rest st
  end.

Definition visit_with `{Visitor} (h : Handlers) (n : rnode) : list Descriptor :=
  run_events h (visitRegExpAST n) (h_init h).

Lemma run_on_enter f events : run_events (on_enter f) events tt =
  flat_map (fun e => match e with Enter n => f n | Leave _ => [] end) events.
Proof. induction events as [|e events IH]; cbn in *; [done | by rewrite IH]. Qed.

(** A rule without state reports what it says of each node of the expression. *)
Lemma visit_on_enter `{Visitor} f n r :
  r ∈ visit_with (on_enter f) n <-> exists d, node_of n d /\ r ∈ f d.
Proof.
  unfold visit_with. rewrite run_on_enter, list_elem_of_In, in_flat_map. split.
  - intros ([d|d] & He & Hr); [| done]. exists d. apply list_elem_of_In in He. rewrite entered in He.
    split; [done | by apply list_elem_of_In].
  - intros (d & Hd & Hr). exists (Enter d). split; apply list_elem_of_In; [by rewrite entered | done].
Qed.

Section Template.

Context `{Visitor}.
Context (sm : ScopeManager) (parent : node -> option node) (isString : node -> bool).
(** [regexpp.parseRegExpLiteral(new RegExp(pattern, flags))]; [None] is an exception. *)
Variable parseRegExp : string -> string -> option rnode.
Variable getLocFromIndex : Z -> Position.
(** [isRequiredParserServices(context.sourceCode.parserServices)] *)
Variable has_services : bool.

(** The outer [None] is running out of fuel, which the search of patterns may do. *)
Definition getParsedRegex (fuel : nat) (n : node) : option (option rnode) :=
  match getPatternFromNode sm parent fuel n with
  | None => None
  | Some None => Some None
  | Some (Some (pattern, flags)) => Some (parseRegExp pattern flags)
  end.

(** A report with its location. *)
Record Located := mkLocated { l_message : string; l_loc : SourceLocation }.

Definition reportRegExpNode (n : node) (descriptor : Descriptor) : result range_error (list Located) :=
  let! loc := getRegexpLocation getLocFromIndex n (info (d_node descriptor)) (d_offset descriptor) in
  Ok (match loc with Some loc => [mkLocated (d_message descriptor) loc] | None => [] end).

Definition checkRegex (h : Handlers) (n : node) (regExpAST : option rnode) : result range_error (list Located) :=
  match regExpAST with
  | None => Ok []
  | Some ast =>
      let! reports := rmap_list (reportRegExpNode n) (visit_with h ast) in
      Ok (concat reports)
  end.

Definition checkLiteral (fuel : nat) (h : Handlers) (literal : node) : option (result range_error (list Located)) :=
  match getParsedRegex fuel literal with
  | None => None
  | Some ast => Some (checkRegex h literal ast)
  end.

Definition checkCallExpression (fuel : nat) (h : Handlers) (callExpr : node)
  : option (result range_error (list Located)) :=
  match getParsedRegex fuel callExpr with
  | None => None
  | Some parsedRegex =>
      let parsedRegex' :=
        match parsedRegex, get_nodes callExpr "arguments" with
        | None, implicitRegex :: _ =>
            if has_services && isStringRegexMethodCall isString callExpr
            then getParsedRegex fuel implicitRegex else Some None
        | _, _ => Some parsedRegex
        end in
      match parsedRegex', get_nodes callExpr "arguments" with
      | None, _ => None
      | Some ast, argument :: _ => Some (checkRegex h argument ast)
      | Some _, [] => Some (Ok [])
      end
  end.

End Template.

(** ** What an expression matches *)

(** A place in a text: the characters before it, the last one first, and after it. *)
Definition Place := (list Z * list Z)%type.

Definition is_line_terminator (c : Z) : bool :=
  (c =? 10)%Z || (c =? 13)%Z || (c =? 0x2028)%Z || (c =? 0x2029)%Z.

Definition between (a b c : Z) : bool := (a <=? c)%Z && (c <=? b)%Z.

Definition is_digit_char (c : Z) : bool := between 48 57 c.

Definition is_word_char (c : Z) : bool :=
  between 97 122 c || between 65 90 c || between 48 57 c || (c =? 95)%Z.

Definition is_space_char (c : Z) : bool :=
  between 9 13 c || (c =? 32)%Z || (c =? 160)%Z || (c =? 0x1680)%Z || between 0x2000 0x200a c
  || is_line_terminator c || (c =? 0x202f)%Z || (c =? 0x205f)%Z || (c =? 0x3000)%Z || (c =? 0xfeff)%Z.

(** The iterations of a quantifier, for a body [f]: at least [min], at most [max], the
    longer ones first when it is greedy. An iteration that is not needed must not be
    empty. *)
Fixpoint iterate (fuel : nat) (min : nat) (max : option nat) (greedy : bool) (f : Place -> list Place) (p : Place)
  : list Place :=
  match fuel with
  | O => []
  | S fuel' =>
      match min, max with
      | _, Some O => [p]
      | S min', _ => flat_map (iterate fuel' min' (option_map Nat.pred max) greedy f) (f p)
      | O, _ =>
          let more := flat_map (iterate fuel' 0 (option_map Nat.pred max) greedy f)
            (List.filter (fun q => negb (Nat.eqb (length q.2) (length p.2))) (f p)) in
          if greedy then more ++ [p] else p :: more
      end
  end.

(** One turn for each iteration: the needed ones, then one per character at most. *)
Definition iterate_fuel (min : nat) (p : Place) : nat := S (min + length p.2).

Section Semantics.

Variable flags : Flags.
(** The nodes that are not modelled: backreferences, lookbehinds, Unicode properties
    and the classes of the flag v. The flag i is not either. *)
Variable other : rnode -> Place -> list Place.
Variable other_accepts : rnode -> Z -> bool.

Definition set_accepts (n : rnode) (kind : set_kind) (c : Z) : bool :=
  match kind with
  | any_set => dotAll flags || negb (is_line_terminator c)
  | digit_set => is_digit_char c
  | space_set => is_space_char c
  | word_set => is_word_char c
  | property_set => other_accepts n c
  end.

(** The characters that an element of a class, or a class, accepts. *)
Fixpoint accepts (n : rnode) (c : Z) : bool :=
  match n with
  | Character _ v => (v =? c)%Z
  | CharacterClassRange _ (Character _ a) (Character _ b) => between a b c
  | CharacterSet _ kind negate => xorb negate (set_accepts n kind c)
  | CharacterClass _ negate l => xorb negate (existsb (fun e => accepts e c) l)
  | _ => other_accepts n c
  end.

Definition one_char (accepted : Z -> bool) (p : Place) : list Place :=
  match p.2 with
  | c :: rest => if accepted c then [(c :: p.1, rest)] else []
  | [] => []
  end.

Definition is_word_at (l : list Z) : bool :=
  match l with c :: _ => is_word_char c | [] => false end.

Definition line_edge (l : list Z) : bool :=
  match l with [] => true | c :: _ => multiline flags && is_line_terminator c end.

Definition holds_if (b : bool) (p : Place) : list Place := if b then [p] else [].

(** The places after a match that starts at a place, the preferred one first. *)
Fixpoint matches (n : rnode) (p : Place) : list Place :=
  match n with
  | RegExpLiteral _ _ pattern => matches pattern p
  | Pattern _ l | Group _ l | CapturingGroup _ _ l => flat_map (fun a => matches a p) l
  | Alternative _ l => foldr (fun e k p => flat_map k (matches e p)) (fun p => [p]) l p
  | Quantifier _ min max greedy e => iterate (iterate_fuel min p) min max greedy (matches e) p
  | Assertion _ start_kind _ _ => holds_if (line_edge p.1) p
  | Assertion _ end_kind _ _ => holds_if (line_edge p.2) p
  | Assertion _ word_kind negate _ => holds_if (xorb negate (xorb (is_word_at p.1) (is_word_at p.2))) p
  | Assertion _ lookahead negate l =>
      holds_if (xorb negate match flat_map (fun a => matches a p) l with [] => false | _ => true end) p
  | Assertion _ lookbehind _ _ => match other n p with [] => [] | _ => [p] end
  | Character _ _ | CharacterSet _ _ _ | CharacterClass _ _ _ => one_char (accepts n) p
  | Backreference _ | OtherNode _ _ _ => other n p
  (* only in classes *)
  | CharacterClassRange _ _ _ => []
  end.

Definition match_seq (l : list rnode) (p : Place) : list Place :=
  foldr (fun e k p => flat_map k (matches e p)) (fun p => [p]) l p.

End Semantics.
