(* ===== verification/RegexRules.v ===== *)
(** * RegexRules: rules on regular expressions

    The rules S2639, S5842, S5850, S6019, S6035, S6323, S6324, S6331, S6353, S6397,
    S5868 and S5867, as handlers of the visitor of regexpp, and what their reports
    mean for the texts that an expression matches. *)

From Stdlib Require Import ZArith Lia Ascii String.
From stdpp Require Import base list sets strings.
From S2P Require Import Prelude JsString Json Estree Ast RegexLocations Regexpp.

Open Scope js_scope.
Open Scope nat_scope.

(** ** S2639: empty character classes *)

Definition S2639_onCharacterClassEnter (n : rnode) : list Descriptor :=
  match n with
  | CharacterClass _ negate [] =>
      if negate then [] else [at_node "Rework this empty character class that doesn't match anything." n]
  | _ => []
  end.

(** ** S5842: repetitions of the empty string *)

Fixpoint matchEmptyString (n : rnode) : bool :=
  match n with
  | Alternative _ l => forallb matchEmptyString l
  | Assertion _ _ _ _ => true
  | CapturingGroup _ _ l | Group _ l | Pattern _ l => existsb matchEmptyString l
  | Quantifier _ min _ _ _ => Nat.eqb min 0
  | _ => false
  end.

Definition S5842_onQuantifierEnter (n : rnode) : list Descriptor :=
  match n with
  | Quantifier _ _ _ _ element =>
      if matchEmptyString element
      then [at_node "Rework this part of the regex to not match the empty string." element] else []
  | _ => []
  end.

(** ** S5850: precedence of anchors *)

Inductive Position := BEGINNING | END.

Definition isAnchor (element : rnode) : bool :=
  match element with
  | Assertion _ start_kind _ _ | Assertion _ end_kind _ _ => true
  | _ => false
  end.

Definition isAnchored (alternative : rnode) (position : Position) : bool :=
  let l := elements alternative in
  match (match position with BEGINNING => head l | END => last l end) with
  | Some firstOrLast => isAnchor firstOrLast
  | None => false
  end.

Definition anchoredAt (alternatives : list rnode) (position : Position) : bool :=
  match (match position with BEGINNING => head alternatives | END => last alternatives end) with
  | Some firstOrLast => isAnchored firstOrLast position
  | None => false
  end.

(** [alternatives.slice(1, alternatives.length - 1)] *)
Definition inner {A} (l : list A) : list A := removelast (tail l).

Definition notAnchoredElseWhere (alternatives : list rnode) : bool :=
  match head alternatives, last alternatives with
  | Some first, Some last =>
      negb (isAnchored first END || isAnchored last BEGINNING)
      && forallb (fun a => negb (isAnchored a BEGINNING || isAnchored a END)) (inner alternatives)
  | _, _ => true
  end.

Definition S5850_onPatternEnter (n : rnode) : list Descriptor :=
  match n with
  | Pattern _ alternatives =>
      if Nat.ltb 1 (length alternatives)
         && (anchoredAt alternatives BEGINNING || anchoredAt alternatives END)
         && notAnchoredElseWhere alternatives
      then [at_node "Group parts of the regex together to make the intended operator precedence explicit." n]
      else []
  | _ => []
  end.

(** ** S6019: reluctant quantifiers *)

Definition report_reluctant (quantifier : rnode) (min : nat) : list Descriptor :=
  let ending := if Nat.eqb min 1 then "" else "s" in
  [at_node ("Fix this reluctant quantifier that will only ever match " +:+ print_int (Z.of_nat min)
            +:+ " repetition" +:+ ending +:+ ".")%string quantifier].

(** The elements from the last one on. *)
Definition checkElements (elements : list rnode) : list Descriptor :=
  match rev elements with
  | [] => []
  | lastElement :: before =>
      match lastElement with
      | Quantifier _ min _ false _ => report_reluctant lastElement min
      | _ =>
          match before with
          | (Quantifier _ min _ false _ as lastButOneElement) :: _ =>
              match lastElement with
              | Assertion _ end_kind _ _ =>
                  [at_node "Remove the '?' from this unnecessarily reluctant quantifier." lastButOneElement]
              | Quantifier _ O _ _ _ => report_reluctant lastButOneElement min
              | _ => []
              end
          | _ => []
          end
      end
  end.

Definition S6019_onRegExpLiteralEnter (n : rnode) : list Descriptor :=
  match n with
  | RegExpLiteral _ _ pattern => flat_map (fun a => checkElements (elements a)) (alternatives pattern)
  | _ => []
  end.

(** ** S6035: alternations of characters *)

Definition is_character (n : rnode) : bool := match n with Character _ _ => true | _ => false end.

Definition single_character (alternative : rnode) : bool :=
  match elements alternative with [e] => is_character e | _ => false end.

Definition S6035_checkAlternation (alternation : rnode) : list Descriptor :=
  let alternatives := alternatives alternation in
  if Nat.leb (length alternatives) 1 then []
  else if forallb single_character alternatives
       then [at_node "Replace this alternation with a character class." alternation] else [].

Definition S6035_enter (n : rnode) : list Descriptor :=
  match n with
  | Pattern _ _ | Group _ _ | CapturingGroup _ _ _
  | Assertion _ lookahead _ _ | Assertion _ lookbehind _ _ => S6035_checkAlternation n
  | _ => []
  end.

(** ** S6323: empty alternatives *)

Section S6323.

(** [node.parent] *)
Variable rparent : rnode -> option rnode.

(** For the alternative [i] of an alternation. *)
Definition isLastEmptyInGroup (alternation : rnode) (i : nat) : bool :=
  match alternation with
  | Group _ _ | CapturingGroup _ _ _ =>
      Nat.eqb (S i) (length (alternatives alternation))
      && match rparent alternation with Some (Quantifier _ _ _ _ _) => false | _ => true end
  | _ => false
  end.

Definition S6323_checkAlternation (alternation : rnode) : list Descriptor :=
  let alts := alternatives alternation in
  if Nat.leb (length alts) 1 then []
  else
    concat (imap (fun i alt =>
      match elements alt with
      | [] =>
          if isLastEmptyInGroup alternation i then []
          else [mkDescriptor "Remove this empty alternative." alt
                  (if Nat.eqb i (length alts - 1) then (-1, 0)%Z else (0, 1)%Z)]
      | _ => []
      end) alts).

Definition S6323_enter (n : rnode) : list Descriptor :=
  match n with
  | Pattern _ _ | Group _ _ | CapturingGroup _ _ _ => S6323_checkAlternation n
  | _ => []
  end.

End S6323.

(** ** S6324: control characters *)

(** A tabulation and a line feed. *)
Definition CONTROL_EXCEPTIONS : list string := [bytes [9]; bytes [10]]%nat.

(** [raw.codePointAt(0) === value], for values below 32. *)
Definition isSameInterpreted (raw : string) (value : Z) : bool :=
  match code_units raw with c :: _ => (c =? value)%Z | [] => false end.

Definition S6324_onCharacterEnter (n : rnode) : list Descriptor :=
  match n with
  | Character i value =>
      let raw := re_raw i in
      if (0 <=? value)%Z && (value <=? 0x1f)%Z
         && (isSameInterpreted raw value || startsWith "\x" raw || startsWith "\u" raw)
         && negb (includes raw CONTROL_EXCEPTIONS)
      then [at_node "Remove this control character." n] else []
  | _ => []
  end.

(** ** S6331: empty groups *)

Definition no_elements (alternative : rnode) : bool :=
  match elements alternative with [] => true | _ => false end.

Definition S6331_checkEmptyGroup (n : rnode) : list Descriptor :=
  match n with
  | Group _ alternatives | CapturingGroup _ _ alternatives =>
      if forallb no_elements alternatives then [at_node "Remove this empty group." n] else []
  | _ => []
  end.

(** ** S6353: concise classes and quantifiers *)

Definition is_set (kind : set_kind) (negated : bool) (element : rnode) : bool :=
  match element, kind with
  | CharacterSet _ word_set negate, word_set
  | CharacterSet _ digit_set negate, digit_set
  | CharacterSet _ space_set negate, space_set => Bool.eqb negate negated
  | _, _ => false
  end.

Definition concise_class (expected actual : string) : string :=
  ("Use concise character class syntax '" +:+ expected +:+ "' instead of '" +:+ actual +:+ "'.")%string.

Definition checkBulkyAnyCharacterClass (flags : Flags) (n : rnode) : list Descriptor :=
  match n with
  | CharacterClass i negate els =>
      if negate || negb (Nat.eqb (length els) 2) then []
      else
        let has kind negated := existsb (is_set kind negated) els in
        if has word_set false && has word_set true
           || has digit_set false && has digit_set true
           || has space_set false && has space_set true && dotAll flags
        then [at_node (concise_class "." (re_raw i)) n] else []
  | _ => []
  end.

Definition is_range (text : string) (element : rnode) : bool :=
  match element with CharacterClassRange i _ _ => re_raw i =s text | _ => false end.

Definition checkBulkyNumericCharacterClass (n : rnode) : list Descriptor :=
  match n with
  | CharacterClass i negate [element] =>
      if is_range "0-9" element
      then [at_node (concise_class (if negate then "\D" else "\d") (re_raw i)) n] else []
  | _ => []
  end.

Definition is_underscore (element : rnode) : bool :=
  match element with Character i _ => re_raw i =s "_" | _ => false end.

Definition checkBulkyAlphaNumericCharacterClass (n : rnode) : list Descriptor :=
  match n with
  | CharacterClass i negate els =>
      if Nat.eqb (length els) 4
         && existsb (is_range "0-9") els && existsb (is_range "a-z") els && existsb (is_range "A-Z") els
         && existsb is_underscore els
      then [at_node (concise_class (if negate then "\W" else "\w") (re_raw i)) n] else []
  | _ => []
  end.

(** [/...\??$/] for a text *)
Definition quantified_by (text raw : string) : bool :=
  endsWith text raw || endsWith (text +:+ "?")%string raw.

(** The digits at the end of a text read backwards, and what is before them. *)
Definition take_digits (s : string) : string * string := span_chars is_digit s.

(** [/\{(\d+),\1\}\??$/], on the text read backwards. *)
Definition same_bounds (raw : string) : bool :=
  let s := rev_string raw in
  let s := default s (strip_prefix "?" s) in
  match strip_prefix "}" s with
  | None => false
  | Some s =>
      let '(max, s) := take_digits s in
      match strip_prefix "," s with
      | None => false
      | Some s =>
          let '(min, s) := take_digits s in
          negb (min =s "") && (min =s max) && startsWith "{" s
      end
  end.

Definition concise_quantifier (concise verbose : string) : string :=
  ("Use concise quantifier syntax '" +:+ concise +:+ "' instead of '" +:+ verbose +:+ "'.")%string.

Definition bulky_message (raw element_raw : string) (min : nat) : option string :=
  let n := print_int (Z.of_nat min) in
  if quantified_by "{0,1}" raw then Some (concise_quantifier "?" "{0,1}")
  else if quantified_by "{0,0}" raw then Some ("Remove redundant " +:+ element_raw +:+ "{0,0}.")%string
  else if quantified_by "{0}" raw then Some ("Remove redundant " +:+ element_raw +:+ "{0}.")%string
  else if quantified_by "{1,1}" raw then Some "Remove redundant quantifier {1,1}."
  else if quantified_by "{1}" raw then Some "Remove redundant quantifier {1}."
  else if quantified_by "{0,}" raw then Some (concise_quantifier "*" "{0,}")
  else if quantified_by "{1,}" raw then Some (concise_quantifier "+" "{1,}")
  else if same_bounds raw
       then Some (concise_quantifier ("{" +:+ n +:+ "}")%string ("{" +:+ n +:+ "," +:+ n +:+ "}")%string)
  else None.

Definition checkBulkyQuantifier (n : rnode) : list Descriptor :=
  match n with
  | Quantifier i min _ _ element =>
      match bulky_message (re_raw i) (raw element) min with
      | Some message => [at_node message n]
      | None => []
      end
  | _ => []
  end.

(** The flags are kept when the expression is entered. *)
Definition S6353 : Handlers :=
  mkHandlers (option Flags) None (fun e flags =>
    match e with
    | Enter (RegExpLiteral _ fl _) => (Some fl, [])
    | Enter (CharacterClass _ _ _ as n) =>
        (flags,
         match flags with Some fl => checkBulkyAnyCharacterClass fl n | None => [] end
         ++ checkBulkyNumericCharacterClass n ++ checkBulkyAlphaNumericCharacterClass n)
    | Enter (Quantifier _ _ _ _ _ as n) => (flags, checkBulkyQuantifier n)
    | _ => (flags, [])
    end).

(** ** S6397: classes of one character *)

Definition EXCEPTION_META_CHARACTERS : string := "[{(.?+*$^\\".

(** [FORBIDDEN_TYPES]: regexpp has no other kind of node for the other two types. *)
Definition is_forbidden_type (n : rnode) : bool :=
  match n with Character _ _ | CharacterSet _ _ _ => true | _ => false end.

Definition hasSingleForbiddenCharacter (elems : list rnode) : bool :=
  match elems with
  | [e] => is_forbidden_type e && negb (string_includes (raw e) EXCEPTION_META_CHARACTERS)
  | _ => false
  end.

Definition S6397_onCharacterClassEnter (n : rnode) : list Descriptor :=
  match n with
  | CharacterClass _ negate els =>
      if hasSingleForbiddenCharacter els && negb negate
      then [at_node "Replace this character class by the character itself." n] else []
  | _ => []
  end.

(** ** S5868: characters of several code points in classes *)

Section S5868.

(** [/^\[\p\{Mc\}\p\{Me\}\p\{Mn\}\]$/u] *)
Variable isCombiningCharacter : Z -> bool.
(** [validator.validatePattern(pattern, undefined, undefined, true)] without exception. *)
Variable isValidWithUnicodeFlag : string -> bool.
(** [getPatternFromNode(context.node, context)?.pattern] *)
Variable pattern_of_node : option string.
(** [sourceCode.getLastToken(node, \{ skip: 1 \})] *)
Variable lastTokenButOne : node -> option Token.
Variable sm : ScopeManager.

(** A turn of the loop of [characters]: the sequences that are complete, and the
    current one, which is the last of the array. *)
Definition characters_step (st : list (list rnode) * list rnode) (n : rnode) : list (list rnode) * list rnode :=
  let '(sequences, current) := st in
  match n with
  | Character _ _ => (sequences, current ++ [n])
  | CharacterClassRange _ min max => (sequences ++ [current ++ [min]], [max])
  | CharacterSet _ _ _ =>
      match current with [] => (sequences, current) | _ => (sequences ++ [current], []) end
  | _ => (sequences, current)
  end.

Definition characters (nodes : list rnode) : list (list rnode) :=
  let '(sequences, current) := fold_left characters_step nodes ([], []) in sequences ++ [current].

Definition value_of (n : rnode) : Z := match n with Character _ v => v | _ => 0 end.

Definition isSurrogatePair (lead tail : Z) : bool :=
  (0xd800 <=? lead)%Z && (lead <? 0xdc00)%Z && (0xdc00 <=? tail)%Z && (tail <? 0xe000)%Z.
Definition isEmojiModifier (code : Z) : bool := (0x1f3fb <=? code)%Z && (code <=? 0x1f3ff)%Z.
Definition isRegionalIndicator (code : Z) : bool := (0x1f1e6 <=? code)%Z && (code <=? 0x1f1ff)%Z.
Definition isZeroWidthJoiner (code : Z) : bool := (code =? 0x200d)%Z.

(** What a suggestion inserts. *)
Inductive Fix :=
| InsertAfterNode (n : node) (text : string)
| InsertAfterToken (t : Token) (text : string)
| InsertAfterRange (r : Z * Z) (text : string).

Definition getRegExpConstructor (parents : list node) : option node :=
  List.find isRegExpConstructor (ancestorsChain parents ["CallExpression"; "NewExpression"]).

Definition MODIFIABLE_REGEXP_FLAGS_TYPES : list string := ["Literal"; "TemplateLiteral"; "TaggedTemplateExpression"].

Definition hasModifiableFlags (regExpConstructor : node) : bool :=
  match get_array regExpConstructor "arguments" with
  | _ :: VNode flags :: _ =>
      bool_decide (is_Some (h_range (hdr flags))) && bool_decide (is_Some (getFlags sm regExpConstructor))
      && includes (type_of flags) MODIFIABLE_REGEXP_FLAGS_TYPES
  | _ => false
  end.

Definition u_argument : string := (", " +:+ bytes [34] +:+ "u" +:+ bytes [34])%string.

Definition addUnicodeFlag (n : node) (parents : list node) : option Fix :=
  if isRegexLiteral n then Some (InsertAfterNode n "u")
  else
    match getRegExpConstructor parents with
    | None => None
    | Some regExpConstructor =>
        match get_array regExpConstructor "arguments" with
        | [_] =>
            match lastTokenButOne regExpConstructor with
            | Some token => Some (InsertAfterToken token u_argument)
            | None => None
            end
        | _ :: VNode flags :: _ =>
            match h_range (hdr flags) with
            | Some (start, end_) =>
                if hasModifiableFlags regExpConstructor then Some (InsertAfterRange (start, end_ - 1)%Z "u") else None
            | None => None
            end
        | _ => None
        end
    end.

Record ClassReport := mkClassReport { cr_message : string; cr_node : rnode; cr_suggestion : option (option Fix) }.

Section Checks.

(** [context.node], with its ancestors. *)
Variable n : node.
Variable parents : list node.

(** The checks of the character [c] after [before] in a sequence, and before [after]. *)
Definition checkCombinedCharacter (before : option rnode) (c : rnode) (after : option rnode) : option ClassReport :=
  match before with
  | Some b =>
      if isCombiningCharacter (value_of c) && negb (isCombiningCharacter (value_of b))
      then Some (mkClassReport ("Move this Unicode combined character '" +:+ raw b +:+ raw c
                                 +:+ "' outside of the character class")%string c None)
      else None
  | None => None
  end.

Definition checkZeroWidthJoinerCharacter (before : option rnode) (c : rnode) (after : option rnode) : option ClassReport :=
  match before, after with
  | Some b, Some a =>
      if isZeroWidthJoiner (value_of c) && negb (isZeroWidthJoiner (value_of b)) && negb (isZeroWidthJoiner (value_of a))
      then Some (mkClassReport "Move this Unicode joined character sequence outside of the character class" b None)
      else None
  | _, _ => None
  end.

Definition checkModifiedEmojiCharacter (before : option rnode) (c : rnode) (after : option rnode) : option ClassReport :=
  match before with
  | Some b =>
      if isEmojiModifier (value_of c) && negb (isEmojiModifier (value_of b))
      then Some (mkClassReport ("Move this Unicode modified Emoji '" +:+ raw b +:+ raw c
                                 +:+ "' outside of the character class")%string c None)
      else None
  | None => None
  end.

Definition checkRegionalIndicatorCharacter (before : option rnode) (c : rnode) (after : option rnode)
  : option ClassReport :=
  match before with
  | Some b =>
      if isRegionalIndicator (value_of c) && isRegionalIndicator (value_of b)
      then Some (mkClassReport ("Move this Unicode regional indicator '" +:+ raw b +:+ raw c
                                 +:+ "' outside of the character class")%string c None)
      else None
  | None => None
  end.

Definition checkSurrogatePairTailCharacter (before : option rnode) (c : rnode) (after : option rnode)
  : option ClassReport :=
  match before with
  | Some b =>
      if isSurrogatePair (value_of b) (value_of c)
      then Some (mkClassReport ("Move this Unicode surrogate pair '" +:+ raw b +:+ raw c
                                 +:+ "' outside of the character class or use 'u' flag")%string c
                   match pattern_of_node with
                   | Some pattern =>
                       if negb (pattern =s "") && isValidWithUnicodeFlag pattern
                       then Some (addUnicodeFlag n parents) else None
                   | None => None
                   end)
      else None
  | None => None
  end.

(** The first check that fails. *)
Definition checkCharacter (before : option rnode) (c : rnode) (after : option rnode) : option ClassReport :=
  foldr (fun check r => match check before c after with Some report => Some report | None => r end) None
    [checkCombinedCharacter; checkZeroWidthJoinerCharacter; checkModifiedEmojiCharacter;
     checkRegionalIndicatorCharacter; checkSurrogatePairTailCharacter].

(** The first character of a sequence, after [before], that has a failed check. *)
Fixpoint checkSequence_from (before : option rnode) (sequence : list rnode) : option ClassReport :=
  match sequence with
  | [] => None
  | c :: rest =>
      match checkCharacter before c (head rest) with
      | Some report => Some report
      | None => checkSequence_from (Some c) rest
      end
  end.

Definition checkSequence (sequence : list rnode) : option ClassReport := checkSequence_from None sequence.

Definition S5868_onCharacterClassEnter (ccNode : rnode) : list ClassReport :=
  match ccNode with
  | CharacterClass _ _ elements => omap checkSequence (characters elements)
  | _ => []
  end.

End Checks.

End S5868.

(** ** Results in order *)

Lemma head_app {A} (l k : list A) : head (l ++ k) = match head l with Some x => Some x | None => head k end.
Proof. by destruct l. Qed.

Lemma head_flat_map_ext {A B} (f g : A -> list B) l :
  (forall x, head (f x) = head (g x)) -> head (flat_map f l) = head (flat_map g l).
Proof. intros H. induction l as [|x l IH]; [done |]. cbn [flat_map]. by rewrite !head_app, H, IH. Qed.

Lemma head_flat_map_total {A B} (f : A -> list B) l k :
  head l = head k -> (forall x, f x <> []) -> head (flat_map f l) = head (flat_map f k).
Proof.
  intros H N. destruct l as [|x l], k as [|y k]; try done. injection H as <-. cbn [flat_map]. rewrite !head_app.
  specialize (N x). by destruct (f x).
Qed.

(** Two lists with the same elements, which are all equal, have the same head. *)
Lemma head_all_equal {A} (l k : list A) :
  (forall x, x ∈ l <-> x ∈ k) -> (forall x y, x ∈ l -> y ∈ l -> x = y) -> head l = head k.
Proof.
  intros E U. destruct l as [|x l], k as [|y k]; [done | | |].
  - exfalso. eapply not_elem_of_nil, E. by left.
  - exfalso. eapply not_elem_of_nil, E. by left.
  - cbn. f_equal. apply U; [by left | apply E; by left].
Qed.

(** ** Places *)

(** [q] is further than [p] in the same text. *)
Definition forward (p q : Place) : Prop := exists w, p.2 = w ++ q.2 /\ q.1 = rev w ++ p.1.

#[export] Instance forward_preorder : PreOrder forward.
Proof.
  split; [intros p; by exists [] |].
  intros p q r [w [H1 H2]] [v [H3 H4]]. exists (w ++ v). rewrite H1, H3, H4, H2, rev_app_distr, !app_assoc. done.
Qed.

Lemma forward_length p q : forward p q -> length q.2 <= length p.2.
Proof. intros [w [-> _]]. rewrite length_app. lia. Qed.

(** A place is what it has before it and after it, and the rest is the text. *)
Lemma forward_end p q r : forward p q -> forward p r -> q.2 = [] -> r.2 = [] -> q = r.
Proof.
  destruct q as [q1 q2], r as [r1 r2]. intros [w [H1 H2]] [v [H3 H4]]. cbn in *. intros -> ->.
  rewrite app_nil_r in *. congruence.
Qed.

Section Matching.

Variable flags : Flags.
Variable other : rnode -> Place -> list Place.
Variable other_accepts : rnode -> Z -> bool.

(** The nodes that are not modelled do not go back in the text. *)
Hypothesis other_forward : forall n p q, q ∈ other n p -> forward p q.

Local Notation m := (matches flags other other_accepts).
Local Notation ms := (match_seq flags other other_accepts).

Lemma match_seq_app l k p : ms (l ++ k) p = flat_map (ms k) (ms l p).
Proof.
  revert p. induction l as [|e l IH]; intros p; cbn [app match_seq foldr flat_map]; [by rewrite app_nil_r |].
  fold (ms (l ++ k)). rewrite <- (flat_map_ext _ _ (fun q => eq_sym (IH q))).
  induction (m e p) as [|q qs IHq]; [done |]. cbn [flat_map]. by rewrite flat_map_app, IHq.
Qed.

Lemma match_seq_one e p : ms [e] p = m e p.
Proof. cbn. induction (m e p) as [|q qs IH]; [done |]. cbn. by rewrite IH. Qed.

Lemma iterate_forward fuel : forall min max greedy f p q,
  (forall p q, q ∈ f p -> forward p q) -> q ∈ iterate fuel min max greedy f p -> forward p q.
Proof.
  induction fuel as [|fuel IH]; intros min max greedy f p q Hf; cbn [iterate]; [by intros ?%not_elem_of_nil |].
  assert (forall l max' min', q ∈ flat_map (iterate fuel min' max' greedy f) l ->
    (forall x, x ∈ l -> x ∈ f p) -> forward p q) as Hl.
  { intros l max' min' (x & Hx & Hq)%elem_of_flat_map Hin. etransitivity; [apply Hf, Hin, Hx |]. by eapply IH. }
  destruct min as [|min], max as [[|max]|]; try (intros ->%list_elem_of_singleton; reflexivity);
    try (intros H; apply (Hl _ _ _ H); done).
  all: destruct greedy; rewrite ?elem_of_app, ?elem_of_cons, ?list_elem_of_singleton.
  all: intros H; decompose [or] H; subst; try reflexivity; try (exfalso; by eapply not_elem_of_nil).
  all: eapply Hl; [eassumption |].
  all: by intros x [Hx _]%elem_of_filter_In.
Qed.

Lemma matches_forward n : forall p q, q ∈ m n p -> forward p q.
Proof.
  induction n as [n IH] using rnode_ind. intros p q. rewrite Forall_forall in IH.
  assert (forall l, (forall c, c ∈ l -> c ∈ children n) -> q ∈ flat_map (fun a => m a p) l -> forward p q) as Halts.
  { intros l Hl (a & Ha & Hq)%elem_of_flat_map. by apply (IH a (Hl a Ha)). }
  assert (forall b, q ∈ holds_if b p -> forward p q) as Hif.
  { intros []; [intros ->%list_elem_of_singleton; reflexivity | by intros ?%not_elem_of_nil]. }
  assert (forall ok, q ∈ one_char ok p -> forward p q) as Hone.
  { intros ok. unfold one_char. destruct p as [b [|c a]]; [by intros ?%not_elem_of_nil |]. cbn.
    destruct (ok c); [| by intros ?%not_elem_of_nil]. intros ->%list_elem_of_singleton. by exists [c]. }
  destruct n as [? ? pat|? l|? l|? ? l|? [] ? l|? l|? min max g e|? ? l| | | | |]; cbn [matches children] in *;
    try (apply Hif); try (apply Hone); try (apply other_forward); try (by apply Halts); try (by intros ?%not_elem_of_nil).
  - apply (IH pat). by left.
  - destruct (other _ p); [by intros ?%not_elem_of_nil | intros ->%list_elem_of_singleton; reflexivity].
  - clear Halts Hif Hone. revert p q. induction l as [|e l IHl]; intros p q; cbn [foldr].
    { intros ->%list_elem_of_singleton. reflexivity. }
    intros (x & Hx & Hq)%elem_of_flat_map. transitivity x; [apply (IH e); [by left | done] |].
    apply IHl; [| done]. intros c Hc. apply IH. by right.
  - apply iterate_forward. intros p' q'. apply IH. by left.
Qed.

(** *** Greedy and reluctant quantifiers *)

Definition max_ok (min : nat) (max : option nat) : Prop := match max with Some k => min <= k | None => True end.

(** A reluctant quantifier that nothing follows takes the iterations it needs. *)
Lemma reluctant_head fuel f : forall min max greedy p, max_ok min max ->
  head (iterate fuel min max false f p) = head (iterate fuel min (Some min) greedy f p).
Proof.
  induction fuel as [|fuel IH]; intros min max greedy p H; [done |].
  destruct min as [|min]; cbn [iterate]; [by destruct max as [[|]|] |].
  destruct max as [[|k]|]; cbn in H; [lia | |]; apply head_flat_map_ext; intros x; apply IH; cbn; [lia | done].
Qed.

(** The same places, in another order. *)
Lemma greedy_same_places fuel f : forall min max p q,
  q ∈ iterate fuel min max true f p <-> q ∈ iterate fuel min max false f p.
Proof.
  induction fuel as [|fuel IH]; intros min max p q; [done |]. cbn [iterate].
  assert (forall l min' max', q ∈ flat_map (iterate fuel min' max' true f) l <->
    q ∈ flat_map (iterate fuel min' max' false f) l) as Hl.
  { intros l min' max'. rewrite !elem_of_flat_map. by setoid_rewrite IH. }
  destruct min as [|min], max as [[|max]|]; try done; try apply Hl.
  all: rewrite elem_of_app, list_elem_of_singleton, elem_of_cons, Hl; tauto.
Qed.

Lemma optional_matches fuel min max greedy f p : 0 < fuel -> min = 0 -> p ∈ iterate fuel min max greedy f p.
Proof.
  intros H ->. destruct fuel as [|fuel]; [lia |]. cbn [iterate].
  destruct max as [[|k]|]; [by left | |]; (destruct greedy; [apply elem_of_app; right; by left | by left]).
Qed.


(** ** S6019: what the messages say *)

(** Bounds of quantifiers are in order, as in every expression that is parsed. *)
Definition ordered (n : rnode) : Prop :=
  match n with Quantifier _ min max _ _ => max_ok min max | _ => True end.

(** A quantifier that matches its minimum only, and one that is greedy. *)
Definition exact (n : rnode) : rnode :=
  match n with Quantifier i min _ _ e => Quantifier i min (Some min) true e | _ => n end.

Definition greedily (n : rnode) : rnode :=
  match n with Quantifier i min max _ e => Quantifier i min max true e | _ => n end.

(** The elements of an alternative, after the advice of the rule. *)
Definition advised (elements : list rnode) : list rnode :=
  match rev elements with
  | [] => []
  | lastElement :: before =>
      match lastElement with
      | Quantifier _ _ _ false _ => rev before ++ [exact lastElement]
      | _ =>
          match before with
          | (Quantifier _ _ _ false _ as q) :: rest =>
              match lastElement with
              | Assertion _ end_kind _ _ => rev rest ++ [greedily q; lastElement]
              | Quantifier _ O _ _ _ => rev rest ++ [exact q; lastElement]
              | _ => elements
              end
          | _ => elements
          end
      end
  end.

(** What a message says of a quantifier, and the quantifier as it should be. *)
Inductive advises : string -> rnode -> rnode -> Prop :=
| advises_minimum i min max e :
    advises ("Fix this reluctant quantifier that will only ever match " +:+ print_int (Z.of_nat min)
             +:+ (if decide (min = 1) then " repetition." else " repetitions."))
      (Quantifier i min max false e) (Quantifier i min (Some min) true e)
| advises_greedy i min max e :
    advises "Remove the '?' from this unnecessarily reluctant quantifier."
      (Quantifier i min max false e) (Quantifier i min max true e).

(** Nothing, an end or an optional quantifier that is not reluctant. *)
Definition ends_with (after : list rnode) : Prop :=
  match after with
  | [] => True
  | [Assertion _ end_kind _ _] | [Quantifier _ O _ true _] => True
  | _ => False
  end.

Lemma report_reluctant_advises i min max e :
  exists r, report_reluctant (Quantifier i min max false e) min = [r]
    /\ d_node r = Quantifier i min max false e
    /\ advises (d_message r) (Quantifier i min max false e) (exact (Quantifier i min max false e)).
Proof.
  eexists. split; [reflexivity |]. split; [reflexivity |]. cbn [d_message at_node exact].
  pose proof (advises_minimum i min max e) as A.
  replace ("Fix this reluctant quantifier that will only ever match " +:+ print_int (Z.of_nat min) +:+ " repetition"
    +:+ (if Nat.eqb min 1 then "" else "s") +:+ ".")%string
    with ("Fix this reluctant quantifier that will only ever match " +:+ print_int (Z.of_nat min)
             +:+ (if decide (min = 1) then " repetition." else " repetitions.")); [done |].
  destruct (decide (min = 1)) as [->|N]; [done |].
  by rewrite (proj2 (Nat.eqb_neq min 1) N).
Qed.

(** A report is on the last element or on the last but one, and the advice is to
    replace it. *)
Lemma report_advised l r : r ∈ checkElements l ->
  exists before q after q', l = before ++ q :: after /\ d_node r = q /\ advises (d_message r) q q'
    /\ advised l = before ++ q' :: after.
Proof.
  unfold checkElements, advised. destruct (rev l) as [|last before] eqn:E; [by intros ?%not_elem_of_nil |].
  apply (f_equal (@rev _)) in E. rewrite rev_involutive in E. cbn in E. subst l.
  assert (forall i min max e, last = Quantifier i min max false e -> r ∈ report_reluctant last min ->
    exists before' q after q', rev before ++ [last] = before' ++ q :: after /\ d_node r = q
      /\ advises (d_message r) q q' /\ rev before ++ [exact last] = before' ++ q' :: after) as Last.
  { intros i min max e -> H. destruct (report_reluctant_advises i min max e) as (r' & Er & Dr & Ar).
    rewrite Er in H. apply list_elem_of_singleton in H as ->. exists (rev before). by do 3 eexists. }
  assert (forall q rest q', before = q :: rest -> d_node r = q -> advises (d_message r) q q' ->
    exists before' p after p', rev before ++ [last] = before' ++ p :: after /\ d_node r = p
      /\ advises (d_message r) p p' /\ rev rest ++ [q'; last] = before' ++ p' :: after) as But_one.
  { intros q rest q' -> D A. exists (rev rest), q, [last], q'. cbn [rev]. by rewrite <- app_assoc. }
  destruct last as [| | | |? []| |? [|] ? []| | | | | |]; try (by intros ?%not_elem_of_nil); try (by eapply Last);
    destruct before as [|[| | | | | |qi qmin qmax [] qe| | | | | |] rest]; try (by intros ?%not_elem_of_nil); intros Hr.
  - apply list_elem_of_singleton in Hr as ->. eapply But_one; [done | done |]. apply advises_greedy.
  - destruct (report_reluctant_advises qi qmin qmax qe) as (r' & Er & Dr & Ar).
    rewrite Er in Hr. apply list_elem_of_singleton in Hr as ->. by eapply But_one.
Qed.

(** The reluctant quantifiers that end an alternative, in these ways, are reported. *)
Lemma ending_reported before i min max e after :
  ends_with after -> exists r, r ∈ checkElements (before ++ Quantifier i min max false e :: after)
    /\ d_node r = Quantifier i min max false e.
Proof.
  unfold checkElements. intros E.
  destruct (report_reluctant_advises i min max e) as (r & Er & Dr & _).
  destruct after as [|last [|? ?]]; cbn [ends_with] in E; [| | destruct last as [| | | |? []| |? [|] ? []| | | | | |]; done].
  - rewrite rev_app_distr. cbn [rev app]. exists r. rewrite Er. split; [by left | done].
  - rewrite rev_app_distr. cbn [rev app].
    destruct last as [| | | |? []| |? [|] ? []| | | | | |]; try done.
    + eexists. split; [by left | done].
    + exists r. rewrite Er. split; [by left | done].
Qed.

Lemma match_seq_last l k k' p : (forall q, head (ms k q) = head (ms k' q)) -> head (ms (l ++ k) p) = head (ms (l ++ k') p).
Proof. intros H. rewrite !match_seq_app. by apply head_flat_map_ext. Qed.

Lemma match_seq_two e e' p : ms [e; e'] p = flat_map (m e') (m e p).
Proof.
  change [e; e'] with ([e] ++ [e']). rewrite match_seq_app, match_seq_one.
  apply flat_map_ext. intros q. apply match_seq_one.
Qed.

Lemma exact_head i min max e p : max_ok min max ->
  head (m (exact (Quantifier i min max false e)) p) = head (m (Quantifier i min max false e) p).
Proof. intros H. cbn [matches exact]. symmetry. by apply reluctant_head. Qed.

Lemma exact_then_optional i min max e j max' greedy e' p : max_ok min max ->
  head (ms [exact (Quantifier i min max false e); Quantifier j 0 max' greedy e'] p) =
  head (ms [Quantifier i min max false e; Quantifier j 0 max' greedy e'] p).
Proof.
  intros H. rewrite !match_seq_two. apply head_flat_map_total; [by apply exact_head |].
  intros q Hq. cbn [matches] in Hq.
  assert (q ∈ iterate (iterate_fuel 0 q) 0 max' greedy (m e') q) as I
    by (apply optional_matches; unfold iterate_fuel; lia).
  rewrite Hq in I. by apply not_elem_of_nil in I.
Qed.

(** Without the flag m, an end leaves one place. *)
Lemma greedy_then_end i min max e j negate l p : multiline flags = false ->
  head (ms [greedily (Quantifier i min max false e); Assertion j end_kind negate l] p) =
  head (ms [Quantifier i min max false e; Assertion j end_kind negate l] p).
Proof.
  intros M. rewrite !match_seq_two.
  assert (forall q r, r ∈ m (Assertion j end_kind negate l) q <-> r = q /\ q.2 = []) as End.
  { intros q r. cbn [matches]. unfold holds_if, line_edge. rewrite M. destruct (q.2); cbn [andb].
    - rewrite list_elem_of_singleton. naive_solver.
    - split; [by intros ?%not_elem_of_nil | naive_solver]. }
  apply head_all_equal.
  - intros x. rewrite !elem_of_flat_map. cbn [matches greedily]. by setoid_rewrite greedy_same_places.
  - intros x y (q & Hq & Hx)%elem_of_flat_map (r & Hr & Hy)%elem_of_flat_map.
    apply End in Hx as [-> Ex]. apply End in Hy as [-> Ey].
    apply (forward_end p); [| | done | done]; by eapply matches_forward.
Qed.

Lemma advised_head l p : multiline flags = false -> Forall ordered l ->
  head (ms (advised l) p) = head (ms l p).
Proof.
  intros M O. unfold advised. destruct (rev l) as [|lastE before] eqn:E.
  { apply (f_equal (@rev _)) in E. by rewrite rev_involutive in E; subst. }
  apply (f_equal (@rev _)) in E. rewrite rev_involutive in E. cbn [rev] in E. subst l.
  assert (forall i min max e, lastE = Quantifier i min max false e ->
    head (ms (rev before ++ [exact lastE]) p) = head (ms (rev before ++ [lastE]) p)) as Last.
  { intros i min max e ->. apply match_seq_last. intros q. rewrite !match_seq_one. apply exact_head.
    apply Forall_app in O as [_ O]. rewrite Forall_singleton in O. done. }
  assert (forall i min max e q rest, before = q :: rest -> q = Quantifier i min max false e -> max_ok min max) as Ord.
  { intros i min max e q rest -> ->. apply Forall_app in O as [O _]. cbn [rev] in O.
    apply Forall_app in O as [_ O]. rewrite Forall_singleton in O. done. }
  assert (forall q rest q', before = q :: rest -> (forall r, head (ms [q'; lastE] r) = head (ms [q; lastE] r)) ->
    head (ms (rev rest ++ [q'; lastE]) p) = head (ms (rev before ++ [lastE]) p)) as But_one.
  { intros q rest q' -> H. cbn [rev]. rewrite <- app_assoc. by apply match_seq_last. }
  destruct lastE as [| | | |? []| |j [|min'] max' []| | | | | |]; try done;
    try (by eapply Last);
    (destruct before as [|[| | | | | |qi qmin qmax [] qe| | | | | |] rest]; try done);
    (eapply But_one; [done |]; intros r);
    first [by apply greedy_then_end | apply exact_then_optional; by eapply Ord].
Qed.

(** An expression whose pattern has an alternative with some elements. *)
Definition with_elements (i : RegexNode) (fl : Flags) (j : RegexNode) (alts : list rnode) (k : RegexNode)
    (elements : list rnode) (alts' : list rnode) : rnode :=
  RegExpLiteral i fl (Pattern j (alts ++ Alternative k elements :: alts')).

(** The pattern of an expression is one, and its alternatives are alternatives. *)
Definition has_alternatives (n : rnode) : Prop :=
  match n with
  | RegExpLiteral _ _ (Pattern _ l) => Forall (fun a => exists i l, a = Alternative i l) l
  | RegExpLiteral _ _ _ => False
  | _ => True
  end.

Lemma with_elements_head i fl j alts k l l' alts' p :
  head (ms l p) = head (ms l' p) ->
  head (m (with_elements i fl j alts k l alts') p) = head (m (with_elements i fl j alts k l' alts') p).
Proof.
  intros H. unfold with_elements. cbn [matches]. rewrite !flat_map_app. cbn [flat_map].
  rewrite !head_app. change (m (Alternative k l) p) with (ms l p). change (m (Alternative k l') p) with (ms l' p).
  by rewrite H.
Qed.


End Matching.

Section Meaning.

Variable flags : Flags.
Variable other : rnode -> Place -> list Place.
Variable other_accepts : rnode -> Z -> bool.
Hypothesis other_forward : forall n p q, q ∈ other n p -> forward p q.

Local Notation m := (matches flags other other_accepts).
Local Notation ms := (match_seq flags other other_accepts).

(** ** S5842: the empty string *)

Definition is_assertion (n : rnode) : bool := match n with Assertion _ _ _ _ => true | _ => false end.

(** The assertions of an expression hold at a place. *)
Definition assertions_hold (n : rnode) (p : Place) : Prop :=
  forall d, node_of n d -> is_assertion d = true -> p ∈ m d p.

Lemma assertions_hold_child n c p : c ∈ children n -> assertions_hold n p -> assertions_hold c p.
Proof. intros Hc H d Hd. apply H. by apply (node_below _ c). Qed.

Lemma match_seq_stays l p : (forall e, e ∈ l -> p ∈ m e p) -> p ∈ ms l p.
Proof.
  induction l as [|e l IH]; intros H; [by left |]. cbn [match_seq foldr]. apply elem_of_flat_map.
  exists p. split; [apply H; by left |]. apply IH. intros e' He'. apply H. by right.
Qed.

(** What the rule takes for an expression of the empty string matches it, where its
    assertions hold. *)
Lemma matchEmptyString_sound n p : matchEmptyString n = true -> assertions_hold n p -> p ∈ m n p.
Proof.
  induction n as [n IH] using rnode_ind. intros E A. rewrite Forall_forall in IH.
  assert (forall c, c ∈ children n -> matchEmptyString c = true -> p ∈ m c p) as IH'.
  { intros c Hc Ec. apply IH; [done.. |]. by apply (assertions_hold_child n). }
  assert (forall l, (forall c, c ∈ l -> c ∈ children n) -> existsb matchEmptyString l = true ->
    p ∈ flat_map (fun a => m a p) l) as Hex.
  { intros l Hl (c & Hc & Ec)%existsb_exists. rewrite <- list_elem_of_In in Hc. apply elem_of_flat_map.
    exists c. split; [done |]. by apply IH'; [apply Hl |]. }
  destruct n; try done; cbn [matchEmptyString matches children] in *; try (by apply Hex).
  - by apply (A (Assertion _ _ _ _)); [constructor |].
  - apply (match_seq_stays elements p). intros e He. apply IH'; [done |].
    rewrite forallb_forall in E. apply E. by apply list_elem_of_In.
  - apply Nat.eqb_eq in E as ->. apply optional_matches; [unfold iterate_fuel; lia | done].
Qed.

(** No quantifier of the expression is reported. *)
Definition not_reported (n : rnode) : Prop := forall d, node_of n d -> S5842_onQuantifierEnter d = [].

Lemma node_of_trans n d e : node_of n d -> node_of d e -> node_of n e.
Proof. induction 1 as [|n c d Hc H IH]; [done |]. intros He. by apply (node_below _ c), IH. Qed.

(** A literal is not inside an expression. *)
Definition no_literal (n : rnode) : Prop :=
  forall d, node_of n d -> match d with RegExpLiteral _ _ _ => False | _ => True end.

(** The expression has no backreferences, which match the empty string when their
    group does, and no classes of the flag v. *)
Definition no_references (n : rnode) : Prop :=
  forall d, node_of n d -> match d with Backreference _ | OtherNode _ _ _ => False | _ => True end.

Lemma match_seq_forward l p q : q ∈ ms l p -> forward p q.
Proof.
  intros H. apply (matches_forward flags other other_accepts other_forward (Alternative (mkRegexNode 0 0 "") l)).
  apply H.
Qed.

Lemma matchEmptyString_complete n :
  not_reported n -> no_references n -> (forall d, node_of n d -> ordered d) -> no_literal n ->
  matchEmptyString n = false -> forall p q, q ∈ m n p -> length q.2 < length p.2.
Proof.
  induction n as [n IH] using rnode_ind. intros R C O N E p q Hq. rewrite Forall_forall in IH.
  assert (forall c, c ∈ children n -> matchEmptyString c = false -> forall p q, q ∈ m c p -> length q.2 < length p.2)
    as IH'.
  { intros c Hc Ec. pose proof (fun d => node_below n c d Hc) as B.
    apply IH; [done | | | | | done]; intros d; intros; [apply R | eapply C | apply O | apply N]; eauto. }
  assert (forall l, (forall c, c ∈ l -> c ∈ children n) -> existsb matchEmptyString l = false ->
    q ∈ flat_map (fun a => m a p) l -> length q.2 < length p.2) as Hex.
  { intros l Hl El (c & Hc & Hqc)%elem_of_flat_map. apply (IH' c); [by apply Hl | | done].
    apply not_true_iff_false. intros Ec. apply not_true_iff_false in El. apply El, existsb_exists.
    exists c. by rewrite <- list_elem_of_In. }
  assert (forall ok, q ∈ one_char ok p -> length q.2 < length p.2) as Hone.
  { intros ok. unfold one_char. destruct p as [b [|c a]]; [by intros ?%not_elem_of_nil |]. cbn.
    destruct (ok c); [| by intros ?%not_elem_of_nil]. intros ->%list_elem_of_singleton. cbn. lia. }
  pose proof (C n (node_self n)) as Hother.
  destruct n as [i fl pat|i l|i l|i name l|i k neg l|i l|i min max g e|i neg l| | | | |]; try done;
    cbn [matchEmptyString matches children] in *; try (refine (Hex _ _ E Hq); intros ? ?; assumption); try (by eapply Hone);
    try (by apply not_elem_of_nil in Hq); try (exfalso; exact Hother).
  - destruct (N (RegExpLiteral i fl pat)); constructor.
  - clear Hex Hone Hother R C O N IH. revert p q Hq E. induction l as [|e l IHl]; [done |].
    intros p q Hq E. cbn [foldr] in Hq. apply elem_of_flat_map in Hq as (x & Hx & Hq).
    change (q ∈ ms l x) in Hq. cbn [forallb] in E.
    pose proof (forward_length _ _ (matches_forward flags other other_accepts other_forward e p x Hx)) as Fx.
    destruct (matchEmptyString e) eqn:Ee.
    + eapply Nat.lt_le_trans; [| done]. apply (IHl ltac:(intros c Hc; apply IH'; by right) x q Hq E).
    + eapply Nat.le_lt_trans; [apply (forward_length x q), (match_seq_forward l), Hq |]. apply (IH' e); [by left | done | done].
  - apply Nat.eqb_neq in E. destruct min as [|min]; [done |]. unfold iterate_fuel in Hq. cbn [plus iterate] in Hq.
    pose proof (O (Quantifier i (S min) max g e) (node_self _)) as Ob. cbn in Ob.
    assert (matchEmptyString e = false) as Ee.
    { pose proof (R (Quantifier i (S min) max g e) (node_self _)) as Re. cbn in Re. by destruct (matchEmptyString e). }
    assert (q ∈ flat_map (iterate (S (min + length p.2)) min (option_map Nat.pred max) g (m e)) (m e p)) as Hf
      by (destruct max as [[|]|]; [cbn in Ob; lia | done | done]).
    apply elem_of_flat_map in Hf as (x & Hx & Hq').
    eapply Nat.le_lt_trans; [| apply (IH' e ltac:(by left) Ee p x Hx)].
    apply forward_length. eapply iterate_forward; [| apply Hq'].
    intros p' q'. apply matches_forward, other_forward.
Qed.

(** C26: In an expression without backreferences and classes of the flag v, when
    S5842 reports nothing, no iteration of its quantifiers is empty: the body of each
    quantifier moves forward in the text. And what it reports matches the empty
    string, wherever its assertions hold. *)
Theorem unreported_repetitions_consume `{Visitor} n : no_literal n -> no_references n -> (forall d, node_of n d -> ordered d) ->
  (visit_with (on_enter S5842_onQuantifierEnter) n = [] ->
   forall i min max greedy e, node_of n (Quantifier i min max greedy e) ->
   forall p q, q ∈ m e p -> length q.2 < length p.2) /\
  (forall r, r ∈ visit_with (on_enter S5842_onQuantifierEnter) n ->
   (exists i min max greedy, node_of n (Quantifier i min max greedy (d_node r))) /\
   forall p, assertions_hold (d_node r) p -> p ∈ m (d_node r) p).
Proof.
  intros N C O. split.
  - intros V i min max greedy e He p q.
    assert (forall d, node_of n d -> S5842_onQuantifierEnter d = []) as R.
    { intros d Hd. destruct (S5842_onQuantifierEnter d) as [|r l] eqn:E; [done |].
      assert (r ∈ visit_with (on_enter S5842_onQuantifierEnter) n) as Hr
        by (apply visit_on_enter; exists d; rewrite E; split; [done | by left]).
      rewrite V in Hr. by apply not_elem_of_nil in Hr. }
    assert (forall d, node_of e d -> node_of n d) as B.
    { intros d Hd. eapply node_of_trans; [done |]. by apply (node_below _ e); [left |]. }
    apply matchEmptyString_complete; unfold not_reported, no_references, no_literal in *; [by eauto | by intros d Hd%B%C | by eauto | by intros d Hd%B%N |].
    pose proof (R _ He) as Re. cbn in Re. by destruct (matchEmptyString e).
  - intros r (d & Hd & Hr)%visit_on_enter. destruct d; cbn in Hr; try (by apply not_elem_of_nil in Hr).
    destruct (matchEmptyString d) eqn:E; [| by apply not_elem_of_nil in Hr].
    apply list_elem_of_singleton in Hr as ->. cbn [d_node at_node]. split; [by repeat eexists |].
    intros p. by apply matchEmptyString_sound.
Qed.

End Meaning.

(** ** Classes and alternations *)

Section Classes.

Variable flags : Flags.
Variable other : rnode -> Place -> list Place.
Variable other_accepts : rnode -> Z -> bool.

Local Notation m := (matches flags other other_accepts).
Local Notation acc := (accepts flags other_accepts).

(** The texts of characters and ranges that are written without escapes say what
    they are. *)
Definition well_read (n : rnode) : Prop :=
  match n with
  | Character i v => forall x, code_units (re_raw i) = [x] -> v = x
  | CharacterClassRange i (Character _ a) (Character _ b) =>
      forall x y, code_units (re_raw i) = [x; 45%Z; y] -> a = x /\ b = y
  | CharacterClassRange _ _ _ => False
  | _ => True
  end.

Lemma range_accepts text a b e c : code_units text = [a; 45%Z; b] -> well_read e -> is_range text e = true ->
  acc e c = between a b c.
Proof.
  intros T W R. destruct e as [| | | | | | | |i lo hi| | | |]; try done. cbn [is_range well_read] in *.
  apply String.eqb_eq in R. destruct lo; try done. destruct hi; try done.
  destruct (W a b) as [-> ->]; [by rewrite R |]. done.
Qed.

Lemma underscore_accepts e c : well_read e -> is_underscore e = true -> acc e c = (c =? 95)%Z.
Proof.
  intros W R. destruct e as [| | | | | | | | | |i v| |]; try done. cbn [is_underscore well_read] in *.
  apply String.eqb_eq in R. rewrite R in W. rewrite (W 95%Z eq_refl). apply Z.eqb_sym.
Qed.

Lemma existsb_index {A} (f : A -> bool) l : existsb f l = true -> exists i x, l !! i = Some x /\ f x = true.
Proof.
  intros (x & Hx & E)%existsb_exists. rewrite <- list_elem_of_In in Hx.
  apply list_elem_of_lookup in Hx as [i Hi]. by exists i, x.
Qed.

(** Four kinds that exclude one another, each of which one of four elements has. *)
Lemma four_kinds {A} (f g h k : A -> bool) l e :
  (forall x, f x = true -> g x = false /\ h x = false /\ k x = false) ->
  (forall x, g x = true -> h x = false /\ k x = false) -> (forall x, h x = true -> k x = false) ->
  length l = 4 -> existsb f l = true -> existsb g l = true -> existsb h l = true -> existsb k l = true ->
  e ∈ l -> f e = true \/ g e = true \/ h e = true \/ k e = true.
Proof.
  intros F G H L (i1 & x1 & L1 & E1)%existsb_index (i2 & x2 & L2 & E2)%existsb_index
    (i3 & x3 & L3 & E3)%existsb_index (i4 & x4 & L4 & E4)%existsb_index [j Lj]%list_elem_of_lookup.
  assert (i1 <> i2 /\ i1 <> i3 /\ i1 <> i4 /\ i2 <> i3 /\ i2 <> i4 /\ i3 <> i4) as D.
  { specialize (F x1 E1). specialize (G x2 E2). specialize (H x3 E3).
    split_and!; intros ->; simplify_eq; destruct_and?; congruence. }
  pose proof (lookup_lt_Some _ _ _ L1). pose proof (lookup_lt_Some _ _ _ L2). pose proof (lookup_lt_Some _ _ _ L3).
  pose proof (lookup_lt_Some _ _ _ L4). pose proof (lookup_lt_Some _ _ _ Lj).
  assert (j = i1 \/ j = i2 \/ j = i3 \/ j = i4) as [->|[->|[->| ->]]] by lia; simplify_eq; tauto.
Qed.

Lemma is_range_text text e : is_range text e = true -> raw e = text /\ is_underscore e = false.
Proof. destruct e; try done. by intros H%String.eqb_eq. Qed.

Lemma word_class_accepts els c : length els = 4 -> Forall well_read els ->
  existsb (is_range "0-9") els = true -> existsb (is_range "a-z") els = true ->
  existsb (is_range "A-Z") els = true -> existsb is_underscore els = true ->
  existsb (fun e => acc e c) els = is_word_char c.
Proof.
  intros L W D Lo U Us. rewrite Forall_forall in W.
  assert (forall e, e ∈ els -> is_range "0-9" e = true \/ is_range "a-z" e = true \/ is_range "A-Z" e = true
    \/ is_underscore e = true) as K.
  { intros e He. refine (four_kinds _ _ _ _ els e _ _ _ L D Lo U Us He);
      intros x Hx; apply is_range_text in Hx as [Hr Hu]; split_and?; try done;
      apply not_true_iff_false; intros [Hr' _]%is_range_text; congruence. }
  apply eq_true_iff_eq. rewrite existsb_exists. unfold is_word_char. rewrite !orb_true_iff. split.
  - intros (e & He & A). rewrite <- list_elem_of_In in He. specialize (W e He).
    destruct (K e He) as [R|[R|[R|R]]].
    + rewrite (range_accepts "0-9" 48 57) in A by done. auto.
    + rewrite (range_accepts "a-z" 97 122) in A by done. auto.
    + rewrite (range_accepts "A-Z" 65 90) in A by done. auto.
    + rewrite underscore_accepts in A by done. auto.
  - assert (forall f, existsb f els = true -> exists e, e ∈ els /\ f e = true) as X.
    { intros f (e & He & E)%existsb_exists. rewrite <- list_elem_of_In in He. by exists e. }
    intros [[[A|A]|A]|A].
    + destruct (X _ Lo) as (e & He & R). exists e. rewrite <- list_elem_of_In.
      by rewrite (range_accepts "a-z" 97 122) by auto.
    + destruct (X _ U) as (e & He & R). exists e. rewrite <- list_elem_of_In.
      by rewrite (range_accepts "A-Z" 65 90) by auto.
    + destruct (X _ D) as (e & He & R). exists e. rewrite <- list_elem_of_In.
      by rewrite (range_accepts "0-9" 48 57) by auto.
    + destruct (X _ Us) as (e & He & R). exists e. rewrite <- list_elem_of_In.
      by rewrite underscore_accepts by auto.
Qed.

Lemma complementary_sets els kind c : existsb (is_set kind false) els = true -> existsb (is_set kind true) els = true ->
  existsb (fun e => acc e c) els = true.
Proof.
  intros (e & He & E)%existsb_exists (d & Hd & D)%existsb_exists.
  assert (acc e c = true \/ acc d c = true) as [A|A].
  { destruct e as [| | | | | | | | |i k n| | |]; try done. destruct d as [| | | | | | | | |i' k' n'| | |]; try done.
    destruct k, kind; try done; destruct k'; try done; cbn [is_set accepts set_accepts] in *;
      destruct n, n'; try done;
      match goal with |- xorb _ ?b = true \/ _ => destruct b; auto end. }
  - apply existsb_exists. by exists e.
  - apply existsb_exists. by exists d.
Qed.

(** What the rules on character classes say of a class they report: an empty class
    matches nothing (S2639), a class of one character matches what it does (S6397), and
    the classes that S6353 reports accept the digits, the word characters or any
    character, as the class they are to be replaced by. *)
Theorem reported_classes_are_concise i negate els : Forall well_read els ->
  let n := CharacterClass i negate els in
  (S2639_onCharacterClassEnter n <> [] -> forall p, m n p = []) /\
  (S6397_onCharacterClassEnter n <> [] -> exists e, els = [e] /\ forall p, m n p = m e p) /\
  (checkBulkyNumericCharacterClass n <> [] -> forall p, m n p = m (CharacterSet i digit_set negate) p) /\
  (checkBulkyAlphaNumericCharacterClass n <> [] -> forall p, m n p = m (CharacterSet i word_set negate) p) /\
  (checkBulkyAnyCharacterClass flags n <> [] -> forall c, acc n c = true).
Proof.
  intros W n. subst n. assert (forall f g p, (forall c, f c = g c) -> one_char f p = one_char g p) as Ext.
  { intros f g p H. unfold one_char. destruct (p.2); [done | by rewrite H]. }
  split_and!.
  - cbn [S2639_onCharacterClassEnter]. destruct els; [| done]. destruct negate; [done |]. intros _ p.
    cbn. unfold one_char. by destruct (p.2).
  - cbn [S6397_onCharacterClassEnter]. destruct els as [|e [|? ?]]; [done | | done]. cbn [hasSingleForbiddenCharacter].
    destruct negate; [by rewrite andb_false_r |]. intros H. exists e. split; [done |]. intros p.
    destruct e; try done; cbn [matches]; apply Ext; intros c; cbn [accepts existsb]; by rewrite orb_false_r, xorb_false_l.
  - cbn [checkBulkyNumericCharacterClass]. destruct els as [|e [|? ?]]; [done | | done].
    destruct (is_range "0-9" e) eqn:R; [| done]. intros _ p. cbn [matches]. apply Ext. intros c.
    cbn [accepts existsb set_accepts]. rewrite orb_false_r. f_equal.
    rewrite Forall_singleton in W. by apply (range_accepts "0-9" 48 57).
  - cbn [checkBulkyAlphaNumericCharacterClass]. destruct (_ && _) eqn:E; [| done]. intros _ p. split_bools.
    cbn [matches]. apply Ext. intros c. cbn [accepts set_accepts]. f_equal.
    apply word_class_accepts; try done. by apply Nat.eqb_eq.
  - cbn [checkBulkyAnyCharacterClass]. destruct (negate || _) eqn:E; [done |]. apply orb_false_iff in E as [-> _].
    destruct (_ || _) eqn:E; [| done]. intros _ c. cbn [accepts xorb].
    apply orb_true_iff in E as [E|E]; [apply orb_true_iff in E as [E|E] |]; split_bools;
      match goal with A : existsb (is_set ?k false) els = true, B : existsb (is_set ?k true) els = true |- _ =>
        by rewrite (complementary_sets els k c A B) end.
Qed.

(** S6035: an alternation of characters matches what the class of these characters
    does, with the same preference. *)
Lemma character_alternation_is_class i l p :
  Forall (fun a => match a with Alternative _ _ => True | _ => False end) l ->
  S6035_checkAlternation (Group i l) <> [] ->
  head (m (Group i l) p) = head (m (CharacterClass i false (flat_map elements l)) p).
Proof.
  intros A. unfold S6035_checkAlternation. cbn [alternatives]. destruct (Nat.leb _ _); [done |].
  destruct (forallb single_character l) eqn:E; [| done]. intros _. clear -A E. cbn [matches accepts].
  unfold one_char. destruct p as [before [|c rest]]; cbn [fst snd].
  - induction l as [|a l IH]; [done |]. apply Forall_cons_1 in A as [Aa A]. cbn [forallb flat_map] in *. split_bools.
    destruct a as [| | | | |k [|[] [|? ?]]| | | | | | |]; try done. cbn [matches foldr one_char snd flat_map app]. by apply IH.
  - induction l as [|a l IH]; [done |]. apply Forall_cons_1 in A as [Aa A]. cbn [forallb flat_map] in *. split_bools.
    destruct a as [| | | | |k [|[] [|? ?]]| | | | | | |]; try done. specialize (IH A H0).
    cbn [matches foldr one_char fst snd flat_map elements app existsb accepts] in *.
    destruct (value =? c)%Z; [done |]. cbn [flat_map app orb]. done.
Qed.

(** S6331: an empty group matches the empty string. *)
Lemma empty_group_matches_nothing_else i l p q :
  Forall (fun a => match a with Alternative _ _ => True | _ => False end) l ->
  S6331_checkEmptyGroup (Group i l) <> [] -> q ∈ m (Group i l) p -> q = p.
Proof.
  intros A. cbn [S6331_checkEmptyGroup]. destruct (forallb no_elements l) eqn:E; [| done]. intros _.
  cbn [matches]. intros (a & Ha & Hq)%elem_of_flat_map. rewrite Forall_forall in A. specialize (A a Ha).
  rewrite forallb_forall in E. specialize (E a ltac:(by apply list_elem_of_In)).
  destruct a as [| | | | |k [|? ?]| | | | | | |]; try done. by apply list_elem_of_singleton in Hq.
Qed.

End Classes.

(** ** S5868: sequences of characters *)

(** The characters at the ends of an element of a class. *)
Definition characters_of (n : rnode) : list rnode :=
  match n with
  | Character _ _ => [n]
  | CharacterClassRange _ min max => [min; max]
  | _ => []
  end.

(** The element [b] comes just after the element [a]. *)
Definition follows (a b : rnode) : Prop := re_end (info a) = re_start (info b).

Fixpoint contiguous (l : list rnode) : Prop :=
  match l with
  | a :: (b :: _) as r => follows a b /\ contiguous r
  | _ => True
  end.

(** The elements of a class without the flag v; a range is where its ends are. *)
Definition class_element (n : rnode) : Prop :=
  match n with
  | Character _ _ | CharacterSet _ _ _ => True
  | CharacterClassRange i min max => re_start i = re_start (info min) /\ re_end i = re_end (info max)
  | _ => False
  end.

Lemma contiguous_snoc l n : contiguous l -> (forall a, last l = Some a -> follows a n) -> contiguous (l ++ [n]).
Proof.
  induction l as [|a [|b l] IH]; cbn [contiguous app]; intros H Hn; [done | split; [by apply Hn | done] |].
  destruct H as [Hab H]. split; [done |]. by apply IH.
Qed.

(** The last character of the current sequence is at the end of the elements read. *)
Definition ends_at (l : list rnode) (next : list rnode) : Prop :=
  forall a b, last l = Some a -> head next = Some b -> re_end (info a) = re_start (info b).

Lemma characters_steps nodes : forall sequences current sequences' current',
  fold_left characters_step nodes (sequences, current) = (sequences', current') ->
  Forall class_element nodes -> contiguous nodes ->
  Forall contiguous sequences -> contiguous current -> ends_at current nodes ->
  Forall contiguous sequences' /\ contiguous current' /\
  concat sequences' ++ current' = (concat sequences ++ current) ++ flat_map characters_of nodes.
Proof.
  induction nodes as [|n nodes IH]; intros sequences current sequences' current' H E C S Cc A.
  { cbn in H. injection H as <- <-. cbn. by rewrite app_nil_r. }
  cbn [fold_left] in H. apply Forall_cons_1 in E as [En E].
  assert (contiguous nodes) as C' by (destruct nodes; [done | apply C]).
  assert (forall a, re_end (info a) = re_end (info n) -> forall b, head nodes = Some b -> re_end (info a) = re_start (info b))
    as Nx by (intros a -> b Hb; destruct nodes; [done |]; injection Hb as <-; apply C).
  destruct n as [| | | | | | | |i min max|i k neg|i v| |]; try done; cbn [characters_step] in H.
  - assert (contiguous (current ++ [min])) as Cm.
    { apply contiguous_snoc; [done |]. intros a Ha. destruct En as [En _]. unfold follows. rewrite <- En.
      by apply (A a (CharacterClassRange i min max)). }
    apply IH in H as (S' & Cc' & Eq); [split_and!; [done.. |] | done | done | | done |].
    + rewrite Eq, concat_app. cbn [concat flat_map characters_of]. by rewrite <- !app_assoc.
    + apply Forall_app_2; [done | by apply Forall_singleton].
    + intros a b [= <-] Hb. apply Nx; [by destruct En | done].
  - destruct current as [|c current].
    + apply IH in H as (S' & Cc' & Eq); [done.. | by intros ? ?].
    + apply IH in H as (S' & Cc' & Eq); [split_and!; [done.. |] | done | done | | done | by intros ? ?].
      * rewrite Eq, concat_app. cbn [concat flat_map characters_of app]. by rewrite !app_nil_r.
      * apply Forall_app_2; [done | by apply Forall_singleton].
  - apply IH in H as (S' & Cc' & Eq); [split_and!; [done.. |] | done | done | done | |].
    + rewrite Eq. cbn [flat_map characters_of]. by rewrite <- !app_assoc.
    + apply contiguous_snoc; [done |]. intros a Ha. by apply (A a (Character i v)).
    + intros a b Ha Hb. rewrite last_snoc in Ha. injection Ha as <-. by apply Nx.
Qed.

(** The sequences in which S5868 looks for characters of several code points have
    all the characters of a class in order, and in a sequence each character is just
    after the one before it in the text: no sequence goes over a set of characters or
    from one end of a range to the other. *)
Theorem sequences_are_contiguous nodes : Forall class_element nodes -> contiguous nodes ->
  concat (characters nodes) = flat_map characters_of nodes /\ Forall contiguous (characters nodes).
Proof.
  intros E C. unfold characters. destruct (fold_left characters_step nodes ([], [])) as [sequences current] eqn:H.
  apply characters_steps in H as (S & Cc & Eq); [| done.. | by intros ? ?].
  rewrite concat_app. cbn [concat]. rewrite app_nil_r. split; [done |].
  apply Forall_app_2; [done | by apply Forall_singleton].
Qed.

(** ** Examples *)

Section Examples.

Local Open Scope Z_scope.

Definition at_text (i j : nat) (text : string) : RegexNode := mkRegexNode i j text.

Definition char_a : rnode := Character (at_text 1 2 "a") 97.
Definition char_b : rnode := Character (at_text 2 3 "b") 98.

Definition plain_flags : Flags := mkFlags false false false false.
Definition multiline_flags : Flags := mkFlags false true false false.

Definition nothing_else (n : rnode) (p : Place) : list Place := [].
Definition no_others (n : rnode) (c : Z) : bool := false.

Definition expression (fl : Flags) (l : list rnode) : rnode :=
  RegExpLiteral (at_text 0 9 "") fl (Pattern (at_text 0 9 "") [Alternative (at_text 0 9 "") l]).

(** [/a*?/] and [/a+?b*/] *)
Definition reluctant : rnode := expression plain_flags [Quantifier (at_text 1 4 "a*?") 0 None false char_a].
Definition reluctant_then_optional : rnode :=
  expression plain_flags
    [Quantifier (at_text 1 4 "a+?") 1 None false char_a; Quantifier (at_text 4 6 "b*") 0 None true char_b].

Lemma by_traversal (P : rnode -> Prop) n :
  Forall (fun e => match e with Enter d => P d | Leave _ => True end) (depth_first n) ->
  forall d, node_of n d -> P d.
Proof.
  intros F d Hd. rewrite Forall_forall in F. apply (F (Enter d)).
  by apply (@entered depth_first_visitor).
Qed.

Ltac each_node :=
  apply by_traversal; cbn [depth_first flat_map app];
  repeat first [apply Forall_nil_2 | apply Forall_cons_2]; try exact I; try (cbn; lia).


Example reluctant_reports :
  map (fun r => (d_message r, raw (d_node r))) (S6019_onRegExpLiteralEnter reluctant_then_optional) =
    [("Fix this reluctant quantifier that will only ever match 1 repetition.", "a+?")] /\
  matches plain_flags nothing_else no_others reluctant_then_optional ([], [97; 97; 98]) =
    [([97], [97; 98]); ([98; 97; 97], []); ([97; 97], [98])].
Proof. split; vm_compute; reflexivity. Qed.

(** With the flag m an end is also before a line terminator, and the reluctant
    quantifier of [/\[^\]*?$/m] stops at the first line where the greedy one goes to
    the end; the rule reports it as unnecessary. *)
Definition any_lines : rnode :=
  expression multiline_flags
    [Quantifier (at_text 1 6 "[^]*?") 0 None false (CharacterClass (at_text 1 4 "[^]") true []);
     Assertion (at_text 6 7 "$") end_kind false []].

Example multiline_advice_changes_match :
  S6019_onRegExpLiteralEnter any_lines <> [] /\
  head (matches multiline_flags nothing_else no_others any_lines ([], [97; 10; 98])) = Some ([97], [10; 98]) /\
  head (matches multiline_flags nothing_else no_others
          (expression multiline_flags
            [Quantifier (at_text 1 6 "[^]*?") 0 None true (CharacterClass (at_text 1 4 "[^]") true []);
             Assertion (at_text 6 7 "$") end_kind false []]) ([], [97; 10; 98])) =
    Some ([98; 10; 97], []).
Proof. split_and!; [done | vm_compute; reflexivity..]. Qed.

(** A group of a starred character, under a plus. *)
Definition starred : rnode :=
  expression plain_flags
    [Quantifier (at_text 1 8 "(?:a*)+") 1 None true
       (Group (at_text 1 7 "(?:a*)")
          [Alternative (at_text 4 6 "a*") [Quantifier (at_text 4 6 "a*") 0 None true char_a]]);
     Quantifier (at_text 8 10 "b?") 0 (Some 1%nat) true char_b].

Definition pattern_of (n : rnode) : rnode := match n with RegExpLiteral _ _ p => p | _ => n end.

(** A backreference is taken to match some text: a repeated group of a backreference
    is not reported, and where the first group matches nothing its iterations are
    empty. *)
Example empty_backreference_not_reported :
  let body := Group (at_text 4 10 "(?:\1)") [Alternative (at_text 7 9 "\1") [Backreference (at_text 7 9 "\1")]] in
  let empty_capture (n : rnode) (p : Place) := [p] in
  S5842_onQuantifierEnter (Quantifier (at_text 4 11 "(?:\1)*") 0 None true body) = []
  /\ matches plain_flags empty_capture no_others body ([], [98]) = [([], [98])].
Proof. by split. Qed.

Example starred_reports :
  map (raw ∘ d_node) (visit_with (on_enter S5842_onQuantifierEnter) starred) = ["(?:a*)"].
Proof. vm_compute. reflexivity. Qed.

Example unreported_repetitions_consume_witness :
  (visit_with (on_enter S5842_onQuantifierEnter) (pattern_of starred) = [] ->
   forall i min max greedy e, node_of (pattern_of starred) (Quantifier i min max greedy e) ->
   forall p q, q ∈ matches plain_flags nothing_else no_others e p -> (length q.2 < length p.2)%nat) /\
  (forall r, r ∈ visit_with (on_enter S5842_onQuantifierEnter) (pattern_of starred) ->
   (exists i min max greedy, node_of (pattern_of starred) (Quantifier i min max greedy (d_node r))) /\
   forall p, assertions_hold plain_flags nothing_else no_others (d_node r) p ->
     p ∈ matches plain_flags nothing_else no_others (d_node r) p).
Proof.
  apply unreported_repetitions_consume.
  - by intros ? ? ? ?%not_elem_of_nil.
  - unfold no_literal. cbn [pattern_of starred expression]. each_node.
  - unfold no_references. cbn [pattern_of starred expression]. each_node.
  - cbn [pattern_of starred expression]. each_node.
Defined.

(** [/\[0-9\]/], [/\[\w\W\]/] and [/\[\b\]/] *)
Definition digits : rnode :=
  CharacterClass (at_text 1 6 "[0-9]") false
    [CharacterClassRange (at_text 2 5 "0-9") (Character (at_text 2 3 "0") 48) (Character (at_text 4 5 "9") 57)].

Example reported_classes_are_concise_witness :
  checkBulkyNumericCharacterClass digits <> [] /\
  forall p, matches plain_flags nothing_else no_others digits p =
            matches plain_flags nothing_else no_others (CharacterSet (at_text 1 6 "[0-9]") digit_set false) p.
Proof.
  split; [discriminate |].
  apply (reported_classes_are_concise plain_flags nothing_else no_others (at_text 1 6 "[0-9]") false).
  - repeat first [apply Forall_nil_2 | apply Forall_cons_2]. intros x y [= <- <-]. done.
  - discriminate.
Defined.

(** The rule S6353 proposes a dot for [\[\w\W\]] without the flag s, and a dot does not
    match a line feed. *)
Example dot_is_not_any_class :
  let n := CharacterClass (at_text 1 7 "[\w\W]") false
    [CharacterSet (at_text 2 4 "\w") word_set false; CharacterSet (at_text 4 6 "\W") word_set true] in
  checkBulkyAnyCharacterClass plain_flags n <> [] /\
  accepts plain_flags no_others n 10 = true /\
  accepts plain_flags no_others (CharacterSet (at_text 1 2 ".") any_set false) 10 = false.
Proof. split_and!; [done | reflexivity..]. Qed.

(** The rule S6397 reports the class of a backspace, [\[\b\]], that of a bar and that of
    a closing parenthesis: out of a class their texts are a boundary of words, an
    alternative and the end of a group. *)
Example other_meanings_reported :
  forallb (fun '(text, value) =>
    match S6397_onCharacterClassEnter (CharacterClass (at_text 1 4 "") false [Character (at_text 2 3 text) value]) with
    | [] => false | _ => true end) [("\b", 8); ("|", 124); (")", 41)] = true.
Proof. vm_compute. reflexivity. Qed.

(** [\[ab-c\]] *)
Definition class_elements : list rnode :=
  [Character (at_text 2 3 "a") 97;
   CharacterClassRange (at_text 3 6 "b-c") (Character (at_text 3 4 "b") 98) (Character (at_text 5 6 "c") 99)].

Example sequences_are_contiguous_witness :
  concat (characters class_elements) = flat_map characters_of class_elements /\
  Forall contiguous (characters class_elements).
Proof. apply sequences_are_contiguous; [repeat constructor | by split]. Defined.

(** The suggestion of S5868 adds the flag after the token before the closing
    parenthesis: after a trailing comma, a second comma makes a syntax error. *)
Example trailing_comma_doubled sm :
  let comma := mkToken "Punctuator" "," (mkLoc (mkPos 1 0) (mkPos 1 1)) (12, 13) in
  let regex := Node (mkHeader 1 "Literal" None None) [("value", VStr "x")] in
  let call := Node (mkHeader 2 "NewExpression" None None)
    [("callee", VNode (Node (mkHeader 3 "Identifier" None None) [("name", VStr "RegExp")]));
     ("arguments", VArr [VNode regex])] in
  addUnicodeFlag (fun _ => Some comma) sm regex [call] = Some (InsertAfterToken comma u_argument).
Proof. reflexivity. Qed.

End Examples.
