(* ===== verification/RegexComplexity.v ===== *)
(** * RegexComplexity: the complexity of regular expressions (rule S5843)

    The code of [rules/S5843/rule.ts]: the parts of an expression, the calculator as
    a visitor with a nesting level, and the reports; against a complexity defined by
    recursion on the tree. *)

From Stdlib Require Import ZArith Lia.
From stdpp Require Import base list sets strings.
From S2P Require Import Prelude Json Estree Ast RegexLocations Regexpp.

Open Scope js_scope.
Open Scope Z_scope.

(** ** The calculator *)

Record component := mkComponent { c_location : SourceLocation; c_message : string }.

Record Calculator := mkCalculator { nesting : Z; complexity : Z; components : list component }.

Definition new_calculator : Calculator := mkCalculator 1 0 [].

Section Calculator.

Variable getLocFromIndex : Z -> Position.
(** [this.regexPart] *)
Variable regexPart : node.

Definition range_of (n : rnode) : result range_error (Z * Z) := getRegexpRange regexPart (info n).

Definition increment_message (increment : Z) : string :=
  ("+" +:+ print_int increment +:+
   if (1 <? increment)%Z then " (incl " +:+ print_int (increment - 1)%Z +:+ " for nesting)" else "")%string.

Definition increaseComplexity (increment : Z) (n : rnode) (offset : Z * Z) (st : Calculator)
  : result range_error Calculator :=
  let! loc := getRegexpLocation getLocFromIndex regexPart (info n) offset in
  Ok (mkCalculator (nesting st) (complexity st + increment)
        (components st ++
         match loc with Some loc => [mkComponent loc (increment_message increment)] | None => [] end)).

Definition nested (by_ : Z) (st : Calculator) : Calculator :=
  mkCalculator (nesting st + by_) (complexity st) (components st).

(** The loop of [onDisjunctionEnter], from the second alternative on. *)
Fixpoint disjunction_loop (increment : Z) (alternatives : list rnode) (st : Calculator)
  : result range_error Calculator :=
  match alternatives with
  | [] => Ok st
  | alternative :: rest =>
      let! (start, end_) := range_of alternative in
      let! st := increaseComplexity increment alternative (-1, - (end_ - start)) st in
      disjunction_loop 1 rest st
  end.

Definition onDisjunctionEnter (n : rnode) (st : Calculator) : result range_error Calculator :=
  match alternatives n with
  | _ :: (_ :: _) as rest =>
      let! st := disjunction_loop (nesting st) rest st in
      Ok (nested 1 st)
  | _ => Ok st
  end.

Definition onDisjunctionLeave (n : rnode) (st : Calculator) : Calculator :=
  match alternatives n with
  | _ :: _ :: _ => nested (-1) st
  | _ => st
  end.

(** The handlers of the visitor. *)
Definition on_event (st : Calculator) (e : event) : result range_error Calculator :=
  match e with
  | Enter (Assertion _ lookahead _ _ as n) =>
      let! (start, end_) := range_of n in
      let! st := increaseComplexity (nesting st) n (0, - (end_ - start - 1) + 2) st in
      onDisjunctionEnter n (nested 1 st)
  | Enter (Assertion _ lookbehind _ _ as n) =>
      let! (start, end_) := range_of n in
      let! st := increaseComplexity (nesting st) n (0, - (end_ - start - 1) + 3) st in
      onDisjunctionEnter n (nested 1 st)
  | Leave (Assertion _ lookahead _ _ as n) | Leave (Assertion _ lookbehind _ _ as n) =>
      Ok (nested (-1) (onDisjunctionLeave n st))
  | Enter (Backreference _ as n) => increaseComplexity 1 n (0, 0) st
  | Enter (CapturingGroup _ _ _ as n) | Enter (Group _ _ as n) | Enter (Pattern _ _ as n) => onDisjunctionEnter n st
  | Leave (CapturingGroup _ _ _ as n) | Leave (Group _ _ as n) | Leave (Pattern _ _ as n) =>
      Ok (onDisjunctionLeave n st)
  | Enter (CharacterClass _ _ _ as n) =>
      let! (start, end_) := range_of n in
      let! st := increaseComplexity 1 n (0, - (end_ - start - 1)) st in
      Ok (nested 1 st)
  | Leave (CharacterClass _ _ _) => Ok (nested (-1) st)
  | Enter (Quantifier _ _ _ _ element as n) =>
      let! (start, _) := range_of n in
      let! (_, end_) := range_of element in
      let! st := increaseComplexity (nesting st) n (end_ - start, 0) st in
      Ok (nested 1 st)
  | Leave (Quantifier _ _ _ _ _) => Ok (nested (-1) st)
  | _ => Ok st
  end.

(** [calculator.visit()] *)
Definition visit `{Visitor} (regexPartAST : option rnode) : result range_error Calculator :=
  match regexPartAST with
  | None => Ok new_calculator
  | Some ast => rfold on_event (visitRegExpAST ast) new_calculator
  end.

(** ** The complexity, by recursion *)

(** An increment, with where it is shown. *)
Definition located_increment := (Z * option SourceLocation)%type.

Definition increment_at (increment : Z) (n : rnode) (offset : Z * Z) : result range_error (list located_increment) :=
  let! loc := getRegexpLocation getLocFromIndex regexPart (info n) offset in
  Ok [(increment, loc)].

Fixpoint concat_results {E A : Type} (l : list (result E (list A))) : result E (list A) :=
  match l with
  | [] => Ok []
  | r :: rest => let! a := r in let! b := concat_results rest in Ok (a ++ b)
  end.

Definition andThen {E A : Type} (a b : result E (list A)) : result E (list A) :=
  let! x := a in let! y := b in Ok (x ++ y).

(** A bar: the first one of a disjunction costs the level, the next ones one each. *)
Definition bar_at (increment : Z) (n : rnode) : result range_error (list located_increment) :=
  let! (start, end_) := range_of n in increment_at increment n (-1, - (end_ - start)).

Definition bars (level : Z) (n : rnode) : result range_error (list located_increment) :=
  match alternatives n with
  | _ :: second :: rest => andThen (bar_at level second) (concat_results (map (bar_at 1) rest))
  | _ => Ok []
  end.

(** What a node costs at a level, and the level of what is in it. *)
Definition own_increments (level : Z) (n : rnode) : result range_error (list located_increment) :=
  match n with
  | Assertion _ lookahead _ _ =>
      andThen (let! (start, end_) := range_of n in increment_at level n (0, - (end_ - start - 1) + 2)) (bars (level + 1) n)
  | Assertion _ lookbehind _ _ =>
      andThen (let! (start, end_) := range_of n in increment_at level n (0, - (end_ - start - 1) + 3)) (bars (level + 1) n)
  | Backreference _ => increment_at 1 n (0, 0)
  | CapturingGroup _ _ _ | Group _ _ | Pattern _ _ => bars level n
  | CharacterClass _ _ _ =>
      let! (start, end_) := range_of n in increment_at 1 n (0, - (end_ - start - 1))
  | Quantifier _ _ _ _ element =>
      let! (start, _) := range_of n in
      let! (_, end_) := range_of element in
      increment_at level n (end_ - start, 0)
  | _ => Ok []
  end.

Definition inner_level (level : Z) (n : rnode) : Z :=
  let disjunction := match alternatives n with _ :: _ :: _ => 1 | _ => 0 end in
  match n with
  | Assertion _ lookahead _ _ | Assertion _ lookbehind _ _ => level + 1 + disjunction
  | CapturingGroup _ _ _ | Group _ _ | Pattern _ _ => level + disjunction
  | CharacterClass _ _ _ | Quantifier _ _ _ _ _ => level + 1
  | _ => level
  end.

Fixpoint increments (level : Z) (n : rnode) : result range_error (list located_increment) :=
  andThen (own_increments level n)
    match n with
    | RegExpLiteral _ _ e | Quantifier _ _ _ _ e => concat_results [increments (inner_level level n) e]
    | Pattern _ l | Group _ l | CapturingGroup _ _ l | Assertion _ _ _ l | Alternative _ l
    | CharacterClass _ _ l | OtherNode _ _ l =>
        concat_results (map (increments (inner_level level n)) l)
    | CharacterClassRange _ a b =>
        concat_results [increments (inner_level level n) a; increments (inner_level level n) b]
    | CharacterSet _ _ _ | Character _ _ | Backreference _ => Ok []
    end.

Definition total (l : list located_increment) : Z := foldr (fun i s => i.1 + s) 0 l.

Definition shown (l : list located_increment) : list component :=
  omap (fun i => match i.2 with Some loc => Some (mkComponent loc (increment_message i.1)) | None => None end) l.

(** The calculator after some increments. *)
Definition add_increments (st : Calculator) (l : list located_increment) : Calculator :=
  mkCalculator (nesting st) (complexity st + total l) (components st ++ shown l).

End Calculator.

(** ** The parts of an expression *)

Section Finder.

Variable sm : ScopeManager.

(** [RegexPartFinder]: the parts found, and the identifiers that are handled. *)
Record Finder := mkFinder { parts : list (list node); handledIdentifiers : list node }.

Definition new_finder : Finder := mkFinder [] [].

Definition add_part (literals : list node) (st : Finder) : Finder :=
  mkFinder (parts st ++ [literals]) (handledIdentifiers st).

Definition first_argument (n : node) : option node :=
  match get_array n "arguments" with a :: _ => as_node a | [] => None end.

Definition is_handled (n : node) (st : Finder) : bool := existsb (same_node n) (handledIdentifiers st).

(** [find], and [findInStringConcatenation] with the literals; [None] is running out
    of fuel. *)
Fixpoint find (fuel : nat) (n : node) (st : Finder) : option Finder :=
  match fuel with
  | O => None
  | S fuel' =>
      if isRegExpConstructor n then
        match first_argument n with Some a => find fuel' a st | None => Some st end
      else if isRegexLiteral n then Some (add_part [n] st)
      else if isStringLiteral n then Some (add_part [n] st)
      else if isStaticTemplateLiteral n then Some (add_part [n] st)
      else if type_of n =s "Identifier" then
        if is_handled n st then Some st
        else
          let st := mkFinder (parts st) (handledIdentifiers st ++ [n]) in
          match getUniqueWriteUsage sm (node_name n) n with
          | Some initializer => find fuel' initializer st
          | None => Some st
          end
      else if isBinaryPlus n then
        match find_operands fuel' n (st, []) with
        | Some (st, literals) =>
            Some (match literals with [] => st | _ => add_part literals st end)
        | None => None
        end
      else Some st
  end
with find_operands (fuel : nat) (n : node) (st : Finder * list node) : option (Finder * list node) :=
  match fuel with
  | O => None
  | S fuel' =>
      match get_node n "left", get_node n "right" with
      | Some l, Some r =>
          match findInStringConcatenation fuel' l st with
          | Some st => findInStringConcatenation fuel' r st
          | None => None
          end
      | _, _ => Some st
      end
  end
with findInStringConcatenation (fuel : nat) (n : node) (st : Finder * list node) : option (Finder * list node) :=
  match fuel with
  | O => None
  | S fuel' =>
      if isStringLiteral n then Some (st.1, st.2 ++ [n])
      else if isBinaryPlus n then find_operands fuel' n st
      else match find fuel' n st.1 with Some f => Some (f, st.2) | None => None end
  end.

Definition findRegexParts (fuel : nat) (n : node) : option (list (list node)) :=
  option_map parts (find fuel n new_finder).

End Finder.

(** ** The rule *)

Section Rule.

Context `{Visitor}.
Variable sm : ScopeManager.
Variable parent : node -> option node.
Variable isString : node -> bool.
Variable has_services : bool.
Variable parseRegExp : string -> string -> option rnode.
Variable getLocFromIndex : Z -> Position.
Variable threshold : Z.

Definition DEFAULT_THRESHOLD : Z := 20.

(** The expressions of a node that the handlers keep, in the order of the exits. *)
Definition regexNode_of (n : node) : option node :=
  if isRegexLiteral n then Some n
  else if type_of n =s "NewExpression" then if isRegExpConstructor n then Some n else None
  else if type_of n =s "CallExpression" then
    if has_services && isStringRegexMethodCall isString n then first_argument n
    else if isRegExpConstructor n then Some n else None
  else None.

Record ComplexityReport := mkComplexityReport {
  x_node : option node;
  x_complexity : Z;
  x_secondaries : list component;
  x_cost : Z
}.

Inductive rule_error := RangeFailed (e : range_error) | PartsOutOfFuel.

Definition calculator_of (fuel : nat) (regexPart : node) : result rule_error Calculator :=
  match getParsedRegex sm parent parseRegExp fuel regexPart with
  | None => Throw PartsOutOfFuel
  | Some ast =>
      match visit getLocFromIndex regexPart ast with Ok c => Ok c | Throw e => Throw (RangeFailed e) end
  end.

(** The sum on the parts of an expression, and its report. *)
Definition check_parts (fuel : nat) (regexParts : list node) : result rule_error (list ComplexityReport) :=
  let! calculators := rmap_list (calculator_of fuel) regexParts in
  let complexity := foldr (fun c s => complexity c + s) 0 calculators in
  Ok (if threshold <? complexity
      then [mkComplexityReport (head regexParts) complexity (flat_map components calculators) (complexity - threshold)]
      else []).

Definition checkRegexComplexity (fuel : nat) (regexNode : node) : result rule_error (list ComplexityReport) :=
  match findRegexParts sm fuel regexNode with
  | None => Throw PartsOutOfFuel
  | Some regexParts => let! reports := rmap_list (check_parts fuel) regexParts in Ok (concat reports)
  end.

(** The nodes are those of the exits of the traversal. *)
Definition Program_exit (fuel : nat) (exited : list node) : result rule_error (list ComplexityReport) :=
  let! reports := rmap_list (checkRegexComplexity fuel) (omap regexNode_of exited) in Ok (concat reports).

End Rule.

(** ** The calculator computes the complexity *)

Section Refinement.

Variable getLocFromIndex : Z -> Position.
Variable regexPart : node.

Local Notation event_on := (on_event getLocFromIndex regexPart).
Local Notation inc := (increments getLocFromIndex regexPart).

Lemma add_increments_nil st : add_increments st [] = st.
Proof. unfold add_increments. destruct st as [l c comps]. cbn. by rewrite app_nil_r, Z.add_0_r. Qed.

Lemma total_app l k : total (l ++ k) = total l + total k.
Proof.
  induction l as [|i l IH]; [done |]. change (i.1 + total (l ++ k) = i.1 + total l + total k). lia.
Qed.

Lemma add_increments_app st l k : add_increments (add_increments st l) k = add_increments st (l ++ k).
Proof.
  unfold add_increments. cbn [nesting complexity components]. f_equal; [rewrite total_app; lia |].
  unfold shown. by rewrite omap_app, app_assoc.
Qed.

Lemma nested_increments by_ st l : nested by_ (add_increments st l) = add_increments (nested by_ st) l.
Proof. done. Qed.

Lemma nested_nested a b st : nested a (nested b st) = nested (b + a) st.
Proof. unfold nested. cbn. f_equal. lia. Qed.

Lemma nested_0 st : nested 0 st = st.
Proof. unfold nested. destruct st. cbn. by rewrite Z.add_0_r. Qed.

Definition then_add (r : result range_error (list located_increment)) (st : Calculator) : result range_error Calculator :=
  let! l := r in Ok (add_increments st l).

Lemma then_add_andThen a b st :
  then_add (andThen a b) st = (let! st' := then_add a st in then_add b st').
Proof.
  unfold then_add, andThen. destruct a as [x|]; [| done]. destruct b as [y|]; [| done]. cbn [rbind].
  by rewrite add_increments_app.
Qed.

Lemma increaseComplexity_eq increment n offset st :
  increaseComplexity getLocFromIndex regexPart increment n offset st =
  then_add (increment_at getLocFromIndex regexPart increment n offset) st.
Proof.
  unfold increaseComplexity, then_add, increment_at. destruct (getRegexpLocation _ _ _ _) as [loc|]; [| done].
  cbn [rbind]. unfold add_increments. cbn [total foldr fst shown omap]. rewrite Z.add_0_r. by destruct loc.
Qed.

Lemma disjunction_loop_eq l : forall increment st,
  disjunction_loop getLocFromIndex regexPart increment l st =
  match l with
  | [] => Ok st
  | a :: rest =>
      then_add (andThen (bar_at getLocFromIndex regexPart increment a)
                  (concat_results (map (bar_at getLocFromIndex regexPart 1) rest))) st
  end.
Proof.
  induction l as [|a l IH]; intros increment st; [done |]. cbn [disjunction_loop].
  rewrite then_add_andThen. unfold bar_at at 1. destruct (range_of regexPart a) as [[start end_]|]; [| done].
  cbn [rbind]. rewrite increaseComplexity_eq. destruct (then_add _ st) as [st1|]; [| done]. cbn [rbind].
  rewrite IH. destruct l as [|b l]; [cbn; by rewrite add_increments_nil | done].
Qed.

Lemma onDisjunctionEnter_eq n st :
  onDisjunctionEnter getLocFromIndex regexPart n st =
  (let! st' := then_add (bars getLocFromIndex regexPart (nesting st) n) st in
   Ok (nested match alternatives n with _ :: _ :: _ => 1 | _ => 0 end st')).
Proof.
  unfold onDisjunctionEnter, bars. destruct (alternatives n) as [|a [|b l]].
  - cbn. by rewrite add_increments_nil, nested_0.
  - cbn. by rewrite add_increments_nil, nested_0.
  - by rewrite disjunction_loop_eq.
Qed.

(** A node is entered with its own increments, at its level, and left with the level
    it had. *)
Lemma enter_eq n st :
  event_on st (Enter n) =
  (let! st' := then_add (own_increments getLocFromIndex regexPart (nesting st) n) st in
   Ok (nested (inner_level (nesting st) n - nesting st) st')).
Proof.
  assert (forall st', nested (nesting st - nesting st) st' = st') as N0 by (intros st'; by rewrite Z.sub_diag, nested_0).
  assert (forall k n', (let! st' := then_add (bars getLocFromIndex regexPart (nesting st) n') st in
    Ok (nested (nesting st + k - nesting st) st')) =
    (let! st' := then_add (bars getLocFromIndex regexPart (nesting st) n') st in Ok (nested k st'))) as Nk.
  { intros k n'. replace (nesting st + k - nesting st) with k by lia. done. }
  assert (then_add (Ok []) st = Ok st) as T0 by (unfold then_add; cbn; by rewrite add_increments_nil).
  destruct n as [| | | |i k neg l| |i mn mx g e| | | | | |]; cbn [on_event own_increments inner_level];
    try (by rewrite T0; cbn [rbind]; rewrite N0); try (by rewrite onDisjunctionEnter_eq, Nk).
  - destruct k; try (by rewrite T0; cbn [rbind]; rewrite N0).
    all: rewrite then_add_andThen; destruct (range_of _ _) as [[start end_]|]; [| done]; cbn [rbind].
    all: rewrite increaseComplexity_eq; unfold then_add at 1 2.
    all: destruct (increment_at _ _ _ _ _) as [x|]; [| done]; cbn [rbind].
    all: rewrite onDisjunctionEnter_eq; cbn [nesting nested add_increments].
    all: unfold then_add; destruct (bars _ _ _ _) as [y|]; [| done]; cbn [rbind].
    all: rewrite <- nested_increments, nested_nested; do 2 f_equal; lia.
  - destruct (range_of regexPart _) as [[start end_]|]; [| done]. cbn [rbind].
    destruct (range_of regexPart e) as [[start' end_']|]; [| done]. cbn [rbind].
    rewrite increaseComplexity_eq. by replace (nesting st + 1 - nesting st) with 1 by lia.
  - destruct (range_of _ _) as [[start end_]|]; [| done]. cbn [rbind].
    rewrite increaseComplexity_eq. by replace (nesting st + 1 - nesting st) with 1 by lia.
  - rewrite increaseComplexity_eq. destruct (then_add (increment_at _ _ _ _ _) st); [| done]. cbn [rbind]. by rewrite N0.
Qed.

Lemma leave_eq n level st : nesting st = inner_level level n ->
  event_on st (Leave n) = Ok (nested (level - inner_level level n) st).
Proof.
  intros H. destruct n as [|? l|? l|? ? l|i k neg l| |i mn mx g e| | | | | |]; cbn [on_event inner_level alternatives] in *;
    try (rewrite Z.sub_diag, nested_0; done); try (do 2 f_equal; lia);
    try (unfold onDisjunctionLeave; cbn [alternatives]; destruct l as [|? [|? ?]];
         rewrite ?Z.add_0_r, ?Z.sub_diag, ?nested_0; do 2 f_equal; lia).
  all: destruct k; cbn [on_event]; try (rewrite Z.sub_diag, nested_0; done).
  all: unfold onDisjunctionLeave; cbn [alternatives]; destruct l as [|? [|? ?]]; rewrite ?nested_nested; do 2 f_equal; lia.
Qed.

Lemma increments_eq level n :
  inc level n = andThen (own_increments getLocFromIndex regexPart level n)
                  (concat_results (map (inc (inner_level level n)) (children n))).
Proof. by destruct n. Qed.

Lemma rfold_app {E A S} (f : S -> A -> result E S) l k s :
  rfold f (l ++ k) s = (let! s' := rfold f l s in rfold f k s').
Proof.
  revert s. induction l as [|x l IH]; intros s; [done |]. cbn [app rfold]. destruct (f s x); [| done].
  cbn [rbind]. apply IH.
Qed.

Lemma visit_node_eq `{Visitor} n : forall st,
  rfold event_on (visitRegExpAST n) st = then_add (inc (nesting st) n) st.
Proof.
  induction n as [n IH] using rnode_ind. intros st. rewrite visit_in_depth, increments_eq.
  cbn [rfold]. rewrite enter_eq, then_add_andThen.
  destruct (own_increments _ _ _ _) as [own|]; [| done]. cbn [then_add rbind].
  set (st1 := nested _ (add_increments st own)).
  assert (nesting st1 = inner_level (nesting st) n) as N1 by (cbn; lia).
  assert (forall l st', (forall c, c ∈ l -> c ∈ children n) -> nesting st' = inner_level (nesting st) n ->
    rfold event_on (flat_map visitRegExpAST l) st' =
    then_add (concat_results (map (inc (inner_level (nesting st) n)) l)) st') as Hl.
  { rewrite Forall_forall in IH. intros l. induction l as [|c l IHl]; intros st' Hc Hn.
    { cbn. unfold then_add. cbn. by rewrite add_increments_nil. }
    cbn [flat_map map concat_results]. rewrite rfold_app, IH by (apply Hc; by left). rewrite Hn.
    change (then_add (let! a := ?x in let! b := ?y in Ok (a ++ b)) st') with (then_add (andThen x y) st').
    unfold then_add at 1. destruct (inc _ c) as [x|]; [| done]. cbn [rbind].
    rewrite IHl; [| intros d Hd; apply Hc; by right | done].
    unfold then_add. destruct (concat_results _) as [y|]; [| done]. cbn [rbind]. by rewrite add_increments_app. }
  rewrite rfold_app, Hl by done. unfold then_add.
  destruct (concat_results _) as [below|]; [| done]. cbn [rbind rfold].
  rewrite (leave_eq n (nesting st)) by done. cbn [rbind]. do 2 f_equal.
  unfold st1. rewrite <- nested_increments, nested_nested, nested_increments, add_increments_app.
  rewrite <- nested_increments.
  replace (_ + _) with 0 by lia. by rewrite nested_0, add_increments_app.
Qed.

(** The calculator of S5843, a visitor with a nesting level that its handlers raise
    and lower, computes the complexity defined by recursion on the expression: the
    sum of the increments of the nodes at their levels, shown in order; and it fails
    when a position cannot be found, at the same node. *)
Theorem regex_complexity_is_compositional `{Visitor} regexPartAST :
  visit getLocFromIndex regexPart regexPartAST =
  match regexPartAST with
  | None => Ok new_calculator
  | Some ast => let! l := inc 1 ast in Ok (mkCalculator 1 (total l) (shown l))
  end.
Proof. destruct regexPartAST as [ast|]; [| done]. cbn [visit]. apply visit_node_eq. Qed.

End Refinement.

(** ** The search of the parts ends *)

Section Termination.

Variable sm : ScopeManager.

Lemma first_argument_size n a : first_argument n = Some a -> (node_size a < node_size n)%nat.
Proof.
  unfold first_argument, get_array. pose proof (get_size n "arguments") as S.
  destruct (get n "arguments") as [| | | | | | | |[|v vs]|]; try done. destruct v; try done. intros [= ->].
  eapply Nat.le_lt_trans; [| apply S]. change (node_size a) with (value_size (VNode a)).
  apply value_size_arr. by left.
Qed.

(** The nodes that the search may reach, and their size. *)
Variable reachable : list node.
Variable bound : nat.
Hypothesis arguments_reachable : forall n a, n ∈ reachable -> first_argument n = Some a -> a ∈ reachable.
Hypothesis operands_reachable : forall n k c, n ∈ reachable -> k = "left" \/ k = "right" ->
  get_node n k = Some c -> c ∈ reachable.
Hypothesis initializers_reachable : forall n i, n ∈ reachable ->
  getUniqueWriteUsage sm (node_name n) n = Some i -> i ∈ reachable.
Hypothesis sizes_bounded : forall n, n ∈ reachable -> (node_size n <= bound)%nat.

Open Scope nat_scope.

Definition unhandled (st : Finder) : nat := length (List.filter (fun u => negb (is_handled u st)) reachable).

Definition handles_more (st st' : Finder) : Prop := forall u, is_handled u st = true -> is_handled u st' = true.

#[local] Instance handles_more_preorder : PreOrder handles_more.
Proof. split; [by intros ? ? | intros ? ? ? H1 H2 u Hu; auto]. Qed.

Lemma filter_length_mono {A} (f g : A -> bool) l : (forall x, f x = true -> g x = true) ->
  length (List.filter f l) <= length (List.filter g l).
Proof.
  intros H. induction l as [|x l IH]; [done |]. cbn [List.filter]. specialize (H x).
  destruct (f x); [rewrite H by done; cbn; lia |]. destruct (g x); cbn; lia.
Qed.

Lemma unhandled_mono st st' : handles_more st st' -> unhandled st' <= unhandled st.
Proof.
  intros H. apply filter_length_mono. intros u. specialize (H u). destruct (is_handled u st); [by rewrite H | done].
Qed.

Lemma same_node_refl n : same_node n n = true.
Proof. apply Nat.eqb_refl. Qed.

Lemma unhandled_less n st ps : n ∈ reachable -> is_handled n st = false ->
  unhandled (mkFinder ps (handledIdentifiers st ++ [n])) < unhandled st.
Proof.
  unfold unhandled. intros Hn E. revert Hn.
  assert (forall u, is_handled u (mkFinder ps (handledIdentifiers st ++ [n])) = is_handled u st || same_node u n) as Hu.
  { intros u. unfold is_handled. cbn [handledIdentifiers]. rewrite existsb_app. cbn. by rewrite orb_false_r. }
  clear -Hu E. induction reachable as [|v l IH]; intros Hn; [by apply not_elem_of_nil in Hn |]. cbn [List.filter].
  assert (length (List.filter (fun u => negb (is_handled u (mkFinder ps (handledIdentifiers st ++ [n])))) l) <=
    length (List.filter (fun u => negb (is_handled u st)) l)) as Hl.
  { apply filter_length_mono. intros u. rewrite Hu. by destruct (is_handled u st). }
  rewrite Hu. apply elem_of_cons in Hn as [<-|Hn].
  - rewrite E, same_node_refl. cbn [orb negb length]. lia.
  - specialize (IH Hn). destruct (is_handled v st); cbn [orb negb]; [done |].
    destruct (same_node v n); cbn [negb length]; lia.
Qed.

(** What is left to do: the identifiers that are not handled, then the sizes. *)
Definition rank (st : Finder) (extra : nat) (n : node) : nat :=
  unhandled st * (3 * bound + 3) + 3 * node_size n + extra.

Lemma rank_mono st st' extra n : handles_more st st' -> rank st' extra n <= rank st extra n.
Proof. intros H%unhandled_mono. unfold rank. nia. Qed.

Ltac ends_here := eexists; split; [reflexivity | first [by intros ? | done]].

Lemma find_ends fuel :
  (forall n st, n ∈ reachable -> rank st 1 n < fuel ->
     exists st', find sm fuel n st = Some st' /\ handles_more st st') /\
  (forall n st, n ∈ reachable -> rank st.1 0 n < fuel ->
     exists st', find_operands sm fuel n st = Some st' /\ handles_more st.1 st'.1) /\
  (forall n st, n ∈ reachable -> rank st.1 2 n < fuel ->
     exists st', findInStringConcatenation sm fuel n st = Some st' /\ handles_more st.1 st'.1).
Proof.
  induction fuel as [|fuel (IHf & IHo & IHc)]; [split_and!; intros; lia |]. split_and!; intros n st Hn R.
  - cbn [find]. destruct (isRegExpConstructor n).
    { destruct (first_argument n) as [a|] eqn:Ea; [| ends_here]. apply IHf; [by eapply arguments_reachable |].
      apply first_argument_size in Ea. unfold rank in *. lia. }
    destruct (isRegexLiteral n); [ends_here |]. destruct (isStringLiteral n); [ends_here |].
    destruct (isStaticTemplateLiteral n); [ends_here |]. destruct (type_of n =s "Identifier").
    { destruct (is_handled n st) eqn:Eh; [ends_here |].
      pose proof (unhandled_less n st (parts st) Hn Eh) as L.
      assert (handles_more st (mkFinder (parts st) (handledIdentifiers st ++ [n]))) as Hm.
      { intros u Hu. unfold is_handled in *. cbn [handledIdentifiers]. by rewrite existsb_app, Hu. }
      destruct (getUniqueWriteUsage sm (node_name n) n) as [i|] eqn:Ei; [| ends_here].
      pose proof (initializers_reachable _ _ Hn Ei) as Hi. pose proof (sizes_bounded _ Hi) as Si.
      destruct (IHf i (mkFinder (parts st) (handledIdentifiers st ++ [n])) Hi) as (st' & E & H'); [unfold rank in *; nia |].
      exists st'. split; [done |]. by transitivity (mkFinder (parts st) (handledIdentifiers st ++ [n])). }
    destruct (isBinaryPlus n); [| ends_here].
    destruct (IHo n (st, []) Hn) as ([st' literals] & -> & H'); [cbn; unfold rank in *; lia |].
    destruct literals; ends_here.
  - cbn [find_operands]. destruct (get_node n "left") as [l|] eqn:El; [| ends_here].
    destruct (get_node n "right") as [r|] eqn:Er; [| ends_here].
    pose proof (operands_reachable _ _ _ Hn (or_introl eq_refl) El) as Hl.
    pose proof (operands_reachable _ _ _ Hn (or_intror eq_refl) Er) as Hr.
    apply get_node_size in El, Er. destruct (IHc l st Hl) as (st1 & -> & H1); [unfold rank in *; lia |].
    destruct (IHc r st1 Hr) as (st2 & -> & H2).
    { pose proof (rank_mono _ _ 2 r H1). unfold rank in *. lia. }
    exists st2. split; [done |]. by transitivity st1.1.
  - cbn [findInStringConcatenation]. destruct (isStringLiteral n); [ends_here |].
    destruct (isBinaryPlus n); [apply IHo; [done | unfold rank in *; lia] |].
    destruct (IHf n st.1 Hn) as (st' & -> & H'); [unfold rank in *; lia |]. ends_here.
Qed.

(** The search of the parts of an expression ends on every program, also when
    variables are written with one another: with a fuel for the identifiers and
    the sizes of the nodes that can be reached, it gives its parts. *)
Theorem parts_are_found n : n ∈ reachable ->
  exists regexParts, findRegexParts sm (length reachable * (3 * bound + 3) + 3 * bound + 2) n = Some regexParts.
Proof.
  intros Hn. unfold findRegexParts. pose proof (sizes_bounded _ Hn) as S.
  destruct (proj1 (find_ends (length reachable * (3 * bound + 3) + 3 * bound + 2)) n new_finder Hn) as (st' & -> & _).
  - unfold rank, unhandled. pose proof (List.filter_length_le (fun u => negb (is_handled u new_finder)) reachable). nia.
  - by eexists.
Qed.

End Termination.

(** ** Examples *)

Section Examples.

Definition at_text (i j : nat) : RegexNode := mkRegexNode i j "".
Definition seq_of (i j : nat) (l : list rnode) : rnode := Alternative (at_text i j) l.

(** [/(a|b)+\1/] *)
Definition example_regex : rnode :=
  RegExpLiteral (at_text 0 10) (mkFlags false false false false)
    (Pattern (at_text 1 9)
       [seq_of 1 9
          [Quantifier (at_text 1 7) 1 None true
             (CapturingGroup (at_text 1 6) None
                [seq_of 2 3 [Character (at_text 2 3) 97]; seq_of 4 5 [Character (at_text 4 5) 98]]);
           Backreference (at_text 7 9)]]).

Definition example_literal : node :=
  Node (mkHeader 1 "Literal" None (Some (100, 110))) [("value", VRegExp "(a|b)+\1" "")].

Definition position_of (i : Z) : Position := mkPos 1 i.

(** The quantifier costs one, the bar two as it is nested, the reference one. *)
Example example_complexity :
  visit position_of example_literal (Some example_regex) =
  Ok (mkCalculator 1 4
        [mkComponent (mkLoc (mkPos 1 106) (mkPos 1 107)) "+1";
         mkComponent (mkLoc (mkPos 1 103) (mkPos 1 104)) "+2 (incl 1 for nesting)";
         mkComponent (mkLoc (mkPos 1 107) (mkPos 1 109)) "+1"]).
Proof. vm_compute. reflexivity. Qed.

(** With [var a = b, b = a;], the search ends where the search of patterns does not. *)
Import AstExample.

Definition copy_nodes : list node := [ident 5 "a"; ident 1 "b"; ident 2 "a"].

Example parts_are_found_witness :
  exists regexParts, findRegexParts copies (3 * (3 * 10 + 3) + 3 * 10 + 2)%nat (ident 5 "a") = Some regexParts.
Proof.
  assert (forall P : node -> Prop, Forall P copy_nodes -> forall n, n ∈ copy_nodes -> P n) as F
    by (intros P H; by apply Forall_forall).
  apply (parts_are_found copies copy_nodes 10).
  - intros n a Hn. revert n Hn a. refine (F _ _). repeat first [apply Forall_nil_2 | apply Forall_cons_2]; by intros ? ?.
  - intros n k c Hn. revert n Hn k c. refine (F _ _).
    repeat first [apply Forall_nil_2 | apply Forall_cons_2]; by intros ? ? [-> | ->].
  - intros n i Hn. revert n Hn i. refine (F _ _).
    repeat first [apply Forall_nil_2 | apply Forall_cons_2]; intros ? [= <-]; unfold copy_nodes;
      repeat first [by apply list_elem_of_here | apply list_elem_of_further].
  - refine (F _ _). repeat first [apply Forall_nil_2 | apply Forall_cons_2]; vm_compute; lia.
  - by apply list_elem_of_here.
Defined.

(** The parts of a concatenation of two texts and a variable. *)
Definition text_node (i : nat) (text : string) : node :=
  mk i "Literal" [("value", VStr text); ("raw", VStr text)].

Definition plus (i : nat) (l r : node) : node :=
  mk i "BinaryExpression" [("operator", VStr "+"); ("left", VNode l); ("right", VNode r)].

Example concatenation_parts :
  findRegexParts copies 20 (plus 30 (plus 31 (text_node 32 "a") (ident 5 "a")) (text_node 33 "c")) =
  Some [[text_node 32 "a"; text_node 33 "c"]].
Proof. vm_compute. reflexivity. Qed.

End Examples.
