(* ===== verification/Decorators.v ===== *)
(** * Decorators: merging rules and intercepting their reports

    The code of [rules/helpers/decorators]: [mergeRules], which makes one rule of
    several by calling their listeners in turn, and [interceptReport], which gives
    a rule another [report]. Listeners act on one store. *)

From Stdlib Require Import ZArith Lia.
From stdpp Require Import base list sets strings.
From S2P Require Import Prelude Estree.

Open Scope js_scope.

(** ** [merger.ts] *)

Section Merge.

(** The store that listeners read and write: the variables of the rules and the reports. *)
Context {S : Type}.

Definition Listener := node -> S -> S.

(** [Rule.RuleListener]: a listener for some selectors, which are different keys of an object. *)
Definition RuleListener := list (string * Listener).

(** [Object.assign(\{\}, ...rules)]: the selectors of the rules, in order. *)
Definition merged_keys (rules : list RuleListener) : list string :=
  set_add_all [] (flat_map (fun rule => rule.*1) rules).

Definition mergeListeners (listeners : list (option Listener)) : Listener :=
  fun n s => fold_left (fun s listener => match listener with Some f => f n s | None => s end) listeners s.

Definition mergeRules (rules : list RuleListener) : RuleListener :=
  map (fun listener => (listener, mergeListeners (map (map_get listener) rules))) (merged_keys rules).

(** What ESLint does when a node matches a selector of the rule. *)
Definition dispatch (rule : RuleListener) (e : string * node) (s : S) : S :=
  match map_get e.1 rule with Some f => f e.2 s | None => s end.

Definition run (rule : RuleListener) (events : list (string * node)) (s : S) : S :=
  fold_left (fun s e => dispatch rule e s) events s.

End Merge.

Arguments Listener S : clear implicits.
Arguments RuleListener S : clear implicits.

(** ** [interceptor.ts] *)

(** An argument of [context.report]: a descriptor, a node, a text, or something else. *)
Inductive argument {D : Type} :=
| ADescriptor (d : D)
| ANode (n : node)
| AText (s : string)
| AOther.
Arguments argument : clear implicits.

Section Intercept.

(** The store, the descriptors, and what contexts have besides [report]. *)
Context {S D C : Type}.
(** [\{ node, message \}] *)
Variable node_descriptor : node -> string -> D.

Record Context_ := mkContext { report : list (argument D) -> S -> S; other_members : C }.

Record RuleModule := mkRule { create : Context_ -> RuleListener S }.

Definition ReportOverrider := Context_ -> D -> S -> S.
Definition ContextOverrider := Context_ -> ReportOverrider -> Context_.

(** The descriptor of a call of [report]: of one argument, or of a node and a message. *)
Definition descriptor_of (args : list (argument D)) : option D :=
  match args with
  | [ADescriptor d] => Some d
  | [ANode n; AText message] => Some (node_descriptor n message)
  | _ => None
  end.

Definition default_overrider (originalContext : Context_) (onReport : ReportOverrider) : Context_ :=
  mkContext (fun args s =>
    match descriptor_of args with Some descr => onReport originalContext descr s | None => s end)
    (other_members originalContext).

Definition interceptReport (rule : RuleModule) (onReport : ReportOverrider)
    (contextOverrider : option ContextOverrider) : RuleModule :=
  mkRule (fun originalContext =>
    create rule
      match contextOverrider with
      | None => default_overrider originalContext onReport
      | Some f => f originalContext onReport
      end).

(** The reports of React rules have one descriptor; what follows it is dropped. *)
Definition contextOverriderForReact (context : Context_) (onReport : ReportOverrider) : Context_ :=
  mkContext (fun args s =>
    match args with ADescriptor descr :: _ => onReport context descr s | _ => s end)
    (other_members context).

Definition interceptReportForReact (rule : RuleModule) (onReport : ReportOverrider) : RuleModule :=
  interceptReport rule onReport (Some contextOverriderForReact).

End Intercept.

Arguments Context_ S D C : clear implicits.
Arguments RuleModule S D C : clear implicits.
Arguments ReportOverrider S D C : clear implicits.

(** ** A merged rule is its rules in turn *)

Section Merged.

Context {S : Type}.
Implicit Types (rules : list (RuleListener S)) (s : S).

Lemma map_get_by_key {V} (f : string -> V) keys key :
  map_get key (map (fun k => (k, f k)) keys) = if bool_decide (key ∈ keys) then Some (f key) else None.
Proof.
  induction keys as [|k keys IH]; [done |]. cbn [map map_get]. destruct (decide (key = k)) as [->|N].
  - by rewrite bool_decide_true by (by left).
  - rewrite IH. apply (f_equal (fun b : bool => if b then _ else _)).
    apply bool_decide_ext. rewrite elem_of_cons. naive_solver.
Qed.

Lemma merged_keys_spec rules key : key ∈ merged_keys rules <-> exists rule, rule ∈ rules /\ key ∈ rule.*1.
Proof.
  unfold merged_keys. rewrite elem_of_set_add_all, elem_of_nil, (list_elem_of_In (flat_map _ _)), in_flat_map.
  setoid_rewrite <- list_elem_of_In. tauto.
Qed.

Lemma no_listener rules key n s : (forall rule, rule ∈ rules -> key ∉ rule.*1) ->
  fold_left (fun s rule => dispatch rule (key, n) s) rules s = s.
Proof.
  induction rules as [|rule rules IH]; intros H; [done |]. cbn [fold_left].
  unfold dispatch at 2. cbn [fst]. rewrite (proj2 (map_get_None key rule)) by (apply H; by left).
  apply IH. intros r Hr. apply H. by right.
Qed.

(** The merged rule answers an event as the rules do one after the other. *)
Lemma dispatch_merged rules e s :
  dispatch (mergeRules rules) e s = fold_left (fun s rule => dispatch rule e s) rules s.
Proof.
  destruct e as [key n]. unfold dispatch at 1, mergeRules. cbn [fst snd].
  rewrite (map_get_by_key (fun k => mergeListeners (map (map_get k) rules))).
  destruct (bool_decide _) eqn:E.
  - unfold mergeListeners. clear E. revert s. induction rules as [|rule rules IH]; intros s; [done |].
    cbn [map fold_left]. rewrite IH. done.
  - symmetry. apply no_listener. intros rule Hr Hk. apply bool_decide_eq_false in E. apply E.
    apply merged_keys_spec. by exists rule.
Qed.

(** Rules that have each a part of the store: a listener of the rule [i] changes the
    part [i] only, and what it does to it depends on this part only. *)
Context {T : Type} (part : nat -> S -> T).

Definition owns (i : nat) (rule : RuleListener S) : Prop :=
  forall key f, map_get key rule = Some f ->
  (forall j n s, j <> i -> part j (f n s) = part j s) /\
  (forall n s s', part i s = part i s' -> part i (f n s) = part i (f n s')).

Lemma owns_dispatch i rule e s s' : owns i rule -> part i s = part i s' ->
  part i (dispatch rule e s) = part i (dispatch rule e s').
Proof. intros O P. unfold dispatch. destruct (map_get e.1 rule) as [f|] eqn:E; [| done]. by apply (O _ _ E). Qed.

Lemma owns_elsewhere i j rule e s : owns i rule -> j <> i -> part j (dispatch rule e s) = part j s.
Proof. intros O N. unfold dispatch. destruct (map_get e.1 rule) as [f|] eqn:E; [| done]. by apply (O _ _ E). Qed.

Lemma dispatch_in_turn rules : forall k, (forall i rule, rules !! i = Some rule -> owns (k + i) rule) ->
  forall i rule e s, rules !! i = Some rule ->
  part (k + i) (fold_left (fun s rule => dispatch rule e s) rules s) = part (k + i) (dispatch rule e s).
Proof.
  induction rules as [|r rules IH]; intros k O i rule e s L; [done |]. cbn [fold_left].
  assert (forall j, j < k \/ j = k -> forall l s, (forall i rule, l !! i = Some rule -> owns (Datatypes.S k + i) rule) ->
    part j (fold_left (fun s rule => dispatch rule e s) l s) = part j s)%nat as Away.
  { clear. intros j Hj l. revert k Hj. induction l as [|r l IH]; intros k Hj s O; [done |]. cbn [fold_left].
    rewrite (IH (Datatypes.S k)); [| lia | intros i rule L; replace (Datatypes.S (Datatypes.S k) + i)%nat
      with (Datatypes.S k + Datatypes.S i)%nat by lia; by apply O].
    apply (owns_elsewhere (Datatypes.S k)); [| lia]. replace (Datatypes.S k) with (Datatypes.S k + 0)%nat by lia. by apply O. }
  assert (forall i rule, rules !! i = Some rule -> owns (Datatypes.S k + i) rule) as O'.
  { intros i' r' L'. replace (Datatypes.S k + i')%nat with (k + Datatypes.S i')%nat by lia. by apply O. }
  destruct i as [|i].
  - injection L as <-. rewrite Nat.add_0_r. by apply Away; [right |].
  - cbn in L. replace (k + Datatypes.S i)%nat with (Datatypes.S k + i)%nat by lia. rewrite (IH _ O' i rule) by done.
    apply owns_dispatch; [by apply O' |]. apply (owns_elsewhere k); [| lia].
    replace k with (k + 0)%nat by lia. by apply O.
Qed.

(** A merged rule answers each event as its rules do one after the other, in
    their order, and when each rule has its own part of the store, the part of
    a rule is at the end what it would be if the rule was alone. *)
Theorem merged_rules_run_in_turn rules events s :
  run (mergeRules rules) events s =
    fold_left (fun s e => fold_left (fun s rule => dispatch rule e s) rules s) events s /\
  ((forall i rule, rules !! i = Some rule -> owns i rule) ->
   forall i rule, rules !! i = Some rule -> part i (run (mergeRules rules) events s) = part i (run rule events s)).
Proof.
  assert (forall s, run (mergeRules rules) events s =
    fold_left (fun s e => fold_left (fun s rule => dispatch rule e s) rules s) events s) as E.
  { unfold run. intros s0. revert s0. induction events as [|e events IH]; intros s0; [done |].
    cbn [fold_left]. by rewrite dispatch_merged, IH. }
  split; [apply E |]. intros O i rule L. rewrite E. unfold run.
  assert (forall s1 s2, part i s1 = part i s2 ->
    part i (fold_left (fun s e => fold_left (fun s rule => dispatch rule e s) rules s) events s1) =
    part i (fold_left (fun s e => dispatch rule e s) events s2)) as H; [| by apply H].
  clear s E. induction events as [|e events IH]; intros s1 s2 P; [done |]. cbn [fold_left]. apply IH.
  rewrite (dispatch_in_turn rules 0 O i rule e s1 L : part i _ = part i _). apply owns_dispatch; [by apply O | done].
Qed.

End Merged.
