(* ===== verification/Accessors.v ===== *)
(** * Accessors: getters and setters refer to their fields (rule S4275)

    The code of [rules/S4275/rule.ts]: the fields of classes and objects on a stack,
    the accessors of classes, objects and property descriptors, and the merge with
    ESLint's rule getter-return, whose reports are a parameter. Names are ASCII. *)

From Stdlib Require Import ZArith Lia.
From stdpp Require Import base list sets strings.
From S2P Require Import Prelude JsString Json Estree Ast.

Open Scope js_scope.

Inductive accessor_type := getter | setter.
Inductive accessor_definition := in_class | in_object | in_descriptor.

Record Field := mkField { f_name : string; f_node : node }.

(** [Map<string, Field>] *)
Definition FieldMap := list (string * Field).

Record AccessorInfo := mkInfo {
  a_name : string;
  a_type : accessor_type;
  definition : accessor_definition;
  refResolver : option node -> option string
}.

Record Accessor := mkAccessor {
  info : AccessorInfo;
  statement : option node;
  matchingFields : list Field;
  a_node : node
}.

Definition isAccessorNode (n : node) : bool :=
  (type_of n =s "Property") || (type_of n =s "MethodDefinition").

Section Rule.

Variable sm : ScopeManager.
(** [node.parent] *)
Variable parent : node -> option node.
(** [String(value)] of a number *)
Variable number_text : jsnum -> string.

(** [String(value)] of the value of a literal. *)
Definition value_text (v : value) : string :=
  match v with
  | VStr s => s
  | VNum n => number_text n
  | VBool b => if b then "true" else "false"
  | VBigInt z => print_int z
  | VRegExp pattern flags => ("/" +:+ pattern +:+ "/" +:+ flags)%string
  | VUndefined => "undefined"
  | _ => "null"
  end.

Definition getName (key : node) : option string :=
  if type_of key =s "Literal" then Some (value_text (get key "value"))
  else if (type_of key =s "Identifier") || (type_of key =s "PrivateIdentifier") then get_str key "name"
  else None.

(** A name that is not empty, of a key that is a node. *)
Definition name_of (key : option node) : option string :=
  match key with
  | Some k => match getName k with Some "" => None | r => r end
  | None => None
  end.

(** ** Fields *)

Definition getFieldMap (elements : list node) (getPropertyName : node -> option node) : FieldMap :=
  fold_left (fun fields element =>
    match name_of (getPropertyName element) with
    | Some name => map_set (toLowerCase_ascii name) (mkField name element) fields
    | None => fields
    end) elements [].

Definition isValidObjectField (prop : node) : bool :=
  (type_of prop =s "Property") && negb (truthy (get prop "method")) && str_prop_is prop "kind" "init".

Definition getObjectExpressionFieldMap (n : node) : FieldMap :=
  getFieldMap (get_nodes n "properties") (fun prop => if isValidObjectField prop then get_node prop "key" else None).

Definition getConstructorOf (containingClass : node) : option node :=
  match List.find (fun e => (type_of e =s "MethodDefinition")
      && match get_node e "key" with
         | Some k => match getName k with Some name => name =s "constructor" | None => false end
         | None => false
         end) (get_nodes containingClass "body") with
  | Some e => get_node e "value"
  | None => None
  end.

(** The names are not put in lower case here. *)
Definition fieldsDeclaredInConstructorParameters (containingClass : node) : FieldMap :=
  match getConstructorOf containingClass with
  | None => []
  | Some constr =>
      fold_left (fun fields parameter =>
        if (type_of parameter =s "TSParameterProperty")
           && (truthy (get parameter "accessibility") || truthy (get parameter "readonly"))
        then match name_of (get_node parameter "parameter") with
             | Some parameterName => map_set parameterName (mkField parameterName parameter) fields
             | None => fields
             end
        else fields) (get_nodes constr "params") []
  end.

Definition getClassBodyFieldMap (classBody : node) : FieldMap :=
  let fields :=
    getFieldMap (get_nodes classBody "body") (fun classElement =>
      if ((type_of classElement =s "PropertyDefinition") || (type_of classElement =s "TSAbstractPropertyDefinition"))
         && negb (truthy (get classElement "static"))
      then get_node classElement "key" else None) in
  fold_left (fun fields '(name, field) => map_set name field fields)
    (fieldsDeclaredInConstructorParameters classBody) fields.

(** The variable with the name, or the name with an underscore, that is defined. *)
Definition getSingleVariableFieldMap (name : string) (n : node) : FieldMap :=
  let candidate_field (candidate : string) : option Field :=
    match getVariableFromName sm candidate n with
    | Some v =>
        match variable_at sm v with
        | Some variable =>
            match var_defs variable with d :: _ => Some (mkField candidate (def_node d)) | [] => None end
        | None => None
        end
    | None => None
    end in
  foldr (fun candidate rest =>
    match candidate_field candidate with Some f => [(candidate, f)] | None => rest end) []
    [name; "_" +:+ name; name +:+ "_"]%string.

Definition findMatchingFields (currentFields : FieldMap) (name : string) : list Field :=
  omap (fun k => map_get k currentFields) [name; "_" +:+ name; name +:+ "_"]%string.

(** ** Accessors *)

Definition getPropertyName (expression : option node) : option string :=
  match expression with
  | Some e =>
      if (type_of e =s "MemberExpression") && opt_type_is (get_node e "object") "ThisExpression"
      then match get_node e "property" with Some p => getName p | None => None end
      else None
  | None => None
  end.

Definition getIdentifierName (expression : option node) : option string :=
  match expression with
  | Some e => if type_of e =s "Identifier" then get_str e "name" else None
  | None => None
  end.

Definition is_kind (n : node) (kind : string) : bool := str_prop_is n "kind" kind.

(** [node.params.length] of a function *)
Definition params_count (n : node) : nat := length (get_array n "params").

(** The rest of a name after a prefix of three characters, when there is one. *)
Definition after_prefix (prefix name : string) : option string :=
  match strip_prefix prefix name with Some "" => None | r => r end.

Definition getObjectOrClassAccessorInfo (accessor : node) : option AccessorInfo :=
  match name_of (get_node accessor "key") with
  | None => None
  | Some name =>
      let name := toLowerCase_ascii name in
      let type :=
        if is_kind accessor "get" then Some (getter, name)
        else if is_kind accessor "set" then Some (setter, name)
        else
          match get_node accessor "value" with
          | Some f =>
              if type_of f =s "FunctionExpression" then
                match after_prefix "set" name, after_prefix "get" name with
                | Some rest, _ => if Nat.eqb (params_count f) 1 then Some (setter, rest) else None
                | None, Some rest => if Nat.eqb (params_count f) 0 then Some (getter, rest) else None
                | None, None => None
                end
              else None
          | None => None
          end in
      match type with
      | Some (type, name) =>
          Some (mkInfo name type (if type_of accessor =s "Property" then in_object else in_class) getPropertyName)
      | None => None
      end
  end.

Definition getDescriptorAccessorInfo (name : string) (accessor : node) : option AccessorInfo :=
  match get_node accessor "key" with
  | Some k =>
      match getName k with
      | Some key => Some (mkInfo name (if key =s "get" then getter else setter) in_descriptor getIdentifierName)
      | None => None
      end
  | None => None
  end.

Definition up (n : option node) : option node := match n with Some n => parent n | None => None end.

Definition findParentCallExpression (n : node) : option node :=
  let candidate := up (parent n) in
  List.find (fun n => type_of n =s "CallExpression")
    (omap (fun o => o) [candidate; up (up candidate)]).

Definition isPropertyDefinitionCall (call : option node) : bool :=
  match call with
  | Some c => existsb (fun object => isMethodInvocation c object "defineProperty" 3) ["Object"; "Reflect"]
  | None => false
  end.

Definition isPropertiesDefinitionCall (call : option node) : bool :=
  match call with
  | Some c => existsb (fun methodName => isMethodInvocation c "Object" methodName 2) ["defineProperties"; "create"]
  | None => false
  end.

Definition second_argument (call : option node) : option node :=
  match call with
  | Some c => match get_array c "arguments" with _ :: VNode a :: _ => Some a | _ => None end
  | None => None
  end.

Definition getSingleDescriptorAccessorInfo (accessorNode : node) : option AccessorInfo :=
  let callNode := findParentCallExpression accessorNode in
  match second_argument callNode with
  | Some propertyNode =>
      if isPropertyDefinitionCall callNode && isStringLiteral propertyNode
      then getDescriptorAccessorInfo (value_text (get propertyNode "value")) accessorNode else None
  | None => None
  end.

Definition getMultiDescriptorsAccessorInfo (accessorNode : node) : option AccessorInfo :=
  let callNode := findParentCallExpression accessorNode in
  match up (parent accessorNode) with
  | Some propertyNode =>
      if isPropertiesDefinitionCall callNode && (type_of propertyNode =s "Property") then
        match name_of (get_node propertyNode "key") with
        | Some propertyName => getDescriptorAccessorInfo propertyName accessorNode
        | None => None
        end
      else None
  | None => None
  end.

Definition orElse {A} (a b : option A) : option A := match a with Some _ => a | None => b end.

Definition getNodeAccessorInfo (accessorNode : node) : option AccessorInfo :=
  if type_of accessorNode =s "MethodDefinition" then getObjectOrClassAccessorInfo accessorNode
  else orElse (getMultiDescriptorsAccessorInfo accessorNode)
         (orElse (getSingleDescriptorAccessorInfo accessorNode) (getObjectOrClassAccessorInfo accessorNode)).

(** The statements of a function with a body. *)
Definition getFunctionBody (n : option node) : option (list node) :=
  match n with
  | Some f =>
      if type_of f =s "FunctionExpression" then
        match get_node f "body" with Some b => Some (get_nodes b "body") | None => None end
      else None
  | None => None
  end.

Definition accessorIsPublic (accessor : node) : bool :=
  negb (type_of accessor =s "MethodDefinition")
  || match get accessor "accessibility" with VUndefined | VNull => true | VStr s => s =s "public" | _ => false end.

Definition getAccessor (accessor : node) (fieldMap : option FieldMap) (info : AccessorInfo) : option Accessor :=
  match fieldMap, getFunctionBody (get_node accessor "value") with
  | Some fieldMap, Some statements =>
      if negb (accessorIsPublic accessor) || Nat.ltb 1 (length statements) then None
      else
        match findMatchingFields fieldMap (a_name info) with
        | [] => None
        | matchingFields => Some (mkAccessor info (head statements) matchingFields accessor)
        end
  | _, _ => None
  end.

(** ** Checks *)

Definition getFieldUsedInsideSimpleBody (statement : node) (accessorInfo : AccessorInfo) : option string :=
  match a_type accessorInfo with
  | setter =>
      if type_of statement =s "ExpressionStatement" then
        match get_node statement "expression" with
        | Some e => if type_of e =s "AssignmentExpression" then refResolver accessorInfo (get_node e "left") else None
        | None => None
        end
      else None
  | getter =>
      if type_of statement =s "ReturnStatement" then refResolver accessorInfo (get_node statement "argument") else None
  end.

Definition isUsingAccessorFieldInBody (accessor : Accessor) : bool :=
  match statement accessor with
  | None => false
  | Some s =>
      match getFieldUsedInsideSimpleBody s (info accessor) with
      | None | Some "" => true
      | Some usedField => existsb (fun matchingField => usedField =s f_name matchingField) (matchingFields accessor)
      end
  end.

Definition isReportedByGetterReturnDecorator (accessor : Accessor) : bool :=
  let emptyGetter :=
    match a_type (info accessor), statement accessor with getter, None => true | _, _ => false end in
  emptyGetter && (match definition (info accessor) with in_descriptor => true | _ => false end
                  || is_kind (a_node accessor) "get").

(** A report: the accessor whose key it is on and the field it is to refer to, or a
    converted message of getter-return. *)
Inductive Report :=
| Mismatch (accessor : node) (type : accessor_type) (isVariable : bool) (field : Field)
| GetterReturn (reported : node) (message : string).

Definition reportWithSecondaryLocation (accessor : Accessor) : list Report :=
  match matchingFields accessor with
  | fieldToRefer :: _ =>
      [Mismatch (a_node accessor) (a_type (info accessor))
         (match definition (info accessor) with in_descriptor => true | _ => false end) fieldToRefer]
  | [] => []
  end.

Definition checkAccessorNode (n : node) (fieldMap : option FieldMap) (info : AccessorInfo) : list Report :=
  match getAccessor n fieldMap info with
  | None => []
  | Some accessor =>
      if isReportedByGetterReturnDecorator accessor || isUsingAccessorFieldInBody accessor then []
      else reportWithSecondaryLocation accessor
  end.

Definition getNodeFieldMap (n : option node) (info : AccessorInfo) : option FieldMap :=
  match definition info, n with
  | in_descriptor, Some n => Some (getSingleVariableFieldMap (a_name info) n)
  | _, Some n =>
      if type_of n =s "ObjectExpression" then Some (getObjectExpressionFieldMap n)
      else if type_of n =s "ClassBody" then Some (getClassBodyFieldMap n) else None
  | _, None => None
  end.

(** The report on the field of an accessor, [None] when there is none. *)
Definition reportWithFieldLocation (n : option node) : option (list Report) :=
  match n with
  | None => None
  | Some n =>
      if isAccessorNode n then
        match getNodeAccessorInfo n with
        | None => None
        | Some info =>
            match getAccessor n (getNodeFieldMap (parent n) info) info with
            | None => None
            | Some accessor => Some (reportWithSecondaryLocation accessor)
            end
        end
      else None
  end.

(** The decorator of getter-return, for a report on a node with a message. *)
Definition decorateGetterReturn (n : node) (messageId : string) : list Report :=
  match reportWithFieldLocation (parent n) with
  | Some reports => reports
  | None =>
      if messageId =s "expected" then [GetterReturn n "Refactor this getter to return a value."]
      else if messageId =s "expectedAlways" then [GetterReturn n "Refactor this getter to always return a value."]
      else []
  end.

(** ** The listeners *)

Definition get_or_set_function (n : node) : bool :=
  (type_of n =s "Property")
  && opt_type_is (get_node n "value") "FunctionExpression"
  && match get_node n "key" with
     | Some k => match get k "name" with VStr s => (s =s "get") || (s =s "set") | _ => false end
     | None => false
     end.

(** [CallExpression > ObjectExpression:nth-child(i + 1)] *)
Definition object_argument (i : nat) (n : option node) : option node :=
  match n with
  | Some o =>
      if type_of o =s "ObjectExpression" then
        match parent o with
        | Some call =>
            if (type_of call =s "CallExpression")
               && match get_array call "arguments" !! i with Some (VNode a) => same_node a o | _ => false end
            then Some call else None
        | None => None
        end
      else None
  | None => None
  end.

Definition singleDescriptorAccessorSelector (n : node) : bool :=
  get_or_set_function n
  && match object_argument 2 (parent n) with
     | Some call => opt_type_is (second_argument (Some call)) "Literal"
     | None => false
     end.

Definition multiDescriptorsAccessorSelector (n : node) : bool :=
  get_or_set_function n
  && opt_type_is (parent n) "ObjectExpression"
  && match up (parent n) with
     | Some p =>
         (type_of p =s "Property")
         && match get_node p "key" with
            | Some k => (type_of k =s "Identifier") || (type_of k =s "Literal")
            | None => false
            end
         && bool_decide (is_Some (object_argument 1 (parent p)))
     | None => false
     end.

(** What is reported on a node, with the fields at the top of the stack. *)
Definition check_node (fieldMap : option FieldMap) (n : node) : list Report :=
  (if isAccessorNode n then
     match getObjectOrClassAccessorInfo n with Some i => checkAccessorNode n fieldMap i | None => [] end
   else [])
  ++ (if singleDescriptorAccessorSelector n then
        match getSingleDescriptorAccessorInfo n with
        | Some i => checkAccessorNode n (Some (getSingleVariableFieldMap (a_name i) n)) i
        | None => []
        end
      else [])
  ++ (if multiDescriptorsAccessorSelector n then
        match getMultiDescriptorsAccessorInfo n with
        | Some i => checkAccessorNode n (Some (getSingleVariableFieldMap (a_name i) n)) i
        | None => []
        end
      else []).

(** The fields of a node that has some. *)
Definition fields_of (n : node) : option FieldMap :=
  if type_of n =s "ClassBody" then Some (getClassBodyFieldMap n)
  else if type_of n =s "ObjectExpression" then Some (getObjectExpressionFieldMap n)
  else None.

Inductive event := Enter (n : node) | Leave (n : node).

Record State := mkState { currentFieldsStack : list FieldMap; reports : list Report }.

Definition initial_state : State := mkState [[]] [].

Definition on_event (st : State) (e : event) : State :=
  match e with
  | Enter n =>
      mkState
        (currentFieldsStack st ++ match fields_of n with Some fields => [fields] | None => [] end)
        (reports st ++ check_node (last (currentFieldsStack st)) n)
  | Leave n =>
      match fields_of n with
      | Some _ => mkState (removelast (currentFieldsStack st)) (reports st)
      | None => st
      end
  end.

End Rule.

(** ** The stack of fields *)

Section Stack.

Variable sm : ScopeManager.
Variable parent : node -> option node.
Variable number_text : jsnum -> string.

(** The nodes that a traversal enters and leaves. *)
Inductive etree := ENode (n : node) (below : list etree).

Fixpoint events (t : etree) : list event :=
  let 'ENode n below := t in Enter n :: flat_map events below ++ [Leave n].

Section etree_induction.
Variable P : etree -> Prop.
Hypothesis HP : forall n below, Forall P below -> P (ENode n below).
Fixpoint etree_ind' (t : etree) : P t :=
  let 'ENode n below := t in
  HP n below ((fix go (l : list etree) : Forall P l :=
    match l with [] => Forall_nil_2 P | x :: r => Forall_cons_2 P x r (etree_ind' x) (go r) end) below).
End etree_induction.

(** What is to be reported: each node is checked with the fields of the nearest class
    body or object around it. *)
Fixpoint expected (around : option FieldMap) (t : etree) : list Report :=
  let 'ENode n below := t in
  check_node sm parent number_text around n
  ++ flat_map (expected (orElse (fields_of number_text n) around)) below.

Lemma run_accessor_events t : forall st,
  fold_left (on_event sm parent number_text) (events t) st =
  mkState (currentFieldsStack st) (reports st ++ expected (last (currentFieldsStack st)) t).
Proof.
  induction t as [n below IH] using etree_ind'. intros st. rewrite Forall_forall in IH.
  cbn [events fold_left expected]. rewrite fold_left_app.
  assert (forall l st, (forall t, t ∈ l -> t ∈ below) ->
    fold_left (on_event sm parent number_text) (flat_map events l) st =
    mkState (currentFieldsStack st) (reports st ++ flat_map (expected (last (currentFieldsStack st))) l)) as Hl.
  { intros l. induction l as [|t l IHl]; intros st' Hin; [destruct st'; cbn; by rewrite app_nil_r |].
    cbn [flat_map]. rewrite fold_left_app, IH by (apply Hin; by left).
    rewrite IHl by (intros u Hu; apply Hin; by right). cbn [currentFieldsStack reports]. by rewrite app_assoc. }
  rewrite Hl by done. cbn [on_event fold_left currentFieldsStack reports].
  unfold orElse. destruct (fields_of number_text n) as [fields|]; cbn [on_event currentFieldsStack reports].
  - rewrite removelast_last, last_snoc. by rewrite app_assoc.
  - rewrite app_nil_r. by rewrite app_assoc.
Qed.

(** On every traversal, the stack gives each accessor the fields of the nearest
    class body or object around it, and it is at the end what it was. *)
Theorem accessors_meet_their_fields t :
  fold_left (on_event sm parent number_text) (events t) initial_state = mkState [[]] (expected (Some []) t).
Proof. apply run_accessor_events. Qed.

(** ** Two rules, one report *)

(** A function with one statement, that returns a value. *)
Definition returns_value (n : node) : bool :=
  match getFunctionBody (get_node n "value") with
  | Some [s] => (type_of s =s "ReturnStatement") && bool_decide (is_Some (get_node s "argument"))
  | _ => false
  end.

Lemma getter_not_checked n fieldMap i : a_type i = getter ->
  (forall e, refResolver i e <> None -> e <> None) ->
  definition i = in_descriptor \/ is_kind n "get" = true -> returns_value n = false ->
  checkAccessorNode n fieldMap i = [].
Proof.
  intros T RR D R. unfold checkAccessorNode, getAccessor. destruct fieldMap as [fm|]; [| done].
  unfold returns_value in R. destruct (getFunctionBody _) as [statements|]; [| done].
  destruct (negb (accessorIsPublic n) || Nat.ltb 1 (length statements)) eqn:L; [done |].
  destruct (findMatchingFields fm (a_name i)) as [|f fs]; [done |].
  unfold isReportedByGetterReturnDecorator, isUsingAccessorFieldInBody, getFieldUsedInsideSimpleBody.
  cbn [info statement a_node matchingFields]. rewrite T. destruct statements as [|s [|? ?]]; cbn [head].
  - destruct D as [-> |D]; [done |]. rewrite D. by rewrite orb_true_r.
  - destruct (type_of s =s "ReturnStatement"); [| by rewrite orb_true_r].
    destruct (get_node s "argument") as [a|] eqn:A; [by rewrite bool_decide_true in R by by eexists |].
    destruct (refResolver i None) eqn:E; [exfalso; by apply (RR None); [rewrite E |] | by rewrite orb_true_r].
  - apply orb_false_iff in L as [_ L]. done.
Qed.

Lemma resolvers_need_expressions :
  (forall e, getPropertyName number_text e <> None -> e <> None) /\ (forall e, getIdentifierName e <> None -> e <> None).
Proof. split; intros [e|] H; done. Qed.

Lemma object_accessor_of_getter n i : is_kind n "get" = true ->
  getObjectOrClassAccessorInfo number_text n = Some i -> a_type i = getter /\ refResolver i = getPropertyName number_text.
Proof.
  intros K. unfold getObjectOrClassAccessorInfo. destruct (name_of _ _); [| done]. rewrite K. by intros [= <-].
Qed.

Lemma descriptor_info name n i : getDescriptorAccessorInfo number_text name n = Some i ->
  definition i = in_descriptor /\ refResolver i = getIdentifierName /\
  exists k key, get_node n "key" = Some k /\ getName number_text k = Some key /\
    a_type i = if key =s "get" then getter else setter.
Proof.
  unfold getDescriptorAccessorInfo. destruct (get_node n "key") as [k|]; [| done].
  destruct (getName number_text k) as [key|] eqn:E; [| done]. intros [= <-]. cbn. split_and!; [done.. |]. by exists k, key.
Qed.

Lemma single_info n i : getSingleDescriptorAccessorInfo parent number_text n = Some i ->
  exists name, getDescriptorAccessorInfo number_text name n = Some i.
Proof.
  unfold getSingleDescriptorAccessorInfo. destruct (second_argument _) as [p|]; [| done].
  destruct (_ && _); [| done]. intros H. by eexists.
Qed.

Lemma multi_info n i : getMultiDescriptorsAccessorInfo parent number_text n = Some i ->
  exists name, getDescriptorAccessorInfo number_text name n = Some i.
Proof.
  unfold getMultiDescriptorsAccessorInfo. destruct (up parent (parent n)) as [p|]; [| done].
  destruct (_ && _); [| done]. destruct (name_of _ _) as [name|]; [| done]. intros H. by exists name.
Qed.

(** A getter, by its kind or as the function [get] of a descriptor; its key is an
    identifier, and not [set]. *)
Definition is_getter (n : node) : Prop :=
  exists k name, get_node n "key" = Some k /\ type_of k = "Identifier" /\ get_str k "name" = Some name /\
    ((name = "get" /\ is_kind n "set" = false) \/ (is_kind n "get" = true /\ name <> "set")).

(** A getter is not reported twice: what ESLint's getter-return may report, a
    getter that is not one statement returning a value, the other rule does not
    report, whatever the fields around it. *)
Theorem getters_reported_once top n : is_getter n -> returns_value n = false ->
  check_node sm parent number_text top n = [].
Proof.
  intros (k & name & Hk & Tk & Nk & G) R. unfold check_node.
  assert (get_or_set_function n = true -> name = "get") as Gs.
  { unfold get_or_set_function. rewrite Hk. unfold get_str in Nk. destruct (get k "name"); try done. injection Nk as ->.
    intros H. split_bools. destruct G as [[-> _]|[_ G]]; [done |].
    apply orb_true_iff in H0 as [->%String.eqb_eq|H0]; [done |]. by apply String.eqb_eq in H0. }
  assert (forall d i fm, get_or_set_function n = true -> getDescriptorAccessorInfo number_text d n = Some i ->
    checkAccessorNode n fm i = []) as Desc.
  { intros d i fm S%Gs (D & RR & k' & key & Hk' & Hn & T)%descriptor_info. rewrite Hk in Hk'. injection Hk' as <-.
    unfold getName in Hn. rewrite Tk in Hn. cbn in Hn. rewrite Nk, S in Hn. injection Hn as <-.
    apply getter_not_checked; [done | rewrite RR; apply resolvers_need_expressions | by left | done]. }
  replace (if singleDescriptorAccessorSelector parent n then _ else _) with (@nil Report).
  2: { destruct (singleDescriptorAccessorSelector parent n) eqn:S; [| done].
       unfold singleDescriptorAccessorSelector in S. split_bools.
       destruct (getSingleDescriptorAccessorInfo parent number_text n) as [i|] eqn:E; [| done].
       apply single_info in E as [d E]. symmetry. by eapply Desc. }
  replace (if multiDescriptorsAccessorSelector parent n then _ else _) with (@nil Report).
  2: { destruct (multiDescriptorsAccessorSelector parent n) eqn:S; [| done].
       unfold multiDescriptorsAccessorSelector in S. split_bools.
       destruct (getMultiDescriptorsAccessorInfo parent number_text n) as [i|] eqn:E; [| done].
       apply multi_info in E as [d E]. symmetry. by eapply Desc. }
  rewrite !app_nil_r. destruct (isAccessorNode n); [| done].
  destruct (getObjectOrClassAccessorInfo number_text n) as [i|] eqn:E; [| done].
  destruct (is_kind n "get") eqn:K.
  - pose proof (object_accessor_of_getter n i K E) as [T RR].
    apply getter_not_checked; [done | rewrite RR; apply resolvers_need_expressions | by right | done].
  - destruct G as [[-> Ks]|[? _]]; [| done]. unfold getObjectOrClassAccessorInfo, name_of, getName in E.
    rewrite Hk, Tk, K, Ks in E. cbn [String.eqb Ascii.eqb Bool.eqb orb] in E. rewrite Nk in E. cbn in E.
    by destruct (get_node n "value") as [f|]; [destruct (type_of f =s _)|].
Qed.

(** ** What is reported *)

(** A report on an accessor names a field around it with the name of the accessor, with
    or without an underscore, and the accessor is public and is empty or has one
    statement that refers to a property with another name than these fields. *)
Lemma mismatch_reported n fm i r : r ∈ checkAccessorNode n (Some fm) i ->
  exists field statements, r = Mismatch n (a_type i) (match definition i with in_descriptor => true | _ => false end) field /\
    head (findMatchingFields fm (a_name i)) = Some field /\ accessorIsPublic n = true /\
    getFunctionBody (get_node n "value") = Some statements /\
    (statements = [] \/ exists s used, statements = [s] /\ getFieldUsedInsideSimpleBody s i = Some used /\ used <> "" /\
    forall f, f ∈ findMatchingFields fm (a_name i) -> f_name f <> used).
Proof.
  unfold checkAccessorNode, getAccessor. destruct (getFunctionBody _) as [statements|]; [| by intros ?%not_elem_of_nil].
  destruct (negb (accessorIsPublic n) || Nat.ltb 1 (length statements)) eqn:L; [by intros ?%not_elem_of_nil |].
  apply orb_false_iff in L as [P%negb_false_iff L].
  destruct (findMatchingFields fm (a_name i)) as [|f fs] eqn:Ef; [by intros ?%not_elem_of_nil |].
  destruct (_ || _) eqn:E; [by intros ?%not_elem_of_nil |]. intros ->%list_elem_of_singleton.
  exists f, statements. split_and!; [done.. |]. apply orb_false_iff in E as [_ E].
  unfold isUsingAccessorFieldInBody in E. cbn [statement info matchingFields] in E.
  destruct statements as [|s [|? ?]]; [by left | | done]. right. cbn [head] in E.
  destruct (getFieldUsedInsideSimpleBody s i) as [used|] eqn:Eu; [| done]. exists s, used.
  assert (used <> "") as N by (by intros ->). split_and!; [done.. |]. intros f' Hf' En.
  assert (existsb (fun matchingField => used =s f_name matchingField) (f :: fs) = false) as Ex by (destruct used; done).
  apply not_true_iff_false in Ex. apply Ex, existsb_exists. exists f'. rewrite <- list_elem_of_In.
  split; [done |]. rewrite En. apply String.eqb_refl.
Qed.

(** *** Parameters of constructors *)

Lemma lower_app s t : toLowerCase_ascii (s +:+ t) = (toLowerCase_ascii s +:+ toLowerCase_ascii t)%string.
Proof.
  induction s as [|c s IH]; [done |]. change (String c s +:+ t)%string with (String c (s +:+ t)%string).
  cbn [toLowerCase_ascii map_string]. unfold toLowerCase_ascii in *. rewrite IH. done.
Qed.

Lemma lower_idempotent s : toLowerCase_ascii (toLowerCase_ascii s) = toLowerCase_ascii s.
Proof.
  unfold toLowerCase_ascii. induction s as [|c s IH]; [done |]. cbn [map_string]. rewrite IH. f_equal.
  destruct c as [[] [] [] [] [] [] [] []]; reflexivity.
Qed.

Lemma lower_drop n s : toLowerCase_ascii (drop_string n s) = drop_string n (toLowerCase_ascii s).
Proof. revert s. induction n as [|n IH]; intros [|c s]; [done.. |]. apply IH. Qed.

Lemma accessor_name_lower accessor i : getObjectOrClassAccessorInfo number_text accessor = Some i ->
  toLowerCase_ascii (a_name i) = a_name i.
Proof.
  unfold getObjectOrClassAccessorInfo. destruct (name_of _ _) as [name|]; [| done].
  assert (forall prefix rest, after_prefix prefix (toLowerCase_ascii name) = Some rest -> toLowerCase_ascii rest = rest) as Rest.
  { intros prefix rest. unfold after_prefix, strip_prefix. destruct (String.prefix _ _); [| done].
    destruct (drop_string _ _) eqn:E; [done |]. intros [= <-]. rewrite <- E, lower_drop. by rewrite lower_idempotent. }
  destruct (is_kind accessor "get"); [intros [= <-]; apply lower_idempotent |].
  destruct (is_kind accessor "set"); [intros [= <-]; apply lower_idempotent |].
  destruct (get_node accessor "value") as [f|]; [| done]. destruct (type_of f =s _); [| done].
  destruct (after_prefix "set" _) as [rest|] eqn:Es.
  - destruct (Nat.eqb _ _); [| done]. intros [= <-]. by apply (Rest "set").
  - destruct (after_prefix "get" _) as [rest|] eqn:Eg; [| done]. destruct (Nat.eqb _ _); [| done].
    intros [= <-]. by apply (Rest "get").
Qed.

Lemma constructor_fields_keys classBody k f :
  map_get k (fieldsDeclaredInConstructorParameters number_text classBody) = Some f -> f_name f = k.
Proof.
  unfold fieldsDeclaredInConstructorParameters. destruct (getConstructorOf _ _) as [c|]; [| done].
  assert (forall l (fields : FieldMap), (forall k f, map_get k fields = Some f -> f_name f = k) ->
    forall k f, map_get k (fold_left (fun fields parameter =>
        if (type_of parameter =s "TSParameterProperty")
           && (truthy (get parameter "accessibility") || truthy (get parameter "readonly"))
        then match name_of number_text (get_node parameter "parameter") with
             | Some parameterName => map_set parameterName (mkField parameterName parameter) fields
             | None => fields
             end
        else fields) l fields) = Some f -> f_name f = k) as H; [| by apply H].
  induction l as [|p l IH]; intros fields F; [done |]. cbn [fold_left]. apply IH.
  destruct (_ && _); [| done]. destruct (name_of _ _) as [name|]; [| done].
  intros k' f' [[-> ->]|[_ G]]%map_get_set_cases; [done | by apply F].
Qed.

(** The fields that the parameters of a constructor declare are kept under their
    own names, but accessors of classes and objects look fields up by names in lower
    case: those that are found have no capital letter. *)
Theorem capital_constructor_fields_ignored classBody accessor i field :
  getObjectOrClassAccessorInfo number_text accessor = Some i ->
  field ∈ findMatchingFields (fieldsDeclaredInConstructorParameters number_text classBody) (a_name i) ->
  toLowerCase_ascii (f_name field) = f_name field.
Proof.
  intros L%accessor_name_lower (k & Hk & E%constructor_fields_keys)%list_elem_of_omap. rewrite E.
  repeat (apply elem_of_cons in Hk as [->|Hk]; [rewrite ?lower_app, L; reflexivity |]).
  by apply not_elem_of_nil in Hk.
Qed.

End Stack.

(** ** Examples *)

Module AccessorsExample.

Definition mk (i : nat) (t : string) (ps : list (string * value)) : node := Node (mkHeader i t None None) ps.
Definition ident (i : nat) (name : string) : node := mk i "Identifier" [("name", VStr name)].
Definition no_number (n : jsnum) : string := "0".

Definition sm : ScopeManager := mkScopeManager [] [] [] (fun _ => None).
Definition no_parent (n : node) : option node := None.

(** A function with some statements. *)
Definition function (i : nat) (params statements : list node) : node :=
  mk i "FunctionExpression"
    [("params", VArr (map VNode params));
     ("body", VNode (mk (i + 1) "BlockStatement" [("body", VArr (map VNode statements))]))].

Definition method (i : nat) (kind name : string) (f : node) : node :=
  mk i "MethodDefinition" [("kind", VStr kind); ("key", VNode (ident (i + 1) name)); ("value", VNode f)].

(** [return this.name;] *)
Definition return_field (i : nat) (name : string) : node :=
  mk i "ReturnStatement" [("argument", VNode (mk (i + 1) "MemberExpression"
    [("object", VNode (mk (i + 2) "ThisExpression" [])); ("property", VNode (ident (i + 3) name))]))].

Definition parameter (i : nat) (name : string) : node :=
  mk i "TSParameterProperty" [("accessibility", VStr "private"); ("parameter", VNode (ident (i + 1) name))].

(** A class with the fields [total] and, by its constructor, [count] and [lastName],
    and methods that return another field. *)
Definition class_body : node :=
  mk 1 "ClassBody" [("body", VArr (map VNode
    [mk 2 "PropertyDefinition" [("key", VNode (ident 3 "total"))];
     method 10 "constructor" "constructor" (function 12 [parameter 14 "count"; parameter 16 "lastName"] []);
     method 20 "method" "getTotal" (function 22 [] [return_field 24 "count"]);
     method 30 "method" "getCount" (function 32 [] [return_field 34 "total"]);
     method 40 "method" "getLastName" (function 42 [] [return_field 44 "total"]);
     method 50 "get" "total" (function 52 [] [])]))].

Definition class_tree : etree := ENode class_body (map (fun n => ENode n []) (get_nodes class_body "body")).

(** The accessor of [lastName] is not reported; the empty getter is left to getter-return. *)
Example class_reports :
  map (fun r => match r with Mismatch n _ _ f => (h_id (hdr n), f_name f) | GetterReturn _ m => (0%nat, m) end)
    (reports (fold_left (on_event sm no_parent no_number) (events class_tree) initial_state)) =
  [(20%nat, "total"); (30%nat, "count")].
Proof. vm_compute. reflexivity. Qed.

Example getters_reported_once_witness :
  check_node sm no_parent no_number (Some (getClassBodyFieldMap no_number class_body))
    (method 50 "get" "total" (function 52 [] [])) = [].
Proof.
  apply getters_reported_once; [| reflexivity].
  exists (ident 51 "total"), "total". split_and!; [reflexivity.. |]. right. split; [reflexivity | discriminate].
Defined.

Example capital_constructor_fields_ignored_witness :
  toLowerCase_ascii "count" = "count".
Proof.
  apply (capital_constructor_fields_ignored no_number class_body
           (method 30 "method" "getCount" (function 32 [] [return_field 34 "total"]))
           (mkInfo "count" getter in_class (getPropertyName no_number)) (mkField "count" (parameter 14 "count"))).
  - reflexivity.
  - vm_compute. by apply list_elem_of_here.
Defined.

End AccessorsExample.
