(* ===== verification/Css.v ===== *)
(** * Css: the analysis of stylesheets

    The code of [packages/css/src]: the configuration given to stylelint, the text it
    lints, the conversion of its results, and the rules S5362 (calc expressions) and S125
    (commented code). stylelint, postcss and the parser of values are parameters;
    their trees are data. *)

From Stdlib Require Import ZArith Lia Ascii String.
From stdpp Require Import base list sets strings.
From S2P Require Import Prelude JsString Json RegexLocations Regexpp.

Open Scope js_scope.
Open Scope nat_scope.

(** ** Configuration *)

Record RuleConfig := mkRuleConfig { key : string; configurations : list json }.

(** The setting of a rule: [true], or its configurations. *)
Inductive ConfigRuleSettings := Enabled | Configured (l : list json).

(** The rules of [createStylelintConfig]; the syntaxes and the plugins are constants. *)
Definition createStylelintConfig (rules : list RuleConfig) : list (string * ConfigRuleSettings) :=
  fold_left (fun configRules r =>
    map_set (key r) (match configurations r with [] => Enabled | l => Configured l end) configRules) rules [].

(** ** Analysis *)

(** [code.replace(/\[\u2000-\u200F\]/g, ' ')], on the code units of a text. *)
Definition sanitize (code : list Z) : list Z :=
  map (fun c => if (0x2000 <=? c)%Z && (c <=? 0x200f)%Z then 32%Z else c) code.

Record Warning := mkWarning { w_rule : string; w_line : Z; w_column : Z; w_text : string }.
Record LintResult := mkLintResult { source : string; warnings : list Warning }.
Record Issue := mkIssue { ruleId : string; line : Z; column : Z; message : string }.

Definition transform (results : list LintResult) (filePath : string) : list Issue :=
  flat_map (fun r =>
    if negb (source r =s filePath) then []
    else map (fun w => mkIssue (w_rule w) (w_line w) (w_column w) (w_text w)) (warnings r)) results.

Section Analyzer.

(** [stylelint.lint(\{ code, codeFilename, config \})]; an error rejects the promise. *)
Variable stylelint : list Z -> string -> list (string * ConfigRuleSettings) -> result string (list LintResult).

Definition analyzeCSS (filePath : string) (code : list Z) (rules : list RuleConfig) : result string (list Issue) :=
  let config := createStylelintConfig rules in
  let sanitizedCode := sanitize code in
  let! results := stylelint sanitizedCode filePath config in
  Ok (transform results filePath).

End Analyzer.

(** ** S5362: calc expressions *)

(** The nodes of postcss-value-parser. *)
Inductive vnode :=
| Word (value : string)
| Div (value : string)
| Space
| VComment (value : string)
| Function_ (value : string) (nodes : list vnode)
| OtherValue (type value : string).

Definition operators : list string := ["+"; "-"; "*"; "/"].

Definition empty_calc : string := "Fix this empty 'calc' expression.".
Definition malformed_calc : string := "Fix this malformed 'calc' expression.".
Definition div_by_zero : string := "Fix this 'calc' expression with division by zero.".

Definition isCalcFunction (n : vnode) : bool :=
  match n with Function_ value _ => toLowerCase_ascii value =s "calc" | _ => false end.

Definition isParenthesizedExpression (n : vnode) : bool :=
  match n with Function_ value _ => negb (toLowerCase_ascii value =s "calc") | _ => false end.

Definition isSpaceOrComment (n : vnode) : bool := match n with Space | VComment _ => true | _ => false end.

Definition isOperator (n : vnode) : bool :=
  match n with Word value => includes value operators | Div _ => true | _ => false end.

Definition isDivision (n : vnode) : bool :=
  match n with Word value | Div value => value =s "/" | _ => false end.

Definition is_zero_digit (c : ascii) : bool := Ascii.eqb c "0".

(** [parseFloat(value) === 0]: the digits at the start of the text, around a point, are
    zeros, and there is one at least. Exponents that underflow are not modelled. *)
Definition parses_to_zero (value : string) : bool :=
  let s := trimStart value in
  let s := match s with String c r => if Ascii.eqb c "+" || Ascii.eqb c "-" then r else s | EmptyString => s end in
  let '(whole, s) := span_chars is_digit s in
  let '(fraction, _) := match s with String "." r => span_chars is_digit r | _ => ("", s) end in
  let digits := (whole +:+ fraction)%string in
  negb (digits =s "") && forallb is_zero_digit (String.list_ascii_of_string digits).

Definition isZero (n : vnode) : bool := match n with Word value => parses_to_zero value | _ => false end.

(** The nodes that are neither spaces nor comments. *)
Definition siblings (nodes : list vnode) : list vnode := List.filter (fun n => negb (isSpaceOrComment n)) nodes.

(** What a sibling and the next one report, with the reports of a parenthesized one. *)
Definition division_step (inside : list string) (n : vnode) (operand : option vnode) : list string :=
  if isDivision n then
    match operand with Some o => if isZero o then [div_by_zero] else [] | None => [] end
  else if isParenthesizedExpression n then inside
  else [].

(** The loop on the siblings, for the reports of the parenthesized expressions. *)
Fixpoint division_loop (inside : vnode -> list string) (l : list vnode) : list string :=
  match l with
  | [] => []
  | n :: rest =>
      (if isSpaceOrComment n then [] else division_step (inside n) n (head (siblings rest)))
      ++ division_loop inside rest
  end.

Fixpoint divisions_in (n : vnode) : list string :=
  match n with Function_ _ nodes => division_loop divisions_in nodes | _ => [] end.

Definition checkDivisionByZero (nodes : list vnode) : list string := division_loop divisions_in nodes.

(** The siblings at odd places that are not operators. *)
Fixpoint missing_operators (l : list vnode) : list string :=
  match l with
  | _ :: n :: rest => (if isOperator n then [] else [malformed_calc]) ++ missing_operators rest
  | _ => []
  end.

Fixpoint malformed_in (n : vnode) : list string :=
  match n with
  | Function_ _ nodes =>
      missing_operators (siblings nodes)
      ++ flat_map (fun m => if isParenthesizedExpression m then malformed_in m else []) nodes
  | _ => []
  end.

(** Spaces and comments are not parenthesized: the loop is on all the nodes. *)
Definition checkMissingOperator (nodes : list vnode) : list string := malformed_in (Function_ "" nodes).

Definition checkEmpty (nodes : list vnode) : list string :=
  match siblings nodes with [] => [empty_calc] | _ => [] end.

(** [postcssValueParser(value).walk(callback)]: a node, then the ones in it. *)
Fixpoint walk (callback : vnode -> list string) (n : vnode) : list string :=
  callback n ++ match n with Function_ _ nodes => flat_map (walk callback) nodes | _ => [] end.

Definition check_calc (n : vnode) : list string :=
  match n with
  | Function_ _ nodes =>
      if isCalcFunction n then checkDivisionByZero nodes ++ checkMissingOperator nodes ++ checkEmpty nodes else []
  | _ => []
  end.

(** The reports on a declaration, for the nodes of its value. *)
Definition check_declaration (nodes : list vnode) : list string := flat_map (walk check_calc) nodes.

(** ** S125: commented code *)

Definition no_info (text : string) : RegexNode := mkRegexNode 0 0 text.

(** The nodes of the regular expressions below. *)
Definition chr (c : Z) : rnode := Character (no_info "") c.
Definition range (a b : Z) : rnode := CharacterClassRange (no_info "") (chr a) (chr b).
Definition white_space : rnode := CharacterSet (no_info "\s") space_set false.
Definition one_of (l : list rnode) : rnode := CharacterClass (no_info "") false l.
Definition none_of (l : list rnode) : rnode := CharacterClass (no_info "") true l.
Definition repeat (min : nat) (e : rnode) : rnode := Quantifier (no_info "") min None true e.
Definition seq (l : list rnode) : rnode := Alternative (no_info "") l.
Definition capture (alternatives : list (list rnode)) : rnode :=
  CapturingGroup (no_info "") None (map seq alternatives).

(** The letters of a class, with the flag i; the letters of the language are not among
    what other characters are mapped to. *)
Definition letters : list rnode := [range 97 122; range 65 90].

(** A selector, then a block in braces. *)
Definition ruleRegex : rnode :=
  seq [capture [[repeat 1 (one_of (letters ++ [range 48 57; white_space; chr 44; chr 46; chr 45; chr 35; chr 58; chr 95]))]];
       chr 123; capture [[repeat 0 (none_of [chr 125])]]; chr 125].

(** A property, a colon, a value and a semicolon. *)
Definition declRegex : rnode :=
  seq [capture [[repeat 1 (one_of (letters ++ [chr 45]))]]; repeat 0 white_space; chr 58; repeat 0 white_space;
       capture [[repeat 1 (none_of [chr 59])]]; chr 59].

(** An at-sign, a name and what follows, then a semicolon or a block. *)
Definition atRuleRegex : rnode :=
  seq [chr 64; capture [[repeat 0 (one_of (letters ++ [chr 45]))]]; repeat 0 white_space;
       capture [[repeat 0 (none_of [chr 59; chr 123])]];
       capture [[chr 59]; [capture [[chr 123; capture [[repeat 0 (none_of [chr 125])]]; chr 125]]]]].

Definition no_flags : Flags := mkFlags false false false false.

(** What a node matches; the expressions have no node of another kind. *)
Definition css_matches (n : rnode) : Place -> list Place := matches no_flags (fun _ _ => []) (fun _ _ => false) n.

(** [regex.test(text)], from the place before the text. *)
Fixpoint test (regex : rnode) (before text : list Z) : bool :=
  match css_matches regex (before, text) with
  | _ :: _ => true
  | [] => match text with c :: rest => test regex (c :: before) rest | [] => false end
  end.

Definition isLikelyCss (text : list Z) : bool :=
  test ruleRegex [] text || test declRegex [] text || test atRuleRegex [] text.

(** The reports on a comment; [parse] says whether postcss parses the text. *)
Definition check_comment (parse : list Z -> bool) (text : list Z) : list string :=
  if isLikelyCss text then if parse text then ["Remove this commented out code."] else [] else [].

(** ** The text that is linted *)

(** The line and the column of an offset, from zero; a line feed ends a line. *)
Fixpoint position_at (code : list Z) (offset : nat) : nat * nat :=
  match offset, code with
  | S o, c :: rest =>
      let '(l, k) := position_at rest o in
      if (c =? 10)%Z then (S l, k) else if Nat.eqb l 0 then (0, S k) else (l, k)
  | _, _ => (0, 0)
  end.

(** The text that stylelint lints has the length of the file and the same line and
    column at each offset, so that the positions of its warnings are positions of the
    file; and the configuration has, for each rule of the profile, the last
    configurations given for its key. *)
Theorem linted_text_keeps_positions code rules :
  length (sanitize code) = length code /\
  (forall offset, position_at (sanitize code) offset = position_at code offset) /\
  (forall k setting, map_get k (createStylelintConfig rules) = Some setting <->
     exists before r after, rules = before ++ r :: after /\ key r = k /\ k ∉ map key after /\
       setting = match configurations r with [] => Enabled | l => Configured l end).
Proof.
  split_and!.
  - apply length_map.
  - induction code as [|c code IH]; intros [|o]; [done.. |]. cbn [sanitize map position_at].
    fold (sanitize code). rewrite IH. destruct (position_at code o) as [l k].
    destruct (Z.eqb_spec c 10) as [->|N]; [done |].
    destruct ((0x2000 <=? c)%Z && (c <=? 0x200f)%Z); [done |]. by destruct (Z.eqb_spec c 10).
  - intros k setting. unfold createStylelintConfig. induction rules as [|r rules IH] using rev_ind.
    { cbn. split; [done |]. intros (b & r & a & E & _). by destruct b. }
    rewrite fold_left_app. cbn [fold_left]. split.
    + intros [[-> ->]|[N G]]%map_get_set_cases.
      * exists rules, r, []. split_and!; [done | done | by apply not_elem_of_nil | done].
      * apply IH in G as (b & r' & a & -> & <- & Ha & ->). exists b, r', (a ++ [r]).
        split_and!; [by rewrite <- app_assoc | done | | done].
        rewrite map_app, elem_of_app. cbn. rewrite list_elem_of_singleton. naive_solver.
    + intros (b & r' & a & E & <- & Ha & ->). destruct a as [|x a _] using rev_ind.
      * apply app_inj_tail in E as [-> ->]. by rewrite map_get_set_eq.
      * rewrite app_comm_cons, app_assoc in E. apply app_inj_tail in E as [-> ->].
        rewrite map_app, elem_of_app in Ha. cbn in Ha. rewrite list_elem_of_singleton in Ha.
        rewrite map_get_set_ne by naive_solver. apply IH. exists b, r', a. naive_solver.
Qed.

(** ** Each calc expression is checked once *)

Section vnode_induction.
Variable P : vnode -> Prop.
Hypothesis HF : forall v l, Forall P l -> P (Function_ v l).
Hypothesis HO : forall n, (forall v l, n <> Function_ v l) -> P n.
Fixpoint vnode_ind' (n : vnode) : P n :=
  match n with
  | Function_ v l =>
      HF v l ((fix go (l : list vnode) : Forall P l :=
        match l with [] => Forall_nil_2 P | x :: r => Forall_cons_2 P x r (vnode_ind' x) (go r) end) l)
  | Word x => HO (Word x) ltac:(intros ? ?; discriminate)
  | Div x => HO (Div x) ltac:(intros ? ?; discriminate)
  | Space => HO Space ltac:(intros ? ?; discriminate)
  | VComment x => HO (VComment x) ltac:(intros ? ?; discriminate)
  | OtherValue t x => HO (OtherValue t x) ltac:(intros ? ?; discriminate)
  end.
End vnode_induction.

Fixpoint sum (l : list nat) : nat := match l with [] => 0 | x :: r => x + sum r end.

Lemma sum_map_add {A} (f g : A -> nat) l : sum (map (fun x => f x + g x) l) = sum (map f l) + sum (map g l).
Proof. induction l as [|x l IH]; cbn [map sum]; lia. Qed.

Lemma sum_map_ext_in {A} (f g : A -> nat) l : (forall x, x ∈ l -> f x = g x) -> sum (map f l) = sum (map g l).
Proof.
  intros H. f_equal. apply map_ext_in. intros x Hx. apply H. by apply list_elem_of_In.
Qed.

Section Once.

(** What is wrong with the nodes of one function, and with a function and the
    parenthesized expressions in it. *)
Variable level : list vnode -> nat.
Variable deep : vnode -> nat.
Hypothesis deep_function : forall v l, deep (Function_ v l) =
  level l + sum (map (fun m => if isParenthesizedExpression m then deep m else 0) l).

(** What the walk finds: [deep] at each calc. *)
Fixpoint walked (n : vnode) : nat :=
  match n with
  | Function_ _ l => (if isCalcFunction n then deep n else 0) + sum (map walked l)
  | _ => 0
  end.

(** What is wrong in all the functions in a calc, and in the calc, each once. *)
Fixpoint wrong (in_calc : bool) (n : vnode) : nat :=
  match n with
  | Function_ _ l =>
      let in_calc := in_calc || isCalcFunction n in
      (if in_calc then level l else 0) + sum (map (wrong in_calc) l)
  | _ => 0
  end.

Lemma walked_wrong n :
  wrong true n = walked n + (if isParenthesizedExpression n then deep n else 0) /\ wrong false n = walked n.
Proof.
  induction n as [v l IH|n N] using vnode_ind'.
  - rewrite Forall_forall in IH.
    assert (sum (map (wrong true) l) =
      sum (map walked l) + sum (map (fun m => if isParenthesizedExpression m then deep m else 0) l)) as T.
    { rewrite <- sum_map_add. apply sum_map_ext_in. intros m Hm. by apply IH. }
    assert (sum (map (wrong false) l) = sum (map walked l)) as F
      by (apply sum_map_ext_in; intros m Hm; by apply IH).
    cbn [wrong walked isParenthesizedExpression isCalcFunction orb]. rewrite T.
    destruct (toLowerCase_ascii v =s "calc"); cbn [negb]; rewrite ?F, ?T, ?deep_function; lia.
  - destruct n; try done. by destruct (N value nodes).
Qed.

End Once.

Definition count (m : string) (l : list string) : nat := length (List.filter (String.eqb m) l).

Lemma count_app m l k : count m (l ++ k) = count m l + count m k.
Proof. unfold count. by rewrite List.filter_app, length_app. Qed.

Lemma count_flat_map {A} m (f : A -> list string) l : count m (flat_map f l) = sum (map (fun x => count m (f x)) l).
Proof. induction l as [|x l IH]; [done |]. cbn [flat_map map]. rewrite count_app, IH. done. Qed.

(** The divisions by zero between the siblings of a list. *)
Fixpoint zero_divisions (l : list vnode) : nat :=
  match l with
  | [] => 0
  | n :: rest =>
      (if isDivision n then match head (siblings rest) with Some o => if isZero o then 1 else 0 | None => 0 end else 0)
      + zero_divisions rest
  end.

Lemma division_loop_count inside l :
  count div_by_zero (division_loop inside l) =
  zero_divisions l + sum (map (fun m => if isParenthesizedExpression m then count div_by_zero (inside m) else 0) l).
Proof.
  induction l as [|n l IH]; [done |]. cbn [division_loop zero_divisions map]. rewrite count_app, IH.
  change (sum (?a :: ?b)) with (a + sum b).
  assert (count div_by_zero (if isSpaceOrComment n then [] else division_step (inside n) n (head (siblings l))) =
    (if isDivision n then match head (siblings l) with Some o => if isZero o then 1 else 0 | None => 0 end else 0)
    + (if isParenthesizedExpression n then count div_by_zero (inside n) else 0)) as ->; [| lia].
  unfold division_step. destruct n; cbn [isSpaceOrComment isDivision isParenthesizedExpression]; try done.
  - destruct (value =s "/"); [| done]. destruct (head (siblings l)) as [o|]; [| done]. by destruct (isZero o).
  - destruct (value =s "/"); [| done]. destruct (head (siblings l)) as [o|]; [| done]. by destruct (isZero o).
  - destruct (toLowerCase_ascii value =s "calc"); [done |]. cbn [negb]. lia.
Qed.

Lemma divisions_deep v l : count div_by_zero (divisions_in (Function_ v l)) =
  zero_divisions l + sum (map (fun m => if isParenthesizedExpression m then count div_by_zero (divisions_in m) else 0) l).
Proof. apply division_loop_count. Qed.

Lemma missing_operators_other m l : m <> malformed_calc -> count m (missing_operators l) = 0.
Proof.
  intros N. assert (forall k l, length l <= k -> count m (missing_operators l) = 0) as H; [| by eapply H].
  clear l. induction k as [|k IH]; intros [|a [|b l]] L; try done; cbn in L; [lia |].
  cbn [missing_operators]. rewrite count_app, IH by lia. destruct (isOperator b); [done |].
  unfold count. cbn [List.filter]. by destruct (String.eqb_spec m malformed_calc).
Qed.

Lemma malformed_deep v l : count malformed_calc (malformed_in (Function_ v l)) =
  count malformed_calc (missing_operators (siblings l))
  + sum (map (fun m => if isParenthesizedExpression m then count malformed_calc (malformed_in m) else 0) l).
Proof.
  cbn [malformed_in]. rewrite count_app, count_flat_map. f_equal. apply sum_map_ext_in. intros m _.
  by destruct (isParenthesizedExpression m).
Qed.

Lemma malformed_other m n : m <> malformed_calc -> count m (malformed_in n) = 0.
Proof.
  intros N. induction n as [v l IH|n Hn] using vnode_ind'; [| destruct n; try done; by destruct (Hn value nodes)].
  rewrite Forall_forall in IH. cbn [malformed_in]. rewrite count_app, missing_operators_other, count_flat_map by done.
  rewrite (sum_map_ext_in _ (fun _ => 0)); [clear; induction l as [|x l IH]; cbn [map sum]; lia |].
  intros x Hx. destruct (isParenthesizedExpression x); [by apply IH | done].
Qed.

Lemma divisions_other m n : m <> div_by_zero -> count m (divisions_in n) = 0.
Proof.
  intros N. induction n as [v l IH|n Hn] using vnode_ind'; [| destruct n; try done; by destruct (Hn value nodes)].
  rewrite Forall_forall in IH. cbn [divisions_in]. induction l as [|x l IHl]; [done |].
  cbn [division_loop]. rewrite count_app, IHl by (intros y Hy; apply IH; by right).
  assert (count m (divisions_in x) = 0) as X by (apply IH; by left).
  destruct (isSpaceOrComment x); [done |]. unfold division_step. destruct (isDivision x).
  - destruct (head (siblings l)) as [o|]; [| done]. destruct (isZero o); [| done].
    unfold count. cbn [List.filter]. by destruct (String.eqb_spec m div_by_zero).
  - destruct (isParenthesizedExpression x); [by rewrite X | done].
Qed.

Lemma checkEmpty_other m l : m <> empty_calc -> count m (checkEmpty l) = 0.
Proof.
  intros N. unfold checkEmpty. destruct (siblings l); [| done].
  unfold count. cbn [List.filter]. by destruct (String.eqb_spec m empty_calc).
Qed.

(** The number of reports of a message on the nodes of a declaration is what the walk
    of [deep] counts, when [deep] is the number of its reports on a calc. *)
Lemma walk_count m deep : (forall v l, isCalcFunction (Function_ v l) = true ->
    count m (check_calc (Function_ v l)) = deep (Function_ v l)) ->
  forall n, count m (walk check_calc n) = walked deep n.
Proof.
  intros H n. induction n as [v l IH|n Hn] using vnode_ind'; [| destruct n; try done; by destruct (Hn value nodes)].
  rewrite Forall_forall in IH. cbn [walk walked]. rewrite count_app, count_flat_map.
  rewrite (sum_map_ext_in _ (walked deep) l IH). f_equal.
  destruct (isCalcFunction (Function_ v l)) eqn:C; [by apply H |]. cbn [check_calc]. by rewrite C.
Qed.

(** In the value of a declaration, each division by zero and each missing operator
    of a calc expression is reported once, also in parentheses, in other functions
    and in calc expressions inside of each other. *)
Theorem calc_expressions_checked_once nodes :
  count div_by_zero (check_declaration nodes) = sum (map (wrong zero_divisions false) nodes) /\
  count malformed_calc (check_declaration nodes) =
    sum (map (wrong (fun l => count malformed_calc (missing_operators (siblings l))) false) nodes).
Proof.
  unfold check_declaration. rewrite !count_flat_map. split; apply sum_map_ext_in; intros n _.
  - rewrite (walk_count _ (fun n => count div_by_zero (divisions_in n))).
    + symmetry. apply walked_wrong. apply divisions_deep.
    + intros v l C. cbn [check_calc]. rewrite C, !count_app. unfold checkMissingOperator.
      change (divisions_in (Function_ v l)) with (checkDivisionByZero l).
      rewrite malformed_other, checkEmpty_other by done. lia.
  - rewrite (walk_count _ (fun n => count malformed_calc (malformed_in n))).
    + symmetry. apply walked_wrong. apply malformed_deep.
    + intros v l C. cbn [check_calc]. rewrite C, !count_app. unfold checkDivisionByZero, checkMissingOperator.
      rewrite (divisions_other _ (Function_ "" l)) by done. rewrite !malformed_deep.
      rewrite checkEmpty_other by done. lia.
Qed.

(** [calc((1 / 0) + min(2, calc(3 4 / 0)))] *)
Example nested_calc :
  check_declaration [Function_ "calc"
    [Function_ "" [Word "1"; Space; Div "/"; Space; Word "0"]; Space; Word "+"; Space;
     Function_ "min" [Word "2"; Div ","; Function_ "Calc" [Word "3"; Space; Word "4"; Div "/"; Word "0.0"]]]]
  = [div_by_zero; div_by_zero; malformed_calc; malformed_calc].
Proof. reflexivity. Qed.

(** ** What commented code is *)

Section Likely.

Notation m := css_matches.

Lemma css_seq l p : m (seq l) p = foldr (fun e k p => flat_map k (m e p)) (fun p => [p]) l p.
Proof. done. Qed.

Lemma css_cons e l p q : q ∈ m (seq (e :: l)) p <-> exists r, r ∈ m e p /\ q ∈ m (seq l) r.
Proof. cbn -[seq]. rewrite !css_seq. cbn [foldr]. apply elem_of_flat_map. Qed.

Lemma css_nil p q : q ∈ m (seq []) p <-> q = p.
Proof. cbn. apply list_elem_of_singleton. Qed.

Lemma css_capture l p q : q ∈ m (capture l) p <-> exists a, a ∈ l /\ q ∈ m (seq a) p.
Proof.
  cbn -[seq]. rewrite elem_of_flat_map. split.
  - intros (x & (a & -> & Ha)%list_elem_of_fmap & H). by exists a.
  - intros (a & Ha & H). exists (seq a). split; [by apply list_elem_of_fmap; exists a | done].
Qed.

Lemma one_char_iff f p q : q ∈ one_char f p <-> exists c, f c = true /\ p.2 = c :: q.2 /\ q.1 = c :: p.1.
Proof.
  destruct p as [a [|c b]], q as [a' b']; cbn; [split; [by intros ?%elem_of_nil | naive_solver] |].
  destruct (f c) eqn:E; [rewrite list_elem_of_singleton | rewrite elem_of_nil]; naive_solver congruence.
Qed.

Lemma iterate_ext f g : (forall p, f p = g p) ->
  forall fuel min max greedy p, iterate fuel min max greedy f p = iterate fuel min max greedy g p.
Proof.
  intros H. induction fuel as [|fuel IH]; [done |]. intros [|min] [[|max]|] greedy p; cbn [iterate]; try done;
    rewrite H, (flat_map_ext _ _ (IH _ _ _)); done.
Qed.

(** A repetition of a class moves over characters of the class. *)
Lemma iterate_class f fuel : forall min p q, min + length p.2 < fuel ->
  q ∈ iterate fuel min None true (one_char f) p <->
  exists l, p.2 = l ++ q.2 /\ q.1 = rev l ++ p.1 /\ Forall (fun c => f c = true) l /\ min <= length l.
Proof.
  assert (forall (P : Place -> Prop) p, (exists r, r ∈ one_char f p /\ P r) <->
    exists c x, p.2 = c :: x /\ f c = true /\ P (c :: p.1, x)) as Step.
  { intros P p. split.
    - intros ([a b] & (c & F & E & Q)%one_char_iff & H). cbn in *. subst a. by exists c, b.
    - intros (c & x & E & F & H). exists (c :: p.1, x). split; [apply one_char_iff; by exists c | done]. }
  induction fuel as [|fuel IH]; [lia |]. intros min p q L.
  assert (forall k, k <= min -> (exists r, r ∈ one_char f p /\ q ∈ iterate fuel (Nat.pred k) None true (one_char f) r) <->
    exists l, l <> [] /\ p.2 = l ++ q.2 /\ q.1 = rev l ++ p.1 /\ Forall (fun c => f c = true) l /\ k <= length l) as Turn.
  { intros k K. rewrite Step. split.
    - intros (c & x & E & F & H). apply IH in H as (l & E' & Q & A & M); [| cbn; rewrite E in L; cbn in L; lia].
      cbn in *. exists (c :: l). split_and!; [done | by rewrite E, E' | | by constructor | cbn; lia].
      cbn. by rewrite <- app_assoc.
    - intros ([|c l] & N & E & Q & A & M); [done |]. apply Forall_cons in A as [F A]. exists c, (l ++ q.2). split_and!; [done | done |].
      apply IH; [cbn in *; rewrite E in L; cbn in L; rewrite length_app in *; lia |].
      exists l. cbn in *. split_and!; [done | by rewrite Q, <- app_assoc | done | lia]. }
  destruct min as [|min]; cbn [iterate option_map].
  - rewrite elem_of_app, list_elem_of_singleton, elem_of_flat_map. split.
    + intros [(r & [Hr _]%elem_of_filter_In & Hq)| ->].
      * destruct (proj1 (Turn 0 ltac:(lia))) as (l & _ & H); [by exists r |]. by exists l.
      * exists []. split_and!; [done | done | done | cbn; lia].
    + intros ([|c l] & E & Q & A & M).
      * right. destruct p, q. cbn in *. by subst.
      * left. destruct (proj2 (Turn 0 ltac:(lia))) as (r & Hr & Hq); [by exists (c :: l) |].
        exists r. split; [| done]. apply elem_of_filter_In. split; [done |].
        apply one_char_iff in Hr as (c' & _ & E' & _). rewrite E'. cbn. apply negb_true_iff, Nat.eqb_neq. lia.
  - rewrite elem_of_flat_map. rewrite (Turn (S min)) by lia. split; [naive_solver |].
    intros (l & E & Q & A & M). exists l. split_and!; try done. intros ->. cbn in M. lia.
Qed.

(** The expressions have no assertions: a node reads texts, whatever is around them. *)
Definition reads (e : rnode) (P : list Z -> Prop) : Prop :=
  forall p q, q ∈ m e p <-> exists w, p.2 = w ++ q.2 /\ q.1 = rev w ++ p.1 /\ P w.

Lemma reads_ext e P Q : (forall w, P w <-> Q w) -> reads e P -> reads e Q.
Proof. intros H R p q. rewrite (R p q). by setoid_rewrite H. Qed.

Lemma reads_nil : reads (seq []) (fun w => w = []).
Proof.
  intros p q. rewrite css_nil. split; [intros ->; by exists [] |].
  intros (w & E & Q & ->). destruct p, q. cbn in *. by subst.
Qed.

Lemma reads_cons e l P Q : reads e P -> reads (seq l) Q ->
  reads (seq (e :: l)) (fun w => exists u v, w = u ++ v /\ P u /\ Q v).
Proof.
  intros He Hl p q. rewrite css_cons. split.
  - intros (r & (u & Eu & Ru & Pu)%He & (v & Ev & Rv & Qv)%Hl). exists (u ++ v).
    split_and!; [by rewrite Eu, Ev, app_assoc | by rewrite Rv, Ru, rev_app_distr, app_assoc | by exists u, v].
  - intros (w & E & R & u & v & -> & Pu & Qv). exists (rev u ++ p.1, v ++ q.2). rewrite (He _ _), (Hl _ _). split.
    + exists u. cbn. by rewrite E, <- app_assoc.
    + exists v. cbn. by rewrite R, rev_app_distr, <- app_assoc.
Qed.

Lemma reads_class e f : (forall p, m e p = one_char f p) -> reads e (fun w => exists c, w = [c] /\ f c = true).
Proof.
  intros H p q. rewrite H, one_char_iff. split.
  - intros (c & F & E & Q). exists [c]. split_and!; [done | done | by exists c].
  - intros (w & E & Q & c & -> & F). by exists c.
Qed.

Lemma reads_repeat min e f : (forall p, m e p = one_char f p) ->
  reads (repeat min e) (fun w => Forall (fun c => f c = true) w /\ min <= length w).
Proof.
  intros H p q. change (m (repeat min e) p) with (iterate (iterate_fuel min p) min None true (m e) p).
  rewrite (iterate_ext _ _ H).
  rewrite iterate_class by (unfold iterate_fuel; lia). naive_solver.
Qed.

Lemma reads_capture a P : reads (seq a) P -> reads (capture [a]) P.
Proof.
  intros H p q. rewrite css_capture, <- (H p q). setoid_rewrite list_elem_of_singleton. naive_solver.
Qed.

Lemma reads_either a b P Q : reads (seq a) P -> reads (seq b) Q -> reads (capture [a; b]) (fun w => P w \/ Q w).
Proof.
  intros Ha Hb p q. rewrite css_capture. setoid_rewrite elem_of_cons. setoid_rewrite list_elem_of_singleton.
  transitivity (q ∈ m (seq a) p \/ q ∈ m (seq b) p); [naive_solver |]. rewrite (Ha p q), (Hb p q). naive_solver.
Qed.

Lemma reads_one e P : reads e P -> reads (seq [e]) P.
Proof.
  intros H. eapply reads_ext; [| apply reads_cons; [apply H | apply reads_nil]]. intros w. split.
  - intros (u & v & -> & Hu & ->). by rewrite app_nil_r.
  - intros Hw. exists w, []. by rewrite app_nil_r.
Qed.

Lemma reads_chr c : reads (chr c) (fun w => w = [c]).
Proof.
  eapply reads_ext; [| by apply (reads_class _ (accepts no_flags (fun _ _ => false) (chr c)))].
  intros w. cbn. split; [intros (x & -> & ->%Z.eqb_eq); done | intros ->; exists c; by rewrite Z.eqb_refl].
Qed.

(** The search finds the texts that the expression reads. *)
Lemma test_iff regex P text : reads regex P ->
  test regex [] text = true <-> exists a w b, text = a ++ w ++ b /\ P w.
Proof.
  intros R. enough (forall before, test regex before text = true <-> exists a w b, text = a ++ w ++ b /\ P w) by done.
  induction text as [|c text IH]; intros before; cbn [test].
  - destruct (css_matches regex (before, [])) as [|q l] eqn:E.
    + split; [done |]. intros ([|] & [|] & b & T & Pw); try done. cbn in T. subst b.
      assert ((before, []) ∈ css_matches regex (before, [])) as X by (apply R; by exists []).
      rewrite E in X. by apply elem_of_nil in X.
    + split; [intros _ | done]. destruct (proj1 (R (before, []) q)) as (w & Ew & _ & Pw); [rewrite E; by left |].
      exists [], w, q.2. by rewrite <- Ew.
  - destruct (css_matches regex (before, c :: text)) as [|q l] eqn:E.
    + rewrite IH. split; [intros (a & w & b & -> & Pw); by exists (c :: a), w, b |].
      intros ([|x a] & w & b & T & Pw).
      * cbn in T. assert ((rev w ++ before, b) ∈ css_matches regex (before, c :: text)) as X.
        { apply R. by exists w. }
        rewrite E in X. by apply elem_of_nil in X.
      * injection T as <- ->. by exists a, w, b.
    + split; [intros _ | done]. destruct (proj1 (R (before, c :: text) q)) as (w & Ew & _ & Pw); [rewrite E; by left |].
      exists [], w, q.2. cbn in Ew |- *. by rewrite <- Ew.
Qed.

End Likely.

Definition css_accepts (e : rnode) (c : Z) : bool := accepts no_flags (fun _ _ => false) e c.

Definition is_letter (c : Z) : bool := between 97 122 c || between 65 90 c.
Definition is_property_char (c : Z) : bool := is_letter c || (45 =? c)%Z.

(** Letters, digits, white space and [, . - # : _] *)
Definition is_selector_char (c : Z) : bool :=
  is_letter c || between 48 57 c || is_space_char c || existsb (fun d => d =? c)%Z [44; 46; 45; 35; 58; 95]%Z.

(** The text that a node reads, from the ones that its parts read. *)
Ltac reader := repeat first
  [ apply reads_nil | apply reads_chr | apply reads_capture | apply reads_either | apply reads_one
  | apply reads_cons | apply reads_repeat; intros; reflexivity ].

Definition all (f : Z -> bool) (l : list Z) : Prop := Forall (fun c => f c = true) l.

Lemma all_ext f g l : (forall c, f c = g c) -> all f l -> all g l.
Proof. intros H A. eapply Forall_impl; [exact A |]. intros c. cbn. by rewrite H. Qed.

Lemma none_of_accepts l c : css_accepts (none_of l) c = negb (existsb (fun e => css_accepts e c) l).
Proof. cbn. by destruct (existsb _ l). Qed.

Definition not_char (x c : Z) : bool := negb (x =? c)%Z.

Lemma accepts_not x c : css_accepts (none_of [chr x]) c = not_char x c.
Proof. rewrite none_of_accepts. cbn. by rewrite orb_false_r. Qed.

Lemma accepts_neither x y c : css_accepts (none_of [chr x; chr y]) c = not_char x c && not_char y c.
Proof. rewrite none_of_accepts. cbn. by rewrite orb_false_r, negb_orb. Qed.

Lemma accepts_property c : css_accepts (one_of (letters ++ [chr 45])) c = is_property_char c.
Proof. unfold is_property_char, is_letter. cbn. by rewrite orb_false_r, orb_assoc. Qed.

Lemma accepts_selector c :
  css_accepts (one_of (letters ++ [range 48 57; white_space; chr 44; chr 46; chr 45; chr 35; chr 58; chr 95])) c =
  is_selector_char c.
Proof. unfold is_selector_char, is_letter. cbn. by rewrite !orb_assoc. Qed.

(** The other direction of an equation. *)
Lemma all_accepts e f l : (forall c, css_accepts e c = f c) -> all f l <-> all (css_accepts e) l.
Proof. split; apply all_ext; congruence. Qed.

Lemma first_of (x : Z) l : x ∈ l -> exists a b, l = a ++ x :: b /\ all (not_char x) a.
Proof.
  induction l as [|c l IH]; [by intros ?%elem_of_nil |]. destruct (Z.eqb_spec x c) as [->|N].
  { intros _. exists [], l. split; [done | constructor]. }
  intros [E|H]%elem_of_cons; [congruence |]. apply IH in H as (a & b & -> & F). exists (c :: a), b.
  split; [done |]. constructor; [| done]. by apply negb_true_iff, Z.eqb_neq.
Qed.

Lemma rule_test text : test ruleRegex [] text = true <->
  exists a c b, text = a ++ c :: 123%Z :: b /\ is_selector_char c = true /\ 125%Z ∈ b.
Proof.
  erewrite test_iff by (unfold ruleRegex; reader). split.
  - intros (a & w & b & -> & u & w1 & -> & [U L] & o & w2 & -> & -> & v & e & -> & _ & ->).
    destruct u as [|c u _] using rev_ind; [cbn in L; lia |].
    apply (all_accepts _ _ _ accepts_selector), Forall_app in U as [_ [Hc _]%Forall_cons].
    exists (a ++ u), c, (v ++ 125%Z :: b). split_and!; [by rewrite <- !app_assoc | done | apply elem_of_app; right; left].
  - intros (a & c & b & -> & Hc & (v & b' & -> & V)%first_of).
    exists a, ([c] ++ [123%Z] ++ v ++ [125%Z]), b'. split; [by rewrite <- !app_assoc |].
    exists [c], ([123%Z] ++ v ++ [125%Z]). split_and!; [done | | cbn; lia |].
    + apply (all_accepts _ _ [c] accepts_selector). by constructor.
    + exists [123%Z], (v ++ [125%Z]). split_and!; [done | done |]. exists v, [125%Z].
      split_and!; [done | | lia | done]. by apply (all_accepts _ _ _ (accepts_not 125)).
Qed.

Lemma decl_test text : test declRegex [] text = true <->
  exists a c sp x b, text = a ++ c :: sp ++ 58%Z :: x :: b /\ is_property_char c = true /\
    all is_space_char sp /\ x <> 59%Z /\ 59%Z ∈ b.
Proof.
  erewrite test_iff by (unfold declRegex; reader). split.
  - intros (a & w & b & -> & u & w1 & -> & [U L] & sp & w2 & -> & [Sp _] & o & w3 & -> & -> &
      sp' & w4 & -> & [Sp' _] & v & e & -> & [V Lv] & ->).
    destruct u as [|c u _] using rev_ind; [cbn in L; lia |].
    apply (all_accepts _ _ _ accepts_property), Forall_app in U as [_ [Hc _]%Forall_cons].
    apply (all_accepts _ _ _ (accepts_not 59)) in V.
    assert (exists x l, sp' ++ v = x :: l /\ x <> 59%Z) as (x & l & E & N).
    { destruct sp' as [|x l].
      - destruct v as [|x l]; [cbn in Lv; lia |]. exists x, l. split; [done |]. apply Forall_cons in V as [V _].
        by intros ->.
      - exists x, (l ++ v). split; [done |]. apply Forall_cons in Sp' as [S _]. by intros ->. }
    exists (a ++ u), c, sp, x, (l ++ 59%Z :: b). split_and!; [| done | done | done | apply elem_of_app; right; left].
    change (x :: l ++ 59%Z :: b) with ((x :: l) ++ 59%Z :: b). by rewrite <- E, <- !app_assoc.
  - intros (a & c & sp & x & b & -> & Hc & Sp & N & (v & b' & -> & V)%first_of).
    exists a, ([c] ++ sp ++ [58%Z] ++ [] ++ (x :: v) ++ [59%Z]), b'. split; [cbn; by rewrite <- ?app_assoc; cbn; rewrite <- ?app_assoc |].
    exists [c], (sp ++ [58%Z] ++ [] ++ (x :: v) ++ [59%Z]). split_and!; [done | | cbn; lia |].
    { apply (all_accepts _ _ [c] accepts_property). by constructor. }
    exists sp, ([58%Z] ++ [] ++ (x :: v) ++ [59%Z]). split_and!; [done | done | lia |].
    exists [58%Z], ([] ++ (x :: v) ++ [59%Z]). split_and!; [done | done |].
    exists [], ((x :: v) ++ [59%Z]). split_and!; [done | by constructor | cbn; lia |].
    exists (x :: v), [59%Z]. split_and!; [done | | cbn; lia | done].
    apply (all_accepts _ _ _ (accepts_not 59)). constructor; [| done]. apply negb_true_iff. by destruct (Z.eqb_spec 59 x).
Qed.

Lemma at_rule_test text : test atRuleRegex [] text = true <->
  exists a x b, text = a ++ 64%Z :: x ++ b /\ all (fun c => not_char 59 c && not_char 123 c) x /\
    (head b = Some 59%Z \/ head b = Some 123%Z /\ 125%Z ∈ b).
Proof.
  erewrite test_iff by (unfold atRuleRegex; reader). split.
  - intros (a & w & b & -> & o & w1 & -> & -> & u & w2 & -> & [U _] & sp & w3 & -> & [Sp _] & v & e & -> & [V _] & E).
    apply (all_accepts _ _ _ (accepts_neither 59 123)) in V.
    exists a, (u ++ sp ++ v), (e ++ b). split_and!.
    + by rewrite <- !app_assoc.
    + apply Forall_app. split; [| apply Forall_app; split; [| done]].
      * apply (all_accepts _ _ _ accepts_property) in U. eapply Forall_impl; [exact U |]. intros c. cbn beta.
        unfold is_property_char, is_letter, between, not_char. intros. lia.
      * eapply Forall_impl; [exact Sp |]. intros c. change (is_space_char c = true -> not_char 59 c && not_char 123 c = true).
        unfold is_space_char, between, is_line_terminator, not_char. intros. lia.
    + destruct E as [->|(o & w & -> & -> & y & z & -> & _ & ->)]; [by left | right]. split; [done |].
      cbn. right. rewrite <- app_assoc. apply elem_of_app. right. left.
  - intros (a & x & b & -> & X & H).
    assert (exists e b', b = e ++ b' /\ (e = [59%Z] \/ exists y, e = [123%Z] ++ y ++ [125%Z] /\ all (not_char 125) y))
      as (e & b' & -> & E).
    { destruct H as [H|[H I]]; destruct b as [|c b]; try done; injection H as ->; [by exists [59%Z], b; split; [|left] |].
      apply elem_of_cons in I as [I|(y & b' & -> & Y)%first_of]; [done |].
      exists ([123%Z] ++ y ++ [125%Z]), b'. split; [by rewrite <- !app_assoc | right; by exists y]. }
    exists a, ([64%Z] ++ [] ++ [] ++ x ++ e), b'. split; [cbn; by rewrite <- ?app_assoc; cbn; rewrite <- ?app_assoc |].
    exists [64%Z], (x ++ e). split_and!; [done | done |].
    exists [], (x ++ e). split_and!; [done | by constructor | cbn; lia |].
    exists [], (x ++ e). split_and!; [done | by constructor | cbn; lia |].
    exists x, e. split_and!; [done | by apply (all_accepts _ _ _ (accepts_neither 59 123)) | lia |].
    destruct E as [->|(y & -> & Y)]; [by left | right].
    exists [123%Z], (y ++ [125%Z]). split_and!; [done | done |]. exists y, [125%Z].
    split_and!; [done | by apply (all_accepts _ _ _ (accepts_not 125)) | lia | done].
Qed.

(** A comment is reported when postcss parses it and it has a block after a character of
    a selector, or a property, a colon and a value before a semicolon, or an at-sign
    before a semicolon or a block. *)
Theorem commented_code_reported parse text : check_comment parse text <> [] <->
  parse text = true /\
  ((exists a c b, text = a ++ c :: 123%Z :: b /\ is_selector_char c = true /\ 125%Z ∈ b) \/
   (exists a c sp x b, text = a ++ c :: sp ++ 58%Z :: x :: b /\ is_property_char c = true /\
      all is_space_char sp /\ x <> 59%Z /\ 59%Z ∈ b) \/
   (exists a x b, text = a ++ 64%Z :: x ++ b /\ all (fun c => not_char 59 c && not_char 123 c) x /\
      (head b = Some 59%Z \/ head b = Some 123%Z /\ 125%Z ∈ b))).
Proof.
  rewrite <- rule_test, <- decl_test, <- at_rule_test. unfold check_comment, isLikelyCss.
  destruct (test ruleRegex [] text), (test declRegex [] text), (test atRuleRegex [] text), (parse text); naive_solver.
Qed.
