(* ===== verification/Traversal.v ===== *)
(** * Traversal: the nodes of a tree as the rules of ESLint meet them

    ESLint walks a tree in depth, through the visitor keys of its parser, and calls the
    listeners of a rule when it enters and when it leaves a node. The rules with a state
    are folds over the events of this walk. *)

From Stdlib Require Import ZArith Lia.
From stdpp Require Import base list strings.
From S2P Require Import Prelude JsString Estree.

Open Scope js_scope.

(** The class [:statement] of the selectors of ESLint, which has the declarations. *)
Definition is_statement (n : node) : bool := endsWith "Statement" (type_of n) || endsWith "Declaration" (type_of n).

(** The ancestors of a node come with it, from the nearest one. *)
Inductive event := Enter (n : node) (parents : list node) | Leave (n : node) (parents : list node).

Section Walk.

Variable keys : VisitorKeys.

Fixpoint events_fuel (fuel : nat) (parents : list node) (n : node) : list event :=
  match fuel with
  | O => []
  | S fuel' =>
      Enter n parents :: flat_map (events_fuel fuel' (n :: parents)) (childrenOf n keys) ++ [Leave n parents]
  end.

(** The events of the walk of a tree; its size is enough fuel ([events_eq]). *)
Definition events (parents : list node) (n : node) : list event := events_fuel (node_size n) parents n.

Lemma events_fuel_enough fuel : forall fuel' parents n, node_size n <= fuel -> node_size n <= fuel' ->
  events_fuel fuel parents n = events_fuel fuel' parents n.
Proof.
  induction fuel as [|fuel IH]; intros fuel' parents n H H'; pose proof (node_size_pos n); [lia |].
  destruct fuel' as [|fuel']; [lia |]. cbn [events_fuel]. do 2 f_equal.
  apply flat_map_ext_in. intros c Hc. apply childrenOf_size in Hc. apply IH; lia.
Qed.

Lemma events_eq parents n :
  events parents n = Enter n parents :: flat_map (events (n :: parents)) (childrenOf n keys) ++ [Leave n parents].
Proof.
  unfold events at 1. pose proof (node_size_pos n). destruct (node_size n) as [|k] eqn:E; [lia |].
  cbn [events_fuel]. do 2 f_equal. apply flat_map_ext_in. intros c Hc. apply childrenOf_size in Hc.
  apply events_fuel_enough; lia.
Qed.

(** Functions on a node and its ancestors by recursion on the children. *)
Section Below.

Context {A : Type} (f : node -> list node -> list A -> list A).

Fixpoint below_fuel (fuel : nat) (parents : list node) (n : node) : list A :=
  match fuel with
  | O => []
  | S fuel' => f n parents (flat_map (below_fuel fuel' (n :: parents)) (childrenOf n keys))
  end.

Definition below (parents : list node) (n : node) : list A := below_fuel (node_size n) parents n.

Lemma below_fuel_enough fuel : forall fuel' parents n, node_size n <= fuel -> node_size n <= fuel' ->
  below_fuel fuel parents n = below_fuel fuel' parents n.
Proof.
  induction fuel as [|fuel IH]; intros fuel' parents n H H'; pose proof (node_size_pos n); [lia |].
  destruct fuel' as [|fuel']; [lia |]. cbn [below_fuel]. f_equal.
  apply flat_map_ext_in. intros c Hc. apply childrenOf_size in Hc. apply IH; lia.
Qed.

Lemma below_eq parents n : below parents n = f n parents (flat_map (below (n :: parents)) (childrenOf n keys)).
Proof.
  unfold below at 1. pose proof (node_size_pos n). destruct (node_size n) as [|k] eqn:E; [lia |].
  cbn [below_fuel]. f_equal. apply flat_map_ext_in. intros c Hc. apply childrenOf_size in Hc.
  apply below_fuel_enough; lia.
Qed.

(** Functions that do not look at the ancestors. *)
Lemma below_parents : (forall n parents parents' l, f n parents l = f n parents' l) ->
  forall n parents parents', below parents n = below parents' n.
Proof.
  intros F n. induction n as [n IH] using (node_children_ind keys). intros parents parents'.
  rewrite !below_eq, (F n parents parents'). f_equal. apply flat_map_ext_in.
  intros c Hc. by apply IH.
Qed.

End Below.

End Walk.

(** ** Reports put together: the first error, or all the reports *)

Fixpoint all_reports {E A} (l : list (result E (list A))) : result E (list A) :=
  match l with
  | [] => Ok []
  | r :: rest => let! a := r in let! b := all_reports rest in Ok (a ++ b)
  end.

Lemma all_reports_app {E A} (l k : list (result E (list A))) :
  all_reports (l ++ k) = let! a := all_reports l in let! b := all_reports k in Ok (a ++ b).
Proof.
  induction l as [|r l IH]; cbn; [by destruct (all_reports k) |]. destruct r as [a|e]; [| done]. cbn.
  rewrite IH. destruct (all_reports l) as [b|e]; [| done]. cbn. destruct (all_reports k) as [c|e]; [| done]. cbn.
  by rewrite app_assoc.
Qed.

(** ** Runs *)

Section Runs.

Context {E St : Type} (on : event -> St -> result E St).

Definition run (l : list event) (st : St) : result E St := rfold (fun st e => on e st) l st.

Lemma run_cons e l st : run (e :: l) st = let! st := on e st in run l st.
Proof. done. Qed.

Lemma run_app l k st : run (l ++ k) st = let! st := run l st in run k st.
Proof.
  revert st. induction l as [|e l IH]; intros st; [done |]. cbn. destruct (on e st) as [st'|x]; [| done]. apply IH.
Qed.

Lemma run_one e st : run [e] st = on e st.
Proof. unfold run. cbn. by destruct (on e st). Qed.

(** The run of a tree: enter, the children, leave. *)
Lemma run_events keys parents n st : run (events keys parents n) st =
  let! st := on (Enter n parents) st in
  let! st := run (flat_map (events keys (n :: parents)) (childrenOf n keys)) st in
  on (Leave n parents) st.
Proof.
  rewrite events_eq, run_cons. destruct (on (Enter n parents) st) as [st'|x]; [| done]. cbn [rbind].
  rewrite run_app. destruct (run _ st') as [st2|x]; [| done]. apply run_one.
Qed.

(** An invariant on the state and the nodes that are entered and not left yet, for
    events that have a property. *)
Lemma run_invariant keys (P : event -> Prop) (Inv : list node -> St -> Prop) :
  (forall n parents st st', P (Enter n parents) -> Inv parents st -> on (Enter n parents) st = Ok st' -> Inv (n :: parents) st') ->
  (forall n parents st st', P (Leave n parents) -> Inv (n :: parents) st -> on (Leave n parents) st = Ok st' -> Inv parents st') ->
  forall n parents st st', (forall e, e ∈ events keys parents n -> P e) ->
    Inv parents st -> run (events keys parents n) st = Ok st' -> Inv parents st'.
Proof.
  intros HE HL n. induction n as [n IH] using (node_children_ind keys). intros parents st st' HP I R.
  rewrite run_events in R. apply rbind_ok in R as (st1 & E1 & R). apply rbind_ok in R as (st2 & R & E2).
  rewrite events_eq in HP. apply (HL n parents st2); [apply HP | | done].
  { right. apply elem_of_app. right. by left. }
  apply (HE n parents) in E1; [| apply HP; by left | done]. clear E2 I.
  assert (forall e, e ∈ flat_map (events keys (n :: parents)) (childrenOf n keys) -> P e) as HP'.
  { intros e He. apply HP. right. apply elem_of_app. by left. }
  clear HP. revert st1 st2 E1 R. induction (childrenOf n keys) as [|c l IHl]; intros st1 st2 I R; [by injection R as <- |].
  cbn [flat_map] in R, HP'. rewrite run_app in R. apply rbind_ok in R as (st3 & R3 & R).
  apply (IHl (fun x Hx => IH x (list_elem_of_further _ _ _ Hx))) with (st1 := st3).
  - intros e He. apply HP', elem_of_app. by right.
  - apply (IH c (list_elem_of_here _ _) (n :: parents) st1); [| done | done]. intros e He. apply HP', elem_of_app. by left.
  - done.
Qed.

End Runs.

(** A rule whose state is determined by the nodes above: on a tree it makes the reports of
    each event, and leaves the state as it was. *)
Lemma run_stack {E S R} keys (on : event -> S * list R -> result E (S * list R)) (stack : list node -> S)
    (at_event : event -> result E (list R)) :
  (forall n parents r, on (Enter n parents) (stack parents, r) = let! own := at_event (Enter n parents) in Ok (stack (n :: parents), r ++ own)) ->
  (forall n parents r, on (Leave n parents) (stack (n :: parents), r) = Ok (stack parents, r)) ->
  (forall n parents, at_event (Leave n parents) = Ok []) ->
  forall n parents r, run on (events keys parents n) (stack parents, r) =
    let! reports := all_reports (map at_event (events keys parents n)) in Ok (stack parents, r ++ reports).
Proof.
  intros HE HL HN n. induction n as [n IH] using (node_children_ind keys). intros parents r.
  assert (forall l, (forall c, c ∈ l -> c ∈ childrenOf n keys) -> forall r,
    run on (flat_map (events keys (n :: parents)) l) (stack (n :: parents), r) =
    let! reports := all_reports (map at_event (flat_map (events keys (n :: parents)) l)) in Ok (stack (n :: parents), r ++ reports)) as All.
  { induction l as [|c l IHl]; intros H r'; [cbn; by rewrite app_nil_r |]. cbn [flat_map].
    rewrite run_app, map_app, all_reports_app, IH by (apply H; by left).
    destruct (all_reports (map at_event (events keys (n :: parents) c))); cbn [rbind]; [| done].
    rewrite IHl by (intros c' Hc; apply H; by right). destruct (all_reports _); cbn [rbind]; [by rewrite app_assoc | done]. }
  rewrite run_events, events_eq, HE. cbn [map all_reports]. rewrite map_app, all_reports_app.
  destruct (at_event (Enter n parents)) as [own|]; cbn [rbind]; [| done].
  rewrite All by done. destruct (all_reports _); cbn [rbind]; [| done].
  rewrite HL. cbn [map all_reports rbind]. rewrite HN. cbn. by rewrite !app_nil_r, app_assoc.
Qed.
