(* ===== verification/Loops.v ===== *)
(** * Loops: the rules on the counters of for loops

    The rules S2251 (counters that move away from the bound), S888 (equality in the
    condition) and S1994 (conditions on something else than what is updated), and the
    execution of counting loops, against which the first two are specified. *)

From Stdlib Require Import ZArith QArith Lqa Lia Ascii.
From stdpp Require Import base list strings.
From S2P Require Import Prelude JsString Estree JsNumber Ast Duplicates Traversal.

Open Scope js_scope.
Open Scope Z_scope.

(** ** S2251: counters that move the wrong way *)

Definition operator_of (n : node) : string := match get_str n "operator" with Some s => s | None => "" end.

Definition text_prop (n : node) (k : string) : string := match get_str n k with Some s => s | None => "" end.

Record ForLoopIncrement := mkIncrement { increment : node; identifier : node; direction : Z }.

Definition new_increment (inc expression : node) (dir : Z) : option ForLoopIncrement :=
  if type_of expression =s "Identifier" then Some (mkIncrement inc expression dir) else None.

Fixpoint directionFromValue_fuel (fuel : nat) (expression : node) : Z :=
  match fuel with
  | O => 0
  | S fuel' =>
      if type_of expression =s "Literal" then
        match Number (text_prop expression "raw") with Some v => sgn v | None => 0 end
      else if type_of expression =s "UnaryExpression" then
        match get_node expression "argument" with
        | Some argument =>
            if operator_of expression =s "+" then directionFromValue_fuel fuel' argument
            else if operator_of expression =s "-" then - directionFromValue_fuel fuel' argument
            else 0
        | None => 0
        end
      else 0
  end.

Definition directionFromValue (expression : node) : Z := directionFromValue_fuel (node_size expression) expression.

Definition isSameIdentifier (expression : option node) (id : node) : bool :=
  match expression with
  | Some e => (type_of e =s "Identifier") && (text_prop e "name" =s text_prop id "name")
  | None => false
  end.

Definition assignmentIncrement (assignment : node) : option ForLoopIncrement :=
  match get_node assignment "left", get_node assignment "right" with
  | Some lhs, Some rhs =>
      if (type_of lhs =s "Identifier") && (type_of rhs =s "BinaryExpression")
         && ((operator_of rhs =s "+") || (operator_of rhs =s "-"))
      then
        match get_node rhs "right" with
        | Some value =>
            let dir := directionFromValue value in
            if isSameIdentifier (get_node rhs "left") lhs
            then new_increment assignment lhs (if operator_of rhs =s "-" then - dir else dir)
            else None
        | None => None
        end
      else None
  | _, _ => None
  end.

Definition findInLoopUpdate (forStatement : node) : option ForLoopIncrement :=
  match get_node forStatement "update" with
  | None => None
  | Some expression =>
      if type_of expression =s "UpdateExpression" then
        match get_node expression "argument" with
        | Some argument => new_increment expression argument (if operator_of expression =s "++" then 1 else -1)
        | None => None
        end
      else if type_of expression =s "AssignmentExpression" then
        match get_node expression "left", get_node expression "right" with
        | Some target, Some value =>
            if operator_of expression =s "+=" then
              if type_of target =s "Identifier" then new_increment expression target (directionFromValue value) else None
            else if operator_of expression =s "-=" then
              if type_of target =s "Identifier" then new_increment expression target (- directionFromValue value) else None
            else if operator_of expression =s "=" then assignmentIncrement expression
            else None
        | _, _ => None
        end
      else None
  end.

Definition getWrongDirection (condition : node) (forLoopIncrement : ForLoopIncrement) : Z :=
  if negb (type_of condition =s "BinaryExpression") then 0
  else
    let less := (operator_of condition =s "<") || (operator_of condition =s "<=") in
    let greater := (operator_of condition =s ">") || (operator_of condition =s ">=") in
    if isSameIdentifier (get_node condition "left") (identifier forLoopIncrement) then
      if less then -1 else if greater then 1 else 0
    else if isSameIdentifier (get_node condition "right") (identifier forLoopIncrement) then
      if less then 1 else if greater then -1 else 0
    else 0.

Definition quote : string := bytes [34%nat].

(** A report: its message, its node, and the node of its secondary location. *)
Definition wrongDirectionReport (forStatement : node) : option (string * node * node) :=
  match get_node forStatement "test", findInLoopUpdate forStatement, get_node forStatement "update" with
  | Some test, Some loopIncrement, Some update =>
      let wrongDirection := getWrongDirection test loopIncrement in
      if negb (wrongDirection =? 0) && (wrongDirection =? direction loopIncrement) then
        let movement := if 0 <? wrongDirection then "incremented" else "decremented" in
        Some (quote +:+ text_prop (identifier loopIncrement) "name" +:+ quote +:+ " is " +:+ movement
              +:+ " and will never reach its stop condition.", update, test)
      else None
  | _, _, _ => None
  end.

(** ** S888: equality in the condition *)

Definition allEqualityOperators : list string := ["!="; "=="; "!=="; "==="].
Definition notEqualOperators : list string := ["!=="; "!="].
Definition plusMinusOperators : list string := ["+="; "-="].

Definition isEquality (expression : node) : bool :=
  (type_of expression =s "BinaryExpression") && includes (operator_of expression) allEqualityOperators.

Definition isIncDec (expression : node) : bool :=
  (type_of expression =s "AssignmentExpression") && includes (operator_of expression) plusMinusOperators.

Fixpoint isUpdateIncDec_fuel (fuel : nat) (expression : node) : bool :=
  match fuel with
  | O => false
  | S fuel' =>
      if isIncDec expression || (type_of expression =s "UpdateExpression") then true
      else if type_of expression =s "SequenceExpression"
      then forallb (isUpdateIncDec_fuel fuel') (get_nodes expression "expressions")
      else false
  end.

Definition isUpdateIncDec (expression : node) : bool := isUpdateIncDec_fuel (node_size expression) expression.

Fixpoint collectCounters_fuel (fuel : nat) (expression : node) : list string :=
  match fuel with
  | O => []
  | S fuel' =>
      let counter := if isIncDec expression then get_node expression "left"
                     else if type_of expression =s "UpdateExpression" then get_node expression "argument"
                     else None in
      let inner := if isIncDec expression || (type_of expression =s "UpdateExpression") then []
                   else if type_of expression =s "SequenceExpression"
                   then flat_map (collectCounters_fuel fuel') (get_nodes expression "expressions")
                   else [] in
      inner ++ match counter with
               | Some c => if type_of c =s "Identifier" then [text_prop c "name"] else []
               | None => []
               end
  end.

Definition collectCounters (expression : node) : list string :=
  collectCounters_fuel (node_size expression) expression.

Definition isNotEqual (n : node) : bool :=
  (type_of n =s "BinaryExpression") && includes (operator_of n) notEqualOperators.

Definition isUpdateOnOneWithAssign (expression : node) : bool :=
  if isIncDec expression then
    match get_node expression "right" with
    | Some value =>
        (type_of value =s "Literal")
        && match get value "value" with VNum (NumQ q) => Qeq_bool q 1 | _ => false end
    | None => false
    end
  else false.

Definition getInteger (n : option node) : option jsnum :=
  match n with
  | Some n => if type_of n =s "Literal" then match get n "value" with VNum v => Some v | _ => None end else None
  | None => None
  end.

Definition isOneVarDeclaration (n : node) : bool :=
  (type_of n =s "VariableDeclaration") && Nat.eqb (length (get_array n "declarations")) 1.

Definition getValue (n : node) : option jsnum :=
  if isNotEqual n then getInteger (get_node n "right")
  else if isOneVarDeclaration n then
    match get_nodes n "declarations" with
    | variable :: _ => getInteger (get_node variable "init")
    | [] => None
    end
  else if type_of n =s "AssignmentExpression" then getInteger (get_node n "right")
  else None.

(** [Math.sign(a - b)]; [None] is [NaN]. *)
Definition sign_of_difference (a b : jsnum) : option Z :=
  match a, b with
  | NumNaN, _ | _, NumNaN => None
  | NumQ p, NumQ q => Some (sgn (p - q))
  | NumInfinity n, NumInfinity n' => if Bool.eqb n n' then None else Some (if n then -1 else 1)
  | NumInfinity n, NumQ _ => Some (if n then -1 else 1)
  | NumQ _, NumInfinity n => Some (if n then 1 else -1)
  end.

Section Equality.

Variable sm : ScopeManager.

Definition isInBody (id : node) (bodyRange : Z * Z) : bool :=
  match h_range (hdr id) with
  | Some (a, b) => (bodyRange.1 <? a) && (b <? bodyRange.2)
  | None => false
  end.

Definition isUsedInsideBody (id loopBody : node) : bool :=
  if type_of id =s "Identifier" then
    match getVariableFromName sm (text_prop id "name") id, h_range (hdr loopBody) with
    | Some v, Some bodyRange =>
        match variable_at sm v with
        | Some variable =>
            existsb (fun r => isInBody (ref_identifier r) bodyRange) (omap (reference_at sm) (var_references variable))
        | None => false
        end
    | _, _ => false
    end
  else false.

Definition isUpdateByOne (update loopBody : node) : bool :=
  ((type_of update =s "UpdateExpression")
   && match get_node update "argument" with Some a => negb (isUsedInsideBody a loopBody) | None => false end)
  || (isUpdateOnOneWithAssign update
      && match get_node update "left" with Some l => negb (isUsedInsideBody l loopBody) | None => false end).

Definition checkForUpdateByOne (update loopBody : node) : Z :=
  if isUpdateByOne update loopBody then
    if (operator_of update =s "++") || (operator_of update =s "+=") then 1
    else if (operator_of update =s "--") || (operator_of update =s "-=") then -1
    else 0
  else 0.

Definition isNontrivialConditionException (test update : node) : bool :=
  match get_node test "left" with
  | Some l =>
      negb (type_of l =s "Identifier") || negb (includes (text_prop l "name") (collectCounters update))
  | None => true
  end.

Definition isTrivialIteratorException (init : option node) (test update body : node) : bool :=
  match init with
  | Some init =>
      if isNotEqual test then
        let updatedByOne := checkForUpdateByOne update body in
        if negb (updatedByOne =? 0) then
          match getValue init, getValue test with
          | Some beginValue, Some endValue =>
              match sign_of_difference endValue beginValue with
              | Some s => updatedByOne =? s
              | None => false
              end
          | _, _ => false
          end
        else false
      else false
  | None => false
  end.

(** The operator and the node that are reported. *)
Definition equalityReport (forStatement : node) : option (string * node) :=
  match get_node forStatement "test", get_node forStatement "update", get_node forStatement "body" with
  | Some condition, Some update, Some body =>
      if isEquality condition && isUpdateIncDec update
         && negb (isNontrivialConditionException condition update
                  || isTrivialIteratorException (get_node forStatement "init") condition update body)
      then Some (operator_of condition, condition)
      else None
  | _, _, _ => None
  end.

End Equality.

(** ** Executions of counting loops

    A loop whose body leaves its counter [x] alone is the sequence of the values of the
    counter. Numbers are rationals and [round] is what the additions of the language do to
    their exact results: for doubles, the rounding to the nearest one. *)

Section Execution.

Variable x : string.
Variable round : Q -> Q.
(** The value of an expression of another form, for a value of the counter. *)
Variable other : node -> Q -> Q.

Definition is_counter (e : node) : bool := (type_of e =s "Identifier") && (text_prop e "name" =s x).

Fixpoint value_fuel (fuel : nat) (e : node) (c : Q) : Q :=
  match fuel with
  | O => other e c
  | S fuel' =>
      if is_counter e then c
      else if type_of e =s "Literal" then match get e "value" with VNum (NumQ q) => q | _ => other e c end
      else if type_of e =s "UnaryExpression" then
        match get_node e "argument" with
        | Some a =>
            if operator_of e =s "+" then value_fuel fuel' a c
            else if operator_of e =s "-" then (- value_fuel fuel' a c)%Q
            else other e c
        | None => other e c
        end
      else other e c
  end.

Definition value_of (e : node) (c : Q) : Q := value_fuel (node_size e) e c.

Definition value_at (e : option node) (c : Q) : Q := match e with Some e => value_of e c | None => 0%Q end.

(** Whether the condition lets the loop go on. *)
Definition goes_on (test : node) (c : Q) : bool :=
  let l := value_at (get_node test "left") c in
  let r := value_at (get_node test "right") c in
  let op := operator_of test in
  if op =s "<" then negb (Qle_bool r l)
  else if op =s "<=" then Qle_bool l r
  else if op =s ">" then negb (Qle_bool l r)
  else if op =s ">=" then Qle_bool r l
  else if includes op notEqualOperators then negb (Qeq_bool l r)
  else Qeq_bool l r.

(** Whether the update is one of the counter. *)
Definition updates_counter (update : node) : bool :=
  match (if type_of update =s "UpdateExpression" then get_node update "argument" else get_node update "left") with
  | Some target => is_counter target
  | None => false
  end.

(** The counter after the update. *)
Definition step (update : node) (c : Q) : Q :=
  let right := get_node update "right" in
  if negb (updates_counter update) then c
  else if type_of update =s "UpdateExpression" then round (if operator_of update =s "++" then c + 1 else c - 1)
  else if operator_of update =s "+=" then round (c + value_at right c)
  else if operator_of update =s "-=" then round (c - value_at right c)
  else match right with
       | Some r =>
           let a := value_at (get_node r "left") c in
           let b := value_at (get_node r "right") c in
           round (if operator_of r =s "-" then a - b else a + b)
       | None => c
       end.

(** The counter at the start of a turn. *)
Definition turn (update : node) (begin : Q) (k : nat) : Q := Nat.iter k (step update) begin.

End Execution.

(** The text of a literal reads as its value, as far as [Number] understands it. *)
Fixpoint reads_as_written (fuel : nat) (e : node) : bool :=
  match fuel with
  | O => true
  | S fuel' =>
      if type_of e =s "Literal" then
        match Number (text_prop e "raw"), get e "value" with
        | Some v, VNum (NumQ q) => sgn v =? sgn q
        | Some _, _ => false
        | None, _ => true
        end
      else match get_node e "argument" with Some a => reads_as_written fuel' a | None => true end
  end.

Definition constant_of (update : node) : option node :=
  match get_node update "right" with
  | Some r => if operator_of update =s "=" then get_node r "right" else Some r
  | None => None
  end.

Definition written_constant (update : node) : bool :=
  match constant_of update with Some e => reads_as_written (node_size e) e | None => true end.

(** The other side of the comparison with a counter. *)
Definition bound_of (id test : node) : option node :=
  if isSameIdentifier (get_node test "left") id then get_node test "right" else get_node test "left".

Lemma sgn_neg q : sgn (- q) = - sgn q.
Proof. unfold sgn. cbn. apply Z.sgn_opp. Qed.

Lemma sgn_pos q : sgn q = 1 -> (0 < q)%Q.
Proof. unfold sgn, Qlt. destruct q as [[|p|p] d]; cbn; lia. Qed.

Lemma sgn_neg_lt q : sgn q = -1 -> (q < 0)%Q.
Proof. unfold sgn, Qlt. destruct q as [[|p|p] d]; cbn; lia. Qed.

Section Direction.

Variable x : string.
Variable round : Q -> Q.
Variable other : node -> Q -> Q.
Hypothesis round_le : forall a b, (a <= b)%Q -> (round a <= round b)%Q.
Hypothesis round_round : forall a, (round (round a) == round a)%Q.

Lemma other_type_no_counter e t : type_of e = t -> (t =s "Identifier") = false -> is_counter x e = false.
Proof. unfold is_counter. by intros -> ->. Qed.

(** A direction that is not zero is the sign of the value. *)
Lemma direction_of_value fuel e c : reads_as_written fuel e = true -> directionFromValue_fuel fuel e <> 0 ->
  sgn (value_fuel x other fuel e c) = directionFromValue_fuel fuel e.
Proof.
  revert e. induction fuel as [|fuel IH]; intros e R N; [done |].
  cbn [reads_as_written directionFromValue_fuel value_fuel] in *.
  destruct (type_of e =s "Literal") eqn:L.
  - apply String.eqb_eq in L. rewrite (other_type_no_counter e _ L) by done.
    destruct (Number (text_prop e "raw")) as [v|]; [| done]. destruct (get e "value"); try done. destruct n; try done.
    symmetry. by apply Z.eqb_eq.
  - destruct (type_of e =s "UnaryExpression") eqn:U; [| done]. apply String.eqb_eq in U.
    rewrite (other_type_no_counter e _ U) by done. destruct (get_node e "argument") as [a|]; [| done].
    destruct (operator_of e =s "+"); [by apply IH |]. destruct (operator_of e =s "-"); [| done].
    rewrite sgn_neg, IH; [done | done | lia].
Qed.

Lemma counter_value e c : is_counter x e = true -> value_of x other e c = c.
Proof.
  unfold value_of. pose proof (node_size_pos e). destruct (node_size e) as [|k]; [lia |]. intros C.
  cbn [value_fuel]. by rewrite C.
Qed.

Lemma same_identifier_counter id e : text_prop id "name" = x -> isSameIdentifier (Some e) id = true -> is_counter x e = true.
Proof. unfold isSameIdentifier, is_counter. by intros ->. Qed.

(** From [c], in a direction. *)
Definition moves (d : Z) (c c' : Q) : Prop :=
  (round c' == c')%Q /\ (d = 1 -> (c <= c')%Q) /\ (d = -1 -> (c' <= c)%Q).

Lemma round_moves c v d : (round c == c)%Q -> sgn v = d -> moves d c (round (c + v)).
Proof.
  intros R S. split_and!; [apply round_round | |]; intros ->.
  - apply sgn_pos in S. rewrite <- R at 1. apply round_le. lra.
  - apply sgn_neg_lt in S. rewrite <- R at 2. apply round_le. lra.
Qed.

Lemma round_moves_back c v d : (round c == c)%Q -> sgn v = d -> moves (- d) c (round (c - v)).
Proof.
  intros R S. split_and!; [apply round_round | |]; intros E.
  - assert (d = -1) as -> by lia. apply sgn_neg_lt in S. rewrite <- R at 1. apply round_le. lra.
  - assert (d = 1) as -> by lia. apply sgn_pos in S. rewrite <- R at 2. apply round_le. lra.
Qed.

Lemma constant_direction e c : reads_as_written (node_size e) e = true -> directionFromValue e <> 0 ->
  sgn (value_of x other e c) = directionFromValue e.
Proof. apply direction_of_value. Qed.

Lemma new_increment_inv inc e d i : new_increment inc e d = Some i ->
  identifier i = e /\ direction i = d /\ (type_of e =s "Identifier") = true.
Proof. unfold new_increment. destruct (_ =s _); [| done]. by intros [= <-]. Qed.

Lemma increment_counter inc e d i : new_increment inc e d = Some i -> text_prop (identifier i) "name" = x ->
  is_counter x e = true /\ direction i = d.
Proof.
  intros (I & D & T)%new_increment_inv X. split; [| done]. unfold is_counter. rewrite T, <- I, X. apply String.eqb_refl.
Qed.

Lemma step_moves f update inc c : get_node f "update" = Some update -> findInLoopUpdate f = Some inc ->
  text_prop (identifier inc) "name" = x -> written_constant update = true -> direction inc <> 0 ->
  (round c == c)%Q -> moves (direction inc) c (step x round other update c).
Proof.
  unfold findInLoopUpdate, written_constant, constant_of, step, updates_counter. intros -> F X W D R.
  destruct (type_of update =s "UpdateExpression").
  { destruct (get_node update "argument") as [a|]; [| done]. apply increment_counter in F as [-> ->]; [| done].
    cbn [negb]. destruct (operator_of update =s "++"); [by apply round_moves | by apply (round_moves_back c 1 1)]. }
  destruct (type_of update =s "AssignmentExpression"); [| done].
  destruct (get_node update "left") as [target|] eqn:L; [| done].
  destruct (get_node update "right") as [value|] eqn:V; [| done]. cbn [value_at].
  destruct (operator_of update =s "+=") eqn:O1.
  { apply String.eqb_eq in O1. rewrite O1 in W. destruct (_ =s _) in F; [| done].
    apply increment_counter in F as [-> E]; [| done]. rewrite E in *. apply round_moves; [done | by apply constant_direction]. }
  destruct (operator_of update =s "-=") eqn:O2.
  { apply String.eqb_eq in O2. rewrite O2 in W. destruct (_ =s _) in F; [| done].
    apply increment_counter in F as [-> E]; [| done]. rewrite E in *. apply round_moves_back; [done |].
    apply constant_direction; [done | lia]. }
  destruct (operator_of update =s "=") eqn:O3; [| done]. unfold assignmentIncrement in F. rewrite L, V in F.
  destruct ((_ =s _) && _ && _) in F; [| done]. destruct (get_node value "right") as [v|]; [| done].
  destruct (isSameIdentifier _ _) eqn:S; [| done]. destruct (new_increment_inv _ _ _ _ F) as (I & _ & _).
  apply increment_counter in F as [-> E]; [| done]. cbn [negb].
  destruct (get_node value "left") as [l|]; [| done]. cbn [value_at].
  rewrite (counter_value l) by (eapply same_identifier_counter; [| exact S]; congruence).
  destruct (operator_of value =s "-"); rewrite E in *.
  - apply round_moves_back; [done |]. apply constant_direction; [done | lia].
  - apply round_moves; [done | by apply constant_direction].
Qed.

Lemma Qle_bool_false a b : Qle_bool a b = false <-> (b < a)%Q.
Proof. rewrite <- not_true_iff_false, Qle_bool_iff. split; lra. Qed.

(** A test with a fixed bound goes on holding in the wrong direction. *)
Lemma goes_on_away test inc c c' : text_prop (identifier inc) "name" = x ->
  getWrongDirection test inc = direction inc -> direction inc <> 0 ->
  (forall a b, (value_at x other (bound_of (identifier inc) test) a == value_at x other (bound_of (identifier inc) test) b)%Q) ->
  moves (direction inc) c c' -> goes_on x other test c = true -> goes_on x other test c' = true.
Proof.
  unfold getWrongDirection, bound_of, goes_on. intros X W D B (_ & Up & Down) G.
  destruct (type_of test =s "BinaryExpression"); cbn [negb] in W; [| lia].
  destruct (isSameIdentifier (get_node test "left") (identifier inc)) eqn:S.
  - destruct (get_node test "left") as [l|]; [| done]. cbn [value_at] in *.
    rewrite !(counter_value l) in * by (by eapply same_identifier_counter).
    specialize (B c c'). destruct (operator_of test =s "<"), (operator_of test =s "<="),
      (operator_of test =s ">"), (operator_of test =s ">="); cbn [orb] in W; try lia;
      rewrite ?negb_true_iff, ?Qle_bool_false, ?Qle_bool_iff in *; rewrite <- W in *;
      (specialize (Up eq_refl) || specialize (Down eq_refl)); lra.
  - destruct (isSameIdentifier (get_node test "right") (identifier inc)) eqn:S'; [| lia].
    destruct (get_node test "right") as [r|]; [| done]. cbn [value_at] in *.
    rewrite !(counter_value r) in * by (by eapply same_identifier_counter).
    specialize (B c c'). destruct (operator_of test =s "<"), (operator_of test =s "<="),
      (operator_of test =s ">"), (operator_of test =s ">="); cbn [orb] in W; try lia;
      rewrite ?negb_true_iff, ?Qle_bool_false, ?Qle_bool_iff in *; rewrite <- W in *;
      (specialize (Up eq_refl) || specialize (Down eq_refl)); lra.
Qed.

(** C28: A loop that S2251 reports never reaches its stop condition: once the test
    holds, it holds at the start of every turn, when the body leaves the counter alone,
    the other side of the comparison is fixed, and the rounding of additions preserves
    the order. *)
Theorem reported_loops_never_stop f test update inc c :
  wrongDirectionReport f <> None ->
  get_node f "test" = Some test -> get_node f "update" = Some update -> findInLoopUpdate f = Some inc ->
  text_prop (identifier inc) "name" = x -> written_constant update = true ->
  (forall a b, (value_at x other (bound_of (identifier inc) test) a == value_at x other (bound_of (identifier inc) test) b)%Q) ->
  (round c == c)%Q -> goes_on x other test c = true ->
  forall k, goes_on x other test (turn x round other update c k) = true.
Proof.
  unfold wrongDirectionReport. intros Rep T U F X W B R G k. rewrite T, U, F in Rep.
  destruct (negb (getWrongDirection test inc =? 0) && (getWrongDirection test inc =? direction inc)) eqn:E; [| done].
  apply andb_true_iff in E as [E1 E2]. apply negb_true_iff, Z.eqb_neq in E1. apply Z.eqb_eq in E2.
  assert (direction inc <> 0) as D by lia.
  enough ((round (turn x round other update c k) == turn x round other update c k)%Q /\
          goes_on x other test (turn x round other update c k) = true) by tauto.
  induction k as [|k [IHr IH]]; [done |]. unfold turn in *. rewrite Nat.iter_succ.
  pose proof (step_moves f update inc _ U F X W D IHr) as M. split; [apply M |].
  by apply (goes_on_away test inc _ _ X E2 D B M).
Qed.

End Direction.

Section Trivial.

Variable sm : ScopeManager.
Variable x : string.
Variable round : Q -> Q.
Variable other : node -> Q -> Q.
Hypothesis round_le : forall a b, (a <= b)%Q -> (round a <= round b)%Q.
(** The integers up to 2^53 are numbers. *)
Hypothesis round_integer : forall z, Z.abs z <= 2 ^ 53 -> (round (inject_Z z) == inject_Z z)%Q.

Lemma round_eq a b : (a == b)%Q -> (round a == round b)%Q.
Proof. intros E. apply Qle_antisym; apply round_le; lra. Qed.

Lemma literal_value e q c : getInteger (Some e) = Some (NumQ q) -> value_of x other e c = q.
Proof.
  unfold getInteger, value_of. destruct (type_of e =s "Literal") eqn:L; [| done].
  destruct (get e "value") eqn:V; try done. intros [= ->].
  pose proof (node_size_pos e). destruct (node_size e) as [|k]; [lia |]. cbn [value_fuel].
  apply String.eqb_eq in L. rewrite (other_type_no_counter x e _ L), L, V by done. done.
Qed.

(** ESTree: the operators of an update expression. *)
Definition update_operator (update : node) : bool :=
  if type_of update =s "UpdateExpression" then includes (operator_of update) ["++"; "--"] else true.

(** One turn of an update by one. *)
Lemma step_by_one update body c z d : checkForUpdateByOne sm update body = d -> d <> 0 -> update_operator update = true ->
  updates_counter x update = true -> (c == inject_Z z)%Q -> Z.abs (z + d) <= 2 ^ 53 -> (step x round other update c == inject_Z (z + d))%Q.
Proof.
  unfold checkForUpdateByOne, step, update_operator. destruct (isUpdateByOne sm update body) eqn:O; [| by intros <-].
  intros D N W -> C B. cbn [negb].
  assert (forall y, (y == inject_Z (z + d))%Q -> (round y == inject_Z (z + d))%Q) as R.
  { intros y Y. rewrite (round_eq _ _ Y). by apply round_integer. }
  unfold isUpdateByOne in O. destruct (type_of update =s "UpdateExpression") eqn:T.
  - apply includes_spec in W. apply R.
    rewrite !elem_of_cons, elem_of_nil in W. destruct W as [W|[W|W]]; [| | done]; rewrite W in *; cbn in D |- *;
      by rewrite C, <- D, inject_Z_plus.
  - cbn [andb orb] in O. apply andb_true_iff in O as [O _]. unfold isUpdateOnOneWithAssign, isIncDec in O.
    destruct (type_of update =s "AssignmentExpression"); [| done]. cbn [andb] in O.
    destruct (includes (operator_of update) plusMinusOperators) eqn:P; [| done]. apply includes_spec in P.
    destruct (get_node update "right") as [r|]; [| done]. cbn [value_at].
    destruct (type_of r =s "Literal") eqn:L; [| done]. destruct (get r "value") eqn:V; try done.
    destruct n as [q| |]; try done. cbn [andb] in O. apply Qeq_bool_eq in O.
    assert (value_of x other r c = q) as -> by (apply literal_value; unfold getInteger; by rewrite L, V).
    unfold plusMinusOperators in P. rewrite !elem_of_cons, elem_of_nil in P.
    destruct P as [P|[P|P]]; [| | done]; rewrite P in *; apply R; cbn in D |- *; by rewrite C, O, <- D, inject_Z_plus.
Qed.

Lemma sgn_inject q z : (q == inject_Z z)%Q -> sgn q = Z.sgn z.
Proof.
  intros E. unfold sgn. destruct q as [n d]. unfold Qeq in E. cbn in *. rewrite Z.mul_1_r in E. subst n.
  rewrite Z.sgn_mul. cbn. lia.
Qed.

(** The update of a trivial iterator is the one of the counter of the test. *)
Lemma trivial_update_counter init test update body l : isNontrivialConditionException test update = false ->
  isTrivialIteratorException sm init test update body = true -> get_node test "left" = Some l -> is_counter x l = true ->
  updates_counter x update = true.
Proof.
  unfold isNontrivialConditionException, isTrivialIteratorException. intros N T L C. rewrite L in N.
  destruct init as [init|]; [| done]. destruct (isNotEqual test); [| done].
  destruct (negb (checkForUpdateByOne sm update body =? 0)) eqn:D; [| done]. apply negb_true_iff, Z.eqb_neq in D.
  unfold checkForUpdateByOne in D. destruct (isUpdateByOne sm update body) eqn:O; [| done].
  apply orb_false_iff in N as [_ N]. apply negb_false_iff, includes_spec in N.
  unfold is_counter in C. apply andb_true_iff in C as [_ C]. apply String.eqb_eq in C. rewrite C in N.
  unfold collectCounters in N. pose proof (node_size_pos update). destruct (node_size update) as [|k]; [lia |].
  cbn [collectCounters_fuel] in N. unfold updates_counter, is_counter.
  unfold isUpdateByOne, isUpdateOnOneWithAssign in O. destruct (type_of update =s "UpdateExpression") eqn:T'.
  - assert (isIncDec update = false) as I by (unfold isIncDec; apply String.eqb_eq in T'; by rewrite T').
    rewrite I in N. cbn [orb app] in N. destruct (get_node update "argument") as [a|]; [| by apply elem_of_nil in N].
    destruct (type_of a =s "Identifier"); [| by apply elem_of_nil in N]. apply list_elem_of_singleton in N.
    rewrite <- N. apply String.eqb_refl.
  - cbn [andb orb] in O. destruct (isIncDec update); [| done]. cbn [orb app] in N.
    destruct (get_node update "left") as [a|]; [| by apply elem_of_nil in N].
    destruct (type_of a =s "Identifier"); [| by apply elem_of_nil in N]. apply list_elem_of_singleton in N.
    rewrite <- N. apply String.eqb_refl.
Qed.

(** The loops that S888 leaves alone as trivial iterators end: when the counter, which
    the test compares, starts with the value in the initialisation and the two values are
    integers that doubles hold, the counter takes the integers from the first to the second in
    turn and the test fails at the second. *)
Theorem trivial_iterators_end init test update body l first last a z :
  isNontrivialConditionException test update = false ->
  isTrivialIteratorException sm (Some init) test update body = true -> update_operator update = true ->
  get_node test "left" = Some l -> is_counter x l = true ->
  getValue init = Some (NumQ first) -> getValue test = Some (NumQ last) ->
  (first == inject_Z a)%Q -> (last == inject_Z z)%Q -> Z.abs a <= 2 ^ 53 -> Z.abs z <= 2 ^ 53 ->
  let turns := Z.to_nat (Z.abs (z - a)) in
  (forall k, (k < turns)%nat ->
     (turn x round other update first k == inject_Z (a + Z.sgn (z - a) * Z.of_nat k))%Q /\
     goes_on x other test (turn x round other update first k) = true) /\
  goes_on x other test (turn x round other update first turns) = false.
Proof.
  intros Nt T W L C I E Ea Ez Ba Bz turns.
  pose proof (trivial_update_counter _ _ _ _ _ Nt T L C) as U. unfold isTrivialIteratorException in T.
  destruct (isNotEqual test) eqn:N; [| done]. rewrite I, E in T.
  destruct (negb (checkForUpdateByOne sm update body =? 0)) eqn:D; [| done]. apply negb_true_iff, Z.eqb_neq in D.
  cbn [sign_of_difference] in T. apply Z.eqb_eq in T.
  rewrite (sgn_inject _ (z - a)) in T by (rewrite Ea, Ez; unfold Zminus; rewrite inject_Z_plus, inject_Z_opp; reflexivity).
  set (d := Z.sgn (z - a)) in *.
  assert (forall c, goes_on x other test c = negb (Qeq_bool c last)) as G.
  { intros c. unfold goes_on. rewrite L. cbn [value_at]. rewrite (counter_value x other l) by done.
    unfold getValue in E. rewrite N in E. destruct (get_node test "right") as [r|]; [| done]. cbn [value_at].
    rewrite (literal_value r last) by done. unfold isNotEqual in N. apply andb_true_iff in N as [_ N].
    assert (operator_of test = "!==" \/ operator_of test = "!=") as O; [| destruct O as [O|O]; by rewrite O].
    apply includes_spec in N. unfold notEqualOperators in N.
    rewrite !elem_of_cons, elem_of_nil in N. tauto. }
  assert (forall k, (k <= turns)%nat -> (turn x round other update first k == inject_Z (a + d * Z.of_nat k))%Q) as V.
  { induction k as [|k IH]; intros K; unfold turn.
    - change (Z.of_nat 0) with 0. by rewrite Z.mul_0_r, Z.add_0_r.
    - rewrite Nat.iter_succ. replace (a + d * Z.of_nat (S k)) with ((a + d * Z.of_nat k) + d) by lia.
      apply (step_by_one update body); [exact T | by rewrite <- T | done | done | apply IH; lia |]. unfold turns, d in *. lia. }
  split.
  - intros k K. split; [apply V; lia |]. rewrite G, negb_true_iff. apply not_true_iff_false. rewrite Qeq_bool_iff, V, Ez by lia.
    unfold inject_Z, Qeq. cbn. unfold turns, d in *. lia.
  - rewrite G, negb_false_iff. apply Qeq_eq_bool. rewrite V, Ez by lia.
    replace (a + d * Z.of_nat turns) with z; [done |]. unfold turns, d. lia.
Qed.

End Trivial.

(** ** S1994: conditions on something else than what is updated *)

Record ForInfo := mkForInfo {
  forLoop : node;
  (** Holes of array patterns are [null]. *)
  updatedExpressions : list (option node);
  testedExpressions : list node
}.

(** [first.type] on [null]. *)
Inductive misplaced_error := TypeOfNull.

Record MisplacedCounter := mkMisplaced { m_loop : node; m_test : string; m_update : string }.

Record misplaced_state := mkMisplacedState { forLoopStack : list ForInfo; misplaced : list MisplacedCounter }.

Section Misplaced.

Variable sc : SourceCode.
(** [sourceCode.getText]; the text of [null] is the whole file. *)
Variable getText : option node -> string.

Definition isInside (loop : node) (child : string) (parents : list node) (n : node) : bool :=
  match get_node loop child with
  | Some forLoopChild => existsb (same_node forLoopChild) (n :: parents)
  | None => false
  end.

(** The loop on the objects of a callee. *)
Fixpoint root_object (fuel : nat) (callee : node) : node :=
  match fuel with
  | O => callee
  | S fuel' =>
      if type_of callee =s "MemberExpression" then
        match get_node callee "object" with Some o => root_object fuel' o | None => callee end
      else callee
  end.

Definition getCalleeObject (call : node) : option node :=
  match get_node call "callee" with
  | Some callee =>
      let root := root_object (node_size callee) callee in
      if (type_of root =s "Identifier") && negb (same_node root callee) then Some root else None
  | None => None
  end.

(** A hole, or a node, and the expressions assigned in it. *)
Fixpoint computeAssigned_fuel (fuel : nat) (v : value) : list (option node) :=
  match fuel with
  | O => []
  | S fuel' =>
      match v with
      | VNode n =>
          if type_of n =s "ArrayPattern" then flat_map (computeAssigned_fuel fuel') (get_array n "elements")
          else if type_of n =s "ObjectPattern" then flat_map (computeAssigned_fuel fuel') (get_array n "properties")
          else if type_of n =s "Property" then computeAssigned_fuel fuel' (get n "value")
          else if type_of n =s "AssignmentPattern" then computeAssigned_fuel fuel' (get n "left")
          else [Some n]
      | _ => [None]
      end
  end.

Definition computeAssignedExpressions (v : value) : list (option node) := computeAssigned_fuel (S (value_size v)) v.

Definition push_updated (l : list (option node)) (i : ForInfo) : ForInfo :=
  mkForInfo (forLoop i) (updatedExpressions i ++ l) (testedExpressions i).

Definition push_tested (n : node) (i : ForInfo) : ForInfo :=
  mkForInfo (forLoop i) (updatedExpressions i) (testedExpressions i ++ [n]).

(** What the selectors ['ForStatement X'] do for a node, with the current loop. *)
Definition contribute (i : ForInfo) (e : node * list node) : ForInfo :=
  let '(n, parents) := e in
  let in_update := isInside (forLoop i) "update" parents n in
  let in_test := isInside (forLoop i) "test" parents n in
  let parent_is t := opt_type_is (head parents) t in
  if type_of n =s "AssignmentExpression" then
    if in_update then push_updated (computeAssignedExpressions (get n "left")) i else i
  else if type_of n =s "UpdateExpression" then
    if in_update then push_updated [get_node n "argument"] i else i
  else if type_of n =s "CallExpression" then
    if in_update then match getCalleeObject n with Some c => push_updated [Some c] i | None => i end else i
  else if type_of n =s "Identifier" then
    if in_test && (negb (parent_is "MemberExpression")
        || match head parents with
           | Some p => truthy (get p "computed")
                       || match get_node p "object" with Some o => same_node o n | None => false end
           | None => false
           end)
    then push_tested n i else i
  else if type_of n =s "MemberExpression" then
    if in_test && negb (parent_is "MemberExpression") && negb (parent_is "CallExpression") then push_tested n i else i
  else i.

Definition is_for (n : node) : bool := type_of n =s "ForStatement".

(** [updated.some(u => areEquivalent(u, tested))] *)
Fixpoint some_equivalent (tested : node) (updated : list (option node)) : result misplaced_error bool :=
  match updated with
  | [] => Ok false
  | None :: _ => Throw TypeOfNull
  | Some u :: rest => if areEquivalent sc (One u) (One tested) then Ok true else some_equivalent tested rest
  end.

Fixpoint has_intersection (tested : list node) (updated : list (option node)) : result misplaced_error bool :=
  match tested with
  | [] => Ok false
  | t :: rest => let! found := some_equivalent t updated in if found then Ok true else has_intersection rest updated
  end.

Definition join (expressions : list (option node)) : string := join_with ", " (map getText expressions).

(** On leaving a loop. *)
Definition check_for (i : ForInfo) : result misplaced_error (list MisplacedCounter) :=
  if Nat.eqb (length (updatedExpressions i)) 0 || negb (truthy (get (forLoop i) "test")) then Ok []
  else
    let! found := has_intersection (testedExpressions i) (updatedExpressions i) in
    Ok (if found then []
        else [mkMisplaced (forLoop i) (join (map Some (testedExpressions i))) (join (updatedExpressions i))]).

Definition on_misplaced (e : event) (st : misplaced_state) : result misplaced_error misplaced_state :=
  match e with
  | Enter n parents =>
      if is_for n then Ok (mkMisplacedState (mkForInfo n [] [] :: forLoopStack st) (misplaced st))
      else if existsb is_for parents then
        match forLoopStack st with
        | top :: rest => Ok (mkMisplacedState (contribute top (n, parents) :: rest) (misplaced st))
        | [] => Ok st
        end
      else Ok st
  | Leave n _ =>
      if is_for n then
        match forLoopStack st with
        | top :: rest => let! reports := check_for top in Ok (mkMisplacedState rest (misplaced st ++ reports))
        | [] => Ok st
        end
      else Ok st
  end.

(** What the rule reports on a file. *)
Definition misplaced_counters : result misplaced_error (list MisplacedCounter) :=
  let! st := run on_misplaced (events (sc_visitorKeys sc) [] (sc_ast sc)) (mkMisplacedState [] []) in
  Ok (misplaced st).

(** *** Loop by loop *)

Notation keys := (sc_visitorKeys sc).

(** The nodes of a tree that are in no loop inside of it, with their ancestors. *)
Definition own_node (n : node) (parents : list node) (inner : list (node * list node)) : list (node * list node) :=
  if is_for n then [] else (n, parents) :: inner.

(** The expressions of a loop: those of its own nodes. *)
Definition for_info (loop : node) (parents : list node) : ForInfo :=
  fold_left contribute (flat_map (below keys own_node (loop :: parents)) (childrenOf loop keys)) (mkForInfo loop [] []).

(** The checks of the loops of a tree, the inner ones first. *)
Definition own_check (n : node) (parents : list node) (inner : list (result misplaced_error (list MisplacedCounter)))
  : list (result misplaced_error (list MisplacedCounter)) :=
  inner ++ (if is_for n then [check_for (for_info n parents)] else []).

Definition add_own (nodes : list (node * list node)) (stack : list ForInfo) : list ForInfo :=
  match stack with top :: rest => fold_left contribute nodes top :: rest | [] => [] end.

Lemma add_own_app l k stack : add_own (l ++ k) stack = add_own k (add_own l stack).
Proof. destruct stack as [|top rest]; [done |]. cbn. by rewrite fold_left_app. Qed.

Definition stack_matches (stack : list ForInfo) (parents : list node) : Prop :=
  stack <> [] -> existsb is_for parents = true.

Lemma add_own_matches nodes stack parents : stack_matches stack parents -> stack_matches (add_own nodes stack) parents.
Proof. unfold stack_matches. destruct stack; [done |]. cbn. intros H _. by apply H. Qed.

(** The run of a list of trees, from the runs of each. *)
Lemma run_trees parents : forall l, (forall c st, c ∈ l -> stack_matches (forLoopStack st) parents ->
    run on_misplaced (events keys parents c) st =
    let! r := all_reports (below keys own_check parents c) in
    Ok (mkMisplacedState (add_own (below keys own_node parents c) (forLoopStack st)) (misplaced st ++ r))) ->
  forall st, stack_matches (forLoopStack st) parents ->
  run on_misplaced (flat_map (events keys parents) l) st =
  let! r := all_reports (flat_map (below keys own_check parents) l) in
  Ok (mkMisplacedState (add_own (flat_map (below keys own_node parents) l) (forLoopStack st)) (misplaced st ++ r)).
Proof.
  induction l as [|c l IH]; intros H st M.
  - cbn. destruct st as [[|top stack] m]; cbn; by rewrite app_nil_r.
  - cbn [flat_map]. rewrite run_app, H by (done || by left). rewrite all_reports_app.
    destruct (all_reports (below keys own_check parents c)) as [r|e]; [| done]. cbn [rbind].
    rewrite IH; [| intros; apply H; [by right | done] | by apply add_own_matches]. cbn [forLoopStack misplaced].
    destruct (all_reports (flat_map (below keys own_check parents) l)) as [r'|e]; [| done]. cbn [rbind].
    by rewrite add_own_app, app_assoc.
Qed.

Lemma run_tree n : forall parents st, stack_matches (forLoopStack st) parents ->
  run on_misplaced (events keys parents n) st =
  let! r := all_reports (below keys own_check parents n) in
  Ok (mkMisplacedState (add_own (below keys own_node parents n) (forLoopStack st)) (misplaced st ++ r)).
Proof.
  induction n as [n IH] using (node_children_ind keys). intros parents st M.
  rewrite run_events, !(below_eq keys _ parents). unfold own_node at 1, own_check at 1. cbn [on_misplaced].
  destruct (is_for n) eqn:F.
  - cbn [rbind]. rewrite run_trees; [| intros; by apply IH | intros _; cbn [existsb]; by rewrite F].
    rewrite all_reports_app. cbn [forLoopStack misplaced add_own].
    destruct (all_reports (flat_map (below keys own_check (n :: parents)) (childrenOf n keys))) as [r|e]; [| done].
    cbn [rbind forLoopStack misplaced all_reports]. unfold for_info.
    destruct (check_for _) as [r'|e]; [| done]. cbn [rbind]. rewrite app_nil_r, app_assoc.
    destruct st as [[|top stack] m]; done.
  - rewrite app_nil_r.
    assert (run on_misplaced (flat_map (events keys (n :: parents)) (childrenOf n keys))
              (mkMisplacedState (add_own [(n, parents)] (forLoopStack st)) (misplaced st)) =
            let! r := all_reports (flat_map (below keys own_check (n :: parents)) (childrenOf n keys)) in
            Ok (mkMisplacedState (add_own ((n, parents) :: flat_map (below keys own_node (n :: parents)) (childrenOf n keys))
              (forLoopStack st)) (misplaced st ++ r))) as R.
    { rewrite run_trees; [| intros; by apply IH |].
      - cbn [forLoopStack misplaced]. by rewrite <- add_own_app.
      - apply add_own_matches. intros N. cbn [existsb]. rewrite F. by apply M. }
    destruct st as [[|top stack] m]; cbn [forLoopStack misplaced] in *.
    + assert ((if existsb is_for parents then Ok (mkMisplacedState [] m) else Ok (mkMisplacedState [] m)) =
        @Ok misplaced_error _ (mkMisplacedState [] m)) as -> by (by destruct (existsb is_for parents)).
      cbn [rbind add_own] in *. rewrite R. by destruct (all_reports _).
    + rewrite M by done. cbn [rbind add_own fold_left] in *. rewrite R. by destruct (all_reports _).
Qed.

(** S1994 reports what the checks of the loops say, each on the expressions that its
    test and its update have outside of the loops inside of them; an exception ends the
    analysis when a pattern with a hole is compared. *)
Theorem misplaced_counters_are_local :
  misplaced_counters = all_reports (below keys own_check [] (sc_ast sc)).
Proof.
  unfold misplaced_counters. rewrite run_tree by (intros N; by destruct N). by destruct (all_reports _).
Qed.

End Misplaced.

(** ** Examples *)

Module LoopsExample.

Definition mk (i : nat) (t : string) (ps : list (string * value)) : node := Node (mkHeader i t None None) ps.
Definition ident (i : nat) (name : string) : node := mk i "Identifier" [("name", VStr name)].
Definition number (i : nat) (q : Q) (raw : string) : node :=
  mk i "Literal" [("value", VNum (NumQ q)); ("raw", VStr raw)].
Definition compare (i : nat) (op : string) (l r : node) : node :=
  mk i "BinaryExpression" [("operator", VStr op); ("left", VNode l); ("right", VNode r)].
Definition count (i : nat) (op name : string) : node :=
  mk i "UpdateExpression" [("operator", VStr op); ("argument", VNode (ident (S i) name))].
Definition assign (i : nat) (target : node) (v : node) : node :=
  mk i "AssignmentExpression" [("operator", VStr "="); ("left", VNode target); ("right", VNode v)].
Definition for_ (init test update : node) : node :=
  mk 0 "ForStatement" [("init", VNode init); ("test", VNode test); ("update", VNode update);
                       ("body", VNode (mk 99 "BlockStatement" []))].

Definition no_scopes : ScopeManager := mkScopeManager [] [] [] (fun _ => None).

(** [for (i = 0; i < 10; i--) \{\}] *)
Definition start : node := assign 20 (ident 21 "i") (number 22 0 "0").
Definition below_ten : node := compare 1 "<" (ident 2 "i") (number 3 10 "10").
Definition backwards : node := for_ start below_ten (count 4 "--" "i").

Lemma reported_loops_never_stop_witness :
  goes_on "i" (fun _ _ => 0%Q) below_ten (turn "i" (fun q => q) (fun _ _ => 0%Q) (count 4 "--" "i") 0 1000) = true.
Proof.
  apply (reported_loops_never_stop "i" (fun q => q) (fun _ _ => 0%Q)) with (f := backwards)
    (inc := mkIncrement (count 4 "--" "i") (ident 5 "i") (-1)).
  - done.
  - intros a. reflexivity.
  - vm_compute. discriminate.
  - reflexivity.
  - reflexivity.
  - reflexivity.
  - reflexivity.
  - reflexivity.
  - intros a b. reflexivity.
  - reflexivity.
  - reflexivity.
Defined.

(** [for (i = 0; i != 3; i++) \{\}] *)
Definition not_three : node := compare 1 "!=" (ident 2 "i") (number 3 3 "3").

Lemma trivial_iterators_end_witness :
  equalityReport no_scopes (for_ start not_three (count 4 "++" "i")) = None /\
  goes_on "i" (fun _ _ => 0%Q) not_three (turn "i" (fun q => q) (fun _ _ => 0%Q) (count 4 "++" "i") 0 3) = false.
Proof.
  split; [reflexivity |].
  refine (proj2 (trivial_iterators_end no_scopes "i" (fun q => q) (fun _ _ => 0%Q) _ _
    start not_three (count 4 "++" "i") (mk 99 "BlockStatement" []) (ident 2 "i") 0 3 0 3 _ _ _ _ _ _ _ _ _ _ _));
    [done | intros z _; reflexivity | reflexivity | reflexivity | reflexivity | reflexivity | reflexivity | reflexivity
    | reflexivity | reflexivity | reflexivity | done | done].
Defined.

(** [for (i = 0; i != 2.5; i++) \{\}] is left alone: [getInteger] takes any number. *)
Definition not_five_halves : node := compare 1 "!=" (ident 2 "i") (number 3 (5 # 2) "2.5").

Lemma fractional_bound_never_ends :
  equalityReport no_scopes (for_ start not_five_halves (count 4 "++" "i")) = None /\
  forall k, goes_on "i" (fun _ _ => 0%Q) not_five_halves
    (turn "i" (fun q => q) (fun _ _ => 0%Q) (count 4 "++" "i") 0 k) = true.
Proof.
  split; [reflexivity |]. intros k.
  assert (turn "i" (fun q => q) (fun _ _ => 0%Q) (count 4 "++" "i") 0 k == inject_Z (Z.of_nat k))%Q as T.
  { induction k as [|k IH]; [reflexivity |]. unfold turn in *. rewrite Nat.iter_succ.
    change (step "i" (fun q => q) (fun _ _ => 0%Q) (count 4 "++" "i") ?c) with (c + 1)%Q.
    rewrite IH, Nat2Z.inj_succ. unfold Z.succ. by rewrite inject_Z_plus. }
  change (goes_on "i" (fun _ _ => 0%Q) not_five_halves ?c) with (negb (Qeq_bool c (5 # 2))).
  apply negb_true_iff, not_true_iff_false. rewrite Qeq_bool_iff, T. unfold Qeq, inject_Z. cbn. lia.
Qed.

(** [for (j = 0; i != 10; i++) \{\}] is left alone too: the value of the
    initialisation is read whatever the variable. *)
Example other_initialisation :
  equalityReport no_scopes (for_ (assign 20 (ident 21 "j") (number 22 0 "0"))
    (compare 1 "!=" (ident 2 "i") (number 3 10 "10")) (count 4 "++" "i")) = None.
Proof. reflexivity. Qed.

(** [for (i = 0; i != 9; i++) i++;] is left alone: the identifier at the start of
    the body is not inside of it, the comparison of the ranges is strict. *)
Definition ranged (i : nat) (t : string) (ps : list (string * value)) (range : Z * Z) : node :=
  Node (mkHeader i t None (Some range)) ps.
Definition counter_in_body : node := ranged 31 "Identifier" [("name", VStr "i")] (26, 27).
Definition body : node := ranged 30 "ExpressionStatement" [("expression", VNode (mk 32 "UpdateExpression"
  [("operator", VStr "++"); ("argument", VNode counter_in_body)]))] (26, 30).
Definition one_counter : ScopeManager :=
  mkScopeManager [mkScope (mk 40 "Program" []) None [0%nat] [0%nat]] [mkVariable "i" 0%nat None [] [0%nat]]
    [mkReference counter_in_body [] 0%nat (Some 0%nat) None false true true] (fun _ => Some 0%nat).

Example counter_at_start_of_body :
  equalityReport one_counter (mk 0 "ForStatement" [("init", VNode start);
    ("test", VNode (compare 1 "!=" (ident 2 "i") (number 3 9 "9"))); ("update", VNode (count 4 "++" "i")); ("body", VNode body)])
  = None.
Proof. reflexivity. Qed.

(** The keys of the nodes below. *)
Definition keys (t : string) : option (list string) :=
  if t =s "ForStatement" then Some ["init"; "test"; "update"; "body"]
  else if t =s "BinaryExpression" then Some ["left"; "right"]
  else if t =s "AssignmentExpression" then Some ["left"; "right"]
  else if t =s "UpdateExpression" then Some ["argument"]
  else if t =s "ArrayPattern" then Some ["elements"]
  else if t =s "BlockStatement" then Some ["body"]
  else Some [].

Definition tokens (n : node) : list Token :=
  [mkToken "" (text_prop n "name") (mkLoc (mkPos 1 0) (mkPos 1 0)) (0, 0)].

Definition file (n : node) : SourceCode :=
  mkSourceCode n [] [] None keys tokens (fun _ => None) (fun _ => None) (fun _ => []) (fun _ => mkPos 1 0) (fun _ => None).

Definition text (n : option node) : string := match n with Some n => text_prop n "name" | None => "" end.

(** [for (i = 0; i < 10; j++) for (;;) i++;] and [for (i = 0; i < 10; i++) \{\}] *)
Example counters :
  map m_test (match misplaced_counters (file (for_ start below_ten (count 4 "++" "j"))) text with Ok l => l | Throw _ => [] end)
    = ["i"] /\
  misplaced_counters (file (for_ start below_ten (count 4 "++" "i"))) text = Ok [].
Proof. split; reflexivity. Qed.

(** [for (i = 0; i < 10; \[a, , b\] = c) \{\}]: the hole is an expression whose type
    is read, an exception. *)
Example hole_throws :
  misplaced_counters (file (for_ start below_ten (assign 4
    (mk 5 "ArrayPattern" [("elements", VArr [VNode (ident 6 "a"); VNull; VNode (ident 7 "b")])]) (ident 8 "c")))) text
  = Throw TypeOfNull.
Proof. reflexivity. Qed.

End LoopsExample.
