(* ===== verification/Returns.v ===== *)
(** * Returns: the rules on the return statements of functions

    The rules S3801 (returns with and without value) and S3516 (functions that always
    return the same value). Both keep a context for each code path that ESLint has
    started and the segments it is in; the machine they share is one definition, which
    each instantiates. *)

From Stdlib Require Import ZArith QArith Qround Lia Ascii.
From stdpp Require Import base list strings.
From S2P Require Import Prelude JsString Estree JsNumber Ast.

Open Scope js_scope.
Open Scope nat_scope.

(** ** Code paths *)

(** [Rule.CodePathSegment] and [Rule.CodePath], with what the rules read of them. *)
Record Segment := mkSegment { seg_id : string; reachable : bool }.
Record CodePath := mkCodePath { thrownSegments : list Segment }.

#[export] Instance Segment_eq_dec : EqDecision Segment.
Proof. solve_decision. Defined.

Inductive segment_event :=
| SegmentStart (s : Segment)
| SegmentEnd (s : Segment)
| UnreachableSegmentStart (s : Segment)
| UnreachableSegmentEnd (s : Segment).

Inductive path_event :=
| CodePathStart (codePath : CodePath)
| CodePathEnd
| OnSegment (e : segment_event)
| ReturnStatement (n : node)
| FunctionExit (n : node).

(** What differs between the two rules: the context of a code path, its segments, and
    the reports at the end of a function. *)
Record PathRule := mkPathRule {
  context : Type;
  segments : Type;
  finding : Type;
  new_context : CodePath -> context;
  on_return : node -> context -> context;
  no_segments : segments;
  on_segment : segment_event -> segments -> segments;
  on_exit : node -> context -> segments -> finding
}.

Section Machine.

Variable rule : PathRule.

Record path_state := mkPathState {
  functionContextStack : list (context rule);
  allCurrentSegments : list (segments rule);
  currentSegments : segments rule;
  findings : list (finding rule)
}.

(** The listeners. There is a current context from the start of the program on. *)
Definition on_path_event (st : path_state) (e : path_event) : path_state :=
  match e with
  | CodePathStart codePath =>
      mkPathState (new_context rule codePath :: functionContextStack st)
        (currentSegments st :: allCurrentSegments st) (no_segments rule) (findings st)
  | CodePathEnd =>
      mkPathState (tail (functionContextStack st)) (tail (allCurrentSegments st))
        (default (no_segments rule) (head (allCurrentSegments st))) (findings st)
  | OnSegment e =>
      mkPathState (functionContextStack st) (allCurrentSegments st) (on_segment rule e (currentSegments st)) (findings st)
  | ReturnStatement n =>
      match functionContextStack st with
      | currentContext :: rest =>
          mkPathState (on_return rule n currentContext :: rest) (allCurrentSegments st) (currentSegments st) (findings st)
      | [] => st
      end
  | FunctionExit n =>
      match functionContextStack st with
      | functionContext :: _ =>
          mkPathState (functionContextStack st) (allCurrentSegments st) (currentSegments st)
            (findings st ++ [on_exit rule n functionContext (currentSegments st)])
      | [] => st
      end
  end.

Definition run_paths (l : list path_event) (st : path_state) : path_state := fold_left on_path_event l st.

End Machine.

Arguments mkPathState {rule}.
Arguments findings {rule}.

(** The events of the code of a path, with the paths inside of it. A function ends with
    its last segments. *)
Inductive code :=
| End_
| Segment_ (e : segment_event) (rest : code)
| Return_ (n : node) (rest : code)
| Path_ (codePath : CodePath) (inner : code) (exit : option node) (ends : list segment_event) (rest : code).

Fixpoint code_events (c : code) : list path_event :=
  match c with
  | End_ => []
  | Segment_ e rest => OnSegment e :: code_events rest
  | Return_ n rest => ReturnStatement n :: code_events rest
  | Path_ codePath inner exit ends rest =>
      CodePathStart codePath :: code_events inner ++ map FunctionExit (option_list exit)
      ++ map OnSegment ends ++ CodePathEnd :: code_events rest
  end.

(** The return statements and the events of segments of a path itself. *)
Fixpoint own_returns (c : code) : list node :=
  match c with
  | End_ => []
  | Segment_ _ rest | Path_ _ _ _ _ rest => own_returns rest
  | Return_ n rest => n :: own_returns rest
  end.

Fixpoint own_segments (c : code) : list segment_event :=
  match c with
  | End_ => []
  | Segment_ e rest => e :: own_segments rest
  | Return_ _ rest | Path_ _ _ _ _ rest => own_segments rest
  end.

Section Local.

Variable rule : PathRule.

Definition segments_after (l : list segment_event) (s : segments rule) : segments rule :=
  fold_left (fun s e => on_segment rule e s) l s.

Definition returns_after (l : list node) (c : context rule) : context rule :=
  fold_left (fun c n => on_return rule n c) l c.

(** The findings on the functions of a code, each from its own statements and segments. *)
Fixpoint local_findings (c : code) : list (finding rule) :=
  match c with
  | End_ => []
  | Segment_ _ rest | Return_ _ rest => local_findings rest
  | Path_ codePath inner exit ends rest =>
      local_findings inner
      ++ map (fun n => on_exit rule n (returns_after (own_returns inner) (new_context rule codePath))
                         (segments_after (own_segments inner) (no_segments rule))) (option_list exit)
      ++ local_findings rest
  end.

Lemma run_segments ends c cs s cur f :
  run_paths rule (map OnSegment ends) (mkPathState (c :: cs) s cur f) =
  mkPathState (c :: cs) s (segments_after ends cur) f.
Proof. revert cur. induction ends as [|e ends IH]; intros cur; [done |]. cbn. apply IH. Qed.

Lemma run_paths_app l k st : run_paths rule (l ++ k) st = run_paths rule k (run_paths rule l st).
Proof. unfold run_paths. apply fold_left_app. Qed.

Lemma run_code c : forall ctx cs s cur f,
  run_paths rule (code_events c) (mkPathState (ctx :: cs) s cur f) =
  mkPathState (returns_after (own_returns c) ctx :: cs) s (segments_after (own_segments c) cur) (f ++ local_findings c).
Proof.
  induction c as [|e rest IH|n rest IH|codePath inner IHi exit ends rest IH]; intros ctx cs s cur f.
  - cbn. by rewrite app_nil_r.
  - apply IH.
  - apply IH.
  - cbn [code_events]. change (run_paths rule (?e :: ?l) ?st) with (run_paths rule l (on_path_event rule st e)).
    cbn [on_path_event functionContextStack allCurrentSegments currentSegments findings].
    rewrite !run_paths_app, IHi.
    set (ctx' := returns_after (own_returns inner) (new_context rule codePath)).
    set (seg' := segments_after (own_segments inner) (no_segments rule)).
    assert (run_paths rule (map FunctionExit (option_list exit)) (mkPathState (ctx' :: ctx :: cs) (cur :: s) seg' (f ++ local_findings inner)) =
      mkPathState (ctx' :: ctx :: cs) (cur :: s) seg'
        ((f ++ local_findings inner) ++ map (fun n => on_exit rule n ctx' seg') (option_list exit))) as ->
      by (destruct exit; cbn; by rewrite ?app_nil_r).
    rewrite run_segments. change (run_paths rule (?e :: ?l) ?st) with (run_paths rule l (on_path_event rule st e)).
    cbn [on_path_event functionContextStack allCurrentSegments currentSegments findings tail head default].
    rewrite IH. cbn [local_findings own_returns own_segments]. by rewrite <- !app_assoc.
Qed.

(** What a rule finds on the code of a file. *)
Definition file_findings (c : code) : list (finding rule) :=
  findings (run_paths rule (code_events c) (mkPathState [] [] (no_segments rule) [])).

Lemma file_findings_local codePath inner ends : file_findings (Path_ codePath inner None ends End_) = local_findings inner.
Proof.
  unfold file_findings. cbn [code_events option_list map app].
  change (run_paths rule (?e :: ?l) ?st) with (run_paths rule l (on_path_event rule st e)).
  cbn [on_path_event functionContextStack allCurrentSegments currentSegments findings].
  change (map FunctionExit (option_list None)) with (@nil path_event). cbn [app].
  by rewrite !run_paths_app, run_code, run_segments.
Qed.

End Local.

(** ** S3801: returns with and without value *)

Record ReturnContext := mkReturnContext {
  containsReturnWithValue : bool;
  containsReturnWithoutValue : bool;
  containsImplicitReturn : bool;
  returnStatements : list node
}.

(** A secondary location: the node or the token of its range, and its message. *)
Inductive spot := AtNode (n : node) (message : string) | AtToken (t : Token) (message : string).

(** The function, for [getMainFunctionTokenLocation], and the secondary locations. *)
Record ReturnReport := mkReturnReport { r_function : node; r_secondary : list spot }.

Definition has_argument (n : node) : bool := truthy (get n "argument").

Definition isVoidType (typeNode : node) : bool :=
  includes (type_of typeNode) ["TSUndefinedKeyword"; "TSVoidKeyword"; "TSNeverKeyword"].

Fixpoint void_or_never_fuel (fuel : nat) (returnTypeNode : node) : bool :=
  match fuel with
  | O => false
  | S fuel' =>
      isVoidType returnTypeNode
      || ((type_of returnTypeNode =s "TSUnionType")
          && existsb (void_or_never_fuel fuel') (get_nodes returnTypeNode "types"))
  end.

Definition declaredReturnTypeContainsVoidOrNeverTypes (n : node) : bool := void_or_never_fuel (node_size n) n.

Definition declared_void (function : node) : bool :=
  match get_node function "returnType" with
  | Some returnType =>
      match get_node returnType "typeAnnotation" with
      | Some t => declaredReturnTypeContainsVoidOrNeverTypes t
      | None => false
      end
  | None => false
  end.

Definition hasInconsistentReturns (c : ReturnContext) : bool :=
  containsReturnWithValue c && (containsReturnWithoutValue c || containsImplicitReturn c).

Section Consistent.

(** [sourceCode.getLastToken(node, token => token.value === '\}')] *)
Variable last_brace : node -> option Token.

Definition new_return_context (_ : CodePath) : ReturnContext := mkReturnContext false false false [].

Definition on_return_statement (n : node) (c : ReturnContext) : ReturnContext :=
  mkReturnContext (containsReturnWithValue c || has_argument n) (containsReturnWithoutValue c || negb (has_argument n))
    (containsImplicitReturn c) (returnStatements c ++ [n]).

(** The set of the segments traversed. *)
Definition on_segment_set (e : segment_event) (s : list Segment) : list Segment :=
  match e with
  | SegmentStart x | UnreachableSegmentStart x => set_add x s
  | SegmentEnd x | UnreachableSegmentEnd x => set_delete x s
  end.

Definition checkFunctionForImplicitReturn (current : list Segment) (c : ReturnContext) : ReturnContext :=
  mkReturnContext (containsReturnWithValue c) (containsReturnWithoutValue c) (existsb reachable current) (returnStatements c).

Definition getSecondaryLocations (c : ReturnContext) (n : node) : list spot :=
  map (fun r => AtNode r (if has_argument r then "Return with value" else "Return without value")) (returnStatements c)
  ++ (if containsImplicitReturn c
      then match last_brace n with Some t => [AtToken t "Implicit return without value"] | None => [] end
      else []).

Definition checkFunctionLikeDeclaration (n : node) (c : ReturnContext) (current : list Segment) : option ReturnReport :=
  if declared_void n then None
  else
    let c := checkFunctionForImplicitReturn current c in
    if hasInconsistentReturns c then Some (mkReturnReport n (getSecondaryLocations c n)) else None.

Definition S3801 : PathRule :=
  mkPathRule ReturnContext (list Segment) (option ReturnReport) new_return_context on_return_statement []
    on_segment_set checkFunctionLikeDeclaration.

(** The functions of a code, with their own code. *)
Fixpoint functions_of (c : code) : list (node * code) :=
  match c with
  | End_ => []
  | Segment_ _ rest | Return_ _ rest => functions_of rest
  | Path_ _ inner exit _ rest => functions_of inner ++ map (fun n => (n, inner)) (option_list exit) ++ functions_of rest
  end.

(** The segments that are current at the end of a code. *)
Definition current_at_end (c : code) : list Segment := segments_after S3801 (own_segments c) [].

(** A function is inconsistent when one of its own returns has a value and another has
    none, or its end can be reached, unless its type allows to return nothing. *)
Definition inconsistent (f : node * code) : bool :=
  negb (declared_void f.1) && existsb has_argument (own_returns f.2)
  && (existsb (fun r => negb (has_argument r)) (own_returns f.2) || existsb reachable (current_at_end f.2)).

Lemma contexts_after l c : returns_after S3801 l c =
  mkReturnContext (containsReturnWithValue c || existsb has_argument l)
    (containsReturnWithoutValue c || existsb (fun r => negb (has_argument r)) l)
    (containsImplicitReturn c) (returnStatements c ++ l).
Proof.
  revert c. induction l as [|n l IH]; intros c.
  - destruct c. cbn. by rewrite !orb_false_r, app_nil_r.
  - change (returns_after S3801 (n :: l) c) with (returns_after S3801 l (on_return_statement n c)). rewrite IH.
    cbn. by rewrite <- !orb_assoc, <- app_assoc.
Qed.

(** C29: S3801 reports the inconsistent functions, in the order in which they end, each once;
    each looks at its own return statements and at the segments of its own code path, in
    whatever functions it is or has. *)
Theorem inconsistent_functions_reported codePath inner ends :
  map r_function (omap id (file_findings S3801 (Path_ codePath inner None ends End_))) =
  map fst (List.filter inconsistent (functions_of inner)).
Proof.
  rewrite file_findings_local. induction inner as [|e rest IH|n rest IH|cp body IHb exit ends' rest IH]; try done.
  cbn [local_findings functions_of]. rewrite !omap_app, !map_app, !List.filter_app, !map_app, IHb, IH. do 2 f_equal.
  destruct exit as [n|]; [| done].
  change (map r_function (omap id [checkFunctionLikeDeclaration n
    (returns_after S3801 (own_returns body) (new_return_context cp)) (current_at_end body)]) =
    map fst (List.filter inconsistent [(n, body)])).
  rewrite contexts_after. unfold checkFunctionLikeDeclaration, inconsistent, hasInconsistentReturns. cbn [List.filter fst snd].
  destruct (declared_void n); [done |]. cbn.
  by destruct (existsb has_argument (own_returns body) && _).
Qed.

End Consistent.

(** ** S3516: functions that always return the same value *)

(** The value of a literal, with the identity of its node: regular expressions are
    objects. *)
Definition LiteralValue : Type := value * nat.

(** [a === b] *)
Definition strict_equal (a b : LiteralValue) : bool :=
  match a.1, b.1 with
  | VUndefined, VUndefined | VNull, VNull => true
  | VBool x, VBool y => Bool.eqb x y
  | VNum (NumQ x), VNum (NumQ y) => Qeq_bool x y
  | VNum (NumInfinity x), VNum (NumInfinity y) => Bool.eqb x y
  | VBigInt x, VBigInt y => Z.eqb x y
  | VStr x, VStr y => x =s y
  | VRegExp _ _, VRegExp _ _ => Nat.eqb a.2 b.2
  | _, _ => false
  end.

Definition typeof (v : value) : string :=
  match v with
  | VNum _ => "number"
  | VStr _ => "string"
  | VBool _ => "boolean"
  | VBigInt _ => "bigint"
  | VUndefined => "undefined"
  | _ => "object"
  end.

Definition evaluateUnaryLiteralExpression (operator : string) (inner : LiteralValue) : option LiteralValue :=
  let v := inner.1 in
  if operator =s "-" then Some (VNum (negated (to_number v)), 0)
  else if operator =s "+" then Some (VNum (to_number v), 0)
  else if operator =s "~" then Some (VNum (NumQ (inject_Z (- to_int32 (to_number v) - 1))), 0)
  else if operator =s "!" then Some (VBool (negb (truthy v)), 0)
  else if operator =s "typeof" then Some (VStr (typeof v), 0)
  else None.

Record SameValueContext := mkSameValueContext {
  codePath : CodePath;
  withoutValue : bool;
  statements : list node
}.

(** The function, the nodes of the secondary locations, and the cost. *)
Record SameValueReport := mkSameValueReport { s_function : node; s_values : list node; s_cost : nat }.

Section SameValue.

Variable sm : ScopeManager.

Definition isPossibleObjectUpdate (ref : Reference) : bool :=
  match findFirstMatchingAncestor (ref_parents ref)
          (fun n => (type_of n =s "ExpressionStatement") || includes (type_of n) FUNCTION_NODES) with
  | Some s =>
      (type_of s =s "ExpressionStatement")
      && (isElementWrite s ref true || opt_type_is (get_node s "expression") "CallExpression")
  | None => false
  end.

(** The variable and the expression that initialises it. *)
Definition getSingleWriteDefinition (variableName : string) (scope : option ScopeId) : option (Variable_ * option node) :=
  match scope with
  | None => None
  | Some s =>
      match scope_at sm s with
      | None => None
      | Some sc =>
          match find_variable sm sc variableName with
          | None => None
          | Some v =>
              match variable_at sm v with
              | None => None
              | Some variable =>
                  let references := omap (reference_at sm) (tail (var_references variable)) in
                  if existsb (fun ref => ref_isWrite ref || isPossibleObjectUpdate ref) references then None
                  else Some (variable,
                    match var_defs variable with
                    | [d] => if def_type d =s "Variable" then get_node (def_node d) "init" else None
                    | _ => None
                    end)
              end
          end
      end
  end.

(** The outer [None] is running out of fuel, which no fuel may prevent
    ([own_initialiser_never_ends]). *)
Fixpoint getLiteralValue (fuel : nat) (returnedValue : node) (scope : option ScopeId) : option (option LiteralValue) :=
  match fuel with
  | O => None
  | S fuel' =>
      if type_of returnedValue =s "Literal" then
        Some (match get returnedValue "value" with VUndefined => None | v => Some (v, h_id (hdr returnedValue)) end)
      else if type_of returnedValue =s "UnaryExpression" then
        match get_node returnedValue "argument" with
        | Some argument =>
            match getLiteralValue fuel' argument scope with
            | None => None
            | Some (Some inner) =>
                Some (evaluateUnaryLiteralExpression (default "" (get_str returnedValue "operator")) inner)
            | Some None => Some None
            end
        | None => Some None
        end
      else if type_of returnedValue =s "Identifier" then
        match getSingleWriteDefinition (node_name returnedValue) scope with
        | Some (_, Some initExpression) => getLiteralValue fuel' initExpression scope
        | _ => Some None
        end
      else Some None
  end.

(** [returnedValues.every(v => getLiteralValue(v, scope) === first)] *)
Fixpoint every_same (fuel : nat) (first : LiteralValue) (scope : option ScopeId) (l : list node) : option bool :=
  match l with
  | [] => Some true
  | n :: rest =>
      match getLiteralValue fuel n scope with
      | None => None
      | Some v =>
          if match v with Some v => strict_equal v first | None => false end then every_same fuel first scope rest
          else Some false
      end
  end.

Definition areAllSameValue (fuel : nat) (returnedValues : list node) (scope : option ScopeId) : option bool :=
  match returnedValues with
  | [] => Some false
  | firstReturnedValue :: others =>
      match getLiteralValue fuel firstReturnedValue scope with
      | None => None
      | Some (Some firstValue) => every_same fuel firstValue scope others
      | Some None =>
          if type_of firstReturnedValue =s "Identifier" then
            match getSingleWriteDefinition (node_name firstReturnedValue) scope with
            | Some (variable, _) =>
                let readReferenceIdentifiers := map ref_identifier (omap (reference_at sm) (tail (var_references variable))) in
                Some (forallb (fun v => existsb (same_node v) readReferenceIdentifiers) returnedValues)
            | None => Some false
            end
          else Some false
      end
  end.

Definition hasDifferentReturnTypes (c : SameValueContext) (current : list Segment) : bool :=
  existsb reachable current || withoutValue c || Nat.leb (length (statements c)) 1
  || negb (Nat.eqb (length (thrownSegments (codePath c))) 0).

Variable fuel : nat.

Definition checkInvariantReturnStatements (n : node) (c : SameValueContext) (current : list Segment)
  : option (option SameValueReport) :=
  if hasDifferentReturnTypes c current then Some None
  else
    let returnedValues := omap (fun r => get_node r "argument") (statements c) in
    match areAllSameValue fuel returnedValues (sm_getScope sm n) with
    | None => None
    | Some true => Some (Some (mkSameValueReport n returnedValues (length returnedValues)))
    | Some false => Some None
    end.

(** The segments are a stack: a start pushes, an end pops whatever is on top, and
    unreachable segments are not seen. *)
Definition on_segment_stack (e : segment_event) (s : list Segment) : list Segment :=
  match e with
  | SegmentStart x => s ++ [x]
  | SegmentEnd _ => removelast s
  | UnreachableSegmentStart _ | UnreachableSegmentEnd _ => s
  end.

Definition S3516 : PathRule :=
  mkPathRule SameValueContext (list Segment) (option (option SameValueReport))
    (fun codePath => mkSameValueContext codePath false [])
    (fun n c => mkSameValueContext (codePath c) (withoutValue c || negb (has_argument n)) (statements c ++ [n]))
    [] on_segment_stack checkInvariantReturnStatements.

End SameValue.

(** ** The reports of S3516 *)

Section SameValueLocal.

Variable sm : ScopeManager.
Variable fuel : nat.

(** Segments start when they are not current and end when they are, and the ones that
    are not reachable have events of their own. *)
Fixpoint well_nested (current : list Segment) (l : list segment_event) : Prop :=
  match l with
  | [] => True
  | SegmentStart x :: rest => reachable x = true /\ x ∉ current /\ well_nested (set_add x current) rest
  | SegmentEnd x :: rest => reachable x = true /\ x ∈ current /\ well_nested (set_delete x current) rest
  | UnreachableSegmentStart x :: rest => reachable x = false /\ x ∉ current /\ well_nested (set_add x current) rest
  | UnreachableSegmentEnd x :: rest => reachable x = false /\ x ∈ current /\ well_nested (set_delete x current) rest
  end.

Definition reachable_ones (l : list Segment) : list Segment := List.filter reachable l.

Lemma set_add_new (x : Segment) l : x ∉ l -> set_add x l = l ++ [x].
Proof. unfold set_add. intros H. apply set_has_false in H. by rewrite H. Qed.

Lemma reachable_ones_add x l : x ∉ l -> length (reachable_ones (set_add x l)) = length (reachable_ones l) + (if reachable x then 1 else 0).
Proof.
  intros N. rewrite set_add_new by done. unfold reachable_ones. rewrite List.filter_app, length_app. cbn.
  by destruct (reachable x).
Qed.

Lemma set_delete_cons (x y : Segment) l : set_delete x (y :: l) = if decide (x = y) then set_delete x l else y :: set_delete x l.
Proof.
  unfold set_delete. destruct (decide (x = y)) as [->|N]; [rewrite filter_cons_False by tauto | rewrite filter_cons_True by congruence]; done.
Qed.

Lemma set_delete_other (x : Segment) l : x ∉ l -> set_delete x l = l.
Proof.
  induction l as [|y l IH]; [done |]. intros [N N']%not_elem_of_cons. rewrite set_delete_cons, decide_False by done.
  by rewrite IH.
Qed.

Lemma reachable_ones_delete x l : NoDup l -> x ∈ l ->
  length (reachable_ones l) = length (reachable_ones (set_delete x l)) + (if reachable x then 1 else 0).
Proof.
  induction l as [|y l IH]; [by intros _ ?%elem_of_nil |]. intros [Ny Nd]%NoDup_cons [->|H]%elem_of_cons.
  - rewrite set_delete_cons, decide_True, set_delete_other by done. unfold reachable_ones. cbn.
    destruct (reachable y); cbn; lia.
  - rewrite set_delete_cons, decide_False by (by intros ->). specialize (IH Nd H). unfold reachable_ones in *. cbn.
    destruct (reachable y); cbn; lia.
Qed.

Lemma stack_counts l : forall current stack, well_nested current l -> NoDup current ->
  Forall (fun s => reachable s = true) stack -> length stack = length (reachable_ones current) ->
  let stack' := segments_after (S3516 sm fuel) l stack in
  let current' := fold_left (fun s e => on_segment_set e s) l current in
  Forall (fun s => reachable s = true) stack' /\ length stack' = length (reachable_ones current').
Proof.
  induction l as [|e l IH]; intros current stack W N F L; [done |]. cbn [well_nested] in W. destruct e as [x|x|x|x];
    destruct W as (Rx & Mx & W); apply (IH _ _ W); cbn [on_segment on_segment_stack S3516].
  - by apply NoDup_set_add.
  - apply Forall_app. split; [done | by constructor].
  - rewrite length_app, reachable_ones_add, Rx by done. cbn. lia.
  - by apply NoDup_set_delete.
  - destruct stack as [|y stack _] using rev_ind; [done |]. rewrite removelast_last. by apply Forall_app in F as [F _].
  - rewrite (reachable_ones_delete x) in L by done. rewrite Rx in L.
    destruct stack as [|y stack _] using rev_ind; [cbn in L; lia |]. rewrite removelast_last.
    rewrite length_app in L. cbn in L. lia.
  - by apply NoDup_set_add.
  - done.
  - rewrite reachable_ones_add, Rx by done. lia.
  - by apply NoDup_set_delete.
  - done.
  - rewrite (reachable_ones_delete x) in L by done. rewrite Rx in L. lia.
Qed.

Lemma existsb_filter_length (l : list Segment) : existsb reachable l = negb (Nat.eqb (length (reachable_ones l)) 0).
Proof.
  induction l as [|x l IH]; [done |]. unfold reachable_ones in *. cbn. destruct (reachable x); [done |]. apply IH.
Qed.

(** The stack of S3516 pops whatever segment ends, but tells whether one is reachable. *)
Lemma stack_tells_reachable c : well_nested [] (own_segments c) ->
  existsb reachable (segments_after (S3516 sm fuel) (own_segments c) []) = existsb reachable (current_at_end (fun _ => None) c).
Proof.
  intros W. destruct (stack_counts (own_segments c) [] [] W) as [F L]; [constructor | constructor | done |].
  rewrite !existsb_filter_length. f_equal. f_equal. etransitivity; [| exact L]. f_equal.
  unfold reachable_ones. clear -F. induction F as [|y l Hy F IH]; [done |]. cbn. by rewrite Hy, IH.
Qed.

(** The functions that S3516 looks at: two return statements at least, all with a value,
    an end that is not reached, and no exception. *)
Definition always_returns (f : CodePath * code) : bool :=
  negb (existsb reachable (current_at_end (fun _ => None) f.2))
  && forallb has_argument (own_returns f.2) && Nat.ltb 1 (length (own_returns f.2))
  && Nat.eqb (length (thrownSegments f.1)) 0.

Lemma same_value_context l c : returns_after (S3516 sm fuel) l c =
  mkSameValueContext (codePath c) (withoutValue c || existsb (fun r => negb (has_argument r)) l) (statements c ++ l).
Proof.
  revert c. induction l as [|n l IH]; intros c.
  - destruct c. cbn. by rewrite orb_false_r, app_nil_r.
  - change (returns_after (S3516 sm fuel) (n :: l) c) with (returns_after (S3516 sm fuel) l (on_return (S3516 sm fuel) n c)).
    rewrite IH. cbn. by rewrite <- orb_assoc, <- app_assoc.
Qed.

Lemma existsb_negb_forallb {A} (f : A -> bool) l : existsb (fun x => negb (f x)) l = negb (forallb f l).
Proof. induction l as [|x l IH]; [done |]. cbn. rewrite IH. by destruct (f x). Qed.

(** What S3516 says of a function, from the code of the function alone. *)
Theorem same_value_of_function codePath body n : well_nested [] (own_segments body) ->
  local_findings (S3516 sm fuel) (Path_ codePath body (Some n) [] End_) =
  local_findings (S3516 sm fuel) body ++
  [if always_returns (codePath, body) then
     let values := omap (fun r => get_node r "argument") (own_returns body) in
     match areAllSameValue sm fuel values (sm_getScope sm n) with
     | None => None
     | Some true => Some (Some (mkSameValueReport n values (length values)))
     | Some false => Some None
     end
   else Some None].
Proof.
  intros W. cbn [local_findings]. f_equal. rewrite app_nil_r.
  change (map ?f (option_list (Some n))) with [f n]. cbv beta. f_equal.
  change (on_exit (S3516 sm fuel)) with (checkInvariantReturnStatements sm fuel).
  rewrite same_value_context. unfold checkInvariantReturnStatements, hasDifferentReturnTypes, always_returns.
  assert (existsb reachable (segments_after (S3516 sm fuel) (own_segments body) (no_segments (S3516 sm fuel))) =
    existsb reachable (current_at_end (fun _ => None) body)) as -> by exact (stack_tells_reachable body W).
  cbn [statements withoutValue Returns.codePath new_context S3516 orb fst snd app]. rewrite existsb_negb_forallb.
  destruct (existsb reachable _), (forallb has_argument (own_returns body)); cbn [orb andb negb]; try done.
  rewrite Nat.leb_antisym. destruct (Nat.ltb 1 (length (own_returns body))); cbn [orb andb negb]; [| done].
  by destruct (Nat.eqb (length (thrownSegments codePath)) 0).
Qed.

End SameValueLocal.

(** ** Examples *)

Module ReturnsExample.

Definition mk (i : nat) (t : string) (ps : list (string * value)) : node := Node (mkHeader i t None None) ps.
Definition ident (i : nat) (name : string) : node := mk i "Identifier" [("name", VStr name)].
Definition function : node := mk 50 "FunctionDeclaration" [].
Definition return_ (i : nat) (argument : value) : node := mk i "ReturnStatement" [("argument", argument)].
Definition parents : list node := [mk 60 "ReturnStatement" []; mk 61 "BlockStatement" []; function; mk 62 "Program" []].

Definition one_variable (init : value) (references : list Reference) : ScopeManager :=
  mkScopeManager [mkScope function None [0] (seq 0 (length references))]
    [mkVariable "x" 0 None [mkDef "Variable" None (ident 1 "x") (mk 2 "VariableDeclarator" [("init", init)])]
       (seq 0 (length references))]
    references (fun _ => Some 0).

Definition write (i : nat) (e : node) (init : bool) : Reference :=
  mkReference (ident i "x") parents 0 (Some 0) (Some e) init false true.
Definition read (i : nat) : Reference := mkReference (ident i "x") parents 0 (Some 0) None false true false.

(** [function f() \{ var x = -x; if (a) return x; return x; \}] *)
Definition minus_x : node := mk 10 "UnaryExpression" [("operator", VStr "-"); ("argument", VNode (ident 11 "x"))].
Definition own_initialiser : ScopeManager := one_variable (VNode minus_x) [write 1 minus_x true; read 11; read 21; read 31].
Definition two_returns : SameValueContext :=
  mkSameValueContext (mkCodePath []) false [return_ 20 (VNode (ident 21 "x")); return_ 30 (VNode (ident 31 "x"))].

Lemma own_initialiser_loop fuel : forall i, getLiteralValue own_initialiser fuel (ident i "x") (Some 0) = None /\
  getLiteralValue own_initialiser fuel minus_x (Some 0) = None.
Proof.
  induction fuel as [|fuel IH]; intros i; [done |]. split.
  - change (getLiteralValue own_initialiser (S fuel) (ident i "x") (Some 0)) with
      (getLiteralValue own_initialiser fuel minus_x (Some 0)). by apply (IH 0).
  - change (getLiteralValue own_initialiser (S fuel) minus_x (Some 0)) with
      (match getLiteralValue own_initialiser fuel (ident 11 "x") (Some 0) with
       | None => None
       | Some (Some inner) => Some (evaluateUnaryLiteralExpression "-" inner)
       | Some None => Some None
       end).
    destruct (IH 11) as [-> _]. done.
Qed.

(** [function f() \{ let x; if (c) \{ x = 1; return x; \} return x; \}] *)
Definition late_write : ScopeManager :=
  one_variable VNull [write 10 (mk 12 "Literal" [("value", VNum (NumQ 1))]) false; read 21; read 31].

(** A function with one return with value, with a function that has none in between. *)
Definition with_inner : code :=
  Segment_ (SegmentStart (mkSegment "s1" true))
    (Path_ (mkCodePath [])
      (Segment_ (SegmentStart (mkSegment "s2_1" true))
        (Path_ (mkCodePath [])
          (Segment_ (SegmentStart (mkSegment "s3_1" true)) (Return_ (return_ 1 VNull) End_))
          (Some (mk 51 "ArrowFunctionExpression" [])) [SegmentEnd (mkSegment "s3_1" true)]
          (Return_ (return_ 2 (VNode (ident 3 "a")))
            (Segment_ (SegmentEnd (mkSegment "s2_1" true))
              (Segment_ (UnreachableSegmentStart (mkSegment "s2_2" false)) End_)))))
      (Some function) [UnreachableSegmentEnd (mkSegment "s2_2" false)] End_).

(** The same, whose end can be reached. *)
Definition implicit : code :=
  Path_ (mkCodePath [])
    (Segment_ (SegmentStart (mkSegment "s2_1" true)) (Return_ (return_ 2 (VNode (ident 3 "a"))) End_))
    (Some function) [] End_.

Example own_statements_only :
  map r_function (omap id (file_findings (S3801 (fun _ => None)) (Path_ (mkCodePath []) with_inner None [] End_))) = [] /\
  map r_function (omap id (file_findings (S3801 (fun _ => None)) (Path_ (mkCodePath []) implicit None [] End_))) = [function].
Proof. split; reflexivity. Qed.

End ReturnsExample.

(** ** Defects of S3516 *)

(** On a function that returns twice a variable initialised with an expression on
    itself (as [var x = -x]), S3516 never ends, since the literal value of the variable
    is the one of its initialiser; in the code the stack overflows. *)
Theorem own_initialiser_never_ends fuel :
  checkInvariantReturnStatements ReturnsExample.own_initialiser fuel ReturnsExample.function ReturnsExample.two_returns [] = None.
Proof.
  unfold checkInvariantReturnStatements.
  change (hasDifferentReturnTypes ReturnsExample.two_returns []) with false.
  change (omap (fun r => get_node r "argument") (statements ReturnsExample.two_returns)) with
    [ReturnsExample.ident 21 "x"; ReturnsExample.ident 31 "x"].
  change (sm_getScope ReturnsExample.own_initialiser ReturnsExample.function) with (Some 0).
  unfold areAllSameValue. destruct (ReturnsExample.own_initialiser_loop fuel 21) as [-> _]. done.
Qed.

(** A variable without initialiser that is written once, before the first of two
    returns, is taken for one value: the first of its references is left out, for the
    write of a declaration. *)
Lemma late_write_false_report :
  checkInvariantReturnStatements ReturnsExample.late_write 10 ReturnsExample.function ReturnsExample.two_returns [] =
  Some (Some (mkSameValueReport ReturnsExample.function [ReturnsExample.ident 21 "x"; ReturnsExample.ident 31 "x"] 2)).
Proof. reflexivity. Qed.
