(* ===== verification/Conditions.v ===== *)
(** * Conditions: the rule S2589 on conditions with a known value

    The rule remembers, for each branch of an [if] it is in, the references whose truth
    the condition tells, and reports the identifiers of conditions in the branch with
    the same variable. *)

From Stdlib Require Import ZArith Lia.
From stdpp Require Import base list strings.
From S2P Require Import Prelude JsString Estree Ast Traversal.

Open Scope js_scope.
Open Scope nat_scope.

(** ** Expressions *)

Definition isLogicalAnd (e : node) : bool := (type_of e =s "LogicalExpression") && str_prop_is e "operator" "&&".

Definition isLogicalOrLhs (id e : node) : bool :=
  (type_of e =s "LogicalExpression") && str_prop_is e "operator" "||"
  && match get_node e "left" with Some l => same_node l id | None => false end.

(** [expression] with its parent. *)
Definition isLogicalAndRhs (id e : node) (parent : option node) : bool :=
  negb (opt_type_is parent "LogicalExpression")
  && (type_of e =s "LogicalExpression") && str_prop_is e "operator" "&&"
  && match get_node e "right" with Some r => same_node r id | None => false end.

Definition isLogicalNegation (e : node) : bool := (type_of e =s "UnaryExpression") && str_prop_is e "operator" "!".

Definition is_identifier (n : node) : bool := isIdentifier (Some n) [].

(** The identifiers that are truthy and the ones that are falsy. *)
Definition Known : Type := list node * list node.

Definition checkExpr (known : Known) (e : node) : Known :=
  let '(truthy, falsy) := known in
  if is_identifier e then (truthy ++ [e], falsy)
  else if isLogicalNegation e then
    match get_node e "argument" with
    | Some a =>
        if is_identifier a then (truthy, falsy ++ [a])
        else if isLogicalNegation a then
          match get_node a "argument" with
          | Some b => if is_identifier b then (truthy ++ [b], falsy) else known
          | None => known
          end
        else known
    | None => known
    end
  else known.

(** The loop on the left operands of conjunctions. *)
Fixpoint conjuncts_loop (fuel : nat) (current : node) (known : Known) : Known :=
  match fuel with
  | O => known
  | S fuel' =>
      if isLogicalAnd current then
        match get_node current "right", get_node current "left" with
        | Some r, Some l => conjuncts_loop fuel' l (checkExpr known r)
        | _, _ => known
        end
      else checkExpr known current
  end.

Definition collectKnownIdentifiers (expression : node) : Known :=
  conjuncts_loop (node_size expression) expression (checkExpr ([], []) expression).

(** ** Scopes *)

Section Conditions.

Variable sm : ScopeManager.
(** [scope.type] *)
Variable scope_type : ScopeId -> string.

Definition scope_references (s : ScopeId) : list Reference :=
  match scope_at sm s with Some sc => omap (reference_at sm) (sco_references sc) | None => [] end.

Definition reference_of (id : node) (s : ScopeId) : option Reference :=
  List.find (fun r => same_node (ref_identifier r) id) (scope_references s).

Definition getSymbol (id : node) (scope : option ScopeId) : option VarId :=
  match scope with
  | Some s => match reference_of id s with Some ref => ref_resolved ref | None => None end
  | None => None
  end.

Definition upper (s : ScopeId) : option ScopeId := match scope_at sm s with Some sc => sco_upper sc | None => None end.

(** The chain of upper scopes is not longer than the table of scopes. *)
Fixpoint getFunctionScope_fuel (fuel : nat) (scope : ScopeId) : option ScopeId :=
  match fuel with
  | O => None
  | S fuel' =>
      if scope_type scope =s "function" then Some scope
      else match upper scope with Some u => getFunctionScope_fuel fuel' u | None => None end
  end.

Definition getFunctionScope (scope : ScopeId) : option ScopeId := getFunctionScope_fuel (length (sm_scopes sm)) scope.

Fixpoint is_inside_fuel (fuel : nat) (cur : option ScopeId) (currentScope : ScopeId) : bool :=
  match fuel, cur with
  | S fuel', Some c => Nat.eqb c currentScope || is_inside_fuel fuel' (upper c) currentScope
  | _, _ => false
  end.

(** The writes of a variable that may run in a scope, or while it runs. *)
Definition mightBeWritten (symbol : VarId) (currentScope : ScopeId) : bool :=
  match variable_at sm symbol with
  | None => false
  | Some v =>
      existsb (fun ref =>
          is_inside_fuel (length (sm_scopes sm)) (Some (ref_from ref)) currentScope
          || negb (bool_decide (getFunctionScope (ref_from ref) = getFunctionScope currentScope)))
        (List.filter ref_isWrite (omap (reference_at sm) (var_references v)))
  end.

Definition transformAndFilter (ids : list node) (currentScope : option ScopeId) : list Reference :=
  match currentScope with
  | None => []
  | Some s =>
      match upper s with
      | None => []
      | Some u =>
          List.filter (fun ref => match ref_resolved ref with Some v => negb (mightBeWritten v s) | None => false end)
            (omap (fun id => reference_of id u) ids)
      end
  end.

(** ** The rule *)

(** A report: the node, whether it is truthy, the node of its secondary location. *)
Record ConditionReport := mkConditionReport { k_node : node; k_truthy : bool; k_evaluated : option node }.

(** The references that are known in each branch, by the identity of the branch. *)
Definition Branches := list (nat * list Reference).

Record condition_state := mkConditionState { truthyMap : Branches; falsyMap : Branches; reported : list ConditionReport }.

Definition node_id (n : node) : nat := h_id (hdr n).

Definition is_child (parent : node) (key : string) (n : node) : bool :=
  match get_node parent key with Some c => same_node c n | None => false end.

Definition on_statement (n : node) (parents : list node) (st : condition_state) : condition_state :=
  match head parents with
  | Some parent =>
      if isIfStatement (Some parent) then
        let currentScope := sm_getScope sm n in
        if is_child parent "consequent" n then
          match get_node parent "test" with
          | Some test =>
              let '(truthy, falsy) := collectKnownIdentifiers test in
              mkConditionState (map_set (node_id n) (transformAndFilter truthy currentScope) (truthyMap st))
                (map_set (node_id n) (transformAndFilter falsy currentScope) (falsyMap st)) (reported st)
          | None => st
          end
        else if is_child parent "alternate" n then
          match get_node parent "test" with
          | Some test =>
              if is_identifier test
              then mkConditionState (truthyMap st)
                     (map_set (node_id n) (transformAndFilter [test] currentScope) (falsyMap st)) (reported st)
              else st
          | None => st
          end
        else st
      else st
  | None => st
  end.

Definition isInsideJSX (parents : list node) : bool := existsb (fun a => type_of a =s "JSXExpressionContainer") parents.

(** Whether an identifier stands where its truth is used. *)
Definition in_condition (id : node) (parents : list node) : bool :=
  match parents with
  | [] => false
  | parent :: above =>
      negb (isInsideJSX parents && isLogicalAndRhs id parent (head above))
      && (isLogicalAnd parent || isLogicalOrLhs id parent || isIfStatement (Some parent) || isLogicalNegation parent)
  end.

(** [checkIfKnownAndReport] *)
Definition known_reports (id : node) (symbol : VarId) (branches : Branches) (truthy : bool) : list ConditionReport :=
  omap (fun b => match List.find (fun ref => bool_decide (ref_resolved ref = Some symbol)) b.2 with
                 | Some ref => Some (mkConditionReport id truthy (Some (ref_identifier ref)))
                 | None => None
                 end) branches.

Definition on_identifier (id : node) (parents : list node) (st : condition_state) : list ConditionReport :=
  match getSymbol id (sm_getScope sm id) with
  | Some symbol =>
      if in_condition id parents
      then known_reports id symbol (truthyMap st) true ++ known_reports id symbol (falsyMap st) false
      else []
  | None => []
  end.

Definition on_if (n : node) : list ConditionReport :=
  match get_node n "test" with
  | Some test =>
      if type_of test =s "Literal" then
        match get test "value" with VBool b => [mkConditionReport test b None] | _ => [] end
      else []
  | None => []
  end.

Definition add_reports (l : list ConditionReport) (st : condition_state) : condition_state :=
  mkConditionState (truthyMap st) (falsyMap st) (reported st ++ l).

Definition on_condition_event (e : event) (st : condition_state) : result Empty_set condition_state :=
  match e with
  | Enter n parents =>
      let st := if type_of n =s "Program" then mkConditionState [] [] (reported st) else st in
      let st := if is_statement n then on_statement n parents st else st in
      let st := if type_of n =s "IfStatement" then add_reports (on_if n) st else st in
      Ok (if type_of n =s "Identifier" then add_reports (on_identifier n parents st) st else st)
  | Leave n _ =>
      Ok (if is_statement n
          then mkConditionState (map_delete (node_id n) (truthyMap st)) (map_delete (node_id n) (falsyMap st)) (reported st)
          else st)
  end.

(** The reports on a file. *)
Definition condition_reports (sc : SourceCode) : list ConditionReport :=
  match run on_condition_event (events (sc_visitorKeys sc) [] (sc_ast sc)) (mkConditionState [] [] []) with
  | Ok st => reported st
  | Throw e => match e with end
  end.

End Conditions.

(** ** What a condition tells *)

Section Meaning.

(** The variable of an identifier, by the identity of its node. *)
Variable variable_of : nat -> option VarId.
(** The truth of the variables, and of the expressions of other forms. *)
Variable env : VarId -> bool.
Variable other : node -> bool.

Fixpoint holds_fuel (fuel : nat) (e : node) : bool :=
  match fuel with
  | O => other e
  | S fuel' =>
      if is_identifier e then match variable_of (node_id e) with Some v => env v | None => other e end
      else if isLogicalNegation e then
        match get_node e "argument" with Some a => negb (holds_fuel fuel' a) | None => other e end
      else if isLogicalAnd e then
        match get_node e "left", get_node e "right" with
        | Some l, Some r => holds_fuel fuel' l && holds_fuel fuel' r
        | _, _ => other e
        end
      else other e
  end.

(** Whether an expression is truthy. *)
Definition holds (e : node) : bool := holds_fuel (node_size e) e.

Lemma holds_fuel_enough fuel : forall fuel' e, node_size e <= fuel -> node_size e <= fuel' ->
  holds_fuel fuel e = holds_fuel fuel' e.
Proof.
  induction fuel as [|fuel IH]; intros fuel' e H H'; pose proof (node_size_pos e); [lia |].
  destruct fuel' as [|fuel']; [lia |]. cbn [holds_fuel].
  assert (forall k c, get_node e k = Some c -> holds_fuel fuel c = holds_fuel fuel' c) as R.
  { intros k c Hc%get_node_size. apply IH; lia. }
  destruct (is_identifier e); [done |]. destruct (isLogicalNegation e).
  - destruct (get_node e "argument") as [a|] eqn:A; [| done]. by rewrite (R _ _ A).
  - destruct (isLogicalAnd e); [| done]. destruct (get_node e "left") as [l|] eqn:L; [| done].
    destruct (get_node e "right") as [r|] eqn:Rr; [| done]. by rewrite (R _ _ L), (R _ _ Rr).
Qed.

Lemma holds_eq e : holds e =
  if is_identifier e then match variable_of (node_id e) with Some v => env v | None => other e end
  else if isLogicalNegation e then match get_node e "argument" with Some a => negb (holds a) | None => other e end
  else if isLogicalAnd e then
    match get_node e "left", get_node e "right" with Some l, Some r => holds l && holds r | _, _ => other e end
  else other e.
Proof.
  unfold holds at 1. pose proof (node_size_pos e). destruct (node_size e) as [|k] eqn:E; [lia |]. cbn [holds_fuel].
  assert (forall key c, get_node e key = Some c -> holds_fuel k c = holds c) as R.
  { intros key c Hc%get_node_size. apply holds_fuel_enough; lia. }
  destruct (is_identifier e); [done |]. destruct (isLogicalNegation e).
  - destruct (get_node e "argument") as [a|] eqn:A; [| done]. by rewrite (R _ _ A).
  - destruct (isLogicalAnd e); [| done]. destruct (get_node e "left") as [l|] eqn:L; [| done].
    destruct (get_node e "right") as [r|] eqn:Rr; [| done]. by rewrite (R _ _ L), (R _ _ Rr).
Qed.

(** Identifiers that are truthy, and ones that are falsy. *)
Definition right_known (known : Known) : Prop :=
  Forall (fun i => is_identifier i = true /\ holds i = true) known.1 /\
  Forall (fun i => is_identifier i = true /\ holds i = false) known.2.

Lemma checkExpr_right known e : right_known known -> holds e = true -> right_known (checkExpr known e).
Proof.
  destruct known as [t f]. intros [Ht Hf] H. unfold checkExpr.
  destruct (is_identifier e) eqn:I.
  { split; [| done]. apply Forall_app. split; [done | by constructor]. }
  destruct (isLogicalNegation e) eqn:N; [| done]. rewrite holds_eq, I, N in H.
  destruct (get_node e "argument") as [a|]; [| done]. apply negb_true_iff in H.
  destruct (is_identifier a) eqn:Ia.
  { split; [done |]. apply Forall_app. split; [done | by constructor]. }
  destruct (isLogicalNegation a) eqn:Na; [| done]. rewrite holds_eq, Ia, Na in H.
  destruct (get_node a "argument") as [b|]; [| done]. apply negb_false_iff in H.
  destruct (is_identifier b) eqn:Ib; [| done].
  split; [| done]. apply Forall_app. split; [done | by constructor].
Qed.

Lemma and_is_nothing_else e : isLogicalAnd e = true -> is_identifier e = false /\ isLogicalNegation e = false.
Proof.
  unfold isLogicalAnd, is_identifier, isIdentifier, isLogicalNegation. intros [T _]%andb_true_iff.
  apply String.eqb_eq in T. by rewrite T.
Qed.

Lemma conjuncts_right fuel : forall e known, right_known known -> holds e = true -> right_known (conjuncts_loop fuel e known).
Proof.
  induction fuel as [|fuel IH]; intros e known K H; [done |]. cbn [conjuncts_loop].
  destruct (isLogicalAnd e) eqn:A; [| by apply checkExpr_right]. destruct (and_is_nothing_else e A) as [I N].
  rewrite holds_eq, I, N, A in H. destruct (get_node e "right") as [r|]; [| done]. destruct (get_node e "left") as [l|]; [| done].
  apply andb_true_iff in H as [Hl Hr]. apply IH; [by apply checkExpr_right | done].
Qed.

(** When a condition holds, the identifiers collected are what they are said to be. *)
Lemma collected_right e : holds e = true -> right_known (collectKnownIdentifiers e).
Proof. intros H. apply conjuncts_right; [apply checkExpr_right; [by repeat constructor | done] | done]. Qed.

End Meaning.

(** ** The reports *)

(** ** Where variables are written *)

Section Writes.

Variable sm : ScopeManager.
Variable scope_type : ScopeId -> string.

(** A scope is another one, or is inside it. *)
Inductive inside : ScopeId -> ScopeId -> Prop :=
| inside_here s : inside s s
| inside_upper s u t : upper sm s = Some u -> inside u t -> inside s t.

(** The scope of the function around a scope, if any. *)
Inductive function_of : ScopeId -> option ScopeId -> Prop :=
| function_here s : scope_type s = "function" -> function_of s (Some s)
| function_upper s u f :
    scope_type s <> "function" -> upper sm s = Some u -> function_of u f -> function_of s f
| function_none s : scope_type s <> "function" -> upper sm s = None -> function_of s None.

(** Every write of the variable is in the same function as the scope, and out of it. *)
Definition unwritten (v : VarId) (s : ScopeId) : Prop :=
  forall x i r, variable_at sm v = Some x -> i ∈ var_references x -> reference_at sm i = Some r ->
    ref_isWrite r = true ->
    ~ inside (ref_from r) s /\ exists f, function_of (ref_from r) f /\ function_of s f.

(** ESLint lists a scope after the one around it, and references are from scopes. *)
Record nested_scopes : Prop := {
  upper_first : forall s u, upper sm s = Some u -> u < s;
  from_scope : forall i r, reference_at sm i = Some r -> ref_from r < length (sm_scopes sm)
}.

Hypothesis nested : nested_scopes.

Lemma inside_fuel s t : inside s t -> forall fuel, s < fuel -> is_inside_fuel sm fuel (Some s) t = true.
Proof.
  induction 1 as [s|s u t U _ IH]; intros [|fuel] L; try lia; cbn [is_inside_fuel].
  - by rewrite Nat.eqb_refl.
  - rewrite U, IH; [by rewrite orb_true_r |]. apply (upper_first nested) in U. lia.
Qed.

Lemma function_of_fuel fuel : forall s, s < fuel -> function_of s (getFunctionScope_fuel sm scope_type fuel s).
Proof.
  induction fuel as [|fuel IH]; intros s L; [lia |]. cbn [getFunctionScope_fuel].
  destruct (String.eqb_spec (scope_type s) "function") as [T|T]; [by apply function_here |].
  destruct (upper sm s) as [u|] eqn:U; [| by apply function_none].
  eapply function_upper; [done.. |]. apply IH. apply (upper_first nested) in U. lia.
Qed.

Lemma not_written v s : s < length (sm_scopes sm) -> mightBeWritten sm scope_type v s = false -> unwritten v s.
Proof.
  intros L W x i r V Hi R Wr. unfold mightBeWritten in W. rewrite V in W.
  pose proof (from_scope nested i r R) as Lr. apply not_true_iff_false in W.
  assert (forall b, is_inside_fuel sm (length (sm_scopes sm)) (Some (ref_from r)) s
      || negb (bool_decide (getFunctionScope sm scope_type (ref_from r) = getFunctionScope sm scope_type s)) = b -> b = false) as E.
  { intros [] E; [| done]. exfalso. apply W, existsb_exists. exists r. split; [| done]. apply filter_In. split; [| done].
    apply list_elem_of_In, list_elem_of_omap. by exists i. }
  specialize (E _ eq_refl). apply orb_false_iff in E as [E1 E2]. split.
  - intros I. by rewrite (inside_fuel _ _ I) in E1.
  - exists (getFunctionScope sm scope_type s).
    apply negb_false_iff, bool_decide_eq_true in E2. unfold getFunctionScope in *.
    split; [rewrite <- E2 |]; by apply function_of_fuel.
Qed.

End Writes.

Section Reports.

Variable sm : ScopeManager.
Variable scope_type : ScopeId -> string.
Variable keys : VisitorKeys.
Variable root : node.
(** The variable of an identifier; references to one identifier have one variable. *)
Variable variable_of : nat -> option VarId.
Hypothesis nested : nested_scopes sm.
Hypothesis references_agree : forall i r, sm_references sm !! i = Some r ->
  variable_of (node_id (ref_identifier r)) = ref_resolved r.

(** The branch [c], under the nodes [above], of the [if] whose test is [test]:
    its consequent or its alternate. *)
Definition is_branch (c : node) (above : list node) (test : node) (consequent : bool) : Prop :=
  exists parent, head above = Some parent /\ type_of parent = "IfStatement" /\ get_node parent "test" = Some test /\
    is_child parent (if consequent then "consequent" else "alternate") c = true.

(** What an entry of a map says, in a branch of the path of nodes: the references it
    has are known to be truthy, or falsy, when the branch is taken. *)
Definition entry_right (path : list node) (truthy : bool) (entry : nat * list Reference) : Prop :=
  exists c above test consequent, (c :: above) `suffix_of` path /\ is_statement c = true /\ entry.1 = node_id c /\
    is_branch c above test consequent /\
    forall ref, ref ∈ entry.2 -> exists v, ref_resolved ref = Some v /\
      (exists s, sm_getScope sm c = Some s /\ unwritten sm scope_type v s) /\
      forall env other, holds variable_of env other test = consequent -> env v = truthy.

(** What a report says: the value of the literal of a condition, or the truth of an
    identifier in a branch, in every execution that takes the branch and does not
    write its variable since. *)
Definition report_right (r : ConditionReport) : Prop :=
  (exists n parents, Enter n parents ∈ events keys [] root /\ get_node n "test" = Some (k_node r) /\
     type_of n = "IfStatement" /\ get (k_node r) "value" = VBool (k_truthy r)) \/
  (exists parents c above test consequent v, Enter (k_node r) parents ∈ events keys [] root /\
     (c :: above) `suffix_of` parents /\ is_branch c above test consequent /\
     getSymbol sm (k_node r) (sm_getScope sm (k_node r)) = Some v /\
     (exists s, sm_getScope sm c = Some s /\ unwritten sm scope_type v s) /\
     forall env other, holds variable_of env other test = consequent -> env v = k_truthy r).

Definition maps_right (path : list node) (st : condition_state) : Prop :=
  Forall (entry_right path true) (truthyMap st) /\ Forall (entry_right path false) (falsyMap st) /\
  Forall report_right (reported st).

Lemma reference_of_inv id s r : reference_of sm id s = Some r ->
  same_node (ref_identifier r) id = true /\ exists i, sm_references sm !! i = Some r.
Proof.
  unfold reference_of, scope_references. intros [H E]%find_some. split; [done |].
  destruct (scope_at sm s); [| by apply in_nil in H]. apply list_elem_of_In, list_elem_of_omap in H as (i & _ & Hi). by exists i.
Qed.

Lemma transformed ids s ref : ref ∈ transformAndFilter sm scope_type ids s ->
  exists id s' v, id ∈ ids /\ s = Some s' /\ ref_resolved ref = Some v /\ unwritten sm scope_type v s' /\
    variable_of (node_id id) = Some v.
Proof.
  unfold transformAndFilter. destruct s as [s|]; [| by intros ?%elem_of_nil].
  destruct (upper sm s) as [u|] eqn:U; [| by intros ?%elem_of_nil].
  assert (s < length (sm_scopes sm)) as L.
  { unfold upper in U. destruct (scope_at sm s) eqn:S; [| done]. by eapply lookup_lt_Some. }
  intros [H W]%elem_of_filter_In. destruct (ref_resolved ref) as [v|] eqn:V; [| done]. apply negb_true_iff in W.
  apply list_elem_of_omap in H as (id & Hid & H). apply reference_of_inv in H as (E & i & Hi).
  exists id, s, v. split_and!; try done; [by apply not_written |]. apply Nat.eqb_eq in E. unfold node_id. rewrite <- E.
  rewrite <- V. by apply references_agree with i.
Qed.

Lemma identifier_holds env other id v : is_identifier id = true -> variable_of (node_id id) = Some v ->
  holds variable_of env other id = env v.
Proof. intros I V. by rewrite holds_eq, I, V. Qed.

Lemma Forall_map_set P (k : nat) (v : list Reference) m : Forall P m -> P (k, v) -> Forall P (map_set k v m).
Proof.
  intros F H. induction F as [|[k' v'] m H' F IH]; cbn; [by constructor |].
  destruct (decide (k = k')) as [->|]; by constructor.
Qed.

Lemma entries_below path n truthy m : Forall (entry_right path truthy) m -> Forall (entry_right (n :: path) truthy) m.
Proof.
  intros F. eapply Forall_impl; [exact F |]. intros e (c & above & test & q & S & H). exists c, above, test, q.
  split; [by apply suffix_cons_r | done].
Qed.

Lemma entries_left path n truthy m : (forall e, e ∈ m -> is_statement n = true -> e.1 <> node_id n) ->
  Forall (entry_right (n :: path) truthy) m -> Forall (entry_right path truthy) m.
Proof.
  rewrite !Forall_forall. intros N F e He. destruct (F e He) as (c & above & test & q & S & St & K & H).
  exists c, above, test, q. split; [| done]. apply suffix_cons_inv in S as [[= -> ->]|S]; [| done].
  exfalso. by apply (N e).
Qed.

Lemma entries_delete path n truthy m : Forall (entry_right (n :: path) truthy) m ->
  Forall (entry_right path truthy) (map_delete (node_id n) m).
Proof.
  intros F. unfold map_delete. apply (entries_left path n).
  - intros e [He _]%list_elem_of_filter _. exact He.
  - rewrite Forall_forall in F. rewrite Forall_forall. intros e [_ He]%list_elem_of_filter. by apply F.
Qed.

(** Entering a statement. *)
Lemma on_statement_right n parents st : is_statement n = true -> maps_right parents st ->
  maps_right (n :: parents) (on_statement sm scope_type n parents st).
Proof.
  intros S (Ht & Hf & Hr). unfold maps_right, on_statement.
  assert (forall consequent test truthy ids, is_branch n parents test consequent ->
    (forall env other, holds variable_of env other test = consequent ->
      Forall (fun i => is_identifier i = true /\ holds variable_of env other i = truthy) ids) ->
    entry_right (n :: parents) truthy (node_id n, transformAndFilter sm scope_type ids (sm_getScope sm n))) as New.
  { intros q test truthy ids B K. exists n, parents, test, q. split_and!; [done | done | done | done |].
    intros ref (id & s & v & Hid & Hs & Hv & Hw & Hi)%transformed. exists v. split_and!; [done | by exists s |].
    intros env other H. specialize (K env other H). rewrite Forall_forall in K.
    destruct (K id Hid) as [I E]. by rewrite <- (identifier_holds env other id v I Hi). }
  assert (maps_right (n :: parents) st) as Same by (split_and!; [by apply entries_below | by apply entries_below | done]).
  destruct (head parents) as [parent|] eqn:P; [| done].
  destruct (isIfStatement (Some parent)) eqn:If; [| done]. apply String.eqb_eq in If.
  destruct (is_child parent "consequent" n) eqn:C.
  - destruct (get_node parent "test") as [test|] eqn:T; [| done].
    assert (is_branch n parents test true) as B by (by exists parent).
    pose proof (fun env other => collected_right variable_of env other test) as K.
    destruct (collectKnownIdentifiers test) as [t f]. cbn [truthyMap falsyMap reported].
    split_and!; [| | done]; apply Forall_map_set; try (by apply entries_below);
      apply (New true test); try done; intros env other H; by apply K in H as [H1 H2].
  - destruct (is_child parent "alternate" n) eqn:A; [| done].
    destruct (get_node parent "test") as [test|] eqn:T; [| done].
    destruct (is_identifier test) eqn:I; [| done]. cbn [truthyMap falsyMap reported].
    split_and!; [by apply entries_below | | done]. apply Forall_map_set; [by apply entries_below |].
    apply (New false test); [by exists parent |]. intros env other H. by constructor.
Qed.

Lemma known_reports_right id parents v (branches : list (nat * list Reference)) truthy : Enter id parents ∈ events keys [] root ->
  getSymbol sm id (sm_getScope sm id) = Some v -> Forall (entry_right parents truthy) branches ->
  Forall report_right (known_reports id v branches truthy).
Proof.
  intros He Hv F. rewrite Forall_forall in F. rewrite Forall_forall. unfold known_reports. intros r (b & Hb & H)%list_elem_of_omap.
  destruct (F b Hb) as (c & above & test & q & S & _ & _ & B & K).
  destruct (List.find _ b.2) as [ref|] eqn:E; [| done]. injection H as <-. apply find_some in E as [Hr E].
  apply bool_decide_eq_true in E. destruct (K ref) as (v' & Hv' & W & T); [by apply list_elem_of_In |].
  right. exists parents, c, above, test, q, v'. assert (v' = v) as -> by congruence. done.
Qed.

Lemma add_reports_right path l st : maps_right path st -> Forall report_right l -> maps_right path (add_reports l st).
Proof. intros (Ht & Hf & Hr) Hl. split_and!; [done | done |]. by apply Forall_app. Qed.

Lemma on_enter_right n parents st st' : Enter n parents ∈ events keys [] root -> maps_right parents st ->
  on_condition_event sm scope_type (Enter n parents) st = Ok st' -> maps_right (n :: parents) st'.
Proof.
  intros He M E. cbn [on_condition_event] in E.
  set (st1 := if type_of n =s "Program" then _ else _) in E.
  assert (maps_right parents st1) as M1.
  { unfold st1. destruct (type_of n =s "Program"); [| done]. destruct M as (_ & _ & Hr). by split_and!. }
  set (st2 := if is_statement n then _ else _) in E.
  assert (maps_right (n :: parents) st2 /\ (is_statement n = false -> st2 = st1)) as [M2 St].
  { unfold st2. destruct (is_statement n) eqn:S; [split; [by apply on_statement_right | done] |]. split; [| done].
    destruct M1 as (Ht & Hf & Hr). split_and!; [by apply entries_below | by apply entries_below | done]. }
  set (st3 := if type_of n =s "IfStatement" then _ else _) in E.
  assert (maps_right (n :: parents) st3 /\ (type_of n = "Identifier" -> st3 = st1)) as [M3 St3].
  { unfold st3. destruct (type_of n =s "IfStatement") eqn:If; apply String.eqb_eq in If || clear If.
    - split; [| by rewrite If]. apply add_reports_right; [done |]. unfold on_if.
      destruct (get_node n "test") as [test|] eqn:T; [| constructor]. destruct (type_of test =s "Literal"); [| constructor].
      destruct (get test "value") as [| |b| | | | | | |] eqn:V; try constructor; [| constructor].
      left. by exists n, parents.
    - split; [done |]. intros I. apply St. unfold is_statement. by rewrite I. }
  injection E as <-. destruct (type_of n =s "Identifier") eqn:I; [| done]. apply String.eqb_eq in I.
  apply add_reports_right; [done |]. rewrite St3 by done. destruct M1 as (Ht & Hf & _). unfold on_identifier.
  destruct (getSymbol sm n (sm_getScope sm n)) as [v|] eqn:V; [| constructor].
  destruct (in_condition n parents); [| constructor].
  apply Forall_app. split; by apply (known_reports_right n parents).
Qed.

Lemma on_leave_right n parents st st' : maps_right (n :: parents) st ->
  on_condition_event sm scope_type (Leave n parents) st = Ok st' -> maps_right parents st'.
Proof.
  intros (Ht & Hf & Hr) [= <-]. destruct (is_statement n) eqn:S.
  - split_and!; [by apply entries_delete | by apply entries_delete | done].
  - split_and!; [apply (entries_left _ n); [by rewrite S | done] | apply (entries_left _ n); [by rewrite S | done] | done].
Qed.

End Reports.

(** C30: Each report of S2589 is right: it is the literal of a condition, with its value,
    or an identifier in a branch of an [if] whose condition tells that its variable is
    truthy, or falsy, whenever the branch is taken, while each write of the variable is
    out of the scope of the branch and in the same function. Scopes are listed after
    those around them, and references to one identifier have one variable. *)
Theorem reported_conditions_are_known sm scope_type sc variable_of :
  nested_scopes sm ->
  (forall i r, sm_references sm !! i = Some r -> variable_of (node_id (ref_identifier r)) = ref_resolved r) ->
  Forall (report_right sm scope_type (sc_visitorKeys sc) (sc_ast sc) variable_of) (condition_reports sm scope_type sc).
Proof.
  intros N A. unfold condition_reports. destruct (run _ _ _) as [st|[]] eqn:R.
  apply (run_invariant _ (sc_visitorKeys sc) (fun e => e ∈ events (sc_visitorKeys sc) [] (sc_ast sc))
    (maps_right sm scope_type (sc_visitorKeys sc) (sc_ast sc) variable_of)) in R; [apply R | | | done | by repeat constructor].
  - intros n parents s s'. by apply on_enter_right.
  - intros n parents s s' _. apply on_leave_right.
Qed.

(** ** Example *)

Module ConditionsExample.

Definition mk (i : nat) (t : string) (ps : list (string * value)) : node := Node (mkHeader i t None None) ps.
Definition ident (i : nat) (name : string) : node := mk i "Identifier" [("name", VStr name)].

(** [if (x && !y) \{ if (x) \{\} \}] *)
Definition inner : node :=
  mk 12 "IfStatement" [("test", VNode (ident 11 "x")); ("consequent", VNode (mk 13 "BlockStatement" []))].
Definition branch : node := mk 10 "BlockStatement" [("body", VArr [VNode inner])].
Definition condition : node :=
  mk 4 "LogicalExpression" [("operator", VStr "&&"); ("left", VNode (ident 2 "x"));
    ("right", VNode (mk 5 "UnaryExpression" [("operator", VStr "!"); ("argument", VNode (ident 3 "y"))]))].
Definition outer : node := mk 6 "IfStatement" [("test", VNode condition); ("consequent", VNode branch)].

Definition reference (i : nat) (scope : ScopeId) (v : VarId) : Reference :=
  mkReference (ident i "") [] scope (Some v) None false true false.

(** A scope of a function with the scope of a block in it. *)
Definition scopes : ScopeManager :=
  mkScopeManager [mkScope (mk 0 "Program" []) None [0; 1] [0; 1]; mkScope branch (Some 0) [] [2]]
    [mkVariable "x" 0 None [] [0; 2]; mkVariable "y" 0 None [] [1]]
    [reference 2 0 0; reference 3 0 1; reference 11 1 0]
    (fun n => Some (if Nat.leb 10 (node_id n) then 1 else 0)).

Definition variable_of (i : nat) : option VarId := if Nat.eqb i 3 then Some 1 else Some 0.

Definition keys (t : string) : option (list string) :=
  if t =s "Program" then Some ["body"]
  else if t =s "IfStatement" then Some ["test"; "consequent"; "alternate"]
  else if t =s "BlockStatement" then Some ["body"]
  else if t =s "LogicalExpression" then Some ["left"; "right"]
  else if t =s "UnaryExpression" then Some ["argument"]
  else Some [].

Definition file (statement : node) : SourceCode :=
  mkSourceCode (mk 0 "Program" [("body", VArr [VNode statement])]) [] [] None keys
    (fun _ => []) (fun _ => None) (fun _ => None) (fun _ => []) (fun _ => mkPos 1 0) (fun _ => None).

Definition block_type (s : ScopeId) : string := if Nat.eqb s 0 then "function" else "block".

Example report_of_x : map (fun r => (node_id (k_node r), k_truthy r)) (condition_reports scopes block_type (file outer)) = [(11, true)].
Proof. reflexivity. Qed.

Lemma reported_conditions_are_known_witness :
  length (condition_reports scopes block_type (file outer)) = 1 /\
  Forall (report_right scopes block_type keys (sc_ast (file outer)) variable_of) (condition_reports scopes block_type (file outer)).
Proof.
  split; [reflexivity |]. apply (reported_conditions_are_known scopes block_type (file outer) variable_of).
  { split; [intros [|[|s]] u E; cbn in E; try discriminate; injection E as <-; lia |].
    intros [|[|[|i]]] r E; cbn in E; try discriminate; injection E as <-; cbn; lia. }
  intros [|[|[|i]]] r E; cbn in E; try discriminate; injection E as <-; reflexivity.
Defined.

(** [if (x && !y) if (x) \{\}]: without a block the references of the condition are
    looked up in the wrong scope, the one above, and nothing is reported. *)
Definition flat : ScopeManager :=
  mkScopeManager [mkScope (mk 0 "Program" []) None [0; 1] [0; 1; 2]] (sm_variables scopes) (sm_references scopes) (fun _ => Some 0).

Example branch_without_block : condition_reports flat (fun _ => "function")
  (file (mk 6 "IfStatement" [("test", VNode condition); ("consequent", VNode inner)])) = [].
Proof. reflexivity. Qed.

End ConditionsExample.
