(* ===== verification/Rewrites.v ===== *)
(** * Rewrites: values that are replaced before they are read

    The rules S4143 (elements of collections set twice in a row) and S1226 (parameters
    and variables of loops and [catch] reassigned before their value is read). The
    second is a stack of contexts driven by the events of ESLint, those of its walk and
    those of its code paths. *)

From Stdlib Require Import ZArith QArith Lia.
From stdpp Require Import base list strings.
From S2P Require Import Prelude JsString Estree JsNumber Ast Duplicates Traversal.

Open Scope js_scope.
Open Scope nat_scope.

(** ** S4143: elements that are set twice *)

(** [KeyWriteCollectionUsage] *)
Record KeyWrite := mkKeyWrite { collectionNode : node; indexOrKey : string; kw_node : node }.

(** A report: the write, and the write of the same key before it. *)
Record Overwrite := mkOverwrite { ow_write : KeyWrite; ow_original : KeyWrite; ow_line : Z }.

Section KeyWrites.

Variable sc : SourceCode.
(** The text of a number, as [String] writes it. *)
Variable number_text : Q -> string.

Definition same_value (token1 token2 : Token) : bool := t_value token1 =s t_value token2.

(** The inner loop of [isUsed], from a token of the expression on. *)
Fixpoint occurs_here (valueTokens expressionTokens : list Token) : bool :=
  match valueTokens, expressionTokens with
  | [v], e :: _ => same_value e v
  | v :: vs, e :: es => same_value e v && occurs_here vs es
  | _, _ => false
  end.

Fixpoint occurs_in (valueTokens expressionTokens : list Token) : bool :=
  match expressionTokens with
  | [] => false
  | _ :: rest => occurs_here valueTokens expressionTokens || occurs_in valueTokens rest
  end.

(** Every node has tokens. *)
Definition isUsed (value expression : node) : bool := occurs_in (getTokens sc value) (getTokens sc expression).

Definition extractIndex (n : node) : option string :=
  if isLiteral (Some n) then
    match get n "value" with
    | VNum _ | VStr _ => Some (text_of_value number_text (get n "value"))
    | _ => None
    end
  else if isIdentifier (Some n) [] then Some (node_name n)
  else None.

Definition isSimpleAssignment (n : node) : bool :=
  (type_of n =s "AssignmentExpression") && str_prop_is n "operator" "=".

Definition arrayKeyWriteUsage (n : node) : option KeyWrite :=
  match get_node n "left", get_node n "right" with
  | Some lhs, Some rhs =>
      if isSimpleAssignment n && (type_of lhs =s "MemberExpression") && truthy (get lhs "computed") then
        match get_node lhs "property", get_node lhs "object" with
        | Some property, Some object =>
            match extractIndex property with
            | Some index => if negb (isUsed object rhs) then Some (mkKeyWrite object index n) else None
            | None => None
            end
        | _, _ => None
        end
      else None
  | _, _ => None
  end.

Definition mapOrSetKeyWriteUsage (n : node) : option KeyWrite :=
  match get_node n "callee" with
  | Some propertyAccess =>
      if (type_of n =s "CallExpression") && (type_of propertyAccess =s "MemberExpression")
         && isIdentifier (get_node propertyAccess "property") [] then
        let arguments := get_array n "arguments" in
        let method name := match get_node propertyAccess "property" with Some p => node_name p =s name | None => false end in
        let addMethod := method "add" && Nat.eqb (length arguments) 1 in
        let setMethod := method "set" && Nat.eqb (length arguments) 2 in
        if addMethod || setMethod then
          match head arguments ≫= as_node, get_node propertyAccess "object" with
          | Some argument, Some object =>
              match extractIndex argument with
              | Some key => if key =s "" then None else Some (mkKeyWrite object key n)
              | None => None
              end
          | _, _ => None
          end
        else None
      else None
  | None => None
  end.

Definition getKeyWriteUsage (n : node) : option KeyWrite :=
  if type_of n =s "ExpressionStatement" then
    match get_node n "expression" with
    | Some e => match arrayKeyWriteUsage e with Some u => Some u | None => mapOrSetKeyWriteUsage e end
    | None => None
    end
  else None.

(** [usedKeys], [collection] and the reports. *)
Record overwrite_state := mkOverwriteState {
  usedKeys : list (string * KeyWrite);
  collection : option node;
  overwrites : list Overwrite
}.

Definition same_collection (a b : KeyWrite) : bool := equivalent sc (collectionNode a) (collectionNode b).

Definition check_write (keyWriteUsage : KeyWrite) (usedKeys : list (string * KeyWrite)) : list Overwrite :=
  match map_get (indexOrKey keyWriteUsage) usedKeys with
  | Some sameKeyWriteUsage =>
      match h_loc (hdr (kw_node sameKeyWriteUsage)) with
      | Some loc => [mkOverwrite keyWriteUsage sameKeyWriteUsage (line (start loc))]
      | None => []
      end
  | None => []
  end.

(** The body of the loop of [checkStatements]. *)
Definition check_usage (st : overwrite_state) (usage : option KeyWrite) : overwrite_state :=
  match usage with
  | Some keyWriteUsage =>
      let used :=
        match collection st with
        | Some c => if equivalent sc (collectionNode keyWriteUsage) c then usedKeys st else []
        | None => usedKeys st
        end in
      mkOverwriteState (map_set (indexOrKey keyWriteUsage) keyWriteUsage used)
        (Some (collectionNode keyWriteUsage))
        (overwrites st ++ check_write keyWriteUsage used)
  | None => mkOverwriteState [] (collection st) (overwrites st)
  end.

Definition checkStatements (statements : list node) : list Overwrite :=
  overwrites (fold_left check_usage (map getKeyWriteUsage statements) (mkOverwriteState [] None [])).

(** The handlers of the rule. *)
Definition S4143 (n : node) : list Overwrite :=
  if type_of n =s "SwitchCase" then checkStatements (get_nodes n "consequent")
  else if type_of n =s "BlockStatement" then checkStatements (get_nodes n "body")
  else if type_of n =s "Program" then checkStatements (getProgramStatements n)
  else [].

(** ** What S4143 reports *)

(** The statements from [i] to [j] are writes of elements, each in the collection of the
    one before it. *)
Definition run_of_writes (usages : list (option KeyWrite)) (i j : nat) : Prop :=
  forall k, i <= k < j -> exists a b,
    usages !! k = Some (Some a) /\ usages !! S k = Some (Some b) /\ same_collection b a = true.

(** The write at [j] sets the element set at [i], and no write between them does. *)
Definition overwritten (usages : list (option KeyWrite)) (i j : nat) (original write : KeyWrite) : Prop :=
  i < j /\ usages !! i = Some (Some original) /\ usages !! j = Some (Some write) /\
  indexOrKey original = indexOrKey write /\ run_of_writes usages i j /\
  forall k u, i < k < j -> usages !! k = Some (Some u) -> indexOrKey u <> indexOrKey write.

(** The writes that [usedKeys] holds after some statements: the last one of each key in
    the run that ends there. *)
Definition held (usages : list (option KeyWrite)) (i : nat) (key : string) (u : KeyWrite) : Prop :=
  usages !! i = Some (Some u) /\ indexOrKey u = key /\ run_of_writes usages i (length usages - 1) /\
  forall k v, i < k -> usages !! k = Some (Some v) -> indexOrKey v <> key.


Lemma run_of_writes_snoc usages x i : i < length usages ->
  run_of_writes (usages ++ [x]) i (length usages) <->
  run_of_writes usages i (length usages - 1) /\
  exists a b, last usages = Some (Some a) /\ x = Some b /\ same_collection b a = true.
Proof.
  intros Hi. unfold run_of_writes. split.
  - intros R. split.
    + intros k Hk. destruct (R k) as (a & b & Ha & Hb & Sc); [lia |]. rewrite lookup_app_l in Ha, Hb by lia. eauto.
    + destruct (R (length usages - 1)) as (a & b & Ha & Hb & Sc); [lia |]. exists a, b.
      rewrite lookup_app_l in Ha by lia. replace (S (length usages - 1)) with (length usages) in Hb by lia.
      rewrite list_lookup_middle in Hb by done. rewrite last_lookup. replace (pred (length usages)) with (length usages - 1) by lia.
      naive_solver.
  - intros (R & a & b & L & -> & Sc) k Hk. destruct (decide (k = length usages - 1)) as [->|].
    + exists a, b. rewrite last_lookup in L. replace (pred (length usages)) with (length usages - 1) in L by lia.
      rewrite lookup_app_l by lia. replace (Datatypes.S (length usages - 1)) with (length usages) by lia.
      by rewrite list_lookup_middle.
    + destruct (R k) as (c & d & Hc & Hd & S'); [lia |]. exists c, d. by rewrite !lookup_app_l by lia.
Qed.

Lemma held_snoc usages w i key u : held (usages ++ [Some w]) i key u <->
  (i = length usages /\ u = w /\ key = indexOrKey w) \/
  (key <> indexOrKey w /\ held usages i key u /\ exists a, last usages = Some (Some a) /\ same_collection w a = true).
Proof.
  unfold held. rewrite length_app. cbn [length]. replace (length usages + 1 - 1) with (length usages) by lia. split.
  - intros (L & K & R & N). destruct (decide (i = length usages)) as [->|Hne].
    + left. rewrite list_lookup_middle in L by done. naive_solver.
    + assert (i < length usages) as Hi by (apply lookup_lt_Some in L; rewrite length_app in L; cbn in L; lia).
      right. apply run_of_writes_snoc in R as (R & a & b & Ha & [= <-] & Sc); [| done].
      rewrite lookup_app_l in L by done. split; [| split; [| eauto]].
      * intros ->. by apply (N (length usages) w); [lia | rewrite list_lookup_middle |].
      * repeat split; try done. intros k v Hk Hv. apply (N k v Hk). by apply lookup_app_l_Some.
  - intros [(-> & -> & ->)|(Hk & (L & K & R & N) & a & La & Sc)].
    + rewrite list_lookup_middle by done. repeat split; [intros k; lia |].
      intros k v Hlt Hv. apply lookup_lt_Some in Hv. rewrite length_app in Hv. cbn in Hv. lia.
    + pose proof (lookup_lt_Some _ _ _ L) as Hi. rewrite lookup_app_l by done. repeat split; try done.
      * apply run_of_writes_snoc; [done |]. split; [done |]. by exists a, w.
      * intros k v Hlt Hv. apply lookup_app_Some in Hv as [Hv|[Hge Hv]]; [by eapply N |].
        apply list_lookup_singleton_Some in Hv as [_ [= <-]]. congruence.
Qed.

Lemma held_none usages i key u : ~ held (usages ++ [None]) i key u.
Proof.
  intros (L & _ & R & _). rewrite length_app in R. cbn in R. replace (length usages + 1 - 1) with (length usages) in R by lia.
  apply lookup_app_Some in L as [L|[Hge L]].
  - apply run_of_writes_snoc in R as (_ & a & b & _ & ? & _); [done | by apply lookup_lt_Some in L].
  - by apply list_lookup_singleton_Some in L as [_ ?].
Qed.

(** An overwrite that ends at the last statement replaces the write that is held. *)
Lemma overwritten_snoc usages x i j original write :
  overwritten (usages ++ [x]) i j original write <->
  overwritten usages i j original write \/
  (j = length usages /\ x = Some write /\ held usages i (indexOrKey write) original /\
   exists a, last usages = Some (Some a) /\ same_collection write a = true).
Proof.
  unfold overwritten. split.
  - intros (Hij & L & L' & K & R & N). apply lookup_app_Some in L' as [L'|[Hge L']].
    + left. pose proof (lookup_lt_Some _ _ _ L'). rewrite lookup_app_l in L by lia. repeat split; try done.
      * intros k Hk. destruct (R k Hk) as (a & b & Ha & Hb & Sc). rewrite lookup_app_l in Ha, Hb by lia. eauto.
      * intros k u Hk Hu. apply (N k u Hk). by apply lookup_app_l_Some.
    + right. apply list_lookup_singleton_Some in L' as [Hj ->]. assert (j = length usages) as -> by lia.
      rewrite lookup_app_l in L by lia. apply run_of_writes_snoc in R as (R & a & b & La & [= <-] & Sc); [| done].
      repeat split; try done; [| eauto]. intros k v Hk Hv. pose proof (lookup_lt_Some _ _ _ Hv).
      apply (N k v); [lia |]. by apply lookup_app_l_Some.
  - intros [(Hij & L & L' & K & R & N)|(-> & -> & (L & K & R & N) & a & La & Sc)].
    + pose proof (lookup_lt_Some _ _ _ L'). rewrite !lookup_app_l by lia. repeat split; try done.
      * intros k Hk. destruct (R k Hk) as (a & b & Ha & Hb & Sc). exists a, b. by rewrite !lookup_app_l by lia.
      * intros k u Hk Hu. rewrite lookup_app_l in Hu by lia. by eapply N.
    + pose proof (lookup_lt_Some _ _ _ L) as Hi. rewrite lookup_app_l, list_lookup_middle by done.
      repeat split; try done.
      * apply run_of_writes_snoc; [done |]. split; [done |]. by exists a, write.
      * intros k u [Hk Hlt] Hu. rewrite lookup_app_l in Hu by lia. by eapply N.
Qed.

(** The state after some statements. *)
Definition tracks (usages : list (option KeyWrite)) (st : overwrite_state) : Prop :=
  (forall key u, map_get key (usedKeys st) = Some u <-> exists i, held usages i key u) /\
  (forall a, last usages = Some (Some a) -> collection st = Some (collectionNode a)) /\
  (forall r, r ∈ overwrites st <-> exists i j loc,
     overwritten usages i j (ow_original r) (ow_write r) /\
     h_loc (hdr (kw_node (ow_original r))) = Some loc /\ ow_line r = line (start loc)).

(** What is used for a write: the writes held when the collection is the same. *)
Lemma used_held usages st w key u : tracks usages st ->
  map_get key (match collection st with
               | Some c => if equivalent sc (collectionNode w) c then usedKeys st else []
               | None => usedKeys st
               end) = Some u <->
  exists i, held usages i key u /\ exists a, last usages = Some (Some a) /\ same_collection w a = true.
Proof.
  intros (H & C & _). destruct (last usages) as [[a|]|] eqn:L.
  - rewrite (C a) by done. unfold same_collection. destruct (equivalent _ _ _) eqn:Sc.
    + rewrite H. split; [intros [i Hi]; by eauto |]. intros (i & Hi & _). by exists i.
    + cbn. split; [done |]. intros (i & _ & b & [= <-] & S'). congruence.
  - apply last_Some in L as [usages' ->]. assert (usedKeys st = []) as E.
    { destruct (usedKeys st) as [|[k v] r] eqn:E; [done |]. destruct (proj1 (H k v)) as [i Hi]; [by cbn; rewrite decide_True |].
      by apply held_none in Hi. }
    rewrite E. split; [by destruct (collection st) as [c|]; [destruct (equivalent _ _ c)|] |]. intros (i & Hi & _). by apply held_none in Hi.
  - apply last_None in L as ->. split.
    + intros M. exfalso. enough (usedKeys st = []) as E by (rewrite E in M; by destruct (collection st) as [c|]; [destruct (equivalent _ _ c)|]).
      destruct (usedKeys st) as [|[k v] r] eqn:E; [done |].
      destruct (proj1 (H k v)) as [i (Hi & _)]; [by cbn; rewrite decide_True | done].
    + intros (i & (Hi & _) & _). done.
Qed.

Lemma check_usage_tracks usages st x : tracks usages st -> tracks (usages ++ [x]) (check_usage st x).
Proof.
  intros T. destruct x as [w|]; cbn [check_usage].
  - set (used_keys := match collection st with Some c => _ | None => _ end). pose proof (fun key u => used_held usages st w key u T) as U.
    fold used_keys in U. destruct T as (H & C & O). repeat split; cbn [usedKeys collection overwrites].
    + destruct (decide (key = indexOrKey w)) as [->|Hne].
      * rewrite map_get_set_eq. intros [= <-]. exists (length usages). apply held_snoc. by left.
      * rewrite map_get_set_ne by done. intros (i & Hi & a & La & Sc)%U. exists i. apply held_snoc. right. eauto.
    + intros (i & [(-> & -> & ->)|(Hne & Hi & a & La & Sc)]%held_snoc).
      * by rewrite map_get_set_eq.
      * rewrite map_get_set_ne by done. apply U. eauto.
    + intros a. rewrite last_snoc. by intros [= <-].
    + rewrite elem_of_app, O. intros [(i & j & loc & Ho & Hl & E)|Hr].
      * exists i, j, loc. by rewrite overwritten_snoc; auto.
      * unfold check_write in Hr. destruct (map_get _ used_keys) as [u|] eqn:M; [| by apply not_elem_of_nil in Hr].
        destruct (h_loc _) as [loc|] eqn:Hl; [| by apply not_elem_of_nil in Hr].
        apply list_elem_of_singleton in Hr as ->. apply U in M as (i & Hi & a & La & Sc).
        exists i, (length usages), loc. rewrite overwritten_snoc. split; [right; eauto 8 | done].
    + rewrite elem_of_app, O. intros (i & j & loc & [Ho|(-> & Ew & Hi & a & La & Sc)]%overwritten_snoc & Hl & E); [left; eauto 6 |].
      right. destruct r as [w' o' l']. cbn [ow_write ow_original ow_line] in *. injection Ew as ->. subst l'.
      unfold check_write. rewrite (proj2 (U _ o')), Hl by eauto. by left.
  - destruct T as (H & C & O). repeat split; cbn [usedKeys collection overwrites].
    + done.
    + intros (i & Hi). by apply held_none in Hi.
    + intros a. by rewrite last_snoc.
    + intros (i & j & loc & Ho & Hl & E)%O. exists i, j, loc. by rewrite overwritten_snoc; auto.
    + intros (i & j & loc & [Ho|(_ & ? & _)]%overwritten_snoc & Hl & E); [| done]. apply O. eauto 6.
Qed.

Lemma check_usages_track usages : tracks usages (fold_left check_usage usages (mkOverwriteState [] None [])).
Proof.
  induction usages as [|x usages IH] using rev_ind.
  - repeat split; cbn; try done.
    + intros (i & Hi & _). done.
    + intros Hr. by apply not_elem_of_nil in Hr.
    + intros (i & j & loc & (_ & Hi & _) & _). done.
  - rewrite fold_left_app. by apply check_usage_tracks.
Qed.

(** C33: S4143 reports a write exactly when, in a row of statements that all write
    elements of the same collection, an earlier one writes the same key; the report is
    on the last one of them, with its line. *)
Theorem overwrites_are_reported statements r : r ∈ checkStatements statements <->
  exists i j loc,
    overwritten (map getKeyWriteUsage statements) i j (ow_original r) (ow_write r) /\
    h_loc (hdr (kw_node (ow_original r))) = Some loc /\ ow_line r = line (start loc).
Proof. apply check_usages_track. Qed.

End KeyWrites.

(** ** S1226: parameters reassigned before they are read *)

Inductive ContextType := catch_context | function_context | foreach_context | global_context.

Instance ContextType_eq_dec : EqDecision ContextType.
Proof. solve_decision. Defined.

(** [ReassignmentContext]; its [parentContext] is the next one of a list. Identifiers
    are keys by their identity. *)
Record ReassignmentContext := mkContext {
  context_type : ContextType;
  variablesToCheckInCurrentScope : list string;
  variablesToCheck : list string;
  variablesRead : list string;
  referencesByIdentifier : list (nat * Reference)
}.

Inductive precise_location := ReportNode (n : node) | ReportLoc (loc : SourceLocation).

(** A report: the name and the location. *)
Record Reassignment := mkReassignment { ra_name : string; ra_at : precise_location }.

(** What ESLint calls the rule with; a node comes with its ancestors, from the nearest
    one, where the rule looks at them. *)
Inductive reassign_event :=
| CodePathStart (n : node)
| CodePathEnd
| SegmentLoop (n : node) (parent : option node)
| SegmentStart (n : node)
| ForInExit
| ForOfExit
| CatchClauseExit
| Identifier (identifier : node) (parents : list node).

Definition new_global : ReassignmentContext := mkContext global_context [] [] [] [].

(** The current context and its parents, and the reports. *)
Record reassign_state := mkReassign { contexts : list ReassignmentContext; reassignments : list Reassignment }.

Definition initial_reassign : reassign_state := mkReassign [new_global] [].

Section Reassignments.

Variable sc : SourceCode.
Variable sm : ScopeManager.
(** [scope.type], [sourceCode.getDeclaredVariables] and [scopeManager.acquire]. *)
Variable scope_type : ScopeId -> string.
Variable declared_variables : node -> list VarId.
Variable acquire : node -> option ScopeId.

Definition computeSetDifference (a b : list string) : list string := List.filter (fun str => negb (set_has str b)) a.

Definition getFunctionName (n : node) : option string := (fun id => node_name id) <$> get_node n "id".

Definition isForEachLoopStart (n : node) (parent : option node) : bool :=
  (type_of n =s "BlockStatement")
  && (opt_type_is parent "ForInStatement" || opt_type_is parent "ForOfStatement").

Definition references_set (refs : list Reference) (m : list (nat * Reference)) : list (nat * Reference) :=
  fold_left (fun m ref => map_set (h_id (hdr (ref_identifier ref))) ref m) refs m.

(** [computeNewContextInfo(variableUsageContext, context, node)]: the references, the
    variables to check, and those of the current scope. *)
Definition computeNewContextInfo (variableUsageContext : ReassignmentContext) (n : node)
  : list (nat * Reference) * list string * list string :=
  let variables := omap (variable_at sm) (declared_variables n) in
  (fold_left (fun m variable => references_set (omap (reference_at sm) (var_references variable)) m) variables [],
   set_add_all (variablesToCheck variableUsageContext) (map var_name variables),
   set_add_all [] (map var_name variables)).

Fixpoint markAsRead (variableName : string) (context : list ReassignmentContext) : list ReassignmentContext :=
  match context with
  | [] => []
  | c :: parentContext =>
      mkContext (context_type c) (variablesToCheckInCurrentScope c) (variablesToCheck c)
        (set_add variableName (variablesRead c)) (referencesByIdentifier c)
      :: if negb (set_has variableName (variablesToCheckInCurrentScope c))
         then markAsRead variableName parentContext else parentContext
  end.

Fixpoint markAllFunctionArgumentsAsRead (context : list ReassignmentContext) : list ReassignmentContext :=
  match context with
  | [] => []
  | c :: parentContext =>
      if decide (context_type c = function_context) then
        mkContext (context_type c) (variablesToCheckInCurrentScope c) (variablesToCheck c)
          (set_add_all (variablesRead c) (variablesToCheckInCurrentScope c)) (referencesByIdentifier c)
        :: parentContext
      else c :: markAllFunctionArgumentsAsRead parentContext
  end.

Fixpoint getReference (context : list ReassignmentContext) (identifier : node) : option Reference :=
  match context with
  | [] => None
  | c :: parentContext =>
      match map_get (h_id (hdr identifier)) (referencesByIdentifier c) with
      | Some ref => Some ref
      | None => getReference parentContext identifier
      end
  end.

Definition isUsedInWriteExpression (variableName : string) (writeExpr : option node) : bool :=
  match writeExpr with
  | Some e => existsb (fun token => (t_value token =s variableName) || (t_value token =s "arguments")) (sc_getTokens sc e)
  | None => false
  end.

(** The loop on the ancestors, from the nearest one, with the one below each. *)
Fixpoint isInsideIfStatement (parents : list node) (below : option node) : bool :=
  match parents with
  | [] => false
  | ancestor :: rest =>
      ((type_of ancestor =s "IfStatement")
       && match below with
          | Some b =>
              match get_node ancestor "consequent" with Some c => same_node b c | None => false end
              || match get_node ancestor "alternate" with Some a => same_node b a | None => false end
          | None => false
          end)
      || isInsideIfStatement rest (Some ancestor)
  end.

Definition getPreciseLocationHolder (ref : Reference) : precise_location :=
  match h_loc (hdr (ref_identifier ref)), ref_writeExpr ref with
  | Some identifierLoc, Some writeExpr =>
      match h_loc (hdr writeExpr) with
      | Some writeLoc => ReportLoc (mkLoc (start identifierLoc) (endp writeLoc))
      | None => ReportNode (ref_identifier ref)
      end
  | _, _ => ReportNode (ref_identifier ref)
  end.

Definition raiseIssue (ref : Reference) : Reassignment :=
  mkReassignment (node_name (ref_identifier ref)) (getPreciseLocationHolder ref).

(** The condition under which an identifier writes over a value that is not read. *)
Definition overwrites_value (c : ReassignmentContext) (variableName : string) (currentReference : Reference) : bool :=
  set_has variableName (variablesToCheck c)
  && (ref_isWrite currentReference && negb (ref_isRead currentReference))
  && negb (isUsedInWriteExpression variableName (ref_writeExpr currentReference)).

(** Assignments that might be a shift or give a default value. *)
Definition is_conditional (parents : list node) : bool :=
  isInsideIfStatement parents None || existsb (fun n => type_of n =s "SwitchCase") parents.

Definition checkIdentifierUsage (identifier : node) (parents : list node) (identifierContextType : ContextType)
    (st : reassign_state) : reassign_state :=
  match contexts st with
  | [] => st
  | c :: _ =>
      if negb (bool_decide (context_type c = identifierContextType)) then st
      else
        let variableName := node_name identifier in
        let otherwise :=
          if variableName =s "arguments"
          then mkReassign (markAllFunctionArgumentsAsRead (contexts st)) (reassignments st) else st in
        match getReference (contexts st) identifier with
        | Some currentReference =>
            if negb (ref_init currentReference) && negb (set_has variableName (variablesRead c)) then
              if overwrites_value c variableName currentReference then
                if is_conditional parents then st
                else mkReassign (markAsRead variableName (contexts st)) (reassignments st ++ [raiseIssue currentReference])
              else mkReassign (markAsRead variableName (contexts st)) (reassignments st)
            else otherwise
        | None => otherwise
        end
  end.

Definition popContext (st : reassign_state) : reassign_state :=
  match contexts st with
  | _ :: parentContext :: rest => mkReassign (parentContext :: rest) (reassignments st)
  | _ => st
  end.

(** A context on top of the current one. *)
Definition push_context (type : ContextType) (info : list (nat * Reference) * list string * list string)
    (st : reassign_state) : reassign_state :=
  match contexts st with
  | current :: _ =>
      let '(references, toCheck, inCurrentScope) := info in
      mkReassign (mkContext type inCurrentScope toCheck (computeSetDifference (variablesRead current) inCurrentScope) references
                  :: contexts st) (reassignments st)
  | [] => st
  end.

Definition onCodePathStart (n : node) (st : reassign_state) : reassign_state :=
  match contexts st with
  | current :: _ =>
      if match sm_getScope sm n with Some s => scope_type s =s "function" | None => false end then
        let '(references, toCheck, inCurrentScope) := computeNewContextInfo current n in
        let toCheck := match getFunctionName n with Some name => set_delete name toCheck | None => toCheck end in
        push_context function_context (references, toCheck, inCurrentScope) st
      else mkReassign (new_global :: contexts st) (reassignments st)
  | [] => st
  end.

Definition onCodePathSegmentLoop (n : node) (parent : option node) (st : reassign_state) : reassign_state :=
  match parent, contexts st with
  | Some p, current :: _ =>
      if isForEachLoopStart n parent then
        match get_node p "left", get_node p "body" with
        | Some lhs, Some body =>
            let '(references, toCheck, inCurrentScope) := computeNewContextInfo current lhs in
            let references :=
              match acquire body ≫= scope_at sm with
              | Some currentScope => references_set (omap (reference_at sm) (sco_references currentScope)) references
              | None => references
              end in
            let names := map node_name (resolveIdentifiers lhs true) in
            push_context foreach_context (references, set_add_all toCheck names, set_add_all inCurrentScope names) st
        | _, _ => st
        end
      else st
  | _, _ => st
  end.

Definition onCodePathSegmentStart (n : node) (st : reassign_state) : reassign_state :=
  match contexts st with
  | current :: _ =>
      if type_of n =s "CatchClause" then push_context catch_context (computeNewContextInfo current n) st else st
  | [] => st
  end.

(** The selector [parent > child Identifier], on the ancestors of the identifier. *)
Fixpoint inside (child parent : node -> bool) (parents : list node) : bool :=
  match parents with
  | [] => false
  | c :: rest => (child c && match rest with p :: _ => parent p | [] => false end) || inside child parent rest
  end.

Definition is_type (t : string) (n : node) : bool := type_of n =s t.

(** The selectors on identifiers, and the contexts they are for. *)
Definition identifier_selectors : list ((list node -> bool) * ContextType) :=
  [(inside (is_type "BlockStatement") isFunctionNode, function_context);
   (inside is_statement (is_type "ForInStatement"), foreach_context);
   (inside is_statement (is_type "ForOfStatement"), foreach_context);
   (inside (is_type "BlockStatement") (is_type "CatchClause"), catch_context)].

Definition on_identifier (identifier : node) (parents : list node) (st : reassign_state) : reassign_state :=
  fold_left (fun st (selector : (list node -> bool) * ContextType) => if selector.1 parents then checkIdentifierUsage identifier parents selector.2 st else st)
    identifier_selectors st.

Definition on_reassign_event (st : reassign_state) (e : reassign_event) : reassign_state :=
  match e with
  | CodePathStart n => onCodePathStart n st
  | SegmentLoop n parent => onCodePathSegmentLoop n parent st
  | SegmentStart n => onCodePathSegmentStart n st
  | CodePathEnd | ForInExit | ForOfExit | CatchClauseExit => popContext st
  | Identifier identifier parents => on_identifier identifier parents st
  end.

Definition S1226 (events : list reassign_event) : list Reassignment :=
  reassignments (fold_left on_reassign_event events initial_reassign).

(** ** What S1226 reports *)

Definition run_reassign (st : reassign_state) (events : list reassign_event) : reassign_state :=
  fold_left on_reassign_event events st.

Definition declares (x : string) (c : ReassignmentContext) : bool := set_has x (variablesToCheckInCurrentScope c).

(** The context above the [depth] outermost ones declares [x], and those above it do
    not. *)
Definition in_scope (x : string) (depth : nat) (st : reassign_state) : bool :=
  let above := length (contexts st) - S depth in
  (depth <? length (contexts st))
  && forallb (fun c => negb (declares x c)) (take above (contexts st))
  && match contexts st !! above with Some c => declares x c | None => false end.

Fixpoint always (P : reassign_state -> bool) (st : reassign_state) (events : list reassign_event) : bool :=
  P st && match events with [] => true | e :: rest => always P (on_reassign_event st e) rest end.

(** An identifier that a handler for the current context looks at: a reference, other
    than the initialisation of a variable and than a plain write in a branch. *)
Definition uses_reference (identifier : node) (parents : list node) (type : ContextType) (stack : list ReassignmentContext)
  : bool :=
  match stack with
  | c :: _ =>
      bool_decide (context_type c = type)
      && match getReference stack identifier with
         | Some ref => negb (ref_init ref) && negb (overwrites_value c (node_name identifier) ref && is_conditional parents)
         | None => false
         end
  | [] => false
  end.

Definition uses (x : string) (st : reassign_state) (e : reassign_event) : bool :=
  match e with
  | Identifier identifier parents =>
      (node_name identifier =s x)
      && existsb (fun selector => selector.1 parents && uses_reference identifier parents selector.2 (contexts st))
           identifier_selectors
  | _ => false
  end.

Fixpoint used (x : string) (st : reassign_state) (events : list reassign_event) : bool :=
  match events with
  | [] => false
  | e :: rest => uses x st e || used x (on_reassign_event st e) rest
  end.

(** Contexts whose sets of read variables grow, by what they declare except for [x]. *)
Record grows (c c' : ReassignmentContext) : Prop := mkGrows {
  grows_type : context_type c' = context_type c;
  grows_scope : variablesToCheckInCurrentScope c' = variablesToCheckInCurrentScope c;
  grows_check : variablesToCheck c' = variablesToCheck c;
  grows_references : referencesByIdentifier c' = referencesByIdentifier c;
  grows_read : forall x, x ∈ variablesRead c -> x ∈ variablesRead c'
}.

Instance grows_refl : Reflexive grows.
Proof. by constructor. Qed.

Instance grows_trans : Transitive grows.
Proof. intros a b c [] []. constructor; try congruence. eauto. Qed.

Lemma markAsRead_grows x stack : Forall2 grows stack (markAsRead x stack).
Proof.
  induction stack as [|c stack IH]; cbn; constructor.
  - constructor; try done. intros y Hy. cbn. apply elem_of_set_add. by right.
  - destruct (negb _); [done | reflexivity].
Qed.

Lemma markAll_grows stack : Forall2 grows stack (markAllFunctionArgumentsAsRead stack).
Proof.
  induction stack as [|c stack IH]; cbn; [constructor |].
  destruct (decide _); constructor; [| reflexivity | reflexivity | done].
  constructor; try done. intros y Hy. cbn. apply elem_of_set_add_all. by left.
Qed.

Lemma getReference_grows identifier stack stack' : Forall2 grows stack stack' ->
  getReference stack' identifier = getReference stack identifier.
Proof.
  induction 1 as [|c c' stack stack' G F IH]; cbn; [done |]. by rewrite (grows_references _ _ G), IH.
Qed.

Lemma uses_reference_grows identifier parents type stack stack' : Forall2 grows stack stack' ->
  uses_reference identifier parents type stack' = uses_reference identifier parents type stack.
Proof.
  intros G. unfold uses_reference. rewrite (getReference_grows _ _ _ G). destruct G as [|c c' stack stack' G F]; [done |].
  rewrite (grows_type _ _ G). unfold overwrites_value. by rewrite (grows_check _ _ G).
Qed.

Lemma checkIdentifierUsage_grows identifier parents type st :
  Forall2 grows (contexts st) (contexts (checkIdentifierUsage identifier parents type st)).
Proof.
  unfold checkIdentifierUsage. destruct (contexts st) as [|c stack] eqn:E; [by rewrite E |].
  repeat case_match; cbn [contexts]; rewrite ?E; first [reflexivity | apply markAsRead_grows | apply markAll_grows].
Qed.

(** The contexts from the current one down to the one that declares [x]. *)
Section Scope.

Variable x : string.

Definition has_read (c : ReassignmentContext) : Prop := x ∈ variablesRead c.

(** A context that has read [x] is on contexts that have. *)
Fixpoint closed (segment : list ReassignmentContext) : Prop :=
  match segment with
  | [] => True
  | c :: rest => (has_read c -> Forall has_read rest) /\ closed rest
  end.

(** [x] cannot be reported in any of the contexts. *)
Definition covered (segment : list ReassignmentContext) : Prop :=
  Forall (fun c => has_read c \/ x ∉ variablesToCheck c) segment.

Inductive scope (depth : nat) (stack : list ReassignmentContext) (segment : list ReassignmentContext) : Prop :=
| scope_intro above c rest :
    stack = segment ++ rest -> segment = above ++ [c] -> length rest = depth ->
    declares x c = true -> Forall (fun c => declares x c = false) above -> scope depth stack segment.

Lemma in_scope_spec depth st : in_scope x depth st = true <-> exists segment, scope depth (contexts st) segment.
Proof.
  unfold in_scope. rewrite !andb_true_iff, Nat.ltb_lt, forallb_forall. split.
  - intros [[L A] D]. set (k := length (contexts st) - S depth) in *.
    destruct (contexts st !! k) as [c|] eqn:E; [| done].
    exists (take k (contexts st) ++ [c]). apply (scope_intro _ _ _ (take k (contexts st)) c (drop (S k) (contexts st))); try done.
    + rewrite <- app_assoc. symmetry. by apply take_drop_middle.
    + rewrite length_drop. lia.
    + apply Forall_forall. intros d Hd. apply negb_true_iff, A. by apply list_elem_of_In.
  - intros [segment [above c rest E -> <- D A]]. rewrite E, <- app_assoc. rewrite length_app. cbn [length app].
    replace (length above + S (length rest) - S (length rest)) with (length above) by lia.
    rewrite take_app_length, list_lookup_middle by done. repeat split; [lia | | done].
    intros d Hd%list_elem_of_In. rewrite Forall_forall in A. by rewrite A.
Qed.

Lemma scope_unique depth stack segment segment' : scope depth stack segment -> scope depth stack segment' -> segment = segment'.
Proof.
  intros [above c rest -> -> <- _ _] [above' c' rest' E -> L _ _]. apply app_inj_2 in E as [-> _]; [done | by rewrite L].
Qed.

Lemma scope_grows depth stack stack' segment : Forall2 grows stack stack' -> scope depth stack segment ->
  exists segment', scope depth stack' segment' /\ Forall2 grows segment segment'.
Proof.
  intros G [above c rest -> -> <- D A]. apply Forall2_app_inv_l in G as (seg' & rest' & G & G' & ->).
  exists seg'. split; [| done]. apply Forall2_app_inv_l in G as (above' & l & Ga & Gc & ->).
  apply Forall2_cons_inv_l in Gc as (c' & l' & Gc & Gl & ->). apply Forall2_nil_inv_l in Gl as ->.
  apply (scope_intro _ _ _ above' c' rest'); try done.
  - by apply Forall2_length in G'.
  - unfold declares. by rewrite (grows_scope _ _ Gc).
  - apply Forall_forall. intros d' (i & Hi)%list_elem_of_lookup. destruct (Forall2_lookup_r _ _ _ _ _ Ga Hi) as (d & Hd & Gd).
    unfold declares. rewrite (grows_scope _ _ Gd). rewrite Forall_forall in A. apply A. by apply list_elem_of_lookup_2 in Hd.
Qed.

Lemma covered_grows segment segment' : Forall2 grows segment segment' -> covered segment -> covered segment'.
Proof.
  induction 1 as [|c c' l l' G F IH]; [done |]. intros [H C]%Forall_cons. apply Forall_cons. split; [| by apply IH].
  destruct H as [H|H]; [left; by apply (grows_read _ _ G) | right; by rewrite (grows_check _ _ G)].
Qed.

Lemma all_read_covered segment : Forall has_read segment -> covered segment.
Proof. intros H. eapply Forall_impl; [exact H | by left]. Qed.

Lemma all_read_closed segment : Forall has_read segment -> closed segment.
Proof. induction 1 as [|c l H F IH]; cbn; auto. Qed.

Lemma markAsRead_scope depth stack segment : scope depth stack segment ->
  exists segment', scope depth (markAsRead x stack) segment' /\ Forall has_read segment'.
Proof.
  intros [above c rest -> -> <- D A]. rewrite <- app_assoc. cbn [app].
  set (mark c := mkContext (context_type c) (variablesToCheckInCurrentScope c) (variablesToCheck c)
        (set_add x (variablesRead c)) (referencesByIdentifier c)).
  assert (markAsRead x (above ++ c :: rest) = (map mark above ++ [mark c]) ++ rest) as ->.
  { rewrite <- app_assoc. induction A as [|d above H A IH]; cbn [app markAsRead map].
    - unfold declares in D. by rewrite D.
    - unfold declares in H. rewrite H. cbn. by rewrite IH. }
  assert (forall d, has_read (mark d)) as M by (intros d; apply elem_of_set_add; by left).
  exists (map mark above ++ [mark c]). split.
  - apply (scope_intro _ _ _ (map mark above) (mark c) rest); try done. by apply Forall_map.
  - apply Forall_app. split; [| by constructor]. apply Forall_map. by apply Forall_true.
Qed.

(** Changes to what is read that leave [x] alone, but where it is declared. *)
Definition leaves (c c' : ReassignmentContext) : Prop := declares x c = false -> (has_read c' <-> has_read c).

Lemma leaves_refl stack : Forall2 leaves stack stack.
Proof. induction stack; by constructor. Qed.

Lemma markAsRead_leaves y stack : x <> y -> Forall2 leaves stack (markAsRead y stack).
Proof.
  intros Hne. induction stack as [|c stack IH]; cbn; constructor.
  - intros _. unfold has_read. cbn. rewrite elem_of_set_add. naive_solver.
  - destruct (negb _); [done | apply leaves_refl].
Qed.

Lemma markAll_leaves stack : Forall2 leaves stack (markAllFunctionArgumentsAsRead stack).
Proof.
  induction stack as [|c stack IH]; cbn; [constructor |].
  destruct (decide _); constructor; [| apply leaves_refl | by intros ? | done].
  intros D. unfold has_read. cbn. rewrite elem_of_set_add_all. unfold declares in D. apply set_has_false in D. naive_solver.
Qed.

Lemma closed_grows depth stack stack' segment segment' : Forall2 grows stack stack' -> Forall2 leaves stack stack' ->
  scope depth stack segment -> scope depth stack' segment' -> closed segment -> closed segment'.
Proof.
  intros G L [above c rest -> -> Hr D A] [above' c' rest' E -> Hr' D' A'].
  subst stack'. apply Forall2_app_inv in G as [G _].
  2:{ apply Forall2_length in G. rewrite !length_app in *. lia. }
  apply Forall2_app_inv in L as [L _]; [| by apply Forall2_length in G].
  clear D' A'. revert above' G L. induction A as [|d above H A IH]; intros [|d' above'] G L; cbn [app] in *.
  - split; [by constructor | done].
  - apply Forall2_cons in G as [_ G]. apply Forall2_nil_inv_l in G. by destruct above'.
  - apply Forall2_cons in G as [_ G]. apply Forall2_nil_inv_r in G. by destruct above.
  - apply Forall2_cons in G as [Gd G], L as [Ld L]. intros [R C]. split; [| by apply IH].
    intros Hd%(Ld H)%R. clear - G Hd. induction G as [|a a' l l' Ga G IH]; [done |].
    apply Forall_cons in Hd as [Ha Hd]. constructor; [by apply (grows_read _ _ Ga) | by apply IH].
Qed.

(** What holds from the moment the context that declares [x] is the current one. *)
Definition tracked (depth : nat) (b : bool) (st : reassign_state) : Prop :=
  exists segment, scope depth (contexts st) segment /\ closed segment /\ (b = true -> covered segment).

Lemma tracked_weaken depth b b' st : (b' = true -> b = true) -> tracked depth b st -> tracked depth b' st.
Proof. intros H (segment & S & C & K). exists segment. auto. Qed.

Lemma tracked_grows depth b st st' : Forall2 grows (contexts st) (contexts st') -> Forall2 leaves (contexts st) (contexts st') ->
  tracked depth b st -> tracked depth b st'.
Proof.
  intros G L (segment & S & C & K). destruct (scope_grows _ _ _ _ G S) as (segment' & S' & G').
  exists segment'. split; [done |]. split; [exact (closed_grows _ _ _ _ _ G L S S' C) |]. intros B. exact (covered_grows _ _ G' (K B)).
Qed.

Lemma tracked_read depth b st reports : tracked depth b st -> tracked depth true (mkReassign (markAsRead x (contexts st)) reports).
Proof.
  intros (segment & S & _ & _). destruct (markAsRead_scope _ _ _ S) as (segment' & S' & R).
  exists segment'. split; [done |]. split; [by apply all_read_closed | intros _; by apply all_read_covered].
Qed.

Lemma scope_top depth c stack segment : scope depth (c :: stack) segment -> exists segment', segment = c :: segment'.
Proof.
  intros [above d rest E -> _ _ _]. destruct above as [|a above]; cbn in *; injection E as <- E; eauto.
Qed.

Lemma check_tracked depth b identifier parents type st : tracked depth b st ->
  tracked depth (b || (node_name identifier =s x) && uses_reference identifier parents type (contexts st))
    (checkIdentifierUsage identifier parents type st).
Proof.
  intros T. unfold checkIdentifierUsage, uses_reference. destruct (contexts st) as [|c stack] eqn:E.
  { by rewrite andb_false_r, orb_false_r. }
  destruct (bool_decide (context_type c = type)); cbn [negb andb]; [| by rewrite andb_false_r, orb_false_r].
  assert (forall v, tracked depth v st -> tracked depth v
    (if node_name identifier =s "arguments" then mkReassign (markAllFunctionArgumentsAsRead (c :: stack)) (reassignments st)
     else st)) as Otherwise.
  { intros v Tv. destruct (node_name identifier =s "arguments"); [| done]. rewrite <- E.
    by apply (tracked_grows _ _ st); [apply markAll_grows | apply markAll_leaves |]. }
  destruct (getReference (c :: stack) identifier) as [ref|] eqn:R; [| rewrite andb_false_r, orb_false_r; by apply Otherwise].
  destruct (ref_init ref); cbn [negb andb]; [rewrite andb_false_r, orb_false_r; by apply Otherwise |].
  set (w := overwrites_value c (node_name identifier) ref).
  destruct (set_has (node_name identifier) (variablesRead c)) eqn:H; cbn [negb].
  - apply Otherwise. destruct (node_name identifier =s x) eqn:Ex; [| by rewrite andb_false_l, orb_false_r].
    apply String.eqb_eq in Ex. apply set_has_spec in H. rewrite Ex in H.
    destruct T as (segment & S & C & K). exists segment. split; [done |]. split; [done |]. intros _.
    rewrite E in S. destruct (scope_top _ _ _ _ S) as [segment' ->]. destruct C as [C _].
    apply all_read_covered. constructor; [done | by apply C].
  - assert (forall reports, tracked depth (b || (node_name identifier =s x))
      (mkReassign (markAsRead (node_name identifier) (c :: stack)) reports)) as Mark.
    { intros reports. rewrite <- E. destruct (node_name identifier =s x) eqn:Ex.
      - apply String.eqb_eq in Ex as ->. rewrite orb_true_r. by eapply tracked_read.
      - rewrite orb_false_r. apply (tracked_grows _ _ st); [apply markAsRead_grows | | done].
        apply markAsRead_leaves. intros ->. by rewrite String.eqb_refl in Ex. }
    destruct w; cbn [andb]; [destruct (is_conditional parents); cbn [negb] |]; rewrite ?andb_false_r, ?andb_true_r, ?orb_false_r;
      [done | apply Mark | apply Mark].
Qed.

Lemma check_reports depth b identifier parents type st : node_name identifier = x -> tracked depth b st -> b = true ->
  reassignments (checkIdentifierUsage identifier parents type st) = reassignments st.
Proof.
  intros N (segment & S & _ & K) B. specialize (K B). unfold checkIdentifierUsage. destruct (contexts st) as [|c stack]; [done |].
  destruct (scope_top _ _ _ _ S) as [segment' ->]. apply Forall_cons in K as [K _].
  destruct (negb _); [done |]. destruct (getReference _ _) as [ref|]; [| by destruct (_ =s _)].
  destruct (negb (ref_init ref) && negb _) eqn:R; [| by destruct (_ =s _)].
  apply andb_true_iff in R as [_ R]. apply negb_true_iff, set_has_false in R. rewrite N in *.
  destruct (overwrites_value c x ref) eqn:W; [| done]. unfold overwrites_value in W.
  rewrite !andb_true_iff, set_has_spec in W. destruct K as [K|K]; [done | naive_solver].
Qed.

Lemma selectors_tracked depth identifier parents selectors : forall b st, tracked depth b st ->
  tracked depth (b || (node_name identifier =s x)
      && existsb (fun selector => selector.1 parents && uses_reference identifier parents selector.2 (contexts st)) selectors)
    (fold_left (fun st (selector : (list node -> bool) * ContextType) =>
       if selector.1 parents then checkIdentifierUsage identifier parents selector.2 st else st) selectors st).
Proof.
  induction selectors as [|[s type] selectors IH]; intros b st T; cbn [fold_left existsb fst snd].
  - by rewrite andb_false_r, orb_false_r.
  - destruct (s parents) eqn:Es; cbn [andb orb]; [| by apply IH].
    apply (check_tracked _ _ identifier parents type) in T. apply IH in T. eapply tracked_weaken; [| exact T].
    pose proof (checkIdentifierUsage_grows identifier parents type st) as G.
    rewrite andb_orb_distrib_r, orb_assoc. intros H. rewrite <- H. do 2 f_equal.
    clear - G. induction selectors as [|[s' t'] l IH]; cbn; [done |]. by rewrite (uses_reference_grows _ _ _ _ _ G), IH.
Qed.

Lemma selectors_reports depth identifier parents selectors : node_name identifier = x -> forall st, tracked depth true st ->
  reassignments (fold_left (fun st (selector : (list node -> bool) * ContextType) =>
       if selector.1 parents then checkIdentifierUsage identifier parents selector.2 st else st) selectors st)
  = reassignments st.
Proof.
  intros N. induction selectors as [|[s type] selectors IH]; intros st T; cbn [fold_left fst snd]; [done |].
  destruct (s parents); [| by apply IH]. rewrite IH; [by eapply check_reports |].
  apply (check_tracked _ _ identifier parents type) in T. done.
Qed.

(** ** Pushes and pops *)

Lemma push_tracked depth b st st' c current stack :
  contexts st = current :: stack -> contexts st' = c :: current :: stack -> in_scope x depth st' = true ->
  (declares x c = false -> has_read c -> has_read current) ->
  (declares x c = false -> has_read current \/ x ∉ variablesToCheck current -> has_read c \/ x ∉ variablesToCheck c) ->
  tracked depth b st -> tracked depth b st'.
Proof.
  intros E E' I R K (segment & S & C & Kb). apply in_scope_spec in I as [segment' S']. rewrite E in S. rewrite E' in S'.
  assert (segment' = c :: segment /\ declares x c = false) as [-> D].
  { destruct S as [above d rest Eo -> L _ _], S' as [above' d' rest' Es -> L' D' A'].
    rewrite Eo, app_comm_cons in Es. apply app_inj_2 in Es as [Es _]; [| by rewrite L]. split; [done |].
    destruct above' as [|a above']; cbn in Es; [by destruct above |]. injection Es as <- _. by apply Forall_cons in A' as [? _]. }
  exists (c :: segment). split; [by rewrite E' |]. destruct (scope_top _ _ _ _ S) as [rest ->]. split.
  - split; [| done]. intros Hc%R; [| done]. constructor; [done | by apply C].
  - intros B. specialize (Kb B). constructor; [| done]. apply K; [done |]. by apply Forall_cons in Kb as [? _].
Qed.

Lemma pop_tracked depth b st : in_scope x depth (popContext st) = true -> tracked depth b st -> tracked depth b (popContext st).
Proof.
  unfold popContext. destruct (contexts st) as [|c [|parent stack]] eqn:E; [done | done |].
  intros I (segment & S & C & K). apply in_scope_spec in I as [segment' S']. rewrite E in S. exists segment'. split; [done |].
  assert (segment = c :: segment') as ->.
  { destruct S as [above d rest Es -> L _ _], S' as [above' d' rest' Es' -> L' _ _]. cbn [contexts] in Es'. rewrite Es', app_comm_cons in Es.
    apply app_inj_2 in Es as [Es _]; [done | by rewrite L]. }
  destruct C as [_ C]. split; [done |]. intros B. by apply K, Forall_cons in B as [_ B].
Qed.

Lemma difference_spec y a b : y ∈ computeSetDifference a b <-> y ∈ a /\ y ∉ b.
Proof. unfold computeSetDifference. rewrite elem_of_filter_In, negb_true_iff, set_has_false. done. Qed.

Lemma push_context_tracked depth b st type references toCheck inCurrentScope :
  let st' := push_context type (references, toCheck, inCurrentScope) st in
  in_scope x depth st' = true ->
  (forall current, head (contexts st) = Some current -> x ∈ toCheck -> x ∈ variablesToCheck current \/ x ∈ inCurrentScope) ->
  tracked depth b st -> tracked depth b st'.
Proof.
  cbn zeta. unfold push_context. destruct (contexts st) as [|current stack] eqn:E; [done |]. intros I H T.
  eapply push_tracked; [exact E | reflexivity | exact I | | | exact T]; unfold has_read, declares; cbn; rewrite set_has_false, difference_spec.
  - naive_solver.
  - intros D [R|N]; [by left |]. right. intros [?|?]%(H _ eq_refl); done.
Qed.

Lemma new_context_check current n references toCheck inCurrentScope :
  computeNewContextInfo current n = (references, toCheck, inCurrentScope) ->
  x ∈ toCheck -> x ∈ variablesToCheck current \/ x ∈ inCurrentScope.
Proof. intros [= _ <- <-]. rewrite !elem_of_set_add_all. naive_solver. Qed.

Lemma event_tracked depth b st e : tracked depth b st -> in_scope x depth (on_reassign_event st e) = true ->
  tracked depth (b || uses x st e) (on_reassign_event st e).
Proof.
  intros T I. destruct e as [n| |n parent|n| | | |identifier parents]; cbn [on_reassign_event uses] in *; rewrite ?orb_false_r;
    try by apply pop_tracked.
  - unfold onCodePathStart in *. destruct (contexts st) as [|current stack] eqn:E; [done |].
    destruct (match sm_getScope sm n with Some s => _ | None => _ end).
    + destruct (computeNewContextInfo current n) as [[references toCheck] inCurrentScope] eqn:Ec.
      apply push_context_tracked; [done | | done]. rewrite E. intros c [= <-] H. apply (new_context_check _ _ _ _ _ Ec).
      destruct (getFunctionName n); [| done]. by apply elem_of_set_delete in H as [? _].
    + eapply push_tracked; [exact E | reflexivity | exact I | | | exact T]; unfold has_read; cbn; intros _;
        [by intros ?%not_elem_of_nil | intros _; right; apply not_elem_of_nil].
  - unfold onCodePathSegmentLoop in *. destruct parent as [p|]; [| done].
    destruct (contexts st) as [|current stack] eqn:E; [done |]. destruct (isForEachLoopStart n (Some p)); [| done].
    destruct (get_node p "left") as [lhs|]; [| done]. destruct (get_node p "body") as [body|]; [| done].
    destruct (computeNewContextInfo current lhs) as [[references toCheck] inCurrentScope] eqn:Ec.
    apply push_context_tracked; [done | | done]. rewrite E. intros c [= <-]. rewrite !elem_of_set_add_all.
    intros [H|H]; [| by right; right]. apply (new_context_check _ _ _ _ _ Ec) in H. naive_solver.
  - unfold onCodePathSegmentStart in *. destruct (contexts st) as [|current stack] eqn:E; [done |].
    destruct (type_of n =s "CatchClause"); [| done].
    destruct (computeNewContextInfo current n) as [[references toCheck] inCurrentScope] eqn:Ec.
    apply push_context_tracked; [done | | done]. rewrite E. intros c [= <-]. by apply (new_context_check _ _ _ _ _ Ec).
  - by apply selectors_tracked.
Qed.

Lemma events_tracked depth events : forall b st, tracked depth b st -> always (in_scope x depth) st events = true ->
  tracked depth (b || used x st events) (run_reassign st events).
Proof.
  induction events as [|e events IH]; intros b st T A; cbn [used run_reassign fold_left].
  - by rewrite orb_false_r.
  - apply andb_true_iff in A as [_ A]. rewrite orb_assoc. apply IH; [| done]. apply event_tracked; [done |].
    destruct events; cbn in A; by apply andb_true_iff in A as [? _].
Qed.

End Scope.

(** C34: S1226 does not report a variable that was used: from the moment the context that
    declares it is the current one, as long as it is there and no other context declares
    the name, no reference to it was met before the one that is reported, but
    assignments in the branches of an [if] or [switch]. *)
Theorem reassigned_before_use st c enclosing events identifier parents :
  contexts st = c :: enclosing -> declares (node_name identifier) c = true ->
  always (in_scope (node_name identifier) (length enclosing)) st events = true ->
  reassignments (on_identifier identifier parents (run_reassign st events)) <> reassignments (run_reassign st events) ->
  used (node_name identifier) st events = false.
Proof.
  intros E D A R. destruct (used _ _ _) eqn:U; [| done]. destruct R.
  assert (tracked (node_name identifier) (length enclosing) false st) as T.
  { exists [c]. split; [| split; [by split; [constructor |] | done]]. rewrite E. by apply (scope_intro _ _ _ _ [] c enclosing). }
  apply (events_tracked _ _ events) in T; [| done]. rewrite U in T. by eapply selectors_reports.
Qed.

End Reassignments.

(** ** Examples *)

Module RewritesExample.

Import AstExample.

(** Each node has one token, with its name. *)
Definition token_of (n : node) : Token :=
  mkToken "" (default "" (get_str n "name")) (mkLoc (mkPos 1 0) (mkPos 1 0)) (0%Z, 0%Z).

Definition code : SourceCode :=
  mkSourceCode program [] [] None (fun _ => None) (fun n => [token_of n]) (fun n => Some (token_of n)) (fun _ => None)
    (fun _ => []) (fun _ => mkPos 1 0) (fun _ => None).

Definition one_line (i l : nat) (t : string) (ps : list (string * value)) : node :=
  Node (mkHeader i t (Some (mkLoc (mkPos (Z.of_nat l) 0) (mkPos (Z.of_nat l) 9))) None) ps.

(** [a\[index\] = 1;] *)
Definition set_element (i : nat) (index : node) : node :=
  mk i "ExpressionStatement" [("expression", VNode (one_line (i + 1) i "AssignmentExpression"
    [("operator", VStr "=");
     ("left", VNode (mk (i + 2) "MemberExpression"
       [("object", VNode (ident (i + 3) "a")); ("property", VNode index); ("computed", VBool true)]));
     ("right", VNode (mk (i + 4) "Literal" [("value", VNum (NumQ 1))]))]))].

Definition no_text (q : Q) : string := "".

(** [a\[x\] = 1; a\['x'\] = 1;] sets two elements, which the rule takes for one. *)
Definition two_elements : list node :=
  [set_element 1 (ident 6 "x"); set_element 10 (mk 16 "Literal" [("value", VStr "x")])].

Lemma distinct_keys_reported :
  map (fun r => (indexOrKey (ow_write r), ow_line r)) (checkStatements code no_text two_elements) = [("x", 1%Z)].
Proof. vm_compute. reflexivity. Qed.

(** [function f(p) { ...; p = 1; }] *)
Definition p_written : node := ident 30 "p".
Definition body : node := mk 31 "BlockStatement" [].
Definition f : node := mk 32 "FunctionDeclaration" [("id", VNode (ident 33 "f")); ("body", VNode body)].

Definition f_scopes : ScopeManager :=
  mkScopeManager
    [mkScope f None [0] [0]] [mkVariable "p" 0 None [] [0]]
    [mkReference p_written [] 0 (Some 0) (Some (mk 34 "Literal" [])) false false true]
    (fun n => if type_of n =s "FunctionDeclaration" then Some 0 else None).

Definition f_events (statement : list reassign_event) : list reassign_event :=
  [CodePathStart program; CodePathStart f] ++ statement
  ++ [Identifier p_written [mk 35 "AssignmentExpression" []; mk 36 "ExpressionStatement" []; body; f; program]].

Definition f_reports (statement : list reassign_event) : list string :=
  map ra_name (S1226 code f_scopes (fun _ => "function") (fun n => if same_node n f then [0] else []) (fun _ => None)
    (f_events statement)).

Definition xs : node := ident 37 "xs".
Definition loop_block : node := mk 38 "BlockStatement" [].
Definition for_of (loop_body : node) : node :=
  mk 39 "ForOfStatement" [("left", VNode (ident 40 "x")); ("right", VNode xs); ("body", VNode loop_body)].

(** The assignment is reported, and also after [for (x of xs) { }]; but not after
    [for (x of xs);]: the context of the function is popped at the end of the loop, for
    which no context was pushed. *)
Lemma loops_without_block_lose_function :
  f_reports [] = ["p"] /\
  f_reports [SegmentLoop loop_block (Some (for_of loop_block)); ForOfExit] = ["p"] /\
  f_reports [SegmentLoop (mk 41 "EmptyStatement" []) (Some (for_of (mk 41 "EmptyStatement" []))); ForOfExit] = [].
Proof. vm_compute. done. Qed.

Definition in_f : reassign_state :=
  run_reassign code f_scopes (fun _ => "function") (fun n => if same_node n f then [0] else []) (fun _ => None) initial_reassign
    [CodePathStart program; CodePathStart f].

Lemma reassigned_before_use_witness :
  used code f_scopes (fun _ => "function") (fun n => if same_node n f then [0] else []) (fun _ => None) "p" in_f
    [SegmentLoop loop_block (Some (for_of loop_block)); Identifier xs [for_of loop_block; body; f; program]; ForOfExit] = false.
Proof.
  eapply (reassigned_before_use code f_scopes (fun _ => "function") (fun n => if same_node n f then [0] else [])
    (fun _ => None) in_f _ _ _ p_written [mk 36 "ExpressionStatement" []; body; f; program]);
    [vm_compute; reflexivity | vm_compute; reflexivity | vm_compute; reflexivity | vm_compute; discriminate].
Defined.

End RewritesExample.
