(* ===== verification/NamedGroups.v ===== *)
(** * NamedGroups: the rule S5860 on the named groups of regular expressions

    The rule keeps a knowledge of the regular expressions of a file, with the groups that
    are used, and the variables that hold the results of their matches. The entries of
    the knowledge are shared objects: they are named by their index. *)

From Stdlib Require Import ZArith QArith Lia.
From stdpp Require Import base list strings.
From S2P Require Import Prelude JsString Estree JsNumber Ast RegexLocations Regexpp Traversal.

Open Scope js_scope.
Open Scope nat_scope.

(** ** Knowledge *)

Record GroupKnowledge := mkGroup { g_node : RegexNode; g_name : string; g_used : bool; g_index : nat }.

Record RegexKnowledge := mkKnowledge { r_node : node; r_regexp : rnode; r_groups : list GroupKnowledge; r_matched : bool }.

Definition use (g : GroupKnowledge) : GroupKnowledge := mkGroup (g_node g) (g_name g) true (g_index g).

(** [group.used ||= b] *)
Definition use_if (b : bool) (g : GroupKnowledge) : GroupKnowledge := if b then use g else g.

#[export] Instance RegexNode_eq_dec : EqDecision RegexNode.
Proof. solve_decision. Defined.

(** What a report is on: a node, or a location. *)
Inductive target := OnNode (n : node) | OnLocation (l : SourceLocation).

Record GroupReport := mkGroupReport {
  gr_message : string;
  gr_target : target;
  gr_secondary : list (SourceLocation * string)
}.

Inductive groups_error :=
| LocationError (e : range_error)
(** Running out of the fuel of the searches through variables. *)
| SearchOutOfFuel
(** [(parent as Node).type] when no ancestor is left. *)
| NoParent.

Record groups_state := mkGroupsState {
  knowledge : list RegexKnowledge;
  bindings : list (VarId * nat);
  group_reports : list GroupReport
}.

Section NamedGroups.

Context `{Visitor}.
Context (sm : ScopeManager) (parent : node -> option node) (isString : node -> bool).
(** [regexpp.parseRegExpLiteral]; [None] is an exception. *)
Variable parseRegExp : string -> string -> option rnode.
Variable getLocFromIndex : Z -> Position.
(** [backreference.resolved], one or several groups, [typeof reference.ref === 'number'],
    and [group.references]: what regexpp resolves. *)
Variable resolved : RegexNode -> list rnode.
Variable ref_is_number : RegexNode -> bool.
Variable references_of : RegexNode -> list RegexNode.
Variable fuel : nat.

(** *** [makeRegexKnowledge] *)

Definition group_name (n : rnode) : option string :=
  match n with CapturingGroup _ (Some name) _ => if name =s "" then None else Some name | _ => None end.

(** [onCapturingGroupEnter] *)
Definition capturing_groups (regexp : rnode) : list rnode :=
  flat_map (fun e => match e with Regexpp.Enter (CapturingGroup _ _ _ as g) => [g] | _ => [] end) (visitRegExpAST regexp).

(** [onBackreferenceEnter]: the ones that resolve to a group with a name. *)
Definition backreferences (regexp : rnode) : list RegexNode :=
  flat_map (fun e =>
      match e with
      | Regexpp.Enter (Backreference i) => if existsb (fun g => bool_decide (is_Some (group_name g))) (resolved i) then [i] else []
      | _ => []
      end) (visitRegExpAST regexp).

Definition makeGroupKnowledge (n : rnode) (name : string) (refs : list RegexNode) (index : nat) : GroupKnowledge :=
  mkGroup (info n) name (existsb (fun b => existsb (fun g => bool_decide (info g = info n)) (resolved b)) refs) index.

(** [capturingGroups.forEach((group, index) => ...)], from an index. *)
Fixpoint named_groups (refs : list RegexNode) (index : nat) (groups : list rnode) : list GroupKnowledge :=
  match groups with
  | [] => []
  | g :: rest =>
      match group_name g with Some name => [makeGroupKnowledge g name refs (index + 1)] | None => [] end
      ++ named_groups refs (S index) rest
  end.

Definition makeRegexKnowledge (n : node) (regexp : rnode) : RegexKnowledge :=
  mkKnowledge n regexp (named_groups (backreferences regexp) 0 (capturing_groups regexp)) false.

(** *** [RegexIntelliSense] *)

Definition with_knowledge (k : list RegexKnowledge) (st : groups_state) : groups_state :=
  mkGroupsState k (bindings st) (group_reports st).

Definition add_report (r : GroupReport) (st : groups_state) : groups_state :=
  mkGroupsState (knowledge st) (bindings st) (group_reports st ++ [r]).

(** An update of the object at an index. *)
Definition update_regex (i : nat) (f : RegexKnowledge -> RegexKnowledge) (st : groups_state) : groups_state :=
  with_knowledge (alter f i (knowledge st)) st.

Definition update_groups (i : nat) (f : GroupKnowledge -> GroupKnowledge) (st : groups_state) : groups_state :=
  update_regex i (fun r => mkKnowledge (r_node r) (r_regexp r) (map f (r_groups r)) (r_matched r)) st.

Definition collectKnowledge (n : node) (st : groups_state) : result groups_error groups_state :=
  let regexNode :=
    if (type_of n =s "CallExpression") && isStringRegexMethodCall isString n
    then default n (head (get_nodes n "arguments")) else n in
  match getParsedRegex sm parent parseRegExp fuel regexNode with
  | None => Throw SearchOutOfFuel
  | Some None => Ok st
  | Some (Some regex) => Ok (with_knowledge (knowledge st ++ [makeRegexKnowledge regexNode regex]) st)
  end.

Definition findVariable (n : node) : option VarId :=
  if type_of n =s "Identifier" then getVariableFromName sm (node_name n) n else None.

(** [this.knowledge.find(regex => regex.node === node)], from an index. *)
Fixpoint find_knowledge (i : nat) (n : node) (l : list RegexKnowledge) : option nat :=
  match l with
  | [] => None
  | r :: rest => if same_node (r_node r) n then Some i else find_knowledge (S i) n rest
  end.

Definition visited_node (n : node) (visited : list nat) : bool := bool_decide (h_id (hdr n) ∈ visited).

(** The nodes visited are shared by the calls, which do not come back to a node. The
    outer [None] is running out of fuel; [find_regex_ends] shows that it is enough. *)
Fixpoint findRegexRec (turns : nat) (k : list RegexKnowledge) (n : node) (visited : list nat) : option (option nat) :=
  match turns with
  | O => None
  | S turns' =>
      let own := Some (find_knowledge 0 n k) in
      if visited_node n visited then own
      else
        match findVariable n with
        | Some variable =>
            let name := match variable_at sm variable with Some v => var_name v | None => "" end in
            match getUniqueWriteUsage sm name n with
            | Some value =>
                match findRegexRec turns' k value (h_id (hdr n) :: visited) with
                | None => None
                | Some (Some regex) => Some (Some regex)
                | Some None => own
                end
            | None => own
            end
        | None => own
        end
  end.

Definition findRegex (k : list RegexKnowledge) (n : node) : option (option nat) :=
  findRegexRec (S (S (length (sm_references sm)))) k n [].

Definition bind (pattern : node) (matcher : VarId) (st : groups_state) : result groups_error groups_state :=
  match findRegex (knowledge st) pattern with
  | None => Throw SearchOutOfFuel
  | Some None => Ok st
  | Some (Some i) =>
      let st := update_regex i (fun r => mkKnowledge (r_node r) (r_regexp r) (r_groups r) true) st in
      Ok (mkGroupsState (knowledge st) (map_set matcher i (bindings st)) (group_reports st))
  end.

(** The ancestors are given from the nearest one. *)
Definition collectPatternMatcher (callExpr : node) (parents : list node) (st : groups_state)
  : result groups_error groups_state :=
  match get_nodes callExpr "arguments" with
  | argument :: _ =>
      if isMethodCall callExpr then
        match callee_prop callExpr "object", getLhsVariable sm (rev parents) callExpr, callee_prop callExpr "property" with
        | Some target, Some matcher, Some method =>
            if isString target && includes (node_name method) ["match"; "matchAll"] then bind argument matcher st
            else if (node_name method =s "exec") && isString argument then bind target matcher st
            else Ok st
        | _, _, _ => Ok st
        end
      else Ok st
  | [] => Ok st
  end.

Definition resolve (matcher : node) (st : groups_state) : option nat :=
  match findVariable matcher with Some variable => map_get variable (bindings st) | None => None end.

(** *** The checks *)

Fixpoint prepareSecondaries (regex : RegexKnowledge) (groups : list GroupKnowledge) (label : string)
  : result groups_error (list (SourceLocation * string)) :=
  match groups with
  | [] => Ok []
  | grp :: rest =>
      match getRegexpLocation getLocFromIndex (r_node regex) (g_node grp) (0, 0)%Z with
      | Throw e => Throw (LocationError e)
      | Ok loc =>
          let! others := prepareSecondaries regex rest label in
          Ok (match loc with Some loc => [(loc, label +:+ " '" +:+ g_name grp +:+ "'")] | None => [] end ++ others)
      end
  end.

(** A report on groups of the regular expression at an index. *)
Definition report_groups (i : nat) (groups : list GroupKnowledge) (label message : string) (on : target)
    (st : groups_state) : result groups_error groups_state :=
  match knowledge st !! i with
  | Some regex =>
      let! locations := prepareSecondaries regex groups label in
      Ok (add_report (mkGroupReport message on locations) st)
  | None => Ok st
  end.

Definition is_index (n : jsnum) (index : nat) : bool :=
  match n with NumQ q => Qeq_bool q (inject_Z (Z.of_nat index)) | _ => false end.

(** A reference of a replacement is a name when its value is not a number. *)
Definition by_name (references : list GroupReference) (g : GroupKnowledge) : bool :=
  existsb (fun r => match string_to_number (g_value r) with NumNaN => g_value r =s g_name g | _ => false end) references.

Definition by_index (references : list GroupReference) (g : GroupKnowledge) : bool :=
  existsb (fun r => is_index (string_to_number (g_value r)) (g_index g)) references.

Definition groups_at (i : nat) (st : groups_state) : list GroupKnowledge :=
  match knowledge st !! i with Some r => r_groups r | None => [] end.

Definition checkStringReplaceGroupReferences (callExpr : node) (st : groups_state) : result groups_error groups_state :=
  if isStringReplaceCall isString callExpr then
    match get_nodes callExpr "arguments" with
    | pattern :: substr :: _ =>
        match findRegex (knowledge st) pattern with
        | None => Throw SearchOutOfFuel
        | Some None => Ok st
        | Some (Some i) =>
            let references := extractReferences substr in
            let st := update_groups i (fun g => use_if (by_name references g || by_index references g) g) st in
            let indexedGroups := List.filter (by_index references) (groups_at i st) in
            match indexedGroups with
            | [] => Ok st
            | _ => report_groups i indexedGroups "Group" "Directly use the group names instead of their numbers." (OnNode substr) st
            end
        end
    | _ => Ok st
    end
  else Ok st.

(** [groups.find(p)] marked as used, with the others as they are. *)
Fixpoint use_first (p : GroupKnowledge -> bool) (l : list GroupKnowledge) : list GroupKnowledge :=
  match l with
  | [] => []
  | g :: rest => if p g then use g :: rest else g :: use_first p rest
  end.

Definition use_found (i : nat) (p : GroupKnowledge -> bool) (st : groups_state) : groups_state :=
  update_regex i (fun r => mkKnowledge (r_node r) (r_regexp r) (use_first p (r_groups r)) (r_matched r)) st.

Definition checkIndexBasedGroupReference (memberExpr : node) (st : groups_state) : result groups_error groups_state :=
  match get_node memberExpr "object", get_node memberExpr "property" with
  | Some matcher, Some property =>
      match resolve matcher st with
      | Some i =>
          match getValueOfExpression sm fuel (Some property) "Literal" false with
          | None => Throw SearchOutOfFuel
          | Some maybeIndex =>
              match option_map (fun n => get n "value") maybeIndex with
              | Some (VNum index) =>
                  let p g := is_index index (g_index g) in
                  match List.find p (groups_at i st) with
                  | Some group =>
                      report_groups i [use group] "Group" ("Directly use '" +:+ g_name group +:+ "' instead of its group number.")
                        (OnNode property) (use_found i p st)
                  | None => Ok st
                  end
              | _ => Ok st
              end
          end
      | None => Ok st
      end
  | _, _ => Ok st
  end.

Definition extractNamedOrDestructuredGroupNodes (n : node) : list node :=
  if isDotNotation n || isIndexNotation n then option_list (get_node n "property")
  else if isObjectDestructuring n then
    match (if type_of n =s "VariableDeclarator" then get_node n "id" else get_node n "left") with
    | Some pattern =>
        omap (fun property =>
            if type_of property =s "Property" then
              match get_node property "key" with
              | Some key => if type_of key =s "Identifier" then Some key else None
              | None => None
              end
            else None) (get_nodes pattern "properties")
    | None => []
    end
  else [].

(** The parents that are not assertions [x!]; an error when there is none. *)
Fixpoint skip_non_null (parents : list node) : result groups_error (node * list node) :=
  match parents with
  | [] => Throw NoParent
  | p :: rest => if type_of p =s "TSNonNullExpression" then skip_non_null rest else Ok (p, rest)
  end.

Definition extractGroupNodes (memberExpr : node) (parents : list node) : result groups_error (list node) :=
  if isDotNotation memberExpr then
    match get_node memberExpr "property" with
    | Some property =>
        let! (parent, above) := skip_non_null parents in
        Ok (if node_name property =s "groups" then extractNamedOrDestructuredGroupNodes parent
            else if node_name property =s "indices" then
              if isDotNotation parent && match get_node parent "property" with Some p => node_name p =s "groups" | None => false end
              then match above with p :: _ => extractNamedOrDestructuredGroupNodes p | [] => [] end
              else []
            else [])
    | None => Ok []
    end
  else Ok [].

Definition name_of_group_node (n : node) : string :=
  if type_of n =s "Identifier" then node_name n else default "" (get_str n "value").

Definition check_group_node (i : nat) (groupNode : node) (st : groups_state) : result groups_error groups_state :=
  let groupName := name_of_group_node groupNode in
  let p g := g_name g =s groupName in
  match List.find p (groups_at i st) with
  | Some _ => Ok (use_found i p st)
  | None =>
      report_groups i (groups_at i st) "Named group" ("There is no group named '" +:+ groupName +:+ "' in the regular expression.")
        (OnNode groupNode) st
  end.

Definition checkNonExistingGroupReference (memberExpr : node) (parents : list node) (st : groups_state)
  : result groups_error groups_state :=
  match get_node memberExpr "object" with
  | Some matcher =>
      match resolve matcher st with
      | Some i =>
          let! groupNodes := extractGroupNodes memberExpr parents in
          rfold (fun st n => check_group_node i n st) groupNodes st
      | None => Ok st
      end
  | None => Ok st
  end.

Definition unused_groups (r : RegexKnowledge) : list GroupKnowledge := List.filter (fun g => negb (g_used g)) (r_groups r).

(** The report on a regular expression that was matched. *)
Definition check_unused (st : groups_state) (i : nat) : result groups_error groups_state :=
  match knowledge st !! i with
  | Some regex =>
      if r_matched regex then
        match unused_groups regex with
        | [] => Ok st
        | unused => report_groups i unused "Named group" "Use the named groups of this regex or remove the names." (OnNode (r_node regex)) st
        end
      else Ok st
  | None => Ok st
  end.

Definition checkUnusedGroups (st : groups_state) : result groups_error groups_state :=
  rfold check_unused (seq 0 (length (knowledge st))) st.

Definition check_reference (regex : RegexKnowledge) (group : GroupKnowledge) (locations : list (SourceLocation * string))
    (st : groups_state) (reference : RegexNode) : result groups_error groups_state :=
  match getRegexpLocation getLocFromIndex (r_node regex) reference (0, 0)%Z with
  | Throw e => Throw (LocationError e)
  | Ok (Some loc) =>
      Ok (if ref_is_number reference
          then add_report (mkGroupReport ("Directly use '" +:+ g_name group +:+ "' instead of its group number.")
                             (OnLocation loc) locations) st
          else st)
  | Ok None => Ok st
  end.

Definition check_indexed_group (regex : RegexKnowledge) (st : groups_state) (group : GroupKnowledge)
  : result groups_error groups_state :=
  let! locations := prepareSecondaries regex [group] "Group" in
  rfold (check_reference regex group locations) (references_of (g_node group)) st.

Definition checkIndexedGroups (st : groups_state) : result groups_error groups_state :=
  rfold (fun st regex => rfold (check_indexed_group regex) (r_groups regex) st) (knowledge st) st.

(** *** The listeners *)

Definition on_groups_event (e : Traversal.event) (st : groups_state) : result groups_error groups_state :=
  match e with
  | Traversal.Enter _ _ => Ok st
  | Traversal.Leave n parents =>
      if isRegexLiteral n || (type_of n =s "NewExpression") then collectKnowledge n st
      else if type_of n =s "CallExpression" then
        let! st := collectKnowledge n st in
        let! st := collectPatternMatcher n parents st in
        checkStringReplaceGroupReferences n st
      else if type_of n =s "MemberExpression" then
        if truthy (get n "computed") then checkIndexBasedGroupReference n st
        else checkNonExistingGroupReference n parents st
      else if type_of n =s "Program" then
        let! st := checkUnusedGroups st in
        checkIndexedGroups st
      else Ok st
  end.

(** What the rule reports on a file. *)
Definition named_group_reports (sc : SourceCode) : result groups_error (list GroupReport) :=
  let! st := run on_groups_event (events (sc_visitorKeys sc) [] (sc_ast sc)) (mkGroupsState [] [] []) in
  Ok (group_reports st).

End NamedGroups.

(** ** Numbers of groups *)

Section Numbers.

Context `{Visitor}.
Variable resolved : RegexNode -> list rnode.

Lemma named_groups_numbers refs groups : forall index g, g ∈ named_groups resolved refs index groups <->
  exists k c name, groups !! k = Some c /\ group_name c = Some name /\
    g = makeGroupKnowledge resolved c name refs (index + k + 1).
Proof.
  induction groups as [|x groups IH]; intros index g; cbn [named_groups].
  { split; [by intros ?%elem_of_nil |]. by intros (k & c & name & E & _). }
  rewrite elem_of_app, IH. split.
  - intros [Hg|(k & c & name & Hk & N & ->)].
    + destruct (group_name x) as [name|] eqn:N; [| by apply elem_of_nil in Hg]. apply list_elem_of_singleton in Hg.
      exists 0, x, name. split_and!; [done | done |]. by rewrite Nat.add_0_r.
    + exists (S k), c, name. split_and!; [done | done |]. f_equal. lia.
  - intros ([|k] & c & name & Hk & N & ->); cbn in Hk.
    + injection Hk as ->. left. rewrite N, Nat.add_0_r. by left.
    + right. exists k, c, name. split_and!; [done | done |]. f_equal. lia.
Qed.

Definition is_capturing (n : rnode) : bool := match n with CapturingGroup _ _ _ => true | _ => false end.

Lemma capturing_group_nodes regexp c : c ∈ capturing_groups regexp <-> node_of regexp c /\ is_capturing c = true.
Proof.
  unfold capturing_groups. rewrite elem_of_flat_map. split.
  - intros (e & He & Hc). destruct e as [n|n]; [| by apply elem_of_nil in Hc].
    destruct n; try (by apply elem_of_nil in Hc). apply list_elem_of_singleton in Hc as ->. by apply entered in He.
  - intros [N C]. apply entered in N. exists (Regexpp.Enter c). split; [done |]. destruct c; try done. by left.
Qed.

(** Back references resolve to groups of the expression: two nodes with the same place
    and text are one. *)
Definition resolves_in (regexp : rnode) : Prop :=
  forall b r c, r ∈ resolved b -> node_of regexp c -> is_capturing c = true -> info r = info c -> r = c.

Lemma group_name_capturing c name : group_name c = Some name -> is_capturing c = true.
Proof. by destruct c. Qed.

Lemma used_by_reference regexp c name : resolves_in regexp -> node_of regexp c -> group_name c = Some name ->
  existsb (fun b => existsb (fun g => bool_decide (info g = info c)) (resolved b)) (backreferences resolved regexp) = true <->
  exists b, node_of regexp (Backreference b) /\ c ∈ resolved b.
Proof.
  intros R Nc N. rewrite existsb_exists. split.
  - intros (b & Hb & (r & Hr & E)%existsb_exists). apply bool_decide_eq_true in E. apply list_elem_of_In in Hb, Hr.
    exists b. rewrite <- (R b r c) by (done || by eapply group_name_capturing). split; [| done]. unfold backreferences in Hb.
    apply elem_of_flat_map in Hb as (e & He & Hb). destruct e as [x|x]; [| by apply elem_of_nil in Hb].
    destruct x; try (by apply elem_of_nil in Hb). destruct (existsb _ _); [| by apply elem_of_nil in Hb].
    apply list_elem_of_singleton in Hb as ->. by apply entered in He.
  - intros (b & Nb & Hb). exists b. split.
    + apply list_elem_of_In, elem_of_flat_map. exists (Regexpp.Enter (Backreference b)). split; [by apply entered |].
      assert (existsb (fun g => bool_decide (is_Some (group_name g))) (resolved b) = true) as ->; [| by left].
      apply existsb_exists. exists c. split; [by apply list_elem_of_In |]. apply bool_decide_eq_true. by exists name.
    + apply existsb_exists. exists c. split; [by apply list_elem_of_In | by apply bool_decide_eq_true].
Qed.

(** The knowledge of a regular expression has its groups with a name, each with the
    number that the language gives it, its place among the capturing groups in the order in
    which they open; a group is used at first when a back reference resolves to it. *)
Theorem groups_have_their_numbers n regexp g : resolves_in regexp ->
  g ∈ r_groups (makeRegexKnowledge resolved n regexp) <->
  exists k c, capturing_groups regexp !! k = Some c /\ node_of regexp c /\ group_name c = Some (g_name g) /\
    g_index g = k + 1 /\ g_node g = info c /\
    (g_used g = true <-> exists b, node_of regexp (Backreference b) /\ c ∈ resolved b).
Proof.
  intros R. cbn [makeRegexKnowledge r_groups]. rewrite named_groups_numbers. split.
  - intros (k & c & name & Hk & N & ->). exists k, c. cbn [makeGroupKnowledge g_name g_index g_node g_used].
    assert (node_of regexp c) as Nc by (by apply capturing_group_nodes, list_elem_of_lookup_2 with k).
    split_and!; try done. by apply (used_by_reference regexp c name).
  - intros (k & c & Hk & Nc & N & I & G & U). exists k, c, (g_name g). split_and!; [done | done |].
    destruct g as [gn name used index]. cbn in *. subst. unfold makeGroupKnowledge. f_equal.
    apply eq_true_iff_eq. by rewrite (used_by_reference regexp c name).
Qed.

End Numbers.

(** ** The search of a regular expression ends *)

Lemma omap_shorter {A B} (f : A -> option B) l : length (omap f l) <= length l.
Proof. induction l as [|x l IH]; cbn; [lia |]. destruct (f x); cbn; lia. Qed.

Section Search.

Context (sm : ScopeManager).

Definition written : list nat := omap (fun r => option_map (fun e => h_id (hdr e)) (ref_writeExpr r)) (sm_references sm).

Lemma unique_write_written name n value : getUniqueWriteUsage sm name n = Some value -> h_id (hdr value) ∈ written.
Proof.
  unfold getUniqueWriteUsage, getUniqueWriteReference. destruct (getVariableFromName sm name n) as [v|]; [| done].
  destruct (variable_at sm v) as [x|]; [| done]. unfold write_references.
  destruct (List.filter ref_isWrite _) as [|r [|]] eqn:E; try done. intros W.
  assert (r ∈ List.filter ref_isWrite (omap (reference_at sm) (var_references x))) as [H _]%elem_of_filter_In by (rewrite E; by left).
  apply list_elem_of_omap in H as (i & _ & H). apply list_elem_of_omap. exists r.
  split; [by apply list_elem_of_lookup_2 in H | by rewrite W].
Qed.

Lemma findRegexRec_ends k first : forall turns n visited, NoDup visited ->
  (forall i, i ∈ h_id (hdr n) :: visited -> i ∈ first :: written) ->
  length (sm_references sm) + 2 <= turns + length visited -> findRegexRec sm turns k n visited <> None.
Proof.
  induction turns as [|turns IH]; intros n visited N S L.
  - assert (length visited <= length (first :: written)) as B.
    { apply submseteq_length, NoDup_submseteq; [done |]. intros i Hi. apply S. by right. }
    cbn in B. assert (length written <= length (sm_references sm)) as W by apply omap_shorter. lia.
  - cbn [findRegexRec]. destruct (visited_node n visited) eqn:V; [done |].
    destruct (findVariable sm n) as [v|]; [| done].
    destruct (getUniqueWriteUsage sm _ n) as [value|] eqn:W; [| done].
    assert (findRegexRec sm turns k value (h_id (hdr n) :: visited) <> None) as R.
    { apply IH; [| | cbn; lia].
      - constructor; [| done]. unfold visited_node in V. by apply bool_decide_eq_false in V.
      - intros i [->|Hi]%elem_of_cons; [right; by eapply unique_write_written | by apply S]. }
    by destruct (findRegexRec sm turns k value (h_id (hdr n) :: visited)) as [[i|]|].
Qed.

(** The search of a regular expression ends on every program, also when variables are written
    with one another. *)
Lemma find_regex_ends k n : findRegex sm k n <> None.
Proof.
  apply (findRegexRec_ends k (h_id (hdr n))); [constructor | | cbn; lia].
  intros i [->|Hi]%elem_of_cons; [by left | by apply elem_of_nil in Hi].
Qed.

End Search.

(** ** The knowledge grows *)

(** The same group; what is used stays so. *)
Record group_grows (g g' : GroupKnowledge) : Prop := mkGroupGrows {
  same_group_node : g_node g' = g_node g;
  same_group_name : g_name g' = g_name g;
  same_group_index : g_index g' = g_index g;
  stays_used : g_used g = true -> g_used g' = true
}.

Record regex_grows (r r' : RegexKnowledge) : Prop := mkRegexGrows {
  same_regex_node : r_node r' = r_node r;
  same_regexp : r_regexp r' = r_regexp r;
  stays_matched : r_matched r = true -> r_matched r' = true;
  groups_grow : Forall2 group_grows (r_groups r) (r_groups r')
}.

#[export] Instance group_grows_preorder : PreOrder group_grows.
Proof.
  split; [by constructor |]. intros a b c [] []. constructor; try congruence. tauto.
Qed.

#[export] Instance regex_grows_preorder : PreOrder regex_grows.
Proof.
  split.
  - intros r. by constructor.
  - intros a b c [] []. constructor; try congruence; [tauto |]. by etransitivity.
Qed.

(** The entries keep their places, and the variables that are bound have expressions that were
    matched. *)
Definition knowledge_grows (st st' : groups_state) : Prop :=
  (forall i r, knowledge st !! i = Some r -> exists r', knowledge st' !! i = Some r' /\ regex_grows r r').

Definition bindings_matched (st : groups_state) : Prop :=
  forall v i, map_get v (bindings st) = Some i -> exists r, knowledge st !! i = Some r /\ r_matched r = true.

Definition progress (st st' : groups_state) : Prop :=
  knowledge_grows st st' /\ (bindings_matched st -> bindings_matched st').

#[export] Instance progress_preorder : PreOrder progress.
Proof.
  split.
  - intros st. split; [| done]. intros i r H. by exists r.
  - intros a b c [K B] [K' B']. split; [| tauto]. intros i r H. destruct (K i r H) as (r' & H' & G).
    destruct (K' i r' H') as (r'' & H'' & G'). exists r''. split; [done | by etransitivity].
Qed.

Lemma bindings_grow st st' : knowledge_grows st st' -> bindings st' = bindings st -> bindings_matched st -> bindings_matched st'.
Proof.
  intros K E B v i H. rewrite E in H. destruct (B v i H) as (r & Hr & M). destruct (K i r Hr) as (r' & Hr' & G).
  exists r'. split; [done | by apply (stays_matched _ _ G)].
Qed.

Lemma progress_knowledge st st' : knowledge_grows st st' -> bindings st' = bindings st -> progress st st'.
Proof. intros K E. split; [done | by apply bindings_grow]. Qed.

Lemma add_report_progress r st : progress st (add_report r st).
Proof. apply progress_knowledge; [| done]. intros i x H. by exists x. Qed.

Lemma update_regex_progress i f st : (forall r, regex_grows r (f r)) -> progress st (update_regex i f st).
Proof.
  intros F. apply progress_knowledge; [| done]. intros j r H. unfold update_regex, with_knowledge. cbn [knowledge].
  destruct (decide (i = j)) as [->|N].
  - exists (f r). split; [by rewrite list_lookup_alter_eq, H | done].
  - exists r. split; [by rewrite list_lookup_alter_ne | done].
Qed.

Lemma append_progress r st : progress st (with_knowledge (knowledge st ++ [r]) st).
Proof.
  apply progress_knowledge; [| done]. intros i x H. exists x. split; [by apply lookup_app_l_Some | done].
Qed.

Lemma use_grows g : group_grows g (use g).
Proof. by constructor. Qed.

Lemma use_first_grows p l : Forall2 group_grows l (use_first p l).
Proof.
  induction l as [|g l IH]; cbn; [constructor |]. by destruct (p g); constructor.
Qed.

Lemma map_use_grows f l : Forall2 group_grows l (map (fun g => use_if (f g) g) l).
Proof.
  induction l as [|g l IH]; cbn; constructor; [| done]. unfold use_if. destruct (f g); [apply use_grows | done].
Qed.

Lemma find_knowledge_index n k : forall start i, find_knowledge start n k = Some i -> exists r, k !! (i - start) = Some r /\ start <= i.
Proof.
  induction k as [|x k IH]; intros start i; [done |]. cbn. destruct (same_node (r_node x) n).
  - intros [= <-]. exists x. by rewrite Nat.sub_diag.
  - intros (r & Hr & L)%IH. exists r. split; [| lia]. by replace (i - start) with (S (i - S start)) by lia.
Qed.

Lemma findRegexRec_index sm k : forall turns n visited i, findRegexRec sm turns k n visited = Some (Some i) -> is_Some (k !! i).
Proof.
  assert (forall n i, Some (find_knowledge 0 n k) = Some (Some i) -> is_Some (k !! i)) as Own.
  { intros n i [= E]. apply find_knowledge_index in E as (r & Hr & _). rewrite Nat.sub_0_r in Hr. by exists r. }
  induction turns as [|turns IH]; intros n visited i; [done |]. cbn [findRegexRec].
  destruct (visited_node n visited); [apply Own |]. destruct (findVariable sm n) as [v|]; [| apply Own].
  destruct (getUniqueWriteUsage _ _ n) as [value|]; [| apply Own].
  destruct (findRegexRec sm turns k value _) as [[j|]|] eqn:R; [| apply Own | done]. intros [= <-]. by eapply IH.
Qed.

Section Progress.

Context `{Visitor}.
Context (sm : ScopeManager) (parent : node -> option node) (isString : node -> bool).
Variable parseRegExp : string -> string -> option rnode.
Variable getLocFromIndex : Z -> Position.
Variable resolved : RegexNode -> list rnode.
Variable ref_is_number : RegexNode -> bool.
Variable references_of : RegexNode -> list RegexNode.
Variable fuel : nat.

Notation on_event := (on_groups_event sm parent isString parseRegExp getLocFromIndex resolved ref_is_number references_of fuel).

Lemma rfold_progress {A} (f : groups_state -> A -> result groups_error groups_state) l :
  (forall st x st', f st x = Ok st' -> progress st st') -> forall st st', rfold f l st = Ok st' -> progress st st'.
Proof.
  intros F. induction l as [|x l IH]; intros st st' E; cbn in E; [by injection E as -> |].
  apply rbind_ok in E as (st1 & E1 & E). etransitivity; [by eapply F | by apply IH].
Qed.

Lemma report_groups_progress i groups label message on st st' :
  report_groups getLocFromIndex i groups label message on st = Ok st' -> progress st st'.
Proof.
  unfold report_groups. destruct (knowledge st !! i); [| by intros [= ->]].
  intros (l & _ & [= <-])%rbind_ok. apply add_report_progress.
Qed.

Lemma use_found_progress i p st : progress st (use_found i p st).
Proof. apply update_regex_progress. intros r. constructor; try done. apply use_first_grows. Qed.

Lemma collectKnowledge_progress n st st' :
  collectKnowledge sm parent isString parseRegExp resolved fuel n st = Ok st' -> progress st st'.
Proof.
  unfold collectKnowledge. destruct (getParsedRegex _ _ _ _ _) as [[r|]|]; [| by intros [= ->] | done].
  intros [= <-]. apply append_progress.
Qed.

Lemma bind_progress pattern matcher st st' : bind sm pattern matcher st = Ok st' -> progress st st'.
Proof.
  unfold bind. destruct (findRegex sm (knowledge st) pattern) as [[i|]|] eqn:F; [| by intros [= ->] | done].
  intros [= <-]. set (f := fun r : RegexKnowledge => mkKnowledge (r_node r) (r_regexp r) (r_groups r) true).
  assert (progress st (update_regex i f st)) as [K B] by (apply update_regex_progress; intros r; by constructor).
  split; [done |]. cbn [bindings]. intros M v j [[-> ->]|[N Hj]]%map_get_set_cases; [| by apply (B M v j)].
  destruct (findRegexRec_index _ _ _ _ _ _ F) as [r Hr]. exists (f r). cbn [knowledge]. split; [| done].
  unfold update_regex, with_knowledge. cbn [knowledge]. by rewrite list_lookup_alter_eq, Hr.
Qed.

Lemma collectPatternMatcher_progress n parents st st' :
  collectPatternMatcher sm isString n parents st = Ok st' -> progress st st'.
Proof.
  unfold collectPatternMatcher. destruct (get_nodes n "arguments") as [|a l]; [by intros [= ->] |].
  destruct (isMethodCall n); [| by intros [= ->]].
  destruct (callee_prop n "object"), (getLhsVariable sm (rev parents) n), (callee_prop n "property"); try (by intros [= ->]).
  destruct (isString _ && _); [apply bind_progress |]. destruct (_ && _); [apply bind_progress | by intros [= ->]].
Qed.

Lemma replace_progress n st st' :
  checkStringReplaceGroupReferences sm isString getLocFromIndex n st = Ok st' -> progress st st'.
Proof.
  unfold checkStringReplaceGroupReferences. destruct (isStringReplaceCall isString n); [| by intros [= ->]].
  destruct (get_nodes n "arguments") as [|p [|s l]]; try (by intros [= ->]).
  destruct (findRegex sm (knowledge st) p) as [[i|]|]; [| by intros [= ->] | done]. cbv zeta.
  set (st1 := update_groups i _ st).
  assert (progress st st1) as P by (apply update_regex_progress; intros r; constructor; try done; apply map_use_grows).
  destruct (List.filter _ _); [by intros [= <-] |]. intros E%report_groups_progress. by etransitivity.
Qed.

Lemma index_progress n st st' : checkIndexBasedGroupReference sm getLocFromIndex fuel n st = Ok st' -> progress st st'.
Proof.
  unfold checkIndexBasedGroupReference.
  destruct (get_node n "object") as [m|], (get_node n "property") as [p|]; try (by intros [= ->]).
  destruct (resolve sm m st) as [i|]; [| by intros [= ->]].
  destruct (getValueOfExpression _ _ _ _ _) as [v|]; [| done].
  destruct (option_map _ v) as [[]|]; try (by intros [= ->]). cbv zeta.
  destruct (List.find _ _) as [g|]; [| by intros [= ->]]. intros E%report_groups_progress.
  etransitivity; [| exact E]. apply use_found_progress.
Qed.

Lemma check_group_node_progress i n st st' : check_group_node getLocFromIndex i n st = Ok st' -> progress st st'.
Proof.
  unfold check_group_node. destruct (List.find _ _); [intros [= <-]; apply use_found_progress | apply report_groups_progress].
Qed.

Lemma non_existing_progress n parents st st' :
  checkNonExistingGroupReference sm getLocFromIndex n parents st = Ok st' -> progress st st'.
Proof.
  unfold checkNonExistingGroupReference. destruct (get_node n "object") as [m|]; [| by intros [= ->]].
  destruct (resolve sm m st) as [i|]; [| by intros [= ->]]. intros (l & _ & E)%rbind_ok.
  eapply rfold_progress; [| exact E]. intros ? ? ?. apply check_group_node_progress.
Qed.

Lemma program_exit_progress st st' :
  (let! st := checkUnusedGroups getLocFromIndex st in checkIndexedGroups getLocFromIndex ref_is_number references_of st) = Ok st' ->
  progress st st'.
Proof.
  intros (st1 & E1 & E2)%rbind_ok. transitivity st1.
  - eapply rfold_progress; [| exact E1]. intros s i s'. unfold check_unused. destruct (knowledge s !! i) as [r|]; [| by intros [= ->]].
    destruct (r_matched r); [| by intros [= ->]]. destruct (unused_groups r); [by intros [= ->] | apply report_groups_progress].
  - eapply rfold_progress; [| exact E2]. intros s r s' E. eapply rfold_progress; [| exact E]. clear.
    intros s g s'. unfold check_indexed_group. intros (l & _ & E)%rbind_ok. eapply rfold_progress; [| exact E]. clear.
    intros s b s'. unfold check_reference. destruct (getRegexpLocation _ _ _ _) as [[loc|]|]; [| by intros [= ->] | done].
    intros [= <-]. destruct (ref_is_number b); [apply add_report_progress | done].
Qed.

Lemma event_progress e st st' : on_event e st = Ok st' -> progress st st'.
Proof.
  destruct e as [n parents|n parents]; cbn [on_groups_event]; [by intros [= ->] |].
  destruct (_ || _); [apply collectKnowledge_progress |].
  destruct (type_of n =s "CallExpression").
  { intros (st1 & E1 & E)%rbind_ok. apply rbind_ok in E as (st2 & E2 & E3).
    apply collectKnowledge_progress in E1. apply collectPatternMatcher_progress in E2. apply replace_progress in E3.
    etransitivity; [exact E1 |]. by etransitivity. }
  destruct (type_of n =s "MemberExpression").
  { destruct (truthy _); [apply index_progress | apply non_existing_progress]. }
  destruct (type_of n =s "Program"); [apply program_exit_progress | by intros [= ->]].
Qed.

Lemma run_progress l : forall st st', run on_event l st = Ok st' -> progress st st'.
Proof. apply (rfold_progress (fun st e => on_event e st)). intros st e st'. apply event_progress. Qed.

End Progress.

(** Whatever happens after it, a group that is used stays so, in an entry that keeps
    its place: it is not among the unused groups that the rule reports at the end. And a
    variable with a result of a match stands for an expression that was matched. *)
Theorem used_groups_stay_used `{Visitor} sm parent isString parseRegExp getLocFromIndex resolved ref_is_number references_of fuel
    before after st st' :
  let on := on_groups_event sm parent isString parseRegExp getLocFromIndex resolved ref_is_number references_of fuel in
  run on before (mkGroupsState [] [] []) = Ok st -> run on after st = Ok st' ->
  bindings_matched st' /\
  forall i r j g, knowledge st !! i = Some r -> r_groups r !! j = Some g -> g_used g = true ->
    exists r' g', knowledge st' !! i = Some r' /\ r_groups r' !! j = Some g' /\
      g_name g' = g_name g /\ g_index g' = g_index g /\ g' ∉ unused_groups r'.
Proof.
  intros on E E'. apply run_progress in E as [K B], E' as [K' B']. split; [apply B', B; by intros v i ?|].
  intros i r j g Hr Hg U. destruct (K' i r Hr) as (r' & Hr' & G).
  destruct (Forall2_lookup_l _ _ _ _ _ (groups_grow _ _ G) Hg) as (g' & Hg' & Gg).
  exists r', g'. split_and!; [done | done | apply Gg | apply Gg |].
  intros [_ N]%elem_of_filter_In. rewrite (stays_used _ _ Gg U) in N. done.
Qed.

(** ** Examples *)

Module NamedGroupsExample.

Definition mk (i : nat) (t : string) (ps : list (string * value)) : node := Node (mkHeader i t None None) ps.
Definition ident (i : nat) (name : string) : node := mk i "Identifier" [("name", VStr name)].
Definition member (i : nat) (object property : node) : node :=
  mk i "MemberExpression" [("object", VNode object); ("property", VNode property); ("computed", VBool false)].

(** [const re = /(?<y>a)/;] *)
Definition literal : node :=
  Node (mkHeader 1 "Literal" None (Some (11, 20)%Z)) [("value", VRegExp "(?<y>a)" ""); ("raw", VStr "/(?<y>a)/")].

Definition group : rnode :=
  CapturingGroup (mkRegexNode 1 8 "(?<y>a)") (Some "y")
    [Alternative (mkRegexNode 6 7 "a") [Character (mkRegexNode 6 7 "a") 97]].
Definition regexp : rnode :=
  RegExpLiteral (mkRegexNode 0 9 "/(?<y>a)/") (mkFlags false false false false)
    (Pattern (mkRegexNode 1 8 "(?<y>a)") [Alternative (mkRegexNode 1 8 "(?<y>a)") [group]]).

(** [const all = s.matchAll(re);] *)
Definition call (method : string) : node :=
  mk 2 "CallExpression" [("callee", VNode (member 10 (ident 3 "s") (ident 4 method))); ("arguments", VArr [VNode (ident 5 "re")])].
Definition declarator : node := mk 11 "VariableDeclarator" [("id", VNode (ident 6 "all"))].

(** [variable.groups.y] *)
Definition groups_of (variable : string) : node := member 7 (ident 8 variable) (ident 12 "groups").
Definition y_of (variable : string) : node := member 9 (groups_of variable) (ident 13 "y").
Definition program : node := mk 0 "Program" [].

Definition scopes : ScopeManager :=
  mkScopeManager [mkScope program None [0; 1; 2] [0]]
    [mkVariable "re" 0 None [] [0]; mkVariable "all" 0 None [] []; mkVariable "m" 0 None [] []]
    [mkReference (ident 20 "re") [] 0 (Some 0) (Some literal) true false true] (fun _ => Some 0).

Definition on := on_groups_event scopes (fun _ => None) (fun n => node_name n =s "s") (fun _ _ => Some regexp)
  (fun i => mkPos 1 i) (fun _ => []) (fun _ => false) (fun _ => []) 5.

(** The events of the code that reads the group from a variable. *)
Definition code (method variable : string) : list Traversal.event :=
  [Traversal.Leave literal []; Traversal.Leave (call method) [declarator; program];
   Traversal.Leave (groups_of variable) [y_of variable; program]; Traversal.Leave program []].

Definition messages (l : list Traversal.event) : option (list string) :=
  match run on l (mkGroupsState [] [] []) with Ok st => Some (map gr_message (group_reports st)) | Throw _ => None end.

(** The group is used in [all.groups.y], for the result of [match]. In
    [for (const m of s.matchAll(re)) m.groups.y], which is how the results of [matchAll] are read,
    it is reported as unused: the variable of the loop is not the one that is bound. *)
Example iterated_groups_reported :
  messages (code "match" "all") = Some [] /\
  messages (code "matchAll" "m") = Some ["Use the named groups of this regex or remove the names."].
Proof. split; vm_compute; reflexivity. Qed.

Lemma groups_have_their_numbers_witness :
  g_index (makeGroupKnowledge (fun _ => []) group "y" [] 1) = 0 + 1 /\
  makeGroupKnowledge (fun _ => []) group "y" [] 1 ∈ r_groups (makeRegexKnowledge (fun _ => []) literal regexp).
Proof.
  split; [reflexivity |]. apply groups_have_their_numbers.
  - intros b r c H. by apply elem_of_nil in H.
  - exists 0, group. split_and!; [reflexivity | | reflexivity | reflexivity | reflexivity |].
    + do 2 (eapply node_below; [by left |]). eapply node_below; [by left |]. constructor.
    + split; [discriminate |]. intros (b & _ & Hb). by apply elem_of_nil in Hb.
Defined.

Definition after_match : groups_state :=
  match run on (take 3 (code "match" "all")) (mkGroupsState [] [] []) with Ok st => st | Throw _ => mkGroupsState [] [] [] end.
Definition at_end : groups_state :=
  match run on (drop 3 (code "match" "all")) after_match with Ok st => st | Throw _ => mkGroupsState [] [] [] end.

Lemma used_groups_stay_used_witness : bindings_matched at_end.
Proof.
  refine (proj1 (used_groups_stay_used scopes (fun _ => None) (fun n => node_name n =s "s") (fun _ _ => Some regexp)
    (fun i => mkPos 1 i) (fun _ => []) (fun _ => false) (fun _ => []) 5
    (take 3 (code "match" "all")) (drop 3 (code "match" "all")) after_match at_end _ _)); vm_compute; reflexivity.
Defined.

End NamedGroupsExample.
