(* ===== verification/Aws.v ===== *)
(** * Aws: arguments of AWS constructs

    The code the rules on the AWS CDK share: [rules/helpers/result.ts] (the navigation
    from a call to the values of its properties), [rules/helpers/aws/cdk.ts] (the
    dispatch on qualified names and the check of the options of a construct),
    [rules/helpers/aws/s3.ts] (buckets) and [rules/helpers/aws/iam.ts] (policies).
    Values are followed through the unique writes of [Ast] and names come from
    [Modules]; both are on the tables of scopes. A check that can end early with a
    node, as it does in silent mode, is a computation of the type [check]. *)

From Stdlib Require Import ZArith QArith Lia Ascii.
From stdpp Require Import base list strings.
From S2P Require Import Prelude JsString Estree Ast Modules.

Open Scope js_scope.

(** What a rule throws: the [TypeError] of a property read on [undefined] or [null], or
    the [RangeError] of a recursion that exhausts the stack. *)
Inductive aws_error := TypeError | RangeError.

Definition eval (A : Type) : Type := result aws_error A.

(** A descriptor given to [context.report], with the nodes and the messages of its
    secondary locations. *)
Record Report := mkReport {
  rp_message : string;
  rp_data : list (string * string);
  rp_node : node;
  rp_secondary : list (node * string)
}.

Definition plain_report (message : string) (n : node) : Report := mkReport message [] n [].

Definition of_option {A} (e : aws_error) (o : option A) : eval A :=
  match o with Some a => Ok a | None => Throw e end.

(** A property that must be a node. *)
Definition node_at (n : node) (key : string) : eval node := of_option TypeError (get_node n key).

(** [node.arguments\[position\]]; [None] is [undefined]. *)
Definition argument_at (n : node) (position : nat) : option node :=
  v ← get_array n "arguments" !! position; as_node v.

(** ** Names *)

(** [fqn?.replace(/-/g, '_')] *)
Definition normalize (fqn : string) : string :=
  map_string (fun c => if Ascii.eqb c "-" then "_"%char else c) fqn.

Definition normalizeFQN (fqn : option string) : option string := normalize <$> fqn.

(** The truthiness of a name. *)
Definition truthy_name (fqn : option string) : bool :=
  match fqn with Some s => negb (s =s "") | None => false end.

Definition name_is (fqn : option string) (s : string) : bool :=
  match fqn with Some t => t =s s | None => false end.

Section Aws.

Context (sm : ScopeManager) (parents : node -> list node).
(** The calls that the stack of the engine has room for. *)
Context (stack : nat).

(** [getFullyQualifiedName(ctx, node)]; its fuel is enough ([Modules.qualified_names_end]). *)
Definition fullName (n : node) : option string := default None (getFullyQualifiedName sm n [] None).

Definition normalizedName (n : node) : option string := normalizeFQN (fullName n).

(** ** Values through unique writes *)

Definition uniqueWriteOrNode (n : node) (recursive : bool) : eval node :=
  of_option RangeError (getUniqueWriteUsageOrNode sm stack n recursive).

Definition valueOfExpression (expr : option node) (type : string) (recursive : bool) : eval (option node) :=
  of_option RangeError (getValueOfExpression sm stack expr type recursive).

(** [getProperty(object, key, ctx)]: [POutOfFuel] is turned into the error. *)
Definition propertyOf (object : node) (key : string) : eval prop_result :=
  match getProperty sm parents stack (Some object) key with
  | POutOfFuel => Throw RangeError
  | r => Ok r
  end.

(** The object of nested member accesses. *)
Fixpoint member_root (fuel : nat) (n : node) : node :=
  match fuel with
  | O => n
  | S fuel' =>
      if type_of n =s "MemberExpression" then
        match get_node n "object" with Some o => member_root fuel' o | None => n end
      else n
  end.

Definition isUnresolved (n : option node) : bool :=
  match n with
  | None => false
  | Some n =>
      if truthy_name (fullName n) || isUndefined n then false
      else
        let nodeToCheck := member_root (node_size n) n in
        if type_of nodeToCheck =s "Identifier" then
          match getVariableFromName sm (node_name nodeToCheck) n with
          | Some v =>
              match variable_at sm v with
              | Some x => Nat.eqb (length (write_references sm x)) 0
              | None => true
              end
          | None => true
          end
        else false
  end.

(** ** [Result] *)

Inductive status := missing | unknown | found.

Record Result_ := mkResult { r_node : node; r_status : status }.

Definition isFound (r : Result_) : bool := match r_status r with found => true | _ => false end.
Definition isMissing (r : Result_) : bool := match r_status r with missing => true | _ => false end.

Definition isTrue (r : Result_) : bool :=
  isFound r && isBooleanLiteral (r_node r) && truthy (get (r_node r) "value").

Definition ofType (r : Result_) (type : string) : bool := isFound r && (type_of (r_node r) =s type).

Definition getResultOfExpression (n : node) : eval Result_ :=
  let! value := uniqueWriteOrNode n true in
  Ok (mkResult value (if isUndefined value then missing else found)).

Definition getArgument (r : Result_) (position : nat) : eval Result_ :=
  if negb (isFound r) then Ok r
  else if negb (includes (type_of (r_node r)) ["NewExpression"; "CallExpression"])
  then Ok (mkResult (r_node r) unknown)
  else match argument_at (r_node r) position with
       | None => Ok (mkResult (r_node r) missing)
       | Some argument => getResultOfExpression argument
       end.

Definition getPropertyResult (r : Result_) (propertyName : string) : eval Result_ :=
  if negb (isFound r) then Ok r
  else if negb (type_of (r_node r) =s "ObjectExpression") then Ok (mkResult (r_node r) unknown)
  else
    let! property := propertyOf (r_node r) propertyName in
    match property with
    | PFound p => let! value := node_at p "value" in getResultOfExpression value
    | PNull => Ok (mkResult (r_node r) missing)
    | _ => Ok (mkResult (r_node r) unknown)
    end.

Definition filterResult (r : Result_) (closure : node -> bool) : Result_ :=
  if negb (isFound r) then r
  else if negb (closure (r_node r)) then mkResult (r_node r) unknown else r.

Definition getMemberObject (r : Result_) : eval Result_ :=
  if negb (isFound r) then Ok r
  else if negb (type_of (r_node r) =s "MemberExpression") then Ok (mkResult (r_node r) unknown)
  else
    let! object := node_at (r_node r) "object" in
    let! result := getResultOfExpression object in
    Ok (filterResult result (fun n => negb (type_of n =s "Super"))).

(** The elements of an array: [None] for a hole. *)
Definition elements (n : node) : list (option node) := map as_node (get_array n "elements").

(** The loop of [findInArray], with the flag [isMissing]. *)
Fixpoint findInArray_loop (array : node) (closure : Result_ -> eval (option Result_))
    (l : list (option node)) (allMissing : bool) : eval Result_ :=
  match l with
  | [] => Ok (mkResult array (if allMissing then missing else unknown))
  | element :: rest =>
      let! result := match element with
                     | Some e => let! r := getResultOfExpression e in closure r
                     | None => Ok None
                     end in
      match result with
      | Some r => if isFound r then Ok r else findInArray_loop array closure rest (allMissing && isMissing r)
      | None => findInArray_loop array closure rest allMissing
      end
  end.

Definition findInArray (r : Result_) (closure : Result_ -> eval (option Result_)) : eval Result_ :=
  if negb (isFound r) then Ok r
  else if negb (isArrayExpression (Some (r_node r))) then Ok (mkResult (r_node r) unknown)
  else findInArray_loop (r_node r) closure (elements (r_node r)) true.

(** [node.value] of a string literal. *)
Definition literal_text (n : node) : string := default "" (get_str n "value").

Fixpoint every_element (closure : node -> bool) (l : list (option node)) : eval bool :=
  match l with
  | [] => Ok true
  | None :: _ => Ok false
  | Some e :: rest =>
      let! child := getResultOfExpression e in
      if isFound child && isStringLiteral (r_node child) && closure (r_node child)
      then every_element closure rest else Ok false
  end.

Definition everyStringLiteral (r : Result_) (closure : node -> bool) : eval bool :=
  if negb (isFound r) then Ok false
  else if isStringLiteral (r_node r) then Ok (closure (r_node r))
  else if negb (isArrayExpression (Some (r_node r))) then Ok false
  else every_element closure (elements (r_node r)).

Fixpoint string_elements (l : list (option node)) : eval (list node) :=
  match l with
  | [] => Ok []
  | None :: rest => string_elements rest
  | Some e :: rest =>
      let! result := getResultOfExpression e in
      let! values := string_elements rest in
      Ok (if isFound result && isStringLiteral (r_node result) then r_node result :: values else values)
  end.

Definition asStringLiterals (r : Result_) : eval (list node) :=
  if negb (isFound r) then Ok []
  else if isArrayExpression (Some (r_node r)) then string_elements (elements (r_node r))
  else Ok (if isStringLiteral (r_node r) then [r_node r] else []).

(** [map(closure)], for a closure that answers [null] or a text. *)
Definition mapResult (r : Result_) (closure : node -> option string) : option string :=
  if negb (isFound r) then None else closure (r_node r).

(** ** The template of the rules on constructs *)

Section Template.

(** What the callbacks change: the reports, and the variables of a rule. *)
Context {St : Type}.

Record AwsCdkCallback := mkCallback {
  functionName : option string;
  methods : option (list string);
  callExpression : node -> option string -> St -> eval St;
  newExpression : option (node -> St -> eval St)
}.

Inductive AwsCdkConsumer :=
| OnNew (callback : node -> St -> eval St)
| OnCalls (callback : AwsCdkCallback).

(** An object used as a map, in the order of its keys. *)
Definition AwsCdkConsumerMap := list (string * AwsCdkConsumer).

Definition isMethodCallOf (callback : AwsCdkCallback) (fqn : option string) (expected : string) : bool :=
  match functionName callback, methods callback with
  | Some name, _ => name_is fqn (expected +:+ "." +:+ name)%string
  | None, Some ms =>
      match fqn ≫= strip_prefix expected with
      | Some rest => forallb (fun name => (name =s "") || includes name ms) (split_char "."%char rest)
      | None => name_is fqn expected
      end
  | None, None => name_is fqn expected
  end.

Definition executeIfMatching (n : node) (expected : string) (callback : AwsCdkConsumer) (s : St) : eval St :=
  match callback with
  | OnNew _ => Ok s
  | OnCalls callback =>
      let! callee := node_at n "callee" in
      let fqn := normalizedName callee in
      if (type_of n =s "NewExpression") && name_is fqn expected then
        match newExpression callback with Some f => f n s | None => Ok s end
      else if isMethodCallOf callback fqn expected then callExpression callback n fqn s
      else Ok s
  end.

(** A turn of the loop over the consumers. *)
Definition consume (n : node) (s : St) (entry : string * AwsCdkConsumer) : eval St :=
  let normalizedExpectedFQN := normalize entry.1 in
  match entry.2 with
  | OnNew callback =>
      if type_of n =s "CallExpression" then executeIfMatching n normalizedExpectedFQN entry.2 s
      else
        let! callee := node_at n "callee" in
        if name_is (normalizedName callee) normalizedExpectedFQN then callback n s else Ok s
  | OnCalls _ => executeIfMatching n normalizedExpectedFQN entry.2 s
  end.

Definition has_spread (n : node) : bool :=
  existsb (fun a => type_of a =s "SpreadElement") (get_nodes n "arguments").

(** The listener of [NewExpression] and [CallExpression]. *)
Definition AwsCdkTemplate (consumers : AwsCdkConsumerMap) (n : node) (s : St) : eval St :=
  if has_spread n then Ok s else rfold (consume n) consumers s.

End Template.

(** ** Checks that report, or end with the node to report *)

(** The reports, and the value or the node returned instead. *)
Definition check (A : Type) : Type := eval (list Report * (A + node)).

Definition cret {A} (a : A) : check A := Ok ([], inl a).

Definition cbind {A B} (m : check A) (k : A -> check B) : check B :=
  let! p := m in
  match p.2 with
  | inl a => let! q := k a in Ok (p.1 ++ q.1, q.2)
  | inr n => Ok (p.1, inr n)
  end.

Notation "'let@' x ':=' m 'in' k" := (cbind m (fun x => k))
  (at level 10, x pattern, m at level 100, k at level 200) : js_scope.

(** A computation without reports. *)
Definition clift {A} (m : eval A) : check A := let! a := m in Ok ([], inl a).

(** [if (silent) return node; ctx.report({ messageId, node })] *)
Definition conflict (silent : bool) (messageId : string) (n : node) : check unit :=
  if silent then Ok ([], inr n) else Ok ([plain_report messageId n], inl tt).

Fixpoint cmap {A B} (f : A -> check B) (l : list A) : check (list B) :=
  match l with
  | [] => cret []
  | x :: rest => let@ y := f x in let@ ys := cmap f rest in cret (y :: ys)
  end.

(** ** The arguments of a construct *)

Definition AWS_OPTIONS_ARGUMENT_POSITION : nat := 2.

Record Values (A : Type) := mkValues { valid : list A; invalid : list A; case_insensitive : bool }.

Record ValuesByType := mkValuesByType {
  primitives : option (Values value);
  fqns : option (Values string);
  customChecker : option (node -> eval bool)
}.

Record NodeAndReport := mkNodeAndReport { nr_node : node; nodeToReport : node }.

(** A message id, or one for the omitted values and one for the invalid ones. *)
Inductive MessageIds := OneMessage (id : string) | Messages (omitted invalid : string).

Definition getMessageAtPos (messageId : MessageIds) (pos : nat) : string :=
  match messageId, pos with
  | OneMessage id, _ => id
  | Messages omitted _, O => omitted
  | Messages _ invalid, _ => invalid
  end.

Definition getNodeToReport (property : NodeAndReport) : eval node :=
  if type_of (nodeToReport property) =s "Property" then node_at (nodeToReport property) "value"
  else Ok (nodeToReport property).

(** [object.properties.includes(property)] *)
Definition has_property (object property : node) : bool :=
  existsb (same_node property) (get_nodes object "properties").

(** The objects in which the next property is searched: the object a node stands for, or
    the objects among the elements of an array. [None]: there is neither. *)
Definition object_elements (l : list (option node)) : eval (list NodeAndReport) :=
  let! children := rmap_list (fun element =>
    let! elemObjExpr := valueOfExpression element "ObjectExpression" true in
    Ok match elemObjExpr, element with
       | Some o, Some e => [mkNodeAndReport o e]
       | _, _ => []
       end) l in
  Ok (concat children).

Definition children_of (n : NodeAndReport) : eval (option (list NodeAndReport)) :=
  let! objExpr := valueOfExpression (Some (nr_node n)) "ObjectExpression" true in
  match objExpr with
  | Some o => Ok (Some [mkNodeAndReport o (nodeToReport n)])
  | None =>
      let! arrayExpr := valueOfExpression (Some (nr_node n)) "ArrayExpression" true in
      match arrayExpr with
      | Some a =>
          if Nat.eqb (length (get_array a "elements")) 0 then Ok None
          else let! children := object_elements (elements a) in Ok (Some children)
      | None => Ok None
      end
  end.

(** What is reported for a property of a child. *)
Definition to_report (child : NodeAndReport) (property target : node) : node :=
  if same_node (nr_node child) (nodeToReport child) && has_property (nr_node child) property
  then target else nodeToReport child.

(** The body of [traverseProperties] for one child, given the continuation for the
    property that is found. *)
Definition traverse_child (silent needsProp : bool) (messageId : string) (n : NodeAndReport) (propertyName : string)
    (next : NodeAndReport -> node -> check (list NodeAndReport)) (child : NodeAndReport)
  : check (list NodeAndReport) :=
  let@ property := clift (propertyOf (nr_node child) propertyName) in
  match property with
  | PFound p => next child p
  | PNull =>
      if needsProp then let@ _ := conflict silent messageId (nodeToReport n) in cret [] else cret []
  | _ => cret []
  end.

(** The path is a property and the ones below it. *)
Fixpoint traverseProperties (silent needsProp : bool) (messageId : string) (n : NodeAndReport)
    (propertyName : string) (nextElements : list string) : check (list NodeAndReport) :=
  if isUnresolved (Some (nr_node n)) then cret []
  else
    let@ children := clift (children_of n) in
    match children with
    | None => if needsProp then let@ _ := conflict silent messageId (nodeToReport n) in cret [] else cret []
    | Some children =>
        let@ properties := cmap (traverse_child silent needsProp messageId n propertyName (fun child p =>
          match nextElements with
          | [] => cret [mkNodeAndReport p (to_report child p p)]
          | next :: rest =>
              let@ v := clift (node_at p "value") in
              traverseProperties silent needsProp messageId (mkNodeAndReport v (to_report child p v)) next rest
          end)) children in
        cret (concat properties)
    end.

(** [a === b] on the values of literals. *)
Definition strictly_equal (a b : value) : bool :=
  match a, b with
  | VUndefined, VUndefined | VNull, VNull => true
  | VBool x, VBool y => Bool.eqb x y
  | VStr x, VStr y => x =s y
  | VNum (NumQ x), VNum (NumQ y) => Qeq_bool x y
  | VNum (NumInfinity x), VNum (NumInfinity y) => Bool.eqb x y
  | VBigInt x, VBigInt y => Z.eqb x y
  | _, _ => false
  end.

Fixpoint rexists {A} (f : A -> eval bool) (l : list A) : eval bool :=
  match l with
  | [] => Ok false
  | x :: rest => let! b := f x in if b then Ok true else rexists f rest
  end.

(** The comparison with an expected value; [toLowerCase] exists on texts only. *)
Definition same_value (values : Values value) (literal v : value) : eval bool :=
  match case_insensitive _ values, literal with
  | true, VStr s =>
      match v with
      | VStr t => Ok (toLowerCase_ascii t =s toLowerCase_ascii s)
      | _ => Throw TypeError
      end
  | _, _ => Ok (strictly_equal v literal)
  end.

Fixpoint getLiteralValue_fuel (fuel : nat) (n : node) : eval (option node) :=
  match fuel with
  | O => Throw RangeError
  | S fuel' =>
      if isLiteral (Some n) then Ok (Some n)
      else if isIdentifier (Some n) [] then
        match getUniqueWriteUsage sm (node_name n) n with
        | Some usage => getLiteralValue_fuel fuel' usage
        | None => Ok None
        end
      else Ok None
  end.

Definition getLiteralValue (n : node) : eval (option node) := getLiteralValue_fuel stack n.

Definition disallowedValue (n : node) (values : Values value) : eval bool :=
  let! literal := getLiteralValue n in
  match literal with
  | None => Ok false
  | Some literal =>
      let v := get literal "value" in
      let! allowed := rexists (same_value values v) (valid _ values) in
      if negb (Nat.eqb (length (valid _ values)) 0) && negb allowed then Ok true
      else rexists (same_value values v) (invalid _ values)
  end.

Definition disallowedFQNs (n : node) (values : Values string) : bool :=
  let fqn := normalizedName n in
  let among l := match fqn with Some s => includes s (map normalize l) | None => false end in
  if negb (Nat.eqb (length (valid _ values)) 0) && (negb (truthy_name fqn) || negb (among (valid _ values)))
  then true
  else truthy_name fqn && among (invalid _ values).

(** [if (silent) return getNodeToReport(property); ctx.report(...)], when a check holds. *)
Definition conflict_when (silent : bool) (messageId : string) (property : NodeAndReport) (m : eval bool) : check unit :=
  let@ b := clift m in
  if b then let@ n := clift (getNodeToReport property) in conflict silent messageId n else cret tt.

Definition when_some {A} (o : option A) (f : A -> eval bool) : eval bool :=
  match o with Some a => f a | None => Ok false end.

(** The body of the loop over the properties found. *)
Definition check_property (silent needsProps : bool) (messageId : MessageIds) (values : ValuesByType)
    (property : NodeAndReport) : check unit :=
  let@ v := clift (node_at (nr_node property) "value") in
  let@ propertyValue := clift (uniqueWriteOrNode v true) in
  if isUnresolved (Some propertyValue) then cret tt
  else if isUndefined propertyValue
          || ((type_of propertyValue =s "ArrayExpression")
              && Nat.eqb (length (get_array propertyValue "elements")) 0)
  then conflict_when silent (getMessageAtPos messageId 0) property (Ok needsProps)
  else
    let report := conflict_when silent (getMessageAtPos messageId 1) property in
    let@ _ := report (when_some (primitives values) (disallowedValue propertyValue)) in
    let@ _ := report (when_some (fqns values) (fun vs => Ok (disallowedFQNs propertyValue vs))) in
    report (when_some (customChecker values) (fun f => f propertyValue)).

Definition no_values : ValuesByType := mkValuesByType None None None.

(** The function that [AwsCdkCheckArguments] returns: it ends with a value when it
    returns [undefined]. *)
Definition AwsCdkCheckArguments (messageId : MessageIds) (needsProps : bool) (propertyName : string)
    (nested : list string) (values : ValuesByType) (silent : bool) (position : nat) (expr : node) : check unit :=
  match argument_at expr position with
  | Some argument =>
      if isUndefined argument then
        if needsProps
        then let@ callee := clift (node_at expr "callee") in conflict silent (getMessageAtPos messageId 0) callee
        else cret tt
      else
        let@ properties := traverseProperties silent needsProps (getMessageAtPos messageId 0)
                             (mkNodeAndReport argument argument) propertyName nested in
        let@ _ := cmap (check_property silent needsProps messageId values) properties in
        cret tt
  | None =>
      if needsProps
      then let@ callee := clift (node_at expr "callee") in conflict silent (getMessageAtPos messageId 0) callee
      else cret tt
  end.

(** The check as a consumer, and the node it returns in silent mode. *)
Definition reported_by (m : check unit) : eval (list Report) := let! p := m in Ok p.1.

Definition returned_by (m : check unit) : eval (option node) :=
  let! p := m in Ok match p.2 with inl _ => None | inr n => Some n end.

(** A callback that only reports. *)
Definition reporting (f : node -> eval (list Report)) (n : node) (reports : list Report) : eval (list Report) :=
  let! l := f n in Ok (reports ++ l).

Definition checkArguments (messageId : MessageIds) (needsProps : bool) (propertyName : string)
    (nested : list string) (values : ValuesByType) : @AwsCdkConsumer (list Report) :=
  OnNew (reporting (fun expr => reported_by (AwsCdkCheckArguments messageId needsProps propertyName nested values
    false AWS_OPTIONS_ARGUMENT_POSITION expr))).

(** ** Buckets *)

(** [node.parent] *)
Definition parent_of (n : node) : option node := head (parents n).

Definition isS3BucketConstructor (n : node) : bool := name_is (normalizedName n) "aws_cdk_lib.aws_s3.Bucket".

Definition isS3BucketDeploymentConstructor (n : node) : bool :=
  name_is (normalizedName n) "aws_cdk_lib.aws_s3_deployment.BucketDeployment".

(** The listener of [NewExpression] of the template. *)
Definition S3BucketTemplate (callback : node -> eval (list Report)) (n : node) : eval (list Report) :=
  if isS3BucketConstructor n then callback n else Ok [].

(** The first property whose key is an identifier of that name. *)
Definition find_property (object : node) (key : string) : option node :=
  List.find (fun property => isProperty property && isIdentifier (get_node property "key") [key])
    (get_nodes object "properties").

Definition getBucketProperty (bucket : node) (key : string) : eval (option node) :=
  let! options := valueOfExpression (argument_at bucket 2) "ObjectExpression" false in
  Ok (o ← options; find_property o key).

(** The secondary location is at the parent of the value. *)
Definition findPropagatedSetting (sensitiveProperty propagatedValue : node) : eval (list (node * string)) :=
  let! v := node_at sensitiveProperty "value" in
  if same_node v propagatedValue then Ok []
  else let! p := of_option TypeError (parent_of propagatedValue) in Ok [(p, "Propagated setting.")].

(** ** Policies *)

Inductive effect_type := EffectName | EffectString.
Inductive principal_type := PrincipalNames | PrincipalJson.

(** The names of the properties of a statement and how its values are written. *)
Record PolicyCheckerOptions := mkPolicyOptions {
  effect_property : string;
  effect_kind : effect_type;
  effect_allowValue : string;
  actions_property : string;
  resources_property : string;
  conditions_property : string;
  principals_property : string;
  principals_kind : principal_type;
  principals_anyValues : list string
}.

Definition ARN_PRINCIPAL : string := "aws_cdk_lib.aws_iam.ArnPrincipal".
Definition STAR_PRINCIPAL : string := "aws_cdk_lib.aws_iam.StarPrincipal".
Definition ANY_PRINCIPAL : string := "aws_cdk_lib.aws_iam.AnyPrincipal".

Definition PROPERTIES_OPTIONS : PolicyCheckerOptions :=
  mkPolicyOptions "effect" EffectName "aws_cdk_lib.aws_iam.Effect.ALLOW" "actions" "resources" "conditions"
    "principals" PrincipalNames [STAR_PRINCIPAL; ANY_PRINCIPAL; ARN_PRINCIPAL].

Definition JSON_OPTIONS : PolicyCheckerOptions :=
  mkPolicyOptions "Effect" EffectString "Allow" "Action" "Resource" "Condition" "Principal" PrincipalJson [].

Definition StatementChecker := node -> PolicyCheckerOptions -> eval (list Report).

Definition PROPERTIES_POSITION : nat := 0.

Definition flatten (n : node) : eval (list node) :=
  match flattenArgs sm stack [VNode n] with
  | Ok l => Ok l
  | Throw NullElement => Throw TypeError
  | Throw FlattenOutOfFuel => Throw RangeError
  end.

Definition policyDocumentChecker (statementChecker : StatementChecker) (options : PolicyCheckerOptions) (expr : node)
  : eval (list Report) :=
  let! call := getResultOfExpression expr in
  let! properties := getArgument call PROPERTIES_POSITION in
  let! statements := getPropertyResult properties "Statement" in
  if isFound statements then
    let! nodes := flatten (r_node statements) in
    let! reports := rmap_list (fun n => statementChecker n options) nodes in
    Ok (concat reports)
  else Ok [].

Definition policyStatementChecker (statementChecker : StatementChecker) (options : PolicyCheckerOptions) (expr : node)
  : eval (list Report) :=
  let! call := getResultOfExpression expr in
  let! properties := getArgument call PROPERTIES_POSITION in
  if isFound properties then statementChecker (r_node properties) options else Ok [].

Definition AwsIamPolicyTemplate (statementChecker : StatementChecker) : @AwsCdkConsumerMap (list Report) :=
  [("aws-cdk-lib.aws-iam.PolicyStatement", OnCalls (mkCallback (Some "fromJson") None
      (fun n _ => reporting (policyStatementChecker statementChecker JSON_OPTIONS) n)
      (Some (reporting (policyStatementChecker statementChecker PROPERTIES_OPTIONS)))));
   ("aws-cdk-lib.aws-iam.PolicyDocument", OnCalls (mkCallback (Some "fromJson") None
      (fun n _ => reporting (policyDocumentChecker statementChecker JSON_OPTIONS) n) None))].

Definition getSensitiveEffect (properties : Result_) (options : PolicyCheckerOptions) : eval Result_ :=
  let! effect := getPropertyResult properties (effect_property options) in
  Ok (filterResult effect (fun n =>
    match effect_kind options with
    | EffectName => name_is (normalizedName n) (effect_allowValue options)
    | EffectString => isStringLiteral n && (literal_text n =s effect_allowValue options)
    end)).

Definition isAnyLiteral (literal : node) : bool := literal_text literal =s "*".

End Aws.

(** The arguments that are data stay explicit. *)
Arguments AwsCdkTemplate sm {St}.
Notation "'let@' x ':=' m 'in' k" := (cbind m (fun x => k))
  (at level 10, x pattern, m at level 100, k at level 200) : js_scope.

(** * Properties *)

(** ** Silent checks *)

(** What a silent computation does, given the one that reports: it ends with the node of
    the first report, and with the same value when there is none. The one that reports
    never ends with a node. *)
Definition agrees {A} (silent reporting : check A) : Prop :=
  match reporting with
  | Throw _ => True
  | Ok (reports, x) => exists a, x = inl a /\
      match reports with
      | [] => silent = Ok ([], inl a)
      | first :: _ => silent = Ok ([], inr (rp_node first))
      end
  end.

Create HintDb agreement.

Lemma agrees_ret {A} (a : A) : agrees (cret a) (cret a).
Proof. exists a. done. Qed.

Lemma agrees_lift {A} (m : eval A) : agrees (clift m) (clift m).
Proof. destruct m as [a|e]; [exists a |]; done. Qed.

Lemma agrees_conflict messageId n : agrees (conflict true messageId n) (conflict false messageId n).
Proof. exists tt. done. Qed.

Lemma agrees_bind {A B} (s r : check A) (ks kr : A -> check B) :
  agrees s r -> (forall a, agrees (ks a) (kr a)) -> agrees (cbind s ks) (cbind r kr).
Proof.
  intros S K. destruct r as [[reports x]|e]; [| done]. destruct S as (a & -> & S).
  specialize (K a). unfold agrees, cbind. cbn. destruct (kr a) as [[reports' y]|e]; cbn; [| done].
  destruct K as (b & -> & K). exists b. split; [done |].
  destruct reports as [|first rest]; cbn; rewrite S; cbn; [| done].
  destruct reports' as [|first' rest']; rewrite K; done.
Qed.

#[export] Hint Resolve agrees_ret agrees_lift agrees_conflict : agreement.
#[export] Hint Resolve agrees_bind | 3 : agreement.

Lemma agrees_map {A B} (s r : A -> check B) l : (forall x, agrees (s x) (r x)) -> agrees (cmap s l) (cmap r l).
Proof. intros S. induction l as [|x l IH]; cbn [cmap]; auto 6 with agreement. Qed.

#[export] Hint Resolve agrees_map : agreement.

Section Checks.

Context (sm : ScopeManager) (parents : node -> list node) (stack : nat).

Notation traverseProperties := (traverseProperties sm parents stack).
Notation AwsCdkCheckArguments := (AwsCdkCheckArguments sm parents stack).
Notation check_property := (check_property sm stack).

Lemma agrees_missing (needsProp : bool) messageId n :
  agrees (if needsProp then let@ _ := conflict true messageId n in cret (@nil NodeAndReport) else cret [])
         (if needsProp then let@ _ := conflict false messageId n in cret [] else cret []).
Proof. destruct needsProp; auto with agreement. Qed.

Lemma agrees_child needsProp messageId n propertyName s r child : (forall c p, agrees (s c p) (r c p)) ->
  agrees (traverse_child sm parents stack true needsProp messageId n propertyName s child)
         (traverse_child sm parents stack false needsProp messageId n propertyName r child).
Proof.
  intros S. apply agrees_bind; [auto with agreement |].
  intros [p| | |]; auto using agrees_missing with agreement.
Qed.

Lemma agrees_traverse needsProp messageId nextElements : forall n propertyName,
  agrees (traverseProperties true needsProp messageId n propertyName nextElements)
         (traverseProperties false needsProp messageId n propertyName nextElements).
Proof.
  induction nextElements as [|next rest IH]; intros n propertyName; cbn [Aws.traverseProperties];
    (destruct (isUnresolved _ _); [auto with agreement |]);
    (apply agrees_bind; [auto with agreement |]);
    (intros [children|]; [| apply agrees_missing]);
    (apply agrees_bind; [| auto with agreement]);
    apply agrees_map; intros child; apply agrees_child; auto with agreement.
Qed.

Lemma agrees_when messageId property m :
  agrees (conflict_when true messageId property m) (conflict_when false messageId property m).
Proof.
  apply agrees_bind; [auto with agreement |]. intros []; [| auto with agreement].
  apply agrees_bind; auto with agreement.
Qed.

Lemma agrees_property needsProps messageId values property :
  agrees (check_property true needsProps messageId values property)
         (check_property false needsProps messageId values property).
Proof.
  apply agrees_bind; [auto with agreement |]. intros v.
  apply agrees_bind; [auto with agreement |]. intros propertyValue.
  repeat case_match; auto using agrees_when, agrees_bind with agreement.
Qed.

Lemma agrees_check messageId needsProps propertyName nested values position expr :
  agrees (AwsCdkCheckArguments messageId needsProps propertyName nested values true position expr)
         (AwsCdkCheckArguments messageId needsProps propertyName nested values false position expr).
Proof.
  unfold Aws.AwsCdkCheckArguments.
  assert (forall m, agrees (if needsProps then let@ callee := clift (node_at expr "callee") in conflict true m callee else cret tt)
            (if needsProps then let@ callee := clift (node_at expr "callee") in conflict false m callee else cret tt)) as Missing.
  { intros m. destruct needsProps; auto using agrees_bind with agreement. }
  destruct (argument_at expr position) as [argument|]; [| apply Missing].
  destruct (isUndefined argument); [apply Missing |].
  apply agrees_bind; [apply agrees_traverse |]. intros properties.
  apply agrees_bind; [| auto with agreement]. apply agrees_map. intros. apply agrees_property.
Qed.

(** The silent form of the check of the options of a construct, which other checks
    call, is its reporting form cut at the first report: when the reporting form ends,
    the silent one ends, reports nothing, and returns the node of the first report, or
    nothing when there is no report. *)
Theorem silent_check_returns_first_report messageId needsProps propertyName nested values position expr reports :
  reported_by (AwsCdkCheckArguments messageId needsProps propertyName nested values false position expr) = Ok reports ->
  let silently := AwsCdkCheckArguments messageId needsProps propertyName nested values true position expr in
  reported_by silently = Ok [] /\ returned_by silently = Ok (rp_node <$> head reports).
Proof.
  intros E. pose proof (agrees_check messageId needsProps propertyName nested values position expr) as A.
  unfold agrees, reported_by in *.
  destruct (AwsCdkCheckArguments _ _ _ _ _ false _ _) as [[l x]|e]; [| done].
  injection E as E. cbn in E. subst l. destruct A as (a & -> & A). cbn zeta.
  destruct reports as [|first rest]; rewrite A; done.
Qed.

(** ** Paths of properties *)

Lemma cbind_value {A B} (m : check A) (k : A -> check B) reports b :
  cbind m k = Ok (reports, inl b) <->
  exists l a l', m = Ok (l, inl a) /\ k a = Ok (l', inl b) /\ reports = l ++ l'.
Proof.
  unfold cbind. split.
  - destruct m as [[l [a|n]]|e]; cbn; [| congruence..].
    destruct (k a) as [[l' x]|e] eqn:E; cbn; [| congruence]. intros [= <- ->]. naive_solver.
  - intros (l & a & l' & -> & E & ->). cbn. rewrite E. done.
Qed.

Lemma clift_value {A} (m : eval A) reports a : clift m = Ok (reports, inl a) <-> m = Ok a /\ reports = [].
Proof. destruct m; cbn; naive_solver. Qed.

Lemma cret_value {A} (a b : A) reports : cret a = Ok (reports, inl b) <-> a = b /\ reports = [].
Proof. unfold cret. naive_solver. Qed.

Lemma cmap_values {A B} (f : A -> check B) l : forall reports ys, cmap f l = Ok (reports, inl ys) ->
  Forall2 (fun x y => exists reports, f x = Ok (reports, inl y)) l ys.
Proof.
  induction l as [|x l IH]; intros reports ys; cbn [cmap].
  - intros [<- _]%cret_value. constructor.
  - intros (r & y & r' & Fx & (r2 & zs & r3 & F & [<- _]%cret_value & _)%cbind_value & _)%cbind_value. eauto.
Qed.

(** The objects that the value of a node is, or that the elements of the array it is
    are. *)
Inductive object_of : node -> node -> Prop :=
| object_value n o :
    valueOfExpression sm stack (Some n) "ObjectExpression" true = Ok (Some o) -> object_of n o
| object_element n a e o :
    valueOfExpression sm stack (Some n) "ObjectExpression" true = Ok None ->
    valueOfExpression sm stack (Some n) "ArrayExpression" true = Ok (Some a) ->
    Some e ∈ elements a ->
    valueOfExpression sm stack (Some e) "ObjectExpression" true = Ok (Some o) -> object_of n o.

(** The properties at the end of a path of names, from a node; none goes through a
    value that is not resolved. *)
Inductive at_path : node -> string -> list string -> node -> Prop :=
| at_last n k o p :
    isUnresolved sm (Some n) = false -> object_of n o -> propertyOf sm parents stack o k = Ok (PFound p) ->
    at_path n k [] p
| at_next n k o q v k' rest p :
    isUnresolved sm (Some n) = false -> object_of n o -> propertyOf sm parents stack o k = Ok (PFound q) ->
    get_node q "value" = Some v -> at_path v k' rest p ->
    at_path n k (k' :: rest) p.

Lemma object_elements_in l : forall children, object_elements sm stack l = Ok children -> forall o,
  o ∈ map nr_node children <->
  exists e, Some e ∈ l /\ valueOfExpression sm stack (Some e) "ObjectExpression" true = Ok (Some o).
Proof.
  unfold object_elements. intros children (cs & E & [= <-])%rbind_ok. revert cs E.
  induction l as [|x l IH]; intros cs; cbn [rmap_list].
  - intros [= <-] o. cbn. split; [intros H; by apply elem_of_nil in H | intros (e & H & _); by apply elem_of_nil in H].
  - intros (c & (r & V & [= <-])%rbind_ok & (cs' & E & [= <-])%rbind_ok)%rbind_ok o.
    specialize (IH cs' E o). cbn [concat]. rewrite map_app, elem_of_app, IH.
    setoid_rewrite elem_of_cons. destruct r as [o'|], x as [e|]; cbn [map];
      rewrite ?list_elem_of_singleton, ?elem_of_nil; naive_solver congruence.
Qed.

Lemma children_in n children : children_of sm stack n = Ok (Some children) -> forall o,
  o ∈ map nr_node children <-> object_of (nr_node n) o.
Proof.
  unfold children_of. intros (r & V & E)%rbind_ok o. destruct r as [o'|].
  - injection E as <-. cbn. rewrite list_elem_of_singleton. split.
    + intros ->. by apply object_value.
    + intros H. inversion H; congruence.
  - apply rbind_ok in E as ([a|] & A & E); [| done].
    destruct (Nat.eqb _ 0); [done |]. apply rbind_ok in E as (cs & C & [= <-]).
    rewrite (object_elements_in _ _ C). split.
    + intros (e & I & W). by eapply object_element.
    + intros H. inversion H; subst; [congruence |]. replace a0 with a in * by congruence. eauto.
Qed.

Lemma no_children n : children_of sm stack n = Ok None -> forall o, ~ object_of (nr_node n) o.
Proof.
  unfold children_of. intros (r & V & E)%rbind_ok o H. destruct r as [o'|]; [done |].
  apply rbind_ok in E as ([a|] & A & E).
  - destruct (Nat.eqb _ 0) eqn:L.
    + inversion H; subst; [congruence |]. replace a0 with a in * by congruence.
      apply Nat.eqb_eq, nil_length_inv in L. unfold elements in *. rewrite L in *. cbn in *.
      by match goal with I : _ ∈ [] |- _ => apply elem_of_nil in I end.
    + apply rbind_ok in E as (cs & _ & ?). done.
  - inversion H; subst; congruence.
Qed.

Section Child.

Context (silent needsProp : bool) (messageId : string) (n : NodeAndReport) (propertyName : string)
  (next : NodeAndReport -> node -> check (list NodeAndReport)) (child : NodeAndReport)
  (reports : list Report) (found_ : list NodeAndReport)
  (E : traverse_child sm parents stack silent needsProp messageId n propertyName next child = Ok (reports, inl found_)).

Lemma child_found p : propertyOf sm parents stack (nr_node child) propertyName = Ok (PFound p) ->
  exists reports', next child p = Ok (reports', inl found_).
Proof.
  intros P. apply cbind_value in E as (r & a & r' & [A _]%clift_value & K & _).
  rewrite P in A. injection A as <-. eauto.
Qed.

Lemma child_missing : (forall p, propertyOf sm parents stack (nr_node child) propertyName <> Ok (PFound p)) ->
  found_ = [].
Proof.
  intros P. apply cbind_value in E as (r & a & r' & [A _]%clift_value & K & _).
  destruct a as [p| | |]; [by destruct (P p) | | by apply cret_value in K as [<- _]..].
  destruct needsProp; [| by apply cret_value in K as [<- _]].
  apply cbind_value in K as (? & ? & ? & _ & [<- _]%cret_value & _). done.
Qed.

End Child.

Lemma in_concat_map {A B} (f : A -> B) (l : list (list A)) y : y ∈ map f (concat l) <-> exists x, x ∈ l /\ y ∈ map f x.
Proof.
  rewrite concat_map, list_elem_of_In, in_concat. setoid_rewrite in_map_iff. setoid_rewrite list_elem_of_In.
  setoid_rewrite in_map_iff. split.
  - intros (? & (x & <- & Ix) & I). apply in_map_iff in I as (z & <- & Iz). eauto 6.
  - intros (x & Ix & z & <- & Iz). eexists. split; [eauto |]. apply in_map_iff. eauto.
Qed.

(** The properties found below the children of a node, when those below one property are
    in the relation [R] with it. *)
Lemma children_step silent needsProp messageId n propertyName next children lists (R : node -> node -> Prop) :
  children_of sm stack n = Ok (Some children) ->
  Forall2 (fun child found_ => exists reports,
    traverse_child sm parents stack silent needsProp messageId n propertyName next child = Ok (reports, inl found_))
    children lists ->
  (forall child q reports found_ p, next child q = Ok (reports, inl found_) -> p ∈ map nr_node found_ <-> R q p) ->
  forall p, p ∈ map nr_node (concat lists) <->
    exists o q, object_of (nr_node n) o /\ propertyOf sm parents stack o propertyName = Ok (PFound q) /\ R q p.
Proof.
  intros C F N p. setoid_rewrite <- (children_in _ _ C). rewrite in_concat_map. split.
  - intros (x & (i & Ix)%list_elem_of_lookup & Ip).
    destruct (Forall2_lookup_r _ _ _ _ _ F Ix) as (child & Ic & rs & T). exists (nr_node child).
    destruct (propertyOf sm parents stack (nr_node child) propertyName) as [[q| | |]|] eqn:P;
      try (rewrite (child_missing _ _ _ _ _ _ _ _ _ T) in Ip by congruence; cbn in Ip; by apply elem_of_nil in Ip).
    destruct (child_found _ _ _ _ _ _ _ _ _ T q P) as (rs' & K). exists q. rewrite <- (N _ _ _ _ _ K).
    split; [| done]. apply list_elem_of_fmap. exists child. split; [done |]. by eapply list_elem_of_lookup_2.
  - intros (o & q & (child & -> & (i & Ic)%list_elem_of_lookup)%list_elem_of_fmap & P & Rq).
    destruct (Forall2_lookup_l _ _ _ _ _ F Ic) as (x & Ix & rs & T).
    destruct (child_found _ _ _ _ _ _ _ _ _ T q P) as (rs' & K).
    exists x. split; [by eapply list_elem_of_lookup_2 |]. by rewrite (N _ _ _ _ _ K).
Qed.

Lemma at_path_last n k p : at_path n k [] p <->
  isUnresolved sm (Some n) = false /\
  exists o q, object_of n o /\ propertyOf sm parents stack o k = Ok (PFound q) /\ p = q.
Proof.
  split.
  - intros H. inversion H; subst. eauto 7.
  - intros (U & o & q & O & P & ->). by eapply at_last.
Qed.

Lemma at_path_next n k k' rest p : at_path n k (k' :: rest) p <->
  isUnresolved sm (Some n) = false /\
  exists o q, object_of n o /\ propertyOf sm parents stack o k = Ok (PFound q) /\
    exists v, get_node q "value" = Some v /\ at_path v k' rest p.
Proof.
  split.
  - intros H. inversion H; subst. eauto 10.
  - intros (U & o & q & O & P & v & G & N). by eapply at_next.
Qed.

(** No property is found where there is no object. *)
Lemma nothing_found silent (needsProp : bool) messageId n reports properties :
  (if needsProp then let@ _ := conflict silent messageId n in cret (@nil NodeAndReport) else cret [])
  = Ok (reports, inl properties) -> properties = [].
Proof.
  destruct needsProp.
  - by intros (? & ? & ? & _ & [<- _]%cret_value & _)%cbind_value.
  - by intros [<- _]%cret_value.
Qed.

(** C31: Where [traverseProperties] returns properties, in either mode, they are exactly
    those at the end of the path of names: from the object a node stands for, or from
    each object of the array it stands for, through unique writes, no node on the way
    being unresolved. *)
Theorem properties_found_are_on_path silent needsProp messageId nextElements : forall n propertyName reports properties,
  traverseProperties silent needsProp messageId n propertyName nextElements = Ok (reports, inl properties) ->
  forall p, p ∈ map nr_node properties <-> at_path (nr_node n) propertyName nextElements p.
Proof.
  induction nextElements as [|next rest IH]; intros n propertyName reports properties E p;
    rewrite ?at_path_last, ?at_path_next; cbn [Aws.traverseProperties] in E;
    (destruct (isUnresolved sm (Some (nr_node n)));
      [apply cret_value in E as [<- _]; cbn; rewrite elem_of_nil; naive_solver |]);
    apply cbind_value in E as (r & [children|] & r' & [C _]%clift_value & K & _).
  2,4: apply nothing_found in K as ->; pose proof (no_children _ C); cbn; rewrite elem_of_nil; naive_solver.
  all: apply cbind_value in K as (r1 & lists & r2 & F%cmap_values & [<- _]%cret_value & _).
  - rewrite (children_step _ _ _ _ _ _ _ _ (fun q p => p = q) C F); [naive_solver |].
    intros child q rs ys p' [<- _]%cret_value. cbn. by rewrite list_elem_of_singleton.
  - rewrite (children_step _ _ _ _ _ _ _ _ (fun q p => exists v, get_node q "value" = Some v /\ at_path v next rest p) C F);
      [naive_solver |].
    intros child q rs ys p' (? & v & ? & [V _]%clift_value & M & _)%cbind_value.
    unfold node_at in V. destruct (get_node q "value") as [v'|] eqn:G; [injection V as -> | done].
    rewrite (IH _ _ _ _ M). naive_solver.
Qed.
End Checks.

(** ** Literal objects *)

Definition plain (type : string) (props : list (string * value)) : node := Node (mkHeader 0 type None None) props.
Definition text_node (s : string) : node := plain "Literal" [("value", VStr s)].
Definition property_node (kv : string * node) : node :=
  plain "Property" [("key", VNode (plain "Identifier" [("name", VStr kv.1)])); ("value", VNode kv.2)].
Definition object_node (fields : list (string * node)) : node :=
  plain "ObjectExpression" [("properties", VArr (map (fun kv => VNode (property_node kv)) fields))].
Definition array_node (l : list node) : node := plain "ArrayExpression" [("elements", VArr (map VNode l))].

(** The field of an object, when it has one. *)
Definition field (k : string) (v : option node) : list (string * node) :=
  match v with Some v => [(k, v)] | None => [] end.

(** A node that is not a name. *)
Definition not_name (n : node) : Prop := type_of n <> "Identifier".

Section Literals.

Context (sm : ScopeManager) (parents : node -> list node) (depth : nat).

Lemma omap_nodes l : omap as_node (map VNode l) = l.
Proof. induction l as [|n l IH]; [done |]. change (n :: omap as_node (map VNode l) = n :: l). by rewrite IH. Qed.

Lemma find_field k fields :
  List.find (fun p => isPropertyWithKey p k) (map property_node fields)
  = (fun v => property_node (k, v)) <$> map_get k fields.
Proof.
  induction fields as [|[k' v] fields IH]; [done |]. cbn [map List.find map_get].
  assert (isPropertyWithKey (property_node (k', v)) k = (k =s k')) as ->.
  { unfold isPropertyWithKey. cbn. by rewrite !orb_false_r. }
  destruct (decide (k = k')) as [->|N]; [by rewrite String.eqb_refl |].
  apply String.eqb_neq in N. by rewrite N.
Qed.

(** The property of a literal object: the last with the key. *)
Lemma propertyOf_object fields k :
  propertyOf sm parents (S depth) (object_node fields) k
  = Ok match map_get k (rev fields) with Some v => PFound (property_node (k, v)) | None => PNull end.
Proof.
  unfold propertyOf.
  assert (getProperty sm parents (S depth) (Some (object_node fields)) k
          = match map_get k (rev fields) with Some v => PFound (property_node (k, v)) | None => PNull end) as ->.
  2: by destruct (map_get k (rev fields)).
  assert (get_nodes (object_node fields) "properties" = map property_node fields) as G.
  { unfold get_nodes. change (get_array (object_node fields) "properties") with (map (fun kv => VNode (property_node kv)) fields).
    rewrite <- (omap_nodes (map property_node fields)). f_equal. by rewrite map_map. }
  change (getProperty_loop sm parents (fun props k => getProperty sm parents depth (Some props) k)
            (rev (get_nodes (object_node fields) "properties")) k false
          = match map_get k (rev fields) with Some v => PFound (property_node (k, v)) | None => PNull end).
  rewrite G, <- map_rev, getProperty_loop_find.
  - rewrite find_field. by destruct (map_get k (rev fields)).
  - unfold no_spread. apply forallb_forall. intros p (kv & <- & _)%in_map_iff. done.
Qed.

Lemma uniqueWrite_node n recursive : not_name n -> uniqueWriteOrNode sm (S depth) n recursive = Ok n.
Proof.
  intros N. unfold uniqueWriteOrNode. cbn [getUniqueWriteUsageOrNode].
  apply String.eqb_neq in N. by rewrite N.
Qed.

Lemma result_of_node n : not_name n -> getResultOfExpression sm (S depth) n = Ok (mkResult n found).
Proof.
  intros N. unfold getResultOfExpression. rewrite uniqueWrite_node by done. cbn [rbind].
  assert (isUndefined n = false) as ->; [| done].
  unfold isUndefined, identifier_named. apply String.eqb_neq in N. by rewrite N.
Qed.

(** The result for a field of a literal object. *)
Lemma property_of_literal fields k : (forall v, map_get k (rev fields) = Some v -> not_name v) ->
  getPropertyResult sm parents (S depth) (mkResult (object_node fields) found) k
  = Ok match map_get k (rev fields) with Some v => mkResult v found | None => mkResult (object_node fields) missing end.
Proof.
  intros N. unfold getPropertyResult. cbn [isFound r_status negb r_node].
  change (type_of (object_node fields) =s "ObjectExpression") with true. cbn [negb].
  rewrite propertyOf_object. cbn [rbind].
  destruct (map_get k (rev fields)) as [v|]; [| done]. cbn. by rewrite result_of_node by auto.
Qed.

Lemma string_elements_texts l : string_elements sm (S depth) (map (fun s => Some (text_node s)) l) = Ok (map text_node l).
Proof.
  induction l as [|s l IH]; [done |]. cbn [map string_elements].
  rewrite result_of_node by done. cbn [rbind]. rewrite IH. done.
Qed.

Lemma every_element_texts closure l :
  every_element sm (S depth) closure (map (fun s => Some (text_node s)) l) = Ok (forallb (fun s => closure (text_node s)) l).
Proof.
  induction l as [|s l IH]; [done |]. cbn [map every_element forallb].
  rewrite result_of_node by done. cbn [rbind r_node isFound r_status].
  change (isStringLiteral (text_node s)) with true. cbn [andb]. destruct (closure (text_node s)); [exact IH | done].
Qed.

End Literals.

Lemma elements_of_array l : elements (array_node l) = map Some l.
Proof. unfold elements. change (get_array (array_node l) "elements") with (map VNode l). rewrite map_map. done. Qed.

Lemma rev_field k v : rev (field k v) = field k v.
Proof. by destruct v. Qed.

Lemma get_field k k' v rest : map_get k (field k' v ++ rest) = if decide (k = k') then match v with Some v => Some v | None => map_get k rest end else map_get k rest.
Proof. destruct v; cbn; by destruct (decide (k = k')). Qed.

(** ** Witnesses *)

Module AwsExample.

(** [new C(this, { sub: \[{ kind: 'open' }, {}\] })], the options being the third argument. *)
Definition inner_object : node := object_node [("kind", text_node "open")].

Definition options : node := object_node [("sub", array_node [inner_object; object_node []])].

Definition construct : node :=
  plain "NewExpression" [("callee", VNode (plain "Identifier" [("name", VStr "C")]));
    ("arguments", VArr (map VNode [plain "ThisExpression" []; text_node "id"; options]))].

(** [{ primitives: { invalid: \['open'\] } }] *)
Definition closed_only : ValuesByType := mkValuesByType (Some (mkValues _ [] [VStr "open"] false)) None None.

Lemma silent_check_returns_first_report_witness :
  let silently := AwsCdkCheckArguments AstExample.copies (fun _ => []) 3 (Messages "omitted" "invalid") true
                    "sub" ["kind"] closed_only true 2 construct in
  reported_by silently = Ok [] /\ returned_by silently = Ok (Some (array_node [inner_object; object_node []])).
Proof.
  exact (silent_check_returns_first_report AstExample.copies (fun _ => []) 3 (Messages "omitted" "invalid") true
    "sub" ["kind"] closed_only 2 construct
    [plain_report "omitted" (array_node [inner_object; object_node []]); plain_report "invalid" (text_node "open")]
    eq_refl).
Defined.

Lemma properties_found_are_on_path_witness :
  property_node ("kind", text_node "open") ∈ map nr_node
    [mkNodeAndReport (property_node ("kind", text_node "open")) (property_node ("kind", text_node "open"))] <->
  at_path AstExample.copies (fun _ => []) 3 options "sub" ["kind"] (property_node ("kind", text_node "open")).
Proof.
  exact (properties_found_are_on_path AstExample.copies (fun _ => []) 3 false false "omitted" ["kind"]
    (mkNodeAndReport options options) "sub" []
    [mkNodeAndReport (property_node ("kind", text_node "open")) (property_node ("kind", text_node "open"))] eq_refl
    (property_node ("kind", text_node "open"))).
Defined.

End AwsExample.
