(* ===== verification/AwsRules.v ===== *)
(** * AwsRules: the rules on AWS constructs

    The rules on buckets (S6245, S6249, S6252, S6265, S6281), on policies (S6270, S6302,
    S6304, S6317), on the options of constructs (S6275, S6303, S6308, S6319, S6327, S6329,
    S6330, S6332), on network access (S6321) and on public interfaces (S6333), each as
    its callbacks for the templates of [Aws]. S6333 keeps a map of default values, the
    others only report. *)

From Stdlib Require Import ZArith QArith Qround Lia Ascii.
From stdpp Require Import base list sets strings.
From S2P Require Import Prelude JsString Json JsNumber Estree Ast Modules Decorators Aws.

Open Scope js_scope.

Section Rules.

Context (sm : ScopeManager) (parents : node -> list node) (stack : nat).

Notation fullName := (fullName sm).
Notation normalizedName := (normalizedName sm).
Notation valueOfExpression := (valueOfExpression sm stack).
Notation uniqueWriteOrNode := (uniqueWriteOrNode sm stack).
Notation propertyOf := (propertyOf sm parents stack).
Notation isUnresolved := (isUnresolved sm).
Notation getResultOfExpression := (getResultOfExpression sm stack).
Notation getArgument := (getArgument sm stack).
Notation getPropertyResult := (getPropertyResult sm parents stack).
Notation asStringLiterals := (asStringLiterals sm stack).
Notation getBucketProperty := (getBucketProperty sm stack).
Notation findPropagatedSetting := (findPropagatedSetting parents).
Notation S3BucketTemplate := (S3BucketTemplate sm).
Notation getSensitiveEffect := (getSensitiveEffect sm parents stack).
Notation AwsIamPolicyTemplate := (AwsIamPolicyTemplate sm parents stack).
Notation checkArguments := (checkArguments sm parents stack).

Definition reports_of := eval (list Report).

(** [report(context, { message, node }, secondaries)] *)
Definition report_with (message : string) (n : node) (secondaries : list (node * string)) : reports_of :=
  Ok [mkReport message [] n secondaries].

Definition report_at_callee (message : string) (call : node) : reports_of :=
  let! callee := node_at call "callee" in Ok [plain_report message callee].

(** The value of a property, when a node of that type is written there. *)
Definition property_value (property : node) (type : string) : eval (option node) :=
  let! v := node_at property "value" in valueOfExpression (Some v) type false.

Definition has_literal (literal : option node) (b : bool) : bool :=
  match literal with Some l => match get l "value" with VBool c => Bool.eqb b c | _ => false end | None => false end.

Definition in_quotes (text : string) : string := (bytes [34%nat] +:+ text +:+ bytes [34%nat])%string.

(** ** Buckets *)

Section S6245.

Definition encryption_omitted : string :=
  ("Omitting " +:+ in_quotes "encryption" +:+ " disables server-side encryption. Make sure it is safe here.")%string.

Definition encryption_unencrypted : string := "Objects in the bucket are not encrypted. Make sure it is safe here.".

Definition isUnencrypted (encrypted : node) : bool :=
  name_is (normalizedName encrypted) "aws_cdk_lib.aws_s3.BucketEncryption.UNENCRYPTED".

Definition check_encryption (bucket : node) : reports_of :=
  let! encryptedProperty := getBucketProperty bucket "encryption" in
  match encryptedProperty with
  | None => report_at_callee encryption_omitted bucket
  | Some p =>
      let! encryptedValue := property_value p "MemberExpression" in
      match encryptedValue with
      | Some v =>
          if isUnencrypted v
          then let! propagated := findPropagatedSetting p v in report_with encryption_unencrypted p propagated
          else Ok []
      | None => Ok []
      end
  end.

Definition S6245 : node -> reports_of := S3BucketTemplate check_encryption.

End S6245.

Definition check_ssl (bucket : node) : reports_of :=
  let! enforceSSLProperty := getBucketProperty bucket "enforceSSL" in
  match enforceSSLProperty with
  | None => report_at_callee "Omitting 'enforceSSL' authorizes HTTP requests. Make sure it is safe here." bucket
  | Some p =>
      let! enforceSSLValue := property_value p "Literal" in
      if has_literal enforceSSLValue false then report_with "Make sure authorizing HTTP requests is safe here." p [] else Ok []
  end.

Definition S6249 : node -> reports_of := S3BucketTemplate check_ssl.

Definition versioned_omitted : string :=
  ("Omitting the " +:+ in_quotes "versioned" +:+ " argument disables S3 bucket versioning. Make sure it is safe here.")%string.

Definition check_versioning (bucketConstructor : node) : reports_of :=
  let! versionedProperty := getBucketProperty bucketConstructor "versioned" in
  match versionedProperty with
  | None => report_at_callee versioned_omitted bucketConstructor
  | Some p =>
      let! propertyLiteralValue := property_value p "Literal" in
      match propertyLiteralValue with
      | Some l =>
          if has_literal (Some l) false then
            let! v := node_at p "value" in
            let! secondaries :=
              if same_node v l then Ok []
              else let! parent := of_option TypeError (parent_of parents l) in Ok [(parent, "Propagated setting")] in
            report_with "Make sure using unversioned S3 bucket is safe here." p secondaries
          else Ok []
      | None => Ok []
      end
  end.

Definition S6252 : node -> reports_of := S3BucketTemplate check_versioning.

Section S6265.

Definition unrestricted : string :=
  "Make sure allowing unrestricted access to objects from this bucket is safe here.".

Definition INVALID_ACCESS_CONTROL_VALUES : list string :=
  ["PUBLIC_READ"; "PUBLIC_READ_WRITE"; "AUTHENTICATED_READ"].

Definition checkBooleanParam (bucketConstructor : node) (propName : string) (propValue : bool) : reports_of :=
  let! property := getBucketProperty bucketConstructor propName in
  match property with
  | None => Ok []
  | Some p =>
      let! propertyLiteralValue := property_value p "Literal" in
      match propertyLiteralValue with
      | Some l =>
          if has_literal (Some l) propValue
          then let! secondary := findPropagatedSetting p l in report_with unrestricted p secondary
          else Ok []
      | None => Ok []
      end
  end.

(** [paramQualifiers] is the class and the name of a constant. *)
Definition checkConstantParam (bucketConstructor : node) (propName : string) (paramQualifiers : string * string)
  : reports_of :=
  let! property := getBucketProperty bucketConstructor propName in
  match property with
  | None => Ok []
  | Some p =>
      let! propertyLiteralValue := property_value p "MemberExpression" in
      match propertyLiteralValue with
      | Some v =>
          if name_is (normalizedName v) ("aws_cdk_lib.aws_s3." +:+ paramQualifiers.1 +:+ "." +:+ paramQualifiers.2)%string
          then let! secondary := findPropagatedSetting p v in
               report_with ("Make sure granting " +:+ paramQualifiers.2 +:+ " access is safe here.")%string p secondary
          else Ok []
      | None => Ok []
      end
  end.

Definition check_access_control (n : node) : reports_of :=
  let! reports := rmap_list (fun v => checkConstantParam n "accessControl" ("BucketAccessControl", v))
                    INVALID_ACCESS_CONTROL_VALUES in
  Ok (concat reports).

Definition s3BucketConstructorRule : node -> reports_of := S3BucketTemplate (fun bucketConstructor =>
  let! access := check_access_control bucketConstructor in
  let! read := checkBooleanParam bucketConstructor "publicReadAccess" true in
  Ok (access ++ read)).

Definition s3BucketDeploymentConstructorRule (n : node) : reports_of :=
  if isS3BucketDeploymentConstructor sm n then check_access_control n else Ok [].

Definition handleGrantPublicAccess (n : node) : reports_of :=
  if negb (isMethodCall n) then Ok []
  else
    let! callee := node_at n "callee" in
    let! object := node_at callee "object" in
    let! property := node_at callee "property" in
    if negb (isIdentifier (Some property) ["grantPublicAccess"]) then Ok []
    else
      let! variableAssignment := uniqueWriteOrNode object false in
      if (type_of variableAssignment =s "NewExpression") && isS3BucketConstructor sm variableAssignment
      then report_with unrestricted property [] else Ok [].

(** A listener that adds its reports to those there are. *)
Definition listen (f : node -> reports_of) : Listener reports_of :=
  fun n s => let! l := s in let! l' := f n in Ok (l ++ l').

Definition S6265 : RuleListener reports_of :=
  mergeRules [[("NewExpression", listen s3BucketConstructorRule)];
              [("NewExpression", listen s3BucketDeploymentConstructorRule)];
              [("CallExpression", listen handleGrantPublicAccess)]].

End S6265.

Section S6281.

Definition block_omitted : string :=
  "No Public Access Block configuration prevents public ACL/policies to be set on this S3 bucket. Make sure it is safe here.".

Definition block_public : string := "Make sure allowing public ACL/policies to be set is safe here.".

Definition BLOCK_PUBLIC_ACCESS_PROPERTY_KEYS : list string :=
  ["blockPublicAcls"; "blockPublicPolicy"; "ignorePublicAcls"; "restrictPublicBuckets"].

Definition checkBlockPublicAccessValue (blockPublicAccess : node) : reports_of :=
  let! member := property_value blockPublicAccess "MemberExpression" in
  match member with
  | Some v =>
      if name_is (normalizedName v) "aws_cdk_lib.aws_s3.BlockPublicAccess.BLOCK_ACLS"
      then let! propagated := findPropagatedSetting blockPublicAccess v in report_with block_public blockPublicAccess propagated
      else Ok []
  | None => Ok []
  end.

Definition isS3BlockPublicAccessConstructor (expr : node) : bool :=
  match get_node expr "callee" with
  | Some callee => (type_of callee =s "MemberExpression")
                   && name_is (normalizedName callee) "aws_cdk_lib.aws_s3.BlockPublicAccess"
  | None => false
  end.

Definition checkBlockPublicAccessConstructorProperty (config : node) (key : string) : reports_of :=
  match find_property config key with
  | Some p =>
      let! v := property_value p "Literal" in
      match v with
      | Some l =>
          if has_literal (Some l) false
          then let! propagated := findPropagatedSetting p l in report_with block_public p propagated
          else Ok []
      | None => Ok []
      end
  | None => Ok []
  end.

Definition checkBlockPublicAccessConstructor (blockPublicAccess : node) : reports_of :=
  let! blockPublicAccessNew := property_value blockPublicAccess "NewExpression" in
  match blockPublicAccessNew with
  | Some new =>
      if isS3BlockPublicAccessConstructor new then
        let! config := valueOfExpression (argument_at new 0) "ObjectExpression" false in
        match config with
        | None => report_with block_omitted new []
        | Some config =>
            let! reports := rmap_list (checkBlockPublicAccessConstructorProperty config) BLOCK_PUBLIC_ACCESS_PROPERTY_KEYS in
            Ok (concat reports)
        end
      else Ok []
  | None => Ok []
  end.

Definition check_public_access (bucket : node) : reports_of :=
  let! blockPublicAccess := getBucketProperty bucket "blockPublicAccess" in
  match blockPublicAccess with
  | None => report_at_callee block_omitted bucket
  | Some p =>
      let! l := checkBlockPublicAccessValue p in
      let! l' := checkBlockPublicAccessConstructor p in
      Ok (l ++ l')
  end.

Definition S6281 : node -> reports_of := S3BucketTemplate check_public_access.

End S6281.

(** ** Policies *)

(** The end of the checks of statements: a report when the statement allows, with the
    effect as a secondary location when it is written. *)
Definition report_sensitive (message : string) (effect : Result_) (sensitive : option node) : list Report :=
  match sensitive with
  | Some n =>
      if isMissing effect then [plain_report message n]
      else if isFound effect then [mkReport message [] n [(r_node effect, "Related effect")]]
      else []
  | None => []
  end.

Section S6270.

Definition getPrincipalNewExpressions (n : node) : list node :=
  if isArrayExpression (Some n)
  then List.filter (fun e => type_of e =s "NewExpression") (get_nodes n "elements") else [].

(** [isStringLiteral(argument) && isAnyLiteral(argument)]; the class of the principal is
    not looked at. *)
Definition is_any_argument (argument : option node) : bool :=
  match argument with Some a => isStringLiteral a && isAnyLiteral a | None => false end.

Definition isSensitivePrincipalNewExpression (options : PolicyCheckerOptions) (newExpression : node) : eval bool :=
  rexists (fun anyValue =>
    if anyValue =s ARN_PRINCIPAL then Ok (is_any_argument (argument_at newExpression 0))
    else let! callee := node_at newExpression "callee" in Ok (name_is (normalizedName callee) anyValue))
    (principals_anyValues options).

Fixpoint rfind {A} (f : A -> eval bool) (l : list A) : eval (option A) :=
  match l with
  | [] => Ok None
  | x :: rest => let! b := f x in if b then Ok (Some x) else rfind f rest
  end.

Definition getPrincipalLiterals (n : node) : eval (list node) :=
  if isStringLiteral n then Ok [n]
  else
    let! r := getResultOfExpression n in
    let! aws := getPropertyResult r "AWS" in
    asStringLiterals aws.

Definition getSensitivePrincipal (properties : Result_) (options : PolicyCheckerOptions) : eval (option node) :=
  let! principal := getPropertyResult properties (principals_property options) in
  if negb (isFound principal) then Ok None
  else match principals_kind options with
       | PrincipalNames => rfind (isSensitivePrincipalNewExpression options) (getPrincipalNewExpressions (r_node principal))
       | PrincipalJson =>
           let! literals := getPrincipalLiterals (r_node principal) in Ok (List.find isAnyLiteral literals)
       end.

Definition publicAccessStatementChecker : StatementChecker := fun expr options =>
  let! properties := getResultOfExpression expr in
  let! effect := getSensitiveEffect properties options in
  let! principal := getSensitivePrincipal properties options in
  Ok (report_sensitive "Make sure granting public access is safe here." effect principal).

Definition S6270 : AwsCdkConsumerMap := AwsIamPolicyTemplate publicAccessStatementChecker.

End S6270.

(** The texts of a property, and the first that is sensitive. *)
Definition find_literal (properties : Result_) (propertyName : string) (sensitive : node -> bool) : eval (option node) :=
  let! r := getPropertyResult properties propertyName in
  let! literals := asStringLiterals r in
  Ok (List.find sensitive literals).

Definition allPrivilegesStatementChecker : StatementChecker := fun expr options =>
  let! properties := getResultOfExpression expr in
  let! effect := getSensitiveEffect properties options in
  let! action := find_literal properties (actions_property options) isAnyLiteral in
  Ok (report_sensitive "Make sure granting all privileges is safe here." effect action).

Definition S6302 : AwsCdkConsumerMap := AwsIamPolicyTemplate allPrivilegesStatementChecker.

Section S6304.

Definition isKmsAction (action : node) : bool := startsWith "kms:" (literal_text action).

Definition isException (properties : Result_) (options : PolicyCheckerOptions) : eval bool :=
  let! actions := getPropertyResult properties (actions_property options) in
  everyStringLiteral sm stack actions isKmsAction.

Definition allResourcesAccessibleStatementCheck : StatementChecker := fun expr options =>
  let! properties := getResultOfExpression expr in
  let! effect := getSensitiveEffect properties options in
  let! resource := find_literal properties (resources_property options) isAnyLiteral in
  let! exception := isException properties options in
  Ok (if exception then []
      else report_sensitive "Make sure granting access to all resources is safe here." effect resource).

Definition S6304 : AwsCdkConsumerMap := AwsIamPolicyTemplate allResourcesAccessibleStatementCheck.

End S6304.

Section S6317.

Definition SENSITIVE_ACTIONS : list string :=
  ["cloudformation:CreateStack"; "datapipeline:CreatePipeline"; "datapipeline:PutPipelineDefinition";
   "ec2:RunInstances"; "glue:CreateDevEndpoint"; "glue:UpdateDevEndpoint"; "iam:AddUserToGroup";
   "iam:AttachGroupPolicy"; "iam:AttachRolePolicy"; "iam:AttachUserPolicy"; "iam:CreateAccessKey";
   "iam:CreateLoginProfile"; "iam:CreatePolicyVersion"; "iam:PassRole"; "iam:PutGroupPolicy";
   "iam:PutRolePolicy"; "iam:PutUserPolicy"; "iam:SetDefaultPolicyVersion"; "iam:UpdateAssumeRolePolicy";
   "iam:UpdateLoginProfile"; "lambda:AddPermission"; "lambda:CreateEventSourceMapping";
   "lambda:CreateFunction"; "lambda:InvokeFunction"; "lambda:UpdateFunctionCode"; "sts:AssumeRole"].

(** The texts that the expression [SENSITIVE_RESOURCE] matches: a star, or [arn] and five parts
    between colons, the last one of which is all the roles, users or groups. *)
Definition SENSITIVE_RESOURCE (text : string) : bool :=
  (text =s "*")
  || match split_char ":"%char text with
     | [arn; _; _; _; _; last] => (arn =s "arn") && includes last ["role/*"; "user/*"; "group/*"]
     | _ => false
     end.

Definition isSensitiveAction (action : node) : bool := includes (literal_text action) SENSITIVE_ACTIONS.
Definition isSensitiveResource (resource : node) : bool := SENSITIVE_RESOURCE (literal_text resource).

Definition hasExceptionProperties (properties : Result_) (options : PolicyCheckerOptions) : eval bool :=
  rexists (fun prop => let! r := getPropertyResult properties prop in Ok (negb (isMissing r)))
    [principals_property options; conditions_property options].

Definition privilege_message (attackVectorName : string) : string :=
  ("This policy is vulnerable to the " +:+ in_quotes attackVectorName +:+
   " privilege escalation vector. Remove permissions or restrict the set of resources they apply to.")%string.

Definition privilegeEscalationStatementChecker : StatementChecker := fun expr options =>
  let! properties := getResultOfExpression expr in
  let! effect := getSensitiveEffect properties options in
  let! resource := find_literal properties (resources_property options) isSensitiveResource in
  let! action := find_literal properties (actions_property options) isSensitiveAction in
  let! exception := hasExceptionProperties properties options in
  Ok match resource, action with
     | Some resource, Some action =>
         if negb exception && (isFound effect || isMissing effect)
         then [mkReport (privilege_message (literal_text action)) [] resource
                 [(action, "Permissions are granted on all resources.")]]
         else []
     | _, _ => []
     end.

Definition S6317 : AwsCdkConsumerMap := AwsIamPolicyTemplate privilegeEscalationStatementChecker.

End S6317.

(** ** Options of constructs *)

Definition primitive_values (l : list value) : option (Values value) := Some (mkValues _ [] l false).
Definition name_values (l : list string) : option (Values string) := Some (mkValues _ [] l false).

Definition S6275 : AwsCdkConsumerMap :=
  [("aws-cdk-lib.aws-ec2.Volume",
    checkArguments (Messages "encryptionOmitted" "encryptionDisabled") true "encrypted" []
      (mkValuesByType (primitive_values [VBool false]) None None))].

Definition S6319 : AwsCdkConsumerMap :=
  [("aws-cdk-lib.aws_sagemaker.CfnNotebookInstance",
    checkArguments (OneMessage "CfnNotebookInstance") true "kmsKeyId" [] no_values)].

Definition S6327 : AwsCdkConsumerMap :=
  [("aws-cdk-lib.aws_sns.Topic", checkArguments (OneMessage "SNSTopic") true "masterKey" [] no_values);
   ("aws-cdk-lib.aws_sns.CfnTopic", checkArguments (OneMessage "SNSCfnTopic") true "kmsMasterKeyId" [] no_values)].

Definition S6330 : AwsCdkConsumerMap :=
  [("aws-cdk-lib.aws-sqs.Queue",
    checkArguments (Messages "OmittedQueue" "DisabledQueue") true "encryption" []
      (mkValuesByType None (name_values ["aws-cdk-lib.aws-sqs.QueueEncryption.UNENCRYPTED"]) None));
   ("aws-cdk-lib.aws-sqs.CfnQueue", checkArguments (OneMessage "CfnQueue") true "kmsMasterKeyId" [] no_values)].

Definition S6332 : AwsCdkConsumerMap :=
  [("aws-cdk-lib.aws_efs.FileSystem",
    checkArguments (OneMessage "FSEncryptionDisabled") false "encrypted" []
      (mkValuesByType (primitive_values [VBool false]) None None));
   ("aws-cdk-lib.aws_efs.CfnFileSystem",
    checkArguments (Messages "CFSEncryptionOmitted" "CFSEncryptionDisabled") true "encrypted" []
      (mkValuesByType (Some (mkValues _ [VBool true] [] false)) None None))].

(** A consumer that only reports. *)
Definition on_new (f : node -> reports_of) : @AwsCdkConsumer (list Report) := OnNew (reporting f).

Section S6303.

Definition storages_with_key : list string :=
  ["DatabaseCluster"; "DatabaseClusterFromSnapshot"; "DatabaseInstance"; "DatabaseInstanceReadReplica"].

Definition is_storage_exception (storage : string) (props : node) : eval bool :=
  if negb (includes storage storages_with_key) then Ok false
  else
    let! exceptionKey := propertyOf props "storageEncryptionKey" in
    match exceptionKey with
    | PFound key =>
        let! v := node_at key "value" in
        let! exceptionValue := uniqueWriteOrNode v false in
        if negb (type_of exceptionValue =s "NewExpression") then Ok false
        else
          let! callee := node_at exceptionValue "callee" in
          let fqn := normalizedName callee in
          Ok (name_is fqn "aws_cdk_lib.aws_kms.Key" || name_is fqn "aws_cdk_lib.aws_kms.Alias")
    | _ => Ok false
    end.

Definition is_unresolved_argument (n value : option node) : bool :=
  match n with
  | Some n => (type_of n =s "Identifier") && negb (isUndefined n) && match value with None => true | Some _ => false end
  | None => false
  end.

Definition checkStorage (storage : string) (expr : node) : reports_of :=
  let argument := argument_at expr 2 in
  let! props := valueOfExpression argument "ObjectExpression" false in
  if is_unresolved_argument argument props then Ok []
  else match props with
       | None => report_at_callee "omitted" expr
       | Some props =>
           let! exception := is_storage_exception storage props in
           if exception then Ok []
           else
             let! propertyKey := propertyOf props "storageEncrypted" in
             match propertyKey with
             | PNull => Ok [plain_report "omitted" props]
             | PFound key =>
                 let! v := node_at key "value" in
                 let! propertyValue := uniqueWriteOrNode v false in
                 Ok (if isFalseLiteral propertyValue then [plain_report "unsafe" v] else [])
             | _ => Ok []
             end
       end.

Definition S6303 : AwsCdkConsumerMap :=
  map (fun storage => ("aws-cdk-lib.aws_rds." +:+ storage, on_new (checkStorage storage))%string)
    ["CfnDBCluster"; "CfnDBInstance"; "DatabaseCluster"; "DatabaseClusterFromSnapshot"; "DatabaseInstance";
     "DatabaseInstanceReadReplica"].

End S6303.

Section S6308.

Inductive version_type := ElasticsearchVersion | EngineVersion | VersionString.

Record DomainCheckerOptions := mkDomainOptions {
  encryptionProperty : string;
  version_valueType : version_type;
  version_property : string;
  version_defaultValue : string
}.

Definition getSearchEngine (options : DomainCheckerOptions) (n : node) : option string :=
  let version :=
    match version_valueType options with
    | VersionString => if isStringLiteral n then Some (version_property options +:+ "." +:+ literal_text n)%string
                       else fullName n
    | _ => fullName n
    end in
  let parts := match version with Some v => rev (split_char "."%char (toLowerCase_ascii v)) | None => [] end in
  let engines := omap (fun name =>
    if string_includes "opensearch" name then Some "OpenSearch"
    else if string_includes "elasticsearch" name then Some "Elasticsearch" else None) parts in
  head engines.

Definition domainChecker (options : DomainCheckerOptions) (expr : node) : reports_of :=
  let! call := getResultOfExpression expr in
  let! argument := getArgument call 2 in
  let! encryption := getPropertyResult argument (encryptionProperty options) in
  let! version := getPropertyResult argument (version_property options) in
  let! isEnabled := getPropertyResult encryption "enabled" in
  let search := default (version_defaultValue options) (mapResult version (getSearchEngine options)) in
  Ok (if isMissing isEnabled then
        [mkReport "encryptionOmitted" [("encryptionPropertyName", encryptionProperty options); ("search", search)]
           (r_node isEnabled) []]
      else if isFound isEnabled && isBooleanLiteral (r_node isEnabled) && negb (truthy (get (r_node isEnabled) "value"))
      then [mkReport "encryptionDisabled" [("search", search)] (r_node isEnabled) []]
      else []).

Definition S6308 : AwsCdkConsumerMap :=
  [("aws-cdk-lib.aws-opensearchservice.Domain",
    on_new (domainChecker (mkDomainOptions "encryptionAtRest" EngineVersion "version" "OpenSearch")));
   ("aws-cdk-lib.aws-opensearchservice.CfnDomain",
    on_new (domainChecker (mkDomainOptions "encryptionAtRestOptions" VersionString "engineVersion" "OpenSearch")));
   ("aws-cdk-lib.aws-elasticsearch.Domain",
    on_new (domainChecker (mkDomainOptions "encryptionAtRest" ElasticsearchVersion "version" "Elasticsearch")));
   ("aws-cdk-lib.aws-elasticsearch.CfnDomain",
    on_new (domainChecker (mkDomainOptions "encryptionAtRestOptions" VersionString "elasticsearchVersion" "Elasticsearch")))].

End S6308.

Section S6329.

Definition PRIVATE_SUBNETS : list string :=
  ["aws_cdk_lib.aws_ec2.SubnetType.PRIVATE_ISOLATED"; "aws_cdk_lib.aws_ec2.SubnetType.PRIVATE_WITH_EGRESS";
   "aws_cdk_lib.aws_ec2.SubnetType.PRIVATE_WITH_NAT"].

Definition PUBLIC_SUBNET : string := "aws_cdk_lib.aws_ec2.SubnetType.PUBLIC".

Definition isPrivateSubnet (n : node) : bool := existsb (name_is (normalizedName n)) PRIVATE_SUBNETS.
Definition isPublicSubnet (n : node) : bool := name_is (normalizedName n) PUBLIC_SUBNET.

(** The loop [while (current.ofType('MemberExpression'))]: it has no bound. *)
Fixpoint member_objects (fuel : nat) (current : Result_) : eval Result_ :=
  match fuel with
  | O => Throw RangeError
  | S fuel' =>
      if ofType current "MemberExpression"
      then let! next := getMemberObject sm stack current in member_objects fuel' next
      else Ok current
  end.

Definition getSelectSubnetsCall (fuel : nat) (subnetId : Result_) : eval Result_ :=
  let! current := member_objects fuel subnetId in
  Ok (filterResult current (fun n => (type_of n =s "CallExpression") && isCallingMethod n 1 ["selectSubnets"])).

Definition isFoundPrivateSubnet (fuel : nat) (networkInterface : Result_) : eval bool :=
  let! subnetId := getPropertyResult networkInterface "subnetId" in
  let! selectSubnetsCall := getSelectSubnetsCall fuel subnetId in
  let! argument := getArgument selectSubnetsCall 0 in
  let! subnetType := getPropertyResult argument "subnetType" in
  Ok (isFound subnetType && isPrivateSubnet (r_node subnetType)).

Definition getSensitiveNetworkInterface (fuel : nat) (networkInterface : Result_) : eval (option Result_) :=
  let! address := getPropertyResult networkInterface "associatePublicIpAddress" in
  if isTrue address then
    let! private := isFoundPrivateSubnet fuel networkInterface in
    Ok (if private then None else Some address)
  else Ok None.

Definition checkCfnInstance (fuel : nat) (expr : node) : reports_of :=
  let! call := getResultOfExpression expr in
  let! properties := getArgument call 2 in
  let! networkInterfaces := getPropertyResult properties "networkInterfaces" in
  let! sensitive := findInArray sm stack networkInterfaces (getSensitiveNetworkInterface fuel) in
  Ok (if isFound sensitive then [plain_report "publicNetwork" (r_node sensitive)] else []).

Definition checkDatabaseInstance (expr : node) : reports_of :=
  let! call := getResultOfExpression expr in
  let! properties := getArgument call 2 in
  let! vpcSubnets := getPropertyResult properties "vpcSubnets" in
  let! subnetType := getPropertyResult vpcSubnets "subnetType" in
  let! publiclyAccessible := getPropertyResult properties "publiclyAccessible" in
  let private := isFound subnetType && isPrivateSubnet (r_node subnetType) in
  let public := isFound subnetType && isPublicSubnet (r_node subnetType) in
  Ok (if private then []
      else if isTrue publiclyAccessible && public then [plain_report "publicNetwork" (r_node publiclyAccessible)]
      else if negb (isFound publiclyAccessible) && public then [plain_report "publicNetwork" (r_node subnetType)]
      else []).

Definition S6329 (fuel : nat) : AwsCdkConsumerMap :=
  [("aws-cdk-lib.aws-ec2.Instance",
    checkArguments (OneMessage "publicNetwork") false "vpcSubnets" ["subnetType"]
      (mkValuesByType None (name_values [PUBLIC_SUBNET]) None));
   ("aws-cdk-lib.aws-ec2.CfnInstance", on_new (checkCfnInstance fuel));
   ("aws-cdk-lib.aws_rds.DatabaseInstance", on_new checkDatabaseInstance);
   ("aws-cdk-lib.aws_rds.CfnDBInstance",
    checkArguments (OneMessage "publicNetwork") false "publiclyAccessible" []
      (mkValuesByType (primitive_values [VBool true]) None None));
   ("aws-cdk-lib.aws_dms.CfnReplicationInstance",
    checkArguments (OneMessage "publicNetwork") true "publiclyAccessible" []
      (mkValuesByType (primitive_values [VBool true]) None None))].

End S6329.

(** ** Network access *)

Section S6321.

(** [String(n)] of a number that is not an integer below 10^21. *)
Variable number_text : Q -> string.

Definition TYPES_WITH_CONNECTIONS : list string := map (fun t => "aws_cdk_lib." +:+ t)%string
  ["aws_docdb.DatabaseCluster.connections"; "aws_lambdaPythonAlpha.PythonFunction.connections";
   "aws_batchAlpha.ComputeEnvironment.connections"; "aws_efs.FileSystem.connections";
   "aws_lambdaGoAlpha.GoFunction.connections"; "aws_ecs.ExternalService.connections";
   "aws_ecs.FargateService.connections"; "aws_ecs.Cluster.connections"; "aws_ecs.Ec2Service.connections";
   "aws_elasticsearch.Domain.connections"; "aws_neptuneAlpha.DatabaseCluster.connections";
   "aws_eks.FargateCluster.connections"; "aws_eks.Cluster.connections"; "aws_codebuild.PipelineProject.connections";
   "aws_codebuild.Project.connections"; "aws_rds.DatabaseInstance.connections";
   "aws_rds.DatabaseInstanceReadReplica.connections"; "aws_rds.DatabaseCluster.connections";
   "aws_rds.ServerlessClusterFromSnapshot.connections"; "aws_rds.DatabaseProxy.connections";
   "aws_rds.DatabaseInstanceFromSnapshot.connections"; "aws_rds.ServerlessCluster.connections";
   "aws_rds.DatabaseClusterFromSnapshot.connections"; "aws_lambdaNodejs.NodejsFunction.connections";
   "aws_fsx.LustreFileSystem.connections"; "aws_ec2.BastionHostLinux.connections";
   "aws_ec2.ClientVpnEndpoint.connections"; "aws_ec2.Instance.connections"; "aws_ec2.LaunchTemplate.connections";
   "aws_ec2.SecurityGroup.connections"; "aws_kinesisfirehoseAlpha.DeliveryStream.connections";
   "aws_stepfunctionsTasks.SageMakerCreateTrainingJob.connections";
   "aws_stepfunctionsTasks.SageMakerCreateModel.connections"; "aws_stepfunctionsTasks.EcsRunTask.connections";
   "aws_redshiftAlpha.Cluster.connections"; "aws_opensearchservice.Domain.connections";
   "aws_secretsmanager.HostedRotation.connections"; "aws_mskAlpha.Cluster.connections";
   "triggers.TriggerFunction.connections"; "aws_autoscaling.AutoScalingGroup.connections";
   "aws_syntheticsAlpha.Canary.connections"; "aws_cloudfront.experimental.EdgeFunction.connections";
   "aws_lambda.Function.connections"; "aws_lambda.DockerImageFunction.connections";
   "aws_lambda.SingletonFunction.connections"; "aws_lambda.Alias.connections"; "aws_lambda.Version.connections";
   "aws_ec2.Connections"].

Definition badPorts : list Z := [22; 3389]%Z.
Definition badIpsV4 : list string := ["0.0.0.0/0"].
Definition badIpsV6 : list string := ["::/0"].
Definition badFQNProtocols : list string := ["aws_cdk_lib.aws_ec2.Protocol.ALL"; "aws_cdk_lib.aws_ec2.Protocol.TCP"].
Definition badProtocols : list string := ["6"; "tcp"; "TCP"].

(** [v != null] *)
Definition present (v : value) : bool := match v with VUndefined | VNull => false | _ => true end.

(** [a <= b] on numbers, one of them finite. *)
Definition number_le (a b : jsnum) : bool :=
  match a, b with
  | NumNaN, _ | _, NumNaN => false
  | NumInfinity negative, _ => negative
  | _, NumInfinity negative => negb negative
  | NumQ x, NumQ y => Qle_bool x y
  end.

Definition port_number (port : Z) : jsnum := NumQ (inject_Z port).

Definition disallowedPort (startRange endRange : value) : bool :=
  if present startRange && present endRange
  then existsb (fun port => number_le (to_number startRange) (port_number port)
                            && number_le (port_number port) (to_number endRange)) badPorts
  else if present startRange
  then existsb (fun port => strictly_equal (VNum (port_number port)) startRange) badPorts
  else false.

Definition text_among (l : list string) (v : value) : bool :=
  match v with VStr s => negb (s =s "") && includes s l | _ => false end.

Definition disallowedIpV4 : value -> bool := text_among badIpsV4.
Definition disallowedIpV6 : value -> bool := text_among badIpsV6.
Definition disallowedProtocol : value -> bool := text_among badProtocols.

(** [literal?.value] *)
Definition value_of_literal (literal : option node) : value :=
  match literal with Some l => get l "value" | None => VUndefined end.

Definition getArgumentNode (n : node) (position : nat) : eval (option node) :=
  if isUndefined n || isUnresolved (Some n) then Ok None
  else
    let! callExpr := uniqueWriteOrNode n true in
    if isUnresolved (Some callExpr) || isUndefined callExpr
       || negb (includes (type_of callExpr) ["CallExpression"; "NewExpression"]) then Ok None
    else
      let! argument := Aws.of_option TypeError (argument_at callExpr position) in
      let! argumentValue := uniqueWriteOrNode argument true in
      Ok (if isUnresolved (Some argumentValue) || isUndefined argumentValue then None else Some argumentValue).

Definition getArgumentValue (n : node) (position : nat) : eval value :=
  let! argument := getArgumentNode n position in
  match argument with
  | Some a => let! literal := getLiteralValue sm stack a in Ok (value_of_literal literal)
  | None => Ok VUndefined
  end.

Definition getPropertyValue (object : node) (propertyName : string) : eval (option node) :=
  let! property := propertyOf object propertyName in
  match property with
  | PFound p =>
      let! v := node_at p "value" in
      let! propertyValue := uniqueWriteOrNode v true in
      if isUnresolved (Some propertyValue) || isUndefined propertyValue then Ok None
      else getLiteralValue sm stack propertyValue
  | _ => Ok None
  end.

Definition ports_disallowed (object : node) : eval bool :=
  let! fromPort := getPropertyValue object "fromPort" in
  let! toPort := getPropertyValue object "toPort" in
  Ok (disallowedPort (parseInt number_text (value_of_literal fromPort)) (parseInt number_text (value_of_literal toPort))).

Definition disallowedPortObject (n : node) : eval bool :=
  let! objExpr := valueOfExpression (Some n) "ObjectExpression" true in
  match objExpr with
  | None => Ok false
  | Some o =>
      let! protocol := propertyOf o "protocol" in
      match protocol with
      | PFound p =>
          let! v := node_at p "value" in
          let! protocolValue := uniqueWriteOrNode v true in
          if isUnresolved (Some protocolValue) || isUndefined protocolValue then Ok false
          else
            let protocolFQN := normalizedName protocolValue in
            if truthy_name protocolFQN && match protocolFQN with Some s => includes s badFQNProtocols | None => false end
            then ports_disallowed o
            else Ok false
      | _ => Ok false
      end
  end.

(** The name of an argument: reading it throws when there is no argument. *)
Definition isBadEc2Peer (argument : option node) : eval bool :=
  let! n := Aws.of_option TypeError argument in
  let fqn := normalizedName n in
  if name_is fqn "aws_cdk_lib.aws_ec2.Peer.anyIpv4" || name_is fqn "aws_cdk_lib.aws_ec2.Peer.anyIpv6" then Ok true
  else if name_is fqn "aws_cdk_lib.aws_ec2.Peer.ipv4" then let! v := getArgumentValue n 0 in Ok (disallowedIpV4 v)
  else if name_is fqn "aws_cdk_lib.aws_ec2.Peer.ipv6" then let! v := getArgumentValue n 0 in Ok (disallowedIpV6 v)
  else Ok false.

Definition isBadEc2PortOf (n : node) : eval bool :=
  let fqn := normalizedName n in
  if name_is fqn "aws_cdk_lib.aws_ec2.Port.allTcp" || name_is fqn "aws_cdk_lib.aws_ec2.Port.allTraffic" then Ok true
  else if name_is fqn "aws_cdk_lib.aws_ec2.Port.tcp" then
    let! v := getArgumentValue n 0 in Ok (disallowedPort v VUndefined)
  else if name_is fqn "aws_cdk_lib.aws_ec2.Port.tcpRange" then
    let! startRange := getArgumentValue n 0 in
    let! endRange := getArgumentValue n 1 in
    Ok (disallowedPort startRange endRange)
  else if name_is fqn "aws_cdk_lib.aws_ec2.Port" then
    let! portParams := getArgumentNode n 0 in
    match portParams with Some p => disallowedPortObject p | None => Ok false end
  else Ok false.

Definition isBadEc2Port (argument : option node) : eval bool :=
  let! n := Aws.of_option TypeError argument in isBadEc2PortOf n.

Definition checkIngressObject (n : option node) : reports_of :=
  let! objExpr := valueOfExpression n "ObjectExpression" true in
  match objExpr with
  | None => Ok []
  | Some o =>
      let! ipPropertyV4 := getPropertyValue o "cidrIp" in
      let! ipPropertyV6 := getPropertyValue o "cidrIpv6" in
      let! ipProtocol := getPropertyValue o "ipProtocol" in
      let! ports := ports_disallowed o in
      let protocol := value_of_literal ipProtocol in
      let open := strictly_equal protocol (VStr "-1") || (disallowedProtocol protocol && ports) in
      let report disallowed literal :=
        match literal with
        | Some l => if disallowed (value_of_literal literal) && open then [plain_report "allowFrom" l] else []
        | None => []
        end in
      Ok (report disallowedIpV4 ipPropertyV4 ++ report disallowedIpV6 ipPropertyV6)
  end.

Definition checkAllowFrom (expr : node) : reports_of :=
  let! badPeer := isBadEc2Peer (argument_at expr 0) in
  let! badPort := isBadEc2Port (argument_at expr 1) in
  if badPort && badPeer
  then let! other := Aws.of_option TypeError (argument_at expr 0) in Ok [plain_report "allowFrom" other]
  else Ok [].

Definition checkAllowFromAnyIpv4 (expr : node) : reports_of :=
  let! badPort := isBadEc2Port (argument_at expr 0) in
  if badPort then report_at_callee "allowFromAnyIpv4" expr else Ok [].

Definition invalidDefaultPortChecker (expr : node) : eval (option node) :=
  returned_by (AwsCdkCheckArguments sm parents stack (OneMessage "allowFrom") false "defaultPort" []
    (mkValuesByType None None (Some isBadEc2PortOf)) true 0 expr).

Definition checkConstructorDefaultPort (n : node) : reports_of :=
  let! callee := node_at n "callee" in
  let! newExpr := valueOfExpression (Some (reduceToIdentifier callee []).1) "NewExpression" true in
  match newExpr with
  | Some new =>
      let! invalid := invalidDefaultPortChecker new in
      Ok match invalid with Some _ => [plain_report "allowFromAnyIpv4" callee] | None => [] end
  | None => Ok []
  end.

Definition checkAllowDefaultPortFrom (expr : node) : reports_of :=
  let! badPeer := isBadEc2Peer (argument_at expr 0) in
  if badPeer then checkConstructorDefaultPort expr else Ok [].

Definition checkSecurityGroup (expr : node) : reports_of :=
  let! objExpr := valueOfExpression (argument_at expr 2) "ObjectExpression" true in
  match objExpr with
  | None => Ok []
  | Some o =>
      let! ingressProp := propertyOf o "securityGroupIngress" in
      match ingressProp with
      | PFound p =>
          let! v := node_at p "value" in
          let! arrExpr := valueOfExpression (Some v) "ArrayExpression" true in
          match arrExpr with
          | Some a => let! reports := rmap_list (fun g => checkIngressObject (Some g)) (get_nodes a "elements") in
                      Ok (concat reports)
          | None => Ok []
          end
      | _ => Ok []
      end
  end.

(** [{ callExpression: f }] *)
Definition on_call (f : node -> reports_of) : @AwsCdkConsumer (list Report) :=
  OnCalls (mkCallback None None (fun n _ => reporting f n) None).

Definition templateCallback : AwsCdkConsumerMap :=
  flat_map (fun type => [((type +:+ ".allowFrom")%string, on_call checkAllowFrom);
                         ((type +:+ ".allowFromAnyIpv4")%string, on_call checkAllowFromAnyIpv4)])
    TYPES_WITH_CONNECTIONS ++
  [("aws_cdk_lib.aws_ec2.Connections.allowDefaultPortFrom", on_call checkAllowDefaultPortFrom);
   ("aws_cdk_lib.aws_ec2.Connections.allowDefaultPortFromAnyIpv4", on_call checkConstructorDefaultPort);
   ("aws_cdk_lib.aws_ec2.SecurityGroup.addIngressRule", on_call checkAllowFrom);
   ("aws_cdk_lib.aws_ec2.CfnSecurityGroup", on_new checkSecurityGroup);
   ("aws_cdk_lib.aws_ec2.CfnSecurityGroupIngress", on_new (fun expr => checkIngressObject (argument_at expr 2)))].

(** The rule S6321. *)
Definition S6321 : AwsCdkConsumerMap := templateCallback.

End S6321.

(** ** Public interfaces *)

Section S6333.

(** The reports, and [defaultAuthorizationTypes], by the identity of the expressions. *)
Record ApiState := mkApiState {
  api_reports : list Report;
  defaultAuthorizationTypes : list (nat * node)
}.

Definition add_reports (l : list Report) (s : ApiState) : ApiState :=
  mkApiState (api_reports s ++ l) (defaultAuthorizationTypes s).

Definition isDefaultFromObject (n : node) (names : list string) : bool :=
  (type_of n =s "MemberExpression") && existsb (fun name => isMemberWithProperty n [name]) names.

Definition isDefaultFromCallee (n : node) : bool := (type_of n =s "CallExpression") && isMethodCall n.

Definition isSensitiveAuthorizationType (n : node) : bool :=
  name_is (normalizedName n) "aws_cdk_lib.aws_apigateway.AuthorizationType.NONE".

Fixpoint getDefaultAuthorizationType (fuel : nat) (defaults : list (nat * node)) (n : node) : eval (option node) :=
  match fuel with
  | O => Throw RangeError
  | S fuel' =>
      let! resource := uniqueWriteOrNode n false in
      match map_get (h_id (hdr resource)) defaults with
      | Some authorizationType => Ok (Some authorizationType)
      | None =>
          if isDefaultFromCallee resource
          then let! callee := node_at resource "callee" in getDefaultAuthorizationType fuel' defaults callee
          else if isDefaultFromObject resource ["addMethod"; "addResource"; "root"]
          then let! object := node_at resource "object" in getDefaultAuthorizationType fuel' defaults object
          else Ok None
      end
  end.

Definition checkResourceMethod (expr : node) (s : ApiState) : eval ApiState :=
  let! call := getResultOfExpression expr in
  let! properties := getArgument call 2 in
  let! authorizationType := getPropertyResult properties "authorizationType" in
  if isFound authorizationType && isSensitiveAuthorizationType (r_node authorizationType)
  then Ok (add_reports [plain_report "publicApi" (r_node authorizationType)] s)
  else if isMissing authorizationType then
    let! callee := node_at expr "callee" in
    let! defaultAuthorizationType := getDefaultAuthorizationType stack (defaultAuthorizationTypes s) callee in
    match defaultAuthorizationType with
    | None => Ok (add_reports [plain_report "omittedAuthorizationType" (r_node authorizationType)] s)
    | Some t => Ok (if isSensitiveAuthorizationType t then add_reports [plain_report "publicApi" expr] s else s)
    end
  else Ok s.

Definition defaultsCollector (position : nat) (expr : node) (s : ApiState) : eval ApiState :=
  let! call := getResultOfExpression expr in
  let! properties := getArgument call position in
  let! defaultMethodOptions := getPropertyResult properties "defaultMethodOptions" in
  let! authorizationType := getPropertyResult defaultMethodOptions "authorizationType" in
  Ok (if isFound authorizationType
      then mkApiState (api_reports s)
             (map_set (h_id (hdr expr)) (r_node authorizationType) (defaultAuthorizationTypes s))
      else s).

Definition apigatewayChecker (expr : node) (s : ApiState) : eval ApiState :=
  let! reports := reported_by (AwsCdkCheckArguments sm parents stack (Messages "omittedAuthorizationType" "publicApi") true
                    "authorizationType" [] (mkValuesByType (primitive_values [VStr "NONE"]) None None) false 2 expr) in
  Ok (add_reports reports s).

Definition on_resource (expr : node) (fqn : option string) (s : ApiState) : eval ApiState :=
  let ends name := match fqn with Some f => endsWith name f | None => false end in
  if ends "addMethod" then checkResourceMethod expr s
  else if ends "addResource" then defaultsCollector 1 expr s
  else Ok s.

Definition consumersFactory : @AwsCdkConsumerMap ApiState :=
  [("aws_cdk_lib.aws_apigateway.CfnMethod", OnNew apigatewayChecker);
   ("aws_cdk_lib.aws_apigatewayv2.CfnRoute", OnNew apigatewayChecker);
   ("aws_cdk_lib.aws_apigateway.RestApi", OnNew (defaultsCollector 2));
   ("aws_cdk_lib.aws_apigateway.RestApi.root",
    OnCalls (mkCallback None (Some ["addMethod"; "addResource"; "getResource"; "parentResource"]) on_resource None))].

Definition S6333 (n : node) (s : ApiState) : eval ApiState := AwsCdkTemplate sm consumersFactory n s.

End S6333.

End Rules.
