(* ===== verification/AwsPolicies.v ===== *)
(** * AwsPolicies: what the rules on policies report

    The policy statements that AWS reads, as data, and the proof that the checkers of
    [AwsRules] report exactly those that grant what each rule looks for. *)

From Stdlib Require Import ZArith Lia Ascii.
From stdpp Require Import base list sets strings.
From S2P Require Import Prelude JsString Estree Ast Aws AwsRules.

Open Scope js_scope.

(** ** Policies *)

(** The statements of policies as AWS reads them, written as literal objects. *)
Inductive texts := OneText (s : string) | Texts (l : list string).

Definition texts_list (t : option texts) : list string :=
  match t with Some (OneText s) => [s] | Some (Texts l) => l | None => [] end.

Definition texts_node (t : texts) : node :=
  match t with OneText s => text_node s | Texts l => array_node (map text_node l) end.

(** A principal is a text, or an object with accounts of AWS. *)
Inductive principal := PrincipalText (s : string) | PrincipalAws (t : texts).

Definition principal_texts (p : option principal) : list string :=
  match p with Some (PrincipalText s) => [s] | Some (PrincipalAws t) => texts_list (Some t) | None => [] end.

Definition principal_node (p : principal) : node :=
  match p with PrincipalText s => text_node s | PrincipalAws t => object_node [("AWS", texts_node t)] end.

Record Policy := mkPolicy {
  p_effect : option string;
  p_actions : option texts;
  p_resources : option texts;
  p_principal : option principal;
  p_condition : option (list (string * node))
}.

Definition policy_node (p : Policy) : node :=
  object_node (field "Effect" (text_node <$> p_effect p) ++ field "Action" (texts_node <$> p_actions p) ++
    field "Resource" (texts_node <$> p_resources p) ++ field "Principal" (principal_node <$> p_principal p) ++
    field "Condition" (object_node <$> p_condition p)).

(** A statement allows what it describes unless it denies it. *)
Definition allows (p : Policy) : Prop := p_effect p = None \/ p_effect p = Some "Allow".

Definition policy_field (p : Policy) (k : string) : option node :=
  if decide (k = "Condition") then object_node <$> p_condition p
  else if decide (k = "Principal") then principal_node <$> p_principal p
  else if decide (k = "Resource") then texts_node <$> p_resources p
  else if decide (k = "Action") then texts_node <$> p_actions p
  else if decide (k = "Effect") then text_node <$> p_effect p
  else None.

Section Policies.

Context (sm : ScopeManager) (parents : node -> list node) (depth : nat).

Notation getPropertyResult := (getPropertyResult sm parents (S depth)).
Notation find_literal := (find_literal sm parents (S depth)).

Lemma texts_not_name t : not_name (texts_node t).
Proof. by destruct t. Qed.

Lemma principal_not_name p : not_name (principal_node p).
Proof. by destruct p. Qed.

Lemma policy_property p k : getPropertyResult (mkResult (policy_node p) found) k
  = Ok match policy_field p k with Some v => mkResult v found | None => mkResult (policy_node p) missing end.
Proof.
  unfold policy_node. rewrite property_of_literal; [do 2 f_equal | intros v];
    rewrite !rev_app_distr, !rev_field, <- !app_assoc, !get_field, <- (app_nil_r (field "Effect" _)), get_field;
    unfold policy_field; repeat case_decide; subst; try done;
    repeat match goal with |- context [?f <$> ?o] => destruct o; cbn end; try done;
    intros [= <-]; auto using texts_not_name, principal_not_name; done.
Qed.

Lemma effect_of_policy p : getSensitiveEffect sm parents (S depth) (mkResult (policy_node p) found) JSON_OPTIONS
  = Ok match p_effect p with
       | Some s => mkResult (text_node s) (if s =s "Allow" then found else unknown)
       | None => mkResult (policy_node p) missing
       end.
Proof.
  unfold Aws.getSensitiveEffect. rewrite policy_property. cbn [effect_property JSON_OPTIONS rbind].
  change (policy_field p "Effect") with (text_node <$> p_effect p). destruct (p_effect p) as [s|]; [| done].
  cbn. unfold filterResult. cbn. by destruct (s =s "Allow").
Qed.

(** The texts of a field, as literals. *)
Lemma literals_of_texts t : asStringLiterals sm (S depth) (mkResult (texts_node t) found) = Ok (map text_node (texts_list (Some t))).
Proof.
  destruct t as [s|l]; [done |]. unfold asStringLiterals. cbn [isFound r_status negb r_node texts_node].
  change (isArrayExpression (Some (array_node (map text_node l)))) with true. cbv iota.
  rewrite elements_of_array, map_map. apply string_elements_texts.
Qed.

Lemma find_text (sensitive : node -> bool) l :
  List.find sensitive (map text_node l) = text_node <$> List.find (fun s => sensitive (text_node s)) l.
Proof. induction l as [|s l IH]; [done |]. cbn. by destruct (sensitive (text_node s)). Qed.

Lemma literal_of_policy p k t sensitive : policy_field p k = texts_node <$> t ->
  find_literal (mkResult (policy_node p) found) k sensitive
  = Ok (text_node <$> List.find (fun s => sensitive (text_node s)) (texts_list t)).
Proof.
  intros F. unfold AwsRules.find_literal. rewrite policy_property, F. destruct t as [t|]; [| done].
  cbn [fmap option_fmap option_map rbind]. rewrite literals_of_texts. cbn [rbind]. by rewrite find_text.
Qed.

Lemma find_some {A} (f : A -> bool) l : is_Some (List.find f l) <-> exists x, x ∈ l /\ f x = true.
Proof.
  split.
  - intros [x F]. apply List.find_some in F as [I T]. exists x. by rewrite list_elem_of_In.
  - intros (x & I & T). destruct (List.find f l) as [y|] eqn:F; [done |].
    apply list_elem_of_In in I. pose proof (List.find_none _ _ F x I). congruence.
Qed.

Lemma find_star l : is_Some (List.find (fun s => isAnyLiteral (text_node s)) l) <-> "*" ∈ l.
Proof.
  rewrite find_some. split.
  - intros (s & I & T). apply String.eqb_eq in T. cbn in T. by subst.
  - intros I. by exists "*".
Qed.

(** The reports at the end of a check. *)
Lemma reported_when_allows p message (sensitive : option string) :
  report_sensitive message match p_effect p with
       | Some s => mkResult (text_node s) (if s =s "Allow" then found else unknown)
       | None => mkResult (policy_node p) missing
       end (text_node <$> sensitive) <> [] <-> allows p /\ is_Some sensitive.
Proof.
  unfold allows, report_sensitive. destruct sensitive as [x|]; cbn.
  - destruct (p_effect p) as [s|]; cbn; [| naive_solver].
    destruct (s =s "Allow") eqn:E; split_bools; cbn; naive_solver.
  - split; [done | intros [_ H]; by apply is_Some_None in H].
Qed.

Lemma principal_of_policy p : getSensitivePrincipal sm parents (S depth) (mkResult (policy_node p) found) JSON_OPTIONS
  = Ok (text_node <$> List.find (fun s => isAnyLiteral (text_node s)) (principal_texts (p_principal p))).
Proof.
  unfold getSensitivePrincipal. rewrite policy_property. cbn [principals_property principals_kind JSON_OPTIONS rbind].
  change (policy_field p "Principal") with (principal_node <$> p_principal p).
  destruct (p_principal p) as [[s|t]|]; cbn [fmap option_fmap option_map principal_node]; [| | done].
  - cbn. unfold isAnyLiteral. cbn. by destruct (s =s "*").
  - cbn [isFound r_status negb r_node]. unfold getPrincipalLiterals.
    change (isStringLiteral (object_node [("AWS", texts_node t)])) with false. cbv iota.
    rewrite result_of_node by done. cbn [rbind].
    rewrite (property_of_literal sm parents depth [("AWS", texts_node t)]) by (intros v [= <-]; apply texts_not_name).
    change (map_get "AWS" (rev [("AWS", texts_node t)])) with (Some (texts_node t)). cbn [rbind].
    rewrite literals_of_texts. cbn [rbind]. by rewrite find_text.
Qed.

Lemma kms_of_policy p : isException sm parents (S depth) (mkResult (policy_node p) found) JSON_OPTIONS
  = Ok match p_actions p with
       | Some t => forallb (startsWith "kms:") (texts_list (Some t))
       | None => false
       end.
Proof.
  unfold isException. rewrite policy_property. change (policy_field p (actions_property JSON_OPTIONS)) with (texts_node <$> p_actions p).
  destruct (p_actions p) as [[s|l]|]; cbn [fmap option_fmap option_map rbind]; [| | done].
  - cbn. by rewrite andb_true_r.
  - unfold everyStringLiteral. cbn [isFound r_status negb r_node texts_node].
    change (isStringLiteral (array_node (map text_node l))) with false.
    change (isArrayExpression (Some (array_node (map text_node l)))) with true. cbn [negb].
    rewrite elements_of_array, map_map. apply every_element_texts.
Qed.

Lemma exceptions_of_policy p : hasExceptionProperties sm parents (S depth) (mkResult (policy_node p) found) JSON_OPTIONS
  = Ok match p_principal p, p_condition p with None, None => false | _, _ => true end.
Proof.
  unfold hasExceptionProperties. cbn [rexists]. rewrite !policy_property.
  change (policy_field p (principals_property JSON_OPTIONS)) with (principal_node <$> p_principal p).
  change (policy_field p (conditions_property JSON_OPTIONS)) with (object_node <$> p_condition p).
  by destruct (p_principal p), (p_condition p).
Qed.

(** A text without a colon. *)
Definition colonless (s : string) : Prop := ":"%char ∉ String.list_ascii_of_string s.

(** The names of all resources, or of all the roles, users or groups of an account. *)
Definition names_everyone (resource : string) : Prop :=
  resource = "*" \/
  exists partition service region account kind,
    Forall colonless [partition; service; region; account] /\ kind ∈ ["role"; "user"; "group"] /\
    resource = join_with ":" ["arn"; partition; service; region; account; (kind +:+ "/*")%string].

Lemma sensitive_resource_spec s : SENSITIVE_RESOURCE s = true <-> names_everyone s.
Proof.
  unfold SENSITIVE_RESOURCE, names_everyone. rewrite orb_true_iff, String.eqb_eq.
  split; (intros [->|H]; [by left | right]).
  - destruct (split_char ":" s) as [|arn [|a [|b [|c [|d [|e [|]]]]]]] eqn:E; try done.
    apply andb_true_iff in H as [->%String.eqb_eq H%includes_spec].
    assert (forall x, x ∈ [a; b; c; d] -> colonless x) as C.
    { intros x I. apply (split_char_parts ":" s). rewrite E. set_solver. }
    rewrite <- (join_split_char ":" s), E.
    assert (exists kind, kind ∈ ["role"; "user"; "group"] /\ e = (kind +:+ "/*")%string) as (kind & K & ->)
      by (rewrite !elem_of_cons, elem_of_nil in H;
          destruct H as [->|[->|[->|[]]]]; [exists "role" | exists "user" | exists "group"]; (split; [set_solver | done])).
    exists a, b, c, d, kind. split; [| done]. apply Forall_forall. exact C.
  - destruct H as (a & b & c & d & kind & F & K & ->). cbn [join_with].
    repeat (apply Forall_cons in F as [? F]).
    assert (colonless (kind +:+ "/*")%string) as N
      by (unfold colonless; rewrite !elem_of_cons, elem_of_nil in K; destruct K as [->|[->|[->|[]]]]; cbn; set_solver).
    change ("arn" +:+ ":" +:+ ?x)%string with ("arn" +:+ String ":" x)%string.
    rewrite (split_char_app ":" "arn") by (cbn; set_solver).
    repeat (match goal with |- context [split_char _ (?x +:+ ":" +:+ ?y)%string] =>
      change (x +:+ ":" +:+ y)%string with (x +:+ String ":" y)%string; rewrite (split_char_app ":" x) by done end).
    rewrite split_char_one by done. cbn [String.eqb andb]. apply includes_spec.
    rewrite !elem_of_cons, elem_of_nil in K. destruct K as [->|[->|[->|[]]]]; cbn; set_solver.
Qed.

Lemma find_spec (sensitive : node -> bool) (P : string -> Prop) l :
  (forall s, sensitive (text_node s) = true <-> P s) ->
  is_Some (List.find (fun s => sensitive (text_node s)) l) <-> exists s, s ∈ l /\ P s.
Proof. intros S. rewrite find_some. by setoid_rewrite S. Qed.

(** Whether the reports of a checker on the JSON form of a policy are some. *)
Definition reports_policy (checker : StatementChecker) (p : Policy) (reported : Prop) : Prop :=
  exists reports, checker (policy_node p) JSON_OPTIONS = Ok reports /\ (reports <> [] <-> reported).

Lemma kms_only p : isException sm parents (S depth) (mkResult (policy_node p) found) JSON_OPTIONS = Ok true <->
  is_Some (p_actions p) /\ Forall (fun a => startsWith "kms:" a = true) (texts_list (p_actions p)).
Proof.
  rewrite kms_of_policy. destruct (p_actions p) as [t|]; [| split; [done | by intros [[? [=]] _]]].
  assert (forall l, forallb (startsWith "kms:") l = true <-> Forall (fun a => startsWith "kms:" a = true) l) as F
    by (intros l; by rewrite forallb_forall, List.Forall_forall).
  rewrite <- F. destruct (forallb _ _); naive_solver.
Qed.

(** C32: On every policy statement written as a literal, the rules on policies report as
    documented: unless the statement denies, S6270 reports when all accounts are among
    its principals, S6302 when all actions are among its actions, S6304 when all resources
    are among its resources and its actions are not all those of KMS, and S6317 when it has no principal and no
    condition, a resource that names everyone and an action to escalate privileges. *)
Theorem policies_are_reported_when_sensitive p :
  reports_policy (publicAccessStatementChecker sm parents (S depth)) p
    (allows p /\ "*" ∈ principal_texts (p_principal p)) /\
  reports_policy (allPrivilegesStatementChecker sm parents (S depth)) p
    (allows p /\ "*" ∈ texts_list (p_actions p)) /\
  reports_policy (allResourcesAccessibleStatementCheck sm parents (S depth)) p
    (allows p /\ "*" ∈ texts_list (p_resources p) /\
     ~ (is_Some (p_actions p) /\ Forall (fun a => startsWith "kms:" a = true) (texts_list (p_actions p)))) /\
  reports_policy (privilegeEscalationStatementChecker sm parents (S depth)) p
    (allows p /\ p_principal p = None /\ p_condition p = None /\
     (exists r, r ∈ texts_list (p_resources p) /\ names_everyone r) /\
     (exists a, a ∈ texts_list (p_actions p) /\ a ∈ SENSITIVE_ACTIONS)).
Proof.
  unfold reports_policy, publicAccessStatementChecker, allPrivilegesStatementChecker, allResourcesAccessibleStatementCheck,
    privilegeEscalationStatementChecker.
  rewrite !result_of_node by done. cbn [rbind]. rewrite !effect_of_policy. cbn [rbind].
  repeat split.
  - rewrite principal_of_policy. cbn [rbind]. eexists. split; [done |].
    by rewrite reported_when_allows, find_star.
  - rewrite (literal_of_policy _ _ (p_actions p)) by done. cbn [rbind]. eexists. split; [done |].
    by rewrite reported_when_allows, find_star.
  - rewrite (literal_of_policy _ _ (p_resources p)) by done. cbn [rbind].
    pose proof (kms_only p) as Only. destruct (isException _ _ _ _ _) as [[]|] eqn:K; [| | by rewrite kms_of_policy in K]; cbn [rbind];
      eexists; (split; [done |]); [naive_solver |].
    rewrite reported_when_allows, find_star. naive_solver.
  - rewrite (literal_of_policy _ _ (p_resources p)), (literal_of_policy _ _ (p_actions p)) by done. cbn [rbind].
    rewrite exceptions_of_policy. cbn [rbind]. eexists. split; [done |].
    rewrite <- (find_spec isSensitiveResource) by (intros s; apply sensitive_resource_spec).
    rewrite <- (find_spec isSensitiveAction) by (intros s; apply includes_spec).
    unfold allows.
    destruct (List.find _ (texts_list (p_resources p))) as [r|], (List.find _ (texts_list (p_actions p))) as [a|]; cbn;
      try (split; [done | intros (_ & _ & _ & H1 & H2); by apply is_Some_None in H1 || apply is_Some_None in H2]).
    destruct (p_principal p), (p_condition p), (p_effect p) as [s|]; cbn; try naive_solver;
      destruct (s =s "Allow") eqn:E; split_bools; cbn; naive_solver.
Qed.

End Policies.
