(* ===== verification/AwsNetwork.v ===== *)
(** * AwsNetwork: what the rules on network access report

    The ingress rules of security groups, as data, and the proof that S6321 reports
    exactly those that open a port of administration to everyone; the calls on which it
    throws; the search of S6329 that never ends. *)

From Stdlib Require Import ZArith QArith Lia.
From stdpp Require Import base list sets strings.
From S2P Require Import Prelude JsString JsNumber Estree Ast Modules Aws AwsRules.

Open Scope js_scope.

(** ** Ingress rules *)

Record Ingress := mkIngress {
  i_cidrIp : option string;
  i_cidrIpv6 : option string;
  i_protocol : option string;
  i_fromPort : option Z;
  i_toPort : option Z
}.

Definition number_node (z : Z) : node := plain "Literal" [("value", VNum (NumQ (inject_Z z)))].

Definition ingress_node (i : Ingress) : node :=
  object_node (field "cidrIp" (text_node <$> i_cidrIp i) ++ field "cidrIpv6" (text_node <$> i_cidrIpv6 i) ++
    field "ipProtocol" (text_node <$> i_protocol i) ++ field "fromPort" (number_node <$> i_fromPort i) ++
    field "toPort" (number_node <$> i_toPort i)).

Definition ingress_field (i : Ingress) (k : string) : option node :=
  if decide (k = "toPort") then number_node <$> i_toPort i
  else if decide (k = "fromPort") then number_node <$> i_fromPort i
  else if decide (k = "ipProtocol") then text_node <$> i_protocol i
  else if decide (k = "cidrIpv6") then text_node <$> i_cidrIpv6 i
  else if decide (k = "cidrIp") then text_node <$> i_cidrIp i
  else None.

(** The rule lets everyone in, on a port of administration. *)
Definition from_everywhere (i : Ingress) : Prop :=
  i_cidrIp i = Some "0.0.0.0/0" \/ i_cidrIpv6 i = Some "::/0".

Definition opens_administration (i : Ingress) : Prop :=
  i_protocol i = Some "-1" \/
  (exists protocol, i_protocol i = Some protocol /\ protocol ∈ ["6"; "tcp"; "TCP"]) /\
  exists from to port, i_fromPort i = Some from /\ i_toPort i = Some to /\
    port ∈ [22; 3389]%Z /\ (from <= port <= to)%Z.

(** Ports are 16-bit integers. *)
Definition port_in_range (p : option Z) : Prop := match p with Some z => (0 <= z < 65536)%Z | None => True end.

Section Network.

Context (sm : ScopeManager) (parents : node -> list node) (depth : nat) (number_text : Q -> string).

Notation getPropertyValue := (getPropertyValue sm parents (S depth)).

Lemma literal_resolved props : isUnresolved sm (Some (plain "Literal" props)) = false.
Proof. reflexivity. Qed.

Lemma ingress_lookup i k : map_get k (rev (field "cidrIp" (text_node <$> i_cidrIp i) ++ field "cidrIpv6" (text_node <$> i_cidrIpv6 i) ++
    field "ipProtocol" (text_node <$> i_protocol i) ++ field "fromPort" (number_node <$> i_fromPort i) ++
    field "toPort" (number_node <$> i_toPort i))) = ingress_field i k.
Proof.
  rewrite !rev_app_distr, !rev_field, <- !app_assoc, !get_field, <- (app_nil_r (field "cidrIp" _)), get_field.
  unfold ingress_field. repeat case_decide; subst; try done;
    repeat match goal with |- context [?f <$> ?o] => destruct o; cbn end; done.
Qed.

Lemma ingress_literal i k v : ingress_field i k = Some v -> exists props, v = plain "Literal" props.
Proof.
  unfold ingress_field. repeat case_decide;
    repeat match goal with |- context [?f <$> ?o] => destruct o; cbn end; try done; intros [= <-]; eexists; reflexivity.
Qed.

Lemma ingress_value i k : getPropertyValue (ingress_node i) k = Ok (ingress_field i k).
Proof.
  unfold AwsRules.getPropertyValue, ingress_node. rewrite propertyOf_object, ingress_lookup. cbn [rbind].
  destruct (ingress_field i k) as [v|] eqn:F; [| done]. destruct (ingress_literal _ _ _ F) as [props ->].
  unfold node_at. change (get_node (property_node (k, plain "Literal" props)) "value") with (Some (plain "Literal" props)).
  cbn [Aws.of_option rbind]. rewrite uniqueWrite_node by done. cbn [rbind]. by rewrite literal_resolved.
Qed.

Lemma ports_of_ingress i : port_in_range (i_fromPort i) -> port_in_range (i_toPort i) ->
  ports_disallowed sm parents (S depth) number_text (ingress_node i)
  = Ok match i_fromPort i, i_toPort i with
       | Some from, Some to => existsb (fun port => (from <=? port) && (port <=? to))%Z badPorts
       | _, _ => false
       end.
Proof.
  intros F T. unfold ports_disallowed. rewrite !ingress_value. cbn [rbind]. f_equal.
  change (ingress_field i "fromPort") with (number_node <$> i_fromPort i).
  change (ingress_field i "toPort") with (number_node <$> i_toPort i).
  assert (forall p, port_in_range p -> parseInt number_text (value_of_literal (number_node <$> p))
            = VNum match p with Some z => NumQ (inject_Z z) | None => NumNaN end) as P.
  { intros [z|] R; [apply parseInt_integer; cbn in R; lia | reflexivity]. }
  rewrite !P by done. unfold disallowedPort. cbn [present andb to_number].
  assert (forall a b, number_le (NumQ (inject_Z a)) (NumQ (inject_Z b)) = (a <=? b)%Z) as L
    by (intros a b; cbn; unfold Qle_bool; cbn; by rewrite !Z.mul_1_r).
  unfold port_number. destruct (i_fromPort i) as [from|], (i_toPort i) as [to|]; cbn [existsb badPorts]; rewrite ?L; try done;
    cbn; by rewrite ?andb_false_r.
Qed.

(** The protocol and the ports, as the rule tests them. *)
Lemma open_spec i :
  strictly_equal (value_of_literal (text_node <$> i_protocol i)) (VStr "-1")
  || (disallowedProtocol (value_of_literal (text_node <$> i_protocol i))
      && match i_fromPort i, i_toPort i with
         | Some from, Some to => existsb (fun port => (from <=? port) && (port <=? to))%Z badPorts
         | _, _ => false
         end) = true <-> opens_administration i.
Proof.
  unfold opens_administration. destruct (i_protocol i) as [protocol|]; cbn [fmap option_fmap option_map]; [| naive_solver].
  change (value_of_literal (Some (text_node protocol))) with (VStr protocol). cbn [strictly_equal].
  unfold disallowedProtocol, text_among, badProtocols. rewrite orb_true_iff, !andb_true_iff, includes_spec, String.eqb_eq.
  assert (negb (protocol =s "") = true <-> protocol <> "") as -> by (rewrite negb_true_iff; apply String.eqb_neq).
  assert (match i_fromPort i, i_toPort i with
          | Some from, Some to => existsb (fun port => (from <=? port) && (port <=? to))%Z badPorts
          | _, _ => false
          end = true <-> exists from to port, i_fromPort i = Some from /\ i_toPort i = Some to /\
            port ∈ [22; 3389]%Z /\ (from <= port <= to)%Z) as ->.
  { destruct (i_fromPort i) as [from|], (i_toPort i) as [to|]; try naive_solver.
    rewrite existsb_exists. setoid_rewrite <- list_elem_of_In. setoid_rewrite andb_true_iff. setoid_rewrite Z.leb_le.
    unfold badPorts. naive_solver. }
  split.
  - intros [->|[[_ I] P]]; [by left | right; eauto].
  - intros [[= ->]|[(p & [= <-] & I) P]]; [by left | right; repeat split; [| exact I | exact P]].
    intros ->. by rewrite !elem_of_cons, elem_of_nil in I; naive_solver.
Qed.

Lemma app_nonnil {A} (l l' : list A) : l ++ l' <> [] <-> l <> [] \/ l' <> [].
Proof. destruct l, l'; naive_solver. Qed.

(** An address and whether it is everyone's. *)
Lemma reports_address (disallowed : value -> bool) ip everyone open :
  (forall s, disallowed (VStr s) = true <-> s = everyone) ->
  (match text_node <$> ip with
   | Some l => if disallowed (value_of_literal (text_node <$> ip)) && open then [plain_report "allowFrom" l] else []
   | None => []
   end) <> [] <-> ip = Some everyone /\ open = true.
Proof.
  intros D. destruct ip as [s|]; cbn [fmap option_fmap option_map]; [| naive_solver].
  change (value_of_literal (Some (text_node s))) with (VStr s). specialize (D s).
  destruct (disallowed (VStr s)), open; cbn; naive_solver.
Qed.

(** On every ingress rule written as a literal with ports in range, S6321 reports
    when, and only when, the rule lets every address in and opens the ports 22 or 3389:
    all protocols, or TCP on a range of ports that has one of them. *)
Theorem open_ingress_rules_reported i : port_in_range (i_fromPort i) -> port_in_range (i_toPort i) ->
  exists reports, checkIngressObject sm parents (S depth) number_text (Some (ingress_node i)) = Ok reports /\
    (reports <> [] <-> from_everywhere i /\ opens_administration i).
Proof.
  intros F T. unfold checkIngressObject.
  change (Aws.valueOfExpression sm (S depth) (Some (ingress_node i)) "ObjectExpression" true) with (@Ok aws_error _ (Some (ingress_node i))).
  cbn [rbind]. rewrite !ingress_value. cbn [rbind]. rewrite ports_of_ingress by done. cbn [rbind].
  eexists. split; [done |].
  change (ingress_field i "cidrIp") with (text_node <$> i_cidrIp i).
  change (ingress_field i "cidrIpv6") with (text_node <$> i_cidrIpv6 i).
  change (ingress_field i "ipProtocol") with (text_node <$> i_protocol i).
  rewrite app_nonnil, (reports_address disallowedIpV4 _ "0.0.0.0/0"), (reports_address disallowedIpV6 _ "::/0"), open_spec.
  - unfold from_everywhere. tauto.
  - intros s. unfold disallowedIpV6, text_among. rewrite andb_true_iff, includes_spec, negb_true_iff, String.eqb_neq.
    unfold badIpsV6. rewrite list_elem_of_singleton. naive_solver.
  - intros s. unfold disallowedIpV4, text_among. rewrite andb_true_iff, includes_spec, negb_true_iff, String.eqb_neq.
    unfold badIpsV4. rewrite list_elem_of_singleton. naive_solver.
Qed.

End Network.

(** ** Calls without the arguments the rule reads *)

(** S6321 throws on each call of [allowFrom], or of [addIngressRule], with less than two
    arguments: it asks for the name of an argument that is not there. *)
Lemma missing_port_throws sm parents depth number_text expr :
  argument_at expr 1 = None -> exists e, checkAllowFrom sm parents depth number_text expr = Throw e.
Proof.
  intros A. unfold checkAllowFrom. destruct (isBadEc2Peer _ _ _); cbn [rbind]; [| eauto].
  rewrite A. cbn. eauto.
Qed.

(** ** The search of a call above a subnet *)

Module NetworkExample.

Definition ident (name : string) : node := plain "Identifier" [("name", VStr name)].

Definition member (object : node) (property : string) : node :=
  plain "MemberExpression" [("object", VNode object); ("property", VNode (ident property))].

Definition call (type : string) (callee : node) (arguments : list node) : node :=
  plain type [("callee", VNode callee); ("arguments", VArr (map VNode arguments))].

(** [var a = a.subnetId;] *)
Definition scopes : ScopeManager :=
  AstExample.scopes_writing (member (ident "a") "subnetId") (ident "b").

(** [new ec2.CfnInstance(this, 'id', { networkInterfaces: \[...\] })] *)
Definition instance (subnet : node) : node :=
  call "NewExpression" (ident "CfnInstance")
    [plain "ThisExpression" []; text_node "id";
     object_node [("networkInterfaces", array_node
       [object_node [("associatePublicIpAddress", plain "Literal" [("value", VBool true)]); ("subnetId", subnet)]])]].

Lemma members_never_end fuel depth :
  member_objects scopes (S (S depth)) fuel (mkResult (member (ident "a") "subnetId") found) = Throw RangeError.
Proof.
  induction fuel as [|fuel IH]; [done |]. cbn [member_objects].
  change (ofType (mkResult (member (ident "a") "subnetId") found) "MemberExpression") with true. cbv iota.
  assert (getMemberObject scopes (S (S depth)) (mkResult (member (ident "a") "subnetId") found)
          = Ok (mkResult (member (ident "a") "subnetId") found)) as -> by reflexivity.
  exact IH.
Qed.

End NetworkExample.

(** The rule S6329 never ends on a network interface whose subnet is a variable that
    is initialised with one of its own properties: the loop on the objects of members comes
    back to the same one, however many turns it takes, while the stack has room for the calls. With
    a subnet that is a text the rule ends, with a report. *)
Theorem subnet_search_never_ends :
  (forall depth fuel, checkCfnInstance NetworkExample.scopes (fun _ => []) (S (S depth)) fuel
     (NetworkExample.instance (NetworkExample.ident "a")) = Throw RangeError) /\
  (exists reports, reports <> [] /\ forall depth, checkCfnInstance NetworkExample.scopes (fun _ => []) (S (S depth)) 1
     (NetworkExample.instance (text_node "subnet")) = Ok reports).
Proof.
  split.
  - intros depth fuel. pose proof (NetworkExample.members_never_end fuel depth) as M.
    unfold checkCfnInstance. cbn -[member_objects]. unfold getSelectSubnetsCall. by rewrite M.
  - eexists. split; [| intros depth; reflexivity]. done.
Qed.

(** S6270 takes each [new] of a principal whose first argument is a star for an ARN of everyone,
    whatever its class: [new iam.ServicePrincipal('*')] is one. *)
Lemma any_class_is_arn_principal sm callee rest :
  isSensitivePrincipalNewExpression sm PROPERTIES_OPTIONS
    (NetworkExample.call "NewExpression" callee (text_node "*" :: rest)) = Ok true.
Proof.
  unfold isSensitivePrincipalNewExpression. cbn.
  by repeat match goal with |- context [name_is ?fqn ?s] => destruct (name_is fqn s) end.
Qed.

(** ** Witness *)

(** SSH, open to everyone. *)
Lemma open_ingress_rules_reported_witness :
  let i := mkIngress (Some "0.0.0.0/0") None (Some "tcp") (Some 20%Z) (Some 30%Z) in
  exists reports, checkIngressObject NetworkExample.scopes (fun _ => []) 1 (fun _ => "") (Some (ingress_node i)) = Ok reports /\
    reports <> [].
Proof.
  cbn zeta.
  destruct (open_ingress_rules_reported NetworkExample.scopes (fun _ => []) 0 (fun _ => "")
    (mkIngress (Some "0.0.0.0/0") None (Some "tcp") (Some 20%Z) (Some 30%Z))) as (reports & E & R);
    [cbn; lia | cbn; lia |].
  exists reports. split; [exact E |]. apply R. split; [by left |]. right. split.
  - exists "tcp". split; [done |]. by right; left.
  - exists 20%Z, 30%Z, 22%Z. repeat split; [by left | lia | lia].
Defined.
