(* ===== verification/AwsProtocols.v ===== *)
(** * AwsProtocols: constructs of AWS whose connections are not encrypted

    The rules S5332, in its part on the AWS constructs, and S4423, in the same part, as
    callbacks for the template of [Aws]. *)

From Stdlib Require Import ZArith QArith Lia.
From stdpp Require Import base list sets strings.
From S2P Require Import Prelude JsString JsNumber Estree Ast Modules Aws AwsRules AwsNetwork.

Open Scope js_scope.

Section Protocols.

Context (sm : ScopeManager) (parents : node -> list node) (stack : nat).

Notation checkArguments := (checkArguments sm parents stack).

Definition invalid_texts (l : list string) : ValuesByType :=
  mkValuesByType (Some (mkValues _ [] (map VStr l) true)) None None.
Definition invalid_names (l : list string) : ValuesByType := mkValuesByType None (name_values l) None.
Definition valid_text (s : string) : ValuesByType := mkValuesByType (Some (mkValues _ [VStr s] [] false)) None None.
Definition valid_name (s : string) : ValuesByType := mkValuesByType None (Some (mkValues _ [s] [] false)) None.

(** ** S4423 *)

Definition S4423_messages : MessageIds := Messages "AWSOpenElasticSearch" "enforceTLS12".

(** The rule S4423 on AWS constructs. *)
Definition S4423_aws : AwsCdkConsumerMap :=
  [("aws_cdk_lib.aws_apigateway.CfnDomainName", checkArguments (OneMessage "AWSApiGateway") true "securityPolicy" [] (valid_text "TLS_1_2"));
   ("aws_cdk_lib.aws_apigateway.DomainName", checkArguments (OneMessage "AWSApiGateway") false "securityPolicy" []
      (valid_name "aws_cdk_lib.aws_apigateway.SecurityPolicy.TLS_1_2"));
   ("aws_cdk_lib.aws_elasticsearch.CfnDomain", checkArguments S4423_messages true "domainEndpointOptions" ["tlsSecurityPolicy"]
      (valid_text "Policy-Min-TLS-1-2-2019-07"));
   ("aws_cdk_lib.aws_opensearchservice.Domain", checkArguments S4423_messages true "tlsSecurityPolicy" []
      (valid_name "aws_cdk_lib.aws_opensearchservice.TLSSecurityPolicy.TLS_1_2"));
   ("aws_cdk_lib.aws_opensearchservice.CfnDomain", checkArguments S4423_messages true "domainEndpointOptions" ["tlsSecurityPolicy"]
      (valid_text "Policy-Min-TLS-1-2-2019-07"));
   ("aws_cdk_lib.aws_elasticsearch.Domain", checkArguments S4423_messages true "tlsSecurityPolicy" []
      (valid_name "aws_cdk_lib.aws_elasticsearch.TLSSecurityPolicy.TLS_1_2"))].

(** ** S5332 *)

Definition sensitivePorts : list Z := [80; 8080; 8000; 8008]%Z.

(** The check of an argument in silent mode: the node to report, if any. *)
Definition silently (needsProps : bool) (propertyName : string) (values : ValuesByType) (position : nat) (expr : node) : eval (option node) :=
  returned_by (AwsCdkCheckArguments sm parents stack (OneMessage "noSSLTLS") needsProps propertyName [] values true position expr).

Definition no_ssl (n : option node) : list Report := match n with Some n => [plain_report "noSSLTLS" n] | None => [] end.

(** A protocol that is named, or a property of the listener when no protocol is given. *)
Definition protocol_or (protocols : list string) (position : nat) (otherwise : node -> eval (option node)) (expr : node) : eval (list Report) :=
  let! httpProtocol := silently false "protocol" (invalid_names protocols) position expr in
  match httpProtocol with
  | Some n => Ok (no_ssl (Some n))
  | None =>
      let! missingProtocol := silently true "protocol" no_values position expr in
      match missingProtocol with
      | Some _ => let! n := otherwise expr in Ok (no_ssl n)
      | None => Ok []
      end
  end.

Definition httpOrSensitivePort (position : nat) : node -> eval (list Report) :=
  protocol_or ["aws-cdk-lib.aws_elasticloadbalancingv2.ApplicationProtocol.HTTP"] position
    (silently false "port" (mkValuesByType (primitive_values (map (fun p => VNum (NumQ (inject_Z p))) sensitivePorts)) None None) position).

Definition network_protocols : list string :=
  map (fun p => ("aws-cdk-lib.aws_elasticloadbalancingv2.Protocol." +:+ p)%string) ["TCP"; "UDP"; "TCP_UDP"].

Definition networkListener (protocols : list string) (position : nat) : node -> eval (list Report) :=
  protocol_or protocols position (silently true "certificates" no_values position).

(** [functionName: 'addListener'], with a callback of [new] when there is one. *)
Definition add_listener (callExpression : node -> eval (list Report)) (newExpression : option (node -> eval (list Report)))
    : @AwsCdkConsumer (list Report) :=
  OnCalls (mkCallback (Some "addListener") None (fun n _ => reporting callExpression n) (option_map reporting newExpression)).

Definition insecure_balancing : ValuesByType :=
  invalid_names ["aws-cdk-lib.aws_elasticloadbalancing.LoadBalancingProtocol.TCP";
                 "aws-cdk-lib.aws_elasticloadbalancing.LoadBalancingProtocol.HTTP"].

Definition balancing (propertyName : string) (nested : list string) (position : nat) (expr : node) : eval (list Report) :=
  reported_by (AwsCdkCheckArguments sm parents stack (OneMessage "noSSLTLS") false propertyName nested insecure_balancing false position expr).

(** The rule S5332 on AWS constructs. *)
Definition S5332_aws : AwsCdkConsumerMap :=
  [("aws-cdk-lib.aws_elasticache.CfnReplicationGroup", checkArguments (OneMessage "replicationGroup") true "transitEncryptionEnabled" []
      (mkValuesByType (primitive_values [VBool false]) None None));
   ("aws-cdk-lib.aws_kinesis.Stream", checkArguments (OneMessage "streamEncryptionDisabled") false "encryption" []
      (invalid_names ["aws_cdk_lib.aws_kinesis.StreamEncryption.UNENCRYPTED"]));
   ("aws-cdk-lib.aws_kinesis.CfnStream", checkArguments (OneMessage "streamEncryptionDisabled") true "streamEncryption" [] no_values);
   ("aws-cdk-lib.aws_elasticloadbalancing.LoadBalancer",
      add_listener (balancing "externalProtocol" [] 0) (Some (balancing "listeners" ["externalProtocol"] AWS_OPTIONS_ARGUMENT_POSITION)));
   ("aws-cdk-lib.aws_elasticloadbalancing.CfnLoadBalancer",
      checkArguments (OneMessage "noSSLTLS") false "listeners" ["protocol"] (invalid_texts ["tcp"; "http"]));
   ("aws-cdk-lib.aws_elasticloadbalancingv2.ApplicationLoadBalancer", add_listener (httpOrSensitivePort 1) None);
   ("aws-cdk-lib.aws_elasticloadbalancingv2.ApplicationListener", on_new (httpOrSensitivePort 2));
   ("aws-cdk-lib.aws_elasticloadbalancingv2.NetworkLoadBalancer",
      add_listener (networkListener ("aws-cdk-lib.aws_elasticloadbalancingv2.Protocol.HTTP" :: network_protocols) 1) None);
   ("aws-cdk-lib.aws_elasticloadbalancingv2.NetworkListener", on_new (networkListener network_protocols AWS_OPTIONS_ARGUMENT_POSITION));
   ("aws-cdk-lib.aws_elasticloadbalancingv2.CfnListener",
      checkArguments (OneMessage "noSSLTLS") false "protocol" [] (invalid_texts ["HTTP"; "TCP"; "UDP"; "TCP_UDP"]))].

End Protocols.

(** ** Listeners written as literals *)

Section Listeners.

Context (sm : ScopeManager) (parents : node -> list node) (depth : nat).

(** [new ApplicationListener(this, 'id', { port, certificates })], the protocol left out. *)
Definition listener_options (port certificates : option Z) : node :=
  object_node (field "certificates" (number_node <$> certificates) ++ field "port" (number_node <$> port)).

Definition listener (options : node) : node :=
  plain "NewExpression" [("callee", VNode (plain "Identifier" [("name", VStr "Listener")]));
    ("arguments", VArr [VNode (plain "ThisExpression" []); VNode (text_node "id"); VNode options])].

Lemma no_protocol port certificates values :
  silently sm parents (S depth) false "protocol" values 2 (listener (listener_options port certificates)) = Ok None /\
  exists n, silently sm parents (S depth) true "protocol" no_values 2 (listener (listener_options port certificates)) = Ok (Some n).
Proof. destruct port, certificates; (split; [reflexivity | eexists; reflexivity]). Qed.

(** Without a protocol, a listener of an application is reported when, and only when, its
    port is one of the ports of HTTP. *)
Theorem listener_ports_reported port certificates :
  exists reports, httpOrSensitivePort sm parents (S depth) 2 (listener (listener_options port certificates)) = Ok reports /\
    (reports <> [] <-> exists p, port = Some p /\ p ∈ sensitivePorts).
Proof.
  unfold httpOrSensitivePort, protocol_or. destruct (no_protocol port certificates (invalid_names ["aws-cdk-lib.aws_elasticloadbalancingv2.ApplicationProtocol.HTTP"])) as [E (n & E')].
  rewrite E. cbn [rbind]. rewrite E'. cbn [rbind]. destruct port as [p|].
  - assert (exists n, silently sm parents (S depth) false "port"
      (mkValuesByType (primitive_values (map (fun p => VNum (NumQ (inject_Z p))) sensitivePorts)) None None) 2
      (listener (listener_options (Some p) certificates)) = Ok (if existsb (Z.eqb p) sensitivePorts then Some n else None)) as (m & ->).
    { assert (forall a, Qeq_bool (inject_Z a) (inject_Z p) = (p =? a)%Z) as Q.
      { intros a. unfold Qeq_bool. cbn. rewrite !Z.mul_1_r. apply Z.eqb_sym. }
      exists (number_node p). destruct certificates; cbn; unfold silently, returned_by; cbn; rewrite ?Q;
        repeat (destruct (p =? _)%Z; cbn; [reflexivity |]); reflexivity. }
    cbn [rbind]. eexists. split; [reflexivity |].
    assert (existsb (Z.eqb p) sensitivePorts = true <-> p ∈ sensitivePorts) as B.
    { rewrite existsb_exists. setoid_rewrite <- list_elem_of_In. setoid_rewrite Z.eqb_eq. naive_solver. }
    destruct (existsb (Z.eqb p) sensitivePorts); cbn [no_ssl]; naive_solver.
  - exists []. split; [by destruct certificates | naive_solver].
Qed.

(** Without a protocol, a listener of a network is reported when, and only when, it has no
    certificates. *)
Theorem network_listeners_reported port certificates :
  exists reports, networkListener sm parents (S depth) network_protocols 2 (listener (listener_options port certificates)) = Ok reports /\
    (reports <> [] <-> certificates = None).
Proof. destruct port, certificates; eexists; (split; [reflexivity | naive_solver]). Qed.

(** A listener without options has a port by default, and is left alone; one of a network
    is reported. *)
Lemma listener_without_options :
  let expr := plain "NewExpression" [("callee", VNode (plain "Identifier" [("name", VStr "Listener")])); ("arguments", VArr [])] in
  httpOrSensitivePort sm parents (S depth) 2 expr = Ok [] /\ networkListener sm parents (S depth) network_protocols 2 expr <> Ok [].
Proof. by split. Qed.

End Listeners.
