(* ===== verification/Complexities.v ===== *)
(** * Complexities: expressions and functions with too many branches (rules S1067 and S1541)

    The code of [rules/S1067/rule.ts], a stack of the expressions being visited, driven by
    the walk of [Traversal], and of [rules/S1541/rule.ts], which collects the functions of a
    file, then counts the branches of each with a visitor of its own. The tokens they look for
    are answers of ESLint. *)

From Stdlib Require Import ZArith Lia.
From stdpp Require Import base list sets strings.
From S2P Require Import Prelude JsString Estree Ast Cognitive Traversal.

Open Scope nat_scope.
Open Scope js_scope.

(** ** S1067 *)

Record ExpressionComplexity := mkComplexity { nestedLevel : nat; operators : list Token }.

Record ComplexExpression := mkComplexExpression { ce_node : node; ce_operators : list Token }.

Record expression_state := mkExpressionState {
  (** The top of the stack first. *)
  statementLevel : list ExpressionComplexity;
  complex : list ComplexExpression
}.

(** A member of [undefined] is read. *)
Inductive complexity_error := UndefinedMember.

Definition isConditionalLike (n : node) : bool :=
  (type_of n =s "ConditionalExpression") || (type_of n =s "LogicalExpression").

Definition isScopeLike (n : node) : bool :=
  (type_of n =s "FunctionExpression")
  || ((type_of n =s "FunctionDeclaration") && truthy (get n "generator"))
  || (type_of n =s "ObjectExpression") || (type_of n =s "CallExpression") || (type_of n =s "JSXElement").

Section S1067.

(** [sourceCode.getTokenAfter(node, filter)]: there is one in each call of the rule. *)
Variable getTokenAfter : value -> (Token -> bool) -> Token.
Variable keys : VisitorKeys.
Variable threshold : nat.

Definition getOperatorToken (n : node) : Token :=
  let after key value :=
    getTokenAfter (get n key) (fun t => (t_type t =s "Punctuator") && (t_value t =s value)) in
  if type_of n =s "ConditionalExpression" then after "test" "?"
  else after "left" (default "" (get_str n "operator")).

Definition on_top (f : ExpressionComplexity -> ExpressionComplexity * list ComplexExpression)
    (st : expression_state) : result complexity_error expression_state :=
  match statementLevel st with
  | expr :: rest => Ok (mkExpressionState ((f expr).1 :: rest) (complex st ++ (f expr).2))
  | [] => Throw UndefinedMember
  end.

Definition new_complexity : ExpressionComplexity := mkComplexity 0 [].

(** The listener of all nodes, and the one on leaving them. *)
Definition on_expression_event (e : event) (st : expression_state) : result complexity_error expression_state :=
  match e with
  | Enter n _ =>
      if isConditionalLike n then
        on_top (fun expr => (mkComplexity (S (nestedLevel expr)) (operators expr ++ [getOperatorToken n]), [])) st
      else if isScopeLike n then Ok (mkExpressionState (new_complexity :: statementLevel st) (complex st))
      else Ok st
  | Leave n _ =>
      if isConditionalLike n then
        on_top (fun expr =>
          let level := pred (nestedLevel expr) in
          if Nat.eqb level 0 then
            (mkComplexity level [],
             if Nat.ltb threshold (length (operators expr)) then [mkComplexExpression n (operators expr)] else [])
          else (mkComplexity level (operators expr), [])) st
      else if isScopeLike n then Ok (mkExpressionState (tail (statementLevel st)) (complex st))
      else Ok st
  end.

(** The expressions reported in a tree. *)
Definition complex_expressions (root : node) : result complexity_error (list ComplexExpression) :=
  let! st := run on_expression_event (events keys [] root) (mkExpressionState [new_complexity] []) in
  Ok (complex st).

(** *** The specification *)

(** The operators of the expression a node is in, down to the calls, objects, elements and functions in
    it, in the order of the tree. *)
Definition operator_of (n : node) : list Token :=
  if isConditionalLike n then [getOperatorToken n] else [].

Definition operators_in (n : node) : list Token :=
  below keys (fun n _ inner => if isScopeLike n then [] else operator_of n ++ inner) [] n.

(** The reports below a node, that is in a conditional or not, after those of its children. *)
Definition reports_step (n : node) (inner_reports : bool -> list ComplexExpression) (inside : bool)
  : list ComplexExpression :=
  if isConditionalLike n then
    inner_reports true ++
    (if negb inside && Nat.ltb threshold (length (operators_in n)) then [mkComplexExpression n (operators_in n)] else [])
  else inner_reports (if isScopeLike n then false else inside).

Fixpoint reports_fuel (fuel : nat) (inside : bool) (n : node) : list ComplexExpression :=
  match fuel with
  | O => []
  | S fuel' => reports_step n (fun inside => flat_map (reports_fuel fuel' inside) (childrenOf n keys)) inside
  end.

Definition reports_in (inside : bool) (n : node) : list ComplexExpression := reports_fuel (node_size n) inside n.

Lemma reports_fuel_enough fuel : forall fuel' inside n, node_size n <= fuel -> node_size n <= fuel' ->
  reports_fuel fuel inside n = reports_fuel fuel' inside n.
Proof.
  induction fuel as [|fuel IH]; intros fuel' inside n H H'; pose proof (node_size_pos n); [lia |].
  destruct fuel' as [|fuel']; [lia |]. cbn [reports_fuel]. unfold reports_step.
  assert (forall b, flat_map (reports_fuel fuel b) (childrenOf n keys) = flat_map (reports_fuel fuel' b) (childrenOf n keys)) as E.
  { intros b. apply flat_map_ext_in. intros c Hc. apply childrenOf_size in Hc. apply IH; lia. }
  by rewrite !E.
Qed.

Lemma reports_in_eq inside n : reports_in inside n =
  reports_step n (fun inside => flat_map (reports_in inside) (childrenOf n keys)) inside.
Proof.
  unfold reports_in at 1. pose proof (node_size_pos n). destruct (node_size n) as [|k] eqn:E; [lia |].
  cbn [reports_fuel]. unfold reports_step.
  assert (forall b, flat_map (reports_fuel k b) (childrenOf n keys) = flat_map (reports_in b) (childrenOf n keys)) as F.
  { intros b. apply flat_map_ext_in. intros c Hc. apply childrenOf_size in Hc. apply reports_fuel_enough; lia. }
  by rewrite !F.
Qed.

Lemma operators_in_eq n : operators_in n =
  if isScopeLike n then [] else operator_of n ++ flat_map operators_in (childrenOf n keys).
Proof.
  unfold operators_in at 1. rewrite below_eq. destruct (isScopeLike n); [done |]. f_equal.
  apply flat_map_ext_in. intros c _. by apply below_parents.
Qed.

Lemma conditional_not_scope n : isConditionalLike n = true -> isScopeLike n = false.
Proof.
  unfold isConditionalLike, isScopeLike. intros [->%String.eqb_eq| ->%String.eqb_eq]%orb_true_iff; reflexivity.
Qed.

(** The walk of a node whose expression is at a level, and has some operators when the
    level is not the first. *)
Definition walked (inside : bool) (n : node) : Prop :=
  forall parents level ops rest reports, (if inside then 0 < level else level = 0 /\ ops = [])%nat ->
  run on_expression_event (events keys parents n) (mkExpressionState (mkComplexity level ops :: rest) reports) =
  Ok (mkExpressionState (mkComplexity level (if inside then ops ++ operators_in n else []) :: rest)
        (reports ++ reports_in inside n)).

Lemma walked_list inside l parents level ops rest reports : Forall (walked inside) l ->
  (if inside then 0 < level else level = 0 /\ ops = [])%nat ->
  run on_expression_event (flat_map (events keys parents) l) (mkExpressionState (mkComplexity level ops :: rest) reports) =
  Ok (mkExpressionState (mkComplexity level (if inside then ops ++ flat_map operators_in l else []) :: rest)
        (reports ++ flat_map (reports_in inside) l)).
Proof.
  intros W. revert ops reports. induction W as [|n l Wn W IH]; intros ops reports L; cbn [flat_map].
  - rewrite !app_nil_r. by destruct inside; [| destruct L as [-> ->]].
  - rewrite run_app, (Wn parents) by done. cbn [rbind]. rewrite IH by (destruct inside; [done | by destruct L]).
    destruct inside; by rewrite <- ?app_assoc.
Qed.

Lemma walk_expressions n : forall inside, walked inside n.
Proof.
  induction n as [n IH] using (node_children_ind keys). intros inside parents level ops rest reports L.
  assert (forall b, Forall (walked b) (childrenOf n keys)) as W by (intros b; apply Forall_forall; intros c Hc; by apply IH).
  rewrite run_events, reports_in_eq. unfold reports_step. rewrite (operators_in_eq n). cbn [on_expression_event].
  destruct (isConditionalLike n) eqn:C.
  - assert (operator_of n = [getOperatorToken n]) as O by (unfold operator_of; by rewrite C).
    rewrite (conditional_not_scope n C), O. cbn [on_top statementLevel complex rbind fst snd nestedLevel operators].
    rewrite (walked_list true) by (auto; lia). cbn [rbind on_top statementLevel complex nestedLevel operators pred].
    rewrite <- !app_assoc. destruct inside.
    + destruct level as [|level]; [lia |]. cbn [Nat.eqb fst snd negb andb]. by rewrite !app_nil_r.
    + destruct L as [-> ->]. cbn [Nat.eqb fst snd negb andb app]. done.
  - assert (operator_of n = []) as -> by (unfold operator_of; by rewrite C). destruct (isScopeLike n) eqn:S.
    + unfold new_complexity. cbn [rbind statementLevel complex]. rewrite (walked_list false) by auto. cbn [rbind statementLevel complex tail].
      destruct inside; [by rewrite app_nil_r | by destruct L as [-> ->]].
    + cbn [rbind]. rewrite (walked_list inside) by auto. done.
Qed.

(** The rule S1067 reports each outermost conditional of an expression that has more
    operators than allowed, counted by recursion down to the calls, objects, elements and functions
    in it, which are expressions of their own; it never throws. *)
Theorem expressions_reported root : complex_expressions root = Ok (reports_in false root).
Proof.
  unfold complex_expressions. by rewrite (walk_expressions root false [] 0 [] []).
Qed.

End S1067.

(** ** S1541 *)

Section S1541.

(** The searches of tokens of ESLint. *)
Variable getFirstTokenBetween : option node -> option node -> (Token -> bool) -> option Token.
Variable getTokenAfter : value -> (Token -> bool) -> Token.
Variable getFirstToken : node -> Token.
Variable sc : SourceCode.
Variable getTokensBefore : node -> list Token.
Variable keys : VisitorKeys.
Variable threshold : nat.

Notation mainLocation := (Cognitive.getMainFunctionTokenLocation sc getTokensBefore).

(** *** The visitor of a function *)

(** The statements that are a branch. *)
Definition branch_statements : list string :=
  ["IfStatement"; "ForStatement"; "ForInStatement"; "ForOfStatement"; "WhileStatement"; "DoWhileStatement"].

(** The token of a node that is not a function. *)
Definition branch_token (n : node) : option Token :=
  if type_of n =s "ConditionalExpression" then
    getFirstTokenBetween (get_node n "test") (get_node n "consequent") (fun t => t_value t =s "?")
  else if type_of n =s "SwitchCase" then
    match get_node n "test" with Some _ => Some (getFirstToken n) | None => None end
  else if includes (type_of n) branch_statements then Some (getFirstToken n)
  else if type_of n =s "LogicalExpression" then
    Some (getTokenAfter (get n "left") (fun t => includes (t_value t) ["||"; "&&"] && (t_type t =s "Punctuator")))
  else None.

(** The locations of the tokens [visitNode] pushes. *)
Definition branch_locations (n : node) : list (option SourceLocation) :=
  match branch_token n with Some t => [Some (t_loc t)] | None => [] end.

(** What is pushed from a node: nothing from other functions. *)
Fixpoint visitNode (fuel : nat) (root : node) (parent : option node) (n : node) : list (option SourceLocation) :=
  match fuel with
  | O => []
  | S fuel' =>
      let inner := flat_map (visitNode fuel' root parent) (childrenOf n keys) in
      if isFunctionNode n then
        if same_node n root then mainLocation n parent :: inner else []
      else branch_locations n ++ inner
  end.

Definition computeCyclomaticComplexity (n : node) (parent : option node) : list (option SourceLocation) :=
  visitNode (node_size n) n parent n.

(** *** The rule *)

(** A report: the function, its complexity, and the locations of the branches. *)
Record ComplexFunction := mkComplexFunction {
  cf_loc : option SourceLocation;
  cf_complexity : nat;
  cf_cost : nat;
  cf_secondary : list (option SourceLocation)
}.

Definition raiseOnUnauthorizedComplexity (n : node) (parent : option node) : list ComplexFunction :=
  let tokens := computeCyclomaticComplexity n parent in
  let complexity := length tokens in
  if Nat.ltb threshold complexity
  then [mkComplexFunction (mainLocation n parent) complexity (complexity - threshold) tokens]
  else [].

(** The functions by identity, with the node and its parent. *)
Record functions_state := mkFunctionsState {
  functionsWithParent : list (nat * (node * option node));
  functionsDefiningModule : list node;
  functionsImmediatelyInvoked : list node;
  complex_functions : list ComplexFunction
}.

(** [CallExpression\[callee.type='Identifier'\]\[callee.name='define'\]] *)
Definition is_define_call (n : node) : bool :=
  (type_of n =s "CallExpression") && isIdentifier (get_node n "callee") ["define"].

Definition includes_node (n : node) (l : list node) : bool := existsb (same_node n) l.

Definition enter_function (n : node) (parents : list node) (st : functions_state) : functions_state :=
  let with_parent :=
    if isFunctionNode n then map_set (h_id (hdr n)) (n, head parents) (functionsWithParent st) else functionsWithParent st in
  let defining :=
    if (type_of n =s "FunctionExpression") && existsb is_define_call parents
    then functionsDefiningModule st ++ [n] else functionsDefiningModule st in
  let invoked :=
    match get_node n "callee" with
    | Some callee =>
        if includes (type_of n) ["NewExpression"; "CallExpression"] && (type_of callee =s "FunctionExpression")
        then functionsImmediatelyInvoked st ++ [callee] else functionsImmediatelyInvoked st
    | None => functionsImmediatelyInvoked st
    end in
  mkFunctionsState with_parent defining invoked (complex_functions st).

(** The functions that are checked at the end of the program. *)
Definition checked (st : functions_state) : list (node * option node) :=
  List.filter (fun f => negb (includes_node f.1 (functionsDefiningModule st))
                        && negb (includes_node f.1 (functionsImmediatelyInvoked st)))
    (functionsWithParent st).*2.

Definition on_function_event (e : event) (st : functions_state) : functions_state :=
  match e with
  | Enter n parents =>
      let st := if type_of n =s "Program" then mkFunctionsState [] [] [] (complex_functions st) else st in
      enter_function n parents st
  | Leave n _ =>
      if type_of n =s "Program" then
        mkFunctionsState (functionsWithParent st) (functionsDefiningModule st) (functionsImmediatelyInvoked st)
          (complex_functions st ++ flat_map (fun f => raiseOnUnauthorizedComplexity f.1 f.2) (checked st))
      else st
  end.

Definition complex_functions_of (program : node) : list ComplexFunction :=
  complex_functions (fold_left (fun st e => on_function_event e st) (events keys [] program)
    (mkFunctionsState [] [] [] [])).

(** *** The complexity of a function *)

(** The branches of a function: those of its nodes that no other function contains. *)
Definition branches_below (n : node) : list (option SourceLocation) :=
  below keys (fun n _ inner => if isFunctionNode n then [] else branch_locations n ++ inner) [] n.

Lemma branches_below_eq n : branches_below n =
  if isFunctionNode n then [] else branch_locations n ++ flat_map branches_below (childrenOf n keys).
Proof.
  unfold branches_below at 1. rewrite below_eq. destruct (isFunctionNode n); [done |]. f_equal.
  apply flat_map_ext_in. intros c _. by apply below_parents.
Qed.

(** No descendant of the children is the function itself. *)
Fixpoint absent_fuel (fuel : nat) (root : node) (n : node) : bool :=
  match fuel with
  | O => true
  | S fuel' => negb (same_node n root) && forallb (absent_fuel fuel' root) (childrenOf n keys)
  end.

Lemma visit_below fuel : forall root parent n, node_size n <= fuel -> absent_fuel fuel root n = true ->
  visitNode fuel root parent n = branches_below n.
Proof.
  induction fuel as [|fuel IH]; intros root parent n H A; pose proof (node_size_pos n); [lia |].
  cbn [visitNode absent_fuel] in *. apply andb_true_iff in A as [N%negb_true_iff A].
  rewrite N, branches_below_eq. destruct (isFunctionNode n); [done |]. f_equal.
  apply flat_map_ext_in. intros c Hc. rewrite forallb_forall in A.
  apply IH; [apply childrenOf_size in Hc; lia | by apply A, list_elem_of_In].
Qed.

(** The complexity of a function is one more than the number of its branches, which are the
    conditionals, the cases, the loops and the logical operators outside the functions in it. *)
Theorem complexity_counts_branches n parent :
  isFunctionNode n = true -> forallb (absent_fuel (pred (node_size n)) n) (childrenOf n keys) = true ->
  computeCyclomaticComplexity n parent =
  mainLocation n parent :: flat_map branches_below (childrenOf n keys).
Proof.
  intros F A. unfold computeCyclomaticComplexity. pose proof (node_size_pos n).
  destruct (node_size n) as [|k] eqn:E; [lia |]. cbn [visitNode pred] in *.
  rewrite F. unfold same_node. rewrite Nat.eqb_refl. f_equal. apply flat_map_ext_in. intros c Hc.
  rewrite forallb_forall in A. apply visit_below; [apply childrenOf_size in Hc; lia | by apply A, list_elem_of_In].
Qed.

End S1541.
