(* ===== verification/Calls.v ===== *)
(** * Calls: rules on calls of functions of libraries

    The helpers of [rules/helpers/ast.ts] on the arguments of calls, and the rules that
    match a qualified name and look at what is passed: the cryptography and the
    connections of Node, its processes and its files, and some packages. A rule is a
    function from a node to its reports; it fails where the code throws. *)

From Stdlib Require Import ZArith QArith Lia Ascii.
From stdpp Require Import base list strings.
From S2P Require Import Prelude JsString Estree JsNumber Reports Ast Modules Aws.

Open Scope js_scope.
Open Scope nat_scope.

Section Calls.

Context (sm : ScopeManager) (parents : node -> list node).
(** The calls that the stack of the engine has room for. *)
Context (stack : nat).
(** [sourceCode.getText], the text of a number and [String.toLocaleLowerCase]. *)
Context (getText : node -> string) (number_text : Q -> string) (toLocaleLowerCase : string -> string).

Local Notation name n := (fullName sm n).

Definition arguments_of (n : node) : list value := get_array n "arguments".
Definition argument_count (n : node) : nat := length (arguments_of n).

(** [getValueOfExpression(context, expr, type)]: without recursion it needs no fuel. *)
Definition valueOf (expr : option node) (type : string) : option node :=
  default None (getValueOfExpression sm 1 expr type false).

(** [getUniqueWriteUsageOrNode(context, node)] *)
Definition writeOrNode (n : node) : node := default n (getUniqueWriteUsageOrNode sm 1 n false).

(** [getProperty(expr, key, context)], [null] and [undefined] apart. *)
Definition lookup_property (expr : option node) (key : string) : eval prop_result :=
  match getProperty sm parents stack expr key with
  | POutOfFuel => Throw RangeError
  | r => Ok r
  end.

(** The property, when there is one. *)
Definition found_property (expr : option node) (key : string) : eval (option node) :=
  let! r := lookup_property expr key in Ok (match r with PFound p => Some p | _ => None end).

Definition literal_value (literal : option node) : value :=
  match literal with Some l => get l "value" | None => VUndefined end.

(** [getValueOfExpression(context, property.value, 'Literal')?.value] *)
Definition property_literal (property : node) : value := literal_value (valueOf (get_node property "value") "Literal").

(** [flattenArgs(context, args)] *)
Definition flattened (args : list value) : eval (list node) :=
  match flattenArgs sm stack args with
  | Ok l => Ok l
  | Throw NullElement => Throw TypeError
  | Throw FlattenOutOfFuel => Throw RangeError
  end.

(** ** [helpers/ast.ts] *)

Definition isRequireModule (n : node) (moduleNames : list string) : bool :=
  isIdentifier (get_node n "callee") ["require"] && Nat.eqb (argument_count n) 1
  && match argument_at n 0 with
     | Some argument =>
         (type_of argument =s "Literal") && includes (text_of_value number_text (get argument "value")) moduleNames
     | None => false
     end.

Definition getPropertyWithValue (objectExpression : node) (propertyName : string) (propertyValue : value) : eval (option node) :=
  let! maybeProperty := found_property (Some objectExpression) propertyName in
  Ok (match maybeProperty with
      | Some property => if strictly_equal (property_literal property) propertyValue then Some property else None
      | None => None
      end).

Definition reference_in (scope : Scope_) (identifier : node) : option Reference :=
  List.find (fun r => same_node (ref_identifier r) identifier) (omap (reference_at sm) (sco_references scope)).

(** The function a reference of the scope resolves to. *)
Definition function_in (functionIdentifier : node) (scope : Scope_) : option node :=
  match reference_in scope functionIdentifier with
  | Some r =>
      match ref_resolved r ≫= variable_at sm with
      | Some v => match var_defs v with
                  | [d] => if def_type d =s "FunctionName" then Some (def_node d) else None
                  | _ => None
                  end
      | None => None
      end
  | None => None
  end.

Definition resolveFromFunctionReference (functionIdentifier : node) : option node :=
  head (omap (function_in functionIdentifier) (sm_scopes sm)).

Definition resolveFunction (n : node) : option node :=
  if isFunctionNode n then Some n
  else if type_of n =s "Identifier" then resolveFromFunctionReference n
  else None.

Definition checkSensitiveCall (callExpression : node) (sensitiveArgumentIndex : nat) (sensitiveProperty : string)
    (sensitivePropertyValue : bool) (message : string) : eval (list ReportDescriptor) :=
  if argument_count callExpression <? sensitiveArgumentIndex + 1 then Ok []
  else
    match valueOf (argument_at callExpression sensitiveArgumentIndex) "ObjectExpression" with
    | None => Ok []
    | Some options =>
        let! unsafeProperty := getPropertyWithValue options sensitiveProperty (VBool sensitivePropertyValue) in
        let! callee := node_at callExpression "callee" in
        Ok (match unsafeProperty with
            | Some p => [report_with message callee [secondary p]]
            | None => []
            end)
    end.

(** ** Qualified names *)

Definition fqn_in (n : node) (names : list string) : bool :=
  match name n with Some s => includes s names | None => false end.

Definition fqn_is (n : node) (s : string) : bool := name_is (name n) s.

(** Reports one after the other. *)
Definition both (a b : eval (list ReportDescriptor)) : eval (list ReportDescriptor) :=
  let! x := a in let! y := b in Ok (x ++ y).

Definition when (b : bool) (m : eval (list ReportDescriptor)) : eval (list ReportDescriptor) := if b then m else Ok [].

(** ** HTTP headers and proxies: S5743, S5759, S5691 *)

Definition S5743_message : string := "Make sure allowing browsers to perform DNS prefetching is safe here.".

Definition S5743 (callExpression : node) : eval (list ReportDescriptor) :=
  both (when (fqn_is callExpression "helmet.dnsPrefetchControl")
          (checkSensitiveCall callExpression 0 "allow" true S5743_message))
    (both (when (fqn_is callExpression "helmet")
             (checkSensitiveCall callExpression 0 "dnsPrefetchControl" false S5743_message))
       (when (fqn_is callExpression "dns-prefetch-control")
          (checkSensitiveCall callExpression 0 "allow" true S5743_message))).

Definition S5759_isSensitiveFQN (call : node) : bool :=
  fqn_in call ["http-proxy.createProxyServer"; "http-proxy-middleware.createProxyMiddleware"].

Definition S5759 (call : node) : eval (list ReportDescriptor) :=
  if S5759_isSensitiveFQN call && (0 <? argument_count call) then
    let! callee := node_at call "callee" in
    let! xfwdProp := found_property (argument_at call 0) "xfwd" in
    Ok (match xfwdProp with
        | Some p =>
            if strictly_equal (property_literal p) (VBool true)
            then [report_with "Make sure forwarding client IP address is safe here." callee [secondary p]] else []
        | None => []
        end)
  else Ok [].

Definition S5691 (n : node) : eval (list ReportDescriptor) :=
  let! callee := node_at n "callee" in
  if fqn_is callee "serve-static" && (1 <? argument_count n) then
    let options :=
      match argument_at n 1 with
      | Some options => if type_of options =s "Identifier" then getUniqueWriteUsage sm (node_name options) n else Some options
      | None => None
      end in
    let! dotfilesProperty := found_property options "dotfiles" in
    Ok (match dotfilesProperty with
        | Some p =>
            match get_node p "value" with
            | Some v => if (type_of v =s "Literal") && str_prop_is v "value" "allow" then [report "safeHiddenFile" p] else []
            | None => []
            end
        | None => []
        end)
  else Ok [].

(** ** Logs: S5757 *)

Definition S5757_message : string := "Make sure confidential information is not logged here.".

Definition S5757 (newExpression : node) : eval (list ReportDescriptor) :=
  let! callee := node_at newExpression "callee" in
  if negb (fqn_is callee "signale.Signale") then Ok []
  else if Nat.eqb (argument_count newExpression) 0 then Ok [report S5757_message callee]
  else
    match valueOf (argument_at newExpression 0) "ObjectExpression" with
    | None => Ok []
    | Some firstArgument =>
        let! secrets := found_property (Some firstArgument) "secrets" in
        Ok (match secrets with
            | Some p =>
                match get_node p "value" with
                | Some v =>
                    if (type_of v =s "ArrayExpression") && Nat.eqb (length (get_array v "elements")) 0
                    then [report_with S5757_message callee [secondary p]] else []
                | None => []
                end
            | None => [report_with S5757_message callee [secondary firstArgument]]
            end)
    end.

(** ** XML: S2755 and S4817 *)

Definition isXmlParserCall (call : node) : bool :=
  existsb (fun parser => name_is (name call) ("libxmljs." +:+ parser)%string) ["parseXml"; "parseXmlString"].

Definition isNoEntSet (property : node) : bool :=
  match get_node property "value" with
  | Some v => (type_of v =s "Literal") && str_prop_is v "raw" "true"
  | None => false
  end.

Definition S2755 (call : node) : eval (list ReportDescriptor) :=
  if isXmlParserCall call then
    let! noent := found_property (argument_at call 1) "noent" in
    let! callee := node_at call "callee" in
    Ok (match noent with
        | Some p => if isNoEntSet p
                    then [report_with "Disable access to external entities in XML parsing." p [secondary callee]] else []
        | None => []
        end)
  else Ok [].

Definition xpathEvalMethods : list string := ["select"; "select1"; "evaluate"].
Definition ieEvalMethods : list string := ["selectNodes"; "SelectSingleNode"].

Definition S4817_MemberExpression (n : node) : list ReportDescriptor :=
  if isMemberExpression n "document" ["evaluate"] then [report "checkXPath" n] else [].

Definition S4817_checkCallExpression (call : node) : eval (list ReportDescriptor) :=
  let! callee := node_at call "callee" in
  if match argument_at call 0 with Some a => isLiteral (Some a) | None => false end then Ok []
  else if isMemberWithProperty callee ieEvalMethods && Nat.eqb (argument_count call) 1
  then Ok [report "checkXPath" callee]
  else if isMemberWithProperty callee ["evaluate"] && negb (isMemberExpression callee "document" ["evaluate"])
          && (4 <=? argument_count call)
          && match argument_at call 3 with Some a => string_includes "XPathResult" (getText a) | None => false end
  then Ok [report "checkXPath" callee]
  else if existsb (fun method => fqn_is callee ("xpath." +:+ method)%string) xpathEvalMethods
  then Ok [report "checkXPath" callee]
  else Ok [].

(** ** Sockets and processes: S4818, S4721, S4036 *)

Definition S4818_checkCallExpression (callExpr : node) (sensitiveFqns : list string) : eval (list ReportDescriptor) :=
  let! callee := node_at callExpr "callee" in
  Ok (if existsb (fun sensitiveFqn => fqn_is callExpr sensitiveFqn) sensitiveFqns then [report "safeSocket" callee] else []).

Definition S4818 (n : node) : eval (list ReportDescriptor) :=
  if type_of n =s "NewExpression" then S4818_checkCallExpression n ["net.Socket"]
  else if type_of n =s "CallExpression" then S4818_checkCallExpression n ["net.createConnection"; "net.connect"]
  else Ok [].

Definition EXEC_FUNCTIONS : list string := ["exec"; "execSync"].
Definition SPAWN_EXEC_FILE_FUNCTIONS : list string := ["spawn"; "spawnSync"; "execFile"; "execFileSync"].

Definition is_shell_option (v : node) : bool :=
  (type_of v =s "Property") && isIdentifier (get_node v "key") ["shell"]
  && match get_node v "value" with
     | Some x => (type_of x =s "Literal") && strictly_equal (get x "value") (VBool true)
     | None => false
     end.

Definition containsShellOption (otherArguments : list node) : bool :=
  existsb (fun arg => (type_of arg =s "ObjectExpression") && existsb is_shell_option (get_nodes arg "properties")) otherArguments.

(** [method] is [undefined] for a name without a dot. *)
Definition isQuestionable (method : option string) (args : list node) : bool :=
  match args with
  | [] => false
  | command :: otherArguments =>
      if isLiteral (Some command) || isStaticTemplateLiteral command then false
      else
        match method with
        | Some m => if includes m SPAWN_EXEC_FILE_FUNCTIONS then containsShellOption otherArguments else includes m EXEC_FUNCTIONS
        | None => false
        end
  end.

Definition S4721 (call : node) : eval (list ReportDescriptor) :=
  let! callee := node_at call "callee" in
  match name call with
  | Some fqn =>
      let parts := split_char "."%char fqn in
      Ok (if match head parts with Some m => m =s "child_process" | None => false end
             && isQuestionable (parts !! 1) (get_nodes call "arguments")
          then [report "safeOSCommand" callee] else [])
  | None => Ok []
  end.

Definition SENSITIVE_METHODS : list string := ["exec"; "execSync"; "spawn"; "spawnSync"; "execFile"; "execFileSync"].

Definition REQUIRED_PATH_PREFIXES : list string :=
  ["./"; ("." +:+ bytes [92])%string; "../"; (".." +:+ bytes [92])%string; "/"; bytes [92]; ("C:" +:+ bytes [92])%string].

Definition S4036_findSensitiveArgument (call : node) : option node :=
  match argument_at call 0 with
  | Some pathArg =>
      match valueOf (Some pathArg) "Literal" with
      | Some literal =>
          match get literal "value" with
          | VStr s => if existsb (fun prefix => startsWith prefix s) REQUIRED_PATH_PREFIXES then None else Some pathArg
          | _ => None
          end
      | None => None
      end
  | None => None
  end.

Definition S4036 (n : node) : list ReportDescriptor :=
  if existsb (fun method => fqn_is n ("child_process." +:+ method)%string) SENSITIVE_METHODS then
    match S4036_findSensitiveArgument n with Some a => [report "issue" a] | None => [] end
  else [].

(** ** Ciphers and hashes: S5542, S5547, S4790, S4787 *)

Definition aliases : list string :=
  ["AES128"; "AES192"; "AES256"; "BF"; "blowfish"; "CAMELLIA128"; "CAMELLIA192"; "CAMELLIA256"; "CAST"; "DES";
   "DES-EDE"; "DES-EDE3"; "DES3"; "DESX"; "RC2"; "RC2-40"; "RC2-64"; "RC2-128"; "SEED"].

(** The patterns, which ignore the case of ASCII letters and match nothing else. *)
Definition insecure_mode (s : string) : bool :=
  let s := toLowerCase_ascii s in
  string_includes "cbc" s || string_includes "ecb" s || existsb (fun alias => s =s toLowerCase_ascii alias) aliases.

Definition S5542 (callExpression : node) : list ReportDescriptor :=
  if negb (fqn_is callExpression "crypto.createCipheriv") then []
  else
    match argument_at callExpression 0 with
    | Some sensitiveArgument =>
        match literal_value (valueOf (Some sensitiveArgument) "Literal") with
        | VStr s => if insecure_mode s then [report "useSecureMode" sensitiveArgument] else []
        | _ => []
        end
    | None => []
    end.

Definition WEAK_CIPHERS : list string := ["bf"; "blowfish"; "des"; "rc2"; "rc4"].

(** [literal.value?.toString()] *)
Definition literal_text_of (literal : node) : option string :=
  match get literal "value" with
  | VUndefined | VNull => None
  | v => Some (text_of_value number_text v)
  end.

Definition S5547 (callExpression : node) : list ReportDescriptor :=
  if fqn_is callExpression "crypto.createCipheriv" then
    match valueOf (argument_at callExpression 0) "Literal" with
    | Some algorithm =>
        match toLowerCase_ascii <$> literal_text_of algorithm with
        | Some s => if existsb (fun cipher => startsWith cipher s) WEAK_CIPHERS then [report "strongerCipher" algorithm] else []
        | None => []
        end
    | None => []
    end
  else [].

Definition CRYPTO_UNSECURE_HASH_ALGORITHMS : list string :=
  ["md2"; "md4"; "md5"; "md6"; "haval128"; "hmacmd5"; "dsa"; "ripemd"; "ripemd128"; "ripemd160"; "hmacripemd160"; "sha1"].
Definition SUBTLE_UNSECURE_HASH_ALGORITHMS : list string := ["sha-1"].

Definition checkUnsecureAlgorithm (method hash : node) (unsecureAlgorithms : list string) : list ReportDescriptor :=
  let hashAlgorithm := writeOrNode hash in
  match get hashAlgorithm "value" with
  | VStr s =>
      if isStringLiteral hashAlgorithm && includes (toLocaleLowerCase s) unsecureAlgorithms
      then [report "Make sure this weak hash algorithm is not used in a sensitive context here." method] else []
  | _ => []
  end.

Definition checkNodejsCrypto (n callee hash : node) : list ReportDescriptor :=
  if fqn_is n "crypto.createHash" then checkUnsecureAlgorithm callee hash CRYPTO_UNSECURE_HASH_ALGORITHMS else [].

Definition checkSubtleCrypto (n callee hash : node) : list ReportDescriptor :=
  if fqn_is n "crypto.subtle.digest" then checkUnsecureAlgorithm callee hash SUBTLE_UNSECURE_HASH_ALGORITHMS else [].

Definition S4790 (callExpr : node) : eval (list ReportDescriptor) :=
  match argument_at callExpr 0 with
  | Some hash =>
      let! callee := node_at callExpr "callee" in
      Ok (checkNodejsCrypto callExpr callee hash ++ checkSubtleCrypto callExpr callee hash)
  | None => Ok []
  end.

Definition clientSideEncryptMethods : list string := ["encrypt"; "decrypt"].
Definition serverSideEncryptMethods : list string :=
  ["createCipher"; "createCipheriv"; "createDecipher"; "createDecipheriv"; "publicEncrypt"; "publicDecrypt";
   "privateEncrypt"; "privateDecrypt"].

Definition checkForServerSide (callee : node) : list ReportDescriptor :=
  if existsb (fun method => fqn_is callee ("crypto." +:+ method)%string) serverSideEncryptMethods
  then [report "safeEncryption" callee] else [].

Definition checkForClientSide (callee : node) : list ReportDescriptor :=
  if isIdentifier (Some callee) clientSideEncryptMethods || isMemberWithProperty callee clientSideEncryptMethods
  then [report "safeEncryption" callee] else [].

(** The handlers of S4787, on [usingCryptoInFile]. *)
Definition S4787_MemberExpression (n : node) (usingCryptoInFile : bool) : bool :=
  usingCryptoInFile
  || (isIdentifier (get_node n "property") ["subtle"]
      && (isIdentifier (get_node n "object") ["crypto"]
          || match get_node n "object" with Some o => isMemberWithProperty o ["crypto"] | None => false end)).

Definition S4787_CallExpression_exit (n : node) (usingCryptoInFile : bool) : eval (list ReportDescriptor) :=
  let! callee := node_at n "callee" in
  Ok ((if usingCryptoInFile then checkForClientSide callee else []) ++ checkForServerSide callee).

(** ** Keys and protocols: S4426, S4423 *)

Definition MINIMAL_MODULUS_LENGTH : Z := 2048.
Definition MINIMAL_DIVISOR_LENGTH : Z := 224.
Definition WEAK_CURVES : list string :=
  ["secp112r1"; "secp112r2"; "secp128r1"; "secp128r2"; "secp160k1"; "secp160r1"; "secp160r2"; "secp160r2"; "secp192k1";
   "secp192r1"; "prime192v2"; "prime192v3"; "sect113r1"; "sect113r2"; "sect131r1"; "sect131r2"; "sect163k1"; "sect163r1";
   "sect163r2"; "sect193r1"; "sect193r2"; "c2tnb191v1"; "c2tnb191v2"; "c2tnb191v3"].

Definition getNumericValue (n : option node) : option jsnum :=
  match literal_value (valueOf n "Literal") with VNum x => Some x | _ => None end.

(** [length && length < minimum] *)
Definition too_short (l : option jsnum) (minimum : Z) : bool :=
  match l with
  | Some (NumQ q) => negb (Qeq_bool q 0) && negb (Qle_bool (inject_Z minimum) q)
  | Some (NumInfinity negative) => negative
  | _ => false
  end.

(** The check of a length of [checkRsaAndDsaOptions]. *)
Definition check_length (messageId key : string) (minimum : Z) (algorithm : string) (options : node)
  : eval (list ReportDescriptor) :=
  let! property := found_property (Some options) key in
  Ok (match property with
      | Some p =>
          if too_short (getNumericValue (get_node p "value")) minimum
          then [report_data messageId p [("minimalLength", text_of_value number_text (VNum (NumQ (inject_Z minimum))));
                                         ("algorithm", algorithm)]]
          else []
      | None => []
      end).

Definition checkRsaAndDsaOptions (algorithm : string) (options : node) : eval (list ReportDescriptor) :=
  both (check_length "modulusLength" "modulusLength" MINIMAL_MODULUS_LENGTH algorithm options)
    (check_length "divisorLength" "divisorLength" MINIMAL_DIVISOR_LENGTH algorithm options).

Definition checkEcCurve (options : node) : eval (list ReportDescriptor) :=
  let! namedCurveProperty := found_property (Some options) "namedCurve" in
  Ok (match namedCurveProperty with
      | Some p =>
          match valueOf (get_node p "value") "Literal" ≫= literal_text_of with
          | Some namedCurve =>
              if includes namedCurve WEAK_CURVES then [report_data "strongerCurve" p [("curve", namedCurve)]] else []
          | None => []
          end
      | None => []
      end).

Definition S4426 (callExpression : node) : eval (list ReportDescriptor) :=
  let! callee := node_at callExpression "callee" in
  if (type_of callee =s "MemberExpression")
     && isIdentifier (get_node callee "property") ["generateKeyPair"; "generateKeyPairSync"] then
    if argument_count callExpression <? 2 then Ok []
    else
      match valueOf (argument_at callExpression 1) "ObjectExpression" with
      | None => Ok []
      | Some optionsArg =>
          match literal_value (valueOf (argument_at callExpression 0) "Literal") with
          | VStr algorithm =>
              if (algorithm =s "rsa") || (algorithm =s "dsa") then checkRsaAndDsaOptions algorithm optionsArg
              else if algorithm =s "ec" then checkEcCurve optionsArg else Ok []
          | _ => Ok []
          end
      end
  else Ok [].

Definition SECURE_PROTOCOL_ALLOWED_VALUES : list string :=
  ["TLSv1_2_method"; "TLSv1_2_client_method"; "TLSv1_2_server_method"; "TLS_method"; "TLS_client_method"; "TLS_server_method"].

Definition getValueOfProperty (objectExpression : option node) (propertyName : string) : eval (option node) :=
  let! unsafeProperty := found_property objectExpression propertyName in
  Ok (match unsafeProperty with Some p => valueOf (get_node p "value") "Literal" | None => None end).

Definition checkMinMaxVersion (propertyName : string) (property : option node) : list ReportDescriptor :=
  match property with
  | Some p =>
      if str_prop_is p "value" "TLSv1.1" || str_prop_is p "value" "TLSv1"
      then [report_data "useMinimumTLS" p [("option", propertyName)]] else []
  | None => []
  end.

(** [acc\[0\] = null] *)
Definition set_first_null (acc : list (option string)) : list (option string) := None :: tail acc.

(** The recursion goes down the operands: the size of the node is enough fuel. *)
Fixpoint collectIdentifiersFromBinary (fuel : nat) (n : node) (acc : list (option string)) : list (option string) :=
  match fuel with
  | O => acc
  | S fuel' =>
      if type_of n =s "BinaryExpression" then
        match get_node n "left", get_node n "right" with
        | Some l, Some r => collectIdentifiersFromBinary fuel' r (collectIdentifiersFromBinary fuel' l acc)
        | _, _ => acc
        end
      else
        match get_node n "object", get_node n "property" with
        | Some object, Some property =>
            if (type_of n =s "MemberExpression") && fqn_is object "constants" && (type_of property =s "Identifier")
            then acc ++ [Some (node_name property)] else set_first_null acc
        | _, _ => set_first_null acc
        end
  end.

Definition isValidSecureOptions (options : node) : bool :=
  let flags := collectIdentifiersFromBinary (node_size options) options [] in
  match head flags with Some None => true | _ => false end
  || (bool_decide (Some "SSL_OP_NO_TLSv1" ∈ flags) && bool_decide (Some "SSL_OP_NO_TLSv1_1" ∈ flags)).

Definition checkSslOptions (optionsNode : option node) : eval (list ReportDescriptor) :=
  let options := valueOf optionsNode "ObjectExpression" in
  let! minVersion := getValueOfProperty options "minVersion" in
  let! maxVersion := getValueOfProperty options "maxVersion" in
  let! secureProtocol := getValueOfProperty options "secureProtocol" in
  let! secureOptions := found_property options "secureOptions" in
  Ok (checkMinMaxVersion "minVersion" minVersion ++ checkMinMaxVersion "maxVersion" maxVersion
      ++ match secureProtocol with
         | Some p =>
             if negb (includes (default "" (literal_text_of p)) SECURE_PROTOCOL_ALLOWED_VALUES)
             then [report_data "useMinimumTLS" p [("option", "secureProtocol")]] else []
         | None => []
         end
      ++ match secureOptions with
         | Some p =>
             match get_node p "value" with
             | Some v => if isValidSecureOptions v then [] else [report_data "useSecureTLS" p [("option", "secureOptions")]]
             | None => []
             end
         | None => []
         end).

Definition S4423 (callExpression : node) : eval (list ReportDescriptor) :=
  let check i := checkSslOptions (argument_at callExpression i) in
  both (when (fqn_is callExpression "https.request") (both (check 0) (check 1)))
    (both (when (fqn_is callExpression "request.get") (check 0))
       (both (when (fqn_is callExpression "tls.connect") (both (check 0) (both (check 1) (check 2))))
          (when (fqn_is callExpression "tls.createSecureContext") (check 0)))).

(** ** Certificates: S4830 and S5527 *)

Definition different_node (a : option node) (b : node) : bool :=
  match a with Some a => negb (same_node a b) | None => true end.

Definition quoted (s : string) : string := (bytes [34] +:+ s +:+ bytes [34])%string.

Definition reject_message : string := ("Set " +:+ quoted "rejectUnauthorized" +:+ " to " +:+ quoted "true" +:+ ".")%string.

(** The arguments of the connections the two rules check. *)
Definition on_connections (check : nat -> eval (list ReportDescriptor)) (callExpression : node) : eval (list ReportDescriptor) :=
  both (when (fqn_is callExpression "https.request") (check 0))
    (both (when (fqn_is callExpression "request.get") (check 0))
       (when (fqn_is callExpression "tls.connect") (check 2))).

Definition S4830_checkSensitiveArgument (callExpression : node) (sensitiveArgumentIndex : nat) : eval (list ReportDescriptor) :=
  if argument_count callExpression <? sensitiveArgumentIndex + 1 then Ok []
  else
    let sensitiveArgument := argument_at callExpression sensitiveArgumentIndex in
    match valueOf sensitiveArgument "ObjectExpression" with
    | None => Ok []
    | Some argumentValue =>
        let! callee := node_at callExpression "callee" in
        let! unsafe := getPropertyWithValue argumentValue "rejectUnauthorized" (VBool false) in
        Ok (match unsafe with
            | Some p =>
                [report_with "Enable server certificate validation on this SSL/TLS connection." callee
                   ((if different_node sensitiveArgument argumentValue then [secondary argumentValue] else [])
                    ++ [secondary_with p reject_message])]
            | None => []
            end)
    end.

Definition S4830 (callExpression : node) : eval (list ReportDescriptor) :=
  on_connections (S4830_checkSensitiveArgument callExpression) callExpression.

Section Visits.

(** [context.sourceCode.visitorKeys] *)
Variable visitorKeys : VisitorKeys.

(** [ReturnStatementsVisitor]: the size of the node is enough fuel. *)
Fixpoint visit_returns (fuel : nat) (n : node) : list node :=
  match fuel with
  | O => []
  | S fuel' =>
      if includes (type_of n) FUNCTION_NODES then []
      else (if type_of n =s "ReturnStatement" then [n] else [])
           ++ flat_map (visit_returns fuel') (childrenOf n visitorKeys)
  end.

Definition getReturnStatements (n : node) : list node := visit_returns (node_size n) n.

Definition shouldReportOnCheckServerIdentityCallBack (checkServerIdentityProperty : node) : bool :=
  let v := get_node checkServerIdentityProperty "value" in
  let baseFunction :=
    match valueOf v "FunctionExpression" with Some f => Some f | None => valueOf v "ArrowFunctionExpression" end in
  match baseFunction ≫= (fun f => get_node f "body") with
  | Some body =>
      if type_of body =s "BlockStatement" then
        let returnStatements := getReturnStatements body in
        Nat.eqb (length returnStatements) 0
        || forallb (fun r =>
             match get_node r "argument" with
             | None => true
             | Some a => strictly_equal (literal_value (valueOf (Some a) "Literal")) (VBool true)
             end) returnStatements
      else false
  | None => false
  end.

Definition S5527_checkSensitiveArgument (callExpression : node) (sensitiveArgumentIndex : nat) : eval (list ReportDescriptor) :=
  if argument_count callExpression <? sensitiveArgumentIndex + 1 then Ok []
  else
    let sensitiveArgument := argument_at callExpression sensitiveArgumentIndex in
    match valueOf sensitiveArgument "ObjectExpression" with
    | None => Ok []
    | Some argumentValue =>
        let! callee := node_at callExpression "callee" in
        let! unsafe := getPropertyWithValue argumentValue "rejectUnauthorized" (VBool false) in
        let! checkServerIdentityProperty := found_property (Some argumentValue) "checkServerIdentity" in
        let unsafeLocations := match unsafe with Some p => [secondary_with p reject_message] | None => [] end in
        let identityLocations :=
          match checkServerIdentityProperty with
          | Some p => if shouldReportOnCheckServerIdentityCallBack p then [secondary p] else []
          | None => []
          end in
        Ok (match unsafeLocations ++ identityLocations with
            | [] => []
            | locations =>
                [report_with "Enable server hostname verification on this SSL/TLS connection." callee
                   ((if different_node sensitiveArgument argumentValue then [secondary argumentValue] else []) ++ locations)]
            end)
    end.

Definition S5527 (callExpression : node) : eval (list ReportDescriptor) :=
  on_connections (S5527_checkSensitiveArgument callExpression) callExpression.

(** ** Sessions: S5876 *)

Definition isSessionRegenerate (n : node) : bool :=
  (type_of n =s "CallExpression")
  && match get_node n "callee" with
     | Some callee => (type_of callee =s "MemberExpression") && isIdentifier (get_node callee "property") ["regenerate"]
     | None => false
     end.

(** [visitCallback], on the flag [sessionRegenerate]: the recursion ends once a call is
    found. *)
Fixpoint visitCallback (fuel : nat) (sessionRegenerate : bool) (n : node) : bool :=
  match fuel with
  | O => sessionRegenerate
  | S fuel' =>
      if sessionRegenerate then true
      else if isSessionRegenerate n then true
      else fold_left (visitCallback fuel') (childrenOf n visitorKeys) false
  end.

Definition hasSessionFalseOption (callExpression : node) : eval bool :=
  match argument_at callExpression 1 with
  | Some opt =>
      if type_of opt =s "ObjectExpression" then
        let! sessionProp := getPropertyWithValue opt "session" (VBool false) in
        Ok (match sessionProp with Some _ => true | None => false end)
      else Ok false
  | None => Ok false
  end.

(** The handler of calls, with the parent of the call. *)
Definition S5876 (parent : option node) (callExpression : node) : eval (list ReportDescriptor) :=
  if fqn_is callExpression "passport.authenticate" then
    let! safe := hasSessionFalseOption callExpression in
    if (safe : bool) then Ok []
    else
      match parent with
      | None => Throw TypeError
      | Some parent =>
          if type_of parent =s "CallExpression" then
            match valueOf (argument_at parent 2) "FunctionExpression" with
            | Some callback =>
                Ok (if visitCallback (node_size callback) false callback then [] else [report "createSession" callback])
            | None => Ok []
            end
          else Ok []
      end
  else Ok [].

End Visits.

(** ** JSON web tokens: S5659 *)

Definition S5659_secondary : string :=
  ("The " +:+ quoted "algorithms" +:+ " option should be defined and should not contain 'none'.")%string.

Definition raiseIssueOn (n : node) (message : string) (secondaryLocations : list node) : list ReportDescriptor :=
  [report_with message n (map (fun l => secondary_with l S5659_secondary) secondaryLocations)].

Definition SIGN_MESSAGE : string := "Use only strong cipher algorithms when signing this JWT.".
Definition VERIFY_MESSAGE : string := "Use only strong cipher algorithms when verifying the signature of this JWT.".

Definition checkCallToSign (callee thirdArgumentValue : node) (secondaryLocations : list node) : eval (list ReportDescriptor) :=
  let! unsafeAlgorithmProperty := getPropertyWithValue thirdArgumentValue "algorithm" (VStr "none") in
  Ok (match unsafeAlgorithmProperty with
      | Some p =>
          let locations :=
            match valueOf (get_node p "value") "Literal" with
            | Some v => if different_node (get_node p "value") v then secondaryLocations ++ [v] else secondaryLocations
            | None => secondaryLocations
            end in
          raiseIssueOn callee SIGN_MESSAGE locations
      | None => []
      end).

Definition checkCallToVerify (callee publicKey thirdArgumentValue : node) (secondaryLocations : list node)
  : eval (list ReportDescriptor) :=
  let! algorithmsProperty := found_property (Some thirdArgumentValue) "algorithms" in
  Ok (match algorithmsProperty with
      | None => if isNullLiteral publicKey then raiseIssueOn callee VERIFY_MESSAGE secondaryLocations else []
      | Some p =>
          match valueOf (get_node p "value") "ArrayExpression" with
          | None => []
          | Some algorithmsValue =>
              let algorithmsContainNone :=
                existsb (fun e => strictly_equal (literal_value (valueOf (as_node e) "Literal")) (VStr "none"))
                  (get_array algorithmsValue "elements") in
              if algorithmsContainNone then
                raiseIssueOn callee VERIFY_MESSAGE
                  (if different_node (get_node p "value") algorithmsValue
                   then secondaryLocations ++ [algorithmsValue] else secondaryLocations)
              else []
          end
      end).

Definition S5659 (callExpression : node) : eval (list ReportDescriptor) :=
  let isCallToSign := fqn_is callExpression "jsonwebtoken.sign" in
  let isCallToVerify := fqn_is callExpression "jsonwebtoken.verify" in
  if negb isCallToSign && negb isCallToVerify then Ok []
  else if argument_count callExpression <? 3 then Ok []
  else
    match argument_at callExpression 2 with
    | None => Ok []
    | Some thirdArgument =>
        match valueOf (Some thirdArgument) "ObjectExpression" with
        | None => Ok []
        | Some thirdArgumentValue =>
            let! callee := node_at callExpression "callee" in
            let secondaryLocations :=
              thirdArgumentValue :: if negb (same_node thirdArgumentValue thirdArgument) then [thirdArgument] else [] in
            if isCallToSign then checkCallToSign callee thirdArgumentValue secondaryLocations
            else
              match argument_at callExpression 1 with
              | Some secondArgument => checkCallToVerify callee secondArgument thirdArgumentValue secondaryLocations
              | None => Ok []
              end
        end
    end.

(** ** Archives: S5042 *)

Definition canBeProperty (prop : node) (propName : string) : bool :=
  (type_of prop =s "SpreadElement")
  || match get_node prop "key" with
     | Some key => isIdentifier (Some key) [propName] || (isLiteral (Some key) && str_prop_is key "value" propName)
     | None => false
     end.

(** An argument whose value is an object without the property. *)
Definition lacks_option (argument : option node) (option_name : string) : bool :=
  match argument with
  | Some a =>
      match valueOf (Some a) "ObjectExpression" with
      | Some o => negb (existsb (fun prop => canBeProperty prop option_name) (get_nodes o "properties"))
      | None => false
      end
  | None => false
  end.

Definition isSensitiveTarCall (call : node) : bool := fqn_is call "tar.x" && lacks_option (argument_at call 0) "filter".

Definition isSensitiveExtractZipCall (call : node) : bool :=
  fqn_is call "extract-zip" && lacks_option (argument_at call 1) "onEntry".

Definition S5042 (call : node) : eval (list ReportDescriptor) :=
  let! callee := node_at call "callee" in
  Ok (if isSensitiveTarCall call || isSensitiveExtractZipCall call
         || fqn_in call ["jszip.loadAsync"; "yauzl.open"; "adm-zip.extractAllTo"]
      then [report "safeExpanding" callee] else []).

(** ** Debugging: S4507, with the ancestors of the call *)

Definition isInsideConditional (ancestors : list node) : bool := existsb (fun a => type_of a =s "IfStatement") ancestors.

Definition S4507 (ancestors : list node) (callExpression : node) : eval (list ReportDescriptor) :=
  let! callee := node_at callExpression "callee" in
  if isMemberWithProperty callee ["use"] && (0 <? argument_count callExpression) && negb (isInsideConditional ancestors) then
    let! args := flattened (arguments_of callExpression) in
    Ok (flat_map (fun m =>
          let middleware := writeOrNode m in
          if (type_of middleware =s "CallExpression") && fqn_is middleware "errorhandler"
          then [report "deactivateDebug" middleware] else []) args)
  else Ok [].

(** ** Windows: S5148 *)

Definition isThisWindow (n : node) : bool :=
  (type_of n =s "MemberExpression") && opt_type_is (get_node n "object") "ThisExpression"
  && isIdentifier (get_node n "property") ["window"].

Definition extractString (n : option node) : option string :=
  match literal_value (valueOf n "Literal") with VStr s => Some s | _ => None end.

Definition isHttpUrl (argument : option node) : bool :=
  match extractString argument with Some s => startsWith "http://" s || startsWith "https://" s | None => false end.

Definition hasRequiredOption (argument : option node) : bool :=
  match extractString argument with Some s => string_includes "noopener" s | None => false end.

Definition S5148 (n : node) : list ReportDescriptor :=
  if isMethodCall n then
    match callee_prop n "object", callee_prop n "property" with
    | Some object, Some property =>
        if isIdentifier (Some property) ["open"] && (isIdentifier (Some object) ["window"] || isThisWindow object)
           && isHttpUrl (argument_at n 0)
           && ((argument_count n <=? 2) || negb (hasRequiredOption (argument_at n 2)))
        then [report "missingNoopener" property] else []
    | _, _ => []
    end
  else [].

(** ** Permissions of files: S2612 *)

Definition chmodLikeFunction : list string := ["chmod"; "chmodSync"; "fchmod"; "fchmodSync"; "lchmod"; "lchmodSync"].

Definition isChmodLikeFunction (n : node) : bool :=
  match get_node n "callee" with
  | Some callee => (type_of callee =s "MemberExpression") && isIdentifier (get_node callee "property") chmodLikeFunction
  | None => false
  end.

(** [Number.parseInt(text, 8)] *)
Definition parse_octal (text : string) : jsnum :=
  let digits s := match read_digits 8 0 0 s with (v, S _, _) => Some v | _ => None end in
  JsNumber.of_option (inject_Z <$>
    match trimStart text with
    | String c r =>
        if Ascii.eqb c "-" then Z.opp <$> digits r
        else if Ascii.eqb c "+" then digits r else digits (String c r)
    | EmptyString => None
    end).

(** A mode: [None] is [null]; [undefined] is [NumNaN], since the code only asks
    whether it is truthy and whether it is not a number. *)
Definition mode : Type := option jsnum.

Definition modeFromLiteral (modeExpr : node) : mode :=
  match get modeExpr "value" with
  | VStr modeValue => Some (parse_octal modeValue)
  | VNum modeValue =>
      match get_str modeExpr "raw" with
      | Some raw => if startsWith "0" raw && negb (startsWith "0o" raw) then Some (parse_octal raw) else Some modeValue
      | None => Some modeValue
      end
  | _ => None
  end.

Definition FS_CONST : list (string * Z) :=
  [("S_IRWXU", 448); ("S_IRUSR", 256); ("S_IWUSR", 128); ("S_IXUSR", 64);
   ("S_IRWXG", 56); ("S_IRGRP", 32); ("S_IWGRP", 16); ("S_IXGRP", 8);
   ("S_IRWXO", 7); ("S_IROTH", 4); ("S_IWOTH", 2); ("S_IXOTH", 1)]%Z.

(** The names that objects inherit are not constants of [fs]. *)
Definition modeFromMemberExpression (modeExpr : node) : mode :=
  match get_node modeExpr "object", get_node modeExpr "property" with
  | Some object, Some property =>
      if isMemberExpression object "fs" ["constants"] && (type_of property =s "Identifier")
      then Some (JsNumber.of_option (inject_Z <$> map_get (node_name property) FS_CONST)) else None
  | _, _ => None
  end.

Definition truthy_mode (m : mode) : bool := match m with Some x => truthy (VNum x) | None => false end.

(** [leftValue && rightValue ? leftValue | rightValue : null] *)
Definition bitwise_or (a b : mode) : mode :=
  match a, b with
  | Some x, Some y =>
      if truthy_mode a && truthy_mode b then Some (NumQ (inject_Z (Z.lor (to_int32 x) (to_int32 y)))) else None
  | _, _ => None
  end.

(** [modeFromExpression(expr, visited)], with the nodes visited after it; a usage is
    followed once, so that the recursion ends. *)
Fixpoint modeFromExpression (fuel : nat) (expr : option node) (visited : list nat) : eval (mode * list nat) :=
  match fuel with
  | O => Throw RangeError
  | S fuel' =>
      match expr with
      | None => Ok (None, visited)
      | Some e =>
          if type_of e =s "MemberExpression" then Ok (modeFromMemberExpression e, visited)
          else if type_of e =s "Literal" then Ok (modeFromLiteral e, visited)
          else if type_of e =s "Identifier" then
            match getUniqueWriteUsage sm (node_name e) e with
            | Some usage =>
                if set_has (h_id (hdr usage)) visited then Ok (None, visited)
                else modeFromExpression fuel' (Some usage) (set_add (h_id (hdr usage)) visited)
            | None => Ok (None, visited)
            end
          else if (type_of e =s "BinaryExpression") && str_prop_is e "operator" "|" then
            let! (leftValue, visited) := modeFromExpression fuel' (get_node e "left") visited in
            let! (rightValue, visited) := modeFromExpression fuel' (get_node e "right") visited in
            Ok (bitwise_or leftValue rightValue, visited)
          else Ok (None, visited)
      end
  end.

(** [mode % 8 !== moduloTest], for a mode that is a number. *)
Definition differs_modulo_8 (x : jsnum) (moduloTest : Z) : bool :=
  match x with
  | NumQ q =>
      let truncated := (Z.quot (Qnum q) (8 * Zpos (Qden q)))%Z in
      negb (Qeq_bool (q - inject_Z (8 * truncated)) (inject_Z moduloTest))
  | NumInfinity _ => true
  | NumNaN => false
  end.

Definition checkModeArgument (n : option node) (moduloTest : Z) : eval (list ReportDescriptor) :=
  let! (m, _) := modeFromExpression stack n [] in
  Ok (match m, n with
      | Some x, Some n => if differs_modulo_8 x moduloTest then [report "safePermission" n] else []
      | _, _ => []
      end).

Definition S2612 (callExpression : node) : eval (list ReportDescriptor) :=
  if isChmodLikeFunction callExpression
  then both (checkModeArgument (argument_at callExpression 0) 0) (checkModeArgument (argument_at callExpression 1) 0)
  else if fqn_is callExpression "process.umask" then checkModeArgument (argument_at callExpression 0) 7
  else Ok [].

End Calls.

(** ** Templates and concatenations: S2077, S6268, S4784, S1523 *)

Definition isHardcodedLiteral (n : node) : bool :=
  (type_of n =s "Literal") || ((type_of n =s "TemplateLiteral") && Nat.eqb (length (get_array n "expressions")) 0).

Definition isConcatenation (n : node) : bool := (type_of n =s "BinaryExpression") && str_prop_is n "operator" "+".

(** The loop goes down the left operands: the size of the node is enough fuel. *)
Fixpoint isVariableConcat (fuel : nat) (n : node) : bool :=
  match fuel, get_node n "left", get_node n "right" with
  | S fuel', Some l, Some r =>
      if negb (isHardcodedLiteral r) then true
      else if isConcatenation l then isVariableConcat fuel' l
      else negb (isHardcodedLiteral l)
  | _, _, _ => false
  end.

Definition isTemplateWithVar (n : node) : bool :=
  (type_of n =s "TemplateLiteral") && negb (Nat.eqb (length (get_array n "expressions")) 0).

Definition S2077_isQuestionable (sqlQuery : option node) : bool :=
  match sqlQuery with
  | None => false
  | Some q =>
      if isTemplateWithVar q then true
      else if isConcatenation q then isVariableConcat (node_size q) q
      else (type_of q =s "CallExpression")
           && match get_node q "callee" with Some c => isMemberWithProperty c ["concat"; "replace"] | None => false end
  end.

Definition dbModules : list string := ["pg"; "mysql"; "mysql2"; "sequelize"].

(** The handlers of S2077, on [isDbModuleImported]. *)
Definition S2077_ImportDeclaration (number_text : Q -> string) (n : node) (isDbModuleImported : bool) : bool :=
  match get_node n "source" with
  | Some source => includes (text_of_value number_text (get source "value")) dbModules || isDbModuleImported
  | None => isDbModuleImported
  end.

Definition S2077_CallExpression (number_text : Q -> string) (call : node) (isDbModuleImported : bool)
  : bool * list ReportDescriptor :=
  if isRequireModule number_text call dbModules then (true, [])
  else
    (isDbModuleImported,
     match get_node call "callee" with
     | Some callee =>
         if isDbModuleImported && isMemberWithProperty callee ["query"] && S2077_isQuestionable (argument_at call 0)
         then [report "safeQuery" callee] else []
     | None => []
     end).

Definition bypassMethods : list string :=
  ["bypassSecurityTrustHtml"; "bypassSecurityTrustStyle"; "bypassSecurityTrustScript"; "bypassSecurityTrustUrl";
   "bypassSecurityTrustResourceUrl"].

Definition S6268 (call : node) : list ReportDescriptor :=
  match get_node call "callee", argument_at call 0 with
  | Some callee, Some argument =>
      if isMemberWithProperty callee bypassMethods && Nat.eqb (length (get_array call "arguments")) 1
         && negb (isHardcodedLiteral argument)
      then match get_node callee "property" with Some p => [report "checkAngularBypass" p] | None => [] end
      else []
  | _, _ => []
  end.

Definition S1523_checkCallExpression (n : node) : list ReportDescriptor :=
  match get_node n "callee" with
  | Some callee =>
      if (type_of callee =s "Identifier") && includes (node_name callee) ["eval"; "Function"]
         && existsb (fun arg => negb (isHardcodedLiteral arg)) (get_nodes n "arguments")
      then [report "safeCode" callee] else []
  | None => []
  end.

(** The loop on the characters, with [numberOfSpecialChars]. *)
Fixpoint count_special (numberOfSpecialChars : nat) (value : string) : bool :=
  match value with
  | EmptyString => false
  | String c rest =>
      let k := if includes (String c EmptyString) ["+"; "*"; "{"] then S numberOfSpecialChars else numberOfSpecialChars in
      if Nat.eqb k 2 then true else count_special k rest
  end.

Definition hasEnoughNumberOfSpecialChars (value : string) : bool := count_special 0 value.

Definition isUnsafeRegexLiteral (value : string) : bool :=
  (3 <=? length (code_units value)) && hasEnoughNumberOfSpecialChars value.

Definition S4784_Literal (n : node) : list ReportDescriptor :=
  match get n "value" with
  | VRegExp pattern _ => if isUnsafeRegexLiteral pattern then [report "safeRegex" n] else []
  | _ => []
  end.

Definition S4784_checkFirstArgument (n : node) : list ReportDescriptor :=
  match argument_at n 0 with
  | Some firstArg =>
      match get firstArg "value" with
      | VStr s => if (type_of firstArg =s "Literal") && isUnsafeRegexLiteral s then [report "safeRegex" firstArg] else []
      | _ => []
      end
  | None => []
  end.

Definition S4784_CallExpression (n : node) : list ReportDescriptor :=
  match get_node n "callee" with
  | Some callee => if isMemberWithProperty callee ["match"; "search"; "split"] then S4784_checkFirstArgument n else []
  | None => []
  end.

Definition S4784_NewExpression (n : node) : list ReportDescriptor :=
  if isIdentifier (get_node n "callee") ["RegExp"] then S4784_checkFirstArgument n else [].

(** ** Cookies: S2255, on [usingExpressFramework] *)

Definition S2255_Literal (n : node) (usingExpressFramework : bool) : bool :=
  str_prop_is n "value" "express" || usingExpressFramework.

Definition S2255_AssignmentExpression (n : node) : list ReportDescriptor :=
  match get_node n "left" with
  | Some lhs =>
      if (type_of lhs =s "MemberExpression") && isIdentifier (get_node lhs "object") ["document"]
         && isIdentifier (get_node lhs "property") ["cookie"]
      then [report "safeCookie" lhs] else []
  | None => []
  end.

Definition S2255_CallExpression (n : node) (usingExpressFramework : bool) : list ReportDescriptor :=
  match get_node n "callee" with
  | Some callee =>
      if type_of callee =s "MemberExpression" then
        (if usingExpressFramework && isIdentifier (get_node callee "property") ["cookie"; "cookies"]
         then [report "safeCookie" n] else [])
        ++ (if isIdentifier (get_node callee "property") ["setHeader"]
               && match argument_at n 0 with
                  | Some a => (type_of a =s "Literal") && str_prop_is a "value" "Set-Cookie"
                  | None => false
                  end
            then [report "safeCookie" callee] else [])
      else []
  | None => []
  end.

(** ** What S2612 reports *)

Section Permissions.

Context (sm : ScopeManager).

Definition octal_digit (c : ascii) : bool := (48 <=? nat_of_ascii c) && (nat_of_ascii c <=? 55).

(** The number that octal digits denote. *)
Fixpoint octal (acc : Z) (s : string) : option Z :=
  match s with
  | EmptyString => Some acc
  | String c r => if octal_digit c then octal (8 * acc + (Z.of_nat (nat_of_ascii c) - 48)) r else None
  end.

Definition octal_numeral (s : string) (m : Z) : Prop := s <> EmptyString /\ octal 0 s = Some m.

Definition permission (m : Z) : Prop := (0 <= m < 2 ^ 31)%Z.

(** A number that is written with a leading zero and digits up to 7 is octal. *)
Definition legacy (e : node) : Prop :=
  exists raw m, get_str e "raw" = Some raw /\ startsWith "0" raw = true /\ octal_numeral raw m.

(** The permissions that a literal stands for: the octal digits of a text or of a legacy
    octal number, and the value of the other numbers, in any base. *)
Inductive literal_permission (e : node) : Z -> Prop :=
| text_permission s m : get e "value" = VStr s -> octal_numeral s m -> literal_permission e m
| legacy_permission x raw m : get e "value" = VNum x -> get_str e "raw" = Some raw ->
    startsWith "0" raw = true -> octal_numeral raw m -> literal_permission e m
| number_permission q m : get e "value" = VNum (NumQ q) -> q == inject_Z m -> ~ legacy e -> literal_permission e m.

(** A number whose text starts with a zero and goes on otherwise than with [o] or octal
    digits: [0x1ff], [0b111], [0O777], [08]. *)
Definition misread (e : node) : Prop :=
  exists x raw, get e "value" = VNum x /\ get_str e "raw" = Some raw /\ startsWith "0" raw = true
    /\ startsWith "0o" raw = false /\ ~ legacy e.

(** The permissions that an expression stands for, the assignments that give the values
    of its variables, and its literals. *)
Inductive permits : node -> Z -> list nat -> list node -> Prop :=
| permits_literal e m : type_of e = "Literal" -> literal_permission e m -> permission m -> permits e m [] [e]
| permits_constant e object property m :
    type_of e = "MemberExpression" -> get_node e "object" = Some object -> get_node e "property" = Some property ->
    isMemberExpression object "fs" ["constants"] = true -> type_of property = "Identifier" ->
    (node_name property, m) ∈ FS_CONST -> permits e m [] []
| permits_variable e usage m us ls : type_of e = "Identifier" -> getUniqueWriteUsage sm (node_name e) e = Some usage ->
    permits usage m us ls -> permits e m (h_id (hdr usage) :: us) ls
| permits_or e l r a b us vs ls ks : type_of e = "BinaryExpression" -> str_prop_is e "operator" "|" = true ->
    get_node e "left" = Some l -> get_node e "right" = Some r ->
    permits l a us ls -> permits r b vs ks -> a <> 0%Z -> b <> 0%Z -> permits e (Z.lor a b) (us ++ vs) (ls ++ ks).

Lemma octal_digit_value c : octal_digit c = true -> digit_value 8 c = Some (Z.of_nat (nat_of_ascii c) - 48)%Z.
Proof. destruct c as [[] [] [] [] [] [] [] []]; intros H; first [discriminate H | reflexivity]. Qed.

Lemma read_octal s : forall acc count m, octal acc s = Some m ->
  read_digits 8 acc count s = (m, (count + String.length s)%nat, EmptyString).
Proof.
  induction s as [|c s IH]; intros acc count m H; cbn in *.
  - injection H as ->. by rewrite Nat.add_0_r.
  - destruct (octal_digit c) eqn:D; [| done]. rewrite (octal_digit_value _ D).
    rewrite (IH _ (S count) m); [by rewrite Nat.add_succ_comm |]. rewrite <- H. f_equal. lia.
Qed.

Lemma read_octal_prefix ds c rest : octal_digit c = false -> forall acc count m, octal acc ds = Some m ->
  read_digits 8 acc count (ds +:+ String c rest) = (m, (count + String.length ds)%nat, String c rest).
Proof.
  intros C. assert (digit_value 8 c = None) as Dn.
  { destruct c as [[] [] [] [] [] [] [] []]; first [discriminate C | reflexivity]. }
  induction ds as [|d ds IH]; intros acc count m H; cbn in H; cbn [String.length].
  - change ("" +:+ String c rest) with (String c rest). cbn [read_digits]. injection H as ->. by rewrite Dn, Nat.add_0_r.
  - change (String d ds +:+ String c rest) with (String d (ds +:+ String c rest)). cbn [read_digits].
    destruct (octal_digit d) eqn:D; [| done]. rewrite (octal_digit_value _ D).
    rewrite (IH _ (S count) m); [by rewrite Nat.add_succ_comm |]. rewrite <- H. f_equal. lia.
Qed.

Lemma octal_chars s : forall acc m, octal acc s = Some m -> Json.all_chars Json.numeral_char s = true.
Proof.
  induction s as [|c s IH]; intros acc m H; cbn in *; [done |]. destruct (octal_digit c) eqn:D; [| done].
  rewrite (IH _ _ H), andb_true_r. by destruct c as [[] [] [] [] [] [] [] []].
Qed.

(** Octal digits are neither white space nor signs. *)
Lemma trim_octal c s : octal_digit c = true ->
  trimStart (String c s) = String c s /\ Ascii.eqb c "-" = false /\ Ascii.eqb c "+" = false.
Proof. intros D. destruct c as [[] [] [] [] [] [] [] []]; first [discriminate D | by split_and!]. Qed.

Lemma parse_octal_first c s : octal_digit c = true ->
  parse_octal (String c s)
  = match read_digits 8 0 0 (String c s) with (v, S _, _) => NumQ (inject_Z v) | _ => NumNaN end.
Proof.
  intros D. destruct (trim_octal c s D) as (T & M & P). unfold parse_octal. rewrite T, M, P.
  destruct (read_digits 8 0 0 (String c s)) as [[v [|n]] r]; done.
Qed.

Lemma parse_octal_numeral s m : octal_numeral s m -> parse_octal s = NumQ (inject_Z m).
Proof.
  intros [N H]. destruct s as [|c s]; [done |].
  rewrite parse_octal_first by (cbn in H; by destruct (octal_digit c)). by rewrite (read_octal _ 0 0 m H).
Qed.

Lemma parse_octal_prefix ds c rest m : ds <> EmptyString -> octal 0 ds = Some m -> octal_digit c = false ->
  parse_octal (ds +:+ String c rest) = NumQ (inject_Z m).
Proof.
  intros N H C. destruct ds as [|d ds]; [done |]. change (String d ds +:+ String c rest) with (String d (ds +:+ String c rest)).
  rewrite parse_octal_first by (cbn in H; by destruct (octal_digit d)).
  change (String d (ds +:+ String c rest)) with (String d ds +:+ String c rest).
  by rewrite (read_octal_prefix (String d ds) c rest C 0 0 m H).
Qed.

Definition is_mode (m : mode) (z : Z) : Prop := exists q, m = Some (NumQ q) /\ q == inject_Z z.

Lemma startsWith_nonempty raw : startsWith "0" raw = true -> raw <> EmptyString.
Proof. by destruct raw. Qed.

Lemma legacy_dec e raw : get_str e "raw" = Some raw -> startsWith "0" raw = true ->
  (exists m, octal_numeral raw m) \/ ~ legacy e.
Proof.
  intros R S. destruct (octal 0 raw) as [m|] eqn:O.
  - left. exists m. split; [by apply startsWith_nonempty | done].
  - right. intros (raw' & m & R' & _ & _ & O'). congruence.
Qed.

Lemma octal_o raw m : octal_numeral raw m -> startsWith "0o" raw = false.
Proof.
  intros [_ O]. apply not_true_iff_false. intros S. destruct raw as [|c [|d raw]]; try discriminate S.
  - by destruct c as [[] [] [] [] [] [] [] []].
  - cbn in O. destruct (octal_digit c); [| done]. destruct (octal_digit d) eqn:D; [| done].
    destruct c as [[] [] [] [] [] [] [] []]; try discriminate S.
    destruct d as [[] [] [] [] [] [] [] []]; first [discriminate S | discriminate D].
Qed.

Lemma modeFromLiteral_permission e m : literal_permission e m -> ~ misread e -> is_mode (modeFromLiteral e) m.
Proof.
  unfold modeFromLiteral. intros [s m' V H|x raw m' V R S H|q m' V Hq H] M; rewrite V.
  - exists (inject_Z m'). by rewrite (parse_octal_numeral _ _ H).
  - rewrite R, S, (octal_o _ _ H). exists (inject_Z m'). cbn. by rewrite (parse_octal_numeral _ _ H).
  - exists q. split; [| done]. destruct (get_str e "raw") as [raw|] eqn:R; [| done].
    destruct (startsWith "0" raw) eqn:S; [| done]. destruct (startsWith "0o" raw) eqn:O; [done |].
    exfalso. apply M. by exists (NumQ q), raw.
Qed.

Lemma FS_CONST_get k m : (k, m) ∈ FS_CONST -> map_get k FS_CONST = Some m /\ permission m.
Proof.
  intros H. unfold FS_CONST in H.
  repeat (apply elem_of_cons in H as [[= -> ->]|H]; [split; [reflexivity | by unfold permission; lia] |]).
  by apply not_elem_of_nil in H.
Qed.

Lemma permits_permission e m us ls : permits e m us ls -> permission m.
Proof.
  induction 1 as [| | |e l r a b us vs ls ks _ _ _ _ _ [A A'] _ [B B'] _ _]; try done.
  - by eapply FS_CONST_get.
  - split; [by apply Z.lor_nonneg |].
    destruct (Z.eq_dec a 0%Z) as [->|]; [by rewrite Z.lor_0_l |]. destruct (Z.eq_dec b 0%Z) as [->|]; [by rewrite Z.lor_0_r |].
    assert (Z.lor a b <> 0)%Z by (rewrite Z.lor_eq_0_iff; tauto).
    apply Z.log2_lt_pow2; [pose proof (proj2 (Z.lor_nonneg a b) (conj A B)); lia |].
    rewrite Z.log2_lor by done. apply Z.max_lub_lt; (apply Z.log2_lt_pow2; [lia | done]).
Qed.

Lemma to_int32_permission q m : q == inject_Z m -> permission m -> to_int32 (NumQ q) = m.
Proof.
  intros E [L U]. unfold to_int32. assert (0 <= q)%Q as P by (rewrite E; by rewrite <- (Zle_Qle 0)).
  apply Qle_bool_iff in P as ->.
  assert (Qround.Qfloor q = m) as -> by (rewrite E; apply Qround.Qfloor_Z). rewrite Z.mod_small by lia.
  destruct (Z.ltb_spec m (2 ^ 31)); lia.
Qed.

Lemma bitwise_or_permission x y a b : is_mode x a -> is_mode y b -> permission a -> permission b ->
  a <> 0%Z -> b <> 0%Z -> is_mode (bitwise_or x y) (Z.lor a b).
Proof.
  intros (p & -> & P) (q & -> & Q) A B NA NB. exists (inject_Z (Z.lor a b)). split; [| done].
  cbn [bitwise_or truthy_mode truthy]. rewrite (to_int32_permission p a), (to_int32_permission q b) by done.
  assert (forall u z, u == inject_Z z -> z <> 0%Z -> Qeq_bool u 0 = false) as T.
  { intros u z U Z. apply not_true_iff_false. rewrite Qeq_bool_iff, U. intros E. by apply (inject_Z_injective z 0) in E. }
  by rewrite (T p a), (T q b).
Qed.

(** Variables that are not met again: the recursion follows each of them. *)
Lemma modes_found e m us ls : permits e m us ls -> Forall (fun l => ~ misread l) ls -> exists fuel0, forall fuel visited, fuel0 <= fuel ->
  NoDup us -> (forall u, u ∈ us -> u ∉ visited) ->
  exists mode visited', modeFromExpression sm fuel (Some e) visited = Ok (mode, visited') /\ is_mode mode m /\
    (forall u, u ∈ visited' -> u ∈ visited \/ u ∈ us).
Proof.
  induction 1 as [e m T L P|e object property m T O P I Tp F|e usage m us ls T U _ IH|e l r a b us vs ls ks T Op L R Pl IHl Pr IHr NA NB];
    intros ML.
  - exists 1. intros [|fuel] visited Hf _ _; [lia |]. cbn [modeFromExpression]. rewrite T. cbn [String.eqb Ascii.eqb Bool.eqb].
    eexists _, visited. split; [reflexivity |]. apply Forall_inv in ML. split; [exact (modeFromLiteral_permission e m L ML) | auto].
  - exists 1. intros [|fuel] visited Hf _ _; [lia |]. cbn [modeFromExpression]. rewrite T. cbn [String.eqb Ascii.eqb Bool.eqb].
    eexists _, visited. split; [reflexivity |]. split; [| auto]. unfold modeFromMemberExpression. rewrite O, P, I, Tp.
    cbn [String.eqb Ascii.eqb Bool.eqb andb]. apply FS_CONST_get in F as [-> _]. by exists (inject_Z m).
  - destruct (IH ML) as [f IH']. exists (S f). intros [|fuel] visited Hf N D; [lia |].
    cbn [modeFromExpression]. rewrite T, U.
    cbn [String.eqb Ascii.eqb Bool.eqb]. apply NoDup_cons in N as [N N'].
    rewrite (proj2 (set_has_false _ _)) by (apply D; by left).
    destruct (IH' fuel (set_add (h_id (hdr usage)) visited)) as (mode & visited' & E & M & V); [lia | done | |].
    { intros u Hu. rewrite elem_of_set_add. intros [->|Hv]; [done |]. by apply (D u); [right |]. }
    exists mode, visited'. split; [done |]. split; [done |]. intros u Hu%V. rewrite elem_of_set_add, elem_of_cons in *. tauto.
  - apply Forall_app in ML as [Ml Mr]. destruct (IHl Ml) as [f IHl']. destruct (IHr Mr) as [g IHr'].
    exists (S (Nat.max f g)). intros [|fuel] visited Hf N D; [lia |]. cbn [modeFromExpression]. rewrite T, Op, L, R.
    cbn [String.eqb Ascii.eqb Bool.eqb andb]. apply NoDup_app in N as (Nu & Nuv & Nv).
    destruct (IHl' fuel visited) as (x & v1 & -> & X & V1); [lia | done | intros u Hu; apply D, elem_of_app; by left |].
    cbn [rbind]. destruct (IHr' fuel v1) as (y & v2 & -> & Y & V2); [lia | done | |].
    { intros u Hu [Hv|Hv]%V1; [| by apply (Nuv u)]. apply (D u); [apply elem_of_app; by right | done]. }
    exists (bitwise_or x y), v2. split; [done |]. split.
    + apply bitwise_or_permission; eauto using permits_permission.
    + intros u Hu%V2. rewrite elem_of_app. destruct Hu as [Hu%V1|Hu]; tauto.
Qed.

Lemma differs_spec q m test : q == inject_Z m -> permission m -> differs_modulo_8 (NumQ q) test = negb (Z.land m 7 =? test)%Z.
Proof.
  intros E [L _]. unfold differs_modulo_8. f_equal.
  assert (Z.quot (Qnum q) (8 * Zpos (Qden q)) = m / 8)%Z as ->.
  { unfold Qeq in E. cbn in E. rewrite Z.mul_1_r in E. rewrite E, Z.quot_mul_cancel_r by lia.
    apply Z.quot_div_nonneg; lia. }
  change 7%Z with (Z.ones 3). rewrite Z.land_ones by lia. change (2 ^ 3)%Z with 8%Z.
  apply eq_true_iff_eq. rewrite Qeq_bool_iff, Z.eqb_eq, E.
  assert (inject_Z m - inject_Z (8 * (m / 8)) == inject_Z (m mod 8))%Q as ->.
  { unfold Qminus. rewrite <- inject_Z_opp, <- inject_Z_plus. apply inject_Z_injective. pose proof (Z.div_mod m 8). lia. }
  apply inject_Z_injective.
Qed.

(** C35: An argument of [chmod] that stands for permissions, as a number, octal digits, a
    constant of [fs], a variable written once or a combination of them by [|], is reported
    exactly when the rights of others (the last three bits) are not the ones expected,
    as long as no part is zero, no variable is met twice and no number is [misread]:
    a zero and something else than [o] or octal digits; the recursion ends. A number
    that is misread is taken for the octal digits it starts with. *)
Theorem permissions_reported_for_others test :
  (forall e m us ls, permits e m us ls -> NoDup us -> Forall (fun l => ~ misread l) ls ->
     exists fuel0, forall stack, fuel0 <= stack ->
       checkModeArgument sm stack (Some e) test = Ok (if (Z.land m 7 =? test)%Z then [] else [report "safePermission" e]))
  /\ forall e ds c rest m stack,
       type_of e = "Literal" -> misread e -> get_str e "raw" = Some (ds +:+ String c rest) ->
       ds <> "" -> octal 0 ds = Some m -> octal_digit c = false -> permission m ->
       checkModeArgument sm (S stack) (Some e) test
       = Ok (if (Z.land m 7 =? test)%Z then [] else [report "safePermission" e]).
Proof.
  split.
  - intros e m us ls P N M. destruct (modes_found _ _ _ _ P M) as [fuel0 F]. exists fuel0. intros stack Hs.
    destruct (F stack [] Hs N) as (mode & visited & E & (q & -> & Q) & _); [intros u _; apply not_elem_of_nil |].
    unfold checkModeArgument. rewrite E. cbn [rbind]. rewrite (differs_spec q m test Q) by by eapply permits_permission.
    by destruct (Z.land m 7 =? test)%Z.
  - intros e ds c rest m stack T (x & raw & V & R & S & O & _) R' N D C P. rewrite R in R'. injection R' as ->.
    unfold checkModeArgument. cbn [modeFromExpression]. rewrite T. cbn [String.eqb Ascii.eqb Bool.eqb rbind].
    unfold modeFromLiteral. rewrite V, R, S, O. cbn [andb negb]. rewrite (parse_octal_prefix ds c rest m N D C).
    rewrite (differs_spec (inject_Z m) m test) by done. by destruct (Z.land m 7 =? test)%Z.
Qed.

End Permissions.

(** ** What S4423 accepts *)

Section Options.

Context (sm : ScopeManager).

(** The operands of the binary expressions of a node. *)
Fixpoint operands (fuel : nat) (n : node) : list node :=
  match fuel with
  | O => []
  | S fuel' =>
      if type_of n =s "BinaryExpression" then
        match get_node n "left", get_node n "right" with
        | Some l, Some r => operands fuel' l ++ operands fuel' r
        | _, _ => []
        end
      else [n]
  end.

(** The name of a member of [constants]. *)
Definition constant_name (n : node) : option string :=
  match get_node n "object", get_node n "property" with
  | Some object, Some property =>
      if (type_of n =s "MemberExpression") && fqn_is sm object "constants" && (type_of property =s "Identifier")
      then Some (node_name property) else None
  | _, _ => None
  end.

Definition collect_operand (acc : list (option string)) (n : node) : list (option string) :=
  match constant_name n with Some s => acc ++ [Some s] | None => set_first_null acc end.

Lemma collect_operands fuel : forall n acc,
  collectIdentifiersFromBinary sm fuel n acc = fold_left collect_operand (operands fuel n) acc.
Proof.
  induction fuel as [|fuel IH]; intros n acc; cbn [collectIdentifiersFromBinary operands]; [done |].
  destruct (type_of n =s "BinaryExpression").
  - destruct (get_node n "left") as [l|]; [| done]. destruct (get_node n "right") as [r|]; [| done].
    by rewrite fold_left_app, !IH.
  - cbn. unfold collect_operand, constant_name. destruct (get_node n "object"), (get_node n "property"); try done.
    by destruct (_ && _ && _).
Qed.

Lemma collected l : forall acc, head acc <> Some None ->
  let flags := fold_left collect_operand l acc in
  if existsb (fun n => match constant_name n with Some _ => false | None => true end) l
  then head flags = Some None else flags = acc ++ map constant_name l /\ head flags <> Some None.
Proof.
  assert (forall l acc, head acc = Some None -> head (fold_left collect_operand l acc) = Some None) as Null.
  { clear. induction l as [|n l IH]; intros acc H; cbn; [done |]. apply IH. unfold collect_operand.
    destruct (constant_name n); [by destruct acc | done]. }
  induction l as [|n l IH]; intros acc H; cbn zeta in *; cbn [fold_left existsb map].
  - by rewrite app_nil_r.
  - pose proof (eq_refl (collect_operand acc n)) as Ec. unfold collect_operand at 2 in Ec.
    destruct (constant_name n) as [s|] eqn:E; cbn [orb]; rewrite Ec.
    + specialize (IH (acc ++ [Some s])). rewrite <- app_assoc in IH. apply IH. by destruct acc as [|[]].
    + by apply (Null l (set_first_null acc)).
Qed.

(** The value of [secureOptions] is accepted exactly when an operand is something
    else than a constant, or when both flags that forbid the first versions of TLS are
    among the operands. *)
Theorem secure_options_accepted options :
  let flags := operands (node_size options) options in
  isValidSecureOptions sm options =
  existsb (fun n => match constant_name n with Some _ => false | None => true end) flags
  || (bool_decide (Some "SSL_OP_NO_TLSv1" ∈ map constant_name flags)
      && bool_decide (Some "SSL_OP_NO_TLSv1_1" ∈ map constant_name flags)).
Proof.
  unfold isValidSecureOptions. rewrite collect_operands. pose proof (collected (operands (node_size options) options) []) as C.
  cbn zeta in C. destruct (existsb _ _); [rewrite C by done; done |]. destruct C as [-> C]; [done |]. cbn [app orb] in *.
  by destruct (head _) as [[]|].
Qed.

End Options.

(** ** Examples *)

Module CallsExample.

Import AstExample.

Definition number (i : nat) (raw : string) (z : Z) : node :=
  mk i "Literal" [("value", VNum (NumQ (inject_Z z))); ("raw", VStr raw)].

Definition constant (i : nat) (flag : string) : node :=
  mk i "MemberExpression"
    [("object", VNode (mk (i + 1) "MemberExpression"
        [("object", VNode (ident (i + 2) "fs")); ("property", VNode (ident (i + 3) "constants"))]));
     ("property", VNode (ident (i + 4) flag))].

Definition or_node (i : nat) (l r : node) : node :=
  mk i "BinaryExpression" [("operator", VStr "|"); ("left", VNode l); ("right", VNode r)].

(** [a | fs.constants.S_IROTH], where [a] is assigned [0o700] once. *)
Definition permissions : node := or_node 50 (ident 51 "a") (constant 52 "S_IROTH").
Definition writes : ScopeManager := scopes_writing (number 60 "0o700" 448) (ident 2 "a").

Lemma permissions_reported_for_others_witness :
  (exists fuel0, forall stack, fuel0 <= stack ->
     checkModeArgument writes stack (Some permissions) 0 = Ok [report "safePermission" permissions])
  /\ checkModeArgument writes 1 (Some (number 1 "0x1ff" 511)) 0 = Ok [].
Proof.
  assert (forall i raw z, startsWith "0" raw = true -> octal 0 raw = None -> ~ legacy (number i raw z)) as Nl.
  { intros i raw z S O (raw' & m & R & _ & _ & O'). injection R as <-. congruence. }
  destruct (permissions_reported_for_others writes 0) as [H M]. split.
  - apply (H permissions 452%Z [60] [number 60 "0o700" 448]).
    + apply (permits_or writes permissions (ident 51 "a") (constant 52 "S_IROTH") 448 4 [60] [] [number 60 "0o700" 448] []);
        try reflexivity; [| | done | done].
      * apply (permits_variable writes (ident 51 "a") (number 60 "0o700" 448) 448 [] [number 60 "0o700" 448]);
          [reflexivity | reflexivity |].
        apply permits_literal; [reflexivity | | by unfold permission; lia].
        apply (number_permission _ (inject_Z 448)); [reflexivity | reflexivity |]. by apply Nl.
      * apply (permits_constant writes _ (mk 53 "MemberExpression"
          [("object", VNode (ident 54 "fs")); ("property", VNode (ident 55 "constants"))]) (ident 56 "S_IROTH"));
          try reflexivity. by repeat first [left | right].
    + apply NoDup_singleton.
    + apply Forall_singleton. intros (x & raw & _ & R & _ & O & _). injection R as <-. discriminate O.
  - apply (M _ "0" "x"%char "1ff" 0%Z 0%nat); try reflexivity; [| done | by unfold permission; lia].
    eexists _, _. split_and!; [reflexivity.. |]. by apply Nl.
Defined.

(** [0x1ff] gives all rights, and so does [a | a] where [a] is [0o707]; neither is
    reported. *)
Lemma other_permissions_lost :
  checkModeArgument copies 5 (Some (number 1 "0x1ff" 511)) 0 = Ok [] /\
  (let sm := scopes_writing (number 60 "0o707" 455) (ident 2 "a") in
   checkModeArgument sm 5 (Some (ident 51 "a")) 0 = Ok [report "safePermission" (ident 51 "a")] /\
   checkModeArgument sm 5 (Some (or_node 50 (ident 51 "a") (ident 52 "a"))) 0 = Ok []).
Proof. vm_compute. done. Qed.

End CallsExample.
