(* ===== verification/Express.v ===== *)
(** * Express: rules on Express applications and their middlewares

    [rules/helpers/express.ts], with the rules on the settings of [helmet] (S5728 S5730
    S5732 S5734 S5736 S5739 S5742) that are instances of its factory, S5689 (the header
    that names the framework), the flags of cookies ([rules/helpers/cookie-flag-check.ts],
    S2092, S3330), S4502 (CSRF), S5122 (CORS) and the uploads of files (S2598, S5693).
    Rules with a state are steps on the events of the walk of ESLint. *)

From Stdlib Require Import ZArith QArith Lia Ascii.
From stdpp Require Import base list strings.
From S2P Require Import Prelude JsString Estree JsNumber Reports Ast Modules Aws Calls.

Open Scope js_scope.
Open Scope nat_scope.

(** The nodes that the rules look at, with the ancestors of the node from the nearest one
    where a rule needs them. *)
Inductive express_event :=
| Program
| CallExpression (n : node)
| VariableDeclarator (n : node)
| Function_ (n : node) (ancestors : list node)
| ReturnStatement (n : node)
| ImportDeclaration (n : node)
| NewExpression (n : node)
| AssignmentExpression (n : node)
| Program_exit.

Section Express.

Context (sm : ScopeManager) (parents : node -> list node).
(** The calls that the stack of the engine has room for. *)
Context (stack : nat).

Local Notation name n := (fullName sm n).
Local Notation value_of := (valueOf sm).
Local Notation property := (found_property sm parents stack).
Local Notation property_with := (getPropertyWithValue sm parents stack).

Definition EXPRESS : string := "express".

(** ** [namespace Express] *)

Definition attemptFindAppInstantiation (varDecl : node) : option node :=
  match get_node varDecl "init" with
  | Some rhs =>
      if (type_of rhs =s "CallExpression") && fqn_is sm rhs EXPRESS then
        match get_node varDecl "id" with
        | Some pattern => if type_of pattern =s "Identifier" then Some pattern else None
        | None => None
        end
      else None
  | None => None
  end.

Definition is_app_parameter (param : node) : bool := (type_of param =s "Identifier") && str_prop_is param "name" "app".

(** The function is the node itself; [ancestors] are those above it, from the nearest one. *)
Definition attemptFindAppInjection (functionDef : node) (ancestors : list node) : option node :=
  match List.find is_app_parameter (get_nodes functionDef "params") with
  | Some app =>
      match getParent (rev ancestors) with
      | Some parent =>
          if type_of parent =s "AssignmentExpression" then
            match get_node parent "left" with
            | Some lhs =>
                if (type_of lhs =s "MemberExpression")
                   && (isModuleExports lhs
                       || match get_node lhs "object" with Some o => isModuleExports o | None => false end)
                then Some app else None
            | None => None
            end
          else None
      | None => None
      end
  | None => None
  end.

(** [Array.prototype.find] with a predicate that has a state. *)
Fixpoint find_stateful {St} (predicate : node -> St -> eval (bool * St)) (l : list node) (st : St) : eval (bool * St) :=
  match l with
  | [] => Ok (false, st)
  | n :: rest =>
      let! r := predicate n st in
      let '(b, st') := r in
      if b then Ok (true, st') else find_stateful predicate rest st'
  end.

Definition isUsingMiddleware {St} (callExpression app : node) (middlewareNodePredicate : node -> St -> eval (bool * St)) (st : St)
  : eval (bool * St) :=
  if isMethodInvocation callExpression (node_name app) "use" 1 then
    let! flattenedArgs := flattened sm stack (arguments_of callExpression) in
    find_stateful middlewareNodePredicate flattenedArgs st
  else Ok (false, st).

Definition isMiddlewareInstance (middlewares : list string) (n : node) : bool :=
  (type_of n =s "CallExpression") && fqn_in sm n middlewares.

(** *** [SensitiveMiddlewarePropertyRule] *)

Record express_state := mkExpress {
  app : option node;
  sensitiveProperties : list node;
  express_reports : list ReportDescriptor
}.

Definition initial_express : express_state := mkExpress None [] [].

Section Factory.

Context (sensitivePropertyFinder : node -> eval (list node)) (message : string).

Definition findSensitiveProperty (middlewareNode : node) : eval (list node) :=
  if type_of middlewareNode =s "CallExpression" then sensitivePropertyFinder middlewareNode else Ok [].

(** The result of [push] is the new length of the list. *)
Definition isExposing (middlewareNode : node) (pushed_before : list node) : eval (bool * list node) :=
  let! sensitives := findSensitiveProperty middlewareNode in
  let pushed := pushed_before ++ sensitives in
  Ok (negb (Nat.eqb (length pushed) 0), pushed).

Definition express_step (st : express_state) (e : express_event) : eval express_state :=
  match e with
  | Program => Ok (mkExpress None [] (express_reports st))
  | CallExpression callExpr =>
      match app st with
      | Some a =>
          let! r := isUsingMiddleware callExpr a isExposing (sensitiveProperties st) in
          let '(exposing, sensitives) := r in
          Ok (if exposing
              then mkExpress (Some a) []
                     (express_reports st ++ map (fun sensitive => report_with message callExpr [secondary sensitive]) sensitives)
              else mkExpress (Some a) sensitives (express_reports st))
      | None => Ok st
      end
  | VariableDeclarator varDecl =>
      match app st with
      | None => Ok (mkExpress (attemptFindAppInstantiation varDecl) (sensitiveProperties st) (express_reports st))
      | Some _ => Ok st
      end
  | Function_ functionDef ancestors =>
      match app st with
      | None => Ok (mkExpress (attemptFindAppInjection functionDef ancestors) (sensitiveProperties st) (express_reports st))
      | Some _ => Ok st
      end
  | _ => Ok st
  end.

Definition run_express (events : list express_event) : eval express_state := rfold express_step events initial_express.

(** *** What the factory reports *)

(** The application a node introduces. *)
Definition app_of (e : express_event) : option node :=
  match e with
  | VariableDeclarator varDecl => attemptFindAppInstantiation varDecl
  | Function_ functionDef ancestors => attemptFindAppInjection functionDef ancestors
  | _ => None
  end.

(** The first application of a program. *)
Definition first_app (events : list express_event) : option node := head (omap app_of events).

(** The settings of the first middleware that has sensitive ones. *)
Fixpoint exposed (middlewares : list node) : eval (list node) :=
  match middlewares with
  | [] => Ok []
  | m :: rest => let! sensitives := findSensitiveProperty m in match sensitives with [] => exposed rest | _ => Ok sensitives end
  end.

(** The sensitive settings of the middlewares that an application uses in a call. *)
Definition settings_of_call (a callExpr : node) : eval (list node) :=
  if isMethodInvocation callExpr (node_name a) "use" 1 then
    let! middlewares := flattened sm stack (arguments_of callExpr) in exposed middlewares
  else Ok [].

(** The reports for an event, after others. *)
Definition reports_of_event (before : list express_event) (e : express_event) : eval (list ReportDescriptor) :=
  match e, first_app before with
  | CallExpression callExpr, Some a =>
      let! sensitives := settings_of_call a callExpr in
      Ok (map (fun sensitive => report_with message callExpr [secondary sensitive]) sensitives)
  | _, _ => Ok []
  end.

Fixpoint reports_after (before events : list express_event) : eval (list ReportDescriptor) :=
  match events with
  | [] => Ok []
  | e :: rest =>
      let! reports := reports_of_event before e in
      let! others := reports_after (before ++ [e]) rest in
      Ok (reports ++ others)
  end.

Lemma find_exposed l : find_stateful isExposing l [] = let! sensitives := exposed l in Ok (negb (Nat.eqb (length sensitives) 0), sensitives).
Proof.
  induction l as [|m rest IH]; [done |]. cbn [find_stateful exposed]. unfold isExposing.
  destruct (findSensitiveProperty m) as [[|s l]|]; [exact IH | done..].
Qed.

Lemma using_exposed callExpr a : isUsingMiddleware callExpr a isExposing [] =
  let! sensitives := settings_of_call a callExpr in Ok (negb (Nat.eqb (length sensitives) 0), sensitives).
Proof.
  unfold isUsingMiddleware, settings_of_call. destruct (isMethodInvocation _ _ _ _); [| done].
  destruct (flattened _ _ _) as [l|]; [apply find_exposed | done].
Qed.

Lemma first_app_snoc before e : first_app (before ++ [e]) = match first_app before with Some a => Some a | None => app_of e end.
Proof.
  unfold first_app. rewrite omap_app. destruct (omap app_of before); [| done]. cbn. by destruct (app_of e).
Qed.

Lemma express_step_spec before e reports : e <> Program ->
  express_step (mkExpress (first_app before) [] reports) e =
  let! new := reports_of_event before e in Ok (mkExpress (first_app (before ++ [e])) [] (reports ++ new)).
Proof.
  intros Hp. rewrite first_app_snoc. destruct e; try done; cbn [express_step reports_of_event app sensitiveProperties express_reports app_of];
    destruct (first_app before) as [a|]; cbn [rbind]; try (by rewrite app_nil_r).
  rewrite using_exposed. destruct (settings_of_call a n) as [[|s l]|]; cbn [rbind]; [by rewrite app_nil_r | done..].
Qed.

Lemma run_after events : forall before reports, Program ∉ events ->
  rfold express_step events (mkExpress (first_app before) [] reports) =
  let! new := reports_after before events in Ok (mkExpress (first_app (before ++ events)) [] (reports ++ new)).
Proof.
  induction events as [|e rest IH]; intros before reports Hp; cbn [rfold reports_after rbind]; [by rewrite !app_nil_r |].
  apply not_elem_of_cons in Hp as [He Hp]. rewrite express_step_spec by congruence.
  destruct (reports_of_event before e) as [new|]; cbn [rbind]; [| done]. rewrite (IH (before ++ [e])) by done.
  destruct (reports_after (before ++ [e]) rest) as [others|]; cbn [rbind]; [| done]. by rewrite <- !app_assoc.
Qed.

(** C36: A rule made by the factory follows the first application that the program makes
    or is given. It reports, for each call after that in which this application uses
    middlewares, the sensitive settings of the first middleware that has some, once; no
    setting is left for a later call. It fails where a finder does. *)
Theorem sensitive_settings_reported events : Program ∉ events ->
  run_express (Program :: events) = let! reports := reports_after [] events in Ok (mkExpress (first_app events) [] reports).
Proof. intros Hp. exact (run_after events [] [] Hp). Qed.

End Factory.

(** ** Settings of [helmet] *)

Definition listed (n : option node) : list node := match n with Some n => [n] | None => [] end.

Definition has_property (object : option node) (key : string) : eval bool :=
  let! p := property object key in Ok (match p with Some _ => true | None => false end).

(** S5728, S5734 and S5742: the setting [key: false] of a call [helmet(<options>)]. *)
Definition findFalsePropertyFromHelmet (key : string) (n : node) : eval (list node) :=
  let! callee := node_at n "callee" in
  match argument_at n 0 with
  | Some options =>
      if fqn_is sm callee "helmet" && Nat.eqb (argument_count n) 1 && (type_of options =s "ObjectExpression")
      then let! sensitive := property_with options key (VBool false) in Ok (listed sensitive)
      else Ok []
  | None => Ok []
  end.

Definition findFalseContentSecurityPolicyPropertyFromHelmet (n : node) : eval (list node) :=
  findFalsePropertyFromHelmet "contentSecurityPolicy" n.

Definition findFalseNoSniffPropertyFromHelmet (n : node) : eval (list node) := findFalsePropertyFromHelmet "noSniff" n.

Definition findFalseCertificateTransparencyPropertyFromHelmet (n : node) : eval (list node) :=
  findFalsePropertyFromHelmet "expectCt" n.

(** S5730 *)
Definition isMissingMixedContentProperty (directives : node) : eval bool :=
  let! camel := has_property (get_node directives "value") "blockAllMixedContent" in
  if camel then Ok false
  else let! hyphen := has_property (get_node directives "value") "block-all-mixed-content" in Ok (negb hyphen).

Definition isValidHelmetModuleCall (callExpr : node) : bool := fqn_in sm callExpr ["helmet.contentSecurityPolicy"; "helmet-csp"].

Definition findDirectivesWithMissingMixedContentPropertyFromHelmet (n : node) : eval (list node) :=
  if Nat.eqb (argument_count n) 1 then
    let! maybeDirectives := property (argument_at n 0) "directives" in
    match maybeDirectives with
    | Some directives =>
        let! lacks := isMissingMixedContentProperty directives in
        Ok (if lacks && isValidHelmetModuleCall n then [directives] else [])
    | None => Ok []
    end
  else Ok [].

(** S5732 *)
Definition isSetNoneFrameAncestorsProperty (frameAncestors : node) : bool :=
  match get_node frameAncestors "value" with
  | Some v =>
      (type_of v =s "ArrayExpression")
      && existsb (fun e => (type_of e =s "Literal") && str_prop_is e "value" "'none'") (get_nodes v "elements")
  | None => false
  end.

Definition getFrameAncestorsProperty (directives : node) : eval (option node) :=
  let! camel := property (get_node directives "value") "frameAncestors" in
  match camel with
  | Some p => Ok (Some p)
  | None => property (get_node directives "value") "frame-ancestors"
  end.

Definition findDirectivesWithSensitiveFrameAncestorsPropertyFromHelmet (n : node) : eval (list node) :=
  if isValidHelmetModuleCall n && Nat.eqb (argument_count n) 1 then
    let! maybeDirectives := property (argument_at n 0) "directives" in
    match maybeDirectives with
    | Some directives =>
        let! maybeFrameAncestors := getFrameAncestorsProperty directives in
        Ok (match maybeFrameAncestors with
            | None => [directives]
            | Some frameAncestors => if isSetNoneFrameAncestorsProperty frameAncestors then [frameAncestors] else []
            end)
    | None => Ok []
    end
  else Ok [].

(** S5736 *)
Definition UNSAFE_REFERRER_POLICY_VALUES : list string := [""; "unsafe-url"; "no-referrer-when-downgrade"].

Definition isSafePolicy (policy : node) : bool :=
  let values := match get_node policy "value" with
                | Some v => if type_of v =s "ArrayExpression" then get_nodes v "elements" else [v]
                | None => []
                end in
  negb (existsb (fun v => (type_of v =s "Literal")
                          && match get_str v "value" with Some s => includes s UNSAFE_REFERRER_POLICY_VALUES | None => false end)
          values).

Definition findNoReferrerPolicyPropertyFromHelmet (n : node) : eval (list node) :=
  let! callee := node_at n "callee" in
  if Nat.eqb (argument_count n) 1 then
    match argument_at n 0 with
    | Some options =>
        if fqn_is sm callee "helmet" && (type_of options =s "ObjectExpression") then
          let! sensitive := property_with options "referrerPolicy" (VBool false) in Ok (listed sensitive)
        else if fqn_is sm callee "helmet.referrerPolicy" then
          let! maybePolicy := property (Some options) "policy" in
          Ok (match maybePolicy with
              | Some policy => if isSafePolicy policy then [] else [policy]
              | None => []
              end)
        else Ok []
    | None => Ok []
    end
  else Ok [].

(** S5739 *)
Definition RECOMMENDED_MAX_AGE : Z := 15552000.

Definition isHstsMiddlewareNode (n : node) : bool := fqn_in sm n ["helmet.hsts"; "hsts"].

Definition findSensitiveHsts (middleware options : node) : eval (option node) :=
  if fqn_is sm middleware "helmet" then property_with options "hsts" (VBool false) else Ok None.

(** [value < limit] on numbers. *)
Definition below (x : jsnum) (limit : Q) : bool :=
  match x with
  | NumQ q => negb (Qle_bool limit q)
  | NumInfinity negative => negative
  | NumNaN => false
  end.

Definition findSensitiveMaxAge (middleware options : node) : eval (option node) :=
  if isHstsMiddlewareNode middleware then
    let! maybeMaxAgeProperty := property (Some options) "maxAge" in
    Ok (match maybeMaxAgeProperty with
        | Some p =>
            match property_literal sm p with
            | VNum x => if below x (inject_Z RECOMMENDED_MAX_AGE) then Some p else None
            | _ => None
            end
        | None => None
        end)
  else Ok None.

Definition findSensitiveIncludeSubDomains (middleware options : node) : eval (option node) :=
  if isHstsMiddlewareNode middleware then property_with options "includeSubDomains" (VBool false) else Ok None.

Definition findSensitiveTransportSecurityPolicyProperty (n : node) : eval (list node) :=
  let! callee := node_at n "callee" in
  match argument_at n 0 with
  | Some options =>
      if Nat.eqb (argument_count n) 1 && (type_of options =s "ObjectExpression") then
        let! hsts := findSensitiveHsts callee options in
        let! maxAge := findSensitiveMaxAge callee options in
        let! includeSubDomains := findSensitiveIncludeSubDomains callee options in
        Ok (listed hsts ++ listed maxAge ++ listed includeSubDomains)
      else Ok []
  | None => Ok []
  end.

(** The rules that are made by the factory. *)
Definition S5728 : list express_event -> eval express_state :=
  run_express findFalseContentSecurityPolicyPropertyFromHelmet
    "Make sure not enabling content security policy fetch directives is safe here.".
Definition S5730 : list express_event -> eval express_state :=
  run_express findDirectivesWithMissingMixedContentPropertyFromHelmet "Make sure allowing mixed-content is safe here.".
Definition S5732 : list express_event -> eval express_state :=
  run_express findDirectivesWithSensitiveFrameAncestorsPropertyFromHelmet
    "Make sure disabling content security policy frame-ancestors directive is safe here.".
Definition S5734 : list express_event -> eval express_state :=
  run_express findFalseNoSniffPropertyFromHelmet "Make sure allowing browsers to sniff MIME types is safe here.".
Definition S5736 : list express_event -> eval express_state :=
  run_express findNoReferrerPolicyPropertyFromHelmet "Make sure disabling strict HTTP no-referrer policy is safe here.".
Definition S5739 : list express_event -> eval express_state :=
  run_express findSensitiveTransportSecurityPolicyProperty "Disabling Strict-Transport-Security policy is security-sensitive.".
Definition S5742 : list express_event -> eval express_state :=
  run_express findFalseCertificateTransparencyPropertyFromHelmet
    "Make sure disabling Certificate Transparency monitoring is safe here.".

(** ** The header that names the framework: S5689 *)

Section PoweredBy.

(** The text of a number. *)
Context (number_text : Q -> string).

Definition HEADER_X_POWERED_BY : string := "x-powered-by".
Definition PROTECTING_MIDDLEWARES : list string := ["helmet"; "hide-powered-by"].
Definition APP_SET_NUM_ARGS : nat := 2.

Definition isHidePoweredByFromHelmet (n : node) : bool :=
  (type_of n =s "CallExpression") && fqn_is sm n "helmet.hidePoweredBy".

Definition isProtecting (n : node) : bool :=
  isMiddlewareInstance PROTECTING_MIDDLEWARES n || isHidePoweredByFromHelmet n.

(** The name of the header has only ASCII letters, and no other letter has one of its
    characters for its lower case. *)
Definition is_powered_by_header (arg : node) : bool :=
  (type_of arg =s "Literal") && (toLowerCase_ascii (text_of_value number_text (get arg "value")) =s HEADER_X_POWERED_BY).

Definition isDisabledXPoweredBy (callExpression app : node) : bool :=
  isMethodInvocation callExpression (node_name app) "disable" 1
  && match argument_at callExpression 0 with Some arg0 => is_powered_by_header arg0 | None => false end.

Definition getSetTrueXPoweredByValue (callExpression app : node) : value :=
  if isMethodInvocation callExpression (node_name app) "set" APP_SET_NUM_ARGS then
    match argument_at callExpression 0, argument_at callExpression 1 with
    | Some headerName, Some onOff =>
        if is_powered_by_header headerName && (type_of onOff =s "Literal") then get onOff "value" else VUndefined
    | _, _ => VUndefined
    end
  else VUndefined.

Definition isSetFalseXPoweredBy (callExpression app : node) : bool :=
  strictly_equal (getSetTrueXPoweredByValue callExpression app) (VBool false).

Definition isSetTrueXPoweredBy (callExpression app : node) : bool :=
  strictly_equal (getSetTrueXPoweredByValue callExpression app) (VBool true).

Definition is_the_app (app arg : node) : bool := (type_of arg =s "Identifier") && (node_name arg =s node_name app).

Definition isAppEscaping (callExpr app : node) : bool := existsb (is_the_app app) (get_nodes callExpr "arguments").

Definition isAppEscapingThroughReturn (ret app : node) : bool :=
  match get_node ret "argument" with Some arg => is_the_app app arg | None => false end.

Record powered_by_state := mkPoweredBy {
  appInstantiation : option node;
  isSafe : bool;
  isExplicitlyUnsafe : bool;
  powered_by_reports : list ReportDescriptor
}.

Definition initial_powered_by : powered_by_state := mkPoweredBy None false false [].

(** What makes the application safe in a call. *)
Definition protected_by_call (callExpr a : node) : eval bool :=
  let! r := isUsingMiddleware callExpr a (fun n (u : unit) => Ok (isProtecting n, u)) tt in
  Ok (r.1 || isDisabledXPoweredBy callExpr a || isSetFalseXPoweredBy callExpr a || isAppEscaping callExpr a).

Definition S5689_step (st : powered_by_state) (e : express_event) : eval powered_by_state :=
  let reports := powered_by_reports st in
  match e, isSafe st, appInstantiation st with
  | Program, _, _ => Ok (mkPoweredBy None false true reports)
  | CallExpression callExpr, false, Some a =>
      let! safe := protected_by_call callExpr a in
      Ok (mkPoweredBy (Some a) safe (isSetTrueXPoweredBy callExpr a) reports)
  | VariableDeclarator varDecl, false, None =>
      Ok (mkPoweredBy (attemptFindAppInstantiation varDecl) false (isExplicitlyUnsafe st) reports)
  | ReturnStatement ret, false, Some a =>
      Ok (mkPoweredBy (Some a) (isAppEscapingThroughReturn ret a) (isExplicitlyUnsafe st) reports)
  | Program_exit, false, Some a =>
      Ok (mkPoweredBy (Some a) false (isExplicitlyUnsafe st)
            (reports ++ [report (if isExplicitlyUnsafe st then "headerSet" else "headerDefault") a]))
  | _, _, _ => Ok st
  end.

Definition S5689 (events : list express_event) : eval powered_by_state := rfold S5689_step events initial_powered_by.

End PoweredBy.

(** ** Flags of cookies: S2092 and S3330 *)

Section CookieFlagCheck.

(** [httpOnly] or [secure] *)
Context (flag : string).

Definition issueMessage : string :=
  ("Make sure creating this cookie without the " +:+ quoted flag +:+ " flag is safe.")%string.

Definition checkFlagOnCookieExpression (cookiePropertyValue firstArgument objectExpression callExpression : node)
  : eval (list ReportDescriptor) :=
  let! callee := node_at callExpression "callee" in
  let! flagProperty := property (Some cookiePropertyValue) flag in
  Ok (match flagProperty with
      | Some p =>
          match value_of (get_node p "value") "Literal" with
          | Some flagPropertyValue =>
              if strictly_equal (get flagPropertyValue "value") (VBool false) then
                [report_with issueMessage callee
                   (secondary flagPropertyValue
                    :: if negb (same_node firstArgument objectExpression) then [secondary objectExpression] else [])]
              else []
          | None => []
          end
      | None => []
      end).

Definition checkSensitiveCookieArgument (callExpression : node) (sensitiveArgumentIndex : nat) : eval (list ReportDescriptor) :=
  if argument_count callExpression <? sensitiveArgumentIndex + 1 then Ok []
  else
    match argument_at callExpression sensitiveArgumentIndex with
    | Some sensitiveArgument =>
        match value_of (Some sensitiveArgument) "ObjectExpression" with
        | Some cookieObjectExpression =>
            checkFlagOnCookieExpression cookieObjectExpression sensitiveArgument cookieObjectExpression callExpression
        | None => Ok []
        end
    | None => Ok []
    end.

Definition checkCookieSession (callExpression : node) : eval (list ReportDescriptor) :=
  checkSensitiveCookieArgument callExpression 0.

Definition checkCookiesMethodCall (callExpression : node) : eval (list ReportDescriptor) :=
  if isIdentifier (callee_prop callExpression "property") ["set"] then checkSensitiveCookieArgument callExpression 2 else Ok [].

(** The reports, and the property [cookie] when its value is not an object. *)
Definition checkSensitiveObjectArgument (callExpression : node) (argumentIndex : nat)
  : eval (list ReportDescriptor * option node) :=
  if argument_count callExpression <? argumentIndex + 1 then Ok ([], None)
  else
    match argument_at callExpression argumentIndex with
    | Some firstArgument =>
        match value_of (Some firstArgument) "ObjectExpression" with
        | Some objectExpression =>
            let! cookieProperty := property (Some objectExpression) "cookie" in
            match cookieProperty with
            | Some p =>
                match value_of (get_node p "value") "ObjectExpression" with
                | Some cookiePropertyValue =>
                    let! reports := checkFlagOnCookieExpression cookiePropertyValue firstArgument objectExpression callExpression in
                    Ok (reports, None)
                | None => Ok ([], Some p)
                end
            | None => Ok ([], None)
            end
        | None => Ok ([], None)
        end
    | None => Ok ([], None)
    end.

Definition checkCsurf (callExpression : node) : eval (list ReportDescriptor) :=
  let! callee := node_at callExpression "callee" in
  let! r := checkSensitiveObjectArgument callExpression 0 in
  let '(reports, cookieProperty) := r in
  Ok (reports ++
      match cookieProperty with
      | Some p =>
          match value_of (get_node p "value") "Literal" with
          | Some cookiePropertyLiteral =>
              if strictly_equal (get cookiePropertyLiteral "value") (VBool true)
              then [report_with issueMessage callee [secondary cookiePropertyLiteral]] else []
          | None => []
          end
      | None => []
      end).

Definition checkExpressSession (callExpression : node) : eval (list ReportDescriptor) :=
  let! r := checkSensitiveObjectArgument callExpression 0 in Ok r.1.

Definition checkCookiesFromCallExpression (callExpression : node) : eval (list ReportDescriptor) :=
  let! callee := node_at callExpression "callee" in
  if fqn_is sm callee "cookie-session" then checkCookieSession callExpression
  else if fqn_is sm callee "csurf" then checkCsurf callExpression
  else if fqn_is sm callee "express-session" then checkExpressSession callExpression
  else if type_of callee =s "MemberExpression" then
    match value_of (get_node callee "object") "NewExpression" with
    | Some objectValue =>
        let! created := node_at objectValue "callee" in
        if fqn_is sm created "cookies" then checkCookiesMethodCall callExpression else Ok []
    | None => Ok []
    end
  else Ok [].

End CookieFlagCheck.

Definition S2092 (n : node) : eval (list ReportDescriptor) := checkCookiesFromCallExpression "secure" n.
Definition S3330 (n : node) : eval (list ReportDescriptor) := checkCookiesFromCallExpression "httpOnly" n.

(** ** Protection against CSRF: S4502 *)

Section Csrf.

Context (number_text : Q -> string).

Definition CSURF_MODULE : string := "csurf".
Definition SAFE_METHODS : list string := ["GET"; "HEAD"; "OPTIONS"].

Definition is_unsafe_method (e : node) : bool :=
  (type_of e =s "Literal") && match get_str e "value" with Some s => negb (includes s SAFE_METHODS) | None => false end.

Definition checkIgnoredMethods (n : node) : list ReportDescriptor :=
  match get_node n "value" with
  | Some arrayExpr =>
      if type_of arrayExpr =s "ArrayExpression" then
        match List.filter is_unsafe_method (get_nodes arrayExpr "elements") with
        | first :: rest => [report_with "Make sure disabling CSRF protection is safe here." first (map secondary rest)]
        | [] => []
        end
      else []
  | None => []
  end.

Definition isCsurfMiddleware (n : node) : bool := fqn_is sm n CSURF_MODULE.

Record csrf_state := mkCsrf {
  globalCsrfProtection : bool;
  importedCsrfMiddleware : bool;
  csrf_reports : list ReportDescriptor
}.

Definition initial_csrf : csrf_state := mkCsrf false false [].

(** The reports on [csurf(...)]. *)
Definition check_csurf_call (callee callExpression : node) : eval (list ReportDescriptor) :=
  if fqn_is sm callee CSURF_MODULE then
    let! ignoredMethods := property (argument_at callExpression 0) "ignoreMethods" in
    Ok (match ignoredMethods with Some p => checkIgnoredMethods p | None => [] end)
  else Ok [].

(** Whether [app.use(csurf(...))] protects the application. *)
Definition protects_globally (callee callExpression : node) : eval bool :=
  if isIdentifier (get_node callee "property") ["use"] then
    let! args := flattened sm stack (arguments_of callExpression) in Ok (existsb isCsurfMiddleware args)
  else Ok false.

Definition checkCallExpression (st : csrf_state) (callExpression : node) : eval csrf_state :=
  let! callee := node_at callExpression "callee" in
  let imported := importedCsrfMiddleware st || isRequireModule number_text callExpression [CSURF_MODULE] in
  let! ignored := check_csurf_call callee callExpression in
  if type_of callee =s "MemberExpression" then
    let! protecting := protects_globally callee callExpression in
    let protected := globalCsrfProtection st || protecting in
    Ok (mkCsrf protected imported
          (csrf_reports st ++ ignored ++
           if isIdentifier (get_node callee "property") ["post"; "put"; "delete"; "patch"]
              && negb protected && imported
              && negb (existsb isCsurfMiddleware (get_nodes callExpression "arguments"))
           then [report "Make sure not using CSRF protection is safe here." callee] else []))
  else Ok (mkCsrf (globalCsrfProtection st) imported (csrf_reports st ++ ignored)).

Definition S4502_step (st : csrf_state) (e : express_event) : eval csrf_state :=
  match e with
  | Program => Ok (mkCsrf false (importedCsrfMiddleware st) (csrf_reports st))
  | CallExpression n => checkCallExpression st n
  | ImportDeclaration n =>
      Ok (mkCsrf (globalCsrfProtection st)
            (importedCsrfMiddleware st
             || match get_node n "source" with Some s => str_prop_is s "value" CSURF_MODULE | None => false end)
            (csrf_reports st))
  | _ => Ok st
  end.

Definition S4502 (events : list express_event) : eval csrf_state := rfold S4502_step events initial_csrf.

End Csrf.

(** ** Sharing of resources: S5122 *)

Section Cors.

(** [sourceCode.getText], and [scopeManager.getDeclaredVariables] and [acquire]. *)
Context (getText : node -> string) (declared_variables : node -> list VarId) (acquire : node -> option ScopeId).

Definition MESSAGE : string := "Make sure that enabling CORS is safe here.".
Definition SECONDARY_MESSAGE : string := "Sensitive configuration".
Definition ACCESS_CONTROL_ALLOW_ORIGIN : string := "Access-Control-Allow-Origin".
Definition ROUTINE_METHODS : list string :=
  ["all"; "checkout"; "copy"; "delete"; "get"; "head"; "lock"; "merge"; "mkactivity"; "mkcol"; "move"; "m-search"; "notify";
   "options"; "patch"; "post"; "purge"; "put"; "report"; "search"; "subscribe"; "trace"; "unlock"; "unsubscribe"].

(** The loops over [variable.references]. *)
Fixpoint on_references (check : Reference -> eval (list ReportDescriptor)) (l : list Reference) : eval (list ReportDescriptor) :=
  match l with
  | [] => Ok []
  | ref :: rest => both (check ref) (on_references check rest)
  end.

Definition named_variable (variables : list VarId) (s : string) : option Variable_ :=
  List.find (fun v => var_name v =s s) (omap (variable_at sm) variables).

(** The parameter of a callback, when it is an identifier. *)
Definition identifier_parameter (callback : node) (index : nat) : option node :=
  match (v ← get_array callback "params" !! index; as_node v) with
  | Some p => if isIdentifier (Some p) [] then Some p else None
  | None => None
  end.

(** [identifier.parent.parent], when it is a call of the method with two arguments. *)
Definition call_around (ref : Reference) (method : string) : option node :=
  match parents (ref_identifier ref) !! 1 with
  | Some call => if (type_of call =s "CallExpression") && isCallingMethod call 2 [method] then Some call else None
  | None => None
  end.

Definition is_text (literal : option node) (s : string) : bool := strictly_equal (literal_value literal) (VStr s).

(** A use of the response in [checkNodeHttp]. *)
Definition check_write_head (ref : Reference) : eval (list ReportDescriptor) :=
  match call_around ref "writeHead" with
  | Some writeHeadCall =>
      let! callee := node_at writeHeadCall "callee" in
      match value_of (argument_at writeHeadCall 1) "ObjectExpression" with
      | Some headerValue =>
          let! accessProperty := property (Some headerValue) ACCESS_CONTROL_ALLOW_ORIGIN in
          Ok (match accessProperty with
              | Some p =>
                  if is_text (value_of (get_node p "value") "Literal") "*"
                  then [report_with MESSAGE callee [secondary_with p SECONDARY_MESSAGE]] else []
              | None => []
              end)
      | None => Ok []
      end
  | None => Ok []
  end.

Definition checkNodeHttp (n : node) : eval (list ReportDescriptor) :=
  let! callee := node_at n "callee" in
  if negb (fqn_is sm callee "http.createServer") then Ok []
  else
    match argument_at n 0 ≫= resolveFunction sm with
    | Some callback =>
        match identifier_parameter callback 1 with
        | Some resParameter =>
            match named_variable (declared_variables callback) (node_name resParameter) with
            | Some resVariable => on_references check_write_head (omap (reference_at sm) (var_references resVariable))
            | None => Ok []
            end
        | None => Ok []
        end
    | None => Ok []
    end.

Definition checkExpressCors (n : node) : eval (list ReportDescriptor) :=
  let! callee := node_at n "callee" in
  if negb (fqn_is sm callee "express.use") then Ok []
  else
    match value_of (argument_at n 0) "CallExpression" with
    | None => Ok []
    | Some argValue =>
        if negb (fqn_is sm argValue "cors") then Ok []
        else
          match argument_at argValue 0 with
          | None => Ok [report MESSAGE n]
          | Some corsOptions =>
              match value_of (Some corsOptions) "ObjectExpression" with
              | None => Ok []
              | Some corsOptionsValue =>
                  let! originProperty := property (Some corsOptionsValue) "origin" in
                  Ok (match originProperty with
                      | None => [report_with MESSAGE callee [secondary_with corsOptions SECONDARY_MESSAGE]]
                      | Some p =>
                          if is_text (value_of (get_node p "value") "Literal") "*"
                          then [report_with MESSAGE callee [secondary_with p SECONDARY_MESSAGE]] else []
                      end)
              end
          end
    end.

Definition is_comparison (n : node) : bool :=
  (type_of n =s "BinaryExpression")
  && match get_str n "operator" with Some op => includes op ["=="; "!="; "==="; "!=="] | None => false end.

Definition isValidated (callback header : node) : bool :=
  isIdentifier (Some header) []
  && match acquire callback ≫= (fun scope => sm_scopes sm !! scope) with
     | Some scope =>
         match named_variable (sco_variables scope) (node_name header) with
         | Some headerVariable =>
             existsb (fun headerUsage =>
                        match findFirstMatchingLocalAncestor (parents (ref_identifier headerUsage)) is_comparison with
                        | Some _ => true
                        | None => false
                        end)
               (omap (reference_at sm) (var_references headerVariable))
         | None => false
         end
     | None => false
     end.

(** Whether the value of the header is the origin that the request gives. *)
Definition is_request_origin (reqParameter headerValue : node) : bool :=
  if type_of headerValue =s "CallExpression" then
    match get_node headerValue "callee" with
    | Some callee =>
        (getText callee =s (node_name reqParameter +:+ ".header")%string)
        && match literal_value (value_of (argument_at headerValue 0) "Literal") with
           | VStr s => toLowerCase_ascii s =s "origin"
           | _ => false
           end
    | None => false
    end
  else if type_of headerValue =s "MemberExpression"
  then getText headerValue =s (node_name reqParameter +:+ ".headers.origin")%string
  else false.

(** A use of the response in [checkExpressUserControlledOrigin]. *)
Definition check_set_header (callback reqParameter : node) (ref : Reference) : eval (list ReportDescriptor) :=
  match call_around ref "setHeader" with
  | Some setHeaderCall =>
      let! callee := node_at setHeaderCall "callee" in
      match literal_value (value_of (argument_at setHeaderCall 0) "Literal"), argument_at setHeaderCall 1 with
      | VStr headerName, Some headerArg =>
          if toLowerCase_ascii headerName =s toLowerCase_ascii ACCESS_CONTROL_ALLOW_ORIGIN then
            let headerValue := writeOrNode sm headerArg in
            Ok (if is_request_origin reqParameter headerValue && negb (isValidated callback headerArg)
                then [report_with MESSAGE callee [secondary_with headerValue SECONDARY_MESSAGE]] else [])
          else Ok []
      | _, _ => Ok []
      end
  | None => Ok []
  end.

Definition is_routine (fqn : option string) : bool :=
  match fqn with
  | Some fqn =>
      match split_char "."%char fqn with
      | [module; method] => (module =s "express") && includes method ROUTINE_METHODS
      | _ => false
      end
  | None => false
  end.

Definition checkExpressUserControlledOrigin (n : node) : eval (list ReportDescriptor) :=
  let! callee := node_at n "callee" in
  if negb (is_routine (name callee)) then Ok []
  else
    match argument_at n 1 ≫= resolveFunction sm with
    | Some callback =>
        match identifier_parameter callback 0, identifier_parameter callback 1 with
        | Some reqParameter, Some resParameter =>
            match named_variable (declared_variables callback) (node_name resParameter) with
            | Some resVariable =>
                on_references (check_set_header callback reqParameter) (omap (reference_at sm) (var_references resVariable))
            | None => Ok []
            end
        | _, _ => Ok []
        end
    | None => Ok []
    end.

Definition S5122 (n : node) : eval (list ReportDescriptor) :=
  both (checkNodeHttp n) (both (checkExpressCors n) (checkExpressUserControlledOrigin n)).

End Cors.

(** ** Uploads of files: S2598 and S5693 *)

(** The module of a qualified name. *)
Definition module_of (n : node) : option string :=
  match name n with
  | Some fqn => if fqn =s "" then None else head (split_char "."%char fqn)
  | None => None
  end.

Definition getVariablePropertyFromAssignment (assignment : node) : option (VarId * string) :=
  match get_node assignment "left" with
  | Some memberExpr =>
      if (type_of memberExpr =s "MemberExpression")
         && opt_type_is (get_node memberExpr "object") "Identifier" && opt_type_is (get_node memberExpr "property") "Identifier"
      then
        match get_node memberExpr "object", get_node memberExpr "property" with
        | Some object, Some p =>
            match getVariableFromName sm (node_name object) memberExpr with
            | Some objectVariable => Some (objectVariable, node_name p)
            | None => None
            end
        | _, _ => None
        end
      else None
  | None => None
  end.

Definition lhsVariable (n : node) : option VarId := getLhsVariable sm (rev (parents n)) n.

(** *** S2598: where files go and what they are named *)

Record FormOptions := mkFormOptions { uploadDirSet : bool; keepExtensions : bool; form_call : node }.

(** The objects of [formidable] that have no options yet, and the reports. *)
Record upload_state := mkUpload { formidableObjects : list (VarId * FormOptions); upload_reports : list ReportDescriptor }.

Definition upload_message (uploadDirSet keepExtensions : bool) : option string :=
  if keepExtensions && uploadDirSet then Some "Restrict the extension of uploaded files."
  else if negb keepExtensions && negb uploadDirSet then Some "Restrict folder destination of uploaded files."
  else if keepExtensions && negb uploadDirSet then Some "Restrict the extension and folder destination of uploaded files."
  else None.

(** [report] of the rule. *)
Definition report_upload (uploadDirSet keepExtensions : bool) (callExpression : node) (secondaryLocation : list (place * option string))
  : list ReportDescriptor :=
  match upload_message uploadDirSet keepExtensions, get_node callExpression "callee" with
  | Some message, Some callee => [report_with message callee secondaryLocation]
  | _, _ => []
  end.

Definition keepExtensionsValue (extensionValue : option node) : bool :=
  match extensionValue with
  | Some e => (type_of e =s "Literal") && match get e "value" with VBool b => b | _ => false end
  | None => false
  end.

Definition S2598_checkFormidable (objects : list (VarId * FormOptions)) (callExpression : node)
  : eval (list (VarId * FormOptions) * list ReportDescriptor) :=
  if Nat.eqb (argument_count callExpression) 0 then
    Ok (match lhsVariable callExpression with
        | Some formVariable => map_set formVariable (mkFormOptions false false callExpression) objects
        | None => objects
        end, [])
  else
    match value_of (argument_at callExpression 0) "ObjectExpression" with
    | Some options =>
        let! uploadDir := has_property (Some options) "uploadDir" in
        let! extensions := property (Some options) "keepExtensions" in
        Ok (objects, report_upload uploadDir (keepExtensionsValue (extensions ≫= fun p => get_node p "value")) callExpression [])
    | None => Ok (objects, [])
    end.

Definition getDiskStorageCalleeIfUnsafeStorage (storageCreation : node) : eval (option node) :=
  let! callee := node_at storageCreation "callee" in
  if (0 <? argument_count storageCreation) && isMemberWithProperty callee ["diskStorage"] then
    match value_of (argument_at storageCreation 0) "ObjectExpression" with
    | Some storageOptions =>
        let! destination := has_property (Some storageOptions) "destination" in
        Ok (if destination then None else Some callee)
    | None => Ok None
    end
  else Ok None.

Definition S2598_checkMulter (callExpression : node) : eval (list ReportDescriptor) :=
  match value_of (argument_at callExpression 0) "ObjectExpression" with
  | Some multerOptions =>
      let! storage := property (Some multerOptions) "storage" in
      match value_of (storage ≫= fun p => get_node p "value") "CallExpression" with
      | Some storageValue =>
          let! diskStorageCallee := getDiskStorageCalleeIfUnsafeStorage storageValue in
          Ok (match diskStorageCallee with
              | Some c => report_upload false false callExpression [secondary_with c "no destination specified"]
              | None => []
              end)
      | None => Ok []
      end
  | None => Ok []
  end.

Definition S2598_checkCallExpression (st : upload_state) (callExpression : node) : eval upload_state :=
  let! callee := node_at callExpression "callee" in
  if type_of callee =s "Identifier" then
    match module_of callee with
    | Some moduleName =>
        if moduleName =s "formidable" then
          let! r := S2598_checkFormidable (formidableObjects st) callExpression in
          Ok (mkUpload r.1 (upload_reports st ++ r.2))
        else if moduleName =s "multer" then
          let! reports := S2598_checkMulter callExpression in Ok (mkUpload (formidableObjects st) (upload_reports st ++ reports))
        else Ok st
    | None => Ok st
    end
  else Ok st.

Definition S2598_visitAssignment (objects : list (VarId * FormOptions)) (assignment : node) : list (VarId * FormOptions) :=
  match getVariablePropertyFromAssignment assignment with
  | Some (objectVariable, p) =>
      match map_get objectVariable objects with
      | Some formOptions =>
          if p =s "uploadDir"
          then map_set objectVariable (mkFormOptions true (keepExtensions formOptions) (form_call formOptions)) objects
          else if p =s "keepExtensions"
          then map_set objectVariable
                 (mkFormOptions (uploadDirSet formOptions) (keepExtensionsValue (get_node assignment "right")) (form_call formOptions))
                 objects
          else objects
      | None => objects
      end
  | None => objects
  end.

Definition S2598_step (st : upload_state) (e : express_event) : eval upload_state :=
  match e with
  | Program => Ok (mkUpload [] (upload_reports st))
  | NewExpression n | CallExpression n => S2598_checkCallExpression st n
  | AssignmentExpression n => Ok (mkUpload (S2598_visitAssignment (formidableObjects st) n) (upload_reports st))
  | Program_exit =>
      Ok (mkUpload (formidableObjects st)
            (upload_reports st ++
             flat_map (fun o => report_upload (uploadDirSet o.2) (keepExtensions o.2) (form_call o.2) []) (formidableObjects st)))
  | _ => Ok st
  end.

(** The map of objects belongs to the module: it is what the file before has left. *)
Definition S2598 (left_over : list (VarId * FormOptions)) (events : list express_event) : eval upload_state :=
  rfold S2598_step events (mkUpload left_over []).

(** *** S5693: how large files are *)

Section Sizes.

(** [parse] of the package [bytes], and the limits of the configuration. *)
Context (parse : string -> option jsnum) (option_fileUploadSizeLimit option_standardSizeLimit : option Q).

Definition FORMIDABLE_DEFAULT_SIZE : jsnum := NumQ (200 * 1024 * 1024).
Definition BODY_PARSER_DEFAULT_SIZE : option jsnum := parse "100kb".

Definition fileUploadSizeLimit : Q := default (8000000)%Q option_fileUploadSizeLimit.
Definition standardSizeLimit : Q := default (2000000)%Q option_standardSizeLimit.

Record SizeOptions := mkSizeOptions { maxFileSize : jsnum; nodeToReport : node }.

(** [size > limit] *)
Definition above (x : jsnum) (limit : Q) : bool :=
  match x with
  | NumQ q => negb (Qle_bool q limit)
  | NumInfinity negative => negb negative
  | NumNaN => false
  end.

(** [report] of the rule. *)
Definition report_size (n : node) (size : option jsnum) (useStandardSizeLimit : bool) : list ReportDescriptor :=
  let limitToCompare := if useStandardSizeLimit then standardSizeLimit else fileUploadSizeLimit in
  match size with
  | Some x => if negb (truthy (VNum x)) || above x limitToCompare then [report "safeLimit" n] else []
  | None => [report "safeLimit" n]
  end.

Definition getSizeValue (n : option node) : option jsnum :=
  match literal_value (value_of n "Literal") with
  | VNum x => Some x
  | VStr s => parse s
  | _ => None
  end.

(** A size that counts as one: not [null], not zero. *)
Definition truthy_size (size : option jsnum) : option jsnum :=
  match size with Some x => if truthy (VNum x) then Some x else None | None => None end.

Definition checkSize (callExpr : node) (p : option node) (defaultLimit : option jsnum) (useStandardSizeLimit : bool)
  : list ReportDescriptor :=
  match p with
  | Some p =>
      match truthy_size (getSizeValue (get_node p "value")) with
      | Some maxFileSizeValue => report_size p (Some maxFileSizeValue) useStandardSizeLimit
      | None => []
      end
  | None => report_size callExpr defaultLimit useStandardSizeLimit
  end.

(** The objects and the reports. *)
Record size_state := mkSize { sizedObjects : list (VarId * SizeOptions); size_reports : list ReportDescriptor }.

Definition S5693_checkFormidable (objects : list (VarId * SizeOptions)) (callExpression : node)
  : eval (list (VarId * SizeOptions) * list ReportDescriptor) :=
  if Nat.eqb (argument_count callExpression) 0 then
    Ok (match lhsVariable callExpression with
        | Some formVariable => map_set formVariable (mkSizeOptions FORMIDABLE_DEFAULT_SIZE callExpression) objects
        | None => objects
        end, [])
  else
    match value_of (argument_at callExpression 0) "ObjectExpression" with
    | Some options =>
        let! p := property (Some options) "maxFileSize" in
        Ok (objects, checkSize callExpression p (Some FORMIDABLE_DEFAULT_SIZE) false)
    | None => Ok (objects, [])
    end.

Definition S5693_checkMulter (callExpression : node) : eval (list ReportDescriptor) :=
  let! callee := node_at callExpression "callee" in
  if type_of callee =s "MemberExpression" then Ok []
  else if Nat.eqb (argument_count callExpression) 0 then Ok (report_size callee None false)
  else
    match value_of (argument_at callExpression 0) "ObjectExpression" with
    | None => Ok []
    | Some multerOptions =>
        let! limits := property (Some multerOptions) "limits" in
        match limits ≫= fun p => get_node p "value" with
        | Some limitsPropertyValue =>
            if type_of limitsPropertyValue =s "ObjectExpression" then
              let! fileSizeProperty := property (Some limitsPropertyValue) "fileSize" in
              Ok (checkSize callExpression fileSizeProperty None false)
            else Ok []
        | None => Ok (report_size callee None false)
        end
    end.

Definition checkBodyParser (callExpression : node) : eval (list ReportDescriptor) :=
  if Nat.eqb (argument_count callExpression) 0 then Ok (checkSize callExpression None BODY_PARSER_DEFAULT_SIZE true)
  else
    match value_of (argument_at callExpression 0) "ObjectExpression" with
    | None => Ok []
    | Some options =>
        let! limitsProperty := property (Some options) "limits" in
        Ok (checkSize callExpression limitsProperty BODY_PARSER_DEFAULT_SIZE true)
    end.

(** [identifierFromModule] *)
Definition identifier_from_module (callee : node) : option node :=
  if (type_of callee =s "MemberExpression") && opt_type_is (get_node callee "object") "Identifier" then get_node callee "object"
  else if type_of callee =s "Identifier" then Some callee
  else None.

Definition S5693_checkCallExpression (st : size_state) (callExpression : node) : eval size_state :=
  let! callee := node_at callExpression "callee" in
  let reported reports := mkSize (sizedObjects st) (size_reports st ++ reports) in
  match identifier_from_module callee ≫= module_of with
  | Some moduleName =>
      if moduleName =s "formidable" then
        let! r := S5693_checkFormidable (sizedObjects st) callExpression in Ok (mkSize r.1 (size_reports st ++ r.2))
      else if moduleName =s "multer" then let! reports := S5693_checkMulter callExpression in Ok (reported reports)
      else if moduleName =s "body-parser" then let! reports := checkBodyParser callExpression in Ok (reported reports)
      else Ok st
  | None => Ok st
  end.

Definition S5693_visitAssignment (objects : list (VarId * SizeOptions)) (assignment : node) : list (VarId * SizeOptions) :=
  match getVariablePropertyFromAssignment assignment with
  | Some (objectVariable, p) =>
      match map_get objectVariable objects with
      | Some formOptions =>
          if p =s "maxFileSize" then
            match truthy_size (getSizeValue (get_node assignment "right")) with
            | Some rhsValue => map_set objectVariable (mkSizeOptions rhsValue assignment) objects
            | None => map_delete objectVariable objects
            end
          else objects
      | None => objects
      end
  | None => objects
  end.

Definition S5693_step (st : size_state) (e : express_event) : eval size_state :=
  match e with
  | Program => Ok (mkSize [] (size_reports st))
  | NewExpression n | CallExpression n => S5693_checkCallExpression st n
  | AssignmentExpression n => Ok (mkSize (S5693_visitAssignment (sizedObjects st) n) (size_reports st))
  | Program_exit =>
      Ok (mkSize (sizedObjects st)
            (size_reports st ++ flat_map (fun o => report_size (nodeToReport o.2) (Some (maxFileSize o.2)) false) (sizedObjects st)))
  | _ => Ok st
  end.

Definition S5693 (left_over : list (VarId * SizeOptions)) (events : list express_event) : eval size_state :=
  rfold S5693_step events (mkSize left_over []).

End Sizes.

End Express.

(** ** Examples *)

Module ExpressExample.

Import ModulesExample.

(** [import express from 'express'; import helmet from 'helmet'; const app = express();] *)
Definition express_call : node := call 30 (ident 32 "express") [].
Definition declarator : node := mk 40 "VariableDeclarator" [("id", VNode (ident 41 "app")); ("init", VNode express_call)].
Definition server : ScopeManager :=
  mkScopeManager [mkScope (mk 0 "Program" []) None [0; 1; 2]%nat []]
    [import_ 10 "express" "express"; import_ 20 "helmet" "helmet"; variable 45 "app" [0]%nat]
    [written 50 2 "app" express_call] (fun _ => Some 0%nat).

(** [helmet({ noSniff: false })] *)
Definition no_sniff : node :=
  mk 62 "Property" [("key", VNode (ident 63 "noSniff")); ("value", VNode (mk 64 "Literal" [("value", VBool false)]))].
Definition helmet_call : node :=
  call 60 (ident 61 "helmet") [mk 65 "ObjectExpression" [("properties", VArr [VNode no_sniff])]].

(** [app.use(helmet({ noSniff: false }))] *)
Definition use_call : node := call 70 (member 71 (ident 73 "app") "use") [helmet_call].

Definition server_events : list express_event :=
  [VariableDeclarator declarator; CallExpression express_call; CallExpression use_call; CallExpression helmet_call].

Definition S5734_message : string := "Make sure allowing browsers to sniff MIME types is safe here.".

Lemma sensitive_settings_reported_witness :
  run_express server 5 (findFalseNoSniffPropertyFromHelmet server (fun _ => []) 5) S5734_message (Program :: server_events)
  = Ok (mkExpress (Some (ident 41 "app")) [] [report_with S5734_message use_call [secondary no_sniff]]).
Proof.
  rewrite (sensitive_settings_reported server 5 (findFalseNoSniffPropertyFromHelmet server (fun _ => []) 5) S5734_message server_events)
    by (unfold server_events; rewrite !not_elem_of_cons; auto using not_elem_of_nil).
  vm_compute. reflexivity.
Defined.

(** [app.set('X-Powered-By', true)] *)
Definition set_call : node :=
  call 80 (member 81 (ident 83 "app") "set") [literal 84 "X-Powered-By"; mk 85 "Literal" [("value", VBool true)]].
(** [app.listen()] *)
Definition listen_call : node := call 90 (member 91 (ident 93 "app") "listen") [].

Definition reported (calls : list node) : eval (list ReportDescriptor) :=
  let! st := S5689 server 5 (fun _ => "") ([Program; VariableDeclarator declarator; CallExpression express_call]
                                           ++ map CallExpression calls ++ [Program_exit]) in
  Ok (powered_by_reports st).

(** The header that is set on purpose is told as such only when no call comes after. *)
Lemma set_header_forgotten :
  reported [set_call] = Ok [report "headerSet" (ident 41 "app")] /\
  reported [set_call; listen_call] = Ok [report "headerDefault" (ident 41 "app")].
Proof. vm_compute. done. Qed.

End ExpressExample.
