(* ===== verification/Statements.v ===== *)
(** * Statements: rules on jumps, on cases and on the layout of statements

    S135 (jumps out of loops) and S128 (cases that fall through), which keep a state along
    the walk of ESLint and its code paths; S1751 (loops that do not loop); and the rules
    on the shape and the place of statements: S2681, S3972, S3973, S131, S1126, S1121,
    S2310, S138, S107, S1110, S2757 and S1472. *)

From Stdlib Require Import ZArith QArith Lia.
From stdpp Require Import base list sets strings.
From S2P Require Import Prelude JsString Json Estree Cognitive Reports Ast Modules Aws Calls Traversal.

Open Scope js_scope.
Open Scope nat_scope.

(** ** S135: jumps out of a loop *)

Section Jumps.

Variable getFirstToken : node -> option Token.

Record JumpTarget := mkJumpTarget { label : option string; jumps : list node }.

(** [jumpTargets], the innermost one first, and the reports. *)
Record jump_state := mkJumps { jumpTargets : list JumpTarget; jump_reports : list ReportDescriptor }.

Definition enterScope (st : jump_state) : jump_state := mkJumps (mkJumpTarget None [] :: jumpTargets st) (jump_reports st).

Definition leaveScope (st : jump_state) : jump_state := mkJumps (tail (jumpTargets st)) (jump_reports st).

Definition same_label (a b : option string) : bool := bool_decide (a = b).

Fixpoint increateNumberOfJumpsInScopes (jump : node) (l : option string) (targets : list JumpTarget) : list JumpTarget :=
  match targets with
  | [] => []
  | t :: rest =>
      mkJumpTarget (label t) (jumps t ++ [jump])
      :: if same_label l (label t) then rest else increateNumberOfJumpsInScopes jump l rest
  end.

Definition jump_message (jump : node) : string :=
  if type_of jump =s "BreakStatement"
  then (quoted "break" +:+ " statement.")%string else (quoted "continue" +:+ " statement.")%string.

Definition S135_message : string :=
  ("Reduce the total number of " +:+ quoted "break" +:+ " and " +:+ quoted "continue"
   +:+ " statements in this loop to use one at most.")%string.

Definition report_jumps (n : node) (jumps : list node) : eval (list ReportDescriptor) :=
  if 1 <? length jumps then
    let! firstToken := of_option TypeError (getFirstToken n) in
    Ok [mkDescriptor S135_message [] (AtToken firstToken) (map (fun jmp => secondary_with jmp (jump_message jmp)) jumps)]
  else Ok [].

Definition leaveScopeAndCheckNumberOfJumps (n : node) (st : jump_state) : eval jump_state :=
  match jumpTargets st with
  | [] => Ok st
  | t :: rest => let! reports := report_jumps n (jumps t) in Ok (mkJumps rest (jump_reports st ++ reports))
  end.

(** The name of the label of a jump, or of a statement. *)
Definition label_of (n : node) : option string := (fun l => node_name l) <$> get_node n "label".

Definition is_jump (n : node) : bool := includes (type_of n) ["BreakStatement"; "ContinueStatement"].
Definition is_loop (n : node) : bool :=
  includes (type_of n) ["ForStatement"; "ForInStatement"; "ForOfStatement"; "WhileStatement"; "DoWhileStatement"].

Definition S135_step (e : event) (st : jump_state) : eval jump_state :=
  match e with
  | Enter n _ =>
      Ok (if type_of n =s "Program" then mkJumps [] (jump_reports st)
          else if is_jump n then mkJumps (increateNumberOfJumpsInScopes n (label_of n) (jumpTargets st)) (jump_reports st)
          else if (type_of n =s "SwitchStatement") || is_loop n then enterScope st
          else if type_of n =s "LabeledStatement" then mkJumps (mkJumpTarget (label_of n) [] :: jumpTargets st) (jump_reports st)
          else st)
  | Leave n _ =>
      if is_loop n then leaveScopeAndCheckNumberOfJumps n st
      else Ok (if (type_of n =s "SwitchStatement") || (type_of n =s "LabeledStatement") then leaveScope st else st)
  end.

Definition S135 (keys : VisitorKeys) (program : node) : eval jump_state :=
  run S135_step (events keys [] program) (mkJumps [] []).

(** *** What S135 counts *)

Section Spec.

Variable keys : VisitorKeys.

(** The statements at which a jump ends, in JavaScript: a jump with a label at the
    statement that has it, a jump without one at a loop, and a [break] at a [switch] too. *)
Definition stops_at (s j : node) : bool :=
  match label_of j with
  | Some l => (type_of s =s "LabeledStatement") && same_label (label_of s) (Some l)
  | None => is_loop s || ((type_of s =s "SwitchStatement") && (type_of j =s "BreakStatement"))
  end.

(** A jump at the end of a statement: it stops there, or it goes on out of it. A [continue]
    without label that gets out of a [switch] is marked. *)
Definition goes_on (s : node) (jm : node * bool) : option (node * bool) :=
  if stops_at s jm.1 then None
  else Some (jm.1, jm.2 || ((type_of s =s "SwitchStatement") && same_label (label_of jm.1) None)).

(** The jumps of a tree that go on out of it. *)
Definition open_jumps (n : node) (inner : list (node * bool)) : list (node * bool) :=
  if is_jump n then (n, false) :: inner else omap (goes_on n) inner.

Definition jumps_out (n : node) : list (node * bool) := below keys (fun n _ => open_jumps n) [] n.

(** The jumps of the parts of a loop that get out of them. *)
Definition jumps_of_loop (n : node) : list (node * bool) := flat_map jumps_out (childrenOf n keys).

(** The jumps that are charged: those without mark. *)
Definition charged (l : list (node * bool)) : list node := map fst (List.filter (fun jm => negb jm.2) l).

(** The loops of a tree, the inner ones first. *)
Definition loops_in (n : node) : list node := below keys (fun n _ inner => inner ++ if is_loop n then [n] else []) [] n.

Definition jump_reports_in (loops : list node) : eval (list ReportDescriptor) :=
  all_reports (map (fun loop => report_jumps loop (charged (jumps_of_loop loop))) loops).

Definition charge (targets : list JumpTarget) (l : list node) : list JumpTarget :=
  fold_left (fun targets j => increateNumberOfJumpsInScopes j (label_of j) targets) l targets.

Lemma charge_cons t targets l : charge (t :: targets) l =
  mkJumpTarget (label t) (jumps t ++ l) :: charge targets (List.filter (fun j => negb (same_label (label_of j) (label t))) l).
Proof.
  revert t targets. induction l as [|j l IH]; intros [lb js] targets; unfold charge in *; cbn [fold_left List.filter]; [by rewrite app_nil_r |].
  cbn [increateNumberOfJumpsInScopes]. rewrite IH. cbn [label jumps]. rewrite <- app_assoc.
  destruct (same_label (label_of j) lb); done.
Qed.

Lemma charge_nil l : charge [] l = [].
Proof. induction l as [|j l IH]; [done |]. exact IH. Qed.

Lemma charge_app targets l k : charge targets (l ++ k) = charge (charge targets l) k.
Proof. apply fold_left_app. Qed.

Lemma jumps_out_eq n : jumps_out n = open_jumps n (jumps_of_loop n).
Proof.
  unfold jumps_out, jumps_of_loop. rewrite below_eq. f_equal. apply flat_map_ext_in. intros c _. by apply below_parents.
Qed.

Lemma loops_in_eq n : loops_in n = flat_map loops_in (childrenOf n keys) ++ if is_loop n then [n] else [].
Proof.
  unfold loops_in. rewrite below_eq. f_equal. apply flat_map_ext_in. intros c _. by apply below_parents.
Qed.

Lemma jump_reports_in_app l k : jump_reports_in (l ++ k) = let! a := jump_reports_in l in let! b := jump_reports_in k in Ok (a ++ b).
Proof. unfold jump_reports_in. rewrite map_app. apply all_reports_app. Qed.

Lemma charged_app l k : charged (l ++ k) = charged l ++ charged k.
Proof. unfold charged. by rewrite List.filter_app, map_app. Qed.

Lemma charged_flat_map {A} (f : A -> list (node * bool)) l : charged (flat_map f l) = flat_map (fun x => charged (f x)) l.
Proof. induction l as [|x l IH]; [done |]. cbn [flat_map]. by rewrite charged_app, IH. Qed.

(** No program below the root, and labelled statements have their label. *)
Definition nested (n : node) (parents : list node) : Prop :=
  forall m ps, Enter m ps ∈ events keys parents n ->
    type_of m <> "Program" /\ (type_of m = "LabeledStatement" -> label_of m <> None).

(** The label that the code looks for at a statement: [Some None] is no label. *)
Definition target_label (n : node) : option (option string) :=
  if (type_of n =s "SwitchStatement") || is_loop n then Some None
  else if type_of n =s "LabeledStatement" then Some (label_of n)
  else None.

Lemma same_label_none l : same_label (Some l) None = false.
Proof. done. Qed.

Lemma same_label_some k l : same_label (Some l) (Some k) = same_label (Some k) (Some l).
Proof. by apply bool_decide_ext. Qed.

(** A jump that has the label stops or is marked, and the others go on as they are. *)
Lemma goes_on_label n j b : (type_of n = "LabeledStatement" -> label_of n <> None) ->
  match target_label n with
  | Some l => if same_label (label_of j) l then goes_on n (j, b) = None \/ goes_on n (j, b) = Some (j, true)
              else goes_on n (j, b) = Some (j, b)
  | None => goes_on n (j, b) = Some (j, b)
  end.
Proof.
  intros W. unfold target_label, goes_on, stops_at. cbn [fst snd].
  destruct (String.eqb_spec (type_of n) "SwitchStatement") as [T|T].
  - rewrite T, orb_true_l. cbn [orb andb].
    destruct (label_of j); [by rewrite same_label_none, orb_false_r |]. rewrite orb_true_r.
    change (same_label None None) with true. destruct (is_loop n || _)%bool; auto.
  - rewrite orb_false_l, andb_false_l, orb_false_r, andb_false_l, orb_false_r. destruct (is_loop n) eqn:L.
    + assert (type_of n =s "LabeledStatement" = false) as ->.
      { apply String.eqb_neq. intros E. unfold is_loop in L. by rewrite E in L. }
      destruct (label_of j); [done | by left].
    + destruct (String.eqb_spec (type_of n) "LabeledStatement") as [E|E]; [| by destruct (label_of j)].
      specialize (W E). destruct (label_of n) as [l|]; [| done]. destruct (label_of j) as [k|]; [| done].
      rewrite andb_true_l, (same_label_some k l). destruct (same_label (Some k) (Some l)); [by left | done].
Qed.

(** The jumps charged after a statement are those charged before it, without those that
    have the label the code looks for. *)
Lemma charged_goes_on n inner : (type_of n = "LabeledStatement" -> label_of n <> None) ->
  charged (omap (goes_on n) inner)
  = match target_label n with
    | Some l => List.filter (fun j => negb (same_label (label_of j) l)) (charged inner)
    | None => charged inner
    end.
Proof.
  intros W. induction inner as [|[j b] inner IH]; [by destruct (target_label n) |].
  pose proof (goes_on_label n j b W) as G. unfold charged in *. cbn [omap list_omap].
  destruct (target_label n) as [l|]; [| rewrite G; destruct b; cbn; by rewrite <- IH].
  destruct (same_label (label_of j) l) eqn:S.
  - destruct G as [-> | ->], b; cbn; rewrite ?S, <- ?IH; done.
  - rewrite G. destruct b; cbn; rewrite ?S, <- ?IH; done.
Qed.

Lemma nested_child n parents c : nested n parents -> c ∈ childrenOf n keys -> nested c (n :: parents).
Proof.
  intros N Hc m ps Hm. apply (N m ps). rewrite events_eq. right. apply elem_of_app. left.
  apply list_elem_of_In, in_flat_map. exists c. by rewrite <- !list_elem_of_In.
Qed.

(** The run of a list of trees, from the run of each. *)
Lemma jumps_run_trees n parents l :
  (forall c, c ∈ l -> nested c (n :: parents)) ->
  (forall c, c ∈ l -> nested c (n :: parents) -> forall T R, run S135_step (events keys (n :: parents) c) (mkJumps T R) =
     let! reports := jump_reports_in (loops_in c) in Ok (mkJumps (charge T (charged (jumps_out c))) (R ++ reports))) ->
  forall T R, run S135_step (flat_map (events keys (n :: parents)) l) (mkJumps T R) =
    let! reports := jump_reports_in (flat_map loops_in l) in Ok (mkJumps (charge T (charged (flat_map jumps_out l))) (R ++ reports)).
Proof.
  induction l as [|c l IH]; intros N H T R; [by cbn; rewrite app_nil_r |].
  cbn [flat_map]. rewrite run_app, H by (try apply N; by left).
  rewrite jump_reports_in_app. destruct (jump_reports_in (loops_in c)) as [reports|]; cbn [rbind]; [| done].
  rewrite IH by (intros c' Hc; try apply H; try apply N; by right).
  destruct (jump_reports_in _) as [others|]; cbn [rbind]; [| done]. by rewrite charged_app, charge_app, app_assoc.
Qed.

Lemma enter_step n parents T R : type_of n <> "Program" ->
  S135_step (Enter n parents) (mkJumps T R) =
  Ok (mkJumps (if is_jump n then increateNumberOfJumpsInScopes n (label_of n) T
               else match target_label n with Some l => mkJumpTarget l [] :: T | None => T end) R).
Proof.
  intros Hp. cbn [S135_step]. unfold target_label. destruct (String.eqb_spec (type_of n) "Program"); [done |].
  destruct (is_jump n); [done |]. destruct ((_ || is_loop n))%bool; [done |]. by destruct (_ =s _).
Qed.

Lemma jump_type n : is_jump n = true -> type_of n = "BreakStatement" \/ type_of n = "ContinueStatement".
Proof. unfold is_jump. rewrite includes_spec, elem_of_cons, list_elem_of_singleton. done. Qed.

Lemma loop_stops n : is_loop n = true -> is_jump n = false /\ target_label n = Some None.
Proof.
  intros L. assert (is_jump n = false) as J.
  { apply not_true_is_false. intros [J|J]%jump_type; unfold is_loop in L; by rewrite J in L. }
  split; [done |]. unfold target_label. by rewrite L, orb_true_r.
Qed.

Lemma jumps_run_tree n : forall parents, nested n parents -> forall T R, run S135_step (events keys parents n) (mkJumps T R) =
  let! reports := jump_reports_in (loops_in n) in Ok (mkJumps (charge T (charged (jumps_out n))) (R ++ reports)).
Proof.
  induction n as [n IH] using (node_children_ind keys). intros parents N T R.
  destruct (N n parents) as [NP W]; [by rewrite events_eq; left |].
  rewrite run_events, enter_step by done. cbn [rbind].
  rewrite jumps_run_trees; [| intros c Hc; by eapply nested_child | intros c Hc Nc; by apply IH].
  rewrite loops_in_eq, jumps_out_eq, jump_reports_in_app.
  fold (jumps_of_loop n). destruct (jump_reports_in (flat_map _ _)) as [reports|]; cbn [rbind]; [| done].
  unfold jump_reports_in, open_jumps. destruct (is_loop n) eqn:L.
  - destruct (loop_stops n L) as [J S]. rewrite J, charged_goes_on, S, charge_cons by done. cbn [S135_step].
    rewrite L. cbn [leaveScopeAndCheckNumberOfJumps jumpTargets jumps label app map all_reports].
    destruct (report_jumps n _) as [own|]; cbn [rbind jump_reports]; [| done]. by rewrite app_nil_r, app_assoc.
  - cbn [map all_reports rbind]. rewrite app_nil_r. cbn [S135_step]. rewrite L. destruct (is_jump n) eqn:J.
    + apply jump_type in J as [-> | ->]; done.
    + rewrite charged_goes_on by done. unfold target_label. rewrite L, orb_false_r.
      destruct (type_of n =s "SwitchStatement"); [by rewrite charge_cons |].
      cbn [orb]. destruct (type_of n =s "LabeledStatement"); [by rewrite charge_cons | done].
Qed.

(** C37: S135 charges each loop with the jumps of its parts that get out of all the
    statements between (a jump with a label ends at the statement that has it, a [continue]
    without one at a loop, a [break] without one at a loop or a [switch]), except the
    [continue] without label that gets out of a [switch] on the way, which it charges to no
    loop. It reports exactly the loops charged with two jumps or more, the inner loops
    first, with these jumps in their order, and leaves no target behind. Labelled
    statements have a label, and the program is the root of its tree. *)
Theorem jumps_charged_to_loops program :
  type_of program = "Program" -> (forall c, c ∈ childrenOf program keys -> nested c [program]) ->
  S135 keys program = let! reports := jump_reports_in (loops_in program) in Ok (mkJumps [] reports).
Proof.
  intros P N. unfold S135. rewrite run_events. cbn [S135_step]. rewrite P. cbn [String.eqb Ascii.eqb Bool.eqb rbind jump_reports].
  rewrite jumps_run_trees by (try done; intros; by apply jumps_run_tree). rewrite loops_in_eq.
  assert (is_loop program = false) as L by (unfold is_loop; by rewrite P). rewrite L, app_nil_r, charge_nil.
  destruct (jump_reports_in _) as [reports|]; cbn [rbind]; [| done]. cbn [S135_step]. by rewrite ?L, ?P.
Qed.

End Spec.
End Jumps.

(** ** S128: cases that fall through *)

Section SwitchEnds.

(** Segments of code paths are known by their ids; the graph is the one ESLint makes. *)
Context (segments : list string) (prevSegments : string -> list string).

(** *** [isAfterProcessExitCall] *)

(** The loop on [stack], whose head is its end, and [visitedSegments]; [None] is running
    out of fuel. *)
Fixpoint exit_loop (segmentsWithExit : list string) (initialSegment : option string) (fuel : nat)
    (stack visitedSegments : list string) : option bool :=
  match stack with
  | [] => Some true
  | current :: stack' =>
      match fuel with
      | O => None
      | S fuel' =>
          let visitedSegments := set_add current visitedSegments in
          if negb (set_has current segmentsWithExit) then
            if bool_decide (Some current = initialSegment) then Some false
            else exit_loop segmentsWithExit initialSegment fuel'
                   (push_all (List.filter (fun p => negb (set_has p visitedSegments)) (prevSegments current)) stack') visitedSegments
          else exit_loop segmentsWithExit initialSegment fuel' stack' visitedSegments
      end
  end.

(** A turn for the segment, and one for each edge between segments. *)
Definition exit_fuel : nat := S (sum_list_with (fun s => length (prevSegments s)) segments).

Definition isAfterProcessExitCall (segmentsWithExit : list string) (segment : string) (initialSegment : option string) : bool :=
  default true (exit_loop segmentsWithExit initialSegment exit_fuel [segment] []).

(** A way back to a segment on which no segment ends the process. *)
Inductive falls_from (segmentsWithExit : list string) (initial : string) : string -> Prop :=
| falls_here : initial ∉ segmentsWithExit -> falls_from segmentsWithExit initial initial
| falls_back s p : s ∉ segmentsWithExit -> p ∈ prevSegments s -> falls_from segmentsWithExit initial p ->
    falls_from segmentsWithExit initial s.

Section Search.

Context (segmentsWithExit : list string) (initialSegment : option string).
Hypothesis closed : forall s p, s ∈ segments -> p ∈ prevSegments s -> p ∈ segments.

(** The segments before a visited one are visited, or above it on the stack. *)
Definition seen_above (stack visited : list string) : Prop :=
  forall i s, stack !! i = Some s -> s ∈ visited -> s ∉ segmentsWithExit ->
    forall p, p ∈ prevSegments s -> p ∈ visited \/ p ∈ take i stack.

Record search_inv (stack visited : list string) : Prop := mkSearch {
  si_stack : forall s, s ∈ stack -> s ∈ segments;
  si_visited : forall s, s ∈ visited -> s ∈ segments;
  si_above : seen_above stack visited;
  si_done : forall s, s ∈ visited -> s ∉ segmentsWithExit -> Some s <> initialSegment /\
    forall p, p ∈ prevSegments s -> p ∈ visited \/ p ∈ stack
}.

(** The edges of the segments that are not visited yet. *)
Definition edges_left (visited l : list string) : nat :=
  sum_list_with (fun s => length (prevSegments s)) (filter (fun s => s ∉ visited) l).

Lemma edges_left_mono s visited l : edges_left (set_add s visited) l <= edges_left visited l.
Proof.
  unfold edges_left. induction l as [|x l IH]; [done |]. rewrite !filter_cons.
  destruct (decide (x ∉ set_add s visited)) as [H|H].
  - rewrite decide_True by (rewrite elem_of_set_add in H; tauto). cbn. lia.
  - destruct (decide (x ∉ visited)); cbn; lia.
Qed.

Lemma edges_left_visit s visited l : s ∈ l -> s ∉ visited ->
  length (prevSegments s) + edges_left (set_add s visited) l <= edges_left visited l.
Proof.
  intros Hs Hv. induction l as [|x l IH]; [by apply not_elem_of_nil in Hs |]. unfold edges_left. rewrite !filter_cons.
  pose proof (edges_left_mono s visited l) as M. unfold edges_left in M, IH. apply elem_of_cons in Hs as [<-|Hs].
  - rewrite (decide_True (P := s ∉ visited)) by done. rewrite decide_False by (rewrite elem_of_set_add; tauto). cbn. lia.
  - specialize (IH Hs). destruct (decide (x ∉ set_add s visited)) as [H|H].
    + rewrite decide_True by (rewrite elem_of_set_add in H; tauto). cbn. lia.
    + destruct (decide (x ∉ visited)); cbn; lia.
Qed.

Lemma edges_left_total visited l : edges_left visited l <= sum_list_with (fun s => length (prevSegments s)) l.
Proof.
  unfold edges_left. induction l as [|x l IH]; [done |]. rewrite filter_cons. destruct (decide (x ∉ visited)); cbn; lia.
Qed.

(** The segments that a turn pushes, the last one on top. *)
Definition pushed (current : string) (visited : list string) : list string :=
  rev (List.filter (fun p => negb (set_has p visited)) (prevSegments current)).

Lemma elem_of_pushed p current visited : p ∈ pushed current visited <-> p ∈ prevSegments current /\ p ∉ visited.
Proof.
  unfold pushed, set_has. rewrite elem_of_rev, list_elem_of_In, filter_In, <- list_elem_of_In.
  rewrite negb_true_iff, bool_decide_eq_false. done.
Qed.

(** A visited segment on the top of the stack has nothing left to push. *)
Lemma revisited_pushes_nothing current stack visited :
  seen_above (current :: stack) visited -> current ∈ visited -> current ∉ segmentsWithExit -> pushed current (set_add current visited) = [].
Proof.
  intros A Hv He. destruct (pushed current (set_add current visited)) as [|p l] eqn:E; [done |]. exfalso.
  assert (p ∈ pushed current (set_add current visited)) as [Hp Hn]%elem_of_pushed by (rewrite E; by left).
  destruct (A 0 current eq_refl Hv He p Hp) as [H|H]; [| by apply not_elem_of_nil in H].
  apply Hn, elem_of_set_add. by right.
Qed.

(** The invariant after a turn that pushes [new], the segments before [current] that are
    not visited, or none when it ends the process. *)
Lemma search_turn current stack visited new :
  search_inv (current :: stack) visited ->
  (forall p, p ∈ new -> p ∈ prevSegments current /\ p ∉ set_add current visited) ->
  (current ∉ segmentsWithExit -> Some current <> initialSegment /\ forall p, p ∈ prevSegments current -> p ∈ set_add current visited \/ p ∈ new) ->
  search_inv (new ++ stack) (set_add current visited).
Proof.
  intros [St Vi Ab Do] Hnew Hcur. assert (current ∈ segments) as Hc by (apply St; by left). split.
  - intros s [Hs|Hs]%elem_of_app; [apply Hnew in Hs as [Hs _]; by eapply closed | apply St; by right].
  - intros s [->|Hs]%elem_of_set_add; [done | by apply Vi].
  - intros i s Hi Hs He p Hp. apply lookup_app_Some in Hi as [Hi|[Hge Hi]].
    { exfalso. apply list_elem_of_lookup_2 in Hi. by apply Hnew in Hi as [_ ?]. }
    rewrite take_app, (take_ge new) by done. apply elem_of_set_add in Hs as [->|Hs].
    + destruct (Hcur He) as [_ H]. destruct (H p Hp); [by left | right; apply elem_of_app; by left].
    + destruct (Ab (S (i - length new)) s Hi Hs He p Hp) as [H|H]; [left; apply elem_of_set_add; by right |].
      cbn [take] in H. apply elem_of_cons in H as [->|H]; [left; apply elem_of_set_add; by left | right; apply elem_of_app; by right].
  - intros s [->|Hs]%elem_of_set_add He.
    + destruct (Hcur He) as [Hi H]. split; [done |]. intros p Hp. destruct (H p Hp); [by left | right; apply elem_of_app; by left].
    + destruct (Do s Hs He) as [Hi H]. split; [done |]. intros p Hp. rewrite elem_of_set_add, elem_of_app.
      destruct (H p Hp) as [?|[->|?]%elem_of_cons]; tauto.
Qed.

Lemma turn_spec fuel current stack visited : exit_loop segmentsWithExit initialSegment (S fuel) (current :: stack) visited =
  if decide (current ∈ segmentsWithExit) then exit_loop segmentsWithExit initialSegment fuel stack (set_add current visited)
  else if decide (Some current = initialSegment) then Some false
  else exit_loop segmentsWithExit initialSegment fuel (pushed current (set_add current visited) ++ stack) (set_add current visited).
Proof.
  unfold pushed. rewrite <- push_all_app. cbn [exit_loop].
  change (set_has current segmentsWithExit) with (bool_decide (current ∈ segmentsWithExit)).
  destruct (decide (current ∈ segmentsWithExit)); [by rewrite bool_decide_true |]. rewrite bool_decide_false by done. cbn [negb].
  destruct (decide (Some current = initialSegment)); [by rewrite bool_decide_true | by rewrite bool_decide_false].
Qed.

(** The loop ends: with [true] it leaves a set of segments that no way back to the initial
    one goes out of. *)
Lemma exit_loop_spec fuel : forall stack visited,
  search_inv stack visited -> length stack + edges_left visited segments <= fuel ->
  (exit_loop segmentsWithExit initialSegment fuel stack visited = Some false /\
   exists i s, initialSegment = Some i /\ s ∈ stack /\ falls_from segmentsWithExit i s) \/
  (exit_loop segmentsWithExit initialSegment fuel stack visited = Some true /\
   exists final, search_inv [] final /\ (forall s, s ∈ visited -> s ∈ final) /\ forall s, s ∈ stack -> s ∈ final).
Proof.
  induction fuel as [|fuel IH]; intros [|current stack] visited I W; cbn [length] in W;
    try (right; split; [done |]; exists visited; split; [exact I | split; [done | by intros s ?%not_elem_of_nil]]); [lia |].
  rewrite turn_spec. assert (current ∈ segments) as Hc by (apply (si_stack _ _ I); by left).
  pose proof (edges_left_mono current visited segments) as M.
  destruct (decide (current ∈ segmentsWithExit)) as [He|He].
  - destruct (IH stack (set_add current visited)) as [(-> & i & s & ? & ? & ?)|(-> & final & If & Vf & Sf)]; [| lia | |].
    + apply (search_turn current stack visited [] I); [by intros p ?%not_elem_of_nil | done].
    + left. split; [done |]. exists i, s. repeat split; [done | by right | done].
    + right. split; [done |]. exists final. split; [done |]. split.
      * intros s Hs. apply Vf, elem_of_set_add. by right.
      * intros s [->|Hs]%elem_of_cons; [apply Vf, elem_of_set_add; by left | by apply Sf].
  - destruct (decide (Some current = initialSegment)) as [Hi|Hi].
    { left. split; [done |]. exists current, current. split; [done |]. split; [by left | by apply falls_here]. }
    destruct (IH (pushed current (set_add current visited) ++ stack) (set_add current visited))
      as [(-> & i & s & ? & Hs & ?)|(-> & final & If & Vf & Sf)].
    + apply (search_turn current stack visited _ I); [by intros p ?%elem_of_pushed |]. intros _. split; [done |].
      intros p Hp. rewrite elem_of_pushed. destruct (decide (p ∈ set_add current visited)); tauto.
    + rewrite length_app. destruct (decide (current ∈ visited)) as [Hv|Hv].
      * rewrite (revisited_pushes_nothing current stack visited); [| apply I | done..]. cbn. lia.
      * pose proof (edges_left_visit current visited segments Hc Hv).
        assert (length (pushed current (set_add current visited)) <= length (prevSegments current))
          by (unfold pushed; rewrite length_rev; apply filter_length_le). lia.
    + left. split; [done |]. apply elem_of_app in Hs as [[Hs _]%elem_of_pushed|Hs].
      * exists i, current. split; [done |]. split; [by left | by eapply falls_back].
      * exists i, s. repeat split; [done | by right | done].
    + right. split; [done |]. exists final. split; [done |]. split.
      * intros s Hs. apply Vf, elem_of_set_add. by right.
      * intros s [->|Hs]%elem_of_cons; [apply Vf, elem_of_set_add; by left |]. apply Sf, elem_of_app. by right.
Qed.

(** C38: On a finite graph of segments the search of [isAfterProcessExitCall] ends within
    its fuel. It answers that the segment comes after a call that ends the process exactly
    when no way back from it reaches the first segment of the case without meeting such a
    call. *)
Theorem isAfterProcessExitCall_spec segment : segment ∈ segments ->
  exit_loop segmentsWithExit initialSegment exit_fuel [segment] []
    = Some (isAfterProcessExitCall segmentsWithExit segment initialSegment) /\
  (isAfterProcessExitCall segmentsWithExit segment initialSegment = false <->
   exists i, initialSegment = Some i /\ falls_from segmentsWithExit i segment).
Proof.
  intros Hseg. assert (search_inv [segment] []) as I.
  { split; [by intros s ->%list_elem_of_singleton | by intros s ?%not_elem_of_nil | intros i s _ Hv; by apply not_elem_of_nil in Hv
    | by intros s ?%not_elem_of_nil]. }
  unfold isAfterProcessExitCall. destruct (exit_loop_spec exit_fuel [segment] [] I) as [(-> & i & s & -> & ->%list_elem_of_singleton & F)|(-> & final & If & _ & Sf)].
  - unfold exit_fuel. cbn [length]. pose proof (edges_left_total [] segments). lia.
  - split; [done |]. split; [by exists i | done].
  - split; [done |]. cbn [default]. split; [done |]. intros (i & -> & F). exfalso. assert (segment ∈ final) as Hf by (apply Sf; by left).
    clear Sf I Hseg. induction F as [Hi|s p He Hp F IHF].
    + by destruct (si_done _ _ If i Hf Hi).
    + destruct (si_done _ _ If s Hf He) as [_ Hpre]. apply IHF. by destruct (Hpre p Hp) as [|?%not_elem_of_nil].
Qed.

End Search.
(** *** The rule *)

(** What ESLint calls the rule with; the exit of a case comes with its parent. *)
Inductive switch_event :=
| CodePathStart
| CodePathEnd
| SegmentStart (segment : string)
| SegmentEnd (segment : string)
| UnreachableSegmentStart (segment : string)
| UnreachableSegmentEnd (segment : string)
| Call (n : node)
| SwitchCase (n : node)
| SwitchCase_exit (n : node) (parent : node).

Context (reachable : string -> bool) (getFirstToken : node -> option Token) (getCommentsAfter : node -> list Comment).

Record switch_state := mkSwitch {
  currentCodeSegment : option string;
  enteringSwitchCase : bool;
  currentSegments : list string;
  allCurrentSegments : list (list string);
  segmentsWithExit : list string;
  initialSegmentBySwitchCase : list (nat * string);
  switchCaseStack : list node;
  switch_reports : list ReportDescriptor
}.

Definition initial_switch : switch_state := mkSwitch None false [] [] [] [] [] [].

Definition set_current (current : list string) (st : switch_state) : switch_state :=
  mkSwitch (currentCodeSegment st) (enteringSwitchCase st) current (allCurrentSegments st) (segmentsWithExit st)
    (initialSegmentBySwitchCase st) (switchCaseStack st) (switch_reports st).

Definition noComment (n : node) : bool := Nat.eqb (length (getCommentsAfter n)) 0.

Definition isProcessExitCall (callExpr : node) : bool :=
  match get_node callExpr "callee" with
  | Some callee =>
      (type_of callee =s "MemberExpression")
      && identifier_named (get_node callee "object") "process" && identifier_named (get_node callee "property") "exit"
  | None => false
  end.

(** The body of [onCodePathSegmentStart]; a case is known by its identity. *)
Definition start_segment (segment : string) (st : switch_state) : switch_state :=
  let '(firsts, cases) :=
    if enteringSwitchCase st then
      (match switchCaseStack st with
       | c :: _ => map_set (h_id (hdr c)) segment (initialSegmentBySwitchCase st)
       | [] => initialSegmentBySwitchCase st
       end, tail (switchCaseStack st))
    else (initialSegmentBySwitchCase st, switchCaseStack st) in
  mkSwitch (Some segment) false (set_add segment (currentSegments st)) (allCurrentSegments st) (segmentsWithExit st)
    firsts cases (switch_reports st).

(** Whether a case that is left can go on to the next one. *)
Definition falls_through (st : switch_state) (switchCase : node) : bool :=
  let initialSegment := map_get (h_id (hdr switchCase)) (initialSegmentBySwitchCase st) in
  existsb (fun s => reachable s && negb (isAfterProcessExitCall (segmentsWithExit st) s initialSegment)) (currentSegments st).

Definition is_last_case (switchCase parent : node) : bool :=
  match last (get_nodes parent "cases") with Some c => same_node c switchCase | None => false end.

Definition S128_step (st : switch_state) (e : switch_event) : eval switch_state :=
  match e with
  | CodePathStart =>
      Ok (mkSwitch (currentCodeSegment st) (enteringSwitchCase st) [] (currentSegments st :: allCurrentSegments st)
            (segmentsWithExit st) (initialSegmentBySwitchCase st) (switchCaseStack st) (switch_reports st))
  | CodePathEnd =>
      Ok (mkSwitch (currentCodeSegment st) (enteringSwitchCase st) (default [] (head (allCurrentSegments st)))
            (tail (allCurrentSegments st)) (segmentsWithExit st) (initialSegmentBySwitchCase st) (switchCaseStack st) (switch_reports st))
  | SegmentStart segment => Ok (start_segment segment st)
  | UnreachableSegmentStart segment => Ok (set_current (set_add segment (currentSegments st)) st)
  | SegmentEnd segment | UnreachableSegmentEnd segment => Ok (set_current (set_delete segment (currentSegments st)) st)
  | Call callExpr =>
      if isProcessExitCall callExpr then
        let! current := of_option TypeError (currentCodeSegment st) in
        Ok (mkSwitch (currentCodeSegment st) (enteringSwitchCase st) (currentSegments st) (allCurrentSegments st)
              (set_add current (segmentsWithExit st)) (initialSegmentBySwitchCase st) (switchCaseStack st) (switch_reports st))
      else Ok st
  | SwitchCase n =>
      Ok (mkSwitch (currentCodeSegment st) true (currentSegments st) (allCurrentSegments st) (segmentsWithExit st)
            (initialSegmentBySwitchCase st) (n :: switchCaseStack st) (switch_reports st))
  | SwitchCase_exit switchCase parent =>
      if falls_through st switchCase && negb (Nat.eqb (length (get_array switchCase "consequent")) 0)
         && negb (is_last_case switchCase parent) && noComment switchCase
      then
        let! token := of_option TypeError (getFirstToken switchCase) in
        Ok (mkSwitch (currentCodeSegment st) (enteringSwitchCase st) (currentSegments st) (allCurrentSegments st)
              (segmentsWithExit st) (initialSegmentBySwitchCase st) (switchCaseStack st)
              (switch_reports st ++ [mkDescriptor "switchEnd" [] (AtToken token) []]))
      else Ok st
  end.

Definition S128 (events : list switch_event) : eval switch_state := rfold S128_step events initial_switch.

End SwitchEnds.

(** ** S1751: loops that do not loop *)

Section OneIteration.

Variable getFirstToken : node -> option Token.

(** The events of the rule. A child of a [while] or [for] statement comes with that loop;
    the loop of a segment with the segment it goes to and its node. *)
Inductive loop_event :=
| LoopEnter (n : node)
| LoopPathStart
| LoopSegmentStart (segment : string)
| LoopSegmentEnd
| LoopPathEnd
| LoopChild (parent : node)
| SegmentLoop (toSegment : string) (n : node)
| LoopProgramExit.

Record looping_state := mkLooping {
  loopingNodes : list node;
  loops : list node;
  loopsAndTheirSegments : list (node * list string);
  codePathSegments : list (list string);
  currentCodePathSegments : list string;
  looping_reports : list ReportDescriptor
}.

Definition initial_looping : looping_state := mkLooping [] [] [] [] [] [].

Definition has_node (n : node) (l : list node) : bool := existsb (same_node n) l.

(** Adding a node to a set of nodes. *)
Definition add_node (l : list node) (n : node) : list node := if has_node n l then l else l ++ [n].

Definition visitLoopChild (parent : node) (st : looping_state) : looping_state :=
  if 0 <? length (currentCodePathSegments st) then
    mkLooping (loopingNodes st) (loops st) (loopsAndTheirSegments st ++ [(parent, currentCodePathSegments st)])
      (codePathSegments st) (currentCodePathSegments st) (looping_reports st)
  else st.

(** What [onCodePathSegmentLoop] adds to the loops. *)
Definition looped_by (st : looping_state) (toSegment : string) (n : node) : list node :=
  if type_of n =s "ContinueStatement"
  then map fst (List.filter (fun ls => includes toSegment ls.2) (loopsAndTheirSegments st))
  else [n].

Fixpoint report_loops (l : list node) : eval (list ReportDescriptor) :=
  match l with
  | [] => Ok []
  | loop :: rest =>
      let! token := of_option TypeError (getFirstToken loop) in
      let! others := report_loops rest in
      Ok (mkDescriptor "refactorLoop" [] (AtToken token) [] :: others)
  end.

Definition S1751_step (st : looping_state) (e : loop_event) : eval looping_state :=
  let '(mkLooping looping ls pairs paths current reports) := st in
  match e with
  | LoopEnter n =>
      Ok (if includes (type_of n) ["ForStatement"; "WhileStatement"; "DoWhileStatement"]
          then mkLooping looping (add_node ls n) pairs paths current reports else st)
  | LoopPathStart => Ok (mkLooping looping ls pairs (paths ++ [current]) [] reports)
  | LoopSegmentStart segment => Ok (mkLooping looping ls pairs paths (current ++ [segment]) reports)
  | LoopSegmentEnd => Ok (mkLooping looping ls pairs paths (removelast current) reports)
  | LoopPathEnd => Ok (mkLooping looping ls pairs (removelast paths) (default [] (last paths)) reports)
  | LoopChild parent => Ok (visitLoopChild parent st)
  | SegmentLoop toSegment n => Ok (mkLooping (fold_left add_node (looped_by st toSegment n) looping) ls pairs paths current reports)
  | LoopProgramExit =>
      let! new := report_loops (List.filter (fun loop => negb (has_node loop looping)) ls) in
      Ok (mkLooping looping ls pairs paths current (reports ++ new))
  end.

Definition S1751 (events : list loop_event) : eval looping_state := rfold S1751_step events initial_looping.

End OneIteration.

(** ** The place of statements *)

(** A fix that a rule suggests: its message and its edits. *)
Record Suggested := mkSuggested { su_message : string; su_edits : list ((Z * Z) * string) }.

Definition plain_at (message : string) (loc : SourceLocation) (secondary : list (place * option string)) : ReportDescriptor :=
  mkDescriptor message [] (AtLocation loc) secondary.

Definition location (n : node) : eval SourceLocation := of_option TypeError (h_loc (hdr n)).
Definition range_of (n : node) : eval (Z * Z) := of_option TypeError (h_range (hdr n)).

(** Checks one after the other. *)
Fixpoint on_each {A B} (check : A -> eval (list B)) (l : list A) : eval (list B) :=
  match l with
  | [] => Ok []
  | x :: rest => let! a := check x in let! b := on_each check rest in Ok (a ++ b)
  end.

(** [' '.repeat(count)] *)
Definition spaces (count : Z) : string := String.concat "" (replicate (Z.to_nat count) " ").

Definition newline : string := bytes [10].

(** *** S2681: statements that seem to be in a block *)

Definition NestingStatementLike : list string :=
  ["IfStatement"; "ForStatement"; "ForInStatement"; "ForOfStatement"; "WhileStatement"].

Definition isNestingStatement (n : node) : bool := includes (type_of n) NestingStatementLike.

(** [ChainedStatements], with its positions. *)
Record ChainedStatements := mkChained {
  topStatement : node;
  prev : node;
  next : node;
  topPosition : SourceLocation;
  prevPosition : SourceLocation;
  nextPosition : SourceLocation
}.

Definition extractLastBody (statement : node) : eval node :=
  if type_of statement =s "IfStatement" then
    match get_node statement "alternate" with
    | Some alternate => Ok alternate
    | None => node_at statement "consequent"
    end
  else node_at statement "body".

Definition new_chained (top next : node) : eval ChainedStatements :=
  let! prev := extractLastBody top in
  let! t := location top in
  let! p := location prev in
  let! n := location next in
  Ok (mkChained top prev next t p n).

(** The pairs of a nesting statement and the one after it. *)
Fixpoint nesting_pairs (statements : list node) : list (node * node) :=
  match statements with
  | a :: ((b :: _) as rest) => (if isNestingStatement a then [(a, b)] else []) ++ nesting_pairs rest
  | _ => []
  end.

Definition chain (statements : list node) : eval (list ChainedStatements) :=
  on_each (fun pair => let! c := new_chained pair.1 pair.2 in Ok [c]) (nesting_pairs statements).

Definition areUnenclosed (c : ChainedStatements) : bool := negb (type_of (prev c) =s "BlockStatement").

Definition areAdjacent (c : ChainedStatements) : bool := (line (endp (prevPosition c)) =? line (start (nextPosition c)))%Z.

Definition prevIsIndented (c : ChainedStatements) : bool :=
  (column (start (topPosition c)) <? column (start (prevPosition c)))%Z.

Definition areBothIndented (c : ChainedStatements) : bool :=
  (column (start (prevPosition c)) =? column (start (nextPosition c)))%Z && prevIsIndented c.

Definition areInlinedAndIndented (c : ChainedStatements) : bool :=
  (line (start (prevPosition c)) =? line (endp (topPosition c)))%Z
  && (column (start (topPosition c)) <? column (start (nextPosition c)))%Z.

Definition includedStatementQualifier (c : ChainedStatements) : string :=
  if type_of (topStatement c) =s "IfStatement" then "conditionally" else "in a loop".

Definition excludedStatementsQualifier (c : ChainedStatements) : string :=
  if type_of (topStatement c) =s "IfStatement" then "unconditionally" else "only once".

(** The loop of [countStatementsInTheSamePile], with [lastLineOfPile]. *)
Fixpoint pile_loop (startOfPile : Position) (statements : list node) (lastLineOfPile : Z) : eval Z :=
  match statements with
  | [] => Ok lastLineOfPile
  | statement :: rest =>
      let! current := location statement in
      if (line startOfPile <? line (endp current))%Z then
        if (column (start current) =? column startOfPile)%Z then pile_loop startOfPile rest (line (endp current))
        else Ok lastLineOfPile
      else pile_loop startOfPile rest lastLineOfPile
  end.

Definition countStatementsInTheSamePile (reference : node) (statements : list node) : eval Z :=
  let! loc := location reference in
  let! lastLineOfPile := pile_loop (start loc) statements (line (start loc)) in
  Ok (lastLineOfPile - line (start loc) + 1)%Z.

Definition raise_S2681 (what first : string) (c : ChainedStatements) : ReportDescriptor :=
  report ("This " +:+ what +:+ " will not be executed " +:+ includedStatementQualifier c +:+ "; only the first " +:+ first
          +:+ " will be. The rest will execute " +:+ excludedStatementsQualifier c +:+ ".")%string (next c).

Definition raiseAdjacenceIssue : ChainedStatements -> ReportDescriptor := raise_S2681 "statement" "statement".
Definition raiseBlockIssue (c : ChainedStatements) (sizeOfPile : Z) : ReportDescriptor :=
  raise_S2681 "line" ("line of this " +:+ print_int sizeOfPile +:+ "-line block")%string c.
Definition raiseInlineAndIndentedIssue : ChainedStatements -> ReportDescriptor := raise_S2681 "line" "statement".

Definition check_chained (statements : list node) (c : ChainedStatements) : eval (list ReportDescriptor) :=
  if negb (areUnenclosed c) then Ok []
  else if areAdjacent c then Ok [raiseAdjacenceIssue c]
  else if areBothIndented c then
    let! size := countStatementsInTheSamePile (prev c) statements in Ok [raiseBlockIssue c size]
  else Ok (if areInlinedAndIndented c then [raiseInlineAndIndentedIssue c] else []).

Definition S2681_checkStatements (statements : list node) : eval (list ReportDescriptor) :=
  let! l := chain statements in on_each (check_chained statements) l.

Definition S2681 (n : node) : eval (list ReportDescriptor) :=
  if includes (type_of n) ["Program"; "BlockStatement"; "TSModuleBlock"] then S2681_checkStatements (get_nodes n "body") else Ok [].

Section Places.

(** [sourceCode.getFirstToken(node)], [getLastToken(node)] and [getText(node)]. *)
Context (getFirstToken getLastToken : node -> option Token) (getText : node -> string).
(** [getTokenBefore(node, filter)] and [getTokenBefore(token)]. *)
Context (getTokenBefore : node -> (Token -> bool) -> option Token) (tokenBefore : Token -> option Token).

(** *** S3972: two [if] on a line *)

(** The pairs are put before those found so far: the last ones come first. *)
Fixpoint getSiblingIfStatements (statements : list node) : list (node * node) :=
  match statements with
  | a :: ((b :: _) as rest) =>
      getSiblingIfStatements rest
      ++ if (type_of b =s "IfStatement") && (type_of a =s "IfStatement") then [(a, b)] else []
  | _ => []
  end.

Definition check_siblings (siblings : node * node) : eval (list (ReportDescriptor * list Suggested)) :=
  let '(precedingIf, followingIf) := siblings in
  match h_loc (hdr precedingIf), h_loc (hdr followingIf) with
  | Some preceding, Some following =>
      if (line (endp preceding) =? line (start following))%Z && negb (line (start preceding) =? line (endp following))%Z then
        let! precedingIfLastToken := of_option TypeError (getLastToken precedingIf) in
        let! followingIfToken := of_option TypeError (getFirstToken followingIf) in
        let! precedingRange := range_of precedingIf in
        let! followingRange := range_of followingIf in
        Ok [(mkDescriptor "sameLineCondition" [] (AtLocation (t_loc followingIfToken)) [(AtToken precedingIfLastToken, None)],
             [mkSuggested "suggestAddingElse" [(((t_range followingIfToken).1, (t_range followingIfToken).1), "else ")];
              mkSuggested "suggestAddingNewline"
                [((precedingRange.2, followingRange.1), (newline +:+ spaces (column (start preceding)))%string)]])]
      else Ok []
  | _, _ => Ok []
  end.

Definition S3972 (n : node) : eval (list (ReportDescriptor * list Suggested)) :=
  let checkStatements statements := on_each check_siblings (getSiblingIfStatements statements) in
  if includes (type_of n) ["Program"; "BlockStatement"] then checkStatements (get_nodes n "body")
  else if type_of n =s "SwitchCase" then checkStatements (get_nodes n "consequent")
  else Ok [].

(** *** S3973: what a condition controls *)

Definition checkIndentation (firstToken : option Token) (statement : node) (tokenToReport : option Token) : list ReportDescriptor :=
  match firstToken, tokenToReport, getFirstToken statement with
  | Some first, Some reported, Some firstStatementToken =>
      if negb (type_of statement =s "BlockStatement")
         && (column (start (t_loc firstStatementToken)) <=? column (start (t_loc first)))%Z
      then [plain_at ("Use curly braces or indentation to denote the code conditionally executed by this "
                      +:+ quoted (t_value reported) +:+ ".")%string (t_loc reported) [(AtToken firstStatementToken, None)]]
      else []
  | _, _, _ => []
  end.

Definition getPrecedingBrace (elseToken : option Token) : option Token :=
  elseToken ← elseToken;
  tokenBeforeElse ← tokenBefore elseToken;
  if (t_value tokenBeforeElse =s "}") && (line (start (t_loc tokenBeforeElse)) =? line (start (t_loc elseToken)))%Z
  then Some tokenBeforeElse else None.

Definition is_keyword (value : string) (token : Token) : bool := (t_type token =s "Keyword") && (t_value token =s value).

Definition S3973_IfStatement (n : node) (parent : option node) : eval (list ReportDescriptor) :=
  let! consequent := node_at n "consequent" in
  let own := match parent with
             | Some p => if negb (type_of p =s "IfStatement")
                         then checkIndentation (getFirstToken n) consequent (getFirstToken n) else []
             | None => []
             end in
  match get_node n "alternate" with
  | None => Ok own
  | Some alternate =>
      let elseToken := getTokenBefore alternate (is_keyword "else") in
      if type_of alternate =s "IfStatement" then
        let! consequent := node_at alternate "consequent" in Ok (own ++ checkIndentation elseToken consequent elseToken)
      else
        let first := match getPrecedingBrace elseToken with Some t => Some t | None => elseToken end in
        Ok (own ++ checkIndentation first alternate elseToken)
  end.

Definition S3973 (n : node) (parent : option node) : eval (list ReportDescriptor) :=
  if type_of n =s "IfStatement" then S3973_IfStatement n parent
  else if includes (type_of n) ["WhileStatement"; "ForStatement"; "ForInStatement"; "ForOfStatement"] then
    let! body := node_at n "body" in Ok (checkIndentation (getFirstToken n) body (getFirstToken n))
  else Ok [].

(** *** S131: switches without a default *)

(** [isUnion(discriminant, services)] when there is type information, and
    [getFirstToken] and [getTokenAfter] with a filter. *)
Context (isUnion : node -> bool) (getFirstTokenWith getTokenAfter : node -> (Token -> bool) -> option Token).

Definition getSwitchKeyword (n : node) : eval Token := of_option TypeError (getFirstTokenWith n (is_keyword "switch")).

Definition is_punctuator (value : string) (token : Token) : bool := (t_type token =s "Punctuator") && (t_value token =s value).

Definition default_clause : string := "default: { throw new Error('Not implemented yet'); }".

Definition fixSwitch (n : node) : eval Suggested :=
  match last (get_nodes n "cases") with
  | Some lastCase =>
      let! loc := location lastCase in
      let! range := range_of lastCase in
      Ok (mkSuggested "addDefault"
            [((range.2, range.2), (newline +:+ spaces (column (start loc)) +:+ default_clause)%string)])
  | None =>
      let! loc := location n in
      let! discriminant := node_at n "discriminant" in
      let! openingBrace := of_option TypeError (getTokenAfter discriminant (is_punctuator "{")) in
      let! closingBrace := of_option TypeError (getTokenAfter discriminant (is_punctuator "}")) in
      let caseIndent := spaces (column (start loc)) in
      Ok (mkSuggested "addDefault"
            [(((t_range openingBrace).1, (t_range closingBrace).2),
              ("{" +:+ newline +:+ caseIndent +:+ default_clause +:+ newline +:+ caseIndent +:+ "}")%string)])
  end.

Definition is_default_clause (c : node) : bool := match get c "test" with VNull => true | _ => false end.

Definition switchWithoutDefault (n : node) : eval (list (ReportDescriptor * Suggested)) :=
  let! discriminant := node_at n "discriminant" in
  if isUnion discriminant || existsb is_default_clause (get_nodes n "cases") then Ok []
  else
    let! switchKeyword := getSwitchKeyword n in
    let! fix_ := fixSwitch n in
    Ok [(plain_at "switchDefault" (t_loc switchKeyword) [], fix_)].

(** *** S1126: returns of boolean literals *)

Definition isSimpleReturnBooleanLiteral (statement : option node) : bool :=
  match statement with
  | Some s =>
      (type_of s =s "ReturnStatement")
      && match get_node s "argument" with
         | Some argument => (type_of argument =s "Literal") && match get argument "value" with VBool _ => true | _ => false end
         | None => false
         end
  | None => false
  end.

Definition isBlockReturningBooleanLiteral (statement : node) : bool :=
  (type_of statement =s "BlockStatement") && Nat.eqb (length (get_nodes statement "body")) 1
  && isSimpleReturnBooleanLiteral (head (get_nodes statement "body")).

Definition returnsBoolean (statement : option node) : bool :=
  match statement with
  | Some s => isBlockReturningBooleanLiteral s || isSimpleReturnBooleanLiteral (Some s)
  | None => false
  end.

(** The statement after another one, found by [findIndex]; the first one when it is not there. *)
Fixpoint statement_after (body : list node) (statement : node) : option node :=
  match body with
  | [] => None
  | s :: rest => if same_node s statement then head rest else statement_after rest statement
  end.

Definition next_statement (parent statement : node) : option node :=
  let body := get_nodes parent "body" in
  if existsb (fun s => same_node s statement) body then statement_after body statement else head body.

Definition alternateReturnsBoolean (n parent : node) : bool :=
  match get_node n "alternate" with
  | Some alternate => returnsBoolean (Some alternate)
  | None => (type_of parent =s "BlockStatement") && isSimpleReturnBooleanLiteral (next_statement parent n)
  end.

(** The literal that a statement returns. *)
Definition returned_literal (stmt : node) : option bool :=
  returnStmt ← (if type_of stmt =s "BlockStatement" then head (get_nodes stmt "body") else Some stmt);
  argument ← get_node returnStmt "argument";
  match get argument "value" with VBool b => Some b | _ => None end.

Definition isReturningFalse (stmt : node) : bool :=
  match returned_literal stmt with Some b => negb b | None => false end.

Definition isBooleanExpression (expr : node) : bool :=
  includes (type_of expr) ["UnaryExpression"; "BinaryExpression"]
  && match get_str expr "operator" with
     | Some op => includes op ["!"; "=="; "==="; "!="; "!=="; "<"; "<="; ">"; ">="; "in"; "instanceof"]
     | None => false
     end.

(** What is returned instead: the test negated, cast, or as it is. *)
Inductive single_return := Negated | Cast | Uncast.

Definition condition_text (r : single_return) (testText : string) : string :=
  match r with
  | Negated => ("!(" +:+ testText +:+ ")")%string
  | Cast => ("!!(" +:+ testText +:+ ")")%string
  | Uncast => testText
  end.

Definition return_suggestions (ifStmt test : node) (consequent : node) : list (string * single_return) :=
  if isReturningFalse consequent then [("suggest", Negated)]
  else if isBooleanExpression test then [("suggest", Uncast)]
  else [("suggestCast", Cast); ("suggestBoolean", Uncast)].

Definition replaced_range (ifStmt parent : node) : eval (Z * Z) :=
  let! range := range_of ifStmt in
  match get_node ifStmt "alternate" with
  | Some _ => Ok range
  | None =>
      let! returnStmt := of_option TypeError (next_statement parent ifStmt) in
      let! r := range_of returnStmt in
      Ok (range.1, r.2)
  end.

Definition getSuggestion (ifStmt parent : node) : eval (list Suggested) :=
  let! test := node_at ifStmt "test" in
  let! consequent := node_at ifStmt "consequent" in
  let! range := replaced_range ifStmt parent in
  Ok (map (fun s => mkSuggested s.1 [(range, ("return " +:+ condition_text s.2 (getText test) +:+ ";")%string)])
        (return_suggestions ifStmt test consequent)).

Definition S1126 (n parent : node) : eval (list (ReportDescriptor * list Suggested)) :=
  if negb (type_of parent =s "IfStatement") && returnsBoolean (get_node n "consequent") && alternateReturnsBoolean n parent then
    let! suggest := getSuggestion n parent in Ok [(report "replaceIfThenElseByReturn" n, suggest)]
  else Ok [].

(** *** S1121: assignments in expressions *)

Context (getFirstTokenBetween : node -> node -> (Token -> bool) -> option Token).

Definition child_is (parent : node) (key : string) (expr : node) : bool :=
  match get_node parent key with Some c => same_node c expr | None => false end.

Definition operator_among (n : node) (operators : list string) : bool :=
  match get_str n "operator" with Some op => includes op operators | None => false end.

Definition isAssignmentStatement (parent : node) : bool := type_of parent =s "ExpressionStatement".
Definition isEnclosingChain (parent : node) : bool := type_of parent =s "AssignmentExpression".
Definition isEnclosingRelation (parent : node) : bool :=
  (type_of parent =s "BinaryExpression") && operator_among parent ["=="; "!="; "==="; "!=="; "<"; "<="; ">"; ">="].
Definition isEnclosingSequence (parent : node) : bool := type_of parent =s "SequenceExpression".
Definition isEnclosingDeclarator (parent : node) : bool := type_of parent =s "VariableDeclarator".
Definition isLambdaBody (parent expr : node) : bool :=
  (type_of parent =s "ArrowFunctionExpression") && child_is parent "body" expr.
Definition isConditionalAssignment (parent expr : node) : bool :=
  (type_of parent =s "LogicalExpression") && child_is parent "right" expr.
Definition isWhileCondition (parent expr : node) : bool :=
  includes (type_of parent) ["DoWhileStatement"; "WhileStatement"] && child_is parent "test" expr.
Definition isForInitOrUpdate (parent expr : node) : bool :=
  (type_of parent =s "ForStatement") && (child_is parent "init" expr || child_is parent "update" expr).

Definition raiseIssue (n : node) : eval (list ReportDescriptor) :=
  let! lhs := node_at n "left" in
  let! rhs := node_at n "right" in
  let! operator := of_option TypeError (getFirstTokenBetween lhs rhs (fun token => str_prop_is n "operator" (t_value token))) in
  Ok [mkDescriptor "extractAssignment" [("symbol", getText lhs)] (AtLocation (t_loc operator)) []].

Definition S1121 (assignment : node) (parent : option node) : eval (list ReportDescriptor) :=
  match parent with
  | Some parent =>
      if negb (isAssignmentStatement parent) && negb (isEnclosingChain parent) && negb (isEnclosingRelation parent)
         && negb (isEnclosingSequence parent) && negb (isEnclosingDeclarator parent) && negb (isLambdaBody parent assignment)
         && negb (isConditionalAssignment parent assignment) && negb (isWhileCondition parent assignment)
         && negb (isForInitOrUpdate parent assignment)
      then raiseIssue assignment else Ok []
  | None => Ok []
  end.

End Places.

(** *** What S1126 suggests *)

(** The truth value of what is returned instead, from that of the test. *)
Definition returned_instead (r : single_return) (test : bool) : bool :=
  match r with Negated => negb test | Cast | Uncast => test end.

(** When the branches return different literals, each suggestion returns what the
    statement did, as a boolean. *)
Lemma suggested_returns_agree ifStmt test consequent b truth s :
  returned_literal consequent = Some b -> s ∈ return_suggestions ifStmt test consequent ->
  returned_instead s.2 truth = if truth then b else negb b.
Proof.
  intros Hb Hs. unfold return_suggestions, isReturningFalse in Hs. rewrite Hb in Hs.
  destruct b; cbn [negb] in Hs; [destruct (isBooleanExpression test) |]; repeat (apply elem_of_cons in Hs as [->|Hs]);
    try (by apply not_elem_of_nil in Hs); by destruct truth.
Qed.

(** The rule does not ask for different literals: then one of the results changes. *)
Lemma same_literals_change ifStmt test consequent b s :
  returned_literal consequent = Some b -> s ∈ return_suggestions ifStmt test consequent ->
  exists truth, returned_instead s.2 truth <> b.
Proof. intros Hb Hs. exists false. rewrite (suggested_returns_agree ifStmt test consequent b false s Hb Hs). by destruct b. Qed.

(** ** S2310: counters that the body assigns *)

Section Counters.

Variable sm : ScopeManager.

Fixpoint collectCountersForX (fuel : nat) (updateExpression : node) : list node :=
  match fuel with
  | O => []
  | S fuel' =>
      if type_of updateExpression =s "VariableDeclaration" then
        flat_map (fun decl => match get_node decl "id" with Some id => collectCountersForX fuel' id | None => [] end)
          (get_nodes updateExpression "declarations")
      else resolveIdentifiers updateExpression true
  end.

Fixpoint collectCountersFor (fuel : nat) (updateExpression : node) : list node :=
  match fuel with
  | O => []
  | S fuel' =>
      let identifier n := match n with Some c => if type_of c =s "Identifier" then [c] else [] | None => [] end in
      if type_of updateExpression =s "AssignmentExpression" then identifier (get_node updateExpression "left")
      else if type_of updateExpression =s "UpdateExpression" then identifier (get_node updateExpression "argument")
      else if type_of updateExpression =s "SequenceExpression"
      then flat_map (collectCountersFor fuel') (get_nodes updateExpression "expressions")
      else []
  end.

Definition isUsedInsideBody (id loopBody : node) : bool :=
  match h_range (hdr id), h_range (hdr loopBody) with
  | Some (a, b), Some (first, last) => (first <? a)%Z && (b <? last)%Z
  | _, _ => false
  end.

Definition checkCounter (counter block : node) : list ReportDescriptor :=
  match getVariableFromName sm (node_name counter) block ≫= variable_at sm with
  | Some variable =>
      flat_map (fun ref =>
                  if ref_isWrite ref && isUsedInsideBody (ref_identifier ref) block
                  then [report_with ("Remove this assignment of " +:+ quoted (node_name counter) +:+ ".")%string (ref_identifier ref)
                          [secondary_with counter "Counter variable update"]]
                  else [])
        (omap (reference_at sm) (var_references variable))
  | None => []
  end.

Definition checkLoop (updateNode : node) (extractCounters : nat -> node -> list node) (loopBody : node) : list ReportDescriptor :=
  flat_map (fun counter => checkCounter counter loopBody) (extractCounters (node_size updateNode) updateNode).

(** A block, and the loop it is the child of. *)
Definition S2310 (n parent : node) : list ReportDescriptor :=
  if type_of n =s "BlockStatement" then
    if type_of parent =s "ForStatement" then
      match get_node parent "update" with Some update => checkLoop update collectCountersFor n | None => [] end
    else if includes (type_of parent) ["ForInStatement"; "ForOfStatement"] then
      match get_node parent "left" with Some l => checkLoop l collectCountersForX n | None => [] end
    else []
  else [].

End Counters.

(** ** S138: lines of functions *)

(** [getCommentLineNumbers(comments)]: the last comment of each line. *)
Definition comment_lines (comment : Comment) : list Z :=
  match c_loc comment with
  | Some loc => map (fun i => (line (start loc) + Z.of_nat i)%Z) (seq 0 (Z.to_nat (line (endp loc) - line (start loc) + 1)))
  | None => []
  end.

Definition getCommentLineNumbers (comments : list Comment) : list (Z * Comment) :=
  fold_left (fun m comment => fold_left (fun m i => map_set i comment m) (comment_lines comment) m) comments [].

(** [line.slice(0, column)] and [line.slice(column)]. *)
Definition slice_to (text : string) (column : Z) : string := String.substring 0 (Z.to_nat column) text.
Definition slice_from (text : string) (column : Z) : string := String.substring (Z.to_nat column) (String.length text) text.

Definition isFullLineComment (text : string) (lineNumber : Z) (comment : Comment) : bool :=
  match c_loc comment with
  | None => false
  | Some (mkLoc s e) =>
      let isFirstTokenOnLine := (line s =? lineNumber)%Z && (trim (slice_to text (column s)) =s "") in
      let isLastTokenOnLine := (line e =? lineNumber)%Z && (trim (slice_from text (column e)) =s "") in
      ((line s <? lineNumber)%Z || isFirstTokenOnLine) && ((lineNumber <? line e)%Z || isLastTokenOnLine)
  end.

Definition counts_line (text : string) (lineNumber : Z) (commentLineNumbers : list (Z * Comment)) : bool :=
  negb (match map_get lineNumber commentLineNumbers with
        | Some comment => isFullLineComment text lineNumber comment
        | None => false
        end)
  && negb (trim text =s "").

(** The loop of [getLocsNumber], from the line [i] on; it fails past the last line. *)
Fixpoint locs_from (fuel : nat) (i : Z) (last_line : Z) (lines : list string) (commentLineNumbers : list (Z * Comment)) : eval nat :=
  match fuel with
  | O => Ok 0
  | S fuel' =>
      if (i <? last_line)%Z then
        let! text := of_option TypeError (lines !! Z.to_nat i) in
        let! others := locs_from fuel' (i + 1) last_line lines commentLineNumbers in
        Ok ((if counts_line text (i + 1) commentLineNumbers then 1 else 0) + others)
      else Ok 0
  end.

Definition getLocsNumber (loc : SourceLocation) (lines : list string) (commentLineNumbers : list (Z * Comment)) : eval nat :=
  locs_from (Z.to_nat (line (endp loc) - line (start loc) + 1)) (line (start loc) - 1) (line (endp loc)) lines commentLineNumbers.

Record FunctionKnowledge := mkKnowledge { fk_node : node; fk_parent : option node; lineCount : nat; startsWithCapital : bool; returnsJSX : bool }.

(** [functionStack], the last function first, [functionKnowledge] by the identity of
    functions, and the reports. *)
Record lines_state := mkLines {
  functionStack : list node;
  functionKnowledge : list (nat * FunctionKnowledge);
  lines_reports : list ReportDescriptor
}.

Section FunctionLines.

Context (sc : SourceCode) (getTokensBefore : node -> list Token) (lines : list string).
(** [String.toUpperCase], and the option [maximum]. *)
Context (toUpperCase : string -> string) (maximum : option nat).

Definition DEFAULT : nat := 200.
Definition threshold : nat := default DEFAULT maximum.

Definition isIIFE (n : node) (parent : option node) : bool :=
  (type_of n =s "FunctionExpression")
  && match parent with Some p => (type_of p =s "CallExpression") && child_is p "callee" n | None => false end.

Definition isReactFunctionComponent (knowledge : FunctionKnowledge) : bool := startsWithCapital knowledge && returnsJSX knowledge.

(** [name\[0\]]: [None] is half of a surrogate pair. *)
Definition first_letter (name : string) : eval (option string) :=
  match name with
  | EmptyString => Throw TypeError
  | String c r =>
      let n := Ascii.nat_of_ascii c in
      Ok (if 240 <=? n then None
          else Some (String.substring 0 (if n <? 128 then 1 else if n <? 224 then 2 else 3) name))
  end.

(** The name is read of any pattern. *)
Definition isIdentifierUppercase (n : node) : eval bool :=
  let! name := of_option TypeError (get_str n "name") in
  let! letter := first_letter name in
  Ok (match letter with Some l => startsWith (toUpperCase l) name | None => true end).

Definition getIdentifierFromArrowFunction (n : node) (parent : option node) : option node :=
  if type_of n =s "ArrowFunctionExpression" then
    p ← parent; if type_of p =s "VariableDeclarator" then get_node p "id" else None
  else None.

Definition getIdentifierFromNormalFunction (n : node) : option node :=
  if includes (type_of n) ["FunctionDeclaration"; "FunctionExpression"] then get_node n "id" else None.

Definition S138_nameStartsWithCapital (n : node) (parent : option node) : eval bool :=
  match getIdentifierFromNormalFunction n with
  | Some identifier => isIdentifierUppercase identifier
  | None =>
      match getIdentifierFromArrowFunction n parent with
      | Some identifier => isIdentifierUppercase identifier
      | None => Ok false
      end
  end.

Definition is_function (n : node) : bool :=
  includes (type_of n) ["FunctionDeclaration"; "FunctionExpression"; "ArrowFunctionExpression"].

Definition enter_function (n : node) (parent : option node) (st : lines_state) : eval lines_state :=
  let stack := n :: functionStack st in
  match h_loc (hdr n) with
  | Some loc =>
      if isIIFE n parent then Ok (mkLines stack (functionKnowledge st) (lines_reports st))
      else
        let! count := getLocsNumber loc lines (getCommentLineNumbers (sc_comments sc)) in
        let! capital := S138_nameStartsWithCapital n parent in
        Ok (mkLines stack (map_set (h_id (hdr n)) (mkKnowledge n parent count capital false) (functionKnowledge st)) (lines_reports st))
  | None => Ok (mkLines stack (functionKnowledge st) (lines_reports st))
  end.

Definition on_return (n : node) (st : lines_state) : lines_state :=
  match head (functionStack st) ≫= fun f => map_get (h_id (hdr f)) (functionKnowledge st), get_node n "argument" with
  | Some (mkKnowledge f p count capital jsx), Some argument =>
      if startsWith "JSX" (type_of argument)
      then mkLines (functionStack st) (map_set (h_id (hdr f)) (mkKnowledge f p count capital true) (functionKnowledge st)) (lines_reports st)
      else st
  | _, _ => st
  end.

Definition report_lines (knowledge : FunctionKnowledge) : list ReportDescriptor :=
  if (threshold <? lineCount knowledge) && negb (isReactFunctionComponent knowledge) then
    let data := [("lineCount", print_int (Z.of_nat (lineCount knowledge))); ("threshold", print_int (Z.of_nat threshold))] in
    match getMainFunctionTokenLocation sc getTokensBefore (fk_node knowledge) (fk_parent knowledge) with
    | Some loc => [mkDescriptor "functionMaxLine" data (AtLocation loc) []]
    | None => []
    end
  else [].

Definition S138_step (e : event) (st : lines_state) : eval lines_state :=
  match e with
  | Enter n parents =>
      if is_function n then enter_function n (head parents) st
      else Ok (if type_of n =s "ReturnStatement" then on_return n st else st)
  | Leave n _ =>
      Ok (if is_function n then mkLines (tail (functionStack st)) (functionKnowledge st) (lines_reports st)
          else if type_of n =s "Program"
          then mkLines (functionStack st) (functionKnowledge st)
                 (lines_reports st ++ flat_map (fun k => report_lines k.2) (functionKnowledge st))
          else st)
  end.

Definition S138 (keys : VisitorKeys) (program : node) : eval lines_state := run S138_step (events keys [] program) (mkLines [] [] []).

End FunctionLines.

(** The lines of a function that count: those of its range that are neither blank nor
    comments from end to end. *)
Lemma locs_from_spec fuel i last_line lines m : (0 <= i)%Z -> (last_line <= Z.of_nat (length lines))%Z ->
  Z.to_nat (last_line - i) <= fuel ->
  locs_from fuel i last_line lines m =
  Ok (length (List.filter (fun k => counts_line (nth k lines "") (Z.of_nat k + 1) m) (seq (Z.to_nat i) (Z.to_nat (last_line - i))))).
Proof.
  revert i. induction fuel as [|fuel IH]; intros i Hi Hl Hf; cbn [locs_from].
  - by replace (Z.to_nat (last_line - i)) with 0 by lia.
  - destruct (Z.ltb_spec i last_line) as [Hlt|Hge]; [| by replace (Z.to_nat (last_line - i)) with 0 by lia].
    destruct (lookup_lt_is_Some_2 lines (Z.to_nat i)) as [text Ht]; [lia |]. rewrite Ht. cbn [of_option rbind].
    rewrite IH by lia. cbn [rbind]. replace (Z.to_nat (last_line - i)) with (S (Z.to_nat (last_line - (i + 1)))) by lia.
    cbn [seq List.filter]. rewrite (nth_lookup_Some _ _ _ _ Ht). replace (Z.of_nat (Z.to_nat i)) with i by lia.
    replace (Z.to_nat (i + 1)) with (S (Z.to_nat i)) by lia. by destruct (counts_line text (i + 1) m).
Qed.

Lemma getLocsNumber_spec loc lines m :
  (1 <= line (start loc))%Z -> (line (endp loc) <= Z.of_nat (length lines))%Z ->
  let first := Z.to_nat (line (start loc) - 1) in
  getLocsNumber loc lines m =
  Ok (length (List.filter (fun k => counts_line (nth k lines "") (Z.of_nat k + 1) m)
                (seq first (Z.to_nat (line (endp loc) - line (start loc) + 1))))).
Proof.
  intros H1 H2 first. unfold getLocsNumber. rewrite locs_from_spec by lia. do 4 f_equal. lia.
Qed.

(** ** S107: parameters *)

Section Parameters.

Context (sm : ScopeManager) (parents : node -> list node).
(** The functions that the rule max-params of ESLint reports, and the option: a number, or
    an object with [max]. *)
Context (eslintMaxParams : node -> option ReportDescriptor) (option_max : option nat).

Definition DEFAULT_MAXIMUM_FUNCTION_PARAMETERS : nat := 7.
Definition getMax : nat := default DEFAULT_MAXIMUM_FUNCTION_PARAMETERS option_max.

Definition isBeyondMaxParams (functionLike : node) : bool :=
  length (List.filter (fun p => negb (type_of p =s "TSParameterProperty")) (get_nodes functionLike "params")) <=? getMax.

Definition isConstructor (n : option node) : bool :=
  match n with
  | Some m => (type_of m =s "MethodDefinition") && isIdentifier (get_node m "key") ["constructor"]
  | None => false
  end.

Definition isAngularComponent (n : option node) : bool :=
  match n with
  | Some c =>
      (type_of c =s "ClassDeclaration")
      && existsb (fun decorator =>
                    match get_node decorator "expression" with
                    | Some e => isFunctionCall e
                                && match get_node e "callee" with
                                   | Some callee => fqn_is sm callee "@angular.core.Component"
                                   | None => false
                                   end
                    | None => false
                    end) (get_nodes c "decorators")
  | None => false
  end.

Definition isAngularConstructor (functionLike : node) : bool :=
  isConstructor (parents functionLike !! 0) && isAngularComponent (parents functionLike !! 2).

Definition isException (functionLike : node) : bool := isBeyondMaxParams functionLike || isAngularConstructor functionLike.

Definition ruleDecoration (functionLike : node) : list ReportDescriptor :=
  match eslintMaxParams functionLike with
  | Some descriptor => if isException functionLike then [] else [descriptor]
  | None => []
  end.

Context (getFirstToken : node -> option Token) (getFirstTokenWith : node -> (Token -> bool) -> option Token).

Definition getFunctionHeaderLocation (functionLike : node) : eval SourceLocation :=
  let! functionNode := of_option TypeError
    (if type_of functionLike =s "TSEmptyBodyFunctionExpression" then parents functionLike !! 0 else Some functionLike) in
  let! headerStart := of_option TypeError (getFirstToken functionNode) in
  let! headerEnd := of_option TypeError (getFirstTokenWith functionNode (fun token => t_value token =s "(")) in
  Ok (mkLoc (start (t_loc headerStart)) (start (t_loc headerEnd))).

Definition getFunctionNameWithKind (functionLike : node) : string :=
  let '(kind, name) :=
    if type_of functionLike =s "TSDeclareFunction" then ("Function declaration", (fun id => node_name id) <$> get_node functionLike "id")
    else if type_of functionLike =s "TSEmptyBodyFunctionExpression" then
      ("Empty function",
       parent ← parents functionLike !! 0;
       if type_of parent =s "MethodDefinition" then
         key ← get_node parent "key"; if type_of key =s "Identifier" then Some (node_name key) else None
       else None)
    else ("function", None) in
  match name with
  | Some name => if name =s "" then kind else (kind +:+ " '" +:+ name +:+ "'")%string
  | None => kind
  end.

Definition checkFunction_params (functionLike : node) : eval (list ReportDescriptor) :=
  let numParams := length (get_array functionLike "params") in
  if getMax <? numParams then
    let! loc := getFunctionHeaderLocation functionLike in
    Ok [mkDescriptor "exceed"
          [("name", getFunctionNameWithKind functionLike); ("count", print_int (Z.of_nat numParams)); ("max", print_int (Z.of_nat getMax))]
          (AtLocation loc) []]
  else Ok [].

Definition S107 (n : node) : eval (list ReportDescriptor) :=
  let! own := if includes (type_of n) ["TSDeclareFunction"; "TSEmptyBodyFunctionExpression"] then checkFunction_params n else Ok [] in
  Ok (ruleDecoration n ++ own).

End Parameters.

(** ** S1110: parentheses *)

Record ParenthesesPair := mkPair { openingParenthesis : Token; closingParenthesis : Token }.

(** The tokens before and after, from the nearest ones. *)
Fixpoint getParenthesesPairsAround (before after : list Token) : list ParenthesesPair :=
  match before, after with
  | tokenBefore :: before', tokenAfter :: after' =>
      if (t_value tokenBefore =s "(") && (t_value tokenAfter =s ")")
      then mkPair tokenBefore tokenAfter :: getParenthesesPairsAround before' after'
      else []
  | _, _ => []
  end.

Definition parenthesized : list (string * string) :=
  [("DoWhileStatement", "test"); ("IfStatement", "test"); ("SwitchStatement", "discriminant"); ("WhileStatement", "test");
   ("WithStatement", "object"); ("ArrowFunctionExpression", "body"); ("ImportExpression", "source")].

Definition isInParentNodeParentheses (n parent : node) : bool :=
  match map_get (type_of parent) parenthesized with Some parentAttribute => child_is parent parentAttribute n | None => false end
  || includes (type_of parent) ["CallExpression"; "NewExpression"] && existsb (fun a => same_node a n) (get_nodes parent "arguments").

(** The pairs that are too many: the outermost is the one of the parent, the innermost is
    allowed. *)
Definition redundant_pairs (n : node) (parent : option node) (before after : list Token) : list ParenthesesPair :=
  let pairs := getParenthesesPairsAround before after in
  let kept := match parent with Some p => if isInParentNodeParentheses n p then removelast pairs else pairs | None => pairs end in
  tail kept.

Definition S1110 (n : node) (parent : option node) (before after : list Token) : list (ReportDescriptor * Suggested) :=
  map (fun parentheses =>
         (plain_at "Remove these redundant parentheses." (t_loc (openingParenthesis parentheses))
            [(AtToken (closingParenthesis parentheses), None)],
          mkSuggested "Remove these redundant parentheses"
            [(t_range (openingParenthesis parentheses), ""); (t_range (closingParenthesis parentheses), "")]))
    (redundant_pairs n parent before after).

(** The pairs are the tokens at the same distance, as far as all of them are parentheses. *)
Lemma pairs_around before : forall after k p,
  getParenthesesPairsAround before after !! k = Some p <->
  before !! k = Some (openingParenthesis p) /\ after !! k = Some (closingParenthesis p) /\
  forall j, j <= k -> (t_value <$> before !! j) = Some "(" /\ (t_value <$> after !! j) = Some ")".
Proof.
  induction before as [|b before IH]; intros [|a after] k p; cbn [getParenthesesPairsAround]; rewrite ?lookup_nil; try naive_solver.
  destruct (t_value b =s "(") eqn:B; cbn [andb]; [destruct (t_value a =s ")") eqn:A |]; cbn [andb].
  - apply String.eqb_eq in B, A. destruct k as [|k]; cbn [lookup list_lookup].
    + destruct p as [o c]. cbn. split.
      * intros [= <- <-]. repeat split; intros; replace j with 0 by lia; cbn; by rewrite ?A, ?B.
      * by intros ([= ->] & [= ->] & _).
    + rewrite IH. split; intros (H1 & H2 & H3); repeat split; try done.
      * destruct j; cbn; [by rewrite B | apply H3; lia].
      * destruct j; cbn; [by rewrite A | apply H3; lia].
      * by apply (H3 (S j)); lia.
      * by apply (H3 (S j)); lia.
  - apply String.eqb_neq in A. rewrite lookup_nil. split; [done |]. intros (_ & _ & H). destruct (H 0); [lia |]. cbn in *. congruence.
  - apply String.eqb_neq in B. rewrite lookup_nil. split; [done |]. intros (_ & _ & H). destruct (H 0); [lia |]. cbn in *. congruence.
Qed.

(** ** S2757: operators written in the wrong order *)

Section Operators.

Context (getFirstToken : node -> option Token) (getTokenBefore : node -> (Token -> bool) -> option Token).

Definition isUnaryOperatorOfInterest (operator : string) : bool := includes operator ["-"; "+"; "!"].

Definition tokens_adjacent (first second : Token) : bool :=
  (column (endp (t_loc first)) =? column (start (t_loc second)))%Z && (line (endp (t_loc first)) =? line (start (t_loc second)))%Z.

(** The operand, with its parent. *)
Definition checkOperator (unaryNode : option node) (parent : node) : list (ReportDescriptor * list Suggested) :=
  match unaryNode with
  | Some unary =>
      if (type_of unary =s "UnaryExpression")
         && match get_str unary "operator" with Some op => isUnaryOperatorOfInterest op | None => false end
      then
        match getTokenBefore unary (fun token => t_value token =s "="), getFirstToken unary, get_node unary "argument" ≫= getFirstToken with
        | Some assignmentOperatorToken, Some unaryOperatorToken, Some expressionFirstToken =>
            if tokens_adjacent assignmentOperatorToken unaryOperatorToken
               && negb (tokens_adjacent unaryOperatorToken expressionFirstToken)
            then
              [(mkDescriptor "useExistingOperator" [("operator", default "" (get_str unary "operator"))]
                  (AtLocation (mkLoc (start (t_loc assignmentOperatorToken)) (endp (t_loc unaryOperatorToken)))) [],
                if type_of parent =s "AssignmentExpression"
                then [mkSuggested "suggestExistingOperator"
                        [(((t_range assignmentOperatorToken).1, (t_range unaryOperatorToken).2),
                          (t_value unaryOperatorToken +:+ t_value assignmentOperatorToken)%string)]]
                else [])]
            else []
        | _, _, _ => []
        end
      else []
  | None => []
  end.

Definition S2757 (n : node) : list (ReportDescriptor * list Suggested) :=
  if type_of n =s "AssignmentExpression" then
    if str_prop_is n "operator" "=" then checkOperator (get_node n "right") n else []
  else if type_of n =s "VariableDeclarator" then checkOperator (get_node n "init") n
  else [].

End Operators.

(** ** S1472: arguments on another line *)

Section CallArguments.

Context (getLastToken : node -> option Token) (getLastTokenBetween : node -> node -> (Token -> bool) -> option Token)
  (getTokenAfter : node -> (Token -> bool) -> option Token) (getTokenBefore : node -> option Token).

Definition isClosingParen (token : Token) : bool := (t_type token =s "Punctuator") && (t_value token =s ")").

Definition isNotClosingParen (token : Token) : bool := negb (isClosingParen token).

Definition getCallee (call : node) : eval node :=
  match get_node call "typeArguments" with Some t => Ok t | None => node_at call "callee" end.

(** A report at a location, or at a position: its end is absent then. *)
Record LineReport := mkLineReport { lr_message : string; lr_start : Position; lr_end : option Position; lr_line : Z }.

Definition S1472_CallExpression (call : node) : eval (list LineReport) :=
  let! own := node_at call "callee" in
  match get_array call "arguments" with
  | [argument] =>
      if type_of own =s "CallExpression" then Ok []
      else
        let! callee := getCallee call in
        let! argument := of_option TypeError (as_node argument) in
        let! last_of_callee := of_option TypeError
          (match getLastTokenBetween callee argument isClosingParen with Some t => Some t | None => getLastToken callee end) in
        let calleeLastLine := line (endp (t_loc last_of_callee)) in
        let! first := of_option TypeError (getTokenAfter callee isNotClosingParen) in
        let s := start (t_loc first) in
        if negb (calleeLastLine =? line s)%Z then
          let! last_of_call := of_option TypeError (getLastToken call) in
          let e := endp (t_loc last_of_call) in
          Ok [mkLineReport "moveArguments" s (if negb (line e =? line s)%Z then None else Some e) calleeLastLine]
        else Ok []
  | _ => Ok []
  end.

Definition S1472_TaggedTemplateExpression (n : node) : eval (list LineReport) :=
  let! quasi := node_at n "quasi" in
  Ok (match getTokenBefore quasi, h_loc (hdr quasi) with
      | Some tokenBefore, Some loc =>
          if negb (line (endp (t_loc tokenBefore)) =? line (start loc))%Z
          then [mkLineReport "moveTemplateLiteral" (start loc) (Some (mkPos (line (start loc)) (column (start loc) + 1)))
                  (line (start (t_loc tokenBefore)))]
          else []
      | _, _ => []
      end).

End CallArguments.

(** ** Examples *)

Module StatementsExample.

Import ModulesExample.

Definition keys (type : string) : option (list string) :=
  if includes type ["Program"; "BlockStatement"] then Some ["body"]
  else if type =s "WhileStatement" then Some ["test"; "body"]
  else if type =s "SwitchStatement" then Some ["discriminant"; "cases"]
  else if type =s "SwitchCase" then Some ["test"; "consequent"]
  else if type =s "LabeledStatement" then Some ["label"; "body"]
  else if includes type ["BreakStatement"; "ContinueStatement"] then Some ["label"]
  else None.

Definition block (i : nat) (body : list node) : node := mk i "BlockStatement" [("body", VArr (map VNode body))].
Definition while_ (i : nat) (body : list node) : node :=
  mk i "WhileStatement" [("test", VNode (ident (i + 1) "a")); ("body", VNode (block (i + 2) body))].
Definition switch_ (i : nat) (consequent : list node) : node :=
  mk i "SwitchStatement"
    [("discriminant", VNode (ident (i + 1) "x"));
     ("cases", VArr [VNode (mk (i + 2) "SwitchCase" [("test", VNode (ident (i + 3) "y")); ("consequent", VArr (map VNode consequent))])])].
Definition break_ (i : nat) : node := mk i "BreakStatement" [("label", VNull)].
Definition continue_ (i : nat) : node := mk i "ContinueStatement" [("label", VNull)].
Definition program_of (statements : list node) : node := mk 0 "Program" [("body", VArr (map VNode statements))].

Definition token (n : node) : option Token := Some (mkToken "Keyword" "while" (mkLoc (mkPos 1 0) (mkPos 1 5)) (0, 5)%Z).

(** [while (a) { break; continue; }] *)
Definition two_jumps : node := program_of [while_ 10 [break_ 20; continue_ 30]].

Lemma jumps_charged_to_loops_witness : exists st,
  S135 token keys two_jumps = Ok st /\ jumpTargets st = [] /\
  map (fun r => map snd (de_secondary r)) (jump_reports st)
    = [[Some (quoted "break" +:+ " statement.")%string; Some (quoted "continue" +:+ " statement.")%string]].
Proof.
  rewrite (jumps_charged_to_loops token keys two_jumps).
  - eexists. split; [vm_compute; reflexivity | by vm_compute].
  - reflexivity.
  - intros c Hc m ps Hm. apply list_elem_of_In in Hc, Hm. vm_compute in Hc. destruct Hc as [<-|[]].
    vm_compute in Hm. repeat (destruct Hm as [Hm|Hm]; [by (injection Hm as <- <-) || discriminate Hm |]). destruct Hm.
Defined.

(** [while (a) { switch (x) { case y: continue; } switch (x) { case y: continue; } }] jumps
    twice, but the code takes a [continue] to stop at the [switch] around it. *)
Lemma continue_in_switch_not_charged :
  S135 token keys (program_of [while_ 10 [switch_ 20 [continue_ 30]; switch_ 40 [continue_ 50]]]) = Ok (mkJumps [] []).
Proof. vm_compute. reflexivity. Qed.

(** Segments [s1] (a case), [s2] and [s3] after it, [s4] after both; [s2] ends the process. *)
Definition segment_ids : list string := ["s1"; "s2"; "s3"; "s4"].
Definition before (s : string) : list string :=
  if includes s ["s2"; "s3"] then ["s1"] else if s =s "s4" then ["s2"; "s3"] else [].

Lemma isAfterProcessExitCall_spec_witness :
  isAfterProcessExitCall segment_ids before ["s2"] "s4" (Some "s1") = false /\
  exists i, Some "s1" = Some i /\ falls_from before ["s2"] i "s4".
Proof.
  assert (isAfterProcessExitCall segment_ids before ["s2"] "s4" (Some "s1") = false) as E by (vm_compute; reflexivity).
  split; [exact E |].
  refine (proj1 (proj2 (isAfterProcessExitCall_spec segment_ids before ["s2"] (Some "s1") _ "s4" _)) E).
  - intros s p Hs Hp. apply list_elem_of_In in Hs, Hp. apply list_elem_of_In.
    destruct Hs as [<-|[<-|[<-|[<-|[]]]]]; vm_compute in Hp |- *; tauto.
  - apply list_elem_of_In. vm_compute. tauto.
Defined.

(** [const \[a\] = () => {}]: the name of a pattern is read. *)
Lemma pattern_name_throws :
  S138_nameStartsWithCapital (fun s => s) (mk 1 "ArrowFunctionExpression" [])
    (Some (mk 2 "VariableDeclarator" [("id", VNode (mk 3 "ArrayPattern" []))])) = Throw TypeError.
Proof. reflexivity. Qed.

(** A line with two comments and no code counts, since only the second one is known. *)
Lemma two_comments_count :
  let comment a b := mkComment "Block" "" (Some (mkLoc (mkPos 1 a) (mkPos 1 b))) (a, b) in
  getLocsNumber (mkLoc (mkPos 1 0) (mkPos 1 11)) ["/*a*/ /*b*/"] (getCommentLineNumbers [comment 0 5; comment 6 11]%Z) = Ok 1 /\
  getLocsNumber (mkLoc (mkPos 1 0) (mkPos 1 11)) ["/*a*/      "] (getCommentLineNumbers [comment 0 5]%Z) = Ok 0.
Proof. vm_compute. done. Qed.

End StatementsExample.
