(* ===== verification/Variables.v ===== *)
(** * Variables: rules on how variables are used

    The rules S2189 (loops that never end), S1515 (functions made in loops), S4158 and
    S4030 (collections that are never filled, or never read), S1172 (parameters), S1488
    (variables that are returned at once) and S1128 (imports). *)

From Stdlib Require Import ZArith Lia Ascii.
From stdpp Require Import base list sets strings.
From S2P Require Import Prelude JsString Json Estree Cognitive Reports Ast Modules Aws Calls Traversal Statements.

Open Scope js_scope.
Open Scope nat_scope.

(** ** S2189: loops that never end *)

Section EndlessLoops.

Context (keys : VisitorKeys).

Definition is_nested_loop (n : node) : bool := includes (type_of n) ["WhileStatement"; "DoWhileStatement"; "ForStatement"].
Definition is_nested_function (n : node) : bool := includes (type_of n) ["FunctionExpression"; "FunctionDeclaration"].

(** [visitNode]: whether it sets [hasEndCondition]; the recursion goes down the tree. *)
Fixpoint visitNode (fuel : nat) (isNestedLoop : bool) (n : node) : bool :=
  match fuel with
  | O => false
  | S fuel' =>
      let isNestedLoop := isNestedLoop || is_nested_loop n in
      if is_nested_function n then false
      else if includes (type_of n) ["YieldExpression"; "ReturnStatement"; "ThrowStatement"] then true
      else ((type_of n =s "BreakStatement") && (negb isNestedLoop || truthy (get n "label")))
           || existsb (visitNode fuel' isNestedLoop) (childrenOf n keys)
  end.

(** [LoopVisitor.hasEndCondition(node, context)] *)
Definition hasEndCondition (n : node) : bool := visitNode (node_size n) false n.

Definition is_true_literal (n : node) : bool :=
  (type_of n =s "Literal") && match get n "value" with VBool b => b | _ => false end.

Variable getFirstToken : node -> option Token.

Definition S2189_message : string := "Correct this loop's end condition to not be invariant.".

Definition report_endless (n body : node) : eval (list ReportDescriptor) :=
  if hasEndCondition body then Ok []
  else let! firstToken := of_option TypeError (getFirstToken n) in Ok [mkDescriptor S2189_message [] (AtToken firstToken) []].

Definition checkWhileStatement (n : node) : eval (list ReportDescriptor) :=
  let! test := node_at n "test" in
  let! body := node_at n "body" in
  if is_true_literal test then report_endless n body else Ok [].

(** The extension of the rule of ESLint. *)
Definition S2189_extension (n : node) : eval (list ReportDescriptor) :=
  if includes (type_of n) ["WhileStatement"; "DoWhileStatement"] then checkWhileStatement n
  else if type_of n =s "ForStatement" then
    let! body := node_at n "body" in
    if match get_node n "test" with Some test => is_true_literal test | None => true end then report_endless n body else Ok []
  else Ok [].

(** *** Jumps out of a loop *)

(** How the execution of a statement can go on elsewhere, calls that throw and labelled
    [continue] apart. *)
Inductive jump := Break_ (label : option string) | Return_ | Throw_ | Yield_.

(** Whether a statement keeps the jumps of its parts. *)
Definition absorbs (n : node) (j : jump) : bool :=
  match j with
  | Break_ None =>
      includes (type_of n) ["WhileStatement"; "DoWhileStatement"; "ForStatement"; "ForInStatement"; "ForOfStatement"; "SwitchStatement"]
  | Break_ l => (type_of n =s "LabeledStatement") && bool_decide (label_of n = l)
  | _ => false
  end || includes (type_of n) ["FunctionExpression"; "FunctionDeclaration"; "ArrowFunctionExpression"].

(** A jump out of a tree. *)
Inductive leaves : node -> jump -> Prop :=
| leaves_break n : type_of n = "BreakStatement" -> leaves n (Break_ (label_of n))
| leaves_return n : type_of n = "ReturnStatement" -> leaves n Return_
| leaves_throw n : type_of n = "ThrowStatement" -> leaves n Throw_
| leaves_yield n : type_of n = "YieldExpression" -> leaves n Yield_
| leaves_child n c j : c ∈ childrenOf n keys -> leaves c j -> absorbs n j = false -> leaves n j.

Lemma label_is_node n l : label_of n = Some l -> truthy (get n "label") = true.
Proof. unfold label_of, get_node. by destruct (get n "label"). Qed.

Lemma nested_loops_absorb n : is_nested_loop n = true -> absorbs n (Break_ None) = true.
Proof.
  unfold is_nested_loop, absorbs. rewrite includes_spec, orb_true_iff, !includes_spec, !elem_of_cons. tauto.
Qed.

Lemma functions_absorb n j : is_nested_function n = true -> absorbs n j = true.
Proof.
  unfold is_nested_function, absorbs. rewrite includes_spec, orb_true_iff, (includes_spec _ ["FunctionExpression"; _; _]), !elem_of_cons. tauto.
Qed.

Lemma leaves_found n j : leaves n j -> forall fuel nested,
  node_size n <= fuel -> (nested = true -> j <> Break_ None) -> visitNode fuel nested n = true.
Proof.
  induction 1 as [n T|n T|n T|n T|n c j Hc L IH A]; intros fuel nested Hf Hn; pose proof (node_size_pos n);
    (destruct fuel as [|fuel]; [lia |]); cbn [visitNode]; unfold is_nested_function, is_nested_loop; try (rewrite T; cbn; done).
  - rewrite T. cbn. rewrite orb_false_r. destruct nested; [| done]. cbn. destruct (label_of n) as [l|] eqn:E; [| by destruct Hn].
    by rewrite (label_is_node n l E).
  - fold (is_nested_loop n) (is_nested_function n). destruct (is_nested_function n) eqn:F; [by rewrite (functions_absorb n j F) in A |].
    destruct (includes _ _); [done |]. apply orb_true_iff. right. apply existsb_exists. exists c. split; [by apply list_elem_of_In |].
    apply IH; [apply childrenOf_size in Hc; lia |]. intros [N|N]%orb_true_iff; [by apply Hn |].
    intros ->. by rewrite (nested_loops_absorb n N) in A.
Qed.

(** C40: When S2189 reports a loop whose condition is always true, no [break], [return],
    [throw] or [yield] of its body leaves the loop: each [break] stops at a statement
    inside it, and the others are in functions. *)
Theorem reported_loops_have_no_exit n body d j :
  get_node n "body" = Some body -> S2189_extension n = Ok [d] -> ~ leaves body j.
Proof.
  intros B R L. assert (hasEndCondition body = false -> False) as F.
  { intros E. unfold hasEndCondition in E. by rewrite (leaves_found body j L (node_size body) false) in E. }
  assert (forall d', report_endless n body <> Ok [d']) as N.
  { intros d' E. unfold report_endless in E. destruct (hasEndCondition body); [discriminate | by apply F]. }
  unfold S2189_extension, checkWhileStatement, node_at in R. rewrite B in R. cbn [of_option rbind] in R.
  destruct (includes _ _).
  - destruct (get_node n "test") as [test|]; cbn [of_option rbind] in R; [| discriminate].
    destruct (is_true_literal test); [by apply N in R | discriminate].
  - destruct (_ =s _); [| discriminate].
    destruct (match get_node n "test" with Some test => is_true_literal test | None => true end); [by apply N in R | discriminate].
Qed.

(** *** The decoration of the rule of ESLint *)

Section Decoration.

Context (sm : ScopeManager) (parents : node -> list node).

(** The variable that an identifier refers to in its scope. *)
Definition symbol_of (n : node) : option VarId :=
  scope ← sm_getScope sm n ≫= fun s => sm_scopes sm !! s;
  ref ← List.find (fun r => same_node (ref_identifier r) n) (omap (reference_at sm) (sco_references scope));
  ref_resolved ref.

(** Passed to a call, or the object of a member that is called. *)
Definition is_used_by_call (id : node) : bool :=
  match parents id with
  | parent :: above =>
      ((type_of parent =s "CallExpression") && existsb (fun a => same_node a id) (get_nodes parent "arguments"))
      || ((type_of parent =s "MemberExpression")
          && match above with grandparent :: _ => type_of grandparent =s "CallExpression" | [] => false end
          && child_is parent "object" id)
  | [] => false
  end.

Definition references_of (symbol : option VarId) : list Reference :=
  match symbol ≫= variable_at sm with Some v => omap (reference_at sm) (var_references v) | None => [] end.

(** A descriptor of ESLint on a node, with [alreadyRaisedSymbols]. *)
Definition S2189_decoration (alreadyRaisedSymbols : list VarId) (n : node) : list VarId * bool :=
  let symbol := symbol_of n in
  if isUndefined n || match symbol with Some s => set_has s alreadyRaisedSymbols | None => false end then (alreadyRaisedSymbols, false)
  else if existsb (fun r => is_used_by_call (ref_identifier r)) (references_of symbol) then (alreadyRaisedSymbols, false)
  else (match symbol with Some s => set_add s alreadyRaisedSymbols | None => alreadyRaisedSymbols end, true).

End Decoration.
End EndlessLoops.

Section Variables.

Context (sm : ScopeManager) (parents : node -> list node).

Definition refs_of (v : Variable_) : list Reference := omap (reference_at sm) (var_references v).

(** ** S1515: functions made in loops *)

Section FunctionsInLoops.

(** [scope.through] and [scope.type], and the answers on tokens. *)
Context (through : ScopeId -> list Reference) (scope_type : ScopeId -> string) (sc : SourceCode) (getTokensBefore : node -> list Token)
  (getTokenBefore getFirstTokenWith : node -> (Token -> bool) -> option Token).

Definition loopLike : string := "WhileStatement,DoWhileStatement,ForStatement,ForOfStatement,ForInStatement".

Definition allowedCallbacks : list string :=
  ["replace"; "forEach"; "filter"; "map"; "find"; "findIndex"; "every"; "some"; "reduce"; "reduceRight"; "sort"; "each"].

(** The types are looked for in a text. *)
Definition getLocalEnclosingLoop (n : node) : option node :=
  findFirstMatchingAncestor (parents n) (fun a => string_includes (type_of a) loopLike).

Definition isIIEF (n : node) : bool :=
  match head (parents n) with
  | Some parent =>
      ((type_of parent =s "CallExpression") && child_is parent "callee" n)
      || ((type_of parent =s "MemberExpression") && child_is parent "object" n)
  | None => false
  end.

Definition isAllowedCallbacks (n : node) : bool :=
  match head (parents n) with
  | Some parent =>
      (type_of parent =s "CallExpression")
      && match get_node parent "callee" with
         | Some callee => (type_of callee =s "MemberExpression")
                          && match get_node callee "property" with
                             | Some p => (type_of p =s "Identifier") && includes (node_name p) allowedCallbacks
                             | None => false
                             end
         | None => false
         end
  | None => false
  end.

Definition node_range (n : option node) : option (Z * Z) := n ← n; h_range (hdr n).

Definition getLoopTestRange (loopNode : node) : option (Z * Z) :=
  bodyRange ← node_range (get_node loopNode "body");
  if type_of loopNode =s "ForStatement" then
    testRange ← node_range (get_node loopNode "test"); Some (testRange.1, bodyRange.1)
  else if includes (type_of loopNode) ["WhileStatement"; "DoWhileStatement"] then node_range (get_node loopNode "test")
  else if includes (type_of loopNode) ["ForOfStatement"; "ForInStatement"] then
    leftRange ← h_range (hdr loopNode); Some (leftRange.1, bodyRange.1)
  else None.

(** A write in the body of the loop, or in its header. *)
Definition is_loop_write (ref : Reference) (loopNode : node) : bool :=
  ref_isWrite ref
  && (((scope_type (ref_from ref) =s "block")
       && match sm_scopes sm !! ref_from ref with Some s => child_is loopNode "body" (sco_block s) | None => false end)
      || match h_range (hdr (ref_identifier ref)), getLoopTestRange loopNode with
         | Some refRange, Some range => (range.1 <=? refRange.1)%Z && (refRange.2 <=? range.2)%Z
         | _, _ => false
         end).

Definition hasConstValue (variable : Variable_) (loopNode : node) : bool :=
  negb (existsb (fun ref => is_loop_write ref loopNode) (refs_of variable)).

Definition declaration_kind (variable : Variable_) : string :=
  match head (var_defs variable) ≫= def_parent with
  | Some declaration => if type_of declaration =s "VariableDeclaration" then default "" (get_str declaration "kind") else ""
  | None => ""
  end.

Definition isSafe (ref : Reference) (loopNode : node) : bool :=
  match ref_resolved ref ≫= variable_at sm with
  | Some variable =>
      let kind := declaration_kind variable in
      if negb (kind =s "let") && negb (kind =s "const") then hasConstValue variable loopNode else true
  | None => true
  end.

Definition getMainLoopToken (loop : node) : option Token :=
  if includes (type_of loop) ["WhileStatement"; "DoWhileStatement"] then
    test ← get_node loop "test"; getTokenBefore test (is_keyword "while")
  else getFirstTokenWith loop (is_keyword "for").

Definition through_of (n : node) : list Reference :=
  match sm_getScope sm n with Some s => through s | None => [] end.

(** On functions. *)
Definition S1515 (n : node) : list ReportDescriptor :=
  match getLocalEnclosingLoop n with
  | Some loopNode =>
      if negb (isIIEF n) && negb (isAllowedCallbacks n) && existsb (fun ref => negb (isSafe ref loopNode)) (through_of n) then
        match getMainFunctionTokenLocation sc getTokensBefore n (head (parents n)), getMainLoopToken loopNode with
        | Some loc, Some token =>
            [plain_at "Make sure this function is not called after the loop completes." loc [(AtToken token, None)]]
        | _, _ => []
        end
      else []
  | None => []
  end.

End FunctionsInLoops.

(** ** S4158 and S4030: collections *)

Definition collectionConstructor : list string := ["Array"; "Map"; "Set"; "WeakSet"; "WeakMap"].

Definition writingMethods : list string :=
  ["copyWithin"; "fill"; "pop"; "push"; "reverse"; "set"; "shift"; "sort"; "splice"; "unshift"; "add"; "clear"; "delete"].

Definition nonAdditiveMutatorMethods : list string := ["copyWithin"; "pop"; "reverse"; "shift"; "sort"; "clear"; "delete"].
Definition accessorMethods : list string :=
  ["concat"; "flat"; "flatMap"; "includes"; "indexOf"; "join"; "lastIndexOf"; "slice"; "toSource"; "toString"; "toLocaleString";
   "get"; "has"].
Definition iterationMethods : list string :=
  ["entries"; "every"; "filter"; "find"; "findIndex"; "forEach"; "keys"; "map"; "reduce"; "reduceRight"; "some"; "values"].
Definition strictlyReadingMethods : list string := nonAdditiveMutatorMethods ++ accessorMethods ++ iterationMethods.

(** [ref.isWriteOnly()] *)
Definition isWriteOnly (ref : Reference) : bool := ref_isWrite ref && negb (ref_isRead ref).

(** The declaration or the statement of a reference, and the value that it assigns to the
    variable, when it does. *)
Definition assigned_value (ref : Reference) : option node :=
  declOrExprStmt ← findFirstMatchingAncestor (parents (ref_identifier ref))
                     (fun n => includes (type_of n) ["VariableDeclarator"; "ExpressionStatement"]);
  if type_of declOrExprStmt =s "VariableDeclarator" then get_node declOrExprStmt "init"
  else
    expression ← get_node declOrExprStmt "expression";
    if (type_of expression =s "AssignmentExpression")
       && match get_node expression "left" with Some l => isReferenceTo ref l | None => false end
    then get_node expression "right" else None.

(** Both rules walk the scopes below a scope, but not the variables of the global one. *)
Context (childScopes : ScopeId -> list ScopeId) (scope_type : ScopeId -> string).

Fixpoint variables_below (fuel : nat) (scope : ScopeId) : list Variable_ :=
  match fuel with
  | O => []
  | S fuel' =>
      (if negb (scope_type scope =s "global")
       then match sm_scopes sm !! scope with Some s => omap (variable_at sm) (sco_variables s) | None => [] end
       else [])
      ++ flat_map (variables_below fuel') (childScopes scope)
  end.

(** *** S4158 *)

Definition isEmptyCollectionType (n : node) : bool :=
  if type_of n =s "ArrayExpression" then Nat.eqb (length (get_array n "elements")) 0
  else includes (type_of n) ["CallExpression"; "NewExpression"]
       && isIdentifier (get_node n "callee") collectionConstructor && Nat.eqb (length (get_array n "arguments")) 0.

Definition isReferenceAssigningEmptyCollection (ref : Reference) : bool :=
  match assigned_value ref with Some v => isEmptyCollectionType v | None => false end.

Definition isStrictlyReadingMethodCall (usage : Reference) : bool :=
  match parents (ref_identifier usage) with
  | parent :: memberExpressionParent :: _ =>
      (type_of parent =s "MemberExpression") && (type_of memberExpressionParent =s "CallExpression")
      && isIdentifier (get_node parent "property") strictlyReadingMethods
  | _ => false
  end.

Definition isForIterationPattern (ref : Reference) : bool :=
  match findFirstMatchingAncestor (parents (ref_identifier ref)) (fun n => includes (type_of n) ["ForOfStatement"; "ForInStatement"]) with
  | Some forInOrOfStatement => child_is forInOrOfStatement "right" (ref_identifier ref)
  | None => false
  end.

Definition S4158_isElementWrite (memberExpression : node) : bool :=
  let ancestors := ancestorsChain (parents memberExpression) [] in
  match List.find (fun n => type_of n =s "AssignmentExpression") ancestors with
  | Some assignment =>
      str_prop_is assignment "operator" "="
      && match get_node assignment "left" with
         | Some lhs => existsb (fun n => same_node n lhs) (memberExpression :: ancestors)
         | None => false
         end
  | None => false
  end.

Definition isElementRead (ref : Reference) : bool :=
  match parents (ref_identifier ref) with
  | parent :: _ => (type_of parent =s "MemberExpression") && truthy (get parent "computed") && negb (S4158_isElementWrite parent)
  | [] => false
  end.

Definition isReadingCollectionUsage (ref : Reference) : bool :=
  isStrictlyReadingMethodCall ref || isForIterationPattern ref || isElementRead ref.

(** The loop over the references: the reading usages and [hasAssignmentOfEmptyCollection];
    [None] when it returns. *)
Fixpoint usages_loop (references readingUsages : list Reference) (hasAssignmentOfEmptyCollection : bool)
  : option (list Reference * bool) :=
  match references with
  | [] => Some (readingUsages, hasAssignmentOfEmptyCollection)
  | ref :: rest =>
      if isWriteOnly ref then
        if isReferenceAssigningEmptyCollection ref then usages_loop rest readingUsages true else None
      else if isReadingCollectionUsage ref then usages_loop rest (readingUsages ++ [ref]) hasAssignmentOfEmptyCollection
      else None
  end.

Definition reportEmptyCollectionUsage (variable : Variable_) : list ReportDescriptor :=
  if length (var_references variable) <=? 1 then []
  else if existsb (fun d => includes (def_type d) ["Parameter"; "ImportBinding"]) (var_defs variable) then []
  else
    match usages_loop (refs_of variable) [] false with
    | Some (readingUsages, true) =>
        map (fun ref => report_data "reviewUsageOfIdentifier" (ref_identifier ref) [("identifierName", node_name (ref_identifier ref))])
          readingUsages
    | _ => []
    end.

Definition S4158 (program : node) : list ReportDescriptor :=
  match sm_getScope sm program with
  | Some scope => flat_map reportEmptyCollectionUsage (variables_below (length (sm_scopes sm)) scope)
  | None => []
  end.

(** The loop classifies each reference on its own. *)
Lemma usages_loop_spec references : forall readingUsages hasAssignment,
  usages_loop references readingUsages hasAssignment =
  if forallb (fun ref => if isWriteOnly ref then isReferenceAssigningEmptyCollection ref else isReadingCollectionUsage ref) references
  then Some (readingUsages ++ List.filter (fun ref => negb (isWriteOnly ref)) references, hasAssignment || existsb isWriteOnly references)
  else None.
Proof.
  induction references as [|ref rest IH]; intros l b; cbn [usages_loop forallb List.filter existsb]; [by rewrite app_nil_r, orb_false_r |].
  destruct (isWriteOnly ref) eqn:W; cbn [negb].
  - destruct (isReferenceAssigningEmptyCollection ref); [| done]. rewrite IH. cbn [andb orb]. by rewrite !orb_true_r.
  - destruct (isReadingCollectionUsage ref); [| done]. rewrite IH. cbn [andb orb]. by rewrite <- app_assoc.
Qed.

(** A variable is reported exactly when it is never passed a value that could have
    elements: all of its writes assign an empty collection, at least one does, and its
    other uses are ones that add no element; then each of the others is reported. *)
Lemma empty_collections_reported variable :
  reportEmptyCollectionUsage variable <> [] <->
  (1 < length (var_references variable)) /\
  (forall d, d ∈ var_defs variable -> def_type d <> "Parameter" /\ def_type d <> "ImportBinding") /\
  (forall ref, ref ∈ refs_of variable ->
     if isWriteOnly ref then isReferenceAssigningEmptyCollection ref = true else isReadingCollectionUsage ref = true) /\
  (exists ref, ref ∈ refs_of variable /\ isWriteOnly ref = true) /\
  (exists ref, ref ∈ refs_of variable /\ isWriteOnly ref = false).
Proof.
  unfold reportEmptyCollectionUsage. rewrite usages_loop_spec. cbn [app orb].
  destruct (Nat.leb_spec (length (var_references variable)) 1) as [Hl|Hl]; [split; [done | lia] |].
  destruct (existsb (fun d => includes _ _) _) eqn:D.
  { apply existsb_exists in D as (d & Hd & T). apply list_elem_of_In in Hd. split; [done |]. intros (_ & P & _). destruct (P d Hd) as [N1 N2].
    apply includes_spec in T. rewrite !elem_of_cons in T. destruct T as [?|[?|T]]; [done | done | by apply not_elem_of_nil in T]. }
  assert (forall d, d ∈ var_defs variable -> def_type d <> "Parameter" /\ def_type d <> "ImportBinding") as Dd.
  { intros d Hd. split; intros E; apply not_true_iff_false in D; apply D, existsb_exists; exists d; rewrite <- list_elem_of_In, includes_spec, E;
      (split; [done |]); [by left | by right; left]. }
  destruct (forallb _ _) eqn:F.
  - rewrite forallb_forall in F. destruct (existsb isWriteOnly _) eqn:W.
    + apply existsb_exists in W as (w & Hw & W). apply list_elem_of_In in Hw. split.
      * intros N. repeat split; try done; try apply Dd; try done.
        -- intros ref Hr%list_elem_of_In%F. by destruct (isWriteOnly ref).
        -- by exists w.
        -- destruct (List.filter _ _) as [|r rs] eqn:E; [done |]. exists r. assert (In r (r :: rs)) as Hin by (by left).
           rewrite <- E in Hin. apply filter_In in Hin as [Hin Hr]. apply list_elem_of_In in Hin. split; [done | by apply negb_true_iff].
      * intros (_ & _ & _ & _ & r & Hr & Wr) N. apply map_eq_nil in N.
        assert (In r (List.filter (fun ref => negb (isWriteOnly ref)) (refs_of variable))) as Hin
          by (apply filter_In; split; [by apply list_elem_of_In | by rewrite Wr]).
        by rewrite N in Hin.
    + split; [done |]. intros (_ & _ & _ & (r & Hr & Wr) & _). apply not_true_iff_false in W. destruct W. apply existsb_exists.
      exists r. split; [by apply list_elem_of_In | done].
  - split; [done |]. intros (_ & _ & A & _). apply not_true_iff_false in F. destruct F. apply forallb_forall.
    intros r Hr%list_elem_of_In%A. by destruct (isWriteOnly r).
Qed.

(** *** S4030 *)

Definition isExported (variable : Variable_) : bool :=
  match head (var_defs variable) with
  | Some definition => match parents (def_node definition) !! 1 with Some n => startsWith "Export" (type_of n) | None => false end
  | None => false
  end.

Definition isCollectionType (n : node) : bool :=
  (type_of n =s "ArrayExpression")
  || (includes (type_of n) ["CallExpression"; "NewExpression"] && isIdentifier (get_node n "callee") collectionConstructor).

Definition isReferenceAssigningCollection (ref : Reference) : bool :=
  match assigned_value ref with Some v => isCollectionType v | None => false end.

Definition isWritingMethodCall (statement : node) (ref : Reference) : bool :=
  match get_node statement "expression" with
  | Some e =>
      (type_of e =s "CallExpression")
      && match get_node e "callee" with
         | Some callee =>
             (type_of callee =s "MemberExpression")
             && match get_node callee "object" with Some o => isReferenceTo ref o | None => false end
             && isIdentifier (get_node callee "property") writingMethods
         | None => false
         end
  | None => false
  end.

Definition isRead (ref : Reference) : bool :=
  match findFirstMatchingAncestor (parents (ref_identifier ref)) (fun n => type_of n =s "ExpressionStatement") with
  | Some expressionStatement => negb (isElementWrite expressionStatement ref false || isWritingMethodCall expressionStatement ref)
  | None => true
  end.

Fixpoint collection_loop (references : list Reference) (assignCollection : bool) : bool :=
  match references with
  | [] => assignCollection
  | ref :: rest =>
      if isWriteOnly ref then if isReferenceAssigningCollection ref then collection_loop rest true else false
      else if isRead ref then false else collection_loop rest assignCollection
  end.

Definition isUnusedCollection (variable : Variable_) : bool :=
  negb (isExported variable) && negb (length (var_references variable) <=? 1) && collection_loop (refs_of variable) false.

(** The identifiers of a variable are the names of its definitions. *)
Definition identifiers (variable : Variable_) : list node := map def_name (var_defs variable).

Definition S4030 (program : node) : list ReportDescriptor :=
  match sm_getScope sm program with
  | Some scope =>
      flat_map (fun v => match head (identifiers v) with Some id => [report "unusedCollection" id] | None => [] end)
        (List.filter isUnusedCollection (variables_below (length (sm_scopes sm)) scope))
  | None => []
  end.

(** ** S1172: parameters that are not used *)

Section Parameters.

(** [sourceCode.getDeclaredVariables], and the answers on tokens. *)
Context (declared_variables : node -> list VarId)
  (tokenBefore : node -> option Token) (getTokenBefore getTokenAfter : node -> (Token -> bool) -> option Token).

Definition isUnusedVariable (variable : Variable_) : bool :=
  match refs_of variable with [] => true | [r] => ref_init r | _ => false end.

Definition isIgnoredParameter (variable : Variable_) : bool := startsWith "_" (var_name variable).

Definition isParameterProperty (variable : Variable_) : bool :=
  existsb (fun def => match parents (def_name def) with
                      | parent :: above =>
                          (type_of parent =s "TSParameterProperty")
                          || ((type_of parent =s "AssignmentPattern")
                              && match above with p :: _ => type_of p =s "TSParameterProperty" | [] => false end)
                      | [] => false
                      end) (var_defs variable).

Definition isThisParameter (variable : Variable_) : bool := var_name variable =s "this".

(** The place of a parameter among the parameters. *)
Fixpoint parameter_index (params : list node) (param : node) : option nat :=
  match params with
  | [] => None
  | p :: rest => if same_node p param then Some 0 else S <$> parameter_index rest param
  end.

Definition removal_range (func paramIdentifier : node) : eval ((Z * Z) * string) :=
  let params := get_nodes func "params" in
  let! paramIndex := of_option TypeError (parameter_index params paramIdentifier) in
  let! param := of_option TypeError (params !! paramIndex) in
  let! range := range_of param in
  if Nat.eqb (length params) 1 then
    match tokenBefore param with
    | Some openingParenthesis =>
        if t_value openingParenthesis =s "(" then
          let! closingParenthesis := of_option TypeError (getTokenAfter param (fun token => t_value token =s ")")) in
          Ok (((t_range openingParenthesis).1, (t_range closingParenthesis).2), "()")
        else Ok (range, "()")
    | None => Ok (range, "()")
    end
  else if Nat.eqb (length params - 1) paramIndex then
    let! commaBefore := of_option TypeError (getTokenBefore param (fun token => t_value token =s ",")) in
    Ok (match getTokenAfter param (fun token => t_value token =s ",") with
        | Some commaAfter => (((t_range commaBefore).2, (t_range commaAfter).2), "")
        | None => (((t_range commaBefore).1, range.2), "")
        end)
  else
    let! next_param := of_option TypeError (params !! S paramIndex) in
    let! next_range := range_of next_param in
    Ok ((range.1, next_range.1), "").

Definition S1172_getSuggestions (paramVariable : Variable_) : eval (list Suggested) :=
  let! def := of_option TypeError (head (var_defs paramVariable)) in
  let paramIdentifier := def_name def in
  let! range := range_of paramIdentifier in
  let rename := mkSuggested "suggestRenameParameter" [((range.1, range.1), "_")] in
  if match head (parents paramIdentifier) with Some p => same_node p (def_node def) | None => false end then
    let! edit := removal_range (def_node def) paramIdentifier in
    Ok [rename; mkSuggested "suggestRemoveParameter" [edit]]
  else Ok [rename].

Definition is_reported_parameter (param : Variable_) : bool :=
  isUnusedVariable param && negb (isIgnoredParameter param) && negb (isParameterProperty param) && negb (isThisParameter param).

(** The implicit [arguments] of a function is used. *)
Definition uses_arguments (n : node) : bool :=
  match sm_getScope sm n ≫= fun s => sm_scopes sm !! s with
  | Some scope =>
      existsb (fun v => (var_name v =s "arguments") && Nat.eqb (length (identifiers v)) 0 && (0 <? length (var_references v)))
        (omap (variable_at sm) (sco_variables scope))
  | None => false
  end.

Definition reportUnusedArgument (n : node) (functionId : option node) : eval (list (ReportDescriptor * list Suggested)) :=
  if match head (parents n) with Some parent => (type_of parent =s "Property") && str_prop_is parent "kind" "set" | None => false end
  then Ok []
  else if uses_arguments n then Ok []
  else
    let declared := omap (variable_at sm) (declared_variables n) in
    let parametersVariable := match functionId with
                              | Some id => List.filter (fun v => negb (var_name v =s node_name id)) declared
                              | None => declared
                              end in
    on_each (fun param =>
               if is_reported_parameter param then
                 let! id := of_option TypeError (head (identifiers param)) in
                 let! suggest := S1172_getSuggestions param in
                 Ok [(report_data "removeOrRenameParameter" id [("param", var_name param)], suggest)]
               else Ok [])
      parametersVariable.

Definition S1172 (n : node) : eval (list (ReportDescriptor * list Suggested)) :=
  if includes (type_of n) ["FunctionDeclaration"; "FunctionExpression"] then reportUnusedArgument n (get_node n "id")
  else if type_of n =s "ArrowFunctionExpression" then reportUnusedArgument n None
  else Ok [].

End Parameters.

(** ** S1488: variables that are returned at once *)

Section Temporaries.

(** [scope.variableScope], [getText] and [getCommentsAfter]. *)
Context (variableScope : ScopeId -> ScopeId) (getText : node -> string) (getCommentsAfter : node -> list Comment).

Definition getOnlyReturnedVariable (n : node) : option node :=
  if includes (type_of n) ["ReturnStatement"; "ThrowStatement"] then
    argument ← get_node n "argument"; if isIdentifier (Some argument) [] then Some argument else None
  else None.

(** [{ id, init }] *)
Definition getOnlyDeclaredVariable (n : node) : option (node * node) :=
  if type_of n =s "VariableDeclaration" then
    match get_nodes n "declarations" with
    | [d] =>
        id ← get_node d "id";
        init ← get_node d "init";
        if (type_of id =s "Identifier") && negb (truthy (get id "typeAnnotation")) then Some (id, init) else None
    | _ => None
    end
  else None.

Definition scope_variables (scope : ScopeId) : list Variable_ :=
  match sm_scopes sm !! scope with Some s => omap (variable_at sm) (sco_variables s) | None => [] end.

Definition getVariables (n : node) : list Variable_ :=
  match sm_getScope sm n with
  | Some scope =>
      if Nat.eqb (variableScope scope) scope then scope_variables scope
      else scope_variables scope ++ scope_variables (variableScope scope)
  | None => []
  end.

Definition is_referenced_by (variable : Variable_) (identifier : node) : bool :=
  existsb (fun ref => same_node (ref_identifier ref) identifier) (refs_of variable).

Definition S1488_fix (last lastButOne expressionToReturn returnedExpression : node) : eval (list ((Z * Z) * string)) :=
  let! removed := range_of lastButOne in
  let! rangeToRemoveEnd := match getCommentsAfter lastButOne with
                           | c :: _ => Ok (c_range c).1
                           | [] => let! r := range_of last in Ok r.1
                           end in
  let! replaced := range_of returnedExpression in
  Ok [((removed.1, rangeToRemoveEnd), ""); (replaced, getText expressionToReturn)].

Definition processStatements (n : node) (statements : list node) : eval (list (ReportDescriptor * list ((Z * Z) * string))) :=
  match rev statements with
  | last :: lastButOne :: _ =>
      match getOnlyReturnedVariable last, getOnlyDeclaredVariable lastButOne with
      | Some returnedIdentifier, Some (id, init) =>
          match List.find (fun v => is_referenced_by v returnedIdentifier && is_referenced_by v id) (getVariables n) with
          | Some sameVariable =>
              if Nat.eqb (length (List.filter ref_isRead (refs_of sameVariable))) 1 then
                let! fix_ := S1488_fix last lastButOne init returnedIdentifier in
                Ok [(report_data "doImmediateAction" init
                       [("action", if type_of last =s "ReturnStatement" then "return" else "throw");
                        ("variable", node_name returnedIdentifier)], fix_)]
              else Ok []
          | None => Ok []
          end
      | _, _ => Ok []
      end
  | _ => Ok []
  end.

Definition S1488 (n : node) : eval (list (ReportDescriptor * list ((Z * Z) * string))) :=
  if type_of n =s "BlockStatement" then processStatements n (get_nodes n "body")
  else if type_of n =s "SwitchCase" then processStatements n (get_nodes n "consequent")
  else Ok [].

End Temporaries.

End Variables.

(** ** S1128: imports that are not used *)

Section Imports.

Context (sm : ScopeManager) (sc : SourceCode).
(** [getDeclaredVariables], the answers on tokens and comments, and
    [String.toUpperCase]. *)
Context (declared_variables : node -> list VarId) (tokenAfter tokenBefore : node -> option Token) (tokenAfterToken : Token -> option Token)
  (commentsBefore : node -> list Comment) (toUpperCase : string -> string).
(** The factories of the options of the compiler, when there is type information, and the
    children of the document of a Vue file. *)
Context (jsxFactory jsxFragmentFactory : option string) (document_children : list node).

Definition EXCLUDED_IMPORTS : list string := ["React"].

Definition JSDOC_TAGS : list string :=
  ["@abstract"; "@access"; "@alias"; "@arg"; "@argument"; "@async"; "@augments"; "@author"; "@borrows"; "@callback"; "@class";
   "@classdesc"; "@const"; "@constant"; "@constructor"; "@constructs"; "@copyright"; "@default"; "@defaultvalue"; "@deprecated";
   "@desc"; "@description"; "@emits"; "@enum"; "@event"; "@example"; "@exception"; "@exports"; "@extends"; "@external"; "@file";
   "@fileoverview"; "@fires"; "@func"; "@function"; "@generator"; "@global"; "@hideconstructor"; "@host"; "@ignore"; "@implements";
   "@inheritdoc"; "@inner"; "@instance"; "@interface"; "@kind"; "@lends"; "@license"; "@link"; "@linkcode"; "@linkplain";
   "@listens"; "@member"; "@memberof"; "@method"; "@mixes"; "@mixin"; "@module"; "@name"; "@namespace"; "@override"; "@overview";
   "@package"; "@param"; "@private"; "@prop"; "@property"; "@protected"; "@public"; "@readonly"; "@requires"; "@return";
   "@returns"; "@see"; "@since"; "@static"; "@summary"; "@this"; "@throws"; "@todo"; "@tutorial"; "@type"; "@typedef"; "@var";
   "@variation"; "@version"; "@virtual"; "@yield"; "@yields"].

(** [helpers/vue.ts] *)
Definition isVueSetupScript (element : node) : bool :=
  (type_of element =s "VElement") && str_prop_is element "name" "script"
  && match get_node element "startTag" with
     | Some startTag =>
         existsb (fun attr => match get_node attr "key" with Some k => str_prop_is k "name" "setup" | None => false end)
           (get_nodes startTag "attributes")
     | None => false
     end.

Definition isInsideVueSetupScript (n : node) : bool :=
  match List.find isVueSetupScript document_children ≫= fun s => h_range (hdr s), h_range (hdr n) with
  | Some setupScript, Some range => (setupScript.1 <=? range.1)%Z && (range.2 <=? setupScript.2)%Z
  | _, _ => false
  end.

(** [helpers/quickfix.ts]: the range that [removeNodeWithLeadingWhitespaces] removes. *)
Definition removeNodeWithLeadingWhitespaces (n : node) (removeUntil : option Z) : eval ((Z * Z) * string) :=
  let start := match last (commentsBefore n) with
               | Some c => (c_range c).2
               | None => match tokenBefore n with Some t => (t_range t).2 | None => 0%Z end
               end in
  let! end_ := match removeUntil with Some e => Ok e | None => let! r := range_of n in Ok r.2 end in
  Ok ((start, end_), "").

Definition isJsxPragmaSet : bool := existsb (fun comment => string_includes "@jsx jsx" (c_value comment)) (sc_comments sc).
Definition isExcluded (variable : Variable_) : bool := includes (var_name variable) EXCLUDED_IMPORTS.
Definition isUnused (variable : Variable_) : bool := Nat.eqb (length (var_references variable)) 0.
Definition isImplicitJsx (variable : Variable_) : bool := (var_name variable =s "jsx") && isJsxPragmaSet.

(** [str.replace(/-\w/g, s => s\[1\].toUpperCase())] *)
Definition is_word (c : Ascii.ascii) : bool :=
  let n := Ascii.nat_of_ascii c in
  ((48 <=? n) && (n <=? 57)) || ((65 <=? n) && (n <=? 90)) || ((97 <=? n) && (n <=? 122)) || (n =? 95).

Fixpoint toCamelCase (s : string) : string :=
  match s with
  | String d r =>
      match r with
      | String c r' =>
          if Ascii.eqb d "-" && is_word c then String (upper_ascii c) (toCamelCase r') else String d (toCamelCase r)
      | EmptyString => s
      end
  | EmptyString => EmptyString
  end.

Definition toPascalCase (s : string) : eval string :=
  let camelized := toCamelCase s in
  let! letter := first_letter camelized in
  Ok (match letter with
      | Some l => (toUpperCase l +:+ String.substring (String.length l) (String.length camelized) camelized)%string
      | None => camelized
      end).

Record UnusedImport := mkUnused { ui_id : node; importDecl : node }.

Inductive import_event :=
| ImportDeclaration_ (n : node)
| TypeIdentifier (n : node)
| VElement (rawName : string)
| VDirectiveKey (name : string)
| VIdentifier (name : string)
| ImportProgramExit.

Record import_state := mkImports {
  unusedImports : list UnusedImport;
  tsTypeIdentifiers : list string;
  vueIdentifiers : list string;
  import_reports : list (ReportDescriptor * Suggested)
}.

(** The specifier of an unused import, and its range in the statement. *)
Definition simple_specifiers (specifiers : list node) : list node :=
  List.filter (fun s => type_of s =s "ImportSpecifier") specifiers.

Definition specifier_range (unused : UnusedImport) : eval (Z * Z) :=
  let specifiers := get_nodes (importDecl unused) "specifiers" in
  let! specifier := of_option TypeError (List.find (fun s => child_is s "local" (ui_id unused)) specifiers) in
  let! range := range_of specifier in
  if type_of specifier =s "ImportDefaultSpecifier" then
    let! own := range_of (ui_id unused) in
    let! comma := of_option TypeError (tokenAfter (ui_id unused)) in
    let! next := of_option TypeError (tokenAfterToken comma) in
    Ok (own.1, (t_range next).1)
  else if type_of specifier =s "ImportNamespaceSpecifier" then
    let! comma := of_option TypeError (tokenBefore specifier) in
    Ok ((t_range comma).1, range.2)
  else
    let simple := simple_specifiers specifiers in
    let! index := of_option TypeError (parameter_index simple specifier) in
    if Nat.eqb (length simple) 1 then
      let! first := of_option TypeError (head specifiers) in
      let! first_range := range_of first in
      let! after := of_option TypeError (tokenAfter specifier) in
      Ok (first_range.2, (t_range after).2)
    else if Nat.eqb index 0 then
      let! second := of_option TypeError (simple !! 1) in
      let! second_range := range_of second in
      Ok (range.1, second_range.1)
    else
      let! previous := of_option TypeError (simple !! (index - 1)) in
      let! previous_range := range_of previous in
      Ok (previous_range.2, range.2).

Definition S1128_getSuggestion (unused : UnusedImport) : eval Suggested :=
  if Nat.eqb (length (declared_variables (importDecl unused))) 1 then
    let! edit := removeNodeWithLeadingWhitespaces (importDecl unused) None in
    Ok (mkSuggested "suggestRemoveWholeStatement" [edit])
  else
    let! range := specifier_range unused in
    Ok (mkSuggested "suggestRemoveOneVariable" [(range, "")]).

Definition getJsxFactories : list string := option_list jsxFactory ++ option_list jsxFragmentFactory.

Definition getJsxIdentifiers : list string :=
  map t_value (List.filter (fun token => t_type token =s "JSXIdentifier") (sc_tokens sc)).

Definition getJsDocComments : list Comment :=
  List.filter (fun comment => (c_type comment =s "Block") && existsb (fun tag => string_includes tag (c_value comment)) JSDOC_TAGS)
    (sc_comments sc).

(** Whether an import is really unused, at the end of the program. *)
Definition is_unused_import (st : import_state) (unused : UnusedImport) : bool :=
  let name := node_name (ui_id unused) in
  negb (includes name getJsxIdentifiers) && negb (includes name (tsTypeIdentifiers st))
  && negb (includes name (vueIdentifiers st) && isInsideVueSetupScript (ui_id unused))
  && negb (includes name getJsxFactories)
  && negb (existsb (fun comment => string_includes name (c_value comment)) getJsDocComments).

Definition on_import (n : node) (st : import_state) : eval (list UnusedImport) :=
  on_each (fun variable =>
             if negb (isExcluded variable) && negb (isImplicitJsx variable) && isUnused variable then
               let! id := of_option TypeError (head (identifiers variable)) in Ok [mkUnused id n]
             else Ok [])
    (omap (variable_at sm) (declared_variables n)).

Definition add_vue_identifiers (st : import_state) (names : list string) : import_state :=
  mkImports (unusedImports st) (tsTypeIdentifiers st) (set_add_all (vueIdentifiers st) names) (import_reports st).

Definition S1128_step (st : import_state) (e : import_event) : eval import_state :=
  match e with
  | ImportDeclaration_ n =>
      let! unused := on_import n st in
      Ok (mkImports (unusedImports st ++ unused) (tsTypeIdentifiers st) (vueIdentifiers st) (import_reports st))
  | TypeIdentifier n =>
      Ok (mkImports (unusedImports st) (set_add (node_name n) (tsTypeIdentifiers st)) (vueIdentifiers st) (import_reports st))
  | VElement rawName =>
      let name := default "" (head (split_char "."%char rawName)) in
      let! pascal := toPascalCase name in
      Ok (add_vue_identifiers st [toCamelCase name; pascal])
  | VDirectiveKey name =>
      let camelCased := toCamelCase name in
      let! pascalCased := toPascalCase name in
      Ok (add_vue_identifiers st [camelCased; pascalCased; ("v" +:+ camelCased)%string; ("v" +:+ pascalCased)%string])
  | VIdentifier name => Ok (add_vue_identifiers st [name])
  | ImportProgramExit =>
      let! reports := on_each (fun unused =>
                                 let! suggestion := S1128_getSuggestion unused in
                                 Ok [(report_data "removeUnusedImport" (ui_id unused) [("symbol", node_name (ui_id unused))], suggestion)])
                        (List.filter (is_unused_import st) (unusedImports st)) in
      Ok (mkImports (unusedImports st) (tsTypeIdentifiers st) (vueIdentifiers st) (import_reports st ++ reports))
  end.

Definition S1128 (events : list import_event) : eval import_state := rfold S1128_step events (mkImports [] [] [] []).

(** A removal in a list of named imports goes from the end of the one before, or up to the
    next one: what it leaves is a list without the import. *)
Lemma removal_is_between unused specifiers specifier index range :
  get_nodes (importDecl unused) "specifiers" = specifiers ->
  List.find (fun s => child_is s "local" (ui_id unused)) specifiers = Some specifier ->
  type_of specifier = "ImportSpecifier" -> h_range (hdr specifier) = Some range ->
  parameter_index (simple_specifiers specifiers) specifier = Some index -> 1 < length (simple_specifiers specifiers) ->
  (forall s, s ∈ specifiers -> is_Some (h_range (hdr s))) ->
  exists neighbour r, neighbour ∈ simple_specifiers specifiers /\ h_range (hdr neighbour) = Some r /\
    (specifier_range unused = Ok (range.1, r.1) /\ index = 0 \/ specifier_range unused = Ok (r.2, range.2) /\ 0 < index).
Proof.
  intros Hs F T R I L Rs. unfold specifier_range. rewrite Hs, F. cbn [of_option rbind].
  assert (range_of specifier = Ok range) as -> by (unfold range_of; by rewrite R). cbn [rbind]. rewrite T, I. cbn [String.eqb Ascii.eqb Bool.eqb of_option rbind].
  destruct (Nat.eqb_spec (length (simple_specifiers specifiers)) 1) as [|_]; [lia |].
  assert (forall s, s ∈ simple_specifiers specifiers -> is_Some (h_range (hdr s))) as Rs'.
  { intros s Hin. apply Rs. apply list_elem_of_In in Hin. unfold simple_specifiers in Hin. apply filter_In in Hin as [Hin _]. by apply list_elem_of_In. }
  assert (index < length (simple_specifiers specifiers)) as Li.
  { clear -I. revert index I. induction (simple_specifiers specifiers) as [|p l IH]; intros index I; cbn in I; [done |].
    destruct (same_node p specifier); [injection I as <-; cbn; lia |]. destruct (parameter_index l specifier) as [k|]; [| done].
    injection I as <-. specialize (IH k eq_refl). cbn. lia. }
  destruct (Nat.eqb_spec index 0) as [->|Hi].
  - destruct (lookup_lt_is_Some_2 (simple_specifiers specifiers) 1 L) as [second Hn]. rewrite Hn. cbn [of_option rbind].
    destruct (Rs' second) as [r Hr]; [by eapply list_elem_of_lookup_2 |]. exists second, r. unfold range_of. rewrite Hr. cbn [of_option rbind].
    split; [by eapply list_elem_of_lookup_2 |]. split; [done |]. by left.
  - destruct (lookup_lt_is_Some_2 (simple_specifiers specifiers) (index - 1)) as [previous Hn]; [lia |]. rewrite Hn. cbn [of_option rbind].
    destruct (Rs' previous) as [r Hr]; [by eapply list_elem_of_lookup_2 |]. exists previous, r. unfold range_of. rewrite Hr. cbn [of_option rbind].
    split; [by eapply list_elem_of_lookup_2 |]. split; [done |]. right. split; [done | lia].
Qed.

End Imports.

(** ** Examples *)

Module VariablesExample.

Import ModulesExample StatementsExample.

Definition true_ (i : nat) : node := mk i "Literal" [("value", VBool true)].
Definition endless (i : nat) (body : list node) : node :=
  mk i "WhileStatement" [("test", VNode (true_ (i + 1))); ("body", VNode (block (i + 2) body))].

(** [while (true) { while (a) { break; } }] *)
Definition inner_break : node := endless 10 [while_ 20 [break_ 30]].

Lemma reported_loops_have_no_exit_witness :
  S2189_extension keys token inner_break = Ok [mkDescriptor S2189_message [] (AtToken (mkToken "Keyword" "while" (mkLoc (mkPos 1 0) (mkPos 1 5)) (0, 5)%Z)) []] /\
  ~ leaves keys (block 12 [while_ 20 [break_ 30]]) (Break_ None).
Proof.
  split; [by vm_compute |].
  apply (reported_loops_have_no_exit keys token inner_break (block 12 [while_ 20 [break_ 30]])
    (mkDescriptor S2189_message [] (AtToken (mkToken "Keyword" "while" (mkLoc (mkPos 1 0) (mkPos 1 5)) (0, 5)%Z)) [])); by vm_compute.
Defined.

(** [outer: while (a) { while (true) { continue outer; } }]: the inner loop is reported,
    and the jump leaves it. [while (true) { switch (x) { case y: break; } }] is not. *)
Lemma labelled_continue_reported :
  (exists d, S2189_extension keys token
     (endless 10 [mk 20 "ContinueStatement" [("label", VNode (ident 21 "outer"))]]) = Ok [d]) /\
  S2189_extension keys token (endless 10 [switch_ 20 [break_ 30]]) = Ok [].
Proof. split; [eexists; by vm_compute | by vm_compute]. Qed.

(** [import a, { b, } from 'x'] without [b]: the brace is left. *)
Definition at_ (i : nat) (type : string) (ps : list (string * value)) (a b : Z) : node := Node (mkHeader i type None (Some (a, b))) ps.
Definition id_b : node := at_ 3 "Identifier" [("name", VStr "b")] 12 13.
Definition import_ab : node :=
  at_ 0 "ImportDeclaration"
    [("specifiers", VArr [VNode (at_ 1 "ImportDefaultSpecifier" [("local", VNode (at_ 4 "Identifier" [("name", VStr "a")] 7 8))] 7 8);
                          VNode (at_ 2 "ImportSpecifier" [("local", VNode id_b)] 12 13)])] 0 26.
Definition comma : Token := mkToken "Punctuator" "," (mkLoc (mkPos 1 13) (mkPos 1 14)) (13, 14)%Z.

Lemma trailing_comma_kept :
  specifier_range (fun _ => Some comma) (fun _ => None) (fun _ => None) (mkUnused id_b import_ab) = Ok (8, 14)%Z.
Proof. reflexivity. Qed.

(** [a\[0\]++] and [a\[0\] += 1] write an element, but only [=] is looked for. *)
Lemma updated_element_is_read :
  let id := ident 3 "a" in
  let member := mk 2 "MemberExpression" [("object", VNode id); ("property", VNode (mk 4 "Literal" [])); ("computed", VBool true)] in
  let parents above n := if same_node n id then member :: above else above in
  let ref := mkReference id [] 0 None None false true false in
  isElementRead (parents [mk 1 "UpdateExpression" [("argument", VNode member)]]) ref = true /\
  isElementRead (parents [mk 1 "AssignmentExpression" [("operator", VStr "="); ("left", VNode member)]]) ref = false.
Proof. vm_compute. done. Qed.

End VariablesExample.
