(* ===== verification/Globals.v ===== *)
(** * Globals: the names that libraries and environments define

    The data of [rules/helpers/globals.ts]: for each library its names, in the order of
    the file. *)

From stdpp Require Import base list strings.

Local Open Scope string_scope.

Definition lib_builtin : list string :=
  ["Array"; "ArrayBuffer"; "Boolean"; "DataView"; "Date"; "Error"; "EvalError"; "Float32Array"; "Float64Array";
   "Function"; "Infinity"; "Int16Array"; "Int32Array"; "Int8Array"; "JSON"; "Map"; "Math"; "NaN"; "Number"; "Object";
   "Promise"; "Proxy"; "RangeError"; "ReferenceError"; "Reflect"; "RegExp"; "Set"; "String"; "Symbol"; "SyntaxError";
   "TypeError"; "URIError"; "Uint16Array"; "Uint32Array"; "Uint8Array"; "Uint8ClampedArray"; "WeakMap"; "WeakSet";
   "constructor"; "decodeURI"; "decodeURIComponent"; "encodeURI"; "encodeURIComponent"; "escape"; "eval";
   "hasOwnProperty"; "isFinite"; "isNaN"; "isPrototypeOf"; "parseFloat"; "parseInt"; "propertyIsEnumerable";
   "toLocaleString"; "toString"; "unescape"; "valueOf"].

Definition lib_browser_1 : list string :=
  ["addEventListener"; "alert"; "AnalyserNode"; "Animation"; "AnimationEffectReadOnly"; "AnimationEffectTiming";
   "AnimationEffectTimingReadOnly"; "AnimationEvent"; "AnimationPlaybackEvent"; "AnimationTimeline";
   "applicationCache"; "ApplicationCache"; "ApplicationCacheErrorEvent"; "atob"; "Attr"; "Audio"; "AudioBuffer";
   "AudioBufferSourceNode"; "AudioContext"; "AudioDestinationNode"; "AudioListener"; "AudioNode"; "AudioParam";
   "AudioProcessingEvent"; "AutocompleteErrorEvent"; "BarProp"; "BatteryManager"; "BeforeUnloadEvent";
   "BiquadFilterNode"; "Blob"; "blur"; "btoa"; "Cache"; "caches"; "CacheStorage"; "cancelAnimationFrame";
   "CanvasGradient"; "CanvasPattern"; "CanvasRenderingContext2D"; "CDATASection"; "ChannelMergerNode";
   "ChannelSplitterNode"; "CharacterData"; "clearInterval"; "clearTimeout"; "clientInformation"; "ClientRect";
   "ClientRectList"; "ClipboardEvent"; "close"; "closed"; "CloseEvent"; "Comment"; "CompositionEvent"; "confirm";
   "console"; "ConvolverNode"; "Credential"; "CredentialsContainer"; "crypto"; "Crypto"; "CryptoKey"; "CSS";
   "CSSAnimation"; "CSSFontFaceRule"; "CSSImportRule"; "CSSKeyframeRule"; "CSSKeyframesRule"; "CSSMediaRule";
   "CSSPageRule"; "CSSRule"; "CSSRuleList"; "CSSStyleDeclaration"; "CSSStyleRule"; "CSSStyleSheet"; "CSSSupportsRule";
   "CSSTransition"; "CSSUnknownRule"; "CSSViewportRule"; "customElements"; "CustomEvent"; "DataTransfer";
   "DataTransferItem"; "DataTransferItemList"; "Debug"; "defaultStatus"; "defaultstatus"; "DelayNode";
   "DeviceMotionEvent"; "DeviceOrientationEvent"; "devicePixelRatio"; "dispatchEvent"; "document"; "Document";
   "DocumentFragment"; "DocumentTimeline"; "DocumentType"; "DOMError"; "DOMException"; "DOMImplementation";
   "DOMParser"; "DOMSettableTokenList"; "DOMStringList"; "DOMStringMap"; "DOMTokenList"; "DragEvent";
   "DynamicsCompressorNode"; "Element"; "ElementTimeControl"; "ErrorEvent"; "event"; "Event"; "EventSource";
   "EventTarget"; "external"; "FederatedCredential"; "fetch"; "File"; "FileError"; "FileList"; "FileReader"; "find";
   "focus"; "FocusEvent"; "FontFace"; "FormData"; "frameElement"; "frames"; "GainNode"; "Gamepad"; "GamepadButton";
   "GamepadEvent"; "getComputedStyle"; "getSelection"; "HashChangeEvent"; "Headers"; "history"; "History";
   "HTMLAllCollection"; "HTMLAnchorElement"].

Definition lib_browser_2 : list string :=
  ["HTMLAppletElement"; "HTMLAreaElement"; "HTMLAudioElement"; "HTMLBaseElement"; "HTMLBlockquoteElement";
   "HTMLBodyElement"; "HTMLBRElement"; "HTMLButtonElement"; "HTMLCanvasElement"; "HTMLCollection";
   "HTMLContentElement"; "HTMLDataListElement"; "HTMLDetailsElement"; "HTMLDialogElement"; "HTMLDirectoryElement";
   "HTMLDivElement"; "HTMLDListElement"; "HTMLDocument"; "HTMLElement"; "HTMLEmbedElement"; "HTMLFieldSetElement";
   "HTMLFontElement"; "HTMLFormControlsCollection"; "HTMLFormElement"; "HTMLFrameElement"; "HTMLFrameSetElement";
   "HTMLHeadElement"; "HTMLHeadingElement"; "HTMLHRElement"; "HTMLHtmlElement"; "HTMLIFrameElement";
   "HTMLImageElement"; "HTMLInputElement"; "HTMLIsIndexElement"; "HTMLKeygenElement"; "HTMLLabelElement";
   "HTMLLayerElement"; "HTMLLegendElement"; "HTMLLIElement"; "HTMLLinkElement"; "HTMLMapElement";
   "HTMLMarqueeElement"; "HTMLMediaElement"; "HTMLMenuElement"; "HTMLMetaElement"; "HTMLMeterElement";
   "HTMLModElement"; "HTMLObjectElement"; "HTMLOListElement"; "HTMLOptGroupElement"; "HTMLOptionElement";
   "HTMLOptionsCollection"; "HTMLOutputElement"; "HTMLParagraphElement"; "HTMLParamElement"; "HTMLPictureElement";
   "HTMLPreElement"; "HTMLProgressElement"; "HTMLQuoteElement"; "HTMLScriptElement"; "HTMLSelectElement";
   "HTMLShadowElement"; "HTMLSourceElement"; "HTMLSpanElement"; "HTMLStyleElement"; "HTMLTableCaptionElement";
   "HTMLTableCellElement"; "HTMLTableColElement"; "HTMLTableElement"; "HTMLTableRowElement";
   "HTMLTableSectionElement"; "HTMLTemplateElement"; "HTMLTextAreaElement"; "HTMLTitleElement"; "HTMLTrackElement";
   "HTMLUListElement"; "HTMLUnknownElement"; "HTMLVideoElement"; "IDBCursor"; "IDBCursorWithValue"; "IDBDatabase";
   "IDBEnvironment"; "IDBFactory"; "IDBIndex"; "IDBKeyRange"; "IDBObjectStore"; "IDBOpenDBRequest"; "IDBRequest";
   "IDBTransaction"; "IDBVersionChangeEvent"; "Image"; "ImageBitmap"; "ImageData"; "indexedDB"; "innerHeight";
   "innerWidth"; "InputEvent"; "InputMethodContext"; "IntersectionObserver"; "IntersectionObserverEntry"; "Intl";
   "KeyboardEvent"; "KeyframeEffect"; "KeyframeEffectReadOnly"; "length"; "localStorage"; "location"; "Location";
   "locationbar"; "matchMedia"; "MediaElementAudioSourceNode"; "MediaEncryptedEvent"; "MediaError"; "MediaKeyError";
   "MediaKeyEvent"; "MediaKeyMessageEvent"; "MediaKeys"; "MediaKeySession"; "MediaKeyStatusMap";
   "MediaKeySystemAccess"; "MediaList"; "MediaQueryList"; "MediaQueryListEvent"; "MediaSource"; "MediaStream";
   "MediaStreamAudioDestinationNode"; "MediaStreamAudioSourceNode"; "MediaStreamEvent"; "MediaStreamTrack"; "menubar";
   "MessageChannel"; "MessageEvent"; "MessagePort"; "MIDIAccess"; "MIDIConnectionEvent"; "MIDIInput"; "MIDIInputMap";
   "MIDIMessageEvent"; "MIDIOutput"; "MIDIOutputMap"].

Definition lib_browser_3 : list string :=
  ["MIDIPort"; "MimeType"; "MimeTypeArray"; "MouseEvent"; "moveBy"; "moveTo"; "MutationEvent"; "MutationObserver";
   "MutationRecord"; "name"; "NamedNodeMap"; "navigator"; "Navigator"; "Node"; "NodeFilter"; "NodeIterator";
   "NodeList"; "Notification"; "OfflineAudioCompletionEvent"; "OfflineAudioContext"; "offscreenBuffering";
   "onbeforeunload"; "onblur"; "onerror"; "onfocus"; "onload"; "onresize"; "onunload"; "open"; "openDatabase";
   "opener"; "opera"; "Option"; "OscillatorNode"; "outerHeight"; "outerWidth"; "PageTransitionEvent"; "pageXOffset";
   "pageYOffset"; "parent"; "PasswordCredential"; "Path2D"; "performance"; "Performance"; "PerformanceEntry";
   "PerformanceMark"; "PerformanceMeasure"; "PerformanceNavigation"; "PerformanceResourceTiming"; "PerformanceTiming";
   "PeriodicWave"; "Permissions"; "PermissionStatus"; "personalbar"; "Plugin"; "PluginArray"; "PopStateEvent";
   "postMessage"; "print"; "ProcessingInstruction"; "ProgressEvent"; "PromiseRejectionEvent"; "prompt"; "PushManager";
   "PushSubscription"; "RadioNodeList"; "Range"; "ReadableByteStream"; "ReadableStream"; "removeEventListener";
   "Request"; "requestAnimationFrame"; "requestIdleCallback"; "resizeBy"; "resizeTo"; "Response"; "RTCIceCandidate";
   "RTCSessionDescription"; "RTCPeerConnection"; "screen"; "Screen"; "screenLeft"; "ScreenOrientation"; "screenTop";
   "screenX"; "screenY"; "ScriptProcessorNode"; "scroll"; "scrollbars"; "scrollBy"; "scrollTo"; "scrollX"; "scrollY";
   "SecurityPolicyViolationEvent"; "Selection"; "self"; "ServiceWorker"; "ServiceWorkerContainer";
   "ServiceWorkerRegistration"; "sessionStorage"; "setInterval"; "setTimeout"; "ShadowRoot"; "SharedKeyframeList";
   "SharedWorker"; "showModalDialog"; "SiteBoundCredential"; "speechSynthesis"; "SpeechSynthesisEvent";
   "SpeechSynthesisUtterance"; "status"; "statusbar"; "stop"; "Storage"; "StorageEvent"; "styleMedia"; "StyleSheet";
   "StyleSheetList"; "SubtleCrypto"; "SVGAElement"; "SVGAltGlyphDefElement"; "SVGAltGlyphElement";
   "SVGAltGlyphItemElement"; "SVGAngle"; "SVGAnimateColorElement"; "SVGAnimatedAngle"; "SVGAnimatedBoolean";
   "SVGAnimatedEnumeration"; "SVGAnimatedInteger"; "SVGAnimatedLength"; "SVGAnimatedLengthList"; "SVGAnimatedNumber";
   "SVGAnimatedNumberList"; "SVGAnimatedPathData"; "SVGAnimatedPoints"; "SVGAnimatedPreserveAspectRatio";
   "SVGAnimatedRect"; "SVGAnimatedString"; "SVGAnimatedTransformList"; "SVGAnimateElement"].

Definition lib_browser_4 : list string :=
  ["SVGAnimateMotionElement"; "SVGAnimateTransformElement"; "SVGAnimationElement"; "SVGCircleElement";
   "SVGClipPathElement"; "SVGColor"; "SVGColorProfileElement"; "SVGColorProfileRule";
   "SVGComponentTransferFunctionElement"; "SVGCSSRule"; "SVGCursorElement"; "SVGDefsElement"; "SVGDescElement";
   "SVGDiscardElement"; "SVGDocument"; "SVGElement"; "SVGElementInstance"; "SVGElementInstanceList";
   "SVGEllipseElement"; "SVGEvent"; "SVGExternalResourcesRequired"; "SVGFEBlendElement"; "SVGFEColorMatrixElement";
   "SVGFEComponentTransferElement"; "SVGFECompositeElement"; "SVGFEConvolveMatrixElement";
   "SVGFEDiffuseLightingElement"; "SVGFEDisplacementMapElement"; "SVGFEDistantLightElement"; "SVGFEDropShadowElement";
   "SVGFEFloodElement"; "SVGFEFuncAElement"; "SVGFEFuncBElement"; "SVGFEFuncGElement"; "SVGFEFuncRElement";
   "SVGFEGaussianBlurElement"; "SVGFEImageElement"; "SVGFEMergeElement"; "SVGFEMergeNodeElement";
   "SVGFEMorphologyElement"; "SVGFEOffsetElement"; "SVGFEPointLightElement"; "SVGFESpecularLightingElement";
   "SVGFESpotLightElement"; "SVGFETileElement"; "SVGFETurbulenceElement"; "SVGFilterElement";
   "SVGFilterPrimitiveStandardAttributes"; "SVGFitToViewBox"; "SVGFontElement"; "SVGFontFaceElement";
   "SVGFontFaceFormatElement"; "SVGFontFaceNameElement"; "SVGFontFaceSrcElement"; "SVGFontFaceUriElement";
   "SVGForeignObjectElement"; "SVGGElement"; "SVGGeometryElement"; "SVGGlyphElement"; "SVGGlyphRefElement";
   "SVGGradientElement"; "SVGGraphicsElement"; "SVGHKernElement"; "SVGICCColor"; "SVGImageElement"; "SVGLangSpace";
   "SVGLength"; "SVGLengthList"; "SVGLinearGradientElement"; "SVGLineElement"; "SVGLocatable"; "SVGMarkerElement";
   "SVGMaskElement"; "SVGMatrix"; "SVGMetadataElement"; "SVGMissingGlyphElement"; "SVGMPathElement"; "SVGNumber";
   "SVGNumberList"; "SVGPaint"; "SVGPathElement"; "SVGPathSeg"; "SVGPathSegArcAbs"; "SVGPathSegArcRel";
   "SVGPathSegClosePath"; "SVGPathSegCurvetoCubicAbs"; "SVGPathSegCurvetoCubicRel"; "SVGPathSegCurvetoCubicSmoothAbs";
   "SVGPathSegCurvetoCubicSmoothRel"; "SVGPathSegCurvetoQuadraticAbs"; "SVGPathSegCurvetoQuadraticRel";
   "SVGPathSegCurvetoQuadraticSmoothAbs"; "SVGPathSegCurvetoQuadraticSmoothRel"; "SVGPathSegLinetoAbs";
   "SVGPathSegLinetoHorizontalAbs"; "SVGPathSegLinetoHorizontalRel"; "SVGPathSegLinetoRel";
   "SVGPathSegLinetoVerticalAbs"; "SVGPathSegLinetoVerticalRel"; "SVGPathSegList"; "SVGPathSegMovetoAbs";
   "SVGPathSegMovetoRel"; "SVGPatternElement"; "SVGPoint"; "SVGPointList"; "SVGPolygonElement"; "SVGPolylineElement";
   "SVGPreserveAspectRatio"; "SVGRadialGradientElement"; "SVGRect"; "SVGRectElement"; "SVGRenderingIntent";
   "SVGScriptElement"; "SVGSetElement"; "SVGStopElement"; "SVGStringList"; "SVGStylable"; "SVGStyleElement";
   "SVGSVGElement"; "SVGSwitchElement"; "SVGSymbolElement"; "SVGTests"; "SVGTextContentElement"; "SVGTextElement";
   "SVGTextPathElement"; "SVGTextPositioningElement"; "SVGTitleElement"; "SVGTransform"; "SVGTransformable";
   "SVGTransformList"; "SVGTRefElement"; "SVGTSpanElement"; "SVGUnitTypes"; "SVGURIReference"; "SVGUseElement";
   "SVGViewElement"; "SVGViewSpec"; "SVGVKernElement"; "SVGZoomAndPan"; "SVGZoomEvent"].

Definition lib_browser_5 : list string :=
  ["Text"; "TextDecoder"; "TextEncoder"; "TextEvent"; "TextMetrics"; "TextTrack"; "TextTrackCue"; "TextTrackCueList";
   "TextTrackList"; "TimeEvent"; "TimeRanges"; "toolbar"; "top"; "Touch"; "TouchEvent"; "TouchList"; "TrackEvent";
   "TransitionEvent"; "TreeWalker"; "UIEvent"; "URL"; "URLSearchParams"; "ValidityState"; "VTTCue"; "WaveShaperNode";
   "WebGLActiveInfo"; "WebGLBuffer"; "WebGLContextEvent"; "WebGLFramebuffer"; "WebGLProgram"; "WebGLRenderbuffer";
   "WebGLRenderingContext"; "WebGLShader"; "WebGLShaderPrecisionFormat"; "WebGLTexture"; "WebGLUniformLocation";
   "WebSocket"; "WheelEvent"; "window"; "Window"; "Worker"; "XDomainRequest"; "XMLDocument"; "XMLHttpRequest";
   "XMLHttpRequestEventTarget"; "XMLHttpRequestProgressEvent"; "XMLHttpRequestUpload"; "XMLSerializer";
   "XPathEvaluator"; "XPathException"; "XPathExpression"; "XPathNamespace"; "XPathNSResolver"; "XPathResult";
   "XSLTProcessor"].

Definition lib_browser : list string := lib_browser_1 ++ lib_browser_2 ++ lib_browser_3 ++ lib_browser_4 ++ lib_browser_5.

Definition lib_worker : list string :=
  ["applicationCache"; "atob"; "Blob"; "BroadcastChannel"; "btoa"; "Cache"; "caches"; "clearInterval"; "clearTimeout";
   "close"; "console"; "fetch"; "FileReaderSync"; "FormData"; "Headers"; "IDBCursor"; "IDBCursorWithValue";
   "IDBDatabase"; "IDBFactory"; "IDBIndex"; "IDBKeyRange"; "IDBObjectStore"; "IDBOpenDBRequest"; "IDBRequest";
   "IDBTransaction"; "IDBVersionChangeEvent"; "ImageData"; "importScripts"; "indexedDB"; "location"; "MessageChannel";
   "MessagePort"; "name"; "navigator"; "Notification"; "onclose"; "onconnect"; "onerror"; "onlanguagechange";
   "onmessage"; "onoffline"; "ononline"; "onrejectionhandled"; "onunhandledrejection"; "performance"; "Performance";
   "PerformanceEntry"; "PerformanceMark"; "PerformanceMeasure"; "PerformanceNavigation"; "PerformanceResourceTiming";
   "PerformanceTiming"; "postMessage"; "Promise"; "Request"; "Response"; "self"; "ServiceWorkerRegistration";
   "setInterval"; "setTimeout"; "TextDecoder"; "TextEncoder"; "URL"; "URLSearchParams"; "WebSocket"; "Worker";
   "XMLHttpRequest"].

Definition lib_node : list string :=
  ["__dirname"; "__filename"; "Buffer"; "clearImmediate"; "clearInterval"; "clearTimeout"; "console"; "exports";
   "global"; "module"; "process"; "require"; "setImmediate"; "setInterval"; "setTimeout"].

Definition lib_commonjs : list string :=
  ["exports"; "module"; "require"; "global"].

Definition lib_amd : list string :=
  ["define"; "require"].

Definition lib_mocha : list string :=
  ["after"; "afterEach"; "before"; "beforeEach"; "context"; "describe"; "it"; "mocha"; "run"; "setup"; "specify";
   "suite"; "suiteSetup"; "suiteTeardown"; "teardown"; "test"; "xcontext"; "xdescribe"; "xit"; "xspecify"].

Definition lib_jasmine : list string :=
  ["afterAll"; "afterEach"; "beforeAll"; "beforeEach"; "describe"; "expect"; "fail"; "fdescribe"; "fit"; "it";
   "jasmine"; "pending"; "runs"; "spyOn"; "waits"; "waitsFor"; "xdescribe"; "xit"].

Definition lib_jest : list string :=
  ["afterAll"; "afterEach"; "beforeAll"; "beforeEach"; "check"; "describe"; "expect"; "gen"; "it"; "fit"; "jest";
   "pit"; "require"; "test"; "xdescribe"; "xit"; "xtest"].

Definition lib_qunit : list string :=
  ["asyncTest"; "deepEqual"; "equal"; "expect"; "module"; "notDeepEqual"; "notEqual"; "notOk"; "notPropEqual";
   "notStrictEqual"; "ok"; "propEqual"; "QUnit"; "raises"; "start"; "stop"; "strictEqual"; "test"; "throws"].

Definition lib_phantomjs : list string :=
  ["console"; "exports"; "phantom"; "require"; "WebPage"].

Definition lib_couch : list string :=
  ["emit"; "exports"; "getRow"; "log"; "module"; "provides"; "require"; "respond"; "send"; "start"; "sum"].

Definition lib_rhino : list string :=
  ["defineClass"; "deserialize"; "gc"; "help"; "importClass"; "importPackage"; "java"; "load"; "loadClass";
   "Packages"; "print"; "quit"; "readFile"; "readUrl"; "runCommand"; "seal"; "serialize"; "spawn"; "sync"; "toint32";
   "version"].

Definition lib_nashorn : list string :=
  ["__DIR__"; "__FILE__"; "__LINE__"; "com"; "edu"; "exit"; "Java"; "java"; "javafx"; "JavaImporter"; "javax";
   "JSAdapter"; "load"; "loadWithNewGlobal"; "org"; "Packages"; "print"; "quit"].

Definition lib_wsh : list string :=
  ["ActiveXObject"; "Enumerator"; "GetObject"; "ScriptEngine"; "ScriptEngineBuildVersion"; "ScriptEngineMajorVersion";
   "ScriptEngineMinorVersion"; "VBArray"; "WScript"; "WSH"; "XDomainRequest"].

Definition lib_jquery : list string :=
  ["$"; "jQuery"].

Definition lib_yui : list string :=
  ["Y"; "YUI"; "YUI_config"].

Definition lib_shelljs : list string :=
  ["cat"; "cd"; "chmod"; "config"; "cp"; "dirs"; "echo"; "env"; "error"; "exec"; "exit"; "find"; "grep"; "ls"; "ln";
   "mkdir"; "mv"; "popd"; "pushd"; "pwd"; "rm"; "sed"; "set"; "target"; "tempdir"; "test"; "touch"; "which"].

Definition lib_prototypejs : list string :=
  ["$"; "$$"; "$A"; "$break"; "$continue"; "$F"; "$H"; "$R"; "$w"; "Abstract"; "Ajax"; "Autocompleter"; "Builder";
   "Class"; "Control"; "Draggable"; "Draggables"; "Droppables"; "Effect"; "Element"; "Enumerable"; "Event"; "Field";
   "Form"; "Hash"; "Insertion"; "ObjectRange"; "PeriodicalExecuter"; "Position"; "Prototype"; "Scriptaculous";
   "Selector"; "Sortable"; "SortableObserver"; "Sound"; "Template"; "Toggle"; "Try"].

Definition lib_meteor : list string :=
  ["$"; "_"; "Accounts"; "AccountsClient"; "AccountsServer"; "AccountsCommon"; "App"; "Assets"; "Blaze"; "check";
   "Cordova"; "DDP"; "DDPServer"; "DDPRateLimiter"; "Deps"; "EJSON"; "Email"; "HTTP"; "Log"; "Match"; "Meteor";
   "Mongo"; "MongoInternals"; "Npm"; "Package"; "Plugin"; "process"; "Random"; "ReactiveDict"; "ReactiveVar";
   "Router"; "ServiceConfiguration"; "Session"; "share"; "Spacebars"; "Template"; "Tinytest"; "Tracker"; "UI";
   "Utils"; "WebApp"; "WebAppInternals"].

Definition lib_mongo : list string :=
  ["_isWindows"; "_rand"; "BulkWriteResult"; "cat"; "cd"; "connect"; "db"; "getHostName"; "getMemInfo"; "hostname";
   "ISODate"; "listFiles"; "load"; "ls"; "md5sumFile"; "mkdir"; "Mongo"; "NumberInt"; "NumberLong"; "ObjectId";
   "PlanCache"; "print"; "printjson"; "pwd"; "quit"; "removeFile"; "rs"; "sh"; "UUID"; "version"; "WriteResult"].

Definition lib_applescript : list string :=
  ["$"; "Application"; "Automation"; "console"; "delay"; "Library"; "ObjC"; "ObjectSpecifier"; "Path"; "Progress";
   "Ref"].

Definition lib_serviceworker : list string :=
  ["caches"; "Cache"; "CacheStorage"; "Client"; "clients"; "Clients"; "ExtendableEvent"; "ExtendableMessageEvent";
   "FetchEvent"; "importScripts"; "registration"; "self"; "ServiceWorker"; "ServiceWorkerContainer";
   "ServiceWorkerGlobalScope"; "ServiceWorkerMessageEvent"; "ServiceWorkerRegistration"; "skipWaiting";
   "WindowClient"].

Definition lib_atomtest : list string :=
  ["advanceClock"; "fakeClearInterval"; "fakeClearTimeout"; "fakeSetInterval"; "fakeSetTimeout"; "resetTimeouts";
   "waitsForPromise"].

Definition lib_embertest : list string :=
  ["andThen"; "click"; "currentPath"; "currentRouteName"; "currentURL"; "fillIn"; "find"; "findWithAssert";
   "keyEvent"; "pauseTest"; "triggerEvent"; "visit"].

Definition lib_protractor : list string :=
  ["$"; "$$"; "browser"; "By"; "by"; "DartObject"; "element"; "protractor"].

Definition lib_shared_node_browser : list string :=
  ["clearInterval"; "clearTimeout"; "console"; "setInterval"; "setTimeout"].

Definition lib_webextensions : list string :=
  ["browser"; "chrome"; "opr"].

Definition lib_greasemonkey : list string :=
  ["GM_addStyle"; "GM_deleteValue"; "GM_getResourceText"; "GM_getResourceURL"; "GM_getValue"; "GM_info";
   "GM_listValues"; "GM_log"; "GM_openInTab"; "GM_registerMenuCommand"; "GM_setClipboard"; "GM_setValue";
   "GM_xmlhttpRequest"; "unsafeWindow"].

Definition lib_flow : list string :=
  ["boolean"; "number"; "string"; "null"; "void"; "mixed"; "any"; "empty"; "Array"; "Class"; "$Call"; "$TupleMap";
   "$ObjMap"; "$ElementType"; "$PropertyType"; "$Rest"; "$Diff"; "$Exact"; "$ReadOnly"; "$ReadOnlyArray"; "$Values";
   "$Keys"; "$SuperType"; "$Subtype"; "RegExp$flags"; "stream$Writable"; "stream$Readable"; "tty$WriteStream";
   "tty$ReadStream"].

(** The object, with its keys in order. *)
Definition globalsByLibraries : list (string * list string) :=
  [("builtin", lib_builtin);
   ("browser", lib_browser);
   ("worker", lib_worker);
   ("node", lib_node);
   ("commonjs", lib_commonjs);
   ("amd", lib_amd);
   ("mocha", lib_mocha);
   ("jasmine", lib_jasmine);
   ("jest", lib_jest);
   ("qunit", lib_qunit);
   ("phantomjs", lib_phantomjs);
   ("couch", lib_couch);
   ("rhino", lib_rhino);
   ("nashorn", lib_nashorn);
   ("wsh", lib_wsh);
   ("jquery", lib_jquery);
   ("yui", lib_yui);
   ("shelljs", lib_shelljs);
   ("prototypejs", lib_prototypejs);
   ("meteor", lib_meteor);
   ("mongo", lib_mongo);
   ("applescript", lib_applescript);
   ("serviceworker", lib_serviceworker);
   ("atomtest", lib_atomtest);
   ("embertest", lib_embertest);
   ("protractor", lib_protractor);
   ("shared-node-browser", lib_shared_node_browser);
   ("webextensions", lib_webextensions);
   ("greasemonkey", lib_greasemonkey);
   ("flow", lib_flow)].
