(* ===== verification/Names.v ===== *)
(** * Names: rules on the names that are declared and used

    The rules on names that are defined already (S2137, S2424, S2703, S3798), on their form
    (S100, S101, S117, S1527), on where variables are declared and used (S1526, S2392, S3827), on
    [arguments] (S3513), destructuring (S3514), arrow functions (S3524), constructors of
    built-in types (S1528, S1533) and bitwise operators (S1529). The tables of ESLint's
    scopes and the answers on tokens are parameters. *)

From Stdlib Require Import ZArith QArith Lia Ascii.
From stdpp Require Import base list sets strings.
From S2P Require Import Prelude JsString Estree Reports Ast Traversal Aws Calls Statements Variables Globals.

Open Scope js_scope.
Open Scope nat_scope.

Definition builtin : list string := default [] (map_get "builtin" globalsByLibraries).

(** ** S2137: names of built-ins in declarations and assignments *)

Definition illegalNames : list string := ["arguments"].
Definition objectPrototypeProperties : list string :=
  ["constructor"; "hasOwnProperty"; "isPrototypeOf"; "propertyIsEnumerable"; "toLocaleString"; "toString"; "valueOf"].
Definition deprecatedNames : list string := ["escape"; "unescape"].

(** [buildMessageAndData]: from a name to a message and its data. *)
Definition issue_builder : Type := string -> string * list (string * string).

Definition getDeclarationIssue (redeclareType : string) : issue_builder :=
  fun name => ("forbidDeclaration", [("symbol", name); ("type", redeclareType)]).

Definition getModificationIssue : issue_builder := fun functionName => ("removeModification", [("symbol", functionName)]).

Definition isIllegalName (name : string) : bool := includes name illegalNames.
Definition isBuiltInName (name : string) : bool := includes name builtin.
Definition isUndefinedShadowing (isWrite : bool) (name : string) : bool := isWrite && (name =s "undefined").
Definition isGlobalShadowing (name : string) (isWrite : bool) : bool :=
  isIllegalName name || isBuiltInName name || isUndefinedShadowing isWrite name.
Definition isObjectPrototypeProperty (name : string) : bool := includes name objectPrototypeProperties.
Definition isDeprecatedName (name : string) : bool := includes name deprecatedNames.
Definition isShadowingException (name : string) : bool := isObjectPrototypeProperty name || isDeprecatedName name.

Definition issue_at (n : node) (buildMessageAndData : issue_builder) (isWrite : bool) : list ReportDescriptor :=
  if isGlobalShadowing (node_name n) isWrite && negb (isShadowingException (node_name n))
  then [let '(message, data) := buildMessageAndData (node_name n) in report_data message n data] else [].

(** The recursion goes down the pattern. *)
Fixpoint reportGlobalShadowing_fuel (fuel : nat) (n : node) (buildMessageAndData : issue_builder) (isWrite : bool)
    : list ReportDescriptor :=
  match fuel with
  | O => []
  | S fuel' =>
      let inside o := match o with Some c => reportGlobalShadowing_fuel fuel' c buildMessageAndData true | None => [] end in
      if type_of n =s "Identifier" then issue_at n buildMessageAndData isWrite
      else if type_of n =s "RestElement" then inside (get_node n "argument")
      else if type_of n =s "ObjectPattern" then
        flat_map (fun prop => inside (get_node prop (if type_of prop =s "Property" then "value" else "argument")))
          (get_nodes n "properties")
      else if type_of n =s "ArrayPattern" then flat_map (fun elem => inside (Some elem)) (get_nodes n "elements")
      else if type_of n =s "AssignmentPattern" then inside (get_node n "left")
      else []
  end.

Definition reportGlobalShadowing (n : option node) (buildMessageAndData : issue_builder) (isWrite : bool) : list ReportDescriptor :=
  match n with
  | Some n => reportGlobalShadowing_fuel (node_size n) n buildMessageAndData isWrite
  | None => []
  end.

Definition reportBadUsageOnFunction (func : node) (id : option node) : list ReportDescriptor :=
  reportGlobalShadowing id (getDeclarationIssue "function") true
  ++ flat_map (fun p => reportGlobalShadowing (Some p) (getDeclarationIssue "parameter") false) (get_nodes func "params").

(** [decl.init != null] *)
Definition S2137 (n : node) : list ReportDescriptor :=
  if includes (type_of n) ["FunctionDeclaration"; "FunctionExpression"] then reportBadUsageOnFunction n (get_node n "id")
  else if type_of n =s "ArrowFunctionExpression" then reportBadUsageOnFunction n None
  else if type_of n =s "VariableDeclaration" then
    flat_map (fun decl => reportGlobalShadowing (get_node decl "id") (getDeclarationIssue "variable")
                            (bool_decide (is_Some (get_node decl "init")))) (get_nodes n "declarations")
  else if type_of n =s "UpdateExpression" then reportGlobalShadowing (get_node n "argument") getModificationIssue true
  else if type_of n =s "AssignmentExpression" then reportGlobalShadowing (get_node n "left") getModificationIssue true
  else if type_of n =s "CatchClause" then reportGlobalShadowing (get_node n "param") (getDeclarationIssue "variable") true
  else [].

(** *** What S2137 reports: the identifiers that a pattern binds *)

Inductive binds : node -> node -> Prop :=
| binds_here n : type_of n = "Identifier" -> binds n n
| binds_inside n k c id : (k = "argument" /\ type_of n = "RestElement") \/ (k = "left" /\ type_of n = "AssignmentPattern") ->
    get_node n k = Some c -> binds c id -> binds n id
| binds_property n prop k c id : type_of n = "ObjectPattern" -> prop ∈ get_nodes n "properties" ->
    k = (if type_of prop =s "Property" then "value" else "argument") -> get_node prop k = Some c -> binds c id -> binds n id
| binds_element n c id : type_of n = "ArrayPattern" -> c ∈ get_nodes n "elements" -> binds c id -> binds n id.

Lemma get_nodes_size n k c : c ∈ get_nodes n k -> node_size c < node_size n.
Proof.
  unfold get_nodes, get_array. rewrite list_elem_of_omap. intros (v & Hv & E). pose proof (get_size n k) as S.
  destruct (get n k) eqn:G; try by apply not_elem_of_nil in Hv. apply value_size_arr in Hv.
  destruct v; try done. injection E as ->. cbn in *. lia.
Qed.

(** An identifier is reported when it is bound and its name is one of the names that are
    not allowed; [undefined] is one where it is given a value. *)
Lemma shadowing_reported build fuel : forall n w d, node_size n <= fuel ->
  d ∈ reportGlobalShadowing_fuel fuel n build w <->
  exists id, binds n id /\ d ∈ issue_at id build (w || negb (type_of n =s "Identifier")).
Proof.
  induction fuel as [|fuel IH]; intros n w d F; [pose proof (node_size_pos n); lia |]. cbn [reportGlobalShadowing_fuel].
  assert (forall c w', node_size c < node_size n -> d ∈ reportGlobalShadowing_fuel fuel c build true <->
            exists id, binds c id /\ d ∈ issue_at id build (w' || true)) as In.
  { intros c w' Hc. rewrite IH by lia. rewrite orb_true_r. cbn [orb]. done. }
  destruct (String.eqb_spec (type_of n) "Identifier") as [T|T].
  { rewrite orb_false_r. split; [intros H; exists n; split; [by constructor | done] |].
    intros (id & B & H). inversion B; subst; try congruence. naive_solver congruence. }
  cbn [negb]. destruct (String.eqb_spec (type_of n) "RestElement") as [T1|T1].
  { split.
    - destruct (get_node n "argument") as [c|] eqn:G; [| by intros ?%not_elem_of_nil].
      intros (id & B & H)%(In c w); [| by eapply get_node_size]. exists id. split; [| done]. by apply (binds_inside n "argument" c); [left | |].
    - intros (id & B & H). inversion B as [|? k c ? [[-> _]|[-> ?]] G Bc| |]; subst; try congruence.
      rewrite G. apply (In c w); [by eapply get_node_size | by exists id]. }
  destruct (String.eqb_spec (type_of n) "ObjectPattern") as [T2|T2].
  { rewrite list_elem_of_In, in_flat_map. split.
    - intros (prop & Hp & H). apply list_elem_of_In in Hp, H. destruct (get_node prop _) as [c|] eqn:G; [| by apply not_elem_of_nil in H].
      apply (In c w) in H as (id & B & H); [| apply get_nodes_size in Hp; apply get_node_size in G; lia].
      exists id. split; [| done]. by eapply binds_property.
    - intros (id & B & H). inversion B as [|? k c ? [[-> ?]|[-> ?]] G Bc|? prop k c ? _ Hp -> G Bc|]; subst; try congruence.
      exists prop. split; [by apply list_elem_of_In |]. apply list_elem_of_In. rewrite G.
      apply (In c w); [apply get_nodes_size in Hp; apply get_node_size in G; lia | by exists id]. }
  destruct (String.eqb_spec (type_of n) "ArrayPattern") as [T3|T3].
  { rewrite list_elem_of_In, in_flat_map. split.
    - intros (c & Hc & H). apply list_elem_of_In in Hc, H. apply (In c w) in H as (id & B & H); [| by eapply get_nodes_size].
      exists id. split; [| done]. by eapply binds_element.
    - intros (id & B & H). inversion B as [|? k c ? [[-> ?]|[-> ?]] G Bc| |? c ? _ Hc Bc]; subst; try congruence.
      exists c. split; [by apply list_elem_of_In |]. apply list_elem_of_In. apply (In c w); [by eapply get_nodes_size | by exists id]. }
  destruct (String.eqb_spec (type_of n) "AssignmentPattern") as [T4|T4].
  { split.
    - destruct (get_node n "left") as [c|] eqn:G; [| by intros ?%not_elem_of_nil].
      intros (id & B & H)%(In c w); [| by eapply get_node_size]. exists id. split; [| done]. by apply (binds_inside n "left" c); [right | |].
    - intros (id & B & H). inversion B as [|? k c ? [[-> ?]|[-> _]] G Bc| |]; subst; try congruence.
      rewrite G. apply (In c w); [by eapply get_node_size | by exists id]. }
  split; [by intros ?%not_elem_of_nil |]. intros (id & B & H). inversion B as [|? k c ? [[-> ?]|[-> ?]] G Bc| |]; subst; congruence.
Qed.

(** ** Scopes from the global one *)

Section Scopes.

Context (sm : ScopeManager) (parents : node -> list node).
(** [scope.type], [scope.through] and [getDeclaredVariables]. *)
Context (scope_type : ScopeId -> string) (through : ScopeId -> list RefId) (getDeclaredVariables : node -> list VarId).

Definition variables_of (scope : ScopeId) : list Variable_ :=
  match scope_at sm scope with Some s => omap (variable_at sm) (sco_variables s) | None => [] end.

Definition childScopes (scope : ScopeId) : list ScopeId :=
  List.filter (fun i => match scope_at sm i with
                        | Some child => bool_decide (sco_upper child = Some scope)
                        | None => false
                        end) (seq 0 (length (sm_scopes sm))).

(** The recursion of the rules on child scopes; a chain of scopes is not longer than the
    table. *)
Fixpoint scopes_from (fuel : nat) (scope : ScopeId) : list ScopeId :=
  match fuel with
  | O => []
  | S fuel' => scope :: flat_map (scopes_from fuel') (childScopes scope)
  end.

Definition all_scopes (scope : ScopeId) : list ScopeId := scopes_from (length (sm_scopes sm)) scope.

Definition references_of (variable : Variable_) : list Reference := omap (reference_at sm) (var_references variable).

(** ** S2424: built-ins that are overridden *)

Definition isBuiltIn (variable : Variable_) : bool := includes (var_name variable) builtin.

(** The set of identifiers is a list without repetition, by identity ([add_node]). *)
Definition overriding_nodes (variable : Variable_) : list node :=
  map def_name (var_defs variable) ++ map ref_identifier (List.filter ref_isWrite (references_of variable)).

Definition S2424_checkVariable (overriden : list node) (variable : Variable_) : list node :=
  if isBuiltIn variable then fold_left add_node (overriding_nodes variable) overriden else overriden.

Definition S2424_checkScope (overriden : list node) (scope : ScopeId) : list node :=
  fold_left S2424_checkVariable (variables_of scope) overriden.

Definition isTSEnumMemberId (n : node) : bool := match parents n with p :: _ => type_of p =s "TSEnumMember" | [] => false end.

Definition overridden_in (scope : ScopeId) : list node := fold_left S2424_checkScope (all_scopes scope) [].

Definition S2424 (program : node) : list ReportDescriptor :=
  match sm_getScope sm program with
  | Some scope =>
      map (fun n => report_data "removeOverride" n [("overridden", node_name n)])
        (List.filter (fun n => negb (isTSEnumMemberId n)) (overridden_in scope))
  | None => []
  end.

(** The identifiers that give a built-in another value, in the scopes from one. *)
Definition overrides (scope : ScopeId) (n : node) : Prop :=
  exists s v, s ∈ all_scopes scope /\ v ∈ variables_of s /\ isBuiltIn v = true /\ n ∈ overriding_nodes v.

Lemma same_node_eq a b : same_node a b = true <-> h_id (hdr a) = h_id (hdr b).
Proof. apply Nat.eqb_eq. Qed.

Lemma add_nodes l : forall acc n, (exists m, m ∈ fold_left add_node l acc /\ same_node n m = true) <->
  (exists m, m ∈ acc ++ l /\ same_node n m = true).
Proof.
  induction l as [|x l IH]; intros acc n; cbn [fold_left]; [by rewrite app_nil_r |]. rewrite IH. unfold add_node, has_node.
  destruct (existsb (same_node x) acc) eqn:E; [| by rewrite <- app_assoc].
  apply existsb_exists in E as (y & Hy & E). apply list_elem_of_In in Hy.
  split; intros (m & Hm & Em).
  - exists m. split; [| done]. apply elem_of_app in Hm as [?|?]; apply elem_of_app; [by left | right; by right].
  - apply elem_of_app in Hm as [Hm|[->|Hm]%elem_of_cons]; [exists m | exists y | exists m]; (split; [apply elem_of_app; auto |]); try done.
    rewrite same_node_eq in *. congruence.
Qed.

Lemma add_nodes_in l : forall acc n, n ∈ fold_left add_node l acc -> n ∈ acc \/ n ∈ l.
Proof.
  induction l as [|x l IH]; intros acc n; cbn [fold_left]; [by left |]. intros [H|H]%IH; [| right; by right].
  unfold add_node, has_node in H. destruct (existsb _ acc); [by left |]. apply elem_of_app in H as [H|H]; [by left |]. apply list_elem_of_singleton in H as ->. right. by left.
Qed.

Lemma add_nodes_unique l : forall acc, NoDup (map (fun n => h_id (hdr n)) acc) -> NoDup (map (fun n => h_id (hdr n)) (fold_left add_node l acc)).
Proof.
  induction l as [|x l IH]; intros acc H; cbn [fold_left]; [done |]. apply IH. unfold add_node, has_node.
  destruct (existsb (same_node x) acc) eqn:E; [done |]. rewrite map_app. apply NoDup_app. split; [done |]. split; [| apply NoDup_singleton].
  intros i Hi. cbn. intros ->%list_elem_of_singleton. apply list_elem_of_fmap in Hi as (y & Ey & Hy).
  assert (existsb (same_node x) acc = true); [| congruence]. apply existsb_exists. exists y.
  split; [by apply list_elem_of_In | by apply same_node_eq].
Qed.

(** All the identifiers that the rule adds, one after the other. *)
Definition added (scope : ScopeId) : list node :=
  flat_map (fun s => flat_map (fun v => if isBuiltIn v then overriding_nodes v else []) (variables_of s)) (all_scopes scope).

Lemma fold_left_flat_map {A B} (f : list B -> A -> list B) (g : A -> list B) (step : list B -> B -> list B) l :
  (forall acc x, f acc x = fold_left step (g x) acc) -> forall acc, fold_left f l acc = fold_left step (flat_map g l) acc.
Proof.
  intros H. induction l as [|x l IH]; intros acc; cbn [fold_left flat_map]; [done |]. by rewrite fold_left_app, <- H, IH.
Qed.

Lemma overridden_added scope : overridden_in scope = fold_left add_node (added scope) [].
Proof.
  unfold overridden_in, added. apply fold_left_flat_map. intros acc s. unfold S2424_checkScope. apply fold_left_flat_map.
  intros acc' v. unfold S2424_checkVariable. by destruct (isBuiltIn v).
Qed.

Lemma elem_of_added scope n : n ∈ added scope <-> overrides scope n.
Proof.
  unfold added, overrides. rewrite elem_of_flat_map. setoid_rewrite elem_of_flat_map. split.
  - intros (s & Hs & v & Hv & Hn). destruct (isBuiltIn v) eqn:B; [| by apply not_elem_of_nil in Hn]. by exists s, v.
  - intros (s & v & Hs & Hv & B & Hn). exists s. split; [done |]. exists v. split; [done |]. by rewrite B.
Qed.

(** S2424 finds exactly the identifiers that override a built-in, each of them once. *)
Theorem overridden_once scope :
  (forall n, (exists m, m ∈ overridden_in scope /\ same_node n m = true) <-> exists m, overrides scope m /\ same_node n m = true) /\
  (forall n, n ∈ overridden_in scope -> overrides scope n) /\
  NoDup (map (fun n => h_id (hdr n)) (overridden_in scope)).
Proof.
  rewrite overridden_added. split_and!.
  - intros n. rewrite add_nodes. cbn [app]. by setoid_rewrite elem_of_added.
  - intros n H. apply add_nodes_in in H as [?%not_elem_of_nil|H]; [done | by apply elem_of_added].
  - apply add_nodes_unique, NoDup_nil_2.
Qed.

(** ** S2703: variables that are not declared *)

Definition excludedNames : list string := flat_map snd globalsByLibraries.

Definition S2703 (program : node) : list ReportDescriptor :=
  match sm_getScope sm program with
  | Some globalScope =>
      snd (fold_left (fun '(alreadyReported, reports) ref =>
             let name := node_name (ref_identifier ref) in
             if negb (set_has name alreadyReported) && negb (includes name excludedNames)
             then (set_add name alreadyReported, reports ++ [report_data "explicitModifier" (ref_identifier ref) [("variable", name)]])
             else (alreadyReported, reports))
           (List.filter ref_isWrite (omap (reference_at sm) (through globalScope))) ([], []))
  | None => []
  end.

(** ** S3798: global declarations *)

Definition findModuleScope : option ScopeId :=
  List.find (fun i => scope_type i =s "module") (seq 0 (length (sm_scopes sm))).

Definition S3798_isRequire (n : option node) : bool :=
  match n with
  | Some n => (type_of n =s "CallExpression") && Nat.eqb (argument_count n) 1 && isIdentifier (get_node n "callee") ["require"]
  | None => false
  end.

Definition is_global_definition (def : Def) : bool :=
  (def_type def =s "FunctionName")
  || ((def_type def =s "Variable")
      && match def_parent def with Some p => str_prop_is p "kind" "var" | None => false end
      && negb (S3798_isRequire (get_node (def_node def) "init"))).

Definition S3798 (program : node) : list ReportDescriptor :=
  match findModuleScope, sm_getScope sm program with
  | Some moduleScope, Some scope =>
      flat_map (fun variable =>
          if existsb (fun global => var_name global =s var_name variable) (variables_of scope) then []
          else match List.find is_global_definition (var_defs variable) with
               | Some def => [report "defineLocally" (def_node def)]
               | None => []
               end) (variables_of moduleScope)
  | _, _ => []
  end.

(** ** S1527: reserved words as names *)

Definition futureReservedWords : list string :=
  ["implements"; "interface"; "package"; "private"; "protected"; "public"; "enum"; "class"; "const"; "export"; "extends"; "import";
   "super"; "let"; "static"; "yield"; "await"].

Definition S1527_checkVariable (variable : Variable_) : list ReportDescriptor :=
  match var_defs variable with
  | def :: _ => [report_data "renameReserved" (def_name def) [("reserved", var_name variable)]]
  | [] => []
  end.

Definition S1527 (program : node) : list ReportDescriptor :=
  match sm_getScope sm program with
  | Some scope =>
      flat_map (fun s => flat_map S1527_checkVariable
                           (List.filter (fun v => includes (var_name v) futureReservedWords) (variables_of s))) (all_scopes scope)
  | None => []
  end.

(** ** S3513: uses of [arguments] *)

Definition isFollowedByLengthProperty (reference : Reference) : bool :=
  match ref_parents reference with
  | parent :: _ => (type_of parent =s "MemberExpression") && identifier_named (get_node parent "property") "length"
  | [] => false
  end.

Definition S3513_MESSAGE : string := "Use the rest syntax to declare this function's arguments.".
Definition S3513_SECONDARY : string := ("Replace this reference to " +:+ quoted "arguments" +:+ ".")%string.

Definition checkArgumentsVariableWithoutDefinition (variable : Variable_) : list ReportDescriptor :=
  match var_defs variable, List.filter (fun ref => negb (isFollowedByLengthProperty ref)) (references_of variable) with
  | [], firstReference :: others =>
      [report_with S3513_MESSAGE (ref_identifier firstReference)
         (map (fun ref => secondary_with (ref_identifier ref) S3513_SECONDARY) others)]
  | _, _ => []
  end.

Definition checkArgumentsUsageInScopeRecursively (scope : ScopeId) : list ReportDescriptor :=
  flat_map (fun s => flat_map checkArgumentsVariableWithoutDefinition
                       (List.filter (fun v => var_name v =s "arguments") (variables_of s))) (all_scopes scope).

Definition S3513 (program : node) : list ReportDescriptor :=
  match sm_getScope sm program with
  | Some scope => flat_map checkArgumentsUsageInScopeRecursively (childScopes scope)
  | None => []
  end.

(** ** S1526: variables used before their declaration *)

Definition comesBefore (n other : node) : eval bool :=
  let! a := of_option TypeError (h_loc (hdr n)) in
  let! b := of_option TypeError (h_loc (hdr other)) in
  Ok ((line (start a) <? line (start b))%Z
      || ((line (start a) =? line (start b))%Z && (column (start a) <? column (start b))%Z)).

(** The references that are misused. *)
Fixpoint misused_references (declaration : node) (references : list Reference) : eval (list node) :=
  match references with
  | [] => Ok []
  | reference :: rest =>
      let! before := if ref_init reference then Ok false else comesBefore (ref_identifier reference) declaration in
      let! others := misused_references declaration rest in
      Ok (if before then ref_identifier reference :: others else others)
  end.

Definition S1526_message (name : string) : string := ("Move the declaration of " +:+ quoted name +:+ " before this usage.")%string.

(** [variable.identifiers\[0\]] is the name of the first definition; a variable declared in
    a declaration has one. *)
Definition S1526_checkVariable (variable : Variable_) : eval (list ReportDescriptor) :=
  match var_defs variable with
  | def :: _ =>
      let! misused := misused_references (def_name def) (references_of variable) in
      Ok (match misused with
          | m :: _ => [report_with (S1526_message (node_name (def_name def))) m [secondary_with (def_name def) "Declaration"]]
          | [] => []
          end)
  | [] => Ok []
  end.

Definition S1526 (n : node) : eval (list ReportDescriptor) :=
  if (type_of n =s "VariableDeclaration") && str_prop_is n "kind" "var"
  then all_reports (map S1526_checkVariable (omap (variable_at sm) (getDeclaredVariables n)))
  else Ok [].

(** ** S3827: names that do not exist *)

Context (isInsideVueSetupScript : node -> bool).

Definition vueMacroNames : list string :=
  ["defineProps"; "defineEmits"; "defineExpose"; "defineOptions"; "defineSlots"; "withDefaults"].

Definition isWithinWithStatement (ref_parents : list node) : bool :=
  bool_decide (is_Some (findFirstMatchingAncestor ref_parents (fun ancestor => type_of ancestor =s "WithStatement"))).

Definition hasTypeOfOperator (ref_parents : list node) : bool :=
  match ref_parents with
  | parent :: _ => (type_of parent =s "UnaryExpression") && str_prop_is parent "operator" "typeof"
  | [] => false
  end.

(** [excludedNames] and [undeclaredIdentifiersByName]. *)
Record undeclared_state := mkUndeclared { excluded_names : list string; undeclaredIdentifiersByName : list (string * list node) }.

(** A reference after which its name is not looked at any more. *)
Definition excludes_name (ref : Reference) : bool :=
  bool_decide (is_Some (ref_writeExpr ref)) || hasTypeOfOperator (ref_parents ref) || isWithinWithStatement (ref_parents ref).

Definition is_vue_macro (identifier : node) : bool := includes (node_name identifier) vueMacroNames && isInsideVueSetupScript identifier.

Definition on_undeclared (st : undeclared_state) (ref : Reference) : undeclared_state :=
  let identifier := ref_identifier ref in
  let name := node_name identifier in
  if set_has name (excluded_names st) then st
  else if excludes_name ref then mkUndeclared (set_add name (excluded_names st)) (undeclaredIdentifiersByName st)
  else if is_vue_macro identifier then st
  else mkUndeclared (excluded_names st)
         (map_set name (default [] (map_get name (undeclaredIdentifiersByName st)) ++ [identifier]) (undeclaredIdentifiersByName st)).

Definition undeclared_message (name : string) : string :=
  (quoted name +:+ " does not exist. Change its name or declare it so that its usage doesn't result in a "
   +:+ quoted "ReferenceError" +:+ ".")%string.

Definition undeclared (refs : list Reference) : list (string * list node) :=
  undeclaredIdentifiersByName (fold_left on_undeclared refs (mkUndeclared [] [])).

Definition S3827 (program : node) : list ReportDescriptor :=
  match sm_getScope sm program with
  | Some globalScope =>
      flat_map (fun '(name, identifiers) =>
          match identifiers with
          | first :: others => [report_with (undeclared_message name) first (map secondary others)]
          | [] => []
          end) (undeclared (omap (reference_at sm) (through globalScope)))
  | None => []
  end.

Definition named_ref (name : string) (ref : Reference) : bool := node_name (ref_identifier ref) =s name.

(** Whether a name has a reference that counts before the first one that excludes it. *)
Fixpoint counted (name : string) (refs : list Reference) : list node :=
  match refs with
  | [] => []
  | ref :: rest =>
      if named_ref name ref then
        if excludes_name ref then []
        else if is_vue_macro (ref_identifier ref) then counted name rest
        else ref_identifier ref :: counted name rest
      else counted name rest
  end.

Lemma undeclared_after refs : forall st name,
  default [] (map_get name (undeclaredIdentifiersByName (fold_left on_undeclared refs st))) =
  default [] (map_get name (undeclaredIdentifiersByName st)) ++ (if set_has name (excluded_names st) then [] else counted name refs).
Proof.
  induction refs as [|ref refs IH]; intros st name; cbn [fold_left counted]; [destruct (set_has _ _); by rewrite app_nil_r |].
  rewrite IH. unfold on_undeclared, named_ref. set (n := node_name (ref_identifier ref)).
  destruct (set_has n (excluded_names st)) eqn:E.
  { destruct (String.eqb_spec n name) as [<-|]; [by rewrite E | done]. }
  destruct (excludes_name ref) eqn:X; cbn [undeclaredIdentifiersByName excluded_names].
  { destruct (String.eqb_spec n name) as [<-|Ne].
    - assert (set_has n (set_add n (excluded_names st)) = true) as -> by (apply set_has_spec, elem_of_set_add; by left). by rewrite E.
    - f_equal. destruct (set_has name (excluded_names st)) eqn:E'.
      + apply set_has_spec in E'. assert (set_has name (set_add n (excluded_names st)) = true) as -> by (apply set_has_spec, elem_of_set_add; by right). done.
      + apply set_has_false in E'. assert (set_has name (set_add n (excluded_names st)) = false) as ->; [| done].
        apply set_has_false. intros [?|?]%elem_of_set_add; congruence. }
  destruct (is_vue_macro (ref_identifier ref)) eqn:M.
  { destruct (String.eqb_spec n name) as [<-|]; [by rewrite E | done]. }
  cbn [undeclaredIdentifiersByName excluded_names]. destruct (String.eqb_spec n name) as [<-|Ne].
  - rewrite map_get_set_eq, E. cbn [default from_option id]. by rewrite <- app_assoc.
  - by rewrite map_get_set_ne.
Qed.

(** The identifiers of S3827 under a name are those before the first reference that
    excludes it: an exclusion has no effect on the references before. *)
Theorem undeclared_identifiers refs name : default [] (map_get name (undeclared refs)) = counted name refs.
Proof. unfold undeclared. by rewrite undeclared_after. Qed.

End Scopes.

(** ** S2392: declarations that are far from the uses *)

Section Ranges.

Context (sm : ScopeManager) (getDeclaredVariables : node -> list VarId).

Definition opens_range (n : node) : bool :=
  includes (type_of n) ["BlockStatement"; "ForStatement"; "ForInStatement"; "ForOfStatement"; "SwitchStatement"].

(** [scopeRanges], whose head is its end, [reported] and the reports. *)
Record range_state := mkRanges {
  scopeRanges : list (Z * Z);
  reported_names : list node;
  range_reports : list ReportDescriptor
}.

Definition isOutsideOfScope (scopeRange : Z * Z) (reference : node) : eval bool :=
  let! idRange := range_of reference in
  Ok ((idRange.1 <? scopeRange.1)%Z || (scopeRange.2 <? idRange.2)%Z).

Fixpoint references_outside (scopeRange : Z * Z) (identifiers : list node) : eval (list node) :=
  match identifiers with
  | [] => Ok []
  | i :: rest =>
      let! outside := isOutsideOfScope scopeRange i in
      let! others := references_outside scopeRange rest in
      Ok (if outside then i :: others else others)
  end.

Definition S2392_message (name : string) : string :=
  ("Consider moving declaration of '" +:+ name +:+ "' as it is referenced outside current binding context.")%string.

Definition check_declared (varDeclaration : node) (scopeRange : Z * Z) (st : range_state) (variable : Variable_) : eval range_state :=
  let! referencesOutside := references_outside scopeRange (map ref_identifier (references_of sm variable)) in
  match referencesOutside with
  | [] => Ok st
  | _ =>
      match List.find (fun def => existsb (same_node (def_node def)) (get_nodes varDeclaration "declarations")) (var_defs variable) with
      | Some definition =>
          if existsb (same_node (def_name definition)) (reported_names st) then Ok st
          else Ok (mkRanges (scopeRanges st) (reported_names st ++ map def_name (var_defs variable))
                     (range_reports st ++ [report_with (S2392_message (var_name variable)) (def_name definition)
                                             (map (fun n => secondary_with n "Outside reference.") referencesOutside)]))
      | None => Ok st
      end
  end.

Definition S2392_step (e : event) (st : range_state) : eval range_state :=
  match e with
  | Enter n _ =>
      if type_of n =s "Program" then let! range := range_of n in Ok (mkRanges [range] [] (range_reports st))
      else if opens_range n then let! range := range_of n in Ok (mkRanges (range :: scopeRanges st) (reported_names st) (range_reports st))
      else if (type_of n =s "VariableDeclaration") && str_prop_is n "kind" "var" then
        let! scopeRange := of_option TypeError (head (scopeRanges st)) in
        rfold (check_declared n scopeRange) (omap (variable_at sm) (getDeclaredVariables n)) st
      else Ok st
  | Leave n _ => Ok (if opens_range n then mkRanges (tail (scopeRanges st)) (reported_names st) (range_reports st) else st)
  end.

Definition S2392 (keys : VisitorKeys) (program : node) : eval range_state := run S2392_step (events keys [] program) (mkRanges [] [] []).

(** What is reported is remembered. *)
Definition reports_remembered (st : range_state) : Prop :=
  forall d, d ∈ range_reports st -> exists n, reported_node d = Some n /\ has_node n (reported_names st) = true.

(** No two reports are on the same identifier. *)
Definition reported_once (st : range_state) : Prop := NoDup (map (fun d => (fun n => h_id (hdr n)) <$> reported_node d) (range_reports st)).

Lemma has_node_app n l k : has_node n (l ++ k) = has_node n l || has_node n k.
Proof. apply existsb_app. Qed.

(** The declarations of a tree: an identifier is reported once in all. *)
Lemma check_declared_once varDeclaration scopeRange variable st st' :
  check_declared varDeclaration scopeRange st variable = Ok st' ->
  reports_remembered st /\ reported_once st -> reports_remembered st' /\ reported_once st'.
Proof.
  unfold check_declared. intros H [R O]. apply rbind_ok in H as (out & _ & H). destruct out as [|o out]; [by injection H as <- |].
  destruct (List.find _ _) as [d|] eqn:F; [| by injection H as <-]. fold (has_node (def_name d) (reported_names st)) in H.
  destruct (has_node (def_name d) (reported_names st)) eqn:E; injection H as <-; [done |]. apply find_some in F as [Hd _]. split.
  - intros r [Hr|Hr]%elem_of_app; cbn [reported_names].
    + destruct (R r Hr) as (n & Hn & Hm). exists n. by rewrite has_node_app, Hm.
    + apply list_elem_of_singleton in Hr as ->. exists (def_name d). split; [done |]. rewrite has_node_app.
      apply orb_true_iff. right. apply existsb_exists. exists (def_name d). split; [by apply in_map | apply Nat.eqb_refl].
  - unfold reported_once. cbn [range_reports]. rewrite map_app. apply NoDup_app. split; [done |]. split; [| apply NoDup_singleton].
    intros i Hi. cbn. intros ->%list_elem_of_singleton. apply list_elem_of_fmap in Hi as (r & Er & Hr).
    destruct (R r Hr) as (n & Hn & Hm). rewrite Hn in Er. injection Er as Er. apply existsb_exists in Hm as (m & Hm & Em).
    assert (has_node (def_name d) (reported_names st) = true); [| congruence]. apply existsb_exists. exists m. split; [done |].
    rewrite same_node_eq in *. cbn in *. congruence.
Qed.

End Ranges.

(** ** S100: the names of functions *)

Section Forms.

(** [name.match(format)] on the options of the rule, and what ESLint knows of the nodes. *)
Context (matches : string -> string -> bool) (option_format : option string) (parents : node -> list node).

(** [FunctionKnowledge] *)
Record FunctionKnowledge := mkKnowledge { fk_node : node; fk_func : node; returnsJSX : bool }.

Definition S100_DEFAULT_FORMAT : string := "^[_a-z][a-zA-Z0-9]*$".
Definition S100_format : string := default S100_DEFAULT_FORMAT option_format.

Definition is_jsx (n : option node) : bool := match n with Some n => startsWith "JSX" (type_of n) | None => false end.

(** [returnsJSX(node)] *)
Definition body_is_jsx (func : node) : bool := is_jsx (get_node func "body").

Definition is_function_expression (n : option node) : bool :=
  opt_type_is n "FunctionExpression" || opt_type_is n "ArrowFunctionExpression".

(** What the selectors of the rule push when a node is entered. *)
Definition new_knowledge (n : node) : option FunctionKnowledge :=
  if (type_of n =s "Property") && opt_type_is (get_node n "key") "Identifier" && is_function_expression (get_node n "value") then
    key ← get_node n "key"; value ← get_node n "value"; Some (mkKnowledge key value (body_is_jsx value))
  else if (type_of n =s "VariableDeclarator") && opt_type_is (get_node n "id") "Identifier" && is_function_expression (get_node n "init") then
    id ← get_node n "id"; init ← get_node n "init"; Some (mkKnowledge id init (body_is_jsx init))
  else if (type_of n =s "MethodDefinition") && opt_type_is (get_node n "key") "Identifier" then
    key ← get_node n "key"; value ← get_node n "value"; Some (mkKnowledge key value false)
  else if (type_of n =s "FunctionDeclaration") && opt_type_is (get_node n "id") "Identifier" then
    id ← get_node n "id"; Some (mkKnowledge id n false)
  else None.

(** The stack of functions, whose head is its end, and the reports. *)
Definition name_state : Type := (list FunctionKnowledge * list ReportDescriptor)%type.

Definition S100_report (knowledge : FunctionKnowledge) : list ReportDescriptor :=
  if returnsJSX knowledge then []
  else if matches S100_format (node_name (fk_node knowledge)) then []
  else [report_data "renameFunction" (fk_node knowledge) [("function", node_name (fk_node knowledge)); ("format", S100_format)]].

(** A return marks the function on top when it is the nearest function of the return. *)
Definition on_return (n : node) (ancestors : list node) (stack : list FunctionKnowledge) : list FunctionKnowledge :=
  match stack, List.find (fun a => includes (type_of a) functionLike) ancestors with
  | knowledge :: rest, Some enclosingFunction =>
      if same_node (fk_func knowledge) enclosingFunction && is_jsx (get_node n "argument")
      then mkKnowledge (fk_node knowledge) (fk_func knowledge) true :: rest else stack
  | _, _ => stack
  end.

Definition S100_step (e : event) (st : name_state) : result False name_state :=
  let '(knowledgeStack, reports) := st in
  match e with
  | Enter n ancestors =>
      Ok (if type_of n =s "ReturnStatement" then (on_return n ancestors knowledgeStack, reports)
          else match new_knowledge n with
               | Some knowledge => (knowledge :: knowledgeStack, reports)
               | None => st
               end)
  | Leave n _ =>
      Ok (if includes (type_of n) ["FunctionExpression"; "ArrowFunctionExpression"; "FunctionDeclaration"] then
            match knowledgeStack with
            | knowledge :: rest => if same_node n (fk_func knowledge) then (rest, reports ++ S100_report knowledge) else st
            | [] => st
            end
          else st)
  end.

Definition S100 (keys : VisitorKeys) (program : node) : result False name_state := run S100_step (events keys [] program) ([], []).

(** ** S101: the names of classes and interfaces *)

Definition S101_DEFAULT_FORMAT : string := "^[A-Z][a-zA-Z0-9]*$".

Definition checkName (n : node) (declarationType : string) : list ReportDescriptor :=
  let format := default S101_DEFAULT_FORMAT option_format in
  match get_node n "id" with
  | Some id =>
      if matches format (node_name id) then []
      else [report_data "renameClass" id [("symbol", node_name id); ("symbolType", declarationType); ("format", format)]]
  | None => []
  end.

Definition S101 (n : node) : list ReportDescriptor :=
  if type_of n =s "ClassDeclaration" then checkName n "class"
  else if type_of n =s "TSInterfaceDeclaration" then checkName n "interface"
  else [].

(** ** S117: the names of variables, parameters and properties *)

Definition CAMEL_CASED : string := "^[_$A-Za-z][$A-Za-z0-9]*$".
Definition UPPER_CASED : string := "^[_$A-Z][_$A-Z0-9]+$".
Definition S117_DEFAULT_FORMAT : string := (CAMEL_CASED +:+ "|" +:+ UPPER_CASED)%string.

Definition raiseOnInvalidIdentifier (id : node) (idType : string) : list ReportDescriptor :=
  let format := default S117_DEFAULT_FORMAT option_format in
  if matches format (node_name id) then []
  else [report_data "renameSymbol" id [("symbol", node_name id); ("symbolType", idType); ("format", format)]].

Definition raise_on_pattern (idType : string) (pattern : node) : list ReportDescriptor :=
  flat_map (fun id => raiseOnInvalidIdentifier id idType) (resolveIdentifiers pattern false).

Definition S117_checkVariable (decl : node) : list ReportDescriptor :=
  if truthy (get decl "declare") then []
  else flat_map (fun declaration => match get_node declaration "id" with
                                    | Some id => raise_on_pattern "local variable" id
                                    | None => []
                                    end) (get_nodes decl "declarations").

Definition S117_checkFunction (func : node) : list ReportDescriptor :=
  if truthy (get func "declare") then [] else flat_map (raise_on_pattern "parameter") (get_nodes func "params").

Definition S117_checkProperty (prop : node) : list ReportDescriptor :=
  match get_node prop "key" with
  | Some key => if type_of key =s "Identifier" then raiseOnInvalidIdentifier key "property" else []
  | None => []
  end.

Definition S117_checkCatch (catchh : node) : list ReportDescriptor :=
  match get_node catchh "param" with Some param => raise_on_pattern "parameter" param | None => [] end.

Definition S117 (n : node) : list ReportDescriptor :=
  if type_of n =s "VariableDeclaration" then S117_checkVariable n
  else if includes (type_of n) ["FunctionDeclaration"; "FunctionExpression"; "ArrowFunctionExpression"; "TSDeclareFunction";
                                "TSMethodSignature"; "TSConstructSignatureDeclaration"; "TSEmptyBodyFunctionExpression"]
  then S117_checkFunction n
  else if type_of n =s "PropertyDefinition" then S117_checkProperty n
  else if type_of n =s "CatchClause" then S117_checkCatch n
  else [].

End Forms.

(** ** S3514: destructuring *)

Section Destructuring.

Context (getText : node -> string) (parents : node -> list node).

Definition MAX_INDEX : Z := 4.

(** [isNumberLiteral(property) && isAllowedIndex(property.value)] *)
Definition is_allowed_index (property : node) : bool :=
  match get property "value" with
  | VNum (NumQ q) => isLiteral (Some property) && Qle_bool 0 q && Qle_bool q (inject_Z MAX_INDEX)
  | _ => false
  end.

(** The declarations by the text of their object, in the order of the texts. *)
Definition declarations_by_object : Type := list (string * list node).

Definition addDeclaration (declarationsByObject : declarations_by_object) (object declaration : node) : declarations_by_object :=
  map_set (getText object) (default [] (map_get (getText object) declarationsByObject) ++ [declaration]) declarationsByObject.

Definition visitDeclaration (declarationsByObject : declarations_by_object) (declaration : node) : declarations_by_object :=
  match get_node declaration "id", get_node declaration "init" with
  | Some id, Some expression =>
      if (type_of id =s "Identifier") && (type_of expression =s "MemberExpression") then
        match get_node expression "property", get_node expression "object" with
        | Some property, Some object =>
            if isIdentifier (Some property) [node_name id] || is_allowed_index property
            then addDeclaration declarationsByObject object declaration else declarationsByObject
        | _, _ => declarationsByObject
        end
      else declarationsByObject
  | _, _ => declarationsByObject
  end.

Definition getKind (declarator : node) : value :=
  match findFirstMatchingAncestor (parents declarator) (fun n => type_of n =s "VariableDeclaration") with
  | Some declaration => get declaration "kind"
  | None => VUndefined
  end.

Definition S3514_message (key : string) : string :=
  ("Use destructuring syntax for these assignments from " +:+ quoted key +:+ ".")%string.

Definition checkDeclarationsBlock (declarationsByObject : declarations_by_object) : list ReportDescriptor :=
  flat_map (fun '(key, declarations) =>
      match declarations with
      | first :: second :: others =>
          if forallb (fun decl => strictly_equal (getKind decl) (getKind first)) (second :: others)
          then [report_with (S3514_message key) first (map (fun n => secondary_with n "Replace this assignment.") (second :: others))]
          else []
      | _ => []
      end) declarationsByObject.

Definition visitStatements (statements : list node) : list ReportDescriptor :=
  let '(declarationsByObject, reports) :=
    fold_left (fun '(declarationsByObject, reports) statement =>
        if type_of statement =s "VariableDeclaration"
        then (fold_left visitDeclaration (get_nodes statement "declarations") declarationsByObject, reports)
        else ([], reports ++ checkDeclarationsBlock declarationsByObject)) statements ([], []) in
  reports ++ checkDeclarationsBlock declarationsByObject.

Definition S3514 (n : node) : list ReportDescriptor :=
  if includes (type_of n) ["BlockStatement"; "Program"] then visitStatements (get_nodes n "body")
  else if type_of n =s "SwitchCase" then visitStatements (get_nodes n "consequent")
  else [].

End Destructuring.

(** ** S3524: arrow functions *)

Section Arrows.

(** The options of the rule, and what ESLint answers on tokens and comments; the second
    argument of [getFirstToken] is the number of tokens to skip. *)
Context (requireParameterParentheses requireBodyBraces : bool).
Context (getTokenAfter : node -> option Token) (getFirstToken : node -> nat -> option Token) (getCommentsInside : node -> list Comment).

Definition token_is (token : option Token) (value : string) : bool :=
  match token with Some t => t_value t =s value | None => false end.

Definition same_comment (a b : Comment) : bool := ((c_range a).1 =? (c_range b).1)%Z.

Definition hasGeneric (arrowFunction : node) : bool :=
  token_is (getFirstToken arrowFunction (if truthy (get arrowFunction "async") then 1 else 0)) "<".

(** Comments are known by where they start. *)
Definition hasArrowFunctionParamsComments (arrowFunction body : node) : bool :=
  existsb (fun comment => negb (existsb (same_comment comment) (getCommentsInside body))) (getCommentsInside arrowFunction).

Definition checkParameters (arrowFunction body : node) : list ReportDescriptor :=
  match get_nodes arrowFunction "params" with
  | [parameter] =>
      let hasParameterParentheses := token_is (getTokenAfter parameter) ")" in
      if requireParameterParentheses && negb hasParameterParentheses
      then [report "Add parentheses around the parameter of this arrow function." parameter]
      else if negb requireParameterParentheses && negb (hasGeneric arrowFunction) && hasParameterParentheses then
        if (type_of parameter =s "Identifier") && negb (hasArrowFunctionParamsComments arrowFunction body)
           && negb (truthy (get parameter "typeAnnotation")) && negb (truthy (get arrowFunction "returnType"))
        then [report "Remove parentheses around the parameter of this arrow function." parameter] else []
      else []
  | _ => []
  end.

Definition isRemovableReturn (statement : node) : bool :=
  (type_of statement =s "ReturnStatement")
  && match get_node statement "argument" with
     | Some returnExpression =>
         negb (type_of returnExpression =s "ObjectExpression")
         && match h_loc (hdr returnExpression) with
            | Some location => (line (start location) =? line (endp location))%Z
            | None => false
            end
     | None => false
     end.

Definition checkBody (body : node) : list ReportDescriptor :=
  let hasBodyBraces := type_of body =s "BlockStatement" in
  if requireBodyBraces && negb hasBodyBraces
  then [report ("Add curly braces and " +:+ quoted "return" +:+ " to this arrow function body.")%string body]
  else if negb requireBodyBraces && hasBodyBraces then
    match get_nodes body "body" with
    | [statement] =>
        if isRemovableReturn statement
        then [report ("Remove curly braces and " +:+ quoted "return" +:+ " from this arrow function body.")%string body] else []
    | _ => []
    end
  else [].

Definition S3524 (arrowFunction : node) : eval (list ReportDescriptor) :=
  let! body := node_at arrowFunction "body" in Ok (checkParameters arrowFunction body ++ checkBody body).

End Arrows.

(** ** S1528 and S1533: constructors of built-in types *)

Section Constructors.

Context (getText : node -> string) (first_new_token : node -> option Token) (toLowerCase : string -> string).

Definition replaceWithLiteralFix (newExpression : node) : string :=
  ("[" +:+ join_with ", " (map getText (get_nodes newExpression "arguments")) +:+ "]")%string.

Definition replaceWithArrayFromFix (argument : node) : string := ("Array.from({length: " +:+ getText argument +:+ "})")%string.

(** The report, the suggestion and the text that replaces the expression. *)
Definition S1528 (n : node) : list (ReportDescriptor * (string * string)) :=
  if identifier_named (get_node n "callee") "Array" then
    match get_nodes n "arguments" with
    | [argument] =>
        [(report (if isNumberLiteral argument then ("Use " +:+ quoted "Array.from()" +:+ " instead of the " +:+ quoted "Array" +:+ " constructor.")%string
                  else ("Use either a literal or " +:+ quoted "Array.from()" +:+ " instead of the " +:+ quoted "Array" +:+ " constructor.")%string) n,
          (("Replace with " +:+ quoted "Array.from()")%string, replaceWithArrayFromFix argument))]
    | _ =>
        [(report ("Use either a literal or " +:+ quoted "Array.from()" +:+ " instead of the " +:+ quoted "Array" +:+ " constructor.")%string n,
          ("Replace with a literal", replaceWithLiteralFix n))]
    end
  else [].

Definition WRAPPER_TYPES : list string := ["Boolean"; "Number"; "String"].

Definition S1533_NewExpression (n : node) : eval (list (ReportDescriptor * Suggested)) :=
  match get_node n "callee" with
  | Some konstructor =>
      if (type_of konstructor =s "Identifier") && includes (node_name konstructor) WRAPPER_TYPES then
        let! newToken := of_option TypeError (first_new_token n) in
        Ok [(report_data "removeConstructor" n [("constructor", node_name konstructor)],
             mkSuggested "suggestRemoveNew" [(((t_range newToken).1, (t_range newToken).2 + 1)%Z, "")])]
      else Ok []
  | None => Ok []
  end.

Definition S1533_TSTypeReference (n : node) : eval (list (ReportDescriptor * Suggested)) :=
  let typeString := getText n in
  if includes typeString WRAPPER_TYPES then
    let primitiveType := toLowerCase typeString in
    let! range := range_of n in
    Ok [(report_data "replaceWrapper" n [("wrapper", typeString); ("primitive", primitiveType)],
         mkSuggested "suggestReplaceWrapper" [(range, primitiveType)])]
  else Ok [].

End Constructors.

(** ** S1529: bitwise operators in conditions *)

Section Bitwise.

(** Whether TypeScript tells that an operand is a number, when there is a program. *)
Context (typed : option (node -> bool)) (getTokenAfter : node -> option Token).

(** The test of [getNumericTypeChecker]. *)
Definition isNumeric (n : node) : bool :=
  match typed with
  | Some isNumericType => isNumericType n
  | None => (type_of n =s "Literal") && match get n "value" with VNum _ | VBigInt _ => true | _ => false end
  end.

Definition BITWISE_AND_OR : list string := ["&"; "|"].
Definition BITWISE_OPERATORS : list string := ["&"; "|"; "^"; "~"; "<<"; ">>"; ">>>"; "&="; "|="; "^="; "<<="; ">>="; ">>>="].

Record bitwise_state := mkBitwise {
  lonelyBitwiseAndOr : option (node * list node);
  fileContainsSeveralBitwiseOperations : bool;
  bitwise_reports : list ReportDescriptor
}.

(** The loop on the ancestors, from the nearest one. *)
Fixpoint insideCondition (child : node) (ancestors : list node) : bool :=
  match ancestors with
  | [] => false
  | parent :: rest =>
      if includes (type_of parent) ["IfStatement"; "ForStatement"; "WhileStatement"; "DoWhileStatement"; "ConditionalExpression"]
      then match get_node parent "test" with Some test => same_node test child | None => false end
      else insideCondition parent rest
  end.

Definition operand_is_numeric (n : node) (key : string) : bool :=
  match get_node n key with Some operand => isNumeric operand | None => false end.

Definition S1529_message (op : string) : string :=
  ("Review this use of bitwise " +:+ quoted op +:+ " operator; conditional " +:+ quoted (op +:+ op) +:+ " might have been intended.")%string.

Definition S1529_step (e : event) (st : bitwise_state) : eval bitwise_state :=
  match e with
  | Enter n ancestors =>
      if type_of n =s "BinaryExpression" then
        let operator := default "" (get_str n "operator") in
        if bool_decide (lonelyBitwiseAndOr st = None) && includes operator BITWISE_AND_OR
           && negb (operand_is_numeric n "left") && negb (operand_is_numeric n "right")
        then Ok (mkBitwise (Some (n, ancestors)) (fileContainsSeveralBitwiseOperations st) (bitwise_reports st))
        else if includes operator BITWISE_OPERATORS then Ok (mkBitwise (lonelyBitwiseAndOr st) true (bitwise_reports st))
        else Ok st
      else Ok st
  | Leave n _ =>
      if type_of n =s "Program" then
        match lonelyBitwiseAndOr st with
        | Some (lonely, ancestors) =>
            if negb (fileContainsSeveralBitwiseOperations st) && insideCondition lonely ancestors then
              let! operand := node_at lonely "left" in
              Ok (match getTokenAfter operand with
                  | Some operatorToken =>
                      mkBitwise (lonelyBitwiseAndOr st) (fileContainsSeveralBitwiseOperations st)
                        (bitwise_reports st ++ [mkDescriptor (S1529_message (default "" (get_str lonely "operator"))) []
                                                  (AtLocation (t_loc operatorToken)) []])
                  | None => st
                  end)
            else Ok st
        | None => Ok st
        end
      else Ok st
  end.

Definition S1529 (keys : VisitorKeys) (program : node) : eval bitwise_state := run S1529_step (events keys [] program) (mkBitwise None false []).

End Bitwise.

(** ** Examples *)

Module NamesExample.

Definition mk (i : nat) (t : string) (ps : list (string * value)) : node := Node (mkHeader i t None None) ps.
Definition ident (i : nat) (name : string) : node := mk i "Identifier" [("name", VStr name)].
Definition block (i : nat) (body : list node) : node := mk i "BlockStatement" [("body", VArr (map VNode body))].

Definition keys : VisitorKeys := fun type =>
  map_get type [("Program", ["body"]); ("BlockStatement", ["body"]); ("FunctionDeclaration", ["id"; "params"; "body"]);
    ("ClassDeclaration", ["id"; "body"]); ("ClassBody", ["body"]); ("MethodDefinition", ["key"; "value"])].

(** [function BAD_NAME() { abstract class A { abstract m(): void; } }]: the method has no
    function that would be left, so that the function around it is not checked. *)
Definition abstract_class : node :=
  mk 20 "ClassDeclaration" [("id", VNode (ident 21 "A")); ("body", VNode (mk 22 "ClassBody" [("body", VArr [VNode
    (mk 23 "MethodDefinition" [("key", VNode (ident 24 "m")); ("value", VNode (mk 25 "TSEmptyBodyFunctionExpression" []))])])]))].
Definition program_of (body : list node) : node :=
  mk 1 "Program" [("body", VArr [VNode (mk 10 "FunctionDeclaration"
    [("id", VNode (ident 11 "BAD_NAME")); ("params", VArr []); ("body", VNode (block 12 body))])])].

Lemma abstract_method_hides_function :
  let reports p := match S100 (fun _ name => negb (name =s "BAD_NAME")) None keys p with Ok (_, reports) => reports | Throw _ => [] end in
  length (reports (program_of [])) = 1 /\ reports (program_of [abstract_class]) = [].
Proof. by vm_compute. Qed.

(** [f(); typeof f] is reported, [typeof f; f()] is not: an exclusion comes too late for
    the references before it. *)
Lemma exclusions_depend_on_order :
  let reads i := mkReference (ident i "f") [] 0 None None false true false in
  let tested i := mkReference (ident i "f") [mk 9 "UnaryExpression" [("operator", VStr "typeof")]] 0 None None false true false in
  undeclared (fun _ => false) [reads 1; tested 2] = [("f", [ident 1 "f"])] /\
  undeclared (fun _ => false) [tested 1; reads 2] = [].
Proof. by vm_compute. Qed.

(** [new Array(...xs)]: the text that is suggested is not an expression. *)
Lemma spread_argument_fix :
  map (fun r => r.2.2) (S1528 (fun n => if type_of n =s "SpreadElement" then "...xs" else "")
    (mk 1 "NewExpression" [("callee", VNode (ident 2 "Array")); ("arguments", VArr [VNode (mk 3 "SpreadElement" [])])]))
  = ["Array.from({length: ...xs})"].
Proof. reflexivity. Qed.

(** [m |= flag; if (a & b) {}]: only binary expressions are looked at, so that the
    assignment is no other bitwise operation and [a & b] is reported. *)
Lemma bitwise_assignments_not_counted :
  let test := mk 5 "BinaryExpression" [("operator", VStr "&"); ("left", VNode (ident 6 "a")); ("right", VNode (ident 7 "b"))] in
  let assignment := mk 2 "AssignmentExpression" [("operator", VStr "|="); ("left", VNode (ident 3 "m")); ("right", VNode (ident 4 "flag"))] in
  let program := mk 1 "Program" [("body", VArr [VNode assignment; VNode (mk 8 "IfStatement" [("test", VNode test)])])] in
  let keys type := map_get type [("Program", ["body"]); ("IfStatement", ["test"]); ("AssignmentExpression", ["left"; "right"])] in
  let token := mkToken "Punctuator" "&" (mkLoc (mkPos 1 0) (mkPos 1 1)) (0, 1)%Z in
  bitwise_reports <$> (match S1529 None (fun _ => Some token) keys program with Ok st => Some st | Throw _ => None end)
  = Some [mkDescriptor (S1529_message "&") [] (AtLocation (t_loc token)) []].
Proof. by vm_compute. Qed.

End NamesExample.
