(* ===== verification/Tests.v ===== *)
(** * Tests: rules on unit tests

    The helpers for the libraries of tests ([rules/helpers/mocha.ts], [chai.ts],
    [sinon.ts], [supertest.ts], [vitest.ts]) and the rules on tests: S2699 (tests without
    assertions), S5863 and S3415 (arguments of assertions), S2187 (files without tests),
    S5973 (flaky tests), S2970 and S6092 (chains of assertions), S6079 (code after
    [done]) and S1607 (tests that are skipped). *)

From Stdlib Require Import ZArith QArith Lia Ascii.
From stdpp Require Import base list sets strings.
From S2P Require Import Prelude JsString Estree JsNumber Reports Ast Modules Duplicates Traversal Aws Calls.

Open Scope js_scope.
Open Scope nat_scope.

(** ** [namespace Mocha] *)

Definition TEST_CONSTRUCTS : list string :=
  ["describe"; "context"; "it"; "specify"; "before"; "after"; "beforeEach"; "afterEach"].

(** [TestCase]: the callee that is reported, and the function of the test. *)
Record TestCase := mkTestCase { tc_node : node; tc_callback : node }.

Definition isTestConstruct (n : node) (constructs : list string) : bool :=
  existsb (fun construct =>
      (type_of n =s "CallExpression")
      && (isIdentifier (get_node n "callee") [construct]
          || (opt_type_is (get_node n "callee") "MemberExpression"
              && isIdentifier (callee_prop n "object") [construct]
              && isIdentifier (callee_prop n "property") ["only"; "skip"])))
    constructs.

Definition isTestCase (n : node) : bool := isTestConstruct n ["it"; "specify"].

Definition isDescribeCase (n : node) : bool := isTestConstruct n ["describe"].

Definition extractTestCase (n : node) : option TestCase :=
  if isTestCase n then
    match get_node n "callee", argument_at n 1 with
    | Some callee, Some callback => if isFunctionNode callback then Some (mkTestCase callee callback) else None
    | _, _ => None
    end
  else None.

Section Libraries.

Context (sm : ScopeManager).

(** [isImported(context)] of the namespaces of the libraries. *)
Definition isImported (library : string) (program : node) : bool :=
  existsb (fun r => match argument_at r 0 with
                    | Some argument => (type_of argument =s "Literal") && str_prop_is argument "value" library
                    | None => false
                    end) (getRequireCalls sm)
  || existsb (fun i => match get_node i "source" with Some source => str_prop_is source "value" library | None => false end)
       (getImportDeclarations program).

(** [extractFQNforCallExpression], and the name cut at its dots. *)
Definition extractFQNforCallExpression (n : node) : option string :=
  if type_of n =s "CallExpression" then fullName sm n else None.

Definition fqn_parts (n : node) : list string :=
  match extractFQNforCallExpression n with
  | Some fqn => if fqn =s "" then [] else split_char "."%char fqn
  | None => []
  end.

Definition part_is (parts : list string) (i : nat) (s : string) : bool :=
  match parts !! i with Some p => p =s s | None => false end.

(** *** [namespace Chai] *)

Definition chai_isAssertUsage (n : node) : bool := part_is (fqn_parts n) 0 "chai" && part_is (fqn_parts n) 1 "assert".

Definition chai_isExpectUsage (n : node) : bool := name_is (extractFQNforCallExpression n) "chai.expect".

Definition isShouldUsage (n : node) : bool := (type_of n =s "MemberExpression") && isIdentifier (get_node n "property") ["should"].

Definition chai_isAssertion (n : node) : bool := chai_isAssertUsage n || chai_isExpectUsage n || isShouldUsage n.

(** *** [namespace Sinon] *)

Definition sinon_isAssertion (n : node) : bool :=
  Nat.eqb (length (fqn_parts n)) 3 && part_is (fqn_parts n) 0 "sinon" && part_is (fqn_parts n) 1 "assert".

(** *** [namespace Vitest] *)

Definition vitest_isAssertion (n : node) : bool := name_is (extractFQNforCallExpression n) "vitest.expect".

(** *** [namespace Supertest] *)

Definition supertest_isAssertion (n : node) : bool :=
  (3 <=? length (fqn_parts n)) && part_is (fqn_parts n) 0 "supertest" && part_is (fqn_parts n) 2 "expect".

End Libraries.

(** ** S2699: tests without assertions *)

Section Assertions.

Context (sm : ScopeManager) (keys : VisitorKeys).
(** The calls that the stack of the engine has room for. *)
Context (stack : nat).

Definition is_assertion (n : node) : bool :=
  chai_isAssertion sm n || sinon_isAssertion sm n || vitest_isAssertion sm n || supertest_isAssertion sm n.

(** [TestCaseAssertionVisitor.visit]: the nodes visited, which are keys by identity, and
    [hasAssertions]. *)
Fixpoint visit (fuel : nat) (st : list nat * bool) (n : node) : eval (list nat * bool) :=
  match fuel with
  | O => Throw RangeError
  | S fuel' =>
      let '(visitedNodes, hasAssertions) := st in
      if set_has (h_id (hdr n)) visitedNodes then Ok st
      else
        let visitedNodes := set_add (h_id (hdr n)) visitedNodes in
        if hasAssertions then Ok (visitedNodes, true)
        else if is_assertion n then Ok (visitedNodes, true)
        else if isFunctionCall n && isIdentifier (get_node n "callee") ["expect"] then Ok (visitedNodes, true)
        else
          let! st :=
            match (if isFunctionCall n then get_node n "callee" ≫= resolveFunction sm else None) with
            | Some functionDef => let! body := node_at functionDef "body" in visit fuel' (visitedNodes, false) body
            | None => Ok (visitedNodes, false)
            end in
          rfold (visit fuel') (childrenOf n keys) st
  end.

Record assertion_state := mkAssertions {
  visitedNodes : list nat;
  potentialIssues : list ReportDescriptor;
  assertion_reports : list ReportDescriptor
}.

Definition S2699_message : string := "Add at least one assertion to this test case.".

Definition checkAssertions (testCase : TestCase) (st : assertion_state) : eval assertion_state :=
  let! body := node_at (tc_callback testCase) "body" in
  let! r := visit stack (visitedNodes st, false) body in
  let '(visited, hasAssertions) := r in
  Ok (mkAssertions visited
        (if hasAssertions then potentialIssues st else potentialIssues st ++ [report S2699_message (tc_node testCase)])
        (assertion_reports st)).

(** A library of assertions is imported. *)
Definition has_library (program : node) : bool :=
  isImported sm "chai" program || isImported sm "sinon" program || isImported sm "vitest" program
  || isImported sm "supertest" program.

(** The listeners of the rule; the others nodes are not looked at. *)
Definition S2699_step (e : event) (st : assertion_state) : eval assertion_state :=
  match e with
  | Enter _ _ => Ok st
  | Leave n _ =>
      if type_of n =s "CallExpression" then
        match extractTestCase n with
        | Some testCase => checkAssertions testCase st
        | None => Ok st
        end
      else if type_of n =s "Program" then
        Ok (if has_library n then mkAssertions (visitedNodes st) (potentialIssues st) (assertion_reports st ++ potentialIssues st) else st)
      else Ok st
  end.

Definition S2699 (program : node) : eval assertion_state :=
  run S2699_step (events keys [] program) (mkAssertions [] [] []).

(** *** What S2699 reports *)

Definition body_of (testCase : TestCase) : option node := get_node (tc_callback testCase) "body".

(** A node at which the visitor stops. *)
Definition asserts (n : node) : bool :=
  is_assertion n || isFunctionCall n && isIdentifier (get_node n "callee") ["expect"].

Definition called (n : node) : option node :=
  if isFunctionCall n then get_node n "callee" ≫= resolveFunction sm else None.

(** The body of the function that is called, and the children. *)
Definition next (n : node) : list node :=
  match called n ≫= fun f => get_node f "body" with Some body => [body] | None => [] end ++ childrenOf n keys.

(** The ways from a node to another one, along nodes that are not to be avoided and
    before which no assertion is met. *)
Inductive leads_to (avoid : list nat) : node -> node -> Prop :=
| leads_here n : h_id (hdr n) ∉ avoid -> leads_to avoid n n
| leads_on n c m : h_id (hdr n) ∉ avoid -> asserts n = false -> c ∈ next n -> leads_to avoid c m -> leads_to avoid n m.

(** The code [U] of the tests: it has the functions it calls, with their bodies, and an
    identity stands for one node. *)
Record test_code (U : list node) : Prop := {
  tc_closed : forall n c, n ∈ U -> c ∈ next n -> c ∈ U;
  tc_identity : forall a b, a ∈ U -> b ∈ U -> h_id (hdr a) = h_id (hdr b) -> a = b;
  tc_bodies : forall n f, n ∈ U -> called n = Some f -> is_Some (get_node f "body")
}.

Section Search.

Context (U : list node) (code : test_code U).

(** The nodes that are not visited yet. *)
Definition fresh (V : list nat) : nat := length (List.filter (fun u => negb (set_has (h_id (hdr u)) V)) U).

Lemma fresh_mono V W : V ⊆ W -> fresh W <= fresh V.
Proof.
  intros H. unfold fresh. clear code. induction U as [|u l IH]; cbn; [lia |].
  destruct (set_has (h_id (hdr u)) V) eqn:EV; cbn.
  - apply set_has_spec in EV. assert (set_has (h_id (hdr u)) W = true) as -> by (apply set_has_spec; auto). done.
  - destruct (set_has (h_id (hdr u)) W); cbn; lia.
Qed.

Lemma fresh_add V n : n ∈ U -> h_id (hdr n) ∉ V -> fresh (set_add (h_id (hdr n)) V) < fresh V.
Proof.
  intros Hn HV. assert (V ⊆ set_add (h_id (hdr n)) V) as M by (intros x Hx; apply elem_of_set_add; by right).
  unfold fresh. clear code. induction U as [|u l IH]; [by apply not_elem_of_nil in Hn |].
  assert (length (List.filter (fun u => negb (set_has (h_id (hdr u)) (set_add (h_id (hdr n)) V))) l) <=
          length (List.filter (fun u => negb (set_has (h_id (hdr u)) V)) l)) as Le.
  { clear -M. induction l as [|x l IH]; cbn; [lia |]. destruct (set_has (h_id (hdr x)) V) eqn:EV; cbn.
    - apply set_has_spec, M, set_has_spec in EV. by rewrite EV.
    - destruct (set_has _ (set_add _ _)); cbn; lia. }
  cbn. apply elem_of_cons in Hn as [<-|Hn].
  - assert (set_has (h_id (hdr n)) (set_add (h_id (hdr n)) V) = true) as -> by (apply set_has_spec, elem_of_set_add; by left).
    apply set_has_false in HV. rewrite HV. cbn. lia.
  - destruct (set_has (h_id (hdr u)) V) eqn:EV; cbn.
    + apply set_has_spec, M, set_has_spec in EV. rewrite EV. cbn. by apply IH.
    + destruct (set_has _ (set_add _ _)); cbn; [lia |]. specialize (IH Hn). lia.
Qed.

Lemma leads_mono V W n m : V ⊆ W -> leads_to W n m -> leads_to V n m.
Proof. intros H L. induction L as [n N|n c m N A C L IH]; [constructor 1 | econstructor 2]; eauto. Qed.

Lemma leads_trans V n k m : leads_to V n k -> asserts k = false -> leads_to V k m -> leads_to V n m.
Proof. intros L A M. induction L as [n N|n c k N An C L IH]; [done |]. econstructor 2; eauto. Qed.

Lemma leads_in V n m : leads_to V n m -> n ∈ U -> m ∈ U.
Proof. intros L. induction L as [|n c m N A C L IH]; [done |]. intros Hn. apply IH. by eapply (tc_closed _ code). Qed.

(** The nodes visited since [V] have no assertion, and what comes after them is visited. *)
Definition settled (V V' : list nat) : Prop :=
  forall m, m ∈ U -> h_id (hdr m) ∈ V' -> h_id (hdr m) ∉ V ->
    asserts m = false /\ forall c, c ∈ next m -> h_id (hdr c) ∈ V'.

(** What a visit of the nodes [l] from the state [(V, h)] does. *)
Definition visited_well (l : list node) (V : list nat) (h : bool) (V' : list nat) (b : bool) : Prop :=
  V ⊆ V' /\ (h = true -> b = true) /\
  (h = false -> b = true -> exists c m, c ∈ l /\ leads_to V c m /\ asserts m = true) /\
  (b = false -> (forall c, c ∈ l -> h_id (hdr c) ∈ V') /\ settled V V') /\
  (forall i, i ∈ V' -> i ∉ V -> exists c m, c ∈ l /\ leads_to V c m /\ h_id (hdr m) = i).

Lemma visited_nothing V h : visited_well [] V h V h.
Proof.
  split_and!; [done | done | by intros -> | | done]. intros _. by split; [intros c ?%not_elem_of_nil |].
Qed.

Lemma visited_cons n l V h V1 h1 V' b : visited_well [n] V h V1 h1 -> visited_well l V1 h1 V' b -> visited_well (n :: l) V h V' b.
Proof.
  intros (M1 & T1 & A1 & S1 & R1) (M2 & T2 & A2 & S2 & R2).
  assert (forall c m, leads_to V1 c m -> leads_to V c m) as Mono by (intros c m; by apply leads_mono).
  split_and!.
  - set_solver.
  - auto.
  - intros H B. destruct h1; [destruct (A1 H eq_refl) as (c & m & ->%list_elem_of_singleton & L & A); exists n, m; split_and!; [by left | done | done] |].
    destruct (A2 eq_refl B) as (c & m & Hc & L & A). exists c, m. split_and!; [by right | auto | done].
  - intros B. assert (h1 = false) as H1 by (destruct h1; [by rewrite T2 in B | done]).
    destruct (S1 H1) as [I1 D1], (S2 B) as [I2 D2]. split.
    + intros c [->|Hc]%elem_of_cons; [apply M2, I1; by left | by apply I2].
    + intros m Hm Hv Hn. destruct (decide (h_id (hdr m) ∈ V1)) as [Hi|Hi]; [| by apply D2].
      destruct (D1 m Hm Hi Hn) as [A N]. split; [done |]. intros c Hc. by apply M2, N.
  - intros i Hi Hn. destruct (decide (i ∈ V1)) as [Hi1|Hi1].
    + destruct (R1 i Hi1 Hn) as (c & m & ->%list_elem_of_singleton & L & E). exists n, m. split_and!; [by left | done | done].
    + destruct (R2 i Hi Hi1) as (c & m & Hc & L & E). exists c, m. split_and!; [by right | auto | done].
Qed.

Lemma visit_all fuel l : (forall V h n, n ∈ l -> fresh V < fuel -> exists V' b, visit fuel (V, h) n = Ok (V', b) /\ visited_well [n] V h V' b) ->
  forall V h, fresh V < fuel -> exists V' b, rfold (visit fuel) l (V, h) = Ok (V', b) /\ visited_well l V h V' b.
Proof.
  induction l as [|n l IH]; intros H V h F; [exists V, h; split; [done | apply visited_nothing] |].
  destruct (H V h n) as (V1 & h1 & E1 & W1); [by left | done |]. cbn [rfold]. rewrite E1. cbn [rbind].
  destruct (IH (fun V h n Hn => H V h n (list_elem_of_further _ _ _ Hn)) V1 h1) as (V' & b & E & W).
  - pose proof (fresh_mono V V1 (proj1 W1)). lia.
  - exists V', b. split; [done | by eapply visited_cons].
Qed.

(** A node that is visited for the first time, when what comes after it is. *)
Lemma visited_node V n V' b : n ∈ U -> h_id (hdr n) ∉ V -> asserts n = false ->
  visited_well (next n) (set_add (h_id (hdr n)) V) false V' b -> visited_well [n] V false V' b.
Proof.
  intros Hn N A (M & T & Ab & S & R).
  assert (V ⊆ set_add (h_id (hdr n)) V) as Add by (intros x Hx; apply elem_of_set_add; by right).
  assert (forall c m, c ∈ next n -> leads_to (set_add (h_id (hdr n)) V) c m -> leads_to V n m) as On.
  { intros c m Hc L. econstructor 2; [done | done | exact Hc |]. by eapply leads_mono. }
  split_and!; [set_solver | done | | |].
  - intros _ B. destruct (Ab eq_refl B) as (c & m & Hc & L & E). exists n, m. split_and!; [by left | by eapply On | done].
  - intros B. destruct (S B) as [I D]. split.
    + intros c ->%list_elem_of_singleton. apply M, elem_of_set_add. by left.
    + intros m Hm Hv Hx. destruct (decide (h_id (hdr m) = h_id (hdr n))) as [E|E].
      * apply (tc_identity _ code) in E as ->; done.
      * apply D; [done | done |]. intros [?|?]%elem_of_set_add; done.
  - intros i Hi Hx. destruct (decide (i = h_id (hdr n))) as [->|E].
    + exists n, n. split_and!; [by left | by constructor 1 | done].
    + destruct (R i Hi) as (c & m & Hc & L & Em); [intros [?|?]%elem_of_set_add; done |].
      exists n, m. split_and!; [by left | by eapply On | done].
Qed.

(** A node that is visited for the first time, when the visitor stops at it. *)
Lemma visited_stop V h n : h_id (hdr n) ∉ V -> h = true \/ asserts n = true ->
  visited_well [n] V h (set_add (h_id (hdr n)) V) true.
Proof.
  intros N A. split_and!; [intros x Hx; apply elem_of_set_add; by right | done | | done |].
  - intros -> _. destruct A as [|A]; [done |]. exists n, n. split_and!; [by left | by constructor 1 | done].
  - intros i [->|Hi]%elem_of_set_add Hx; [| done]. exists n, n. split_and!; [by left | by constructor 1 | done].
Qed.

Lemma visit_spec fuel : forall V h n, n ∈ U -> fresh V < fuel ->
  exists V' b, visit fuel (V, h) n = Ok (V', b) /\ visited_well [n] V h V' b.
Proof.
  induction fuel as [|fuel IH]; intros V h n Hn F; [lia |]. cbn [visit].
  destruct (set_has (h_id (hdr n)) V) eqn:HV.
  { apply set_has_spec in HV. exists V, h. split; [done |].
    split_and!; [done | done | by intros -> | intros _ | done]. split; [by intros c ->%list_elem_of_singleton | done]. }
  apply set_has_false in HV. destruct h; [eexists _, true; split; [done | apply visited_stop; auto] |].
  destruct (asserts n) eqn:A.
  { eexists _, true. split; [| apply visited_stop; auto]. unfold asserts in A. destruct (is_assertion n); [done |]. cbn [orb] in A. by rewrite A. }
  pose proof (fresh_add V n Hn HV) as Fa.
  destruct (visit_all fuel (next n)) with (V := set_add (h_id (hdr n)) V) (h := false) as (V' & b & E & W); [| lia |].
  { intros W h c Hc Fw. apply IH; [by eapply (tc_closed _ code) | done]. }
  exists V', b. split; [| by apply visited_node]. rewrite <- E.
  unfold asserts in A. apply orb_false_iff in A as [-> ->]. cbn [andb]. fold (called n). unfold next.
  destruct (called n) as [f|] eqn:C; [| done]. destruct (tc_bodies _ code n f Hn C) as [body B].
  unfold node_at. cbn [mbind option_bind]. rewrite B. cbn [of_option rbind app rfold]. by destruct (visit _ _ body) as [[]|].
Qed.

(** With enough room, a visit of a node finds exactly whether an assertion is on a way
    that does not go through the nodes visited before. *)
Lemma visit_finds fuel V n : n ∈ U -> length U < fuel -> exists V' b, visit fuel (V, false) n = Ok (V', b) /\
  (b = true <-> exists m, leads_to V n m /\ asserts m = true) /\
  (forall i, i ∈ V' -> i ∉ V -> exists m, leads_to V n m /\ h_id (hdr m) = i).
Proof.
  intros Hn F. destruct (visit_spec fuel V false n Hn) as (V' & b & E & M & _ & A & S & R).
  { enough (fresh V <= length U) by lia. apply List.filter_length_le. }
  exists V', b. split; [done |]. split; [split |].
  - intros B. destruct (A eq_refl B) as (c & m & ->%list_elem_of_singleton & L & Am). by exists m.
  - intros (m & L & Am). destruct b; [done |]. exfalso. destruct (S eq_refl) as [I D].
    assert (h_id (hdr n) ∈ V') as Hv by (apply I; by left). clear -code L Am Hn Hv D.
    induction L as [n N|n c m N An C L IH].
    + destruct (D n Hn Hv N) as [An _]. congruence.
    + destruct (D n Hn Hv N) as [_ Nx]. apply IH; try done; [by eapply (tc_closed _ code) | by apply Nx].
  - intros i Hi Hx. destruct (R i Hi Hx) as (c & m & ->%list_elem_of_singleton & L & Em). by exists m.
Qed.

(** *** The test cases of a file *)

(** A node that the code of a test leads to; the code asserts when it leads to an assertion. *)
Definition reaches (testCase : TestCase) (m : node) : Prop :=
  exists body, body_of testCase = Some body /\ leads_to [] body m.

Definition asserted (testCase : TestCase) : Prop := exists m, reaches testCase m /\ asserts m = true.

Definition shares_code (t u : TestCase) : Prop := exists m, reaches t m /\ reaches u m.

Definition report_missing (t : TestCase) (hasAssertions : bool) : list ReportDescriptor :=
  if hasAssertions then [] else [report S2699_message (tc_node t)].

(** What the rule finds for a test after other ones. *)
Definition found_for (before : list TestCase) (t : TestCase) (hasAssertions : bool) : Prop :=
  (hasAssertions = true -> asserted t) /\
  ((forall u, u ∈ before -> ~ shares_code t u) -> asserted t -> hasAssertions = true).

Fixpoint all_found (before tests : list TestCase) (flags : list bool) : Prop :=
  match tests, flags with
  | [], [] => True
  | t :: tests, b :: flags => found_for before t b /\ all_found (before ++ [t]) tests flags
  | _, _ => False
  end.

(** The nodes visited are reached by the tests before. *)
Definition reached_by (before : list TestCase) (V : list nat) : Prop :=
  forall i, i ∈ V -> exists u m, u ∈ before /\ reaches u m /\ m ∈ U /\ h_id (hdr m) = i.

Lemma leads_fresh V n m : (forall x, leads_to [] n x -> h_id (hdr x) ∉ V) -> leads_to [] n m -> leads_to V n m.
Proof.
  intros H L. induction L as [n N|n c m N A C L IH].
  - constructor 1. apply H. by constructor 1.
  - assert (h_id (hdr n) ∉ V) by (apply H; by constructor 1). econstructor 2; [done | done | exact C |].
    apply IH. intros x Hx. apply H. by econstructor 2.
Qed.

Lemma found_after before V t body b : reached_by before V -> body_of t = Some body -> body ∈ U ->
  (b = true <-> exists m, leads_to V body m /\ asserts m = true) -> found_for before t b.
Proof.
  intros R B Hb Hf. split.
  - intros (m & L & A)%Hf. exists m. split; [| done]. exists body. split; [done |]. eapply leads_mono; [| exact L]. apply list_subseteq_nil.
  - intros Sh (m & (body' & B' & L) & A). rewrite B in B'. injection B' as <-. apply Hf. exists m. split; [| done].
    apply leads_fresh; [| done]. intros x Lx Hx. destruct (R _ Hx) as (u & y & Hu & Ry & Hy & E).
    apply (tc_identity _ code) in E as ->; [| done | by eapply leads_in]. apply (Sh u Hu). exists x. split; [| done]. by exists body.
Qed.

Lemma reached_after before V t body V' : reached_by before V -> body_of t = Some body -> body ∈ U ->
  (forall i, i ∈ V' -> i ∉ V -> exists m, leads_to V body m /\ h_id (hdr m) = i) -> reached_by (before ++ [t]) V'.
Proof.
  intros R B Hb Hv i Hi. destruct (decide (i ∈ V)) as [Hx|Hx].
  - destruct (R i Hx) as (u & m & Hu & Ru & Hm & E). exists u, m. split_and!; try done. apply elem_of_app. by left.
  - destruct (Hv i Hi Hx) as (m & L & E). exists t, m. split_and!; [apply elem_of_app; right; by left | | by eapply leads_in | done].
    exists body. split; [done |]. eapply leads_mono; [| exact L]. apply list_subseteq_nil.
Qed.

Definition check_all (tests : list TestCase) (st : assertion_state) : eval assertion_state :=
  rfold (fun st t => checkAssertions t st) tests st.

Lemma check_all_found tests : length U < stack -> (forall t, t ∈ tests -> exists body, body_of t = Some body /\ body ∈ U) ->
  forall before V issues R, reached_by before V ->
  exists V' flags, check_all tests (mkAssertions V issues R) =
      Ok (mkAssertions V' (issues ++ concat (zip_with report_missing tests flags)) R) /\ all_found before tests flags.
Proof.
  intros F. induction tests as [|t tests IH]; intros Hb before V issues R HV.
  { exists V, []. cbn. by rewrite app_nil_r. }
  destruct (Hb t) as (body & B & HB); [by left |]. destruct (visit_finds stack V body HB F) as (V1 & b & E & Fb & Fv).
  destruct (IH (fun t Ht => Hb t (list_elem_of_further _ _ _ Ht)) (before ++ [t]) V1 (issues ++ report_missing t b) R) as (V' & flags & E' & W).
  { by eapply reached_after. }
  exists V', (b :: flags). split; [| split; [by eapply found_after | done]].
  unfold check_all. cbn [rfold]. unfold checkAssertions at 1, node_at. unfold body_of in B. rewrite B. cbn [of_option rbind visitedNodes].
  rewrite E. cbn [rbind potentialIssues assertion_reports zip_with concat]. rewrite app_assoc, <- E'. unfold check_all.
  by destruct b; cbn [report_missing]; rewrite ?app_nil_r.
Qed.

(** The test cases, as the rule meets them. *)
Definition test_of (e : event) : option TestCase := match e with Leave n _ => extractTestCase n | Enter _ _ => None end.

Definition test_cases (program : node) : list TestCase := omap test_of (flat_map (events keys [program]) (childrenOf program keys)).

Lemma run_tests l : (forall n parents, Leave n parents ∈ l -> type_of n <> "Program") ->
  forall st, run S2699_step l st = check_all (omap test_of l) st.
Proof.
  unfold check_all. induction l as [|e l IH]; intros H st; [done |]. rewrite run_cons.
  assert (forall st, run S2699_step l st = rfold (fun st t => checkAssertions t st) (omap test_of l) st) as IHl.
  { apply IH. intros n ps Hn. apply (H n ps). by right. }
  destruct e as [n ps|n ps]; [apply IHl |]. cbn [omap list_omap test_of S2699_step].
  assert (type_of n <> "Program") as P by (apply (H n ps); by left).
  destruct (String.eqb_spec (type_of n) "Program") as [|_]; [done |].
  destruct (String.eqb_spec (type_of n) "CallExpression") as [T|T].
  - destruct (extractTestCase n) as [t|]; cbn [rfold]; [| apply IHl].
    destruct (checkAssertions t st); cbn [rbind]; [apply IHl | done].
  - assert (extractTestCase n = None) as ->; [| apply IHl].
    unfold extractTestCase, isTestCase, isTestConstruct. cbn [existsb]. apply String.eqb_neq in T. by rewrite T.
Qed.

End Search.

(** C39: On code whose functions have their bodies and with room on the stack for its
    nodes, S2699 ends. When a library of assertions is imported, it reports the test
    cases for which it finds no assertion, in their order, and: it finds one only if the
    code of the test leads to an assertion, through the functions that it calls; and it
    does not miss one, in a test that shares no code with the tests before it. *)
Theorem tests_without_assertions_reported program U :
  type_of program = "Program" -> test_code U -> length U < stack ->
  (forall c n parents, c ∈ childrenOf program keys -> Leave n parents ∈ events keys [program] c -> type_of n <> "Program") ->
  (forall t, t ∈ test_cases program -> exists body, body_of t = Some body /\ body ∈ U) ->
  exists st flags, S2699 program = Ok st /\ all_found [] (test_cases program) flags /\
    assertion_reports st = if has_library program then concat (zip_with report_missing (test_cases program) flags) else [].
Proof.
  intros P code F N B. unfold S2699. rewrite run_events. cbn [S2699_step rbind].
  rewrite run_tests; [| intros n ps Hn; apply list_elem_of_In, in_flat_map in Hn as (c & Hc & Hn); apply (N c n ps); by apply list_elem_of_In].
  destruct (check_all_found U code (test_cases program) F B [] [] [] []) as (V & flags & E & W); [by intros i ?%not_elem_of_nil |].
  fold (test_cases program). rewrite E. cbn [rbind S2699_step]. rewrite P. cbn [String.eqb Ascii.eqb Bool.eqb].
  eexists _, flags. split; [done |]. split; [done |]. by destruct (has_library program).
Qed.

End Assertions.

(** ** S5863: the same argument twice *)

Section Arguments.

Context (sc : SourceCode) (sm : ScopeManager).

Definition S5863_message : string := "Replace this argument or its duplicate.".

(** The two loops on the arguments. *)
Definition duplicates_of (a : node) (others : list node) : list ReportDescriptor :=
  flat_map (fun b => if equivalent sc a b && negb (isLiteral (Some a)) then [report_with S5863_message a [secondary b]] else []) others.

Fixpoint findDuplicates (args : list node) : list ReportDescriptor :=
  match args with
  | [] => []
  | a :: others => duplicates_of a others ++ findDuplicates others
  end.

Definition S5863_checkAssert (expression : node) : list ReportDescriptor :=
  if type_of expression =s "CallExpression" then
    if opt_type_is (get_node expression "callee") "MemberExpression" && isIdentifier (callee_prop expression "object") ["assert"]
    then findDuplicates (get_nodes expression "arguments") else []
  else [].

(** The loop down the chain: the arguments of its calls, or [None] when it does not start
    with [expect]. *)
Fixpoint expect_arguments (fuel : nat) (currentExpression : node) (args : list node) : option (list node) :=
  match fuel with
  | O => None
  | S fuel' =>
      if type_of currentExpression =s "CallExpression" then
        callee ← get_node currentExpression "callee"; expect_arguments fuel' callee (get_nodes currentExpression "arguments" ++ args)
      else if type_of currentExpression =s "MemberExpression" then
        object ← get_node currentExpression "object"; expect_arguments fuel' object args
      else if isIdentifier (Some currentExpression) ["expect"] then Some args
      else None
  end.

Definition S5863_checkExpect (expression : node) : list ReportDescriptor :=
  match expect_arguments (node_size expression) expression [] with
  | Some args => findDuplicates args
  | None => []
  end.

Fixpoint should_arguments (fuel : nat) (currentExpression : node) (args : list node) (hasShould : bool) : option (list node) :=
  match fuel with
  | O => None
  | S fuel' =>
      if type_of currentExpression =s "CallExpression" then
        callee ← get_node currentExpression "callee"; should_arguments fuel' callee (get_nodes currentExpression "arguments" ++ args) hasShould
      else if type_of currentExpression =s "MemberExpression" then
        object ← get_node currentExpression "object";
        should_arguments fuel' object args (isIdentifier (get_node currentExpression "property") ["should"] || hasShould)
      else if isIdentifier (Some currentExpression) ["should"] then Some args
      else if hasShould then Some (currentExpression :: args)
      else None
  end.

Definition S5863_checkShould (expression : node) : list ReportDescriptor :=
  match should_arguments (node_size expression) expression [] false with
  | Some args => findDuplicates args
  | None => []
  end.

Definition S5863_ExpressionStatement (n : node) : eval (list ReportDescriptor) :=
  let! expression := node_at n "expression" in
  Ok (S5863_checkExpect expression ++ S5863_checkShould expression ++ S5863_checkAssert expression).

Definition S5863 (program n : node) : eval (list ReportDescriptor) :=
  if isImported sm "chai" program then S5863_ExpressionStatement n else Ok [].

(** It reports the pairs of equivalent arguments whose first one is not a literal. *)
Lemma duplicates_found args d : d ∈ findDuplicates args <->
  exists i j a b, i < j /\ args !! i = Some a /\ args !! j = Some b /\ equivalent sc a b = true /\
    isLiteral (Some a) = false /\ d = report_with S5863_message a [secondary b].
Proof.
  induction args as [|a0 args IH]; cbn [findDuplicates].
  { split; [by intros ?%not_elem_of_nil | intros (i & j & a & b & _ & Hi & _); done]. }
  rewrite elem_of_app, IH. unfold duplicates_of. rewrite list_elem_of_In, in_flat_map. split.
  - intros [(b & Hb & Hd)|(i & j & a & b & Hij & Hi & Hj & E & L & ->)].
    + destruct (equivalent sc a0 b) eqn:E; cbn [andb] in Hd; [| done]. destruct (isLiteral (Some a0)) eqn:L; [done |].
      destruct Hd as [<-|[]]. apply list_elem_of_In, list_elem_of_lookup in Hb as [j Hj]. exists 0, (S j), a0, b. split_and!; try done. lia.
    + exists (S i), (S j), a, b. split_and!; try done. lia.
  - intros (i & j & a & b & Hij & Hi & Hj & E & L & ->). destruct j as [|j]; [lia |]. destruct i as [|i].
    + left. injection Hi as ->. exists b. split; [by apply list_elem_of_In, (list_elem_of_lookup_2 _ j) |]. rewrite E, L. by left.
    + right. exists i, j, a, b. split_and!; try done. lia.
Qed.

End Arguments.

(** ** S2187: files without tests *)

Definition APIs : list string :=
  ["it"; "fit"; "xit"; "it.concurrent"; "it.concurrent.each"; "it.concurrent.only.each"; "it.concurrent.skip.each"; "it.each";
   "it.failing"; "it.failing.each"; "it.only.failing"; "it.skip.failing"; "it.only"; "it.only.each"; "it.skip"; "it.skip.each";
   "it.todo"; "test"; "test.concurrent"; "test.concurrent.each"; "test.concurrent.only.each"; "test.concurrent.skip.each";
   "test.each"; "test.failing"; "test.failing.each"; "test.only.failing"; "test.skip.failing"; "test.only"; "test.only.each";
   "test.skip"; "test.skip.each"; "test.todo"].

Fixpoint fullyQualifiedName (fuel : nat) (n : node) : eval string :=
  match fuel with
  | O => Throw RangeError
  | S fuel' =>
      if type_of n =s "Identifier" then Ok (default "undefined" (get_str n "name"))
      else if type_of n =s "MemberExpression" then
        let! object := node_at n "object" in
        let! property := node_at n "property" in
        let! a := fullyQualifiedName fuel' object in
        let! b := fullyQualifiedName fuel' property in
        Ok (a +:+ "." +:+ b)%string
      else Ok ""
  end.

Definition is_test_file (filename : string) : bool := string_includes ".spec." filename || string_includes ".test." filename.

Definition missing_test : ReportDescriptor :=
  mkDescriptor "missingTest" [] (AtLocation (mkLoc (mkPos 0 0) (mkPos 0 0))) [].

(** The calls of the file, from the first one: whether one of them is a test. *)
Fixpoint has_test (calls : list node) : eval bool :=
  match calls with
  | [] => Ok false
  | call :: rest =>
      let! callee := node_at call "callee" in
      let! fqn := fullyQualifiedName (node_size callee) callee in
      if includes fqn APIs then Ok true else has_test rest
  end.

Definition S2187 (filename : string) (calls : list node) : eval (list ReportDescriptor) :=
  if is_test_file filename then let! hasTest := has_test calls in Ok (if hasTest then [] else [missing_test]) else Ok [].

(** ** S5973: flaky tests *)

Section Flaky.

(** [hasJestDependency(context)] *)
Context (sm : ScopeManager) (hasJest : bool).

Definition hasJestRetry (n : node) : bool :=
  name_is (fullName sm n) "jest.retryTimes" || (hasJest && isMethodInvocation n "jest" "retryTimes" 1).

Definition checkMochaRetries (n : node) : list ReportDescriptor :=
  if opt_type_is (get_node n "callee") "MemberExpression" && opt_type_is (callee_prop n "object") "ThisExpression"
     && isIdentifier (callee_prop n "property") ["retries"]
  then [report "stable" n] else [].

(** The stack [describes] and the reports. *)
Definition S5973_step (e : event) (st : list node * list ReportDescriptor) : result False (list node * list ReportDescriptor) :=
  let '(describes, reports) := st in
  match e with
  | Enter n _ =>
      Ok (if type_of n =s "CallExpression" then
            if hasJestRetry n then (describes, reports ++ [report "stable" n])
            else if isDescribeCase n then (n :: describes, reports)
            else if Nat.ltb 0 (length describes) then (describes, reports ++ checkMochaRetries n)
            else st
          else st)
  | Leave n _ =>
      Ok (if (type_of n =s "CallExpression") && isDescribeCase n then (tail describes, reports)
          else if type_of n =s "Program" then ([], reports)
          else st)
  end.

End Flaky.

(** ** S2970: assertions that are not complete *)

Definition assertionFunctions : list string :=
  ["a"; "an"; "include"; "includes"; "contain"; "contains"; "equal"; "equals"; "eq"; "eql"; "eqls"; "above"; "gt"; "greaterThan";
   "least"; "gte"; "below"; "lt"; "lessThan"; "most"; "lte"; "within"; "instanceof"; "instanceOf"; "property";
   "ownPropertyDescriptor"; "haveOwnPropertyDescriptor"; "lengthOf"; "length"; "match"; "matches"; "string"; "key"; "keys";
   "throw"; "throws"; "Throw"; "respondTo"; "respondsTo"; "satisfy"; "satisfies"; "closeTo"; "approximately"; "members"; "oneOf";
   "change"; "changes"; "increase"; "increases"; "decrease"; "decreases"; "by"; "fail"].

Definition gettersOrModifiers : list string :=
  ["to"; "be"; "been"; "is"; "that"; "which"; "and"; "has"; "have"; "with"; "at"; "of"; "same"; "but"; "does"; "still";
   "not"; "deep"; "nested"; "own"; "ordered"; "any"; "all"; "itself"; "should"].

(** [isNumberLiteral(node.arguments\[0\])], which is [isLiteral(n) && ...] on [undefined] too. *)
Definition isExpectCall (n : node) : bool :=
  (type_of n =s "CallExpression") && isIdentifier (get_node n "callee") ["expect"]
  && negb (match argument_at n 0 with Some a => isNumberLiteral a | None => false end).

Fixpoint isTestAssertion (fuel : nat) (n : node) : bool :=
  match fuel with
  | O => false
  | S fuel' =>
      match get_node n "object" with
      | None => false
      | Some object =>
          if (type_of object =s "Identifier") && isIdentifier (get_node n "property") ["should"] then true
          else if isExpectCall object || isIdentifier (Some object) ["assert"; "expect"; "should"] then true
          else if type_of object =s "MemberExpression" then isTestAssertion fuel' object
          else if type_of object =s "CallExpression" then
            match get_node object "callee" with
            | Some callee => if type_of callee =s "MemberExpression" then isTestAssertion fuel' callee else false
            | None => false
            end
          else false
      end
  end.

Definition call_this (name : string) : string := ("Call this '" +:+ name +:+ "' assertion.")%string.
Definition complete_this (name : string) : string :=
  ("Complete this assertion; '" +:+ name +:+ "' doesn't assert anything by itself.")%string.

Definition S2970 (n : node) : eval (list ReportDescriptor) :=
  let! expression := node_at n "expression" in
  let! chain :=
    if (type_of expression =s "MemberExpression") && isTestAssertion (node_size expression) expression then
      let! property := node_at expression "property" in
      Ok ((if isIdentifier (Some property) assertionFunctions then [report (call_this (node_name property)) property] else [])
          ++ (if isIdentifier (Some property) gettersOrModifiers then [report (complete_this (node_name property)) property] else []))
    else Ok [] in
  if isExpectCall expression then
    let! callee := node_at expression "callee" in Ok (chain ++ [report (complete_this (node_name callee)) callee])
  else Ok chain.

(** ** S3415: arguments of assertions that are inverted *)

Section Inverted.

Context (getText : node -> string) (keys : VisitorKeys).

Definition ASSERT_FUNCTIONS : list string :=
  ["equal"; "notEqual"; "strictEqual"; "notStrictEqual"; "deepEqual"; "notDeepEqual"; "closeTo"; "approximately"].

(** [\[actual, expected, format\]]; an argument that is not there is [None]. *)
Definition assertion_arguments : Type := (option node * option node * string)%type.

(** Of a call of a method with two arguments or more: its arguments, the object and the
    property. *)
Definition two_arguments (n : node) : option (assertion_arguments * node * node) :=
  if isMethodCall n && (1 <? argument_count n) then
    match callee_prop n "object", callee_prop n "property" with
    | Some object, Some property =>
        Some (argument_at n 0, argument_at n 1, (node_name object +:+ "." +:+ node_name property +:+ "(actual, expected)")%string,
              object, property)
    | _, _ => None
    end
  else None.

Definition extractAssertArguments (n : node) : option assertion_arguments :=
  match two_arguments n with
  | Some (args, object, property) =>
      if isIdentifier (Some object) ["assert"] && isIdentifier (Some property) ASSERT_FUNCTIONS then Some args else None
  | None => None
  end.

(** [while (object.type === 'MemberExpression') object = object.object] *)
Fixpoint innermost_object (fuel : nat) (object : node) : node :=
  match fuel with
  | O => object
  | S fuel' =>
      if type_of object =s "MemberExpression" then
        match get_node object "object" with Some inner => innermost_object fuel' inner | None => object end
      else object
  end.

Definition extractExpectArguments (n : node) : option assertion_arguments :=
  if opt_type_is (get_node n "callee") "MemberExpression" then
    if isIdentifier (callee_prop n "property") ["equal"; "eql"; "closeTo"] then
      match callee_prop n "object", callee_prop n "property" with
      | Some object, Some property =>
          let object := innermost_object (node_size object) object in
          if (type_of object =s "CallExpression") && isIdentifier (get_node object "callee") ["expect"]
          then Some (argument_at object 0, argument_at n 0, ("expect(actual).to." +:+ node_name property +:+ "(expected)")%string)
          else None
      | _, _ => None
      end
    else None
  else None.

Definition extractFailArguments (n : node) : option assertion_arguments :=
  match two_arguments n with
  | Some (args, object, property) =>
      if isIdentifier (Some object) ["assert"; "expect"; "should"] && isIdentifier (Some property) ["fail"] then Some args else None
  | None => None
  end.

Definition extractAssertionsArguments (n : node) : option assertion_arguments :=
  match extractAssertArguments n with
  | Some args => Some args
  | None => match extractExpectArguments n with Some args => Some args | None => extractFailArguments n end
  end.

(** A report with the replacements that its suggestion makes. *)
Definition swap : Type := (ReportDescriptor * list (node * string))%type.

(** ESLint refuses a report without a node; its error stands as a [TypeError]. *)
Definition checkInvertedArguments (n : node) : eval (list swap) :=
  match extractAssertionsArguments n with
  | Some (Some actual, expected, format) =>
      if isLiteral (Some actual) && negb (isLiteral expected) then
        let! expected := of_option TypeError expected in
        Ok [(report_with ("Swap these 2 arguments so they are in the correct order: " +:+ format +:+ ".")%string expected
               [secondary_with actual "Other argument to swap."],
             [(actual, getText expected); (expected, getText actual)])]
      else Ok []
  | _ => Ok []
  end.

(** The stack [testCases] and the reports. *)
Definition S3415_step (e : event) (st : list node * list swap) : eval (list node * list swap) :=
  let '(testCases, reports) := st in
  match e with
  | Enter n _ =>
      if type_of n =s "CallExpression" then
        if isTestCase n then Ok (n :: testCases, reports)
        else if 0 <? length testCases then let! r := checkInvertedArguments n in Ok (testCases, reports ++ r)
        else Ok st
      else Ok st
  | Leave n _ => Ok (if (type_of n =s "CallExpression") && isTestCase n then (tail testCases, reports) else st)
  end.

Definition S3415 (program : node) : eval (list node * list swap) := run S3415_step (events keys [] program) ([], []).

(** What the rule does at an event, from the nodes above only. *)
Definition inverted_at (e : event) : eval (list swap) :=
  match e with
  | Enter n parents =>
      if (type_of n =s "CallExpression") && negb (isTestCase n) && existsb isTestCase parents
      then checkInvertedArguments n else Ok []
  | Leave _ _ => Ok []
  end.

Lemma test_case_call n : isTestCase n = true -> type_of n = "CallExpression".
Proof.
  unfold isTestCase, isTestConstruct. cbn [existsb]. destruct (String.eqb_spec (type_of n) "CallExpression"); [done |].
  cbn [andb orb]. done.
Qed.

Lemma open_tests (parents : list node) : (0 <? length (List.filter isTestCase parents)) = existsb isTestCase parents.
Proof. induction parents as [|p l IH]; [done |]. cbn [List.filter existsb]. destruct (isTestCase p); [done | exact IH]. Qed.

Lemma enter_inverted n parents R : S3415_step (Enter n parents) (List.filter isTestCase parents, R) =
  let! own := inverted_at (Enter n parents) in Ok (List.filter isTestCase (n :: parents), R ++ own).
Proof.
  cbn [S3415_step inverted_at List.filter]. rewrite open_tests. destruct (isTestCase n) eqn:T.
  - apply test_case_call in T. rewrite T. cbn. by rewrite app_nil_r.
  - rewrite andb_true_r. destruct (type_of n =s "CallExpression"); cbn [andb rbind]; [| by rewrite app_nil_r].
    destruct (existsb isTestCase parents); cbn [rbind]; [done | by rewrite app_nil_r].
Qed.

Lemma leave_inverted n parents R : S3415_step (Leave n parents) (List.filter isTestCase (n :: parents), R) =
  Ok (List.filter isTestCase parents, R).
Proof.
  cbn [S3415_step List.filter]. destruct (isTestCase n) eqn:T; [| by rewrite andb_false_r].
  apply test_case_call in T. by rewrite T.
Qed.

(** S3415 checks exactly the calls inside test cases, and no test case stays open. *)
Theorem inverted_in_tests program : S3415 program =
  let! r := all_reports (map inverted_at (events keys [] program)) in Ok ([], r).
Proof.
  apply (run_stack keys S3415_step (fun parents => List.filter isTestCase parents) inverted_at); [| | done].
  - intros n parents R. apply enter_inverted.
  - intros n parents R. apply leave_inverted.
Qed.

End Inverted.

(** ** S6079: code after a call of [done] *)

Section Done.

Context (sm : ScopeManager).

(** A segment of a code path: its identity, and those of the next ones. *)
Record Segment := mkSegment { seg_id : string; nextSegments : list string }.

Record done_state := mkDone {
  currentDoneVariable : option VarId;
  doneCall : option node;
  doneSegment : option Segment;
  currentSegment : option Segment;
  currentCase : option TestCase;
  segmentFirstStatement : list (string * node);
  done_reports : list ReportDescriptor
}.

Inductive done_event :=
| OnCall (n : node)
| OnExpressionStatement (n : node)
| OnSegmentStart (segment : Segment)
| OnCodePathEnd (n : node).

(** [getScope(node).childScopes.find(scope => scope.block === block)] *)
Definition child_scope (n block : node) : option ScopeId :=
  scope ← sm_getScope sm n;
  List.find (fun i => match sm_scopes sm !! i with
                      | Some child => bool_decide (sco_upper child = Some scope) && same_node (sco_block child) block
                      | None => false
                      end) (seq 0 (length (sm_scopes sm))).

(** The variable of the first parameter of a test case. *)
Definition done_variable (n : node) (testCase : TestCase) : option VarId :=
  done ← head (get_nodes (tc_callback testCase) "params");
  if type_of done =s "Identifier" then
    callbackScope ← child_scope n (tc_callback testCase); getVariableFromIdentifier sm done callbackScope
  else None.

Definition checkForTestCase (n : node) (st : done_state) : done_state :=
  match extractTestCase n with
  | Some testCase =>
      mkDone (done_variable n testCase) (doneCall st) (doneSegment st) (currentSegment st) (Some testCase)
        (segmentFirstStatement st) (done_reports st)
  | None => st
  end.

Definition is_reference (variable : VarId) (n : node) : bool :=
  match variable_at sm variable with
  | Some v => existsb (fun r => same_node (ref_identifier r) n) (omap (reference_at sm) (var_references v))
  | None => false
  end.

Definition checkForDoneCall (n : node) (st : done_state) : done_state :=
  match currentDoneVariable st, get_node n "callee" with
  | Some variable, Some callee =>
      if is_reference variable callee
      then mkDone (currentDoneVariable st) (Some n) (currentSegment st) (currentSegment st) (currentCase st)
             (segmentFirstStatement st) (done_reports st)
      else st
  | _, _ => st
  end.

Definition S6079_message : string := ("Move this code before the call to " +:+ quoted "done" +:+ ".")%string.

Definition report_after_done (statementAfterDone : node) (st : done_state) : eval done_state :=
  let! call := of_option TypeError (doneCall st) in
  Ok (mkDone None None None (currentSegment st) (currentCase st) (segmentFirstStatement st)
        (done_reports st ++ [report_with S6079_message statementAfterDone [secondary call]])).

Definition same_segment (a b : option Segment) : bool :=
  match a, b with Some a, Some b => seg_id a =s seg_id b | _, _ => false end.

Definition S6079_step (st : done_state) (e : done_event) : eval done_state :=
  match e with
  | OnCall n => Ok (checkForDoneCall n (checkForTestCase n st))
  | OnExpressionStatement n =>
      let! st := if same_segment (currentSegment st) (doneSegment st) then report_after_done n st else Ok st in
      Ok (match currentSegment st with
          | Some segment =>
              if bool_decide (is_Some (map_get (seg_id segment) (segmentFirstStatement st))) then st
              else mkDone (currentDoneVariable st) (doneCall st) (doneSegment st) (currentSegment st) (currentCase st)
                     (map_set (seg_id segment) n (segmentFirstStatement st)) (done_reports st)
          | None => st
          end)
  | OnSegmentStart segment =>
      Ok (mkDone (currentDoneVariable st) (doneCall st) (doneSegment st) (Some segment) (currentCase st)
            (segmentFirstStatement st) (done_reports st))
  | OnCodePathEnd n =>
      let st := mkDone (currentDoneVariable st) (doneCall st) (doneSegment st) None (currentCase st)
                  (segmentFirstStatement st) (done_reports st) in
      match currentCase st, doneSegment st with
      | Some testCase, Some segment =>
          if same_node (tc_callback testCase) n then
            match head (omap (fun s => map_get s (segmentFirstStatement st)) (nextSegments segment)) with
            | Some statementAfterDone => report_after_done statementAfterDone st
            | None => Ok st
            end
          else Ok st
      | _, _ => Ok st
      end
  end.

Definition S6079 (events : list done_event) : eval done_state := rfold S6079_step events (mkDone None None None None None [] []).

(** When a segment is remembered, so is the call made on it: the rule does not throw. *)
Definition call_known (st : done_state) : Prop := doneSegment st <> None -> doneCall st <> None.

Lemma done_step_known st e : call_known st -> exists st', S6079_step st e = Ok st' /\ call_known st'.
Proof.
  intros K. assert (forall n st, call_known st -> doneSegment st <> None -> exists st', report_after_done n st = Ok st' /\ call_known st') as R.
  { intros n st0 K0 D. unfold report_after_done. destruct (doneCall st0) as [c|] eqn:C; [| by destruct (K0 D)].
    eexists. split; [done |]. by intros []. }
  destruct e as [n|n|s|n]; cbn [S6079_step].
  - eexists. split; [done |]. unfold checkForDoneCall, checkForTestCase.
    destruct (extractTestCase n); cbn [currentDoneVariable]; destruct (get_node n "callee"); cbn;
      repeat case_goal; unfold call_known in *; cbn; done.
  - assert (exists st1, (if same_segment (currentSegment st) (doneSegment st) then report_after_done n st else Ok st) = Ok st1 /\ call_known st1) as (st1 & E1 & K1).
    { unfold same_segment. destruct (currentSegment st), (doneSegment st) eqn:D; try by exists st.
      destruct (_ =s _); [| by exists st]. apply R; [done | by rewrite D]. }
    match goal with |- context [rbind ?m _] => replace m with (@Ok aws_error done_state st1) by (symmetry; exact E1) end.
    cbn [rbind]. eexists. split; [done |]. by repeat case_goal.
  - eexists. by split.
  - destruct (currentCase _); [| by eexists]. cbn [doneSegment]. destruct (doneSegment st) eqn:D; [| eexists; split; [done |]; unfold call_known; cbn; by rewrite ?D].
    destruct (same_node _ _); [| eexists; split; [done |]; unfold call_known in *; cbn; by rewrite D in K].
    destruct (head _) as [s0|]; [| eexists; split; [done |]; unfold call_known in *; cbn; by rewrite D in K].
    apply R; [unfold call_known in *; cbn; by rewrite D in K | done].
Qed.

Lemma S6079_never_throws events : exists st, S6079 events = Ok st.
Proof.
  unfold S6079. assert (call_known (mkDone None None None None None [] [])) as K by (by intros []).
  revert K. generalize (mkDone None None None None None [] []). induction events as [|e events IH]; intros st K; [by exists st |].
  destruct (done_step_known st e K) as (st' & E & K'). cbn [rfold]. rewrite E. by apply IH.
Qed.

End Done.

(** ** S1607: tests that are skipped without a reason *)

Section Skipped.

Context (sm : ScopeManager) (parents : node -> list node) (stack : nat).
(** [sourceCode.getAllComments()], and [/\p{L}/u.test]: whether a text has a letter. *)
Context (getAllComments : list Comment) (has_letter : string -> bool).
(** [scopeManager.getDeclaredVariables] *)
Context (getDeclaredVariables : node -> list VarId).

Definition line_of (comment : Comment) : eval Z :=
  let! loc := of_option TypeError (c_loc comment) in Ok (line (endp loc)).

Definition isAdjacent (comment : Comment) (n : node) : eval bool :=
  let! commentLine := line_of comment in
  let! loc := of_option TypeError (h_loc (hdr n)) in
  Ok (Z.abs (commentLine - line (start loc)) <=? 1)%Z.

Definition hasContent (comment : Comment) : bool := has_letter (trim (c_value comment)).

Fixpoint some_explains (comments : list Comment) (n : node) : eval bool :=
  match comments with
  | [] => Ok false
  | comment :: rest =>
      let! adjacent := isAdjacent comment n in
      if adjacent && hasContent comment then Ok true else some_explains rest n
  end.

Definition hasExplanationComment (n : node) : eval bool := some_explains getAllComments n.

Definition jasmine_isIgnoredTest (n : node) : bool := isIdentifier (get_node n "callee") ["xit"; "xdescribe"; "xcontext"].

Definition jest_isIgnoredTest (n : node) : bool :=
  isMethodInvocation n "test" "skip" 0 || isMethodInvocation n "it" "skip" 0 || isMethodInvocation n "describe" "skip" 0
  || isFunctionInvocation n "xtest" 0 || isFunctionInvocation n "xit" 0 || isFunctionInvocation n "xdescribe" 0.

Definition mocha_isIgnoredTest (n : node) : bool :=
  isMethodInvocation n "it" "skip" 0 || isMethodInvocation n "describe" "skip" 0 || isMethodInvocation n "context" "skip" 0.

(** The listeners of Jasmine, Jest and Mocha, on a call. *)
Definition ignored_listener (isIgnoredTest : node -> bool) (n : node) : eval (list ReportDescriptor) :=
  if isIgnoredTest n then
    let! explained := hasExplanationComment n in
    if explained then Ok [] else let! callee := node_at n "callee" in Ok [report "removeOrExplainTest" callee]
  else Ok [].

Definition empty_text (n : node) : bool := isLiteral (Some n) && str_prop_is n "value" "".

(** The loop on the references of the context of the test. *)
Fixpoint skip_calls (references : list Reference) : eval (list ReportDescriptor) :=
  match references with
  | [] => Ok []
  | r :: rest =>
      match ref_parents r !! 1 with
      | Some skipCall =>
          if (type_of skipCall =s "CallExpression") && isMethodInvocation skipCall (node_name (ref_identifier r)) "skip" 0
             && match argument_at skipCall 0 with Some skipArg => empty_text skipArg | None => true end
          then let! callee := node_at skipCall "callee" in Ok [report "removeOrExplainTest" callee]
          else skip_calls rest
      | None => skip_calls rest
      end
  end.

Definition handleSkipMethod (n : node) : eval (list ReportDescriptor) :=
  match argument_at n 1 ≫= resolveFunction sm with
  | Some fn =>
      match head (get_nodes fn "params") with
      | Some testCtxParam =>
          if isIdentifier (Some testCtxParam) [] then
            match List.find (named sm (node_name testCtxParam)) (getDeclaredVariables fn) ≫= variable_at sm with
            | Some testCtxVar => skip_calls (omap (reference_at sm) (var_references testCtxVar))
            | None => Ok []
            end
          else Ok []
      | None => Ok []
      end
  | None => Ok []
  end.

Definition handleSkipOption (n : node) : eval (list ReportDescriptor) :=
  match valueOf sm (argument_at n 1) "ObjectExpression" with
  | Some options =>
      let! skipProperty := found_property sm parents stack (Some options) "skip" in
      Ok (match skipProperty with
          | Some skipProperty =>
              match property_literal sm skipProperty with
              | VBool true => [report "removeOrExplainTest" skipProperty]
              | VStr s => if s =s "" then [report "removeOrExplainTest" skipProperty] else []
              | _ => []
              end
          | None => []
          end)
  | None => Ok []
  end.

Definition nodejsListener (n : node) : eval (list ReportDescriptor) :=
  let! callee := node_at n "callee" in
  if fqn_is sm callee "test" then
    if Nat.eqb (argument_count n) 2 then handleSkipMethod n
    else if Nat.eqb (argument_count n) 3 then handleSkipOption n
    else Ok []
  else Ok [].

(** The listener on calls, from the dependencies of the file and whether it has manifests. *)
Definition S1607 (dependencies : list string) (hasManifests : bool) (n : node) : eval (list ReportDescriptor) :=
  if includes "jasmine" dependencies then ignored_listener jasmine_isIgnoredTest n
  else if includes "jest" dependencies then ignored_listener jest_isIgnoredTest n
  else if includes "mocha" dependencies then ignored_listener mocha_isIgnoredTest n
  else if hasManifests then nodejsListener n
  else Ok [].

End Skipped.

(** ** S6092: assertions that succeed for several reasons *)

Record ChainElement := mkElement { ce_identifier : node; ce_arguments : option (list node) }.

(** The loop down the chain; the last element comes first, so that [result] is in the
    order of the reversed array. *)
Fixpoint chain_loop (fuel : nat) (currentNode : node) (currentArguments : option (list node)) (result : list ChainElement)
    : list ChainElement :=
  match fuel with
  | O => result
  | S fuel' =>
      if isDotNotation currentNode then
        match get_node currentNode "property", get_node currentNode "object" with
        | Some property, Some object => chain_loop fuel' object None (mkElement property currentArguments :: result)
        | _, _ => result
        end
      else if type_of currentNode =s "CallExpression" then
        match get_node currentNode "callee" with
        | Some callee => chain_loop fuel' callee (Some (get_nodes currentNode "arguments")) result
        | None => result
        end
      else if isIdentifier (Some currentNode) [] then mkElement currentNode currentArguments :: result
      else result
  end.

Definition retrieveAssertionChainElements (n : node) : list ChainElement := chain_loop (node_size n) n None [].

Fixpoint find_index {A} (f : A -> bool) (l : list A) : option nat :=
  match l with
  | [] => None
  | x :: r => if f x then Some 0 else S <$> find_index f r
  end.

Definition getElementIndex (elements : list ChainElement) (name : string) : option nat :=
  find_index (fun element => isIdentifier (Some (ce_identifier element)) [name]) elements.

Definition neighborIndexes (firstIndex secondIndex : nat) (elements : list ChainElement) : bool :=
  if Nat.eqb (firstIndex + 2) secondIndex then
    match elements !! (firstIndex + 1) with Some e => bool_decide (ce_arguments e = None) | None => true end
  else Nat.eqb (firstIndex + 1) secondIndex.

Definition S6092_message : string := "Refactor this uncertain assertion; it can succeed for multiple reasons.".

Definition locFromTwoNodes (a b : node) : eval SourceLocation :=
  let! la := of_option TypeError (h_loc (hdr a)) in
  let! lb := of_option TypeError (h_loc (hdr b)) in
  Ok (mkLoc (start la) (endp lb)).

Definition checkWithCondition (elements : list ChainElement) (first second : string) (condition : option (list node) -> bool)
    : eval (list ReportDescriptor) :=
  match getElementIndex elements first, getElementIndex elements second with
  | Some firstIndex, Some secondIndex =>
      match elements !! firstIndex, elements !! secondIndex with
      | Some firstElement, Some secondElement =>
          if neighborIndexes firstIndex secondIndex elements && condition (ce_arguments secondElement) then
            let! loc := locFromTwoNodes (ce_identifier firstElement) (ce_identifier secondElement) in
            Ok [mkDescriptor S6092_message [] (AtLocation loc) []]
          else Ok []
      | _, _ => Ok []
      end
  | _, _ => Ok []
  end.

Definition arguments_over (k : nat) (args : option (list node)) : bool :=
  match args with Some l => k <? length l | None => false end.

Definition any_arguments (args : option (list node)) : bool := true.

Definition checkNotThrow (elements : list ChainElement) := checkWithCondition elements "not" "throw" (arguments_over 0).

Definition checkNotInclude (elements : list ChainElement) :=
  checkWithCondition elements "not" "include"
    (fun args => match args with Some (a :: _) => type_of a =s "ObjectExpression" | _ => false end).

Definition checkNotHaveProperty (elements : list ChainElement) := checkWithCondition elements "not" "property" (arguments_over 1).

Definition checkNotHaveOwnPropertyDescriptor (elements : list ChainElement) :=
  checkWithCondition elements "not" "ownPropertyDescriptor" (arguments_over 1).

Definition checkNotHaveMembers (elements : list ChainElement) := checkWithCondition elements "not" "members" any_arguments.

Definition checkChangeBy (elements : list ChainElement) := checkWithCondition elements "change" "by" any_arguments.

Definition checkNotIncDec (elements : list ChainElement) :=
  both (checkWithCondition elements "not" "increase" any_arguments) (checkWithCondition elements "not" "decrease" any_arguments).

Definition checkNotBy (elements : list ChainElement) := checkWithCondition elements "not" "by" any_arguments.

Definition checkNotFinite (elements : list ChainElement) := checkWithCondition elements "not" "finite" any_arguments.

Definition chain_checks : list (list ChainElement -> eval (list ReportDescriptor)) :=
  [checkNotThrow; checkNotInclude; checkNotHaveProperty; checkNotHaveOwnPropertyDescriptor; checkNotHaveMembers; checkChangeBy;
   checkNotIncDec; checkNotBy; checkNotFinite].

Definition S6092_ExpressionStatement (n : node) : eval (list ReportDescriptor) :=
  let! expression := node_at n "expression" in
  let elements := retrieveAssertionChainElements expression in
  if (1 <? length elements)
     && (match elements with e :: _ => isIdentifier (Some (ce_identifier e)) ["expect"] | [] => false end
         || bool_decide (is_Some (getElementIndex elements "should")))
  then all_reports (map (fun check => check elements) chain_checks)
  else Ok [].

Definition S6092 (sm : ScopeManager) (program n : node) : eval (list ReportDescriptor) :=
  if isImported sm "chai" program then S6092_ExpressionStatement n else Ok [].

(** ** Examples *)

Module TestsExample.

Definition mk (i : nat) (t : string) (ps : list (string * value)) : node := Node (mkHeader i t None None) ps.
Definition ident (i : nat) (name : string) : node := mk i "Identifier" [("name", VStr name)].
Definition call (i : nat) (callee : node) (arguments : list node) : node :=
  mk i "CallExpression" [("callee", VNode callee); ("arguments", VArr (map VNode arguments))].
Definition member (i : nat) (object property : node) : node :=
  mk i "MemberExpression" [("object", VNode object); ("property", VNode property); ("computed", VBool false)].
Definition statement (i : nat) (e : node) : node := mk i "ExpressionStatement" [("expression", VNode e)].
Definition block (i : nat) (body : list node) : node := mk i "BlockStatement" [("body", VArr (map VNode body))].
Definition function (i : nat) (body : node) : node := mk i "FunctionExpression" [("params", VArr []); ("body", VNode body)].
Definition text (i : nat) (s : string) : node := mk i "Literal" [("value", VStr s)].

Definition keys : VisitorKeys := fun type =>
  map_get type [("Program", ["body"]); ("BlockStatement", ["body"]); ("ExpressionStatement", ["expression"]);
    ("CallExpression", ["callee"; "arguments"]); ("MemberExpression", ["object"; "property"]);
    ("FunctionExpression", ["params"; "body"]); ("FunctionDeclaration", ["body"])].

(** [function check() { a.should; }], and two tests whose code is [check();]. *)
Definition assertion : node := member 12 (ident 13 "a") (ident 14 "should").
Definition check_body : node := block 10 [statement 11 assertion].
Definition check : node := mk 8 "FunctionDeclaration" [("id", VNode (ident 9 "check")); ("body", VNode check_body)].
Definition test_body (i : nat) : node := block i [statement (i + 1) (call (i + 2) (ident (i + 3) "check") [])].
Definition test (i : nat) : node := call i (ident (i + 1) "it") [text (i + 2) "works"; function (i + 3) (test_body (i + 4))].
Definition import_chai : node := mk 2 "ImportDeclaration" [("source", VNode (text 3 "chai")); ("specifiers", VArr [])].
Definition program : node :=
  mk 1 "Program" [("sourceType", VStr "module");
    ("body", VArr (map VNode [import_chai; check; statement 19 (test 20); statement 29 (test 30)]))].

Definition use (callee : node) : Reference := mkReference callee [] 0 (Some 0) None false true false.
Definition scopes : ScopeManager :=
  mkScopeManager [mkScope program None [0] [0; 1]]
    [mkVariable "check" 0 None [mkDef "FunctionName" None (ident 9 "check") check] [0; 1]]
    [use (ident 27 "check"); use (ident 37 "check")] (fun _ => Some 0).

Definition code : list node :=
  [check_body; statement 11 assertion; assertion; ident 13 "a"; ident 14 "should";
   test_body 24; statement 25 (call 26 (ident 27 "check") []); call 26 (ident 27 "check") []; ident 27 "check";
   test_body 34; statement 35 (call 36 (ident 37 "check") []); call 36 (ident 37 "check") []; ident 37 "check"].

Ltac each_member H := repeat (apply elem_of_cons in H as [->|H]); [.. | by apply not_elem_of_nil in H].
Ltac is_member := apply list_elem_of_In; vm_compute; repeat ((left; reflexivity) || right).

Lemma code_is_closed : test_code scopes keys code.
Proof.
  split.
  - intros n c Hn Hc. each_member Hn; vm_compute in Hc; repeat (apply elem_of_cons in Hc as [->|Hc]);
      try (by apply not_elem_of_nil in Hc); is_member.
  - intros a b Ha Hb. each_member Ha; each_member Hb; (done || (by vm_compute)).
  - intros n f Hn Hf. each_member Hn; vm_compute in Hf; try done; injection Hf as <-; by eexists.
Qed.

Definition first_test : TestCase := mkTestCase (ident 21 "it") (function 23 (test_body 24)).
Definition second_test : TestCase := mkTestCase (ident 31 "it") (function 33 (test_body 34)).

Lemma tests_of_program : test_cases keys program = [first_test; second_test].
Proof. reflexivity. Qed.

Lemma tests_without_assertions_reported_witness :
  exists st flags, S2699 scopes keys 20 program = Ok st /\ all_found scopes keys [] (test_cases keys program) flags /\
    assertion_reports st =
      if has_library scopes program then concat (zip_with report_missing (test_cases keys program) flags) else [].
Proof.
  apply (tests_without_assertions_reported scopes keys 20 program code); [done | exact code_is_closed | cbn; lia | |].
  - intros c n parents Hc Hn. assert (type_of n =s "Program" = false) as T; [| by apply String.eqb_neq].
    enough (forallb (fun e => match e with Leave n _ => negb (type_of n =s "Program") | _ => true end)
              (flat_map (events keys [program]) (childrenOf program keys)) = true) as F.
    { rewrite forallb_forall in F. apply negb_true_iff, (F (Leave n parents)), in_flat_map. exists c. by rewrite <- !list_elem_of_In. }
    by vm_compute.
  - intros t Ht. rewrite tests_of_program in Ht. each_member Ht; eexists; (split; [reflexivity | is_member]).
Defined.

(** Both tests lead to the assertion, but the second one is reported: what the first one
    visited is not visited again. *)
Lemma shared_helper_reported :
  (exists st, S2699 scopes keys 20 program = Ok st /\ assertion_reports st = [report S2699_message (tc_node second_test)]) /\
  asserted scopes keys second_test.
Proof.
  split; [eexists; by vm_compute |].
  exists assertion. split; [| by vm_compute]. exists (test_body 34). split; [done |].
  eapply leads_on; [apply not_elem_of_nil | by vm_compute | vm_compute; by left |].
  eapply leads_on; [apply not_elem_of_nil | by vm_compute | vm_compute; by left |].
  eapply (leads_on _ _ _ _ check_body); [apply not_elem_of_nil | by vm_compute | by apply list_elem_of_In; vm_compute; left |].
  eapply leads_on; [apply not_elem_of_nil | by vm_compute | vm_compute; by left |].
  eapply leads_on; [apply not_elem_of_nil | by vm_compute | vm_compute; by left |].
  constructor 1. apply not_elem_of_nil.
Qed.

(** [declare function check(): void;]: a test that calls it makes the rule throw. *)
Definition declared : node := mk 8 "TSDeclareFunction" [("id", VNode (ident 9 "check")); ("body", VUndefined)].
Definition declared_scopes : ScopeManager :=
  mkScopeManager [mkScope program None [0] [0]] [mkVariable "check" 0 None [mkDef "FunctionName" None (ident 9 "check") declared] [0]]
    [use (ident 27 "check")] (fun _ => Some 0).

Lemma declared_function_throws stack : 4 <= stack -> checkAssertions declared_scopes keys stack first_test (mkAssertions [] [] []) = Throw TypeError.
Proof. intros H. do 4 (destruct stack as [|stack]; [lia |]). reflexivity. Qed.

(** [it('x', done => { f(() => {}); done(); g(); })]: a function in the test hides the
    segment in which [done] is called, so that nothing is reported; without it the last
    statement is. *)
Definition done_test : node :=
  call 40 (ident 41 "it") [text 42 "x"; mk 43 "ArrowFunctionExpression" [("params", VArr [VNode (ident 44 "done")]); ("body", VNode (block 45 []))]].
Definition done_callback : node :=
  mk 43 "ArrowFunctionExpression" [("params", VArr [VNode (ident 44 "done")]); ("body", VNode (block 45 []))].
Definition done_scopes : ScopeManager :=
  mkScopeManager [mkScope program None [] []; mkScope done_callback (Some 0) [0] [0]]
    [mkVariable "done" 1 None [] [0]] [mkReference (ident 52 "done") [] 1 (Some 0) None false true false] (fun _ => Some 0).
Definition segment (id : string) (next : list string) : Segment := mkSegment id next.
Definition call_done : node := call 51 (ident 52 "done") [].
Definition last_statement : node := statement 60 (call 61 (ident 62 "g") []).
Definition around_done (inner : list done_event) : list done_event :=
  [OnSegmentStart (segment "s1" []); OnCall done_test; OnSegmentStart (segment "s2" [])] ++ inner
  ++ [OnExpressionStatement (statement 50 call_done); OnCall call_done; OnExpressionStatement last_statement; OnCodePathEnd done_callback].

Lemma inner_function_hides_done :
  done_reports <$> (match S6079 done_scopes (around_done []) with Ok st => Some st | _ => None end)
    = Some [report_with S6079_message last_statement [secondary call_done]] /\
  done_reports <$> (match S6079 done_scopes (around_done [OnSegmentStart (segment "s3" []); OnCodePathEnd (function 48 (block 49 []))]) with
                    | Ok st => Some st | _ => None end) = Some [].
Proof. by vm_compute. Qed.

(** [expect(0).to.equal()] in a test: there is no node to report. *)
Lemma missing_expected_throws :
  let zero := mk 73 "Literal" [("value", VNum (NumQ 0))] in
  checkInvertedArguments (fun _ => "") (call 70 (member 71 (member 74 (call 72 (ident 75 "expect") [zero]) (ident 76 "to")) (ident 77 "equal")) [])
  = Throw TypeError.
Proof. reflexivity. Qed.

End TestsExample.
