(* ===== verification/Functions.v ===== *)
(** * Functions: rules on functions, their calls and the nesting of code

    S930 and S3699 (arguments and results of calls), S4322 (type predicates), S3686 (functions
    called with and without [new]), S2004, S134 and S1219 (nesting), S3626 (redundant jumps),
    S3616 and S1479 (cases), S1066 (nested conditions), S1125 (boolean literals), S881
    (increments), S2428 and S3499 (properties of objects), S1848 (objects that are not used),
    S4634 (trivial promises) and S5958 (tests of exceptions). *)

From Stdlib Require Import ZArith QArith Lia Ascii.
From stdpp Require Import base list sets strings pretty.
From S2P Require Import Prelude JsString Estree JsNumber Reports Ast Modules Duplicates Traversal Aws Calls Statements Tests.
From S2P Require Cognitive.

Open Scope js_scope.
Open Scope nat_scope.

(** [:function] *)
Definition is_function (n : node) : bool := includes (type_of n) ["FunctionDeclaration"; "FunctionExpression"; "ArrowFunctionExpression"].

(** ** Functions behind names *)

Section Functions.

Context (sm : ScopeManager) (sc : SourceCode) (getTokensBefore : node -> list Token).

Local Notation main_location := (Cognitive.getMainFunctionTokenLocation sc getTokensBefore).

(** [getScope(node).references.find(ref => ref.identifier === identifier)] *)
Definition reference_of (n identifier : node) : option Reference :=
  s ← sm_getScope sm n; scope ← scope_at sm s; reference_in sm scope identifier.

Definition getSingleDefinition (reference : Reference) : option Def :=
  match ref_resolved reference ≫= variable_at sm with
  | Some variable => match var_defs variable with [d] => Some d | _ => None end
  | None => None
  end.

(** The function of a definition: a declaration, or the initial value of a variable. *)
Definition function_of_definition (definition : Def) : option node :=
  if def_type definition =s "FunctionName" then Some (def_node definition)
  else if def_type definition =s "Variable" then
    init ← get_node (def_node definition) "init";
    if isFunctionExpression (Some init) || isArrowFunctionExpression (Some init) then Some init else None
  else None.

(** ** S930: calls with too many arguments *)

(** [usingArguments] and [emptyFunctions] are sets of nodes. *)
Record call_state := mkCalls {
  callExpressionsToCheck : list (node * node);
  usingArguments : list node;
  emptyFunctions : list node;
  call_reports : list ReportDescriptor
}.

Definition checkFunction (callExpr functionNode : node) (st : call_state) : call_state :=
  let params := get_nodes functionNode "params" in
  if negb (existsb (fun param => type_of param =s "RestElement") params) && (length params <? argument_count callExpr)
  then mkCalls (callExpressionsToCheck st ++ [(callExpr, functionNode)]) (usingArguments st) (emptyFunctions st) (call_reports st)
  else st.

(** The function that a call names or is made of. *)
Definition called_function (callExpr : node) : option node :=
  callee ← get_node callExpr "callee";
  if isIdentifier (Some callee) [] then
    definition ← reference_of callExpr callee ≫= getSingleDefinition; function_of_definition definition
  else if isArrowFunctionExpression (Some callee) || isFunctionExpression (Some callee) then Some callee
  else None.

Definition is_empty_function (n : node) : bool :=
  match get_node n "body" with
  | Some body => (type_of body =s "BlockStatement") && Nat.eqb (length (get_array body "body")) 0 && Nat.eqb (length (get_array n "params")) 0
  | None => false
  end.

(** The selectors [FunctionDeclaration > BlockStatement Identifier] and
    [FunctionExpression > BlockStatement Identifier]: a block of a function is above. *)
Fixpoint in_body_of_function (ancestors : list node) : bool :=
  match ancestors with
  | block :: (fn :: _) as rest =>
      ((type_of block =s "BlockStatement") && includes (type_of fn) ["FunctionDeclaration"; "FunctionExpression"])
      || in_body_of_function rest
  | _ => false
  end.

(** The function in which an identifier is the special variable [arguments]. *)
Definition checkArguments (identifier : node) (ancestors : list node) (st : call_state) : call_state :=
  if node_name identifier =s "arguments" then
    match reference_of identifier identifier ≫= getSingleDefinition with
    | Some _ => st
    | None =>
        match List.find (fun n => isFunctionDeclaration (Some n) || isFunctionExpression (Some n)) ancestors with
        | Some fn => mkCalls (callExpressionsToCheck st) (add_node (usingArguments st) fn) (emptyFunctions st) (call_reports st)
        | None => st
        end
    end
  else st.

Definition tooManyArguments : string := "This function expects {{expectedArguments}}, but {{providedArguments}} provided.".

Definition expectedArguments (paramLength : nat) : string :=
  match paramLength with 0 => "no arguments" | 1 => "1 argument" | _ => (pretty (Z.of_nat paramLength) +:+ " arguments")%string end.

Definition providedArguments (argsLength : nat) : string :=
  match argsLength with 0 => "none was" | 1 => "1 was" | _ => (pretty (Z.of_nat argsLength) +:+ " were")%string end.

(** The locations of the parameters, or of the function when it has none, and of the
    arguments that are too many. *)
Definition getSecondaryLocations (callExpr functionNode : node) : eval (list (place * option string)) :=
  let params := get_nodes functionNode "params" in
  let! formal :=
    match params, last params with
    | first :: _, Some final =>
        let! a := location first in
        let! b := location final in
        Ok [(AtLocation (mkLoc (start a) (endp b)), Some "Formal parameters")]
    | _, _ =>
        Ok (match main_location functionNode None with
            | Some fnToken => [(AtLocation fnToken, Some "Formal parameters")]
            | None => []
            end)
    end in
  let! extra := rmap_list (fun argument => let! loc := location argument in Ok (AtLocation loc, Some "Extra argument"))
                  (drop (length params) (get_nodes callExpr "arguments")) in
  Ok (formal ++ extra).

Definition reportIssue (callExpr functionNode : node) : eval (list ReportDescriptor) :=
  let! callee := node_at callExpr "callee" in
  let! secondaries := getSecondaryLocations callExpr functionNode in
  Ok [mkDescriptor tooManyArguments
        [("expectedArguments", expectedArguments (length (get_nodes functionNode "params")));
         ("providedArguments", providedArguments (argument_count callExpr))] (AtNode callee) secondaries].

Definition S930_step (e : event) (st : call_state) : eval call_state :=
  match e with
  | Enter n ancestors =>
      Ok (if type_of n =s "CallExpression" then
            match called_function n with Some functionNode => checkFunction n functionNode st | None => st end
          else if is_function n then
            if is_empty_function n
            then mkCalls (callExpressionsToCheck st) (usingArguments st) (add_node (emptyFunctions st) n) (call_reports st) else st
          else if (type_of n =s "Identifier") && in_body_of_function ancestors then checkArguments n ancestors st
          else st)
  | Leave n _ =>
      if type_of n =s "Program" then
        let! reports := all_reports (map (fun '(callExpr, functionNode) =>
            if negb (has_node functionNode (usingArguments st)) && negb (has_node functionNode (emptyFunctions st))
            then reportIssue callExpr functionNode else Ok []) (callExpressionsToCheck st)) in
        Ok (mkCalls (callExpressionsToCheck st) (usingArguments st) (emptyFunctions st) (call_reports st ++ reports))
      else Ok st
  end.

Definition S930 (keys : VisitorKeys) (program : node) : eval call_state := run S930_step (events keys [] program) (mkCalls [] [] [] []).

(** ** S3699: results of functions that return nothing *)

Definition EMPTY_RETURN_VALUE_KEYWORDS : list string := ["TSVoidKeyword"; "TSNeverKeyword"; "TSUndefinedKeyword"].

Definition is_at (parent : node) (key : string) (n : node) : bool :=
  match get_node parent key with Some c => same_node c n | None => false end.

Definition isReturnValueUsed (callExpr : node) (ancestors : list node) : bool :=
  match ancestors with
  | [] => false
  | parent :: _ =>
      if type_of parent =s "LogicalExpression" then is_at parent "left" callExpr
      else if type_of parent =s "SequenceExpression" then
        match last (get_nodes parent "expressions") with Some e => same_node e callExpr | None => false end
      else if type_of parent =s "ConditionalExpression" then is_at parent "test" callExpr
      else negb (includes (type_of parent) ["ExpressionStatement"; "ArrowFunctionExpression"; "UnaryExpression"; "AwaitExpression";
                                            "ReturnStatement"; "ThrowStatement"])
  end.

(** The map of calls, by their callee, and the set of functions. *)
Record output_state := mkOutput {
  outputsToCheck : list (node * node);
  functionsWithReturnValue : list node;
  output_reports : list ReportDescriptor
}.

Definition returns_value (n : node) (st : output_state) : output_state :=
  mkOutput (outputsToCheck st) (add_node (functionsWithReturnValue st) n) (output_reports st).

(** [callExpressionsToCheck.set(identifier, function)]: each identifier is met once. *)
Definition check_output (n : node) (st : output_state) : output_state :=
  match (callee ← get_node n "callee"; reference ← reference_of n callee;
         definition ← getSingleDefinition reference; fn ← function_of_definition definition;
         Some (ref_identifier reference, fn)) with
  | Some call => mkOutput (outputsToCheck st ++ [call]) (functionsWithReturnValue st) (output_reports st)
  | None => st
  end.

Definition has_empty_block (n : node) : bool :=
  match get_node n "body" with
  | Some body => (type_of body =s "BlockStatement") && Nat.eqb (length (get_array body "body")) 0
  | None => false
  end.

Definition on_function (n : node) (st : output_state) : output_state :=
  let st := if (type_of n =s "ArrowFunctionExpression") && truthy (get n "expression") then returns_value n st else st in
  if truthy (get n "async") || truthy (get n "generator") || has_empty_block n then returns_value n st else st.

Definition returns_annotated (n : node) : bool :=
  match (returnType ← get_node n "returnType"; get_node returnType "typeAnnotation") with
  | Some typeAnnotation => negb (includes (type_of typeAnnotation) EMPTY_RETURN_VALUE_KEYWORDS)
  | None => false
  end.

Definition S3699_step (e : event) (st : output_state) : result False output_state :=
  match e with
  | Enter n ancestors =>
      Ok (if type_of n =s "CallExpression" then if isReturnValueUsed n ancestors then check_output n st else st
          else if type_of n =s "ReturnStatement" then
            if bool_decide (is_Some (get_node n "argument")) then
              match List.find is_function ancestors with Some functionNode => returns_value functionNode st | None => st end
            else st
          else if is_function n then on_function n st
          else if type_of n =s "TSDeclareFunction" then if returns_annotated n then returns_value n st else st
          else st)
  | Leave n _ =>
      Ok (if type_of n =s "Program" then
            mkOutput (outputsToCheck st) (functionsWithReturnValue st)
              (output_reports st ++
               flat_map (fun '(callee, functionDeclaration) =>
                   if has_node functionDeclaration (functionsWithReturnValue st) then []
                   else [report_data "removeUseOfOutput" callee [("name", node_name callee)]]) (outputsToCheck st))
          else st)
  end.

Definition S3699 (keys : VisitorKeys) (program : node) : result False output_state :=
  run S3699_step (events keys [] program) (mkOutput [] [] []).

(** ** S4322: type predicates *)

Definition getReturnedExpression (block : option node) : option node :=
  match block ≫= fun b => Some (get_nodes b "body") with
  | Some [statement] => if type_of statement =s "ReturnStatement" then get_node statement "argument" else None
  | _ => None
  end.

Definition isInequalityBinaryExpression (n : node) : bool :=
  (type_of n =s "BinaryExpression") && (str_prop_is n "operator" "!==" || str_prop_is n "operator" "!=").

Definition getCastTupleFromMemberExpression (n : node) : option (node * node) :=
  if type_of n =s "MemberExpression" then
    object ← get_node n "object";
    if includes (type_of object) ["TSAsExpression"; "TSTypeAssertion"] then
      expression ← get_node object "expression"; annotation ← get_node object "typeAnnotation"; Some (expression, annotation)
    else None
  else None.

Definition isNegation (n : option node) : bool :=
  match n with
  | Some n => (type_of n =s "UnaryExpression") && truthy (get n "prefix") && str_prop_is n "operator" "!"
  | None => false
  end.

Definition isBooleanCall (n : node) : bool :=
  (type_of n =s "CallExpression") && Nat.eqb (argument_count n) 1 && identifier_named (get_node n "callee") "Boolean".

(** The texts of the parts, and [getTokenBefore(body, token => token.value === ')')]. *)
Context (getText : node -> string) (closing_parenthesis_before : node -> option Token).

(** Where the predicate goes: in the place of the type that is returned, or after the
    parenthesis. *)
Definition getTypePredicateSuggestion (n : node) (predicate : string) : eval Suggested :=
  match get_node n "returnType" with
  | Some returnType => let! range := range_of returnType in Ok (mkSuggested "suggestTypePredicate" [(range, predicate)])
  | None =>
      let! body := node_at n "body" in
      let! closingParenthesis := of_option TypeError (closing_parenthesis_before body) in
      Ok (mkSuggested "suggestTypePredicate" [(((t_range closingParenthesis).2, (t_range closingParenthesis).2), predicate)])
  end.

Definition checkCastedType (n expression : node) (ancestors : list node) : eval (list (ReportDescriptor * Suggested)) :=
  match getCastTupleFromMemberExpression expression with
  | Some (casted, castedType) =>
      let nOfParam := length (get_array n "params") in
      if negb (type_of castedType =s "TSAnyKeyword")
         && (Nat.eqb nOfParam 1 || (Nat.eqb nOfParam 0 && (type_of casted =s "ThisExpression"))) then
        let! suggest := getTypePredicateSuggestion n (": " +:+ getText casted +:+ " is " +:+ getText castedType)%string in
        let! loc := of_option TypeError (main_location n (head ancestors)) in
        Ok [(mkDescriptor "useTypePredicate" [("castedExpressionText", getText casted); ("castedTypeText", getText castedType)]
               (AtLocation loc) [], suggest)]
      else Ok []
  | None => Ok []
  end.

Definition is_type_predicate (n : node) : bool :=
  match (returnType ← get_node n "returnType"; get_node returnType "typeAnnotation") with
  | Some annotation => type_of annotation =s "TSTypePredicate"
  | None => false
  end.

Definition checkFunctionLikeDeclaration (n : node) (ancestors : list node) : eval (list (ReportDescriptor * Suggested)) :=
  if is_type_predicate n then Ok []
  else
    match getReturnedExpression (get_node n "body") with
    | None => Ok []
    | Some returnedExpression =>
        if isInequalityBinaryExpression returnedExpression then
          match get_node returnedExpression "left", get_node returnedExpression "right" with
          | Some l, Some r =>
              if isUndefined r then checkCastedType n l ancestors
              else if isUndefined l then checkCastedType n r ancestors
              else Ok []
          | _, _ => Ok []
          end
        else if isBooleanCall returnedExpression then
          match argument_at returnedExpression 0 with Some a => checkCastedType n a ancestors | None => Ok [] end
        else if isNegation (Some returnedExpression) && isNegation (get_node returnedExpression "argument") then
          match (inner ← get_node returnedExpression "argument"; get_node inner "argument") with
          | Some a => checkCastedType n a ancestors
          | None => Ok []
          end
        else Ok []
    end.

(** The functions below a method, and the declarations. *)
Definition S4322 (n : node) (ancestors : list node) : eval (list (ReportDescriptor * Suggested)) :=
  if (type_of n =s "FunctionDeclaration")
     || ((type_of n =s "FunctionExpression")
         && existsb (fun a => (type_of a =s "MethodDefinition") && str_prop_is a "kind" "method") ancestors)
  then checkFunctionLikeDeclaration n ancestors else Ok [].

(** ** S3686: functions called with and without [new] *)

Record new_state := mkNew {
  usedInNew : list (VarId * node);
  usedInCall : list (VarId * node);
  hasIssue : list VarId;
  new_reports : list ReportDescriptor
}.

Definition S3686_getVariable (n : node) : option VarId :=
  callee ← get_node n "callee";
  if type_of callee =s "Identifier" then getVariableFromName sm (node_name callee) n else None.

Definition S3686_message (usage_line : Z) (tail : string) : string :=
  ("Correct the use of this function; on line " +:+ pretty usage_line +:+ " it was called with" +:+ tail +:+ " " +:+ quoted "new" +:+ ".")%string.

(** The variable of a call, when it has definitions. *)
Definition defined_variable (callExpression : node) : option VarId :=
  v ← S3686_getVariable callExpression;
  variable ← variable_at sm v;
  match var_defs variable with [] => None | _ => Some v end.

Definition checkExpression (callExpression : node) (isNew : bool) (st : new_state) : eval new_state :=
  match defined_variable callExpression with
  | Some variable =>
      let otherTypeUsage := map_get variable (if isNew then usedInCall st else usedInNew st) in
      match otherTypeUsage ≫= fun usage => h_loc (hdr usage), otherTypeUsage with
      | Some loc, Some usage =>
          if negb (set_has variable (hasIssue st)) then
            let! callee := node_at callExpression "callee" in
            let! other := node_at usage "callee" in
            Ok (mkNew (usedInNew st) (usedInCall st) (hasIssue st ++ [variable])
                  (new_reports st ++ [report_with (S3686_message (line (start loc)) (if isNew then "out" else "")) callee [secondary other]]))
          else Ok (if isNew then mkNew (map_set variable callExpression (usedInNew st)) (usedInCall st) (hasIssue st) (new_reports st)
                   else mkNew (usedInNew st) (map_set variable callExpression (usedInCall st)) (hasIssue st) (new_reports st))
      | _, _ =>
          Ok (if isNew then mkNew (map_set variable callExpression (usedInNew st)) (usedInCall st) (hasIssue st) (new_reports st)
              else mkNew (usedInNew st) (map_set variable callExpression (usedInCall st)) (hasIssue st) (new_reports st))
      end
  | None => Ok st
  end.

Definition S3686_step (st : new_state) (n : node) : eval new_state :=
  if type_of n =s "NewExpression" then checkExpression n true st
  else if type_of n =s "CallExpression" then checkExpression n false st
  else Ok st.

(** The nodes are those of the file, in the order of the walk. *)
Definition S3686 (l : list node) : eval new_state := rfold S3686_step l (mkNew [] [] [] []).

(** A variable is reported once. *)
Lemma S3686_reports_once l : forall st st', rfold S3686_step l st = Ok st' ->
  NoDup (hasIssue st) /\ length (new_reports st) = length (hasIssue st) ->
  NoDup (hasIssue st') /\ length (new_reports st') = length (hasIssue st').
Proof.
  induction l as [|n l IH]; intros st st' H I; [by injection H as <- |]. cbn [rfold] in H.
  apply rbind_ok in H as (st1 & H1 & H). apply (IH st1 st' H). clear H IH.
  assert (forall isNew, checkExpression n isNew st = Ok st1 -> NoDup (hasIssue st1) /\ length (new_reports st1) = length (hasIssue st1)) as C.
  { intros isNew. unfold checkExpression. destruct (defined_variable n) as [v|]; [| by intros [= <-]].
    destruct (map_get v _) as [usage|]; cbn [mbind option_bind]; [| by destruct isNew; intros [= <-]].
    destruct (h_loc (hdr usage)) as [loc|]; [| by destruct isNew; intros [= <-]].
    destruct (set_has v (hasIssue st)) eqn:E; cbn [negb]; [by destruct isNew; intros [= <-] |].
    destruct (node_at n "callee"); cbn [rbind]; [| done]. destruct (node_at usage "callee"); cbn [rbind]; [| done].
    intros [= <-]. cbn. rewrite !length_app. destruct I as [N L]. split; [| cbn; lia].
    apply NoDup_app. split; [done |]. split; [| apply NoDup_singleton]. apply set_has_false in E. set_solver. }
  unfold S3686_step in H1. destruct (_ =s _); [by eapply C |]. destruct (_ =s _); [by eapply C | by injection H1 as <-].
Qed.

End Functions.

(** ** S2004: functions in functions *)

Section Nesting.

Context (sc : SourceCode) (getTokensBefore : node -> list Token) (keys : VisitorKeys).
(** The threshold: the option of the rule, or 4. *)
Context (option_threshold : option nat).

Definition S2004_max : nat := default 4 option_threshold.

Definition S2004_message : string :=
  ("Refactor this code to not nest functions more than " +:+ pretty (Z.of_nat S2004_max) +:+ " levels deep.")%string.

(** A function with its parent. *)
Definition function_location (fn : node * option node) : eval SourceLocation :=
  of_option TypeError (Cognitive.getMainFunctionTokenLocation sc getTokensBefore fn.1 fn.2).

(** [nestedStack], whose head is its end, and the reports. *)
Definition nested_state : Type := (list (node * option node) * list ReportDescriptor)%type.

Definition check_nesting (nestedStack : list (node * option node)) : eval (list ReportDescriptor) :=
  match nestedStack with
  | fn :: secondaries =>
      if Nat.eqb (length nestedStack) (S2004_max + 1) then
        let! loc := function_location fn in
        let! locations := rmap_list (fun n => let! loc := function_location n in Ok (AtLocation loc, Some "Nesting +1")) (rev secondaries) in
        Ok [mkDescriptor S2004_message [] (AtLocation loc) locations]
      else Ok []
  | [] => Ok []
  end.

Definition S2004_step (e : event) (st : nested_state) : eval nested_state :=
  let '(nestedStack, reports) := st in
  match e with
  | Enter n ancestors =>
      if is_function n then
        let nestedStack := (n, head ancestors) :: nestedStack in
        let! r := check_nesting nestedStack in Ok (nestedStack, reports ++ r)
      else Ok st
  | Leave n _ => Ok (if is_function n then (tail nestedStack, reports) else st)
  end.

Definition S2004 (program : node) : eval nested_state := run S2004_step (events keys [] program) ([], []).

(** The functions among a node and those above it, from the nearest one, with their parents. *)
Fixpoint functions_above (parents : list node) : list (node * option node) :=
  match parents with
  | [] => []
  | p :: rest => (if is_function p then [(p, head rest)] else []) ++ functions_above rest
  end.

Definition nesting_at (e : event) : eval (list ReportDescriptor) :=
  match e with
  | Enter n parents => if is_function n then check_nesting (functions_above (n :: parents)) else Ok []
  | Leave _ _ => Ok []
  end.

(** S2004 reports exactly the functions with as many functions around them as the threshold,
    in the order of the walk, with those functions. *)
Theorem deep_functions_reported program : S2004 program =
  let! reports := all_reports (map nesting_at (events keys [] program)) in Ok ([], reports).
Proof.
  apply (run_stack keys S2004_step functions_above nesting_at); [| | done].
  - intros n parents r. cbn [S2004_step nesting_at functions_above]. destruct (is_function n); cbn [app]; [| cbn; by rewrite app_nil_r].
    by destruct (check_nesting _).
  - intros n parents r. cbn [S2004_step functions_above]. by destruct (is_function n).
Qed.

(** ** S1219: labels in cases *)

(** The number of cases around, for each function around; the head of the stack is its end. *)
Definition S1219_step (e : event) (st : list nat * list ReportDescriptor) : eval (list nat * list ReportDescriptor) :=
  let '(stack, reports) := st in
  let function := includes (match e with Enter n _ | Leave n _ => type_of n end) ["FunctionExpression"; "FunctionDeclaration"] in
  match e with
  | Enter n _ =>
      if type_of n =s "SwitchCase" then Ok (match stack with k :: rest => S k :: rest | [] => [] end, reports)
      else if type_of n =s "LabeledStatement" then
        match stack with
        | S _ :: _ => let! label := node_at n "label" in Ok (stack, reports ++ [report_data "removeLabel" label [("label", node_name label)]])
        | _ => Ok st
        end
      else Ok (if function then (0 :: stack, reports) else st)
  | Leave n _ =>
      Ok (if type_of n =s "SwitchCase" then (match stack with k :: rest => (k - 1) :: rest | [] => [] end, reports)
          else if function then (tail stack, reports) else st)
  end.

Definition S1219 (program : node) : eval (list nat * list ReportDescriptor) := run S1219_step (events keys [] program) ([0], []).

(** The cases between a node and the nearest function, and so on. *)
Fixpoint cases_above (parents : list node) : list nat :=
  match parents with
  | [] => [0]
  | p :: rest =>
      if type_of p =s "SwitchCase" then match cases_above rest with k :: outer => S k :: outer | [] => [] end
      else if includes (type_of p) ["FunctionExpression"; "FunctionDeclaration"] then 0 :: cases_above rest
      else cases_above rest
  end.

(** A case is between the node and the nearest function. *)
Fixpoint in_case (parents : list node) : bool :=
  match parents with
  | [] => false
  | p :: rest =>
      if type_of p =s "SwitchCase" then true
      else if includes (type_of p) ["FunctionExpression"; "FunctionDeclaration"] then false
      else in_case rest
  end.

Definition label_at (e : event) : eval (list ReportDescriptor) :=
  match e with
  | Enter n parents =>
      if (type_of n =s "LabeledStatement") && in_case parents
      then let! label := node_at n "label" in Ok [report_data "removeLabel" label [("label", node_name label)]] else Ok []
  | Leave _ _ => Ok []
  end.

Lemma cases_above_count parents : exists k outer, cases_above parents = k :: outer /\ (0 <? k) = in_case parents.
Proof.
  induction parents as [|p parents (k & outer & E & IH)]; [by exists 0, [] |]. cbn [cases_above in_case]. rewrite E.
  destruct (_ =s _); [by exists (S k), outer |]. destruct (includes _ _); [by exists 0, (k :: outer) | by exists k, outer].
Qed.

(** S1219 reports exactly the labels that are in a case of the same function. *)
Theorem labels_in_cases_reported program : S1219 program =
  let! reports := all_reports (map label_at (events keys [] program)) in Ok ([0], reports).
Proof.
  apply (run_stack keys S1219_step cases_above label_at); [| | done].
  - intros n parents r. destruct (cases_above_count parents) as (k & outer & E & Hk).
    cbn [S1219_step label_at cases_above]. rewrite E, <- Hk.
    destruct (String.eqb_spec (type_of n) "SwitchCase") as [T|T]; [rewrite T; cbn; by rewrite app_nil_r |].
    destruct (String.eqb_spec (type_of n) "LabeledStatement") as [T'|T'].
    + rewrite T'. cbn [andb]. destruct k as [|k]; cbn; [by rewrite app_nil_r |]. by destruct (node_at n "label").
    + cbn [andb rbind]. rewrite app_nil_r. by destruct (includes _ _).
  - intros n parents r. destruct (cases_above_count parents) as (k & outer & E & Hk). cbn [S1219_step cases_above]. rewrite E.
    destruct (_ =s _); [by rewrite Nat.sub_1_r |]. by destruct (includes _ _).
Qed.

(** ** S134: nested control flow *)

Context (getFirstToken getLastToken : node -> option Token).

Definition S134_threshold : nat := default 3 option_threshold.

Definition controlFlowNodes : list string :=
  ["ForStatement"; "ForInStatement"; "ForOfStatement"; "WhileStatement"; "DoWhileStatement"; "IfStatement"; "TryStatement"; "SwitchStatement"].

Definition S134_isElseIf (n : node) (ancestors : list node) : bool :=
  match ancestors with
  | parent :: _ => (type_of n =s "IfStatement") && (type_of parent =s "IfStatement") && is_at parent "alternate" n
  | [] => false
  end.

Definition S134_message : string :=
  ("Refactor this code to not nest more than " +:+ pretty (Z.of_nat S134_threshold) +:+ " if/for/while/switch/try statements.")%string.

(** [nodeStack], whose head is its end. *)
Definition check_control_flow (n : node) (nodeStack : list Token) : eval (list ReportDescriptor) :=
  if Nat.eqb (length nodeStack) S134_threshold then
    let! token := of_option TypeError (getFirstToken n) in
    Ok [mkDescriptor S134_message [] (AtLocation (t_loc token)) (map (fun t => (AtToken t, Some "+1")) (rev nodeStack))]
  else Ok [].

Definition S134_step (e : event) (st : list Token * list ReportDescriptor) : eval (list Token * list ReportDescriptor) :=
  let '(nodeStack, reports) := st in
  match e with
  | Enter n ancestors =>
      if includes (type_of n) controlFlowNodes then
        if S134_isElseIf n ancestors then
          let! token := of_option TypeError (getFirstToken n) in Ok (token :: tail nodeStack, reports)
        else
          let! r := check_control_flow n nodeStack in
          let! token := of_option TypeError (getFirstToken n) in
          Ok (token :: nodeStack, reports ++ r)
      else Ok st
  | Leave n ancestors =>
      Ok (if includes (type_of n) controlFlowNodes && negb (S134_isElseIf n ancestors) then (tail nodeStack, reports) else st)
  end.

Definition S134 (program : node) : eval (list Token * list ReportDescriptor) := run S134_step (events keys [] program) ([], []).

(** ** S3626: redundant jumps *)

Context (getCommentsBefore : node -> list Comment) (getTokenBefore : node -> option Token).

Definition jump_loops : list string := ["WhileStatement"; "ForStatement"; "DoWhileStatement"; "ForInStatement"; "ForOfStatement"].

Definition is_last_of (block n : node) : bool :=
  match last (get_nodes block "body") with Some final => same_node final n | None => false end.

(** The report, and the range that the suggestion removes. *)
Definition reportIfLastStatement (n block : node) : eval (list (ReportDescriptor * Suggested)) :=
  let withArgument := truthy (get n (if type_of n =s "ContinueStatement" then "label" else "argument")) in
  if negb withArgument && is_last_of block n && (1 <? length (get_array block "body")) then
    let! previous_end :=
      match last (getCommentsBefore n) with
      | Some comment => Ok (c_range comment).2
      | None => let! token := of_option TypeError (getTokenBefore n) in Ok (t_range token).2
      end in
    let! range := range_of n in
    Ok [(report "removeRedundantJump" n, mkSuggested "suggestJumpRemoval" [((previous_end, range.2), "")])]
  else Ok [].

Definition of_type (t : string) (n : node) : bool := type_of n =s t.

(** The four selectors: a jump in the block of a loop or function, or in the block of an
    [if] there that is the last statement. *)
Definition S3626 (n : node) (ancestors : list node) : eval (list (ReportDescriptor * Suggested)) :=
  let owner p := if type_of n =s "ContinueStatement" then includes (type_of p) jump_loops
                 else (type_of n =s "ReturnStatement") && is_function p in
  match ancestors with
  | block :: p :: _ =>
      if of_type "BlockStatement" block && owner p then reportIfLastStatement n block
      else
        match ancestors with
        | block :: ifStatement :: upperBlock :: p :: _ =>
            if of_type "BlockStatement" block && of_type "IfStatement" ifStatement && of_type "BlockStatement" upperBlock && owner p
               && is_last_of upperBlock ifStatement
            then reportIfLastStatement n block else Ok []
        | _ => Ok []
        end
  | _ => Ok []
  end.

(** ** S3616 and S1479: cases of [switch] *)

Context (getText : node -> string) (number_text : Q -> string).

Definition case_text (clause : node) : string :=
  if type_of clause =s "Literal" then text_of_value number_text (get clause "value") else getText clause.

Definition report_case (n clause : node) (nestingLvl : nat) : ReportDescriptor :=
  report_data "specifyCase" n [("nesting", pretty (Z.of_nat nestingLvl)); ("expression", case_text clause)].

(** The [Error] of the code is not reached: a case is in a [switch]. *)
Definition getEnclosingSwitchStatement (ancestors : list node) : option node :=
  List.find (of_type "SwitchStatement") ancestors.

Definition isSwitchTrue (n : node) : bool :=
  match get_node n "discriminant" with
  | Some d => isLiteral (Some d) && match get d "value" with VBool b => b | _ => false end
  | None => false
  end.

(** The recursion goes down the operand on the left. *)
Fixpoint getFirstElementAndNestingLevel (fuel : nat) (logicalExpression : node) (currentLvl : nat) : option (node * nat) :=
  match fuel with
  | O => None
  | S fuel' =>
      if str_prop_is logicalExpression "operator" "||" then
        l ← get_node logicalExpression "left";
        if type_of l =s "LogicalExpression" then getFirstElementAndNestingLevel fuel' l (currentLvl + 1) else Some (l, currentLvl + 1)
      else None
  end.

Definition S3616 (n : node) (ancestors : list node) : eval (list ReportDescriptor) :=
  match ancestors with
  | parent :: _ =>
      if type_of parent =s "SwitchCase" then
        if type_of n =s "SequenceExpression" then
          let expressions := get_nodes n "expressions" in
          Ok (match last expressions with Some e => [report_case n e (length expressions)] | None => [] end)
        else if type_of n =s "LogicalExpression" then
          let! switch := of_option TypeError (getEnclosingSwitchStatement ancestors) in
          Ok (if isSwitchTrue switch then []
              else match getFirstElementAndNestingLevel (node_size n) n 0 with
                   | Some (first, nesting) => [report_case n first (nesting + 1)]
                   | None => []
                   end)
        else Ok []
      else Ok []
  | [] => Ok []
  end.

(** The operands of a chain of [||] are the case that is reported: [S (k)] of them. *)
Inductive chain : node -> node -> nat -> Prop :=
| chain_two n l : str_prop_is n "operator" "||" = true -> get_node n "left" = Some l -> type_of l <> "LogicalExpression" -> chain n l 2
| chain_more n l first k : str_prop_is n "operator" "||" = true -> get_node n "left" = Some l -> type_of l = "LogicalExpression" ->
    chain l first k -> chain n first (S k).

Lemma first_element_of_chain fuel : forall n lvl, node_size n <= fuel -> forall first k,
  getFirstElementAndNestingLevel fuel n lvl = Some (first, k) <-> exists c, chain n first c /\ k + 1 = lvl + c.
Proof.
  induction fuel as [|fuel IH]; intros n lvl F first k; [pose proof (node_size_pos n); lia |]. cbn [getFirstElementAndNestingLevel].
  destruct (str_prop_is n "operator" "||") eqn:O.
  2: { split; [done |]. intros (c & C & _). inversion C; congruence. }
  destruct (get_node n "left") as [l|] eqn:L; cbn [mbind option_bind].
  2: { split; [done |]. intros (c & C & _). inversion C; congruence. }
  destruct (String.eqb_spec (type_of l) "LogicalExpression") as [T|T].
  - rewrite IH by (apply get_node_size in L; lia). split; intros (c & C & E).
    + exists (S c). split; [by eapply chain_more | lia].
    + inversion C as [|? l' ? c' ? L' _ C']; subst; [congruence |]. rewrite L in L'. injection L' as <-. exists c'. split; [done | lia].
  - split.
    + intros [= <- <-]. exists 2. split; [by eapply chain_two | lia].
    + intros (c & C & E). inversion C as [? l' _ L' _|? l' ? c' ? L' T' C']; subst; rewrite L in L'; injection L' as <-; [| done].
      do 2 f_equal. lia.
Qed.

Definition isDefaultCase (switchCase : node) : bool := match get switchCase "test" with VNull => true | _ => false end.

(** The option of S1479, or 30. *)
Definition S1479 (maxSwitchCases : option nat) (n : node) : eval (list ReportDescriptor) :=
  let nonEmptyCases := List.filter (fun c => (0 <? length (get_array c "consequent")) && negb (isDefaultCase c)) (get_nodes n "cases") in
  if default 30 maxSwitchCases <? length nonEmptyCases then
    let! switchKeyword := of_option TypeError (getFirstToken n) in
    Ok [mkDescriptor "reduceNumberOfNonEmptySwitchCases"
          [("numSwitchCases", pretty (Z.of_nat (length nonEmptyCases))); ("maxSwitchCases", pretty (Z.of_nat (default 30 maxSwitchCases)))]
          (AtLocation (t_loc switchKeyword)) []]
  else Ok [].

(** ** S1066: nested conditions *)

Definition isIfStatementWithoutElse (n : node) : bool := (type_of n =s "IfStatement") && negb (truthy (get n "alternate")).

Definition only_statement (consequent : node) : node :=
  if type_of consequent =s "BlockStatement" then match get_nodes consequent "body" with [s] => s | _ => consequent end else consequent.

Definition S1066_message : string := "Merge this if statement with the nested one.".

Definition S1066 (n : node) : eval (list ReportDescriptor) :=
  let! consequent := node_at n "consequent" in
  let consequent := only_statement consequent in
  Ok (if isIfStatementWithoutElse n && isIfStatementWithoutElse consequent then
        match getFirstToken consequent, getFirstToken n with
        | Some ifKeyword, Some enclosingIfKeyword =>
            [mkDescriptor S1066_message [] (AtLocation (t_loc enclosingIfKeyword))
               [(AtToken ifKeyword, Some ("Nested " +:+ quoted "if" +:+ " statement.")%string)]]
        | _, _ => []
        end
      else []).

(** ** S1125: boolean literals *)

Definition checkBooleanLiteral (expression : option node) : list ReportDescriptor :=
  match expression with
  | Some e => if isBooleanLiteral e then [report "removeUnnecessaryBoolean" e] else []
  | None => []
  end.

Definition operator_among (n : node) (operators : list string) : bool :=
  match get_str n "operator" with Some o => includes o operators | None => false end.

Definition S1125 (n : node) (ancestors : list node) : list ReportDescriptor :=
  if type_of n =s "BinaryExpression" then
    if operator_among n ["=="; "!="] then checkBooleanLiteral (get_node n "left") ++ checkBooleanLiteral (get_node n "right") else []
  else if type_of n =s "LogicalExpression" then
    checkBooleanLiteral (get_node n "left")
    ++ (if operator_among n ["&&"] then checkBooleanLiteral (get_node n "right") else [])
    ++ (match ancestors with
        | parent :: _ =>
            if operator_among n ["||"]
               && (((type_of parent =s "ConditionalExpression") && is_at parent "test" n) || (type_of parent =s "IfStatement"))
            then checkBooleanLiteral (get_node n "right") else []
        | [] => []
        end)
  else if type_of n =s "UnaryExpression" then
    if operator_among n ["!"] then checkBooleanLiteral (get_node n "argument") else []
  else [].

(** ** S881: increments in expressions *)

Definition isIgnored (n : node) (ancestors : list node) : bool :=
  match ancestors with
  | firstAncestor :: others =>
      if type_of firstAncestor =s "ExpressionStatement" then true
      else if type_of firstAncestor =s "ForStatement" then is_at firstAncestor "update" n
      else if type_of firstAncestor =s "SequenceExpression" then
        match others with
        | secondAncestor :: _ => (type_of secondAncestor =s "ForStatement") && is_at secondAncestor "update" firstAncestor
        | [] => false
        end
      else false
  | [] => false
  end.

Definition S881 (n : node) (ancestors : list node) : list ReportDescriptor :=
  if isIgnored n ancestors then []
  else [report_data "extractOperation" n [("incrementType", if str_prop_is n "operator" "++" then "increment" else "decrement")]].

(** ** S2428: properties set after an empty object *)

Definition isEmptyObjectExpression (expression : node) : bool :=
  (type_of expression =s "ObjectExpression") && Nat.eqb (length (get_array expression "properties")) 0.

Definition getObjectDeclaration (statement : node) : option node :=
  if type_of statement =s "VariableDeclaration" then
    List.find (fun declaration => match get_node declaration "init" with Some init => isEmptyObjectExpression init | None => false end)
      (get_nodes statement "declarations")
  else None.

Definition isSingleLineExpression (expression : node) : eval bool :=
  let! first := of_option TypeError (getFirstToken expression) in
  let! final := of_option TypeError (getLastToken expression) in
  Ok (line (start (t_loc first)) =? line (endp (t_loc final)))%Z.

Definition isPropertyAssignment (statement objectIdentifier : node) : eval bool :=
  match get_node statement "expression" with
  | Some expression =>
      if (type_of statement =s "ExpressionStatement") && (type_of expression =s "AssignmentExpression") then
        match get_node expression "left", get_node expression "right" with
        | Some l, Some r =>
            if (type_of l =s "MemberExpression") && negb (truthy (get l "computed")) then
              let! object := node_at l "object" in
              let! single := isSingleLineExpression r in
              Ok (single && equivalent sc object objectIdentifier && negb (equivalent sc object r))
            else Ok false
        | _, _ => Ok false
        end
      else Ok false
  | None => Ok false
  end.

(** The loop on pairs of statements. *)
Fixpoint checkObjectInitialization (statements : list node) : eval (list ReportDescriptor) :=
  match statements with
  | statement :: (nextStmt :: _) as rest =>
      let! own :=
        match getObjectDeclaration statement with
        | Some objectDeclaration =>
            match get_node objectDeclaration "id" with
            | Some id =>
                if isIdentifier (Some id) [] then
                  let! assigned := isPropertyAssignment nextStmt id in
                  Ok (if assigned then [report "declarePropertiesInsideObject" objectDeclaration] else [])
                else Ok []
            | None => Ok []
            end
        | None => Ok []
        end in
      let! others := checkObjectInitialization rest in
      Ok (own ++ others)
  | _ => Ok []
  end.

Definition S2428 (n : node) : eval (list ReportDescriptor) :=
  if type_of n =s "BlockStatement" then checkObjectInitialization (get_nodes n "body")
  else if type_of n =s "Program" then checkObjectInitialization (getProgramStatements n)
  else Ok [].

(** ** S3499: shorthand properties *)

Fixpoint getNumberOfTrueAtBeginning (l : list bool) : nat :=
  match l with
  | true :: rest => S (getNumberOfTrueAtBeginning rest)
  | _ => 0
  end.

Definition is_shorthand (p : node) : bool := truthy (get p "shorthand").

Definition raiseIssue (n : node) (begin end_ : nat) (positionMessage : string) : eval (list ReportDescriptor) :=
  let! token := of_option TypeError (getFirstToken n) in
  Ok [mkDescriptor ("Group all shorthand properties at " +:+ positionMessage +:+ " of this object declaration.")%string []
        (AtLocation (t_loc token))
        (map (fun prop => secondary_with prop ("Move to " +:+ positionMessage)%string)
           (List.filter is_shorthand (take (end_ - begin) (drop begin (get_nodes n "properties")))))].

(** Where the loops of [raiseIssue] begin and end, and the message, when it is called. *)
Definition misplaced_shorthands (isShorthandPropertyList : list bool) : option (nat * nat * string) :=
  let shorthandPropertiesNumber := length (List.filter (fun b : bool => b) isShorthandPropertyList) in
  let atBeginning := getNumberOfTrueAtBeginning isShorthandPropertyList in
  let atEnd := getNumberOfTrueAtBeginning (rev isShorthandPropertyList) in
  let allAtBeginning := Nat.eqb atBeginning shorthandPropertiesNumber in
  let allAtEnd := Nat.eqb atEnd shorthandPropertiesNumber in
  let propertiesNumber := length isShorthandPropertyList in
  if negb allAtBeginning && (atEnd <? atBeginning) then Some (atBeginning, propertiesNumber, "the beginning")
  else if negb allAtEnd && (atBeginning <? atEnd) then Some (0, propertiesNumber - atEnd, "the end")
  else if negb allAtBeginning && negb allAtEnd then Some (0, propertiesNumber, "either the beginning or end")
  else None.

Definition S3499 (n : node) : eval (list ReportDescriptor) :=
  let properties := get_nodes n "properties" in
  if existsb (fun p => negb (type_of p =s "Property")) properties then Ok []
  else
    match misplaced_shorthands (map is_shorthand properties) with
    | Some (begin, end_, positionMessage) => raiseIssue n begin end_ positionMessage
    | None => Ok []
    end.

(** Shorthand properties are grouped when they all come first or all come last. *)
Definition grouped (l : list bool) : Prop := exists k m, l = repeat true k ++ repeat false m \/ l = repeat false k ++ repeat true m.

Definition count_true (l : list bool) : nat := length (List.filter (fun b : bool => b) l).

Lemma count_true_repeat b k : count_true (repeat b k) = if b then k else 0.
Proof. unfold count_true. induction k as [|k IH]; [by destruct b |]. destruct b; cbn in *; [by rewrite IH | done]. Qed.

Lemma count_true_app l k : count_true (l ++ k) = count_true l + count_true k.
Proof. unfold count_true. by rewrite List.filter_app, length_app. Qed.

Lemma beginning_le l : getNumberOfTrueAtBeginning l <= count_true l.
Proof. unfold count_true. induction l as [|[] l IH]; cbn; lia. Qed.

Lemma beginning_all l : getNumberOfTrueAtBeginning l = count_true l <-> exists k m, l = repeat true k ++ repeat false m.
Proof.
  split.
  - induction l as [|[] l IH]; intros E; [by exists 0, 0 | |].
    + destruct IH as (k & m & ->); [unfold count_true in *; cbn in E; lia |]. by exists (S k), m.
    + exists 0, (S (length l)). cbn. f_equal. unfold count_true in E. cbn in E. clear IH. induction l as [|[] l IH]; cbn in *; [done | lia |].
      f_equal. by apply IH.
  - intros (k & m & ->). rewrite count_true_app, !count_true_repeat. cbn. induction k as [|k IH]; [by destruct m |]. cbn [repeat app getNumberOfTrueAtBeginning]. rewrite IH. lia.
Qed.

Lemma rev_repeat {A} (x : A) k : rev (repeat x k) = repeat x k.
Proof. induction k as [|k IH]; [done |]. cbn. rewrite IH. clear IH. induction k as [|k IH]; [done |]. cbn. by rewrite IH. Qed.

Lemma count_true_rev l : count_true (rev l) = count_true l.
Proof. induction l as [|b l IH]; [done |]. cbn [rev]. rewrite count_true_app, IH. unfold count_true. destruct b; cbn; lia. Qed.

(** S3499 leaves alone exactly the objects whose shorthand properties are grouped. *)
Theorem grouped_shorthands_accepted l : misplaced_shorthands l = None <-> grouped l.
Proof.
  unfold misplaced_shorthands. fold (count_true l). pose proof (beginning_le l) as Lb. pose proof (beginning_le (rev l)) as Le.
  rewrite count_true_rev in Le. assert (grouped l <-> getNumberOfTrueAtBeginning l = count_true l \/ getNumberOfTrueAtBeginning (rev l) = count_true l) as ->.
  { unfold grouped. split.
    - intros (k & m & [->| ->]); [left; apply beginning_all; by exists k, m |]. right. rewrite <- (count_true_rev (_ ++ _)).
      apply beginning_all. exists m, k. by rewrite rev_app_distr, !rev_repeat.
    - intros [E|E]; [apply beginning_all in E as (k & m & ->); exists k, m; by left |].
      rewrite <- count_true_rev in E. apply beginning_all in E as (k & m & E). exists m, k. right.
      rewrite <- (rev_involutive l), E. by rewrite rev_app_distr, !rev_repeat. }
  set (b := getNumberOfTrueAtBeginning l) in *. set (e := getNumberOfTrueAtBeginning (rev l)) in *. clearbody b e.
  destruct (Nat.eqb_spec b (count_true l)), (Nat.eqb_spec e (count_true l)), (Nat.ltb_spec e b), (Nat.ltb_spec b e);
    cbn [negb andb]; (split; [intros; (discriminate || lia) | intros; (done || lia)]).
Qed.

(** ** S1848: objects that are not used *)

Context (sm : ScopeManager) (is_test_code : bool).

(** A node is in the block of a [try]: the loop from the nearest ancestor. *)
Fixpoint isTryable (child : node) (ancestors : list node) : bool :=
  match ancestors with
  | [] => false
  | parent :: rest => ((type_of parent =s "TryStatement") && is_at parent "block" child) || isTryable parent rest
  end.

Definition isException (n : node) (name : string) : bool :=
  (name =s "Notification")
  || match fullName sm n with
     | Some fqn => (fqn =s "vue") || (fqn =s "@ag-grid-community.core.Grid") || startsWith "aws-cdk-lib" fqn
     | None => false
     end.

Definition S1848 (n : node) (ancestors : list node) : eval (list ReportDescriptor) :=
  match ancestors with
  | parent :: _ =>
      if (type_of n =s "NewExpression") && (type_of parent =s "ExpressionStatement") then
        if is_test_code || isTryable n ancestors then Ok []
        else
          let! callee := node_at n "callee" in
          if (type_of callee =s "Identifier") || (type_of callee =s "MemberExpression") then
            let calleeText := getText callee in
            if isException callee calleeText then Ok []
            else
              let! a := location n in
              let! b := location callee in
              Ok [mkDescriptor "removeInstantiationOf" [("constructor", calleeText)] (AtLocation (mkLoc (start a) (endp b))) []]
          else
            let! newToken := of_option TypeError (getFirstToken n) in
            Ok [mkDescriptor "removeInstantiation" [("constructor", "")] (AtLocation (t_loc newToken)) []]
      else Ok []
  | [] => Ok []
  end.

(** ** S4634: trivial promises *)

Definition getPromiseExecutor (n : node) : option node :=
  match get_node n "callee" with
  | Some callee =>
      if (type_of callee =s "Identifier") && (getText callee =s "Promise") && Nat.eqb (argument_count n) 1 then argument_at n 0 else None
  | None => None
  end.

Definition getOnlyBodyExpression (n : node) : option node :=
  if type_of n =s "BlockStatement" then
    match get_nodes n "body" with
    | [statement] => if type_of statement =s "ExpressionStatement" then get_node statement "expression" else None
    | _ => None
    end
  else Some n.

Definition getParameterName (n : option node) : option string :=
  match n with Some n => if type_of n =s "Identifier" then Some (node_name n) else None | None => None end.

Definition getPromiseAction (callee : string) (resolveParameterName rejectParameterName : option string) : option string :=
  if name_is resolveParameterName callee then Some "resolve"
  else if name_is rejectParameterName callee then Some "reject"
  else None.

(** The action and its argument. *)
Definition promise_action (executor : node) : option (string * node) :=
  if isFunctionNode executor then
    body ← get_node executor "body";
    bodyExpression ← getOnlyBodyExpression body;
    if type_of bodyExpression =s "CallExpression" then
      callee ← get_node bodyExpression "callee";
      if type_of callee =s "Identifier" then
        action ← getPromiseAction (node_name callee) (getParameterName (get_nodes executor "params" !! 0))
                   (getParameterName (get_nodes executor "params" !! 1));
        match get_nodes bodyExpression "arguments" with [a] => Some (action, a) | _ => None end
      else None
    else None
  else None.

Definition S4634 (n : node) : eval (list (ReportDescriptor * Suggested)) :=
  match getPromiseExecutor n ≫= promise_action with
  | Some (action, argument) =>
      let! callee := node_at n "callee" in
      let! range := range_of n in
      Ok [(report_data "promiseAction" callee [("action", action)],
           mkSuggested "suggestPromiseAction" [(range, ("Promise." +:+ action +:+ "(" +:+ getText argument +:+ ")")%string)])]
  | None => Ok []
  end.

(** ** S5958: tests of exceptions *)

Definition isInsideTest (ancestors : list node) : bool :=
  existsb (fun n => (type_of n =s "CallExpression") && isTestConstruct n TEST_CONSTRUCTS) ancestors.

(** The loop down the objects of a chain that ends with [throw]. *)
Fixpoint throw_chain (fuel : nat) (object : node) : bool :=
  match fuel with
  | O => false
  | S fuel' =>
      if type_of object =s "MemberExpression" then
        if isIdentifier (get_node object "property") ["not"] then false
        else if isIdentifier (get_node object "property") ["should"] then true
        else match get_node object "object" with Some inner => throw_chain fuel' inner | None => false end
      else (type_of object =s "CallExpression") && isIdentifier (get_node object "callee") ["expect"]
  end.

Definition isThrowAssertWithoutNot (n : node) : bool :=
  opt_type_is (get_node n "callee") "MemberExpression" && isIdentifier (callee_prop n "property") ["throw"]
  && match callee_prop n "object" with Some object => throw_chain (node_size object) object | None => false end.

Definition S5958_call (n : node) (ancestors : list node) : eval (list ReportDescriptor) :=
  if isInsideTest ancestors && isThrowAssertWithoutNot n
     && (Nat.eqb (argument_count n) 0 || (Nat.eqb (argument_count n) 1 && isIdentifier (argument_at n 0) ["Error"]))
  then
    let! property := of_option TypeError (callee_prop n "property") in
    Ok [report "Assert more concrete exception type or assert the message of exception." property]
  else Ok [].

Definition unused_exception (n : node) : list ReportDescriptor :=
  match get_node n "param" with
  | Some param =>
      if type_of param =s "Identifier" then
        match (scope ← sm_getScope sm n; v ← getVariableFromIdentifier sm param scope; variable_at sm v) with
        | Some exception =>
            match var_references exception with
            | [] => [report ("Either the exception should be passed to " +:+ quoted "done(e)" +:+ ", or the exception should be tested further.")%string param]
            | _ => []
            end
        | None => []
        end
      else []
  | None => []
  end.

(** [catchWithDone] and the reports. *)
Definition S5958_step (e : event) (st : bool * list ReportDescriptor) : eval (bool * list ReportDescriptor) :=
  let '(catchWithDone, reports) := st in
  match e with
  | Enter n ancestors =>
      if type_of n =s "CallExpression" then
        let in_catch := existsb (of_type "CatchClause") ancestors in
        let calls_done := match get_node n "callee" with Some callee => str_prop_is callee "name" "done" | None => false end in
        let! r := S5958_call n ancestors in
        Ok (catchWithDone || (in_catch && calls_done), reports ++ r)
      else Ok st
  | Leave n ancestors =>
      Ok (if (type_of n =s "CatchClause") && catchWithDone && isInsideTest ancestors then (false, reports ++ unused_exception n) else st)
  end.

Definition S5958 (program : node) : eval (bool * list ReportDescriptor) := run S5958_step (events keys [] program) (false, []).

End Nesting.

(** ** Examples *)

Module FunctionsExample.

Import TestsExample.

Definition sc : SourceCode :=
  mkSourceCode (mk 0 "Program" []) [] [] None keys (fun _ => []) (fun _ => None) (fun _ => None) (fun _ => []) (fun _ => mkPos 1 0) (fun _ => None).
Definition keys930 : VisitorKeys := fun type =>
  map_get type [("Program", ["body"]); ("BlockStatement", ["body"]); ("ExpressionStatement", ["expression"]);
    ("CallExpression", ["callee"; "arguments"]); ("MemberExpression", ["object"; "property"]);
    ("AssignmentPattern", ["left"; "right"]); ("FunctionDeclaration", ["id"; "params"; "body"])].

Definition located (n : node) : node := let 'Node h ps := n in Node (mkHeader (h_id h) (h_type h) (Some (mkLoc (mkPos 1 0) (mkPos 1 1))) None) ps.

(** [function f(a = arguments\[1\]) { g(); }] and [f(1, 2)]: only the uses of [arguments] in
    bodies are looked for. *)
Definition f_node (param : node) : node :=
  mk 10 "FunctionDeclaration" [("id", VNode (ident 11 "f")); ("params", VArr [VNode param]);
    ("body", VNode (block 12 [statement 13 (call 14 (ident 15 "g") [])]))].
Definition default_arguments : node :=
  located (mk 16 "AssignmentPattern" [("left", VNode (ident 17 "a")); ("right", VNode (member 18 (ident 19 "arguments") (ident 20 "x")))]).
Definition call_f : node := call 30 (ident 31 "f") [located (text 32 "1"); located (text 33 "2")].
Definition program_f (fn : node) : node := mk 1 "Program" [("body", VArr [VNode fn; VNode (statement 29 call_f)])].
Definition scopes_f (d : Def) : ScopeManager :=
  mkScopeManager [mkScope (mk 1 "Program" []) None [0] [0]] [mkVariable "f" 0 None [d] [0]]
    [mkReference (ident 31 "f") [] 0 (Some 0) None false true false] (fun _ => Some 0).

Lemma arguments_in_default_value :
  match S930 (scopes_f (mkDef "FunctionName" None (ident 11 "f") (f_node default_arguments))) sc (fun _ => []) keys930
          (program_f (f_node default_arguments)) with
  | Ok st => length (call_reports st) = 1 /\ usingArguments st = []
  | Throw _ => False
  end.
Proof. by vm_compute. Qed.

(** [let f = function () { g(); }; f = ...; f(1)]: the function of the initial value is the
    one that is looked at, whatever is assigned later. *)
Lemma assigned_function_is_ignored (written : node) :
  let fn := mk 10 "FunctionExpression" [("params", VArr []); ("body", VNode (block 12 []))] in
  let d := mkDef "Variable" None (ident 11 "f") (mk 9 "VariableDeclarator" [("init", VNode fn)]) in
  let sm := mkScopeManager [mkScope (mk 1 "Program" []) None [0] [0; 1]] [mkVariable "f" 0 None [d] [0; 1]]
              [mkReference (ident 31 "f") [] 0 (Some 0) None false true false;
               mkReference (ident 40 "f") [] 0 (Some 0) (Some written) false false true] (fun _ => Some 0) in
  called_function sm call_f = Some fn.
Proof. reflexivity. Qed.

(** [declare function f();] and [x = f()]: a declaration without a type returns something. *)
Lemma untyped_declaration_reported :
  let declared := mk 10 "TSDeclareFunction" [("id", VNode (ident 11 "f")); ("params", VArr [])] in
  let assignment := mk 35 "AssignmentExpression" [("left", VNode (ident 36 "x")); ("right", VNode call_f)] in
  let program := mk 1 "Program" [("body", VArr [VNode declared; VNode (statement 34 assignment)])] in
  let keys type := map_get type [("Program", ["body"]); ("ExpressionStatement", ["expression"]); ("AssignmentExpression", ["left"; "right"]);
                                 ("CallExpression", ["callee"; "arguments"])] in
  match S3699 (scopes_f (mkDef "FunctionName" None (ident 11 "f") declared)) keys program with
  | Ok st => map reported_node (output_reports st) = [Some (ident 31 "f")]
  | Throw _ => False
  end.
Proof. by vm_compute. Qed.

End FunctionsExample.
