(* ===== verification/Texts.v ===== *)
(** * Texts: rules on literals, on comments and on the texts of files

    S1451 (headers of files), S1192 (strings that are repeated), S1313 (addresses), S2068 and
    S6418 (passwords and secrets), S5443 (public directories), S5332 on URLs and connections,
    S1135 (comments to do), S3317 (names of files), S104 (long files), S1481 (variables that
    are not used), S6443 (setters of React), S5264 (contents of [object] elements), S1940 (operators that are
    negated), S2737, S3358, S1439, S1264 and S126 (statements). *)

From Stdlib Require Import ZArith QArith Lia Ascii.
From stdpp Require Import base list sets strings pretty.
From S2P Require Import Prelude JsString Estree JsNumber Reports Ast Modules Traversal Aws Calls Statements Names.
From S2P Require Duplicates Programs.

Open Scope js_scope.
Open Scope nat_scope.

Definition is_word_char (c : ascii) : bool :=
  let n := nat_of_ascii c in
  ((48 <=? n) && (n <=? 57)) || ((65 <=? n) && (n <=? 90)) || ((97 <=? n) && (n <=? 122)) || (n =? 95).

Definition is_digit_char (c : ascii) : bool := let n := nat_of_ascii c in (48 <=? n) && (n <=? 57).

Definition chars (s : string) : list ascii := String.list_ascii_of_string s.

(** [text.split(/\r\n?|\n/)], which is also [text.split(/(?:\r)?\n|\r/)]: the lines of a
    text; [after_cr] is whether the last character read is a carriage return. *)
Fixpoint split_lines_from (after_cr : bool) (s : string) : list string :=
  match s with
  | EmptyString => [EmptyString]
  | String c r =>
      if Ascii.eqb c "010" then
        if after_cr then split_lines_from false r else EmptyString :: split_lines_from false r
      else if Ascii.eqb c "013" then EmptyString :: split_lines_from true r
      else match split_lines_from false r with
           | p :: ps => String c p :: ps
           | [] => [String c EmptyString]
           end
  end.

Definition split_lines (s : string) : list string := split_lines_from false s.

(** The report on a file as a whole: [loc: { line: 0, column: 0 }]. *)
Definition file_issue (message : string) (data : list (string * string)) : ReportDescriptor :=
  mkDescriptor message data (AtLocation (mkLoc (mkPos 0 0) (mkPos 0 0))) [].

(** ** S1451: headers of files *)

Section Headers.

(** [new RegExp(headerFormat, 's')], when it compiles, and the index of its first match. *)
Context (RegExp_s : string -> option (string -> option Z)).

(** [cached], a variable of the module. *)
Record header_cache := mkCached {
  headerFormat : string;
  isRegularExpression : bool;
  expectedLines : list string;
  searchPattern : option (string -> option Z);
  failedToCompile : bool
}.

Definition header_defaults : string * bool := ("", false).

Definition fresh_cache (options : string * bool) : header_cache :=
  let '(format, regular) := options in
  if regular : bool then
    match RegExp_s format with
    | Some pattern => mkCached format true [] (Some pattern) false
    | None => mkCached format true [] None true
    end
  else mkCached format false (split_lines format) None false.

(** The options of the rule come with the defaults. *)
Definition updateCache (cached : option header_cache) (options : string * bool) : header_cache :=
  match cached with
  | Some c =>
      if negb (headerFormat c =s options.1) || negb (Bool.eqb (isRegularExpression c) options.2) then fresh_cache options else c
  | None => fresh_cache options
  end.

(** The loop on the lines that are expected. *)
Fixpoint lines_match (expected lines : list string) : bool :=
  match expected, lines with
  | [], _ => true
  | e :: expected', l :: lines' => (l =s e) && lines_match expected' lines'
  | _ :: _, [] => false
  end.

Definition checkPlainText (expected lines : list string) : bool := (length expected <=? length lines) && lines_match expected lines.

Definition addFileIssue : list ReportDescriptor := [file_issue "fixHeader" []].

(** A file, with the cache that the files before have left. *)
Definition S1451 (cached : option header_cache) (options : string * bool) (lines : list string) (fileContent : string)
    : header_cache * list ReportDescriptor :=
  let cached := updateCache cached options in
  (cached,
   if failedToCompile cached then []
   else if isRegularExpression cached then
     match searchPattern cached with
     | Some pattern => match pattern fileContent with Some 0%Z => [] | _ => addFileIssue end
     | None => []
     end
   else if checkPlainText (expectedLines cached) lines then [] else addFileIssue).

(** The cache is made of the options it holds. *)
Definition coherent (cached : option header_cache) : Prop :=
  match cached with Some c => c = fresh_cache (headerFormat c, isRegularExpression c) | None => True end.

Lemma fresh_cache_options options : (headerFormat (fresh_cache options), isRegularExpression (fresh_cache options)) = options.
Proof. destruct options as [format []]; cbn; [by destruct (RegExp_s format) | done]. Qed.

Lemma updateCache_fresh cached options : coherent cached -> updateCache cached options = fresh_cache options.
Proof.
  destruct cached as [c|]; [| done]. destruct options as [format regular]. cbn [coherent updateCache fst snd]. intros E.
  destruct (String.eqb_spec (headerFormat c) format) as [H|]; cbn [negb orb]; [| done].
  destruct (Bool.eqb_spec (isRegularExpression c) regular) as [R|]; cbn [negb]; [| done]. by rewrite E, H, R.
Qed.

(** The caches that the analyses of files before have left. *)
Inductive reached : option header_cache -> Prop :=
| reached_start : reached None
| reached_file cached options lines text : reached cached -> reached (Some (S1451 cached options lines text).1).

(** The cache changes nothing: whatever files came before, and with which options, a file
    is checked as when it comes first. *)
Theorem headers_checked_as_first cached options lines text : reached cached ->
  S1451 cached options lines text = S1451 None options lines text.
Proof.
  intros R. assert (coherent cached) as C.
  { induction R as [|cached' o' l' t' R IH]; [done |]. cbn [S1451 fst coherent].
    rewrite (updateCache_fresh _ _ IH). by rewrite fresh_cache_options. }
  unfold S1451. by rewrite (updateCache_fresh _ _ C).
Qed.

(** The search for a header in plain text is a test of prefix. *)
Lemma plain_header_prefix expected lines : checkPlainText expected lines = true <-> expected `prefix_of` lines.
Proof.
  unfold checkPlainText. revert lines. induction expected as [|e expected IH]; intros lines; cbn [lines_match length].
  - split; [intros _; apply prefix_nil | done].
  - destruct lines as [|l lines]; cbn [length].
    + split; [done |]. by intros ?%prefix_nil_not.
    + change (S (length expected) <=? S (length lines)) with (length expected <=? length lines). split.
      * intros H. split_bools. subst. apply prefix_cons, IH. by apply andb_true_iff.
      * intros H. pose proof (prefix_cons_inv_1 _ _ _ _ H) as ->. apply prefix_cons_inv_2, IH, andb_true_iff in H as [? ?].
        by rewrite String.eqb_refl, andb_true_iff.
Qed.

End Headers.

(** ** S1192: strings that are repeated *)

Section Strings.

Context (getText : node -> string).
(** The options, with their defaults 3 and [application/json]. *)
Context (threshold : nat) (ignoreStrings : string).

Definition MIN_LENGTH : nat := 10.
Definition EXCLUDED_CONTEXTS : list string :=
  ["ImportDeclaration"; "ImportExpression"; "JSXAttribute"; "ExportAllDeclaration"; "ExportNamedDeclaration"].

(** [/^\w*$/] *)
Definition NO_SEPARATOR (s : string) : bool := forallb is_word_char (chars s).

Definition isRequireContext (parent : node) : bool :=
  (type_of parent =s "CallExpression") && match get_node parent "callee" with Some callee => getText callee =s "require" | None => false end.

Definition isObjectPropertyKey (parent literal : node) : bool :=
  (type_of parent =s "Property") && match get_node parent "key" with Some key => same_node key literal | None => false end.

Definition isExcludedByUsageContext (parent literal : node) : bool :=
  includes (type_of parent) EXCLUDED_CONTEXTS || isRequireContext parent || isObjectPropertyKey parent literal.

(** The string of a literal that counts, given the parent of the literal. *)
Definition counted_string (literal : node) (parent : option node) : option string :=
  match get literal "value", parent with
  | VStr value, Some parent =>
      let stringContent := trim value in
      if negb (includes (type_of parent) ["ExpressionStatement"; "TSLiteralType"])
         && negb (includes value (split_char "," ignoreStrings))
         && negb (isExcludedByUsageContext parent literal)
         && (MIN_LENGTH <=? length (code_units stringContent)) && negb (NO_SEPARATOR stringContent)
      then Some stringContent else None
  | _, _ => None
  end.

Definition on_literal (literalsByValue : list (string * list node)) (l : node * option node) : list (string * list node) :=
  match counted_string l.1 l.2 with
  | Some content => map_set content (default [] (map_get content literalsByValue) ++ [l.1]) literalsByValue
  | None => literalsByValue
  end.

Definition S1192_message : string := "Define a constant instead of duplicating this literal {{times}} times.".

Definition duplicate_issue (literals : list node) : list ReportDescriptor :=
  match literals with
  | primaryNode :: secondaryNodes =>
      if threshold <=? length literals then
        [mkDescriptor S1192_message [("times", pretty (Z.of_nat (length literals)))] (AtNode primaryNode)
           (map (fun n => secondary_with n "Duplication") secondaryNodes)]
      else []
  | [] => []
  end.

Definition literals_by_value (l : list (node * option node)) : list (string * list node) := fold_left on_literal l [].

(** The literals of the file with their parents, in the order of the walk. *)
Definition S1192 (l : list (node * option node)) : list ReportDescriptor := flat_map (fun e => duplicate_issue e.2) (literals_by_value l).

(** The literals that count with a text. *)
Definition literals_with (content : string) (l : list (node * option node)) : list node :=
  map fst (List.filter (fun x => bool_decide (counted_string x.1 x.2 = Some content)) l).

Lemma literals_grouped l : forall m, NoDup m.*1 -> (forall k v, map_get k m = Some v -> v <> []) ->
  NoDup (fold_left on_literal l m).*1 /\ (forall k v, map_get k (fold_left on_literal l m) = Some v -> v <> []) /\
  forall content, default [] (map_get content (fold_left on_literal l m)) = default [] (map_get content m) ++ literals_with content l.
Proof.
  induction l as [|x l IH]; intros m N E; cbn [fold_left].
  { split_and!; [done | done |]. intros content. by rewrite app_nil_r. }
  unfold on_literal at 2 4 6, literals_with. cbn [List.filter]. destruct (counted_string x.1 x.2) as [c|] eqn:C.
  - destruct (IH (map_set c (default [] (map_get c m) ++ [x.1]) m)) as (N' & E' & G).
    { by apply NoDup_map_set. }
    { intros k v [[-> ->]|[_ H]]%map_get_set_cases; [by destruct (default [] _) | by eapply E]. }
    split_and!; [done | done |]. intros content. rewrite G. destruct (decide (c = content)) as [->|Ne].
    + rewrite map_get_set_eq, bool_decide_eq_true_2 by done. cbn. by rewrite <- app_assoc.
    + rewrite map_get_set_ne, bool_decide_eq_false_2 by congruence. done.
  - destruct (IH m N E) as (N' & E' & G). split_and!; [done | done |]. intros content. rewrite G.
    by rewrite bool_decide_eq_false_2.
Qed.

(** S1192 reports exactly the texts with enough literals, each once, at its first literal
    and with all the others. *)
Theorem repeated_strings_reported l d :
  d ∈ S1192 l <-> exists content, d ∈ duplicate_issue (literals_with content l).
Proof.
  destruct (literals_grouped l [] (NoDup_nil_2) (fun k v H => ltac:(discriminate H))) as (N & E & G).
  fold (literals_by_value l) in N, E, G. unfold S1192. rewrite elem_of_flat_map. split.
  - intros ([content v] & H & Hd). exists content. cbn [snd] in Hd. pose proof (elem_map_get _ _ _ N H) as M. specialize (G content).
    rewrite M in G. cbn in G. by rewrite <- G.
  - intros (content & H). specialize (G content). cbn in G. destruct (map_get content (literals_by_value l)) as [v|] eqn:M; cbn in G.
    + exists (content, v). split; [by apply map_get_Some_elem |]. cbn [snd]. by rewrite G.
    + rewrite <- G in H. by apply not_elem_of_nil in H.
Qed.

(** ** S1313: addresses *)

(** [isIP(text) !== 0], of the module [net] of Node. *)
Context (isIP : string -> bool).

Definition acceptedIpAddresses : list string := ["255.255.255.255"; "::1"; "::"; "0:0:0:0:0:0:0:1"; "0:0:0:0:0:0:0:0"].
Definition ipV4Octets : nat := 4.
Definition ipV4MappedToV6Prefix : string := "::ffff:0:".
Definition acceptedIpV6Starts : list string := ["2001:db8:"].
Definition acceptedIpV4Starts : list string := ["127."; "0."; "2.5"; "192.0.2."; "198.51.100."; "203.0.113."].

Definition S1313_isException (ip : string) : bool :=
  existsb (fun prefix => startsWith prefix ip) acceptedIpV6Starts
  || existsb (fun prefix => startsWith (ipV4MappedToV6Prefix +:+ prefix) ip || startsWith prefix ip) acceptedIpV4Starts
  || includes ip acceptedIpAddresses.

(** An octet that begins with 0 and is octal, or with 0x and is hexadecimal. *)
Definition octal_or_hex (digit : string) : option Z :=
  match digit with
  | String "0" r =>
      match read_digits 8 0 0 r with
      | (v, _, EmptyString) => Some v
      | _ =>
          match r with
          | String x hex =>
              if Ascii.eqb x "x" || Ascii.eqb x "X" then
                match read_digits 16 0 0 hex with (v, S _, EmptyString) => Some v | _ => None end
              else None
          | EmptyString => None
          end
      end
  | _ => None
  end.

Definition isIPV4OctalOrHex (ip : string) : bool :=
  let digits := split_char "." ip in
  if negb (length digits =? ipV4Octets) then false
  else
    match mapM octal_or_hex digits with
    | Some decimalDigits =>
        let convertedIp := join_with "." (map pretty decimalDigits) in
        negb (S1313_isException convertedIp) && isIP convertedIp
    | None => false
    end.

(** The part before a mask: [value.match(/(^[^/]+)\/\d{1,3}$/)]. *)
Definition netMask (value : string) : option string :=
  match split_char "/" value with
  | [ip; mask] =>
      if negb (ip =s "") && forallb is_digit_char (chars mask) && (1 <=? String.length mask) && (String.length mask <=? 3)
      then Some ip else None
  | _ => None
  end.

Definition S1313 (n : node) : list ReportDescriptor :=
  match get n "value" with
  | VStr value =>
      let ip := default value (netMask value) in
      if (negb (S1313_isException ip) && isIP ip) || isIPV4OctalOrHex ip
      then [report_data "checkIP" n [("ip", value)]] else []
  | _ => []
  end.

(** The loopback address as an IPv6 address that maps an IPv4 one has the prefix [::ffff:],
    which is not the one of the rule. *)
Lemma mapped_loopback_reported n : get n "value" = VStr "::ffff:127.0.0.1" -> isIP "::ffff:127.0.0.1" = true ->
  S1313 n = [report_data "checkIP" n [("ip", "::ffff:127.0.0.1")]].
Proof.
  intros V I. unfold S1313. rewrite V. replace (default _ (netMask _)) with "::ffff:127.0.0.1" by reflexivity. rewrite I.
  by replace (S1313_isException "::ffff:127.0.0.1") with false by reflexivity.
Qed.

Example octal_address : octal_or_hex "0177" = Some 127%Z /\ octal_or_hex "0x7F" = Some 127%Z /\ octal_or_hex "08" = None.
Proof. done. Qed.

(** ** S2068: passwords *)

(** The words of the option, and [new RegExp(`${name}=.+`).test(text)]. *)
Context (passwordWords : option (list string)) (word_is_given : string -> string -> bool).
Context (toLowerCase : string -> string).

Definition DEFAULT_NAMES : list string := ["password"; "pwd"; "passwd"].

Definition variableNames : list string := default DEFAULT_NAMES passwordWords.

Definition S2068_checkAssignment (variable initializer : option node) : list ReportDescriptor :=
  match variable, initializer with
  | Some variable, Some initializer =>
      if isStringLiteral initializer && negb (str_prop_is initializer "value" "")
         && existsb (fun pattern => string_includes pattern (getText variable)) variableNames
      then [report "reviewPassword" initializer] else []
  | _, _ => []
  end.

Definition S2068_checkLiteral (literal : node) : list ReportDescriptor :=
  if isStringLiteral literal && existsb (fun name => word_is_given name (default "" (get_str literal "value"))) variableNames
  then [report "reviewPassword" literal] else [].

(** The directories of translations are left out. *)
Definition in_l10n (physicalFilename : string) : bool :=
  includes "l10n" (map toLowerCase (Programs.path_segments (Programs.dirname physicalFilename))).

Definition S2068 (physicalFilename : string) (n : node) : list ReportDescriptor :=
  if in_l10n physicalFilename then []
  else if type_of n =s "VariableDeclarator" then S2068_checkAssignment (get_node n "id") (get_node n "init")
  else if type_of n =s "AssignmentExpression" then S2068_checkAssignment (get_node n "left") (get_node n "right")
  else if type_of n =s "Property" then S2068_checkAssignment (get_node n "key") (get_node n "value")
  else if type_of n =s "Literal" then S2068_checkLiteral n
  else [].

End Strings.

(** ** S6418: secrets *)

Section Secrets.

(** [Math.log], on exact numbers, and [new RegExp(`(${word})`, 'i')] when it compiles, as
    its test. *)
Context (Math_log : Q -> Q) (RegExp_i : string -> option (string -> bool)).
(** The options of the rule. *)
Context (secretWords : option string) (option_sensibility : option Q).

Definition DEFAULT_SECRET_WORDS : string := "api[_.-]?key,auth,credential,secret,token".
Definition DEFAULT_RANDOMNESS_SENSIBILITY : Q := 5.

Definition secret_message (name : string) : string := (quoted name +:+ " detected here, make sure this is not a hard-coded secret.")%string.

Definition among (s : string) (c : ascii) : bool := existsb (Ascii.eqb c) (chars s).

(** The classes [\[a-zA-Z0-9_.+/~$-\]] and [\[a-zA-Z0-9_.+/=~$-\]]. *)
Definition secret_start (c : ascii) : bool := is_word_char c || among ".+/~$-" c.
Definition secret_char (c : ascii) : bool := secret_start c || Ascii.eqb c "=".

(** Four backslashes that are not before [n], [t], [r] or a quote, and what follows them. *)
Definition four_backslashes (s : string) : option string :=
  match strip_prefix (bytes [92; 92; 92; 92]) s with
  | Some EmptyString => Some EmptyString
  | Some (String c r) => if among "ntr" c || Ascii.eqb c "034" then None else Some (String c r)
  | None => None
  end.

(** The rest of the pattern after [count] items: the items are either a character of the
    class or four backslashes, which exclude each other. *)
Fixpoint secret_items (fuel count : nat) (s : string) : bool :=
  match fuel with
  | O => false
  | S fuel' =>
      ((14 <=? count) && match s with String c _ => secret_char c | EmptyString => false end)
      || ((count <? 1022)
          && match s with
             | String c r =>
                 if secret_char c then secret_items fuel' (S count) r
                 else match four_backslashes s with Some rest => secret_items fuel' (S count) rest | None => false end
             | EmptyString => false
             end)
  end.

(** [POSTVALIDATION_PATTERN.test(value)]: the pattern is searched from each character. *)
Fixpoint valuePassesPostValidation (value : string) : bool :=
  match value with
  | EmptyString => false
  | String c r => (secret_start c && secret_items 1023 0 r) || valuePassesPostValidation r
  end.

(** [\[...str\]]: the code points, as their UTF-16 code units. *)
Fixpoint letters (units : list Z) : list (list Z) :=
  match units with
  | high :: (low :: rest) as tail_ =>
      if ((55296 <=? high) && (high <? 56320) && (56320 <=? low) && (low <? 57344))%Z%bool
      then [high; low] :: letters rest else [high] :: letters tail_
  | l => map (fun u => [u]) l
  end.

(** The counts of the letters; their order in [Object.values] does not matter to a sum. *)
Definition occurences (l : list (list Z)) : list (list Z * nat) :=
  fold_left (fun m letter => map_set letter (S (default 0 (map_get letter m))) m) l [].

Definition nat_Q (k : nat) : Q := inject_Z (Z.of_nat k).

Definition term (lettersTotal : nat) (count : nat) : Q :=
  (let frequency := nat_Q count / nat_Q lettersTotal in - frequency * Math_log frequency)%Q.

Definition ShannonEntropy_calculate (str : string) : Q :=
  if str =s "" then 0%Q
  else
    let lettersTotal := length (code_units str) in
    (fold_left (fun acc entropy => acc + entropy)
       (map (fun e => term lettersTotal e.2) (occurences (letters (code_units str)))) 0 / Math_log 2)%Q.

Definition entropyShouldRaise (value : string) : bool :=
  negb (Qle_bool (ShannonEntropy_calculate value) (default DEFAULT_RANDOMNESS_SENSIBILITY option_sensibility)).

(** The expressions of the words, or of the default words when one does not compile. *)
Definition buildSecretWordRegexps : eval (list (string -> bool)) :=
  let compile words := mapM (fun word => RegExp_i ("(" +:+ word +:+ ")")%string) (split_char "," words) in
  match compile (default DEFAULT_SECRET_WORDS secretWords) with
  | Some l => Ok l
  | None => of_option RangeError (compile DEFAULT_SECRET_WORDS)
  end.

Definition findKeySuspect (patterns : list (string -> bool)) (n : option node) : option string :=
  match n with
  | Some n => if isIdentifier (Some n) [] && existsb (fun pattern => pattern (node_name n)) patterns then Some (node_name n) else None
  | None => None
  end.

Definition findValueSuspect (n : option node) : option node :=
  match n with
  | Some n =>
      let value := default "" (get_str n "value") in
      if isStringLiteral n && valuePassesPostValidation value && entropyShouldRaise value then Some n else None
  | None => None
  end.

(** [extractDefaultOperatorIfNeeded(node)] *)
Definition extractDefaultOperatorIfNeeded (n : node) : option node :=
  match get_node n "right" with
  | Some r => if (type_of r =s "LogicalExpression") && (str_prop_is r "operator" "??" || str_prop_is r "operator" "||")
              then get_node r "right" else Some r
  | None => None
  end.

(** The report, at a node, of a key and a value. *)
Definition suspect (patterns : list (string -> bool)) (key value : option node) (at_ : option node) : list ReportDescriptor :=
  match findKeySuspect patterns key, findValueSuspect value, at_ with
  | Some keySuspect, Some _, Some n => [report (secret_message keySuspect) n]
  | _, _, _ => []
  end.

Definition S6418 (n : node) : eval (list ReportDescriptor) :=
  let! patterns := buildSecretWordRegexps in
  let key_value k v := suspect patterns (get_node n k) (get_node n v) (get_node n v) in
  Ok (if type_of n =s "AssignmentExpression" then
        suspect patterns (get_node n "left") (extractDefaultOperatorIfNeeded n) (get_node n "right")
      else if type_of n =s "AssignmentPattern" then key_value "left" "right"
      else if includes (type_of n) ["Property"; "PropertyDefinition"] then key_value "key" "value"
      else if type_of n =s "VariableDeclarator" then key_value "id" "init"
      else []).

Lemma map_set_sum letter (m : list (list Z * nat)) : sum_list (map_set letter (S (default 0 (map_get letter m))) m).*2 = S (sum_list m.*2).
Proof.
  induction m as [|[l k] m IH]; [done |]. cbn [map_get map_set]. destruct (decide (letter = l)) as [->|Ne]; [done |].
  rewrite !fmap_cons. cbn [snd sum_list]. rewrite IH. lia.
Qed.

(** The counts add up to the number of letters. *)
Lemma occurences_total l : sum_list (occurences l).*2 = length l.
Proof.
  unfold occurences. set (f := fun m letter => _).
  enough (forall m, sum_list (fold_left f l m).*2 = sum_list m.*2 + length l) as H by apply (H []).
  induction l as [|x l IH]; intros m; cbn [fold_left length]; [lia |]. rewrite IH. unfold f at 1. rewrite map_set_sum. lia.
Qed.

Lemma occurences_repeat x k : occurences (repeat x (S k)) = [(x, S k)].
Proof.
  unfold occurences. set (f := fun m letter => _). assert (forall j, fold_left f (repeat x k) [(x, j)] = [(x, j + k)]) as H; [| apply (H 1)].
  induction k as [|k IH]; intros j; cbn [repeat fold_left]; [by rewrite Nat.add_0_r |].
  replace (f [(x, j)] x) with [(x, S j)] by (unfold f; cbn; by rewrite !decide_True by done).
  rewrite IH. do 2 f_equal. lia.
Qed.

Lemma letters_repeat u k : (u < 55296 \/ 56320 <= u)%Z -> letters (repeat u k) = repeat [u] k.
Proof.
  intros H. induction k as [|k IH]; [done |]. cbn [repeat letters]. destruct k as [|k]; [done |].
  cbn [repeat] in *. replace (_ && _)%bool with false; [by rewrite IH |]. symmetry. apply andb_false_iff. left.
  apply andb_false_iff. left. apply andb_false_iff. rewrite Z.leb_gt, Z.ltb_ge. lia.
Qed.

(** A value that repeats one letter has no entropy: it is never a secret, unless the
    sensibility is negative. *)
Theorem repeated_letter_not_suspect value u k : Proper (Qeq ==> Qeq) Math_log -> (Math_log 1 == 0)%Q ->
  (0 <= default DEFAULT_RANDOMNESS_SENSIBILITY option_sensibility)%Q -> (u < 55296 \/ 56320 <= u)%Z ->
  code_units value = repeat u (S k) -> entropyShouldRaise value = false.
Proof.
  intros P L H N U. unfold entropyShouldRaise. apply negb_false_iff, Qle_bool_iff.
  enough (ShannonEntropy_calculate value == 0)%Q as -> by done.
  unfold ShannonEntropy_calculate. destruct (value =s ""); [done |]. rewrite U, (letters_repeat _ _ N), repeat_length, occurences_repeat. cbn [map fold_left snd].
  unfold term. cbn zeta. assert (~ nat_Q (S k) == 0)%Q as Z by (unfold nat_Q, Qeq; cbn; lia).
  assert (nat_Q (S k) / nat_Q (S k) == 1)%Q as E by (by field). rewrite E, L. unfold Qdiv. ring.
Qed.

(** Two letters beyond the first 65536 code points, each half of the text, are counted
    against the number of code units: their frequencies are a quarter. *)
Example frequencies_of_astral_letters :
  let text := bytes [240; 159; 152; 128; 240; 159; 152; 129] in
  length (letters (code_units text)) = 2 /\ length (code_units text) = 4.
Proof. by vm_compute. Qed.

End Secrets.

(** ** S5443: public directories *)

Definition UNIX_DIRECTORIES : list string :=
  ["/tmp/"; "/var/tmp/"; "/usr/tmp/"; "/dev/shm/"; "/dev/mqueue/"; "/run/lock/"; "/var/run/lock/"; "/library/caches/"; "/users/shared/";
   "/private/tmp/"; "/private/var/tmp/"].

Definition backslash_char : ascii := "092".

(** The end of the Windows pattern, [(\\.*|$)]. *)
Definition ends_segment (s : string) : bool := match s with EmptyString => true | String c _ => Ascii.eqb c backslash_char end.

(** [(Windows(\\){1,2}Temp|Temp|TMP)(\\.*|$)], on a text in lower case: [one_or_two] gives the
    texts after one backslash and after two. *)
Definition one_or_two (s : string) : list string :=
  match s with
  | String c r =>
      if Ascii.eqb c backslash_char then
        r :: match r with String d r' => if Ascii.eqb d backslash_char then [r'] else [] | EmptyString => [] end
      else []
  | EmptyString => []
  end.

Definition after (p s : string) (k : string -> bool) : bool := match strip_prefix p s with Some r => k r | None => false end.

Definition temp_directory (s : string) : bool :=
  after "windows" s (fun r => existsb (fun r => after "temp" r ends_segment) (one_or_two r))
  || after "temp" s ends_segment || after "tmp" s ends_segment.

(** The text from its first backslash on. *)
Fixpoint from_backslash (s : string) : string :=
  match s with
  | EmptyString => EmptyString
  | String c r => if Ascii.eqb c backslash_char then s else from_backslash r
  end.

(** [WINDOWS_DIRECTORIES_PATTERN]: its first class takes all up to the first backslash. *)
Definition windows_directory (value : string) : bool :=
  existsb temp_directory (one_or_two (from_backslash (toLowerCase_ascii value))).

Definition SENSITIVE_ENV_VARIABLES : list string := ["TMPDIR"; "TMP"; "TEMPDIR"; "TEMP"].

(** [literal.raw?.slice(1, literal.raw.length - 1)] *)
Definition unquoted (raw : string) : string := String.substring 1 (String.length raw - 2) raw.

Definition public_directory (value : string) : bool :=
  negb (value =s "") && (existsb (fun d => startsWith d (toLowerCase_ascii value)) UNIX_DIRECTORIES || windows_directory value).

Definition S5443 (n : node) : list ReportDescriptor :=
  if type_of n =s "Literal" then
    match get_str n "raw" with
    | Some raw => if public_directory (unquoted raw) then [report "safeDirectory" n] else []
    | None => []
    end
  else if type_of n =s "MemberExpression" then
    match get_node n "property", get_node n "object" with
    | Some property, Some object =>
        if (type_of property =s "Identifier") && includes (node_name property) SENSITIVE_ENV_VARIABLES && (type_of object =s "MemberExpression")
           && identifier_named (get_node object "property") "env" && identifier_named (get_node object "object") "process"
        then [report "safeDirectory" n] else []
    | _, _ => []
    end
  else [].

Example windows_directories :
  map (fun s => public_directory s) ["C:\Windows\Temp\x"; "\\tmp"; "C:\tempo"; "D:\\TEMP\a"; "C:\a\Temp"; "/TMP/f"; "/tmp"]
  = [true; true; false; true; false; true; false].
Proof. by vm_compute. Qed.

(** ** S1135: comments to do *)

Section Comments.

(** [String.toLowerCase] and [/\[\p{Letter}\]/u] on a code unit. *)
Context (toLowerCase : string -> string) (is_letter : Z -> bool).

Definition todoPattern : string := "todo".

(** [l.indexOf(pattern)], on code units. *)
Fixpoint index_of (pattern l : list Z) : option nat :=
  if decide (pattern `prefix_of` l) then Some 0
  else match l with [] => None | _ :: r => S <$> index_of pattern r end.

Definition isLetterAround (line : list Z) (start_ : nat) (pattern : list Z) : bool :=
  let end_ := start_ + length pattern in
  let pre := (0 <? start_) && match line !! (start_ - 1) with Some c => is_letter c | None => false end in
  let post := (S end_ <=? length line) && match line !! end_ with Some c => is_letter c | None => false end in
  pre || post.

Definition getPatternPosition (lineIdx index : nat) (loc : SourceLocation) (pattern : list Z) : SourceLocation :=
  let line_ := (line (start loc) + Z.of_nat lineIdx)%Z in
  let columnStart := if lineIdx =? 0 then (column (start loc) + 2)%Z else 0%Z in
  let patternStart := (columnStart + Z.of_nat index)%Z in
  mkLoc (mkPos line_ patternStart) (mkPos line_ (patternStart + Z.of_nat (length pattern))).

Definition pattern_in_line (pattern : list Z) (messageId : string) (loc : SourceLocation) (i : nat) (text : string) : list ReportDescriptor :=
  let units := code_units text in
  match index_of pattern units with
  | Some index =>
      if isLetterAround units index pattern then []
      else [mkDescriptor messageId [] (AtLocation (getPatternPosition i index loc pattern)) []]
  | None => []
  end.

Definition pattern_in_comment (pattern messageId : string) (comment : Comment) : eval (list ReportDescriptor) :=
  let rawText := toLowerCase (c_value comment) in
  if string_includes pattern rawText then
    let! loc := of_option TypeError (c_loc comment) in
    Ok (concat (imap (pattern_in_line (code_units pattern) messageId loc) (split_lines rawText)))
  else Ok [].

Definition reportPatternInComment (comments : list Comment) (pattern messageId : string) : eval (list ReportDescriptor) :=
  all_reports (map (pattern_in_comment pattern messageId) comments).

Definition S1135 (comments : list Comment) : eval (list ReportDescriptor) := reportPatternInComment comments todoPattern "completeTODO".

(** The index is that of the first occurrence. *)
Lemma index_of_first pattern l k : index_of pattern l = Some k ->
  pattern `prefix_of` drop k l /\ forall j, j < k -> ~ pattern `prefix_of` drop j l.
Proof.
  revert k. induction l as [|x l IH]; intros k; cbn [index_of]; destruct (decide _) as [P|P].
  - intros [= <-]. split; [done | lia].
  - done.
  - intros [= <-]. split; [done | lia].
  - destruct (index_of pattern l) as [i|]; [| done]. intros [= <-]. destruct (IH i eq_refl) as [H1 H2]. split; [done |].
    intros [|j] H; [done |]. apply H2. lia.
Qed.

End Comments.

(** Only the first occurrence of a line counts: the one in [mastodon] hides the comment. *)
Lemma todo_after_word_missed :
  S1135 id (fun c => (97 <=? c)%Z && (c <=? 122)%Z) [mkComment "Line" " mastodon: todo" (Some (mkLoc (mkPos 1 0) (mkPos 1 17))) (0, 17)%Z] = Ok [].
Proof. by vm_compute. Qed.

(** ** S3317: names of files *)

Section Files.

Context (sm : ScopeManager) (toLowerCase : list Z -> list Z).

(** [path.parse(filename).name] *)
Definition parsed_name (filename : string) : string :=
  let base := Programs.basename filename in
  String.substring 0 (String.length base - String.length (Programs.extname filename)) base.

Definition unit_of (c : ascii) : Z := Z.of_nat (nat_of_ascii c).

Definition sameName (nameOfExported fileName : list Z) : bool :=
  let normalizedFileName := List.filter (fun u => negb (bool_decide (u ∈ map unit_of ["_"; "-"; "."]%char))) fileName in
  let normalizedNameOfExported := List.filter (fun u => negb (bool_decide (u ∈ map unit_of ["_"; "-"]%char))) nameOfExported in
  bool_decide (toLowerCase normalizedNameOfExported = toLowerCase normalizedFileName).

Definition isConst (def : Def) : bool :=
  (def_type def =s "Variable") && match def_parent def with Some parent => str_prop_is parent "kind" "const" | None => false end.

(** [fileName.lastIndexOf(".")], -1 being [None]. *)
Fixpoint last_dot (units : list Z) : option nat :=
  match units with
  | [] => None
  | u :: rest => match last_dot rest with Some i => Some (S i) | None => if (u =? unit_of ".")%Z then Some 0 else None end
  end.

(** [fileName.slice(0, fileName.lastIndexOf("."))]: with -1, the last code unit is left out. *)
Definition sliceOffPostfix (fileName : list Z) : list Z :=
  match last_dot fileName with Some i => take i fileName | None => take (length fileName - 1) fileName end.

(** The name that an [export default] gives, when it gives one. *)
Definition exported_name (n : node) : option string :=
  match get_node n "declaration" with
  | Some declaration =>
      if type_of declaration =s "Identifier" then
        match getVariableFromName sm (node_name declaration) n ≫= variable_at sm with
        | Some variable =>
            match var_defs variable with
            | [def] => if (def_type def =s "ClassName") || (def_type def =s "FunctionName") || isConst def
                       then Some (node_name declaration) else None
            | _ => None
            end
        | None => None
        end
      else if includes (type_of declaration) ["ClassDeclaration"; "FunctionDeclaration"] then node_name <$> get_node declaration "id"
      else None
  | None => None
  end.

(** [isOnlyExport] and [nameOfExported]. *)
Definition export_step (st : bool * option string) (n : node) : bool * option string :=
  if type_of n =s "ExportDefaultDeclaration" then
    (st.1, match exported_name n with Some name => Some name | None => st.2 end)
  else if includes (type_of n) ["ExportAllDeclaration"; "ExportNamedDeclaration"] then (false, st.2)
  else st.

Definition misnamed (filename exported : string) : bool :=
  let fileName := code_units (parsed_name filename) in
  negb (parsed_name filename =s "index") && negb (sameName (code_units exported) fileName)
  && negb (sameName (code_units exported) (sliceOffPostfix fileName)).

(** The nodes of the file, in the order of the walk. *)
Definition S3317 (filename : string) (l : list node) : list ReportDescriptor :=
  match fold_left export_step l (true, None) with
  | (true, Some exported) =>
      if negb (exported =s "") && misnamed filename exported then [file_issue "renameFile" [("exported", exported)]] else []
  | _ => []
  end.

End Files.

(** Without a dot in the name, the postfix that is cut is the last character: the class
    [Foo] may be in [Foos.ts]. *)
Lemma last_letter_cut : misnamed id "/src/Foos.ts" "Foo" = false /\ misnamed id "/src/Fool2.ts" "Foo" = true.
Proof. by vm_compute. Qed.

(** ** S1481: variables that are not used *)

Section Unused.

Context (sm : ScopeManager).
(** [scope.type] and [scope.childScopes]. *)
Context (scope_type : ScopeId -> string) (childScopes : ScopeId -> list ScopeId).

(** What is checked in a scope. *)
Inductive to_check := Nothing | LetConstFunction | All.

Definition is_nothing (c : to_check) : bool := match c with Nothing => true | _ => false end.

Section Listeners.

Context (toIgnore : list node) (jsxComponentsToIgnore : list string).

Definition getMessageAndData (name : string) (isFunction : bool) : string * list (string * string) :=
  (if isFunction then "unusedFunction" else "unusedVariable", [("symbol", name)]).

Definition is_var (def : Def) : bool :=
  match def_parent def with Some parent => (type_of parent =s "VariableDeclaration") && str_prop_is parent "kind" "var" | None => false end.

(** Every reference of the variable is one of its definitions. *)
Definition unused (v : Variable_) : bool :=
  forallb (fun ref => has_node (ref_identifier ref) (map def_name (var_defs v))) (omap (reference_at sm) (var_references v)).

Definition S1481_checkVariable (toCheck : to_check) (v : Variable_) : list ReportDescriptor :=
  match var_defs v with
  | [] => []
  | def :: _ =>
      if negb (includes (def_type def) ["Variable"; "FunctionName"]) then []
      else if match toCheck with LetConstFunction => is_var def | _ => false end then []
      else if unused v && negb (has_node (def_name def) toIgnore) && negb (includes (var_name v) jsxComponentsToIgnore) then
        let '(message, data) := getMessageAndData (var_name v) (def_type def =s "FunctionName") in
        map (fun d => report_data message (def_name d) data) (var_defs v)
      else []
  end.

Definition isParentOfModuleScope (scope : ScopeId) : bool := existsb (fun s => scope_type s =s "module") (childScopes scope).

Definition checked_in (checkedInParent : to_check) (scope : ScopeId) : to_check :=
  if (scope_type scope =s "function") && negb (isParentOfModuleScope scope) then All
  else if is_nothing checkedInParent && (scope_type scope =s "block") then LetConstFunction
  else checkedInParent.

Definition own_variables (toCheck : to_check) (scope : ScopeId) : list ReportDescriptor :=
  if negb (is_nothing toCheck) && negb (scope_type scope =s "function-expression-name") then
    match scope_at sm scope with Some s => flat_map (S1481_checkVariable toCheck) (omap (variable_at sm) (sco_variables s)) | None => [] end
  else [].

(** The recursion goes down the scopes; a chain of scopes is not longer than the table. *)
Fixpoint checkScope (fuel : nat) (checkedInParent : to_check) (scope : ScopeId) : list ReportDescriptor :=
  match fuel with
  | O => []
  | S fuel' =>
      let toCheck := checked_in checkedInParent scope in
      own_variables toCheck scope ++ flat_map (checkScope fuel' toCheck) (childScopes scope)
  end.

(** The scopes below a scope, itself first. *)
Fixpoint scopes_below (fuel : nat) (scope : ScopeId) : list ScopeId :=
  match fuel with
  | O => []
  | S fuel' => scope :: flat_map (scopes_below fuel') (childScopes scope)
  end.

Lemma flat_map_flat_map {A B C} (f : A -> list B) (g : B -> list C) l : flat_map g (flat_map f l) = flat_map (fun x => flat_map g (f x)) l.
Proof. induction l as [|x l IH]; [done |]. cbn. by rewrite flat_map_app, IH. Qed.

Lemma checkScope_all fuel : forall scope, checkScope fuel All scope = flat_map (own_variables All) (scopes_below fuel scope).
Proof.
  induction fuel as [|fuel IH]; intros scope; [done |]. cbn [checkScope scopes_below flat_map].
  assert (checked_in All scope = All) as -> by (unfold checked_in; by destruct (_ && _)). f_equal.
  rewrite flat_map_flat_map. apply flat_map_ext. apply IH.
Qed.

(** In a function that is not around a module, all the variables are checked, also those
    of the scopes inside, whatever was checked around. *)
Theorem variables_of_functions_checked fuel checkedInParent scope : scope_type scope = "function" -> isParentOfModuleScope scope = false ->
  checkScope fuel checkedInParent scope = flat_map (own_variables All) (scopes_below fuel scope).
Proof.
  intros F M. rewrite <- checkScope_all. destruct fuel as [|fuel]; [done |]. cbn [checkScope]. unfold checked_in. by rewrite F, M.
Qed.

(** Outside functions and blocks nothing is checked: the variables of the file, and those
    of its modules and classes. *)
Lemma nothing_checked_outside fuel : forall scope,
  (forall s, s ∈ scopes_below fuel scope -> scope_type s <> "block" /\ (scope_type s = "function" -> isParentOfModuleScope s = true)) ->
  checkScope fuel Nothing scope = [].
Proof.
  induction fuel as [|fuel IH]; intros scope H; [done |]. cbn [checkScope scopes_below] in *.
  destruct (H scope) as [B F]; [by left |]. assert (checked_in Nothing scope = Nothing) as ->.
  { unfold checked_in. apply String.eqb_neq in B. rewrite B, andb_false_r.
    destruct (String.eqb_spec (scope_type scope) "function") as [E|]; [| done]. by rewrite (F E). }
  cbn [own_variables is_nothing negb andb app]. rewrite (flat_map_ext_in _ (fun _ => [])); [clear; by induction (childScopes scope) |].
  intros c Hc. apply IH. intros s Hs. apply H. right. apply elem_of_flat_map. by exists c.
Qed.

End Listeners.

(** The values of the properties next to a rest element. *)
Definition ignored_next_to_rest (n : node) : list node :=
  let elements := get_nodes n "properties" in
  if (type_of n =s "ObjectPattern") && existsb (fun e => type_of e =s "RestElement") elements then
    omap (fun element => if (type_of element =s "Property") && truthy (get element "shorthand") && opt_type_is (get_node element "value") "Identifier"
                         then get_node element "value" else None) elements
  else [].

(** The nodes of the file, in the order of the walk, and the scope of the program. *)
Definition S1481 (l : list node) (program : node) : list ReportDescriptor :=
  match sm_getScope sm program with
  | Some scope =>
      checkScope (flat_map ignored_next_to_rest l)
        (map node_name (List.filter (fun n => type_of n =s "JSXIdentifier") l)) (length (sm_scopes sm)) Nothing scope
  | None => []
  end.

End Unused.

(** ** S6443: setters of React *)

Section Setters.

Context (sm : ScopeManager).

Definition isReactCall (callExpr : node) : bool :=
  match fullName sm callExpr with
  | Some fqn => match split_char "." fqn with module_ :: _ => module_ =s "react" | [] => false end
  | None => false
  end.

Definition named_property (n : option node) (name : string) : bool := match n with Some n => str_prop_is n "name" name | None => false end.

(** [declarationSelector]: the names of the value and of the setter. *)
Definition state_declaration (n : node) : option (string * string) :=
  init ← get_node n "init";
  callee ← get_node init "callee";
  id ← get_node n "id";
  if (type_of n =s "VariableDeclarator")
     && (str_prop_is callee "name" "useState"
         || (opt_type_is (get_node callee "object") "Identifier" && named_property (get_node callee "property") "useState"))
     && (type_of id =s "ArrayPattern")
  then
    match get_array id "elements" with
    | [VNode value; VNode setter] =>
        if (type_of value =s "Identifier") && (type_of setter =s "Identifier") then Some (node_name value, node_name setter) else None
    | _ => None
    end
  else None.

(** [callSelector]: the names of the callee and of the argument. *)
Definition setter_call (n : node) : option (string * string) :=
  callee ← get_node n "callee";
  if (type_of n =s "CallExpression") && (type_of callee =s "Identifier") && Nat.eqb (argument_count n) 1 then
    argument ← argument_at n 0;
    if type_of argument =s "Identifier" then Some (node_name callee, node_name argument) else None
  else None.

(** [referencesBySetterName]: the variables of the setter and of the value, by the name of
    the setter. *)
Definition setters : Type := list (string * (option VarId * option VarId)).

Definition declare_setter (refs : setters) (n : node) : setters :=
  match state_declaration n, get_node n "init" with
  | Some (value, setter), Some init =>
      if isReactCall init then map_set setter (getVariableFromName sm setter n, getVariableFromName sm value n) refs else refs
  | _, _ => refs
  end.

Definition check_setter (refs : setters) (n : node) : list ReportDescriptor :=
  match setter_call n with
  | Some (callee, argument) =>
      match getVariableFromName sm callee n, getVariableFromName sm argument n with
      | Some setter, Some value =>
          match variable_at sm setter ≫= fun v => map_get (var_name v) refs with
          | Some (setter', value') =>
              if bool_decide (setter' = Some setter) && bool_decide (value' = Some value) then [report "uselessSetState" n] else []
          | None => []
          end
      | _, _ => []
      end
  | None => []
  end.

Definition S6443_step (st : setters * list ReportDescriptor) (n : node) : setters * list ReportDescriptor :=
  let refs := declare_setter st.1 n in (refs, st.2 ++ check_setter refs n).

(** The nodes of the file, in the order of the walk. *)
Definition S6443 (l : list node) : setters * list ReportDescriptor := fold_left S6443_step l ([], []).

(** What is reported is a call of a setter with its own value. *)
Definition own_setter (declared : list node) (n : node) : Prop := exists d value setter callee argument,
  d ∈ declared /\ state_declaration d = Some (value, setter) /\ setter_call n = Some (callee, argument) /\
  is_Some (getVariableFromName sm callee n) /\ getVariableFromName sm setter d = getVariableFromName sm callee n /\
  is_Some (getVariableFromName sm argument n) /\ getVariableFromName sm value d = getVariableFromName sm argument n.

Definition made_of (declared : list node) (refs : setters) : Prop := forall name setter value, map_get name refs = Some (setter, value) ->
  exists d v s, d ∈ declared /\ state_declaration d = Some (v, s) /\ setter = getVariableFromName sm s d /\ value = getVariableFromName sm v d.

Lemma declare_setter_made declared refs n : made_of declared refs -> made_of (declared ++ [n]) (declare_setter refs n).
Proof.
  intros M. assert (made_of (declared ++ [n]) refs) as M'.
  { intros name s v H. destruct (M _ _ _ H) as (d & v' & s' & Hd & H'). exists d, v', s'. split; [by apply elem_of_app; left | done]. }
  unfold declare_setter. destruct (state_declaration n) as [[v s]|] eqn:E; [| done]. destruct (get_node n "init"); [| done].
  destruct (isReactCall _); [| done]. intros name s' v' [[-> [= -> ->]]|[_ H]]%map_get_set_cases; [| by eapply M'].
  exists n, v, s. split; [| done]. apply elem_of_app. right. by apply list_elem_of_singleton.
Qed.

Lemma check_setter_own declared refs n d : made_of declared refs -> d ∈ check_setter refs n -> reported_node d = Some n /\ own_setter declared n.
Proof.
  intros M. unfold check_setter. destruct (setter_call n) as [[callee argument]|] eqn:C; [| by intros ?%not_elem_of_nil].
  destruct (getVariableFromName sm callee n) as [setter|] eqn:S; [| by intros ?%not_elem_of_nil].
  destruct (getVariableFromName sm argument n) as [value|] eqn:V; [| by intros ?%not_elem_of_nil].
  destruct (variable_at sm setter ≫= _) as [[s' v']|] eqn:G; [| by intros ?%not_elem_of_nil].
  destruct (bool_decide _ && _) eqn:B; [| by intros ?%not_elem_of_nil]. split_bools. subst. intros ->%list_elem_of_singleton. split; [done |].
  destruct (variable_at sm setter) as [x|]; cbn in G; [| done]. destruct (M _ _ _ G) as (d & v & s & Hd & D & Es & Ev).
  exists d, v, s, callee, argument. split_and!; try done; congruence.
Qed.

(** Each report of S6443 is on a call that gives a setter the value it is declared with. *)
Theorem useless_setters_reported l d : d ∈ (S6443 l).2 -> exists n, reported_node d = Some n /\ n ∈ l /\ own_setter l n.
Proof.
  unfold S6443. enough (forall l declared refs reports, made_of declared refs ->
    (forall d, d ∈ reports -> exists n, reported_node d = Some n /\ n ∈ declared /\ own_setter declared n) ->
    forall d, d ∈ (fold_left S6443_step l (refs, reports)).2 -> exists n, reported_node d = Some n /\ n ∈ declared ++ l /\ own_setter (declared ++ l) n) as H.
  { apply (H l [] [] []); [done | by intros ? ?%not_elem_of_nil]. }
  clear l d. induction l as [|n l IH]; intros declared refs reports M R d; cbn [fold_left]; [rewrite app_nil_r; apply R |].
  intros H. cbn [S6443_step fst snd] in H. pose proof (declare_setter_made _ _ n M) as M'.
  replace (declared ++ n :: l) with ((declared ++ [n]) ++ l) by (by rewrite <- app_assoc).
  assert (forall m, own_setter declared m -> own_setter (declared ++ [n]) m) as Mono.
  { intros m (d' & v & s & c & a & Hd & H'). exists d', v, s, c, a. split; [by apply elem_of_app; left | done]. }
  eapply (IH _ _ _ M'); [| exact H]. intros d' [Hd|Hd]%elem_of_app.
  - destruct (R d' Hd) as (m & Em & Hm & O). exists m. split; [done |]. split; [by apply elem_of_app; left | by apply Mono].
  - destruct (check_setter_own _ _ _ _ M' Hd) as [Em O]. exists n. split; [done |]. split; [| done].
    apply elem_of_app. right. by apply list_elem_of_singleton.
Qed.

End Setters.

(** ** S5264: contents of [object] elements *)

Section Objects.

(** The helpers of jsx-ast-utils and of the accessibility plugin, and the case of texts. *)
Context (getProp : list value -> string -> option node) (getLiteralPropValue getPropValue : option node -> value).
Context (elementType : node -> string) (toUpperCase toLowerCase : string -> string).

Definition isHiddenFromScreenReader (type : string) (attributes : list value) : bool :=
  ((toUpperCase type =s "INPUT")
   && match getLiteralPropValue (getProp attributes "type") with VStr hidden => toUpperCase hidden =s "HIDDEN" | _ => false end)
  || match getPropValue (getProp attributes "aria-hidden") with VBool b => b | _ => false end.

(** A child that is not a fragment. *)
Definition visible_leaf (child : node) : bool :=
  if type_of child =s "JSXText" then negb (trim (default "" (get_str child "value")) =s "")
  else if type_of child =s "JSXElement" then
    match get_node child "openingElement" with
    | Some opening => negb (isHiddenFromScreenReader (elementType opening) (get_array opening "attributes"))
    | None => false
    end
  else if type_of child =s "JSXExpressionContainer" then
    match get_node child "expression" with
    | Some expression =>
        if type_of expression =s "Identifier" then negb (node_name expression =s "undefined")
        else negb (type_of expression =s "JSXEmptyExpression")
    | None => false
    end
  else false.

(** The recursion goes down the fragments. *)
Fixpoint hasVisibleChildren (fuel : nat) (children : list node) : bool :=
  match fuel with
  | O => false
  | S fuel' =>
      existsb (fun child => if type_of child =s "JSXFragment" then hasVisibleChildren fuel' (get_nodes child "children") else visible_leaf child)
        children
  end.

Definition S5264 (n : node) : eval (list ReportDescriptor) :=
  let! opening := node_at n "openingElement" in
  Ok (if negb (toLowerCase (elementType opening) =s "object") then []
      else if negb (hasVisibleChildren (node_size n) (get_nodes n "children")) then [report "addContent" n] else []).

(** A node that shows something, itself or inside its fragments. *)
Inductive shown : node -> Prop :=
| shown_leaf n : type_of n <> "JSXFragment" -> visible_leaf n = true -> shown n
| shown_fragment n c : type_of n = "JSXFragment" -> c ∈ get_nodes n "children" -> shown c -> shown n.

Lemma visible_children_shown fuel : forall children, (forall c, c ∈ children -> node_size c < fuel) ->
  hasVisibleChildren fuel children = true <-> exists c, c ∈ children /\ shown c.
Proof.
  induction fuel as [|fuel IH]; intros children F.
  { split; [done |]. intros (c & H & _). apply F in H. lia. }
  cbn [hasVisibleChildren]. rewrite existsb_exists. setoid_rewrite <- list_elem_of_In.
  assert (forall c, c ∈ children ->
    (if type_of c =s "JSXFragment" then hasVisibleChildren fuel (get_nodes c "children") else visible_leaf c) = true <-> shown c) as H.
  { intros c Hc. destruct (String.eqb_spec (type_of c) "JSXFragment") as [T|T].
    - rewrite IH. 2: { intros d Hd. apply get_nodes_size in Hd. specialize (F c Hc). lia. } split.
      + intros (d & Hd & S). by eapply shown_fragment.
      + intros S. inversion S; [done |]. by eexists.
    - split; [by apply shown_leaf |]. by intros S; inversion S. }
  split; intros (c & Hc & S); exists c; (split; [done |]); by apply H.
Qed.

(** S5264 reports the [object] elements without a child that shows something. *)
Theorem empty_objects_reported n opening : get_node n "openingElement" = Some opening -> toLowerCase (elementType opening) = "object" ->
  S5264 n = Ok [] <-> exists c, c ∈ get_nodes n "children" /\ shown c.
Proof.
  intros O T. unfold S5264, node_at. rewrite O. cbn [of_option rbind]. rewrite T. replace ("object" =s "object") with true by done. cbn [negb].
  rewrite <- (visible_children_shown (node_size n)) by (intros c; apply get_nodes_size).
  by destruct (hasVisibleChildren _ _).
Qed.

End Objects.

(** ** S1940: operators that are negated *)

Section Small.

Context (sc : SourceCode) (getText : node -> string) (getFirstToken getTokenBefore : node -> option Token).

Definition invertedOperators : list (string * string) :=
  [("==", "!="); ("!=", "=="); ("===", "!=="); ("!==", "==="); (">", "<="); ("<", ">="); (">=", "<"); ("<=", ">")].

(** The condition that an operation negates, and the operator that replaces its own. *)
Definition negated_condition (n : node) : option (node * string) :=
  condition ← get_node n "argument";
  if str_prop_is n "operator" "!" && (type_of condition =s "BinaryExpression") then
    operator ← get_str condition "operator"; inverted ← map_get operator invertedOperators; Some (condition, inverted)
  else None.

Definition visitUnaryExpression (n : node) (parent : option node) : eval (list (ReportDescriptor * Suggested)) :=
  match negated_condition n with
  | Some (condition, invertedOperator) =>
      let! l := node_at condition "left" in
      let! r := node_at condition "right" in
      let '(open_, close) := if opt_type_is parent "UnaryExpression" then ("(", ")") else ("", "") in
      let! range := range_of n in
      Ok [(report_data "useOppositeOperator" n [("invertedOperator", invertedOperator)],
           mkSuggested "suggestOperationInversion"
             [(range, (open_ +:+ getText l +:+ " " +:+ invertedOperator +:+ " " +:+ getText r +:+ close)%string)])]
  | None => Ok []
  end.

Definition S1940 (n : node) (parent : option node) : eval (list (ReportDescriptor * Suggested)) :=
  if type_of n =s "UnaryExpression" then visitUnaryExpression n parent else Ok [].

(** What an operator says of two numbers, none of them NaN. *)
Definition compares (operator : string) (a b : Q) : option bool :=
  map_get operator
    [("==", Qeq_bool a b); ("!=", negb (Qeq_bool a b)); ("===", Qeq_bool a b); ("!==", negb (Qeq_bool a b));
     (">", negb (Qle_bool a b)); ("<", negb (Qle_bool b a)); (">=", Qle_bool b a); ("<=", Qle_bool a b)].

(** On numbers other than NaN, the operator of the suggestion says the contrary. *)
Theorem inverted_operator_negates operator inverted a b : map_get operator invertedOperators = Some inverted ->
  exists r, compares operator a b = Some r /\ compares inverted a b = Some (negb r).
Proof.
  intros H%map_get_Some_elem. repeat (apply elem_of_cons in H as [[= -> ->]|H]; [eexists; split; [reflexivity | cbn; by rewrite ?negb_involutive] |]).
  by apply not_elem_of_nil in H.
Qed.

(** ** S2737: errors that are only thrown again *)

Definition onlyRethrows (statement catchParam : node) : bool :=
  isThrowStatement (Some statement)
  && match get_node statement "argument" with Some argument => Duplicates.equivalent sc catchParam argument | None => false end.

Definition visitCatchClause (catchClause : node) : eval (list ReportDescriptor) :=
  let! body := node_at catchClause "body" in
  match get_node catchClause "param", get_nodes body "body" with
  | Some param, [statement] =>
      if onlyRethrows statement param then
        let! catchKeyword := of_option TypeError (getFirstToken catchClause) in
        Ok [mkDescriptor "uselessCatch" [] (AtLocation (t_loc catchKeyword)) []]
      else Ok []
  | _, _ => Ok []
  end.

(** ** S104: long files *)

Definition S104 (maximum : option nat) (lines : list string) (comments : list Comment) (program : node) : eval (list ReportDescriptor) :=
  match h_loc (hdr program) with
  | None => Ok []
  | Some loc =>
      let threshold := default 1000 maximum in
      let! lineCount := getLocsNumber loc lines (getCommentLineNumbers comments) in
      Ok (if threshold <? lineCount
          then [file_issue "maxFileLine" [("lineCount", pretty (Z.of_nat lineCount)); ("threshold", pretty (Z.of_nat threshold))]] else [])
  end.

(** ** S3358: conditional expressions inside one another *)

Definition breaksNesting (n : node) : bool :=
  includes (type_of n) ["ArrayExpression"; "ObjectExpression"; "FunctionExpression"; "ArrowFunctionExpression"; "JSXExpressionContainer"].

(** The loop from the nearest ancestor, which meets a conditional expression at last. *)
Fixpoint isNestingBroken (ancestors : list node) : bool :=
  match ancestors with
  | [] => false
  | parent :: rest => if type_of parent =s "ConditionalExpression" then false else breaksNesting parent || isNestingBroken rest
  end.

Definition S3358 (n : node) (ancestors : list node) : list ReportDescriptor :=
  if (type_of n =s "ConditionalExpression") && existsb (fun a => type_of a =s "ConditionalExpression") ancestors
     && negb (isNestingBroken ancestors)
  then [report "extractTernary" n] else [].

(** What S3358 reports is in a conditional expression with nothing in between that breaks
    the nesting, and only that. *)
Theorem nested_conditionals_reported n ancestors : type_of n = "ConditionalExpression" ->
  S3358 n ancestors <> [] <->
  exists between c outer, ancestors = between ++ c :: outer /\ type_of c = "ConditionalExpression" /\
    forall a, a ∈ between -> breaksNesting a = false.
Proof.
  intros T. unfold S3358. rewrite T. replace ("ConditionalExpression" =s "ConditionalExpression") with true by done. cbn [andb].
  assert (existsb (fun a => type_of a =s "ConditionalExpression") ancestors && negb (isNestingBroken ancestors) = true <->
    exists between c outer, ancestors = between ++ c :: outer /\ type_of c = "ConditionalExpression" /\ forall a, a ∈ between -> breaksNesting a = false) as <-;
    [| by destruct (_ && _)].
  induction ancestors as [|p ancestors IH]; cbn [existsb isNestingBroken].
  { split; [done |]. by intros ([|] & c & o & E & _). }
  destruct (String.eqb_spec (type_of p) "ConditionalExpression") as [P|P]; cbn [orb andb negb].
  - split; [| done]. intros _. exists [], p, ancestors. split_and!; [done | done |]. by intros a ?%not_elem_of_nil.
  - destruct (breaksNesting p) eqn:B; cbn [orb negb].
    + rewrite andb_false_r. split; [done |]. intros ([|q b] & c & o & E & C & H); injection E as -> ->; [done |].
      by rewrite (H q) in B by (by left).
    + rewrite IH. split.
      * intros (b & c & o & -> & C & H). exists (p :: b), c, o. split_and!; [done | done |]. intros a [->|Ha]%elem_of_cons; [done | by apply H].
      * intros ([|q b] & c & o & E & C & H); injection E as -> ->; [done |]. exists b, c, o. split_and!; [done | done |].
        intros a Ha. apply H. by right.
Qed.

(** ** S1439, S1264 and S126 *)

Definition isLoopStatement (n : node) : bool :=
  includes (type_of n) ["WhileStatement"; "DoWhileStatement"; "ForStatement"; "ForOfStatement"; "ForInStatement"].

Definition isSwitchStatement (n : node) : bool := type_of n =s "SwitchStatement".

(** [checkLabeledStatement(node, context)] *)
Definition S1439 (n : node) : eval (list ReportDescriptor) :=
  let! body := node_at n "body" in
  if negb (isLoopStatement body) && negb (isSwitchStatement body) then
    let! label := node_at n "label" in Ok [report_data "removeLabel" label [("label", node_name label)]]
  else Ok [].

(** The report of a loop without initialisation and update, and its fix: the range up to
    the parenthesis, and the text. *)
Definition getFix (forLoop : node) : option ((Z * Z) * string) :=
  condition ← get_node forLoop "test";
  forLoopRange ← h_range (hdr forLoop);
  body ← get_node forLoop "body";
  closingParenthesisToken ← getTokenBefore body;
  Some ((forLoopRange.1, (t_range closingParenthesisToken).2), ("while (" +:+ getText condition +:+ ")")%string).

Definition S1264 (forLoop : node) : list (ReportDescriptor * option ((Z * Z) * string)) :=
  match getFirstToken forLoop with
  | Some forKeyword =>
      if negb (truthy (get forLoop "init")) && negb (truthy (get forLoop "update")) && truthy (get forLoop "test")
      then [(mkDescriptor "replaceForWithWhileLoop" [] (AtLocation (t_loc forKeyword)) [], getFix forLoop)] else []
  | None => []
  end.

(** The keyword [else] before a node and the keyword [if] in it. *)
Context (elseKeyword ifKeyword : node -> option Token).

Definition S126_isElseIf (n : node) (parent : option node) : bool :=
  match parent with
  | Some p => (type_of p =s "IfStatement") && match get_node p "alternate" with Some a => same_node a n | None => false end
  | None => false
  end.

Definition S126 (n : node) (parent : option node) : eval (list ReportDescriptor) :=
  if S126_isElseIf n parent && negb (truthy (get n "alternate")) then
    let! else_ := of_option TypeError (elseKeyword n) in
    let! if_ := of_option TypeError (ifKeyword n) in
    Ok [mkDescriptor "addMissingElseClause" [] (AtLocation (mkLoc (start (t_loc else_)) (endp (t_loc if_)))) []]
  else Ok [].

End Small.

(** ** S5332: protocols that are not encrypted *)

Section Protocols.

Context (sm : ScopeManager) (parents : node -> list node) (stack : nat).
(** [new URL(value).hostname], when the text is a URL, and [String.toLocaleLowerCase]. *)
Context (url_hostname : string -> option string) (toLocaleLowerCase : string -> string).

Definition INSECURE_PROTOCOLS : list string := ["http://"; "ftp://"; "telnet://"].
Definition EXCEPTION_FULL_HOSTS : list string :=
  ["www.w3.org"; "xml.apache.org"; "schemas.xmlsoap.org"; "schemas.openxmlformats.org"; "rdfs.org"; "purl.org"; "xmlns.com";
   "schemas.google.com"; "a9.com"; "ns.adobe.com"; "ltsc.ieee.org"; "docbook.org"; "graphml.graphdrawing.org"; "json-schema.org";
   "schemas.microsoft.com"].

(** [EXCEPTION_TOP_HOSTS]: the dot of [/\.?example\.com$/] is optional, so that the text
    before the end is free. *)
Definition EXCEPTION_TOP_HOSTS : list string := [".example"; "example.com"; "example.org"; ".test"; "test.com"].

Fixpoint suffixes (s : string) : list string := s :: match s with EmptyString => [] | String _ r => suffixes r end.

(** [127(?:\.\d+){0,2}\.\d+$] at the start of a text. *)
Definition loopback_v4 (s : string) : bool :=
  match split_char "." s with
  | first :: (_ :: _) as parts =>
      (first =s "127") && (length parts <=? 4) && forallb (fun p => negb (p =s "") && forallb is_digit_char (chars p)) parts
  | _ => false
  end.

(** [\/\/(?:0*:)*?:?0*1$] at the start of a text: zeros and colons, then a one. *)
Definition loopback_v6 (s : string) : bool :=
  match strip_prefix "//" s with
  | Some r =>
      match rev (chars r) with
      | last_ :: others => Ascii.eqb last_ "1" && forallb (fun c => Ascii.eqb c "0" || Ascii.eqb c ":") others
      | [] => false
      end
  | None => false
  end.

(** [LOOPBACK_PATTERN.test(host)] *)
Definition LOOPBACK_PATTERN (host : string) : bool :=
  string_includes "localhost" host || existsb (fun s => loopback_v4 s || loopback_v6 s) (suffixes host).

Definition exception_host (host : string) : bool :=
  (host =s "") || LOOPBACK_PATTERN host || includes host EXCEPTION_FULL_HOSTS || existsb (fun e => endsWith e host) EXCEPTION_TOP_HOSTS.

Definition hasExceptionHost (value : string) : bool :=
  match url_hostname value with Some host => exception_host host | None => false end.

Definition isExceptionUrl (value : string) (n : node) : bool :=
  if includes value INSECURE_PROTOCOLS then
    match parents n with
    | parent :: _ => negb ((type_of parent =s "BinaryExpression") && str_prop_is parent "operator" "+")
    | [] => true
    end
  else hasExceptionHost value.

Definition protocol_report (protocol : string) (n : node) : ReportDescriptor :=
  let alternative := if protocol =s "http" then "https" else if protocol =s "ftp" then "sftp, scp or ftps" else "ssh" in
  report_data "insecureProtocol" n [("protocol", protocol); ("alternative", alternative)].

(** [insecure.substring(0, insecure.indexOf(':'))] *)
Definition protocol_of (insecure : string) : string := default "" (head (split_char ":" insecure)).

Definition S5332_Literal (n : node) : list ReportDescriptor :=
  match get n "value" with
  | VStr text =>
      let value := toLocaleLowerCase (trim text) in
      match List.find (fun protocol => startsWith protocol value) INSECURE_PROTOCOLS with
      | Some insecure => if isExceptionUrl value n then [] else [protocol_report (protocol_of insecure) n]
      | None => []
      end
  | _ => []
  end.

Local Notation property_of object key := (found_property sm parents stack object key).

(** [property.value.type !== 'Literal' || test(property.value.raw)] *)
Definition value_is (test : option string -> bool) (property : node) : eval bool :=
  let! value := node_at property "value" in
  Ok (negb (type_of value =s "Literal") || test (get_str value "raw")).

Definition usesSesCommunication (sesProperty : node) : eval bool :=
  match valueOf sm (get_node sesProperty "value") "ObjectExpression" with
  | None => Ok false
  | Some configuration =>
      let! sesOf := property_of (Some configuration) "ses" in
      match valueOf sm (sesOf ≫= fun p => get_node p "value") "NewExpression" with
      | None => Ok false
      | Some ses =>
          if negb (name_is (normalizedName sm ses) "@aws_sdk.client_ses.SES") then Ok false
          else
            let! aws := property_of (Some configuration) "aws" in
            match aws with
            | None => Ok false
            | Some aws => let! value := node_at aws "value" in Ok (name_is (normalizedName sm value) "@aws_sdk.client_ses")
            end
      end
  end.

(** The early returns of [checkNodemailer], in order: whether a property is one of them. *)
Definition returns_for (firstArgValue : option node) (key : string) (test : option string -> bool) : eval bool :=
  let! property := property_of firstArgValue key in
  match property with Some p => value_is test p | None => Ok false end.

Definition raw_is (text : string) (raw : option string) : bool := match raw with Some r => r =s text | None => false end.
Definition raw_is_not (text : string) (raw : option string) : bool := negb (raw_is text raw).

Definition checkNodemailer (callExpression : node) : eval (list ReportDescriptor) :=
  match argument_at callExpression 0 with
  | None => Ok []
  | Some firstArg =>
      let firstArgValue := valueOf sm (Some firstArg) "ObjectExpression" in
      let! ses := property_of firstArgValue "SES" in
      let! uses := match ses with Some s => usesSesCommunication s | None => Ok false end in
      if uses : bool then Ok []
      else
        let! secure := returns_for firstArgValue "secure" (raw_is_not "false") in
        if secure : bool then Ok []
        else
          let! requireTls := returns_for firstArgValue "requireTLS" (raw_is_not "false") in
          if requireTls : bool then Ok []
          else
            let! port := returns_for firstArgValue "port" (raw_is "465") in
            if port : bool then Ok []
            else let! callee := node_at callExpression "callee" in Ok [protocol_report "http" callee]
  end.

Definition checkCallToFtp (callExpression : node) : eval (list ReportDescriptor) :=
  let! callee := node_at callExpression "callee" in
  if (type_of callee =s "MemberExpression") && identifier_named (get_node callee "property") "connect" then
    match valueOf sm (get_node callee "object") "NewExpression" with
    | Some newExpression =>
        let! class_ := node_at newExpression "callee" in
        if fqn_is sm class_ "ftp" then
          match argument_at callExpression 0 with
          | None => Ok []
          | Some firstArg =>
              let! secure := property_of (valueOf sm (Some firstArg) "ObjectExpression") "secure" in
              match secure with
              | Some secure =>
                  let! value := node_at secure "value" in
                  Ok (if (type_of value =s "Literal") && raw_is "false" (get_str value "raw") then [protocol_report "ftp" callee] else [])
              | None => Ok []
              end
          end
        else Ok []
    | None => Ok []
    end
  else Ok [].

Definition checkCallToRequire (callExpression : node) : list ReportDescriptor :=
  if identifier_named (get_node callExpression "callee") "require" then
    match argument_at callExpression 0 with
    | Some firstArg => if (type_of firstArg =s "Literal") && str_prop_is firstArg "value" "telnet-client" then [protocol_report "telnet" firstArg] else []
    | None => []
    end
  else [].

Definition S5332 (n : node) : eval (list ReportDescriptor) :=
  if type_of n =s "Literal" then Ok (S5332_Literal n)
  else if type_of n =s "CallExpression" then
    both (when (fqn_is sm n "nodemailer.createTransport") (checkNodemailer n))
      (both (checkCallToFtp n) (Ok (checkCallToRequire n)))
  else if type_of n =s "ImportDeclaration" then
    let! source := node_at n "source" in
    Ok (if str_prop_is source "value" "telnet-client" then [protocol_report "telnet" source] else [])
  else Ok [].

(** A URL whose text is trimmed, in lower case and with a host that is not an exception is
    reported with its protocol. *)
Theorem insecure_urls_reported n text host protocol : get n "value" = VStr text -> protocol ∈ INSECURE_PROTOCOLS ->
  startsWith protocol (toLocaleLowerCase (trim text)) = true -> includes (toLocaleLowerCase (trim text)) INSECURE_PROTOCOLS = false ->
  url_hostname (toLocaleLowerCase (trim text)) = Some host ->
  S5332_Literal n = if exception_host host then [] else [protocol_report (protocol_of protocol) n].
Proof.
  intros V P S I H. unfold S5332_Literal. rewrite V. set (value := toLocaleLowerCase (trim text)) in *.
  assert (List.find (fun p => startsWith p value) INSECURE_PROTOCOLS = Some protocol) as ->.
  { unfold INSECURE_PROTOCOLS in *. destruct value as [|c value]; [by repeat (apply elem_of_cons in P as [->|P]; [done |]); apply not_elem_of_nil in P |].
    repeat (apply elem_of_cons in P as [->|P]); [| | | by apply not_elem_of_nil in P]; cbn [List.find]; rewrite ?S; [done | |];
      unfold startsWith in *; cbn [String.prefix] in *; destruct (Ascii.ascii_dec _ c) as [<-|] in S; try done; cbn; by rewrite S. }
  unfold isExceptionUrl, hasExceptionHost. by rewrite I, H.
Qed.

End Protocols.

(** A private host whose last numbers begin with 127 is taken for the loopback, and so is a
    host whose first number ends with 127; any host that ends with [example.com] is an
    exception; the loopback of IPv6, as hosts of URLs are written, is none. *)
Lemma loopback_hosts :
  map exception_host ["127.0.0.1"; "10.127.0.1"; "myexample.com"; "[::1]"; "10.0.0.1"] = [true; true; true; false; false].
Proof. by vm_compute. Qed.
